(* ===== verification/_CoqProject ===== *)
-Q . S2P
Prelude.v
GoStrings.v
GoUrl.v
GoJson.v
GoJsonPrint.v
GoFloat.v
GoHttp.v
Sha256.v
GoEncoding.v
Contract.v
Validation.v
Decode.v
Resolver.v
ResolvedLemmas.v
Egress.v
Tunnels.v
EgressProps.v
LocalRun.v
LocalRoutes.v
Sql.v
StoreRow.v
StoreOps.v
StoreBatch.v
Fixture.v
ResolvedProps.v
StoreValid.v
StoreSteps.v
StoreRefine.v
StoreViews.v
StoreBatchRefine.v
StoreSystem.v
StoreProps.v
StoreBatchProps.v
Reconciler.v
ReconcilerTheorems.v
Eligibility.v
GatewayAuth.v
GatewayRouting.v
GatewaySessions.v
GatewayProps.v
Scheduling.v
SchedulerLoad.v
HttpApi.v
ApiProps.v
ApiFixture.v
ApiTheorems.v
GatewayTheorems.v
GithubCommand.v
GithubSubmit.v
GithubState.v
GithubPoller.v
GithubPollerProps.v
GithubCompose.v
GithubTheorems.v
Program.v
OperatorTypes.v
OperatorPolicy.v
OperatorProfiles.v
OperatorSchedule.v
OperatorAdmission.v
OperatorLocks.v
OperatorProps.v
OperatorSystem.v
OperatorCompose.v
EgressConfig.v
Injection.v
InjectionProps.v
OperatorEgress.v
OperatorEgressTheorems.v
OperatorTheorems.v
PortalTypes.v
Enrollment.v
EnrollmentProps.v
EnrollmentTheorems.v
PortalServer.v
LocalPlan.v
LocalPlanProps.v
LocalStore.v
LocalStoreProps.v
LocalTheorems.v
