(* ===== verification/Prelude.v ===== *)
(** * nvt-agent: a verification development

    nvt-agent runs coding agents in containers under a trusted controller.
    This library models the parts of it that decide: which run is created and
    what it may do, what happens to a run until it is gone, what a running
    agent can reach, who may see and reach a run, and how comments become
    runs.  Everything is translated from the Go sources under src/.

    ** The program

    - protocol/resolvedrun is the contract.  An administrator's trusted
      configuration and an authenticated request are resolved into one
      immutable document, the resolved run, which every backend executes
      unchanged.
    - localcontroller/internal/controller is the local controller.  Its store
      keeps one SQLite row per run and is the only shared state: API handlers,
      the scheduler and the reconciler all go through its methods.  The
      reconciler claims a lease on a run, calls the execution backend, and
      reports the outcome back to the store.  Its HTTP API serves three
      audiences with tokens of their own: the administrator, the gateway and
      the producers of scheduled work.
    - protocol/localroutes is what the controller tells the gateway of the
      active runs, protocol/eligibility the policy by which logins are decided.
    - gateway/internal/gateway is the way in: it logs browsers in through an
      identity provider, keeps their sessions, reads the routes from the
      controller and proxies a request to a run its caller is allowed.
    - egressd/internal/egress is the egress daemon, the one way out of a
      mediated agent: it admits CONNECT requests by port, domain policy and
      destination address, bounds the open tunnels, and forwards requests to
      the upstream of a route with credentials it fetches from the broker, so
      that the agent never holds them.
    - producers/github-comments/internal/producer watches repositories for
      commands in issue comments, submits the work they ask for to a schedule
      of the controller, and keeps its place in a state store.
    - operator/internal/controller is the other host of runs, a Kubernetes
      operator.  Its schedule admission takes the same requests from producers
      as the local controller's, under a lock per schedule; what it creates it
      builds from the schedule's profiles, and it renders the network
      policies, the service and the daemon's configuration of a run's egress.
    - credentialportal/internal/portal is the web application through which
      users hand credentials over: an enrollment runs a provider's login in a
      bounded session and stores what comes out of it in the user's slot or
      broker account.
    - localplatform/state sets up the volumes the local services share: what
      each may mount, their configuration, the secrets generated for them and
      an inventory of it all, over Docker, in a way that an interrupted run
      can be followed by another.
    - The remaining services (the rest of the local platform's tooling, the
      Python broker and runtime) call these or render configuration for them.

    ** The files

    The Go language and library.  Prelude: results, the store monad with
    transactions, int64 wrap-around, string order, the shared tactics and the
    hint database [go].  GoStrings (with regexp), GoUrl (with net/netip),
    GoJson, GoHttp (with path/filepath), Sha256: what the sources use of
    strings, unicode, strconv, net, net/url, encoding/json (its struct mapping
    for request bodies included), mime, regexp and crypto/sha256, as
    executable functions.  GoEncoding: encoding/base64, crypto/hmac and
    strconv.Itoa.  GoFloat: reading and printing float64, which
    json.Unmarshal into any and json.Marshal do to every number.  GoJsonPrint:
    lemmas on splitting, prefixes and suffixes, and json.Marshal with the
    proof that the decoder of GoJson reads back what it prints.

    The contract (protocol/resolvedrun).  Contract: contract.go, a record per
    struct.  Validation: validation.go, every validator, with the error texts.
    Decode: decode.go, the strict decoder.  Resolver: resolver.go and
    runtime_selection.go.  ResolvedLemmas, ResolvedProps: proofs.

    The egress daemon.  Egress: domain_policy.go, destination_policy.go, target
    parsing, the forward-proxy part of config.go and the decision path of
    [ServeHTTP].  Tunnels: [acquireTunnel] and its release function as
    interleaving goroutines, with the invariants.  EgressProps: proofs.
    EgressConfig: the rest of config.go.  Injection: proxy.go, broker.go,
    reporter.go and catalog.go, the proxy that puts the broker's credentials
    into requests; concurrent requests are a transition system of three steps
    each.  InjectionProps: proofs and a concrete route.

    The run store.  LocalRun: types.go and the identifier checks.  Sql: one
    table with a primary key and a unique column.  StoreRow: the columns,
    [scanStoredRun] and [validateStoredRun].  StoreOps: the methods on one
    run, on pages and on snapshots, and the sweep.  StoreBatch: [createBatch],
    behind [Create], [CreateBatch] and [ReconcileWorkstations].  StoreSteps:
    the abstract specification, a transition system of guarded row changes.
    StoreValid, StoreRefine, StoreBatchRefine, StoreViews,
    StoreSystem: the invariant, its preservation and the refinement.  Fixture:
    concrete runs and tables.  StoreProps, StoreBatchProps: what callers rely
    on.

    The reconciler.  Reconciler: reconciler.go, with an environment that may
    change the table before each of its calls of the store and of the backend,
    and a database that may fail.  ReconcilerTheorems: proofs.

    The controller's API.  LocalRoutes: protocol/localroutes.  Scheduling:
    the identity of work, producer tokens and the token audiences of
    api_auth.go.  SchedulerLoad: [LoadScheduler] and the administrator's
    document.  HttpApi: http.go and routes.go, every route as a function from
    a request and a table to a response and a table, and the schedule routes
    of scheduling.go ([admit] is [admit_work]).  ApiProps, ApiTheorems:
    proofs.  ApiFixture: a concrete server.

    The gateway.  Eligibility: protocol/eligibility/policy.go.  GatewayAuth:
    authorization.go.  GatewayRouting: routing.go, the local routes of
    local_runs.go and the cookies of proxy_security.go.  GatewaySessions:
    auth.go, oauth2_auth.go and the addresses of signin.go, a handler being a
    function from a request and the session store to a response and a store,
    with the client of the controller's routes and
    [serveAuthorizedLocalRun] of local_runs.go.  GatewayProps, GatewayTheorems:
    proofs and a concrete gateway, GatewayTheorems with the controller of
    HttpApi as the gateway's server.

    The comment producer.  GithubCommand: command.go, authors.go,
    idempotency.go, the data of github.go and prompt.go.  GithubSubmit:
    agentrun.go up to the HTTP exchange.  GithubState: state.go, the interface
    [StateStore] with its laws [StateSpec], the store in memory and the store
    in SQLite, and that both keep the laws.  GithubPoller: poller.go, a poll
    being a computation over the store and the world outside;
    GithubPollerProps: its weakest preconditions, and the poller over two
    stores.  GithubCompose: the producer with the controller of HttpApi at the
    other end of the exchange.  GithubTheorems: a concrete producer, and the
    guarantees.

    The operator.  Program: a computation as the tree of its calls and their
    answers, with the predicate [safe] over every answering environment.
    OperatorTypes: the types of operator/api/v1alpha1.  OperatorPolicy:
    agentrun_policy.go and the validators beside it.  OperatorProfiles:
    execution_profile.go, and what a profile makes of a run, said apart from
    the code.  OperatorSchedule: agentschedule_controller.go.
    OperatorAdmission: agentschedule_admission.go, an admission being a
    program over the API server, the token review and the account service.
    OperatorLocks: the table of reference-counted locks and the concurrent
    requests that use it, a transition system with the cluster as its shared
    state, its invariants and its termination; the cluster remembers what the
    token review and the account service have said.  OperatorProps: what one
    admission does, knows and reserves.  OperatorSystem: many of them.
    OperatorCompose: the comment producer with the operator at the other end.
    OperatorTheorems: a concrete schedule, and the guarantees.
    OperatorEgress: the egress objects of agentrun_egress.go.
    OperatorEgressTheorems: the operator with the daemon that reads its
    configuration, and what the network policies of any number of runs permit
    together, as Kubernetes applies them.

    The credential portal.  PortalTypes: config.go, adapters.go and the
    answers of broker_client.go.  Enrollment: the manager of enrollment.go, a
    transition system of goroutines and callers over its semaphore, its mutex
    and the code channels.  EnrollmentProps: its invariant.
    EnrollmentTheorems: what follows, a scheduler and a concrete run.
    PortalServer: server.go, a request's handling being a program over the
    authenticator, the manager, the broker and the Secrets.

    The local platform's trusted state.  LocalPlan: localplatform/plan and
    state/plan.go, with the inventory and the configuration files of
    manager.go.  LocalPlanProps: the invariant of a plan, and that an
    inventory is read back and grows.  LocalStore: docker_store.go and
    [Ensure] of manager.go.  A volume is a small tree of files; a shell script
    is a program over it that may stop after every command and inside those
    that are not atomic; a method of the store is a program over Docker's
    commands, and [Ensure] one over the methods.  [store_step] is the contract
    of the methods.  LocalStoreProps: [docker_store_implements], that the
    store keeps it under every failure, and what each script leaves wherever
    it stops.  LocalTheorems: any number of interrupted runs, and a concrete
    host.

    ** How the code is represented

    A Go string is a byte string ([string]).  A slice is [option (list A)]
    where nil and empty differ, a list where they do not.  Integers are [Z],
    with [wrap64] where the code can leave the width and modulo 2^64 for the
    unsigned counters.  A function returning an error has type [result]; a
    method of the store is a computation that returns a result and the table
    it leaves, and [transaction] undoes the writes of a failed one.  Every SQL
    statement is a function on rows with the statement's WHERE clause.  A time
    is an integer of nanoseconds; each reading of the clock is an argument.

    Code outside these sources is a parameter: [SnapshotCodec] is the struct
    mapping of encoding/json for resolved runs, [LocalBackend] the execution
    backend, [IPResolver] the name service, [RouteProvider] the endpoints of
    the backend, [NativeDecoder] the YAML parser with its struct mapping,
    [FileSystem] the token files, [IdentityProvider] the OAuth2 or OIDC
    provider with claim enrichment and [CookieCodec] securecookie,
    [GitHubClient] GitHub, [Ambient] clock and randomness of the poller.
    The API server, the token review, the account service, clock and
    randomness of an operator's admission are the answers to its calls; owner
    references, the decoding of an embedded AgentRun and PEM parsing are
    arguments.  The runner, the broker, the Secrets, the clock and randomness of
    the portal are the answers to its calls.  The broker's and the upstream's
    answers, the clock and the order in which a map is ranged over are arguments
    of the injecting proxy.  The decoders of route documents take their struct mapping as an argument.
    Instances for the witnesses are in Fixture, ReconcilerTheorems,
    EgressProps, InjectionProps, ApiFixture, GatewayTheorems, GithubTheorems,
    OperatorTheorems and LocalTheorems.

    Fuel: [parse_json] runs with [json_fuel], twice the length of the text,
    and [parse_json_fuel] shows more changes nothing.  Listing and the
    reconciler's page loops take one page per row and one more, shown enough
    by [list_terminates] and [reconcile_terminates].  The gateway's client
    reads at most the 64 pages the code allows, shown enough by
    [gateway_shows_active_runs].  The IPv6 parser reads at
    most the eight groups an address has.

    ** What the theorems show

    - C1 to C3, the store as a whole: its operations refine the transition
      system, and every table they produce opens again, but for the rollback of
      an immutable replacement, whose damage is described; the sweep does
      exactly what is due.
    - C4 and C5, single runs and batches: leases exclude, capacity.
    - C6 and C7, the reconciler against every backend, every environment that
      follows the transition system, between its claim and the call it is for
      too, and a database that may fail.
    - C8 to C14, the operator's admission: limits, work identities, the runs
      it makes down to the agent's configuration, its locks and its reservations, under every interleaving of
      requests and every answer of the servers; and what a producer at the
      other end learns.
    - C15 to C19, the credential portal: whose credentials are stored where,
      what a status means, that nothing blocks, its bounds, and what a request
      may cause.
    - C20 to C25, the local platform's trusted state: after any number of
      interrupted runs generated secrets are kept (C20) and no volume is
      forgotten (C21); a finished run has supplied every consumer (C22), a
      conflict stops a run before it writes (C23), a half-written source is
      completed (C24), and private volumes are mounted apart (C25).
    - C26 to C28, the operator's egress: which admitted runs the daemon starts
      for, the fence around the agent and around its daemon, and the three
      implementations of domain policies.
    - C29, the contract: resolution, every field of the run accounted for.
    - C30 to C35, the egress daemon: CONNECT admission and the tunnel slots
      under every interleaving; of credential injection, that the caller has no
      say in the credentials (C32) and, its target not being opaque, none in
      the host (C33), whose authority a request carries and for how long
      (C34), and the quota (C35).
    - C36, the local API: what a token entitles to.
    - C37, the gateway: login and authorization policies agree.
    - C38 to C40, the comment producer: with the controller at the other end
      it knows what became of its submissions; cursors move only past what is
      done, and the stores are interchangeable.

    Beside these, [create_fresh_spec], [create_replay],
    [tombstone_permanent], [cleanup_first], [audiences_apart],
    [requests_audited], [PathClass_shape], [reporter_accounts],
    [terminal_expiry_bounds],
    [operations_follow_lifecycle], [validated_egress_modes],
    [pattern_covers_boundary], [run_id_checks_agree], [stale_update_rejected],
    [unacknowledged_not_destructive], [create_after_delete_is_gone],
    [selection_not_overridden], [sensitive_claims_unusable],
    [own_cookies_withheld], [help_attempts_spaced], [list_page_spec],
    [admission_sound], [session_changes], [local_run_access],
    [service_ports_distinct_iff], [revision_identifies],
    [admissions_answered], [credentialed_repository_authorized],
    [denied_ranges_refused], [gateway_shows_active_runs], [run_names_valid]
    and others of the files
    above are stated for their own sake.

    Theorems that show a divergence: [replacement_rollback_breaks_store], a
    sequence of calls that leaves the store unusable,
    [trailing_option_swallows_selector], [untrimmed_name_hides_routes],
    [sensitive_paths_diverge], [backslash_return_url],
    [unacceptable_work_never_final], [legacy_provenance_kept],
    [admitted_not_started_case], [admitted_not_started_port],
    [admitted_not_started_broker], [admitted_service_repeats_port],
    [foreign_label_accepted], [rollback_exceeds_capacity],
    [invalid_target_read_as_another], [opaque_target_escapes] and
    [drain_delivers_nothing].

    The store theorems assume admissible calls ([StoreSystem.admissible]): the
    clock is not behind the rows' creation, an input's canonical document
    decodes again, and a rollout is aborted only while it prepares.  A batch
    may roll back an immutable replacement: C1, C2 and C5 say what becomes of
    the table then.  That the others in C6 and C7 follow the transition system
    leaves such a batch out of what they do.

    ** What is not modelled

    Opening and migrating the database file, SQLite errors, logging, sockets,
    TLS, DNS and the Docker API are I/O.  Of the contract, render.go and the
    two request decoders; of the controller, its process configuration; of the
    egress daemon, the copying of bodies and upgraded streams and the
    certificate authority; of the gateway, its configuration check, the Kubernetes-backed runs, the pages
    and the reverse proxy; the enrichment client of the eligibility protocol;
    of the comment producer, the GitHub and Kubernetes clients, the direct and
    the legacy submission, and its configuration; of the operator, the
    reconciliation of runs: pods, volumes, broker policies, preparation,
    certificates and lifecycle callbacks; of the portal, the login with an
    identity provider, the runner's process, the HTTP clients, the audit log
    and loading the configuration; of the local platform, the manifest
    compiler, the renderers, the resolver of private inputs and the commands,
    and of its store what a power failure does to data that is not synced, and
    two managers at once. *)
From stdpp Require Import base list strings.
From Stdlib Require Import ZArith Lia.

Declare Scope go_scope.
Delimit Scope go_scope with go.

(** ** Results and stateful computations

    A Go function returning [(T, error)] is a function into [result E T];
    a method that also mutates a store of type [S] is a computation of
    [M S E T]: it takes the store and returns the result with the store it
    leaves behind, also when it fails. *)

Inductive result (E A : Type) : Type :=
| Ok (a : A)
| Err (e : E).
Arguments Ok {E A} a.
Arguments Err {E A} e.

Definition M (S E A : Type) : Type := S -> result E A * S.

Definition ret {S E A} (a : A) : M S E A := fun s => (Ok a, s).
Definition fail {S E A} (e : E) : M S E A := fun s => (Err e, s).
Definition bind {S E A B} (m : M S E A) (k : A -> M S E B) : M S E B :=
  fun s => match m s with
           | (Ok a, s') => k a s'
           | (Err e, s') => (Err e, s')
           end.
Definition get {S E} : M S E S := fun s => (Ok s, s).
Definition put {S E} (s' : S) : M S E unit := fun _ => (Ok tt, s').
Definition lift {S E A} (r : result E A) : M S E A := fun s => (r, s).

(** A transaction that does not commit (an early error return under
    [defer tx.Rollback()]) leaves the store as it found it. *)
Definition transaction {S E A} (m : M S E A) : M S E A :=
  fun s => match m s with
           | (Ok a, s') => (Ok a, s')
           | (Err e, _) => (Err e, s)
           end.

(** [if cond { return err }] *)
Definition guard {S E} (bad : bool) (e : E) : M S E unit :=
  if bad then fail e else ret tt.

Notation "'let*' x ':=' m 'in' k" := (bind m (fun x => k))
  (at level 10, x pattern, m at level 100, k at level 200) : go_scope.
Notation "m ';;;' k" := (bind m (fun _ => k))
  (at level 100, right associativity) : go_scope.

(** Validators return an error or nil: [if bad { return errors.New(msg) }],
    and one check after the other. *)
Definition reject (bad : bool) (msg : string) : result string unit := if bad then Err msg else Ok tt.

Definition andThen {E A} (m : result E unit) (k : result E A) : result E A :=
  match m with Ok _ => k | Err e => Err e end.

Notation "m '|>>' k" := (andThen m k) (at level 62, right associativity) : go_scope.

(** [validate(x) == nil] *)
Definition is_nil {E A} (m : result E A) : bool := match m with Ok _ => true | Err _ => false end.

(** A loop of checks. *)
Fixpoint each {E A} (f : A -> result E unit) (xs : list A) : result E unit :=
  match xs with
  | [] => Ok tt
  | x :: xs' => andThen (f x) (each f xs')
  end.

(** The same after the elements seen so far, for checks against them. *)
Fixpoint each_seen {E A} (f : list A -> A -> result E unit) (seen xs : list A) : result E unit :=
  match xs with
  | [] => Ok tt
  | x :: xs' => andThen (f seen x) (each_seen f (seen ++ [x]) xs')
  end.

(** [for _, x := range xs] whose body may return an error. *)
Fixpoint for_each {S E A} (f : A -> M S E unit) (xs : list A) : M S E unit :=
  match xs with
  | [] => ret tt
  | x :: xs' => bind (f x) (fun _ => for_each f xs')
  end.

(** The same loop with an accumulator. *)
Fixpoint fold_each {S E A B} (f : B -> A -> M S E B) (acc : B) (xs : list A) : M S E B :=
  match xs with
  | [] => ret acc
  | x :: xs' => bind (f acc x) (fun acc' => fold_each f acc' xs')
  end.

(** ** Tactics *)

(** Destruct the scrutinee of a [match] or [if] in a hypothesis or goal. *)
Ltac break_match_in H :=
  match type of H with
  | context [match ?x with _ => _ end] => destruct x eqn:?
  end.
Ltac break_match :=
  match goal with
  | |- context [match ?x with _ => _ end] => destruct x eqn:?
  end.

(** Turn boolean guards of the code into propositions. *)
Ltac bool_prop :=
  repeat match goal with
  | H : (_ && _) = true |- _ => apply andb_true_iff in H as [? ?]
  | H : (_ || _) = false |- _ => apply orb_false_iff in H as [? ?]
  | H : negb _ = true |- _ => apply negb_true_iff in H
  | H : negb _ = false |- _ => apply negb_false_iff in H
  | H : String.eqb _ _ = true |- _ => apply String.eqb_eq in H
  | H : String.eqb _ _ = false |- _ => apply String.eqb_neq in H
  | H : Z.eqb _ _ = true |- _ => apply Z.eqb_eq in H
  | H : Z.eqb _ _ = false |- _ => apply Z.eqb_neq in H
  | H : Z.ltb _ _ = true |- _ => apply Z.ltb_lt in H
  | H : Z.ltb _ _ = false |- _ => apply Z.ltb_ge in H
  | H : Z.leb _ _ = true |- _ => apply Z.leb_le in H
  | H : Z.leb _ _ = false |- _ => apply Z.leb_gt in H
  end.

(** ** Monad inversion *)

Lemma bind_ok {S E A B} (m : M S E A) (k : A -> M S E B) s b s' :
  bind m k s = (Ok b, s') ->
  exists a s1, m s = (Ok a, s1) /\ k a s1 = (Ok b, s').
Proof. unfold bind. destruct (m s) as [[a|e] s1]; [eauto | discriminate]. Qed.

Lemma bind_err {S E A B} (m : M S E A) (k : A -> M S E B) s e s' :
  bind m k s = (Err e, s') ->
  m s = (Err e, s') \/ exists a s1, m s = (Ok a, s1) /\ k a s1 = (Err e, s').
Proof.
  unfold bind. destruct (m s) as [[a|e1] s1]; intros H; [eauto | left].
  congruence.
Qed.

Lemma guard_ok {S E} b (e : E) (s s' : S) u :
  guard b e s = (Ok u, s') -> b = false /\ s' = s.
Proof. unfold guard, fail, ret. destruct b; intros H; inversion H; auto. Qed.

(** Running a computation forward through its guards and binds. *)
Lemma guard_bind {S E A} b (e : E) (k : M S E A) s :
  bind (guard b e) (fun _ => k) s = if b then (Err e, s) else k s.
Proof. by destruct b. Qed.

Lemma bind_run {S E A B} (m : M S E A) (k : A -> M S E B) s a s1 :
  m s = (Ok a, s1) -> bind m k s = k a s1.
Proof. unfold bind. by intros ->. Qed.

Lemma transaction_run {S E A} (m : M S E A) s r s1 :
  m s = (r, s1) -> transaction m s = (r, match r with Ok _ => s1 | Err _ => s end).
Proof. unfold transaction. intros ->. by destruct r. Qed.

Lemma transaction_ok {S E A} (m : M S E A) s a s' :
  transaction m s = (Ok a, s') -> m s = (Ok a, s').
Proof. unfold transaction. destruct (m s) as [[?|?] ?]; congruence. Qed.

Lemma transaction_err {S E A} (m : M S E A) s e s' :
  transaction m s = (Err e, s') -> s' = s.
Proof. unfold transaction. destruct (m s) as [[?|?] ?]; congruence. Qed.

(** Invert successful monadic hypotheses one bind at a time. *)
Ltac monad_inv :=
  repeat match goal with
  | H : bind _ _ _ = (Ok _, _) |- _ => apply bind_ok in H as (? & ? & ? & ?)
  | H : guard _ _ _ = (Ok _, _) |- _ => apply guard_ok in H as [? ->]
  | H : transaction _ _ = (Ok _, _) |- _ => apply transaction_ok in H
  | H : ret _ _ = (Ok _, _) |- _ => unfold ret in H; injection H as <- <-
  | H : fail _ _ = (Ok _, _) |- _ => discriminate H
  | H : get _ = (Ok _, _) |- _ => unfold get in H; injection H as <- <-
  | H : put _ _ = (Ok _, _) |- _ => unfold put in H; injection H as <- <-
  end.

(** ** Validators *)

Lemma reject_ok bad msg u : reject bad msg = Ok u <-> bad = false.
Proof. destruct u, bad; cbn; split; congruence. Qed.

Lemma andThen_ok {E A} (m : result E unit) (k : result E A) a : andThen m k = Ok a <-> m = Ok tt /\ k = Ok a.
Proof. destruct m as [[]|e]; cbn; split; [auto|by intros [_ ?]|discriminate|by intros [? _]]. Qed.

Lemma is_nil_true {E} (m : result E unit) : is_nil m = true <-> m = Ok tt.
Proof. destruct m as [[]|e]; cbn; split; congruence. Qed.

Lemma is_nil_false {E} (m : result E unit) : is_nil m = false <-> exists e, m = Err e.
Proof. destruct m as [[]|e]; cbn; split; [congruence|by intros [? ?]|by eexists|done]. Qed.

Lemma each_ok {E A} (f : A -> result E unit) xs : each f xs = Ok tt <-> forall x, In x xs -> f x = Ok tt.
Proof.
  induction xs as [|x xs IH]; cbn; [by split|]. rewrite andThen_ok, IH. split.
  - intros [Hx H] y [<-|Hy]; auto.
  - intros H. split; [apply H; by left|]. intros y Hy. apply H. by right.
Qed.

Lemma each_seen_ok {E A} (f : list A -> A -> result E unit) seen xs :
  each_seen f seen xs = Ok tt <->
  forall l x r, xs = (l ++ x :: r)%list -> f (seen ++ l)%list x = Ok tt.
Proof.
  revert seen. induction xs as [|x xs IH]; intros seen; cbn.
  - split; [|done]. intros _ l x r H. by destruct l.
  - rewrite andThen_ok, IH. split.
    + intros [Hx H] [|y l] z r Eq; cbn in Eq; injection Eq as -> ->; [by rewrite app_nil_r|].
      specialize (H l z r eq_refl). by rewrite <- app_assoc in H.
    + intros H. split; [by rewrite <- (app_nil_r seen); apply (H [] x xs)|].
      intros l z r ->. rewrite <- app_assoc. apply (H (x :: l) z r eq_refl).
Qed.

(** Open a successful validator into its checks. *)
Ltac checks H :=
  repeat match type of H with
  | andThen _ _ = Ok _ => let H1 := fresh H in apply andThen_ok in H as [H1 H]; try checks H1
  | reject _ _ = Ok _ => apply reject_ok in H
  end.

(** ** State relations preserved by computations

    [preserves R m] says that running [m] relates the store before and after
    by [R], whatever the outcome. *)
Definition preserves {S E A} (R : S -> S -> Prop) (m : M S E A) : Prop :=
  forall s, R s (snd (m s)).

Section Preserves.
Context {S E : Type} (R : S -> S -> Prop) `{!PreOrder R}.

Lemma preserves_ret {A} (a : A) : preserves R (@ret S E A a).
Proof. intros s. reflexivity. Qed.

Lemma preserves_fail {A} (e : E) : preserves R (@fail S E A e).
Proof. intros s. reflexivity. Qed.

Lemma preserves_get : preserves R (@get S E).
Proof. intros s. reflexivity. Qed.

Lemma preserves_lift {A} (r : result E A) : preserves R (@lift S E A r).
Proof. intros s. reflexivity. Qed.

Lemma preserves_guard b (e : E) : preserves R (@guard S E b e).
Proof. intros s. unfold guard. destruct b; reflexivity. Qed.

Lemma preserves_bind {A B} (m : M S E A) (k : A -> M S E B) :
  preserves R m -> (forall a, preserves R (k a)) -> preserves R (bind m k).
Proof.
  intros Hm Hk s. unfold bind. specialize (Hm s).
  destruct (m s) as [[a|e] s1]; [|done]. by etransitivity; [|apply Hk].
Qed.

Lemma preserves_transaction {A} (m : M S E A) :
  preserves R m -> preserves R (transaction m).
Proof.
  intros Hm s. unfold transaction. specialize (Hm s).
  destruct (m s) as [[a|e] s1]; [done | reflexivity].
Qed.

Lemma preserves_for_each {A} (f : A -> M S E unit) xs :
  (forall x, preserves R (f x)) -> preserves R (for_each f xs).
Proof.
  intros Hf. induction xs as [|x xs IH]; simpl.
  - apply preserves_ret.
  - apply preserves_bind; auto.
Qed.

Lemma preserves_fold_each {A B} (f : B -> A -> M S E B) acc xs :
  (forall b x, preserves R (f b x)) -> preserves R (fold_each f acc xs).
Proof.
  intros Hf. revert acc. induction xs as [|x xs IH]; intros acc; simpl.
  - apply preserves_ret.
  - apply preserves_bind; auto.
Qed.
End Preserves.

Create HintDb go discriminated.
#[export] Hint Resolve preserves_ret preserves_fail preserves_get preserves_lift
  preserves_guard preserves_transaction : go.

(** ** Machine integers *)

(** Two's-complement wrap-around of Go's [int64]. *)
Definition wrap64 (z : Z) : Z :=
  let m := (z mod 2 ^ 64)%Z in
  if (m <? 2 ^ 63)%Z then m else (m - 2 ^ 64)%Z.

Lemma wrap64_small z : (- 2 ^ 63 <= z < 2 ^ 63)%Z -> wrap64 z = z.
Proof.
  intros H. unfold wrap64.
  destruct (Z.leb_spec 0 z) as [Hz|Hz].
  - rewrite Z.mod_small by lia. destruct (Z.ltb_spec z (2 ^ 63)); lia.
  - replace (z mod 2 ^ 64)%Z with (z + 2 ^ 64)%Z.
    + destruct (Z.ltb_spec (z + 2 ^ 64) (2 ^ 63)); lia.
    + apply Z.mod_unique with (q := (-1)%Z); lia.
Qed.

Lemma wrap64_range z : (- 2 ^ 63 <= wrap64 z < 2 ^ 63)%Z.
Proof.
  unfold wrap64. pose proof (Z.mod_pos_bound z (2 ^ 64)).
  destruct (Z.ltb_spec (z mod 2 ^ 64) (2 ^ 63)); lia.
Qed.

(** ** String order

    SQLite compares TEXT with the BINARY collation and Go compares strings
    byte-wise: both are [String.compare]. *)
Definition str_lt (a b : string) : bool :=
  match String.compare a b with Lt => true | _ => false end.

Lemma ascii_compare_trans a b c :
  Ascii.compare a b = Lt -> Ascii.compare b c = Lt -> Ascii.compare a c = Lt.
Proof.
  unfold Ascii.compare. rewrite !N.compare_lt_iff. lia.
Qed.

Lemma ascii_compare_refl a : Ascii.compare a a = Eq.
Proof. unfold Ascii.compare. apply N.compare_refl. Qed.

Lemma str_compare_refl s : String.compare s s = Eq.
Proof. induction s as [|c s IH]; simpl; [done|]. by rewrite ascii_compare_refl. Qed.

Lemma str_lt_irrefl s : str_lt s s = false.
Proof. unfold str_lt. by rewrite str_compare_refl. Qed.

Lemma str_compare_lt_trans a b c :
  String.compare a b = Lt -> String.compare b c = Lt -> String.compare a c = Lt.
Proof.
  revert b c. induction a as [|x a IH]; intros [|y b] [|z c]; simpl; try done.
  destruct (Ascii.compare x y) eqn:Exy, (Ascii.compare y z) eqn:Eyz; try done; intros H1 H2.
  - apply Ascii.compare_eq_iff in Exy as ->. apply Ascii.compare_eq_iff in Eyz as ->.
    rewrite ascii_compare_refl. eauto.
  - apply Ascii.compare_eq_iff in Exy as ->. by rewrite Eyz.
  - apply Ascii.compare_eq_iff in Eyz as ->. by rewrite Exy.
  - by rewrite (ascii_compare_trans _ _ _ Exy Eyz).
Qed.

Lemma str_lt_trans a b c : str_lt a b = true -> str_lt b c = true -> str_lt a c = true.
Proof.
  unfold str_lt.
  destruct (String.compare a b) eqn:E1; try done.
  destruct (String.compare b c) eqn:E2; try done.
  by rewrite (str_compare_lt_trans _ _ _ E1 E2).
Qed.

Lemma str_lt_total a b : str_lt a b = false -> str_lt b a = false -> a = b.
Proof.
  unfold str_lt. rewrite (String.compare_antisym b a).
  destruct (String.compare a b) eqn:E; simpl; try done.
  intros _ _. by apply String.compare_eq_iff.
Qed.

(** ** Counting *)

(** How many elements have a property. *)
Definition count {A} (p : A -> bool) (l : list A) : Z := Z.of_nat (length (List.filter p l)).

Lemma count_cons {A} (p : A -> bool) x l : count p (x :: l) = ((if p x then 1 else 0) + count p l)%Z.
Proof. unfold count. cbn. destruct (p x); cbn [length]; lia. Qed.

Lemma count_nonneg {A} (p : A -> bool) l : (0 <= count p l)%Z.
Proof. unfold count. lia. Qed.

Lemma count_app {A} (p : A -> bool) l l' : count p (l ++ l') = (count p l + count p l')%Z.
Proof. unfold count. rewrite List.filter_app, length_app. lia. Qed.

Lemma count_insert {A} (p : A -> bool) (l : list A) i x y : l !! i = Some x ->
  count p (<[i := y]> l) = (count p l - (if p x then 1 else 0) + (if p y then 1 else 0))%Z.
Proof.
  revert i. induction l as [|z l IH]; intros [|i] H; try done.
  - injection H as ->. change (<[0 := y]> (x :: l)) with (y :: l). rewrite !count_cons. lia.
  - change (<[S i := y]> (z :: l)) with (z :: <[i := y]> l). rewrite !count_cons, (IH _ H). lia.
Qed.

Lemma count_one {A} (p : A -> bool) (l : list A) i x : l !! i = Some x -> p x = true -> (1 <= count p l)%Z.
Proof.
  revert i. induction l as [|z l IH]; intros [|i]; cbn; try done; intros H Hp; rewrite count_cons.
  - injection H as ->. rewrite Hp. pose proof (count_nonneg p l). lia.
  - specialize (IH _ H Hp). destruct (p z); lia.
Qed.

(** Two different places with the property count twice. *)
Lemma count_two {A} (p : A -> bool) (l : list A) i j x y : l !! i = Some x -> l !! j = Some y -> i <> j ->
  p x = true -> p y = true -> (2 <= count p l)%Z.
Proof.
  revert i j. induction l as [|z l IH]; intros [|i] [|j]; cbn; try done; intros Hi Hj Hne Hx Hy; rewrite count_cons.
  - injection Hi as ->. rewrite Hx. pose proof (count_one p l j y Hj Hy). lia.
  - injection Hj as ->. rewrite Hy. pose proof (count_one p l i x Hi Hx). lia.
  - assert (i <> j) by congruence. specialize (IH _ _ Hi Hj H Hx Hy). destruct (p z); lia.
Qed.

(** Some place has the property if the count says so. *)
Lemma count_some {A} (p : A -> bool) (l : list A) : (0 < count p l)%Z -> exists i x, l !! i = Some x /\ p x = true.
Proof.
  induction l as [|z l IH]; [done|]. rewrite count_cons. destruct (p z) eqn:E.
  - intros _. by exists 0, z.
  - intros H. destruct IH as (i & x & Hi & Hx); [lia|]. by exists (S i), x.
Qed.
