(* ===== verification/GoStrings.v ===== *)
(** * Go strings

    Go strings are byte strings; [string] (a sequence of 8-bit [ascii]) is
    the same data.  This file models what the sources use of the packages
    [strings], [unicode], [unicode/utf8] and [encoding/hex]. *)
From stdpp Require Import base list strings.
From Stdlib Require Import ZArith Lia.
From S2P Require Import Prelude.


Local Open Scope Z_scope.

(** ** Bytes and lengths *)

Definition code (c : Ascii.ascii) : Z := Z.of_N (Ascii.N_of_ascii c).

(** [len(s)] *)
Definition len (s : string) : Z := Z.of_nat (String.length s).

Fixpoint all_bytes (p : Ascii.ascii -> bool) (s : string) : bool :=
  match s with
  | EmptyString => true
  | String c s' => p c && all_bytes p s'
  end.

Fixpoint any_byte (p : Ascii.ascii -> bool) (s : string) : bool :=
  match s with
  | EmptyString => false
  | String c s' => p c || any_byte p s'
  end.

Definition in_range (lo hi z : Z) : bool := (lo <=? z) && (z <=? hi).

(** ** UTF-8 *)

Definition RuneError : Z := 0xFFFD.

(** Continuation bytes of the general form [10xxxxxx]. *)
Definition cont (c : Ascii.ascii) : bool := in_range 0x80 0xBF (code c).

(** The interval the second byte of a sequence must lie in, by the first
    byte ([acceptRanges] of [unicode/utf8]), with the sequence's length;
    [None] for a byte that starts no sequence. *)
Definition lead (b : Z) : option (nat * Z * Z) :=
  if in_range 0xC2 0xDF b then Some (2%nat, 0x80, 0xBF)
  else if b =? 0xE0 then Some (3%nat, 0xA0, 0xBF)
  else if in_range 0xE1 0xEC b then Some (3%nat, 0x80, 0xBF)
  else if b =? 0xED then Some (3%nat, 0x80, 0x9F)
  else if in_range 0xEE 0xEF b then Some (3%nat, 0x80, 0xBF)
  else if b =? 0xF0 then Some (4%nat, 0x90, 0xBF)
  else if in_range 0xF1 0xF3 b then Some (4%nat, 0x80, 0xBF)
  else if b =? 0xF4 then Some (4%nat, 0x80, 0x8F)
  else None.

Definition chunk1 (a : Ascii.ascii) : string := String a EmptyString.

(** The runes of a string with the bytes each was decoded from, as a
    [range] loop visits them: an invalid byte yields [RuneError] of width 1. *)
Fixpoint runes (s : string) : list (Z * string) :=
  match s with
  | EmptyString => []
  | String a s1 =>
      let bad := fun _ : unit => (RuneError, chunk1 a) :: runes s1 in
      if code a <? 0x80 then (code a, chunk1 a) :: runes s1
      else match lead (code a), s1 with
           | Some (2%nat, lo, hi), String b s2 =>
               if in_range lo hi (code b)
               then ((code a - 0xC0) * 64 + (code b - 0x80), String a (chunk1 b)) :: runes s2
               else bad tt
           | Some (3%nat, lo, hi), String b (String c s3) =>
               if in_range lo hi (code b) && cont c
               then ((code a - 0xE0) * 4096 + (code b - 0x80) * 64 + (code c - 0x80),
                     String a (String b (chunk1 c))) :: runes s3
               else bad tt
           | Some (4%nat, lo, hi), String b (String c (String d s4)) =>
               if in_range lo hi (code b) && cont c && cont d
               then ((code a - 0xF0) * 262144 + (code b - 0x80) * 4096
                       + (code c - 0x80) * 64 + (code d - 0x80),
                     String a (String b (String c (chunk1 d)))) :: runes s4
               else bad tt
           | _, _ => bad tt
           end
  end.

(** [utf8.ValidString]: no byte decodes to the width-1 error rune. *)
Definition ValidString (s : string) : bool :=
  forallb (fun '(r, chunk) => negb ((r =? RuneError) && (len chunk =? 1))) (runes s).

(** ** unicode *)

Definition IsControl (r : Z) : bool := in_range 0 0x1F r || in_range 0x7F 0x9F r.

Definition IsSpace (r : Z) : bool :=
  in_range 0x09 0x0D r || (r =? 0x20) || (r =? 0x85) || (r =? 0xA0) || (r =? 0x1680)
  || in_range 0x2000 0x200A r || (r =? 0x2028) || (r =? 0x2029) || (r =? 0x202F)
  || (r =? 0x205F) || (r =? 0x3000).

(** [strings.IndexFunc(s, f) >= 0] *)
Definition exists_rune (f : Z -> bool) (s : string) : bool :=
  existsb (fun '(r, _) => f r) (runes s).

(** A [for _, character := range s] loop that returns false on the first rune
    failing the test. *)
Definition all_runes (f : Z -> bool) (s : string) : bool :=
  forallb (fun '(r, _) => f r) (runes s).

Fixpoint drop_space (l : list (Z * string)) : list (Z * string) :=
  match l with
  | (r, c) :: l' => if IsSpace r then drop_space l' else l
  | [] => []
  end.

Definition concat_chunks (l : list (Z * string)) : string :=
  foldr (fun '(_, c) acc => (c ++ acc)%string) ""%string l.

(** [strings.TrimSpace] *)
Definition TrimSpace (s : string) : string :=
  concat_chunks (rev (drop_space (rev (drop_space (runes s))))).

(** ** strings *)

Definition HasPrefix (s p : string) : bool := String.prefix p s.

Definition HasSuffix (s suffix : string) : bool :=
  (String.length suffix <=? String.length s)%nat &&
  String.eqb (String.substring (String.length s - String.length suffix)
                (String.length suffix) s) suffix.

Definition TrimPrefix (s p : string) : string :=
  if HasPrefix s p
  then String.substring (String.length p) (String.length s - String.length p) s else s.

Definition TrimSuffix (s suffix : string) : string :=
  if HasSuffix s suffix
  then String.substring 0 (String.length s - String.length suffix) s else s.

Fixpoint mem_byte (c : Ascii.ascii) (chars : string) : bool :=
  match chars with
  | EmptyString => false
  | String d chars' => Ascii.eqb c d || mem_byte c chars'
  end.

(** [strings.ContainsAny] for a set of ASCII characters. *)
Definition ContainsAny (s chars : string) : bool := any_byte (fun c => mem_byte c chars) s.

(** [strings.Contains] *)
Fixpoint Contains (s sub : string) : bool :=
  String.prefix sub s || match s with EmptyString => false | String _ s' => Contains s' sub end.

(** [strings.Split] with a one-byte separator. *)
Fixpoint Split (s : string) (sep : Ascii.ascii) : list string :=
  match s with
  | EmptyString => [EmptyString]
  | String c s' =>
      if Ascii.eqb c sep then EmptyString :: Split s' sep
      else match Split s' sep with
           | w :: ws => String c w :: ws
           | [] => [String c EmptyString]
           end
  end.

(** [strings.Cut] with a one-byte separator: text before, text after, found. *)
Fixpoint Cut (s : string) (sep : Ascii.ascii) : string * string * bool :=
  match s with
  | EmptyString => (EmptyString, EmptyString, false)
  | String c s' =>
      if Ascii.eqb c sep then (EmptyString, s', true)
      else let '(before, after, found) := Cut s' sep in (String c before, after, found)
  end.

(** [strings.Join] *)
Fixpoint Join (ws : list string) (sep : string) : string :=
  match ws with
  | [] => ""
  | [w] => w
  | w :: ws' => (w ++ sep ++ Join ws' sep)%string
  end.

(** ** encoding/hex *)

Definition hex_digit (n : Z) : Ascii.ascii :=
  Ascii.ascii_of_N (Z.to_N (if n <? 10 then n + 48 else n - 10 + 97)).

Fixpoint hex_encode (bytes : list Z) : string :=
  match bytes with
  | [] => ""
  | b :: bs => String (hex_digit (b / 16)) (String (hex_digit (b mod 16)) (hex_encode bs))
  end.

Definition is_hex (c : Ascii.ascii) : bool :=
  in_range 48 57 (code c) || in_range 97 102 (code c) || in_range 65 70 (code c).

(** [hex.DecodeString]: the number of decoded bytes, [None] on an error. *)
Definition hex_decoded_len (s : string) : option Z :=
  if all_bytes is_hex s && (len s mod 2 =? 0) then Some (len s / 2) else None.

(** ** Lemmas *)

Lemma code_range c : 0 <= code c < 256.
Proof. unfold code. pose proof (Ascii.N_ascii_bounded c). lia. Qed.

Lemma len_nonneg s : 0 <= len s.
Proof. unfold len. lia. Qed.

Lemma len_app a b : len (a ++ b)%string = len a + len b.
Proof.
  unfold len. induction a as [|c a IH]; simpl; [done|]. rewrite Nat2Z.inj_succ. simpl in IH. lia.
Qed.

(** The runes of an ASCII string are its bytes. *)
Lemma runes_ascii s :
  all_bytes (fun c => code c <? 0x80) s = true ->
  runes s = map (fun c => (code c, chunk1 c)) (String.list_ascii_of_string s).
Proof.
  induction s as [|a s IH]; [done|]. simpl. intros H. bool_prop.
  rewrite (proj2 (Z.ltb_lt _ _)) by done. f_equal. auto.
Qed.

(** A per-rune test that only accepts ASCII is a per-byte test. *)
Lemma all_runes_ascii f s :
  (forall r, f r = true -> r < 0x80) ->
  all_runes f s = all_bytes (fun c => f (code c)) s.
Proof.
  intros Hf.
  unfold all_runes. induction s as [|a s IH]; [done|].
  cbn [all_bytes]. destruct (f (code a)) eqn:Ef; simpl.
  - pose proof (Hf _ Ef) as Hlt. apply Z.ltb_lt in Hlt. rewrite Hlt. simpl.
    by rewrite Ef, IH.
  - destruct (code a <? 0x80) eqn:Hlt; simpl; [by rewrite Ef|].
    assert (HE : f RuneError = false).
    { destruct (f RuneError) eqn:E; [|done]. apply Hf in E. unfold RuneError in E. lia. }
    bool_prop.
    assert (Hhi : forall r, 0x80 <= r -> f r = false).
    { intros r Hr. destruct (f r) eqn:E; [|done]. apply Hf in E. lia. }
    unfold lead, in_range, cont.
    repeat match goal with
    | |- context [if ?b then _ else _] => destruct b eqn:?
    | |- context [match ?x with EmptyString => _ | _ => _ end] => destruct x
    | |- _ => progress (simpl; rewrite ?HE; simpl)
    end; try done; unfold cont, in_range in *; bool_prop;
    rewrite Hhi; try done; pose proof (code_range a); lia.
Qed.

Lemma hex_encode_len bs : len (hex_encode bs) = 2 * Z.of_nat (length bs).
Proof.
  induction bs as [|b bs IH]; [done|]. unfold len in *. cbn [hex_encode String.length length].
  rewrite !Nat2Z.inj_succ. lia.
Qed.

Lemma hex_digit_code n : 0 <= n < 16 ->
  code (hex_digit n) = if n <? 10 then n + 48 else n - 10 + 97.
Proof.
  intros Hn. unfold code, hex_digit.
  rewrite Ascii.N_ascii_embedding; destruct (n <? 10) eqn:E; bool_prop; lia.
Qed.

Lemma hex_digit_is_hex n : 0 <= n < 16 -> is_hex (hex_digit n) = true.
Proof.
  intros Hn. unfold is_hex. rewrite hex_digit_code by done. unfold in_range.
  destruct (n <? 10) eqn:E; bool_prop.
  - destruct (48 <=? n + 48) eqn:?, (n + 48 <=? 57) eqn:?; bool_prop; try lia; done.
  - destruct (97 <=? n - 10 + 97) eqn:?, (n - 10 + 97 <=? 102) eqn:?; bool_prop; try lia;
      by rewrite orb_true_r.
Qed.

Lemma hex_encode_is_hex bs :
  Forall (fun b => 0 <= b < 256) bs -> all_bytes is_hex (hex_encode bs) = true.
Proof.
  induction 1 as [|b bs Hb _ IH]; [done|]. cbn [hex_encode all_bytes].
  rewrite !hex_digit_is_hex, IH; [done| |].
  - apply Z.mod_pos_bound. lia.
  - split; [apply Z.div_pos; lia | apply Z.div_lt_upper_bound; lia].
Qed.

(** * Regular expressions

    The anchored patterns of the configuration validators
    ([regexp.MustCompile] of a pattern [^...$]), over bytes: every class of
    those patterns is a set of ASCII characters, so a byte of a longer UTF-8
    sequence is in none of them.  Matching is by derivatives; [re_match_iff]
    relates it to the language of the expression. *)

Local Open Scope string_scope.

Inductive regex : Type :=
  | RNone
  | REps
  | RSet (p : Ascii.ascii -> bool)
  | RSeq (a b : regex)
  | RAlt (a b : regex)
  | RStar (a : regex).

Definition ROpt (a : regex) : regex := RAlt REps a.
Definition RPlus (a : regex) : regex := RSeq a (RStar a).
Definition RChar (c : Ascii.ascii) : regex := RSet (Ascii.eqb c).

(** A literal string. *)
Fixpoint RText (s : string) : regex :=
  match s with
  | EmptyString => REps
  | String c s => RSeq (RChar c) (RText s)
  end.

(** Character classes. *)
Definition is_lower (c : Ascii.ascii) : bool := in_range 97 122 (code c).
Definition is_upper (c : Ascii.ascii) : bool := in_range 65 90 (code c).
Definition is_digit (c : Ascii.ascii) : bool := in_range 48 57 (code c).
Definition one_of (chars : string) (c : Ascii.ascii) : bool := mem_byte c chars.

(** ** Matching *)

Fixpoint nullable (r : regex) : bool :=
  match r with
  | RNone | RSet _ => false
  | REps | RStar _ => true
  | RSeq a b => nullable a && nullable b
  | RAlt a b => nullable a || nullable b
  end.

Fixpoint deriv (c : Ascii.ascii) (r : regex) : regex :=
  match r with
  | RNone | REps => RNone
  | RSet p => if p c then REps else RNone
  | RSeq a b => if nullable a then RAlt (RSeq (deriv c a) b) (deriv c b) else RSeq (deriv c a) b
  | RAlt a b => RAlt (deriv c a) (deriv c b)
  | RStar a => RSeq (deriv c a) (RStar a)
  end.

Fixpoint re_match (r : regex) (s : string) : bool :=
  match s with
  | EmptyString => nullable r
  | String c s => re_match (deriv c r) s
  end.

(** ** The language of an expression *)

Inductive matches : regex -> string -> Prop :=
  | m_eps : matches REps ""
  | m_set p c : p c = true -> matches (RSet p) (String c "")
  | m_seq a b s t : matches a s -> matches b t -> matches (RSeq a b) (s +:+ t)
  | m_left a b s : matches a s -> matches (RAlt a b) s
  | m_right a b s : matches b s -> matches (RAlt a b) s
  | m_nil a : matches (RStar a) ""
  | m_more a s t : matches a s -> matches (RStar a) t -> matches (RStar a) (s +:+ t).

Create HintDb regex.
#[export] Hint Constructors matches : regex.

Lemma str_nil_app (t : string) : "" +:+ t = t.
Proof. reflexivity. Qed.
Lemma str_cons_app c (s t : string) : String c s +:+ t = String c (s +:+ t).
Proof. reflexivity. Qed.
Ltac str := rewrite ?str_cons_app, ?str_nil_app in *.

Lemma str_app_nil s : s +:+ "" = s.
Proof. induction s as [|c s IH]; str; congruence. Qed.
Lemma str_app_assoc (a b c : string) : (a +:+ b) +:+ c = a +:+ (b +:+ c).
Proof. induction a as [|x a IH]; str; congruence. Qed.

Lemma matches_cons_star a c s :
  matches (RStar a) (String c s) -> exists u v, s = u +:+ v /\ matches a (String c u) /\ matches (RStar a) v.
Proof.
  intros H. remember (RStar a) as r eqn:Er. remember (String c s) as w eqn:Ew. revert c s Ew.
  induction H as [| | | | | |a' u v Hu _ Hv IH]; intros c0 s0 Ew; try discriminate. injection Er as ->.
  destruct u as [|c1 u]; str; [by apply IH|]. injection Ew as -> <-. by exists u, v.
Qed.

Lemma nullable_iff r : nullable r = true <-> matches r "".
Proof.
  split.
  - induction r; cbn; intros H; try done; eauto with regex.
    + apply andb_true_iff in H as [H1 H2]. apply (m_seq r1 r2 "" ""); auto.
    + apply orb_true_iff in H as [H|H]; eauto with regex.
  - intros H. remember "" as w eqn:Ew. induction H as [|p c Hp|a b s t _ IHa _ IHb|a b s _ IH|a b s _ IH| |]; try done.
    + destruct s; [|done]. str. subst t. cbn. by rewrite IHa, IHb.
    + cbn. by rewrite IH.
    + cbn. by rewrite IH, orb_true_r.
Qed.

Lemma deriv_iff r c s : matches (deriv c r) s <-> matches r (String c s).
Proof.
  revert s. induction r as [| |p|a IHa b IHb|a IHa b IHb|a IHa]; intros s; cbn.
  - split; intros H; inversion H.
  - split; intros H; inversion H.
  - destruct (p c) eqn:E; split; intros H; inversion H; subst; try congruence; eauto with regex.
  - assert (Hs : matches (RSeq (deriv c a) b) s -> matches (RSeq a b) (String c s)).
    { intros H. inversion H as [| |? ? u v Hu Hv| | | |]; subst. apply IHa in Hu.
      by apply (m_seq a b (String c u) v). }
    assert (Hc : matches (RSeq a b) (String c s) ->
      matches (RSeq (deriv c a) b) s \/ nullable a = true /\ matches (deriv c b) s).
    { intros H. inversion H as [| |? ? u v Hu Hv Ea Eu| | | |]; subst. destruct u as [|c' u]; str.
      - subst v. right. split; [by apply nullable_iff|by apply IHb].
      - injection Eu as -> <-. left. constructor; [by apply IHa|done]. }
    destruct (nullable a) eqn:En; split.
    + intros H. inversion H as [| | |? ? ? H1|? ? ? H1| |]; subst; [by apply Hs|].
      apply (m_seq a b "" (String c s)); [by apply nullable_iff|by apply IHb].
    + intros H. apply Hc in H as [H|[_ H]]; [by apply m_left|by apply m_right].
    + done.
    + intros H. by apply Hc in H as [H|[H _]].
  - split; intros H; inversion H; subst; [apply m_left|apply m_right|apply m_left|apply m_right];
      by (apply IHa || apply IHb).
  - split; intros H.
    + inversion H as [| |? ? u v Hu Hv| | | |]; subst. apply IHa in Hu. by apply (m_more a (String c u) v).
    + apply matches_cons_star in H as (u & v & -> & Hu & Hv). constructor; [by apply IHa|done].
Qed.

Lemma re_match_iff r s : re_match r s = true <-> matches r s.
Proof. revert r. induction s as [|c s IH]; intros r; cbn; [apply nullable_iff|]. by rewrite IH, deriv_iff. Qed.

(** ** Languages of the common shapes *)

Lemma all_bytes_app p (s t : string) : all_bytes p (s +:+ t) = all_bytes p s && all_bytes p t.
Proof. induction s as [|c s IH]; str; cbn; [done|]. by rewrite IH, andb_assoc. Qed.

Lemma all_bytes_impl p q s : (forall c, p c = true -> q c = true) -> all_bytes p s = true -> all_bytes q s = true.
Proof.
  intros Hpq. induction s as [|c s IH]; [done|]. cbn. rewrite !andb_true_iff. intros [H1 H2]. auto.
Qed.

Lemma matches_set_star p s : matches (RStar (RSet p)) s <-> all_bytes p s = true.
Proof.
  split.
  - intros H. remember (RStar (RSet p)) as r eqn:Er.
    induction H as [| | | | | |a' u v Hu _ Hv IH]; try discriminate; [done|]. injection Er as ->.
    inversion Hu as [|? c Hc| | | | |]; subst. str. cbn. by rewrite Hc, IH.
  - induction s as [|c s IH]; cbn; intros H; [constructor|]. apply andb_true_iff in H as [H1 H2].
    apply (m_more (RSet p) (String c "") s); [by constructor|by apply IH].
Qed.

(** Every byte of a match is in a class of the expression. *)
Fixpoint within (q : Ascii.ascii -> bool) (r : regex) : Prop :=
  match r with
  | RNone | REps => True
  | RSet p => forall c, p c = true -> q c = true
  | RSeq a b | RAlt a b => within q a /\ within q b
  | RStar a => within q a
  end.

Lemma matches_within q r s : within q r -> matches r s -> all_bytes q s = true.
Proof.
  intros Hw H. induction H as [|p c Hp|a b s t _ IHa _ IHb|a b s _ IH|a b s _ IH| |a s t _ IHa _ IHb]; cbn in *; try done.
  - by rewrite (Hw c Hp).
  - rewrite all_bytes_app, (IHa (proj1 Hw)), (IHb (proj2 Hw)). done.
  - apply IH, Hw.
  - apply IH, Hw.
  - by rewrite all_bytes_app, (IHa Hw), (IHb Hw).
Qed.

(** [X(?:Y*Z)?]: one leading byte, any bytes, one trailing byte. *)
Lemma matches_bracketed x y z s :
  matches (RSeq (RSet x) (ROpt (RSeq (RStar (RSet y)) (RSet z)))) s <->
  exists c, x c = true /\
    (s = String c "" \/ exists m d, s = String c (m +:+ String d "") /\ all_bytes y m = true /\ z d = true).
Proof.
  split.
  - intros H. inversion H as [| |? ? u v Hu Hv| | | |]; subst. inversion Hu as [|? c Hc| | | | |]; subst.
    exists c. split; [done|]. inversion Hv as [| | |? ? ? H1|? ? ? H1| |]; subst.
    + inversion H1; subst. by left.
    + inversion H1 as [| |? ? m w Hm Hw| | | |]; subst. inversion Hw as [|? d Hd| | | | |]; subst.
      right. exists m, d. split; [done|]. by apply matches_set_star in Hm.
  - intros (c & Hc & [->|(m & d & -> & Hm & Hd)]).
    + apply (m_seq _ _ (String c "") ""); [by constructor|]. apply m_left. constructor.
    + apply (m_seq _ _ (String c "") (m +:+ String d "")); [by constructor|]. apply m_right.
      constructor; [by apply matches_set_star|by constructor].
Qed.
