(* ===== verification/GoUrl.v ===== *)
(** * Text and network addresses

    What the validators use of the packages [strings] (case mapping, trimming,
    searching), [strconv], [net/netip] and [net]. *)
From stdpp Require Import base list strings.
From Stdlib Require Import ZArith Lia Ascii.
From S2P Require Import Prelude GoStrings.


Local Open Scope Z_scope.

(** ** Case mapping *)

(** The simple lower-case mapping of Unicode beyond ASCII: every [stride]-th
    code point from the first to the second one moves by the last number. *)
Definition lower_ranges : list (Z * Z * Z * Z) :=
  [ (192, 214, 1, 32); (216, 222, 1, 32); (256, 302, 2, 1); (304, 304, 1, -199); (306, 310, 2, 1);
    (313, 327, 2, 1); (330, 374, 2, 1); (376, 376, 1, -121); (377, 381, 2, 1); (385, 385, 1, 210);
    (386, 388, 2, 1); (390, 390, 1, 206); (391, 391, 1, 1); (393, 394, 1, 205); (395, 395, 1, 1);
    (398, 398, 1, 79); (399, 399, 1, 202); (400, 400, 1, 203); (401, 401, 1, 1); (403, 403, 1, 205);
    (404, 404, 1, 207); (406, 406, 1, 211); (407, 407, 1, 209); (408, 408, 1, 1); (412, 412, 1, 211);
    (413, 413, 1, 213); (415, 415, 1, 214); (416, 420, 2, 1); (422, 422, 1, 218); (423, 423, 1, 1);
    (425, 425, 1, 218); (428, 428, 1, 1); (430, 430, 1, 218); (431, 431, 1, 1); (433, 434, 1, 217);
    (435, 437, 2, 1); (439, 439, 1, 219); (440, 440, 1, 1); (444, 444, 1, 1); (452, 452, 1, 2);
    (453, 453, 1, 1); (455, 455, 1, 2); (456, 456, 1, 1); (458, 458, 1, 2); (459, 475, 2, 1);
    (478, 494, 2, 1); (497, 497, 1, 2); (498, 500, 2, 1); (502, 502, 1, -97); (503, 503, 1, -56);
    (504, 542, 2, 1); (544, 544, 1, -130); (546, 562, 2, 1); (570, 570, 1, 10795); (571, 571, 1, 1);
    (573, 573, 1, -163); (574, 574, 1, 10792); (577, 577, 1, 1); (579, 579, 1, -195); (580, 580, 1, 69);
    (581, 581, 1, 71); (582, 590, 2, 1); (880, 882, 2, 1); (886, 886, 1, 1); (895, 895, 1, 116);
    (902, 902, 1, 38); (904, 906, 1, 37); (908, 908, 1, 64); (910, 911, 1, 63); (913, 929, 1, 32);
    (931, 939, 1, 32); (975, 975, 1, 8); (984, 1006, 2, 1); (1012, 1012, 1, -60); (1015, 1015, 1, 1);
    (1017, 1017, 1, -7); (1018, 1018, 1, 1); (1021, 1023, 1, -130); (1024, 1039, 1, 80);
    (1040, 1071, 1, 32); (1120, 1152, 2, 1); (1162, 1214, 2, 1); (1216, 1216, 1, 15); (1217, 1229, 2, 1);
    (1232, 1326, 2, 1); (1329, 1366, 1, 48); (4256, 4293, 1, 7264); (4295, 4295, 1, 7264);
    (4301, 4301, 1, 7264); (5024, 5103, 1, 38864); (5104, 5109, 1, 8); (7312, 7354, 1, -3008);
    (7357, 7359, 1, -3008); (7680, 7828, 2, 1); (7838, 7838, 1, -7615); (7840, 7934, 2, 1);
    (7944, 7951, 1, -8); (7960, 7965, 1, -8); (7976, 7983, 1, -8); (7992, 7999, 1, -8);
    (8008, 8013, 1, -8); (8025, 8031, 2, -8); (8040, 8047, 1, -8); (8072, 8079, 1, -8);
    (8088, 8095, 1, -8); (8104, 8111, 1, -8); (8120, 8121, 1, -8); (8122, 8123, 1, -74);
    (8124, 8124, 1, -9); (8136, 8139, 1, -86); (8140, 8140, 1, -9); (8152, 8153, 1, -8);
    (8154, 8155, 1, -100); (8168, 8169, 1, -8); (8170, 8171, 1, -112); (8172, 8172, 1, -7);
    (8184, 8185, 1, -128); (8186, 8187, 1, -126); (8188, 8188, 1, -9); (8486, 8486, 1, -7517);
    (8490, 8490, 1, -8383); (8491, 8491, 1, -8262); (8498, 8498, 1, 28); (8544, 8559, 1, 16);
    (8579, 8579, 1, 1); (9398, 9423, 1, 26); (11264, 11311, 1, 48); (11360, 11360, 1, 1);
    (11362, 11362, 1, -10743); (11363, 11363, 1, -3814); (11364, 11364, 1, -10727); (11367, 11371, 2, 1);
    (11373, 11373, 1, -10780); (11374, 11374, 1, -10749); (11375, 11375, 1, -10783);
    (11376, 11376, 1, -10782); (11378, 11378, 1, 1); (11381, 11381, 1, 1); (11390, 11391, 1, -10815);
    (11392, 11490, 2, 1); (11499, 11501, 2, 1); (11506, 11506, 1, 1); (42560, 42604, 2, 1);
    (42624, 42650, 2, 1); (42786, 42798, 2, 1); (42802, 42862, 2, 1); (42873, 42875, 2, 1);
    (42877, 42877, 1, -35332); (42878, 42886, 2, 1); (42891, 42891, 1, 1); (42893, 42893, 1, -42280);
    (42896, 42898, 2, 1); (42902, 42920, 2, 1); (42922, 42922, 1, -42308); (42923, 42923, 1, -42319);
    (42924, 42924, 1, -42315); (42925, 42925, 1, -42305); (42926, 42926, 1, -42308);
    (42928, 42928, 1, -42258); (42929, 42929, 1, -42282); (42930, 42930, 1, -42261);
    (42931, 42931, 1, 928); (42932, 42946, 2, 1); (42948, 42948, 1, -48); (42949, 42949, 1, -42307);
    (42950, 42950, 1, -35384); (42951, 42953, 2, 1); (42960, 42960, 1, 1); (42966, 42968, 2, 1);
    (42997, 42997, 1, 1); (65313, 65338, 1, 32); (66560, 66599, 1, 40); (66736, 66771, 1, 40);
    (66928, 66938, 1, 39); (66940, 66954, 1, 39); (66956, 66962, 1, 39); (66964, 66965, 1, 39);
    (68736, 68786, 1, 64); (71840, 71871, 1, 32); (93760, 93791, 1, 32); (125184, 125217, 1, 34) ].

(** [unicode.ToLower] *)
Definition rune_ToLower (r : Z) : Z :=
  if r <? 0x80 then (if in_range 65 90 r then r + 32 else r)
  else match List.find (fun '(lo, hi, stride, _) => in_range lo hi r && ((r - lo) mod stride =? 0)) lower_ranges with
       | Some (_, _, _, delta) => r + delta
       | None => r
       end.

Definition byte (z : Z) : Ascii.ascii := Ascii.ascii_of_N (Z.to_N z).

(** [utf8.EncodeRune] *)
Definition EncodeRune (r : Z) : string :=
  if r <? 0x80 then String (byte r) ""
  else if r <? 0x800 then String (byte (0xC0 + r / 64)) (String (byte (0x80 + r mod 64)) "")
  else if r <? 0x10000 then
    String (byte (0xE0 + r / 4096)) (String (byte (0x80 + (r / 64) mod 64)) (String (byte (0x80 + r mod 64)) ""))
  else String (byte (0xF0 + r / 262144)) (String (byte (0x80 + (r / 4096) mod 64))
         (String (byte (0x80 + (r / 64) mod 64)) (String (byte (0x80 + r mod 64)) ""))).

(** [strings.ToLower]; an invalid byte becomes the replacement character. *)
Definition ToLower (s : string) : string :=
  foldr (fun '(r, _) acc => (EncodeRune (rune_ToLower r) ++ acc)%string) ""%string (runes s).

Definition upper_byte (c : Ascii.ascii) : Ascii.ascii := if is_lower c then byte (code c - 32) else c.

(** [strings.ToUpper] of an ASCII string. *)
Fixpoint ToUpper (s : string) : string :=
  match s with
  | EmptyString => EmptyString
  | String c s' => String (upper_byte c) (ToUpper s')
  end.

(** ** Searching *)

Fixpoint trim_left (p : Ascii.ascii -> bool) (s : string) : string :=
  match s with
  | EmptyString => EmptyString
  | String c s' => if p c then trim_left p s' else s
  end.

Fixpoint trim_right (p : Ascii.ascii -> bool) (s : string) : string :=
  match s with
  | EmptyString => EmptyString
  | String c s' => match trim_right p s' with
                   | EmptyString => if p c then EmptyString else String c EmptyString
                   | r => String c r
                   end
  end.

(** [strings.Trim] with a set of ASCII characters. *)
Definition Trim (s chars : string) : string :=
  trim_right (one_of chars) (trim_left (one_of chars) s).

(** The text before and after the last occurrence of a byte. *)
Fixpoint cut_last (s : string) (sep : Ascii.ascii) : option (string * string) :=
  match s with
  | EmptyString => None
  | String c s' =>
      match cut_last s' sep with
      | Some (a, b) => Some (String c a, b)
      | None => if Ascii.eqb c sep then Some (EmptyString, s') else None
      end
  end.

Definition has_byte (s : string) (c : Ascii.ascii) : bool := any_byte (Ascii.eqb c) s.

(** ** strconv *)

(** The value of a non-empty string of decimal digits. *)
Fixpoint digits_value (s : string) (acc : Z) : option Z :=
  match s with
  | EmptyString => Some acc
  | String c s' => if is_digit c then digits_value s' (acc * 10 + (code c - 48)) else None
  end.

Definition decimal (s : string) : option Z :=
  match s with EmptyString => None | _ => digits_value s 0 end.

(** [strconv.Atoi] *)
Definition Atoi (s : string) : option Z :=
  let '(negative, rest) :=
    match s with
    | String c s' => if Ascii.eqb c "-"%char then (true, s') else if Ascii.eqb c "+"%char then (false, s') else (false, s)
    | EmptyString => (false, s)
    end in
  match decimal rest with
  | Some n => let v := if negative then - n else n in
              if in_range (- 2 ^ 63) (2 ^ 63 - 1) v then Some v else None
  | None => None
  end.

(** ** net/netip *)

(** An address: its 16 bytes ([As16]), whether it was written as an IPv4
    address ([Is4]), and its zone. *)
Record Addr := mkAddr { addr_is4 : bool; addr_bytes : list Z; addr_zone : string }.

Definition octet (s : string) : option Z :=
  match s with
  | String "0" (String _ _) => None
  | _ => match decimal s with Some n => if n <=? 255 then Some n else None | None => None end
  end.

Definition parseIPv4Fields (s : string) : option (list Z) :=
  match Split s "."%char with
  | [a; b; c; d] =>
      match octet a, octet b, octet c, octet d with
      | Some a, Some b, Some c, Some d => Some [a; b; c; d]
      | _, _, _, _ => None
      end
  | _ => None
  end.

Definition v4InV6Prefix : list Z := [0; 0; 0; 0; 0; 0; 0; 0; 0; 0; 255; 255].

Definition parseIPv4 (s : string) : option Addr :=
  match parseIPv4Fields s with
  | Some f => Some (mkAddr true (v4InV6Prefix ++ f)%list EmptyString)
  | None => None
  end.

Definition hex_value (c : Ascii.ascii) : Z :=
  if is_digit c then code c - 48 else if is_lower c then code c - 87 else code c - 55.

(** The leading hexadecimal number of a group: its value, its number of
    digits, the rest. *)
Fixpoint hex_group (s : string) (acc : Z) (off : nat) : Z * nat * string :=
  match s with
  | String c s' => if is_hex c then hex_group s' (acc * 16 + hex_value c) (S off) else (acc, off, s)
  | EmptyString => (acc, off, s)
  end.

(** The loop of [parseIPv6]: [ip] holds the bytes parsed so far (the index [i]
    is its length), [ellipsis] the position of [::].  At most eight groups are
    parsed, so eight rounds are enough. *)
Fixpoint parse_groups (fuel : nat) (s : string) (ip : list Z) (ellipsis : option nat)
  : option (list Z * option nat * string) :=
  match fuel with
  | O => Some (ip, ellipsis, s)
  | S fuel =>
      let '(acc, off, rest) := hex_group s 0 0 in
      if (off =? 0)%nat || (4 <? off)%nat then None
      else match rest with
      | String "." _ =>
          if negb (bool_decide (is_Some ellipsis)) && negb (length ip =? 12)%nat then None
          else if (16 <? length ip + 4)%nat then None
          else match parseIPv4Fields s with
               | Some f => Some ((ip ++ f)%list, ellipsis, EmptyString)
               | None => None
               end
      | EmptyString => Some ((ip ++ [acc / 256; acc mod 256])%list, ellipsis, EmptyString)
      | String ":" EmptyString => None
      | String ":" (String ":" rest') =>
          match ellipsis with
          | Some _ => None
          | None =>
              let ip' := (ip ++ [acc / 256; acc mod 256])%list in
              match rest' with
              | EmptyString => Some (ip', Some (length ip'), EmptyString)
              | _ => parse_groups fuel rest' ip' (Some (length ip'))
              end
          end
      | String ":" rest' => parse_groups fuel rest' (ip ++ [acc / 256; acc mod 256])%list ellipsis
      | _ => None
      end
  end.

Definition parseIPv6 (input : string) : option Addr :=
  let '(s, zone, zoned) := Cut input "%"%char in
  if zoned && String.eqb zone "" then None
  else
    let '(s, ellipsis) :=
      match s with String ":" (String ":" r) => (r, Some O) | _ => (s, None) end in
    match s, ellipsis with
    | EmptyString, Some _ => Some (mkAddr false (repeat 0 16) zone)
    | _, _ =>
        match parse_groups 8 s [] ellipsis with
        | Some (ip, ellipsis, EmptyString) =>
            if (length ip <? 16)%nat then
              match ellipsis with
              | Some e => Some (mkAddr false (take e ip ++ repeat 0 (16 - length ip) ++ drop e ip)%list zone)
              | None => None
              end
            else if bool_decide (is_Some ellipsis) then None
            else Some (mkAddr false ip zone)
        | _ => None
        end
    end.

(** [netip.ParseAddr]: the first of [.], [:] and [%] decides the family. *)
Fixpoint addr_family (s : string) : option Ascii.ascii :=
  match s with
  | EmptyString => None
  | String c s' => if one_of ".:%" c then Some c else addr_family s'
  end.

Definition ParseAddr (s : string) : option Addr :=
  match addr_family s with
  | Some "."%char => parseIPv4 s
  | Some ":"%char => parseIPv6 s
  | _ => None
  end.

(** ** net *)

(** [net.ParseIP]: the 16 bytes, or nil. *)
Definition ParseIP (s : string) : option (list Z) :=
  match ParseAddr s with
  | Some a => if String.eqb (addr_zone a) "" then Some (addr_bytes a) else None
  | None => None
  end.

(** [ip.To4() != nil] *)
Definition is_To4 (ip : list Z) : bool := bool_decide (take 12 ip = v4InV6Prefix).

(** The bytes of [net.CIDRMask(ones, 8 * n)]. *)
Definition mask_byte (ones : Z) (i : nat) : Z :=
  let bits := Z.min 8 (Z.max 0 (ones - 8 * Z.of_nat i)) in 256 - 2 ^ (8 - bits).

Definition apply_mask (ones : Z) (ip : list Z) : list Z :=
  imap (fun i b => Z.land b (mask_byte ones i)) ip.

(** [net.ParseCIDR]: the address, the masked network address (both as 16
    bytes), and the size of the mask. *)
Definition ParseCIDR (s : string) : option (list Z * list Z * (Z * Z)) :=
  let '(text, mask, found) := Cut s "/"%char in
  if negb found then None
  else match ParseAddr text, decimal mask with
  | Some a, Some ones =>
      let bits := if addr_is4 a then 32 else 128 in
      if negb (String.eqb (addr_zone a) "") || (bits <? ones) then None
      else
        let network := if addr_is4 a
          then (v4InV6Prefix ++ apply_mask ones (drop 12 (addr_bytes a)))%list
          else apply_mask ones (addr_bytes a) in
        Some (addr_bytes a, network, (ones, bits))
  | _, _ => None
  end.

(** [net.SplitHostPort] *)
Definition SplitHostPort (hostport : string) : option (string * string) :=
  match cut_last hostport ":"%char with
  | None => None
  | Some (before, port) =>
      match hostport with
      | String "[" inner =>
          let '(host, after, found) := Cut inner "]"%char in
          if negb found then None
          else match after with
               | String ":" port' =>
                   if String.eqb port' port && negb (has_byte inner "["%char) && negb (has_byte after "]"%char)
                   then Some (host, port) else None
               | _ => None
               end
      | _ =>
          if has_byte before ":"%char || has_byte hostport "["%char || has_byte hostport "]"%char then None
          else Some (before, port)
      end
  end.

(** ** Predicates and prefixes of net/netip *)

(** The value of big-endian bytes. *)
Definition be_value (bytes : list Z) : Z := foldl (fun acc b => acc * 256 + b) 0 bytes.

(** [BitLen], and the address as a number of that width. *)
Definition BitLen (a : Addr) : Z := if addr_is4 a then 32 else 128.
Definition addr_value (a : Addr) : Z := be_value (if addr_is4 a then drop 12 (addr_bytes a) else addr_bytes a).

Definition addr_byte (a : Addr) (i : nat) : Z :=
  nth (if addr_is4 a then 12 + i else i)%nat (addr_bytes a) 0.

(** [Unmap]: an IPv4-mapped IPv6 address becomes the IPv4 address. *)
Definition Unmap (a : Addr) : Addr :=
  if negb (addr_is4 a) && is_To4 (addr_bytes a) then mkAddr true (addr_bytes a) EmptyString else a.

Definition no_zone (a : Addr) : bool := String.eqb (addr_zone a) EmptyString.

Definition IsUnspecified (a : Addr) : bool := (addr_value a =? 0) && no_zone a.

Definition IsLoopback (a : Addr) : bool :=
  let a := Unmap a in if addr_is4 a then addr_byte a 0 =? 127 else addr_value a =? 1.

Definition IsPrivate (a : Addr) : bool :=
  let a := Unmap a in
  if addr_is4 a then
    (addr_byte a 0 =? 10) || (addr_byte a 0 =? 172) && (Z.land (addr_byte a 1) 0xf0 =? 16)
    || (addr_byte a 0 =? 192) && (addr_byte a 1 =? 168)
  else Z.land (addr_byte a 0) 0xfe =? 0xfc.

Definition IsLinkLocalUnicast (a : Addr) : bool :=
  let a := Unmap a in
  if addr_is4 a then (addr_byte a 0 =? 169) && (addr_byte a 1 =? 254)
  else (addr_byte a 0 =? 0xfe) && (Z.land (addr_byte a 1) 0xc0 =? 0x80).

Definition IsLinkLocalMulticast (a : Addr) : bool :=
  let a := Unmap a in
  if addr_is4 a then (addr_byte a 0 =? 224) && (addr_byte a 1 =? 0) && (addr_byte a 2 =? 0)
  else (addr_byte a 0 =? 0xff) && (Z.land (addr_byte a 1) 0x0f =? 2).

Definition IsMulticast (a : Addr) : bool :=
  let a := Unmap a in
  if addr_is4 a then Z.land (addr_byte a 0) 0xf0 =? 0xe0 else addr_byte a 0 =? 0xff.

Record Prefix := mkPrefix { pfx_addr : Addr; pfx_bits : Z }.

(** [netip.ParsePrefix] *)
Definition ParsePrefix (s : string) : option Prefix :=
  match cut_last s "/"%char with
  | None => None
  | Some (text, bitsStr) =>
      match ParseAddr text, decimal bitsStr with
      | Some a, Some bits =>
          if negb (no_zone a) || (1 <? len bitsStr) && HasPrefix bitsStr "0" || (BitLen a <? bits) then None
          else Some (mkPrefix a bits)
      | _, _ => None
      end
  end.

(** [Prefix.Masked]; a mask keeps the leading bits. *)
Definition Masked (p : Prefix) : Prefix :=
  let a := pfx_addr p in
  mkPrefix (mkAddr (addr_is4 a)
    (if addr_is4 a then v4InV6Prefix ++ apply_mask (pfx_bits p) (drop 12 (addr_bytes a))
     else apply_mask (pfx_bits p) (addr_bytes a))%list (addr_zone a)) (pfx_bits p).

(** [Prefix.Contains]: same family, no zone, equal leading bits. *)
Definition prefix_Contains (p : Prefix) (a : Addr) : bool :=
  no_zone a && (BitLen (pfx_addr p) =? BitLen a) &&
  (Z.shiftr (addr_value a) (BitLen a - pfx_bits p) =? Z.shiftr (addr_value (pfx_addr p)) (BitLen a - pfx_bits p)).

(** [Addr.String] *)
Fixpoint decimal_digits (fuel : nat) (n : Z) (acc : string) : string :=
  match fuel with
  | O => acc
  | S fuel =>
      let acc := String (byte (48 + n mod 10)) acc in
      if n <? 10 then acc else decimal_digits fuel (n / 10) acc
  end.

Definition lower_hex_digits (n : Z) : string :=
  let d k := String (hex_digit (Z.shiftr n k mod 16)) EmptyString in
  ((if (0xfff <? n)%Z then d 12 else EmptyString) ++ (if (0xff <? n)%Z then d 8 else EmptyString)
   ++ (if (0xf <? n)%Z then d 4 else EmptyString) ++ d 0)%string.

Fixpoint groups (bytes : list Z) : list Z :=
  match bytes with
  | a :: b :: rest => (a * 256 + b) :: groups rest
  | _ => []
  end.

Fixpoint zero_run (g : list Z) : nat :=
  match g with x :: g' => if x =? 0 then S (zero_run g') else O | [] => O end.

(** The first longest run of at least two zero groups: start and length. *)
Fixpoint best_run (i : nat) (g : list Z) (best : nat * nat) : nat * nat :=
  match g with
  | [] => best
  | _ :: g' =>
      let l := zero_run g in
      best_run (S i) g' (if (2 <=? l)%nat && (snd best <? l)%nat then (i, l) else best)
  end.

Definition join_groups (g : list Z) : string := Join (map lower_hex_digits g) ":".

Definition dotted (bytes : list Z) : string := Join (map (fun b => decimal_digits 3 b EmptyString) bytes) ".".

Definition Addr_String (a : Addr) : string :=
  if addr_is4 a then dotted (drop 12 (addr_bytes a))
  else
    let g := groups (addr_bytes a) in
    let '(start, l) := best_run 0 g (0, 0)%nat in
    let text := if is_To4 (addr_bytes a) then ("::ffff:" ++ dotted (drop 12 (addr_bytes a)))%string
      else if (l =? 0)%nat then join_groups g
      else (join_groups (take start g) ++ "::" ++ join_groups (drop (start + l) g))%string in
    if no_zone a then text else (text ++ "%" ++ addr_zone a)%string.

(** * net/url

    [url.Parse], the accessors the validators use and [URL.String], as of the
    Go release the modules require (1.25.0). *)

Local Open Scope Z_scope.
Local Open Scope string_scope.

(** ** Escaping *)

Inductive encoding : Type :=
  | encodePath | encodeUserPassword | encodeHost | encodeZone | encodeQueryComponent | encodeFragment.

#[export] Instance encoding_eq_dec : EqDecision encoding.
Proof. solve_decision. Defined.

Definition hostlike (m : encoding) : bool := bool_decide (m = encodeHost) || bool_decide (m = encodeZone).

Definition alphanumeric (c : ascii) : bool := is_lower c || is_upper c || is_digit c.

Definition shouldEscape (c : ascii) (m : encoding) : bool :=
  if alphanumeric c then false
  else if hostlike m && (one_of "!$&'()*+,;=:[]<>" c || (code c =? 34)%Z) then false
  else if one_of "-_.~" c then false
  else if one_of "$&+,/:;=?@" c then
    match m with
    | encodePath => one_of "?" c
    | encodeUserPassword => one_of "@/?:" c
    | encodeQueryComponent => true
    | encodeFragment => false
    | encodeHost | encodeZone => true
    end
  else negb (bool_decide (m = encodeFragment) && one_of "!()*" c).

Definition unhex2 (a b : ascii) : Z := 16 * hex_value a + hex_value b.

(** [unescape]; [None] is an error. *)
Fixpoint unescape (m : encoding) (s : string) : option string :=
  match s with
  | EmptyString => Some ""
  | String "%" rest =>
      match rest with
      | String a (String b rest') =>
          if is_hex a && is_hex b then
            let is25 := (a =? "2")%char && (b =? "5")%char in
            if bool_decide (m = encodeHost) && (hex_value a <? 8)%Z && negb is25 then None
            else if bool_decide (m = encodeZone) && negb is25 && negb (unhex2 a b =? 32)%Z
                    && shouldEscape (byte (unhex2 a b)) encodeHost then None
            else String (byte (unhex2 a b)) <$> unescape m rest'
          else None
      | _ => None
      end
  | String c rest =>
      if hostlike m && (code c <? 0x80)%Z && shouldEscape c m then None
      else String (if bool_decide (m = encodeQueryComponent) && (c =? "+")%char then " "%char else c)
             <$> unescape m rest
  end.

Definition upper_hex (n : Z) : ascii := byte (if (n <? 10)%Z then n + 48 else n - 10 + 65).

(** [escape] *)
Fixpoint escape (m : encoding) (s : string) : string :=
  match s with
  | EmptyString => ""
  | String c rest =>
      if negb (shouldEscape c m) then String c (escape m rest)
      else if (c =? " ")%char && bool_decide (m = encodeQueryComponent) then String "+" (escape m rest)
      else String "%" (String (upper_hex (code c / 16)) (String (upper_hex (code c mod 16)) (escape m rest)))
  end.

(** [validEncoded] *)
Definition validEncoded (s : string) (m : encoding) : bool :=
  all_bytes (fun c => one_of "!$&'()*+,;=:@[]%" c || negb (shouldEscape c m)) s.

Definition QueryUnescape : string -> option string := unescape encodeQueryComponent.

(** ** The value *)

Record Userinfo := mkUserinfo { ui_username : string; ui_password : option string }.

Record URL := mkURL {
  Scheme : string;
  Opaque : string;
  User : option Userinfo;
  Host : string;
  Path : string;
  RawPath : string;
  OmitHost : bool;
  ForceQuery : bool;
  RawQuery : string;
  Fragment : string;
  RawFragment : string
}.

(** [validOptionalPort] *)
Definition validOptionalPort (port : string) : bool :=
  match port with
  | EmptyString => true
  | String c digits => (c =? ":")%char && all_bytes is_digit digits
  end.

(** [splitHostPort]; [Hostname] and [Port] are its results. *)
Definition url_splitHostPort (hostPort : string) : string * string :=
  let '(host, port) :=
    match cut_last hostPort ":"%char with
    | Some (h, p) => if all_bytes is_digit p then (h, p) else (hostPort, "")
    | None => (hostPort, "")
    end in
  match host with
  | String "[" inner =>
      if HasSuffix host "]" then (TrimSuffix inner "]", port) else (host, port)
  | _ => (host, port)
  end.

Definition Hostname (u : URL) : string := fst (url_splitHostPort (Host u)).
Definition Port (u : URL) : string := snd (url_splitHostPort (Host u)).

Definition escaped_part (raw value : string) (m : encoding) : string :=
  if negb (raw =? "") && validEncoded raw m && bool_decide (unescape m raw = Some value)
  then raw else escape m value.

(** [URL.EscapedPath], [URL.EscapedFragment] *)
Definition EscapedPath (u : URL) : string :=
  if negb (RawPath u =? "") && validEncoded (RawPath u) encodePath
     && bool_decide (unescape encodePath (RawPath u) = Some (Path u))
  then RawPath u
  else if Path u =? "*" then "*" else escape encodePath (Path u).

Definition EscapedFragment (u : URL) : string := escaped_part (RawFragment u) (Fragment u) encodeFragment.

Definition Userinfo_String (ui : Userinfo) : string :=
  match ui_password ui with
  | Some p => escape encodeUserPassword (ui_username ui) ++ ":" ++ escape encodeUserPassword p
  | None => escape encodeUserPassword (ui_username ui)
  end.

Definition first_segment_has_colon (path : string) : bool :=
  let '(segment, _, _) := Cut path "/"%char in has_byte segment ":"%char.

(** [URL.String] *)
Definition URL_String (u : URL) : string :=
  let scheme := if Scheme u =? "" then "" else Scheme u ++ ":" in
  let body :=
    if negb (Opaque u =? "") then Opaque u
    else
      let has_user := bool_decide (is_Some (User u)) in
      let authority :=
        if negb (Scheme u =? "") || negb (Host u =? "") || has_user then
          if OmitHost u && (Host u =? "") && negb has_user then ""
          else (if negb (Host u =? "") || negb (Path u =? "") || has_user then "//" else "")
               ++ match User u with Some ui => Userinfo_String ui ++ "@" | None => "" end
               ++ (if Host u =? "" then "" else escape encodeHost (Host u))
        else "" in
      let path := EscapedPath u in
      let slash := if negb (path =? "") && negb (HasPrefix path "/") && negb (Host u =? "") then "/" else "" in
      let dot := if (scheme ++ authority ++ slash =? "") && first_segment_has_colon path then "./" else "" in
      authority ++ slash ++ dot ++ path in
  let query := if ForceQuery u || negb (RawQuery u =? "") then "?" ++ RawQuery u else "" in
  let fragment := if Fragment u =? "" then "" else "#" ++ EscapedFragment u in
  scheme ++ body ++ query ++ fragment.

(** ** Parsing *)

Inductive scheme_result : Type :=
  | SchemeError
  | SchemeSplit (scheme rest : string).

(** [getScheme]; [first] is true at index 0, [acc] the reversed scheme. *)
Fixpoint getScheme (raw s : string) (first : bool) (acc : string) : scheme_result :=
  match s with
  | EmptyString => SchemeSplit "" raw
  | String c rest =>
      if is_lower c || is_upper c then getScheme raw rest false (acc ++ String c "")
      else if is_digit c || one_of "+-." c then
        if first then SchemeSplit "" raw else getScheme raw rest false (acc ++ String c "")
      else if (c =? ":")%char then (if first then SchemeError else SchemeSplit acc rest)
      else SchemeSplit "" raw
  end.

Definition validUserinfo (s : string) : bool :=
  all_bytes (fun c => alphanumeric c || one_of "-._:~!$&'()*+,;=%@" c) s.

(** [strings.Index(s, "%25")] as the text before it and from it on. *)
Fixpoint cut_zone (s : string) : option (string * string) :=
  match s with
  | EmptyString => None
  | String c rest =>
      if HasPrefix s "%25" then Some ("", s)
      else match cut_zone rest with Some (a, b) => Some (String c a, b) | None => None end
  end.

(** [parseHost] *)
Definition parseHost (host : string) : option string :=
  match host with
  | String "[" _ =>
      match cut_last host "]"%char with
      | None => None
      | Some (literal, colonPort) =>
          if negb (validOptionalPort colonPort) then None
          else match cut_zone literal with
               | Some (before, zone) =>
                   match unescape encodeHost before, unescape encodeZone zone,
                         unescape encodeHost ("]" ++ colonPort) with
                   | Some h1, Some h2, Some h3 => Some (h1 ++ h2 ++ h3)
                   | _, _, _ => None
                   end
               | None => unescape encodeHost host
               end
      end
  | _ =>
      match cut_last host ":"%char with
      | Some (_, port) => if all_bytes is_digit port then unescape encodeHost host else None
      | None => unescape encodeHost host
      end
  end.

(** [parseAuthority] *)
Definition parseAuthority (authority : string) : option (option Userinfo * string) :=
  match cut_last authority "@"%char with
  | None => pair None <$> parseHost authority
  | Some (userinfo, host) =>
      match parseHost host with
      | None => None
      | Some h =>
          if negb (validUserinfo userinfo) then None
          else
            let '(username, password, found) := Cut userinfo ":"%char in
            match unescape encodeUserPassword username, unescape encodeUserPassword password with
            | Some n, Some p => Some (Some (mkUserinfo n (if found then Some p else None)), h)
            | _, _ => None
            end
      end
  end.

Definition set_path (u : URL) (p : string) : option URL :=
  match unescape encodePath p with
  | Some path => Some (mkURL (Scheme u) (Opaque u) (User u) (Host u) path
                         (if p =? escape encodePath path then "" else p)
                         (OmitHost u) (ForceQuery u) (RawQuery u) (Fragment u) (RawFragment u))
  | None => None
  end.

Definition set_fragment (u : URL) (f : string) : option URL :=
  match unescape encodeFragment f with
  | Some frag => Some (mkURL (Scheme u) (Opaque u) (User u) (Host u) (Path u) (RawPath u)
                         (OmitHost u) (ForceQuery u) (RawQuery u) frag
                         (if f =? escape encodeFragment frag then "" else f))
  | None => None
  end.

Definition is_ctl (c : ascii) : bool := (code c <? 32)%Z || (code c =? 127)%Z.

(** [parse(rawURL, false)] *)
Definition parse_url (raw : string) : option URL :=
  if any_byte is_ctl raw then None
  else if raw =? "*" then Some (mkURL "" "" None "" "*" "" false false "" "" "")
  else match getScheme raw raw true "" with
  | SchemeError => None
  | SchemeSplit scheme0 rest0 =>
      let scheme := ToLower scheme0 in
      let '(before, after, found) := Cut rest0 "?"%char in
      let force := found && (after =? "") in
      let rest := before in
      let query := after in
      if negb (HasPrefix rest "/") && negb (scheme =? "") then
        Some (mkURL scheme rest None "" "" "" false force query "" "")
      else if negb (HasPrefix rest "/") && first_segment_has_colon rest then None
      else if (negb (scheme =? "") || negb (HasPrefix rest "///")) && HasPrefix rest "//" then
        let '(authority, tail, slash) := Cut (TrimPrefix rest "//") "/"%char in
        let path := if slash then "/" ++ tail else "" in
        match parseAuthority authority with
        | Some (user, host) =>
            set_path (mkURL scheme "" user host "" "" false force query "" "") path
        | None => None
        end
      else
        set_path (mkURL scheme "" None "" "" "" (negb (scheme =? "") && HasPrefix rest "/") force query "" "") rest
  end.

(** [url.Parse] *)
Definition url_Parse (raw : string) : option URL :=
  let '(u, frag, _) := Cut raw "#"%char in
  match parse_url u with
  | Some parsed => if frag =? "" then Some parsed else set_fragment parsed frag
  | None => None
  end.
