(* ===== verification/GoJson.v ===== *)
(** * encoding/json

    The values a [json.Decoder] reads: its grammar, its unquoting of strings,
    and the document test of a decoder that must reach the end of its input. *)
From stdpp Require Import base list strings.
From Stdlib Require Import ZArith Lia Ascii.
From S2P Require Import Prelude GoStrings GoUrl.


Local Open Scope Z_scope.
Local Open Scope string_scope.

(** A decoded [any]; numbers keep their text ([UseNumber]), objects their
    members in order, repeated keys included. *)
#[warnings="-register-all"]
Inductive json : Type :=
  | JNull
  | JBool (b : bool)
  | JNumber (text : string)
  | JString (s : string)
  | JArray (l : list json)
  | JObject (members : list (string * json)).

Definition dquote : ascii := "034"%char.
Definition backslash : ascii := "092"%char.
Definition is_ws (c : ascii) : bool := one_of (String "032" (String "009" (String "010" (String "013" "")))) c.

Definition skip_ws (s : string) : string := trim_left is_ws s.

(** ** Strings *)

(** The text of a string literal up to its closing quote, escapes included,
    and what follows it. *)
Fixpoint scan_string (s : string) : option (string * string) :=
  match s with
  | EmptyString => None
  | String c rest =>
      if (c =? dquote)%char then Some ("", rest)
      else if (c =? backslash)%char then
        match rest with
        | String e rest' =>
            if one_of (String dquote (String backslash "/bfnrt")) e then
              match scan_string rest' with Some (t, r) => Some (String c (String e t), r) | None => None end
            else if (e =? "u")%char then
              match rest' with
              | String a (String b (String d (String f rest''))) =>
                  if is_hex a && is_hex b && is_hex d && is_hex f then
                    match scan_string rest'' with
                    | Some (t, r) => Some (String c (String e (String a (String b (String d (String f t))))), r)
                    | None => None
                    end
                  else None
              | _ => None
              end
            else None
        | EmptyString => None
        end
      else if (code c <? 32)%Z then None
      else match scan_string rest with Some (t, r) => Some (String c t, r) | None => None end
  end.

Definition hex4 (a b c d : ascii) : Z :=
  ((hex_value a * 16 + hex_value b) * 16 + hex_value c) * 16 + hex_value d.

Definition escaped_char (e : ascii) : ascii :=
  if (e =? "b")%char then "008" else if (e =? "f")%char then "012" else if (e =? "n")%char then "010"
  else if (e =? "r")%char then "013" else if (e =? "t")%char then "009" else e.

(** The escapes of a scanned literal; surrogates that form no pair become the
    replacement character. *)
Fixpoint unescape_json (s : string) : string :=
  match s with
  | EmptyString => ""
  | String c rest =>
      if (c =? backslash)%char then
        match rest with
        | String e rest' =>
            if (e =? "u")%char then
              match rest' with
              | String a (String b (String d (String f rest1))) =>
                  let r := hex4 a b d f in
                  if in_range 0xD800 0xDFFF r then
                    match rest1 with
                    | String b1 (String u1 (String a1 (String b2 (String d1 (String f1 rest2))))) =>
                        let r1 := hex4 a1 b2 d1 f1 in
                        if (b1 =? backslash)%char && (u1 =? "u")%char && in_range 0xD800 0xDBFF r
                           && in_range 0xDC00 0xDFFF r1
                        then EncodeRune (0x10000 + (r - 0xD800) * 1024 + (r1 - 0xDC00)) ++ unescape_json rest2
                        else EncodeRune RuneError ++ unescape_json rest1
                    | _ => EncodeRune RuneError ++ unescape_json rest1
                    end
                  else EncodeRune r ++ unescape_json rest1
              | _ => ""
              end
            else String (escaped_char e) (unescape_json rest')
        | EmptyString => ""
        end
      else String c (unescape_json rest)
  end.

(** Invalid UTF-8 becomes the replacement character. *)
Definition to_valid_utf8 (s : string) : string :=
  foldr (fun '(r, _) acc => EncodeRune r ++ acc) "" (runes s).

Definition unquote (literal : string) : string := unescape_json (to_valid_utf8 literal).

(** ** Numbers and words *)

Fixpoint span_digits (s : string) : string * string :=
  match s with
  | String c rest => if is_digit c then let '(d, r) := span_digits rest in (String c d, r) else ("", s)
  | EmptyString => ("", s)
  end.

Definition scan_int (s : string) : option (string * string) :=
  match s with
  | String "0" rest => Some ("0", rest)
  | _ => match span_digits s with ("", _) => None | r => Some r end
  end.

Definition scan_frac (s : string) : option (string * string) :=
  match s with
  | String "." rest =>
      match span_digits rest with ("", _) => None | (d, r) => Some ("." ++ d, r) end
  | _ => Some ("", s)
  end.

Definition scan_exp (s : string) : option (string * string) :=
  match s with
  | String e rest =>
      if (e =? "e")%char || (e =? "E")%char then
        let '(sign, rest') :=
          match rest with
          | String c r => if (c =? "+")%char || (c =? "-")%char then (String c "", r) else ("", rest)
          | EmptyString => ("", rest)
          end in
        match span_digits rest' with ("", _) => None | (d, r) => Some (String e (sign ++ d), r) end
      else Some ("", s)
  | EmptyString => Some ("", s)
  end.

Definition scan_number (s : string) : option (string * string) :=
  let '(sign, s0) := match s with String "-" r => ("-", r) | _ => ("", s) end in
  match scan_int s0 with
  | Some (i, s1) =>
      match scan_frac s1 with
      | Some (f, s2) => match scan_exp s2 with
                        | Some (e, s3) => Some (sign ++ i ++ f ++ e, s3)
                        | None => None
                        end
      | None => None
      end
  | None => None
  end.

Definition scan_word (w : string) (v : json) (s : string) : option (json * string) :=
  if HasPrefix s w then Some (v, TrimPrefix s w) else None.

(** ** Values *)

(** The text after white space and one given byte. *)
Definition expect (c : ascii) (s : string) : option string :=
  match skip_ws s with
  | String x r => if (x =? c)%char then Some r else None
  | EmptyString => None
  end.

(** What the parser is reading: a value, the rest of an array, or the rest of
    an object, with what it has read so far. *)
Inductive mode : Type :=
  | MValue
  | MElements (acc : list json)
  | MMembers (acc : list (string * json)).

(** A value that is no array or object. *)
Definition scan_scalar (s : string) : option (json * string) :=
  match skip_ws s with
  | EmptyString => None
  | String c rest =>
      if (c =? dquote)%char then
        match scan_string rest with Some (t, r) => Some (JString (unquote t), r) | None => None end
      else if (c =? "t")%char then scan_word "rue" (JBool true) rest
      else if (c =? "f")%char then scan_word "alse" (JBool false) rest
      else if (c =? "n")%char then scan_word "ull" JNull rest
      else match scan_number (String c rest) with
           | Some (t, r) => Some (JNumber t, r)
           | None => None
           end
  end.

(** A member's key and its colon. *)
Definition scan_key (s : string) : option (string * string) :=
  match expect dquote s with
  | Some r => match scan_string r with
              | Some (k, r1) => match expect ":" r1 with
                                | Some r2 => Some (unquote k, r2)
                                | None => None
                                end
              | None => None
              end
  | None => None
  end.

(** Two calls at most are made per byte of the text, so twice its length is
    fuel enough: [json_fuel], shown by [parse_json_fuel]. *)
Fixpoint parse_json (fuel : nat) (m : mode) (s : string) : option (json * string) :=
  match fuel with
  | O => None
  | S fuel =>
      match m with
      | MValue =>
          match expect "{" s with
          | Some r =>
              match expect "}" r with
              | Some r' => Some (JObject [], r')
              | None => parse_json fuel (MMembers []) r
              end
          | None =>
              match expect "[" s with
              | Some r =>
                  match expect "]" r with
                  | Some r' => Some (JArray [], r')
                  | None => parse_json fuel (MElements []) r
                  end
              | None => scan_scalar s
              end
          end
      | MElements acc =>
          match parse_json fuel MValue s with
          | Some (v, r) =>
              match expect "," r with
              | Some r' => parse_json fuel (MElements (acc ++ [v])%list) r'
              | None => match expect "]" r with
                        | Some r' => Some (JArray (acc ++ [v])%list, r')
                        | None => None
                        end
              end
          | None => None
          end
      | MMembers acc =>
          match scan_key s with
          | Some (k, r1) =>
              match parse_json fuel MValue r1 with
              | Some (v, r2) =>
                  match expect "," r2 with
                  | Some r3 => parse_json fuel (MMembers (acc ++ [(k, v)])%list) r3
                  | None => match expect "}" r2 with
                            | Some r3 => Some (JObject (acc ++ [(k, v)])%list, r3)
                            | None => None
                            end
                  end
              | None => None
              end
          | None => None
          end
      end
  end.

Definition json_fuel (s : string) : nat := 2 * S (String.length s).

(** A decoder's first value, when nothing but white space follows it. *)
Definition json_document (s : string) : option json :=
  match parse_json (json_fuel s) MValue s with
  | Some (v, rest) => if skip_ws rest =? "" then Some v else None
  | None => None
  end.

(** [object[key]] of a decoded map, where the last member of a key wins. *)
Definition json_get (members : list (string * json)) (key : string) : option json :=
  snd <$> List.find (fun '(k, _) => k =? key) (rev members).

(** ** The parser ends *)

Abbreviation slen := String.length.

Lemma trim_left_le p s : (slen (trim_left p s) <= slen s)%nat.
Proof. induction s as [|c s IH]; cbn; [lia|]. destruct (p c); cbn; lia. Qed.

Lemma skip_ws_cons s c r : skip_ws s = String c r -> (slen r < slen s)%nat.
Proof. intros H. pose proof (trim_left_le is_ws s) as Hl. unfold skip_ws in H. rewrite H in Hl. cbn in Hl. lia. Qed.

Lemma str_len_ind (P : string -> Prop) :
  (forall s, (forall t, (slen t < slen s)%nat -> P t) -> P s) -> forall s, P s.
Proof.
  intros H s. remember (slen s) as n eqn:En. revert s En.
  induction n as [n IH] using (well_founded_induction lt_wf). intros s ->. apply H. intros t Ht. by eapply IH.
Qed.

Lemma scan_string_rest s t r : scan_string s = Some (t, r) -> (slen r < slen s)%nat.
Proof.
  revert t r. induction s as [s IH] using str_len_ind. intros t r. destruct s as [|c s]; [done|]. cbn [scan_string].
  destruct (c =? dquote)%char; [intros [= _ <-]; cbn; lia|].
  assert (H : forall s' f, (slen s' <= slen s)%nat ->
    match scan_string s' with Some (t0, r0) => Some (f t0, r0) | None => None end = Some (t, r) ->
    (slen r < slen (String c s))%nat).
  { intros s' f Hl E. destruct (scan_string s') as [[t0 r0]|] eqn:Es; [|done]. injection E as _ <-.
    apply IH in Es; cbn; lia. }
  destruct (c =? backslash)%char.
  - destruct s as [|e s1]; [done|]. destruct (one_of _ e); [apply (H s1 (fun t => String c (String e t))); cbn; lia|].
    destruct (e =? "u")%char; [|done]. destruct s1 as [|a [|b [|d [|f s2]]]]; try done.
    destruct (_ && _); [|done].
    apply (H s2 (fun t => String c (String e (String a (String b (String d (String f t))))))); cbn; lia.
  - destruct (_ <? _)%Z; [done|]. apply (H s (String c)); lia.
Qed.

Lemma span_digits_rest s d r : span_digits s = (d, r) -> slen s = (slen d + slen r)%nat.
Proof.
  revert d r. induction s as [|c s IH]; cbn; intros d r; [by intros [= <- <-]|].
  destruct (is_digit c); [|by intros [= <- <-]]. destruct (span_digits s) as [d0 r0]. intros [= <- <-].
  cbn. by rewrite (IH d0 r0).
Qed.

Lemma scan_int_rest s t r : scan_int s = Some (t, r) -> (slen r < slen s)%nat.
Proof.
  unfold scan_int. assert (H : match span_digits s with ("", _) => None | x => Some x end = Some (t, r) ->
    (slen r < slen s)%nat).
  { destruct (span_digits s) as [d r0] eqn:E. apply span_digits_rest in E. destruct d; [done|].
    intros [= _ <-]. cbn in E. lia. }
  destruct s as [|[[] [] [] [] [] [] [] []] s]; try exact H. intros [= _ <-]. cbn. lia.
Qed.

Lemma scan_frac_rest s t r : scan_frac s = Some (t, r) -> (slen r <= slen s)%nat.
Proof.
  unfold scan_frac. destruct s as [|[[] [] [] [] [] [] [] []] s]; try (intros [= _ <-]; lia).
  destruct (span_digits s) as [d r0] eqn:E. apply span_digits_rest in E. destruct d; [done|].
  intros [= _ <-]. cbn in *. lia.
Qed.

Lemma scan_exp_rest s t r : scan_exp s = Some (t, r) -> (slen r <= slen s)%nat.
Proof.
  unfold scan_exp. destruct s as [|e s]; [intros [= _ <-]; lia|].
  destruct (_ || _); [|intros [= _ <-]; lia].
  assert (H : forall sign s', (slen s' <= slen s)%nat ->
    match span_digits s' with ("", _) => None | (d, r0) => Some (String e (sign ++ d), r0) end = Some (t, r) ->
    (slen r <= slen (String e s))%nat).
  { intros sign s' Hl. destruct (span_digits s') as [d r0] eqn:E. apply span_digits_rest in E.
    destruct d; [done|]. intros [= _ <-]. cbn in *. lia. }
  destruct s as [|c s1]; [by apply H|]. destruct (_ || _); apply H; cbn; lia.
Qed.

Lemma scan_number_rest s t r : scan_number s = Some (t, r) -> (slen r < slen s)%nat.
Proof.
  unfold scan_number.
  assert (H : forall sign s0, (slen s0 <= slen s)%nat ->
    match scan_int s0 with
    | Some (i, s1) => match scan_frac s1 with
        | Some (f, s2) => match scan_exp s2 with Some (e, s3) => Some (sign ++ i ++ f ++ e, s3) | None => None end
        | None => None end
    | None => None end = Some (t, r) -> (slen r < slen s)%nat).
  { intros sign s0 Hl. destruct (scan_int s0) as [[i s1]|] eqn:E1; [|done]. apply scan_int_rest in E1.
    destruct (scan_frac s1) as [[f s2]|] eqn:E2; [|done]. apply scan_frac_rest in E2.
    destruct (scan_exp s2) as [[e s3]|] eqn:E3; [|done]. apply scan_exp_rest in E3.
    intros [= _ <-]. lia. }
  destruct s as [|[[] [] [] [] [] [] [] []] s1]; apply H; cbn; lia.
Qed.

Lemma substring_le n m s : (slen (String.substring n m s) <= slen s)%nat.
Proof.
  revert n m. induction s as [|c s IH]; intros [|n] [|m]; cbn; try lia.
  - specialize (IH 0%nat m). lia.
  - specialize (IH n 0%nat). lia.
  - specialize (IH n (S m)). lia.
Qed.

Lemma scan_word_rest w v s x r : scan_word w v s = Some (x, r) -> (slen r <= slen s)%nat.
Proof.
  unfold scan_word. destruct (HasPrefix s w) eqn:E; [|done]. intros [= _ <-]. unfold TrimPrefix. rewrite E.
  apply substring_le.
Qed.

Lemma expect_rest c s r : expect c s = Some r -> (slen r < slen s)%nat.
Proof.
  unfold expect. destruct (skip_ws s) as [|x r0] eqn:E; [done|]. destruct (x =? c)%char; [|done].
  intros [= <-]. by apply skip_ws_cons in E.
Qed.

Lemma scan_key_rest s k r : scan_key s = Some (k, r) -> (slen r < slen s)%nat.
Proof.
  unfold scan_key. destruct (expect dquote s) as [r0|] eqn:E0; [|done]. apply expect_rest in E0.
  destruct (scan_string r0) as [[k0 r1]|] eqn:E1; [|done]. apply scan_string_rest in E1.
  destruct (expect ":" r1) as [r2|] eqn:E2; [|done]. apply expect_rest in E2. intros [= _ <-]. lia.
Qed.

Lemma scan_scalar_rest s v r : scan_scalar s = Some (v, r) -> (slen r < slen s)%nat.
Proof.
  unfold scan_scalar. destruct (skip_ws s) as [|c rest] eqn:Es; [done|].
  pose proof (trim_left_le is_ws s) as Hl. unfold skip_ws in Es. rewrite Es in Hl. cbn in Hl.
  destruct (c =? dquote)%char.
  { destruct (scan_string rest) as [[t r0]|] eqn:E; [|done]. apply scan_string_rest in E. intros [= _ <-]. lia. }
  destruct (c =? "t")%char; [intros H; apply scan_word_rest in H; lia|].
  destruct (c =? "f")%char; [intros H; apply scan_word_rest in H; lia|].
  destruct (c =? "n")%char; [intros H; apply scan_word_rest in H; lia|].
  destruct (scan_number _) as [[t r0]|] eqn:E; [|done]. apply scan_number_rest in E. cbn in E. intros [= _ <-]. lia.
Qed.

(** A parsed value ends inside the text. *)
Lemma parse_json_rest n m s v r : parse_json n m s = Some (v, r) -> (slen r < slen s)%nat.
Proof.
  revert m s v r. induction n as [|n IH]; intros m s v r; [done|]. cbn [parse_json].
  destruct m as [|acc|acc]; repeat case_match; intros; simplify_eq;
    repeat match goal with
    | H : expect _ _ = Some _ |- _ => apply expect_rest in H
    | H : scan_key _ = Some _ |- _ => apply scan_key_rest in H
    | H : scan_scalar _ = Some _ |- _ => apply scan_scalar_rest in H
    | H : parse_json _ _ _ = Some _ |- _ => apply IH in H
    end; lia.
Qed.

(** Beyond [json_fuel] more fuel makes no difference. *)
Definition need (m : mode) (s : string) : nat :=
  match m with MElements _ => 2 * slen s + 2 | _ => 2 * slen s + 1 end.

Lemma parse_json_fuel n1 n2 m s : (need m s <= n1)%nat -> (need m s <= n2)%nat ->
  parse_json n1 m s = parse_json n2 m s.
Proof.
  revert n2 m s. induction n1 as [|n1 IH]; intros n2 m s H1 H2; [destruct m; cbn in H1; lia|].
  destruct n2 as [|n2]; [destruct m; cbn in H2; lia|]. cbn [parse_json]. destruct m as [|acc|acc]; cbn [need] in *.
  - destruct (expect "{" s) as [r|] eqn:E; [apply expect_rest in E|];
      [destruct (expect "}" r); [done|apply IH; cbn; lia]|].
    destruct (expect "[" s) as [r|] eqn:E1; [|done]. apply expect_rest in E1.
    destruct (expect "]" r); [done|apply IH; cbn; lia].
  - rewrite (IH n2 MValue s) by (cbn; lia). destruct (parse_json n2 MValue s) as [[v r]|] eqn:Ev; [|done].
    apply parse_json_rest in Ev. destruct (expect "," r) as [r'|] eqn:E; [|done]. apply expect_rest in E.
    apply IH; cbn; lia.
  - destruct (scan_key s) as [[k r1]|] eqn:Ek; [|done]. apply scan_key_rest in Ek.
    rewrite (IH n2 MValue r1) by (cbn; lia). destruct (parse_json n2 MValue r1) as [[v r2]|] eqn:Ev; [|done].
    apply parse_json_rest in Ev. destruct (expect "," r2) as [r3|] eqn:E; [|done]. apply expect_rest in E.
    apply IH; cbn; lia.
Qed.
