(* ===== verification/GoJsonPrint.v ===== *)
(** * Lemmas on Go's string functions

    Prefixes and suffixes as concatenations, splitting and joining as
    inverses, and what the address parsers do with text that has no zone. *)
From stdpp Require Import base list strings.
From Stdlib Require Import ZArith Lia Ascii.
From S2P Require Import Prelude GoStrings GoUrl GoJson.


Local Open Scope string_scope.

(** ** Prefixes and suffixes *)

Lemma substring_zero n s : String.substring n 0 s = "".
Proof. revert s. induction n as [|n IH]; intros [|c s]; cbn; [done|done|done|apply IH]. Qed.

Lemma substring_full s : String.substring 0 (String.length s) s = s.
Proof. induction s as [|c s IH]; cbn; [done|]. by rewrite IH. Qed.

Lemma str_length_app a b : String.length (a +:+ b) = (String.length a + String.length b)%nat.
Proof. induction a as [|c a IH]; [done|]. rewrite str_cons_app. cbn. by rewrite IH. Qed.

Lemma substring_drop a b : String.substring (String.length a) (String.length b) (a +:+ b) = b.
Proof. induction a as [|c a IH]; [apply substring_full|]. rewrite str_cons_app. cbn. exact IH. Qed.

Lemma substring_take a b : String.substring 0 (String.length a) (a +:+ b) = a.
Proof. induction a as [|c a IH]; [by destruct b|]. rewrite str_cons_app. cbn. by rewrite IH. Qed.

Lemma all_bytes_substring q a b s : all_bytes q s = true -> all_bytes q (String.substring a b s) = true.
Proof.
  revert a b. induction s as [|c s IH]; intros [|a] [|b]; cbn; try done; rewrite ?andb_true_iff; intros [H1 H2]; auto.
Qed.

Lemma substring_split n s : (n <= String.length s)%nat ->
  String.substring 0 n s +:+ String.substring n (String.length s - n) s = s.
Proof.
  revert n. induction s as [|c s IH]; intros [|n] Hn; cbn in Hn; [done|lia| |].
  - cbn. rewrite substring_full. by destruct s.
  - cbn [String.substring String.length]. rewrite str_cons_app. f_equal. apply IH. lia.
Qed.

Lemma HasPrefix_iff s p : HasPrefix s p = true <-> exists r, s = p +:+ r.
Proof.
  unfold HasPrefix. revert s. induction p as [|c p IH]; intros s.
  - split; [by exists s|by destruct s].
  - destruct s as [|d s]; [split; [done|by intros [r H]]|].
    change (String.prefix (String c p) (String d s)) with (if ascii_dec c d then String.prefix p s else false).
    destruct (ascii_dec c d) as [->|N].
    + rewrite IH. split; intros [r H]; exists r; rewrite ?str_cons_app in *; congruence.
    + split; [done|]. intros [r H]. rewrite str_cons_app in H. congruence.
Qed.

Lemma HasSuffix_iff s x : HasSuffix s x = true <-> exists p, s = p +:+ x.
Proof.
  unfold HasSuffix. rewrite andb_true_iff, Nat.leb_le, String.eqb_eq. split.
  - intros [Hl E]. exists (String.substring 0 (String.length s - String.length x) s).
    pose proof (substring_split (String.length s - String.length x) s ltac:(lia)) as H.
    replace (String.length s - (String.length s - String.length x))%nat with (String.length x) in H by lia.
    by rewrite E in H.
  - intros [p ->]. rewrite str_length_app. split; [lia|].
    replace (String.length p + String.length x - String.length x)%nat with (String.length p) by lia.
    apply substring_drop.
Qed.

Lemma TrimSuffix_app p x : TrimSuffix (p +:+ x) x = p.
Proof.
  unfold TrimSuffix. rewrite (proj2 (HasSuffix_iff _ _)) by (by exists p). rewrite str_length_app.
  replace (String.length p + String.length x - String.length x)%nat with (String.length p) by lia.
  apply substring_take.
Qed.

Lemma TrimSuffix_none s x : HasSuffix s x = false -> TrimSuffix s x = s.
Proof. unfold TrimSuffix. by intros ->. Qed.

(** ** Splitting and joining *)

Section Split.
Context (sep : ascii).

Lemma Split_nonempty s : Split s sep <> [].
Proof. induction s as [|c s IH]; cbn; [done|]. destruct (Ascii.eqb c sep); [done|]. by destruct (Split s sep). Qed.

Lemma Split_app a b : Split (a +:+ String sep b) sep = (Split a sep ++ Split b sep)%list.
Proof.
  induction a as [|c a IH]; str; cbn [Split].
  - by rewrite Ascii.eqb_refl.
  - rewrite IH. destruct (Ascii.eqb c sep); [done|]. pose proof (Split_nonempty a). by destruct (Split a sep).
Qed.

Lemma Join_cons w ws : ws <> [] -> Join (w :: ws) (String sep "") = w +:+ String sep (Join ws (String sep "")).
Proof. by destruct ws. Qed.

Lemma Join_head c w ws : Join (String c w :: ws) (String sep "") = String c (Join (w :: ws) (String sep "")).
Proof. by destruct ws. Qed.

Lemma Join_Split s : Join (Split s sep) (String sep "") = s.
Proof.
  induction s as [|c s IH]; [done|]. cbn [Split]. destruct (Ascii.eqb_spec c sep) as [->|N].
  - rewrite Join_cons by apply Split_nonempty. by rewrite IH.
  - pose proof (Split_nonempty s). destruct (Split s sep) as [|w ws]; [done|]. by rewrite Join_head, IH.
Qed.

Lemma Join_app xs ys : xs <> [] -> ys <> [] ->
  Join (xs ++ ys)%list (String sep "") = Join xs (String sep "") +:+ String sep (Join ys (String sep "")).
Proof.
  intros Hx Hy. induction xs as [|x xs IH]; [done|]. destruct xs as [|x' xs].
  - cbn [app]. by rewrite Join_cons.
  - rewrite <- app_comm_cons, Join_cons by done. rewrite IH by done. rewrite (Join_cons x (x' :: xs)) by done.
    by rewrite str_app_assoc, str_cons_app.
Qed.

(** A text ends with a separator and [r] exactly when [r]'s parts end its
    parts; it starts with [r] and a separator exactly when they start them. *)
Lemma suffix_parts s r :
  (s = r \/ exists p, s = p +:+ String sep r) <-> exists pre, Split s sep = (pre ++ Split r sep)%list.
Proof.
  split.
  - intros [->|[p ->]]; [by exists []|]. exists (Split p sep). apply Split_app.
  - intros [pre E]. apply (f_equal (fun l => Join l (String sep ""))) in E. rewrite Join_Split in E.
    destruct pre as [|w pre]; [left; by rewrite E, app_nil_l, Join_Split|right].
    rewrite Join_app, Join_Split in E by (done || apply Split_nonempty). by eexists.
Qed.

Lemma prefix_parts s r :
  (exists p, s = r +:+ String sep p) <-> exists post, post <> [] /\ Split s sep = (Split r sep ++ post)%list.
Proof.
  split.
  - intros [p ->]. exists (Split p sep). split; [apply Split_nonempty|apply Split_app].
  - intros (post & Hp & E). apply (f_equal (fun l => Join l (String sep ""))) in E. rewrite Join_Split in E.
    rewrite Join_app, Join_Split in E by (done || apply Split_nonempty). by eexists.
Qed.

(** Every byte of a text is the separator or lies in one of its parts. *)
Lemma all_bytes_Split q s : q sep = true -> forallb (all_bytes q) (Split s sep) = all_bytes q s.
Proof.
  intros Hs. induction s as [|c s IH]; [done|]. cbn [Split all_bytes]. destruct (Ascii.eqb_spec c sep) as [->|N].
  - cbn. by rewrite IH, Hs.
  - pose proof (Split_nonempty s). destruct (Split s sep) as [|w ws]; [done|]. cbn in *. by rewrite <- IH, andb_assoc.
Qed.
End Split.

Lemma Split_whole s sep : all_bytes (fun c => negb (c =? sep)%char) s = true -> Split s sep = [s].
Proof.
  induction s as [|c s IH]; [done|]. cbn. rewrite andb_true_iff, negb_true_iff. intros [-> Hs]. by rewrite IH.
Qed.

Lemma Cut_found a c b : all_bytes (fun d => negb (d =? c)%char) a = true -> Cut (a +:+ String c b) c = (a, b, true).
Proof.
  induction a as [|d a IH]; cbn [all_bytes]; [intros _; rewrite str_nil_app; cbn [Cut]; by rewrite Ascii.eqb_refl|].
  rewrite andb_true_iff, negb_true_iff. intros [Hd Ha]. rewrite str_cons_app. cbn [Cut]. by rewrite Hd, IH.
Qed.

(** ** Bytes of a text *)

Lemma TrimPrefix_app a b : TrimPrefix (a +:+ b) a = b.
Proof.
  unfold TrimPrefix. rewrite (proj2 (HasPrefix_iff _ _)) by (by exists b). rewrite str_length_app.
  replace (String.length a + String.length b - String.length a)%nat with (String.length b) by lia. apply substring_drop.
Qed.

Lemma cut_last_none s sep : has_byte s sep = false -> cut_last s sep = None.
Proof.
  unfold has_byte. induction s as [|c s IH]; [done|]. cbn [any_byte cut_last]. intros H. apply orb_false_iff in H as [H1 H2].
  rewrite (IH H2). rewrite Ascii.eqb_sym in H1. by rewrite H1.
Qed.

Lemma any_byte_app p a b : any_byte p (a +:+ b) = any_byte p a || any_byte p b.
Proof. induction a as [|c a IH]; [done|]. rewrite str_cons_app. cbn [any_byte]. by rewrite IH, orb_assoc. Qed.

Lemma cut_last_split s sep a b : cut_last s sep = Some (a, b) -> s = a +:+ String sep b.
Proof.
  revert a b. induction s as [|c s IH]; intros a b H; [done|]. cbn in H. destruct (cut_last s sep) as [[x y]|] eqn:E.
  - injection H as <- <-. by rewrite (IH x y).
  - destruct (Ascii.eqb_spec c sep) as [->|]; [by injection H as <- <-|done].
Qed.

Lemma cut_last_end x sep : cut_last (x +:+ String sep "") sep = Some (x, "").
Proof.
  induction x as [|c x IH]; [rewrite str_nil_app; cbn; by rewrite Ascii.eqb_refl|].
  rewrite str_cons_app. cbn [cut_last]. by rewrite IH.
Qed.

Lemma Cut_within a c b : has_byte a c = false -> Cut (a +:+ b) c = let '(x, y, f) := Cut b c in (a +:+ x, y, f).
Proof.
  unfold has_byte. induction a as [|d a IH]; intros Ha; [rewrite str_nil_app; by destruct (Cut b c) as [[x y] f]|].
  cbn [any_byte] in Ha. apply orb_false_iff in Ha as [Hd Ha]. rewrite str_cons_app. cbn [Cut].
  rewrite (Ascii.eqb_sym d c), Hd, (IH Ha). by destruct (Cut b c) as [[x y] f].
Qed.

Lemma any_byte_impl p q s : (forall c, p c = true -> q c = true) -> any_byte p s = true -> any_byte q s = true.
Proof. intros Hpq. induction s as [|c s IH]; [done|]. cbn. rewrite !orb_true_iff. intros [H|H]; auto. Qed.

Lemma no_byte_all s c : has_byte s c = false -> all_bytes (fun d => negb (d =? c)%char) s = true.
Proof.
  unfold has_byte. induction s as [|d s IH]; [done|]. cbn. rewrite orb_false_iff. intros [Hd H]. by rewrite Ascii.eqb_sym, Hd, IH.
Qed.

(** ** Addresses without a zone *)

Lemma Cut_absent s c : has_byte s c = false -> Cut s c = (s, "", false).
Proof.
  unfold has_byte. induction s as [|d s IH]; cbn [any_byte Cut]; [done|]. intros H.
  apply orb_false_iff in H as [H1 H2]. rewrite (Ascii.eqb_sym d c), H1, IH by done. done.
Qed.

Lemma ParseAddr_no_zone s a : has_byte s "%"%char = false -> ParseAddr s = Some a -> addr_zone a = "".
Proof.
  intros Hs. unfold ParseAddr. destruct (addr_family s) as [f|]; [|done].
  assert (H4 : parseIPv4 s = Some a -> addr_zone a = "").
  { unfold parseIPv4. destruct (parseIPv4Fields s); [|done]. by intros [= <-]. }
  assert (H6 : parseIPv6 s = Some a -> addr_zone a = "").
  { unfold parseIPv6. rewrite (Cut_absent _ _ Hs). cbn [andb].
    intros H. repeat case_match; simplify_eq; done. }
  destruct f as [[] [] [] [] [] [] [] []]; try done; assumption.
Qed.

Lemma ParseIP_ParseAddr s : has_byte s "%"%char = false -> is_Some (ParseIP s) <-> is_Some (ParseAddr s).
Proof.
  intros Hs. unfold ParseIP. destruct (ParseAddr s) as [a|] eqn:E; [|done].
  rewrite (ParseAddr_no_zone s a Hs E). cbn. split; intros _; by eexists.
Qed.

(** ** Runes *)

Lemma concat_runes s : concat_chunks (runes s) = s.
Proof.
  remember (String.length s) as n eqn:Hn. revert s Hn. induction n as [n IH] using lt_wf_ind. intros [|a s] ->; [done|].
  assert (IHs : forall s', (String.length s' < String.length (String a s))%nat -> concat_chunks (runes s') = s')
    by (intros s' Hs; by eapply IH).
  assert (Hstep : forall x c s', (String.length s' < String.length (String a s))%nat -> concat_chunks ((x, c) :: runes s') = c +:+ s')
    by (intros x c s' Hs; cbn; by rewrite IHs).
  cbn [runes]. destruct (_ <? _)%Z; [apply Hstep; cbn; lia|].
  destruct (lead (code a)) as [[[k lo] hi]|]; [|apply Hstep; cbn; lia].
  destruct k as [|[|[|[|[|k]]]]]; try (apply Hstep; cbn; lia).
  - destruct s as [|b s]; [apply Hstep; cbn; lia|]. destruct (in_range _ _ _); apply Hstep; cbn; lia.
  - destruct s as [|b [|c s]]; try (apply Hstep; cbn; lia). destruct (_ && _); apply Hstep; cbn; lia.
  - destruct s as [|b [|c [|d s]]]; try (apply Hstep; cbn; lia). destruct (_ && _); apply Hstep; cbn; lia.
Qed.

(** * json.Marshal

    The text encoding/json writes of a value, and that the decoder of [GoJson]
    reads the value back. *)

Local Open Scope Z_scope.
Local Open Scope string_scope.

(** ** Printing *)

Definition hex_text (n : Z) : string := String (hex_digit (n / 16)) (String (hex_digit (n mod 16)) "").

(** [SetEscapeHTML]: on unless an encoder turns it off. *)
Class EscapeHTML : Type := escape_html : bool.
#[global] Instance EscapeHTML_on : EscapeHTML | 100 := true.

(** One rune of a string literal, as [appendString] writes it. *)
Definition escape_rune `{EscapeHTML} (rc : Z * string) : string :=
  let '(r, chunk) := rc in
  if (r <? 0x80)%Z then
    if (r =? 34)%Z || (r =? 92)%Z then String backslash chunk
    else if (r =? 8)%Z then String backslash "b"
    else if (r =? 12)%Z then String backslash "f"
    else if (r =? 10)%Z then String backslash "n"
    else if (r =? 13)%Z then String backslash "r"
    else if (r =? 9)%Z then String backslash "t"
    else if (r <? 0x20)%Z || escape_html && ((r =? 60)%Z || (r =? 62)%Z || (r =? 38)%Z) then String backslash ("u00" ++ hex_text r)
    else chunk
  else if (r =? RuneError)%Z && (len chunk =? 1)%Z then String backslash "ufffd"
  else if (r =? 0x2028)%Z then String backslash "u2028"
  else if (r =? 0x2029)%Z then String backslash "u2029"
  else chunk.

Definition escape_json `{EscapeHTML} (s : string) : string := foldr (fun rc acc => escape_rune rc ++ acc) "" (runes s).

Definition print_string `{EscapeHTML} (s : string) : string := String dquote (escape_json s ++ String dquote "").

(** Values, without white space. *)
Fixpoint print_json `{EscapeHTML} (v : json) : string :=
  match v with
  | JNull => "null"
  | JBool b => if b then "true" else "false"
  | JNumber text => text
  | JString s => print_string s
  | JArray l => "[" ++ Join (map print_json l) "," ++ "]"
  | JObject members => "{" ++ Join (map (fun '(k, x) => print_string k ++ ":" ++ print_json x) members) "," ++ "}"
  end.

(** Types with an encoding. *)
Class ToJson (A : Type) : Type := to_json : A -> json.

(** [json.Marshal] of a value. *)
Definition json_Marshal {A} `{ToJson A} (x : A) : string := print_json (to_json x).

#[global] Instance ToJson_string : ToJson string := JString.
#[global] Instance ToJson_bool : ToJson bool := JBool.

(** A field with [omitempty]. *)
Definition omitempty (name value : string) : list (string * json) := if value =? "" then [] else [(name, JString value)].

(** ** Runes *)

Section Reading.
Context {html : EscapeHTML}.

Lemma byte_code a : byte (code a) = a.
Proof. destruct a as [[] [] [] [] [] [] [] []]; reflexivity. Qed.

(** The bytes of a rune are read as that rune wherever they stand, and are its
    encoding. *)
Definition decodes (r : Z) (c : string) : Prop :=
  (forall x, runes (c +:+ x) = (r, c) :: runes x) /\ EncodeRune r = c.

Definition high (c : string) : Prop := all_bytes (fun a => (0x80 <=? code a)%Z) c = true.

(** What [runes] yields: ASCII bytes, longer sequences and bad bytes. *)
Inductive rune_shape : Z -> string -> Prop :=
| shape_ascii a : (code a <? 0x80)%Z = true -> rune_shape (code a) (chunk1 a)
| shape_multi r c : (0x80 <=? r)%Z = true -> (2 <= len c)%Z -> high c -> decodes r c -> rune_shape r c
| shape_bad a : rune_shape RuneError (chunk1 a).

Lemma byte_eq a z : z = code a -> byte z = a.
Proof. intros ->. apply byte_code. Qed.

Lemma high_codes a b : high (String a b) <-> (0x80 <= code a) /\ high b.
Proof. unfold high. cbn [all_bytes]. rewrite andb_true_iff, Z.leb_le. done. Qed.

(** The bounds a lead byte puts on itself and on the next byte. *)
Lemma lead_bounds b n lo hi : lead b = Some (n, lo, hi) ->
  (n = 2%nat /\ 0xC2 <= b <= 0xDF /\ lo = 0x80 /\ hi = 0xBF) \/
  (n = 3%nat /\ 0xE0 <= b <= 0xEF /\ 0x80 <= lo /\ hi <= 0xBF /\ (b = 0xE0 -> 0xA0 <= lo)) \/
  (n = 4%nat /\ 0xF0 <= b <= 0xF4 /\ 0x80 <= lo /\ hi <= 0xBF /\ (b = 0xF0 -> 0x90 <= lo)).
Proof.
  unfold lead, in_range.
  repeat match goal with |- context [if ?t then _ else _] => destruct t eqn:?E end;
    intros H; try discriminate H; injection H as <- <- <-; rewrite ?andb_true_iff, ?Z.leb_le, ?Z.eqb_eq in *;
    (left; lia) || (right; left; lia) || (right; right; lia).
Qed.

(** Bytes of an encoding are those it was decoded from. *)
Ltac encoded :=
  repeat (apply (f_equal2 String); [apply byte_eq; Z.to_euclidean_division_equations; lia|]); reflexivity.

Lemma runes_shapes s : List.Forall (fun rc => rune_shape (fst rc) (snd rc)) (runes s).
Proof.
  remember (String.length s) as n eqn:Hn. revert s Hn. induction n as [n IH] using lt_wf_ind. intros [|a s] ->; [constructor|].
  assert (IHs : forall s', (String.length s' < String.length (String a s))%nat -> List.Forall (fun rc => rune_shape (fst rc) (snd rc)) (runes s'))
    by (intros s' Hs; by eapply IH).
  cbn [runes]. destruct (code a <? 0x80)%Z eqn:Ea; [constructor; [by apply shape_ascii|apply IHs; cbn; lia]|].
  assert (Hbad : List.Forall (fun rc => rune_shape (fst rc) (snd rc)) ((RuneError, chunk1 a) :: runes s))
    by (constructor; [apply shape_bad|apply IHs; cbn; lia]).
  destruct (lead (code a)) as [[[k lo] hi]|] eqn:El; [|exact Hbad]. pose proof El as Hb. apply lead_bounds in Hb as [Hb|[Hb|Hb]].
  - destruct Hb as (-> & Hr & -> & ->). destruct s as [|b s]; [exact Hbad|]. destruct (in_range _ _ (code b)) eqn:E; [|exact Hbad].
    constructor; [|apply IHs; cbn; lia]. apply andb_true_iff in E as E'. destruct E' as [E1 E2]. rewrite Z.leb_le in E1, E2. cbn [fst snd].
    apply shape_multi; [lia|done|apply high_codes; split; [lia|]; apply high_codes; done|]. split.
    + intros x. unfold chunk1. rewrite !str_cons_app, str_nil_app. cbn [runes]. by rewrite Ea, El, E.
    + unfold EncodeRune, chunk1. rewrite (proj2 (Z.ltb_ge _ _)), (proj2 (Z.ltb_lt _ _)) by lia. encoded.
  - destruct Hb as (-> & Hr & Hlo & Hhi & He). destruct s as [|b [|c s]]; [exact Hbad..|].
    destruct (in_range lo hi (code b) && cont c) eqn:E; [|exact Hbad].
    constructor; [|apply IHs; cbn; lia]. pose proof E as E'. unfold cont, in_range in E'. rewrite !andb_true_iff, !Z.leb_le in E'. cbn [fst snd].
    apply shape_multi; [lia|done|repeat (apply high_codes; split; [lia|]); done|]. split.
    + intros x. unfold chunk1. rewrite !str_cons_app, str_nil_app. cbn [runes]. by rewrite Ea, El, E.
    + unfold EncodeRune, chunk1. rewrite !(proj2 (Z.ltb_ge _ _)), (proj2 (Z.ltb_lt _ _)) by lia. encoded.
  - destruct Hb as (-> & Hr & Hlo & Hhi & He). destruct s as [|b [|c [|d s]]]; [exact Hbad..|].
    destruct (in_range lo hi (code b) && cont c && cont d) eqn:E; [|exact Hbad].
    constructor; [|apply IHs; cbn; lia]. pose proof E as E'. unfold cont, in_range in E'. rewrite !andb_true_iff, !Z.leb_le in E'. cbn [fst snd].
    apply shape_multi; [lia|done|repeat (apply high_codes; split; [lia|]); done|]. split.
    + intros x. unfold chunk1. rewrite !str_cons_app, str_nil_app. cbn [runes]. by rewrite Ea, El, E.
    + unfold EncodeRune, chunk1. rewrite !(proj2 (Z.ltb_ge _ _)) by lia. encoded.
Qed.

(** ** String literals *)

(** Pieces of a literal and what they stand for. *)
Inductive piece : string -> string -> Prop :=
| piece_plain a : (a =? dquote)%char = false -> (a =? backslash)%char = false -> (code a <? 32)%Z = false -> piece (chunk1 a) (chunk1 a)
| piece_short e : one_of (String dquote (String backslash "/bfnrt")) e = true -> piece (String backslash (chunk1 e)) (chunk1 (escaped_char e))
| piece_hex a b d f : is_hex a && is_hex b && is_hex d && is_hex f = true -> in_range 0xD800 0xDFFF (hex4 a b d f) = false ->
    piece (String backslash (String "u" (String a (String b (String d (chunk1 f)))))) (EncodeRune (hex4 a b d f))
| piece_app p q c d : piece p c -> piece q d -> piece (p +:+ q) (c +:+ d).

Lemma scan_piece p c x t r : piece p c -> scan_string x = Some (t, r) -> scan_string (p +:+ x) = Some (p +:+ t, r).
Proof.
  intros Hp. revert x t r. induction Hp as [a H1 H2 H3|e He|a b d f Hh _|p q c d _ IHp _ IHq]; intros x t r Hx;
    unfold chunk1; rewrite ?str_cons_app, ?str_nil_app.
  - cbn [scan_string]. by rewrite H1, H2, H3, Hx.
  - cbn [scan_string]. change (backslash =? dquote)%char with false. change (backslash =? backslash)%char with true. cbv iota.
    by rewrite He, Hx.
  - cbn [scan_string]. change (backslash =? dquote)%char with false. change (backslash =? backslash)%char with true. cbv iota.
    change (one_of _ "u"%char) with false. change ("u" =? "u")%char with true. cbv iota. by rewrite Hh, Hx.
  - rewrite !str_app_assoc. by apply IHp, IHq.
Qed.

Lemma unescape_piece p c x : piece p c -> unescape_json (p +:+ x) = c +:+ unescape_json x.
Proof.
  intros Hp. revert x. induction Hp as [a H1 H2 H3|e He|a b d f Hh Hs|p q c d _ IHp _ IHq]; intros x;
    unfold chunk1; rewrite ?str_cons_app, ?str_nil_app.
  - cbn [unescape_json]. by rewrite H2.
  - cbn [unescape_json]. change (backslash =? backslash)%char with true. cbv iota.
    assert (Hu : (e =? "u")%char = false) by (by apply Ascii.eqb_neq; intros ->). by rewrite Hu.
  - cbn [unescape_json]. change (backslash =? backslash)%char with true. change ("u" =? "u")%char with true. cbv iota zeta. by rewrite Hs.
  - rewrite !str_app_assoc, IHp. by rewrite IHq.
Qed.

Lemma high_piece c : high c -> c <> "" -> piece c c.
Proof.
  induction c as [|a c IH]; [done|]. intros Hh _. apply high_codes in Hh as [Ha Hh].
  assert (Hp : piece (chunk1 a) (chunk1 a)).
  { apply piece_plain; [apply Ascii.eqb_neq; intros ->; vm_compute in Ha; by apply Ha..|lia]. }
  destruct c as [|b c]; [done|]. change (String a (String b c)) with (chunk1 a +:+ String b c). apply piece_app; [done|by apply IH].
Qed.

Lemma escape_ascii a : (code a <? 0x80)%Z = true -> piece (escape_rune (code a, chunk1 a)) (chunk1 a).
Proof.
  intros Ha. case html; revert Ha; destruct a as [[] [] [] [] [] [] [] []]; intros H; try discriminate H; clear H;
    match goal with |- piece ?p ?c => let p' := eval vm_compute in p in change (piece p' c) end;
    first [apply piece_plain; reflexivity
      | refine (eq_ind _ (piece _) (piece_short _ _) _ _); reflexivity
      | refine (eq_ind _ (piece _) (piece_hex _ _ _ _ _ _) _ _); reflexivity].
Qed.

(** A rune that is no bad byte. *)
Definition good_rune (rc : Z * string) : bool := negb ((fst rc =? RuneError)%Z && (len (snd rc) =? 1)%Z).

Lemma ValidString_good s : ValidString s = forallb good_rune (runes s).
Proof. unfold ValidString. induction (runes s) as [|[r c] l IH]; [done|]. cbn. by rewrite IH. Qed.

Lemma escape_piece r c : rune_shape r c -> good_rune (r, c) = true -> piece (escape_rune (r, c)) c.
Proof.
  intros [a Ha|r' c' Hr Hl Hh Hd|a] Hg; [by apply escape_ascii| |done].
  unfold escape_rune. rewrite (proj2 (Z.ltb_ge _ _)) by lia.
  assert (Hc : c' <> "") by (intros ->; by apply Hl).
  rewrite (proj2 (Z.eqb_neq (len c') 1)), andb_false_r by lia.
  destruct (r' =? 0x2028)%Z eqn:E1; [|destruct (r' =? 0x2029)%Z eqn:E2; [|by apply high_piece]].
  - apply Z.eqb_eq in E1 as ->. destruct Hd as [_ <-]. exact (piece_hex "2" "0" "2" "8" eq_refl eq_refl).
  - apply Z.eqb_eq in E2 as ->. destruct Hd as [_ <-]. exact (piece_hex "2" "0" "2" "9" eq_refl eq_refl).
Qed.

(** The literal of a list of good runes. *)
Lemma escape_pieces l : List.Forall (fun rc => rune_shape (fst rc) (snd rc)) l -> forallb good_rune l = true ->
  let p := foldr (fun rc acc => escape_rune rc +:+ acc) "" l in
  (forall x t r, scan_string x = Some (t, r) -> scan_string (p +:+ x) = Some (p +:+ t, r)) /\
  (forall x, unescape_json (p +:+ x) = concat_chunks l +:+ unescape_json x).
Proof.
  induction 1 as [|[r c] l Hs _ IH]; intros Hg; [done|]. cbn [forallb] in Hg. apply andb_true_iff in Hg as [Hg Hl].
  destruct (IH Hl) as [IH1 IH2]. pose proof (escape_piece _ _ Hs Hg) as Hp. cbv zeta. cbn [foldr].
  change (concat_chunks ((r, c) :: l)) with (c +:+ concat_chunks l). split.
  - intros x t r' Hx. rewrite !str_app_assoc. apply (scan_piece _ _ _ _ _ Hp). by apply IH1.
  - intros x. rewrite !str_app_assoc, (unescape_piece _ _ _ Hp). by rewrite IH2.
Qed.

Definition ascii_text (s : string) : bool := all_bytes (fun a => (code a <? 0x80)%Z) s.

Lemma EncodeRune_code a : (code a <? 0x80)%Z = true -> EncodeRune (code a) = chunk1 a.
Proof. intros H. unfold EncodeRune. rewrite H. by rewrite byte_code. Qed.

Lemma to_valid_ascii p x : ascii_text p = true -> to_valid_utf8 (p +:+ x) = p +:+ to_valid_utf8 x.
Proof.
  induction p as [|a p IH]; [done|]. unfold ascii_text in *. cbn [all_bytes]. rewrite andb_true_iff. intros [Ha Hp].
  rewrite str_cons_app. unfold to_valid_utf8 at 1. cbn [runes]. rewrite Ha. cbn [foldr]. rewrite EncodeRune_code by done.
  change (foldr _ "" (runes (p +:+ x))) with (to_valid_utf8 (p +:+ x)). by rewrite IH.
Qed.

Lemma escape_rune_cases r c : rune_shape r c -> good_rune (r, c) = true ->
  ascii_text (escape_rune (r, c)) = true \/ escape_rune (r, c) = c /\ decodes r c.
Proof.
  intros [a Ha|r' c' Hr Hl Hh Hd|a] Hg; [left| |done].
  - revert Ha. case html; destruct a as [[] [] [] [] [] [] [] []]; vm_compute; congruence.
  - unfold escape_rune. rewrite (proj2 (Z.ltb_ge _ _)) by lia. rewrite (proj2 (Z.eqb_neq (len c') 1)), andb_false_r by lia.
    destruct (r' =? 0x2028)%Z; [by left|]. destruct (r' =? 0x2029)%Z; [by left|]. by right.
Qed.

Lemma escape_valid l : List.Forall (fun rc => rune_shape (fst rc) (snd rc)) l -> forallb good_rune l = true ->
  let p := foldr (fun rc acc => escape_rune rc +:+ acc) "" l in to_valid_utf8 p = p.
Proof.
  induction 1 as [|[r c] l Hs _ IH]; intros Hg; [done|]. cbn [forallb] in Hg. apply andb_true_iff in Hg as [Hg Hl].
  cbv zeta in *. cbn [foldr]. cbn [fst snd] in Hs. destruct (escape_rune_cases _ _ Hs Hg) as [Ha|[-> [Hd He]]].
  - rewrite to_valid_ascii by done. by rewrite IH.
  - unfold to_valid_utf8. rewrite Hd. cbn [foldr]. rewrite He. f_equal. by apply IH.
Qed.

(** A literal is read up to its closing quote, and as the string it was
    printed from. *)
Lemma print_string_scan s x : ValidString s = true ->
  scan_string (escape_json s +:+ String dquote x) = Some (escape_json s, x) /\ unquote (escape_json s) = s.
Proof.
  rewrite ValidString_good. intros Hg. pose proof (runes_shapes s) as Hs. destruct (escape_pieces _ Hs Hg) as [H1 H2]. split.
  - unfold escape_json. rewrite (H1 _ "" x); [by rewrite str_app_nil|]. by cbn [scan_string].
  - unfold unquote, escape_json. rewrite (escape_valid _ Hs Hg). specialize (H2 ""). rewrite str_app_nil in H2. rewrite H2.
    cbn [unescape_json]. by rewrite str_app_nil, concat_runes.
Qed.

(** ** Values *)

Section JsonInduction.
Variable P : json -> Prop.
Hypothesis HNull : P JNull.
Hypothesis HBool : forall b, P (JBool b).
Hypothesis HNumber : forall t, P (JNumber t).
Hypothesis HString : forall s, P (JString s).
Hypothesis HArray : forall l, List.Forall P l -> P (JArray l).
Hypothesis HObject : forall members, List.Forall (fun m => P (snd m)) members -> P (JObject members).

Fixpoint json_nested_ind (v : json) : P v :=
  match v with
  | JNull => HNull
  | JBool b => HBool b
  | JNumber t => HNumber t
  | JString s => HString s
  | JArray l =>
      HArray l ((fix go (l : list json) : List.Forall P l :=
        match l with [] => @List.Forall_nil _ _ | x :: l' => @List.Forall_cons _ _ _ _ (json_nested_ind x) (go l') end) l)
  | JObject members =>
      HObject members ((fix go (l : list (string * json)) : List.Forall (fun m => P (snd m)) l :=
        match l with [] => @List.Forall_nil _ _ | x :: l' => @List.Forall_cons _ _ _ _ (json_nested_ind (snd x)) (go l') end) members)
  end.
End JsonInduction.

(** Decimal integers as [strconv] prints them. *)
Definition natural_text (s : string) : bool :=
  match s with
  | EmptyString => false
  | String c rest => is_digit c && all_bytes is_digit rest && (negb (c =? "0")%char || (rest =? ""))
  end.

(** Values [json.Marshal] prints exactly: text in UTF-8, numbers that are
    natural. *)
Fixpoint json_ok (v : json) : bool :=
  match v with
  | JNumber text => natural_text text
  | JString s => ValidString s
  | JArray l => forallb json_ok l
  | JObject members => forallb (fun '(k, x) => ValidString k && json_ok x) members
  | _ => true
  end.

(** Where a value ends. *)
Definition delim (rest : string) : Prop :=
  match rest with EmptyString => True | String c _ => one_of (String "010" ",]}") c = true end.

Lemma delim_byte c s : delim (String c s) ->
  is_digit c = false /\ (c =? ".")%char = false /\ (c =? "e")%char || (c =? "E")%char = false.
Proof. unfold delim. destruct c as [[] [] [] [] [] [] [] []]; vm_compute; intros H; try discriminate H; auto. Qed.

Lemma span_digits_app s rest : all_bytes is_digit s = true -> delim rest -> span_digits (s +:+ rest) = (s, rest).
Proof.
  intros Hs Hd. induction s as [|c s IH].
  - rewrite str_nil_app. destruct rest as [|c rest]; [done|]. apply delim_byte in Hd as (Hd & _). cbn. by rewrite Hd.
  - cbn [all_bytes] in Hs. apply andb_true_iff in Hs as [Hc Hs]. rewrite str_cons_app. cbn [span_digits]. by rewrite Hc, IH.
Qed.

Lemma scan_tail rest : delim rest -> scan_frac rest = Some ("", rest) /\ scan_exp rest = Some ("", rest).
Proof.
  destruct rest as [|c rest]; [done|]. intros Hd. apply delim_byte in Hd as (_ & H1 & H2). split.
  - clear H2. revert H1. destruct c as [[] [] [] [] [] [] [] []]; cbn; intros H; (reflexivity || discriminate H).
  - unfold scan_exp. by rewrite H2.
Qed.

Lemma digit_bytes c : is_digit c = true ->
  is_ws c = false /\ (c =? dquote)%char = false /\ (c =? "t")%char = false /\ (c =? "f")%char = false /\ (c =? "n")%char = false /\
  (c =? "{")%char = false /\ (c =? "[")%char = false /\ (c =? "]")%char = false /\ (c =? "}")%char = false /\ c <> "-"%char.
Proof. destruct c as [[] [] [] [] [] [] [] []]; vm_compute; intros H; try discriminate H; repeat split; congruence. Qed.

Lemma scan_natural text rest : natural_text text = true -> delim rest -> scan_number (text +:+ rest) = Some (text, rest).
Proof.
  destruct text as [|c text]; [done|]. cbn [natural_text]. rewrite !andb_true_iff. intros [[Hc Ht] Hz] Hd.
  destruct (scan_tail _ Hd) as [Hf He]. rewrite str_cons_app.
  assert (Hi : scan_int (String c (text +:+ rest)) = Some (String c text, rest)).
  { assert (Hsp : span_digits (String c (text +:+ rest)) = (String c text, rest)) by (cbn; by rewrite Hc, span_digits_app).
    destruct (c =? "0")%char eqn:E0.
    - apply Ascii.eqb_eq in E0 as ->. destruct text; [|done]. by rewrite str_nil_app.
    - clear Hz. unfold scan_int. rewrite Hsp. revert E0. clear. destruct c as [[] [] [] [] [] [] [] []]; cbn; intros H; (reflexivity || discriminate H). }
  assert (Hs : scan_number (String c (text +:+ rest))
    = match scan_int (String c (text +:+ rest)) with
      | Some (i, s1) => match scan_frac s1 with
          | Some (f, s2) => match scan_exp s2 with Some (e, s3) => Some ("" +:+ i +:+ f +:+ e, s3) | None => None end
          | None => None end
      | None => None end).
  { apply digit_bytes in Hc. revert Hc. clear. destruct c as [[] [] [] [] [] [] [] []]; cbn; intros H; try reflexivity.
    by destruct H as (_ & _ & _ & _ & _ & _ & _ & _ & _ & H). }
  rewrite Hs, Hi, Hf, He. by rewrite !str_app_nil, str_nil_app.
Qed.

Lemma skip_ws_byte c s : is_ws c = false -> skip_ws (String c s) = String c s.
Proof. intros H. unfold skip_ws. cbn [trim_left]. by rewrite H. Qed.

Lemma expect_byte c x s : is_ws x = false -> expect c (String x s) = if (x =? c)%char then Some s else None.
Proof. intros H. unfold expect. by rewrite skip_ws_byte. Qed.

(** The first byte of a printed value. *)
Lemma print_first v : json_ok v = true ->
  exists c s, print_json v = String c s /\ is_ws c = false /\ (c =? "]")%char = false /\ (c =? "}")%char = false.
Proof.
  destruct v as [|b|t|s|l|m]; cbn [json_ok print_json]; intros H.
  - by eexists _, _.
  - destruct b; by eexists _, _.
  - destruct t as [|c t]; [done|]. cbn [natural_text] in H. rewrite !andb_true_iff in H. destruct H as [[H _] _].
    apply digit_bytes in H as (H1 & _ & _ & _ & _ & _ & _ & H2 & H3 & _). by exists c, t.
  - by eexists _, _.
  - eexists _, _. by rewrite str_cons_app.
  - eexists _, _. by rewrite str_cons_app.
Qed.

(** What [parse_print] says of a value. *)
Definition reads_back (v : json) : Prop :=
  json_ok v = true -> forall rest n, delim rest -> (need MValue (print_json v +:+ rest) <= n)%nat ->
  parse_json n MValue (print_json v +:+ rest) = Some (v, rest).

Lemma scalar_reads c s v rest n : (0 < n)%nat -> is_ws c = false -> (c =? "{")%char = false -> (c =? "[")%char = false ->
  scan_scalar (String c s) = Some (v, rest) -> parse_json n MValue (String c s) = Some (v, rest).
Proof.
  intros Hn Hw H1 H2 Hs. destruct n as [|n]; [lia|]. cbn [parse_json]. by rewrite !expect_byte, H1, H2 by done.
Qed.

Lemma word_reads c w v rest n : (0 < n)%nat -> is_ws c = false -> (c =? "{")%char = false -> (c =? "[")%char = false ->
  scan_scalar (String c (w +:+ rest)) = scan_word w v (w +:+ rest) -> parse_json n MValue (String c w +:+ rest) = Some (v, rest).
Proof.
  intros Hn Hw H1 H2 Hs. rewrite str_cons_app. apply scalar_reads; try done. rewrite Hs. unfold scan_word, TrimPrefix.
  rewrite (proj2 (HasPrefix_iff (w +:+ rest) w)) by eauto. rewrite str_length_app.
  replace (slen w + slen rest - slen w)%nat with (slen rest) by lia. by rewrite substring_drop.
Qed.

Lemma elements_read l : List.Forall reads_back l -> l <> [] -> forallb json_ok l = true -> forall acc rest n,
  (need (MElements acc) (Join (map print_json l) "," +:+ String "]" rest) <= n)%nat ->
  parse_json n (MElements acc) (Join (map print_json l) "," +:+ String "]" rest) = Some (JArray (acc ++ l)%list, rest).
Proof.
  induction 1 as [|v l Hv _ IH]; intros Hne Hok acc rest n Hn; [done|]. cbn [forallb] in Hok. apply andb_true_iff in Hok as [Hokv Hok].
  destruct n as [|n]; [cbn in Hn; lia|]. destruct l as [|w l].
  - cbn [map Join] in *. cbn [parse_json]. rewrite Hv; [|done|done|cbn [need] in *; lia].
    rewrite !expect_byte by done. done.
  - change (Join (map print_json (v :: w :: l)) ",") with (print_json v +:+ "," +:+ Join (map print_json (w :: l)) ",") in *.
    rewrite !str_app_assoc, str_cons_app, str_nil_app in *. cbn [parse_json].
    rewrite Hv; [|done|done|cbn [need] in *; lia].
    rewrite expect_byte by done. change ("," =? ",")%char with true. cbv iota. rewrite IH; [by rewrite <- app_assoc|done|done|].
    cbn [need] in *. rewrite str_length_app in Hn. cbn [String.length] in Hn. lia.
Qed.

Lemma key_reads k rest : ValidString k = true -> scan_key (print_string k +:+ String ":" rest) = Some (k, rest).
Proof.
  intros Hk. unfold scan_key, print_string. rewrite str_cons_app, expect_byte by done. change (dquote =? dquote)%char with true. cbv iota.
  rewrite str_app_assoc, str_cons_app, str_nil_app. destruct (print_string_scan k (String ":" rest) Hk) as [-> ->].
  by rewrite expect_byte.
Qed.

Lemma members_read l : List.Forall (fun m => reads_back (snd m)) l -> l <> [] ->
  forallb (fun '(k, x) => ValidString k && json_ok x) l = true -> forall acc rest n,
  let text := Join (map (fun '(k, x) => print_string k +:+ ":" +:+ print_json x) l) "," in
  (need (MMembers acc) (text +:+ String "}" rest) <= n)%nat ->
  parse_json n (MMembers acc) (text +:+ String "}" rest) = Some (JObject (acc ++ l)%list, rest).
Proof.
  induction 1 as [|[k v] l Hv _ IH]; intros Hne Hok acc rest n text Hn; [done|]. unfold text in *. clear text. cbn [snd] in Hv.
  cbn [forallb] in Hok. rewrite !andb_true_iff in Hok. destruct Hok as [[Hk Hokv] Hok]. destruct n as [|n]; [cbn in Hn; lia|].
  assert (Hlen : forall x, (slen (print_json v +:+ x) < slen ((print_string k +:+ ":" +:+ print_json v) +:+ x))%nat)
    by (intros x; rewrite !str_length_app; unfold print_string; cbn [String.length]; lia).
  destruct l as [|m l].
  - cbn [map Join] in *. cbn [parse_json].
    pose proof (Hlen (String "}" rest)) as Hl. rewrite !str_app_assoc in *. rewrite (str_cons_app ":" "") in *. rewrite str_nil_app in *.
    rewrite key_reads by done. rewrite Hv; [|done|done|cbn [need] in *; lia]. by rewrite !expect_byte.
  - change (Join (map ?f ((k, v) :: m :: l)) ",") with ((print_string k +:+ ":" +:+ print_json v) +:+ "," +:+ Join (map f (m :: l)) ",") in *.
    set (tail := Join _ ",") in *. pose proof (Hlen (String "," (tail +:+ String "}" rest))) as Hl.
    rewrite !str_app_assoc in *. rewrite !str_cons_app in *. rewrite !str_nil_app in *. cbn [parse_json].
    rewrite key_reads by done. rewrite Hv; [|done|done|cbn [need] in *; lia].
    rewrite expect_byte by done. change ("," =? ",")%char with true. cbv iota. unfold tail in *. rewrite IH; [by rewrite <- app_assoc|done|done|].
    cbn [need] in *. rewrite (str_length_app (print_json v)) in Hl. cbn [String.length] in Hl. lia.
Qed.

Lemma parse_print v : reads_back v.
Proof.
  induction v as [|b|t|s|l IH|m IH] using json_nested_ind; intros Hok rest n Hd Hn; cbn [print_json json_ok] in *.
  - apply (word_reads "n" "ull"); try done. cbn in Hn. lia.
  - destruct b; [apply (word_reads "t" "rue")|apply (word_reads "f" "alse")]; try done; cbn in Hn; lia.
  - pose proof (scan_natural t rest Hok Hd) as Hs. destruct t as [|c t]; [done|]. rewrite str_cons_app in *.
    cbn [natural_text] in Hok. rewrite !andb_true_iff in Hok. destruct Hok as [[Hc _] _].
    apply digit_bytes in Hc as (H1 & H2 & H3 & H4 & H5 & H6 & H7 & _). apply scalar_reads; try done; [cbn in Hn; lia|].
    unfold scan_scalar. rewrite skip_ws_byte by done. by rewrite H2, H3, H4, H5, Hs.
  - unfold print_string in *. rewrite str_cons_app in *. apply scalar_reads; try done; [cbn in Hn; lia|].
    unfold scan_scalar. rewrite skip_ws_byte by done. change (dquote =? dquote)%char with true. cbv iota.
    rewrite str_app_assoc, str_cons_app, str_nil_app. by destruct (print_string_scan s rest Hok) as [-> ->].
  - rewrite !str_app_assoc, !str_cons_app, !str_nil_app in *. destruct n as [|n]; [cbn in Hn; lia|]. cbn [parse_json].
    rewrite !expect_byte by done. change ("[" =? "{")%char with false. change ("[" =? "[")%char with true. cbv iota.
    destruct l as [|v l]; [cbn [map Join]; by rewrite str_nil_app, expect_byte|].
    assert (He : expect "]" (Join (map print_json (v :: l)) "," +:+ String "]" rest) = None).
    { cbn [forallb] in Hok. apply andb_true_iff in Hok as [Hv _]. destruct (print_first v Hv) as (c & s & Ep & Hw & H1 & _).
      cbn [map]. rewrite Ep, Join_head, str_cons_app, expect_byte by done. by rewrite H1. }
    rewrite He. apply (elements_read (v :: l) IH); [done|done|]. cbn [need String.length] in *. lia.
  - rewrite !str_app_assoc, !str_cons_app, !str_nil_app in *. destruct n as [|n]; [cbn in Hn; lia|]. cbn [parse_json].
    rewrite !expect_byte by done. change ("{" =? "{")%char with true. cbv iota.
    destruct m as [|[k v] m]; [cbn [map Join]; by rewrite str_nil_app, expect_byte|].
    assert (He : expect "}" (Join (map (fun '(k, x) => print_string k +:+ ":" +:+ print_json x) ((k, v) :: m)) "," +:+ String "}" rest) = None).
    { cbn [map]. unfold print_string at 1. rewrite !str_cons_app, Join_head, str_cons_app, expect_byte by done. done. }
    rewrite He. apply (members_read ((k, v) :: m) IH); [done|done|]. cbn [need String.length] in *. lia.
Qed.

(** A decoder reads back what [json.Marshal] printed, and what an
    [Encoder] printed, which adds a newline. *)
Lemma json_document_print v : json_ok v = true ->
  json_document (print_json v) = Some v /\ json_document (print_json v +:+ String "010" "") = Some v.
Proof.
  intros Hv. unfold json_document, json_fuel. split.
  - pose proof (parse_print v Hv "" (2 * S (slen (print_json v)))%nat I) as H. rewrite str_app_nil in H. rewrite H; [done|]. cbn [need]. lia.
  - rewrite (parse_print v Hv); [done|done|]. cbn [need]. lia.
Qed.

(** ** Printed text is UTF-8 *)

Lemma good_ascii a : (code a <? 0x80)%Z = true -> good_rune (code a, chunk1 a) = true.
Proof. intros H. unfold good_rune, RuneError. cbn [fst snd]. rewrite (proj2 (Z.eqb_neq _ _)) by lia. done. Qed.

Lemma valid_ascii p x : ascii_text p = true -> ValidString (p +:+ x) = ValidString x.
Proof.
  unfold ascii_text. rewrite !ValidString_good. induction p as [|a p IH]; [done|]. cbn [all_bytes]. rewrite andb_true_iff. intros [Ha Hp].
  rewrite str_cons_app. cbn [runes]. rewrite Ha. cbn [forallb]. rewrite good_ascii by done. by rewrite IH.
Qed.

Lemma valid_escaped l x : List.Forall (fun rc => rune_shape (fst rc) (snd rc)) l -> forallb good_rune l = true ->
  ValidString (foldr (fun rc acc => escape_rune rc +:+ acc) "" l +:+ x) = ValidString x.
Proof.
  induction 1 as [|[r c] l Hs _ IH]; intros Hg; [done|]. cbn [forallb] in Hg. apply andb_true_iff in Hg as [Hg Hl].
  cbn [foldr]. cbn [fst snd] in Hs. rewrite str_app_assoc. destruct (escape_rune_cases _ _ Hs Hg) as [Ha|[-> [Hd _]]].
  - rewrite valid_ascii by done. by apply IH.
  - rewrite ValidString_good, Hd. cbn [forallb]. rewrite Hg, <- ValidString_good. by apply IH.
Qed.

Lemma valid_print_string s x : ValidString s = true -> ValidString (print_string s +:+ x) = ValidString x.
Proof.
  intros Hs. unfold print_string. change (String dquote (escape_json s +:+ String dquote ""))
    with (String dquote "" +:+ (escape_json s +:+ String dquote "")).
  rewrite !str_app_assoc, valid_ascii by done. rewrite ValidString_good in Hs.
  unfold escape_json. rewrite (valid_escaped _ _ (runes_shapes s) Hs). by rewrite valid_ascii.
Qed.

Lemma digits_ascii s : all_bytes is_digit s = true -> ascii_text s = true.
Proof.
  unfold ascii_text. induction s as [|c s IH]; [done|]. cbn. rewrite !andb_true_iff. intros [Hc Hs]. split; [|by apply IH].
  revert Hc. clear. destruct c as [[] [] [] [] [] [] [] []]; vm_compute; congruence.
Qed.

Lemma valid_join {A} (f : A -> string) l x : List.Forall (fun a => forall y, ValidString (f a +:+ y) = ValidString y) l ->
  ValidString (Join (map f l) "," +:+ x) = ValidString x.
Proof.
  induction 1 as [|a l Ha _ IH]; [done|]. destruct l as [|b l]; [apply Ha|].
  change (Join (map f (a :: b :: l)) ",") with (f a +:+ "," +:+ Join (map f (b :: l)) ",").
  rewrite !str_app_assoc, Ha, valid_ascii by done. exact IH.
Qed.

Lemma valid_print v : json_ok v = true -> forall x, ValidString (print_json v +:+ x) = ValidString x.
Proof.
  induction v as [|b|t|s|l IH|m IH] using json_nested_ind; intros Hok x; cbn [print_json json_ok] in *.
  - by apply valid_ascii.
  - by destruct b; apply valid_ascii.
  - apply valid_ascii. destruct t as [|c t]; [done|]. cbn [natural_text] in Hok. rewrite !andb_true_iff in Hok. destruct Hok as [[Hc Ht] _].
    apply digits_ascii. cbn. by rewrite Hc.
  - by apply valid_print_string.
  - rewrite !str_app_assoc, valid_ascii by done. rewrite valid_join; [by apply valid_ascii|].
    rewrite List.Forall_forall, forallb_forall in *. auto.
  - rewrite !str_app_assoc, valid_ascii by done. rewrite valid_join; [by apply valid_ascii|].
    rewrite List.Forall_forall, forallb_forall in *. intros [k v] Hin y. specialize (Hok _ Hin). cbn in Hok. apply andb_true_iff in Hok as [Hk Hv].
    rewrite !str_app_assoc, valid_print_string, valid_ascii by done. by apply (IH (k, v) Hin).
Qed.
End Reading.
