(* ===== verification/GoFloat.v ===== *)
(** * Numbers through float64

    A JSON number that passes through a Go [any] is parsed into a float64 and
    printed again: [strconv.ParseFloat] (the nearest binary64 value, ties to
    even) and the formatting of encoding/json (the fewest digits that parse
    back, in positional or in exponent notation).  Both are computed exactly,
    over the integers. *)
From stdpp Require Import base list strings pretty.
From Stdlib Require Import ZArith Lia Ascii.
From S2P Require Import Prelude GoStrings GoUrl GoJson.


Local Open Scope Z_scope.
Local Open Scope string_scope.

(** ** The literal *)

(** A literal of the JSON grammar: its sign, its digits as one integer, and
    the power of ten they are scaled by. *)
Record literal := mkLiteral { lit_negative : bool; lit_digits : Z; lit_exponent : Z }.

Definition read_literal (text : string) : literal :=
  let '(negative, rest) := if HasPrefix text "-" then (true, TrimPrefix text "-") else (false, text) in
  let '(integer, rest) := span_digits rest in
  let '(fraction, rest) := if HasPrefix rest "." then span_digits (TrimPrefix rest ".") else ("", rest) in
  let exponent :=
    match rest with
    | String _ (String "-" digits) => - default 0 (digits_value digits 0)
    | String _ (String "+" digits) => default 0 (digits_value digits 0)
    | String _ digits => default 0 (digits_value digits 0)
    | "" => 0
    end%Z in
  mkLiteral negative (default 0%Z (digits_value (integer ++ fraction) 0)) (exponent - len fraction).

(** ** The nearest float64 *)

Definition round_even (num den : Z) : Z :=
  let q := num / den in
  let r := num mod den in
  if (2 * r <? den)%Z then q else if (den <? 2 * r)%Z then q + 1 else if Z.even q then q else q + 1.

(** A positive binary64 value [m * 2 ^ q]; [Overflow] when out of range. *)
Inductive float64 : Type :=
| Zero
| Finite (m q : Z)
| Overflow.

(** [floor (log2 (num / den))]. *)
Definition log2_ratio (num den : Z) : Z :=
  let e := Z.log2 num - Z.log2 den in
  if (0 <=? e)%Z then (if (num <? den * 2 ^ e)%Z then e - 1 else e) else (if (num * 2 ^ (- e) <? den)%Z then e - 1 else e).

Definition nearest (num den : Z) : float64 :=
  let q := Z.max (log2_ratio num den - 52) (-1074) in
  let m := if (0 <=? q)%Z then round_even num (den * 2 ^ q) else round_even (num * 2 ^ (- q)) den in
  if (m =? 0)%Z then Zero
  else let '(m, q) := if (m =? 2 ^ 53)%Z then (2 ^ 52, q + 1)%Z else (m, q) in
       if (971 <? q)%Z then Overflow else Finite m q.

(** The two early answers keep the powers of ten small: three tenths of the
    binary logarithm are less than the decimal one and a third is more. *)
Definition ParseFloat (l : literal) : float64 :=
  let bits := Z.log2 (lit_digits l) in
  if (lit_digits l =? 0)%Z then Zero
  else if (310 <? bits * 3 / 10 + lit_exponent l)%Z then Overflow
  else if (bits / 3 + 1 + lit_exponent l <? -330)%Z then Zero
  else if (0 <=? lit_exponent l)%Z then nearest (lit_digits l * 10 ^ lit_exponent l) 1
  else nearest (lit_digits l) (10 ^ (- lit_exponent l)).

(** ** The shortest decimal *)

(** Whether [d * 10 ^ k] is within half a unit of [m * 2 ^ q], compared over a
    common denominator; [side] is the bound: below or above. *)
Definition scaled (n k : Z) : Z * Z := if (0 <=? k)%Z then (n * 10 ^ k, 1)%Z else (n, 10 ^ (- k))%Z.
Definition binary (n q : Z) : Z * Z := if (0 <=? q)%Z then (n * 2 ^ q, 1)%Z else (n, 2 ^ (- q))%Z.
Definition ratio_compare (a b : Z * Z) : comparison := Z.compare (fst a * snd b) (fst b * snd a).

Definition at_least (inclusive : bool) (a b : Z * Z) : bool :=
  match ratio_compare a b with Gt => true | Eq => inclusive | Lt => false end.

(** [floor (log10 (m * 2 ^ q))], searched from an estimate. *)
Fixpoint log10_from (fuel : nat) (v : Z * Z) (e : Z) : Z :=
  match fuel with
  | O => e
  | S fuel => if at_least true v (scaled 1 (e + 1)) then log10_from fuel v (e + 1)
              else if at_least true v (scaled 1 e) then e
              else log10_from fuel v (e - 1)
  end.

Definition floor_ratio (v : Z * Z) (k : Z) : Z :=
  if (0 <=? k)%Z then fst v / (snd v * 10 ^ k) else (fst v * 10 ^ (- k)) / snd v.

(** [roundShortest]: the first digit at which rounding down or up stays
    within the bounds. *)
Fixpoint shortest (fuel : nat) (n e : Z) (v lower upper : Z * Z) (inclusive : bool) : Z * Z :=
  let k := e - n + 1 in
  let down := floor_ratio v k in
  let okdown := at_least inclusive (scaled down k) lower in
  let okup := at_least inclusive upper (scaled (down + 1) k) in
  let nearer :=
    match ratio_compare (scaled (2 * down + 1) k) (2 * fst v, snd v)%Z with
    | Gt => down | Lt => down + 1 | Eq => if Z.even down then down else down + 1
    end%Z in
  match fuel with
  | O => (nearer, k)
  | S fuel =>
      if okdown && okup then (nearer, k)
      else if okdown then (down, k)
      else if okup then (down + 1, k)%Z
      else shortest fuel (n + 1) e v lower upper inclusive
  end.

(** Digits without trailing zeros and the power of ten of the last. *)
Fixpoint strip_zeros (fuel : nat) (d k : Z) : Z * Z :=
  match fuel with
  | O => (d, k)
  | S fuel => if (d mod 10 =? 0)%Z then strip_zeros fuel (d / 10) (k + 1) else (d, k)
  end.

Definition decimal_of (m q : Z) : Z * Z :=
  let v := binary m q in
  let lower := if (m =? 2 ^ 52)%Z && (-1074 <? q)%Z then binary (4 * m - 1) (q - 2) else binary (2 * m - 1) (q - 1) in
  let upper := binary (2 * m + 1) (q - 1) in
  let e := log10_from 8 v ((Z.log2 m + q) * 30103 / 100000) in
  let '(d, k) := shortest 17 1 e v lower upper (Z.even m) in
  strip_zeros 20 d k.

(** ** The text *)

Fixpoint zero_text (n : nat) : string := match n with O => "" | S n => String "0" (zero_text n) end.

Definition two_digits (n : Z) : string := let s := pretty n in if (len s <? 2)%Z then "0" ++ s else s.

(** encoding/json: positional between 1e-6 and 1e21, else an exponent whose
    negative form has no leading zero. *)
Definition format_decimal (d k : Z) : string :=
  let digits := pretty d in
  let point := (len digits + k)%Z in
  if (-5 <=? point)%Z && (point <=? 21)%Z then
    if (point <=? 0)%Z then "0." ++ zero_text (Z.to_nat (- point)) ++ digits
    else if (len digits <=? point)%Z then digits ++ zero_text (Z.to_nat (point - len digits))
    else String.substring 0 (Z.to_nat point) digits ++ "." ++ String.substring (Z.to_nat point) (String.length digits) digits
  else
    let mantissa := String.substring 0 1 digits
      ++ (if (len digits <=? 1)%Z then "" else "." ++ String.substring 1 (String.length digits) digits) in
    let exponent := (point - 1)%Z in
    mantissa ++ (if (exponent <? 0)%Z then "e-" ++ pretty (- exponent)%Z else "e+" ++ two_digits exponent).

(** A number of a document read into [any] and printed again; [None] when it
    is out of range, which fails the decoding. *)
Definition reprint_number (text : string) : option string :=
  let l := read_literal text in
  let sign := if lit_negative l then "-" else "" in
  match ParseFloat l with
  | Overflow => None
  | Zero => Some (sign ++ "0")
  | Finite m q => let '(d, k) := decimal_of m q in Some (sign ++ format_decimal d k)
  end.

Example reprint_integers : map reprint_number ["0"; "-7"; "4090"; "65536"; "1e3"; "100000000000000000000000"] =
  [Some "0"; Some "-7"; Some "4090"; Some "65536"; Some "1000"; Some "1e+23"].
Proof. vm_compute. reflexivity. Qed.

Example reprint_fractions :
  map reprint_number ["0.1"; "0.30000000000000004"; "1.50"; "1e-7"; "0.0000015"; "9007199254740993"; "-0.0"; "5e-324"; "1e400"; "0.1e999999999"; "1e-999999999";
                      "123456789012345680000"; "2.2250738585072014e-308"] =
  [Some "0.1"; Some "0.30000000000000004"; Some "1.5"; Some "1e-7"; Some "0.0000015"; Some "9007199254740992"; Some "-0";
   Some "5e-324"; None; None; Some "0"; Some "123456789012345680000"; Some "2.2250738585072014e-308"].
Proof. vm_compute. reflexivity. Qed.
