(* ===== verification/GoHttp.v ===== *)
(** * Requests

    What the controller's handlers use of net/http, mime, net/url and
    encoding/json: a request as they read it, media types, query strings, and
    the decoding of a JSON document into a struct. *)
From stdpp Require Import base list gmap strings.
From Stdlib Require Import ZArith Lia Ascii.
From S2P Require Import Prelude GoStrings GoUrl GoJson.


Local Open Scope Z_scope.
Local Open Scope string_scope.

(** [request.Header.Values("Authorization")] is a list; the body is what
    reading it to the end gives, [None] a read error. *)
Record Request := mkRequest {
  rq_Method : string;
  rq_URL : URL;
  rq_Authorization : list string;
  rq_ContentType : string;
  rq_Body : option string
}.

(** [io.ReadAll(io.LimitReader(body, maximum+1))] *)
Definition read_limited (body : option string) (maximum : Z) : option string :=
  (fun data => String.substring 0 (Z.to_nat (maximum + 1)) data) <$> body.

(** ** mime *)

Definition tspecials : string := "()<>@,;:" ++ String backslash (String dquote "/[]?=").
Definition isTokenChar (c : ascii) : bool :=
  in_range 0x21 0x7e (code c) && negb (mem_byte c tspecials).
Definition isTSpecial (c : ascii) : bool := mem_byte c tspecials.

Fixpoint consumeToken (v : string) : string * string :=
  match v with
  | EmptyString => ("", "")
  | String c rest => if isTokenChar c then let '(t, r) := consumeToken rest in (String c t, r) else ("", v)
  end.

(** The body of a quoted value; [None] when it does not end. *)
Fixpoint quoted_value (v : string) : option (string * string) :=
  match v with
  | EmptyString => None
  | String c rest =>
      if (c =? dquote)%char then Some ("", rest)
      else
        let plain := match quoted_value rest with Some (t, r) => Some (String c t, r) | None => None end in
        if (c =? backslash)%char then
          match rest with
          | String e rest' =>
              if isTSpecial e then
                match quoted_value rest' with Some (t, r) => Some (String e t, r) | None => None end
              else plain
          | EmptyString => plain
          end
        else if (c =? "013")%char || (c =? "010")%char then None
        else plain
  end.

Definition consumeValue (v : string) : string * string :=
  match v with
  | String c rest =>
      if (c =? dquote)%char then match quoted_value rest with Some p => p | None => ("", v) end
      else consumeToken v
  | EmptyString => ("", "")
  end.

(** [strings.TrimLeftFunc(v, unicode.IsSpace)] *)
Definition trim_left_space (v : string) : string := concat_chunks (drop_space (runes v)).

(** A parameter [; key = value] and the rest; [None] when there is none. *)
Definition consumeMediaParam (v : string) : option (string * string * string) :=
  match trim_left_space v with
  | String ";" r0 =>
      let '(param, r1) := consumeToken (trim_left_space r0) in
      if param =? "" then None
      else match trim_left_space r1 with
      | String "=" r2 =>
          let r3 := trim_left_space r2 in
          let '(value, r4) := consumeValue r3 in
          if (value =? "") && (r4 =? r3) then None else Some (ToLower param, value, r4)
      | _ => None
      end
  | _ => None
  end.

Definition checkMediaTypeDisposition (s : string) : bool :=
  let '(typ, rest) := consumeToken s in
  if typ =? "" then false
  else match rest with
  | EmptyString => true
  | String "/" r => let '(subtype, r') := consumeToken r in negb (subtype =? "") && (r' =? "")
  | _ => false
  end.

(** The parameters of a media type; false is a parse error.  Each parameter is
    at least three bytes, so the length of the text is fuel enough. *)
Fixpoint media_params (fuel : nat) (seen : list (string * string)) (v : string) : bool :=
  match fuel with
  | O => false
  | S fuel =>
      let v := trim_left_space v in
      if v =? "" then true
      else match consumeMediaParam v with
      | None => TrimSpace v =? ";"
      | Some (key, value, rest) =>
          forallb (fun '(k, w) => negb ((k =? key) && negb (w =? value))) seen
          && media_params fuel ((key, value) :: seen) rest
      end
  end.

(** [mime.ParseMediaType]: the media type, when there is no error. *)
Definition ParseMediaType (v : string) : option string :=
  let '(base, _, _) := Cut v ";"%char in
  let mediatype := TrimSpace (ToLower base) in
  let rest := String.substring (String.length base) (String.length v - String.length base) v in
  if negb (checkMediaTypeDisposition mediatype) then None
  else if media_params (S (String.length rest)) [] rest then Some mediatype else None.

(** ** Queries *)

Fixpoint query_pairs (settings : list string) : option (list (string * string)) :=
  match settings with
  | [] => Some []
  | setting :: rest =>
      if setting =? "" then query_pairs rest
      else if has_byte setting ";"%char then None
      else
        let '(key, value, _) := Cut setting "="%char in
        match QueryUnescape key, QueryUnescape value, query_pairs rest with
        | Some k, Some v, Some ps => Some ((k, v) :: ps)
        | _, _, _ => None
        end
  end.

(** [url.ParseQuery], [None] on any error: the callers drop the values then. *)
Definition ParseQuery (query : string) : option (list (string * string)) := query_pairs (Split query "&"%char).

(** [query[key]] and [query.Get(key)]. *)
Definition query_values (q : list (string * string)) (key : string) : list string :=
  map snd (List.filter (fun '(k, _) => k =? key) q).
Definition query_Get (q : list (string * string)) (key : string) : string := hd "" (query_values q key).
Definition query_keys (q : list (string * string)) : list string := remove_dups (map fst q).

(** ** Decoding into a struct *)

(** [foldName]: field names are compared without case; the two letters outside
    ASCII that fold to an ASCII letter are the long s and the Kelvin sign. *)
Definition fold_rune (rc : Z * string) : string :=
  let '(r, chunk) := rc in
  if (r =? 0x17F)%Z then "S" else if (r =? 0x212A)%Z then "K" else ToUpper chunk.
Definition foldName (s : string) : string := concat_chunks (map (fun rc => (fst rc, fold_rune rc)) (runes s)).

(** [strings.EqualFold] when one side is ASCII. *)
Definition EqualFold (a b : string) : bool := foldName a =? foldName b.

(** A field of a struct [T]: its name and what a value does to it. *)
Definition field (V T : Type) : Type := string * (V -> T -> option T).

Definition find_field {V T} (fields : list (field V T)) (key : string) : option (V -> T -> option T) :=
  match List.find (fun f => fst f =? key) fields with
  | Some f => Some (snd f)
  | None => snd <$> List.find (fun f => foldName (fst f) =? foldName key) fields
  end.

(** The members of an object in order; an unknown name is an error
    ([DisallowUnknownFields]). *)
Fixpoint decode_members {V T} (fields : list (field V T)) (ms : list (string * V)) (x : T) : option T :=
  match ms with
  | [] => Some x
  | (k, v) :: ms' =>
      match find_field fields k with
      | Some set => match set v x with Some x' => decode_members fields ms' x' | None => None end
      | None => None
      end
  end.

(** A value into a field; null leaves it as it is. *)
Definition into_string {T} (put : string -> T -> T) (v : json) (x : T) : option T :=
  match v with JNull => Some x | JString s => Some (put s x) | _ => None end.
Definition into_bool {T} (put : bool -> T -> T) (v : json) (x : T) : option T :=
  match v with JNull => Some x | JBool b => Some (put b x) | _ => None end.

(** [strconv.ParseInt(text, 10, 64)] of a JSON number. *)
Definition parse_int64 (text : string) : option Z := Atoi text.
Definition into_int64 {T} (put : Z -> T -> T) (v : json) (x : T) : option T :=
  match v with
  | JNull => Some x
  | JNumber text => match parse_int64 text with Some n => Some (put n x) | None => None end
  | _ => None
  end.

Definition into_struct {T U} (fields : list (field json U)) (get : T -> U) (put : U -> T -> T) (v : json) (x : T) : option T :=
  match v with
  | JNull => Some x
  | JObject ms => match decode_members fields ms (get x) with Some u => Some (put u x) | None => None end
  | _ => None
  end.

(** [decoder.Decode(&x)] of a struct. *)
Definition decode_struct {T} (fields : list (field json T)) (zero : T) (v : json) : option T :=
  match v with JNull => Some zero | JObject ms => decode_members fields ms zero | _ => None end.

(** [json.Unmarshal] into a struct: unknown members are skipped. *)
Fixpoint unmarshal_members {T} (fields : list (field json T)) (ms : list (string * json)) (x : T) : option T :=
  match ms with
  | [] => Some x
  | (k, v) :: ms' =>
      match find_field fields k with
      | Some set => match set v x with Some x' => unmarshal_members fields ms' x' | None => None end
      | None => unmarshal_members fields ms' x
      end
  end.

Definition unmarshal_struct {T} (fields : list (field json T)) (v : json) (x : T) : option T :=
  match v with JNull => Some x | JObject ms => unmarshal_members fields ms x | _ => None end.

(** An array into a slice: into the elements it has, then into zero values. *)
Fixpoint slice_elements {T} (set : json -> T -> option T) (zero : T) (old : list T) (l : list json) : option (list T) :=
  match l with
  | [] => Some []
  | v :: l' =>
      match set v (hd zero old), slice_elements set zero (tl old) l' with
      | Some x, Some xs => Some (x :: xs)
      | _, _ => None
      end
  end.

Definition into_slice {T U} (set : json -> U -> option U) (zero : U) (get : T -> list U) (put : list U -> T -> T) (v : json) (x : T) : option T :=
  match v with
  | JNull => Some (put [] x)
  | JArray l => match slice_elements set zero (get x) l with Some us => Some (put us x) | None => None end
  | _ => None
  end.

Fixpoint into_map (ms : list (string * json)) (m : gmap string string) : option (gmap string string) :=
  match ms with
  | [] => Some m
  | (k, JString s) :: ms' => into_map ms' (<[k := s]> m)
  | (k, JNull) :: ms' => into_map ms' (<[k := ""]> m)
  | _ => None
  end.

Definition into_labels {T} (get : T -> gmap string string) (put : gmap string string -> T -> T) (v : json) (x : T) : option T :=
  match v with
  | JNull => Some (put ∅ x)
  | JObject ms => match into_map ms (get x) with Some m => Some (put m x) | None => None end
  | _ => None
  end.

(** [decoder.Decode] reads the first value of the text and no further. *)
Definition first_value (data : string) : option json := fst <$> parse_json (json_fuel data) MValue data.

(** ** Raw messages *)

(** The members of the object that follows an opening brace, each with the
    text of its value. *)
Fixpoint raw_members (fuel : nat) (s : string) : option (list (string * (json * string))) :=
  match fuel with
  | O => None
  | S fuel =>
      match scan_key s with
      | Some (k, r1) =>
          let start := skip_ws r1 in
          match parse_json (json_fuel r1) MValue r1 with
          | Some (v, r2) =>
              let raw := String.substring 0 (String.length start - String.length r2) start in
              match expect "," r2 with
              | Some r3 => match raw_members fuel r3 with Some ms => Some ((k, (v, raw)) :: ms) | None => None end
              | None => match expect "}" r2 with Some _ => Some [(k, (v, raw))] | None => None end
              end
          | None => None
          end
      | None => None
      end
  end.

(** The members of a document that is an object, with their texts. *)
Definition raw_object (data : string) : option (list (string * (json * string))) :=
  match expect "{" data with
  | Some r => match expect "}" r with Some _ => Some [] | None => raw_members (String.length r) r end
  | None => None
  end.

(** * Paths and files

    What the controller uses of path/filepath (on a Unix system) and os: the
    file system is an argument. *)

Local Open Scope string_scope.

Definition IsAbs (path : string) : bool := HasPrefix path "/".

(** One component of [filepath.Clean], onto the components kept so far, the
    last one first. *)
Definition clean_step (rooted : bool) (kept : list string) (component : string) : list string :=
  if (component =? "") || (component =? ".") then kept
  else if component =? ".." then
    match kept with
    | top :: kept' => if top =? ".." then component :: kept else kept'
    | [] => if rooted then [] else [component]
    end
  else component :: kept.

Definition Clean (path : string) : string :=
  if path =? "" then "."
  else
    let rooted := IsAbs path in
    let kept := Join (rev (fold_left (clean_step rooted) (Split path "/"%char) [])) "/" in
    if rooted then "/" ++ kept else if kept =? "" then "." else kept.

(** [filepath.Dir] of a clean absolute path. *)
Definition Dir (path : string) : string :=
  match rev (Split path "/"%char) with
  | _ :: parents => Clean (Join (rev parents) "/" ++ "/")
  | [] => "."
  end.

(** [strings.Fields] *)
Fixpoint fields_of (rs : list (Z * string)) (word : string) : list string :=
  match rs with
  | [] => if word =? "" then [] else [word]
  | (r, chunk) :: rs' =>
      if IsSpace r then (if word =? "" then fields_of rs' "" else word :: fields_of rs' "")
      else fields_of rs' (word ++ chunk)
  end.
Definition Fields (s : string) : list string := fields_of (runes s) "".

(** ** Files *)

Record FileInfo := mkFileInfo { fi_regular : bool; fi_perm : Z; fi_size : Z }.

(** [os.Lstat] and [os.ReadFile]; [None] is an error. *)
Record FileSystem := mkFileSystem {
  Lstat : string -> option FileInfo;
  ReadFile : string -> option string
}.

Example clean_examples :
  map Clean ["/a/./b//c/.."; "a/../../b"; "/.."; "//x/"; "a/.."] = ["/a/b"; "../b"; "/"; "/x"; "."].
Proof. vm_compute. reflexivity. Qed.
