(* ===== verification/Sha256.v ===== *)
(** * SHA-256

    [crypto/sha256] is what gives snapshots, work items and bearer tokens
    their identity, so the digest is computed, not assumed.  Words are [Z]
    kept below 2^32; the round constants are the fractional parts of the cube
    roots (and square roots, for the initial state) of the first primes. *)
From stdpp Require Import base list strings.
From Stdlib Require Import ZArith Lia.
From S2P Require Import Prelude GoStrings.

Local Open Scope Z_scope.

Definition w32 (z : Z) : Z := Z.land z 0xFFFFFFFF.
Definition add32 (x y : Z) : Z := w32 (x + y).
Definition rotr (n x : Z) : Z := Z.lor (Z.shiftr x n) (w32 (Z.shiftl x (32 - n))).

Definition primes64 : list Z :=
  [2;3;5;7;11;13;17;19;23;29;31;37;41;43;47;53;59;61;67;71;73;79;83;89;97;101;103;107;109;113;
   127;131;137;139;149;151;157;163;167;173;179;181;191;193;197;199;211;223;227;229;233;239;241;
   251;257;263;269;271;277;281;283;293;307;311].

(** Integer cube root by bisection: the invariant is lo^3 <= n < hi^3. *)
Fixpoint cbrt_between (fuel : nat) (n lo hi : Z) : Z :=
  match fuel with
  | O => lo
  | S fuel' =>
      let mid := (lo + hi) / 2 in
      if mid * mid * mid <=? n then cbrt_between fuel' n mid hi else cbrt_between fuel' n lo mid
  end.

Definition round_constants : list Z :=
  Eval vm_compute in
    map (fun p => w32 (cbrt_between 40 (p * 2 ^ 96) 0 (2 ^ 40))) primes64.

Definition initial_state : list Z :=
  Eval vm_compute in map (fun p => w32 (Z.sqrt (p * 2 ^ 64))) (take 8 primes64).

Definition choose (x y z : Z) : Z := Z.lxor (Z.land x y) (Z.land (Z.lxor x 0xFFFFFFFF) z).
Definition majority (x y z : Z) : Z := Z.lxor (Z.lxor (Z.land x y) (Z.land x z)) (Z.land y z).
Definition big0 (x : Z) : Z := Z.lxor (Z.lxor (rotr 2 x) (rotr 13 x)) (rotr 22 x).
Definition big1 (x : Z) : Z := Z.lxor (Z.lxor (rotr 6 x) (rotr 11 x)) (rotr 25 x).
Definition small0 (x : Z) : Z := Z.lxor (Z.lxor (rotr 7 x) (rotr 18 x)) (Z.shiftr x 3).
Definition small1 (x : Z) : Z := Z.lxor (Z.lxor (rotr 17 x) (rotr 19 x)) (Z.shiftr x 10).

(** [n] big-endian bytes of [z]. *)
Fixpoint be_bytes (n : nat) (z : Z) : list Z :=
  match n with
  | O => []
  | S n' => be_bytes n' (z / 256) ++ [z mod 256]
  end.

Definition string_bytes (s : string) : list Z := map code (String.list_ascii_of_string s).

(** The message, a one bit, zeros up to 56 modulo 64, and the bit length. *)
Definition pad (msg : list Z) : list Z :=
  let n := Z.of_nat (length msg) in
  msg ++ [0x80] ++ repeat 0 (Z.to_nat ((55 - n) mod 64)) ++ be_bytes 8 (8 * n).

Fixpoint words (bs : list Z) : list Z :=
  match bs with
  | a :: b :: c :: d :: rest => (((a * 256 + b) * 256 + c) * 256 + d) :: words rest
  | _ => []
  end.

(** The message schedule, built newest word first. *)
Fixpoint schedule_rev (fuel : nat) (rev_w : list Z) : list Z :=
  match fuel with
  | O => rev_w
  | S fuel' =>
      let at_ i := nth i rev_w 0 in
      schedule_rev fuel'
        (add32 (add32 (small1 (at_ 1%nat)) (at_ 6%nat)) (add32 (small0 (at_ 14%nat)) (at_ 15%nat))
           :: rev_w)
  end.

Definition message_schedule (block : list Z) : list Z := rev (schedule_rev 48 (rev block)).

Definition round (st : list Z) (kw : Z * Z) : list Z :=
  match st with
  | [a; b; c; d; e; f; g; h] =>
      let t1 := add32 (add32 h (big1 e)) (add32 (choose e f g) (add32 (fst kw) (snd kw))) in
      let t2 := add32 (big0 a) (majority a b c) in
      [add32 t1 t2; a; b; c; add32 d t1; e; f; g]
  | _ => st
  end.

Definition compress (st block : list Z) : list Z :=
  zip_with add32 st (fold_left round (zip round_constants (message_schedule block)) st).

Fixpoint blocks (fuel : nat) (ws : list Z) : list (list Z) :=
  match fuel with
  | O => []
  | S fuel' => match ws with [] => [] | _ => take 16 ws :: blocks fuel' (drop 16 ws) end
  end.

(** [sha256.Sum256] as 32 bytes. *)
Definition Sum256 (msg : string) : list Z :=
  let ws := words (pad (string_bytes msg)) in
  flat_map (be_bytes 4) (fold_left compress (blocks (length ws) ws) initial_state).

(** [hex.EncodeToString(digest[:])] of the digest. *)
Definition sha256_hex (msg : string) : string := hex_encode (Sum256 msg).

#[global] Arguments sha256_hex : simpl never.

(** ** Length and range *)

Lemma be_bytes_length n z : length (be_bytes n z) = n.
Proof. revert z. induction n as [|n IH]; intros z; [done|]. simpl. rewrite length_app, IH. simpl. lia. Qed.

Lemma be_bytes_range n z : Forall (fun b => 0 <= b < 256) (be_bytes n z).
Proof.
  revert z. induction n as [|n IH]; intros z; simpl; [constructor|].
  apply Forall_app. split; [apply IH|]. constructor; [|constructor]. apply Z.mod_pos_bound. lia.
Qed.

Lemma round_length st kw : length st = 8%nat -> length (round st kw) = 8%nat.
Proof. intros H. do 9 (destruct st as [|? st]; try discriminate H). reflexivity. Qed.

Lemma compress_length st b : length st = 8%nat -> length (compress st b) = 8%nat.
Proof.
  intros H. unfold compress. rewrite length_zip_with, H.
  cut (length (fold_left round (zip round_constants (message_schedule b)) st) = 8%nat); [lia|].
  generalize (zip round_constants (message_schedule b)) as kws. intros kws. revert st H.
  induction kws as [|kw kws IH]; intros st H; simpl; [done|]. apply IH, round_length, H.
Qed.

Lemma Sum256_length msg : length (Sum256 msg) = 32%nat.
Proof.
  unfold Sum256. set (bs := blocks _ _). clearbody bs.
  assert (Hst : length (fold_left compress bs initial_state) = 8%nat).
  { assert (H0 : length initial_state = 8%nat) by reflexivity. revert H0.
    generalize initial_state as st. induction bs as [|b bs IH]; intros st H; simpl; [done|].
    apply IH, compress_length, H. }
  revert Hst. generalize (fold_left compress bs initial_state) as st. intros st Hst.
  do 9 (destruct st as [|? st]; try discriminate Hst).
  cbn [flat_map]. rewrite !length_app, !be_bytes_length. reflexivity.
Qed.

Lemma Sum256_bytes msg : Forall (fun b => 0 <= b < 256) (Sum256 msg).
Proof.
  unfold Sum256. generalize (fold_left compress
    (blocks (length (words (pad (string_bytes msg)))) (words (pad (string_bytes msg)))) initial_state).
  intros st. induction st as [|z st IH]; cbn [flat_map]; [constructor|].
  apply Forall_app. split; [apply be_bytes_range | apply IH].
Qed.

(** A digest prints as 64 hexadecimal digits, which decode to 32 bytes. *)
Lemma sha256_hex_len msg : len (sha256_hex msg) = 64.
Proof. unfold sha256_hex. rewrite hex_encode_len, Sum256_length. reflexivity. Qed.

Lemma sha256_hex_decodes msg : hex_decoded_len (sha256_hex msg) = Some 32.
Proof.
  unfold hex_decoded_len. rewrite sha256_hex_len.
  unfold sha256_hex. rewrite hex_encode_is_hex by apply Sum256_bytes. reflexivity.
Qed.

(** FIPS 180 test vectors: one block, and the two-block padding case. *)
Example sha256_abc :
  sha256_hex "abc" = "ba7816bf8f01cfea414140de5dae2223b00361a396177a9cb410ff61f20015ad"%string.
Proof. vm_compute. reflexivity. Qed.

Example sha256_two_blocks :
  sha256_hex "abcdbcdecdefdefgefghfghighijhijkijkljklmklmnlmnomnopnopq"
  = "248d6a61d20638b8e5c026930c3e6039a33ce45964ff2167f6ecedd419db06c1"%string.
Proof. vm_compute. reflexivity. Qed.
