(* ===== verification/GoEncoding.v ===== *)
(** * base64 and HMAC

    What the sources use of encoding/base64 and crypto/hmac: the URL alphabet
    with and without padding, and HMAC over SHA-256.  Bytes are integers from
    0 to 255, text is a string; [base64_decode_encode] is the round trip. *)
From stdpp Require Import base list strings pretty.
From Stdlib Require Import ZArith Lia Ascii.
From S2P Require Import Prelude GoStrings GoUrl Sha256.

Local Open Scope Z_scope.
Local Open Scope string_scope.

(** ** Bytes and text *)

Definition bytes_string (bytes : list Z) : string := String.string_of_list_ascii (map byte bytes).

Definition is_byte (b : Z) : Prop := (0 <= b < 256)%Z.

(** ** base64 *)

Definition base64url_digit (n : Z) : ascii :=
  if (n <? 26)%Z then byte (n + 65) else if (n <? 52)%Z then byte (n - 26 + 97) else if (n <? 62)%Z then byte (n - 52 + 48)
  else if (n =? 62)%Z then "-"%char else "_"%char.

(** [base64.RawURLEncoding.EncodeToString] *)
Fixpoint base64url (bytes : list Z) : string :=
  match bytes with
  | a :: b :: c :: rest =>
      String (base64url_digit (a / 4)) (String (base64url_digit ((a mod 4) * 16 + b / 16))
        (String (base64url_digit ((b mod 16) * 4 + c / 64)) (String (base64url_digit (c mod 64)) (base64url rest))))
  | [a; b] =>
      String (base64url_digit (a / 4)) (String (base64url_digit ((a mod 4) * 16 + b / 16))
        (String (base64url_digit ((b mod 16) * 4)) ""))
  | [a] => String (base64url_digit (a / 4)) (String (base64url_digit ((a mod 4) * 16)) "")
  | [] => ""
  end.

Definition base64_value (c : ascii) : option Z :=
  let n := code c in
  if in_range 65 90 n then Some (n - 65) else if in_range 97 122 n then Some (n - 71) else if in_range 48 57 n then Some (n + 4)
  else if (n =? 45)%Z then Some 62 else if (n =? 95)%Z then Some 63 else None.

(** [base64.RawURLEncoding.DecodeString] of text without line breaks. *)
Fixpoint base64_decode (s : string) : option string :=
  match s with
  | EmptyString => Some ""
  | String a (String b EmptyString) =>
      match base64_value a, base64_value b with Some x, Some y => Some (String (byte (x * 4 + y / 16)) "") | _, _ => None end
  | String a (String b (String c EmptyString)) =>
      match base64_value a, base64_value b, base64_value c with
      | Some x, Some y, Some z => Some (String (byte (x * 4 + y / 16)) (String (byte (y mod 16 * 16 + z / 4)) ""))
      | _, _, _ => None
      end
  | String a (String b (String c (String d rest))) =>
      match base64_value a, base64_value b, base64_value c, base64_value d, base64_decode rest with
      | Some x, Some y, Some z, Some w, Some tail =>
          Some (String (byte (x * 4 + y / 16)) (String (byte (y mod 16 * 16 + z / 4)) (String (byte (z mod 4 * 64 + w)) tail)))
      | _, _, _, _, _ => None
      end
  | _ => None
  end.

(** Line breaks are skipped wherever they are. *)
Fixpoint without_breaks (s : string) : string :=
  match s with
  | EmptyString => ""
  | String c rest => if one_of (String "010" (String "013" "")) c then without_breaks rest else String c (without_breaks rest)
  end.

Definition RawURL_DecodeString (s : string) : option string := base64_decode (without_breaks s).

(** [base64.URLEncoding.DecodeString]: the last group is padded to four. *)
Definition unpadded (s : string) : option string :=
  let n := String.length s in
  if negb (n mod 4 =? 0)%nat then None
  else if HasSuffix s "==" then Some (String.substring 0 (n - 2) s)
  else if HasSuffix s "=" then Some (String.substring 0 (n - 1) s)
  else Some s.

Definition URL_DecodeString (s : string) : option string := unpadded (without_breaks s) ≫= base64_decode.

(** ** HMAC *)

Definition hmac_key (key : list Z) : list Z :=
  let key := if (64 <? Z.of_nat (length key))%Z then Sum256 (bytes_string key) else key in
  (key ++ repeat 0 (64 - length key))%list.

(** [hmac.New(sha256.New, key)], written once and summed. *)
Definition hmac_sha256 (key : list Z) (message : string) : list Z :=
  let pad c := bytes_string (map (Z.lxor c) (hmac_key key)) in
  Sum256 (pad 0x5c ++ bytes_string (Sum256 (pad 0x36 ++ message))).

#[global] Arguments hmac_sha256 : simpl never.

(** ** The round trip *)

Lemma code_byte n : is_byte n -> code (byte n) = n.
Proof. intros H. unfold code, byte, is_byte in *. rewrite Ascii.N_ascii_embedding; lia. Qed.

(** The 64 digits, checked one by one. *)
Lemma base64_digits : forallb (fun n => bool_decide (base64_value (base64url_digit (Z.of_nat n)) = Some (Z.of_nat n))) (seq 0 64) = true.
Proof. vm_compute. reflexivity. Qed.

Lemma base64_value_digit n : (0 <= n < 64)%Z -> base64_value (base64url_digit n) = Some n.
Proof.
  intros H. pose proof base64_digits as Hall. rewrite forallb_forall in Hall.
  specialize (Hall (Z.to_nat n)). rewrite Z2Nat.id in Hall by lia. apply bool_decide_eq_true in Hall; [done|]. apply in_seq. lia.
Qed.

Lemma bytes_string_cons b l : bytes_string (b :: l) = String (byte b) (bytes_string l).
Proof. done. Qed.

Lemma string_bytes_string l : Forall is_byte l -> string_bytes (bytes_string l) = l.
Proof.
  unfold string_bytes, bytes_string. rewrite String.list_ascii_of_string_of_list_ascii, map_map.
  induction 1 as [|b l Hb _ IH]; [done|]. cbn [map]. by rewrite IH, code_byte.
Qed.

Lemma list_ind3 {A} (P : list A -> Prop) :
  P [] -> (forall a, P [a]) -> (forall a b, P [a; b]) -> (forall a b c l, P l -> P (a :: b :: c :: l)) -> forall l, P l.
Proof.
  intros H0 H1 H2 H3. fix IH 1. intros [|a [|b [|c l]]]; [exact H0|apply H1|apply H2|apply H3, IH].
Qed.

(** How three bytes and four digits hold the same bits. *)
Lemma first_byte a b : is_byte a -> is_byte b -> (a / 4 * 4 + (a mod 4 * 16 + b / 16) / 16 = a)%Z.
Proof. unfold is_byte. intros Ha Hb. Z.div_mod_to_equations. lia. Qed.

Lemma second_byte a b c : is_byte a -> is_byte b -> is_byte c ->
  ((a mod 4 * 16 + b / 16) mod 16 * 16 + (b mod 16 * 4 + c / 64) / 4 = b)%Z.
Proof. unfold is_byte. intros Ha Hb Hc. Z.div_mod_to_equations. lia. Qed.

Lemma third_byte b c : is_byte b -> is_byte c -> ((b mod 16 * 4 + c / 64) mod 4 * 64 + c mod 64 = c)%Z.
Proof. unfold is_byte. intros Hb Hc. Z.div_mod_to_equations. lia. Qed.

Lemma sextets a b c : is_byte a -> is_byte b -> is_byte c ->
  (0 <= a / 4 < 64 /\ 0 <= a mod 4 * 16 + b / 16 < 64 /\ 0 <= b mod 16 * 4 + c / 64 < 64 /\ 0 <= c mod 64 < 64)%Z.
Proof. unfold is_byte. intros Ha Hb Hc. Z.div_mod_to_equations. lia. Qed.

(** A missing byte counts as zero. *)
Lemma zero_byte : is_byte 0.
Proof. unfold is_byte. lia. Qed.

Theorem base64_decode_encode bytes : Forall is_byte bytes -> base64_decode (base64url bytes) = Some (bytes_string bytes).
Proof.
  pose proof zero_byte as H0. induction bytes as [|a|a b|a b c l IH] using list_ind3; intros H; [done|..];
    rewrite ?Forall_cons in H; cbn [base64url base64_decode].
  - destruct H as [Ha _]. pose proof (sextets a 0 0 Ha H0 H0) as (H1 & H2 & _). pose proof (first_byte a 0 Ha H0) as E.
    rewrite Z.div_0_l, Z.add_0_r in H2, E by lia. rewrite !base64_value_digit by done. by rewrite E.
  - destruct H as (Ha & Hb & _). pose proof (sextets a b 0 Ha Hb H0) as (H1 & H2 & H3 & _).
    pose proof (first_byte a b Ha Hb) as E1. pose proof (second_byte a b 0 Ha Hb H0) as E2.
    rewrite Z.div_0_l, Z.add_0_r in H3, E2 by lia. rewrite !base64_value_digit by done. by rewrite E1, E2.
  - destruct H as (Ha & Hb & Hc & Hl). pose proof (sextets a b c Ha Hb Hc) as (H1 & H2 & H3 & H4).
    rewrite !base64_value_digit, IH by done. by rewrite first_byte, second_byte, third_byte.
Qed.

(** The digits are in the alphabet: no dot, no padding, no white space. *)
Definition base64_char (c : ascii) : bool := is_lower c || is_upper c || is_digit c || one_of "-_" c.

Lemma base64_digit_chars : forallb (fun n => base64_char (base64url_digit (Z.of_nat n))) (seq 0 64) = true.
Proof. vm_compute. reflexivity. Qed.

Lemma base64url_digit_char n : (0 <= n < 64)%Z -> base64_char (base64url_digit n) = true.
Proof.
  intros H. pose proof base64_digit_chars as Hall. rewrite forallb_forall in Hall.
  specialize (Hall (Z.to_nat n)). rewrite Z2Nat.id in Hall by lia. apply Hall, in_seq. lia.
Qed.

Lemma base64url_chars bytes : Forall is_byte bytes -> all_bytes base64_char (base64url bytes) = true.
Proof.
  pose proof zero_byte as H0. induction bytes as [|a|a b|a b c l IH] using list_ind3; intros H; [done|..];
    rewrite ?Forall_cons in H; cbn [base64url all_bytes].
  - destruct H as [Ha _]. pose proof (sextets a 0 0 Ha H0 H0) as (H1 & H2 & _).
    rewrite Z.div_0_l, Z.add_0_r in H2 by lia. by rewrite !base64url_digit_char.
  - destruct H as (Ha & Hb & _). pose proof (sextets a b 0 Ha Hb H0) as (H1 & H2 & H3 & _).
    rewrite Z.div_0_l, Z.add_0_r in H3 by lia. by rewrite !base64url_digit_char.
  - destruct H as (Ha & Hb & Hc & Hl). pose proof (sextets a b c Ha Hb Hc) as (H1 & H2 & H3 & H4).
    by rewrite !base64url_digit_char, IH.
Qed.

Lemma without_breaks_chars s : all_bytes base64_char s = true -> without_breaks s = s.
Proof.
  induction s as [|c s IH]; [done|]. cbn [all_bytes without_breaks]. intros [Hc Hs]%andb_prop.
  rewrite IH by done. destruct (one_of _ c) eqn:Hb; [|done]. exfalso.
  destruct c as [[] [] [] [] [] [] [] []]; vm_compute in Hb, Hc; congruence.
Qed.

Lemma RawURL_roundtrip bytes : Forall is_byte bytes -> RawURL_DecodeString (base64url bytes) = Some (bytes_string bytes).
Proof.
  intros H. unfold RawURL_DecodeString. rewrite without_breaks_chars by by apply base64url_chars. by apply base64_decode_encode.
Qed.

Lemma hmac_bytes key message : Forall is_byte (hmac_sha256 key message).
Proof. unfold hmac_sha256. apply Sum256_bytes. Qed.

(** ** strconv

    [strconv.Itoa], [%d]. *)
Definition Itoa (n : Z) : string := pretty n.

Lemma pretty_digit d : (d < 10)%N -> is_digit (pretty_N_char d) = true /\ code (pretty_N_char d) - 48 = Z.of_N d.
Proof.
  intros H. assert (Hd : (d = 0 \/ d = 1 \/ d = 2 \/ d = 3 \/ d = 4 \/ d = 5 \/ d = 6 \/ d = 7 \/ d = 8 \/ d = 9)%N) by lia.
  by repeat destruct Hd as [->|Hd]; [..|subst d].
Qed.

Lemma digits_pretty x s : digits_value (pretty_N_go x s) 0 = digits_value s (Z.of_N x).
Proof.
  revert s. induction (N.lt_wf_0 x) as [x _ IH]. intros s. destruct (N.eq_dec x 0) as [->|Hne]; [done|].
  rewrite pretty_N_go_step by lia. rewrite IH by (apply N.div_lt; lia). cbn [digits_value].
  destruct (pretty_digit (x `mod` 10)%N) as [-> ->]; [apply N.mod_lt; lia|]. f_equal.
  rewrite N2Z.inj_div, N2Z.inj_mod. pose proof (Z.div_mod (Z.of_N x) 10). lia.
Qed.

Lemma digits_first s acc n : digits_value s acc = Some n -> match s with String c _ => is_digit c = true | EmptyString => True end.
Proof. destruct s as [|c s]; [done|]. cbn. by destruct (is_digit c). Qed.

Lemma Atoi_digits s n : digits_value s 0 = Some n -> s <> "" -> 0 <= n < 2 ^ 63 -> Atoi s = Some n.
Proof.
  intros H Hs Hn. pose proof (digits_first _ _ _ H) as Hd. destruct s as [|c s]; [done|]. unfold Atoi.
  assert (Hc : (c =? "-")%char = false /\ (c =? "+")%char = false)
    by (revert Hd; clear; destruct c as [[] [] [] [] [] [] [] []]; vm_compute; intros [=]; done).
  destruct Hc as [-> ->]. unfold decimal. rewrite H. unfold in_range. destruct (_ && _) eqn:E; [done|].
  apply andb_false_iff in E as [E|E]; bool_prop; lia.
Qed.

Lemma Atoi_Itoa n : 0 <= n < 2 ^ 63 -> Atoi (Itoa n) = Some n.
Proof.
  intros Hn. destruct n as [|p|p]; [done| |lia].
  change (Itoa (Zpos p)) with (pretty (Npos p)). unfold pretty, pretty_N. rewrite decide_False by done.
  apply (Atoi_digits _ (Zpos p)); [|intros E|done].
  - by rewrite digits_pretty.
  - pose proof (digits_pretty (Npos p) "") as H. rewrite E in H. done.
Qed.
