(* ===== verification/Contract.v ===== *)
(** * The resolved-run contract (protocol/resolvedrun/contract.go)

    The value every local run is made of, one record per Go struct with the
    struct's fields in order.  A Go slice is nil or a list, and
    [reflect.DeepEqual] tells a nil slice from an empty one, so a slice is an
    [option (list A)]; a pointer to a struct is an [option]; a
    [json.RawMessage] is its bytes.  Integers are kept as [Z] and are bounded
    by the validation of the contract. *)
From stdpp Require Import base list strings gmap.
From Stdlib Require Import ZArith Lia.
From S2P Require Import Prelude.

Definition slice (A : Type) : Type := option (list A).
Definition elems {A} (s : slice A) : list A := default [] s.

Definition ContractVersion : string := "nvt.resolved-agent-run/v1".
Definition MaxDocumentBytes : Z := Z.shiftl 1 20.
Definition MaxProfiles : Z := 128.
Definition MaxWorkflows : Z := 128.
Definition MaxExecutionBackends : Z := 32.
Definition MaxRetentionPolicies : Z := 32.
Definition MaxRepositories : Z := 128.
Definition MaxCredentialProviderMappings : Z := 64.
Definition MaxBrokerGrants : Z := 64.
Definition MaxWorkspaceInstructionsBytes : Z := Z.shiftl 64 10.
Definition MaxAgentConfigBytes : Z := Z.shiftl 256 10.
Definition MaxPromptBytes : Z := Z.shiftl 64 10.
Definition MaxSourceURLBytes : Z := 2048.
Definition maxTTLSeconds : Z := (365 * 24 * 60 * 60)%Z.

Record Principal := mkPrincipal {
  p_Issuer : string;
  p_Subject : string;
  p_DisplayName : string
}.

Record RuntimeContainer := mkRuntimeContainer { rc_Capabilities : slice string }.

Record DockerNetwork := mkDockerNetwork { dn_Name : string; dn_Subnet : string }.

Record RuntimeDocker := mkRuntimeDocker {
  rd_KernelLogDevice : bool;
  rd_RequiredNetworks : slice DockerNetwork
}.

Record Runtime := mkRuntime {
  rt_Type : string;
  rt_Autonomy : string;
  rt_Model : string;
  rt_Effort : string;
  rt_User : string;
  rt_Container : option RuntimeContainer;
  rt_Docker : option RuntimeDocker
}.

Record RepositoryIdentity := mkRepositoryIdentity {
  ri_Mode : string;
  ri_Name : string;
  ri_Email : string
}.

Record Repository := mkRepository {
  rp_CheckoutTarget : string;
  rp_BrokerRepository : string;
  rp_URL : string;
  rp_Path : string;
  rp_Upstream : string;
  rp_CredentialProvider : string;
  rp_CredentialUsername : string;
  rp_Identity : option RepositoryIdentity
}.

Record CredentialProviderMapping := mkCredentialProviderMapping {
  cp_Name : string;
  cp_BrokerProvider : string;
  cp_CredentialKind : string;
  cp_MatchTargets : slice string
}.

Record BrokerGrantAuthorizationRule := mkBrokerGrantAuthorizationRule {
  ar_Operation : string;
  ar_Resource : string
}.

Record BrokerGrantAuthorization := mkBrokerGrantAuthorization {
  ga_DefaultAction : string;
  ga_Rules : slice BrokerGrantAuthorizationRule
}.

Record BrokerGrantQuota := mkBrokerGrantQuota { gq_Requests : Z }.

Record BrokerGrant := mkBrokerGrant {
  g_Provider : string;
  g_Repositories : slice string;
  g_Resources : slice string;
  g_Capabilities : slice string;
  g_Preparations : slice string;
  g_Materialization : string;
  g_EgressHosts : slice string;
  g_Git : bool;
  g_Permissions : option (gmap string string);
  g_Authorization : option BrokerGrantAuthorization;
  g_Quota : option BrokerGrantQuota;
  g_AllowInsecureUpstream : bool
}.

Record Broker := mkBroker { b_Grants : slice BrokerGrant }.

Record DomainPolicy := mkDomainPolicy {
  dp_DefaultAction : string;
  dp_Allow : slice string;
  dp_Deny : slice string
}.

Record Egress := mkEgress {
  e_Mode : string;
  e_Transport : string;
  e_Enforced : bool;
  e_ProxyProvider : string;
  e_PairedEgressRequired : bool;
  e_AllowInsecureBroker : bool;
  e_MaxConcurrentTunnels : Z;
  e_DomainPolicy : option DomainPolicy
}.

Record Resources := mkResources {
  rs_CPURequest : string;
  rs_CPULimit : string;
  rs_MemoryRequest : string;
  rs_MemoryLimit : string
}.

Record WorkspaceInstructions := mkWorkspaceInstructions {
  wi_Profile : string;
  wi_Workflow : string
}.

Record Persistence := mkPersistence {
  pe_Workspace : bool;
  pe_RuntimeState : bool;
  pe_DockerData : bool
}.

Record TTL := mkTTL {
  ttl_ActiveSeconds : Z;
  ttl_CompletedSeconds : Z;
  ttl_FailedSeconds : Z;
  ttl_RunRetentionSeconds : Z
}.

Record Lifecycle := mkLifecycle {
  lc_CompleteOn : slice string;
  lc_FailOn : slice string
}.

Record ExecutionBackend := mkExecutionBackend { xb_Name : string; xb_Kind : string }.

Record RetentionPolicy := mkRetentionPolicy {
  rpol_Name : string;
  rpol_Persistence : Persistence;
  rpol_TTL : TTL
}.

Record ResolvedAgentRun := mkResolvedAgentRun {
  rr_ContractVersion : string;
  rr_RunID : string;
  rr_Principal : Principal;
  rr_SourceURL : string;
  rr_Profile : string;
  rr_Workflow : string;
  rr_Image : string;
  rr_Runtime : Runtime;
  rr_AgentConfig : string;
  rr_Prompt : string;
  rr_Repositories : slice Repository;
  rr_CredentialProviders : slice CredentialProviderMapping;
  rr_DefaultCredentialProvider : string;
  rr_Broker : Broker;
  rr_Egress : Egress;
  rr_WorkspaceInstructions : WorkspaceInstructions;
  rr_Resources : Resources;
  rr_Persistence : Persistence;
  rr_Retention : string;
  rr_TTL : TTL;
  rr_Lifecycle : Lifecycle;
  rr_Execution : ExecutionBackend
}.

Record AgentConfigBindings := mkAgentConfigBindings {
  ab_ForwardProxyURL : string;
  ab_RedirectBaseURLs : gmap string string
}.

Record PlatformDefaults := mkPlatformDefaults {
  pd_Image : string;
  pd_Runtime : Runtime;
  pd_AgentConfig : string;
  pd_Resources : Resources;
  pd_Lifecycle : Lifecycle
}.

Record Profile := mkProfile {
  pf_Name : string;
  pf_Image : string;
  pf_Runtime : option Runtime;
  pf_AgentConfig : string;
  pf_Resources : option Resources;
  pf_Lifecycle : option Lifecycle;
  pf_CredentialProviders : slice CredentialProviderMapping;
  pf_DefaultCredentialProvider : string;
  pf_Broker : Broker;
  pf_Egress : Egress;
  pf_WorkspaceInstructions : string;
  pf_AllowedBackends : slice string;
  pf_DefaultBackend : string;
  pf_AllowedRetentions : slice string
}.

Record Workflow := mkWorkflow {
  wf_Name : string;
  wf_Repositories : slice Repository;
  wf_WorkspaceInstructions : string;
  wf_Lifecycle : option Lifecycle
}.

Record TrustedConfiguration := mkTrustedConfiguration {
  tc_Defaults : PlatformDefaults;
  tc_Profiles : slice Profile;
  tc_Workflows : slice Workflow;
  tc_ExecutionBackends : slice ExecutionBackend;
  tc_RetentionPolicies : slice RetentionPolicy
}.

Record AuthorizedSelection := mkAuthorizedSelection {
  as_Profile : string;
  as_Workflows : slice string
}.

Record AuthorizationContext := mkAuthorizationContext {
  ac_Principal : Principal;
  ac_Selections : slice AuthorizedSelection
}.

Record LocalRunRequest := mkLocalRunRequest {
  lr_RunID : string;
  lr_Profile : string;
  lr_Workflow : string;
  lr_Retention : string;
  lr_Backend : string;
  lr_Prompt : string;
  lr_SourceURL : string
}.

(** ** Decidable equality, for [==] and [reflect.DeepEqual] *)

#[export] Instance Principal_eq_dec : EqDecision Principal.
Proof. solve_decision. Defined.
#[export] Instance RuntimeContainer_eq_dec : EqDecision RuntimeContainer.
Proof. solve_decision. Defined.
#[export] Instance DockerNetwork_eq_dec : EqDecision DockerNetwork.
Proof. solve_decision. Defined.
#[export] Instance RuntimeDocker_eq_dec : EqDecision RuntimeDocker.
Proof. solve_decision. Defined.
#[export] Instance Runtime_eq_dec : EqDecision Runtime.
Proof. solve_decision. Defined.
#[export] Instance RepositoryIdentity_eq_dec : EqDecision RepositoryIdentity.
Proof. solve_decision. Defined.
#[export] Instance Repository_eq_dec : EqDecision Repository.
Proof. solve_decision. Defined.
#[export] Instance CredentialProviderMapping_eq_dec : EqDecision CredentialProviderMapping.
Proof. solve_decision. Defined.
#[export] Instance BrokerGrantAuthorizationRule_eq_dec : EqDecision BrokerGrantAuthorizationRule.
Proof. solve_decision. Defined.
#[export] Instance BrokerGrantAuthorization_eq_dec : EqDecision BrokerGrantAuthorization.
Proof. solve_decision. Defined.
#[export] Instance BrokerGrantQuota_eq_dec : EqDecision BrokerGrantQuota.
Proof. solve_decision. Defined.
#[export] Instance BrokerGrant_eq_dec : EqDecision BrokerGrant.
Proof. solve_decision. Defined.
#[export] Instance Broker_eq_dec : EqDecision Broker.
Proof. solve_decision. Defined.
#[export] Instance DomainPolicy_eq_dec : EqDecision DomainPolicy.
Proof. solve_decision. Defined.
#[export] Instance Egress_eq_dec : EqDecision Egress.
Proof. solve_decision. Defined.
#[export] Instance Resources_eq_dec : EqDecision Resources.
Proof. solve_decision. Defined.
#[export] Instance WorkspaceInstructions_eq_dec : EqDecision WorkspaceInstructions.
Proof. solve_decision. Defined.
#[export] Instance Persistence_eq_dec : EqDecision Persistence.
Proof. solve_decision. Defined.
#[export] Instance TTL_eq_dec : EqDecision TTL.
Proof. solve_decision. Defined.
#[export] Instance Lifecycle_eq_dec : EqDecision Lifecycle.
Proof. solve_decision. Defined.
#[export] Instance ExecutionBackend_eq_dec : EqDecision ExecutionBackend.
Proof. solve_decision. Defined.
#[export] Instance ResolvedAgentRun_eq_dec : EqDecision ResolvedAgentRun.
Proof. solve_decision. Defined.

(** The zero TTL, [resolvedrun.TTL{}]. *)
Definition zero_TTL : TTL := mkTTL 0 0 0 0.

(** [validateTTL]: every bound is between zero and a year. *)
Definition validateTTL (t : TTL) : bool :=
  forallb (fun s => negb ((s <? 0)%Z || (maxTTLSeconds <? s)%Z))
    [ttl_ActiveSeconds t; ttl_CompletedSeconds t; ttl_FailedSeconds t; ttl_RunRetentionSeconds t].
