(* ===== verification/Validation.v ===== *)
(** * Validation of resolved runs (protocol/resolvedrun/validation.go)

    Every validator of the file: a [valid...] function is a boolean, a
    [validate...] function returns the error's text.  The JSON documents of
    [agent_config] go through [rejectDuplicateKeys] of decode.go. *)
From stdpp Require Import base list strings gmap.
From Stdlib Require Import ZArith Lia Ascii.
From S2P Require Import Prelude GoStrings GoUrl GoJson Contract.


Local Open Scope Z_scope.
Local Open Scope go_scope.
Local Open Scope string_scope.

Definition maxNameBytes : Z := 63.
Definition maxIssuerBytes : Z := 2048.
Definition maxSubjectBytes : Z := 512.
Definition maxDisplayNameBytes : Z := 512.
Definition maxCommandBytes : Z := 4096.
Definition maxArgumentBytes : Z := Z.shiftl 16 10.
Definition maxArguments : Z := 256.
Definition maxEnvironmentVariables : Z := 128.
Definition maxEnvironmentValueBytes : Z := Z.shiftl 16 10.
Definition maxRuntimeCapabilities : Z := 64.
Definition maxDockerNetworks : Z := 16.
Definition maxLifecycleEvents : Z := 128.
Definition maxPatternsPerProvider : Z := 256.
Definition maxGrantValues : Z := 256.

(** ** Patterns *)

Definition lower_digit (c : ascii) : bool := is_lower c || is_digit c.
Definition alnum (c : ascii) : bool := is_upper c || is_lower c || is_digit c.

(** [^[a-z0-9](?:[-a-z0-9]*[a-z0-9])?$] *)
Definition namePattern : regex :=
  RSeq (RSet lower_digit) (ROpt (RSeq (RStar (RSet (fun c => one_of "-" c || lower_digit c))) (RSet lower_digit))).

(** [^[A-Za-z0-9](?:[-._A-Za-z0-9]*[A-Za-z0-9])?$] *)
Definition providerPattern : regex :=
  RSeq (RSet alnum) (ROpt (RSeq (RStar (RSet (fun c => one_of "-._" c || alnum c))) (RSet alnum))).

(** [^[A-Za-z_][A-Za-z0-9_]*$] *)
Definition environmentPattern : regex :=
  RSeq (RSet (fun c => is_upper c || is_lower c || one_of "_" c)) (RStar (RSet (fun c => alnum c || one_of "_" c))).

(** [^[a-z][a-z0-9]*(?:[._-][a-z0-9]+)*$] *)
Definition capabilityPattern : regex :=
  RSeq (RSet is_lower)
    (RSeq (RStar (RSet lower_digit)) (RStar (RSeq (RSet (one_of "._-")) (RPlus (RSet lower_digit))))).

(** [^[A-Z][A-Z0-9_]*$] *)
Definition linuxCapabilityPattern : regex :=
  RSeq (RSet is_upper) (RStar (RSet (fun c => is_upper c || is_digit c || one_of "_" c))).

(** Zero, or digits that do not start with zero. *)
Definition natural : regex := RAlt (RText "0") (RSeq (RSet (in_range 49 57 ∘ code)) (RStar (RSet is_digit))).

(** [natural], then an optional [m]. *)
Definition cpuQuantityPattern : regex := RSeq natural (ROpt (RText "m")).

(** [natural], then an optional binary unit [Ki], [Mi], [Gi], [Ti] or [Pi]. *)
Definition memoryQuantityPattern : regex :=
  RSeq natural (ROpt (RAlt (RText "Ki") (RAlt (RText "Mi") (RAlt (RText "Gi") (RAlt (RText "Ti") (RText "Pi")))))).

Definition sensitiveEnvironmentSegments : list string :=
  ["TOKEN"; "SECRET"; "PASSWORD"; "CREDENTIAL"; "PRIVATE_KEY"; "API_KEY"; "AUTHORIZATION"].

(** ** Names and text *)

Definition nul_cr_lf_set : string := String "000" (String "013" (String "010" "")).

Definition validName (value : string) : bool := (len value <=? maxNameBytes)%Z && re_match namePattern value.

Definition validProvider (value : string) : bool := (len value <=? 128)%Z && re_match providerPattern value.

Definition validCapability (value : string) : bool := (len value <=? 128)%Z && re_match capabilityPattern value.

Definition containsControl (value : string) : bool :=
  ContainsAny value nul_cr_lf_set || negb (ValidString value).

Definition trimmed (value : string) : bool := value =? TrimSpace value.

Definition validBoundedText (value : string) (maximum : Z) (allowEmpty : bool) : bool :=
  (allowEmpty || negb (value =? "")) && (len value <=? maximum)%Z && trimmed value
  && negb (containsControl value) && ValidString value.

(** [strings.ContainsRune(value, 0)] *)
Definition has_nul (value : string) : bool := has_byte value "000"%char.

Definition mem (s : string) (l : list string) : bool := existsb (String.eqb s) l.

Definition containsString (values : list string) (wanted : string) : bool :=
  existsb (fun value => value =? wanted) values.

Definition validateUniqueStrings (values : list string) (valid : string -> bool) : result string unit :=
  each_seen (fun seen value =>
    reject (negb (valid value)) "invalid value" |>> reject (mem value seen) "duplicate value") [] values.

Definition size {A} (s : slice A) : Z := Z.of_nat (length (elems s)).

(** ** URLs *)

Definition ValidateSourceURL (value : string) : result string unit :=
  let bad := Err "source URL is invalid" in
  if (len value =? 0)%Z || (MaxSourceURLBytes <? len value)%Z || negb (ValidString value) || negb (trimmed value)
     || exists_rune IsControl value then bad
  else match url_Parse value with
  | None => bad
  | Some parsed =>
      if negb (Scheme parsed =? "https") || (Host parsed =? "") || (Hostname parsed =? "")
         || bool_decide (is_Some (User parsed)) || negb (Opaque parsed =? "") || negb (URL_String parsed =? value)
      then bad
      else match QueryUnescape (RawQuery parsed) with
      | None => bad
      | Some decodedQuery =>
          reject (negb (ValidString (Path parsed)) || negb (ValidString decodedQuery)
                  || negb (ValidString (Fragment parsed)) || exists_rune IsControl (Path parsed)
                  || exists_rune IsControl decodedQuery || exists_rune IsControl (Fragment parsed))
            "source URL is invalid"
      end
  end.

Definition validatePrincipal (value : Principal) : result string unit :=
  let bad := Err "principal issuer is invalid" in
  if (len (p_Issuer value) =? 0)%Z || (maxIssuerBytes <? len (p_Issuer value))%Z || negb (trimmed (p_Issuer value))
     || containsControl (p_Issuer value) then bad
  else match url_Parse (p_Issuer value) with
  | None => bad
  | Some parsed =>
      reject (negb (Scheme parsed =? "https") || (Host parsed =? "") || bool_decide (is_Some (User parsed))
              || negb (RawQuery parsed =? "") || negb (Fragment parsed =? "")
              || negb (URL_String parsed =? p_Issuer value)) "principal issuer is invalid" |>>
      reject ((len (p_Subject value) =? 0)%Z || (maxSubjectBytes <? len (p_Subject value))%Z
              || negb (trimmed (p_Subject value)) || containsControl (p_Subject value))
        "principal subject is invalid" |>>
      reject ((maxDisplayNameBytes <? len (p_DisplayName value))%Z || containsControl (p_DisplayName value))
        "principal display_name is invalid"
  end.

(** ** Requests *)

Definition ValidateLocalRunRequest (value : LocalRunRequest) : result string unit :=
  reject (negb (validName (lr_RunID value))) "run_id is invalid" |>>
  reject (negb (validName (lr_Profile value))) "profile is invalid" |>>
  reject (negb (validName (lr_Workflow value))) "workflow is invalid" |>>
  reject (negb (validName (lr_Retention value))) "retention is invalid" |>>
  reject (negb (lr_Backend value =? "") && negb (validName (lr_Backend value))) "backend is invalid" |>>
  reject ((MaxPromptBytes <? len (lr_Prompt value))%Z || has_nul (lr_Prompt value)
          || negb (ValidString (lr_Prompt value))) "prompt is invalid" |>>
  reject (negb (lr_SourceURL value =? "") && negb (is_nil (ValidateSourceURL (lr_SourceURL value))))
    "source_url is invalid".

Definition ValidateAuthorizationContext (value : AuthorizationContext) : result string unit :=
  let msg := "authorization context is invalid" in
  reject (negb (is_nil (validatePrincipal (ac_Principal value)))) msg |>>
  reject ((size (ac_Selections value) =? 0)%Z || (MaxProfiles <? size (ac_Selections value))%Z) msg |>>
  each_seen (fun seen selection =>
    reject (negb (validName (as_Profile selection)) || (size (as_Workflows selection) =? 0)%Z
            || (MaxWorkflows <? size (as_Workflows selection))%Z) msg |>>
    reject (mem (as_Profile selection) (map as_Profile seen)) msg |>>
    reject (negb (is_nil (validateUniqueStrings (elems (as_Workflows selection)) validName))) msg)
    [] (elems (ac_Selections value)).

(** ** Runtime *)

Definition validateRuntimeSelection (value : Runtime) : result string unit :=
  if (rt_Model value =? "") && (rt_Effort value =? "") then Ok tt
  else if rt_Type value =? "codex" then
    reject (negb (rt_Effort value =? "") && negb (containsString ["minimal"; "low"; "medium"; "high"; "xhigh"] (rt_Effort value)))
      "runtime effort is unsupported for codex"
  else if rt_Type value =? "claude" then
    reject (negb (rt_Effort value =? "") && negb (containsString ["low"; "medium"; "high"; "xhigh"; "max"] (rt_Effort value)))
      "runtime effort is unsupported for claude"
  else Err "runtime model or effort selection is unsupported".

Definition validDockerSubnet (value : string) : bool :=
  match ParseCIDR value with
  | None => false
  | Some (ip, network, (ones, bits)) =>
      is_To4 ip && bool_decide (ip = network) && (bits =? 32)%Z && (16 <=? ones)%Z && (ones <=? 30)%Z
  end.

Definition validateRuntime (value : Runtime) : result string unit :=
  reject (negb (validProvider (rt_Type value))) "runtime type is invalid" |>>
  reject (negb (rt_Autonomy value =? "trusted-local") && negb (rt_Autonomy value =? "interactive")
          || negb (rt_User value =? "root") && negb (rt_User value =? "non-root"))
    "runtime autonomy or user is invalid" |>>
  reject (negb (rt_Model value =? "") && (negb (validBoundedText (rt_Model value) 256 false) || negb (trimmed (rt_Model value))))
    "runtime model is invalid" |>>
  validateRuntimeSelection value |>>
  match rt_Container value with
  | None => Ok tt
  | Some container =>
      reject ((maxRuntimeCapabilities <? size (rc_Capabilities container))%Z
              || negb (is_nil (validateUniqueStrings (elems (rc_Capabilities container))
                   (fun item => (len item <=? 64)%Z && re_match linuxCapabilityPattern item))))
        "runtime container capabilities are invalid"
  end |>>
  match rt_Docker value with
  | None => Ok tt
  | Some docker =>
      reject (maxDockerNetworks <? size (rd_RequiredNetworks docker))%Z "runtime Docker networks exceed their limit" |>>
      each_seen (fun seen network =>
        reject (negb (validName (dn_Name network)) || negb (validDockerSubnet (dn_Subnet network)))
          "runtime Docker network is invalid" |>>
        reject (mem (dn_Name network) (map dn_Name seen)) "runtime Docker network is duplicated")
        [] (elems (rd_RequiredNetworks docker))
  end.

(** ** The agent configuration *)

(** [consumeUniqueValue]: at most 64 levels deep, no repeated key in an
    object. *)
Fixpoint consumeUniqueValue (depth : Z) (v : json) : bool :=
  (depth <=? 64)%Z &&
  match v with
  | JObject members =>
      (fix unique (seen : list string) (ms : list (string * json)) : bool :=
         match ms with
         | [] => true
         | (k, x) :: ms' => negb (mem k seen) && consumeUniqueValue (depth + 1) x && unique (k :: seen) ms'
         end) [] members
  | JArray l => forallb (consumeUniqueValue (depth + 1)) l
  | _ => true
  end.

(** [rejectDuplicateKeys(data) == nil] *)
Definition rejectDuplicateKeys (data : string) : bool :=
  match json_document data with
  | Some v => consumeUniqueValue 0 v
  | None => false
  end.

Definition as_string (v : option json) : option string :=
  match v with Some (JString s) => Some s | _ => None end.

Definition as_object (v : option json) : option (list (string * json)) :=
  match v with Some (JObject m) => Some m | _ => None end.

(** [None] when the value is present and no array. *)
Definition optionalAnySlice (object : list (string * json)) (key : string) : option (list json) :=
  match json_get object key with
  | None => Some []
  | Some (JArray l) => Some l
  | Some _ => None
  end.

Definition validateCommand (command : string) (args : list json) : result string unit :=
  reject (negb (validBoundedText command maxCommandBytes false) || ContainsAny command (String "032" (String "009" ""))
          || (maxArguments <? Z.of_nat (length args))%Z) "invalid command" |>>
  each (fun raw =>
    match raw with
    | JString argument =>
        reject ((maxArgumentBytes <? len argument)%Z || has_nul argument || negb (ValidString argument))
          "invalid command argument"
    | _ => Err "invalid command argument"
    end) args.

Definition sensitiveEnvironmentName (name : string) : bool :=
  let upper := ToUpper name in
  existsb (fun segment =>
    (upper =? segment) || HasPrefix upper (segment ++ "_") || HasSuffix upper ("_" ++ segment)
    || Contains upper ("_" ++ segment ++ "_")) sensitiveEnvironmentSegments.

(** A command and its arguments in [object]. *)
Definition command_ok (object : list (string * json)) : bool :=
  match as_string (json_get object "command"), optionalAnySlice object "args" with
  | Some command, Some args => is_nil (validateCommand command args)
  | _, _ => false
  end.

Definition environment_ok (environment : list (string * json)) : bool :=
  (Z.of_nat (length environment) <=? maxEnvironmentVariables)%Z &&
  forallb (fun '(name, raw) =>
    match raw with
    | JString text =>
        (len name <=? 128)%Z && re_match environmentPattern name && (len text <=? maxEnvironmentValueBytes)%Z
        && negb (has_nul text) && negb (sensitiveEnvironmentName name)
    | _ => false
    end) environment.

Definition managedControllerPlugins : list string := ["git-host-credentials"; "git-credentials"; "checkout-repos"].

Definition validate_plugins (plugins : list json) : result string unit :=
  each (fun rawPlugin =>
    match rawPlugin with
    | JObject plugin =>
        match as_string (json_get plugin "name") with
        | Some name =>
            reject (name =? "") "agent_config plugins are invalid" |>>
            reject (mem name managedControllerPlugins) "agent_config contains a controller-owned plugin"
        | None => Err "agent_config plugins are invalid"
        end
    | _ => Err "agent_config plugins are invalid"
    end) plugins.

Definition present (object : list (string * json)) (key : string) : bool := bool_decide (is_Some (json_get object key)).

Definition validate_runtime_config (runtime : list (string * json)) : result string unit :=
  reject (present runtime "initial-prompt") "agent_config contains controller-owned initial prompt" |>>
  reject (present runtime "proxy") "agent_config contains controller-owned runtime proxy" |>>
  reject (negb (command_ok runtime)) "agent_config runtime command is invalid" |>>
  match json_get runtime "resume" with
  | None => Ok tt
  | Some (JObject resume) => reject (negb (command_ok resume)) "agent_config runtime resume is invalid"
  | Some _ => Err "agent_config runtime resume is invalid"
  end |>>
  match json_get runtime "env" with
  | None => Ok tt
  | Some (JObject environment) => reject (negb (environment_ok environment)) "agent_config runtime environment is invalid"
  | Some _ => Err "agent_config runtime environment is invalid"
  end.

Definition validateAgentConfig (value : string) : result string unit :=
  reject ((len value =? 0)%Z || (MaxAgentConfigBytes <? len value)%Z || negb (rejectDuplicateKeys value))
    "agent_config is invalid" |>>
  match json_document value with
  | Some (JObject root) =>
      reject (present root "egress") "agent_config contains controller-owned egress" |>>
      match json_get root "runtime" with
      | Some (JObject runtime) => validate_runtime_config runtime
      | _ => Err "agent_config runtime is invalid"
      end |>>
      match json_get root "plugins" with
      | None | Some JNull => Ok tt
      | Some (JArray plugins) => validate_plugins plugins
      | Some _ => Err "agent_config plugins are invalid"
      end
  | _ => Err "agent_config is invalid"
  end.

(** ** Lifecycle, resources, instructions *)

Definition validEventName (value : string) : bool := (len value <=? 256)%Z && re_match capabilityPattern value.

Definition validateLifecycle (value : Lifecycle) : result string unit :=
  reject ((maxLifecycleEvents <? size (lc_CompleteOn value))%Z || (maxLifecycleEvents <? size (lc_FailOn value))%Z
          || negb (is_nil (validateUniqueStrings (elems (lc_CompleteOn value)) validEventName))
          || negb (is_nil (validateUniqueStrings (elems (lc_FailOn value)) validEventName))) "lifecycle is invalid" |>>
  each (fun event => reject (mem event (elems (lc_CompleteOn value))) "lifecycle event has conflicting outcomes")
    (elems (lc_FailOn value)).

Definition validateResources (value : Resources) : result string unit :=
  reject (negb (rs_CPURequest value =? "") && negb (re_match cpuQuantityPattern (rs_CPURequest value)))
    "CPU request is invalid" |>>
  reject (negb (rs_CPULimit value =? "") && negb (re_match cpuQuantityPattern (rs_CPULimit value)))
    "CPU limit is invalid" |>>
  reject (negb (rs_MemoryRequest value =? "") && negb (re_match memoryQuantityPattern (rs_MemoryRequest value)))
    "memory request is invalid" |>>
  reject (negb (rs_MemoryLimit value =? "") && negb (re_match memoryQuantityPattern (rs_MemoryLimit value)))
    "memory limit is invalid".

Definition validateInstructions (value : string) : result string unit :=
  reject ((MaxWorkspaceInstructionsBytes <? len value)%Z || has_nul value || negb (ValidString value))
    "workspace instructions are invalid".

Definition validateEffective (image : string) (runtime : Runtime) (agentConfig : string)
    (resources : Resources) (lifecycle : Lifecycle) : result string unit :=
  reject ((image =? "") || (4096 <? len image)%Z || negb (trimmed image) || containsControl image) "image is invalid" |>>
  validateRuntime runtime |>>
  validateAgentConfig agentConfig |>>
  validateLifecycle lifecycle |>>
  validateResources resources.

(** ** Domain policy *)

Definition domain_forbidden : string :=
  "/" ++ String "092" ("@?#: " ++ String "009" (String "013" (String "010" "%"))).

Definition domain_rune (r : Z) : bool := in_range 97 122 r || in_range 48 57 r || (r =? 45)%Z.

Definition domain_label (label : string) : bool :=
  negb (len label =? 0)%Z && (len label <=? 63)%Z && negb (HasPrefix label "-") && negb (HasSuffix label "-")
  && all_runes domain_rune label.

Definition normalizedDomainPolicyEntry (value : string) : option string :=
  if (value =? "") || negb (trimmed value) || (254 <? len value)%Z || ContainsAny value domain_forbidden then None
  else
    let value := ToLower (TrimSuffix value ".") in
    if bool_decide (is_Some (ParseIP value)) then None
    else if (value =? "") || (253 <? len value)%Z then None
    else if forallb domain_label (Split value "."%char) then Some value
    else None.

(** An entry that does not normalize yields the empty string. *)
Definition rule_matches (normalized rule : string) : bool :=
  let normalizedRule := default "" (normalizedDomainPolicyEntry rule) in
  (normalized =? normalizedRule) || HasSuffix normalized ("." ++ normalizedRule).

Definition domainPolicyAllows (policy : DomainPolicy) (host : string) : bool :=
  match normalizedDomainPolicyEntry host with
  | None => dp_DefaultAction policy =? "allow"
  | Some normalized =>
      if existsb (rule_matches normalized) (elems (dp_Deny policy)) then false
      else if existsb (rule_matches normalized) (elems (dp_Allow policy)) then true
      else dp_DefaultAction policy =? "allow"
  end.

Definition validateDomainPolicy (policy : option DomainPolicy) : result string unit :=
  match policy with
  | None => Ok tt
  | Some policy =>
      reject (negb (dp_DefaultAction policy =? "allow") && negb (dp_DefaultAction policy =? "deny"))
        "egress domain policy default action is invalid" |>>
      reject ((maxGrantValues <? size (dp_Allow policy))%Z || (maxGrantValues <? size (dp_Deny policy))%Z)
        "egress domain policy exceeds its limit" |>>
      each (fun entries =>
        each_seen (fun seen entry =>
          match normalizedDomainPolicyEntry entry with
          | None => Err "egress domain policy entry is invalid or duplicated"
          | Some normalized =>
              reject (mem normalized (map (fun e => default "" (normalizedDomainPolicyEntry e)) seen))
                "egress domain policy entry is invalid or duplicated"
          end) [] entries) [elems (dp_Allow policy); elems (dp_Deny policy)]
  end.

Definition egressHostName (value : string) : string :=
  match SplitHostPort value with Some (host, _) => host | None => value end.

(** ** Repositories *)

Definition validRepositoryID (value : string) : bool :=
  negb ((len value =? 0)%Z || (1024 <? len value)%Z || negb (value =? Trim value "/") || containsControl value
        || Contains value "//") &&
  (2 <=? Z.of_nat (length (Split value "/"%char)))%Z &&
  forallb (fun segment => negb ((segment =? "") || (segment =? ".") || (segment =? "..")
                                || ContainsAny segment ("?#@" ++ String "092" "")))
    (Split value "/"%char).

Definition validRepositoryPattern (value : string) : bool :=
  if HasSuffix value "/*" then validRepositoryID (TrimSuffix value "/*" ++ "/repository")
  else validRepositoryID value.

Definition pattern_covers (repository pattern : string) : bool :=
  (pattern =? repository) || HasSuffix pattern "/*" && HasPrefix repository (TrimSuffix pattern "*").

Definition patternsContain (patterns : list string) (repository : string) : bool :=
  existsb (pattern_covers repository) patterns.

Definition hasDotPathSegment (value : string) : bool :=
  existsb (fun segment => (segment =? "") || (segment =? ".") || (segment =? "..")) (Split value "/"%char).

(** [parsed.Host != parsed.Hostname()] and a port that is no port number. *)
Definition bad_port (parsed : URL) : bool :=
  negb (Host parsed =? Hostname parsed) &&
  match Atoi (Port parsed) with
  | Some port => (port <? 1)%Z || (65535 <? port)%Z
  | None => true
  end.

Definition repositoryTargetFromURL (value : string) : string :=
  if (len value =? 0)%Z || (4096 <? len value)%Z || containsControl value then ""
  else match url_Parse value with
  | None => ""
  | Some parsed =>
      if negb (Scheme parsed =? "https") || (Host parsed =? "") || negb (Host parsed =? ToLower (Host parsed))
         || bool_decide (is_Some (User parsed)) || negb (RawQuery parsed =? "") || negb (Fragment parsed =? "")
         || negb (RawPath parsed =? "") || Contains (EscapedPath parsed) "%" || (Path parsed =? "")
         || (Path parsed =? "/") || HasSuffix (Path parsed) "/" || hasDotPathSegment (TrimPrefix (Path parsed) "/")
         || bool_decide (is_Some (ParseIP (Hostname parsed)))
      then ""
      else if bad_port parsed then ""
      else
        let identifier := Host parsed ++ TrimSuffix (Path parsed) ".git" in
        if validRepositoryID identifier then identifier else ""
  end.

Definition validCheckoutPath (value : string) : bool :=
  if value =? "" then true
  else (len value <=? 1024)%Z && (value =? Trim value "/") && negb (HasPrefix value "/")
       && negb (hasDotPathSegment value) && negb (containsControl value) && negb (Contains value (String "092" "")).

Definition validEgressHost (value : string) : bool :=
  if (len value =? 0)%Z || (512 <? len value)%Z || negb (value =? ToLower value) || containsControl value
     || Contains value "://" then false
  else match url_Parse ("https://" ++ value) with
  | None => false
  | Some parsed =>
      if bool_decide (is_Some (User parsed)) || negb (Path parsed =? "") || negb (RawQuery parsed =? "")
         || negb (Fragment parsed =? "") || (Hostname parsed =? "") then false
      else if bool_decide (is_Some (ParseIP (Hostname parsed))) then false
      else negb (bad_port parsed)
  end.

Definition validCredentialUsername (value : string) : bool :=
  (len value <=? 256)%Z && trimmed value && negb (containsControl value).

Definition validateRepositoryIdentity (identity : option RepositoryIdentity) : result string unit :=
  match identity with
  | None => Ok tt
  | Some identity =>
      if ri_Mode identity =? "provider" then
        reject (negb (ri_Name identity =? "") || negb (ri_Email identity =? ""))
          "provider repository identity contains explicit fields"
      else if ri_Mode identity =? "explicit" then
        reject (negb (validBoundedText (ri_Name identity) 512 false) || negb (validBoundedText (ri_Email identity) 512 false))
          "explicit repository identity is invalid"
      else Err "repository identity mode is invalid"
  end.

(** ** Broker and egress *)

Definition isTunnelTransport (transport : string) : bool :=
  (transport =? "forward-proxy") || (transport =? "transparent").

Definition validate_grant (seen : list BrokerGrant) (grant : BrokerGrant) : result string unit :=
  reject (negb (validProvider (g_Provider grant))) "broker grant provider is invalid" |>>
  reject (mem (g_Provider grant) (map g_Provider seen)) "broker grant provider is duplicated" |>>
  reject ((maxGrantValues <? size (g_Repositories grant))%Z || (maxGrantValues <? size (g_Resources grant))%Z
          || (maxGrantValues <? size (g_Capabilities grant))%Z || (maxGrantValues <? size (g_Preparations grant))%Z
          || (maxGrantValues <? size (g_EgressHosts grant))%Z
          || (maxGrantValues <? Z.of_nat (base.size (default ∅ (g_Permissions grant))))%Z)
    "broker grant exceeds its limit" |>>
  reject (negb (is_nil (validateUniqueStrings (elems (g_Repositories grant)) validRepositoryPattern)))
    "broker grant repositories are invalid" |>>
  reject (negb (is_nil (validateUniqueStrings (elems (g_Resources grant)) (fun value => validBoundedText value 4096 false))))
    "broker grant resources are invalid" |>>
  reject (negb (is_nil (validateUniqueStrings (elems (g_Capabilities grant)) validCapability)))
    "broker grant capabilities are invalid" |>>
  reject (negb (is_nil (validateUniqueStrings (elems (g_Preparations grant)) validCapability)))
    "broker grant preparations are invalid" |>>
  reject (negb (is_nil (validateUniqueStrings (elems (g_EgressHosts grant)) validEgressHost)))
    "broker grant egress hosts are invalid" |>>
  each (fun '(permission, access) =>
    reject (negb (validCapability permission) || negb (access =? "read") && negb (access =? "write"))
      "broker grant permissions are invalid") (map_to_list (default ∅ (g_Permissions grant))) |>>
  match g_Authorization grant with
  | None => Ok tt
  | Some authorization =>
      reject (negb (ga_DefaultAction authorization =? "allow") && negb (ga_DefaultAction authorization =? "deny"))
        "broker grant authorization default action is invalid" |>>
      reject (maxGrantValues <? size (ga_Rules authorization))%Z "broker grant authorization exceeds its limit" |>>
      each (fun rule =>
        reject ((ar_Operation rule =? "") || (4096 <? len (ar_Operation rule))%Z || negb (ValidString (ar_Operation rule))
                || (ar_Resource rule =? "") || (8192 <? len (ar_Resource rule))%Z || negb (ValidString (ar_Resource rule)))
          "broker grant authorization rule is invalid") (elems (ga_Rules authorization))
  end |>>
  match g_Quota grant with
  | None => Ok tt
  | Some quota => reject ((gq_Requests quota <? 1)%Z || (1000000000 <? gq_Requests quota)%Z) "broker grant quota is invalid"
  end |>>
  reject (g_Git grant && (negb (g_Materialization grant =? "header-inject") || g_AllowInsecureUpstream grant))
    "git broker grant policy is invalid" |>>
  reject (negb (mem (g_Materialization grant) ["file-bundle"; "header-inject"; "placeholder-file"]))
    "broker grant materialization is invalid".

Definition validate_direct (grants : list BrokerGrant) (egress : Egress) : result string unit :=
  reject (negb (e_Transport egress =? "") || e_Enforced egress || negb (e_ProxyProvider egress =? "")
          || e_PairedEgressRequired egress || negb (e_MaxConcurrentTunnels egress =? 0)%Z
          || bool_decide (is_Some (e_DomainPolicy egress))) "direct egress contains mediated policy" |>>
  each (fun grant => reject (negb (g_Materialization grant =? "file-bundle")) "direct egress contains a mediated broker grant")
    grants.

Definition validate_transport (egress : Egress) : result string unit :=
  if e_Transport egress =? "redirect" then
    reject (negb (e_ProxyProvider egress =? "") || negb (e_MaxConcurrentTunnels egress =? 0)%Z
            || bool_decide (is_Some (e_DomainPolicy egress))) "mediated redirect contains tunnel policy"
  else if isTunnelTransport (e_Transport egress) then
    reject (negb (e_Enforced egress) || (e_ProxyProvider egress =? ""))
      "mediated tunnel transport lacks enforcement or proxy provider"
  else Err "mediated egress transport is invalid".

Definition validate_mediated_grant (egress : Egress) (grant : BrokerGrant) : result string unit :=
  reject (negb (g_Materialization grant =? "header-inject") && negb (g_Materialization grant =? "placeholder-file"))
    "mediated egress contains a non-mediated broker grant" |>>
  reject ((g_Materialization grant =? "header-inject") && (size (g_EgressHosts grant) =? 0)%Z)
    "mediated egress grant has no bounded host" |>>
  if isTunnelTransport (e_Transport egress) then
    each (fun value =>
      match e_DomainPolicy egress with
      | Some policy => reject (negb (domainPolicyAllows policy (egressHostName value)))
                         "mediated injection host is denied by domain policy"
      | None => Ok tt
      end) (elems (g_EgressHosts grant))
  else Ok tt.

Definition validate_mediated (grants : list BrokerGrant) (egress : Egress) : result string unit :=
  reject (negb (e_PairedEgressRequired egress)) "mediated egress lacks its paired identity" |>>
  validate_transport egress |>>
  reject (negb (e_ProxyProvider egress =? "") && negb (mem (e_ProxyProvider egress) (map g_Provider grants)))
    "mediated egress proxy provider is not granted" |>>
  reject (negb (e_MaxConcurrentTunnels egress =? 0)%Z && negb (isTunnelTransport (e_Transport egress)))
    "mediated egress tunnel limit requires a tunnel transport" |>>
  each (validate_mediated_grant egress) grants |>>
  reject ((e_Transport egress =? "redirect")
          && negb (existsb (fun grant => g_Materialization grant =? "header-inject") grants))
    "mediated redirect has no header-injection route" |>>
  reject (isTunnelTransport (e_Transport egress)
          && negb (existsb (fun grant => negb (size (g_EgressHosts grant) =? 0)%Z) grants))
    "mediated tunnel transport has no injection route".

Definition validateBrokerAndEgress (broker : Broker) (egress : Egress) : result string unit :=
  let grants := elems (b_Grants broker) in
  reject (MaxBrokerGrants <? size (b_Grants broker))%Z "broker grants exceed their limit" |>>
  each_seen validate_grant [] grants |>>
  reject ((e_MaxConcurrentTunnels egress <? 0)%Z || (4096 <? e_MaxConcurrentTunnels egress)%Z)
    "egress tunnel limit is invalid" |>>
  validateDomainPolicy (e_DomainPolicy egress) |>>
  if e_Mode egress =? "direct" then validate_direct grants egress
  else if e_Mode egress =? "mediated" then validate_mediated grants egress
  else Err "egress mode is invalid".

(** ** Credential mappings and checkouts *)

(** [path.Base] *)
Definition path_Base (path : string) : string :=
  if path =? "" then "."
  else
    let stripped := trim_right (one_of "/") path in
    let base := match cut_last stripped "/"%char with Some (_, b) => b | None => stripped end in
    if base =? "" then "/" else base.

(** [providers[name]] and [aliases[name]], filled in order. *)
Definition find_grant (grants : list BrokerGrant) (provider : string) : option BrokerGrant :=
  List.find (fun grant => g_Provider grant =? provider) (rev grants).

Definition find_mapping (mappings : list CredentialProviderMapping) (name : string) : option CredentialProviderMapping :=
  List.find (fun mapping => cp_Name mapping =? name) (rev mappings).

Definition validate_mapping (grants : list BrokerGrant) (egress : Egress) (seen : list CredentialProviderMapping)
    (mapping : CredentialProviderMapping) : result string unit :=
  reject (negb (validProvider (cp_Name mapping)) || negb (validProvider (cp_BrokerProvider mapping))
          || (maxPatternsPerProvider <? size (cp_MatchTargets mapping))%Z
          || negb (mem (cp_CredentialKind mapping) [""; "token"; "headers"; "mediated"]))
    "credential provider mapping is invalid" |>>
  reject (mem (cp_Name mapping) (map cp_Name seen)) "credential provider mapping is duplicated" |>>
  match find_grant grants (cp_BrokerProvider mapping) with
  | None => Err "credential provider mapping references an ungranted provider"
  | Some grant =>
      let mediatedGit := (e_Mode egress =? "mediated") && (g_Materialization grant =? "header-inject") && g_Git grant in
      reject (negb (Bool.eqb (cp_CredentialKind mapping =? "mediated") mediatedGit))
        "credential provider kind does not match its git transport" |>>
      reject (negb (is_nil (validateUniqueStrings (elems (cp_MatchTargets mapping)) validRepositoryPattern)))
        "credential provider match targets are invalid"
  end.

Definition effective_path (repository : Repository) : string :=
  if rp_Path repository =? "" then path_Base (TrimSuffix (rp_CheckoutTarget repository) ".git") else rp_Path repository.

(** What a repository with a credential provider must satisfy. *)
Definition validate_authorized (grants : list BrokerGrant) (egress : Egress) (mappings : list CredentialProviderMapping)
    (repository : Repository) : result string unit :=
  match find_mapping mappings (rp_CredentialProvider repository) with
  | None => Err "workflow repository is not authorized by its credential mapping"
  | Some mapping =>
      reject (negb (patternsContain (elems (cp_MatchTargets mapping)) (rp_CheckoutTarget repository)))
        "workflow repository is not authorized by its credential mapping" |>>
      let grant := find_grant grants (cp_BrokerProvider mapping) in
      let materialization := default "" (g_Materialization <$> grant) in
      let git := default false (g_Git <$> grant) in
      reject (negb (patternsContain (default [] (elems ∘ g_Repositories <$> grant)) (rp_BrokerRepository repository)))
        "workflow repository is not authorized by its broker grant" |>>
      reject ((e_Mode egress =? "mediated")
              && (negb (materialization =? "header-inject") || negb git || negb (cp_CredentialKind mapping =? "mediated")))
        "mediated repository lacks a mediated git credential path" |>>
      reject (bool_decide (ri_Mode <$> rp_Identity repository = Some "provider") && e_Enforced egress
              && negb (containsString (default [] (elems ∘ g_Preparations <$> grant)) "identity"))
        "enforced provider identity lacks trusted preparation"
  end.

Definition validate_repository (grants : list BrokerGrant) (egress : Egress) (mappings : list CredentialProviderMapping)
    (seen : list Repository) (repository : Repository) : result string unit :=
  let anonymous := rp_CredentialProvider repository =? "" in
  reject (negb (validRepositoryID (rp_CheckoutTarget repository))
          || negb (repositoryTargetFromURL (rp_URL repository) =? rp_CheckoutTarget repository)
          || negb (rp_Upstream repository =? "") && (repositoryTargetFromURL (rp_Upstream repository) =? "")
          || negb (validCheckoutPath (rp_Path repository))
          || anonymous && negb (rp_BrokerRepository repository =? "")
          || anonymous && negb (rp_CredentialUsername repository =? "")
          || anonymous && bool_decide (is_Some (rp_Identity repository))
          || negb anonymous && negb (validRepositoryID (rp_BrokerRepository repository))
          || negb (rp_CredentialUsername repository =? "") && negb (validCredentialUsername (rp_CredentialUsername repository))
          || negb (is_nil (validateRepositoryIdentity (rp_Identity repository)))) "workflow repository is invalid" |>>
  reject (mem (rp_CheckoutTarget repository) (map rp_CheckoutTarget seen)) "workflow repository is duplicated" |>>
  reject (mem (effective_path repository) (map effective_path seen)) "workflow checkout path is duplicated" |>>
  if anonymous then Ok tt else validate_authorized grants egress mappings repository.

Definition validateMappingsAndRepositories (mappings : list CredentialProviderMapping) (repositories : list Repository)
    (broker : Broker) (egress : Egress) : result string unit :=
  let grants := elems (b_Grants broker) in
  each_seen (validate_mapping grants egress) [] mappings |>>
  each_seen (validate_repository grants egress mappings) [] repositories.

Definition validDefaultCredentialProvider (name : string) (mappings : list CredentialProviderMapping) : bool :=
  if name =? "" then true
  else validProvider name && existsb (fun mapping => cp_Name mapping =? name) mappings.

(** ** Resolved runs *)

Definition ValidateResolvedAgentRun (value : ResolvedAgentRun) : result string unit :=
  reject (negb (rr_ContractVersion value =? ContractVersion)) "contract_version is unsupported" |>>
  ValidateLocalRunRequest (mkLocalRunRequest (rr_RunID value) (rr_Profile value) (rr_Workflow value)
    (rr_Retention value) (xb_Name (rr_Execution value)) (rr_Prompt value) (rr_SourceURL value)) |>>
  validatePrincipal (rr_Principal value) |>>
  reject (negb (validName (xb_Kind (rr_Execution value)))) "execution kind is invalid" |>>
  validateEffective (rr_Image value) (rr_Runtime value) (rr_AgentConfig value) (rr_Resources value) (rr_Lifecycle value) |>>
  reject ((MaxRepositories <? size (rr_Repositories value))%Z
          || (MaxCredentialProviderMappings <? size (rr_CredentialProviders value))%Z)
    "resolved repository configuration exceeds its limit" |>>
  validateBrokerAndEgress (rr_Broker value) (rr_Egress value) |>>
  validateMappingsAndRepositories (elems (rr_CredentialProviders value)) (elems (rr_Repositories value))
    (rr_Broker value) (rr_Egress value) |>>
  reject (negb (validDefaultCredentialProvider (rr_DefaultCredentialProvider value) (elems (rr_CredentialProviders value))))
    "default credential provider is invalid" |>>
  reject (negb (is_nil (validateInstructions (wi_Profile (rr_WorkspaceInstructions value)))))
    "profile workspace instructions are invalid" |>>
  reject (negb (is_nil (validateInstructions (wi_Workflow (rr_WorkspaceInstructions value)))))
    "workflow workspace instructions are invalid" |>>
  reject (negb (validateTTL (rr_TTL value))) "TTL is invalid".
