(* ===== verification/Decode.v ===== *)
(** * Decoding of resolved runs (protocol/resolvedrun/decode.go)

    The strict decoder: size bound, no repeated keys, no trailing data, then
    the validation of the decoded value.  Which struct value [encoding/json]
    reads from a document and which document it writes for a struct value is
    reflection over the contract's types: the interface [SnapshotCodec].
    [Compact] is what marshalling does to an embedded [json.RawMessage]. *)
From stdpp Require Import base list strings gmap.
From Stdlib Require Import ZArith Lia Ascii.
From S2P Require Import Prelude GoStrings GoUrl GoJson Contract Validation.


Local Open Scope Z_scope.
Local Open Scope string_scope.

Class SnapshotCodec := {
  (** [decoder.Decode(&result)] of a [ResolvedAgentRun], unknown fields
      disallowed; [None] is its error. *)
  Unmarshal : string -> option ResolvedAgentRun;
  (** [json.Marshal] of a resolved run; [None] is its error. *)
  Marshal : ResolvedAgentRun -> option string
}.

(** [decodeStrict]; the end of the input is checked with the keys. *)
Definition decodeStrict {T} (unmarshal : string -> option T) (data : string) (maximum : Z) : option T :=
  if (len data =? 0)%Z || (maximum <? len data)%Z then None
  else if negb (rejectDuplicateKeys data) then None
  else unmarshal data.

Definition DecodeResolvedAgentRun `{SnapshotCodec} (data : string) : option ResolvedAgentRun :=
  match decodeStrict Unmarshal data MaxDocumentBytes with
  | Some result => if is_nil (ValidateResolvedAgentRun result) then Some result else None
  | None => None
  end.

(** ** What marshalling keeps *)

(** An embedded message loses the white space between its tokens; in its
    strings [<], [>], [&] and the separators U+2028 and U+2029 are escaped. *)
Fixpoint compact (in_string : bool) (s : string) : string :=
  match s with
  | EmptyString => ""
  | String c rest =>
      if in_string then
        if (c =? backslash)%char then
          match rest with
          | String e rest' => String c (String e (compact true rest'))
          | EmptyString => String c ""
          end
        else if (c =? dquote)%char then String c (compact false rest)
        else if (c =? "<")%char then String backslash ("u003c" ++ compact true rest)
        else if (c =? ">")%char then String backslash ("u003e" ++ compact true rest)
        else if (c =? "&")%char then String backslash ("u0026" ++ compact true rest)
        else if HasPrefix s (String "226" (String "128" (String "168" ""))) then
          match rest with
          | String _ (String _ rest') => String backslash ("u2028" ++ compact true rest')
          | _ => ""
          end
        else if HasPrefix s (String "226" (String "128" (String "169" ""))) then
          match rest with
          | String _ (String _ rest') => String backslash ("u2029" ++ compact true rest')
          | _ => ""
          end
        else String c (compact true rest)
      else if is_ws c then compact false rest
      else String c (compact (c =? dquote)%char rest)
  end.

Definition Compact (raw : string) : string := compact false raw.

(** Marshalling omits empty slices and maps (every one of the contract's is
    tagged [omitempty]), so decoding the result gives nil where the value had
    an empty slice, and gives the compacted agent configuration. *)
Definition omit {A} (s : slice A) : slice A :=
  match s with Some (x :: xs) => Some (x :: xs) | _ => None end.

Definition canonical_Runtime (r : Runtime) : Runtime :=
  mkRuntime (rt_Type r) (rt_Autonomy r) (rt_Model r) (rt_Effort r) (rt_User r)
    ((fun c => mkRuntimeContainer (omit (rc_Capabilities c))) <$> rt_Container r)
    ((fun d => mkRuntimeDocker (rd_KernelLogDevice d) (omit (rd_RequiredNetworks d))) <$> rt_Docker r).

Definition canonical_Mapping (m : CredentialProviderMapping) : CredentialProviderMapping :=
  mkCredentialProviderMapping (cp_Name m) (cp_BrokerProvider m) (cp_CredentialKind m)
    (omit (cp_MatchTargets m)).

Definition canonical_Grant (g : BrokerGrant) : BrokerGrant :=
  mkBrokerGrant (g_Provider g) (omit (g_Repositories g)) (omit (g_Resources g))
    (omit (g_Capabilities g)) (omit (g_Preparations g)) (g_Materialization g)
    (omit (g_EgressHosts g)) (g_Git g)
    (match g_Permissions g with
     | Some m => if decide (m = ∅) then None else Some m
     | None => None
     end)
    ((fun a => mkBrokerGrantAuthorization (ga_DefaultAction a) (omit (ga_Rules a))) <$> g_Authorization g)
    (g_Quota g) (g_AllowInsecureUpstream g).

Definition canonical_Egress (e : Egress) : Egress :=
  mkEgress (e_Mode e) (e_Transport e) (e_Enforced e) (e_ProxyProvider e)
    (e_PairedEgressRequired e) (e_AllowInsecureBroker e) (e_MaxConcurrentTunnels e)
    ((fun p => mkDomainPolicy (dp_DefaultAction p) (omit (dp_Allow p)) (omit (dp_Deny p)))
       <$> e_DomainPolicy e).

(** The value decoding gives back for a marshalled run. *)
Definition canonical (r : ResolvedAgentRun) : ResolvedAgentRun :=
  mkResolvedAgentRun (rr_ContractVersion r) (rr_RunID r) (rr_Principal r) (rr_SourceURL r)
    (rr_Profile r) (rr_Workflow r) (rr_Image r) (canonical_Runtime (rr_Runtime r))
    (Compact (rr_AgentConfig r)) (rr_Prompt r) (omit (rr_Repositories r))
    (omit (map canonical_Mapping <$> rr_CredentialProviders r))
    (rr_DefaultCredentialProvider r)
    (mkBroker (omit (map canonical_Grant <$> b_Grants (rr_Broker r))))
    (canonical_Egress (rr_Egress r)) (rr_WorkspaceInstructions r) (rr_Resources r)
    (rr_Persistence r) (rr_Retention r) (rr_TTL r)
    (mkLifecycle (omit (lc_CompleteOn (rr_Lifecycle r))) (omit (lc_FailOn (rr_Lifecycle r))))
    (rr_Execution r).

(** ** Compaction is idempotent *)

Definition separator (last : ascii) : string := String "226" (String "128" (String last "")).

Lemma prefix_cons p ps c s : HasPrefix (String c s) (String p ps) = true <-> p = c /\ HasPrefix s ps = true.
Proof. unfold HasPrefix. cbn. destruct (Ascii.ascii_dec p c); split; [auto|by intros [_ ?]|done|by intros [? _]]. Qed.

Lemma prefix_nil s : HasPrefix s "" = true.
Proof. by destruct s. Qed.

(** A byte beyond ASCII other than the separators' first one is copied. *)
Lemma compact_copied d s r :
  d = "128"%char \/ d = "168"%char \/ d = "169"%char ->
  compact true s = String d r -> exists s', s = String d s' /\ r = compact true s'.
Proof.
  intros Hd. destruct s as [|c s]; [done|]. cbn [compact].
  destruct (Ascii.eqb_spec c backslash) as [->|]; [by destruct s; intros [= <- _]; destruct Hd as [|[|]]|].
  destruct (Ascii.eqb_spec c dquote) as [->|]; [by intros [= <- _]; destruct Hd as [|[|]]|].
  destruct (c =? "<")%char; [by intros [= <- _]; destruct Hd as [|[|]]|].
  destruct (c =? ">")%char; [by intros [= <- _]; destruct Hd as [|[|]]|].
  destruct (c =? "&")%char; [by intros [= <- _]; destruct Hd as [|[|]]|].
  destruct (HasPrefix _ _); [by destruct s as [|? [|? ?]]; try done; intros [= <- _]; destruct Hd as [|[|]]|].
  destruct (HasPrefix _ _); [by destruct s as [|? [|? ?]]; try done; intros [= <- _]; destruct Hd as [|[|]]|].
  intros [= -> <-]. by exists s.
Qed.

Lemma separator_compact last c s :
  last = "168"%char \/ last = "169"%char ->
  HasPrefix (String c s) (separator last) = false ->
  HasPrefix (String c (compact true s)) (separator last) = false.
Proof.
  intros Hl. rewrite <- !not_true_iff_false. intros Hn H. apply Hn. unfold separator in *.
  apply prefix_cons in H as [-> H]. destruct (compact true s) as [|d r] eqn:E; [done|].
  apply prefix_cons in H as [<- H]. apply compact_copied in E as (s' & -> & ->); [|by left].
  destruct (compact true s') as [|d r] eqn:E; [done|]. apply prefix_cons in H as [<- _].
  apply compact_copied in E as (s'' & -> & ->); [|by right].
  apply prefix_cons. split; [done|]. apply prefix_cons. split; [done|]. apply prefix_cons. split; [done|apply prefix_nil].
Qed.

(** A byte no rule applies to is copied. *)
Definition plain (x : ascii) : bool :=
  negb (one_of (String backslash (String dquote "<>&")) x) && negb (x =? "226")%char.

Lemma compact_plain x r : plain x = true -> compact true (String x r) = String x (compact true r).
Proof.
  unfold plain. cbn [one_of mem_byte]. intros H. apply andb_true_iff in H as [H1 H2].
  unfold one_of in H1. cbn [mem_byte] in H1. rewrite !negb_true_iff, !orb_false_iff in H1.
  destruct H1 as (N1 & N2 & N3 & N4 & N5 & _). cbn [compact]. rewrite N1, N2, N3, N4, N5.
  apply negb_true_iff, Ascii.eqb_neq in H2.
  assert (Hp : forall ps, HasPrefix (String x r) (String "226" ps) = false); [|by rewrite !Hp].
  intros ps. destruct (HasPrefix _ _) eqn:E; [|done]. apply prefix_cons in E as [K _]. congruence.
Qed.

Lemma compact_idem b s : compact b (compact b s) = compact b s.
Proof.
  revert b. induction s as [s IH] using str_len_ind. intros b. destruct s as [|c s]; [done|]. cbn [compact].
  destruct b.
  2: { destruct (is_ws c) eqn:Ew; [apply IH; cbn; lia|]. cbn [compact]. rewrite Ew. f_equal. apply IH. cbn; lia. }
  destruct (Ascii.eqb_spec c backslash) as [->|N1].
  { destruct s as [|e s]; [done|]. cbn [compact]. rewrite Ascii.eqb_refl. do 2 f_equal. apply IH. cbn; lia. }
  destruct (Ascii.eqb_spec c dquote) as [->|N2].
  { cbn [compact]. rewrite Ascii.eqb_refl. change (dquote =? backslash)%char with false. cbn. f_equal. apply IH. cbn; lia. }
  assert (Hesc : forall s' a1 a2 a3 a4, (slen s' < slen (String c s))%nat ->
    forallb plain [a1; a2; a3; a4] = true ->
    compact true (String backslash (String "u" (String a1 (String a2 (String a3 (String a4 (compact true s')))))))
    = String backslash (String "u" (String a1 (String a2 (String a3 (String a4 (compact true s'))))))).
  { intros s' a1 a2 a3 a4 Hs Ha. cbn [forallb] in Ha. rewrite !andb_true_iff in Ha.
    destruct Ha as (A1 & A2 & A3 & A4 & _).
    change (String backslash (String "u" (compact true (String a1 (String a2 (String a3 (String a4 (compact true s')))))))
      = String backslash (String "u" (String a1 (String a2 (String a3 (String a4 (compact true s'))))))).
    rewrite !compact_plain by done. by rewrite IH. }
  destruct (Ascii.eqb_spec c "<") as [->|N3]; [apply Hesc; [cbn; lia|done]|].
  destruct (Ascii.eqb_spec c ">") as [->|N4]; [apply Hesc; [cbn; lia|done]|].
  destruct (Ascii.eqb_spec c "&") as [->|N5]; [apply Hesc; [cbn; lia|done]|].
  destruct (HasPrefix (String c s) (String "226" (String "128" (String "168" "")))) eqn:P1.
  { destruct s as [|d1 [|d2 s]]; [done|done|]. apply Hesc; [cbn; lia|done]. }
  destruct (HasPrefix (String c s) (String "226" (String "128" (String "169" "")))) eqn:P2.
  { destruct s as [|d1 [|d2 s]]; [done|done|]. apply Hesc; [cbn; lia|done]. }
  cbn [compact]. rewrite (proj2 (Ascii.eqb_neq c backslash)), (proj2 (Ascii.eqb_neq c dquote)),
    (proj2 (Ascii.eqb_neq c "<")), (proj2 (Ascii.eqb_neq c ">")), (proj2 (Ascii.eqb_neq c "&")) by done.
  pose proof (separator_compact "168" c s (or_introl eq_refl) P1) as Q1.
  pose proof (separator_compact "169" c s (or_intror eq_refl) P2) as Q2. unfold separator in Q1, Q2.
  rewrite Q1, Q2. f_equal. apply IH. cbn; lia.
Qed.

(** ** Canonical values *)

Lemma omit_idem {A} (s : slice A) : omit (omit s) = omit s.
Proof. by destruct s as [[|]|]. Qed.

Lemma omit_map_idem {A} (f : A -> A) (s : option (list A)) :
  (forall a, f (f a) = f a) -> omit (map f <$> (omit (map f <$> s) : option (list A))) = omit (map f <$> s).
Proof.
  intros Hf. destruct s as [[|a s]|]; cbn; try done. rewrite Hf, map_map. do 2 f_equal.
  apply map_ext, Hf.
Qed.

Lemma canonical_Mapping_idem m : canonical_Mapping (canonical_Mapping m) = canonical_Mapping m.
Proof. unfold canonical_Mapping. cbn. by rewrite omit_idem. Qed.

Lemma canonical_Grant_idem g : canonical_Grant (canonical_Grant g) = canonical_Grant g.
Proof.
  unfold canonical_Grant. cbn. rewrite !omit_idem. f_equal.
  - destruct (g_Permissions g) as [m|]; [|done]. destruct (decide (m = ∅)) as [E|E]; [done|].
    destruct (decide (m = ∅)) as [E'|E']; [done|done].
  - destruct (g_Authorization g); cbn; [|done]. by rewrite omit_idem.
Qed.

(** Marshalling a decoded document again changes nothing. *)
Lemma canonical_idem x : canonical (canonical x) = canonical x.
Proof.
  unfold canonical, Compact. cbn. rewrite compact_idem, !omit_idem, (omit_map_idem _ _ canonical_Mapping_idem),
    (omit_map_idem _ _ canonical_Grant_idem). f_equal.
  - unfold canonical_Runtime. cbn. f_equal.
    + destruct (rt_Container (rr_Runtime x)); cbn; by rewrite ?omit_idem.
    + destruct (rt_Docker (rr_Runtime x)); cbn; by rewrite ?omit_idem.
  - unfold canonical_Egress. cbn. f_equal. destruct (e_DomainPolicy (rr_Egress x)); cbn; by rewrite ?omit_idem.
Qed.
