(* ===== verification/Resolver.v ===== *)
(** * Resolution of run requests (protocol/resolvedrun/resolver.go)

    [NewResolver] checks an administrator's configuration once; [Resolve]
    turns an authorized request into a resolved run.  [clone] marshals a value
    and decodes it again: empty slices become nil, raw messages are compacted,
    and invalid UTF-8 is replaced (only a credential username can hold any at
    that point, every other string has been validated). *)
From stdpp Require Import base list strings gmap.
From Stdlib Require Import ZArith Lia Ascii.
From S2P Require Import Prelude GoStrings GoUrl GoJson Contract Validation Decode.


Local Open Scope Z_scope.
Local Open Scope go_scope.
Local Open Scope string_scope.

Inductive resolver_error : Type :=
  | ErrInvalidConfiguration
  | ErrInvalidRunRequest
  | ErrUnknownProfile
  | ErrUnknownWorkflow
  | ErrSelectionDenied
  | ErrInvalidRenderBinding.

(** ** Clones *)

Definition clone_Lifecycle (l : Lifecycle) : Lifecycle := mkLifecycle (omit (lc_CompleteOn l)) (omit (lc_FailOn l)).

Definition clone_Repository (r : Repository) : Repository :=
  mkRepository (rp_CheckoutTarget r) (rp_BrokerRepository r) (rp_URL r) (rp_Path r) (rp_Upstream r)
    (rp_CredentialProvider r) (to_valid_utf8 (rp_CredentialUsername r)) (rp_Identity r).

Definition clone_Broker (b : Broker) : Broker := mkBroker (omit (map canonical_Grant <$> b_Grants b)).

Definition clone_Defaults (d : PlatformDefaults) : PlatformDefaults :=
  mkPlatformDefaults (pd_Image d) (canonical_Runtime (pd_Runtime d)) (Compact (pd_AgentConfig d)) (pd_Resources d)
    (clone_Lifecycle (pd_Lifecycle d)).

Definition clone_Workflow (w : Workflow) : Workflow :=
  mkWorkflow (wf_Name w) (omit (map clone_Repository <$> wf_Repositories w)) (wf_WorkspaceInstructions w)
    (clone_Lifecycle <$> wf_Lifecycle w).

Definition clone_Profile (p : Profile) : Profile :=
  mkProfile (pf_Name p) (pf_Image p) (canonical_Runtime <$> pf_Runtime p) (Compact (pf_AgentConfig p)) (pf_Resources p)
    (clone_Lifecycle <$> pf_Lifecycle p) (omit (map canonical_Mapping <$> pf_CredentialProviders p))
    (pf_DefaultCredentialProvider p) (clone_Broker (pf_Broker p)) (canonical_Egress (pf_Egress p))
    (pf_WorkspaceInstructions p) (pf_AllowedBackends p) (pf_DefaultBackend p) (pf_AllowedRetentions p).

(** ** The resolver *)

(** The maps of the resolver, in the order of the configuration: their keys
    are the names, which [NewResolver] has found distinct. *)
Record Resolver := mkResolver {
  rv_defaults : PlatformDefaults;
  rv_profiles : list Profile;
  rv_workflows : list Workflow;
  rv_backends : list ExecutionBackend;
  rv_retentions : list RetentionPolicy
}.

Definition find_named {A} (name : A -> string) (l : list A) (wanted : string) : option A :=
  List.find (fun x => name x =? wanted) l.

(** [(image, runtime, agentConfig, resources, lifecycle)] of a profile. *)
Definition effective (defaults : PlatformDefaults) (profile : Profile) : string * Runtime * string * Resources * Lifecycle :=
  (if pf_Image profile =? "" then pd_Image defaults else pf_Image profile,
   canonical_Runtime (default (pd_Runtime defaults) (pf_Runtime profile)),
   Compact (if (len (pf_AgentConfig profile) =? 0)%Z then pd_AgentConfig defaults else pf_AgentConfig profile),
   default (pd_Resources defaults) (pf_Resources profile),
   clone_Lifecycle (default (pd_Lifecycle defaults) (pf_Lifecycle profile))).

Definition pathBase (value : string) : string :=
  let base := match cut_last value "/"%char with Some (_, b) => b | None => value end in
  if (4 <? len base)%Z then TrimSuffix base ".git" else base.

Definition workflow_path (repository : Repository) : string :=
  if rp_Path repository =? "" then pathBase (rp_CheckoutTarget repository) else rp_Path repository.

Definition validateWorkflowRepositories (repositories : list Repository) : result resolver_error unit :=
  let no (bad : bool) : result resolver_error unit := if bad then Err ErrInvalidConfiguration else Ok tt in
  each_seen (fun seen repository =>
    let anonymous := rp_CredentialProvider repository =? "" in
    no (negb (validRepositoryID (rp_CheckoutTarget repository))
        || negb (repositoryTargetFromURL (rp_URL repository) =? rp_CheckoutTarget repository)
        || negb (rp_Upstream repository =? "") && (repositoryTargetFromURL (rp_Upstream repository) =? "")
        || negb (validCheckoutPath (rp_Path repository))
        || anonymous && negb (rp_BrokerRepository repository =? "")
        || anonymous && bool_decide (is_Some (rp_Identity repository))
        || negb anonymous && negb (validRepositoryID (rp_BrokerRepository repository))
        || negb anonymous && negb (validProvider (rp_CredentialProvider repository))
        || negb (is_nil (validateRepositoryIdentity (rp_Identity repository)))) |>>
    no (mem (rp_CheckoutTarget repository) (map rp_CheckoutTarget seen)) |>>
    no (mem (workflow_path repository) (map workflow_path seen))) [] repositories.

Definition unique_known (known : list string) (names : list string) : bool :=
  is_nil (each_seen (fun seen name =>
    reject (negb (mem name known) || negb (validName name)) "" |>> reject (mem name seen) "") [] names).

Definition validateAllowedSelections (profile : Profile) (backends : list ExecutionBackend)
    (retentions : list RetentionPolicy) : bool :=
  validName (pf_DefaultBackend profile) && containsString (elems (pf_AllowedBackends profile)) (pf_DefaultBackend profile)
  && unique_known (map xb_Name backends) (elems (pf_AllowedBackends profile))
  && unique_known (map rpol_Name retentions) (elems (pf_AllowedRetentions profile)).

Definition stringTrimSpace (value : string) : string :=
  Trim value (String "032" (String "009" (String "013" (String "010" "")))).

(** The checks of one entry of the configuration after those before it. *)
Definition check_backend (seen : list ExecutionBackend) (backend : ExecutionBackend) : bool :=
  validName (xb_Name backend) && validName (xb_Kind backend) && negb (mem (xb_Name backend) (map xb_Name seen)).

Definition check_retention (seen : list RetentionPolicy) (retention : RetentionPolicy) : bool :=
  validName (rpol_Name retention) && validateTTL (rpol_TTL retention) && negb (mem (rpol_Name retention) (map rpol_Name seen)).

Definition check_workflow (seen : list Workflow) (workflow : Workflow) : bool :=
  validName (wf_Name workflow) && (size (wf_Repositories workflow) <=? MaxRepositories)%Z
  && is_nil (validateInstructions (wf_WorkspaceInstructions workflow))
  && is_nil (validateWorkflowRepositories (elems (wf_Repositories workflow)))
  && match wf_Lifecycle workflow with Some l => is_nil (validateLifecycle l) | None => true end
  && negb (mem (wf_Name workflow) (map wf_Name seen)).

Definition check_profile (defaults : PlatformDefaults) (backends : list ExecutionBackend) (retentions : list RetentionPolicy)
    (seen : list Profile) (profile : Profile) : bool :=
  validName (pf_Name profile) && is_nil (validateInstructions (pf_WorkspaceInstructions profile))
  && negb (size (pf_AllowedBackends profile) =? 0)%Z && (size (pf_AllowedBackends profile) <=? MaxExecutionBackends)%Z
  && negb (size (pf_AllowedRetentions profile) =? 0)%Z && (size (pf_AllowedRetentions profile) <=? MaxRetentionPolicies)%Z
  && (size (pf_CredentialProviders profile) <=? MaxCredentialProviderMappings)%Z
  && negb (mem (pf_Name profile) (map pf_Name seen))
  && ((pf_Image profile =? "") || (pf_Image profile =? stringTrimSpace (pf_Image profile)) && negb (containsControl (pf_Image profile)))
  && (let '(image, runtime, agentConfig, resources, lifecycle) := effective defaults profile in
      is_nil (validateEffective image runtime agentConfig resources lifecycle))
  && is_nil (validateBrokerAndEgress (pf_Broker profile) (pf_Egress profile))
  && validateAllowedSelections profile backends retentions
  && is_nil (validateMappingsAndRepositories (elems (pf_CredentialProviders profile)) [] (pf_Broker profile) (pf_Egress profile))
  && validDefaultCredentialProvider (pf_DefaultCredentialProvider profile) (elems (pf_CredentialProviders profile)).

Definition all_seen {A} (check : list A -> A -> bool) (l : list A) : bool :=
  is_nil (each_seen (fun seen x => reject (negb (check seen x)) "") [] l).

Definition bounded {A} (s : slice A) (maximum : Z) : bool := negb (size s =? 0)%Z && (size s <=? maximum)%Z.

Definition NewResolver (configuration : TrustedConfiguration) : result resolver_error Resolver :=
  let d := tc_Defaults configuration in
  let defaults := clone_Defaults d in
  let backends := elems (tc_ExecutionBackends configuration) in
  let retentions := elems (tc_RetentionPolicies configuration) in
  if bounded (tc_Profiles configuration) MaxProfiles && bounded (tc_Workflows configuration) MaxWorkflows
     && bounded (tc_ExecutionBackends configuration) MaxExecutionBackends
     && bounded (tc_RetentionPolicies configuration) MaxRetentionPolicies
     && is_nil (validateEffective (pd_Image d) (pd_Runtime d) (pd_AgentConfig d) (pd_Resources d) (pd_Lifecycle d))
     && all_seen check_backend backends && all_seen check_retention retentions
     && all_seen check_workflow (elems (tc_Workflows configuration))
     && all_seen (check_profile defaults backends retentions) (elems (tc_Profiles configuration))
  then Ok (mkResolver defaults (map clone_Profile (elems (tc_Profiles configuration)))
             (map clone_Workflow (elems (tc_Workflows configuration))) backends retentions)
  else Err ErrInvalidConfiguration.

(** ** Resolving a request *)

Definition selectionAuthorized (selections : list AuthorizedSelection) (profile workflow : string) : bool :=
  existsb (fun selection => (as_Profile selection =? profile) && containsString (elems (as_Workflows selection)) workflow)
    selections.

Definition resolved_run (resolver : Resolver) (authorization : AuthorizationContext) (request : LocalRunRequest)
    (profile : Profile) (workflow : Workflow) (backend : ExecutionBackend) (retention : RetentionPolicy) : ResolvedAgentRun :=
  let '(image, runtime, agentConfig, resources, profileLifecycle) := effective (rv_defaults resolver) profile in
  let lifecycle := match wf_Lifecycle workflow with Some l => clone_Lifecycle l | None => profileLifecycle end in
  mkResolvedAgentRun ContractVersion (lr_RunID request) (ac_Principal authorization) (lr_SourceURL request)
    (pf_Name profile) (wf_Name workflow) image runtime (Compact agentConfig) (lr_Prompt request)
    (omit (map clone_Repository <$> wf_Repositories workflow)) (omit (map canonical_Mapping <$> pf_CredentialProviders profile))
    (pf_DefaultCredentialProvider profile) (clone_Broker (pf_Broker profile)) (canonical_Egress (pf_Egress profile))
    (mkWorkspaceInstructions (pf_WorkspaceInstructions profile) (wf_WorkspaceInstructions workflow)) resources
    (rpol_Persistence retention) (rpol_Name retention) (rpol_TTL retention) lifecycle backend.

Definition Resolve (resolver : Resolver) (authorization : AuthorizationContext) (request : LocalRunRequest)
  : result resolver_error ResolvedAgentRun :=
  if negb (is_nil (ValidateLocalRunRequest request)) || negb (is_nil (ValidateAuthorizationContext authorization))
  then Err ErrInvalidRunRequest
  else if negb (selectionAuthorized (elems (ac_Selections authorization)) (lr_Profile request) (lr_Workflow request))
  then Err ErrSelectionDenied
  else match find_named pf_Name (rv_profiles resolver) (lr_Profile request) with
  | None => Err ErrUnknownProfile
  | Some profile =>
      match find_named wf_Name (rv_workflows resolver) (lr_Workflow request) with
      | None => Err ErrUnknownWorkflow
      | Some workflow =>
          let backendName := if lr_Backend request =? "" then pf_DefaultBackend profile else lr_Backend request in
          if negb (containsString (elems (pf_AllowedBackends profile)) backendName)
             || negb (containsString (elems (pf_AllowedRetentions profile)) (lr_Retention request))
          then Err ErrSelectionDenied
          else match find_named xb_Name (rv_backends resolver) backendName,
                     find_named rpol_Name (rv_retentions resolver) (lr_Retention request) with
          | Some backend, Some retention =>
              if negb (is_nil (validateMappingsAndRepositories (elems (pf_CredentialProviders profile))
                         (elems (wf_Repositories workflow)) (pf_Broker profile) (pf_Egress profile)))
              then Err ErrInvalidConfiguration
              else
                let resolved := resolved_run resolver authorization request profile workflow backend retention in
                if negb (is_nil (ValidateResolvedAgentRun resolved)) then Err ErrInvalidConfiguration
                else Ok (canonical resolved)
          | _, _ => Err ErrSelectionDenied
          end
      end
  end.

(** * Typed runtime selectors (protocol/resolvedrun/runtime_selection.go) *)

Local Open Scope Z_scope.
Local Open Scope go_scope.
Local Open Scope string_scope.

(** [key, _, ok := strings.Cut(assignment, "=")] *)
Definition assignment_key (assignment : string) : string :=
  let '(key, _, ok) := Cut assignment "="%char in if ok then TrimSpace key else "".

Definition codexConfigKey (args : list string) (index : nat) : string :=
  let arg := nth index args "" in
  if (arg =? "--config") || (arg =? "-c") then
    match nth_error args (S index) with
    | Some assignment => assignment_key assignment
    | None => ""
    end
  else if HasPrefix arg "--config=" then assignment_key (TrimPrefix arg "--config=")
  else if HasPrefix arg "-c" && negb (HasPrefix arg "--") then
    assignment_key (TrimPrefix (TrimPrefix arg "-c") "=")
  else "".

Definition argumentSelectsModel (args : list string) (index : nat) (runtimeType : string) : bool :=
  let arg := nth index args "" in
  (arg =? "--model") || HasPrefix arg "--model=" || HasPrefix arg "-m" && negb (HasPrefix arg "--")
  || (runtimeType =? "codex") && (codexConfigKey args index =? "model").

Definition argumentSelectsEffort (args : list string) (index : nat) (runtimeType : string) : bool :=
  let arg := nth index args "" in
  if runtimeType =? "claude" then (arg =? "--effort") || HasPrefix arg "--effort="
  else codexConfigKey args index =? "model_reasoning_effort".

(** The selectors a typed selection stands for. *)
Definition selectors (selection : Runtime) : list string :=
  ((if rt_Model selection =? "" then [] else ["--model"; rt_Model selection]) ++
   (if rt_Effort selection =? "" then []
    else if rt_Type selection =? "codex" then ["--config"; ("model_reasoning_effort=" ++ rt_Effort selection)%string]
    else ["--effort"; rt_Effort selection]))%list.

Definition check_argument (args : list string) (selection : Runtime) (index : nat) : result string unit :=
  reject (nth index args "" =? "--") "runtime args conflict with typed selection end-of-options boundary" |>>
  reject (negb (rt_Model selection =? "") && argumentSelectsModel args index (rt_Type selection))
    "runtime args conflict with typed model" |>>
  reject (negb (rt_Effort selection =? "") && argumentSelectsEffort args index (rt_Type selection))
    "runtime args conflict with typed effort".

Definition ApplyRuntimeSelectionArguments (args : list string) (selection : Runtime) : result string (list string) :=
  if (rt_Model selection =? "") && (rt_Effort selection =? "") then Ok args
  else if negb (rt_Type selection =? "codex") && negb (rt_Type selection =? "claude")
  then Err "runtime selection is unsupported"
  else each (check_argument args selection) (seq 0 (length args)) |>>
       Ok (args ++ selectors selection)%list.
