(* ===== verification/ResolvedLemmas.v ===== *)
(** * Lemmas on validation

    Distinctness of checked names, and that a run and its canonical form
    validate alike. *)
From stdpp Require Import base list strings gmap.
From Stdlib Require Import ZArith Lia Ascii.
From S2P Require Import Prelude GoStrings GoUrl GoJson GoJsonPrint Contract Validation Decode Resolver.


Local Open Scope Z_scope.
Local Open Scope go_scope.
Local Open Scope string_scope.

(** ** Loops over lists *)

Lemma mem_in x l : mem x l = true <-> In x l.
Proof.
  unfold mem. rewrite existsb_exists. split; [intros (y & Hy & E); apply String.eqb_eq in E; by subst|].
  intros H. exists x. split; [done|apply String.eqb_refl].
Qed.

Lemma containsString_in l x : containsString l x = true <-> In x l.
Proof.
  unfold containsString. rewrite existsb_exists. split; [intros (y & Hy & E); apply String.eqb_eq in E; by subst|].
  intros H. exists x. split; [done|apply String.eqb_refl].
Qed.

(** A loop that refuses a repeated name leaves distinct names. *)
Lemma each_seen_distinct {A} (name : A -> string) (f : list A -> A -> result string unit) xs :
  (forall seen x, f seen x = Ok tt -> mem (name x) (map name seen) = false) ->
  each_seen f [] xs = Ok tt -> List.NoDup (map name xs).
Proof.
  intros Hf. rewrite each_seen_ok. intros H. induction xs as [|x xs IH] using rev_ind; [constructor|].
  rewrite map_app. apply List.NoDup_app.
  - apply IH. intros l y r ->. apply (H l y (r ++ [x])%list). by rewrite <- app_assoc.
  - constructor; [intros []|constructor].
  - intros n Hn [<-|[]]. specialize (H xs x [] eq_refl). apply Hf in H. cbn [app] in H.
    apply mem_in in Hn. congruence.
Qed.

Lemma each_seen_elem {A} (f : list A -> A -> result string unit) xs x :
  each_seen f [] xs = Ok tt -> In x xs -> exists seen, f seen x = Ok tt /\ forall y, In y seen -> In y xs.
Proof.
  rewrite each_seen_ok. intros H Hin. apply in_split in Hin as (l & r & ->). exists l.
  split; [apply (H l x r eq_refl)|]. intros y Hy. apply in_or_app. by left.
Qed.

Lemma find_rev_in {A} (p : A -> bool) l x : List.find p (rev l) = Some x -> In x l /\ p x = true.
Proof. intros H. apply List.find_some in H as [H1 H2]. split; [by apply in_rev|done]. Qed.

(** The check of a value after a change that the checks do not see. *)
Lemma each_seen_map {E A} (h : A -> A) (f g : list A -> A -> result E unit) seen xs :
  (forall s x, f (map h s) (h x) = g s x) -> each_seen f (map h seen) (map h xs) = each_seen g seen xs.
Proof.
  intros Hf. revert seen. induction xs as [|x xs IH]; intros seen; cbn; [done|]. rewrite Hf. f_equal.
  rewrite <- IH. by rewrite map_app.
Qed.

Lemma each_map {E A} (h : A -> A) (f g : A -> result E unit) xs :
  (forall x, f (h x) = g x) -> each f (map h xs) = each g xs.
Proof. intros Hf. induction xs as [|x xs IH]; cbn; [done|]. by rewrite Hf, IH. Qed.

(** ** Canonical forms *)

Lemma elems_omit {A} (s : slice A) : elems (omit s) = elems s.
Proof. by destruct s as [[|]|]. Qed.

Lemma size_omit {A} (s : slice A) : size (omit s) = size s.
Proof. unfold size. by rewrite elems_omit. Qed.

Lemma elems_map {A B} (f : A -> B) (s : slice A) : elems (map f <$> s : slice B) = map f (elems s).
Proof. by destruct s. Qed.

Lemma elems_canonical {A} (f : A -> A) (s : slice A) : elems (omit (map f <$> s : slice A)) = map f (elems s).
Proof. by rewrite elems_omit, elems_map. Qed.

Lemma permissions_canonical g : default ∅ (g_Permissions (canonical_Grant g)) = default ∅ (g_Permissions g).
Proof. cbn. destruct (g_Permissions g) as [m|]; [|done]. destruct (decide (m = ∅)) as [->|]; done. Qed.

Lemma validate_grant_canonical seen g :
  validate_grant (map canonical_Grant seen) (canonical_Grant g) = validate_grant seen g.
Proof.
  unfold validate_grant. rewrite permissions_canonical, map_map. cbn [canonical_Grant g_Provider g_Repositories g_Resources
    g_Capabilities g_Preparations g_Materialization g_EgressHosts g_Git g_Authorization g_Quota g_AllowInsecureUpstream].
  rewrite !size_omit, !elems_omit. destruct (g_Authorization g) as [a|]; [|done].
  cbn [fmap option_fmap option_map ga_DefaultAction ga_Rules]. by rewrite size_omit, elems_omit.
Qed.

Lemma domainPolicyAllows_canonical p host :
  domainPolicyAllows (mkDomainPolicy (dp_DefaultAction p) (omit (dp_Allow p)) (omit (dp_Deny p))) host
  = domainPolicyAllows p host.
Proof. unfold domainPolicyAllows. cbn [dp_DefaultAction dp_Allow dp_Deny]. by rewrite !elems_omit. Qed.

Lemma validate_mediated_grant_canonical e g :
  validate_mediated_grant (canonical_Egress e) (canonical_Grant g) = validate_mediated_grant e g.
Proof.
  unfold validate_mediated_grant. cbn [canonical_Grant g_Materialization g_EgressHosts canonical_Egress e_Transport e_DomainPolicy].
  rewrite size_omit, elems_omit. destruct (e_DomainPolicy e) as [p|]; [|done]. cbn [fmap option_fmap option_map].
  destruct (isTunnelTransport _); [|done]. do 2 f_equal. induction (elems (g_EgressHosts g)) as [|x l IH]; cbn [each]; [done|].
  by rewrite IH, domainPolicyAllows_canonical.
Qed.

Lemma is_Some_fmap {A B} (f : A -> B) (o : option A) : bool_decide (is_Some (f <$> o)) = bool_decide (is_Some o).
Proof. by destruct o. Qed.

Lemma existsb_map {A} (p q : A -> bool) (h : A -> A) l : (forall x, p (h x) = q x) -> existsb p (map h l) = existsb q l.
Proof. intros H. induction l as [|x l IH]; cbn; [done|]. by rewrite H, IH. Qed.

Lemma validateDomainPolicy_canonical o :
  validateDomainPolicy ((fun p => mkDomainPolicy (dp_DefaultAction p) (omit (dp_Allow p)) (omit (dp_Deny p))) <$> o)
  = validateDomainPolicy o.
Proof.
  destruct o as [p|]; [|done]. cbn [fmap option_fmap option_map validateDomainPolicy dp_DefaultAction dp_Allow dp_Deny].
  by rewrite !size_omit, !elems_omit.
Qed.

Lemma validateBrokerAndEgress_canonical b e :
  validateBrokerAndEgress (clone_Broker b) (canonical_Egress e) = validateBrokerAndEgress b e.
Proof.
  unfold validateBrokerAndEgress. cbn [clone_Broker b_Grants]. rewrite elems_canonical.
  assert (Hsize : size (omit (map canonical_Grant <$> b_Grants b)) = size (b_Grants b)).
  { unfold size. by rewrite elems_canonical, length_map. }
  rewrite Hsize. f_equal. rewrite (each_seen_map canonical_Grant _ validate_grant []) by apply validate_grant_canonical. f_equal.
  cbn [canonical_Egress e_MaxConcurrentTunnels e_DomainPolicy e_Mode]. rewrite validateDomainPolicy_canonical. f_equal. f_equal.
  assert (Hd : validate_direct (map canonical_Grant (elems (b_Grants b))) (canonical_Egress e)
             = validate_direct (elems (b_Grants b)) e).
  { unfold validate_direct. cbn [canonical_Egress e_Transport e_Enforced e_ProxyProvider e_PairedEgressRequired
      e_MaxConcurrentTunnels e_DomainPolicy]. rewrite is_Some_fmap. f_equal. by apply each_map. }
  assert (Hm : validate_mediated (map canonical_Grant (elems (b_Grants b))) (canonical_Egress e)
             = validate_mediated (elems (b_Grants b)) e).
  { unfold validate_mediated, validate_transport. cbn [canonical_Egress e_Transport e_Enforced e_ProxyProvider
      e_PairedEgressRequired e_MaxConcurrentTunnels e_DomainPolicy].
    rewrite is_Some_fmap, map_map.
    rewrite (each_map canonical_Grant _ (validate_mediated_grant e)) by apply validate_mediated_grant_canonical.
    rewrite (existsb_map _ (fun grant => g_Materialization grant =? "header-inject") canonical_Grant) by done.
    rewrite (existsb_map _ (fun grant => negb (size (g_EgressHosts grant) =? 0)%Z) canonical_Grant); [done|].
    intros g. cbn [canonical_Grant g_EgressHosts]. by rewrite size_omit. }
  by rewrite Hd, Hm.
Qed.

(** *** Mappings, repositories and the rest *)

Lemma find_rev_map {A} (h : A -> A) (name : A -> string) wanted l : (forall x, name (h x) = name x) ->
  List.find (fun x => name x =? wanted) (rev (map h l)) = h <$> List.find (fun x => name x =? wanted) (rev l).
Proof.
  intros Hn. rewrite <- map_rev. induction (rev l) as [|x r IH]; cbn; [done|]. rewrite Hn.
  destruct (name x =? wanted); [done|exact IH].
Qed.

Lemma find_grant_canonical grants provider :
  find_grant (map canonical_Grant grants) provider = canonical_Grant <$> find_grant grants provider.
Proof. by apply find_rev_map. Qed.

Lemma find_mapping_canonical mappings name :
  find_mapping (map canonical_Mapping mappings) name = canonical_Mapping <$> find_mapping mappings name.
Proof. by apply find_rev_map. Qed.

Lemma validate_mapping_canonical grants e seen m :
  validate_mapping (map canonical_Grant grants) (canonical_Egress e) (map canonical_Mapping seen) (canonical_Mapping m)
  = validate_mapping grants e seen m.
Proof.
  unfold validate_mapping. cbn [canonical_Mapping cp_Name cp_BrokerProvider cp_CredentialKind cp_MatchTargets].
  rewrite size_omit, elems_omit, map_map, find_grant_canonical.
  by destruct (find_grant grants (cp_BrokerProvider m)).
Qed.

Lemma validate_authorized_canonical grants e mappings r :
  validate_authorized (map canonical_Grant grants) (canonical_Egress e) (map canonical_Mapping mappings) r
  = validate_authorized grants e mappings r.
Proof.
  unfold validate_authorized. rewrite find_mapping_canonical.
  destruct (find_mapping mappings _) as [m|]; [|done]. cbn [fmap option_fmap option_map canonical_Mapping cp_MatchTargets
    cp_BrokerProvider cp_CredentialKind]. rewrite elems_omit. f_equal. cbv zeta. rewrite find_grant_canonical.
  destruct (find_grant grants (cp_BrokerProvider m)) as [g|]; [|done].
  cbn [fmap option_fmap option_map default from_option id compose canonical_Grant g_Materialization g_Git g_Repositories
    g_Preparations canonical_Egress e_Mode e_Enforced]. unfold compose. cbn. by rewrite !elems_omit.
Qed.

Lemma each_seen_ext {E A} (f g : list A -> A -> result E unit) seen xs :
  (forall s x, f s x = g s x) -> each_seen f seen xs = each_seen g seen xs.
Proof. intros H. revert seen. induction xs as [|x xs IH]; intros seen; cbn; [done|]. by rewrite H, IH. Qed.

Lemma validateMappingsAndRepositories_canonical mappings repositories b e :
  validateMappingsAndRepositories (map canonical_Mapping mappings) repositories (clone_Broker b) (canonical_Egress e)
  = validateMappingsAndRepositories mappings repositories b e.
Proof.
  unfold validateMappingsAndRepositories. cbn [clone_Broker b_Grants]. rewrite elems_canonical.
  rewrite (each_seen_map canonical_Mapping _ (validate_mapping (elems (b_Grants b)) e) [])
    by (intros; apply validate_mapping_canonical).
  f_equal. apply each_seen_ext. intros s x. unfold validate_repository. by rewrite validate_authorized_canonical.
Qed.

Lemma validateRuntime_canonical r : validateRuntime (canonical_Runtime r) = validateRuntime r.
Proof.
  unfold validateRuntime. cbn [canonical_Runtime rt_Type rt_Autonomy rt_User rt_Model rt_Container rt_Docker].
  do 4 f_equal. destruct (rt_Container r) as [c|], (rt_Docker r) as [d|];
    cbn [fmap option_fmap option_map rc_Capabilities rd_RequiredNetworks]; by rewrite ?size_omit, ?elems_omit.
Qed.

Lemma validateLifecycle_canonical l : validateLifecycle (clone_Lifecycle l) = validateLifecycle l.
Proof. unfold validateLifecycle. cbn [clone_Lifecycle lc_CompleteOn lc_FailOn]. by rewrite !size_omit, !elems_omit. Qed.

Lemma validDefault_canonical name mappings :
  validDefaultCredentialProvider name (map canonical_Mapping mappings) = validDefaultCredentialProvider name mappings.
Proof. unfold validDefaultCredentialProvider. destruct (name =? ""); [done|]. f_equal. by apply existsb_map. Qed.

(** A run whose agent configuration is compact and its canonical form
    validate alike. *)
Lemma ValidateResolvedAgentRun_canonical r :
  Compact (rr_AgentConfig r) = rr_AgentConfig r -> ValidateResolvedAgentRun (canonical r) = ValidateResolvedAgentRun r.
Proof.
  intros Hc. unfold ValidateResolvedAgentRun. cbn [canonical rr_ContractVersion rr_RunID rr_Profile rr_Workflow rr_Retention
    rr_Execution rr_Prompt rr_SourceURL rr_Principal rr_Image rr_Runtime rr_AgentConfig rr_Resources rr_Lifecycle
    rr_Repositories rr_CredentialProviders rr_Broker rr_Egress rr_DefaultCredentialProvider rr_WorkspaceInstructions rr_TTL].
  unfold validateEffective. rewrite Hc, validateRuntime_canonical.
  change (mkLifecycle (omit (lc_CompleteOn (rr_Lifecycle r))) (omit (lc_FailOn (rr_Lifecycle r))))
    with (clone_Lifecycle (rr_Lifecycle r)).
  change (mkBroker (omit (map canonical_Grant <$> b_Grants (rr_Broker r)))) with (clone_Broker (rr_Broker r)).
  rewrite validateLifecycle_canonical, validateBrokerAndEgress_canonical, elems_canonical, elems_omit,
    validateMappingsAndRepositories_canonical, validDefault_canonical, size_omit.
  assert (Hs : size (omit (map canonical_Mapping <$> rr_CredentialProviders r)) = size (rr_CredentialProviders r)).
  { unfold size. by rewrite elems_canonical, length_map. }
  by rewrite Hs.
Qed.
