(* ===== verification/Egress.v ===== *)
(** * Egress policy (egressd/internal/egress)

    domain_policy.go, destination_policy.go and the target parsing of
    forward_proxy.go: which names and addresses a mediated agent can reach.
    DNS is an [IPResolver], an argument.  Error texts of the policy check are
    abbreviated. *)
From stdpp Require Import base list strings gmap.
From Stdlib Require Import ZArith Lia Ascii.
From S2P Require Import Prelude GoStrings GoUrl Contract Validation.


Local Open Scope Z_scope.
Local Open Scope go_scope.
Local Open Scope string_scope.

(** ** Domain policy *)

Definition maxDomainPolicyEntries : Z := 256.

Definition normalizeDomainName (value : string) : option string :=
  if (value =? "") || negb (trimmed value) || ContainsAny value domain_forbidden then None
  else
    let value := ToLower (TrimSuffix value ".") in
    if bool_decide (is_Some (ParseAddr value)) then None
    else if (value =? "") || (253 <? len value)%Z then None
    else if forallb domain_label (Split value "."%char) then Some value
    else None.

Definition domainRuleMatches (host rule : string) : bool := (host =? rule) || HasSuffix host ("." ++ rule).

(** The policy's entries have no repetition after normalization. *)
Definition check_entries (name : string) (values : list string) : result string unit :=
  each_seen (fun seen value =>
    match normalizeDomainName value with
    | None => Err (name ++ ": invalid domain")
    | Some normalized =>
        reject (mem normalized (map (fun v => default "" (normalizeDomainName v)) seen))
          (name ++ " duplicates an entry after normalization")
    end) [] values.

Definition DomainPolicy_Validate (p : DomainPolicy) : result string unit :=
  reject (negb (dp_DefaultAction p =? "allow") && negb (dp_DefaultAction p =? "deny"))
    "default_action must be allow or deny" |>>
  reject ((maxDomainPolicyEntries <? size (dp_Allow p))%Z || (maxDomainPolicyEntries <? size (dp_Deny p))%Z)
    "allow and deny must contain at most 256 entries each" |>>
  check_entries "allow" (elems (dp_Allow p)) |>>
  check_entries "deny" (elems (dp_Deny p)).

Definition rule_of (rule : string) : string := default "" (normalizeDomainName rule).

Definition Decide (p : DomainPolicy) (host : string) : bool * string :=
  match normalizeDomainName host with
  | None => if dp_DefaultAction p =? "deny" then (false, "domain_name_unavailable") else (true, "domain_default_allow")
  | Some normalized =>
      if existsb (fun rule => domainRuleMatches normalized (rule_of rule)) (elems (dp_Deny p))
      then (false, "domain_deny_rule")
      else if existsb (fun rule => domainRuleMatches normalized (rule_of rule)) (elems (dp_Allow p))
      then (true, "domain_allow_rule")
      else if dp_DefaultAction p =? "allow" then (true, "domain_default_allow")
      else (false, "domain_default_deny")
  end.

(** ** Destination policy *)

Definition defaultDeniedPrefixes : list string :=
  [ "0.0.0.0/8"; "10.0.0.0/8"; "100.64.0.0/10"; "127.0.0.0/8";
    "169.254.0.0/16"; "172.16.0.0/12"; "192.0.0.0/24"; "192.0.2.0/24";
    "192.88.99.0/24"; "192.168.0.0/16"; "198.18.0.0/15"; "198.51.100.0/24"; "203.0.113.0/24";
    "224.0.0.0/4"; "240.0.0.0/4";
    "::/96"; "::ffff:0:0/96"; "64:ff9b::/96"; "64:ff9b:1::/48";
    "100::/64"; "100:0:0:1::/64"; "2001::/32"; "2001:2::/48";
    "2001:10::/28"; "2001:20::/28"; "2001:db8::/32"; "2002::/16";
    "3fff::/20"; "5f00::/16"; "fc00::/7"; "fe80::/10"; "fec0::/10"; "ff00::/8" ].

Definition mustPrefixes (values : list string) : list Prefix := omap ParsePrefix values.

Record destinationPolicy := mkDestinationPolicy { dst_denied : list Prefix }.

Fixpoint configured_prefixes (configured : list string) : option (list Prefix) :=
  match configured with
  | [] => Some []
  | value :: rest =>
      match ParsePrefix value, configured_prefixes rest with
      | Some p, Some ps => Some (Masked p :: ps)
      | _, _ => None
      end
  end.

Definition newDestinationPolicy (configured : list string) : option destinationPolicy :=
  match configured_prefixes configured with
  | Some ps => Some (mkDestinationPolicy (mustPrefixes defaultDeniedPrefixes ++ ps)%list)
  | None => None
  end.

(** Every [Addr] of the model is valid. *)
Definition allowed (p : destinationPolicy) (address : Addr) : bool :=
  let address := Unmap address in
  if IsUnspecified address || IsLoopback address || IsPrivate address || IsLinkLocalUnicast address
     || IsLinkLocalMulticast address || IsMulticast address then false
  else negb (existsb (fun prefix => prefix_Contains prefix address) (dst_denied p)).

(** [resolver.LookupNetIP(ctx, "ip", host)]; [None] is its error. *)
Definition IPResolver : Type := string -> option (list Addr).

#[export] Instance Addr_eq_dec : EqDecision Addr.
Proof. solve_decision. Defined.

(** The addresses in order, each once. *)
Fixpoint dedup (seen l : list Addr) : list Addr :=
  match l with
  | [] => []
  | a :: l' => if bool_decide (a ∈ seen) then dedup seen l' else a :: dedup (a :: seen) l'
  end.

Definition resolveAllowedAddresses (resolver : IPResolver) (policy : destinationPolicy) (host : string)
  : result string (list Addr) :=
  match ParseAddr host with
  | Some literal =>
      let literal := Unmap literal in
      if allowed policy literal then Ok [literal] else Err "destination address is denied"
  | None =>
      match resolver host with
      | None => Err "resolve destination"
      | Some [] => Err "resolve destination: no addresses"
      | Some addresses =>
          let candidates := map Unmap addresses in
          if forallb (allowed policy) candidates then
            let validated := dedup [] candidates in
            Ok (List.filter addr_is4 validated ++ List.filter (fun a => negb (addr_is4 a)) validated)%list
          else Err "destination resolution contains denied address"
      end
  end.

Definition pinned_ok (a : Addr) : bool := negb (IsUnspecified a || IsMulticast a).

Definition resolvePinnedAddresses (resolver : IPResolver) (host : string) : result string (list Addr) :=
  match ParseAddr host with
  | Some literal =>
      if pinned_ok (Unmap literal) then Ok [Unmap literal] else Err "pinned destination address is invalid"
  | None =>
      match resolver host with
      | None | Some [] => Err "resolve pinned destination"
      | Some addresses =>
          if forallb pinned_ok (map Unmap addresses) then Ok (dedup [] (map Unmap addresses))
          else Err "pinned destination resolution is invalid"
      end
  end.

(** ** CONNECT targets *)

Record connectTarget := mkConnectTarget { ct_host : string; ct_port : Z }.

#[export] Instance connectTarget_eq_dec : EqDecision connectTarget.
Proof. solve_decision. Defined.

Definition normalizeProxyHost (host : string) : option string :=
  if (host =? "") || HasPrefix host "[" || HasSuffix host "]" then None
  else match ParseAddr host with
  | Some address => Some (Addr_String (Unmap address))
  | None => normalizeDomainName host
  end.

Definition parseConnectTarget (value : string) : option connectTarget :=
  if Contains value "://" || ContainsAny value ("/" ++ String "092" ("@?# " ++ String "009" (String "013" (String "010" ""))))
     || Contains value "%" then None
  else match SplitHostPort value with
  | None => None
  | Some (host, portText) =>
      match normalizeProxyHost host, Atoi portText with
      | Some host, Some port =>
          if (port <? 1)%Z || (65535 <? port)%Z then None else Some (mkConnectTarget host port)
      | _, _ => None
      end
  end.

(** The request's URL host and its Host header. *)
Definition connectTargetFromRequest (urlHost hostHeader : string) : option connectTarget :=
  match parseConnectTarget urlHost with
  | None => None
  | Some target =>
      if hostHeader =? "" then Some target
      else match parseConnectTarget hostHeader with
           | Some header => if bool_decide (header = target) then Some target else None
           | None => None
           end
  end.

(** * CONNECT admission (egressd/internal/egress/forward_proxy.go, config.go)

    What [ServeHTTP] decides for a CONNECT request before it moves bytes:
    refuse it, hand it to an inject route, or tunnel it to a list of
    validated addresses. *)

Local Open Scope Z_scope.
Local Open Scope go_scope.
Local Open Scope string_scope.

Record ForwardProxyInjectRoute := mkInjectRoute {
  ir_Host : string;
  ir_Capability : string;
  ir_Upstream : string;
  ir_AllowInsecureUpstream : bool;
  ir_UpstreamCAPEM : string;
  ir_UpstreamServerName : string;
  ir_AllowPrivateUpstream : bool;
  ir_MaxRequests : Z;
  ir_RequireCapabilityHint : bool
}.

Record ForwardProxyConfig := mkForwardProxyConfig {
  fc_Listen : string;
  fc_TransparentMode : bool;
  fc_AllowHosts : list string;
  fc_AllowUnmatchedHosts : bool;
  fc_DomainPolicy : option DomainPolicy;
  fc_AllowPorts : list Z;
  fc_MaxConcurrentTunnels : Z;
  fc_TunnelIdleTimeoutSeconds : Z;
  fc_DenyCIDRs : list string;
  fc_InjectRoutes : list ForwardProxyInjectRoute
}.

Definition maxForwardProxyConcurrentTunnels : Z := 4096.
Definition defaultForwardProxyMaxConcurrentTunnels : Z := 256.

Definition effectiveAllowPorts (c : ForwardProxyConfig) : list Z :=
  match fc_AllowPorts c with [] => [80; 443] | ports => ports end.

Definition effectiveMaxConcurrentTunnels (c : ForwardProxyConfig) : Z :=
  if (fc_MaxConcurrentTunnels c =? 0)%Z then defaultForwardProxyMaxConcurrentTunnels else fc_MaxConcurrentTunnels c.

Definition normalizedRouteUpstreamHost (upstream : string) : option string :=
  if has_byte upstream ":"%char then
    match SplitHostPort upstream with Some (host, _) => normalizeProxyHost host | None => None end
  else normalizeProxyHost upstream.

Definition validateUpstream (upstream : string) : result string unit :=
  reject (upstream =? "") "must not be empty" |>>
  reject (Contains upstream "://" || ContainsAny upstream ("/" ++ String "092" ("@?# " ++ String "009" "")))
    "must be a bare host[:port]" |>>
  if has_byte upstream ":"%char then
    match SplitHostPort upstream with
    | None => Err "invalid host:port"
    | Some (host, port) =>
        match Atoi port with
        | Some number => reject ((number <? 1)%Z || (65535 <? number)%Z) "invalid port" |>> reject (host =? "") "empty host"
        | None => Err "invalid port"
        end
    end
  else Ok tt.

Definition check_inject_route (policy : DomainPolicy) (route : ForwardProxyInjectRoute) : result string unit :=
  reject (negb (fst (Decide policy (ir_Host route)))) "inject route host is denied by domain_policy" |>>
  if ir_AllowPrivateUpstream route then Ok tt
  else match normalizedRouteUpstreamHost (ir_Upstream route) with
       | None => Ok tt
       | Some host => reject (negb (fst (Decide policy host))) "inject route upstream is denied by domain_policy"
       end.

Definition ForwardProxyConfig_Validate (c : ForwardProxyConfig) : result string unit :=
  reject (fc_Listen c =? "") "listen is required" |>>
  each (fun host => reject (bool_decide (normalizeProxyHost host = None)) "allow_hosts is invalid") (fc_AllowHosts c) |>>
  match fc_DomainPolicy c with
  | None => Ok tt
  | Some policy =>
      reject (fc_AllowUnmatchedHosts c || bool_decide (fc_AllowHosts c <> []))
        "domain_policy is mutually exclusive with legacy allow_hosts and allow_unmatched_hosts" |>>
      DomainPolicy_Validate policy
  end |>>
  each (fun port => reject ((port <? 1)%Z || (65535 <? port)%Z) "allow_ports contains invalid port") (effectiveAllowPorts c) |>>
  reject ((fc_MaxConcurrentTunnels c <? 0)%Z || (maxForwardProxyConcurrentTunnels <? fc_MaxConcurrentTunnels c)%Z)
    "max_concurrent_tunnels is out of range" |>>
  reject (fc_TunnelIdleTimeoutSeconds c <? 0)%Z "tunnel_idle_timeout_seconds must be non-negative" |>>
  reject (bool_decide (newDestinationPolicy (fc_DenyCIDRs c) = None)) "deny_cidrs must be valid CIDRs" |>>
  match fc_DomainPolicy c with
  | None => Ok tt
  | Some policy => each (check_inject_route policy) (fc_InjectRoutes c)
  end.

(** ** The tables built by [init] *)

Definition allowHosts (c : ForwardProxyConfig) : list string := omap normalizeProxyHost (fc_AllowHosts c).

Definition portAllowed (c : ForwardProxyConfig) (port : Z) : bool :=
  existsb (Z.eqb port) (effectiveAllowPorts c).

(** [p.destinationPolicy, _ = newDestinationPolicy(...)]: on an error the
    policy is the zero value, which denies no prefix. *)
Definition destination_policy (c : ForwardProxyConfig) : destinationPolicy :=
  default (mkDestinationPolicy []) (newDestinationPolicy (fc_DenyCIDRs c)).

(** [p.injectProxies[host]] *)
Definition routes_for (c : ForwardProxyConfig) (host : string) : list ForwardProxyInjectRoute :=
  List.filter (fun route => bool_decide (normalizeProxyHost (ir_Host route) = Some host)) (fc_InjectRoutes c).

(** ** Route selection *)

(** No route, an ambiguous or unknown capability, or the selected route. *)
Inductive selection : Type :=
  | NoRoute
  | RouteError
  | Selected (route : ForwardProxyInjectRoute).

Definition auto_route (routes : list ForwardProxyInjectRoute) : selection :=
  match List.filter (fun route => negb (ir_RequireCapabilityHint route)) routes with
  | [] => NoRoute
  | [route] => Selected route
  | _ => RouteError
  end.

Definition hinted_route (routes : list ForwardProxyInjectRoute) (capabilityHint : string) : selection :=
  match List.find (fun route => ir_Capability route =? capabilityHint) routes with
  | Some route => Selected route
  | None => RouteError
  end.

Definition injectProxy (c : ForwardProxyConfig) (host capabilityHint : string) : selection :=
  match routes_for c host with
  | [] => NoRoute
  | routes => if negb (capabilityHint =? "") then hinted_route routes capabilityHint else auto_route routes
  end.

Definition transparentInjectProxy (c : ForwardProxyConfig) (host capabilityHint : string) : selection :=
  match routes_for c host with
  | [] => NoRoute
  | routes => if negb (capabilityHint =? "") then injectProxy c host capabilityHint else auto_route routes
  end.

(** ** Admission *)

Definition target_allowed (c : ForwardProxyConfig) (target : connectTarget) : bool * string :=
  if negb (portAllowed c (ct_port target)) then (false, "port_denied")
  else match fc_DomainPolicy c with
  | Some policy => Decide policy (ct_host target)
  | None =>
      if fc_AllowUnmatchedHosts c || mem (ct_host target) (allowHosts c) then (true, "legacy_host_allow")
      else (false, "target_not_allowed")
  end.

Inductive connect_outcome : Type :=
  | Refused (errorClass : string)
  | Injected (target : connectTarget) (route : ForwardProxyInjectRoute)
  | Tunnelled (target : connectTarget) (addresses : list Addr).

(** [ServeHTTP] for a CONNECT request up to the dial; [acquired] is the error
    class of [acquireTunnel], empty when a slot was obtained. *)
Definition serve_connect (c : ForwardProxyConfig) (resolver : IPResolver) (urlHost hostHeader capabilityHint : string)
    (acquired : string) : connect_outcome :=
  match connectTargetFromRequest urlHost hostHeader with
  | None => Refused "malformed_target"
  | Some target =>
      if negb (portAllowed c (ct_port target)) then Refused "target_not_allowed"
      else
        let decision := match fc_DomainPolicy c with
          | Some policy => Decide policy (ct_host target)
          | None => (true, "")
          end in
        if negb (fst decision) then Refused (snd decision)
        else
          match (if fc_TransparentMode c then transparentInjectProxy c (ct_host target) capabilityHint
                 else injectProxy c (ct_host target) capabilityHint) with
          | RouteError => Refused "capability_not_allowed"
          | Selected route => Injected target route
          | NoRoute =>
              let '(ok, reason) := target_allowed c target in
              if negb ok then Refused reason
              else if negb (acquired =? "") then Refused acquired
              else match resolveAllowedAddresses resolver (destination_policy c) (ct_host target) with
                   | Err _ => Refused "destination_denied"
                   | Ok addresses => Tunnelled target addresses
                   end
          end
  end.
