(* ===== verification/Tunnels.v ===== *)
(** * Tunnel slots (egressd/internal/egress/forward_proxy.go)

    [acquireTunnel] and the release function it returns, as goroutines that
    interleave at every channel operation and every atomic counter: two
    buffered channels bound the open tunnels and the waiting requests.  A
    goroutine is its place in the code; the timer, the request's context and
    the moment of release are chosen by the environment.  The log lines of
    [logTunnelCapacity] are not modelled. *)
From stdpp Require Import base list strings relations.
From Stdlib Require Import ZArith Lia.
From S2P Require Import Prelude Contract Validation Egress.


Local Open Scope Z_scope.
Local Open Scope string_scope.

(** ** The shared part of [ForwardProxy] *)

(** The number of elements in each channel, and the counters at their width. *)
Record shared := mkShared {
  tunnelSlots : Z;
  tunnelQueueSlots : Z;
  activeTunnels : Z;
  queuedTunnels : Z;
  admittedTunnels : Z;
  timedOutTunnels : Z;
  rejectedTunnels : Z
}.

Definition init_shared : shared := mkShared 0 0 0 0 0 0 0.

(** Addition on an [atomic.Uint64]. *)
Definition add_u64 (x : Z) : Z := (x + 1) mod 2 ^ 64.

Definition with_slots (f : Z -> Z) (s : shared) : shared :=
  mkShared (f (tunnelSlots s)) (tunnelQueueSlots s) (activeTunnels s) (queuedTunnels s) (admittedTunnels s)
    (timedOutTunnels s) (rejectedTunnels s).
Definition with_queue (f : Z -> Z) (s : shared) : shared :=
  mkShared (tunnelSlots s) (f (tunnelQueueSlots s)) (activeTunnels s) (queuedTunnels s) (admittedTunnels s)
    (timedOutTunnels s) (rejectedTunnels s).
Definition with_active (f : Z -> Z) (s : shared) : shared :=
  mkShared (tunnelSlots s) (tunnelQueueSlots s) (f (activeTunnels s)) (queuedTunnels s) (admittedTunnels s)
    (timedOutTunnels s) (rejectedTunnels s).
Definition with_queued (f : Z -> Z) (s : shared) : shared :=
  mkShared (tunnelSlots s) (tunnelQueueSlots s) (activeTunnels s) (f (queuedTunnels s)) (admittedTunnels s)
    (timedOutTunnels s) (rejectedTunnels s).
Definition with_admitted (f : Z -> Z) (s : shared) : shared :=
  mkShared (tunnelSlots s) (tunnelQueueSlots s) (activeTunnels s) (queuedTunnels s) (f (admittedTunnels s))
    (timedOutTunnels s) (rejectedTunnels s).
Definition with_timedOut (f : Z -> Z) (s : shared) : shared :=
  mkShared (tunnelSlots s) (tunnelQueueSlots s) (activeTunnels s) (queuedTunnels s) (admittedTunnels s)
    (f (timedOutTunnels s)) (rejectedTunnels s).
Definition with_rejected (f : Z -> Z) (s : shared) : shared :=
  mkShared (tunnelSlots s) (tunnelQueueSlots s) (activeTunnels s) (queuedTunnels s) (admittedTunnels s)
    (timedOutTunnels s) (f (rejectedTunnels s)).

(** ** Goroutines *)

(** A release function and no error class, or no function and a class. *)
Inductive outcome : Type :=
| Granted
| Denied (errorClass : string).

(** The next statement of the goroutine.  [waited] tells the statements after
    the queue was entered, where the deferred function runs on return. *)
Inductive place : Type :=
| AtEnter                                      (* ctx.Err() *)
| AtTrySlot                                    (* select, slot or default *)
| AtTryQueue                                   (* select, queue slot or default *)
| AtQueueCount                                 (* queuedTunnels.Add(1) *)
| AtWait                                       (* the three-way select *)
| AtTimedOut                                   (* timedOutTunnels.Add(1) *)
| AtReject (waited : bool) (errorClass : string) (* rejectedTunnels.Add(1) *)
| AtLeave (o : outcome)                        (* leaveQueue: the channel *)
| AtLeaveCount (o : outcome)                   (* leaveQueue: the counter *)
| AtAdmitActive (waited : bool)                (* activeTunnels.Add(1) *)
| AtAdmitTotal (waited : bool)                 (* admittedTunnels.Add(1) *)
| AtDefer (o : outcome)                        (* the deferred leaveQueue *)
| AtDeferCount (o : outcome)                   (* its counter *)
| Returned (o : outcome)
| AtRelease                                    (* the release function: the channel *)
| AtReleaseCount                               (* activeTunnels.Add(-1) *)
| Released.

Record thread := mkThread {
  th_place : place;
  th_queued : bool;                            (* the local [queued] *)
  th_cancelled : bool;                         (* ctx is done *)
  th_expired : bool                            (* the timer has fired *)
}.

Definition goto (p : place) (th : thread) : thread :=
  mkThread p (th_queued th) (th_cancelled th) (th_expired th).
Definition set_queued (b : bool) (th : thread) : thread :=
  mkThread (th_place th) b (th_cancelled th) (th_expired th).

Definition after_leave (o : outcome) : place :=
  match o with Granted => AtAdmitActive true | Denied _ => AtDefer o end.

(** [acquireTunnel] and the release function, one atomic statement at a time;
    the successors are the ready cases of a [select], none when every case
    blocks.  A receive takes an element that is there, or blocks. *)
Definition thread_next (capacity : Z) (s : shared) (th : thread) : list (shared * thread) :=
  let take (n : Z) (next : list (shared * thread)) := if (0 <? n)%Z then next else [] in
  match th_place th with
  | AtEnter =>
      [(s, goto (if th_cancelled th then AtReject false "tunnel_queue_cancelled" else AtTrySlot) th)]
  | AtTrySlot =>
      if (tunnelSlots s <? capacity)%Z then [(with_slots Z.succ s, goto (AtAdmitActive false) th)]
      else [(s, goto AtTryQueue th)]
  | AtTryQueue =>
      if (tunnelQueueSlots s <? capacity)%Z then [(with_queue Z.succ s, goto AtQueueCount th)]
      else [(s, goto (AtReject false "tunnel_queue_full") th)]
  | AtQueueCount => [(with_queued Z.succ s, goto AtWait (set_queued true th))]
  | AtWait =>
      ((if (tunnelSlots s <? capacity)%Z then [(with_slots Z.succ s, goto (AtLeave Granted) th)] else []) ++
       (if th_expired th then [(s, goto AtTimedOut th)] else []) ++
       (if th_cancelled th then [(s, goto (AtReject true "tunnel_queue_cancelled") th)] else []))%list
  | AtTimedOut => [(with_timedOut add_u64 s, goto (AtReject true "tunnel_queue_timeout") th)]
  | AtReject waited c =>
      [(with_rejected add_u64 s, goto (if waited then AtLeave (Denied c) else Returned (Denied c)) th)]
  | AtLeave o =>
      if th_queued th then take (tunnelQueueSlots s) [(with_queue Z.pred s, goto (AtLeaveCount o) (set_queued false th))]
      else [(s, goto (after_leave o) th)]
  | AtLeaveCount o => [(with_queued Z.pred s, goto (after_leave o) th)]
  | AtAdmitActive waited => [(with_active Z.succ s, goto (AtAdmitTotal waited) th)]
  | AtAdmitTotal waited =>
      [(with_admitted add_u64 s, goto (if waited then AtDefer Granted else Returned Granted) th)]
  | AtDefer o =>
      if th_queued th then take (tunnelQueueSlots s) [(with_queue Z.pred s, goto (AtDeferCount o) (set_queued false th))]
      else [(s, goto (Returned o) th)]
  | AtDeferCount o => [(with_queued Z.pred s, goto (Returned o) th)]
  | Returned _ => []
  | AtRelease => take (tunnelSlots s) [(with_slots Z.pred s, goto AtReleaseCount th)]
  | AtReleaseCount => [(with_active Z.pred s, goto Released th)]
  | Released => []
  end.

(** A call of the release function: [once.Do] runs its body the first time. *)
Definition call_release (th : thread) : thread :=
  match th_place th with Returned Granted => goto AtRelease th | _ => th end.

(** ** The proxy *)

Record system := mkSystem { sy_shared : shared; sy_threads : list thread }.

Inductive sys_step (capacity : Z) : system -> system -> Prop :=
| ss_arrive s ths cancelled :
    sys_step capacity (mkSystem s ths) (mkSystem s (ths ++ [mkThread AtEnter false cancelled false]))
| ss_cancel s ths i th :
    ths !! i = Some th ->
    sys_step capacity (mkSystem s ths) (mkSystem s (<[i := mkThread (th_place th) (th_queued th) true (th_expired th)]> ths))
| ss_expire s ths i th :
    ths !! i = Some th -> th_place th = AtWait ->
    sys_step capacity (mkSystem s ths) (mkSystem s (<[i := mkThread (th_place th) (th_queued th) (th_cancelled th) true]> ths))
| ss_release s ths i th :
    ths !! i = Some th ->
    sys_step capacity (mkSystem s ths) (mkSystem s (<[i := call_release th]> ths))
| ss_run s ths i th s' th' :
    ths !! i = Some th -> In (s', th') (thread_next capacity s th) ->
    sys_step capacity (mkSystem s ths) (mkSystem s' (<[i := th']> ths)).

Definition tunnels_reachable (c : ForwardProxyConfig) : system -> Prop :=
  rtc (sys_step (effectiveMaxConcurrentTunnels c)) (mkSystem init_shared []).

(** * What the tunnel slots guarantee

    The books of the two channels and the counters, kept by every interleaving
    of the goroutines, and what follows from them. *)

Local Open Scope Z_scope.
Local Open Scope string_scope.

(** ** Accounting *)

(** The share of a goroutine in each channel and counter. *)
Definition holds_slot (th : thread) : Z :=
  match th_place th with
  | AtLeave Granted | AtLeaveCount Granted | AtAdmitActive _ | AtAdmitTotal _ | AtDefer Granted
  | AtDeferCount Granted | Returned Granted | AtRelease => 1
  | _ => 0
  end.
Definition holds_queue (th : thread) : Z :=
  match th_place th with
  | AtQueueCount | AtWait | AtTimedOut | AtReject true _ | AtLeave _ => 1
  | _ => 0
  end.
Definition in_active (th : thread) : Z :=
  match th_place th with
  | AtAdmitTotal _ | AtDefer Granted | AtDeferCount Granted | Returned Granted | AtRelease | AtReleaseCount => 1
  | _ => 0
  end.
Definition in_queued (th : thread) : Z :=
  match th_place th with
  | AtWait | AtTimedOut | AtReject true _ | AtLeave _ | AtLeaveCount _ => 1
  | _ => 0
  end.
Definition in_admitted (th : thread) : Z :=
  match th_place th with
  | AtDefer Granted | AtDeferCount Granted | Returned Granted | AtRelease | AtReleaseCount | Released => 1
  | _ => 0
  end.
Definition in_rejected (th : thread) : Z :=
  match th_place th with
  | AtLeave (Denied _) | AtLeaveCount (Denied _) | AtDefer (Denied _) | AtDeferCount (Denied _) | Returned (Denied _) => 1
  | _ => 0
  end.

Fixpoint total (f : thread -> Z) (ths : list thread) : Z :=
  match ths with [] => 0 | th :: ths' => f th + total f ths' end.

(** The local [queued] is set exactly while the goroutine waits; the deferred
    call finds the queue left. *)
Definition queued_ok (th : thread) : Prop :=
  match th_place th with
  | AtWait | AtTimedOut | AtReject true _ | AtLeave _ => th_queued th = true
  | AtDeferCount _ => False
  | _ => th_queued th = false
  end.

Record accounted (capacity : Z) (sy : system) : Prop := mkAccounted {
  ac_slots : tunnelSlots (sy_shared sy) = total holds_slot (sy_threads sy);
  ac_queue : tunnelQueueSlots (sy_shared sy) = total holds_queue (sy_threads sy);
  ac_active : activeTunnels (sy_shared sy) = total in_active (sy_threads sy);
  ac_queued : queuedTunnels (sy_shared sy) = total in_queued (sy_threads sy);
  ac_admitted : admittedTunnels (sy_shared sy) = total in_admitted (sy_threads sy) mod 2 ^ 64;
  ac_rejected : rejectedTunnels (sy_shared sy) = total in_rejected (sy_threads sy) mod 2 ^ 64;
  ac_slots_le : tunnelSlots (sy_shared sy) <= capacity;
  ac_queue_le : tunnelQueueSlots (sy_shared sy) <= capacity;
  ac_local : Forall queued_ok (sy_threads sy)
}.

Lemma total_app f l r : total f (l ++ r) = total f l + total f r.
Proof. induction l as [|th l IH]; cbn; [lia|]. rewrite IH. lia. Qed.

Lemma total_insert f ths i th th' :
  ths !! i = Some th -> total f (<[i := th']> ths) = total f ths - f th + f th'.
Proof.
  intros H. rewrite <- (take_drop_middle ths i th H) at 2. rewrite insert_take_drop by (by eapply lookup_lt_Some).
  rewrite !total_app. cbn [total]. lia.
Qed.

Lemma total_nonneg f ths : (forall x, 0 <= f x) -> 0 <= total f ths.
Proof. intros Hf. induction ths as [|y l IH]; cbn; [lia|]. pose proof (Hf y). lia. Qed.

Lemma total_elem f ths i th : (forall x, 0 <= f x) -> ths !! i = Some th -> f th <= total f ths.
Proof.
  intros Hf H. rewrite <- (take_drop_middle ths i th H), total_app. cbn [total].
  pose proof (total_nonneg f (take i ths) Hf). pose proof (total_nonneg f (drop (S i) ths) Hf). lia.
Qed.

Lemma total_le f g ths : (forall x, f x <= g x) -> total f ths <= total g ths.
Proof. intros H. induction ths as [|y l IH]; cbn; [lia|]. pose proof (H y). lia. Qed.

Lemma total_zero f ths : (forall th, In th ths -> f th = 0) -> total f ths = 0.
Proof. intros H. induction ths as [|y l IH]; cbn; [done|]. rewrite (H y), IH; [done| |]; intros; cbn in *; auto. Qed.

Lemma add_u64_mod x y : x = y mod 2 ^ 64 -> add_u64 x = (y + 1) mod 2 ^ 64.
Proof. intros ->. unfold add_u64. by rewrite Zplus_mod_idemp_l. Qed.

(** ** The invariant *)

(** A counter keeps step with the goroutines that were counted. *)
Definition counts (f : thread -> Z) (old new : Z) (th th' : thread) : Prop :=
  f th' = f th /\ new = old \/ f th' = f th + 1 /\ new = add_u64 old.

Lemma counts_total f old new ths i th th' :
  ths !! i = Some th -> counts f old new th th' -> old = total f ths mod 2 ^ 64 ->
  new = total f (<[i := th']> ths) mod 2 ^ 64.
Proof.
  intros Hi Hc Ho. rewrite (total_insert _ _ _ _ _ Hi). destruct Hc as [[-> ->]|[-> ->]].
  - rewrite Ho. f_equal. lia.
  - rewrite (add_u64_mod _ _ Ho). f_equal. lia.
Qed.

(** A goroutine and the shared part that change together. *)
Definition fits (capacity : Z) (s : shared) (th : thread) (s' : shared) (th' : thread) : Prop :=
  (tunnelSlots s' = tunnelSlots s - holds_slot th + holds_slot th' /\
   tunnelQueueSlots s' = tunnelQueueSlots s - holds_queue th + holds_queue th' /\
   activeTunnels s' = activeTunnels s - in_active th + in_active th' /\
   queuedTunnels s' = queuedTunnels s - in_queued th + in_queued th') /\
  (counts in_admitted (admittedTunnels s) (admittedTunnels s') th th' /\
   counts in_rejected (rejectedTunnels s) (rejectedTunnels s') th th') /\
  tunnelSlots s' <= capacity /\ tunnelQueueSlots s' <= capacity /\ queued_ok th'.

Lemma accounted_update capacity s ths i th s' th' :
  accounted capacity (mkSystem s ths) -> ths !! i = Some th -> fits capacity s th s' th' ->
  accounted capacity (mkSystem s' (<[i := th']> ths)).
Proof.
  intros [] Hi ((H1 & H2 & H3 & H4) & (H5 & H6) & H7 & H8 & H9). cbn in *.
  split; cbn; [rewrite (total_insert _ _ _ _ _ Hi); lia..|by eapply counts_total|by eapply counts_total|done|done|].
  by apply Forall_insert.
Qed.

Ltac fits_tac :=
  unfold fits, counts, queued_ok, holds_slot, holds_queue, in_active, in_queued, in_admitted, in_rejected; cbn;
  split_and!; solve [lia | done | (left; split; lia) | (right; split; [lia|done])].

Lemma thread_next_fits capacity s th s' th' :
  queued_ok th -> tunnelSlots s <= capacity -> tunnelQueueSlots s <= capacity ->
  In (s', th') (thread_next capacity s th) -> fits capacity s th s' th'.
Proof.
  intros Q L1 L2 Hn. destruct th as [p q c e], s as [a b d f g h k]. unfold thread_next, queued_ok in *. cbn in *.
  destruct p as [ | | | | | |[] x|[|x]|[|x]|w|w|[|x]|[|x]|o| | | ]; cbn in *; subst; try done;
    repeat match type of Hn with
    | context [if (?x <? ?y)%Z then _ else _] => destruct (Z.ltb_spec x y)
    | context [if ?x then _ else _] => is_var x; destruct x
    end; cbn in *;
    repeat match goal with H : _ \/ _ |- _ => destruct H as [H|H] end; try done;
    injection Hn as <- <-; fits_tac.
Qed.

(** The environment's moves keep the books too. *)
Lemma fits_same capacity s th th' :
  queued_ok th -> tunnelSlots s <= capacity -> tunnelQueueSlots s <= capacity ->
  th_place th' = th_place th -> th_queued th' = th_queued th -> fits capacity s th s th'.
Proof.
  intros Q L1 L2 Hp Hq. unfold fits, counts, queued_ok, holds_slot, holds_queue, in_active, in_queued, in_admitted,
    in_rejected in *. rewrite Hp, Hq. split_and!; try lia; try (left; split; done). exact Q.
Qed.

Lemma fits_release capacity s th :
  queued_ok th -> tunnelSlots s <= capacity -> tunnelQueueSlots s <= capacity -> fits capacity s th s (call_release th).
Proof.
  intros Q L1 L2. unfold call_release. destruct (th_place th) as [ | | | | | | | | | | | | |[|x]| | | ] eqn:E;
    try (by apply fits_same). unfold queued_ok in Q. rewrite E in Q.
  unfold fits, counts, queued_ok, holds_slot, holds_queue, in_active, in_queued, in_admitted, in_rejected.
  rewrite E. cbn. split_and!; solve [lia | done | (left; split; lia)].
Qed.

Lemma step_accounted capacity sy sy' :
  accounted capacity sy -> sys_step capacity sy sy' -> accounted capacity sy'.
Proof.
  intros A H.
  assert (Hu : forall i th s' th', sy_threads sy !! i = Some th ->
    (queued_ok th -> tunnelSlots (sy_shared sy) <= capacity -> tunnelQueueSlots (sy_shared sy) <= capacity ->
     fits capacity (sy_shared sy) th s' th') ->
    accounted capacity (mkSystem s' (<[i := th']> (sy_threads sy)))).
  { intros i th s' th' Hi Hf. apply (accounted_update _ (sy_shared sy) (sy_threads sy) i th); [by destruct sy|exact Hi|].
    destruct A. apply Hf; [by eapply Forall_lookup_1|done|done]. }
  destruct H as [s ths c|s ths i th Hi|s ths i th Hi Hp|s ths i th Hi|s ths i th s' th' Hi Hn]; cbn in Hu.
  - destruct A; cbn in *. split; cbn; rewrite ?total_app; cbn; rewrite ?Z.add_0_r; try done.
    apply Forall_app. split; [done|]. by constructor.
  - eapply Hu; [exact Hi|]. intros. by apply fits_same.
  - eapply Hu; [exact Hi|]. intros. by apply fits_same.
  - eapply Hu; [exact Hi|]. intros. by apply fits_release.
  - eapply Hu; [exact Hi|]. intros. by apply thread_next_fits.
Qed.

Lemma reachable_accounted c sy :
  0 <= effectiveMaxConcurrentTunnels c -> tunnels_reachable c sy -> accounted (effectiveMaxConcurrentTunnels c) sy.
Proof.
  intros Hc. unfold tunnels_reachable. generalize (effectiveMaxConcurrentTunnels c) Hc. intros n Hn.
  apply (rtc_ind_r (accounted n)); [|intros y z _ H A; by eapply step_accounted].
  split; cbn; done.
Qed.

(** ** Progress *)

(** The statements a goroutine still has to execute, at most. *)
Definition rank (th : thread) : nat :=
  match th_place th with
  | AtEnter => 16 | AtTrySlot => 15 | AtTryQueue => 14 | AtQueueCount => 13 | AtWait => 12 | AtTimedOut => 11
  | AtReject _ _ => 10 | AtLeave _ => 9 | AtLeaveCount _ => 8 | AtAdmitActive _ => 7 | AtAdmitTotal _ => 6
  | AtDefer _ => 5 | AtDeferCount _ => 4
  | Returned _ => 3 | AtRelease => 2 | AtReleaseCount => 1 | Released => 0
  end.

Lemma thread_next_rank capacity s th s' th' : In (s', th') (thread_next capacity s th) -> (rank th' < rank th)%nat.
Proof.
  destruct th as [p q c e], s. unfold thread_next. cbn [th_place].
  destruct p as [ | | | | | |[] x|[|x]|[|x]|[]|[]|[|x]|[|x]|o| | | ]; cbn; intros Hn;
    repeat match type of Hn with context [if ?x then _ else _] => destruct x end; cbn in Hn;
    repeat match goal with H : _ \/ _ |- _ => destruct H as [H|H] end; try done;
    injection Hn as <- <-; cbn; lia.
Qed.

(** A goroutine that has nothing left to do. *)
Definition finished (th : thread) : Prop :=
  th_place th = Released \/ exists errorClass, th_place th = Returned (Denied errorClass).

(** A goroutine whose three-way select has no ready case. *)
Definition blocked (capacity : Z) (s : shared) (th : thread) : Prop :=
  th_place th = AtWait /\ tunnelSlots s = capacity /\ th_expired th = false /\ th_cancelled th = false.

Lemma share_bounds th :
  0 <= holds_slot th <= 1 /\ 0 <= holds_queue th <= 1.
Proof. unfold holds_slot, holds_queue. destruct (th_place th) as [ | | | | | |[] x|[|x]|[|x]|w|w|[|x]|[|x]|[|x]| | | ]; lia. Qed.

(** Only a returned, a released and a blocked goroutine cannot run. *)
Lemma thread_next_stuck capacity sy i th :
  accounted capacity sy -> sy_threads sy !! i = Some th ->
  thread_next capacity (sy_shared sy) th = [] <->
  (exists o, th_place th = Returned o) \/ th_place th = Released \/ blocked capacity (sy_shared sy) th.
Proof.
  intros A Hi. pose proof (Forall_lookup_1 _ _ _ _ (ac_local _ _ A) Hi) as Q.
  pose proof (ac_slots_le _ _ A) as L.
  pose proof (total_elem holds_slot _ _ _ (fun x => proj1 (proj1 (share_bounds x))) Hi) as S1. rewrite <- (ac_slots _ _ A) in S1.
  pose proof (total_elem holds_queue _ _ _ (fun x => proj1 (proj2 (share_bounds x))) Hi) as S2. rewrite <- (ac_queue _ _ A) in S2.
  clear A Hi. destruct th as [p q c e]. unfold blocked, queued_ok, holds_slot, holds_queue, thread_next in *.
  cbn [th_place th_queued th_cancelled th_expired] in *.
  destruct p as [ | | | | | |[] x|[|x]|[|x]|w|w|[|x]|[|x]|o| | | ]; subst; try done;
    repeat match goal with
    | |- context [if (?x <? ?y)%Z then _ else _] => destruct (Z.ltb_spec x y)
    end; try destruct c; try destruct e; cbn; split; intros H0; try done; try lia;
    repeat match goal with H : _ \/ _ |- _ => destruct H as [H|H] | H : exists _, _ |- _ => destruct H as [? H] | H : _ /\ _ |- _ => destruct H end;
    try done; try lia; eauto 6.
  right. right. split_and!; [done|lia|done|done].
Qed.

Lemma finished_shares th :
  finished th -> holds_slot th = 0 /\ holds_queue th = 0 /\ in_active th = 0 /\ in_queued th = 0 /\
    in_admitted th + in_rejected th = 1.
Proof.
  unfold holds_slot, holds_queue, in_active, in_queued, in_admitted, in_rejected.
  intros [->|[x ->]]; done.
Qed.

Lemma total_one f g ths :
  (forall th, In th ths -> f th + g th = 1) -> total f ths + total g ths = Z.of_nat (length ths).
Proof.
  intros H. induction ths as [|y l IH]; [done|]. cbn [total length].
  pose proof (H y (or_introl eq_refl)). assert (total f l + total g l = Z.of_nat (length l)) by (apply IH; intros; apply H; by right). lia.
Qed.

(** A validated configuration has a positive, bounded capacity. *)
Lemma capacity_bounds c : ForwardProxyConfig_Validate c = Ok tt -> 1 <= effectiveMaxConcurrentTunnels c <= 4096.
Proof.
  unfold ForwardProxyConfig_Validate. intros H. do 4 (apply andThen_ok in H as [_ H]). apply andThen_ok in H as [H _].
  apply reject_ok, orb_false_iff in H as [H1 H2]. apply Z.ltb_ge in H1, H2. unfold maxForwardProxyConcurrentTunnels in H2.
  unfold effectiveMaxConcurrentTunnels, defaultForwardProxyMaxConcurrentTunnels.
  destruct (Z.eqb_spec (fc_MaxConcurrentTunnels c) 0); lia.
Qed.

(** An open tunnel, from the return of [acquireTunnel] to the release. *)
Definition is_open (th : thread) : Z := match th_place th with Returned Granted => 1 | _ => 0 end.
Definition is_waiting (th : thread) : Z := match th_place th with AtWait => 1 | _ => 0 end.

(** C31: Whatever the interleaving of requests, timeouts, cancellations and
    releases under a validated configuration: at most the configured number
    of tunnels is open, and at most as many requests wait; a goroutine is
    stopped only when it has returned or waits for a slot while all are taken
    and neither its timer nor its context ended the wait, so no receive ever
    blocks, and each of its statements brings it nearer to its return; and
    once every request is refused or released, both channels are empty, both
    gauges are zero, and every request was counted once. *)
Theorem tunnels_bounded c sy :
  ForwardProxyConfig_Validate c = Ok tt -> tunnels_reachable c sy ->
  let n := effectiveMaxConcurrentTunnels c in
  let s := sy_shared sy in
  (total is_open (sy_threads sy) <= n /\ total is_waiting (sy_threads sy) <= n) /\
  (forall i th, sy_threads sy !! i = Some th ->
     (thread_next n s th = [] <-> (exists o, th_place th = Returned o) \/ th_place th = Released \/ blocked n s th) /\
     forall s' th', In (s', th') (thread_next n s th) -> (rank th' < rank th)%nat) /\
  ((forall th, In th (sy_threads sy) -> finished th) ->
   tunnelSlots s = 0 /\ tunnelQueueSlots s = 0 /\ activeTunnels s = 0 /\ queuedTunnels s = 0 /\
   (admittedTunnels s + rejectedTunnels s) mod 2 ^ 64 = Z.of_nat (length (sy_threads sy)) mod 2 ^ 64).
Proof.
  intros Hv Hr n s. pose proof (capacity_bounds c Hv) as Hn. fold n in Hn.
  assert (A : accounted n sy) by (apply reachable_accounted; [lia|done]). split; [|split].
  - pose proof (ac_slots _ _ A). pose proof (ac_queue _ _ A). pose proof (ac_slots_le _ _ A). pose proof (ac_queue_le _ _ A).
    assert (total is_open (sy_threads sy) <= total holds_slot (sy_threads sy)).
    { apply total_le. intros x. unfold is_open, holds_slot. destruct (th_place x) as [ | | | | | | |[]|[]| | |[]|[]|[]| | | ]; lia. }
    assert (total is_waiting (sy_threads sy) <= total holds_queue (sy_threads sy)).
    { apply total_le. intros x. unfold is_waiting, holds_queue. destruct (th_place x) as [ | | | | | |[]| | | | | | | | | | ]; lia. }
    lia.
  - intros i th Hi. split; [by eapply thread_next_stuck|]. intros s' th'. apply thread_next_rank.
  - intros Hf. unfold s. rewrite (ac_slots _ _ A), (ac_queue _ _ A), (ac_active _ _ A), (ac_queued _ _ A),
      (ac_admitted _ _ A), (ac_rejected _ _ A), <- Zplus_mod.
    split_and!; [apply total_zero; intros th Ht; apply (finished_shares th (Hf th Ht))..|].
    rewrite total_one; [done|]. intros th Ht. apply (finished_shares th (Hf th Ht)).
Qed.

(** ** Concrete interleavings *)

Definition one_tunnel : ForwardProxyConfig :=
  mkForwardProxyConfig ":3128" false [] false None [] 1 0 [] [].

(** A schedule: the goroutine that runs and the case it takes, or an event. *)
Inductive event : Type :=
| EvArrive
| EvRun (i : nat) (case : nat)
| EvRelease (i : nat)
| EvExpire (i : nat).

Definition play1 (n : Z) (sy : system) (ev : event) : option system :=
  let '(mkSystem s ths) := sy in
  match ev with
  | EvArrive => Some (mkSystem s (ths ++ [mkThread AtEnter false false false])%list)
  | EvRun i k =>
      match ths !! i with
      | Some th => match nth_error (thread_next n s th) k with
                   | Some (s', th') => Some (mkSystem s' (<[i := th']> ths))
                   | None => None
                   end
      | None => None
      end
  | EvRelease i =>
      match ths !! i with Some th => Some (mkSystem s (<[i := call_release th]> ths)) | None => None end
  | EvExpire i =>
      match ths !! i with
      | Some (mkThread AtWait q c _) => Some (mkSystem s (<[i := mkThread AtWait q c true]> ths))
      | _ => None
      end
  end.

Fixpoint play (n : Z) (sy : system) (evs : list event) : option system :=
  match evs with
  | [] => Some sy
  | ev :: evs' => match play1 n sy ev with Some sy' => play n sy' evs' | None => None end
  end.

Lemma play1_step n sy ev sy' : play1 n sy ev = Some sy' -> sys_step n sy sy'.
Proof.
  destruct sy as [s ths], ev as [|i k|i|i]; cbn.
  - intros [= <-]. constructor.
  - destruct (ths !! i) as [th|] eqn:E; [|done]. destruct (nth_error _ _) as [[s' th']|] eqn:En; [|done].
    intros [= <-]. eapply ss_run; [exact E|]. by eapply nth_error_In.
  - destruct (ths !! i) as [th|] eqn:E; [|done]. intros [= <-]. by constructor.
  - destruct (ths !! i) as [[p q c e]|] eqn:E; [|done]. destruct p; try done. intros [= <-].
    by apply (ss_expire n s ths i (mkThread AtWait q c e)).
Qed.

Lemma play_reaches n sy evs sy' : play n sy evs = Some sy' -> rtc (sys_step n) sy sy'.
Proof.
  revert sy. induction evs as [|ev evs IH]; cbn; intros sy; [intros [= <-]; apply rtc_refl|].
  destruct (play1 n sy ev) as [s1|] eqn:E; [|done]. intros H. eapply rtc_l; [by eapply play1_step|by apply IH].
Qed.

Definition runs (i : nat) (k : nat) : list event := repeat (EvRun i 0) k.

(** The first request gets the slot, the second waits, the third finds
    the queue full. *)
Definition contention : list event :=
  ([EvArrive; EvArrive; EvArrive] ++ runs 0 4 ++ runs 1 4 ++ runs 2 4)%list.

(** Then the second times out and the first releases. *)
Definition drained : list event := (contention ++ [EvExpire 1] ++ runs 1 6 ++ [EvRelease 0] ++ runs 0 2)%list.

Definition after (evs : list event) : system :=
  default (mkSystem init_shared []) (play 1 (mkSystem init_shared []) evs).

Lemma after_reachable evs : tunnels_reachable one_tunnel (after evs).
Proof.
  unfold after, tunnels_reachable. change (effectiveMaxConcurrentTunnels one_tunnel) with 1.
  destruct (play 1 _ evs) as [sy|] eqn:E; [by eapply play_reaches|apply rtc_refl].
Qed.

(** The gauge is decremented after the slot is free, so it can show one tunnel
    more than are open: the bound is on the channel, not on the gauge. *)
Example gauge_exceeds_slots :
  let sy := after (contention ++ [EvRelease 0; EvRun 0 0; EvRun 1 0] ++ runs 1 3) in
  tunnels_reachable one_tunnel sy /\ tunnelSlots (sy_shared sy) = 1 /\ activeTunnels (sy_shared sy) = 2.
Proof. split; [apply after_reachable|]. by vm_compute. Qed.

Lemma tunnels_bounded_witness :
  total is_open (sy_threads (after contention)) = 1 /\ total is_waiting (sy_threads (after contention)) = 1 /\
  total is_open (sy_threads (after contention)) <= effectiveMaxConcurrentTunnels one_tunnel /\
  length (sy_threads (after drained)) = 3%nat /\
  tunnelSlots (sy_shared (after drained)) = 0 /\ tunnelQueueSlots (sy_shared (after drained)) = 0.
Proof.
  split; [by vm_compute|]. split; [by vm_compute|]. split.
  { exact (proj1 (proj1 (tunnels_bounded one_tunnel (after contention) ltac:(by vm_compute) (after_reachable _)))). }
  split; [by vm_compute|].
  assert (Hf : forall th, In th (sy_threads (after drained)) -> finished th).
  { assert (E : map th_place (sy_threads (after drained)) =
      [Released; Returned (Denied "tunnel_queue_timeout"); Returned (Denied "tunnel_queue_full")]) by (by vm_compute).
    intros th Hin. apply (in_map th_place) in Hin. rewrite E in Hin. unfold finished.
    destruct Hin as [<-|[<-|[<-|[]]]]; eauto. }
  destruct (tunnels_bounded one_tunnel (after drained) ltac:(by vm_compute) (after_reachable _)) as (_ & _ & Hz).
  destruct (Hz Hf) as (H1 & H2 & _). split; [exact H1|exact H2].
Defined.
