(* ===== verification/EgressProps.v ===== *)
(** * Lemmas on the egress policy *)
From stdpp Require Import base list strings gmap.
From Stdlib Require Import ZArith Lia Ascii.
From S2P Require Import Prelude GoStrings GoUrl GoJson GoJsonPrint Contract Validation Egress.


Local Open Scope Z_scope.
Local Open Scope string_scope.

(** ** ASCII text *)

Definition ascii_byte (c : ascii) : bool := (code c <? 0x80)%Z.

Definition lower_byte (c : ascii) : ascii := byte (rune_ToLower (code c)).

Fixpoint map_string (f : ascii -> ascii) (s : string) : string :=
  match s with EmptyString => "" | String c s => String (f c) (map_string f s) end.

Lemma ToLower_ascii s : all_bytes ascii_byte s = true -> ToLower s = map_string lower_byte s.
Proof.
  intros Hs. unfold ToLower. rewrite runes_ascii by exact Hs. induction s as [|c s IH]; [done|].
  cbn [all_bytes] in Hs. apply andb_true_iff in Hs as [Hc Hs]. cbn [String.list_ascii_of_string map foldr map_string].
  rewrite IH by done. unfold ascii_byte in Hc. apply Z.ltb_lt in Hc. pose proof (code_range c).
  unfold EncodeRune. assert (Hr : (rune_ToLower (code c) <? 128)%Z = true).
  { apply Z.ltb_lt. unfold rune_ToLower. rewrite (proj2 (Z.ltb_lt _ _)) by lia. unfold in_range.
    destruct (65 <=? code c)%Z eqn:?, (code c <=? 90)%Z eqn:?; bool_prop; cbn; lia. }
  by rewrite Hr.
Qed.

Lemma map_string_id f s : all_bytes (fun c => (f c =? c)%char) s = true -> map_string f s = s.
Proof.
  induction s as [|c s IH]; [done|]. cbn [all_bytes map_string]. intros H. apply andb_true_iff in H as [H1 H2].
  apply Ascii.eqb_eq in H1. rewrite H1. f_equal. by apply IH.
Qed.

Lemma map_string_length f s : String.length (map_string f s) = String.length s.
Proof. induction s; cbn; congruence. Qed.

Lemma any_byte_all p q s : (forall c, q c = true -> p c = false) -> all_bytes q s = true -> any_byte p s = false.
Proof.
  intros Hq. induction s as [|c s IH]; [done|]. cbn. rewrite andb_true_iff, orb_false_iff. intros [H1 H2]. auto.
Qed.

(** A text of ASCII characters that are no spaces is trimmed. *)
Definition solid (c : ascii) : bool := ascii_byte c && negb (IsSpace (code c)).

Lemma drop_space_solid l : forallb (fun '(r, _) => negb (IsSpace r)) l = true -> drop_space l = l.
Proof. destruct l as [|[r c] l]; [done|]. cbn. by destruct (IsSpace r). Qed.

Lemma concat_chunk1 s : concat_chunks (map (fun c => (code c, chunk1 c)) (String.list_ascii_of_string s)) = s.
Proof. induction s as [|c s IH]; [done|]. unfold concat_chunks in *. cbn [String.list_ascii_of_string map foldr]. by rewrite IH. Qed.

Lemma trimmed_solid s : all_bytes solid s = true -> trimmed s = true.
Proof.
  intros Hs. unfold trimmed, TrimSpace.
  rewrite runes_ascii by (eapply all_bytes_impl; [|exact Hs]; intros c; unfold solid; rewrite andb_true_iff; by intros [? _]).
  set (l := map _ _).
  assert (Hl : forallb (fun '(r, _) => negb (IsSpace r)) l = true).
  { unfold l. clear l. induction s as [|c s IH]; [done|]. cbn [all_bytes] in Hs. apply andb_true_iff in Hs as [H1 H2].
    unfold solid in H1. apply andb_true_iff in H1 as [_ H1]. cbn. by rewrite H1, IH. }
  rewrite (drop_space_solid l Hl), (drop_space_solid (rev l)), rev_involutive.
  - unfold l. rewrite concat_chunk1. apply String.eqb_refl.
  - apply forallb_forall. intros x Hx. apply (proj1 (forallb_forall _ _) Hl). by apply in_rev.
Qed.

(** ** Normalized names *)

Definition domain_char (c : ascii) : bool := domain_rune (code c) || (c =? ".")%char.

Lemma domain_char_ok c : domain_char c = true ->
  solid c = true /\ mem_byte c domain_forbidden = false /\ (lower_byte c =? c)%char = true /\ (c =? "%")%char = false.
Proof. destruct c as [[] [] [] [] [] [] [] []]; vm_compute; intros H; try discriminate H; done. Qed.

Lemma domain_labels_chars n : forallb domain_label (Split n "."%char) = true -> all_bytes domain_char n = true.
Proof.
  intros H. rewrite <- (all_bytes_Split "."%char) by done. apply forallb_forall. intros label Hin.
  pose proof (proj1 (forallb_forall _ _) H label Hin) as Hl. unfold domain_label in Hl.
  repeat (apply andb_true_iff in Hl as [Hl ?]).
  rewrite all_runes_ascii in H0.
  - eapply all_bytes_impl; [|exact H0]. intros c Hc. unfold domain_char. by rewrite Hc.
  - intros r. unfold domain_rune, in_range. intros Hr.
    repeat (apply orb_true_iff in Hr as [Hr|Hr]); bool_prop; lia.
Qed.

(** What a normalized name looks like, whatever it was normalized from. *)
Definition normal (n : string) : Prop :=
  n <> "" /\ ParseAddr n = None /\ len n <= 253 /\ forallb domain_label (Split n "."%char) = true.

Lemma normalizeDomainName_some v n : normalizeDomainName v = Some n ->
  normal n /\ n = ToLower (TrimSuffix v ".") /\ (v =? "") || negb (trimmed v) || ContainsAny v domain_forbidden = false.
Proof.
  intros H. unfold normalizeDomainName in H. destruct (_ || _ || _) eqn:E0 in H; [done|].
  destruct (bool_decide _) eqn:E1 in H; [done|]. destruct (_ || _) eqn:E2 in H; [done|].
  destruct (forallb _ _) eqn:E3 in H; [|done]. injection H as <-. apply orb_false_iff in E2 as [E2 E2'].
  apply bool_decide_eq_false in E1. apply String.eqb_neq in E2. apply Z.ltb_ge in E2'.
  split_and!; [|done|done]. split_and!; [done| |lia|done].
  destruct (ParseAddr _); [|done]. exfalso. apply E1. by eexists.
Qed.

Lemma normal_no_dot n : normal n -> TrimSuffix n "." = n.
Proof.
  intros (_ & _ & _ & Hl). apply TrimSuffix_none. destruct (HasSuffix n ".") eqn:E; [|done].
  apply HasSuffix_iff in E as [p ->]. rewrite (Split_app "."%char p "") in Hl. rewrite forallb_app in Hl.
  apply andb_true_iff in Hl as [_ Hl]. done.
Qed.

(** A normal name normalizes to itself. *)
Lemma normal_fixed n : normal n -> normalizeDomainName n = Some n.
Proof.
  intros Hn. pose proof (normal_no_dot n Hn) as Hd. destruct Hn as (Hne & Ha & Hlen & Hl).
  pose proof (domain_labels_chars n Hl) as Hc. unfold normalizeDomainName. rewrite Hd.
  rewrite ToLower_ascii, map_string_id.
  - rewrite (proj2 (String.eqb_neq n "")) by done. rewrite trimmed_solid.
    + unfold ContainsAny. rewrite (any_byte_all _ domain_char) by (done || intros c Hcc; apply (domain_char_ok c Hcc)).
      rewrite Ha, Hl. rewrite (proj2 (Z.ltb_ge _ _)) by lia. cbn. done.
    + eapply all_bytes_impl; [|exact Hc]. intros c Hcc. apply (domain_char_ok c Hcc).
  - eapply all_bytes_impl; [|exact Hc]. intros c Hcc. apply (domain_char_ok c Hcc).
  - eapply all_bytes_impl; [|exact Hc]. intros c Hcc. destruct (domain_char_ok c Hcc) as [H _].
    unfold solid in H. apply andb_true_iff in H as [H _]. exact H.
Qed.

Lemma normal_no_percent n : normal n -> has_byte n "%"%char = false.
Proof.
  intros (_ & _ & _ & Hl). apply domain_labels_chars in Hl. unfold has_byte.
  apply (any_byte_all _ domain_char); [|done]. intros c Hc. rewrite Ascii.eqb_sym. apply (domain_char_ok c Hc).
Qed.

(** * What the egress policy guarantees *)

Local Open Scope Z_scope.
Local Open Scope string_scope.

(** ** The two implementations of the domain policy *)

(** An entry the contract accepts is one the daemon accepts, with the same
    normal form. *)
Lemma contract_entry_normal v n : normalizedDomainPolicyEntry v = Some n -> normalizeDomainName v = Some n.
Proof.
  unfold normalizedDomainPolicyEntry, normalizeDomainName. intros H.
  destruct (_ || _ || _ || _) eqn:E0 in H; [done|]. rewrite !orb_false_iff in E0. destruct E0 as [[[E0 E1] _] E3].
  rewrite E0, E1, E3. cbn [orb]. set (low := ToLower (TrimSuffix v ".")) in *.
  destruct (bool_decide _) eqn:E4 in H; [done|]. destruct (_ || _) eqn:E5 in H; [done|].
  destruct (forallb _ _) eqn:E6 in H; [|done]. rewrite E5, E6.
  assert (Hp : has_byte low "%"%char = false).
  { unfold has_byte. apply domain_labels_chars in E6. apply (any_byte_all _ domain_char); [|done].
    intros c Hc. rewrite Ascii.eqb_sym. apply (domain_char_ok c Hc). }
  rewrite bool_decide_eq_false_2; [done|]. rewrite <- ParseIP_ParseAddr by done.
  by apply bool_decide_eq_false in E4.
Qed.

Lemma lower_percent s : all_bytes ascii_byte s = true -> has_byte s "%"%char = false ->
  has_byte (map_string lower_byte s) "%"%char = false.
Proof.
  assert (Hc : forall c, ascii_byte c = true -> (("%" =? lower_byte c) = ("%" =? c))%char).
  { intros c. destruct c as [[] [] [] [] [] [] [] []]; vm_compute; intros H; try discriminate H; reflexivity. }
  unfold has_byte. induction s as [|c s IH]; [done|]. cbn [all_bytes any_byte map_string].
  intros Ha H. apply andb_true_iff in Ha as [H1 H2]. apply orb_false_iff in H as [H3 H4].
  by rewrite Hc, H3, IH.
Qed.

Lemma all_bytes_TrimSuffix q s x : all_bytes q s = true -> all_bytes q (TrimSuffix s x) = true.
Proof. unfold TrimSuffix. destruct (HasSuffix s x); [apply all_bytes_substring|done]. Qed.

Lemma TrimSuffix_dot_length s : (String.length s <= S (String.length (TrimSuffix s ".")))%nat.
Proof.
  destruct (HasSuffix s ".") eqn:E; [|rewrite TrimSuffix_none by done; lia].
  apply HasSuffix_iff in E as [p ->]. rewrite TrimSuffix_app, str_length_app. cbn. lia.
Qed.

(** A host name in ASCII the contract rejects is one the daemon rejects. *)
Lemma contract_host_none h : all_bytes ascii_byte h = true ->
  normalizedDomainPolicyEntry h = None -> normalizeDomainName h = None.
Proof.
  intros Ha H. destruct (normalizeDomainName h) as [n|] eqn:En; [exfalso|done].
  apply normalizeDomainName_some in En as ((Hne & Hp & Hlen & Hl) & En & E0).
  rewrite !orb_false_iff in E0. destruct E0 as [[E0 E1] E3]. unfold normalizedDomainPolicyEntry in H.
  rewrite E0, E1, E3, <- En in H. rewrite orb_false_r in H. cbn [orb] in H.
  destruct (254 <? len h)%Z eqn:E2.
  { apply Z.ltb_lt in E2. rewrite ToLower_ascii in En by (by apply all_bytes_TrimSuffix). subst n.
    unfold len in *. rewrite map_string_length in Hlen. pose proof (TrimSuffix_dot_length h). lia. }
  rewrite bool_decide_eq_false_2 in H.
  - rewrite (proj2 (String.eqb_neq n "")), (proj2 (Z.ltb_ge _ _)), Hl in H by (done || lia). discriminate H.
  - rewrite ParseIP_ParseAddr; [rewrite Hp; by intros [? ?]|].
    apply domain_labels_chars in Hl. unfold has_byte. apply (any_byte_all _ domain_char); [|done].
    intros c Hc. rewrite Ascii.eqb_sym. apply (domain_char_ok c Hc).
Qed.

Lemma existsb_ext {A} (f g : A -> bool) l : (forall x, In x l -> f x = g x) -> existsb f l = existsb g l.
Proof. intros H. induction l as [|x l IH]; [done|]. cbn. rewrite H by (by left). f_equal. apply IH. intros y Hy. apply H. by right. Qed.

(** Every entry of a policy the contract accepts normalizes. *)
Lemma policy_entries p e : validateDomainPolicy (Some p) = Ok tt ->
  In e (elems (dp_Allow p)) \/ In e (elems (dp_Deny p)) -> exists n, normalizedDomainPolicyEntry e = Some n.
Proof.
  intros H Hin. cbn [validateDomainPolicy] in H. apply andThen_ok in H as [_ H]. apply andThen_ok in H as [_ H].
  rewrite each_ok in H.
  assert (Hs : forall l, In e l -> each_seen (fun seen entry =>
      match normalizedDomainPolicyEntry entry with
      | None => Err "egress domain policy entry is invalid or duplicated"
      | Some normalized =>
          reject (mem normalized (map (fun e0 => default "" (normalizedDomainPolicyEntry e0)) seen))
            "egress domain policy entry is invalid or duplicated"
      end) [] l = Ok tt -> exists n, normalizedDomainPolicyEntry e = Some n).
  { intros l Hl Hl'. apply in_split in Hl as (l1 & l2 & ->). rewrite each_seen_ok in Hl'.
    specialize (Hl' l1 e l2 eq_refl). cbn in Hl'. destruct (normalizedDomainPolicyEntry e) as [n|]; [by exists n|done]. }
  destruct Hin as [Hin|Hin]; (eapply Hs; [exact Hin|apply H; cbn; auto]).
Qed.

Lemma contract_entries_checked name l :
  each_seen (fun seen entry =>
    match normalizedDomainPolicyEntry entry with
    | None => Err "egress domain policy entry is invalid or duplicated"
    | Some normalized =>
        reject (mem normalized (map (fun e => default "" (normalizedDomainPolicyEntry e)) seen))
          "egress domain policy entry is invalid or duplicated"
    end) [] l = Ok tt -> check_entries name l = Ok tt.
Proof.
  unfold check_entries. rewrite !each_seen_ok. intros H l1 e l2 ->. cbn [app].
  assert (Hn : forall l1' e' l2', (l1 ++ e :: l2)%list = (l1' ++ e' :: l2')%list ->
    exists n, normalizedDomainPolicyEntry e' = Some n).
  { intros l1' e' l2' E. specialize (H l1' e' l2' E). cbn in H.
    destruct (normalizedDomainPolicyEntry e') as [n|]; [by exists n|done]. }
  destruct (Hn l1 e l2 eq_refl) as [n En]. rewrite (contract_entry_normal _ _ En).
  specialize (H l1 e l2 eq_refl). cbn [app] in H. rewrite En in H. apply reject_ok in H. apply reject_ok.
  rewrite <- H. f_equal. apply map_ext_in. intros e' Hin. apply in_split in Hin as (a & b & ->).
  destruct (Hn a e' (b ++ e :: l2)%list) as [m Em]; [by rewrite <- app_assoc|].
  by rewrite (contract_entry_normal _ _ Em), Em.
Qed.

Lemma contract_policy_validates p : validateDomainPolicy (Some p) = Ok tt -> DomainPolicy_Validate p = Ok tt.
Proof.
  cbn [validateDomainPolicy]. intros H. apply andThen_ok in H as [H1 H]. apply andThen_ok in H as [H2 H].
  apply reject_ok in H1, H2. cbn [each] in H. apply andThen_ok in H as [H3 H]. apply andThen_ok in H as [H4 _].
  unfold DomainPolicy_Validate. rewrite !andThen_ok, !reject_ok. split_and!; [done|done| |]; by apply contract_entries_checked.
Qed.

(** The daemon enforces the domain policy the controller validated: for
    every policy the resolved-run contract accepts, the egress daemon accepts
    it too, and for every ASCII host name both decide alike. *)
Theorem domain_policy_agrees p host :
  validateDomainPolicy (Some p) = Ok tt -> all_bytes ascii_byte host = true ->
  DomainPolicy_Validate p = Ok tt /\ fst (Decide p host) = domainPolicyAllows p host.
Proof.
  intros Hp Ha. split; [by apply contract_policy_validates|]. unfold Decide, domainPolicyAllows.
  assert (Hrule : forall e n, In e (elems (dp_Allow p)) \/ In e (elems (dp_Deny p)) ->
    domainRuleMatches n (rule_of e) = rule_matches n e).
  { intros e n Hin. destruct (policy_entries p e Hp Hin) as [m Hm]. unfold rule_of, rule_matches.
    by rewrite (contract_entry_normal _ _ Hm), Hm. }
  assert (Hd : (dp_DefaultAction p =? "deny") = negb (dp_DefaultAction p =? "allow")).
  { cbn [validateDomainPolicy] in Hp. apply andThen_ok in Hp as [Hp _]. apply reject_ok in Hp.
    destruct (String.eqb_spec (dp_DefaultAction p) "allow") as [->|_]; [done|].
    by destruct (dp_DefaultAction p =? "deny"). }
  destruct (normalizedDomainPolicyEntry host) as [n|] eqn:En.
  - rewrite (contract_entry_normal _ _ En).
    rewrite (existsb_ext _ (rule_matches n) (elems (dp_Deny p))) by (intros e He; apply Hrule; by right).
    rewrite (existsb_ext _ (rule_matches n) (elems (dp_Allow p))) by (intros e He; apply Hrule; by left).
    destruct (existsb _ _); [done|]. destruct (existsb _ _); [done|]. by destruct (_ =? "allow").
  - rewrite (contract_host_none _ Ha En), Hd. by destruct (_ =? "allow").
Qed.

(** ** Decisions *)

(** A name is under a rule when the rule's labels end its labels. *)
Definition under (name rule : string) : Prop := exists pre, Split name "."%char = (pre ++ Split rule "."%char)%list.

Lemma domainRuleMatches_under host rule : domainRuleMatches host rule = true <-> under host rule.
Proof.
  unfold domainRuleMatches, under. rewrite orb_true_iff, String.eqb_eq, HasSuffix_iff, <- suffix_parts.
  split; (intros [H|[q H]]; [by left|right; exists q; exact H]).
Qed.

(** A decision of the domain policy, on every branch: a name is allowed
    exactly when it is under no deny rule, and under an allow rule or allowed
    by default; a host that is no domain name is allowed exactly when the
    default is not deny.  Rules match at label boundaries only. *)
Theorem decide_by_labels p host :
  fst (Decide p host) = true <->
  match normalizeDomainName host with
  | Some name =>
      (~ exists rule, In rule (elems (dp_Deny p)) /\ under name (rule_of rule)) /\
      ((exists rule, In rule (elems (dp_Allow p)) /\ under name (rule_of rule)) \/ dp_DefaultAction p = "allow")
  | None => dp_DefaultAction p <> "deny"
  end.
Proof.
  unfold Decide. destruct (normalizeDomainName host) as [name|].
  - assert (Hex : forall l, existsb (fun rule => domainRuleMatches name (rule_of rule)) l = true <->
      exists rule, In rule l /\ under name (rule_of rule)).
    { intros l. rewrite existsb_exists. split; intros (rule & Hin & H); exists rule; (split; [done|]);
        by apply domainRuleMatches_under. }
    rewrite <- !Hex. destruct (existsb _ (elems (dp_Deny p))); [cbn; split; [done|by intros [[] _]]|].
    destruct (existsb _ (elems (dp_Allow p))); [cbn; split; [auto|done]|].
    destruct (String.eqb_spec (dp_DefaultAction p) "allow") as [->|N]; cbn; split; [auto|done|done|].
    intros [_ [?|?]]; done.
  - destruct (String.eqb_spec (dp_DefaultAction p) "deny") as [->|N]; cbn; split; congruence.
Qed.

(** Normalization is idempotent, and its result is a lower-case ASCII
    domain name of at most 253 bytes that is no IP address: policy rules,
    allow lists and routes that were normalized once compare by equality. *)
Theorem normalization_idempotent v n :
  normalizeDomainName v = Some n ->
  normalizeDomainName n = Some n /\ all_bytes domain_char n = true /\ 0 < len n <= 253 /\ ParseAddr n = None.
Proof.
  intros H. apply normalizeDomainName_some in H as (Hn & _ & _). split; [by apply normal_fixed|].
  destruct Hn as (Hne & Ha & Hlen & Hl). split_and!; [by apply domain_labels_chars| |done|done].
  destruct n; [done|]. unfold len. cbn. lia.
Qed.

(** ** Destinations *)

Lemma digits_value_nonneg s acc n : 0 <= acc -> digits_value s acc = Some n -> 0 <= n.
Proof.
  revert acc. induction s as [|c s IH]; cbn; intros acc Ha; [by intros [= <-]|].
  destruct (is_digit c) eqn:E; [|done]. apply IH. unfold is_digit, in_range in E. bool_prop. lia.
Qed.

Lemma ParsePrefix_bits s p : ParsePrefix s = Some p -> 0 <= pfx_bits p <= BitLen (pfx_addr p).
Proof.
  unfold ParsePrefix. destruct (cut_last s "/"%char) as [[text bits]|]; [|done].
  destruct (ParseAddr text) as [a|]; [|done]. destruct (decimal bits) as [n|] eqn:En; [|done].
  destruct (_ || _) eqn:E; [done|]. intros [= <-]. cbn. apply orb_false_iff in E as [_ E]. apply Z.ltb_ge in E.
  split; [|done]. unfold decimal in En. destruct bits; [done|]. by eapply digits_value_nonneg; [|exact En].
Qed.

(** The first and the last address of a prefix, as numbers. *)
Definition prefix_first (p : Prefix) : Z :=
  let k := BitLen (pfx_addr p) - pfx_bits p in addr_value (pfx_addr p) / 2 ^ k * 2 ^ k.
Definition prefix_last (p : Prefix) : Z := prefix_first p + 2 ^ (BitLen (pfx_addr p) - pfx_bits p) - 1.

Lemma contains_range p a : 0 <= pfx_bits p <= BitLen (pfx_addr p) ->
  prefix_Contains p a = true <->
  no_zone a = true /\ BitLen (pfx_addr p) = BitLen a /\ prefix_first p <= addr_value a <= prefix_last p.
Proof.
  intros Hb. unfold prefix_Contains, prefix_last, prefix_first. cbv zeta. rewrite !andb_true_iff, !Z.eqb_eq.
  split; [intros [[H1 H2] H3]|intros (H1 & H2 & H3)]; split_and?; try done.
  - rewrite <- H2, !Z.shiftr_div_pow2 in H3 by lia. rewrite <- H3.
    pose proof (Z.mul_div_le (addr_value a) (2 ^ (BitLen (pfx_addr p) - pfx_bits p)) ltac:(lia)). lia.
  - rewrite <- H2, !Z.shiftr_div_pow2 in H3 by lia. rewrite <- H3.
    pose proof (Z.mul_succ_div_gt (addr_value a) (2 ^ (BitLen (pfx_addr p) - pfx_bits p)) ltac:(lia)). lia.
  - rewrite <- H2, !Z.shiftr_div_pow2 by lia. symmetry. eapply (Z.div_unique_pos _ _ _ (addr_value a - prefix_first p));
      unfold prefix_first; lia.
Qed.

Lemma Unmap_idem a : Unmap (Unmap a) = Unmap a.
Proof. unfold Unmap at 2 3. destruct (negb _ && _) eqn:E; [done|]. unfold Unmap. by rewrite E. Qed.

Lemma Unmap_no_zone a : no_zone a = true -> no_zone (Unmap a) = true.
Proof. unfold Unmap. by destruct (_ && _). Qed.

Lemma in_omap {A B} (f : A -> option B) l x y : In x l -> f x = Some y -> In y (omap f l).
Proof. intros Hin Hf. apply list_elem_of_In, list_elem_of_omap. exists x. split; [by apply list_elem_of_In|done]. Qed.

(** Non-public destinations are refused: whatever prefixes are configured
    in addition, an address (or the IPv4 address an IPv4-mapped one stands
    for) between the first and the last address of a built-in denied range is
    not allowed. *)
Theorem denied_ranges_refused configured policy text p a :
  newDestinationPolicy configured = Some policy ->
  In text defaultDeniedPrefixes -> ParsePrefix text = Some p ->
  no_zone a = true -> BitLen (pfx_addr p) = BitLen (Unmap a) ->
  prefix_first p <= addr_value (Unmap a) <= prefix_last p ->
  allowed policy a = false.
Proof.
  intros Hp Hin Ht Hz Hl Hr. unfold allowed. destruct (_ || _); [done|]. apply negb_false_iff, existsb_exists.
  exists p. split.
  - unfold newDestinationPolicy in Hp. destruct (configured_prefixes configured) as [ps|]; [|done].
    apply (inj Some) in Hp. subst policy. cbn [dst_denied]. apply in_or_app. left. unfold mustPrefixes. by eapply in_omap.
  - apply contains_range; [by eapply ParsePrefix_bits|]. split_and!; [by apply Unmap_no_zone|done|lia|lia].
Qed.

Lemma dedup_in seen l a : In a (dedup seen l) <-> In a l /\ ~ In a seen.
Proof.
  revert seen. induction l as [|x l IH]; intros seen; cbn; [tauto|].
  case_bool_decide as E; rewrite list_elem_of_In in E.
  - rewrite IH. split; [tauto|]. intros [[->|H] N]; tauto.
  - cbn. rewrite IH. cbn. destruct (decide (x = a)) as [->|N]; [tauto|]. split; [|tauto].
    intros [->|(H1 & H2)]; [done|]. tauto.
Qed.

Lemma dedup_NoDup seen l : List.NoDup (dedup seen l).
Proof.
  revert seen. induction l as [|x l IH]; intros seen; cbn; [constructor|]. case_bool_decide; [apply IH|].
  constructor; [|apply IH]. rewrite dedup_in. cbn. tauto.
Qed.

(** The addresses a host resolves to: each once, each allowed; for a name,
    they are the resolver's whole answer, every part of which is allowed. *)
Lemma resolve_allowed resolver policy host addrs :
  resolveAllowedAddresses resolver policy host = Ok addrs ->
  addrs <> [] /\ List.NoDup addrs /\ (forall a, In a addrs -> allowed policy a = true /\ Unmap a = a) /\
  (ParseAddr host = None -> exists answer, resolver host = Some answer /\ forall a, In a addrs <-> In a (map Unmap answer)).
Proof.
  unfold resolveAllowedAddresses. destruct (ParseAddr host) as [lit|].
  { destruct (allowed policy (Unmap lit)) eqn:E; [|done]. intros [= <-]. split_and!; [done|constructor; [intros []|constructor]| |done].
    intros a [<-|[]]. split; [done|apply Unmap_idem]. }
  destruct (resolver host) as [[|x xs]|]; [done| |done]. cbv zeta.
  destruct (forallb (allowed policy) (map Unmap (x :: xs))) eqn:E; [|done]. remember (map Unmap (x :: xs)) as l eqn:El.
  intros [= <-]. set (d := dedup [] l).
  assert (Hd : forall a, In a (List.filter addr_is4 d ++ List.filter (fun a => negb (addr_is4 a)) d)%list <-> In a l).
  { intros a. rewrite in_app_iff, !List.filter_In. unfold d. rewrite dedup_in. cbn. destruct (addr_is4 a); tauto. }
  assert (Hall : forall a, In a l -> allowed policy a = true) by (by apply forallb_forall).
  split_and!.
  - intros Hn. apply (in_nil (a := Unmap x)). rewrite <- Hn. apply Hd. subst l. by left.
  - apply List.NoDup_app; [apply List.NoDup_filter, dedup_NoDup|apply List.NoDup_filter, dedup_NoDup|].
    intros a Ha Hb. apply List.filter_In in Ha as [_ Ha]. apply List.filter_In in Hb as [_ Hb]. by rewrite Ha in Hb.
  - intros a Ha. apply Hd in Ha. split; [by apply Hall|]. subst l. apply in_map_iff in Ha as (b & <- & _). apply Unmap_idem.
  - intros _. exists (x :: xs). split; [done|]. intros a. by rewrite Hd, El.
Qed.

(** ** CONNECT admission *)

Lemma parseConnectTarget_port v target : parseConnectTarget v = Some target -> 1 <= ct_port target <= 65535.
Proof.
  unfold parseConnectTarget. destruct (_ || _); [done|]. destruct (SplitHostPort v) as [[h p]|]; [|done].
  destruct (normalizeProxyHost h); [|done]. destruct (Atoi p) as [port|]; [|done].
  destruct (_ || _) eqn:E; [done|]. intros [= <-]. cbn. apply orb_false_iff in E as [E1 E2].
  apply Z.ltb_ge in E1, E2. lia.
Qed.

(** The request target is the parsed URL host, and any Host header agrees. *)
Lemma connectTarget_url u h target : connectTargetFromRequest u h = Some target ->
  parseConnectTarget u = Some target /\ (h = "" \/ parseConnectTarget h = Some target).
Proof.
  unfold connectTargetFromRequest. destruct (parseConnectTarget u) as [t|]; [|done].
  destruct (String.eqb_spec h "") as [->|N]; [intros [= ->]; auto|].
  destruct (parseConnectTarget h) as [t'|]; [|done]. case_bool_decide as E; [|done]. intros [= ->]. subst t'. auto.
Qed.

(** Without a capability hint, a host with an automatic route never falls
    through to a blind tunnel. *)
Lemma no_route c host hint :
  (if fc_TransparentMode c then transparentInjectProxy c host hint else injectProxy c host hint) = NoRoute ->
  routes_for c host = [] \/
  hint = "" /\ forall route, In route (routes_for c host) -> ir_RequireCapabilityHint route = true.
Proof.
  assert (Ha : forall routes, auto_route routes = NoRoute ->
    forall route, In route routes -> ir_RequireCapabilityHint route = true).
  { intros routes H route Hin. unfold auto_route in H.
    destruct (List.filter _ routes) as [|x [|y l]] eqn:E; [|done|done].
    destruct (ir_RequireCapabilityHint route) eqn:Er; [done|exfalso].
    assert (Hf : In route (List.filter (fun route => negb (ir_RequireCapabilityHint route)) routes))
      by (apply List.filter_In; by rewrite Er). by rewrite E in Hf. }
  assert (Hi : injectProxy c host hint = NoRoute -> routes_for c host = [] \/
    hint = "" /\ forall route, In route (routes_for c host) -> ir_RequireCapabilityHint route = true).
  { unfold injectProxy. destruct (routes_for c host) as [|r rs] eqn:Er; [by left|].
    destruct (String.eqb_spec hint "") as [->|N]; cbn [negb].
    - intros H. right. split; [done|]. by apply Ha.
    - unfold hinted_route. by destruct (List.find _ _). }
  destruct (fc_TransparentMode c); [|exact Hi]. unfold transparentInjectProxy.
  destruct (routes_for c host) as [|r rs] eqn:Er; [by left|].
  destruct (String.eqb_spec hint "") as [->|N]; cbn [negb]; [|exact Hi].
  intros H. right. split; [done|]. by apply Ha.
Qed.

(** C30: A blind tunnel is opened only when every part of the policy agrees:
    a well-formed target that the Host header does not contradict, an allowed
    port, a host the domain policy (or, without one, the allow list) admits,
    no injecting route for it, a free tunnel slot, and only to addresses each
    of which is allowed and outside every denied prefix; for a name these are
    exactly the resolver's answers, so one denied answer refuses the request. *)
Theorem connect_enforced c resolver urlHost hostHeader hint acquired target addrs :
  ForwardProxyConfig_Validate c = Ok tt ->
  serve_connect c resolver urlHost hostHeader hint acquired = Tunnelled target addrs ->
  (parseConnectTarget urlHost = Some target /\ (hostHeader = "" \/ parseConnectTarget hostHeader = Some target)) /\
  (1 <= ct_port target <= 65535 /\ In (ct_port target) (effectiveAllowPorts c)) /\
  match fc_DomainPolicy c with
  | Some policy => fst (Decide policy (ct_host target)) = true
  | None => fc_AllowUnmatchedHosts c = true \/ In (ct_host target) (allowHosts c)
  end /\
  (routes_for c (ct_host target) = [] \/
   hint = "" /\ forall route, In route (routes_for c (ct_host target)) -> ir_RequireCapabilityHint route = true) /\
  acquired = "" /\ addrs <> [] /\ List.NoDup addrs /\
  (forall a, In a addrs -> exists configured,
     configured_prefixes (fc_DenyCIDRs c) = Some configured /\
     forall p, In p (mustPrefixes defaultDeniedPrefixes ++ configured)%list -> prefix_Contains p a = false) /\
  (ParseAddr (ct_host target) = None ->
   exists answer, resolver (ct_host target) = Some answer /\ forall a, In a addrs <-> In a (map Unmap answer)).
Proof.
  intros Hv H. unfold serve_connect in H. destruct (connectTargetFromRequest urlHost hostHeader) as [t|] eqn:Et; [|done].
  apply connectTarget_url in Et. destruct (portAllowed c (ct_port t)) eqn:Ep; [|done]. cbn [negb] in H.
  destruct (negb (fst _)) eqn:Ed in H; [done|]. apply negb_false_iff in Ed.
  destruct (if fc_TransparentMode c then _ else _) eqn:Er in H; [|done|done]. apply no_route in Er.
  destruct (target_allowed c t) as [ok reason] eqn:Ea. destruct ok; [|done]. cbn [negb] in H.
  destruct (String.eqb_spec acquired "") as [->|]; [|done]. cbn [negb] in H.
  destruct (resolveAllowedAddresses _ _ _) as [l|] eqn:Ers; [|done]. injection H as -> <-.
  apply resolve_allowed in Ers as (Hne & Hnd & Hall & Hname).
  split; [exact Et|]. split; [split|split; [|split; [exact Er|split; [done|split; [exact Hne|split; [exact Hnd|split; [|exact Hname]]]]]]].
  - eapply parseConnectTarget_port, Et.
  - unfold portAllowed in Ep. apply existsb_exists in Ep as (q & Hq & E). apply Z.eqb_eq in E. by subst q.
  - unfold target_allowed in Ea. rewrite Ep in Ea. cbn [negb] in Ea. destruct (fc_DomainPolicy c); [by rewrite Ea|].
    destruct (fc_AllowUnmatchedHosts c); [by left|]. cbn [orb] in Ea.
    destruct (mem _ _) eqn:Em; [|done]. right. unfold mem in Em. apply existsb_exists in Em as (x & Hx & E).
    apply String.eqb_eq in E. by subst x.
  - intros a Hin. destruct (Hall a Hin) as [Hal Hu]. unfold ForwardProxyConfig_Validate in Hv.
    do 6 (apply andThen_ok in Hv as [_ Hv]). apply andThen_ok in Hv as [Hv _]. apply reject_ok, bool_decide_eq_false in Hv.
    unfold destination_policy in Hal. unfold newDestinationPolicy in *.
    destruct (configured_prefixes (fc_DenyCIDRs c)) as [ps|]; [|done]. exists ps. split; [done|]. intros p Hp.
    unfold allowed in Hal. rewrite Hu in Hal. destruct (_ || _ || _ || _ || _ || _) in Hal; [done|].
    apply negb_true_iff in Hal. destruct (prefix_Contains p a) eqn:Ec; [|done].
    rewrite <- Hal. symmetry. apply existsb_exists. exists p. split; [exact Hp|exact Ec].
Qed.

(** ** Instances *)

Definition fixture_policy : DomainPolicy := mkDomainPolicy "deny" (Some ["example.com"]) (Some ["internal.example.com"]).

Definition fixture_proxy : ForwardProxyConfig :=
  mkForwardProxyConfig ":3128" false [] false (Some fixture_policy) [] 0 0 ["100.100.0.0/16"]
    [mkInjectRoute "api.example.com" "github" "api.example.com:443" false "" "" false 0 false].

Definition public_address : Addr := mkAddr true (v4InV6Prefix ++ [93; 184; 216; 34])%list "".
Definition metadata_address : Addr := mkAddr true (v4InV6Prefix ++ [169; 254; 169; 254])%list "".

(** One name with a public answer twice, every other name with a private one. *)
Definition fixture_resolver : IPResolver := fun host =>
  if host =? "www.example.com" then Some [public_address; public_address] else Some [metadata_address].

Lemma domain_policy_agrees_witness :
  DomainPolicy_Validate fixture_policy = Ok tt /\
  fst (Decide fixture_policy "Docs.Example.COM.") = domainPolicyAllows fixture_policy "Docs.Example.COM.".
Proof. apply (domain_policy_agrees fixture_policy "Docs.Example.COM."); vm_compute; reflexivity. Defined.

Lemma normalization_idempotent_witness :
  normalizeDomainName "Docs.Example.COM." = Some "docs.example.com" /\
  normalizeDomainName "docs.example.com" = Some "docs.example.com".
Proof.
  assert (H : normalizeDomainName "Docs.Example.COM." = Some "docs.example.com") by (vm_compute; reflexivity).
  split; [exact H|]. exact (proj1 (normalization_idempotent "Docs.Example.COM." "docs.example.com" H)).
Defined.

(** The metadata service, also as an IPv4-mapped address. *)
Lemma denied_ranges_refused_witness :
  allowed (default (mkDestinationPolicy []) (newDestinationPolicy [])) (mkAddr false (addr_bytes metadata_address) "") = false.
Proof.
  apply (denied_ranges_refused [] _ "169.254.0.0/16"
    (default (mkPrefix metadata_address 0) (ParsePrefix "169.254.0.0/16"))
    (mkAddr false (addr_bytes metadata_address) ""));
    [vm_compute; reflexivity|do 4 right; left; reflexivity|vm_compute; reflexivity|vm_compute; reflexivity
    |vm_compute; reflexivity|vm_compute; split; congruence].
Defined.

Lemma connect_enforced_witness :
  serve_connect fixture_proxy fixture_resolver "www.example.com:443" "" "" "" =
    Tunnelled (mkConnectTarget "www.example.com" 443) [public_address] /\
  fst (Decide fixture_policy "www.example.com") = true.
Proof.
  assert (H : serve_connect fixture_proxy fixture_resolver "www.example.com:443" "" "" "" =
    Tunnelled (mkConnectTarget "www.example.com" 443) [public_address]) by (vm_compute; reflexivity).
  assert (Hv : ForwardProxyConfig_Validate fixture_proxy = Ok tt) by (vm_compute; reflexivity).
  split; [exact H|].
  exact (proj1 (proj2 (proj2 (connect_enforced fixture_proxy fixture_resolver "www.example.com:443" "" "" ""
    (mkConnectTarget "www.example.com" 443) [public_address] Hv H)))).
Defined.
