(* ===== verification/LocalRun.v ===== *)
(** * Local runs: states, inputs and identifiers

    localcontroller/internal/controller/types.go, and the identifier checks
    at the end of store.go.  A Go [State] is a string: any text a caller or a
    database row carries is a value of the type, and [State_valid] says which
    seven are states. *)
From stdpp Require Import base list strings.
From Stdlib Require Import ZArith Lia.
From S2P Require Import Prelude GoStrings.

Local Open Scope Z_scope.
Local Open Scope string_scope.

Definition APIVersion : string := "nvt.local-runs/v1".
Definition MaxIdempotencyKeyBytes : Z := 256.
Definition MaxOwnerBytes : Z := 128.
Definition MaxReasonBytes : Z := 128.
Definition MaxLifecycleCursorBytes : Z := 256.
Definition MaxListLimit : Z := 500.

(** ** States *)

Definition State : Type := string.

Definition StatePending : State := "pending".
Definition StatePreparing : State := "preparing".
Definition StateRunning : State := "running".
Definition StateStopping : State := "stopping".
Definition StateCompleted : State := "completed".
Definition StateFailed : State := "failed".
Definition StateExpired : State := "expired".

Definition State_valid (s : State) : bool :=
  existsb (String.eqb s)
    [StatePending; StatePreparing; StateRunning; StateStopping;
     StateCompleted; StateFailed; StateExpired].

Definition State_terminal (s : State) : bool :=
  (s =? StateCompleted) || (s =? StateFailed) || (s =? StateExpired).

Definition State_active (s : State) : bool := State_valid s && negb (State_terminal s).

Definition transitionAllowed (from to : State) : bool :=
  if from =? StatePending then (to =? StatePreparing) || (to =? StateStopping)
  else if from =? StatePreparing then (to =? StateRunning) || (to =? StateStopping)
  else if from =? StateRunning then (to =? StatePreparing) || (to =? StateStopping)
  else if from =? StateStopping then
    (to =? StateCompleted) || (to =? StateFailed) || (to =? StateExpired)
  else false.

(** ** Errors

    The sentinel errors of the package.  [ErrDestructiveReconcile] carries the
    run names of its message.  [NilDereference] stands for the panic of
    dereferencing a nil pointer. *)
Inductive error : Type :=
| ErrInvalidRequest
| ErrNotFound
| ErrGone
| ErrConflict
| ErrActiveGroup
| ErrCapacityExceeded
| ErrInvalidTransition
| ErrOwnershipConflict
| ErrStoreUnavailable
| ErrDestructiveReconcile (prune replace : list string)
| ErrBackendRetryable
| ErrBackendDesiredRunInvalid
| NilDereference.

#[export] Instance error_eq_dec : EqDecision error.
Proof. solve_decision. Defined.

(** ** Inputs and views *)

(** Instants are nanoseconds on one UTC axis; durations are nanoseconds. *)
Definition time : Type := Z.
Definition Second : Z := 1000000000.
Definition Hour : Z := 3600 * Second.

Record CreateInput := mkCreateInput {
  ci_IdempotencyKey : string;
  ci_ActiveGroup : string;
  ci_ResolvedRun : string
}.

Record ClaimInput := mkClaimInput {
  cl_RunID : string;
  cl_Owner : string;
  cl_ExpectedRevision : Z;
  cl_Lease : Z
}.

Record StatusInput := mkStatusInput {
  si_RunID : string;
  si_Owner : string;
  si_ExpectedRevision : Z;
  si_State : State;
  si_TerminalTarget : State;
  si_Reason : string;
  si_LifecycleCursor : option string
}.

Record Run := mkRun {
  v_APIVersion : string;
  v_RunID : string;
  v_State : State;
  v_Revision : Z;
  v_SnapshotDigest : string;
  v_Issuer : string;
  v_Subject : string;
  v_SourceURL : string;
  v_Profile : string;
  v_Workflow : string;
  v_Retention : string;
  v_Persistent : bool;
  v_CreatedAt : time;
  v_UpdatedAt : time;
  v_DeadlineAt : option time;
  v_TerminalExpiresAt : option time;
  v_DeleteRequested : bool;
  v_TerminalTarget : State;
  v_LastReason : string;
  v_ReconcileOwner : string;
  v_ReconcileUntil : option time
}.

(** The zero value [Run{}]. *)
Definition zero_Run : Run :=
  mkRun "" "" "" 0 "" "" "" "" "" "" "" false 0 0 None None false "" "" "" None.

Record ListResult := mkListResult {
  lr_APIVersion : string;
  lr_Runs : list Run;
  lr_NextAfter : string
}.

Record CreateResult := mkCreateResult { cr_Run : Run; cr_Created : bool }.

Definition zero_CreateResult : CreateResult := mkCreateResult zero_Run false.

Definition persistentRun (workspace runtimeState dockerData : bool) : bool :=
  workspace || runtimeState || dockerData.

(** ** Identifiers *)

Definition lowerAlphaNumeric (c : Ascii.ascii) : bool :=
  in_range 97 122 (code c) || in_range 48 57 (code c).

Definition first_byte (s : string) : option Ascii.ascii := String.get 0 s.
Definition last_byte (s : string) : option Ascii.ascii := String.get (String.length s - 1) s.

Definition opt_test (p : Ascii.ascii -> bool) (o : option Ascii.ascii) : bool :=
  match o with Some c => p c | None => false end.

Definition validRunID (value : string) : bool :=
  if (len value =? 0)%Z || (63 <? len value)%Z
     || negb (opt_test lowerAlphaNumeric (first_byte value)) then false
  else match value with
       | EmptyString => false
       | String _ rest =>
           if all_bytes (fun c => lowerAlphaNumeric c || (code c =? 45)%Z) rest
           then opt_test lowerAlphaNumeric (last_byte value) else false
       end.

Definition validIdempotencyKey (value : string) : bool :=
  if (len value <? 16)%Z || (MaxIdempotencyKeyBytes <? len value)%Z
     || negb (value =? TrimSpace value) then false
  else all_runes (fun r => negb ((r <? 0x21)%Z || (0x7e <? r)%Z)) value.

Definition nul_cr_lf : string :=
  String (Ascii.ascii_of_nat 0) (String (Ascii.ascii_of_nat 13) (String (Ascii.ascii_of_nat 10) EmptyString)).

Definition validOwner (value : string) : bool :=
  (0 <? len value)%Z && (len value <=? MaxOwnerBytes)%Z && (value =? TrimSpace value)
  && negb (ContainsAny value nul_cr_lf).

Definition validReason (value : string) : bool :=
  if (MaxReasonBytes <? len value)%Z || negb (value =? TrimSpace value) then false
  else all_runes (fun r => in_range 97 122 r || in_range 48 57 r || (r =? 45)%Z || (r =? 46)%Z) value.

Definition cursor_byte (c : Ascii.ascii) : bool :=
  in_range 97 122 (code c) || in_range 65 90 (code c) || in_range 48 57 (code c)
  || (code c =? 46)%Z || (code c =? 58)%Z || (code c =? 95)%Z || (code c =? 45)%Z.

(** [for index := range value] visits rune starts and reads the byte there. *)
Definition validLifecycleCursor (value : string) : bool :=
  if (MaxLifecycleCursorBytes <? len value)%Z then false
  else forallb (fun '(_, chunk) => opt_test cursor_byte (first_byte chunk)) (runes value).

(** ** The lifecycle, abstractly

    What the controller promises about one run: its phases and the moves
    between them.  [Stopping] is the only way into a terminal phase. *)
Inductive phase : Type :=
| Pending | Preparing | Running | Stopping | Completed | Failed | Expired.

#[export] Instance phase_eq_dec : EqDecision phase.
Proof. solve_decision. Defined.

Definition phase_of (s : State) : option phase :=
  if s =? StatePending then Some Pending
  else if s =? StatePreparing then Some Preparing
  else if s =? StateRunning then Some Running
  else if s =? StateStopping then Some Stopping
  else if s =? StateCompleted then Some Completed
  else if s =? StateFailed then Some Failed
  else if s =? StateExpired then Some Expired
  else None.

Definition state_text (p : phase) : State :=
  match p with
  | Pending => StatePending | Preparing => StatePreparing | Running => StateRunning
  | Stopping => StateStopping | Completed => StateCompleted | Failed => StateFailed
  | Expired => StateExpired
  end.

Inductive status_step : phase -> phase -> Prop :=
| step_prepare : status_step Pending Preparing
| step_ready : status_step Preparing Running
| step_recover : status_step Running Preparing
| step_stop p : p = Pending \/ p = Preparing \/ p = Running -> status_step p Stopping
| step_finish p : p = Completed \/ p = Failed \/ p = Expired -> status_step Stopping p.

Lemma phase_of_text p : phase_of (state_text p) = Some p.
Proof. by destruct p. Qed.

Lemma State_valid_phase s : State_valid s = true <-> exists p, s = state_text p.
Proof.
  split.
  - unfold State_valid. simpl. rewrite !orb_true_iff, !String.eqb_eq.
    intros H. decompose [or] H; subst; try discriminate;
      [exists Pending|exists Preparing|exists Running|exists Stopping
      |exists Completed|exists Failed|exists Expired]; done.
  - intros [p ->]. by destruct p.
Qed.

Lemma phase_of_valid s p : phase_of s = Some p -> s = state_text p.
Proof.
  unfold phase_of. repeat break_match; intros H; inversion H; bool_prop; subst; done.
Qed.

Lemma State_terminal_phase p :
  State_terminal (state_text p) = true <-> p = Completed \/ p = Failed \/ p = Expired.
Proof. destruct p; vm_compute; intuition congruence. Qed.

Lemma State_terminal_valid s : State_terminal s = true -> State_valid s = true.
Proof.
  unfold State_terminal. rewrite !orb_true_iff, !String.eqb_eq.
  intros [[->| ->]| ->]; reflexivity.
Qed.

(** The guard [transitionAllowed] is exactly the abstract status step. *)
Lemma transitionAllowed_spec p q :
  transitionAllowed (state_text p) (state_text q) = true <-> status_step p q.
Proof.
  split.
  - destruct p, q; vm_compute; intros H; try discriminate H; constructor; auto.
  - intros H. destruct H as [| | |p H|p H]; try reflexivity;
      decompose [or] H; subst; reflexivity.
Qed.

(** An identifier accepted by [validRunID] is non-empty and bounded. *)
Lemma validRunID_bounds s : validRunID s = true -> 1 <= len s <= 63.
Proof.
  unfold validRunID. destruct (_ || _) eqn:E; [done|]. intros _. bool_prop.
  pose proof (len_nonneg s). lia.
Qed.

(** The characters of an accepted reason and of an accepted cursor never need
    quoting. *)
Lemma validReason_bytes s :
  validReason s = true ->
  all_bytes (fun c => in_range 97 122 (code c) || in_range 48 57 (code c)
                      || (code c =? 45) || (code c =? 46))%Z s = true.
Proof.
  unfold validReason. destruct (_ || _); [done|]. rewrite all_runes_ascii; [done|].
  intros r H. unfold in_range in H. rewrite !orb_true_iff, !andb_true_iff in H.
  rewrite !Z.leb_le, !Z.eqb_eq in H. lia.
Qed.
