(* ===== verification/LocalRoutes.v ===== *)
(** * Local routes (protocol/localroutes)

    The route metadata the controller serves to the gateway: contract.go with
    its validators, and the strict decoder of decode.go, whose struct mapping
    is an argument. *)
From stdpp Require Import base list strings.
From Stdlib Require Import ZArith Lia Ascii.
From S2P Require Import Prelude GoStrings GoUrl GoJson Contract Validation LocalRun.


Local Open Scope Z_scope.
Local Open Scope go_scope.
Local Open Scope string_scope.

Definition RoutesAPIVersion : string := "nvt.local-routes/v1".
Definition MaxRuns : Z := 500.
Definition MaxRunsPerPage : Z := 8.
Definition MaxExposures : Z := 64.
Definition MaxNameBytes : Z := 63.
Definition RouteMaxSourceURLBytes : Z := 2048.
Definition RouteMaxDocumentBytes : Z := Z.shiftl 256 10.

Record RoutePrincipal := mkRoutePrincipal { rtp_Issuer : string; rtp_Subject : string; rtp_DisplayName : string }.

Record Endpoint := mkEndpoint { ep_Host : string; ep_Path : string; ep_UpstreamHost : string; ep_UpstreamPort : Z }.

Record Exposure := mkExposure { ex_Name : string; ex_Host : string; ex_UpstreamHost : string; ex_UpstreamPort : Z }.

(** Instants carry no location: every one the controller writes is in UTC. *)
Record RouteRun := mkRouteRun {
  rtr_APIVersion : string;
  rtr_RunID : string;
  rtr_State : string;
  rtr_Ready : bool;
  rtr_Principal : RoutePrincipal;
  rtr_SourceURL : string;
  rtr_Profile : string;
  rtr_Workflow : string;
  rtr_CreatedAt : time;
  rtr_Session : Endpoint;
  rtr_Exposures : list Exposure
}.

(** A nil [Runs] is refused by the validation: [None]. *)
Record RouteList := mkRouteList { rl_APIVersion : string; rl_Runs : option (list RouteRun); rl_NextAfter : string }.

(** ** Names, hosts and paths *)

Definition route_char (r : Z) : bool := (r =? 45)%Z || in_range 97 122 r || in_range 48 57 r.

Definition route_validName (value : string) : bool :=
  if (len value =? 0)%Z || (MaxNameBytes <? len value)%Z || negb (opt_test lowerAlphaNumeric (first_byte value)) then false
  else match value with
  | EmptyString => false
  | String _ rest => all_runes route_char rest && negb (opt_test (Ascii.eqb "-"%char) (last_byte value))
  end.

Definition validState (value : string) : bool :=
  (value =? "pending") || (value =? "preparing") || (value =? "running") || (value =? "stopping").

Definition validText (value : string) (maximum : Z) (allowEmpty : bool) : bool :=
  (allowEmpty || negb (value =? "")) && (len value <=? maximum)%Z && ValidString value && trimmed value
  && negb (ContainsAny value nul_cr_lf).

Definition validHTTPSIssuer (value : string) : bool :=
  match url_Parse value with
  | None => false
  | Some parsed =>
      (0 <? len value)%Z && (len value <=? 2048)%Z && (Scheme parsed =? "https") && negb (Host parsed =? "")
      && bool_decide (User parsed = None) && (RawQuery parsed =? "") && (Fragment parsed =? "")
      && (URL_String parsed =? value) && trimmed value && negb (ContainsAny value nul_cr_lf)
  end.

Definition validPrincipal (value : RoutePrincipal) : bool :=
  validHTTPSIssuer (rtp_Issuer value) && validText (rtp_Subject value) 1024 false && validText (rtp_DisplayName value) 512 true.

Definition validOptionalSourceURL (value : string) : bool :=
  if value =? "" then true
  else if (RouteMaxSourceURLBytes <? len value)%Z || negb (ValidString value) || negb (trimmed value)
          || exists_rune IsControl value then false
  else match url_Parse value with
  | None => false
  | Some parsed =>
      if negb (Scheme parsed =? "https") || (Host parsed =? "") || (Hostname parsed =? "")
         || bool_decide (is_Some (User parsed)) || negb (Opaque parsed =? "") || negb (URL_String parsed =? value)
      then false
      else match QueryUnescape (RawQuery parsed) with
      | None => false
      | Some decodedQuery =>
          ValidString (Path parsed) && ValidString decodedQuery && ValidString (Fragment parsed)
          && negb (exists_rune IsControl (Path parsed)) && negb (exists_rune IsControl decodedQuery)
          && negb (exists_rune IsControl (Fragment parsed))
      end
  end.

Definition host_forbidden : string := ":/@?#" ++ String backslash nul_cr_lf.
Definition path_forbidden : string := "%" ++ String backslash ("?#" ++ nul_cr_lf).

Definition validHost (value : string) : bool :=
  if (len value =? 0)%Z || (253 <? len value)%Z || negb (value =? ToLower value) || HasSuffix value "."
     || ContainsAny value host_forbidden then false
  else forallb route_validName (Split value "."%char).

Definition validPath (value : string) : bool :=
  if (len value <? 3)%Z || (512 <? len value)%Z || negb (opt_test (Ascii.eqb "/"%char) (first_byte value))
     || negb (opt_test (Ascii.eqb "/"%char) (last_byte value)) || Contains value "//" || ContainsAny value path_forbidden
  then false
  else forallb route_validName (Split (Trim value "/") "/"%char).

Definition validEndpoint (value : Endpoint) (requirePath : bool) : bool :=
  if negb (validHost (ep_Host value)) || negb (validHost (ep_UpstreamHost value)) || (ep_UpstreamPort value <? 1)%Z
     || (65535 <? ep_UpstreamPort value)%Z then false
  else if requirePath then validPath (ep_Path value) else ep_Path value =? "".

(** ** Runs and lists *)

Definition exposure_ok (session : string) (seen : list Exposure) (exposure : Exposure) : result string unit :=
  reject (negb (route_validName (ex_Name exposure)) || negb (validHost (ex_Host exposure))
          || negb (validHost (ex_UpstreamHost exposure)) || (ex_UpstreamPort exposure <? 1)%Z
          || (65535 <? ex_UpstreamPort exposure)%Z || (ex_Host exposure =? session)) "invalid local route" |>>
  reject (mem (ex_Name exposure) (map ex_Name seen)) "invalid local route".

Definition ValidateRun (value : RouteRun) : result string unit :=
  reject (negb (rtr_APIVersion value =? RoutesAPIVersion) || negb (route_validName (rtr_RunID value))
          || negb (validState (rtr_State value)) || negb (Bool.eqb (rtr_Ready value) (rtr_State value =? "running"))
          || negb (validPrincipal (rtr_Principal value)) || negb (validOptionalSourceURL (rtr_SourceURL value))
          || negb (route_validName (rtr_Profile value)) || negb (route_validName (rtr_Workflow value))
          || (rtr_CreatedAt value =? 0)%Z || negb (validEndpoint (rtr_Session value) true)
          || (MaxExposures <? Z.of_nat (length (rtr_Exposures value)))%Z) "invalid local route" |>>
  each_seen (exposure_ok (ep_Host (rtr_Session value))) [] (rtr_Exposures value).

(** [previous] is the identifier of the run before, empty for the first. *)
Definition list_run_ok (seen : list RouteRun) (run : RouteRun) : result string unit :=
  let previous := match last seen with Some r => rtr_RunID r | None => "" end in
  reject (negb (is_nil (ValidateRun run)) || negb (previous =? "") && negb (str_lt previous (rtr_RunID run)))
    "invalid local route list" |>>
  reject (mem (rtr_RunID run) (map rtr_RunID seen)) "invalid local route list".

Definition ValidateList (value : RouteList) : result string unit :=
  match rl_Runs value with
  | None => Err "invalid local route list"
  | Some runs =>
      reject (negb (rl_APIVersion value =? RoutesAPIVersion) || (MaxRunsPerPage <? Z.of_nat (length runs))%Z
              || negb (rl_NextAfter value =? "") && negb (route_validName (rl_NextAfter value))) "invalid local route list" |>>
      each_seen list_run_ok [] runs
  end.

(** ** Decoding *)

Fixpoint consumeUnique (depth : Z) (v : json) : bool :=
  (depth <=? 16)%Z &&
  match v with
  | JObject members =>
      (fix unique (seen : list string) (ms : list (string * json)) : bool :=
         match ms with
         | [] => true
         | (k, x) :: ms' => negb (mem k seen) && consumeUnique (depth + 1) x && unique (k :: seen) ms'
         end) [] members
  | JArray l => forallb (consumeUnique (depth + 1)) l
  | _ => true
  end.

Definition route_rejectDuplicateKeys (data : string) : bool :=
  match json_document data with Some v => consumeUnique 0 v | None => false end.

Definition route_decodeStrict {T} (unmarshal : string -> option T) (data : string) : option T :=
  if (len data =? 0)%Z || (RouteMaxDocumentBytes <? len data)%Z || negb (ValidString data)
     || negb (route_rejectDuplicateKeys data) then None
  else unmarshal data.

Definition DecodeRun (unmarshal : string -> option RouteRun) (data : string) : option RouteRun :=
  match route_decodeStrict unmarshal data with
  | Some value => if is_nil (ValidateRun value) then Some value else None
  | None => None
  end.

Definition DecodeList (unmarshal : string -> option RouteList) (data : string) : option RouteList :=
  match route_decodeStrict unmarshal data with
  | Some value => if is_nil (ValidateList value) then Some value else None
  | None => None
  end.
