(* ===== verification/Sql.v ===== *)
(** * One SQL table

    The store keeps its rows in one SQLite table with a TEXT primary key and
    one UNIQUE column.  A table is the list of its rows in primary-key order
    (the order every [ORDER BY run_id] query reads them in); an [UPDATE]
    rewrites the rows its [WHERE] clause selects and reports how many it
    selected; an [INSERT] is refused when it would break a uniqueness
    constraint. *)
From stdpp Require Import base list strings.
From Stdlib Require Import ZArith Lia Sorting.Sorted.
From S2P Require Import Prelude.

Section Table.
Context {row : Type} (pk uk : row -> string).

Definition sql_select (w : row -> bool) (t : list row) : list row := List.filter w t.

Definition sql_count (w : row -> bool) (t : list row) : Z := Z.of_nat (length (List.filter w t)).

Definition sql_update (w : row -> bool) (f : row -> row) (t : list row) : list row :=
  map (fun r => if w r then f r else r) t.

Fixpoint insert_sorted (r : row) (t : list row) : list row :=
  match t with
  | [] => [r]
  | r' :: t' => if str_lt (pk r) (pk r') then r :: t else r' :: insert_sorted r t'
  end.

(** [None] is the UNIQUE constraint failure. *)
Definition sql_insert (r : row) (t : list row) : option (list row) :=
  if existsb (fun r' => String.eqb (pk r') (pk r) || String.eqb (uk r') (uk r)) t
  then None else Some (insert_sorted r t).

Definition by_pk (id : string) (t : list row) : option row :=
  List.find (fun r => String.eqb (pk r) id) t.

Definition by_uk (key : string) (t : list row) : option row :=
  List.find (fun r => String.eqb (uk r) key) t.

(** The constraints the table's schema keeps. *)
Definition pk_sorted (t : list row) : Prop :=
  StronglySorted (fun a b => str_lt a b = true) (map pk t).

Definition uk_unique (t : list row) : Prop := List.NoDup (map uk t).

(** ** Queries by key *)

Lemma by_pk_some id t r : by_pk id t = Some r -> In r t /\ pk r = id.
Proof. intros H. apply List.find_some in H as [? ?]. bool_prop. auto. Qed.

Lemma by_uk_some key t r : by_uk key t = Some r -> In r t /\ uk r = key.
Proof. intros H. apply List.find_some in H as [? ?]. bool_prop. auto. Qed.

Lemma by_pk_none id t r : by_pk id t = None -> In r t -> pk r <> id.
Proof. intros H Hin. eapply List.find_none in H; [|exact Hin]. bool_prop. done. Qed.

Lemma by_uk_none key t r : by_uk key t = None -> In r t -> uk r <> key.
Proof. intros H Hin. eapply List.find_none in H; [|exact Hin]. bool_prop. done. Qed.

Lemma pk_sorted_cons r t :
  pk_sorted (r :: t) <-> pk_sorted t /\ forall r', In r' t -> str_lt (pk r) (pk r') = true.
Proof.
  unfold pk_sorted. simpl. split.
  - intros H. apply StronglySorted_inv in H as [H1 H2]. split; [done|].
    intros r' Hin. rewrite List.Forall_forall in H2. apply H2, in_map, Hin.
  - intros [H1 H2]. constructor; [done|]. rewrite List.Forall_forall.
    intros k Hk. apply in_map_iff in Hk as (r' & <- & Hin). auto.
Qed.

Lemma pk_sorted_inj t r r' :
  pk_sorted t -> In r t -> In r' t -> pk r = pk r' -> r = r'.
Proof.
  induction t as [|x t IH]; [done|]. rewrite pk_sorted_cons. intros [Hs Hlt] H1 H2 Heq.
  destruct H1 as [->|H1], H2 as [->|H2]; auto.
  - apply Hlt in H2. rewrite Heq, str_lt_irrefl in H2. done.
  - apply Hlt in H1. rewrite <- Heq, str_lt_irrefl in H1. done.
Qed.

Lemma uk_unique_inj t r r' :
  uk_unique t -> In r t -> In r' t -> uk r = uk r' -> r = r'.
Proof.
  unfold uk_unique. induction t as [|x t IH]; [done|]. simpl. intros Hnd H1 H2 Heq.
  apply NoDup_cons_iff in Hnd as [Hx Hnd].
  destruct H1 as [->|H1], H2 as [->|H2]; auto.
  - exfalso. apply Hx. rewrite Heq. by apply in_map.
  - exfalso. apply Hx. rewrite <- Heq. by apply in_map.
Qed.

Lemma by_pk_in t r : pk_sorted t -> In r t -> by_pk (pk r) t = Some r.
Proof.
  intros Hs Hin. destruct (by_pk (pk r) t) as [r'|] eqn:E.
  - apply by_pk_some in E as [? ?]. f_equal. by eapply pk_sorted_inj.
  - by eapply by_pk_none in E.
Qed.

Lemma by_uk_in t r : uk_unique t -> In r t -> by_uk (uk r) t = Some r.
Proof.
  intros Hs Hin. destruct (by_uk (uk r) t) as [r'|] eqn:E.
  - apply by_uk_some in E as [? ?]. f_equal. by eapply uk_unique_inj.
  - by eapply by_uk_none in E.
Qed.

(** ** Updates *)

Lemma sql_update_in w f t r :
  In r (sql_update w f t) <->
  exists r0, In r0 t /\ r = if w r0 then f r0 else r0.
Proof.
  unfold sql_update. rewrite in_map_iff. split; intros (r0 & H1 & H2); exists r0; auto.
Qed.

Lemma sql_update_keys {A} (k : row -> A) w f t :
  (forall r, k (f r) = k r) -> map k (sql_update w f t) = map k t.
Proof.
  intros Hk. unfold sql_update. rewrite map_map. apply map_ext. intros r.
  destruct (w r); auto.
Qed.

Lemma sql_update_id w f t : (forall r, In r t -> w r = false) -> sql_update w f t = t.
Proof.
  intros H. unfold sql_update. rewrite <- (map_id t) at 2. apply map_ext_in.
  intros r Hr. by rewrite (H r Hr).
Qed.

Lemma by_pk_update w f t id :
  (forall r, pk (f r) = pk r) ->
  by_pk id (sql_update w f t) = (fun r => if w r then f r else r) <$> by_pk id t.
Proof.
  intros Hk. unfold by_pk, sql_update. induction t as [|r t IH]; [done|]. simpl.
  destruct (w r) eqn:Ew; rewrite ?Hk; destruct (String.eqb (pk r) id); simpl; rewrite ?Ew; done.
Qed.

Lemma by_uk_update w f t key :
  (forall r, uk (f r) = uk r) ->
  by_uk key (sql_update w f t) = (fun r => if w r then f r else r) <$> by_uk key t.
Proof.
  intros Hk. unfold by_uk, sql_update. induction t as [|r t IH]; [done|]. simpl.
  destruct (w r) eqn:Ew; rewrite ?Hk; destruct (String.eqb (uk r) key); simpl; rewrite ?Ew; done.
Qed.

(** A [WHERE] clause that fixes the primary key selects at most the row with
    that key. *)
Lemma select_by_pk w t id :
  pk_sorted t -> (forall r, w r = true -> pk r = id) ->
  sql_select w t = match by_pk id t with
                   | Some r => if w r then [r] else []
                   | None => []
                   end.
Proof.
  unfold sql_select, by_pk. induction t as [|r t IH]; [done|].
  rewrite pk_sorted_cons. intros [Hs Hlt] Hw. specialize (IH Hs Hw). simpl.
  destruct (String.eqb (pk r) id) eqn:E; bool_prop.
  - assert (Hrest : List.filter w t = []).
    { destruct (List.filter w t) as [|r' l] eqn:Ef; [done|]. exfalso.
      assert (Hin : In r' (List.filter w t)) by (rewrite Ef; left; done).
      apply List.filter_In in Hin as [Hin Hwr]. apply Hw in Hwr. apply Hlt in Hin.
      rewrite Hwr, E, str_lt_irrefl in Hin. done. }
    rewrite Hrest. destruct (w r); done.
  - destruct (w r) eqn:Ew; [by apply Hw in Ew|]. done.
Qed.

Lemma select_by_uk w t key :
  uk_unique t -> (forall r, w r = true -> uk r = key) ->
  sql_select w t = match by_uk key t with
                   | Some r => if w r then [r] else []
                   | None => []
                   end.
Proof.
  unfold sql_select, by_uk, uk_unique. induction t as [|r t IH]; [done|].
  simpl. rewrite NoDup_cons_iff. intros [Hx Hs] Hw. specialize (IH Hs Hw).
  destruct (String.eqb (uk r) key) eqn:E; bool_prop.
  - assert (Hrest : List.filter w t = []).
    { destruct (List.filter w t) as [|r' l] eqn:Ef; [done|]. exfalso.
      assert (Hin : In r' (List.filter w t)) by (rewrite Ef; left; done).
      apply List.filter_In in Hin as [Hin Hwr]. apply Hw in Hwr.
      apply Hx. rewrite E, <- Hwr. by apply in_map. }
    rewrite Hrest. destruct (w r); done.
  - destruct (w r) eqn:Ew; [by apply Hw in Ew|]. done.
Qed.

(** An update that changes no key keeps both constraints. *)
Lemma sql_update_sorted w f t :
  (forall r, pk (f r) = pk r) -> pk_sorted t -> pk_sorted (sql_update w f t).
Proof. unfold pk_sorted. intros H. by rewrite (sql_update_keys pk). Qed.

Lemma sql_update_unique w f t :
  (forall r, uk (f r) = uk r) -> uk_unique t -> uk_unique (sql_update w f t).
Proof. unfold uk_unique. intros H. by rewrite (sql_update_keys uk). Qed.

(** ** Inserts *)

Lemma insert_sorted_in r t x : In x (insert_sorted r t) <-> x = r \/ In x t.
Proof.
  induction t as [|y t IH]; simpl; [intuition auto|].
  destruct (str_lt (pk r) (pk y)); simpl; rewrite ?IH; intuition auto.
Qed.

Lemma insert_sorted_perm {A} (k : row -> A) r t :
  Permutation (map k (insert_sorted r t)) (k r :: map k t).
Proof.
  induction t as [|y t IH]; simpl; [done|].
  destruct (str_lt (pk r) (pk y)); simpl; [done|]. rewrite IH. apply Permutation_swap.
Qed.

Lemma insert_sorted_length r t : length (insert_sorted r t) = S (length t).
Proof.
  pose proof (Permutation_length (insert_sorted_perm pk r t)) as H.
  simpl in H. rewrite !length_map in H. done.
Qed.

Lemma sql_insert_some r t t' :
  sql_insert r t = Some t' ->
  t' = insert_sorted r t /\ (forall x, In x t -> pk x <> pk r) /\ (forall x, In x t -> uk x <> uk r).
Proof.
  unfold sql_insert. destruct (existsb _ t) eqn:E; [done|]. intros [= <-].
  assert (H : forall x, In x t -> pk x <> pk r /\ uk x <> uk r).
  { intros x Hx. rewrite <- not_true_iff_false, existsb_exists in E.
    split; intros Heq; apply E; exists x; rewrite Heq, String.eqb_refl, ?orb_true_r; auto. }
  repeat split; auto; intros x Hx; by apply H.
Qed.

Lemma sql_insert_sorted r t t' : sql_insert r t = Some t' -> pk_sorted t -> pk_sorted t'.
Proof.
  intros H. apply sql_insert_some in H as (-> & Hpk & _).
  induction t as [|y t IH]; intros Hs; simpl.
  - constructor; [constructor | done].
  - apply pk_sorted_cons in Hs as [Hs Hlt]. destruct (str_lt (pk r) (pk y)) eqn:E.
    + apply pk_sorted_cons. split; [by apply pk_sorted_cons|].
      intros x [<-|Hx]; [done|]. eapply str_lt_trans; [exact E|]. auto.
    + apply pk_sorted_cons. split; [apply IH; [intros; apply Hpk; by right | done]|].
      intros x Hx. apply insert_sorted_in in Hx as [->|Hx]; [|auto].
      destruct (str_lt (pk y) (pk r)) eqn:E2; [done|].
      exfalso. apply (Hpk y); [by left|]. by apply str_lt_total.
Qed.

Lemma sql_insert_unique r t t' : sql_insert r t = Some t' -> uk_unique t -> uk_unique t'.
Proof.
  intros H Hu. apply sql_insert_some in H as (-> & _ & Huk). unfold uk_unique in *.
  eapply Permutation_NoDup; [symmetry; apply insert_sorted_perm|].
  constructor; [|done]. intros Hin. apply in_map_iff in Hin as (x & Hx & Hin).
  by apply (Huk x Hin).
Qed.

Lemma by_pk_insert r t t' id :
  sql_insert r t = Some t' -> pk_sorted t ->
  by_pk id t' = if String.eqb (pk r) id then Some r else by_pk id t.
Proof.
  intros Hi Hs. pose proof (sql_insert_sorted _ _ _ Hi Hs) as Hs'.
  apply sql_insert_some in Hi as (-> & Hpk & _).
  destruct (String.eqb (pk r) id) eqn:E; bool_prop.
  - subst id. apply by_pk_in; [done|]. apply insert_sorted_in. auto.
  - destruct (by_pk id t) as [x|] eqn:Ex.
    + apply by_pk_some in Ex as [Hx <-]. apply by_pk_in; [done|]. apply insert_sorted_in. auto.
    + destruct (by_pk id (insert_sorted r t)) as [x|] eqn:Ey; [|done].
      apply by_pk_some in Ey as [Hx Heq]. apply insert_sorted_in in Hx as [->|Hx]; [done|].
      by eapply by_pk_none in Ex.
Qed.

Lemma by_uk_insert r t t' key :
  sql_insert r t = Some t' -> uk_unique t ->
  by_uk key t' = if String.eqb (uk r) key then Some r else by_uk key t.
Proof.
  intros Hi Hu. pose proof (sql_insert_unique _ _ _ Hi Hu) as Hu'.
  apply sql_insert_some in Hi as (-> & _ & Huk).
  destruct (String.eqb (uk r) key) eqn:E; bool_prop.
  - subst key. apply by_uk_in; [done|]. apply insert_sorted_in. auto.
  - destruct (by_uk key t) as [x|] eqn:Ex.
    + apply by_uk_some in Ex as [Hx <-]. apply by_uk_in; [done|]. apply insert_sorted_in. auto.
    + destruct (by_uk key (insert_sorted r t)) as [x|] eqn:Ey; [|done].
      apply by_uk_some in Ey as [Hx Heq]. apply insert_sorted_in in Hx as [->|Hx]; [done|].
      by eapply by_uk_none in Ex.
Qed.

(** ** Counts *)

Lemma sql_count_update w q f t :
  (forall r, In r t -> q r = true -> w (f r) = w r) ->
  sql_count w (sql_update q f t) = sql_count w t.
Proof.
  unfold sql_count, sql_update. intros H. f_equal.
  induction t as [|r t IH]; [done|]. simpl.
  assert (Hr : w (if q r then f r else r) = w r).
  { destruct (q r) eqn:E; [|done]. apply H; [by left|done]. }
  rewrite Hr. specialize (IH (fun r' Hr' => H r' (or_intror Hr'))).
  destruct (w r); simpl; rewrite IH; done.
Qed.

(** An update whose selected rows are all [r] adds at most what [r] gains. *)
Lemma sql_count_update_le p w f t r :
  (forall r', In r' t -> w r' = true -> r' = r) ->
  (sql_count p (sql_update w f t) <= sql_count p t + if p (f r) && negb (p r) then sql_count w t else 0)%Z.
Proof.
  unfold sql_count, sql_update. induction t as [|y t IH]; intros H; cbn.
  { destruct (_ && _); done. }
  specialize (IH (fun r' Hr' => H r' (or_intror Hr'))).
  destruct (w y) eqn:Ew; cbn.
  - assert (y = r) as -> by (apply H; [by left|done]).
    destruct (p (f r)), (p r); cbn [andb negb length] in *; lia.
  - destruct (p y); cbn [length] in *; destruct (_ && _); lia.
Qed.

Lemma sql_count_cons w r t : sql_count w (r :: t) = ((if w r then 1 else 0) + sql_count w t)%Z.
Proof. unfold sql_count. cbn. destruct (w r); cbn [length]; lia. Qed.

Lemma sql_count_weaken (p q : row -> bool) t :
  (forall r, p r = true -> q r = true) -> (sql_count p t <= sql_count q t)%Z.
Proof.
  intros H. unfold sql_count. induction t as [|y t IH]; [done|]. cbn.
  destruct (p y) eqn:Ep; [rewrite (H y Ep)|destruct (q y)]; cbn [length]; lia.
Qed.

Lemma sql_count_insert w r t :
  sql_count w (insert_sorted r t) = (sql_count w t + if w r then 1 else 0)%Z.
Proof.
  unfold sql_count. induction t as [|y t IH]; simpl.
  - destruct (w r); simpl; lia.
  - destruct (str_lt (pk r) (pk y)); simpl.
    + destruct (w r); simpl; destruct (w y); simpl; lia.
    + destruct (w y); simpl; rewrite ?Nat2Z.inj_succ; lia.
Qed.
End Table.

Arguments sql_select {row} w t /.
