(* ===== verification/StoreRow.v ===== *)
(** * Rows and records of the run store

    localcontroller/internal/controller/store.go: the [local_runs] table, the
    Go record a row is scanned into, and the invariant [validateStoredRun]
    every reader checks before it trusts a row.

    The snapshot format belongs to protocol/resolvedrun: the store uses its
    decoder, over the interface [SnapshotCodec]. *)
From stdpp Require Import base list strings.
From Stdlib Require Import ZArith Lia.
From S2P Require Import Prelude GoStrings GoUrl GoJson Sha256 Contract Validation Decode LocalRun.


Local Open Scope Z_scope.
Local Open Scope string_scope.

Notation "x '|>' f" := (f x) (at level 45, left associativity, only parsing).

(** ** Updates of a view

    [view.Field = x] on a [Run]. *)
Definition put_State (x : State) (v : Run) : Run :=
  mkRun (v_APIVersion v) (v_RunID v) x (v_Revision v) (v_SnapshotDigest v) (v_Issuer v)
    (v_Subject v) (v_SourceURL v) (v_Profile v) (v_Workflow v) (v_Retention v)
    (v_Persistent v) (v_CreatedAt v) (v_UpdatedAt v) (v_DeadlineAt v)
    (v_TerminalExpiresAt v) (v_DeleteRequested v) (v_TerminalTarget v) (v_LastReason v)
    (v_ReconcileOwner v) (v_ReconcileUntil v).
Definition put_Revision (x : Z) (v : Run) : Run :=
  mkRun (v_APIVersion v) (v_RunID v) (v_State v) x (v_SnapshotDigest v) (v_Issuer v)
    (v_Subject v) (v_SourceURL v) (v_Profile v) (v_Workflow v) (v_Retention v)
    (v_Persistent v) (v_CreatedAt v) (v_UpdatedAt v) (v_DeadlineAt v)
    (v_TerminalExpiresAt v) (v_DeleteRequested v) (v_TerminalTarget v) (v_LastReason v)
    (v_ReconcileOwner v) (v_ReconcileUntil v).
Definition put_SnapshotDigest (x : string) (v : Run) : Run :=
  mkRun (v_APIVersion v) (v_RunID v) (v_State v) (v_Revision v) x (v_Issuer v) (v_Subject v)
    (v_SourceURL v) (v_Profile v) (v_Workflow v) (v_Retention v) (v_Persistent v)
    (v_CreatedAt v) (v_UpdatedAt v) (v_DeadlineAt v) (v_TerminalExpiresAt v)
    (v_DeleteRequested v) (v_TerminalTarget v) (v_LastReason v) (v_ReconcileOwner v)
    (v_ReconcileUntil v).
Definition put_UpdatedAt (x : time) (v : Run) : Run :=
  mkRun (v_APIVersion v) (v_RunID v) (v_State v) (v_Revision v) (v_SnapshotDigest v)
    (v_Issuer v) (v_Subject v) (v_SourceURL v) (v_Profile v) (v_Workflow v) (v_Retention v)
    (v_Persistent v) (v_CreatedAt v) x (v_DeadlineAt v) (v_TerminalExpiresAt v)
    (v_DeleteRequested v) (v_TerminalTarget v) (v_LastReason v) (v_ReconcileOwner v)
    (v_ReconcileUntil v).
Definition put_TerminalExpiresAt (x : option time) (v : Run) : Run :=
  mkRun (v_APIVersion v) (v_RunID v) (v_State v) (v_Revision v) (v_SnapshotDigest v)
    (v_Issuer v) (v_Subject v) (v_SourceURL v) (v_Profile v) (v_Workflow v) (v_Retention v)
    (v_Persistent v) (v_CreatedAt v) (v_UpdatedAt v) (v_DeadlineAt v) x
    (v_DeleteRequested v) (v_TerminalTarget v) (v_LastReason v) (v_ReconcileOwner v)
    (v_ReconcileUntil v).
Definition put_DeleteRequested (x : bool) (v : Run) : Run :=
  mkRun (v_APIVersion v) (v_RunID v) (v_State v) (v_Revision v) (v_SnapshotDigest v)
    (v_Issuer v) (v_Subject v) (v_SourceURL v) (v_Profile v) (v_Workflow v) (v_Retention v)
    (v_Persistent v) (v_CreatedAt v) (v_UpdatedAt v) (v_DeadlineAt v)
    (v_TerminalExpiresAt v) x (v_TerminalTarget v) (v_LastReason v) (v_ReconcileOwner v)
    (v_ReconcileUntil v).
Definition put_TerminalTarget (x : State) (v : Run) : Run :=
  mkRun (v_APIVersion v) (v_RunID v) (v_State v) (v_Revision v) (v_SnapshotDigest v)
    (v_Issuer v) (v_Subject v) (v_SourceURL v) (v_Profile v) (v_Workflow v) (v_Retention v)
    (v_Persistent v) (v_CreatedAt v) (v_UpdatedAt v) (v_DeadlineAt v)
    (v_TerminalExpiresAt v) (v_DeleteRequested v) x (v_LastReason v) (v_ReconcileOwner v)
    (v_ReconcileUntil v).
Definition put_LastReason (x : string) (v : Run) : Run :=
  mkRun (v_APIVersion v) (v_RunID v) (v_State v) (v_Revision v) (v_SnapshotDigest v)
    (v_Issuer v) (v_Subject v) (v_SourceURL v) (v_Profile v) (v_Workflow v) (v_Retention v)
    (v_Persistent v) (v_CreatedAt v) (v_UpdatedAt v) (v_DeadlineAt v)
    (v_TerminalExpiresAt v) (v_DeleteRequested v) (v_TerminalTarget v) x
    (v_ReconcileOwner v) (v_ReconcileUntil v).
Definition put_ReconcileOwner (x : string) (v : Run) : Run :=
  mkRun (v_APIVersion v) (v_RunID v) (v_State v) (v_Revision v) (v_SnapshotDigest v)
    (v_Issuer v) (v_Subject v) (v_SourceURL v) (v_Profile v) (v_Workflow v) (v_Retention v)
    (v_Persistent v) (v_CreatedAt v) (v_UpdatedAt v) (v_DeadlineAt v)
    (v_TerminalExpiresAt v) (v_DeleteRequested v) (v_TerminalTarget v) (v_LastReason v) x
    (v_ReconcileUntil v).
Definition put_ReconcileUntil (x : option time) (v : Run) : Run :=
  mkRun (v_APIVersion v) (v_RunID v) (v_State v) (v_Revision v) (v_SnapshotDigest v)
    (v_Issuer v) (v_Subject v) (v_SourceURL v) (v_Profile v) (v_Workflow v) (v_Retention v)
    (v_Persistent v) (v_CreatedAt v) (v_UpdatedAt v) (v_DeadlineAt v)
    (v_TerminalExpiresAt v) (v_DeleteRequested v) (v_TerminalTarget v) (v_LastReason v)
    (v_ReconcileOwner v) x.

(** ** The table row

    One column per column of schema version 6.  A timestamp column holds text:
    either the RFC 3339 form of an instant or text that [time.Parse] rejects;
    nullable columns are options; [delete_requested] is an INTEGER. *)
Inductive timestamp : Type :=
| RFC3339 (t : time)
| Malformed.

Definition formatTimestamp (t : time) : timestamp := RFC3339 t.
Definition formatOptionalTimestamp (t : option time) : option timestamp := RFC3339 <$> t.

Definition parseTimestamp (x : timestamp) : option time :=
  match x with RFC3339 t => Some t | Malformed => None end.

(** NULL is no instant; other text must parse. *)
Definition parseOptionalTimestamp (x : option timestamp) : option (option time) :=
  match x with
  | None => Some None
  | Some s => Some <$> parseTimestamp s
  end.

Record row := mkRow {
  run_id : string;
  idempotency_key : string;
  active_group : string;
  request_digest : string;
  snapshot : string;
  snapshot_digest : string;
  state : string;
  revision : Z;
  created_at : timestamp;
  updated_at : timestamp;
  deadline_at : option timestamp;
  terminal_expires_at : option timestamp;
  reconcile_owner : option string;
  reconcile_until : option timestamp;
  delete_requested : Z;
  deleted_at : option timestamp;
  last_reason : string;
  terminal_target : string;
  lifecycle_cursor : string;
  ownership_digest : string;
  pending_snapshot : option string;
  pending_snapshot_digest : string
}.

(** [SET column = value]: one updater per column the statements assign, applied
    with [r <| f |>] so that a statement reads column by column. *)
Definition set_request_digest (x : string) (r : row) : row :=
  mkRow (run_id r) (idempotency_key r) (active_group r) x (snapshot r) (snapshot_digest r)
    (state r) (revision r) (created_at r) (updated_at r) (deadline_at r)
    (terminal_expires_at r) (reconcile_owner r) (reconcile_until r) (delete_requested r)
    (deleted_at r) (last_reason r) (terminal_target r) (lifecycle_cursor r)
    (ownership_digest r) (pending_snapshot r) (pending_snapshot_digest r).
Definition set_snapshot (x : string) (r : row) : row :=
  mkRow (run_id r) (idempotency_key r) (active_group r) (request_digest r) x
    (snapshot_digest r) (state r) (revision r) (created_at r) (updated_at r)
    (deadline_at r) (terminal_expires_at r) (reconcile_owner r) (reconcile_until r)
    (delete_requested r) (deleted_at r) (last_reason r) (terminal_target r)
    (lifecycle_cursor r) (ownership_digest r) (pending_snapshot r)
    (pending_snapshot_digest r).
Definition set_snapshot_digest (x : string) (r : row) : row :=
  mkRow (run_id r) (idempotency_key r) (active_group r) (request_digest r) (snapshot r) x
    (state r) (revision r) (created_at r) (updated_at r) (deadline_at r)
    (terminal_expires_at r) (reconcile_owner r) (reconcile_until r) (delete_requested r)
    (deleted_at r) (last_reason r) (terminal_target r) (lifecycle_cursor r)
    (ownership_digest r) (pending_snapshot r) (pending_snapshot_digest r).
Definition set_state (x : string) (r : row) : row :=
  mkRow (run_id r) (idempotency_key r) (active_group r) (request_digest r) (snapshot r)
    (snapshot_digest r) x (revision r) (created_at r) (updated_at r) (deadline_at r)
    (terminal_expires_at r) (reconcile_owner r) (reconcile_until r) (delete_requested r)
    (deleted_at r) (last_reason r) (terminal_target r) (lifecycle_cursor r)
    (ownership_digest r) (pending_snapshot r) (pending_snapshot_digest r).
Definition set_revision (x : Z) (r : row) : row :=
  mkRow (run_id r) (idempotency_key r) (active_group r) (request_digest r) (snapshot r)
    (snapshot_digest r) (state r) x (created_at r) (updated_at r) (deadline_at r)
    (terminal_expires_at r) (reconcile_owner r) (reconcile_until r) (delete_requested r)
    (deleted_at r) (last_reason r) (terminal_target r) (lifecycle_cursor r)
    (ownership_digest r) (pending_snapshot r) (pending_snapshot_digest r).
Definition set_updated_at (x : timestamp) (r : row) : row :=
  mkRow (run_id r) (idempotency_key r) (active_group r) (request_digest r) (snapshot r)
    (snapshot_digest r) (state r) (revision r) (created_at r) x (deadline_at r)
    (terminal_expires_at r) (reconcile_owner r) (reconcile_until r) (delete_requested r)
    (deleted_at r) (last_reason r) (terminal_target r) (lifecycle_cursor r)
    (ownership_digest r) (pending_snapshot r) (pending_snapshot_digest r).
Definition set_terminal_expires_at (x : option timestamp) (r : row) : row :=
  mkRow (run_id r) (idempotency_key r) (active_group r) (request_digest r) (snapshot r)
    (snapshot_digest r) (state r) (revision r) (created_at r) (updated_at r)
    (deadline_at r) x (reconcile_owner r) (reconcile_until r) (delete_requested r)
    (deleted_at r) (last_reason r) (terminal_target r) (lifecycle_cursor r)
    (ownership_digest r) (pending_snapshot r) (pending_snapshot_digest r).
Definition set_reconcile_owner (x : option string) (r : row) : row :=
  mkRow (run_id r) (idempotency_key r) (active_group r) (request_digest r) (snapshot r)
    (snapshot_digest r) (state r) (revision r) (created_at r) (updated_at r)
    (deadline_at r) (terminal_expires_at r) x (reconcile_until r) (delete_requested r)
    (deleted_at r) (last_reason r) (terminal_target r) (lifecycle_cursor r)
    (ownership_digest r) (pending_snapshot r) (pending_snapshot_digest r).
Definition set_reconcile_until (x : option timestamp) (r : row) : row :=
  mkRow (run_id r) (idempotency_key r) (active_group r) (request_digest r) (snapshot r)
    (snapshot_digest r) (state r) (revision r) (created_at r) (updated_at r)
    (deadline_at r) (terminal_expires_at r) (reconcile_owner r) x (delete_requested r)
    (deleted_at r) (last_reason r) (terminal_target r) (lifecycle_cursor r)
    (ownership_digest r) (pending_snapshot r) (pending_snapshot_digest r).
Definition set_delete_requested (x : Z) (r : row) : row :=
  mkRow (run_id r) (idempotency_key r) (active_group r) (request_digest r) (snapshot r)
    (snapshot_digest r) (state r) (revision r) (created_at r) (updated_at r)
    (deadline_at r) (terminal_expires_at r) (reconcile_owner r) (reconcile_until r) x
    (deleted_at r) (last_reason r) (terminal_target r) (lifecycle_cursor r)
    (ownership_digest r) (pending_snapshot r) (pending_snapshot_digest r).
Definition set_deleted_at (x : option timestamp) (r : row) : row :=
  mkRow (run_id r) (idempotency_key r) (active_group r) (request_digest r) (snapshot r)
    (snapshot_digest r) (state r) (revision r) (created_at r) (updated_at r)
    (deadline_at r) (terminal_expires_at r) (reconcile_owner r) (reconcile_until r)
    (delete_requested r) x (last_reason r) (terminal_target r) (lifecycle_cursor r)
    (ownership_digest r) (pending_snapshot r) (pending_snapshot_digest r).
Definition set_last_reason (x : string) (r : row) : row :=
  mkRow (run_id r) (idempotency_key r) (active_group r) (request_digest r) (snapshot r)
    (snapshot_digest r) (state r) (revision r) (created_at r) (updated_at r)
    (deadline_at r) (terminal_expires_at r) (reconcile_owner r) (reconcile_until r)
    (delete_requested r) (deleted_at r) x (terminal_target r) (lifecycle_cursor r)
    (ownership_digest r) (pending_snapshot r) (pending_snapshot_digest r).
Definition set_terminal_target (x : string) (r : row) : row :=
  mkRow (run_id r) (idempotency_key r) (active_group r) (request_digest r) (snapshot r)
    (snapshot_digest r) (state r) (revision r) (created_at r) (updated_at r)
    (deadline_at r) (terminal_expires_at r) (reconcile_owner r) (reconcile_until r)
    (delete_requested r) (deleted_at r) (last_reason r) x (lifecycle_cursor r)
    (ownership_digest r) (pending_snapshot r) (pending_snapshot_digest r).
Definition set_lifecycle_cursor (x : string) (r : row) : row :=
  mkRow (run_id r) (idempotency_key r) (active_group r) (request_digest r) (snapshot r)
    (snapshot_digest r) (state r) (revision r) (created_at r) (updated_at r)
    (deadline_at r) (terminal_expires_at r) (reconcile_owner r) (reconcile_until r)
    (delete_requested r) (deleted_at r) (last_reason r) (terminal_target r) x
    (ownership_digest r) (pending_snapshot r) (pending_snapshot_digest r).
Definition set_ownership_digest (x : string) (r : row) : row :=
  mkRow (run_id r) (idempotency_key r) (active_group r) (request_digest r) (snapshot r)
    (snapshot_digest r) (state r) (revision r) (created_at r) (updated_at r)
    (deadline_at r) (terminal_expires_at r) (reconcile_owner r) (reconcile_until r)
    (delete_requested r) (deleted_at r) (last_reason r) (terminal_target r)
    (lifecycle_cursor r) x (pending_snapshot r) (pending_snapshot_digest r).
Definition set_pending_snapshot (x : option string) (r : row) : row :=
  mkRow (run_id r) (idempotency_key r) (active_group r) (request_digest r) (snapshot r)
    (snapshot_digest r) (state r) (revision r) (created_at r) (updated_at r)
    (deadline_at r) (terminal_expires_at r) (reconcile_owner r) (reconcile_until r)
    (delete_requested r) (deleted_at r) (last_reason r) (terminal_target r)
    (lifecycle_cursor r) (ownership_digest r) x (pending_snapshot_digest r).
Definition set_pending_snapshot_digest (x : string) (r : row) : row :=
  mkRow (run_id r) (idempotency_key r) (active_group r) (request_digest r) (snapshot r)
    (snapshot_digest r) (state r) (revision r) (created_at r) (updated_at r)
    (deadline_at r) (terminal_expires_at r) (reconcile_owner r) (reconcile_until r)
    (delete_requested r) (deleted_at r) (last_reason r) (terminal_target r)
    (lifecycle_cursor r) (ownership_digest r) (pending_snapshot r) x.

(** ** What the store relies on in a decoded run *)

Section Decoded.
Context {C : SnapshotCodec}.

Lemma decode_parts raw r : DecodeResolvedAgentRun raw = Some r ->
  0 < len raw <= MaxDocumentBytes /\ ValidateResolvedAgentRun r = Ok tt.
Proof.
  unfold DecodeResolvedAgentRun, decodeStrict. destruct (_ || _) eqn:E; [done|]. destruct (negb _); [done|].
  destruct (Unmarshal raw) as [x|]; [|done]. destruct (is_nil _) eqn:En; [|done]. intros [= ->].
  apply is_nil_true in En. split; [|done]. apply orb_false_iff in E as [E1 E2]. pose proof (len_nonneg raw).
  apply Z.eqb_neq in E1. apply Z.ltb_ge in E2. lia.
Qed.

Lemma decode_size raw r : DecodeResolvedAgentRun raw = Some r -> 0 < len raw <= MaxDocumentBytes.
Proof. intros H. apply (decode_parts _ _ H). Qed.

Lemma last_byte_snoc s d : last_byte (s +:+ String d "") = Some d.
Proof.
  unfold last_byte. induction s as [|c s IH]; [done|]. str. cbn in *. destruct s as [|c' s]; [done|].
  str. cbn in *. rewrite Nat.sub_0_r in *. exact IH.
Qed.

(** The contract's name pattern and the store's check of run identifiers
    accept the same strings. *)
Lemma snoc_string s : s <> "" -> exists m d, s = m +:+ String d "".
Proof.
  induction s as [|c s IH]; [done|]. intros _. destruct s as [|c' s]; [by exists "", c|].
  destruct IH as (m & d & E); [done|]. exists (String c m), d. rewrite str_cons_app. by rewrite <- E.
Qed.

Lemma hyphen_or c : (one_of "-" c || lower_digit c) = (lowerAlphaNumeric c || (code c =? 45)%Z).
Proof. destruct c as [[] [] [] [] [] [] [] []]; reflexivity. Qed.

Lemma validName_validRunID s : validName s = validRunID s.
Proof.
  apply eq_true_iff_eq. unfold validName, maxNameBytes. rewrite andb_true_iff, Z.leb_le, re_match_iff.
  unfold namePattern. rewrite matches_bracketed. unfold validRunID.
  assert (Hm : forall m, all_bytes (fun c => one_of "-" c || lower_digit c) m
                       = all_bytes (fun c => lowerAlphaNumeric c || (code c =? 45)%Z) m).
  { induction m as [|c m IH]; cbn [all_bytes]; [done|]. by rewrite IH, hyphen_or. }
  split.
  - intros [Hl (c & Hc & [->|(m & d & -> & Hm' & Hd)])].
    + change (lower_digit c) with (lowerAlphaNumeric c) in Hc. cbn. by rewrite Hc.
    + change (lower_digit c) with (lowerAlphaNumeric c) in Hc. change (lower_digit d) with (lowerAlphaNumeric d) in Hd.
      assert (Hz : (len (String c (m +:+ String d "")) =? 0)%Z = false).
      { apply Z.eqb_neq. unfold len. cbn [String.length]. lia. }
      assert (Hl' : (63 <? len (String c (m +:+ String d "")))%Z = false) by (apply Z.ltb_ge; lia).
      rewrite Hz, Hl'. cbn [first_byte String.get opt_test]. rewrite Hc. cbn [negb orb].
      rewrite all_bytes_app, <- Hm, Hm'. cbn [all_bytes]. rewrite Hd. cbn [andb orb].
      rewrite <- str_cons_app, last_byte_snoc. exact Hd.
  - intros H. destruct (_ || _) eqn:E; [done|]. apply orb_false_iff in E as [E Ef]. apply orb_false_iff in E as [_ E2].
    apply Z.ltb_ge in E2. split; [done|]. destruct s as [|c rest]; [done|]. cbn [first_byte String.get opt_test] in Ef.
    apply negb_false_iff in Ef. exists c. split; [exact Ef|]. destruct (all_bytes _ rest) eqn:Ea; [|done].
    destruct rest as [|c' rest]; [by left|]. destruct (snoc_string (String c' rest)) as (m & d & Eq); [done|].
    rewrite Eq in *. right. exists m, d. split; [done|]. rewrite <- str_cons_app, last_byte_snoc in H.
    rewrite all_bytes_app in Ea. apply andb_true_iff in Ea as [Ea _]. rewrite Hm. split; [exact Ea|exact H].
Qed.

Lemma decode_run_id raw r : DecodeResolvedAgentRun raw = Some r -> validRunID (rr_RunID r) = true.
Proof.
  intros H. apply decode_parts in H as [_ H]. unfold ValidateResolvedAgentRun in H.
  apply andThen_ok in H as [_ H]. apply andThen_ok in H as [H _]. unfold ValidateLocalRunRequest in H.
  apply andThen_ok in H as [H _]. apply reject_ok, negb_false_iff in H. by rewrite <- validName_validRunID.
Qed.

Lemma decode_ttl raw r : DecodeResolvedAgentRun raw = Some r -> validateTTL (rr_TTL r) = true.
Proof.
  intros H. apply decode_parts in H as [_ H]. unfold ValidateResolvedAgentRun in H.
  repeat (apply andThen_ok in H as [_ H]). by apply reject_ok, negb_false_iff in H.
Qed.
End Decoded.

(** ** Records *)

Record storedRun := mkStoredRun {
  sr_view : Run;
  sr_snapshot : string;
  sr_requestDigest : string;
  sr_idempotencyKey : string;
  sr_activeGroup : string;
  sr_deletedAt : option time;
  sr_lifecycleCursor : string;
  sr_ownershipDigest : string;
  sr_pendingSnapshot : string;
  sr_pendingDigest : string
}.

Definition set_view (v : Run) (s : storedRun) : storedRun :=
  mkStoredRun v (sr_snapshot s) (sr_requestDigest s) (sr_idempotencyKey s) (sr_activeGroup s)
    (sr_deletedAt s) (sr_lifecycleCursor s) (sr_ownershipDigest s) (sr_pendingSnapshot s)
    (sr_pendingDigest s).

(** [scanStoredRun]; [None] is any of its errors.  The metadata fields of the
    view stay at their zero values until [populateRunMetadata]. *)
Definition scanStoredRun (r : row) : option storedRun :=
  if negb ((delete_requested r =? 0) || (delete_requested r =? 1))%Z then None
  else
    createdAt ← parseTimestamp (created_at r);
    updatedAt ← parseTimestamp (updated_at r);
    deadlineAt ← parseOptionalTimestamp (deadline_at r);
    terminalExpiresAt ← parseOptionalTimestamp (terminal_expires_at r);
    reconcileUntil ← parseOptionalTimestamp (reconcile_until r);
    deletedAt ← parseOptionalTimestamp (deleted_at r);
    Some (mkStoredRun
      (mkRun APIVersion (run_id r) (state r) (revision r) (snapshot_digest r)
         "" "" "" "" "" "" false createdAt updatedAt deadlineAt terminalExpiresAt
         (delete_requested r =? 1)%Z (terminal_target r) (last_reason r)
         (default "" (reconcile_owner r)) reconcileUntil)
      (snapshot r) (request_digest r) (idempotency_key r) (active_group r) deletedAt
      (lifecycle_cursor r) (ownership_digest r) (default "" (pending_snapshot r))
      (pending_snapshot_digest r)).

Definition populateRunMetadata (view : Run) (resolved : ResolvedAgentRun) : Run :=
  mkRun (v_APIVersion view) (v_RunID view) (v_State view) (v_Revision view) (v_SnapshotDigest view)
    (p_Issuer (rr_Principal resolved)) (p_Subject (rr_Principal resolved)) (rr_SourceURL resolved)
    (rr_Profile resolved) (rr_Workflow resolved) (rr_Retention resolved)
    (persistentRun (pe_Workspace (rr_Persistence resolved)) (pe_RuntimeState (rr_Persistence resolved))
       (pe_DockerData (rr_Persistence resolved)))
    (v_CreatedAt view) (v_UpdatedAt view) (v_DeadlineAt view) (v_TerminalExpiresAt view)
    (v_DeleteRequested view) (v_TerminalTarget view) (v_LastReason view) (v_ReconcileOwner view)
    (v_ReconcileUntil view).

(** [t.After(u)] and [t.Before(u)] *)
Definition After (t u : time) : bool := (u <? t)%Z.
Definition Before (t u : time) : bool := (t <? u)%Z.

Definition opt_and {A} (p : A -> bool) (o : option A) : bool :=
  match o with Some a => p a | None => false end.

Definition fully_persistent (r : ResolvedAgentRun) : bool :=
  pe_Workspace (rr_Persistence r) && pe_RuntimeState (rr_Persistence r) && pe_DockerData (rr_Persistence r).

(** [active] with the fields a rollout may change taken from [desired]. *)
Definition with_rollout_fields (active desired : ResolvedAgentRun) : ResolvedAgentRun :=
  mkResolvedAgentRun (rr_ContractVersion active) (rr_RunID active) (rr_Principal active)
    (rr_SourceURL active) (rr_Profile active) (rr_Workflow desired) (rr_Image active)
    (rr_Runtime active) (rr_AgentConfig desired) (rr_Prompt active) (rr_Repositories desired)
    (rr_CredentialProviders desired) (rr_DefaultCredentialProvider desired) (rr_Broker desired)
    (rr_Egress desired) (rr_WorkspaceInstructions desired) (rr_Resources active)
    (rr_Persistence active) (rr_Retention active) (rr_TTL active) (rr_Lifecycle active)
    (rr_Execution active).

(** A rollout may change these fields of a fully persistent, unbounded run and
    no others. *)
Definition workstationUpdateCompatible (active desired : ResolvedAgentRun) : bool :=
  if negb (fully_persistent active) || negb (fully_persistent desired)
     || negb (bool_decide (rr_TTL active = zero_TTL)) || negb (bool_decide (rr_TTL desired = zero_TTL))
  then false
  else bool_decide (with_rollout_fields active desired = desired).

Section Validate.
Context `{SnapshotCodec}.

(** The first block of checks of [validateStoredRun]. *)
Definition shape_bad (s : storedRun) : bool :=
  let v := sr_view s in
  negb (validRunID (v_RunID v)) || negb (State_valid (v_State v)) || (v_Revision v <? 1)%Z
  || negb (validIdempotencyKey (sr_idempotencyKey s))
  || (negb (sr_activeGroup s =? "") && negb (validIdempotencyKey (sr_activeGroup s)))
  || negb (validReason (v_LastReason v)) || negb (validLifecycleCursor (sr_lifecycleCursor s))
  || (len (sr_snapshot s) =? 0)%Z || (MaxDocumentBytes <? len (sr_snapshot s))%Z
  || negb (len (sr_requestDigest s) =? 64)%Z || negb (len (v_SnapshotDigest v) =? 64)%Z
  || negb (len (sr_ownershipDigest s) =? 64)%Z
  || After (v_CreatedAt v) (v_UpdatedAt v)
  || opt_and (fun d => Before d (v_CreatedAt v)) (v_DeadlineAt v)
  || opt_and (fun d => Before d (v_CreatedAt v)) (sr_deletedAt s).

(** The staged snapshot: a compatible rollout of a preparing run, or the
    replacement of a run that is being deleted. *)
Definition pending_bad (s : storedRun) (resolved : ResolvedAgentRun) : bool :=
  let v := sr_view s in
  if negb (sr_pendingSnapshot s =? "") then
    let replacement := (v_State v =? StateStopping) && v_DeleteRequested v
                       && (v_LastReason v =? "immutable-replacement-requested") in
    match DecodeResolvedAgentRun (sr_pendingSnapshot s) with
    | None => true
    | Some pending =>
        (MaxDocumentBytes <? len (sr_pendingSnapshot s))%Z
        || negb (sr_pendingDigest s =? sha256_hex (sr_pendingSnapshot s))
        || negb (rr_RunID pending =? rr_RunID resolved)
        || (negb replacement
            && (negb (workstationUpdateCompatible resolved pending)
                || negb (v_State v =? StatePreparing)))
    end
  else negb (sr_pendingDigest s =? "").

(** Deletion, retention, lease and target against the state. *)
Definition lifecycle_bad (s : storedRun) : bool :=
  let v := sr_view s in
  let terminal := State_terminal (v_State v) in
  (bool_decide (is_Some (sr_deletedAt s)) && (negb terminal || negb (v_DeleteRequested v)))
  || (negb terminal && bool_decide (is_Some (v_TerminalExpiresAt v)))
  || (terminal && v_DeleteRequested v && bool_decide (sr_deletedAt s = None))
  || (v_DeleteRequested v && bool_decide (sr_deletedAt s = None) && negb terminal
      && negb (v_State v =? StateStopping)).

Definition lease_bad (s : storedRun) : bool :=
  let v := sr_view s in
  ((v_ReconcileOwner v =? "") && bool_decide (is_Some (v_ReconcileUntil v)))
  || (negb (v_ReconcileOwner v =? "") && bool_decide (v_ReconcileUntil v = None))
  || (State_terminal (v_State v) && negb (v_ReconcileOwner v =? "")).

Definition target_bad (s : storedRun) : bool :=
  let v := sr_view s in
  if v_State v =? StateStopping then negb (State_terminal (v_TerminalTarget v))
  else negb (v_TerminalTarget v =? "").

(** [validateStoredRun]: [None] is [ErrStoreUnavailable]; on success the record
    comes back with its view's metadata populated from the snapshot. *)
Definition validateStoredRun (s : storedRun) : option storedRun :=
  if shape_bad s then None
  else if negb (sha256_hex (sr_snapshot s) =? v_SnapshotDigest (sr_view s))
          || negb (sr_requestDigest s =? v_SnapshotDigest (sr_view s)) then None
  else if negb (bool_decide (hex_decoded_len (sr_ownershipDigest s) = Some 32%Z)) then None
  else match DecodeResolvedAgentRun (sr_snapshot s) with
       | None => None
       | Some resolved =>
           if negb (rr_RunID resolved =? v_RunID (sr_view s)) then None
           else if pending_bad s resolved then None
           else
             let s' := set_view (populateRunMetadata (sr_view s) resolved) s in
             if lifecycle_bad s' || lease_bad s' || target_bad s' then None else Some s'
       end.

Definition workstation_key (run_id : string) : string :=
  "workstation-" ++ sha256_hex ("nvt.workstation/v1" ++ String (Ascii.ascii_of_nat 0) run_id).

Definition administratorWorkstation (s : storedRun) : bool :=
  match DecodeResolvedAgentRun (sr_snapshot s) with
  | None => false
  | Some resolved =>
      if negb (p_Subject (rr_Principal resolved) =? "workstation-" ++ v_RunID (sr_view s))
         || negb (fully_persistent resolved) || negb (bool_decide (rr_TTL resolved = zero_TTL))
      then false
      else sr_idempotencyKey s =? workstation_key (v_RunID (sr_view s))
  end.

Definition set_digests (digest : string) (s : storedRun) : storedRun :=
  mkStoredRun (put_SnapshotDigest digest (sr_view s)) (sr_snapshot s) digest (sr_idempotencyKey s)
    (sr_activeGroup s) (sr_deletedAt s) (sr_lifecycleCursor s) (sr_ownershipDigest s)
    (sr_pendingSnapshot s) (sr_pendingDigest s).

(** [repairableMalformedTerminal]: the repaired record, when the row is a
    terminal one whose invariant the recomputed digest restores. *)
Definition repairableMalformedTerminal (s : storedRun) : option storedRun :=
  if negb (State_terminal (v_State (sr_view s))) || bool_decide (is_Some (sr_deletedAt s))
     || v_DeleteRequested (sr_view s) then None
  else match DecodeResolvedAgentRun (sr_snapshot s) with
       | None => None
       | Some resolved =>
           if negb (rr_RunID resolved =? v_RunID (sr_view s)) then None
           else validateStoredRun (set_digests (sha256_hex (sr_snapshot s)) s)
       end.

(** [canonicalSnapshot]: the canonical bytes, the decoded value and the digest. *)
Definition canonicalSnapshot (raw : string) : result error (string * ResolvedAgentRun * string) :=
  match DecodeResolvedAgentRun raw with
  | None => Err ErrInvalidRequest
  | Some resolved =>
      match Marshal resolved with
      | None => Err ErrInvalidRequest
      | Some c =>
          if (MaxDocumentBytes <? len c)%Z then Err ErrInvalidRequest
          else Ok (c, resolved, sha256_hex c)
      end
  end.
End Validate.
