(* ===== verification/StoreOps.v ===== *)
(** * Operations of the run store

    localcontroller/internal/controller/store.go: every method of [Store]
    except the batch operations, which are in StoreBatch.  The database is
    the list of rows; a statement that the database itself refuses (I/O
    failure, corruption) is not modelled.

    [store.now()] is read anew by each method and by the sweep it starts with:
    the readings are arguments, in the order the code takes them. *)
From stdpp Require Import base list strings.
From Stdlib Require Import ZArith Lia.
From S2P Require Import Prelude GoStrings GoUrl GoJson Sha256 Contract Validation Decode LocalRun Sql StoreRow.


Local Open Scope Z_scope.
Local Open Scope string_scope.
Local Open Scope go_scope.

Definition table : Type := list row.
Definition DB : Type -> Type := M table error.

Record Store := mkStore {
  maxActiveRuns : Z;
  maxClaimLease : Z
}.

(** ** Statements *)

Definition not_deleted (r : row) : bool := bool_decide (deleted_at r = None).

Definition active_states : list string := [StatePending; StatePreparing; StateRunning; StateStopping].
Definition executing_states : list string := [StatePending; StatePreparing; StateRunning].

Definition state_in (ss : list string) (r : row) : bool := existsb (String.eqb (state r)) ss.

Definition sql_exec (w : row -> bool) (f : row -> row) : DB Z :=
  fun t => (Ok (sql_count w t), sql_update w f t).

(** [if err != nil || rowsAffected(result) != 1 { return e }] *)
Definition exec_one (w : row -> bool) (f : row -> row) (e : error) : DB unit :=
  let* n := sql_exec w f in guard (negb (n =? 1)%Z) e.

Definition at_revision (id : string) (rev : Z) (r : row) : bool :=
  (run_id r =? id) && (revision r =? rev)%Z.

(** ** Time *)

(** [now.Add(time.Duration(seconds) * time.Second)]: the product is an int64. *)
Definition add_seconds (now : time) (seconds : Z) : time := now + wrap64 (seconds * Second).

Definition optionalDeadline (now : time) (seconds : Z) : option time :=
  if (seconds <=? 0)%Z then None else Some (add_seconds now seconds).

Definition expiry_candidates (s : State) (resolved : ResolvedAgentRun) : list Z :=
  let p := rr_Persistence resolved in
  let t := rr_TTL resolved in
  (if negb (persistentRun (pe_Workspace p) (pe_RuntimeState p) (pe_DockerData p)) then
     (if (s =? StateCompleted) && (0 <? ttl_CompletedSeconds t)%Z then [ttl_CompletedSeconds t] else [])
     ++ (if ((s =? StateFailed) || (s =? StateExpired)) && (0 <? ttl_FailedSeconds t)%Z
         then [ttl_FailedSeconds t] else [])
   else [])
  ++ (if (0 <? ttl_RunRetentionSeconds t)%Z then [ttl_RunRetentionSeconds t] else []).

Definition terminalExpiry (now : time) (s : State) (resolved : ResolvedAgentRun) : option time :=
  if negb (State_terminal s) then None
  else match expiry_candidates s resolved with
       | [] => None
       | c :: cs =>
           Some (add_seconds now (fold_left (fun m x => if (x <? m)%Z then x else m) cs c))
       end.

Section Ops.
Context `{SnapshotCodec}.

(** The loop that reads rows and trusts the valid ones: a malformed terminal
    row is skipped, any other malformed row makes the store unavailable. *)
Fixpoint valid_records (rows : list row) : result error (list storedRun) :=
  match rows with
  | [] => Ok []
  | r :: rows' =>
      match scanStoredRun r with
      | None => Err ErrStoreUnavailable
      | Some s =>
          match validateStoredRun s with
          | None =>
              if State_terminal (v_State (sr_view s)) then valid_records rows'
              else Err ErrStoreUnavailable
          | Some s' =>
              match valid_records rows' with
              | Ok ss => Ok (s' :: ss)
              | Err e => Err e
              end
          end
      end
  end.

(** ** Opening: the validation of an existing database *)

(** [Store.validate], after the integrity and schema-version pragmas. *)
Definition validate (t : table) : result error unit :=
  if (100000 <? Z.of_nat (length t))%Z then Err ErrStoreUnavailable
  else match valid_records t with Ok _ => Ok tt | Err e => Err e end.

(** ** Sweep *)

Definition deadline_update (now : time) (r : row) : row :=
  r |> set_state StateStopping |> set_revision (revision r + 1)
    |> set_updated_at (formatTimestamp now)
    |> set_reconcile_owner None |> set_reconcile_until None
    |> set_last_reason "active-deadline-exceeded" |> set_terminal_target StateExpired
    |> set_pending_snapshot None |> set_pending_snapshot_digest "".

Definition retention_update (now : time) (r : row) : row :=
  r |> set_state StateStopping |> set_terminal_target (state r) |> set_terminal_expires_at None
    |> set_delete_requested 1 |> set_revision (revision r + 1)
    |> set_updated_at (formatTimestamp now) |> set_last_reason "retention-expired".

Definition deadline_due (now : time) (v : Run) : bool :=
  State_active (v_State v) && negb (v_State v =? StateStopping)
  && opt_and (fun d => negb (After d now)) (v_DeadlineAt v).

Definition retention_due (now : time) (v : Run) : bool :=
  State_terminal (v_State v) && opt_and (fun d => negb (After d now)) (v_TerminalExpiresAt v).

Definition sweep_record (now : time) (changed : Z) (s : storedRun) : DB Z :=
  let v := sr_view s in
  if deadline_due now v then
    exec_one (at_revision (v_RunID v) (v_Revision v)) (deadline_update now) ErrStoreUnavailable ;;;
    ret (changed + 1)
  else if retention_due now v then
    exec_one (at_revision (v_RunID v) (v_Revision v)) (retention_update now) ErrStoreUnavailable ;;;
    ret (changed + 1)
  else ret changed.

Definition sweepTx (now : time) : DB Z :=
  let* t := get in
  let* records := lift (valid_records (sql_select not_deleted t)) in
  fold_each (sweep_record now) 0 records.

Definition Sweep (now : time) : DB Z := transaction (sweepTx now).

(** ** Reads *)

(** [scanStoredRun] of [WHERE run_id = ?], validated and not deleted:
    [loadForUpdate], and the common part of the read methods. *)
Definition loadForUpdate (runID : string) : DB storedRun :=
  let* t := get in
  match by_pk run_id runID t with
  | None => fail ErrNotFound
  | Some r =>
      match scanStoredRun r with
      | None => fail ErrStoreUnavailable
      | Some s =>
          match validateStoredRun s with
          | None => fail ErrStoreUnavailable
          | Some s' =>
              if bool_decide (is_Some (sr_deletedAt s')) then fail ErrNotFound else ret s'
          end
      end
  end.

Definition Get (t0 : time) (runID : string) : DB Run :=
  guard (negb (validRunID runID)) ErrInvalidRequest ;;;
  Sweep t0 ;;;
  let* s := loadForUpdate runID in
  ret (sr_view s).

Definition ResolvedSnapshot (runID : string) : DB (string * string) :=
  guard (negb (validRunID runID)) ErrInvalidRequest ;;;
  let* s := loadForUpdate runID in
  ret (sr_snapshot s, v_SnapshotDigest (sr_view s)).

(** Snapshot, desired digest, ownership digest, cursor, rollout in progress. *)
Definition backendSnapshot (runID : string) : DB (string * string * string * string * bool) :=
  guard (negb (validRunID runID)) ErrInvalidRequest ;;;
  let* s := loadForUpdate runID in
  let staged := negb (sr_pendingSnapshot s =? "") in
  ret (if staged then sr_pendingSnapshot s else sr_snapshot s,
       if staged then sr_pendingDigest s else v_SnapshotDigest (sr_view s),
       sr_ownershipDigest s, sr_lifecycleCursor s, staged).

Definition list_where (after : string) (activeOnly : bool) (r : row) : bool :=
  not_deleted r && str_lt after (run_id r) && (negb activeOnly || state_in active_states r).

(** The body of [for rows.Next()]: [runs] so far (newest last), the cursor and
    the raw row count; stops early when the page is full. *)
Fixpoint list_rows (limit : nat) (rows : list row) (acc : list Run) (cursor : string) (raw : nat)
  : result error (list Run * string * nat) :=
  match rows with
  | [] => Ok (acc, cursor, raw)
  | r :: rows' =>
      match scanStoredRun r with
      | None => Err ErrStoreUnavailable
      | Some s =>
          let cursor' := v_RunID (sr_view s) in
          match validateStoredRun s with
          | None =>
              if State_terminal (v_State (sr_view s))
              then list_rows limit rows' acc cursor' (S raw)
              else Err ErrStoreUnavailable
          | Some s' =>
              let acc' := app acc [sr_view s'] in
              if (limit <? length acc')%nat then Ok (acc', cursor', S raw)
              else list_rows limit rows' acc' cursor' (S raw)
          end
      end
  end.

(** [for len(result.Runs) <= limit]; [None] is exhausted fuel. *)
Fixpoint list_pages (fuel : nat) (limit : nat) (activeOnly : bool) (t : table)
  (acc : list Run) (cursor : string) : option (result error (list Run)) :=
  match fuel with
  | O => None
  | S fuel' =>
      if (length acc <=? limit)%nat then
        match list_rows limit (take (S limit) (sql_select (list_where cursor activeOnly) t)) acc cursor 0 with
        | Err e => Some (Err e)
        | Ok (acc', cursor', raw) =>
            if (limit <? length acc')%nat || (raw <? S limit)%nat then Some (Ok acc')
            else list_pages fuel' limit activeOnly t acc' cursor'
        end
      else Some (Ok acc)
  end.

(** Every query that does not end the loop passes at least one row, so one
    query per row and one more are enough. *)
Definition list_fuel (t : table) : nat := S (length t).

(** [None] is exhausted fuel, which [list_terminates] excludes. *)
Definition store_list (t0 : time) (limit : Z) (after : string) (activeOnly : bool) : DB (option ListResult) :=
  guard ((limit <? 1)%Z || (MaxListLimit <? limit)%Z
         || (negb (after =? "") && negb (validRunID after))) ErrInvalidRequest ;;;
  Sweep t0 ;;;
  let* t := get in
  match list_pages (list_fuel t) (Z.to_nat limit) activeOnly t [] after with
  | None => ret None
  | Some (Err e) => fail e
  | Some (Ok runs) =>
      if (Z.to_nat limit <? length runs)%nat
      then let page := take (Z.to_nat limit) runs in
           ret (Some (mkListResult APIVersion page
                        (match last page with Some v => v_RunID v | None => "" end)))
      else ret (Some (mkListResult APIVersion runs ""))
  end.

Definition List_ (t0 : time) (limit : Z) (after : string) : DB (option ListResult) :=
  store_list t0 limit after false.

Definition listActive (t0 : time) (limit : Z) (after : string) : DB (option ListResult) :=
  store_list t0 limit after true.

(** ** Claims *)

Definition claim_update (owner : string) (until now : time) (newRevision : Z) (r : row) : row :=
  r |> set_reconcile_owner (Some owner) |> set_reconcile_until (Some (formatTimestamp until))
    |> set_revision newRevision |> set_updated_at (formatTimestamp now).

Definition Claim (st : Store) (t0 now : time) (input : ClaimInput) : DB Run :=
  guard (negb (validRunID (cl_RunID input)) || negb (validOwner (cl_Owner input))
         || (cl_ExpectedRevision input <? 1)%Z || (cl_Lease input <? Second)%Z
         || (maxClaimLease st <? cl_Lease input)%Z) ErrInvalidRequest ;;;
  Sweep t0 ;;;
  transaction (
    let* s := loadForUpdate (cl_RunID input) in
    let v := sr_view s in
    guard (negb (v_Revision v =? cl_ExpectedRevision input)%Z || State_terminal (v_State v))
      ErrOwnershipConflict ;;;
    let* held :=
      (if negb (v_ReconcileOwner v =? "") && negb (v_ReconcileOwner v =? cl_Owner input) then
         match v_ReconcileUntil v with
         | Some until => ret (After until now)
         | None => fail NilDereference
         end
       else ret false) in
    guard held ErrOwnershipConflict ;;;
    let until := now + cl_Lease input in
    let newRevision := v_Revision v + 1 in
    exec_one (at_revision (cl_RunID input) (cl_ExpectedRevision input))
      (claim_update (cl_Owner input) until now newRevision) ErrOwnershipConflict ;;;
    ret (v |> put_ReconcileOwner (cl_Owner input) |> put_ReconcileUntil (Some until)
           |> put_Revision newRevision |> put_UpdatedAt now)).

(** ** Status updates *)

Definition cursor_update (cursor : string) (newRevision : Z) (now : time) (r : row) : row :=
  r |> set_lifecycle_cursor cursor |> set_revision newRevision
    |> set_updated_at (formatTimestamp now)
    |> set_reconcile_owner None |> set_reconcile_until None.

Definition rollout_update (newRevision : Z) (now : time) (reason cursor : string) (r : row) : row :=
  r |> set_snapshot (default "" (pending_snapshot r)) |> set_snapshot_digest (pending_snapshot_digest r)
    |> set_request_digest (pending_snapshot_digest r)
    |> set_pending_snapshot None |> set_pending_snapshot_digest ""
    |> set_state StateRunning |> set_revision newRevision |> set_updated_at (formatTimestamp now)
    |> set_reconcile_owner None |> set_reconcile_until None
    |> set_last_reason reason |> set_lifecycle_cursor cursor.

Definition replacement_update (newRevision : Z) (now : time) (r : row) : row :=
  r |> set_snapshot (default "" (pending_snapshot r)) |> set_snapshot_digest (pending_snapshot_digest r)
    |> set_request_digest (pending_snapshot_digest r) |> set_ownership_digest (pending_snapshot_digest r)
    |> set_pending_snapshot None |> set_pending_snapshot_digest ""
    |> set_state StatePending |> set_revision newRevision |> set_updated_at (formatTimestamp now)
    |> set_terminal_expires_at None |> set_reconcile_owner None |> set_reconcile_until None
    |> set_delete_requested 0 |> set_deleted_at None
    |> set_last_reason "immutable-replacement-cleanup-complete" |> set_terminal_target ""
    |> set_lifecycle_cursor "".

Definition status_update (to : State) (newRevision : Z) (now : time) (expiry deletedAt : option time)
  (reason target cursor : string) (r : row) : row :=
  r |> set_state to |> set_revision newRevision |> set_updated_at (formatTimestamp now)
    |> set_terminal_expires_at (formatOptionalTimestamp expiry)
    |> set_reconcile_owner None |> set_reconcile_until None
    |> set_deleted_at (formatOptionalTimestamp deletedAt)
    |> set_last_reason reason |> set_terminal_target target |> set_lifecycle_cursor cursor
    |> set_pending_snapshot (if to =? StateStopping then None else pending_snapshot r)
    |> set_pending_snapshot_digest (if to =? StateStopping then "" else pending_snapshot_digest r).

Definition status_input_bad (i : StatusInput) : bool :=
  negb (validRunID (si_RunID i)) || negb (validOwner (si_Owner i)) || (si_ExpectedRevision i <? 1)%Z
  || negb (State_valid (si_State i)) || negb (validReason (si_Reason i))
  || ((si_State i =? StateStopping) && negb (State_terminal (si_TerminalTarget i)))
  || (negb (si_State i =? StateStopping) && negb (si_TerminalTarget i =? ""))
  || opt_and (fun c => negb (validLifecycleCursor c)) (si_LifecycleCursor i).

(** The transaction of [UpdateStatus]: its inner result is the method's result
    after the commit, which may still be an error. *)
Definition update_status_tx (now : time) (i : StatusInput) : DB (result error Run) :=
  let* s := loadForUpdate (si_RunID i) in
  let v := sr_view s in
  guard (negb (v_Revision v =? si_ExpectedRevision i)%Z || negb (v_ReconcileOwner v =? si_Owner i)
         || negb (opt_and (fun u => After u now) (v_ReconcileUntil v))) ErrOwnershipConflict ;;;
  let newRevision := v_Revision v + 1 in
  let here := at_revision (si_RunID i) (si_ExpectedRevision i) in
  let cursor := default (sr_lifecycleCursor s) (si_LifecycleCursor i) in
  let released := fun view => view |> put_Revision newRevision |> put_UpdatedAt now
                                   |> put_ReconcileOwner "" |> put_ReconcileUntil None in
  if si_State i =? v_State v then
    if match si_LifecycleCursor i with None => true | Some c => c =? sr_lifecycleCursor s end
    then ret (Ok v)
    else
      guard (negb (si_Reason i =? "") || negb (si_TerminalTarget i =? "")) ErrInvalidTransition ;;;
      exec_one here (cursor_update cursor newRevision now) ErrOwnershipConflict ;;;
      ret (Ok (released v))
  else if negb (transitionAllowed (v_State v) (si_State i)) then fail ErrInvalidTransition
  else if (v_State v =? StatePreparing) && (si_State i =? StateRunning)
          && negb (sr_pendingSnapshot s =? "") then
    exec_one here (rollout_update newRevision now (si_Reason i) cursor) ErrOwnershipConflict ;;;
    match DecodeResolvedAgentRun (sr_pendingSnapshot s) with
    | None => ret (Err ErrStoreUnavailable)
    | Some resolved =>
        ret (Ok (populateRunMetadata
          (released v |> put_State StateRunning |> put_SnapshotDigest (sr_pendingDigest s)
             |> put_LastReason (si_Reason i)) resolved))
    end
  else if (v_State v =? StateStopping) && negb (si_State i =? v_TerminalTarget v)
  then fail ErrInvalidTransition
  else if (v_State v =? StateStopping) && State_terminal (si_State i)
          && negb (sr_pendingSnapshot s =? "")
          && (v_LastReason v =? "immutable-replacement-requested") then
    exec_one here (replacement_update newRevision now) ErrOwnershipConflict ;;;
    match DecodeResolvedAgentRun (sr_pendingSnapshot s) with
    | None => ret (Err ErrStoreUnavailable)
    | Some resolved =>
        ret (Ok (populateRunMetadata
          (released v |> put_State StatePending |> put_SnapshotDigest (sr_pendingDigest s)
             |> put_DeleteRequested false |> put_TerminalTarget ""
             |> put_LastReason "immutable-replacement-cleanup-complete") resolved))
    end
  else
    match DecodeResolvedAgentRun (sr_snapshot s) with
    | None => fail ErrStoreUnavailable
    | Some resolved =>
        let expiry := terminalExpiry now (si_State i) resolved in
        let deletedAt := if State_terminal (si_State i) && v_DeleteRequested v then Some now else None in
        let target := if si_State i =? StateStopping then si_TerminalTarget i else "" in
        exec_one here (status_update (si_State i) newRevision now expiry deletedAt (si_Reason i) target cursor)
          ErrOwnershipConflict ;;;
        ret (if bool_decide (is_Some deletedAt) then Err ErrGone
             else Ok (released v |> put_State (si_State i) |> put_TerminalExpiresAt expiry
                        |> put_LastReason (si_Reason i) |> put_TerminalTarget target))
    end.

Definition UpdateStatus (t0 now : time) (i : StatusInput) : DB Run :=
  guard (status_input_bad i) ErrInvalidRequest ;;;
  Sweep t0 ;;;
  let* committed := transaction (update_status_tx now i) in
  lift committed.

(** [abortPendingConfiguration] *)
Definition abort_where (runID owner : string) (rev : Z) (r : row) : bool :=
  at_revision runID rev r && bool_decide (reconcile_owner r = Some owner)
  && bool_decide (is_Some (pending_snapshot r)).

Definition abort_update (now : time) (r : row) : row :=
  r |> set_pending_snapshot None |> set_pending_snapshot_digest "" |> set_state StateRunning
    |> set_revision (revision r + 1) |> set_updated_at (formatTimestamp now)
    |> set_reconcile_owner None |> set_reconcile_until None
    |> set_last_reason "configuration-rollout-rejected".

Definition abortPendingConfiguration (now : time) (runID owner : string) (expectedRevision : Z) : DB unit :=
  exec_one (abort_where runID owner expectedRevision) (abort_update now) ErrOwnershipConflict.

(** ** Stop requests *)

Definition terminal_delete_update (target : State) (now : time) (r : row) : row :=
  r |> set_state StateStopping |> set_terminal_target target |> set_terminal_expires_at None
    |> set_delete_requested 1 |> set_revision (revision r + 1)
    |> set_updated_at (formatTimestamp now) |> set_last_reason "delete-requested".

Definition stop_update (deleteRequested : bool) (newRevision : Z) (now : time) (reason : string)
  (target : State) (r : row) : row :=
  r |> set_state StateStopping |> set_delete_requested (if deleteRequested then 1 else 0)
    |> set_revision newRevision |> set_updated_at (formatTimestamp now)
    |> set_reconcile_owner None |> set_reconcile_until None
    |> set_last_reason reason |> set_terminal_target target
    |> set_pending_snapshot None |> set_pending_snapshot_digest "".

Definition request_stop_tx (now : time) (runID : string) (deleteRequested : bool) : DB Run :=
  let* s := loadForUpdate runID in
  let v := sr_view s in
  let here := at_revision runID (v_Revision v) in
  if State_terminal (v_State v) then
    if negb deleteRequested then ret v
    else
      exec_one here (terminal_delete_update (v_State v) now) ErrConflict ;;;
      ret (v |> put_TerminalTarget (v_State v) |> put_State StateStopping |> put_TerminalExpiresAt None
             |> put_DeleteRequested true |> put_Revision (v_Revision v + 1) |> put_UpdatedAt now
             |> put_LastReason "delete-requested")
  else if (v_State v =? StateStopping) && (negb deleteRequested || v_DeleteRequested v) then ret v
  else
    let reason := if deleteRequested then "delete-requested" else "cancel-requested" in
    let target := if v_State v =? StateStopping then v_TerminalTarget v
                  else if deleteRequested then StateCompleted else StateFailed in
    let newRevision := v_Revision v + 1 in
    let deleting := deleteRequested || v_DeleteRequested v in
    exec_one here (stop_update deleting newRevision now reason target) ErrConflict ;;;
    ret (v |> put_State StateStopping |> put_DeleteRequested deleting |> put_Revision newRevision
           |> put_UpdatedAt now |> put_ReconcileOwner "" |> put_ReconcileUntil None
           |> put_LastReason reason |> put_TerminalTarget target).

Definition requestStop (t0 now : time) (runID : string) (deleteRequested : bool) : DB Run :=
  guard (negb (validRunID runID)) ErrInvalidRequest ;;;
  Sweep t0 ;;;
  transaction (request_stop_tx now runID deleteRequested).

Definition Cancel (t0 now : time) (runID : string) : DB Run := requestStop t0 now runID false.

(** The run, and whether it is already deleted. *)
Definition Delete (t0 now : time) (runID : string) : DB (Run * bool) :=
  fun t =>
    match requestStop t0 now runID true t with
    | (Ok run, t') => (Ok (run, false), t')
    | (Err ErrGone, t') => (Ok (zero_Run, true), t')
    | (Err ErrNotFound, t') =>
        match by_pk run_id runID t' with
        | None => (Err ErrNotFound, t')
        | Some r =>
            match (s ← scanStoredRun r; validateStoredRun s) with
            | Some s =>
                if bool_decide (is_Some (sr_deletedAt s)) then (Ok (zero_Run, true), t')
                else (Err ErrStoreUnavailable, t')
            | None => (Err ErrStoreUnavailable, t')
            end
        end
    | (Err e, t') => (Err e, t')
    end.

(** ** Capacity of cleanup *)

Definition replacementCleanupPending (st : Store) : DB bool :=
  let* t := get in
  let live := fun r => not_deleted r && state_in active_states r in
  let active := sql_count live t in
  let stopping := sql_count (fun r => live r && (state r =? StateStopping)) t in
  ret ((0 <? stopping)%Z && (maxActiveRuns st <? active)%Z).
End Ops.
