(* ===== verification/StoreBatch.v ===== *)
(** * Batch creation and workstation reconciliation

    [Store.createBatch] of localcontroller/internal/controller/store.go, the
    one transaction behind [Create], [CreateBatch] and
    [ReconcileWorkstations]: validate every input, sweep, classify each
    candidate against the durable set, check destructive intent, active
    groups and capacity, and only then write. *)
From stdpp Require Import base list strings.
From Stdlib Require Import ZArith Lia.
From S2P Require Import Prelude GoStrings GoUrl GoJson Sha256 Contract Validation Decode LocalRun Sql StoreRow StoreOps.


Local Open Scope Z_scope.
Local Open Scope string_scope.
Local Open Scope go_scope.

Record preparedCreate := mkPrepared {
  pc_input : CreateInput;
  pc_snapshot : string;
  pc_resolved : ResolvedAgentRun;
  pc_digest : string
}.

(** The index lists the classification loop fills, and the results array. *)
Record batch := mkBatch {
  b_results : list CreateResult;
  b_new : list nat;
  b_update : list nat;
  b_cancel : list nat;
  b_restart : list nat;
  b_restartUpdate : list nat;
  b_replace : list nat;
  b_terminalReplace : list nat
}.

Definition empty_batch (n : nat) : batch :=
  mkBatch (repeat zero_CreateResult n) [] [] [] [] [] [] [].

Definition with_result (i : nat) (res : CreateResult) (b : batch) : batch :=
  mkBatch (<[i := res]> (b_results b)) (b_new b) (b_update b) (b_cancel b) (b_restart b)
    (b_restartUpdate b) (b_replace b) (b_terminalReplace b).

(** What the classification decides for one candidate. *)
Inductive action : Type :=
| ActKeep | ActNew | ActUpdate | ActCancel | ActRestart | ActRestartUpdate
| ActReplace | ActTerminalReplace.

#[export] Instance action_eq_dec : EqDecision action.
Proof. solve_decision. Defined.

Definition record_action (i : nat) (a : action) (b : batch) : batch :=
  match a with
  | ActKeep => b
  | ActNew => mkBatch (b_results b) (b_new b ++ [i]) (b_update b) (b_cancel b) (b_restart b)
                (b_restartUpdate b) (b_replace b) (b_terminalReplace b)
  | ActUpdate => mkBatch (b_results b) (b_new b) (b_update b ++ [i]) (b_cancel b) (b_restart b)
                (b_restartUpdate b) (b_replace b) (b_terminalReplace b)
  | ActCancel => mkBatch (b_results b) (b_new b) (b_update b) (b_cancel b ++ [i]) (b_restart b)
                (b_restartUpdate b) (b_replace b) (b_terminalReplace b)
  | ActRestart => mkBatch (b_results b) (b_new b) (b_update b) (b_cancel b) (b_restart b ++ [i])
                (b_restartUpdate b) (b_replace b) (b_terminalReplace b)
  | ActRestartUpdate => mkBatch (b_results b) (b_new b) (b_update b) (b_cancel b) (b_restart b)
                (b_restartUpdate b ++ [i]) (b_replace b) (b_terminalReplace b)
  | ActReplace => mkBatch (b_results b) (b_new b) (b_update b) (b_cancel b) (b_restart b)
                (b_restartUpdate b) (b_replace b ++ [i]) (b_terminalReplace b)
  | ActTerminalReplace => mkBatch (b_results b) (b_new b) (b_update b) (b_cancel b) (b_restart b)
                (b_restartUpdate b) (b_replace b) (b_terminalReplace b ++ [i])
  end.

(** ** Statements *)

Definition repair_where (id key : string) (r : row) : bool :=
  (run_id r =? id) && (idempotency_key r =? key) && not_deleted r
  && state_in [StateCompleted; StateFailed; StateExpired] r.

Definition repair_update (snapshotDigest requestDigest : string) (r : row) : row :=
  r |> set_snapshot_digest snapshotDigest |> set_request_digest requestDigest.

Definition new_row (c : preparedCreate) (now : time) (deadline : option time) : row :=
  mkRow (rr_RunID (pc_resolved c)) (ci_IdempotencyKey (pc_input c)) (ci_ActiveGroup (pc_input c))
    (pc_digest c) (pc_snapshot c) (pc_digest c) StatePending 1
    (formatTimestamp now) (formatTimestamp now) (formatOptionalTimestamp deadline) None
    None None 0 None "" "" "" (pc_digest c) None "".

Definition live_key (key : string) (r : row) : bool := (idempotency_key r =? key) && not_deleted r.

Definition rollout_request_update (c : preparedCreate) (now : time) (r : row) : row :=
  r |> set_pending_snapshot (Some (pc_snapshot c)) |> set_pending_snapshot_digest (pc_digest c)
    |> set_state StatePreparing |> set_revision (revision r + 1) |> set_updated_at (formatTimestamp now)
    |> set_last_reason "configuration-rollout-requested"
    |> set_reconcile_owner None |> set_reconcile_until None.

Definition rollback_where (key : string) (r : row) : bool :=
  (idempotency_key r =? key) && bool_decide (is_Some (pending_snapshot r)).

Definition rollback_update (now : time) (r : row) : row :=
  r |> set_pending_snapshot (Some (snapshot r)) |> set_pending_snapshot_digest (snapshot_digest r)
    |> set_state StatePreparing |> set_revision (revision r + 1) |> set_updated_at (formatTimestamp now)
    |> set_last_reason "configuration-rollback-requested"
    |> set_reconcile_owner None |> set_reconcile_until None.

Definition restart_where (key : string) (r : row) : bool :=
  live_key key r && state_in [StateCompleted; StateFailed] r.

Definition restart_update (now : time) (r : row) : row :=
  r |> set_state StatePending |> set_revision (revision r + 1) |> set_updated_at (formatTimestamp now)
    |> set_terminal_expires_at None |> set_reconcile_owner None |> set_reconcile_until None
    |> set_last_reason "workstation-restart-requested" |> set_terminal_target "".

Definition restart_with_update (c : preparedCreate) (now : time) (r : row) : row :=
  r |> set_snapshot (pc_snapshot c) |> set_snapshot_digest (pc_digest c) |> set_request_digest (pc_digest c)
    |> set_pending_snapshot None |> set_pending_snapshot_digest ""
    |> set_state StatePending |> set_revision (revision r + 1) |> set_updated_at (formatTimestamp now)
    |> set_terminal_expires_at None |> set_reconcile_owner None |> set_reconcile_until None
    |> set_last_reason "workstation-restart-with-configuration-requested" |> set_terminal_target "".

Definition replace_update (c : preparedCreate) (now : time) (r : row) : row :=
  r |> set_pending_snapshot (Some (pc_snapshot c)) |> set_pending_snapshot_digest (pc_digest c)
    |> set_state StateStopping |> set_delete_requested 1 |> set_terminal_target StateCompleted
    |> set_terminal_expires_at None |> set_revision (revision r + 1) |> set_updated_at (formatTimestamp now)
    |> set_reconcile_owner None |> set_reconcile_until None
    |> set_last_reason "immutable-replacement-requested".

Definition prune_where (id : string) (r : row) : bool := (run_id r =? id) && not_deleted r.

Definition prune_update (now : time) (r : row) : row :=
  r |> set_state StateStopping |> set_delete_requested 1 |> set_terminal_target StateCompleted
    |> set_revision (revision r + 1) |> set_updated_at (formatTimestamp now)
    |> set_reconcile_owner None |> set_reconcile_until None
    |> set_last_reason "workstation-prune-requested"
    |> set_pending_snapshot None |> set_pending_snapshot_digest "".

Section Batch.
Context `{SnapshotCodec}.

(** ** Preparation of the inputs *)

Fixpoint prepare (keys ids groups : list string) (inputs : list CreateInput)
  : result error (list preparedCreate) :=
  match inputs with
  | [] => Ok []
  | i :: inputs' =>
      if negb (validIdempotencyKey (ci_IdempotencyKey i))
         || (negb (ci_ActiveGroup i =? "") && negb (validIdempotencyKey (ci_ActiveGroup i)))
      then Err ErrInvalidRequest
      else
        match canonicalSnapshot (ci_ResolvedRun i) with
        | Err e => Err e
        | Ok (snap, resolved, digest) =>
            if existsb (String.eqb (ci_IdempotencyKey i)) keys then Err ErrConflict
            else if existsb (String.eqb (rr_RunID resolved)) ids then Err ErrConflict
            else if negb (ci_ActiveGroup i =? "") && existsb (String.eqb (ci_ActiveGroup i)) groups
            then Err ErrActiveGroup
            else
              match prepare (ci_IdempotencyKey i :: keys) (rr_RunID resolved :: ids)
                      (if ci_ActiveGroup i =? "" then groups else ci_ActiveGroup i :: groups) inputs' with
              | Ok cs => Ok (mkPrepared i snap resolved digest :: cs)
              | Err e => Err e
              end
        end
  end.

(** ** Classification *)

Definition queryByIdempotency (key : string) : DB (option storedRun) :=
  let* t := get in
  match by_uk idempotency_key key t with
  | None => ret None
  | Some r => match scanStoredRun r with Some s => ret (Some s) | None => fail ErrStoreUnavailable end
  end.

(** A found row as the invariant admits it, repairing the digests of a
    malformed terminal row in the table. *)
Definition trusted_existing (c : preparedCreate) (s : storedRun) : DB storedRun :=
  match validateStoredRun s with
  | Some s' => ret s'
  | None =>
      match repairableMalformedTerminal s with
      | None => fail ErrStoreUnavailable
      | Some repaired =>
          guard (negb (v_RunID (sr_view repaired) =? rr_RunID (pc_resolved c))) ErrStoreUnavailable ;;;
          exec_one (repair_where (v_RunID (sr_view repaired)) (ci_IdempotencyKey (pc_input c)))
            (repair_update (v_SnapshotDigest (sr_view repaired)) (sr_requestDigest repaired))
            ErrStoreUnavailable ;;;
          ret repaired
      end
  end.

(** The decision on a trusted existing row. *)
Definition decide_existing (reclaim replace : bool) (now : time) (c : preparedCreate) (s : storedRun)
  : result error action :=
  let v := sr_view s in
  let staged := negb (sr_pendingSnapshot s =? "") in
  let changed := negb (sr_requestDigest s =? pc_digest c) in
  let finished := (v_State v =? StateCompleted) || (v_State v =? StateFailed) in
  if bool_decide (is_Some (sr_deletedAt s)) then Err ErrGone
  else if negb (v_RunID v =? rr_RunID (pc_resolved c)) then Err ErrConflict
  else if (changed || staged) && opt_and (fun u => After u now) (v_ReconcileUntil v) then Err ErrConflict
  else if changed then
    let compatible := match DecodeResolvedAgentRun (sr_snapshot s) with
                      | Some active => workstationUpdateCompatible active (pc_resolved c)
                      | None => false
                      end in
    if negb compatible || v_DeleteRequested v then
      if negb replace || v_DeleteRequested v then Err ErrConflict
      else if State_terminal (v_State v) then Ok ActTerminalReplace else Ok ActReplace
    else if reclaim && finished then Ok ActRestartUpdate
    else if negb (v_State v =? StateRunning) && negb ((v_State v =? StatePreparing) && staged)
    then Err ErrConflict
    else if negb (sr_pendingDigest s =? pc_digest c) then Ok ActUpdate else Ok ActKeep
  else if staged then Ok ActCancel
  else if reclaim && finished then Ok ActRestart
  else Ok ActKeep.

Definition classify (reclaim replace : bool) (now : time) (b : batch) (ic : nat * preparedCreate)
  : DB batch :=
  let '(i, c) := ic in
  let* found := queryByIdempotency (ci_IdempotencyKey (pc_input c)) in
  match found with
  | None => ret (record_action i ActNew b)
  | Some s =>
      let* existing := trusted_existing c s in
      let* a := lift (decide_existing reclaim replace now c existing) in
      let b' := record_action i a b in
      ret (match a with
           | ActReplace | ActTerminalReplace => b'
           | _ => with_result i (mkCreateResult (sr_view existing) false) b'
           end)
  end.

(** ** Checks before writing *)

Definition prune_ids (prepared : list preparedCreate) (prune : bool) (t : table) : result error (list string) :=
  if negb prune then Ok []
  else match valid_records (sql_select not_deleted t) with
       | Err e => Err e
       | Ok records =>
           Ok (map (fun s => v_RunID (sr_view s))
                 (List.filter (fun s =>
                    negb (existsb (fun c => sr_idempotencyKey s =? ci_IdempotencyKey (pc_input c)) prepared)
                    && administratorWorkstation s && negb (v_DeleteRequested (sr_view s))) records))
       end.

Definition candidate_ids (prepared : list preparedCreate) (ixs : list nat) : list string :=
  omap (fun i => (fun c => rr_RunID (pc_resolved c)) <$> prepared !! i) ixs.

(** [sort.Strings] *)
Fixpoint insert_string (s : string) (l : list string) : list string :=
  match l with
  | [] => [s]
  | x :: l' => if str_lt x s then x :: insert_string s l' else s :: l
  end.
Definition sort_strings (l : list string) : list string := foldr insert_string [] l.

Definition group_busy (group : string) (r : row) : bool :=
  not_deleted r && ((active_group r =? group) || (idempotency_key r =? group)) && state_in active_states r.

Definition check_group (prepared : list preparedCreate) (i : nat) : DB unit :=
  match prepared !! i with
  | None => ret tt
  | Some c =>
      let group := ci_ActiveGroup (pc_input c) in
      if group =? "" then ret tt
      else
        let* t := get in
        guard (0 <? sql_count (group_busy group) t)%Z ErrActiveGroup
  end.

Definition counted_states (reclaim : bool) : list string :=
  if reclaim then executing_states else active_states.

(** ** Writes *)

Definition apply_new (now : time) (b : batch) (i : nat) (c : preparedCreate) : DB batch :=
  let deadline := optionalDeadline now (ttl_ActiveSeconds (rr_TTL (pc_resolved c))) in
  let* t := get in
  match sql_insert run_id idempotency_key (new_row c now deadline) t with
  | None => fail ErrConflict
  | Some t' =>
      put t' ;;;
      let view := mkRun APIVersion (rr_RunID (pc_resolved c)) StatePending 1 (pc_digest c)
                    "" "" "" "" "" "" false now now deadline None false "" "" "" None in
      ret (with_result i (mkCreateResult (populateRunMetadata view (pc_resolved c)) true) b)
  end.

(** Update one row and report the row as it now reads. *)
Definition apply_reread (w : row -> bool) (f : row -> row) (key : string) (b : batch) (i : nat) : DB batch :=
  exec_one w f ErrStoreUnavailable ;;;
  let* found := queryByIdempotency key in
  match found with
  | None => fail ErrStoreUnavailable
  | Some s => ret (with_result i (mkCreateResult (sr_view s) false) b)
  end.

Definition key_of (c : preparedCreate) : string := ci_IdempotencyKey (pc_input c).

Definition apply_update (now : time) (b : batch) (i : nat) (c : preparedCreate) : DB batch :=
  apply_reread (live_key (key_of c)) (rollout_request_update c now) (key_of c) b i.

Definition apply_cancel (now : time) (b : batch) (i : nat) (c : preparedCreate) : DB batch :=
  apply_reread (rollback_where (key_of c)) (rollback_update now) (key_of c) b i.

Definition apply_restart (now : time) (b : batch) (i : nat) (c : preparedCreate) : DB batch :=
  apply_reread (restart_where (key_of c)) (restart_update now) (key_of c) b i.

Definition apply_restart_update (now : time) (b : batch) (i : nat) (c : preparedCreate) : DB batch :=
  apply_reread (restart_where (key_of c)) (restart_with_update c now) (key_of c) b i.

Definition apply_replace (now : time) (b : batch) (i : nat) (c : preparedCreate) : DB batch :=
  exec_one (live_key (key_of c)) (replace_update c now) ErrStoreUnavailable ;;; ret b.

Definition apply_prune (now : time) (id : string) : DB unit :=
  exec_one (prune_where id) (prune_update now) ErrStoreUnavailable.

(** [for _, index := range indexes { candidate := prepared[index]; ... }] *)
Definition apply_all (apply : batch -> nat -> preparedCreate -> DB batch) (prepared : list preparedCreate)
  (b : batch) (ixs : list nat) : DB batch :=
  fold_each (fun b i => match prepared !! i with Some c => apply b i c | None => ret b end) b ixs.

(** The transaction, after the inputs are prepared. *)
Definition create_tx (st : Store) (now : time) (prepared : list preparedCreate)
  (reclaim prune replace acknowledged : bool) : DB (list CreateResult) :=
  sweepTx now ;;;
  let* b := fold_each (classify reclaim replace now) (empty_batch (length prepared))
              (imap (fun i c => (i, c)) prepared) in
  let* t := get in
  let* pruned := lift (prune_ids prepared prune t) in
  guard ((negb (bool_decide (pruned = [])) || negb (bool_decide (b_replace b = []))
          || negb (bool_decide (b_terminalReplace b = []))) && negb acknowledged)
    (ErrDestructiveReconcile pruned
       (sort_strings (candidate_ids prepared (b_replace b ++ b_terminalReplace b)))) ;;;
  for_each (check_group prepared) (b_new b) ;;;
  let* t := get in
  let active := sql_count (fun r => not_deleted r && state_in (counted_states reclaim) r) t in
  guard (maxActiveRuns st <? active + Z.of_nat (length (b_new b)) + Z.of_nat (length (b_restart b))
         + Z.of_nat (length (b_restartUpdate b)) + Z.of_nat (length (b_terminalReplace b)))%Z
    ErrCapacityExceeded ;;;
  let* b := apply_all (apply_new now) prepared b (b_new b) in
  let* b := apply_all (apply_update now) prepared b (b_update b) in
  let* b := apply_all (apply_cancel now) prepared b (b_cancel b) in
  let* b := apply_all (apply_restart now) prepared b (b_restart b) in
  let* b := apply_all (apply_restart_update now) prepared b (b_restartUpdate b) in
  let* b := apply_all (apply_replace now) prepared b (b_replace b ++ b_terminalReplace b) in
  for_each (apply_prune now) pruned ;;;
  ret (b_results b).

Definition createBatch (st : Store) (now : time) (inputs : list CreateInput)
  (reclaim prune replace acknowledged : bool) : DB (list CreateResult) :=
  guard ((bool_decide (inputs = []) && negb prune)
         || (maxActiveRuns st <? Z.of_nat (length inputs))%Z) ErrInvalidRequest ;;;
  let* prepared := lift (prepare [] [] [] inputs) in
  transaction (create_tx st now prepared reclaim prune replace acknowledged).

Definition CreateBatch (st : Store) (now : time) (inputs : list CreateInput) : DB (list CreateResult) :=
  createBatch st now inputs true false false false.

Definition ReconcileWorkstations (st : Store) (now : time) (inputs : list CreateInput)
  (prune replace acknowledged : bool) : DB (list CreateResult) :=
  createBatch st now inputs true prune replace acknowledged.

Definition Create (st : Store) (t0 now : time) (input : CreateInput) : DB CreateResult :=
  Sweep t0 ;;;
  let* results := createBatch st now [input] false false false false in
  ret (match results with r :: _ => r | [] => zero_CreateResult end).
End Batch.
