(* ===== verification/Fixture.v ===== *)
(** * Concrete runs

    A small concrete instance of [SnapshotCodec], with four documents and the
    valid runs they decode to: the inputs at which the store's theorems are
    exercised. *)
From stdpp Require Import base list strings.
From Stdlib Require Import ZArith Lia.
From S2P Require Import Prelude GoStrings GoUrl GoJson Sha256 Contract Validation Decode LocalRun Sql StoreRow StoreOps StoreBatch.


Local Open Scope Z_scope.
Local Open Scope string_scope.

(** JSON text with its quotes written as apostrophes. *)
Fixpoint dq (s : string) : string :=
  match s with
  | EmptyString => EmptyString
  | String c s' => String (if Ascii.eqb c (Ascii.ascii_of_nat 39) then dquote else c) (dq s')
  end.

Definition fixture_config : string := Eval vm_compute in dq "{'runtime':{'command':'codex'}}".

Definition fixture_run (id subject image workflow : string) (persistent : bool) (ttl : TTL) : ResolvedAgentRun :=
  mkResolvedAgentRun ContractVersion id (mkPrincipal "https://id.example" subject "") ""
    "default" workflow image (mkRuntime "codex" "interactive" "" "" "root" None None)
    fixture_config "" None None "" (mkBroker None) (mkEgress "direct" "" false "" false false 0 None)
    (mkWorkspaceInstructions "" "") (mkResources "" "" "" "")
    (mkPersistence persistent persistent persistent) "keep" ttl (mkLifecycle None None)
    (mkExecutionBackend "docker" "docker").

(** A workstation; the same with another workflow (a rollout); with another
    image (an immutable change); and a job with lifetimes. *)
Definition ws_a : ResolvedAgentRun := fixture_run "dev" "workstation-dev" "image:1" "implement" true zero_TTL.
Definition ws_b : ResolvedAgentRun := fixture_run "dev" "workstation-dev" "image:1" "review" true zero_TTL.
Definition ws_c : ResolvedAgentRun := fixture_run "dev" "workstation-dev" "image:2" "implement" true zero_TTL.
Definition job : ResolvedAgentRun := fixture_run "job" "alice" "image:1" "implement" false (mkTTL 60 30 30 0).

Definition doc_a : string := Eval vm_compute in dq "'doc-a'".
Definition doc_b : string := Eval vm_compute in dq "'doc-b'".
Definition doc_c : string := Eval vm_compute in dq "'doc-c'".
Definition doc_job : string := Eval vm_compute in dq "'doc-job'".

Definition fixture_docs : list (string * ResolvedAgentRun) :=
  [(doc_a, ws_a); (doc_b, ws_b); (doc_c, ws_c); (doc_job, job)].

#[export] Instance fixture_codec : SnapshotCodec := {
  Unmarshal raw := snd <$> List.find (fun d => fst d =? raw) fixture_docs;
  Marshal r := fst <$> List.find (fun d => bool_decide (snd d = r)) fixture_docs
}.

Definition fixture_store : Store := mkStore 4 (60 * Second).
Definition dev_key : string := workstation_key "dev".
Definition job_key : string := "local-work-0123456789".
Definition input_a : CreateInput := mkCreateInput dev_key "" doc_a.
Definition input_b : CreateInput := mkCreateInput dev_key "" doc_b.
Definition input_c : CreateInput := mkCreateInput dev_key "" doc_c.
Definition input_job : CreateInput := mkCreateInput job_key "" doc_job.
