(* ===== verification/ResolvedProps.v ===== *)
(** * What a resolved run guarantees

    Every field of it is the request's, the caller's or the administrator's
    ([configured]); repositories are covered by grants; a typed model is not
    overridden by arguments. *)
From stdpp Require Import base list strings gmap.
From Stdlib Require Import ZArith Lia Ascii.
From S2P Require Import Prelude GoStrings GoUrl GoJson GoJsonPrint Sha256 Contract Validation Decode Resolver ResolvedLemmas LocalRun Sql StoreRow StoreOps StoreBatch Fixture.


Local Open Scope Z_scope.
Local Open Scope go_scope.
Local Open Scope string_scope.

(** ** Names *)

(** The contract's pattern for names and the store's hand-written check
    of run identifiers accept exactly the same strings, so no run the
    contract accepts is unaddressable in the store. *)
Theorem run_id_checks_agree s : validName s = validRunID s.
Proof. apply validName_validRunID. Qed.

(** ** Validated runs *)

(** The parts of a validated run the properties below use. *)
Lemma validated_parts run : ValidateResolvedAgentRun run = Ok tt ->
  validateBrokerAndEgress (rr_Broker run) (rr_Egress run) = Ok tt /\
  validateMappingsAndRepositories (elems (rr_CredentialProviders run)) (elems (rr_Repositories run))
    (rr_Broker run) (rr_Egress run) = Ok tt.
Proof.
  unfold ValidateResolvedAgentRun. intros H. do 6 (apply andThen_ok in H as [_ H]).
  apply andThen_ok in H as [H1 H]. apply andThen_ok in H as [H2 _]. done.
Qed.

Lemma NoDup_map_inj {A} (name : A -> string) l x y :
  List.NoDup (map name l) -> In x l -> In y l -> name x = name y -> x = y.
Proof.
  induction l as [|z l IH]; cbn; [done|]. intros Hn. inversion Hn as [|? ? Hz Hl]; subst.
  intros [->|Hx] [->|Hy] E; [done| | |by apply IH].
  - exfalso. apply Hz. rewrite E. by apply in_map.
  - exfalso. apply Hz. rewrite <- E. by apply in_map.
Qed.

Lemma find_rev_some {A} (name : A -> string) l x : List.NoDup (map name l) -> In x l ->
  List.find (fun y => name y =? name x) (rev l) = Some x.
Proof.
  intros Hn Hin. destruct (List.find _ (rev l)) as [y|] eqn:E.
  - apply find_rev_in in E as [Hy E]. apply String.eqb_eq in E. f_equal. by eapply NoDup_map_inj.
  - apply (List.find_none _ _) with (x := x) in E; [by rewrite String.eqb_refl in E|]. by apply in_rev in Hin.
Qed.

Lemma grants_distinct b e : validateBrokerAndEgress b e = Ok tt -> List.NoDup (map g_Provider (elems (b_Grants b))).
Proof.
  unfold validateBrokerAndEgress. intros H. apply andThen_ok in H as [_ H]. apply andThen_ok in H as [H _].
  eapply each_seen_distinct; [|exact H]. intros seen x Hx. unfold validate_grant in Hx.
  apply andThen_ok in Hx as [_ Hx]. apply andThen_ok in Hx as [Hx _]. by apply reject_ok in Hx.
Qed.

Lemma mappings_distinct mappings repos b e : validateMappingsAndRepositories mappings repos b e = Ok tt ->
  List.NoDup (map cp_Name mappings).
Proof.
  unfold validateMappingsAndRepositories. intros H. apply andThen_ok in H as [H _].
  eapply each_seen_distinct; [|exact H]. intros seen x Hx. unfold validate_mapping in Hx.
  apply andThen_ok in Hx as [_ Hx]. apply andThen_ok in Hx as [Hx _]. by apply reject_ok in Hx.
Qed.

(** Credentials reach a checkout only along an approved chain.  In a
    validated run every repository with a credential provider has exactly one
    mapping of that name and exactly one broker grant for the mapping's
    provider; the mapping covers the checkout target, which is the target of
    the repository's URL, the grant covers the broker repository, and under
    mediated egress the chain is a header-injected git grant. *)
Theorem credentialed_repository_authorized run repo :
  ValidateResolvedAgentRun run = Ok tt -> In repo (elems (rr_Repositories run)) -> rp_CredentialProvider repo <> "" ->
  exists mapping grant,
    (forall m, In m (elems (rr_CredentialProviders run)) /\ cp_Name m = rp_CredentialProvider repo <-> m = mapping) /\
    (forall g, In g (elems (b_Grants (rr_Broker run))) /\ g_Provider g = cp_BrokerProvider mapping <-> g = grant) /\
    repositoryTargetFromURL (rp_URL repo) = rp_CheckoutTarget repo /\
    patternsContain (elems (cp_MatchTargets mapping)) (rp_CheckoutTarget repo) = true /\
    patternsContain (elems (g_Repositories grant)) (rp_BrokerRepository repo) = true /\
    (e_Mode (rr_Egress run) = "mediated" ->
     g_Materialization grant = "header-inject" /\ g_Git grant = true /\ cp_CredentialKind mapping = "mediated").
Proof.
  intros H Hin Hcp. apply validated_parts in H as [Hb Hm]. pose proof (grants_distinct _ _ Hb) as Hgd.
  pose proof (mappings_distinct _ _ _ _ Hm) as Hmd. unfold validateMappingsAndRepositories in Hm. cbv zeta in Hm.
  apply andThen_ok in Hm as [Hms Hrs]. eapply each_seen_elem in Hrs as (seen & Hr & _); [|exact Hin].
  unfold validate_repository in Hr. cbv zeta in Hr. apply andThen_ok in Hr as [Hbad Hr]. apply reject_ok in Hbad.
  rewrite !orb_false_iff in Hbad. destruct Hbad as [[[[[[[[[_ Hurl] _] _] _] _] _] _] _] _].
  apply negb_false_iff, String.eqb_eq in Hurl.
  do 2 (apply andThen_ok in Hr as [_ Hr]). rewrite (proj2 (String.eqb_neq _ _) Hcp) in Hr. unfold validate_authorized in Hr.
  destruct (find_mapping _ _) as [mapping|] eqn:Em; [|done]. apply find_rev_in in Em as [Hmin Emn].
  apply String.eqb_eq in Emn. apply andThen_ok in Hr as [H1 Hr]. apply reject_ok, negb_false_iff in H1. cbv zeta in Hr.
  eapply each_seen_elem in Hms as (seen' & Hmap & _); [|exact Hmin]. unfold validate_mapping in Hmap.
  do 2 (apply andThen_ok in Hmap as [_ Hmap]).
  destruct (find_grant _ _) as [grant|] eqn:Eg; [|done]. apply find_rev_in in Eg as [Hgin Egn]. apply String.eqb_eq in Egn.
  cbn [fmap option_fmap option_map default from_option id] in Hr. apply andThen_ok in Hr as [H2 Hr].
  apply reject_ok, negb_false_iff in H2. apply andThen_ok in Hr as [H3 _]. apply reject_ok in H3.
  exists mapping, grant. split; [|split; [|split; [done|split; [done|split; [exact H2|]]]]].
  - intros m. split; [intros [Hin' E]|intros ->; done]. eapply NoDup_map_inj; [exact Hmd|done|done|congruence].
  - intros g. split; [intros [Hin' E]|intros ->; done]. eapply NoDup_map_inj; [exact Hgd|done|done|congruence].
  - intros Emode. rewrite Emode in H3. cbn in H3. rewrite !orb_false_iff, !negb_false_iff, !String.eqb_eq in H3.
    destruct H3 as [[? ?] ?]. done.
Qed.

(** The two egress modes of a validated run.  Directly connected runs
    hold no mediated policy and only file-bundle grants.  Mediated runs are
    paired with an egress identity and hold no file-bundle grant; a tunnelled
    one is enforced, its proxy provider is granted, and no injection host is
    one its domain policy denies; a redirected one has an injecting grant. *)
Theorem validated_egress_modes run :
  ValidateResolvedAgentRun run = Ok tt ->
  let e := rr_Egress run in
  let grants := elems (b_Grants (rr_Broker run)) in
  (e_Mode e = "direct" /\ e_Enforced e = false /\ e_PairedEgressRequired e = false /\ e_DomainPolicy e = None /\
   forall g, In g grants -> g_Materialization g = "file-bundle") \/
  (e_Mode e = "mediated" /\ e_PairedEgressRequired e = true /\
   (forall g, In g grants -> g_Materialization g = "header-inject" /\ elems (g_EgressHosts g) <> [] \/
                             g_Materialization g = "placeholder-file") /\
   (e_Transport e = "redirect" /\ e_DomainPolicy e = None /\
      (exists g, In g grants /\ g_Materialization g = "header-inject") \/
    isTunnelTransport (e_Transport e) = true /\ e_Enforced e = true /\
      (exists g, In g grants /\ g_Provider g = e_ProxyProvider e) /\
      forall g host p, In g grants -> In host (elems (g_EgressHosts g)) -> e_DomainPolicy e = Some p ->
        domainPolicyAllows p (egressHostName host) = true)).
Proof.
  intros H e grants. apply validated_parts in H as [H _]. unfold validateBrokerAndEgress in H. cbv zeta in H.
  fold e grants in H. do 4 (apply andThen_ok in H as [_ H]).
  destruct (String.eqb_spec (e_Mode e) "direct") as [Ed|_].
  { left. unfold validate_direct in H. apply andThen_ok in H as [H1 H]. apply reject_ok in H1. rewrite !orb_false_iff in H1.
    destruct H1 as [[[[[_ H1] _] H2] _] H3]. rewrite each_ok in H. split_and!; [done|done|done| |].
    - destruct (e_DomainPolicy e); [|done]. exfalso. apply bool_decide_eq_false in H3. apply H3. by eexists.
    - intros g Hg. specialize (H g Hg). by apply reject_ok, negb_false_iff, String.eqb_eq in H. }
  destruct (String.eqb_spec (e_Mode e) "mediated") as [Em|_]; [|done]. right. unfold validate_mediated in H.
  apply andThen_ok in H as [H1 H]. apply reject_ok, negb_false_iff in H1. apply andThen_ok in H as [H2 H].
  apply andThen_ok in H as [H3 H]. apply reject_ok in H3. apply andThen_ok in H as [_ H]. apply andThen_ok in H as [H4 H].
  rewrite each_ok in H4. apply andThen_ok in H as [H5 H6]. apply reject_ok in H5.
  split; [done|]. split; [done|]. split.
  - intros g Hg. specialize (H4 g Hg). unfold validate_mediated_grant in H4. apply andThen_ok in H4 as [G1 G].
    apply andThen_ok in G as [G2 _]. apply reject_ok in G1, G2.
    destruct (String.eqb_spec (g_Materialization g) "header-inject") as [E|_].
    + left. split; [done|]. cbn in G2. apply Z.eqb_neq in G2. unfold size in G2. by destruct (elems (g_EgressHosts g)).
    + right. cbn in G1. by apply negb_false_iff, String.eqb_eq in G1.
  - unfold validate_transport in H2. destruct (String.eqb_spec (e_Transport e) "redirect") as [Et|Nt].
    + left. apply reject_ok in H2. rewrite !orb_false_iff in H2. destruct H2 as [_ H2]. cbn [andb] in H5.
      apply negb_false_iff, existsb_exists in H5 as (g & Hg & E). apply String.eqb_eq in E. split_and!; [done| |by exists g].
      destruct (e_DomainPolicy e); [|done]. exfalso. apply bool_decide_eq_false in H2. apply H2. by eexists.
    + destruct (isTunnelTransport (e_Transport e)) eqn:Eti; [|done]. right. apply reject_ok in H2.
      apply orb_false_iff in H2 as [H2 H2']. apply negb_false_iff in H2. rewrite H2' in H3. cbn [negb andb] in H3.
      apply negb_false_iff, mem_in, in_map_iff in H3 as (g & E & Hg). split_and!; [done|done|by exists g|].
      intros g' host p Hg' Hh Hp. specialize (H4 g' Hg'). unfold validate_mediated_grant in H4.
      do 2 (apply andThen_ok in H4 as [_ H4]). rewrite Eti, each_ok in H4. specialize (H4 host Hh). rewrite Hp in H4.
      by apply reject_ok, negb_false_iff in H4.
Qed.

(** ** Resolution *)

Lemma find_named_in {A} (name : A -> string) l wanted x :
  find_named name l wanted = Some x -> In x l /\ name x = wanted.
Proof. intros H. apply List.find_some in H as [H1 H2]. by apply String.eqb_eq in H2. Qed.

(** The run, field by field: the request's and the caller's part, and what the
    administrator configured.  In a run an empty list is a missing one, the
    agent's configuration is compacted, and user names are UTF-8. *)
Record configured (resolver : Resolver) (authorization : AuthorizationContext) (request : LocalRunRequest) (profile : Profile)
    (workflow : Workflow) (backend : ExecutionBackend) (retention : RetentionPolicy) (run : ResolvedAgentRun) : Prop := {
  cd_request : rr_RunID run = lr_RunID request /\ rr_Prompt run = lr_Prompt request /\ rr_SourceURL run = lr_SourceURL request;
  cd_principal : rr_Principal run = ac_Principal authorization;
  cd_names : rr_ContractVersion run = ContractVersion /\ rr_Profile run = pf_Name profile /\ rr_Workflow run = wf_Name workflow;
  cd_image : rr_Image run = if pf_Image profile =? "" then pd_Image (rv_defaults resolver) else pf_Image profile;
  cd_runtime : rr_Runtime run
    = canonical_Runtime match pf_Runtime profile with Some runtime => runtime | None => pd_Runtime (rv_defaults resolver) end;
  cd_agent : rr_AgentConfig run
    = Compact (if pf_AgentConfig profile =? "" then pd_AgentConfig (rv_defaults resolver) else pf_AgentConfig profile);
  cd_resources : rr_Resources run = match pf_Resources profile with Some r => r | None => pd_Resources (rv_defaults resolver) end;
  cd_lifecycle : let lifecycle := match wf_Lifecycle workflow, pf_Lifecycle profile with
                                  | Some l, _ => l | None, Some l => l | None, None => pd_Lifecycle (rv_defaults resolver) end in
    elems (lc_CompleteOn (rr_Lifecycle run)) = elems (lc_CompleteOn lifecycle)
    /\ elems (lc_FailOn (rr_Lifecycle run)) = elems (lc_FailOn lifecycle);
  cd_repositories : elems (rr_Repositories run) = map clone_Repository (elems (wf_Repositories workflow));
  cd_providers : elems (rr_CredentialProviders run) = map canonical_Mapping (elems (pf_CredentialProviders profile))
    /\ rr_DefaultCredentialProvider run = pf_DefaultCredentialProvider profile;
  cd_grants : elems (b_Grants (rr_Broker run)) = map canonical_Grant (elems (b_Grants (pf_Broker profile)));
  cd_egress : rr_Egress run = canonical_Egress (pf_Egress profile);
  cd_instructions : rr_WorkspaceInstructions run
    = mkWorkspaceInstructions (pf_WorkspaceInstructions profile) (wf_WorkspaceInstructions workflow);
  cd_retention : rr_Retention run = rpol_Name retention /\ rr_Persistence run = rpol_Persistence retention
    /\ rr_TTL run = rpol_TTL retention;
  cd_backend : rr_Execution run = backend
}.

(** The entries a request selects, and that the caller and the profile allow
    them. *)
Record selected (resolver : Resolver) (authorization : AuthorizationContext) (request : LocalRunRequest) (profile : Profile)
    (workflow : Workflow) (backend : ExecutionBackend) (retention : RetentionPolicy) : Prop := {
  sd_authorized : exists selection, In selection (elems (ac_Selections authorization))
    /\ as_Profile selection = pf_Name profile /\ In (wf_Name workflow) (elems (as_Workflows selection));
  sd_profile : In profile (rv_profiles resolver) /\ pf_Name profile = lr_Profile request;
  sd_workflow : In workflow (rv_workflows resolver) /\ wf_Name workflow = lr_Workflow request;
  sd_backend : In backend (rv_backends resolver) /\ In (xb_Name backend) (elems (pf_AllowedBackends profile))
    /\ xb_Name backend = if lr_Backend request =? "" then pf_DefaultBackend profile else lr_Backend request;
  sd_retention : In retention (rv_retentions resolver) /\ In (rpol_Name retention) (elems (pf_AllowedRetentions profile))
    /\ rpol_Name retention = lr_Retention request
}.

Lemma canonical_Runtime_idem r : canonical_Runtime (canonical_Runtime r) = canonical_Runtime r.
Proof. unfold canonical_Runtime. cbn. f_equal; [destruct (rt_Container r)|destruct (rt_Docker r)]; cbn; by rewrite ?omit_idem. Qed.

Lemma canonical_Egress_idem e : canonical_Egress (canonical_Egress e) = canonical_Egress e.
Proof. unfold canonical_Egress. cbn. f_equal. destruct (e_DomainPolicy e); cbn; by rewrite ?omit_idem. Qed.

Lemma resolved_configured resolver authorization request profile workflow backend retention :
  rpol_Name retention = lr_Retention request ->
  configured resolver authorization request profile workflow backend retention
    (canonical (resolved_run resolver authorization request profile workflow backend retention)).
Proof.
  intros Er. assert (Hl : forall s, (len s =? 0)%Z = (s =? "")%string) by (intros s; by destruct s).
  assert (Hi : forall s, Compact (Compact s) = Compact s) by apply compact_idem.
  split; cbn [canonical resolved_run effective rr_ContractVersion rr_RunID rr_Principal rr_SourceURL rr_Profile rr_Workflow rr_Image rr_Runtime
    rr_AgentConfig rr_Prompt rr_Repositories rr_CredentialProviders rr_DefaultCredentialProvider rr_Broker rr_Egress rr_WorkspaceInstructions
    rr_Resources rr_Persistence rr_Retention rr_TTL rr_Lifecycle rr_Execution]; try done.
  - rewrite canonical_Runtime_idem. by destruct (pf_Runtime profile).
  - by rewrite !Hi, Hl.
  - cbn zeta. cbn [lc_CompleteOn lc_FailOn]. rewrite !elems_omit.
    by destruct (wf_Lifecycle workflow), (pf_Lifecycle profile); cbn [default clone_Lifecycle lc_CompleteOn lc_FailOn]; rewrite ?elems_omit.
  - by rewrite elems_omit, elems_canonical.
  - split; [|done]. rewrite !elems_canonical, map_map. apply map_ext, canonical_Mapping_idem.
  - cbn [b_Grants clone_Broker]. rewrite !elems_canonical, map_map. apply map_ext, canonical_Grant_idem.
  - apply canonical_Egress_idem.
Qed.

(** What a successful resolution is. *)
Lemma Resolve_is resolver authorization request run :
  Resolve resolver authorization request = Ok run ->
  ValidateResolvedAgentRun run = Ok tt /\
  exists profile workflow backend retention,
    selected resolver authorization request profile workflow backend retention
    /\ find_named pf_Name (rv_profiles resolver) (lr_Profile request) = Some profile
    /\ find_named wf_Name (rv_workflows resolver) (lr_Workflow request) = Some workflow
    /\ find_named xb_Name (rv_backends resolver) (if lr_Backend request =? "" then pf_DefaultBackend profile else lr_Backend request) = Some backend
    /\ find_named rpol_Name (rv_retentions resolver) (lr_Retention request) = Some retention
    /\ run = canonical (resolved_run resolver authorization request profile workflow backend retention).
Proof.
  unfold Resolve. intros H. destruct (_ || _) in H; [done|].
  destruct (selectionAuthorized _ _ _) eqn:Es; [|done]. cbn [negb] in H.
  destruct (find_named pf_Name _ _) as [profile|] eqn:Ep; [|done]. apply find_named_in in Ep as Ep'. destruct Ep' as [Hp Epn].
  destruct (find_named wf_Name _ _) as [workflow|] eqn:Ew; [|done]. apply find_named_in in Ew as Ew'. destruct Ew' as [Hw Ewn].
  destruct (_ || _) eqn:Ea in H; [done|]. apply orb_false_iff in Ea as [Ea1 Ea2].
  apply negb_false_iff, containsString_in in Ea1, Ea2.
  destruct (find_named xb_Name _ _) as [backend|] eqn:Eb; [|done]. apply find_named_in in Eb as Eb'. destruct Eb' as [Hb Ebn].
  destruct (find_named rpol_Name _ _) as [retention|] eqn:Er; [|done]. apply find_named_in in Er as Er'. destruct Er' as [Hr Ern].
  destruct (negb (is_nil (validateMappingsAndRepositories _ _ _ _))); [done|]. cbv zeta in H.
  set (resolved := resolved_run _ _ _ _ _ _ _) in H. destruct (is_nil (ValidateResolvedAgentRun resolved)) eqn:Ev; [|done].
  apply is_nil_true in Ev. injection H as <-. split; [rewrite ValidateResolvedAgentRun_canonical; [exact Ev|apply compact_idem]|].
  exists profile, workflow, backend, retention. split_and!; try done. split; try by rewrite ?Ebn, ?Ern.
  unfold selectionAuthorized in Es. apply existsb_exists in Es as (selection & Hin & E). apply andb_true_iff in E as [E1 E2].
  apply String.eqb_eq in E1. apply containsString_in in E2. exists selection. by rewrite Epn, Ewn.
Qed.

Lemma Resolve_ok resolver authorization request run :
  Resolve resolver authorization request = Ok run ->
  ValidateResolvedAgentRun run = Ok tt /\ exists profile workflow backend retention,
    selected resolver authorization request profile workflow backend retention
    /\ configured resolver authorization request profile workflow backend retention run.
Proof.
  intros H. apply Resolve_is in H as (Hv & profile & workflow & backend & retention & Hs & _ & _ & _ & _ & ->). split; [done|].
  exists profile, workflow, backend, retention. split; [done|]. apply resolved_configured. by destruct Hs as [_ _ _ _ (_ & _ & ?)].
Qed.

(** The selection and the retention of a resolved run are the requested ones. *)
Lemma Resolve_request resolver authorization request run :
  Resolve resolver authorization request = Ok run ->
  rr_Profile run = lr_Profile request /\ rr_Workflow run = lr_Workflow request /\ rr_Retention run = lr_Retention request.
Proof.
  intros H. apply Resolve_ok in H as (_ & profile & workflow & backend & retention & [_ [_ Hp] [_ Hw] _ (_ & _ & Hr)] & [_ _ (_ & Hp' & Hw') _ _ _ _ _ _ _ _ _ _ (Hr' & _) _]).
  by rewrite Hp', Hw', Hr', Hp, Hw, Hr.
Qed.

(** The run for another request of the same selection, and another caller. *)
Definition readdressed (run : ResolvedAgentRun) (request : LocalRunRequest) (principal : Principal) : ResolvedAgentRun :=
  mkResolvedAgentRun (rr_ContractVersion run) (lr_RunID request) principal (lr_SourceURL request) (rr_Profile run) (rr_Workflow run)
    (rr_Image run) (rr_Runtime run) (rr_AgentConfig run) (lr_Prompt request) (rr_Repositories run) (rr_CredentialProviders run)
    (rr_DefaultCredentialProvider run) (rr_Broker run) (rr_Egress run) (rr_WorkspaceInstructions run) (rr_Resources run)
    (rr_Persistence run) (rr_Retention run) (rr_TTL run) (rr_Lifecycle run) (rr_Execution run).

Definition same_selection (request request' : LocalRunRequest) : Prop :=
  lr_Profile request' = lr_Profile request /\ lr_Workflow request' = lr_Workflow request
  /\ lr_Backend request' = lr_Backend request /\ lr_Retention request' = lr_Retention request.

(** C29: A request resolves only to what the caller is authorized for and the
    administrator configured.  The resolved run validates.  Profile, workflow,
    backend and retention are entries of the configuration of the requested
    names, the profile and the workflow a selection the authorization grants,
    the backend and the retention allowed by the profile.  Every field of the
    run is determined: identifier, prompt and source URL are the request's,
    the principal is the authenticated one, all others are those of the
    selected entries and the platform's defaults.  So two requests of the same
    selection resolve to runs that differ in nothing but identifier, prompt,
    source URL and principal. *)
Theorem resolve_sound resolver authorization request run :
  Resolve resolver authorization request = Ok run ->
  ValidateResolvedAgentRun run = Ok tt
  /\ (exists profile workflow backend retention,
        selected resolver authorization request profile workflow backend retention
        /\ configured resolver authorization request profile workflow backend retention run)
  /\ forall authorization' request' run', same_selection request request' -> Resolve resolver authorization' request' = Ok run' ->
       run' = readdressed run request' (ac_Principal authorization').
Proof.
  intros H. split; [by apply Resolve_ok in H as [? _]|]. split; [by apply Resolve_ok in H as [_ ?]|]. intros authorization' request' run' (E1 & E2 & E3 & E4) H'.
  apply Resolve_is in H as (_ & p & w & b & r & _ & Hp & Hw & Hb & Hr & ->).
  apply Resolve_is in H' as (_ & p' & w' & b' & r' & _ & Hp' & Hw' & Hb' & Hr' & ->).
  rewrite E1, Hp in Hp'. injection Hp' as <-. rewrite E2, Hw in Hw'. injection Hw' as <-. rewrite E3, Hb in Hb'. injection Hb' as <-.
  rewrite E4, Hr in Hr'. injection Hr' as <-. done.
Qed.

(** Repository patterns match at path boundaries.  A pattern [x/*] covers
    exactly the repositories whose path segments properly extend those of
    [x]; any other pattern covers exactly itself. *)
Theorem pattern_covers_boundary repository pattern :
  pattern_covers repository pattern = true <->
  repository = pattern \/
  exists x post, pattern = x ++ "/*" /\ post <> [] /\ Split repository "/"%char = (Split x "/"%char ++ post)%list.
Proof.
  unfold pattern_covers. rewrite orb_true_iff, andb_true_iff, String.eqb_eq, HasSuffix_iff, HasPrefix_iff. split.
  - intros [->|[[x ->] [r Hr]]]; [by left|right]. exists x.
    assert (E : x +:+ "/*" = (x +:+ "/") +:+ "*") by (by rewrite str_app_assoc).
    rewrite E, TrimSuffix_app, str_app_assoc in Hr. rewrite Hr.
    destruct (proj1 (prefix_parts "/"%char (x +:+ String "/" r) x)) as (post & Hp & Es); [by exists r|].
    by exists post.
  - intros [->|(x & post & -> & Hp & Es)]; [by left|right]. split; [by exists x|].
    destruct (proj2 (prefix_parts "/"%char repository x)) as [r Hr]; [by exists post|]. exists r.
    assert (E : x +:+ "/*" = (x +:+ "/") +:+ "*") by (by rewrite str_app_assoc).
    by rewrite E, TrimSuffix_app, str_app_assoc.
Qed.

(** ** Typed selectors *)

Lemma nth_app_left {A} (l r : list A) d i : (i < length l)%nat -> nth i (l ++ r)%list d = nth i l d.
Proof. intros H. by apply app_nth1. Qed.

(** An argument of the list is read alike when arguments are appended, unless
    it is a trailing option that takes its value from the next argument. *)
Lemma codexConfigKey_app args extra i :
  (i < length args)%nat -> ~ (last args = Some "--config" \/ last args = Some "-c") ->
  codexConfigKey (args ++ extra)%list i = codexConfigKey args i.
Proof.
  intros Hi Hl. unfold codexConfigKey. rewrite nth_app_left by done. destruct (_ || _) eqn:E; [|done].
  destruct (decide (S i < length args)%nat) as [H|H]; [by rewrite nth_error_app1|exfalso]. apply Hl.
  assert (Hlast : last args = Some (nth i args "")).
  { rewrite last_lookup. replace (pred (length args)) with i by lia.
    destruct (lookup_lt_is_Some_2 args i Hi) as [x Hx]. rewrite Hx. by rewrite (nth_lookup_Some args i "" x Hx). }
  rewrite Hlast. apply orb_true_iff in E as [E|E]; apply String.eqb_eq in E; rewrite E; auto.
Qed.

(** A typed model or effort is not overridden by the arguments it is added
    to: when [ApplyRuntimeSelectionArguments] succeeds on arguments that do
    not end with an option expecting a value, the result is the arguments
    followed by the selectors, none of the arguments selects a model (when one
    is selected by type) or an effort (likewise), and none ends the options. *)
Theorem selection_not_overridden args sel out :
  ApplyRuntimeSelectionArguments args sel = Ok out -> rt_Model sel <> "" \/ rt_Effort sel <> "" ->
  ~ (last args = Some "--config" \/ last args = Some "-c") ->
  out = (args ++ selectors sel)%list /\
  forall i, (i < length args)%nat ->
    nth i out "" <> "--" /\
    (rt_Model sel <> "" -> argumentSelectsModel out i (rt_Type sel) = false) /\
    (rt_Effort sel <> "" -> argumentSelectsEffort out i (rt_Type sel) = false).
Proof.
  unfold ApplyRuntimeSelectionArguments. intros H Hs Hl.
  destruct (_ && _) eqn:E in H.
  { apply andb_true_iff in E as [E1 E2]. apply String.eqb_eq in E1, E2. destruct Hs; contradiction. }
  destruct (_ && _) in H; [done|]. apply andThen_ok in H as [Hc H]. injection H as <-. split; [done|].
  intros i Hi. rewrite each_ok in Hc. specialize (Hc i). unfold check_argument in Hc. rewrite nth_app_left by done.
  assert (Hin : In i (seq 0 (length args))) by (apply in_seq; lia). specialize (Hc Hin).
  apply andThen_ok in Hc as [H1 Hc]. apply andThen_ok in Hc as [H2 H3]. apply reject_ok in H1, H2, H3.
  apply String.eqb_neq in H1. split; [done|].
  assert (Hm : argumentSelectsModel (args ++ selectors sel)%list i (rt_Type sel) = argumentSelectsModel args i (rt_Type sel)).
  { unfold argumentSelectsModel. by rewrite nth_app_left, codexConfigKey_app. }
  assert (He : argumentSelectsEffort (args ++ selectors sel)%list i (rt_Type sel) = argumentSelectsEffort args i (rt_Type sel)).
  { unfold argumentSelectsEffort. by rewrite nth_app_left, codexConfigKey_app. }
  rewrite Hm, He. split; intros N; apply String.eqb_neq in N; [rewrite N in H2|rewrite N in H3]; done.
Qed.

(** The restriction to complete arguments is needed: arguments that end
    with [--config] are accepted, and the [--model] added behind them stands
    where the code's own reading of [--config] finds its value, so the typed
    model is swallowed by that option. *)
Theorem trailing_option_swallows_selector model :
  let sel := mkRuntime "codex" "interactive" model "" "root" None None in
  model <> "" ->
  ApplyRuntimeSelectionArguments ["--config"] sel = Ok ["--config"; "--model"; model] /\
  forall value rest, codexConfigKey ("--config" :: value :: rest) 0 = assignment_key value.
Proof.
  intros sel N. split; [|done]. unfold ApplyRuntimeSelectionArguments, selectors, check_argument.
  cbn [rt_Model rt_Effort rt_Type sel]. rewrite (proj2 (String.eqb_neq _ _) N). reflexivity.
Qed.

(** ** Instances *)

Definition fixture_mapping : CredentialProviderMapping :=
  mkCredentialProviderMapping "github" "gh" "mediated" (Some ["github.com/acme/*"]).
Definition fixture_grant : BrokerGrant :=
  mkBrokerGrant "gh" (Some ["acme/*"]) None None None "header-inject" (Some ["api.github.com"]) true None None None false.
Definition fixture_repository : Repository :=
  mkRepository "github.com/acme/app" "acme/app" "https://github.com/acme/app.git" "" "" "github" "" None.
Definition fixture_egress : Egress :=
  mkEgress "mediated" "forward-proxy" true "gh" true false 0 (Some (mkDomainPolicy "deny" (Some ["github.com"]) None)).
Definition fixture_runtime : Runtime := mkRuntime "codex" "interactive" "" "" "root" None None.

Definition fixture_profile : Profile :=
  mkProfile "default" "" None "" None None (Some [fixture_mapping]) "github" (mkBroker (Some [fixture_grant])) fixture_egress
    "" (Some ["docker"]) "docker" (Some ["keep"]).
Definition fixture_workflow : Workflow := mkWorkflow "implement" (Some [fixture_repository]) "" None.
Definition fixture_trusted : TrustedConfiguration :=
  mkTrustedConfiguration
    (mkPlatformDefaults "image:1" fixture_runtime fixture_config (mkResources "" "" "" "") (mkLifecycle None None))
    (Some [fixture_profile]) (Some [fixture_workflow]) (Some [mkExecutionBackend "docker" "docker"])
    (Some [mkRetentionPolicy "keep" (mkPersistence false false false) (mkTTL 60 30 30 0)]).

Definition fixture_resolver_value : result resolver_error Resolver := Eval vm_compute in NewResolver fixture_trusted.
Definition fixture_authorization : AuthorizationContext :=
  mkAuthorizationContext (mkPrincipal "https://id.example" "alice" "Alice")
    (Some [mkAuthorizedSelection "default" (Some ["implement"])]).
Definition fixture_request : LocalRunRequest := mkLocalRunRequest "job" "default" "implement" "keep" "" "do it" "".

Definition zero_resolver : Resolver := mkResolver (tc_Defaults fixture_trusted) [] [] [] [].
Definition the_resolver : Resolver := match fixture_resolver_value with Ok r => r | Err _ => zero_resolver end.
Definition the_run : ResolvedAgentRun := Eval vm_compute in
  match Resolve the_resolver fixture_authorization fixture_request with Ok run => run | Err _ => job end.

Lemma the_run_resolved : Resolve the_resolver fixture_authorization fixture_request = Ok the_run.
Proof. vm_compute. reflexivity. Qed.

Lemma the_run_valid : ValidateResolvedAgentRun the_run = Ok tt.
Proof. vm_compute. reflexivity. Qed.

Definition other_request : LocalRunRequest := mkLocalRunRequest "job-2" "default" "implement" "keep" "" "do that" "https://github.com/acme/app/issues/2".

(** The fixture resolves, and a second request of the same selection resolves
    to the same run but for its identifier, prompt and source. *)
Lemma resolve_sound_witness :
  NewResolver fixture_trusted = Ok the_resolver /\
  rr_Prompt (readdressed the_run other_request (ac_Principal fixture_authorization)) = "do that" /\
  Resolve the_resolver fixture_authorization other_request = Ok (readdressed the_run other_request (ac_Principal fixture_authorization)).
Proof.
  split; [vm_compute; reflexivity|]. split; [reflexivity|].
  destruct (resolve_sound the_resolver fixture_authorization fixture_request the_run the_run_resolved) as (_ & _ & Hsame).
  destruct (Resolve the_resolver fixture_authorization other_request) as [run'|e] eqn:E; [|vm_compute in E; discriminate E].
  f_equal. apply (Hsame fixture_authorization other_request run'); [repeat split|exact E].
Defined.

Lemma credentialed_repository_authorized_witness :
  exists mapping grant,
    (forall m, In m (elems (rr_CredentialProviders the_run)) /\ cp_Name m = rp_CredentialProvider fixture_repository <-> m = mapping) /\
    (forall g, In g (elems (b_Grants (rr_Broker the_run))) /\ g_Provider g = cp_BrokerProvider mapping <-> g = grant) /\
    repositoryTargetFromURL (rp_URL fixture_repository) = rp_CheckoutTarget fixture_repository /\
    patternsContain (elems (cp_MatchTargets mapping)) (rp_CheckoutTarget fixture_repository) = true /\
    patternsContain (elems (g_Repositories grant)) (rp_BrokerRepository fixture_repository) = true /\
    (e_Mode (rr_Egress the_run) = "mediated" ->
     g_Materialization grant = "header-inject" /\ g_Git grant = true /\ cp_CredentialKind mapping = "mediated").
Proof.
  apply (credentialed_repository_authorized the_run fixture_repository);
    [apply the_run_valid|left; reflexivity|discriminate].
Defined.

Lemma validated_egress_modes_witness :
  e_Mode (rr_Egress the_run) = "mediated" /\ e_PairedEgressRequired (rr_Egress the_run) = true.
Proof.
  destruct (validated_egress_modes the_run the_run_valid) as [[H _]|(H & Hp & _)]; [discriminate H|].
  split; [exact H|exact Hp].
Defined.

Lemma selection_not_overridden_witness :
  ApplyRuntimeSelectionArguments ["--quiet"] (mkRuntime "codex" "interactive" "gpt" "high" "root" None None)
  = Ok ["--quiet"; "--model"; "gpt"; "--config"; "model_reasoning_effort=high"] /\
  argumentSelectsModel ["--quiet"; "--model"; "gpt"; "--config"; "model_reasoning_effort=high"] 0 "codex" = false.
Proof.
  assert (H : ApplyRuntimeSelectionArguments ["--quiet"] (mkRuntime "codex" "interactive" "gpt" "high" "root" None None)
    = Ok ["--quiet"; "--model"; "gpt"; "--config"; "model_reasoning_effort=high"]) by (vm_compute; reflexivity).
  split; [exact H|].
  destruct (selection_not_overridden ["--quiet"] (mkRuntime "codex" "interactive" "gpt" "high" "root" None None) _ H) as [_ Hi].
  - left. discriminate.
  - intros [E|E]; discriminate E.
  - destruct (Hi 0%nat) as (_ & Hm & _); [cbn; lia|]. apply Hm. discriminate.
Defined.

Lemma trailing_option_swallows_selector_witness :
  ApplyRuntimeSelectionArguments ["--config"] (mkRuntime "codex" "interactive" "gpt" "" "root" None None)
  = Ok ["--config"; "--model"; "gpt"].
Proof.
  assert (N : "gpt" <> "") by discriminate.
  exact (proj1 (trailing_option_swallows_selector "gpt" N)).
Defined.
