(* ===== verification/StoreValid.v ===== *)
(** * The row invariant

    [validateStoredRun] read as a proposition about the columns of a row, and
    one lemma per statement of the store saying when the statement keeps it. *)
From stdpp Require Import base list strings.
From Stdlib Require Import ZArith Lia.
From S2P Require Import Prelude GoStrings GoUrl GoJson Sha256 Contract Validation Decode LocalRun Sql StoreRow StoreOps StoreBatch.


Local Open Scope Z_scope.
Local Open Scope string_scope.

(** The instants a row's timestamp columns denote. *)
Record stamps := mkStamps {
  st_created : time;
  st_updated : time;
  st_deadline : option time;
  st_expires : option time;
  st_until : option time;
  st_deleted : option time
}.

Definition row_stamps (r : row) (k : stamps) : Prop :=
  created_at r = RFC3339 (st_created k) /\ updated_at r = RFC3339 (st_updated k) /\
  deadline_at r = RFC3339 <$> st_deadline k /\ terminal_expires_at r = RFC3339 <$> st_expires k /\
  reconcile_until r = RFC3339 <$> st_until k /\ deleted_at r = RFC3339 <$> st_deleted k.

(** The view a row shows before its metadata is populated. *)
Definition bare_view (r : row) (k : stamps) : Run :=
  mkRun APIVersion (run_id r) (state r) (revision r) (snapshot_digest r)
    "" "" "" "" "" "" false (st_created k) (st_updated k) (st_deadline k) (st_expires k)
    (delete_requested r =? 1)%Z (terminal_target r) (last_reason r)
    (default "" (reconcile_owner r)) (st_until k).

Definition record_of (r : row) (k : stamps) (v : Run) : storedRun :=
  mkStoredRun v (snapshot r) (request_digest r) (idempotency_key r) (active_group r) (st_deleted k)
    (lifecycle_cursor r) (ownership_digest r) (default "" (pending_snapshot r))
    (pending_snapshot_digest r).

Lemma parseOptionalTimestamp_some x t :
  parseOptionalTimestamp x = Some t <-> x = RFC3339 <$> t.
Proof. destruct x as [[u|]|], t as [t|]; simpl; split; intros E; inversion E; congruence. Qed.

Lemma scanStoredRun_some r s :
  scanStoredRun r = Some s <->
  (delete_requested r = 0 \/ delete_requested r = 1) /\
  exists k, row_stamps r k /\ s = record_of r k (bare_view r k).
Proof.
  unfold scanStoredRun. split.
  - destruct (negb _) eqn:E; [done|]. apply negb_false_iff, orb_true_iff in E.
    rewrite !Z.eqb_eq in E. intros Hs.
    apply bind_Some in Hs as (c & Hc & Hs). apply bind_Some in Hs as (u & Hu & Hs).
    apply bind_Some in Hs as (d & Hd & Hs). apply bind_Some in Hs as (e & He & Hs).
    apply bind_Some in Hs as (l & Hl & Hs). apply bind_Some in Hs as (x & Hx & Hs).
    rewrite parseOptionalTimestamp_some in Hd, He, Hl, Hx.
    destruct (created_at r) as [c'|] eqn:Ec; simpl in Hc; [|done].
    destruct (updated_at r) as [u'|] eqn:Eu; simpl in Hu; [|done].
    injection Hc as ->. injection Hu as ->. injection Hs as <-.
    split; [done|]. exists (mkStamps c u d e l x). split; [|done]. repeat split; done.
  - intros [Hd (k & (E1 & E2 & E3 & E4 & E5 & E6) & ->)].
    assert (Hb : negb ((delete_requested r =? 0)%Z || (delete_requested r =? 1)%Z) = false).
    { apply negb_false_iff, orb_true_iff. rewrite !Z.eqb_eq. done. }
    rewrite Hb, E1, E2. simpl.
    rewrite (proj2 (parseOptionalTimestamp_some _ _) E3). simpl.
    rewrite (proj2 (parseOptionalTimestamp_some _ _) E4). simpl.
    rewrite (proj2 (parseOptionalTimestamp_some _ _) E5). simpl.
    rewrite (proj2 (parseOptionalTimestamp_some _ _) E6). simpl. done.
Qed.

Section Valid.
Context {C : SnapshotCodec}.

(** A staged snapshot [y] of a row with active snapshot [x]. *)
Definition staged_ok (r : row) (x : ResolvedAgentRun) : Prop :=
  exists y, DecodeResolvedAgentRun (default "" (pending_snapshot r)) = Some y /\
    pending_snapshot_digest r = sha256_hex (default "" (pending_snapshot r)) /\
    rr_RunID y = rr_RunID x /\
    ((state r = StateStopping /\ delete_requested r = 1 /\ last_reason r = "immutable-replacement-requested") \/
     (workstationUpdateCompatible x y = true /\ state r = StatePreparing)).

Record row_valid (r : row) (x : ResolvedAgentRun) (k : stamps) : Prop := {
  rv_id : validRunID (run_id r) = true;
  rv_state : State_valid (state r) = true;
  rv_revision : 1 <= revision r;
  rv_key : validIdempotencyKey (idempotency_key r) = true;
  rv_group : active_group r = "" \/ validIdempotencyKey (active_group r) = true;
  rv_reason : validReason (last_reason r) = true;
  rv_cursor : validLifecycleCursor (lifecycle_cursor r) = true;
  rv_decode : DecodeResolvedAgentRun (snapshot r) = Some x;
  rv_run : rr_RunID x = run_id r;
  rv_digest : snapshot_digest r = sha256_hex (snapshot r);
  rv_request : request_digest r = snapshot_digest r;
  rv_ownership : hex_decoded_len (ownership_digest r) = Some 32;
  rv_stamps : row_stamps r k;
  rv_updated : st_created k <= st_updated k;
  rv_deadline : forall d, st_deadline k = Some d -> st_created k <= d;
  rv_deleted : forall d, st_deleted k = Some d -> st_created k <= d;
  rv_delreq : delete_requested r = 0 \/ delete_requested r = 1;
  rv_tombstone : is_Some (st_deleted k) -> State_terminal (state r) = true /\ delete_requested r = 1;
  rv_expires : is_Some (st_expires k) -> State_terminal (state r) = true;
  rv_gone : State_terminal (state r) = true -> delete_requested r = 1 -> is_Some (st_deleted k);
  rv_deleting : delete_requested r = 1 -> State_terminal (state r) = false -> state r = StateStopping;
  rv_lease : default "" (reconcile_owner r) = "" <-> st_until k = None;
  rv_unleased : State_terminal (state r) = true -> default "" (reconcile_owner r) = "";
  rv_target : if state r =? StateStopping then State_terminal (terminal_target r) = true
              else terminal_target r = "";
  rv_pending : if default "" (pending_snapshot r) =? "" then pending_snapshot_digest r = ""
               else staged_ok r x
}.

(** The record every reader gets for a row: scanned, then validated. *)
Definition row_record (r : row) : option storedRun := s ← scanStoredRun r; validateStoredRun s.

Lemma hex_decoded_32 s : hex_decoded_len s = Some 32 -> len s = 64.
Proof.
  unfold hex_decoded_len. destruct (_ && _) eqn:E; [|done]. intros [= Hd]. bool_prop.
  pose proof (Z.div_mod (len s) 2). lia.
Qed.

(** The three blocks of checks, as propositions. *)
Lemma shape_bad_false r k v :
  v_RunID v = run_id r -> v_State v = state r -> v_Revision v = revision r ->
  v_SnapshotDigest v = snapshot_digest r -> v_LastReason v = last_reason r ->
  v_CreatedAt v = st_created k -> v_UpdatedAt v = st_updated k -> v_DeadlineAt v = st_deadline k ->
  shape_bad (record_of r k v) = false <->
  validRunID (run_id r) = true /\ State_valid (state r) = true /\ 1 <= revision r /\
  validIdempotencyKey (idempotency_key r) = true /\
  (active_group r = "" \/ validIdempotencyKey (active_group r) = true) /\
  validReason (last_reason r) = true /\ validLifecycleCursor (lifecycle_cursor r) = true /\
  0 < len (snapshot r) <= MaxDocumentBytes /\
  len (request_digest r) = 64 /\ len (snapshot_digest r) = 64 /\ len (ownership_digest r) = 64 /\
  st_created k <= st_updated k /\
  (forall d, st_deadline k = Some d -> st_created k <= d) /\
  (forall d, st_deleted k = Some d -> st_created k <= d).
Proof.
  intros E1 E2 E3 E4 E5 E6 E7 E8. unfold shape_bad, record_of, After, Before, opt_and. cbn.
  rewrite E1, E2, E3, E4, E5, E6, E7, E8. pose proof (len_nonneg (snapshot r)).
  rewrite !orb_false_iff, !negb_false_iff, andb_false_iff, !negb_false_iff, String.eqb_eq,
    !Z.ltb_ge, !Z.eqb_eq, Z.eqb_neq.
  split.
  - intros H1. repeat match goal with Hx : _ /\ _ |- _ => destruct Hx end.
    repeat split; try done; try lia.
    + intros d Hd. rewrite Hd in *. bool_prop. lia.
    + intros d Hd. rewrite Hd in *. bool_prop. lia.
  - intros H1. repeat match goal with Hx : _ /\ _ |- _ => destruct Hx end.
    repeat split; try done; try lia.
    + destruct (st_deadline k); [|done]. apply Z.ltb_ge. auto.
    + destruct (st_deleted k); [|done]. apply Z.ltb_ge. auto.
Qed.

Lemma pending_bad_false r k v x :
  v_State v = state r -> v_DeleteRequested v = (delete_requested r =? 1)%Z ->
  v_LastReason v = last_reason r ->
  pending_bad (record_of r k v) x = false <->
  (if default "" (pending_snapshot r) =? "" then pending_snapshot_digest r = "" else staged_ok r x).
Proof.
  intros E1 E2 E3. unfold pending_bad, staged_ok, record_of. cbn. rewrite E1, E2, E3.
  destruct (default "" (pending_snapshot r) =? "") eqn:E; cbn [negb].
  { rewrite negb_false_iff, String.eqb_eq. done. }
  destruct (DecodeResolvedAgentRun (default "" (pending_snapshot r))) as [y|] eqn:Ey.
  - pose proof (decode_size _ _ Ey) as Hsize.
    rewrite !orb_false_iff, !negb_false_iff, !String.eqb_eq, Z.ltb_ge, andb_false_iff,
      orb_false_iff, !negb_false_iff, !andb_true_iff, !String.eqb_eq, Z.eqb_eq.
    split.
    + intros (((_ & H1) & H2) & H3). exists y. repeat split; try done. tauto.
    + intros (y' & [= <-] & H1 & H2 & H3). repeat split; try done; try lia. tauto.
  - split; [done|]. intros (y & Hy & _). done.
Qed.

Lemma lifecycle_bools (T D del ex S : bool) :
  (del && (negb T || negb D)) || (negb T && ex) || (T && D && negb del)
    || (D && negb del && negb T && negb S) = false <->
  (del = true -> T = true /\ D = true) /\ (ex = true -> T = true) /\
  (T = true -> D = true -> del = true) /\ (D = true -> T = false -> S = true).
Proof.
  split; [|intros (H1 & H2 & H3 & H4)]; destruct T, D, del, ex, S; cbn in *; try done;
    exfalso; try (destruct (H1 eq_refl); done); auto using diff_true_false, diff_false_true;
    try specialize (H2 eq_refl); try specialize (H3 eq_refl eq_refl); try specialize (H4 eq_refl eq_refl);
    done.
Qed.

Lemma lifecycle_bad_false r k v :
  v_State v = state r -> v_DeleteRequested v = (delete_requested r =? 1)%Z ->
  v_TerminalExpiresAt v = st_expires k ->
  lifecycle_bad (record_of r k v) = false <->
  (is_Some (st_deleted k) -> State_terminal (state r) = true /\ delete_requested r = 1) /\
  (is_Some (st_expires k) -> State_terminal (state r) = true) /\
  (State_terminal (state r) = true -> delete_requested r = 1 -> is_Some (st_deleted k)) /\
  (delete_requested r = 1 -> State_terminal (state r) = false -> state r = StateStopping).
Proof.
  intros E1 E2 E3. unfold lifecycle_bad, record_of. cbn. rewrite E1, E2, E3.
  replace (bool_decide (st_deleted k = None)) with (negb (bool_decide (is_Some (st_deleted k))))
    by (by destruct (st_deleted k)).
  rewrite lifecycle_bools, !bool_decide_eq_true, !Z.eqb_eq, String.eqb_eq. done.
Qed.

Lemma lease_bad_false r k v :
  v_State v = state r -> v_ReconcileOwner v = default "" (reconcile_owner r) ->
  v_ReconcileUntil v = st_until k ->
  lease_bad (record_of r k v) = false <->
  (default "" (reconcile_owner r) = "" <-> st_until k = None) /\
  (State_terminal (state r) = true -> default "" (reconcile_owner r) = "").
Proof.
  intros E1 E2 E3. unfold lease_bad, record_of. cbn. rewrite E1, E2, E3.
  rewrite !orb_false_iff, !andb_false_iff, !negb_false_iff, !bool_decide_eq_false,
    !String.eqb_eq, String.eqb_neq, !eq_None_not_Some.
  destruct (State_terminal (state r)), (decide (is_Some (st_until k))),
    (decide (default "" (reconcile_owner r) = "")); intuition (try done).
Qed.

Lemma target_bad_false r k v :
  v_State v = state r -> v_TerminalTarget v = terminal_target r ->
  target_bad (record_of r k v) = false <->
  if state r =? StateStopping then State_terminal (terminal_target r) = true
  else terminal_target r = "".
Proof.
  intros E1 E2. unfold target_bad, record_of. cbn. rewrite E1, E2.
  destruct (state r =? StateStopping); rewrite negb_false_iff, ?String.eqb_eq; done.
Qed.

Definition row_view (r : row) (x : ResolvedAgentRun) (k : stamps) : Run :=
  populateRunMetadata (bare_view r k) x.

(** A row passes [scanStoredRun] and [validateStoredRun] exactly when
    [row_valid] holds of it. *)
Lemma row_record_some r s :
  row_record r = Some s <->
  exists x k, row_valid r x k /\ s = record_of r k (row_view r x k).
Proof.
  unfold row_record. rewrite bind_Some. split.
  - intros (s0 & Hs0 & Hv). apply scanStoredRun_some in Hs0 as (Hd & k & Hk & ->).
    unfold validateStoredRun in Hv.
    destruct (shape_bad _) eqn:E1; [done|].
    destruct (_ || _) eqn:E2 in Hv; [done|].
    destruct (negb (bool_decide _)) eqn:E3 in Hv; [done|].
    cbn [record_of sr_snapshot] in Hv.
    destruct (DecodeResolvedAgentRun (snapshot r)) as [x|] eqn:E4; [|done].
    destruct (negb (rr_RunID x =? _)) eqn:E5 in Hv; [done|].
    destruct (pending_bad _ _) eqn:E6; [done|].
    destruct (_ || _) eqn:E7 in Hv; [done|]. injection Hv as <-.
    apply shape_bad_false in E1; try done. apply pending_bad_false in E6; try done.
    cbn in E2, E5. change (set_view (populateRunMetadata (sr_view (record_of r k (bare_view r k))) x)
      (record_of r k (bare_view r k))) with (record_of r k (row_view r x k)) in *.
    apply orb_false_iff in E7 as [[E7 E8]%orb_false_iff E9].
    apply lifecycle_bad_false in E7; try done. apply lease_bad_false in E8; try done.
    apply target_bad_false in E9; try done.
    bool_prop. apply bool_decide_eq_true in E3.
    exists x, k. split; [|done]. destruct E1 as (?&?&?&?&?&?&?&?&?&?&?&?&?&?).
    destruct E7 as (?&?&?&?). destruct E8. split; try done; congruence.
  - intros (x & k & V & ->). exists (record_of r k (bare_view r k)). split.
    { apply scanStoredRun_some. split; [apply V|]. exists k. split; [apply V|done]. }
    unfold validateStoredRun. destruct V.
    pose proof (decode_size _ _ rv_decode0). pose proof (sha256_hex_len (snapshot r)).
    rewrite (proj2 (shape_bad_false r k (bare_view r k) eq_refl eq_refl eq_refl eq_refl eq_refl eq_refl eq_refl eq_refl)).
    2: { apply hex_decoded_32 in rv_ownership0. rewrite rv_request0, rv_digest0 in *.
         repeat split; try done; lia. }
    cbn [record_of sr_snapshot sr_requestDigest sr_ownershipDigest sr_view bare_view v_SnapshotDigest v_RunID].
    rewrite rv_request0, rv_digest0, !String.eqb_refl. cbn [negb orb].
    rewrite (bool_decide_eq_true_2 _ rv_ownership0). cbn [negb].
    rewrite rv_decode0, rv_run0, String.eqb_refl. cbn [negb].
    change (mkStoredRun _ _ _ _ _ _ _ _ _ _) with (record_of r k (bare_view r k)).
    rewrite (proj2 (pending_bad_false r k (bare_view r k) x eq_refl eq_refl eq_refl)) by done.
    change (set_view _ _) with (record_of r k (row_view r x k)).
    rewrite (proj2 (lifecycle_bad_false r k (row_view r x k) eq_refl eq_refl eq_refl)) by done.
    rewrite (proj2 (lease_bad_false r k (row_view r x k) eq_refl eq_refl eq_refl)) by done.
    rewrite (proj2 (target_bad_false r k (row_view r x k) eq_refl eq_refl)) by done.
    done.
Qed.
End Valid.

(** * Health of the store

    A table is healthy when its keys satisfy the schema, every row can be
    read, every row that is not terminal passes [validateStoredRun], and the
    snapshots it holds are canonical.  [Store.validate] accepts a healthy
    table when the controller opens it; the theorems here show that every
    operation leaves the table healthy. *)

Local Open Scope Z_scope.
Local Open Scope string_scope.

Section Rows.
Context {C : SnapshotCodec}.

Definition decodes_canonical (raw : string) : Prop :=
  forall x, DecodeResolvedAgentRun raw = Some x -> canonical x = x.

Record row_ok (r : row) : Prop := {
  ok_scan : is_Some (scanStoredRun r);
  ok_valid : is_Some (row_record r) \/ State_terminal (state r) = true;
  ok_snapshot : decodes_canonical (snapshot r);
  ok_pending : decodes_canonical (default "" (pending_snapshot r));
  ok_retention : forall x, DecodeResolvedAgentRun (snapshot r) = Some x ->
                   rr_TTL x = zero_TTL -> terminal_expires_at r = None
}.

Definition healthy (t : table) : Prop :=
  pk_sorted run_id t /\ uk_unique idempotency_key t /\ forall r, In r t -> row_ok r.

(** The wall clock has not been set back before the creation of a row. *)
Definition clock_ok (now : time) (t : table) : Prop :=
  forall r c, In r t -> created_at r = RFC3339 c -> c <= now.

Lemma row_valid_ok r x k :
  row_valid r x k -> canonical x = x -> decodes_canonical (default "" (pending_snapshot r)) ->
  (rr_TTL x = zero_TTL -> st_expires k = None) -> row_ok r.
Proof.
  intros V Hx Hp Ht.
  assert (Hr : row_record r = Some (record_of r k (row_view r x k))) by (apply row_record_some; eauto).
  split.
  - unfold row_record in Hr. apply bind_Some in Hr as (s & Hs & _). eauto.
  - left. eauto.
  - intros y Hy. rewrite (rv_decode _ _ _ V) in Hy. congruence.
  - done.
  - intros y Hy Hz. rewrite (rv_decode _ _ _ V) in Hy. injection Hy as <-.
    destruct (rv_stamps _ _ _ V) as (_ & _ & _ & He & _). rewrite He, (Ht Hz). done.
Qed.

Lemma row_ok_valid r x k : row_ok r -> row_valid r x k ->
  canonical x = x /\ (rr_TTL x = zero_TTL -> st_expires k = None).
Proof.
  intros O V. split; [apply (ok_snapshot _ O), V|]. intros Hz.
  pose proof (ok_retention _ O x (rv_decode _ _ _ V) Hz) as He.
  destruct (rv_stamps _ _ _ V) as (_ & _ & _ & Hs & _). rewrite Hs in He.
  by destruct (st_expires k).
Qed.

(** ** Facts about valid rows *)

Lemma valid_live r x k : row_valid r x k -> State_terminal (state r) = false -> st_deleted k = None.
Proof.
  intros V Ht. destruct (st_deleted k) eqn:E; [|done].
  destruct (rv_tombstone _ _ _ V) as [Hc _]; [by rewrite E|]. congruence.
Qed.

Lemma valid_unexpired r x k : row_valid r x k -> State_terminal (state r) = false -> st_expires k = None.
Proof.
  intros V Ht. destruct (st_expires k) eqn:E; [|done].
  pose proof (rv_expires _ _ _ V) as Hc. rewrite E in Hc. rewrite Hc in Ht; [done|eauto].
Qed.

Lemma valid_undeleted r x k :
  row_valid r x k -> State_terminal (state r) = false -> state r <> StateStopping -> delete_requested r = 0.
Proof.
  intros V Ht Hs. destruct (rv_delreq _ _ _ V) as [?|Hd]; [done|].
  by destruct Hs; apply (rv_deleting _ _ _ V).
Qed.

Lemma valid_unstaged r x k :
  row_valid r x k -> state r <> StateStopping -> state r <> StatePreparing ->
  default "" (pending_snapshot r) = "" /\ pending_snapshot_digest r = "".
Proof.
  intros V H1 H2. pose proof (rv_pending _ _ _ V) as Hp.
  destruct (_ =? "") eqn:E in Hp; [bool_prop; done|].
  destruct Hp as (y & _ & _ & _ & [(Hs & _)|(_ & Hs)]); congruence.
Qed.

Lemma terminal_states s : State_terminal s = true -> s <> StateStopping /\ s <> StatePreparing.
Proof. intros Ht. split; intros ->; discriminate Ht. Qed.

Lemma decode_empty : DecodeResolvedAgentRun "" = None.
Proof.
  destruct (DecodeResolvedAgentRun "") as [x|] eqn:E; [|done].
  apply decode_size in E. unfold len in E. simpl in E. lia.
Qed.

Lemma decodes_canonical_empty : decodes_canonical "".
Proof. intros x Hx. rewrite decode_empty in Hx. done. Qed.

(** ** What each statement does to a valid row

    [touch now k] is the effect of [updated_at = now] with the lease cleared. *)
Definition touch (now : time) (k : stamps) : stamps :=
  mkStamps (st_created k) now (st_deadline k) (st_expires k) None (st_deleted k).

Ltac row_solve :=
  match goal with
  | V : row_valid ?r ?x ?k |- _ =>
      destruct (rv_stamps r x k V) as (? & ? & ? & ? & ? & ?);
      try match goal with
      | E : st_deleted k = None, E' : deleted_at r = _ |- _ =>
          assert (deleted_at r = None) by (rewrite E', E; reflexivity)
      end;
      try match goal with
      | E : st_expires k = None, E' : terminal_expires_at r = _ |- _ =>
          assert (terminal_expires_at r = None) by (rewrite E', E; reflexivity)
      end;
      pose proof (rv_target r x k V) as Htarget;
      try match goal with E : state r = _ |- _ => rewrite E in Htarget; cbn in Htarget end;
      destruct V; split; cbn; unfold row_stamps; cbn;
      try assumption; try reflexivity; try lia;
      try solve [repeat split; first [assumption | reflexivity | congruence]];
      try (intros; discriminate); try (intros [? ?]; discriminate); try tauto;
      try congruence; eauto;
      try (match goal with E : default _ _ = _ |- _ => rewrite E; done end);
      try (match goal with E : st_deleted k = None |- _ => rewrite E; intros [? ?]; discriminate end);
      try (match goal with E : st_expires k = None |- _ => rewrite E; intros [? ?]; discriminate end)
  end.

Lemma deadline_update_valid now r x k :
  row_valid r x k -> State_terminal (state r) = false -> state r <> StateStopping ->
  st_created k <= now -> row_valid (deadline_update now r) x (touch now k).
Proof.
  intros V Ht Hs Hnow. pose proof (valid_live _ _ _ V Ht) as Hdel.
  pose proof (valid_unexpired _ _ _ V Ht) as Hexp. pose proof (valid_undeleted _ _ _ V Ht Hs).
  row_solve.
Qed.

Lemma retention_update_valid now r x k :
  row_valid r x k -> State_terminal (state r) = true -> st_deleted k = None ->
  st_created k <= now ->
  row_valid (retention_update now r) x (mkStamps (st_created k) now (st_deadline k) None (st_until k) None).
Proof.
  intros V Ht Hdel Hnow. destruct (terminal_states _ Ht) as [H1 H2].
  destruct (valid_unstaged _ _ _ V H1 H2) as [Hp Hpd].
  row_solve.
Qed.

Lemma claim_update_valid owner until now rev r x k :
  row_valid r x k -> State_terminal (state r) = false -> owner <> "" -> 1 <= rev ->
  st_created k <= now ->
  row_valid (claim_update owner until now rev r) x
    (mkStamps (st_created k) now (st_deadline k) (st_expires k) (Some until) (st_deleted k)).
Proof. intros V Ht Ho Hrev Hnow. row_solve. Qed.

Lemma cursor_update_valid cursor rev now r x k :
  row_valid r x k -> validLifecycleCursor cursor = true -> 1 <= rev -> st_created k <= now ->
  row_valid (cursor_update cursor rev now r) x (touch now k).
Proof. intros V Hc Hrev Hnow. row_solve. Qed.

(** Promoting the staged snapshot of a preparing run. *)
Lemma rollout_update_valid rev now reason cursor r x y k :
  row_valid r x k -> state r = StatePreparing ->
  DecodeResolvedAgentRun (default "" (pending_snapshot r)) = Some y ->
  validReason reason = true -> validLifecycleCursor cursor = true -> 1 <= rev -> st_created k <= now ->
  row_valid (rollout_update rev now reason cursor r) y (touch now k).
Proof.
  intros V Hs Hy Hr Hc Hrev Hnow.
  assert (Ht : State_terminal (state r) = false) by (by rewrite Hs).
  pose proof (valid_live _ _ _ V Ht) as Hdel. pose proof (valid_unexpired _ _ _ V Ht) as Hexp.
  assert (Hd : delete_requested r = 0) by (apply (valid_undeleted _ _ _ V Ht); by rewrite Hs).
  assert (Hp : staged_ok r x).
  { pose proof (rv_pending _ _ _ V) as Hp. destruct (_ =? "") eqn:E in Hp; [|done].
    bool_prop. rewrite E, decode_empty in Hy. done. }
  destruct Hp as (y' & Hy' & Hdig & Hid & _). rewrite Hy in Hy'. injection Hy' as <-.
  row_solve.
Qed.

(** A replacement whose cleanup is complete starts over as a pending run. *)
Lemma replacement_update_valid rev now r x y k :
  row_valid r x k -> State_terminal (state r) = false ->
  DecodeResolvedAgentRun (default "" (pending_snapshot r)) = Some y -> 1 <= rev -> st_created k <= now ->
  row_valid (replacement_update rev now r) y
    (mkStamps (st_created k) now (st_deadline k) None None None).
Proof.
  intros V Ht Hy Hrev Hnow.
  assert (Hp : staged_ok r x).
  { pose proof (rv_pending _ _ _ V) as Hp. destruct (_ =? "") eqn:E in Hp; [|done].
    bool_prop. rewrite E, decode_empty in Hy. done. }
  destruct Hp as (y' & Hy' & Hdig & Hid & _). rewrite Hy in Hy'. injection Hy' as <-.
  row_solve. rewrite Hdig. apply sha256_hex_decodes.
Qed.

Lemma abort_update_valid now r x k :
  row_valid r x k -> state r = StatePreparing -> st_created k <= now ->
  row_valid (abort_update now r) x (touch now k).
Proof.
  intros V Hs Hnow.
  assert (Ht : State_terminal (state r) = false) by (by rewrite Hs).
  pose proof (valid_live _ _ _ V Ht) as Hdel. pose proof (valid_unexpired _ _ _ V Ht) as Hexp.
  assert (Hd : delete_requested r = 0) by (apply (valid_undeleted _ _ _ V Ht); by rewrite Hs).
  row_solve.
Qed.

Lemma terminal_delete_update_valid now r x k :
  row_valid r x k -> State_terminal (state r) = true -> st_deleted k = None -> st_created k <= now ->
  row_valid (terminal_delete_update (state r) now r) x
    (mkStamps (st_created k) now (st_deadline k) None (st_until k) None).
Proof.
  intros V Ht Hdel Hnow. destruct (terminal_states _ Ht) as [H1 H2].
  destruct (valid_unstaged _ _ _ V H1 H2) as [Hp Hpd].
  row_solve.
Qed.

Lemma stop_update_valid deleting rev now reason target r x k :
  row_valid r x k -> State_terminal (state r) = false -> State_terminal target = true ->
  validReason reason = true -> 1 <= rev -> st_created k <= now ->
  row_valid (stop_update deleting rev now reason target r) x (touch now k).
Proof.
  intros V Ht Htg Hr Hrev Hnow.
  pose proof (valid_live _ _ _ V Ht) as Hdel. pose proof (valid_unexpired _ _ _ V Ht) as Hexp.
  row_solve. destruct deleting; auto.
Qed.

Lemma transition_cases from to :
  transitionAllowed from to = true ->
  State_terminal from = false /\ State_valid to = true /\
  (from = StateStopping -> State_terminal to = true) /\
  (from <> StateStopping -> State_terminal to = false) .
Proof.
  unfold transitionAllowed. intros Hx.
  repeat match type of Hx with
  | (if ?b then _ else _) = true => destruct b eqn:?
  end; try discriminate Hx; bool_prop; subst;
  repeat match goal with
  | Hy : (_ || _) = true |- _ => apply orb_true_iff in Hy as [Hy|Hy]
  end; bool_prop; subst; repeat split; intros; try done; congruence.
Qed.

Lemma terminalExpiry_nonterminal now s x : State_terminal s = false -> terminalExpiry now s x = None.
Proof. unfold terminalExpiry. by intros ->. Qed.

Lemma terminalExpiry_zero now s x : rr_TTL x = zero_TTL -> terminalExpiry now s x = None.
Proof.
  intros Hz. unfold terminalExpiry, expiry_candidates. rewrite Hz. cbn.
  rewrite !andb_false_r. destruct (negb (State_terminal s)); [done|].
  by destruct (negb (persistentRun _ _ _)).
Qed.

Lemma status_update_valid to rev now reason target cursor r x k :
  row_valid r x k -> transitionAllowed (state r) to = true ->
  (default "" (pending_snapshot r) = "" \/ to = StateStopping) ->
  (if to =? StateStopping then State_terminal target = true else target = "") ->
  validReason reason = true -> validLifecycleCursor cursor = true -> 1 <= rev -> st_created k <= now ->
  let deleted := if State_terminal to && (delete_requested r =? 1)%Z then Some now else None in
  row_valid (status_update to rev now (terminalExpiry now to x) deleted reason target cursor r) x
    (mkStamps (st_created k) now (st_deadline k) (terminalExpiry now to x) None deleted).
Proof.
  intros V Htr Hp Htg Hr Hc Hrev Hnow deleted.
  destruct (transition_cases _ _ Htr) as (Ht & Hto & Hstop & Hlive).
  assert (Hdd : is_Some deleted <-> State_terminal to = true /\ delete_requested r = 1).
  { subst deleted. destruct (State_terminal to), (Z.eqb_spec (delete_requested r) 1); cbn;
      unfold is_Some; split; intros Hx; try (destruct Hx; discriminate); eauto;
      destruct Hx; congruence. }
  destruct (rv_stamps _ _ _ V) as (Hs1 & Hs2 & Hs3 & Hs4 & Hs5 & Hs6).
  split; cbn; try assumption; try apply V.
  - repeat split; done.
  - subst deleted. destruct (_ && _); intros d [= <-]; done.
  - apply Hdd.
  - intros [e He]. destruct (State_terminal to) eqn:E; [done|].
    rewrite terminalExpiry_nonterminal in He; done.
  - intros H1 H2. by apply Hdd.
  - intros Hd Hn. exfalso. destruct (decide (state r = StateStopping)) as [E|E].
    + rewrite Hstop in Hn; done.
    + pose proof (valid_undeleted _ _ _ V Ht E). lia.
  - done.
  - done.
  - destruct (to =? StateStopping) eqn:E; [done|]. destruct Hp as [Hp| ->]; [|done].
    rewrite Hp. cbn. pose proof (rv_pending _ _ _ V) as Hq. rewrite Hp in Hq. done.
Qed.

(** Requests of a batch. *)
Lemma rollout_request_valid c now r x y k :
  row_valid r x k -> state r = StateRunning \/ state r = StatePreparing ->
  DecodeResolvedAgentRun (pc_snapshot c) = Some y -> pc_digest c = sha256_hex (pc_snapshot c) ->
  rr_RunID y = rr_RunID x -> workstationUpdateCompatible x y = true -> st_created k <= now ->
  row_valid (rollout_request_update c now r) x (touch now k).
Proof.
  intros V Hs Hy Hdig Hid Hcompat Hnow.
  assert (Ht : State_terminal (state r) = false /\ state r <> StateStopping)
    by (destruct Hs as [-> | ->]; done).
  destruct Ht as [Ht Hns].
  pose proof (valid_live _ _ _ V Ht) as Hdel. pose proof (valid_unexpired _ _ _ V Ht) as Hexp.
  pose proof (valid_undeleted _ _ _ V Ht Hns) as Hd.
  assert (Htg : terminal_target r = "").
  { pose proof (rv_target _ _ _ V) as Hq. apply String.eqb_neq in Hns. by rewrite Hns in Hq. }
  row_solve.
  - destruct (pc_snapshot c =? "") eqn:E; bool_prop.
    + rewrite E, decode_empty in Hy. done.
    + unfold staged_ok. cbn. exists y. split_and!; auto.
Qed.

(** Rolling back a staged configuration restages the active snapshot; the row
    must not be on its way to deletion. *)
Lemma compatible_refl x :
  fully_persistent x = true -> rr_TTL x = zero_TTL -> workstationUpdateCompatible x x = true.
Proof.
  intros Hp Hz. unfold workstationUpdateCompatible. rewrite Hp. cbn.
  rewrite (bool_decide_eq_true_2 _ Hz). cbn. apply bool_decide_eq_true_2. by destruct x.
Qed.

Lemma compatible_inv x y :
  workstationUpdateCompatible x y = true ->
  fully_persistent x = true /\ rr_TTL x = zero_TTL /\ fully_persistent y = true /\
  rr_TTL y = zero_TTL /\ with_rollout_fields x y = y.
Proof.
  unfold workstationUpdateCompatible. destruct (_ || _) eqn:E; [done|]. intros Hx.
  bool_prop. apply bool_decide_eq_true in Hx.
  repeat match goal with Hy : bool_decide _ = true |- _ => apply bool_decide_eq_true in Hy end. done.
Qed.

Lemma rollback_update_valid now r x k :
  row_valid r x k -> default "" (pending_snapshot r) <> "" -> delete_requested r = 0 ->
  st_created k <= now -> row_valid (rollback_update now r) x (touch now k).
Proof.
  intros V Hp Hd Hnow.
  pose proof (rv_pending _ _ _ V) as Hq. apply String.eqb_neq in Hp. rewrite Hp in Hq.
  destruct Hq as (y & _ & _ & _ & [(_ & Hbad & _)|(Hcompat & Hs)]); [lia|].
  apply compatible_inv in Hcompat as (Hfp & Hz & _).
  assert (Ht : State_terminal (state r) = false) by (by rewrite Hs).
  pose proof (valid_live _ _ _ V Ht) as Hdel. pose proof (valid_unexpired _ _ _ V Ht) as Hexp.
  pose proof (rv_decode _ _ _ V) as Hdec.
  row_solve. destruct (snapshot r =? "") eqn:E; bool_prop.
  - rewrite E, decode_empty in Hdec. done.
  - unfold staged_ok. cbn. exists x. repeat split; auto using compatible_refl.
Qed.

Lemma restart_update_valid now r x k :
  row_valid r x k -> State_terminal (state r) = true -> st_deleted k = None -> st_created k <= now ->
  row_valid (restart_update now r) x
    (mkStamps (st_created k) now (st_deadline k) None None None).
Proof.
  intros V Ht Hdel Hnow. destruct (terminal_states _ Ht) as [H1 H2].
  destruct (valid_unstaged _ _ _ V H1 H2) as [Hp Hpd].
  assert (Hd : delete_requested r = 0).
  { destruct (rv_delreq _ _ _ V) as [?|Hd]; [done|].
    pose proof (rv_gone _ _ _ V Ht Hd) as [? ?]. congruence. }
  row_solve.
Qed.

Lemma restart_with_update_valid c now r x y k :
  row_valid r x k -> State_terminal (state r) = true -> st_deleted k = None -> st_created k <= now ->
  DecodeResolvedAgentRun (pc_snapshot c) = Some y -> pc_digest c = sha256_hex (pc_snapshot c) ->
  rr_RunID y = rr_RunID x ->
  row_valid (restart_with_update c now r) y
    (mkStamps (st_created k) now (st_deadline k) None None None).
Proof.
  intros V Ht Hdel Hnow Hy Hdig Hid.
  assert (Hd : delete_requested r = 0).
  { destruct (rv_delreq _ _ _ V) as [?|Hd]; [done|].
    pose proof (rv_gone _ _ _ V Ht Hd) as [? ?]. congruence. }
  row_solve.
Qed.

Lemma replace_update_valid c now r x y k :
  row_valid r x k -> st_deleted k = None -> st_created k <= now ->
  DecodeResolvedAgentRun (pc_snapshot c) = Some y -> pc_digest c = sha256_hex (pc_snapshot c) ->
  rr_RunID y = rr_RunID x ->
  row_valid (replace_update c now r) x (mkStamps (st_created k) now (st_deadline k) None None None).
Proof.
  intros V Hdel Hnow Hy Hdig Hid. row_solve.
  destruct (pc_snapshot c =? "") eqn:E; bool_prop.
  - rewrite E, decode_empty in Hy. done.
  - unfold staged_ok. cbn. exists y. split_and!; auto.
Qed.

(** The prune statement leaves [terminal_expires_at] alone, which is sound
    only because a workstation never gets a retention deadline. *)
Lemma prune_update_valid now r x k :
  row_valid r x k -> st_deleted k = None -> st_expires k = None -> st_created k <= now ->
  row_valid (prune_update now r) x (touch now k).
Proof. intros V Hdel Hexp Hnow. row_solve. Qed.

Lemma add_seconds_later now s :
  0 <= s <= maxTTLSeconds -> add_seconds now s = now + s * Second /\ now <= add_seconds now s.
Proof.
  unfold add_seconds, maxTTLSeconds, Second. intros Hs. rewrite wrap64_small by lia. lia.
Qed.

Lemma validateTTL_bounds t :
  validateTTL t = true ->
  0 <= ttl_ActiveSeconds t <= maxTTLSeconds /\ 0 <= ttl_CompletedSeconds t <= maxTTLSeconds /\
  0 <= ttl_FailedSeconds t <= maxTTLSeconds /\ 0 <= ttl_RunRetentionSeconds t <= maxTTLSeconds.
Proof.
  unfold validateTTL. cbn. rewrite !andb_true_iff, !negb_true_iff, !orb_false_iff, !Z.ltb_ge. lia.
Qed.

Lemma optionalDeadline_later now s d :
  0 <= s <= maxTTLSeconds -> optionalDeadline now s = Some d -> now <= d.
Proof.
  intros Hs. unfold optionalDeadline. destruct (s <=? 0)%Z; [done|]. intros [= <-].
  by apply add_seconds_later.
Qed.

Lemma new_row_valid c now y :
  DecodeResolvedAgentRun (pc_snapshot c) = Some y -> pc_digest c = sha256_hex (pc_snapshot c) ->
  rr_RunID y = rr_RunID (pc_resolved c) ->
  validIdempotencyKey (ci_IdempotencyKey (pc_input c)) = true ->
  (ci_ActiveGroup (pc_input c) = "" \/ validIdempotencyKey (ci_ActiveGroup (pc_input c)) = true) ->
  validateTTL (rr_TTL (pc_resolved c)) = true ->
  let deadline := optionalDeadline now (ttl_ActiveSeconds (rr_TTL (pc_resolved c))) in
  row_valid (new_row c now deadline) y (mkStamps now now deadline None None None).
Proof.
  intros Hy Hdig Hid Hkey Hgroup Httl deadline.
  pose proof (decode_run_id _ _ Hy) as Hrid. rewrite Hid in Hrid.
  apply validateTTL_bounds in Httl as (Hb & _).
  split; cbn; try done; try lia; try (intros [? ?]; done); auto.
  - rewrite Hdig. apply sha256_hex_decodes.
  - intros d Hd. by eapply optionalDeadline_later.
Qed.
End Rows.

(** * The sweep

    [sweepTx] reads every live row and then updates the due ones one statement
    at a time, each guarded by the row's revision.  On a healthy table the
    loop is a row-wise map; the other operations all start with it. *)

(** ** One statement on one row *)

Lemma sql_count_split w p (r : row) q :
  w r = true -> (forall r', In r' (p ++ q)%list -> w r' = false) -> sql_count w (p ++ r :: q)%list = 1.
Proof.
  intros Hr Ho. unfold sql_count. rewrite List.filter_app. simpl. rewrite Hr.
  assert (Hnil : forall l, (forall r', In r' l -> w r' = false) -> List.filter w l = []).
  { induction l as [|y l IH]; intros Hl; [done|]. simpl. rewrite (Hl y) by (by left).
    apply IH. intros; apply Hl; by right. }
  rewrite !Hnil; [done| |]; intros r' Hin; apply Ho, in_app_iff; auto.
Qed.

Lemma exec_one_split w f e p r q :
  w r = true -> (forall r', In r' (p ++ q)%list -> w r' = false) ->
  exec_one w f e (p ++ r :: q)%list = (Ok tt, (p ++ f r :: q)%list).
Proof.
  intros Hr Ho. unfold exec_one, bind, sql_exec. rewrite sql_count_split by done. cbn.
  unfold ret. f_equal. unfold sql_update. rewrite map_app. simpl. rewrite Hr. f_equal; [|f_equal].
  - rewrite <- (map_id p) at 2. apply map_ext_in. intros x Hx. rewrite Ho; [done|]. apply in_app_iff. auto.
  - rewrite <- (map_id q) at 2. apply map_ext_in. intros x Hx. rewrite Ho; [done|]. apply in_app_iff. auto.
Qed.

Lemma exec_one_ok_count w f e (t : table) u t' :
  exec_one w f e t = (Ok u, t') -> sql_count w t = 1 /\ t' = sql_update w f t.
Proof.
  unfold exec_one, bind, sql_exec, guard. destruct (negb _) eqn:E; cbn; unfold fail, ret; intros [=]; bool_prop; done.
Qed.

Lemma pk_others p (r : row) q r' :
  pk_sorted run_id (p ++ r :: q)%list -> In r' (p ++ q)%list -> run_id r' <> run_id r.
Proof.
  induction p as [|y p IH]; simpl; rewrite pk_sorted_cons; intros [Hs Hlt] Hin Heq.
  - apply Hlt in Hin. rewrite Heq, str_lt_irrefl in Hin. done.
  - destruct Hin as [->|Hin]; [|by eapply IH].
    specialize (Hlt r). rewrite Heq, str_lt_irrefl in Hlt.
    apply diff_false_true, Hlt, in_app_iff. right. by left.
Qed.

Lemma uk_others p (r : row) q r' :
  uk_unique idempotency_key (p ++ r :: q)%list -> In r' (p ++ q)%list ->
  idempotency_key r' <> idempotency_key r.
Proof.
  unfold uk_unique. rewrite map_app. simpl. intros Hnd Hin Heq.
  apply NoDup_remove_2 in Hnd. apply Hnd. rewrite <- map_app, <- Heq. by apply in_map.
Qed.

Lemma exec_at_revision id f e p r q :
  pk_sorted run_id (p ++ r :: q)%list -> run_id r = id ->
  exec_one (at_revision id (revision r)) f e (p ++ r :: q)%list = (Ok tt, (p ++ f r :: q)%list).
Proof.
  intros Hs <-. apply exec_one_split; unfold at_revision.
  - by rewrite String.eqb_refl, Z.eqb_refl.
  - intros r' Hin. pose proof (pk_others _ _ _ _ Hs Hin) as Hne.
    apply String.eqb_neq in Hne. by rewrite Hne.
Qed.

Lemma pk_sorted_ids (t t' : table) :
  map run_id t' = map run_id t -> pk_sorted run_id t -> pk_sorted run_id t'.
Proof. unfold pk_sorted. by intros ->. Qed.

Lemma uk_unique_keys (t t' : table) :
  map idempotency_key t' = map idempotency_key t ->
  uk_unique idempotency_key t -> uk_unique idempotency_key t'.
Proof. unfold uk_unique. by intros ->. Qed.

Section Sweep.
Context {C : SnapshotCodec}.

(** ** Reading *)

Lemma valid_records_healthy rows :
  (forall r, In r rows -> row_ok r) -> valid_records rows = Ok (omap row_record rows).
Proof.
  induction rows as [|r rows IH]; intros Hok; [done|]. cbn [valid_records].
  specialize (IH (fun r' Hr => Hok r' (or_intror Hr))). destruct (Hok r (or_introl eq_refl)) as [[s Hs] Hv _ _ _].
  assert (Hrr : row_record r = validateStoredRun s) by (unfold row_record; by rewrite Hs).
  rewrite Hs. simpl omap. rewrite Hrr in Hv |- *.
  destruct (validateStoredRun s) as [s'|] eqn:E; [by rewrite IH|].
  destruct Hv as [[? Hv]|Hv]; [done|].
  apply scanStoredRun_some in Hs as (_ & k & _ & ->). cbn. rewrite Hv. exact IH.
Qed.

Lemma valid_records_ok rows ss : valid_records rows = Ok ss -> ss = omap row_record rows.
Proof.
  revert ss. induction rows as [|r rows IH]; intros ss; cbn [valid_records]; [by intros [= <-]|].
  destruct (scanStoredRun r) as [s|] eqn:Es; [|done].
  assert (Hrr : row_record r = validateStoredRun s) by (unfold row_record; by rewrite Es).
  simpl omap. rewrite Hrr. destruct (validateStoredRun s) as [s'|] eqn:E.
  - destruct (valid_records rows) as [ss'|]; [|done]. intros [= <-]. f_equal. by apply IH.
  - destruct (State_terminal _); [|done]. apply IH.
Qed.

Lemma row_record_ids r s : row_record r = Some s ->
  v_RunID (sr_view s) = run_id r /\ v_Revision (sr_view s) = revision r /\
  v_State (sr_view s) = state r /\ sr_idempotencyKey s = idempotency_key r.
Proof. intros Hs. apply row_record_some in Hs as (x & k & _ & ->). done. Qed.

(** ** The loop as a map *)

Definition sweep_row (now : time) (r : row) : row :=
  if not_deleted r then
    match row_record r with
    | Some s =>
        if deadline_due now (sr_view s) then deadline_update now r
        else if retention_due now (sr_view s) then retention_update now r else r
    | None => r
    end
  else r.

Definition sweep_due (now : time) (r : row) : bool :=
  not_deleted r &&
  match row_record r with
  | Some s => deadline_due now (sr_view s) || retention_due now (sr_view s)
  | None => false
  end.

Lemma sweep_row_keys now r :
  run_id (sweep_row now r) = run_id r /\ idempotency_key (sweep_row now r) = idempotency_key r /\
  created_at (sweep_row now r) = created_at r.
Proof.
  unfold sweep_row. destruct (not_deleted r); [|done]. destruct (row_record r); [|done].
  destruct (deadline_due _ _); [done|]. by destruct (retention_due _ _).
Qed.

Lemma sweep_loop now p q n :
  pk_sorted run_id (p ++ q)%list ->
  fold_each (sweep_record now) n (omap row_record (sql_select not_deleted q)) (p ++ q)%list
  = (Ok (n + sql_count (sweep_due now) q), (p ++ map (sweep_row now) q)%list).
Proof.
  revert p n. induction q as [|r q IH]; intros p n Hs.
  { cbn. unfold ret. do 2 f_equal. unfold sql_count. simpl. lia. }
  assert (Hstep : forall r', run_id r' = run_id r -> forall n',
    fold_each (sweep_record now) n' (omap row_record (sql_select not_deleted q)) (p ++ r' :: q)%list
    = (Ok (n' + sql_count (sweep_due now) q), (p ++ r' :: map (sweep_row now) q)%list)).
  { intros r' Hid n'. specialize (IH (p ++ [r'])%list n').
    rewrite <- !app_assoc in IH. cbn in IH. apply IH.
    eapply pk_sorted_ids; [|exact Hs]. rewrite !map_app. simpl. by rewrite Hid. }
  assert (Hcount : sql_count (sweep_due now) (r :: q) =
    (if sweep_due now r then 1 else 0) + sql_count (sweep_due now) q).
  { unfold sql_count. simpl. destruct (sweep_due now r); cbn [length]; lia. }
  rewrite Hcount. cbn [sql_select List.filter map].
  unfold sweep_row at 1, sweep_due at 1. destruct (not_deleted r) eqn:Ed; cbn [andb].
  2: { rewrite (Hstep r eq_refl). do 3 f_equal. }
  cbn [omap]. destruct (row_record r) as [s|] eqn:Er; cbn.
  2: { rewrite Er. rewrite (Hstep r eq_refl). do 3 f_equal. }
  rewrite Er. destruct (row_record_ids _ _ Er) as (Hid & Hrev & _).
  cbn [fold_each]. unfold bind at 1. unfold sweep_record at 1.
  destruct (deadline_due now (sr_view s)); cbn [orb].
  { unfold bind at 1. rewrite Hrev, exec_at_revision by (by rewrite ?Hid).
    unfold ret at 1. cbn. rewrite Hstep by done. do 2 f_equal. lia. }
  destruct (retention_due now (sr_view s)); cbn [orb].
  { unfold bind at 1. rewrite Hrev, exec_at_revision by (by rewrite ?Hid).
    unfold ret at 1. cbn. rewrite Hstep by done. do 2 f_equal. lia. }
  unfold ret at 1. rewrite Hstep by done. do 2 f_equal.
Qed.

(** On a healthy table the sweep always succeeds, and its effect is row-wise. *)
Lemma sweepTx_healthy now t :
  healthy t -> sweepTx now t = (Ok (sql_count (sweep_due now) t), map (sweep_row now) t).
Proof.
  intros (Hs & _ & Hok). unfold sweepTx, bind, get, lift.
  rewrite valid_records_healthy.
  2: { intros r Hr. apply List.filter_In in Hr as [Hr _]. auto. }
  exact (sweep_loop now [] t 0 Hs).
Qed.

Lemma Sweep_healthy now t :
  healthy t -> Sweep now t = (Ok (sql_count (sweep_due now) t), map (sweep_row now) t).
Proof. intros Hh. unfold Sweep, transaction. by rewrite sweepTx_healthy. Qed.
End Sweep.

(** * Every operation keeps the store healthy *)

Local Open Scope Z_scope.
Local Open Scope string_scope.

Section Preserve.
Context {C : SnapshotCodec}.

(** ** Tables *)

Definition keeps_keys (f : row -> row) : Prop :=
  forall r, run_id (f r) = run_id r /\ idempotency_key (f r) = idempotency_key r /\
            created_at (f r) = created_at r.

Lemma healthy_map f t :
  keeps_keys f -> (forall r, In r t -> row_ok r -> row_ok (f r)) -> healthy t -> healthy (map f t).
Proof.
  intros Hk Hf (Hs & Hu & Hok). split; [|split].
  - eapply pk_sorted_ids; [|exact Hs]. rewrite map_map. apply map_ext. intros r. apply Hk.
  - eapply uk_unique_keys; [|exact Hu]. rewrite map_map. apply map_ext. intros r. apply Hk.
  - intros r' Hin. apply in_map_iff in Hin as (r & <- & Hin). auto.
Qed.

Lemma healthy_replace f p r q :
  keeps_keys f -> (row_ok r -> row_ok (f r)) -> healthy (p ++ r :: q)%list -> healthy (p ++ f r :: q)%list.
Proof.
  intros Hk Hf (Hs & Hu & Hok). destruct (Hk r) as (K1 & K2 & _). split; [|split].
  - eapply pk_sorted_ids; [|exact Hs]. rewrite !map_app. simpl. by rewrite K1.
  - eapply uk_unique_keys; [|exact Hu]. rewrite !map_app. simpl. by rewrite K2.
  - intros r' Hin. apply in_app_iff in Hin as [Hin|[<-|Hin]].
    + apply Hok, in_app_iff. auto.
    + apply Hf, Hok, in_app_iff. right. by left.
    + apply Hok, in_app_iff. right. by right.
Qed.

Lemma clock_ok_map f now t : keeps_keys f -> clock_ok now t -> clock_ok now (map f t).
Proof.
  intros Hk Hc r' c Hin Hcr. apply in_map_iff in Hin as (r & <- & Hin).
  destruct (Hk r) as (_ & _ & K). rewrite K in Hcr. eauto.
Qed.

Lemma clock_valid now t r x k : clock_ok now t -> In r t -> row_valid r x k -> st_created k <= now.
Proof. intros Hc Hin V. eapply Hc; [exact Hin|]. apply (rv_stamps _ _ _ V). Qed.

(** ** Sweep *)

Lemma not_deleted_stamps r k : row_stamps r k -> not_deleted r = true -> st_deleted k = None.
Proof.
  unfold not_deleted. intros (_ & _ & _ & _ & _ & Hd) Hn. apply bool_decide_eq_true in Hn.
  rewrite Hd in Hn. by destruct (st_deleted k).
Qed.

Lemma sweep_row_ok now t r : clock_ok now t -> In r t -> row_ok r -> row_ok (sweep_row now r).
Proof.
  intros Hc Hin O. unfold sweep_row. destruct (not_deleted r) eqn:Hn; [|done].
  destruct (row_record r) as [s|] eqn:Es; [|done].
  apply row_record_some in Es as (x & k & V & ->). cbn [record_of sr_view].
  pose proof (clock_valid _ _ _ _ _ Hc Hin V) as Hnow.
  destruct (row_ok_valid _ _ _ O V) as [Hcan Hret].
  destruct (deadline_due now _) eqn:Ed.
  { unfold deadline_due, State_active in Ed. cbn in Ed. bool_prop.
    eapply row_valid_ok; [by apply deadline_update_valid|done|apply decodes_canonical_empty|].
    exact Hret. }
  destruct (retention_due now _) eqn:Er; [|done].
  unfold retention_due in Er. cbn in Er. bool_prop.
  pose proof (not_deleted_stamps _ _ (rv_stamps _ _ _ V) Hn) as Hdel.
  eapply row_valid_ok; [apply retention_update_valid; eauto|done| |done].
  apply (ok_pending _ O).
Qed.

Lemma sweep_keeps now : keeps_keys (sweep_row now).
Proof. intros r. apply sweep_row_keys. Qed.

Lemma sweep_preserves now t : healthy t -> clock_ok now t -> healthy (map (sweep_row now) t).
Proof.
  intros Hh Hc. apply healthy_map; [apply sweep_keeps| |done]. eauto using sweep_row_ok.
Qed.

(** ** Reads *)

Definition live_row (t : table) (id : string) (r : row) (x : ResolvedAgentRun) (k : stamps) : Prop :=
  In r t /\ run_id r = id /\ row_valid r x k /\ st_deleted k = None.

Lemma loadForUpdate_ok id t s t' :
  loadForUpdate id t = (Ok s, t') ->
  t' = t /\ exists r x k, live_row t id r x k /\ s = record_of r k (row_view r x k).
Proof.
  unfold loadForUpdate, bind, get. destruct (by_pk run_id id t) as [r|] eqn:Er; [|done].
  destruct (scanStoredRun r) as [s0|] eqn:Es; [|done].
  destruct (validateStoredRun s0) as [s1|] eqn:Ev; [|done].
  destruct (bool_decide _) eqn:Eb; [done|]. unfold ret. intros [= <- <-].
  apply by_pk_some in Er as [Hin Hid].
  assert (Hr : row_record r = Some s1) by (unfold row_record; by rewrite Es).
  apply row_record_some in Hr as (x & k & V & ->). split; [done|]. exists r, x, k.
  split; [|done]. cbn in Eb. apply bool_decide_eq_false in Eb.
  split_and!; [done|done|done|]. by apply eq_None_not_Some.
Qed.

Lemma loadForUpdate_err id t e t' : loadForUpdate id t = (Err e, t') -> t' = t.
Proof.
  unfold loadForUpdate, bind, get, fail, ret. repeat break_match; intros [=]; congruence.
Qed.

(** ** Writes guarded by a revision *)

Lemma exec_live t id r x k f e u t' rev :
  healthy t -> live_row t id r x k -> keeps_keys f -> row_ok (f r) ->
  exec_one (at_revision id rev) f e t = (Ok u, t') ->
  healthy t' /\ revision r = rev /\ exists p q, t = (p ++ r :: q)%list /\ t' = (p ++ f r :: q)%list.
Proof.
  intros Hh (Hin & Hid & V & Hdel) Hk Hok He. destruct (in_split _ _ Hin) as (p & q & ->).
  destruct (Z.eqb_spec (revision r) rev) as [<-|Hne].
  - rewrite exec_at_revision in He; [|apply Hh|done]. injection He as _ <-.
    split; [by apply healthy_replace|]. split; [done|]. by exists p, q.
  - exfalso. unfold exec_one, bind, sql_exec, guard in He.
    assert (Hz : sql_count (at_revision id rev) (p ++ r :: q)%list = 0).
    { pose proof (select_by_pk run_id (at_revision id rev) (p ++ r :: q)%list id) as Hsel.
      unfold sql_count. unfold sql_select in Hsel. rewrite Hsel.
      - rewrite <- Hid, by_pk_in; [|apply Hh|done]. unfold at_revision.
        apply Z.eqb_neq in Hne. by rewrite Hne, andb_false_r.
      - apply Hh.
      - intros r' Hr'. unfold at_revision in Hr'. bool_prop. done. }
    rewrite Hz in He. done.
Qed.
End Preserve.

Ltac keys := intros ?; repeat split; reflexivity.
