(* ===== verification/StoreSteps.v ===== *)
(** * The store as a transition system

    The abstract specification of the store: one rule per change the durable
    set can undergo, each with the condition under which it is allowed.  A
    table moves by changing one row along [row_step] or by inserting a fresh
    pending row.  StoreRefine shows that every operation is a sequence of
    such moves; what holds of the moves then holds of the operations. *)
From stdpp Require Import base list strings relations.
From Stdlib Require Import ZArith Lia.
From S2P Require Import Prelude GoStrings GoUrl GoJson Sha256 Contract Validation Decode LocalRun Sql StoreRow StoreOps StoreBatch StoreValid.


Local Open Scope Z_scope.
Local Open Scope string_scope.

(** ** The lifecycle of a run across all operations *)

Inductive lifecycle_step : phase -> phase -> Prop :=
| ls_same p : lifecycle_step p p
| ls_status p q : status_step p q -> lifecycle_step p q
| ls_restart p : p = Completed \/ p = Failed -> lifecycle_step p Pending
| ls_discard p : p = Completed \/ p = Failed \/ p = Expired -> lifecycle_step p Stopping
| ls_replaced : lifecycle_step Stopping Pending.

Section Steps.
Context {C : SnapshotCodec}.

(** A prepared input whose canonical snapshot decodes to the canonical form of
    the run it was made from. *)
Definition stable (c : preparedCreate) : Prop :=
  DecodeResolvedAgentRun (pc_snapshot c) = Some (canonical (pc_resolved c)) /\
  pc_digest c = sha256_hex (pc_snapshot c).

(** A row of a live run: valid, and not a tombstone. *)
Definition live (now : time) (r : row) (x : ResolvedAgentRun) (k : stamps) : Prop :=
  row_valid r x k /\ st_deleted k = None /\ st_created k <= now.

Inductive row_step : row -> row -> Prop :=
| rs_deadline now r x k :
    live now r x k -> State_terminal (state r) = false -> state r <> StateStopping ->
    (exists d, st_deadline k = Some d /\ d <= now) ->
    row_step r (deadline_update now r)
| rs_retention now r x k :
    live now r x k -> State_terminal (state r) = true ->
    (exists d, st_expires k = Some d /\ d <= now) ->
    row_step r (retention_update now r)
| rs_claim now r x k owner until :
    live now r x k -> State_terminal (state r) = false -> owner <> "" ->
    (forall u, default "" (reconcile_owner r) <> "" -> default "" (reconcile_owner r) <> owner ->
       st_until k = Some u -> u <= now) ->
    now < until ->
    row_step r (claim_update owner until now (revision r + 1) r)
| rs_cursor now r x k owner u cursor :
    live now r x k -> default "" (reconcile_owner r) = owner -> owner <> "" ->
    st_until k = Some u -> now < u -> validLifecycleCursor cursor = true ->
    row_step r (cursor_update cursor (revision r + 1) now r)
| rs_rollout now r x y k owner u reason cursor :
    live now r x k -> default "" (reconcile_owner r) = owner -> owner <> "" ->
    st_until k = Some u -> now < u -> state r = StatePreparing ->
    DecodeResolvedAgentRun (default "" (pending_snapshot r)) = Some y ->
    validReason reason = true -> validLifecycleCursor cursor = true ->
    row_step r (rollout_update (revision r + 1) now reason cursor r)
| rs_replacement now r x y k owner u :
    live now r x k -> default "" (reconcile_owner r) = owner -> owner <> "" ->
    st_until k = Some u -> now < u -> state r = StateStopping -> delete_requested r = 1 ->
    DecodeResolvedAgentRun (default "" (pending_snapshot r)) = Some y ->
    row_step r (replacement_update (revision r + 1) now r)
| rs_status now r x k owner u to reason target cursor :
    live now r x k -> default "" (reconcile_owner r) = owner -> owner <> "" ->
    st_until k = Some u -> now < u -> transitionAllowed (state r) to = true ->
    (state r = StateStopping -> to = terminal_target r) ->
    (default "" (pending_snapshot r) = "" \/ to = StateStopping) ->
    (if to =? StateStopping then State_terminal target = true else target = "") ->
    validReason reason = true -> validLifecycleCursor cursor = true ->
    row_step r (status_update to (revision r + 1) now (terminalExpiry now to x)
      (if State_terminal to && (delete_requested r =? 1)%Z then Some now else None)
      reason target cursor r)
| rs_abort now r x k :
    live now r x k -> state r = StatePreparing -> row_step r (abort_update now r)
| rs_terminal_delete now r x k :
    live now r x k -> State_terminal (state r) = true ->
    row_step r (terminal_delete_update (state r) now r)
| rs_stop now r x k deleting reason target :
    live now r x k -> State_terminal (state r) = false -> State_terminal target = true ->
    (state r = StateStopping -> target = terminal_target r) ->
    (delete_requested r = 1 -> deleting = true) -> validReason reason = true ->
    row_step r (stop_update deleting (revision r + 1) now reason target r)
| rs_rollout_request now r x k c :
    live now r x k -> state r = StateRunning \/ state r = StatePreparing -> stable c ->
    rr_RunID (pc_resolved c) = run_id r -> workstationUpdateCompatible x (canonical (pc_resolved c)) = true ->
    row_step r (rollout_request_update c now r)
| rs_rollback now r x k :
    live now r x k -> default "" (pending_snapshot r) <> "" -> delete_requested r = 0 ->
    row_step r (rollback_update now r)
| rs_restart now r x k :
    live now r x k -> state r = StateCompleted \/ state r = StateFailed ->
    row_step r (restart_update now r)
| rs_restart_with now r x k c :
    live now r x k -> state r = StateCompleted \/ state r = StateFailed -> stable c ->
    rr_RunID (pc_resolved c) = run_id r -> workstationUpdateCompatible x (canonical (pc_resolved c)) = true ->
    row_step r (restart_with_update c now r)
| rs_replace now r x k c :
    live now r x k -> delete_requested r = 0 -> stable c -> rr_RunID (pc_resolved c) = run_id r ->
    row_step r (replace_update c now r)
| rs_prune now r x k :
    live now r x k -> delete_requested r = 0 -> rr_TTL x = zero_TTL ->
    idempotency_key r = workstation_key (run_id r) ->
    row_step r (prune_update now r)
| rs_repair r x k d :
    row_record r = None -> State_terminal (state r) = true -> deleted_at r = None ->
    d = sha256_hex (snapshot r) -> row_valid (repair_update d d r) x k ->
    row_step r (repair_update d d r).

(** A fresh row: pending at revision 1, with a valid staged-free snapshot. *)
Definition fresh (r : row) : Prop :=
  exists c now, r = new_row c now (optionalDeadline now (ttl_ActiveSeconds (rr_TTL (pc_resolved c)))) /\
    stable c /\ validIdempotencyKey (ci_IdempotencyKey (pc_input c)) = true /\
    (ci_ActiveGroup (pc_input c) = "" \/ validIdempotencyKey (ci_ActiveGroup (pc_input c)) = true) /\
    validateTTL (rr_TTL (pc_resolved c)) = true.

(** A change of one existing row. *)
Inductive update_step : table -> table -> Prop :=
| us_row p r r' q : row_step r r' -> update_step (p ++ r :: q)%list (p ++ r' :: q)%list.

Inductive table_step : table -> table -> Prop :=
| ts_row p r r' q : row_step r r' -> table_step (p ++ r :: q)%list (p ++ r' :: q)%list
| ts_insert r t t' : fresh r -> sql_insert run_id idempotency_key r t = Some t' -> table_step t t'.

(** ** What one row step does *)

Lemma row_step_keys r r' :
  row_step r r' ->
  run_id r' = run_id r /\ idempotency_key r' = idempotency_key r /\ created_at r' = created_at r /\
  active_group r' = active_group r /\ deadline_at r' = deadline_at r.
Proof. intros H. destruct H; done. Qed.

(** A tombstone never moves. *)
Lemma row_step_live r r' : row_step r r' -> deleted_at r = None.
Proof.
  intros H. destruct H;
    try match goal with Hl : live _ _ _ _ |- _ =>
      destruct Hl as (V & Hd & _); destruct (rv_stamps _ _ _ V) as (_ & _ & _ & _ & _ & Hs);
      rewrite Hs, Hd; reflexivity end.
  done.
Qed.

(** Optimistic concurrency: every change bumps the revision by one, except the
    digest repair of a malformed terminal row. *)
Lemma row_step_revision r r' :
  row_step r r' -> revision r' = revision r + 1 \/ (row_record r = None /\ revision r' = revision r).
Proof. intros H. destruct H; auto. Qed.

Lemma transition_lifecycle from to p q :
  transitionAllowed from to = true -> phase_of from = Some p -> phase_of to = Some q -> status_step p q.
Proof.
  intros Ht Hp Hq. apply phase_of_valid in Hp as ->. apply phase_of_valid in Hq as ->.
  by apply transitionAllowed_spec.
Qed.

Lemma stop_lifecycle p : lifecycle_step p Stopping.
Proof.
  destruct p; try (apply ls_status, step_stop; auto; fail); try apply ls_same; apply ls_discard; auto.
Qed.

Lemma finished_lifecycle s p :
  s = StateCompleted \/ s = StateFailed -> phase_of s = Some p -> lifecycle_step p Pending.
Proof. intros [-> | ->] [= <-]; apply ls_restart; auto. Qed.

(** A run moves along the lifecycle, whatever the operation. *)
Lemma row_step_lifecycle r r' p q :
  row_step r r' -> phase_of (state r) = Some p -> phase_of (state r') = Some q -> lifecycle_step p q.
Proof.
  intros H Hp Hq. destruct H; cbn in Hq;
    try (injection Hq as <-; apply stop_lifecycle);
    try (rewrite Hp in Hq; injection Hq as <-; apply ls_same);
    try (injection Hq as <-; by eapply finished_lifecycle).
  - match goal with E : state r = _ |- _ => rewrite E in Hp end. injection Hp as <-. injection Hq as <-.
    apply ls_status, step_ready.
  - match goal with E : state r = _ |- _ => rewrite E in Hp end. injection Hp as <-. injection Hq as <-.
    apply ls_replaced.
  - apply ls_status. by eapply transition_lifecycle.
  - match goal with E : state r = _ |- _ => rewrite E in Hp end. injection Hp as <-. injection Hq as <-.
    apply ls_status, step_ready.
  - match goal with E : state r = _ \/ _ |- _ => destruct E as [E|E]; rewrite E in Hp end;
      injection Hp as <-; injection Hq as <-; [apply ls_status, step_recover | apply ls_same].
  - match goal with Hl : live _ _ _ _ |- _ => destruct Hl as (V & _) end.
    pose proof (rv_pending _ _ _ V) as Hpd.
    match goal with E : default _ _ <> _ |- _ => apply String.eqb_neq in E; rewrite E in Hpd end.
    destruct Hpd as (y & _ & _ & _ & [(_ & Hbad & _)|(_ & Hs)]); [lia|].
    rewrite Hs in Hp. injection Hp as <-. injection Hq as <-. apply ls_same.
Qed.

(** ** Steps keep rows and tables healthy *)

Lemma stable_canonical c : stable c -> decodes_canonical (pc_snapshot c).
Proof. intros [Hd _] x Hx. rewrite Hd in Hx. injection Hx as <-. apply canonical_idem. Qed.

Lemma row_step_ok r r' : row_step r r' -> row_ok r -> row_ok r'.
Proof.
  intros H O.
  destruct H;
  try (match goal with Hl : live _ _ _ _ |- _ => destruct Hl as (V & Hdel & Hnow) end;
       destruct (row_ok_valid _ _ _ O V) as [Hcan Hret]; pose proof (rv_revision _ _ _ V) as Hrev;
       pose proof (rv_run _ _ _ V) as Hrun).
  - (* deadline *)
    eapply row_valid_ok; [by apply deadline_update_valid|done|apply decodes_canonical_empty|done].
  - (* retention *)
    eapply row_valid_ok; [by apply retention_update_valid|done|apply (ok_pending _ O)|done].
  - (* claim *)
    eapply row_valid_ok; [apply claim_update_valid; try done; lia|done|apply (ok_pending _ O)|done].
  - (* cursor *)
    eapply row_valid_ok; [apply cursor_update_valid; try done; lia|done|apply (ok_pending _ O)|done].
  - (* rollout *)
    match goal with E : state r = _ |- _ => assert (Ht : State_terminal (state r) = false) by (by rewrite E) end.
    eapply row_valid_ok; [eapply rollout_update_valid; eauto; clear -Hrev; lia| |apply decodes_canonical_empty|].
    + by apply (ok_pending _ O).
    + intros _. by apply (valid_unexpired _ _ _ V).
  - (* replacement *)
    match goal with E : state r = _ |- _ => assert (Ht : State_terminal (state r) = false) by (by rewrite E) end.
    eapply row_valid_ok; [eapply replacement_update_valid; eauto; clear -Hrev; lia| |apply decodes_canonical_empty|done].
    by apply (ok_pending _ O).
  - (* status *)
    eapply row_valid_ok; [eapply status_update_valid; eauto; clear -Hrev; lia|done| |].
    + cbn. destruct (to =? StateStopping); [apply decodes_canonical_empty|apply (ok_pending _ O)].
    + apply terminalExpiry_zero.
  - (* abort *)
    eapply row_valid_ok; [by apply abort_update_valid|done|apply decodes_canonical_empty|done].
  - (* terminal delete *)
    eapply row_valid_ok; [by apply terminal_delete_update_valid|done|apply (ok_pending _ O)|done].
  - (* stop *)
    eapply row_valid_ok; [apply stop_update_valid; try done; lia|done|apply decodes_canonical_empty|done].
  - (* rollout request *)
    match goal with E : stable c |- _ => pose proof (stable_canonical _ E) as Hc; destruct E as [Hd1 Hd2] end.
    eapply row_valid_ok; [eapply rollout_request_valid; eauto; cbn; congruence|done|done|done].
  - (* rollback *)
    eapply row_valid_ok; [by apply rollback_update_valid|done|apply (ok_snapshot _ O)|done].
  - (* restart *)
    eapply row_valid_ok; [eapply restart_update_valid; eauto|done|apply (ok_pending _ O)|done].
    match goal with E : _ \/ _ |- _ => destruct E as [E|E]; by rewrite E end.
  - (* restart with *)
    match goal with E : stable c |- _ => pose proof (stable_canonical _ E) as Hc; destruct E as [Hd1 Hd2] end.
    eapply row_valid_ok; [eapply restart_with_update_valid; eauto|apply canonical_idem|apply decodes_canonical_empty|done].
    + match goal with E : _ \/ _ |- _ => destruct E as [E|E]; by rewrite E end.
    + cbn. congruence.
  - (* replace *)
    match goal with E : stable c |- _ => pose proof (stable_canonical _ E) as Hc; destruct E as [Hd1 Hd2] end.
    eapply row_valid_ok; [by eapply replace_update_valid; eauto; cbn; congruence|done|done|done].
  - (* prune *)
    eapply row_valid_ok; [eapply prune_update_valid; eauto|done|apply decodes_canonical_empty|cbn; auto].
  - (* repair *)
    match goal with V : row_valid _ x k |- _ => rename V into V0 end.
    eapply row_valid_ok; [exact V0| |apply (ok_pending _ O)|].
    + apply (ok_snapshot _ O), (rv_decode _ _ _ V0).
    + intros Hz. pose proof (ok_retention _ O x (rv_decode _ _ _ V0) Hz) as He.
      destruct (rv_stamps _ _ _ V0) as (_ & _ & _ & Hs & _). cbn in Hs. rewrite Hs in He. by destruct (st_expires k).
Qed.

Lemma fresh_ok r : fresh r -> row_ok r.
Proof.
  intros (c & now & -> & Hs & Hkey & Hgroup & Httl). pose proof (stable_canonical _ Hs) as Hc.
  destruct Hs as [Hd1 Hd2].
  eapply row_valid_ok; [by apply (new_row_valid c now (canonical (pc_resolved c)))|apply canonical_idem| |done].
  apply decodes_canonical_empty.
Qed.

Lemma table_step_healthy t t' : table_step t t' -> healthy t -> healthy t'.
Proof.
  intros H Hh. destruct H as [p r r' q Hr|r t t' Hf Hi].
  - destruct (row_step_keys _ _ Hr) as (K1 & K2 & K3 & _).
    destruct Hh as (Hs & Hu & Hok). split; [|split].
    + eapply pk_sorted_ids; [|exact Hs]. rewrite !map_app. simpl. by rewrite K1.
    + eapply uk_unique_keys; [|exact Hu]. rewrite !map_app. simpl. by rewrite K2.
    + intros y Hin. apply in_app_iff in Hin as [Hin|[<-|Hin]].
      * apply Hok, in_app_iff. auto.
      * apply (row_step_ok _ _ Hr), Hok, in_app_iff. right. by left.
      * apply Hok, in_app_iff. right. by right.
  - destruct Hh as (Hs & Hu & Hok). split; [|split].
    + by eapply sql_insert_sorted.
    + by eapply sql_insert_unique.
    + intros y Hin. apply sql_insert_some in Hi as (-> & _). apply (insert_sorted_in run_id idempotency_key) in Hin as [->|Hin].
      * by apply fresh_ok.
      * auto.
Qed.

Lemma steps_healthy t t' : rtc table_step t t' -> healthy t -> healthy t'.
Proof. induction 1; eauto using table_step_healthy. Qed.

(** Every row of a table survives the steps and moves only by row steps. *)
Lemma table_step_row t t' r :
  table_step t t' -> In r t -> exists r', In r' t' /\ rtc row_step r r'.
Proof.
  intros H Hin. destruct H as [p y y' q Hr|y t t' Hf Hi].
  - apply in_app_iff in Hin as [Hin|[->|Hin]].
    + exists r. split; [apply in_app_iff; auto|done].
    + exists y'. split; [apply in_app_iff; right; by left|by apply rtc_once].
    + exists r. split; [apply in_app_iff; right; by right|done].
  - exists r. split; [|done]. apply sql_insert_some in Hi as (-> & _). apply (insert_sorted_in run_id idempotency_key). auto.
Qed.

Lemma steps_row t t' r :
  rtc table_step t t' -> In r t -> exists r', In r' t' /\ rtc row_step r r'.
Proof.
  intros H. revert r. induction H as [t|t t1 t2 H1 _ IH]; intros r Hin; [exists r; split; [done|apply rtc_refl]|].
  destruct (table_step_row _ _ _ H1 Hin) as (r1 & Hin1 & Hr1).
  destruct (IH _ Hin1) as (r2 & Hin2 & Hr2). exists r2. split; [done|]. by etransitivity.
Qed.

(** Updates are steps, and keep the rows' identities and creation times. *)
Lemma updates_steps t t' : rtc update_step t t' -> rtc table_step t t'.
Proof.
  induction 1 as [|t t1 t2 H1 _ IH]; [apply rtc_refl|]. eapply rtc_l; [|exact IH].
  destruct H1. by apply ts_row.
Qed.

Lemma updates_ids t t' : rtc update_step t t' -> map run_id t' = map run_id t /\ map created_at t' = map created_at t.
Proof.
  induction 1 as [|t t1 t2 H1 _ [IH1 IH2]]; [done|]. destruct H1 as [p r r' q Hr].
  destruct (row_step_keys _ _ Hr) as (K1 & _ & K3 & _). rewrite IH1, IH2, !map_app. cbn. by rewrite K1, K3.
Qed.

Lemma updates_clock now t t' : rtc update_step t t' -> clock_ok now t -> clock_ok now t'.
Proof.
  intros Hu Hc r c Hin Hcr. destruct (updates_ids _ _ Hu) as [_ Hm].
  assert (Hx : In (RFC3339 c) (map created_at t')) by (rewrite <- Hcr; by apply in_map).
  rewrite Hm in Hx. apply in_map_iff in Hx as (r0 & E & Hr0). by eapply Hc.
Qed.

Lemma row_steps_keys r r' : rtc row_step r r' -> run_id r' = run_id r /\ idempotency_key r' = idempotency_key r.
Proof.
  induction 1 as [|r r1 r2 H1 _ [IH1 IH2]]; [done|].
  destruct (row_step_keys _ _ H1) as (K1 & K2 & _). split; congruence.
Qed.

Lemma row_steps_tombstone r r' : rtc row_step r r' -> is_Some (deleted_at r) -> r' = r.
Proof.
  intros H Hd. destruct H as [|r r1 r2 H1 _]; [done|]. apply row_step_live in H1.
  rewrite H1 in Hd. by destruct Hd.
Qed.

Lemma row_steps_revision r r' : rtc row_step r r' -> revision r <= revision r'.
Proof.
  induction 1 as [|r r1 r2 H1 _ IH]; [lia|]. destruct (row_step_revision _ _ H1) as [?|[_ ?]]; lia.
Qed.
End Steps.
