(* ===== verification/StoreRefine.v ===== *)
(** * Single-run operations refine the transition system

    Each method of the store that works on one run, from the sweep it starts
    with to its guarded statement, takes a healthy table along the steps of
    StoreSteps. *)
From stdpp Require Import base list strings relations.
From Stdlib Require Import ZArith Lia.
From S2P Require Import Prelude GoStrings GoUrl GoJson Sha256 Contract Validation Decode LocalRun Sql StoreRow StoreOps StoreBatch StoreValid StoreSteps.


Local Open Scope Z_scope.
Local Open Scope string_scope.

Section Refine.
Context {C : SnapshotCodec}.

(** ** Updates as sequences of row steps *)

Lemma updates_map f (p t : table) :
  (forall r, In r t -> f r = r \/ row_step r (f r)) ->
  rtc update_step (p ++ t)%list (p ++ map f t)%list.
Proof.
  revert p. induction t as [|r t IH]; intros p Hf; [done|]. cbn [map].
  assert (Hrest : forall r0, rtc update_step (p ++ r0 :: t)%list (p ++ r0 :: map f t)%list).
  { intros r0. specialize (IH (p ++ [r0])%list). rewrite <- !app_assoc in IH. apply IH.
    intros y Hy. apply Hf. by right. }
  destruct (Hf r (or_introl eq_refl)) as [->|Hs]; [apply Hrest|].
  eapply rtc_l; [by apply us_row|]. apply Hrest.
Qed.

Lemma updates_update w f (t : table) :
  (forall r, In r t -> w r = true -> row_step r (f r)) -> rtc update_step t (sql_update w f t).
Proof.
  intros Hf. unfold sql_update. apply (updates_map _ []). intros r Hr.
  destruct (w r) eqn:E; [right|left]; auto.
Qed.

Lemma steps_map f (t : table) :
  (forall r, In r t -> f r = r \/ row_step r (f r)) -> rtc table_step t (map f t).
Proof. intros Hf. by apply updates_steps, (updates_map f []). Qed.

Lemma steps_update w f (t : table) :
  (forall r, In r t -> w r = true -> row_step r (f r)) -> rtc table_step t (sql_update w f t).
Proof. intros Hf. by apply updates_steps, updates_update. Qed.

(** [moves m t]: running [m] on [t] goes along the transition system,
    whether or not it succeeds. *)
Definition moves {A} (m : DB A) (t : table) : Prop := rtc update_step t (snd (m t)).

Lemma moves_ret {A} (a : A) t : moves (ret a) t.
Proof. apply rtc_refl. Qed.
Lemma moves_fail {A} e t : moves (A := A) (fail e) t.
Proof. apply rtc_refl. Qed.
Lemma moves_lift {A} (r : result error A) t : moves (lift r) t.
Proof. apply rtc_refl. Qed.

Lemma moves_bind {A B} (m : DB A) (k : A -> DB B) t :
  moves m t -> (forall a t', m t = (Ok a, t') -> moves (k a) t') -> moves (bind m k) t.
Proof.
  unfold moves, bind. intros Hm Hk. destruct (m t) as [[a|e] t'] eqn:E; [|done].
  etransitivity; [exact Hm|]. by apply Hk.
Qed.

Lemma moves_guard {A} b e (k : DB A) t : (b = false -> moves k t) -> moves (bind (guard b e) (fun _ => k)) t.
Proof. unfold moves, bind, guard. destruct b; cbn; intros Hk; [apply rtc_refl|auto]. Qed.

Lemma moves_transaction {A} (m : DB A) t : moves m t -> moves (transaction m) t.
Proof. unfold moves, transaction. destruct (m t) as [[a|e] t']; [done|]. intros _. apply rtc_refl. Qed.

Lemma moves_load {A} id (k : storedRun -> DB A) t :
  (forall r x k0, live_row t id r x k0 -> moves (k (record_of r k0 (row_view r x k0))) t) ->
  moves (bind (loadForUpdate id) k) t.
Proof.
  intros Hk. unfold moves, bind. destruct (loadForUpdate id t) as [[s|e] t'] eqn:E.
  - apply loadForUpdate_ok in E as (-> & r & x & k0 & Hl & ->). by apply Hk.
  - apply loadForUpdate_err in E as ->. apply rtc_refl.
Qed.

(** A statement guarded by identifier and revision touches only the row that
    was loaded. *)
Lemma moves_exec_one w f e t :
  (forall r, In r t -> w r = true -> row_step r (f r)) -> moves (exec_one w f e) t.
Proof.
  intros Hf. unfold moves, exec_one, bind, sql_exec, guard.
  destruct (negb _); cbn; by apply updates_update.
Qed.

Lemma moves_exec t id r x k rev f e :
  healthy t -> live_row t id r x k -> (revision r = rev -> row_step r (f r)) ->
  moves (exec_one (at_revision id rev) f e) t.
Proof.
  intros Hh (Hin & Hid & _) Hs. apply moves_exec_one.
  intros r' Hin' Hw. unfold at_revision in Hw. bool_prop.
  assert (r' = r) as -> by (eapply (pk_sorted_inj run_id); [apply Hh|done|done|congruence]).
  auto.
Qed.

(** ** Sweep *)

Lemma live_intro now t r x k :
  clock_ok now t -> In r t -> row_valid r x k -> not_deleted r = true -> live now r x k.
Proof.
  intros Hc Hin V Hn. split; [done|]. split.
  - by eapply not_deleted_stamps; [apply (rv_stamps _ _ _ V)|].
  - by eapply clock_valid.
Qed.

Lemma live_row_live now t id r x k : clock_ok now t -> live_row t id r x k -> live now r x k.
Proof. intros Hc (Hin & _ & V & Hd). split; [done|]. split; [done|]. by eapply clock_valid. Qed.

Lemma sweep_row_step now t r : clock_ok now t -> In r t -> sweep_row now r = r \/ row_step r (sweep_row now r).
Proof.
  intros Hc Hin. unfold sweep_row. destruct (not_deleted r) eqn:Hn; [|auto].
  destruct (row_record r) as [s|] eqn:Es; [|auto].
  apply row_record_some in Es as (x & k & V & ->). cbn [record_of sr_view].
  pose proof (live_intro _ _ _ _ _ Hc Hin V Hn) as Hl.
  destruct (deadline_due now _) eqn:Ed.
  { right. unfold deadline_due, State_active in Ed. cbn in Ed. bool_prop.
    destruct (st_deadline k) as [d|] eqn:Edl; cbn in *; [|done]. unfold After in *. bool_prop.
    eapply rs_deadline; eauto. }
  destruct (retention_due now _) eqn:Er; [|auto]. right. unfold retention_due in Er. cbn in Er. bool_prop.
  destruct (st_expires k) as [d|] eqn:Edl; cbn in *; [|done]. unfold After in *. bool_prop.
  eapply rs_retention; eauto.
Qed.

Lemma moves_sweep now t : healthy t -> clock_ok now t -> moves (Sweep now) t.
Proof.
  intros Hh Hc. unfold moves. rewrite Sweep_healthy by done. cbn. apply (updates_map _ []).
  intros r Hr. by eapply sweep_row_step.
Qed.

(** Every operation that starts with a sweep continues from a healthy table
    on which the clock is still good. *)
Lemma moves_after_sweep {A} t0 now (k : DB A) t :
  healthy t -> clock_ok t0 t -> clock_ok now t ->
  (forall t', healthy t' -> clock_ok now t' -> moves k t') ->
  moves (bind (Sweep t0) (fun _ => k)) t.
Proof.
  intros Hh Hc0 Hc Hk. apply moves_bind; [by apply moves_sweep|].
  intros n t' E. rewrite Sweep_healthy in E by done. injection E as _ <-.
  apply Hk; [by apply sweep_preserves|]. apply clock_ok_map; [apply sweep_keeps|done].
Qed.

(** ** Claim *)

Lemma moves_Claim st t0 now i t :
  healthy t -> clock_ok t0 t -> clock_ok now t -> moves (Claim st t0 now i) t.
Proof.
  intros Hh Hc0 Hc. apply moves_guard. intros Hg. bool_prop.
  apply (moves_after_sweep t0 now); [done..|]. clear t Hh Hc0 Hc. intros t Hh Hc.
  apply moves_transaction, moves_load. intros r x k Hl. cbn zeta.
  apply moves_guard. intros Hg2. bool_prop. cbn in *. pose proof (live_row_live _ _ _ _ _ _ Hc Hl) as Hlive.
  assert (Hown : cl_Owner i <> "").
  { intros Hz. match goal with E : validOwner _ = true |- _ => rewrite Hz in E; discriminate E end. }
  apply moves_bind.
  { destruct (_ && _); [|apply moves_ret]. destruct (st_until k); [apply moves_ret|apply moves_fail]. }
  intros held t' Eheld. 
  assert (Hheld : t' = t /\ (held = false -> forall u, default "" (reconcile_owner r) <> "" ->
     default "" (reconcile_owner r) <> cl_Owner i -> st_until k = Some u -> u <= now)).
  { destruct (negb (default "" (reconcile_owner r) =? "") && _) eqn:Eo; cbn in Eo.
    - destruct (st_until k) as [u|]; [|done]. injection Eheld as <- <-. split; [done|].
      intros Hf u' _ _ [= <-]. unfold After in Hf. bool_prop. done.
    - injection Eheld as <- <-. split; [done|]. intros _ u Ha Hb _.
      apply String.eqb_neq in Ha, Hb. rewrite Ha, Hb in Eo. done. }
  destruct Hheld as [-> Hheld]. apply moves_guard. intros ->.
  apply moves_bind; [|intros; apply moves_ret].
  eapply moves_exec; [done|exact Hl|]. intros Hrev. eapply rs_claim; [exact Hlive|done|done|auto|].
  unfold Second in *. lia.
Qed.

(** ** Status updates *)

(** What the ownership guard of a status update leaves: the caller holds the
    row's unexpired lease. *)
Definition holds_lease (now : time) (owner : string) (r : row) (k : stamps) : Prop :=
  default "" (reconcile_owner r) = owner /\ owner <> "" /\ exists u, st_until k = Some u /\ now < u.

Lemma lease_guard now owner r x k :
  row_valid r x k -> default "" (reconcile_owner r) = owner ->
  opt_and (fun u => After u now) (st_until k) = true -> holds_lease now owner r k.
Proof.
  intros V Ho Hu. destruct (st_until k) as [u|] eqn:E; [|done]. cbn in Hu. unfold After in Hu. bool_prop.
  split_and!; [done| |eauto]. intros ->. rewrite (proj1 (rv_lease _ _ _ V)) in E; done.
Qed.

Lemma status_input_good i :
  status_input_bad i = false ->
  validReason (si_Reason i) = true /\ (forall c, si_LifecycleCursor i = Some c -> validLifecycleCursor c = true) /\
  (if si_State i =? StateStopping then State_terminal (si_TerminalTarget i) = true else si_TerminalTarget i = "").
Proof.
  unfold status_input_bad. intros Hb. rewrite !orb_false_iff in Hb.
  destruct Hb as (((((((_ & _) & _) & _) & Hr) & Ht) & Hn) & Hc). bool_prop.
  split; [done|]. split.
  - intros c Ec. rewrite Ec in Hc. cbn in Hc. by bool_prop.
  - destruct (si_State i =? StateStopping); cbn in *; by bool_prop.
Qed.

Lemma status_cursor_good i r x k :
  row_valid r x k -> (forall c, si_LifecycleCursor i = Some c -> validLifecycleCursor c = true) ->
  validLifecycleCursor (default (lifecycle_cursor r) (si_LifecycleCursor i)) = true.
Proof. intros V Hc. destruct (si_LifecycleCursor i) as [c|]; cbn; [auto|apply V]. Qed.

(** A staged snapshot of a stopping run is an immutable replacement. *)
Lemma staged_stopping r x k :
  row_valid r x k -> default "" (pending_snapshot r) <> "" -> state r = StateStopping ->
  delete_requested r = 1 /\ exists y, DecodeResolvedAgentRun (default "" (pending_snapshot r)) = Some y.
Proof.
  intros V Hp Hs. pose proof (rv_pending _ _ _ V) as Hq. apply String.eqb_neq in Hp. rewrite Hp in Hq.
  destruct Hq as (y & Hy & _ & _ & [(_ & Hd & _)|(_ & Hpr)]); [eauto|]. rewrite Hs in Hpr. discriminate Hpr.
Qed.

Lemma staged_reason r x k :
  row_valid r x k -> default "" (pending_snapshot r) <> "" -> state r = StateStopping ->
  last_reason r = "immutable-replacement-requested".
Proof.
  intros V Hp Hs. pose proof (rv_pending _ _ _ V) as Hq. apply String.eqb_neq in Hp. rewrite Hp in Hq.
  destruct Hq as (y & Hy & _ & _ & [(_ & _ & Hr)|(_ & Hpr)]); [done|]. rewrite Hs in Hpr. discriminate Hpr.
Qed.

Lemma staged_preparing r x k :
  row_valid r x k -> default "" (pending_snapshot r) <> "" ->
  state r = StatePreparing \/ state r = StateStopping.
Proof.
  intros V Hp. pose proof (rv_pending _ _ _ V) as Hq. apply String.eqb_neq in Hp. rewrite Hp in Hq.
  destruct Hq as (y & Hy & _ & _ & [(? & _)|(_ & ?)]); auto.
Qed.

Lemma staged_decodes r x k :
  row_valid r x k -> default "" (pending_snapshot r) <> "" ->
  exists y, DecodeResolvedAgentRun (default "" (pending_snapshot r)) = Some y.
Proof.
  intros V Hp. pose proof (rv_pending _ _ _ V) as Hq. apply String.eqb_neq in Hp. rewrite Hp in Hq.
  destruct Hq as (y & Hy & _). eauto.
Qed.

Lemma preparing_targets to :
  transitionAllowed StatePreparing to = true -> to = StateRunning \/ to = StateStopping.
Proof.
  unfold transitionAllowed. cbn. rewrite orb_true_iff, !String.eqb_eq. tauto.
Qed.

(** The plain transition writes nothing a rollout or replacement would lose. *)
Lemma plain_transition_unstaged i r x k :
  row_valid r x k -> transitionAllowed (state r) (si_State i) = true ->
  (state r =? StatePreparing) && (si_State i =? StateRunning)
    && negb (default "" (pending_snapshot r) =? "") = false ->
  (state r =? StateStopping) && State_terminal (si_State i)
    && negb (default "" (pending_snapshot r) =? "")
    && (last_reason r =? "immutable-replacement-requested") = false ->
  default "" (pending_snapshot r) = "" \/ si_State i = StateStopping.
Proof.
  intros V Ht H1 H2. destruct (default "" (pending_snapshot r) =? "") eqn:E; [left; by bool_prop|].
  cbn in H1, H2. rewrite !andb_true_r in *. bool_prop. 
  destruct (staged_preparing _ _ _ V E) as [Hs|Hs].
  - rewrite Hs in *. destruct (preparing_targets _ Ht) as [Hr|Hr]; [|auto]. rewrite Hr in H1. discriminate H1.
  - pose proof (staged_reason _ _ _ V E Hs) as Hr. destruct (transition_cases _ _ Ht) as (_ & _ & Hterm & _).
    rewrite Hr, (Hterm Hs), Hs in H2. discriminate H2.
Qed.

Lemma moves_UpdateStatus t0 now i t :
  healthy t -> clock_ok t0 t -> clock_ok now t -> moves (UpdateStatus t0 now i) t.
Proof.
  intros Hh Hc0 Hc. apply moves_guard. intros Hg.
  destruct (status_input_good _ Hg) as (Hreason & Hcursor & Htarget).
  apply (moves_after_sweep t0 now); [done..|]. clear t Hh Hc0 Hc. intros t Hh Hc.
  apply moves_bind; [|intros; apply moves_lift]. apply moves_transaction.
  unfold update_status_tx. apply moves_load. intros r x k Hl. cbn zeta.
  apply moves_guard. intros Hg2. cbn in Hg2. bool_prop.
  pose proof (live_row_live _ _ _ _ _ _ Hc Hl) as Hlive. pose proof Hl as (_ & _ & V & _).
  destruct (lease_guard now (si_Owner i) r x k) as (Ho & Hne & u & Hu & Hnow); [done..|].
  pose proof (status_cursor_good i _ _ _ V Hcursor) as Hcur.
  cbn [record_of sr_view sr_lifecycleCursor sr_pendingSnapshot sr_pendingDigest sr_snapshot row_view
       populateRunMetadata bare_view v_State v_LastReason v_TerminalTarget v_Revision v_DeleteRequested].
  destruct (si_State i =? state r) eqn:Esame.
  { destruct (match si_LifecycleCursor i with Some _ => _ | None => _ end); [apply moves_ret|].
    apply moves_guard. intros _. apply moves_bind; [|intros; apply moves_ret].
    eapply moves_exec; [done|exact Hl|]. intros _. eapply rs_cursor; eauto. }
  destruct (transitionAllowed (state r) (si_State i)) eqn:Etr; cbn [negb]; [|apply moves_fail].
  destruct ((state r =? StatePreparing) && _ && _) eqn:Eroll.
  { bool_prop. destruct (staged_decodes _ _ _ V) as [y Hy]; [done|].
    apply moves_bind; [|intros; rewrite Hy; apply moves_ret].
    eapply moves_exec; [done|exact Hl|]. intros _. eapply rs_rollout; eauto. }
  destruct ((state r =? StateStopping) && negb (si_State i =? terminal_target r)) eqn:Etgt; [apply moves_fail|].
  destruct ((state r =? StateStopping) && _ && _ && _) eqn:Erep.
  { bool_prop. destruct (staged_stopping _ _ _ V) as (Hd & y & Hy); [done|done|].
    apply moves_bind; [|intros; rewrite Hy; apply moves_ret].
    eapply moves_exec; [done|exact Hl|]. intros _. eapply rs_replacement; eauto. }
  rewrite (rv_decode _ _ _ V). apply moves_bind; [|intros; apply moves_ret].
  eapply moves_exec; [done|exact Hl|]. intros _.
  pose proof (plain_transition_unstaged _ _ _ _ V Etr Eroll Erep) as Hun.
  eapply rs_status; eauto.
  - intros Hs. rewrite Hs in Etgt. cbn in Etgt. by bool_prop.
  - destruct (si_State i =? StateStopping); done.
Qed.

(** ** Abandoning a rollout

    The statement does not look at the state; the reconciler issues it only
    for a preparing run. *)
Definition aborts_preparing (runID owner : string) (rev : Z) (t : table) : Prop :=
  forall r, In r t -> abort_where runID owner rev r = true -> state r = StatePreparing.

Lemma row_ok_active r :
  row_ok r -> State_terminal (state r) = false -> exists x k, row_valid r x k /\ st_deleted k = None.
Proof.
  intros O Ht. destruct (ok_valid _ O) as [[s Hs]|Hs]; [|congruence].
  apply row_record_some in Hs as (x & k & V & _). exists x, k. split; [done|]. by eapply valid_live.
Qed.

Lemma moves_abort now runID owner rev t :
  healthy t -> clock_ok now t -> aborts_preparing runID owner rev t ->
  moves (abortPendingConfiguration now runID owner rev) t.
Proof.
  intros Hh Hc Hp. apply moves_exec_one. intros r Hin Hw. pose proof (Hp r Hin Hw) as Hs.
  destruct (row_ok_active r) as (x & k & V & Hd); [by apply Hh|by rewrite Hs|].
  eapply rs_abort; [|done]. split; [done|]. split; [done|]. by eapply clock_valid.
Qed.

(** ** Stop requests *)

Lemma moves_requestStop t0 now id del t :
  healthy t -> clock_ok t0 t -> clock_ok now t -> moves (requestStop t0 now id del) t.
Proof.
  intros Hh Hc0 Hc. apply moves_guard. intros _.
  apply (moves_after_sweep t0 now); [done..|]. clear t Hh Hc0 Hc. intros t Hh Hc.
  apply moves_transaction. unfold request_stop_tx. apply moves_load. intros r x k Hl. cbn zeta.
  pose proof (live_row_live _ _ _ _ _ _ Hc Hl) as Hlive. pose proof Hl as (_ & _ & V & _).
  cbn [record_of sr_view row_view populateRunMetadata bare_view v_State v_TerminalTarget v_Revision v_DeleteRequested].
  destruct (State_terminal (state r)) eqn:Et.
  { destruct del; cbn [negb]; [|apply moves_ret]. apply moves_bind; [|intros; apply moves_ret].
    eapply moves_exec; [done|exact Hl|]. intros _. by eapply rs_terminal_delete. }
  destruct ((state r =? StateStopping) && _) eqn:Eidle; [apply moves_ret|].
  apply moves_bind; [|intros; apply moves_ret].
  eapply moves_exec; [done|exact Hl|]. intros _. eapply rs_stop; [exact Hlive|done| | | |].
  - destruct (state r =? StateStopping) eqn:Es; [|by destruct del].
    pose proof (rv_target _ _ _ V) as Htg. by rewrite Es in Htg.
  - intros Hs. rewrite Hs. done.
  - intros Hd. rewrite Hd. by destruct del.
  - by destruct del.
Qed.

Lemma moves_Delete t0 now id t :
  healthy t -> clock_ok t0 t -> clock_ok now t -> moves (Delete t0 now id) t.
Proof.
  intros Hh Hc0 Hc. pose proof (moves_requestStop t0 now id true t Hh Hc0 Hc) as Hm.
  unfold moves, Delete in *. destruct (requestStop t0 now id true t) as [[run|e] t']; [done|]. cbn in Hm.
  destruct e; try done. destruct (by_pk run_id id t') as [r|]; [|done].
  destruct (s ← scanStoredRun r; validateStoredRun s); [|done]. by destruct (bool_decide _).
Qed.

(** ** Reads *)

Lemma moves_Get t0 id t : healthy t -> clock_ok t0 t -> moves (Get t0 id) t.
Proof.
  intros Hh Hc. apply moves_guard. intros _. apply (moves_after_sweep t0 t0); [done..|].
  intros t' _ _. apply moves_load. intros. apply moves_ret.
Qed.

Lemma moves_list t0 limit after active t : healthy t -> clock_ok t0 t -> moves (store_list t0 limit after active) t.
Proof.
  intros Hh Hc. apply moves_guard. intros _. apply (moves_after_sweep t0 t0); [done..|].
  intros t' _ _. unfold moves, bind, get, fail, ret. repeat break_match; apply rtc_refl.
Qed.
End Refine.
