(* ===== verification/StoreViews.v ===== *)
(** * Listing

    [Store.list] reads the table in pages until it has one view more than the
    limit or a short page.  It terminates, and what it returns is the first
    [limit] readable runs after the cursor. *)
From stdpp Require Import base list strings relations.
From Stdlib Require Import ZArith Lia.
From S2P Require Import Prelude GoStrings GoUrl GoJson Sha256 Contract Validation Decode LocalRun Sql StoreRow StoreOps StoreBatch StoreValid StoreSteps StoreRefine.


Local Open Scope Z_scope.
Local Open Scope string_scope.

Section Listing.
Context {C : SnapshotCodec}.

(** The view a readable row shows. *)
Definition row_run (r : row) : option Run := sr_view <$> row_record r.

(** The runs a listing that starts after [after] has to show. *)
Definition listing (t : table) (after : string) (activeOnly : bool) : list Run :=
  omap row_run (sql_select (list_where after activeOnly) t).

Definition last_id (rows : list row) (cursor : string) : string :=
  match last rows with Some r => run_id r | None => cursor end.

(** ** One page *)

Lemma last_id_cons r rows cursor : last_id (r :: rows) cursor = last_id rows (run_id r).
Proof. unfold last_id. rewrite last_cons. by destruct (last rows). Qed.

Lemma list_rows_all limit rows acc cursor raw acc' cursor' raw' :
  list_rows limit rows acc cursor raw = Ok (acc', cursor', raw') ->
  (length acc' <= limit)%nat -> raw' = (raw + length rows)%nat /\ cursor' = last_id rows cursor.
Proof.
  revert acc cursor raw. induction rows as [|r rows IH]; intros acc cursor raw; cbn [list_rows].
  { intros [= <- <- <-] _. cbn. split; [lia|done]. }
  rewrite last_id_cons. destruct (scanStoredRun r) as [s|] eqn:Es; [|done].
  assert (Hid : v_RunID (sr_view s) = run_id r) by (by apply scanStoredRun_some in Es as (_ & k & _ & ->)).
  rewrite Hid. destruct (validateStoredRun s) as [s'|].
  - cbn zeta. destruct (_ <? _)%nat eqn:El.
    + intros [= <- <- <-] Hle. apply Nat.ltb_lt in El. lia.
    + intros H Hle. destruct (IH _ _ _ H Hle) as [-> ->]. split; [cbn; lia|done].
  - destruct (State_terminal _); [|done]. intros H Hle. destruct (IH _ _ _ H Hle) as [-> ->].
    split; [cbn; lia|done].
Qed.

Lemma list_rows_healthy limit rows acc cursor raw :
  (forall r, In r rows -> row_ok r) -> (length acc <= limit)%nat ->
  exists cursor' raw', list_rows limit rows acc cursor raw
    = Ok (take (S limit) (acc ++ omap row_run rows)%list, cursor', raw').
Proof.
  revert acc cursor raw. induction rows as [|r rows IH]; intros acc cursor raw Hok Hacc; cbn [list_rows].
  { exists cursor, raw. cbn. rewrite app_nil_r, take_ge by lia. done. }
  destruct (Hok r (or_introl eq_refl)) as [[s Hs] Hv _ _ _]. rewrite Hs.
  assert (Hrr : row_record r = validateStoredRun s) by (unfold row_record; by rewrite Hs).
  assert (Hrest : forall r', In r' rows -> row_ok r') by (intros r' Hr'; apply Hok; by right).
  assert (Ho : omap row_run (r :: rows) = (match row_run r with Some v => [v] | None => [] end ++ omap row_run rows)%list).
  { cbn. by destruct (row_run r). }
  rewrite Ho. unfold row_run at 1. rewrite Hrr in Hv |- *. clear Ho.
  destruct (validateStoredRun s) as [s'|]; cbn zeta.
  - destruct (_ <? _)%nat eqn:El.
    + do 2 eexists. do 3 f_equal. apply Nat.ltb_lt in El. rewrite length_app in El. cbn in El.
      rewrite app_assoc, take_app_le by (rewrite length_app; cbn; lia).
      rewrite take_ge; [done|]. rewrite length_app. cbn. lia.
    + apply Nat.ltb_ge in El. destruct (IH (acc ++ [sr_view s'])%list (v_RunID (sr_view s)) (S raw) Hrest El) as (c' & w' & E).
      exists c', w'. rewrite E. by rewrite <- app_assoc.
  - destruct Hv as [[? Hv]|Hv]; [done|]. apply scanStoredRun_some in Hs as (_ & k & _ & ->). cbn. rewrite Hv.
    by apply IH.
Qed.

(** ** Sorted tables: the rows after a row of the page *)

Lemma list_where_after c c' active r :
  str_lt c c' = true -> list_where c' active r = str_lt c' (run_id r) && list_where c active r.
Proof.
  intros Hlt. unfold list_where. destruct (str_lt c' (run_id r)) eqn:E; cbn.
  - by rewrite (str_lt_trans _ _ _ Hlt E).
  - by rewrite andb_false_r.
Qed.

Lemma filter_filter_and {A} (p q : A -> bool) l :
  List.filter (fun a => p a && q a) l = List.filter p (List.filter q l).
Proof.
  induction l as [|a l IH]; [done|]. cbn. destruct (q a) eqn:Eq; cbn; [|by rewrite andb_false_r].
  destruct (p a); cbn; by rewrite IH.
Qed.

Lemma pk_sorted_filter w (t : table) : pk_sorted run_id t -> pk_sorted run_id (List.filter w t).
Proof.
  induction t as [|r t IH]; [done|]. rewrite pk_sorted_cons. intros [Hs Hlt]. cbn.
  destruct (w r); [|auto]. apply pk_sorted_cons. split; [auto|]. intros r' Hin.
  apply List.filter_In in Hin as [Hin _]. auto.
Qed.

Lemma filter_after_split (pre : list row) r post :
  pk_sorted run_id (pre ++ r :: post)%list ->
  List.filter (fun y => str_lt (run_id r) (run_id y)) (pre ++ r :: post)%list = post.
Proof.
  induction pre as [|y pre IH]; cbn [app]; rewrite pk_sorted_cons; intros [Hs Hlt]; cbn [List.filter].
  - rewrite str_lt_irrefl. clear Hs. induction post as [|z post IH]; [done|]. cbn.
    rewrite (Hlt z) by (by left). f_equal. apply IH. intros r' Hr'. apply Hlt. by right.
  - assert (Hy : str_lt (run_id y) (run_id r) = true) by (apply Hlt, in_app_iff; right; by left).
    destruct (str_lt (run_id r) (run_id y)) eqn:E; [|auto].
    pose proof (str_lt_trans _ _ _ Hy E) as Hc. by rewrite str_lt_irrefl in Hc.
Qed.

(** Continuing after the last row of a page gives the rest. *)
Lemma select_after_page t c active n :
  pk_sorted run_id t -> (n <= length (sql_select (list_where c active) t))%nat ->
  sql_select (list_where (last_id (take n (sql_select (list_where c active) t)) c) active) t
  = drop n (sql_select (list_where c active) t).
Proof.
  intros Hs Hn. set (rows := sql_select (list_where c active) t) in *.
  destruct n as [|n]; [by rewrite take_0, drop_0|].
  destruct (lookup_lt_is_Some_2 rows n) as [r Hr]; [lia|].
  assert (Hsplit : rows = (take n rows ++ r :: drop (S n) rows)%list) by (symmetry; by apply take_drop_middle).
  assert (Hlast : last_id (take (S n) rows) c = run_id r).
  { unfold last_id. rewrite (take_S_r _ _ _ Hr), last_snoc. done. }
  rewrite Hlast.
  assert (Hin : In r rows) by (rewrite Hsplit; apply in_app_iff; right; by left).
  unfold rows, sql_select in Hin. apply List.filter_In in Hin as [_ Hw].
  assert (Hlt : str_lt c (run_id r) = true) by (unfold list_where in Hw; by bool_prop).
  cbn [sql_select]. rewrite (List.filter_ext _ _ (fun y => list_where_after c (run_id r) active y Hlt)), filter_filter_and.
  fold (sql_select (list_where c active) t). fold rows. rewrite Hsplit at 1. apply filter_after_split.
  rewrite <- Hsplit. by apply pk_sorted_filter.
Qed.

(** ** The loop over pages *)

Lemma list_pages_some fuel limit active t acc c :
  pk_sorted run_id t -> (length (sql_select (list_where c active) t) < fuel)%nat ->
  is_Some (list_pages fuel limit active t acc c).
Proof.
  intros Hs. revert acc c. induction fuel as [|fuel IH]; intros acc c Hf; [lia|]. cbn [list_pages].
  destruct (_ <=? _)%nat; [|eauto].
  destruct (list_rows _ _ _ _ _) as [[[acc' c'] raw]|e] eqn:E; [|eauto].
  destruct (_ || _) eqn:Eb; [eauto|]. apply orb_false_iff in Eb as [E1 E2].
  apply Nat.ltb_ge in E1, E2. destruct (list_rows_all _ _ _ _ _ _ _ _ E E1) as [-> ->].
  cbn [Nat.add] in E2. rewrite length_take in E2. apply IH. rewrite select_after_page by (done || lia).
  rewrite length_drop. lia.
Qed.

Lemma filter_length_bound {A} (p : A -> bool) l : (length (List.filter p l) <= length l)%nat.
Proof. induction l as [|a l IH]; [done|]. cbn. destruct (p a); cbn; lia. Qed.

(** [list_fuel] is always enough. *)
Lemma list_fuel_enough limit active t c :
  pk_sorted run_id t -> is_Some (list_pages (list_fuel t) limit active t [] c).
Proof.
  intros Hs. apply list_pages_some; [done|]. unfold list_fuel. cbn [sql_select].
  pose proof (filter_length_bound (list_where c active) t). lia.
Qed.

Lemma select_ok t c active r : healthy t -> In r (sql_select (list_where c active) t) -> row_ok r.
Proof. intros Hh Hin. apply List.filter_In in Hin as [Hin _]. by apply Hh. Qed.

Lemma list_pages_healthy fuel limit active t acc c :
  healthy t -> (length (sql_select (list_where c active) t) < fuel)%nat -> (length acc <= limit)%nat ->
  list_pages fuel limit active t acc c = Some (Ok (take (S limit) (acc ++ listing t c active)%list)).
Proof.
  intros Hh. revert acc c. induction fuel as [|fuel IH]; intros acc c Hf Hacc; [lia|]. cbn [list_pages].
  apply Nat.leb_le in Hacc as Hacc'. rewrite Hacc'. set (rows := sql_select (list_where c active) t) in *.
  destruct (list_rows_healthy limit (take (S limit) rows) acc c 0) as (c' & raw & E); [|done|].
  { intros r Hr. apply (select_ok t c active); [done|]. fold rows. rewrite <- (take_drop (S limit) rows).
    apply in_app_iff. by left. }
  rewrite E. unfold listing. fold rows.
  assert (Homap : omap row_run rows = (omap row_run (take (S limit) rows) ++ omap row_run (drop (S limit) rows))%list).
  { by rewrite <- omap_app, take_drop. }
  destruct (limit <? length _)%nat eqn:El; cbn [orb].
  { do 2 f_equal. rewrite Homap, app_assoc. symmetry. apply take_app_le.
    apply Nat.ltb_lt in El. rewrite length_take in El. lia. }
  apply Nat.ltb_ge in El.
  destruct (list_rows_all _ _ _ _ _ _ _ _ E El) as [-> ->]. cbn [Nat.add].
  assert (Hshort : take (S limit) (acc ++ omap row_run (take (S limit) rows))%list
                   = (acc ++ omap row_run (take (S limit) rows))%list).
  { apply take_ge. rewrite length_take in El. lia. }
  destruct (_ <? _)%nat eqn:Er.
  { do 2 f_equal. apply Nat.ltb_lt in Er. rewrite length_take in Er.
    by rewrite (take_ge rows) by lia. }
  apply Nat.ltb_ge in Er. rewrite length_take in Er. rewrite Hshort in El |- *.
  rewrite IH.
  - unfold listing, rows. rewrite select_after_page by (apply Hh || (fold rows; lia)). fold rows.
    by rewrite Homap, <- app_assoc.
  - unfold rows. rewrite select_after_page by (apply Hh || (fold rows; lia)). fold rows. rewrite length_drop. lia.
  - done.
Qed.

(** ** The method *)

Definition page_cursor (limit : nat) (runs : list Run) : string :=
  if (limit <? length runs)%nat
  then match last (take limit runs) with Some v => v_RunID v | None => "" end else "".

Lemma store_list_healthy t0 limit after active t :
  healthy t -> clock_ok t0 t -> 1 <= limit <= MaxListLimit -> after = "" \/ validRunID after = true ->
  let t1 := map (sweep_row t0) t in
  let runs := listing t1 after active in
  store_list t0 limit after active t
  = (Ok (Some (mkListResult APIVersion (take (Z.to_nat limit) runs) (page_cursor (Z.to_nat limit) runs))), t1).
Proof.
  intros Hh Hc Hl Ha t1 runs. unfold store_list. unfold bind at 1, guard.
  assert (Hg : (limit <? 1)%Z || (MaxListLimit <? limit)%Z || (negb (after =? "") && negb (validRunID after)) = false).
  { rewrite !orb_false_iff, !Z.ltb_ge, andb_false_iff, !negb_false_iff, String.eqb_eq. split; [lia|]. tauto. }
  rewrite Hg. unfold ret at 1. cbn [guard]. unfold bind at 1. rewrite Sweep_healthy by done. fold t1.
  unfold bind, get. pose proof (sweep_preserves t0 t Hh Hc) as Hh1. fold t1 in Hh1.
  rewrite list_pages_healthy; [|done| |cbn; lia].
  2: { unfold list_fuel. pose proof (filter_length_bound (list_where after active) t1). cbn [sql_select]. lia. }
  cbn [app]. fold runs. rewrite length_take. unfold page_cursor.
  destruct (Z.to_nat limit <? length runs)%nat eqn:E.
  - apply Nat.ltb_lt in E. assert (Hx : (Z.to_nat limit <? S (Z.to_nat limit) `min` length runs)%nat = true).
    { apply Nat.ltb_lt. lia. }
    rewrite Hx, take_take, (Nat.min_l (Z.to_nat limit)) by lia. done.
  - apply Nat.ltb_ge in E. assert (Hx : (Z.to_nat limit <? S (Z.to_nat limit) `min` length runs)%nat = false).
    { apply Nat.ltb_ge. lia. }
    rewrite Hx, !take_ge by lia. done.
Qed.
End Listing.

(** * What the single-run operations return

    A method that succeeds returns the view a read of the run gives right
    after it; a caller without the current revision or lease changes nothing. *)

Local Open Scope Z_scope.
Local Open Scope string_scope.

Section Views.
Context {C : SnapshotCodec}.

(** [id] reads as [v] in [t]. *)
Definition reads (t : table) (id : string) (v : Run) : Prop :=
  exists s, loadForUpdate id t = (Ok s, t) /\ sr_view s = v.

Lemma load_valid t r x k :
  pk_sorted run_id t -> In r t -> row_valid r x k -> st_deleted k = None ->
  loadForUpdate (run_id r) t = (Ok (record_of r k (row_view r x k)), t).
Proof.
  intros Hs Hin V Hd. unfold loadForUpdate, bind, get. rewrite (by_pk_in _ _ _ Hs Hin).
  assert (Hr : row_record r = Some (record_of r k (row_view r x k))) by (apply row_record_some; eauto).
  unfold row_record in Hr. apply bind_Some in Hr as (s & Hsc & Hv). rewrite Hsc, Hv. cbn. by rewrite Hd.
Qed.

(** A guarded statement on the loaded row, and what is read back. *)
Lemma exec_reads t id r x k rev f e u t' :
  healthy t -> live_row t id r x k -> exec_one (at_revision id rev) f e t = (Ok u, t') ->
  keeps_keys f ->
  revision r = rev /\
  forall x' k', row_valid (f r) x' k' -> st_deleted k' = None -> reads t' id (row_view (f r) x' k').
Proof.
  intros Hh Hl He Hk.
  assert (Hpk : pk_sorted run_id t) by apply Hh.
  pose proof (exec_one_ok_count _ _ _ _ _ _ He) as [Hcount ->].
  destruct Hl as (Hin & Hid & _).
  assert (Hrev : revision r = rev).
  { destruct (Z.eqb_spec (revision r) rev) as [|Hne]; [done|]. exfalso.
    assert (Hz : sql_select (at_revision id rev) t = []).
    { rewrite (select_by_pk run_id _ _ id Hpk).
      - rewrite <- Hid, by_pk_in by done. unfold at_revision. apply Z.eqb_neq in Hne. by rewrite Hne, andb_false_r.
      - intros r' Hw. unfold at_revision in Hw. by bool_prop. }
    unfold sql_count in Hcount. cbn in Hz. rewrite Hz in Hcount. done. }
  split; [done|]. intros x' k' V Hd. destruct (Hk r) as (K1 & _). eexists. split.
  - rewrite <- Hid, <- K1. apply load_valid; [| |exact V|exact Hd].
    + apply sql_update_sorted; [|done]. intros r'. apply Hk.
    + apply sql_update_in. exists r. split; [done|]. unfold at_revision.
      by rewrite K1, Hid, Hrev, String.eqb_refl, Z.eqb_refl.
  - done.
Qed.

(** After the leading sweep of a successful method. *)
Lemma sweep_then {A} t0 now (k : DB A) t a t' :
  healthy t -> clock_ok t0 t -> clock_ok now t -> bind (Sweep t0) (fun _ => k) t = (Ok a, t') ->
  exists t1, t1 = map (sweep_row t0) t /\ healthy t1 /\ clock_ok now t1 /\ k t1 = (Ok a, t').
Proof.
  intros Hh Hc0 Hc H. unfold bind in H. rewrite Sweep_healthy in H by done.
  eexists. split; [done|]. split; [by apply sweep_preserves|]. split; [|done].
  apply clock_ok_map; [apply sweep_keeps|done].
Qed.

Lemma load_live id t s t' :
  healthy t -> loadForUpdate id t = (Ok s, t') ->
  t' = t /\ reads t id (sr_view s) /\
  exists r x k, live_row t id r x k /\ s = record_of r k (row_view r x k).
Proof.
  intros Hh H. pose proof H as H0. apply loadForUpdate_ok in H as (-> & r & x & k & Hl & ->).
  split; [done|]. split; [|by exists r, x, k]. eexists. split; [exact H0|done].
Qed.

Lemma Claim_reads st t0 now i t v t' :
  healthy t -> clock_ok t0 t -> clock_ok now t -> Claim st t0 now i t = (Ok v, t') ->
  reads t' (cl_RunID i) v /\ v_Revision v = cl_ExpectedRevision i + 1 /\ v_ReconcileOwner v = cl_Owner i /\
  v_ReconcileUntil v = Some (now + cl_Lease i).
Proof.
  intros Hh Hc0 Hc H. apply bind_ok in H as (u & t1 & Hg & H). apply guard_ok in Hg as [Hg ->].
  apply (sweep_then t0 now) in H as (t1 & -> & Hh1 & Hc1 & H); [|done..].
  apply transaction_ok in H. apply bind_ok in H as (s & t2 & Hl & H).
  apply load_live in Hl as (-> & _ & r & x & k & Hl & ->); [|done]. cbn zeta in H.
  apply bind_ok in H as (u2 & t2 & Hg2 & H). apply guard_ok in Hg2 as [Hg2 ->].
  apply bind_ok in H as (held & t2 & Hheld & H).
  assert (t2 = map (sweep_row t0) t) as ->.
  { destruct (_ && _) in Hheld; [|by injection Hheld]. destruct (v_ReconcileUntil _) in Hheld; by injection Hheld. }
  apply bind_ok in H as (u3 & t2 & Hg3 & H). apply guard_ok in Hg3 as [_ ->].
  apply bind_ok in H as (u4 & t2 & He & H). injection H as <- <-.
  assert (Hown : cl_Owner i <> "").
  { intros Hz. rewrite Hz in Hg. cbn in Hg. rewrite !orb_false_iff in Hg. destruct Hg as ((((_ & Hg) & _) & _) & _). done. }
  rewrite orb_false_iff in Hg2. destruct Hg2 as [Hr Ht]. apply negb_false_iff, Z.eqb_eq in Hr. cbn in Hr, Ht.
  pose proof Hl as (Hin & _ & V & Hd). pose proof (clock_valid _ _ _ _ _ Hc1 Hin V) as Hnow.
  pose proof (rv_revision _ _ _ V) as Hrev.
  destruct (exec_reads _ _ _ _ _ _ _ _ _ _ Hh1 Hl He ltac:(keys)) as [_ Hrb].
    pose proof (Hrb _ _ (claim_update_valid _ _ _ (revision r + 1) r x k V Ht Hown ltac:(lia) Hnow) Hd) as Hreads.
  split_and!; [exact Hreads|cbn; congruence|done|done].
Qed.

(** The view of a status update in each of its branches. *)
Lemma UpdateStatus_reads t0 now i t v t' :
  healthy t -> clock_ok t0 t -> clock_ok now t -> UpdateStatus t0 now i t = (Ok v, t') ->
  reads t' (si_RunID i) v.
Proof.
  intros Hh Hc0 Hc H. apply bind_ok in H as (u & t1 & Hg & H). apply guard_ok in Hg as [Hg ->].
  destruct (status_input_good _ Hg) as (Hreason & Hcursor & Htarget).
  apply (sweep_then t0 now) in H as (t1 & Et1 & Hh1 & Hc1 & H); [|done..]. clear Et1.
  apply bind_ok in H as (committed & t2 & H & Hres). injection Hres as -> <-.
  apply transaction_ok in H. apply bind_ok in H as (s & t3 & Hl & H).
  apply load_live in Hl as (-> & Hreads & r & x & k & Hl & ->); [|done]. cbn zeta in H.
  apply bind_ok in H as (u2 & t3 & Hg2 & H). apply guard_ok in Hg2 as [_ ->].
  pose proof Hl as (Hin & _ & V & Hd). pose proof (clock_valid _ _ _ _ _ Hc1 Hin V) as Hnow.
  pose proof (rv_revision _ _ _ V) as Hrev. assert (Hrev1 : 1 <= revision r + 1) by lia.
  pose proof (status_cursor_good i _ _ _ V Hcursor) as Hcur.
  cbn [record_of sr_view sr_lifecycleCursor sr_pendingSnapshot sr_pendingDigest sr_snapshot row_view
       populateRunMetadata bare_view v_State v_LastReason v_TerminalTarget v_Revision v_DeleteRequested] in H.
  destruct (si_State i =? state r) eqn:Esame.
  { destruct (match si_LifecycleCursor i with Some _ => _ | None => _ end).
    { injection H as <- <-. exact Hreads. }
    apply bind_ok in H as (u3 & t3 & Hg3 & H). apply guard_ok in Hg3 as [_ ->].
    apply bind_ok in H as (u4 & t3 & He & H). injection H as <- <-.
    destruct (exec_reads _ _ _ _ _ _ _ _ _ _ Hh1 Hl He ltac:(keys)) as [_ Hrb].
    pose proof (Hrb _ _ (cursor_update_valid _ _ _ _ _ _ V Hcur Hrev1 Hnow) Hd) as Hr. exact Hr. }
  destruct (transitionAllowed (state r) (si_State i)) eqn:Etr; cbn [negb] in H; [|done].
  destruct ((state r =? StatePreparing) && _ && _) eqn:Eroll.
  { bool_prop. destruct (staged_decodes _ _ _ V) as [y Hy]; [done|]. rewrite Hy in H.
    apply bind_ok in H as (u4 & t3 & He & H). injection H as <- <-.
    destruct (exec_reads _ _ _ _ _ _ _ _ _ _ Hh1 Hl He ltac:(keys)) as [_ Hrb].
    pose proof (Hrb _ _ (rollout_update_valid _ _ _ _ r x y k V ltac:(done) Hy Hreason Hcur Hrev1 Hnow) Hd) as Hr. exact Hr. }
  destruct ((state r =? StateStopping) && negb (si_State i =? terminal_target r)) eqn:Etgt; [done|].
  destruct ((state r =? StateStopping) && _ && _ && _) eqn:Erep.
  { bool_prop. destruct (staged_stopping _ _ _ V) as (_ & y & Hy); [done|done|]. rewrite Hy in H.
    apply bind_ok in H as (u4 & t3 & He & H). injection H as <- <-.
    assert (Hnt : State_terminal (state r) = false) by (match goal with E : state r = _ |- _ => by rewrite E end).
    destruct (exec_reads _ _ _ _ _ _ _ _ _ _ Hh1 Hl He ltac:(keys)) as [_ Hrb].
    pose proof (Hrb _ _ (replacement_update_valid _ _ r x y k V Hnt Hy Hrev1 Hnow) eq_refl) as Hr.
    pose proof (valid_unexpired _ _ _ V Hnt) as Hx. clear -Hr Hx. destruct k. cbn in Hx. subst. exact Hr. }
  rewrite (rv_decode _ _ _ V) in H. apply bind_ok in H as (u4 & t3 & He & H).
  destruct (bool_decide _) eqn:Edel in H; [done|]. injection H as <- <-.
  apply bool_decide_eq_false in Edel. apply eq_None_not_Some in Edel.
  pose proof (plain_transition_unstaged _ _ _ _ V Etr Eroll Erep) as Hun.
  destruct (exec_reads _ _ _ _ _ _ _ _ _ _ Hh1 Hl He ltac:(keys)) as [_ Hrb].
    assert (Htg : if si_State i =? StateStopping
    then State_terminal (if si_State i =? StateStopping then si_TerminalTarget i else "") = true
    else (if si_State i =? StateStopping then si_TerminalTarget i else "") = "") by (by destruct (si_State i =? StateStopping)).
  pose proof (Hrb _ _ (status_update_valid _ _ _ _ _ _ r x k V Etr Hun Htg Hreason Hcur Hrev1 Hnow) Edel) as Hr.
  exact Hr.
Qed.

Lemma requestStop_reads t0 now id del t v t' :
  healthy t -> clock_ok t0 t -> clock_ok now t -> requestStop t0 now id del t = (Ok v, t') -> reads t' id v.
Proof.
  intros Hh Hc0 Hc H. apply bind_ok in H as (u & t1 & Hg & H). apply guard_ok in Hg as [_ ->].
  apply (sweep_then t0 now) in H as (t1 & Et1 & Hh1 & Hc1 & H); [|done..]. clear Et1.
  apply transaction_ok in H. apply bind_ok in H as (s & t3 & Hl & H).
  apply load_live in Hl as (-> & Hreads & r & x & k & Hl & ->); [|done]. cbn zeta in H.
  pose proof Hl as (Hin & _ & V & Hd). pose proof (clock_valid _ _ _ _ _ Hc1 Hin V) as Hnow.
  pose proof (rv_revision _ _ _ V) as Hrev. assert (Hrev1 : 1 <= revision r + 1) by lia.
  cbn [record_of sr_view row_view populateRunMetadata bare_view v_State v_TerminalTarget v_Revision
       v_DeleteRequested] in H.
  destruct (State_terminal (state r)) eqn:Et.
  { destruct del; cbn [negb] in H; [|injection H as <- <-; exact Hreads].
    apply bind_ok in H as (u4 & t3 & He & H). injection H as <- <-.
    destruct (exec_reads _ _ _ _ _ _ _ _ _ _ Hh1 Hl He ltac:(keys)) as [_ Hrb].
    pose proof (Hrb _ _ (terminal_delete_update_valid _ _ _ _ V Et Hd Hnow) eq_refl) as Hr. exact Hr. }
  destruct ((state r =? StateStopping) && _) eqn:Eidle; [injection H as <- <-; exact Hreads|].
  apply bind_ok in H as (u4 & t3 & He & H). injection H as <- <-.
  destruct (exec_reads _ _ _ _ _ _ _ _ _ _ Hh1 Hl He ltac:(keys)) as [_ Hrb].
  match type of Hrb with forall x' k', row_valid (stop_update ?d ?rv now ?rs ?tg r) _ _ -> _ =>
    assert (Hv : row_valid (stop_update d rv now rs tg r) x (touch now k)) end.
  { apply stop_update_valid; [done|done| |by destruct del|done|done].
    destruct (state r =? StateStopping) eqn:Es; [|by destruct del].
    pose proof (rv_target _ _ _ V) as Htg. by rewrite Es in Htg. }
  destruct (Hrb _ _ Hv Hd) as (s & Hs & Hview). exists s. split; [done|]. rewrite Hview.
  unfold row_view, populateRunMetadata. cbn. f_equal. destruct del; cbn; [done|].
  by destruct (delete_requested r =? 1)%Z.
Qed.
End Views.
