(* ===== verification/StoreBatchRefine.v ===== *)
(** * Batches refine the transition system

    [createBatch] classifies every candidate before it writes.  A decision
    stays good until its statement runs because the statements in between
    touch rows with other keys: the frame argument of this file. *)
From stdpp Require Import base list strings relations.
From Stdlib Require Import ZArith Lia.
From S2P Require Import Prelude GoStrings GoUrl GoJson Sha256 Contract Validation Decode LocalRun Sql StoreRow StoreOps StoreBatch StoreValid StoreSteps StoreRefine.


Local Open Scope Z_scope.
Local Open Scope string_scope.

Section BatchRefine.
Context {C : SnapshotCodec}.

(** ** Prepared inputs *)

Record prepared_ok (c : preparedCreate) : Prop := {
  po_key : validIdempotencyKey (key_of c) = true;
  po_group : ci_ActiveGroup (pc_input c) = "" \/ validIdempotencyKey (ci_ActiveGroup (pc_input c)) = true;
  po_snapshot : canonicalSnapshot (ci_ResolvedRun (pc_input c)) = Ok (pc_snapshot c, pc_resolved c, pc_digest c)
}.

Lemma existsb_eqb_false s l : existsb (String.eqb s) l = false -> ~ In s l.
Proof.
  intros E Hin. apply not_true_iff_false in E. apply E, existsb_exists. exists s.
  split; [done|]. apply String.eqb_refl.
Qed.

Lemma prepare_ok keys ids groups inputs cs :
  prepare keys ids groups inputs = Ok cs ->
  map pc_input cs = inputs /\ (forall c, In c cs -> prepared_ok c /\ ~ In (key_of c) keys) /\
  List.NoDup (map key_of cs).
Proof.
  revert keys ids groups cs. induction inputs as [|i inputs IH]; intros keys ids groups cs; cbn [prepare].
  { intros [= <-]. split; [done|]. split; [done|]. constructor. }
  destruct (_ || _) eqn:Eb; [done|].
  destruct (canonicalSnapshot (ci_ResolvedRun i)) as [[[snap resolved] digest]|] eqn:Ec; [|done].
  destruct (existsb _ keys) eqn:Ek; [done|]. destruct (existsb _ ids); [done|].
  destruct (_ && _) in |- *; [done|].
  destruct (prepare _ _ _ inputs) as [cs'|] eqn:Ep; [|done]. intros [= <-].
  apply IH in Ep as (Hin & Hok & Hnd). apply existsb_eqb_false in Ek. cbn [map].
  split; [by rewrite Hin|]. split.
  - intros c [<-|Hc]; cbn.
    + split; [|done]. apply orb_false_iff in Eb as [E1 E2]. split; cbn; [by bool_prop| |done].
      apply andb_false_iff in E2 as [E2|E2]; bool_prop; auto.
    + destruct (Hok c Hc) as [H1 H2]. split; [done|]. intros H3. apply H2. by right.
  - constructor; [|done]. intros Hc. apply in_map_iff in Hc as (c & Hkey & Hc).
    destruct (Hok c Hc) as [_ H2]. apply H2. left. by rewrite Hkey.
Qed.

Lemma canonicalSnapshot_ok raw snap x digest :
  canonicalSnapshot raw = Ok (snap, x, digest) ->
  DecodeResolvedAgentRun raw = Some x /\ Marshal x = Some snap /\ digest = sha256_hex snap.
Proof.
  unfold canonicalSnapshot. destruct (DecodeResolvedAgentRun raw) as [y|]; [|done].
  destruct (Marshal y) as [s|] eqn:Em; [|done]. destruct (_ <? _)%Z; [done|]. intros [= <- <- <-]. done.
Qed.

(** The marshalled form of an input decodes to the canonical form of the
    input.  [canonicalSnapshot] does not check this. *)
Definition stable_input (i : CreateInput) : Prop :=
  forall snap x digest, canonicalSnapshot (ci_ResolvedRun i) = Ok (snap, x, digest) ->
    DecodeResolvedAgentRun snap = Some (canonical x).

Lemma prepared_stable c : prepared_ok c -> stable_input (pc_input c) -> stable c.
Proof.
  intros O Hs. pose proof (po_snapshot _ O) as Hc. split; [by eapply Hs|].
  by apply canonicalSnapshot_ok in Hc as (_ & _ & ?).
Qed.

Lemma prepared_ttl c : prepared_ok c -> validateTTL (rr_TTL (pc_resolved c)) = true.
Proof.
  intros O. pose proof (po_snapshot _ O) as Hc. apply canonicalSnapshot_ok in Hc as (Hd & _).
  by eapply decode_ttl.
Qed.

(** Compatibility with a canonical active snapshot does not depend on whether
    the desired one is canonical. *)
Lemma compatible_canonical x y :
  canonical x = x -> workstationUpdateCompatible x y = true ->
  workstationUpdateCompatible x (canonical y) = true.
Proof.
  intros Hx Hc. destruct (compatible_inv _ _ Hc) as (H1 & H2 & H3 & H4 & H5).
  unfold workstationUpdateCompatible. rewrite H1. change (fully_persistent (canonical y)) with (fully_persistent y).
  change (rr_TTL (canonical y)) with (rr_TTL y). rewrite H3, (bool_decide_eq_true_2 _ H2), (bool_decide_eq_true_2 _ H4).
  cbn [negb orb]. apply bool_decide_eq_true_2.
  rewrite <- H5 at 2. rewrite <- Hx at 1. done.
Qed.

(** ** Frames *)

Definition find_key (key : string) (t : table) : option row := by_uk idempotency_key key t.

(** Only rows with keys of [keys] may differ. *)
Definition frame (keys : list string) (t t' : table) : Prop :=
  forall key, ~ In key keys -> find_key key t' = find_key key t.

Lemma frame_refl keys t : frame keys t t.
Proof. intros key _. done. Qed.

Lemma frame_trans keys1 keys2 t1 t2 t3 :
  frame keys1 t1 t2 -> frame keys2 t2 t3 -> frame (keys1 ++ keys2) t1 t3.
Proof.
  intros H1 H2 key Hn. rewrite in_app_iff in Hn. rewrite H2, H1; [done| |]; tauto.
Qed.

Lemma frame_update w f key (t : table) :
  keeps_keys f -> (forall r, In r t -> w r = true -> idempotency_key r = key) ->
  frame [key] t (sql_update w f t).
Proof.
  intros Hk Hw key' Hn. unfold find_key. rewrite by_uk_update by apply Hk.
  destruct (by_uk idempotency_key key' t) as [r|] eqn:E; [|done]. apply by_uk_some in E as [Hin E]. cbn.
  destruct (w r) eqn:Ew; [|done]. apply (Hw r Hin) in Ew. destruct Hn. left. congruence.
Qed.

Lemma exec_one_ok w f e (t : table) u t' : exec_one w f e t = (Ok u, t') -> t' = sql_update w f t.
Proof. intros H. by apply exec_one_ok_count in H as [_ ?]. Qed.

Lemma clock_ok_update w f now (t : table) : keeps_keys f -> clock_ok now t -> clock_ok now (sql_update w f t).
Proof.
  intros Hk. unfold sql_update. apply clock_ok_map. intros r. destruct (w r); [apply Hk|done].
Qed.

(** A run that occupies a slot of the execution capacity. *)
Definition executing (r : row) : bool := not_deleted r && state_in executing_states r.

(** What a decision may add to the number of executing runs. *)
Definition cost (a : action) : Z :=
  match a with ActNew | ActRestart | ActRestartUpdate => 1 | _ => 0 end.

Definition gain (r r' : row) : Z := if executing r' && negb (executing r) then 1 else 0.

(** ** Classification *)

(** A rollback must not meet a row on its way to deletion. *)
Definition rollback_safe (c : preparedCreate) (t : table) : Prop :=
  forall r, find_key (key_of c) t = Some r -> request_digest r = pc_digest c ->
    default "" (pending_snapshot r) <> "" -> delete_requested r = 0.

Lemma rollback_safe_frame keys c t t' :
  frame keys t t' -> ~ In (key_of c) keys -> rollback_safe c t -> rollback_safe c t'.
Proof. intros Hf Hn. unfold rollback_safe. by rewrite (Hf _ Hn). Qed.

Lemma prepared_inj prepared c c' :
  List.NoDup (map key_of prepared) -> In c prepared -> In c' prepared -> key_of c = key_of c' -> c = c'.
Proof.
  induction prepared as [|y l IH]; [done|]. cbn. intros Hnd H1 H2 Hk. apply NoDup_cons_iff in Hnd as [Hy Hnd].
  destruct H1 as [->|H1], H2 as [->|H2]; auto; destruct Hy; [rewrite Hk|rewrite <- Hk]; by apply in_map.
Qed.

Section Classify.
Context (reclaim replace : bool) (now : time).

(** The decision [a] for candidate [c] is what the table says now. *)
Definition decided (a : action) (c : preparedCreate) (t : table) : Prop :=
  match a with
  | ActNew => find_key (key_of c) t = None
  | _ => exists r x k, find_key (key_of c) t = Some r /\ live now r x k /\ row_ok r /\
           decide_existing reclaim replace now c (record_of r k (row_view r x k)) = Ok a
  end.

Lemma decided_frame keys a c t t' :
  frame keys t t' -> ~ In (key_of c) keys -> decided a c t -> decided a c t'.
Proof.
  intros Hf Hn. pose proof (Hf _ Hn) as E. unfold decided. destruct a; by rewrite E.
Qed.

Lemma scan_repair r s d :
  scanStoredRun r = Some s -> scanStoredRun (repair_update d d r) = Some (set_digests d s).
Proof.
  intros Hs. apply scanStoredRun_some in Hs as (Hd & k & Hk & ->).
  apply scanStoredRun_some. split; [done|]. exists k. done.
Qed.

Lemma trusted_existing_ok c r s t existing t' :
  healthy t -> clock_ok now t -> find_key (key_of c) t = Some r -> scanStoredRun r = Some s ->
  trusted_existing c s t = (Ok existing, t') ->
  rtc table_step t t' /\ frame [key_of c] t t' /\ clock_ok now t' /\
  (rollback_safe c t -> rollback_safe c t') /\
  exists r', find_key (key_of c) t' = Some r' /\ row_record r' = Some existing.
Proof.
  intros Hh Hc Hr Hs. unfold trusted_existing.
  destruct (validateStoredRun s) as [s'|] eqn:Ev.
  { unfold ret. intros [= <- <-]. split_and!; [done|apply frame_refl|done|done|].
    exists r. split; [done|]. unfold row_record. by rewrite Hs. }
  destruct (repairableMalformedTerminal s) as [rep|] eqn:Erep; [|done]. intros H. monad_inv.
  match goal with E : exec_one _ _ _ _ = _ |- _ => apply exec_one_ok in E as -> end.
  unfold repairableMalformedTerminal in Erep. destruct (_ || _) eqn:Eb in Erep; [done|].
  destruct (DecodeResolvedAgentRun (sr_snapshot s)) as [y|]; [|done].
  destruct (negb _) in Erep; [done|]. bool_prop.
  pose proof (scan_repair r s (sha256_hex (sr_snapshot s)) Hs) as Hs'.
  assert (Hrec : row_record (repair_update (sha256_hex (sr_snapshot s)) (sha256_hex (sr_snapshot s)) r) = Some rep)
    by (unfold row_record; by rewrite Hs').
  pose proof Hrec as Hval. apply row_record_some in Hval as (z & k & V & ->).
  apply scanStoredRun_some in Hs as (_ & k0 & Hk0 & ->). cbn in *.
  set (d := sha256_hex (snapshot r)) in *.
  pose proof (by_uk_some _ _ _ _ Hr) as [Hin Hkey].
  assert (Hdel : deleted_at r = None).
  { destruct Hk0 as (_ & _ & _ & _ & _ & ->). by destruct (st_deleted k0). }
  set (w := repair_where (run_id r) (key_of c)).
  assert (Hw : forall r', w r' = true -> idempotency_key r' = key_of c).
  { intros r' Hr'. unfold w, repair_where in Hr'. by bool_prop. }
  assert (Hkf : keeps_keys (repair_update d d)) by keys.
  split_and!.
  - apply steps_update. intros r' Hin' Hw'.
    assert (r' = r) as -> by (eapply (uk_unique_inj idempotency_key); [apply Hh|done|done|rewrite Hkey; auto]).
    eapply rs_repair; eauto. unfold row_record.
    assert (Hsc : scanStoredRun r = Some (record_of r k0 (bare_view r k0))).
    { apply scanStoredRun_some. split; [apply V|]. eauto. }
    rewrite Hsc. exact Ev.
  - apply frame_update; auto.
  - by apply clock_ok_update.
  - intros _ r' Hr' _ Hp. exfalso. unfold find_key in Hr, Hr'. rewrite by_uk_update, Hr in Hr' by done.
    cbn in Hr'. destruct (terminal_states _ H0) as [T1 T2].
    destruct (valid_unstaged _ _ _ V T1 T2) as [Hun _].
    break_match_in Hr'; injection Hr' as <-; by apply Hp.
  - eexists. split; [|exact Hrec]. unfold find_key. rewrite by_uk_update by done.
    unfold find_key in Hr. rewrite Hr. cbn.
    change (ci_IdempotencyKey (pc_input c)) with (key_of c). fold w.
    assert (Hwr : w r = true); [|by rewrite Hwr]. unfold w, repair_where, not_deleted.
    rewrite String.eqb_refl, Hkey, String.eqb_refl, (bool_decide_eq_true_2 _ Hdel). cbn. rewrite orb_false_r, orb_assoc.
    done.
Qed.

(** The indices with one decision, and all of them in the order the statements
    run. *)
Definition list_of (a : action) (b : batch) : list nat :=
  match a with
  | ActKeep => []
  | ActNew => b_new b
  | ActUpdate => b_update b
  | ActCancel => b_cancel b
  | ActRestart => b_restart b
  | ActRestartUpdate => b_restartUpdate b
  | ActReplace => b_replace b
  | ActTerminalReplace => b_terminalReplace b
  end.

Definition plan (b : batch) : list nat :=
  (b_new b ++ b_update b ++ b_cancel b ++ b_restart b ++ b_restartUpdate b
   ++ (b_replace b ++ b_terminalReplace b))%list.

Lemma same_lists_plan b b' : (forall a, list_of a b' = list_of a b) -> plan b' = plan b.
Proof.
  intros H. unfold plan.
  pose proof (H ActNew); pose proof (H ActUpdate); pose proof (H ActCancel); pose proof (H ActRestart);
    pose proof (H ActRestartUpdate); pose proof (H ActReplace); pose proof (H ActTerminalReplace).
  cbn in *. congruence.
Qed.

Lemma classify_ok b i c t b' t' :
  healthy t -> clock_ok now t -> classify reclaim replace now b (i, c) t = (Ok b', t') ->
  rtc table_step t t' /\ frame [key_of c] t t' /\ clock_ok now t' /\ (rollback_safe c t -> rollback_safe c t') /\
  exists a, decided a c t' /\ forall a', list_of a' b' = list_of a' (record_action i a b).
Proof.
  intros Hh Hc H. unfold classify, queryByIdempotency in H. unfold bind at 1 2, get in H. cbn zeta in H.
  destruct (by_uk idempotency_key (ci_IdempotencyKey (pc_input c)) t) as [r|] eqn:Er.
  2: { injection H as <- <-. split_and!; [done|apply frame_refl|done|done|].
       by exists ActNew. }
  destruct (scanStoredRun r) as [s|] eqn:Es; [|done]. unfold ret at 1 in H. monad_inv.
  match goal with E : trusted_existing _ _ _ = _ |- _ =>
    destruct (trusted_existing_ok c r s t _ _ Hh Hc Er Es E) as (Hst & Hfr & Hcl & Hsafe & r' & Hr' & Hrec) end.
  unfold lift in *. match goal with E : (decide_existing _ _ _ _ _, _) = _ |- _ => injection E as Hdec <- end.
  split_and!; [done|done|done|done|]. pose proof (steps_healthy _ _ Hst Hh) as Hh'.
  pose proof (by_uk_some _ _ _ _ Hr') as [Hin _].
  apply row_record_some in Hrec as (z & k & V & ->).
  match type of Hdec with _ = Ok ?a0 => set (a := a0) in * end.
  assert (Hlive : live now r' z k).
  { split; [done|]. split; [|by eapply clock_valid]. unfold decide_existing in Hdec.
    destruct (bool_decide _) eqn:Eb in Hdec; [done|]. apply bool_decide_eq_false in Eb. by apply eq_None_not_Some. }
  exists a. split.
  - assert (Hn : a <> ActNew).
    { intros Ha. rewrite Ha in Hdec. unfold decide_existing in Hdec.
      repeat (break_match_in Hdec; try discriminate Hdec). }
    unfold decided. destruct a; try (exists r', z, k; split_and!; [done|done|by apply Hh'|done]). done.
  - intros a'. destruct a; by destruct a'.
Qed.

(** ** The plan of a batch *)

Record planned (prepared : list preparedCreate) (n : nat) (b : batch) (t : table) : Prop := {
  pl_nodup : List.NoDup (plan b);
  pl_bound : forall i, In i (plan b) -> (i < n)%nat;
  pl_decided : forall a i, In i (list_of a b) -> exists c, prepared !! i = Some c /\ decided a c t
}.

Lemma record_action_plan i a b :
  Permutation (plan (record_action i a b)) (if decide (a = ActKeep) then plan b else i :: plan b).
Proof.
  unfold plan. destruct a; cbn; try done; solve_Permutation.
Qed.

Lemma record_action_list i a a' b j :
  In j (list_of a' (record_action i a b)) -> In j (list_of a' b) \/ (j = i /\ a' = a).
Proof.
  destruct a, a'; cbn; rewrite ?in_app_iff; cbn; try tauto; intros [?|[<-|[]]]; auto.
Qed.

Lemma list_of_plan a i b : In i (list_of a b) -> In i (plan b).
Proof. unfold plan. rewrite !in_app_iff. destruct a; cbn; tauto. Qed.

(** Distinct indices of a prepared batch have distinct keys. *)
Lemma keys_distinct prepared i j c c' :
  List.NoDup (map key_of prepared) -> prepared !! i = Some c -> prepared !! j = Some c' ->
  i <> j -> key_of c <> key_of c'.
Proof.
  intros Hnd Hi Hj Hne Hk. apply Hne.
  eapply NoDup_lookup; [by apply NoDup_ListNoDup| |]; rewrite list_lookup_fmap; [rewrite Hi|rewrite Hj]; cbn; by rewrite ?Hk.
Qed.

Lemma planned_step prepared n b b' c t t' a :
  List.NoDup (map key_of prepared) -> planned prepared n b t -> prepared !! n = Some c ->
  frame [key_of c] t t' -> decided a c t' ->
  (forall a', list_of a' b' = list_of a' (record_action n a b)) -> planned prepared (S n) b' t'.
Proof.
  intros Hnd [P1 P2 P3] Hn Hf Hd Hl.
  pose proof (same_lists_plan _ _ Hl) as Hplan. pose proof (record_action_plan n a b) as Hperm.
  assert (Hfresh : ~ In n (plan b)) by (intros Hin; apply P2 in Hin; lia).
  split.
  - rewrite Hplan. eapply Permutation_NoDup; [symmetry; exact Hperm|].
    destruct (decide _); [done|by constructor].
  - intros i Hin. rewrite Hplan in Hin. apply (Permutation_in _ Hperm) in Hin.
    destruct (decide _); [apply P2 in Hin; lia|]. destruct Hin as [<-|Hin]; [lia|]. apply P2 in Hin. lia.
  - intros a' i Hin. rewrite Hl in Hin. apply record_action_list in Hin as [Hin|[-> ->]]; [|eauto].
    destruct (P3 _ _ Hin) as (c' & Hc' & Hd'). exists c'. split; [done|].
    eapply decided_frame; [exact Hf| |done]. intros [Hk|[]].
    eapply keys_distinct; [exact Hnd|exact Hn|exact Hc'| |done].
    apply list_of_plan, P2 in Hin. lia.
Qed.

Lemma classify_loop prepared n suf b t b' t' :
  List.NoDup (map key_of prepared) -> (forall i c, suf !! i = Some c -> prepared !! (n + i)%nat = Some c) ->
  healthy t -> clock_ok now t -> planned prepared n b t ->
  fold_each (classify reclaim replace now) b (imap (fun i c => ((n + i)%nat, c)) suf) t = (Ok b', t') ->
  rtc table_step t t' /\ frame (map key_of suf) t t' /\ clock_ok now t' /\
  planned prepared (n + length suf)%nat b' t' /\
  (forall c, In c prepared -> rollback_safe c t -> rollback_safe c t').
Proof.
  intros Hnd. revert n b t. induction suf as [|c suf IH]; intros n b t Hsuf Hh Hc Hp H.
  { cbn in H. unfold ret in H. injection H as <- <-. rewrite Nat.add_0_r.
    split_and!; [done|apply frame_refl|done|done|done]. }
  cbn [imap fold_each] in H. apply bind_ok in H as (b1 & t1 & H1 & H2). rewrite Nat.add_0_r in H1.
  destruct (classify_ok _ _ _ _ _ _ Hh Hc H1) as (Hs1 & Hf1 & Hc1 & Hsafe1 & a & Hd & Hl).
  assert (Hn : prepared !! n = Some c) by (rewrite <- (Nat.add_0_r n); by apply Hsuf).
  assert (Hext : imap ((fun i c0 => ((n + i)%nat, c0)) ∘ S) suf = imap (fun i c0 => ((S n + i)%nat, c0)) suf).
  { apply imap_ext. intros i x _. cbn. f_equal. lia. }
  rewrite Hext in H2. destruct (IH (S n) b1 t1) as (Hs2 & Hf2 & Hc2 & Hp2 & Hsafe2); try done.
  - intros i x Hi. replace (S n + i)%nat with (n + S i)%nat by lia. by apply Hsuf.
  - by eapply steps_healthy.
  - by eapply planned_step.
  - split_and!; [by etransitivity| |done| |].
    + exact (frame_trans [key_of c] _ _ _ _ Hf1 Hf2).
    + cbn. by rewrite Nat.add_succ_r.
    + intros c' Hc' Hsafe. apply Hsafe2; [done|]. destruct (decide (key_of c' = key_of c)) as [Hk|Hk].
      * assert (c' = c) as ->; [|by apply Hsafe1].
        eapply prepared_inj; [exact Hnd|done| |done]. by apply list_elem_of_In, list_elem_of_lookup; exists n.
      * eapply rollback_safe_frame; [exact Hf1| |by apply Hsafe]. intros [Hk2|[]]. by apply Hk.
Qed.

(** ** From decisions to steps *)

Lemma decide_cases c r x k a :
  row_valid r x k -> decide_existing reclaim replace now c (record_of r k (row_view r x k)) = Ok a ->
  rr_RunID (pc_resolved c) = run_id r /\
  match a with
  | ActUpdate => (state r = StateRunning \/ state r = StatePreparing) /\
                 workstationUpdateCompatible x (pc_resolved c) = true
  | ActCancel => default "" (pending_snapshot r) <> "" /\ request_digest r = pc_digest c
  | ActRestart => state r = StateCompleted \/ state r = StateFailed
  | ActRestartUpdate => (state r = StateCompleted \/ state r = StateFailed) /\
                        workstationUpdateCompatible x (pc_resolved c) = true
  | ActReplace | ActTerminalReplace => delete_requested r = 0
  | ActKeep | ActNew => True
  end.
Proof.
  intros V H. unfold decide_existing in H.
  cbn [record_of sr_view sr_pendingSnapshot sr_requestDigest sr_deletedAt sr_snapshot sr_pendingDigest row_view
       populateRunMetadata bare_view v_State v_RunID v_ReconcileUntil v_DeleteRequested] in H.
  rewrite (rv_decode _ _ _ V) in H.
  assert (Hdel : (delete_requested r =? 1)%Z = false -> delete_requested r = 0).
  { intros Hd. bool_prop. destruct (rv_delreq _ _ _ V); done. }
  destruct (bool_decide _); [done|]. destruct (negb (run_id r =? _)) eqn:Eid; [done|].
  apply negb_false_iff, String.eqb_eq in Eid. split; [done|].
  destruct (_ && opt_and _ _); [done|].
  destruct (negb (request_digest r =? pc_digest c)) eqn:Ech.
  - destruct (negb (workstationUpdateCompatible x (pc_resolved c)) || _) eqn:Ecd.
    { destruct (negb replace || _) eqn:Er2; [done|]. apply orb_false_iff in Er2 as [_ Er2].
      destruct (State_terminal _); injection H as <-; auto. }
    apply orb_false_iff in Ecd as [Ecd _]. apply negb_false_iff in Ecd.
    destruct (reclaim && _) eqn:Erf.
    { injection H as <-. apply andb_true_iff in Erf as [_ Erf]. apply orb_true_iff in Erf.
      rewrite !String.eqb_eq in Erf. auto. }
    destruct (negb (state r =? StateRunning) && _) eqn:Est; [done|].
    destruct (negb _) in H; injection H as <-; [|done]. split; [|done].
    apply andb_false_iff in Est as [Est|Est]; apply negb_false_iff in Est; [left; by apply String.eqb_eq|].
    right. apply andb_true_iff in Est as [Est _]. by apply String.eqb_eq.
  - apply negb_false_iff, String.eqb_eq in Ech.
    destruct (negb (default "" (pending_snapshot r) =? "")) eqn:Est.
    { injection H as <-. apply negb_true_iff, String.eqb_neq in Est. done. }
    destruct (reclaim && _) eqn:Erf; injection H as <-; [|done].
    apply andb_true_iff in Erf as [_ Erf]. apply orb_true_iff in Erf. by rewrite !String.eqb_eq in Erf.
Qed.

Lemma exec_key w f e key r t u t' :
  healthy t -> find_key key t = Some r -> (forall r', w r' = true -> idempotency_key r' = key) ->
  keeps_keys f -> row_step r (f r) -> exec_one w f e t = (Ok u, t') ->
  rtc table_step t t' /\ frame [key] t t' /\
  sql_count executing t' <= sql_count executing t + gain r (f r).
Proof.
  intros Hh Hr Hw Hk Hs He. apply exec_one_ok_count in He as [Hone ->]. apply by_uk_some in Hr as [Hin Hkey].
  assert (Hsel : forall r', In r' t -> w r' = true -> r' = r).
  { intros r' Hin' Hw'. eapply (uk_unique_inj idempotency_key); [apply Hh|done|done|rewrite Hkey; auto]. }
  split_and!; [|apply frame_update; auto|].
  - apply steps_update. intros r' Hin' Hw'. by rewrite (Hsel r' Hin' Hw').
  - unfold gain. rewrite <- Hone. by apply sql_count_update_le.
Qed.

Lemma query_state key t o t' : queryByIdempotency key t = (Ok o, t') -> t' = t.
Proof.
  unfold queryByIdempotency, bind, get, fail, ret. repeat break_match; intros [=]; done.
Qed.

Lemma apply_reread_ok w f key b i r t b' t' :
  healthy t -> find_key key t = Some r -> (forall r', w r' = true -> idempotency_key r' = key) ->
  keeps_keys f -> row_step r (f r) -> apply_reread w f key b i t = (Ok b', t') ->
  rtc table_step t t' /\ frame [key] t t' /\ (forall a, list_of a b' = list_of a b) /\
  sql_count executing t' <= sql_count executing t + gain r (f r).
Proof.
  intros Hh Hr Hw Hk Hs H. unfold apply_reread in H.
  apply bind_ok in H as (u & t1 & H1 & H2). apply bind_ok in H2 as (o & t2 & H2 & H3).
  apply query_state in H2 as ->.
  assert (E : t' = t1 /\ forall a, list_of a b' = list_of a b).
  { destruct o; [|done]. injection H3 as <- <-. split; [done|]. by intros []. }
  destruct E as [-> E]. destruct (exec_key _ _ _ _ _ _ _ _ Hh Hr Hw Hk Hs H1) as (? & ? & ?). done.
Qed.

Lemma live_key_key key r : live_key key r = true -> idempotency_key r = key.
Proof. unfold live_key. intros H. by bool_prop. Qed.
Lemma rollback_where_key key r : rollback_where key r = true -> idempotency_key r = key.
Proof. unfold rollback_where. intros H. by bool_prop. Qed.
Lemma restart_where_key key r : restart_where key r = true -> idempotency_key r = key.
Proof. unfold restart_where. intros H. apply andb_true_iff in H as [H _]. by apply live_key_key. Qed.

Lemma apply_new_ok b i c t b' t' :
  prepared_ok c -> stable c -> healthy t -> decided ActNew c t -> apply_new now b i c t = (Ok b', t') ->
  rtc table_step t t' /\ frame [key_of c] t t' /\ (forall a, list_of a b' = list_of a b) /\
  sql_count executing t' <= sql_count executing t + 1.
Proof.
  intros O Hs Hh _ H. unfold apply_new in H. unfold bind at 1, get in H.
  destruct (sql_insert _ _ _ t) as [t1|] eqn:Ei; [|done]. monad_inv. split_and!.
  - apply rtc_once. eapply ts_insert; [|exact Ei]. exists c, now. split_and!; [done|done|apply O|apply O|].
    by apply prepared_ttl.
  - intros key Hn. unfold find_key. rewrite (by_uk_insert run_id idempotency_key _ _ _ key Ei); [|apply Hh].
    cbn. destruct (String.eqb_spec (ci_IdempotencyKey (pc_input c)) key) as [E|]; [|done].
    destruct Hn. left. exact E.
  - by intros [].
  - apply sql_insert_some in Ei as (-> & _). rewrite (sql_count_insert run_id). destruct (executing _); lia.
Qed.

Lemma apply_replace_ok b i c r t b' t' :
  healthy t -> find_key (key_of c) t = Some r -> row_step r (replace_update c now r) ->
  apply_replace now b i c t = (Ok b', t') ->
  rtc table_step t t' /\ frame [key_of c] t t' /\ (forall a, list_of a b' = list_of a b) /\
  sql_count executing t' <= sql_count executing t + gain r (replace_update c now r).
Proof.
  intros Hh Hr Hs H. apply bind_ok in H as (u & t1 & H1 & H2). injection H2 as <- <-.
  assert (Hx : rtc table_step t t1 /\ frame [key_of c] t t1 /\
    sql_count executing t1 <= sql_count executing t + gain r (replace_update c now r)); [|tauto].
  eapply exec_key; [done|exact Hr|apply live_key_key| | |exact H1]; [keys|done].
Qed.

(** Statements that stop a run free its slot; rollout statements keep it. *)
Lemma gain_stopping r r' : state r' = StateStopping -> gain r r' = 0.
Proof. intros Hs. unfold gain, executing, state_in. rewrite Hs. cbn. by rewrite andb_false_r. Qed.

Lemma gain_executing r r' : executing r = true -> gain r r' = 0.
Proof. intros He. unfold gain. by rewrite He, andb_false_r. Qed.

Lemma gain_le r r' : gain r r' <= 1.
Proof. unfold gain. destruct (_ && _); lia. Qed.

Lemma live_not_deleted r x k : live now r x k -> not_deleted r = true.
Proof.
  intros (V & Hd & _). unfold not_deleted. apply bool_decide_eq_true_2.
  destruct (rv_stamps _ _ _ V) as (_ & _ & _ & _ & _ & ->). by rewrite Hd.
Qed.

Lemma rollout_executing r x k :
  live now r x k -> state r = StateRunning \/ state r = StatePreparing -> executing r = true.
Proof.
  intros Hl Hs. unfold executing, state_in. rewrite (live_not_deleted _ _ _ Hl). by destruct Hs as [-> | ->].
Qed.

(** The statement of each other decision. *)
Lemma apply_decided_ok a b i c t b' t' :
  stable c -> healthy t -> decided a c t -> (a = ActCancel -> rollback_safe c t) ->
  match a with
  | ActUpdate => apply_update now b i c t = (Ok b', t')
  | ActCancel => apply_cancel now b i c t = (Ok b', t')
  | ActRestart => apply_restart now b i c t = (Ok b', t')
  | ActRestartUpdate => apply_restart_update now b i c t = (Ok b', t')
  | ActReplace | ActTerminalReplace => apply_replace now b i c t = (Ok b', t')
  | ActKeep | ActNew => False
  end ->
  rtc table_step t t' /\ frame [key_of c] t t' /\ (forall a', list_of a' b' = list_of a' b) /\
  sql_count executing t' <= sql_count executing t + cost a.
Proof.
  intros Hs Hh Hd Hsafe H.
  assert (Hgain : forall r f, gain r f <= cost a ->
    rtc table_step t t' /\ frame [key_of c] t t' /\ (forall a', list_of a' b' = list_of a' b) /\
    sql_count executing t' <= sql_count executing t + gain r f ->
    rtc table_step t t' /\ frame [key_of c] t t' /\ (forall a', list_of a' b' = list_of a' b) /\
    sql_count executing t' <= sql_count executing t + cost a).
  { intros r f Hg (H1 & H2 & H3 & H4). split_and!; [done..|lia]. }
  destruct a; try contradiction;
    destruct Hd as (r & x & k & Hr & Hl & O & Hdec); pose proof Hl as (V & _);
    destruct (decide_cases _ _ _ _ _ V Hdec) as (Hid & Hcase);
    destruct (row_ok_valid _ _ _ O V) as [Hcan _].
  - destruct Hcase as [Hst Hcomp]. apply (Hgain r (rollout_request_update c now r)).
    { rewrite gain_executing; [done|]. by eapply rollout_executing. }
    eapply apply_reread_ok; [done|exact Hr|apply live_key_key| | |exact H]; [keys|].
    eapply rs_rollout_request; eauto using compatible_canonical.
  - destruct Hcase as [Hst Hdig]. apply (Hgain r (rollback_update now r)).
    { rewrite gain_executing; [done|]. eapply rollout_executing; [exact Hl|].
      destruct (staged_preparing _ _ _ V Hst) as [?|Hstop]; [auto|].
      destruct (staged_stopping _ _ _ V Hst Hstop) as [Hone _]. rewrite (Hsafe eq_refl r Hr Hdig Hst) in Hone. done. }
    eapply apply_reread_ok; [done|exact Hr|apply rollback_where_key| | |exact H]; [keys|].
    eapply rs_rollback; eauto. by apply (Hsafe eq_refl r).
  - apply (Hgain r (restart_update now r)); [apply gain_le|].
    eapply apply_reread_ok; [done|exact Hr|apply restart_where_key| | |exact H]; [keys|]. by eapply rs_restart.
  - destruct Hcase as [Hst Hcomp]. apply (Hgain r (restart_with_update c now r)); [apply gain_le|].
    eapply apply_reread_ok; [done|exact Hr|apply restart_where_key| | |exact H]; [keys|].
    eapply rs_restart_with; eauto using compatible_canonical.
  - apply (Hgain r (replace_update c now r)); [by rewrite gain_stopping|].
    eapply apply_replace_ok; [done|exact Hr|by eapply rs_replace|exact H].
  - apply (Hgain r (replace_update c now r)); [by rewrite gain_stopping|].
    eapply apply_replace_ok; [done|exact Hr|by eapply rs_replace|exact H].
Qed.

(** ** Running the statements of a plan *)

Section Run.
Context (prepared : list preparedCreate) (Hnd : List.NoDup (map key_of prepared)).

Definition keys_at (ixs : list nat) : list string := omap (fun i => key_of <$> prepared !! i) ixs.

Definition ready (acts : list action) (c : preparedCreate) (t : table) : Prop :=
  exists a, In a acts /\ decided a c t /\ (a = ActCancel -> rollback_safe c t).

Definition all_ready (acts : list action) (ixs : list nat) (t : table) : Prop :=
  forall i, In i ixs -> exists c, prepared !! i = Some c /\ ready acts c t.

Lemma ready_frame keys acts c t t' :
  frame keys t t' -> ~ In (key_of c) keys -> ready acts c t -> ready acts c t'.
Proof.
  intros Hf Hn (a & Ha & Hd & Hs). exists a. split_and!; [done|by eapply decided_frame|].
  intros Hc. eapply rollback_safe_frame; [exact Hf|done|by apply Hs].
Qed.

Lemma keys_at_in key ixs : In key (keys_at ixs) -> exists i c, In i ixs /\ prepared !! i = Some c /\ key_of c = key.
Proof.
  unfold keys_at. induction ixs as [|i ixs IH]; [done|]. cbn.
  destruct (prepared !! i) as [c|] eqn:E; cbn.
  - intros [<-|Hin]; [exists i, c; auto|]. destruct (IH Hin) as (j & c' & ? & ?). exists j, c'. auto.
  - intros Hin. destruct (IH Hin) as (j & c' & ? & ?). exists j, c'. auto.
Qed.

Lemma all_ready_frame acts ixs ixs' t t' :
  frame (keys_at ixs) t t' -> (forall i, In i ixs' -> ~ In i ixs) -> all_ready acts ixs' t -> all_ready acts ixs' t'.
Proof.
  intros Hf Hdis Hr i Hi. destruct (Hr i Hi) as (c & Hc & Hrc). exists c. split; [done|].
  eapply ready_frame; [exact Hf| |done]. intros Hin. apply keys_at_in in Hin as (j & c' & Hj & Hc' & Hk).
  eapply (keys_distinct _ j i); [exact Hnd|done|done| |done]. intros ->. by apply (Hdis i).
Qed.

(** What one statement loop needs of its body. *)
Definition stage_ok (acts : list action) (each : Z) (apply : batch -> nat -> preparedCreate -> DB batch) : Prop :=
  forall b i c t b' t', In c prepared -> healthy t -> ready acts c t -> apply b i c t = (Ok b', t') ->
    rtc table_step t t' /\ frame [key_of c] t t' /\ (forall a, list_of a b' = list_of a b) /\
    sql_count executing t' <= sql_count executing t + each.

Lemma apply_all_ok apply acts each ixs b t b' t' :
  stage_ok acts each apply -> List.NoDup ixs -> healthy t -> all_ready acts ixs t ->
  apply_all apply prepared b ixs t = (Ok b', t') ->
  rtc table_step t t' /\ frame (keys_at ixs) t t' /\ (forall a, list_of a b' = list_of a b) /\
  sql_count executing t' <= sql_count executing t + each * Z.of_nat (length ixs).
Proof.
  intros Happly. revert b t. unfold apply_all. induction ixs as [|i ixs IH]; intros b t Hix Hh Hr H.
  { cbn in H. injection H as <- <-. split_and!; [done|apply frame_refl|done|cbn; lia]. }
  apply NoDup_cons_iff in Hix as [Hi Hix]. cbn [fold_each] in H. apply bind_ok in H as (b1 & t1 & H1 & H2).
  destruct (Hr i (or_introl eq_refl)) as (c & Hc & Hrc). rewrite Hc in H1.
  assert (Hin : In c prepared) by (by apply list_elem_of_In, list_elem_of_lookup; exists i).
  destruct (Happly _ _ _ _ _ _ Hin Hh Hrc H1) as (Hs1 & Hf1 & Hl1 & Hc1).
  assert (Hk : keys_at [i] = [key_of c]) by (unfold keys_at; cbn; by rewrite Hc).
  destruct (IH b1 t1) as (Hs2 & Hf2 & Hl2 & Hc2); try done.
  - by eapply steps_healthy.
  - eapply (all_ready_frame _ [i]); [by rewrite Hk| |].
    + intros j Hj [<-|[]]. done.
    + intros j Hj. apply Hr. by right.
  - split_and!; [by etransitivity| |intros a; by rewrite Hl2|cbn [length]; lia].
    change (i :: ixs) with ([i] ++ ixs)%list. unfold keys_at. rewrite omap_app.
    fold (keys_at [i]) (keys_at ixs). rewrite Hk. by eapply frame_trans.
Qed.

(** A statement loop of the transaction: the decisions it carries out, its
    body, and the index list it runs over. *)
Record stage := mkStage {
  sg_acts : list action;
  sg_each : Z;
  sg_apply : batch -> nat -> preparedCreate -> DB batch
}.

Definition sg_list (s : stage) (b : batch) : list nat := flat_map (fun a => list_of a b) (sg_acts s).

Fixpoint run_stages (ss : list stage) (b : batch) : DB batch :=
  match ss with
  | [] => ret b
  | s :: ss' => bind (apply_all (sg_apply s) prepared b (sg_list s b)) (run_stages ss')
  end.

Lemma sg_list_same s b b' : (forall a, list_of a b' = list_of a b) -> sg_list s b' = sg_list s b.
Proof. intros H. unfold sg_list. induction (sg_acts s) as [|a l IH]; [done|]. cbn. by rewrite H, IH. Qed.

Lemma plan_disjoint {A} (l1 l2 : list A) : List.NoDup (l1 ++ l2)%list ->
  List.NoDup l1 /\ List.NoDup l2 /\ forall i, In i l2 -> ~ In i l1.
Proof.
  induction l1 as [|y l1 IH]; cbn; intros Hn; [split_and!; [constructor|done|auto]|].
  apply NoDup_cons_iff in Hn as [Hy Hn]. destruct (IH Hn) as (N1 & N2 & Hd). rewrite in_app_iff in Hy.
  split_and!; [constructor; tauto|done|]. intros i Hi [<-|H1]; [tauto|]. by apply (Hd i).
Qed.

Lemma keys_at_incl ixs : incl (keys_at ixs) (map key_of prepared).
Proof.
  intros key Hk. apply keys_at_in in Hk as (i & c & _ & Hc & <-). apply in_map.
  by apply list_elem_of_In, list_elem_of_lookup; exists i.
Qed.

Lemma frame_incl keys keys' t t' : incl keys keys' -> frame keys t t' -> frame keys' t t'.
Proof. intros Hi Hf key Hn. apply Hf. auto. Qed.

(** The executing runs all statements of the loops may add. *)
Definition stages_cost (ss : list stage) (b : batch) : Z :=
  foldr (fun s n => sg_each s * Z.of_nat (length (sg_list s b)) + n) 0 ss.

Lemma stages_cost_same ss b b' :
  (forall a, list_of a b' = list_of a b) -> stages_cost ss b' = stages_cost ss b.
Proof.
  intros H. unfold stages_cost. induction ss as [|s ss IH]; [done|]. cbn. by rewrite IH, (sg_list_same _ _ _ H).
Qed.

Lemma run_stages_ok ss b t b' t' :
  (forall s, In s ss -> stage_ok (sg_acts s) (sg_each s) (sg_apply s)) ->
  List.NoDup (flat_map (fun s => sg_list s b) ss) -> healthy t ->
  (forall s, In s ss -> all_ready (sg_acts s) (sg_list s b) t) ->
  run_stages ss b t = (Ok b', t') ->
  rtc table_step t t' /\ frame (keys_at (flat_map (fun s => sg_list s b) ss)) t t' /\
  (forall a, list_of a b' = list_of a b) /\
  sql_count executing t' <= sql_count executing t + stages_cost ss b.
Proof.
  revert b t. induction ss as [|s ss IH]; intros b t Hok Hn Hh Hr H.
  { injection H as <- <-. split_and!; [done|apply frame_refl|done|cbn; lia]. }
  cbn in Hn, H. apply bind_ok in H as (b1 & t1 & H1 & H2). apply plan_disjoint in Hn as (N1 & N2 & Hdis).
  destruct (apply_all_ok _ _ _ _ _ _ _ _ (Hok s (or_introl eq_refl)) N1 Hh (Hr s (or_introl eq_refl)) H1)
    as (Hs1 & Hf1 & Hl1 & Hc1).
  assert (Hsame : forall s', sg_list s' b1 = sg_list s' b) by (intros; by apply sg_list_same).
  assert (Hflat : flat_map (fun s' => sg_list s' b1) ss = flat_map (fun s' => sg_list s' b) ss)
    by (by apply flat_map_ext).
  destruct (IH b1 t1) as (Hs2 & Hf2 & Hl2 & Hc2); try done.
  - intros s' Hs'. apply Hok. by right.
  - by rewrite Hflat.
  - by eapply steps_healthy.
  - intros s' Hs'. rewrite Hsame. eapply all_ready_frame; [exact Hf1| |apply Hr; by right].
    intros i Hi. apply Hdis. apply in_flat_map. eauto.
  - split_and!; [by etransitivity| |intros a; by rewrite Hl2|].
    2: { rewrite (stages_cost_same _ _ _ Hl1) in Hc2.
         change (stages_cost (s :: ss) b) with (sg_each s * Z.of_nat (length (sg_list s b)) + stages_cost ss b). lia. }
    rewrite Hflat in Hf2. cbn [flat_map]. unfold keys_at at 1. rewrite omap_app.
    by eapply frame_trans.
Qed.
End Run.

(** ** Pruning *)

(** An administrator's workstation the manifest no longer lists. *)
Definition prunable (id : string) (t : table) : Prop :=
  exists r x k, find_key (workstation_key id) t = Some r /\ run_id r = id /\ live now r x k /\
    delete_requested r = 0 /\ rr_TTL x = zero_TTL /\ idempotency_key r = workstation_key (run_id r).

Lemma prunable_frame keys id t t' :
  frame keys t t' -> ~ In (workstation_key id) keys -> prunable id t -> prunable id t'.
Proof.
  intros Hf Hn (r & x & k & Hr & H). exists r, x, k. split; [|exact H]. by rewrite (Hf _ Hn).
Qed.

Lemma apply_prune_ok id t u t' :
  healthy t -> prunable id t -> apply_prune now id t = (Ok u, t') ->
  rtc table_step t t' /\ frame [workstation_key id] t t' /\ sql_count executing t' <= sql_count executing t.
Proof.
  intros Hh (r & x & k & Hr & Hid & Hl & Hd & Hz & Hkey) H.
  apply exec_one_ok in H as ->. pose proof (by_uk_some _ _ _ _ Hr) as [Hin _].
  assert (Hsel : forall r', In r' t -> prune_where id r' = true -> r' = r).
  { intros r' Hin' Hw. unfold prune_where in Hw. bool_prop.
    eapply (pk_sorted_inj run_id); [apply Hh|done|done|congruence]. }
  split_and!.
  - apply steps_update. intros r' Hin' Hw. rewrite (Hsel r' Hin' Hw). by eapply rs_prune.
  - apply frame_update; [keys|]. intros r' Hin' Hw. rewrite (Hsel r' Hin' Hw). congruence.
  - pose proof (sql_count_update_le executing _ (prune_update now) t r Hsel) as Hle.
    assert (Hstop : executing (prune_update now r) = false).
    { unfold executing, state_in. rewrite andb_false_iff. right. reflexivity. }
    rewrite Hstop, andb_false_l, Z.add_0_r in Hle. exact Hle.
Qed.

Lemma prune_loop ids t u t' :
  List.NoDup ids -> healthy t -> (forall id, In id ids -> prunable id t) ->
  for_each (apply_prune now) ids t = (Ok u, t') ->
  rtc table_step t t' /\ frame (map workstation_key ids) t t' /\ sql_count executing t' <= sql_count executing t.
Proof.
  revert t. induction ids as [|id ids IH]; intros t Hn Hh Hp H.
  { injection H as _ <-. split_and!; [done|apply frame_refl|lia]. }
  apply NoDup_cons_iff in Hn as [Hid Hn]. cbn in H. apply bind_ok in H as (u1 & t1 & H1 & H2).
  destruct (apply_prune_ok id t _ _ Hh (Hp id (or_introl eq_refl)) H1) as (Hs & Hf & Hcnt).
  enough (Hrest : rtc table_step t1 t' /\ frame (map workstation_key ids) t1 t' /\
    sql_count executing t' <= sql_count executing t1).
  { destruct Hrest as (Hs2 & Hf2 & Hcnt2). split_and!; [by etransitivity| |lia].
    exact (frame_trans [workstation_key id] _ _ _ _ Hf Hf2). }
  apply (IH t1); [done|by eapply steps_healthy| |done].
  intros id' Hin. pose proof (Hp id' (or_intror Hin)) as Hp'. pose proof (Hp id (or_introl eq_refl)) as Hp0.
  eapply prunable_frame; [exact Hf| |exact Hp']. intros [Hk|[]].
  destruct Hp' as (r' & x' & k' & Hr' & Hid' & _). destruct Hp0 as (r & x & k & Hr & Hid0 & _).
  rewrite Hk in Hr. rewrite Hr in Hr'. injection Hr' as <-. apply Hid. by rewrite <- Hid0, Hid'.
Qed.

Lemma map_filter_nodup {A B} (f : A -> B) (p : A -> bool) l :
  List.NoDup (map f l) -> List.NoDup (map f (List.filter p l)).
Proof.
  induction l as [|y l IH]; [done|]. cbn. intros Hn. apply NoDup_cons_iff in Hn as [Hy Hn].
  destruct (p y); cbn; [|auto]. constructor; [|auto]. intros Hin. apply Hy.
  apply in_map_iff in Hin as (z & <- & Hz). apply List.filter_In in Hz as [Hz _]. by apply in_map.
Qed.

Lemma omap_in {A B} (f : A -> option B) l y : In y (omap f l) -> exists a, In a l /\ f a = Some y.
Proof.
  induction l as [|a l IH]; [done|]. cbn. destruct (f a) as [b|] eqn:E; cbn.
  - intros [<-|Hin]; [exists a; auto|]. destruct (IH Hin) as (a' & ? & ?). exists a'. auto.
  - intros Hin. destruct (IH Hin) as (a' & ? & ?). exists a'. auto.
Qed.

Lemma record_ids_nodup t : List.NoDup (map run_id t) ->
  List.NoDup (map (fun s => v_RunID (sr_view s)) (omap row_record t)).
Proof.
  induction t as [|r t IH]; [done|]. cbn. intros Hn. apply NoDup_cons_iff in Hn as [Hr Hn].
  destruct (row_record r) as [s|] eqn:E; cbn; [|auto]. constructor; [|auto].
  intros Hin. apply Hr. apply in_map_iff in Hin as (s' & Hs' & Hin). apply omap_in in Hin as (r' & Hin & Hr').
  apply row_record_ids in E as (E & _). apply row_record_ids in Hr' as (E' & _).
  rewrite <- E, <- Hs', E'. by apply in_map.
Qed.

Lemma pk_sorted_nodup t : pk_sorted run_id t -> List.NoDup (map run_id t).
Proof.
  induction t as [|r t IH]; [constructor|]. rewrite pk_sorted_cons. intros [Hs Hlt]. cbn.
  constructor; [|auto]. intros Hin. apply in_map_iff in Hin as (r' & Hr' & Hin). apply Hlt in Hin.
  rewrite Hr', str_lt_irrefl in Hin. done.
Qed.

Lemma workstation_facts r x k :
  row_valid r x k -> administratorWorkstation (record_of r k (row_view r x k)) = true ->
  rr_TTL x = zero_TTL /\ idempotency_key r = workstation_key (run_id r).
Proof.
  intros V Ha. unfold administratorWorkstation in Ha. cbn in Ha. rewrite (rv_decode _ _ _ V) in Ha.
  destruct (_ || _) eqn:E in Ha; [done|]. apply String.eqb_eq in Ha. split; [|done].
  apply orb_false_iff in E as [_ E]. apply negb_false_iff in E. by apply bool_decide_eq_true in E.
Qed.

Lemma prune_ids_ok prepared prune t ids :
  healthy t -> clock_ok now t -> prune_ids prepared prune t = Ok ids ->
  List.NoDup ids /\ forall id, In id ids -> prunable id t /\ ~ In (workstation_key id) (map key_of prepared).
Proof.
  intros Hh Hc. unfold prune_ids. destruct prune; cbn [negb]; [|intros [= <-]; split; [constructor|done]].
  destruct (valid_records _) as [ss|] eqn:E; [|done]. apply valid_records_ok in E as ->. intros [= <-].
  split.
  - apply map_filter_nodup, record_ids_nodup, map_filter_nodup, pk_sorted_nodup, Hh.
  - intros id Hin. apply in_map_iff in Hin as (s & <- & Hin). apply List.filter_In in Hin as [Hin Hf].
    apply omap_in in Hin as (r & Hin & Hrec). apply List.filter_In in Hin as [Hin Hn].
    apply row_record_some in Hrec as (x & k & V & ->). bool_prop.
    match goal with Ha : administratorWorkstation _ = true |- _ => destruct (workstation_facts _ _ _ V Ha) as [Hz Hkey] end.
    cbn [record_of sr_view row_view populateRunMetadata bare_view v_RunID v_DeleteRequested sr_idempotencyKey] in *.
    split.
    + exists r, x, k. split_and!; [|done|by eapply live_intro| |done|done].
      * unfold find_key. rewrite <- Hkey. apply by_uk_in; [apply Hh|done].
      * destruct (rv_delreq _ _ _ V) as [?|Hd]; [done|]. rewrite Hd in *. done.
    + intros Hk. apply in_map_iff in Hk as (c & Hk & Hc'). 
      match goal with E : existsb _ _ = false |- _ => apply not_true_iff_false in E; apply E end.
      apply existsb_exists. exists c. split; [done|]. rewrite Hkey, <- Hk. apply String.eqb_refl.
Qed.

(** ** The transaction *)

Lemma sweep_staged r : default "" (pending_snapshot (sweep_row now r)) <> "" -> sweep_row now r = r.
Proof.
  unfold sweep_row. destruct (not_deleted r); [|done]. destruct (row_record r) as [s|] eqn:Es; [|done].
  apply row_record_some in Es as (x & k & V & ->).
  destruct (deadline_due _ _); [done|]. destruct (retention_due _ _) eqn:Er; [|done].
  intros Hp. exfalso. apply Hp. unfold retention_due in Er. cbn in Er. bool_prop.
  match goal with Ht : State_terminal _ = true |- _ => destruct (terminal_states _ Ht) as [T1 T2] end.
  by destruct (valid_unstaged _ _ _ V T1 T2).
Qed.

(** A staged row of a swept table is in the table. *)
Lemma sweep_find_staged key t r' :
  healthy t -> find_key key (map (sweep_row now) t) = Some r' -> default "" (pending_snapshot r') <> "" ->
  find_key key t = Some r'.
Proof.
  intros Hh Hr' Hp. apply by_uk_some in Hr' as [Hin Hkey]. apply in_map_iff in Hin as (r & <- & Hin).
  rewrite (sweep_staged r Hp) in *. unfold find_key. rewrite <- Hkey. apply by_uk_in; [apply Hh|done].
Qed.

Lemma sweep_rollback_safe c t : healthy t -> rollback_safe c t -> rollback_safe c (map (sweep_row now) t).
Proof. intros Hh Hs r' Hr' Hdig Hp. apply (Hs r'); [by apply sweep_find_staged|done|done]. Qed.

Lemma for_each_check_group prepared ixs t u t' : for_each (check_group prepared) ixs t = (Ok u, t') -> t' = t.
Proof.
  revert u. induction ixs as [|i ixs IH]; intros u H; [by injection H|]. cbn in H.
  apply bind_ok in H as (u1 & t1 & H1 & H2). unfold check_group in H1.
  assert (t1 = t) as ->; [|by eapply IH].
  destruct (prepared !! i) as [c|]; [|by injection H1]. destruct (_ =? ""); [by injection H1|].
  unfold bind, get, guard, fail, ret in H1. destruct (_ <? _)%Z; congruence.
Qed.


(** ** Rolled back replacements

    The rollback statement does not look at [delete_requested].  On a row
    whose immutable replacement is under way it leaves a preparing row that is
    still marked for deletion: no rule of the transition system does that.  A
    batch is followed through such rows by running it on the table without
    the rollbacks, with which its other statements, all for other keys,
    commute. *)
Definition among (keys : list string) (r : row) : bool := existsb (String.eqb (idempotency_key r)) keys.

Definition revive (keys : list string) (t : table) : table := sql_update (among keys) (rollback_update now) t.

Lemma among_in keys r : among keys r = true <-> In (idempotency_key r) keys.
Proof.
  unfold among. rewrite existsb_exists. split.
  - intros (key & Hin & E). apply String.eqb_eq in E. by rewrite E.
  - intros Hin. eexists. split; [exact Hin|apply String.eqb_refl].
Qed.

Lemma revive_nil t : revive [] t = t.
Proof. unfold revive, sql_update. rewrite map_ext with (g := fun r => r); [apply map_id|done]. Qed.

Lemma revive_add key keys t :
  ~ In key keys ->
  sql_update (fun r => idempotency_key r =? key) (rollback_update now) (revive keys t) = revive (key :: keys) t.
Proof.
  intros Hn. unfold revive, sql_update. rewrite map_map. apply map_ext. intros r.
  assert (E : among (key :: keys) r = (idempotency_key r =? key) || among keys r) by reflexivity.
  rewrite E. destruct (among keys r) eqn:Ea.
  - apply among_in in Ea. change (idempotency_key (rollback_update now r)) with (idempotency_key r).
    destruct (String.eqb_spec (idempotency_key r) key) as [<-|]; [contradiction|reflexivity].
  - by rewrite orb_false_r.
Qed.

Lemma find_key_revive key keys t : ~ In key keys -> find_key key (revive keys t) = find_key key t.
Proof.
  intros Hn. unfold find_key, revive. rewrite by_uk_update by done.
  destruct (by_uk idempotency_key key t) as [r|] eqn:E; [|done]. apply by_uk_some in E as [_ E]. cbn.
  destruct (among keys r) eqn:Ea; [|done]. apply among_in in Ea. by rewrite E in Ea.
Qed.

Lemma sql_update_ext w w' f (t : table) : (forall r, In r t -> w r = w' r) -> sql_update w f t = sql_update w' f t.
Proof. intros Hw. unfold sql_update. apply map_ext_in. intros r Hr. by rewrite Hw. Qed.

(** A revived row is preparing and being deleted at once. *)
Lemma executing_rollback r : executing (rollback_update now r) = not_deleted r.
Proof. unfold executing, state_in. cbn. by rewrite andb_true_r. Qed.

Lemma revive_executing keys t all :
  uk_unique idempotency_key t -> incl keys all ->
  sql_count executing (revive keys t) <= sql_count executing t + Z.of_nat (length all).
Proof.
  intros Hu Hi.
  assert (Hle : sql_count executing (revive keys t) <= sql_count executing t + sql_count (among keys) t).
  { clear Hu Hi. induction t as [|r t IH]; [done|]. unfold revive, sql_update. cbn [map].
    rewrite !sql_count_cons. unfold revive, sql_update in IH.
    destruct (among keys r); repeat match goal with |- context [if ?b then 1 else 0] => destruct b end; lia. }
  enough (sql_count (among keys) t <= Z.of_nat (length all)) by lia. clear Hle.
  unfold sql_count. apply inj_le. rewrite <- (length_map idempotency_key). apply NoDup_incl_length.
  - by apply map_filter_nodup.
  - intros key Hin. apply in_map_iff in Hin as (r & <- & Hr). apply List.filter_In in Hr as [_ Hr].
    by apply Hi, among_in.
Qed.

(** [m] does the same whether or not the rows of [keys] were revived. *)
Definition commutes {A} (keys : list string) (m : DB A) (s : table) : Prop :=
  m (revive keys s) = (fst (m s), revive keys (snd (m s))).

Lemma commutes_bind {A B} keys (m : DB A) (k : A -> DB B) s :
  commutes keys m s -> (forall a s', m s = (Ok a, s') -> commutes keys (k a) s') -> commutes keys (bind m k) s.
Proof.
  unfold commutes, bind. intros -> Hk. destruct (m s) as [[a|e] s'] eqn:E; cbn; [|done]. by apply Hk.
Qed.

Lemma commutes_query key keys s : ~ In key keys -> commutes keys (queryByIdempotency key) s.
Proof.
  intros Hn. pose proof (find_key_revive key keys s Hn) as Hf. unfold find_key in Hf.
  unfold commutes, queryByIdempotency, bind, get. rewrite Hf.
  destruct (by_uk _ _ s) as [r|]; [|done]. by destruct (scanStoredRun r).
Qed.

Lemma commutes_exec keys w f e s :
  (forall r, In r s -> In (idempotency_key r) keys -> w r = false /\ w (rollback_update now r) = false) ->
  keeps_keys f -> commutes keys (exec_one w f e) s.
Proof.
  intros Hw Hk.
  assert (Hrows : forall p, (forall r, In r p -> In r s) ->
    sql_count w (revive keys p) = sql_count w p /\
    sql_update w f (revive keys p) = revive keys (sql_update w f p)).
  { induction p as [|r p IH]; intros Hp; [done|]. destruct IH as [IH1 IH2]; [intros; apply Hp; by right|].
    unfold revive, sql_update in *. cbn [map]. rewrite !sql_count_cons, IH1, IH2.
    assert (Hr : among keys (if w r then f r else r) = among keys r).
    { unfold among. destruct (w r); [|done]. by destruct (Hk r) as (_ & -> & _). }
    rewrite Hr. destruct (among keys r) eqn:Ea; [|done]. apply among_in in Ea.
    destruct (Hw r (Hp r (or_introl eq_refl)) Ea) as [-> ->]. done. }
  destruct (Hrows s ltac:(done)) as [E1 E2]. unfold commutes, exec_one, bind, sql_exec. rewrite E1, E2.
  by destruct (negb _).
Qed.

Lemma commutes_for_key keys key w f e s :
  ~ In key keys -> (forall r, w r = true -> idempotency_key r = key) -> keeps_keys f ->
  commutes keys (exec_one w f e) s.
Proof.
  intros Hn Hw Hk. apply commutes_exec; [|done]. intros r _ Hin.
  assert (Hf : forall r', idempotency_key r' = idempotency_key r -> w r' = false); [|by split; apply Hf].
  intros r' E. apply not_true_iff_false. intros Hr'. apply Hw in Hr'. congruence.
Qed.

Lemma commutes_reread keys key w f b i s :
  ~ In key keys -> (forall r, w r = true -> idempotency_key r = key) -> keeps_keys f ->
  commutes keys (apply_reread w f key b i) s.
Proof.
  intros Hn Hw Hk. apply commutes_bind; [by eapply commutes_for_key|]. intros _ s' _.
  apply commutes_bind; [by apply commutes_query|]. by intros [].
Qed.

Lemma commutes_all keys (apply : batch -> nat -> preparedCreate -> DB batch) prepared b ixs s :
  (forall b i c s', In i ixs -> prepared !! i = Some c -> commutes keys (apply b i c) s') ->
  commutes keys (apply_all apply prepared b ixs) s.
Proof.
  intros Ha. unfold apply_all. revert b s. induction ixs as [|i ixs IH]; intros b s; [done|]. cbn [fold_each].
  apply commutes_bind.
  - destruct (prepared !! i) as [c|] eqn:Ec; [|done]. apply Ha; [by left|done].
  - intros b' s' _. apply IH. intros b0 j c0 s0 Hj. apply Ha. by right.
Qed.

Lemma commutes_prune keys ids s :
  (forall r, In r s -> In (idempotency_key r) keys -> ~ In (run_id r) ids) ->
  commutes keys (for_each (apply_prune now) ids) s.
Proof.
  revert s. induction ids as [|id ids IH]; intros s Hs; [done|]. cbn [for_each].
  assert (Hp : keeps_keys (prune_update now)) by keys.
  apply commutes_bind.
  - apply commutes_exec; [|done]. intros r Hr Hk.
    assert (Hid : (run_id r =? id) = false).
    { apply String.eqb_neq. intros E. apply (Hs r Hr Hk). left. by symmetry. }
    unfold prune_where. change (run_id (rollback_update now r)) with (run_id r). by rewrite Hid.
  - intros u s' He. apply exec_one_ok in He as ->. apply IH. intros r Hr Hk Hid.
    apply sql_update_in in Hr as (r0 & Hr0 & ->). destruct (Hp r0) as (E1 & E2 & _).
    apply (Hs r0 Hr0).
    + destruct (prune_where id r0); by rewrite ?E2 in Hk.
    + right. destruct (prune_where id r0); by rewrite ?E1 in Hid.
Qed.

Definition keeps_lists (apply : batch -> nat -> preparedCreate -> DB batch) : Prop :=
  forall b i c t b' t', apply b i c t = (Ok b', t') -> forall a, list_of a b' = list_of a b.

Lemma all_keeps_lists apply prepared b ixs t b' t' :
  keeps_lists apply -> apply_all apply prepared b ixs t = (Ok b', t') -> forall a, list_of a b' = list_of a b.
Proof.
  intros Ha. unfold apply_all. revert b t. induction ixs as [|i ixs IH]; intros b t H a; cbn [fold_each] in H.
  { by injection H as <- _. }
  apply bind_ok in H as (b1 & t1 & H1 & H2). rewrite (IH _ _ H2 a).
  destruct (prepared !! i); [by eapply Ha|by injection H1 as <- _].
Qed.

Lemma reread_keeps_lists w f key b i t b' t' :
  apply_reread w f key b i t = (Ok b', t') -> forall a, list_of a b' = list_of a b.
Proof.
  intros H. apply bind_ok in H as (u & t1 & _ & H). apply bind_ok in H as (o & t2 & _ & H).
  destruct o; [|done]. injection H as <- _. by intros [].
Qed.

Lemma replace_keeps_lists : keeps_lists (apply_replace now).
Proof. intros b i c t b' t' H. apply bind_ok in H as (u & t1 & _ & H). by injection H as <- _. Qed.

Lemma commutes_stages prepared keys ss b s :
  (forall st, In st ss -> keeps_lists (sg_apply st) /\
     forall b0 i c s', ~ In (key_of c) keys -> commutes keys (sg_apply st b0 i c) s') ->
  (forall i c, In i (flat_map (fun st => sg_list st b) ss) -> prepared !! i = Some c -> ~ In (key_of c) keys) ->
  commutes keys (run_stages prepared ss b) s.
Proof.
  revert b s. induction ss as [|st ss IH]; intros b s Hst Hix; [done|]. cbn [run_stages].
  destruct (Hst st (or_introl eq_refl)) as [Hl Hc]. apply commutes_bind.
  - apply commutes_all. intros b0 i c s' Hi Hp. apply Hc. apply (Hix i c); [|done]. apply in_app_iff. by left.
  - intros b1 s' H1. pose proof (all_keeps_lists _ _ _ _ _ _ _ Hl H1) as Hl1.
    apply IH; [intros; apply Hst; by right|]. intros i c Hi. apply Hix. apply in_app_iff. right.
    erewrite flat_map_ext in Hi; [exact Hi|]. intros st'. by apply sg_list_same.
Qed.

(** The rows of [keys] are on their way to deletion. *)
Definition replacing (keys : list string) (t : table) : Prop :=
  forall key, In key keys -> exists r x k, find_key key t = Some r /\ live now r x k /\ delete_requested r = 1.

Lemma replacing_frame keys ks t t' :
  frame ks t t' -> (forall key, In key keys -> ~ In key ks) -> replacing keys t -> replacing keys t'.
Proof.
  intros Hf Hd Hr key Hk. destruct (Hr key Hk) as (r & x & k & E & H). exists r, x, k. by rewrite (Hf key (Hd key Hk)).
Qed.

Lemma cancel_cases c t :
  decided ActCancel c t ->
  exists r x k, find_key (key_of c) t = Some r /\ live now r x k /\ default "" (pending_snapshot r) <> "" /\
    (rollback_safe c t \/ (delete_requested r = 1 /\ ~ rollback_safe c t)).
Proof.
  intros (r & x & k & Hr & Hl & O & Hdec). pose proof Hl as (V & _).
  destruct (decide_cases _ _ _ _ _ V Hdec) as (_ & Hst & Hdig). exists r, x, k. split_and!; [done..|].
  destruct (rv_delreq _ _ _ V) as [E|E].
  - left. intros r' Hr' _ _. rewrite Hr in Hr'. by injection Hr' as <-.
  - right. split; [done|]. intros Hs. by rewrite (Hs r Hr Hdig Hst) in E.
Qed.

(** The rollback of a replacement revives its row. *)
Lemma cancel_revive b i c keys s r b' t' :
  healthy s -> ~ In (key_of c) keys -> find_key (key_of c) s = Some r -> default "" (pending_snapshot r) <> "" ->
  apply_cancel now b i c (revive keys s) = (Ok b', t') ->
  t' = revive (key_of c :: keys) s /\ forall a, list_of a b' = list_of a b.
Proof.
  intros Hh Hn Hr Hp H. split; [|by eapply reread_keeps_lists].
  apply bind_ok in H as (u & t1 & H1 & H2). apply bind_ok in H2 as (o & t2 & H2 & H3).
  apply query_state in H2 as ->. apply exec_one_ok in H1 as ->.
  assert (E : t' = sql_update (rollback_where (key_of c)) (rollback_update now) (revive keys s))
    by (destruct o; [by injection H3|done]). rewrite E. clear E H3 o.
  rewrite <- revive_add by done. apply sql_update_ext. intros r' Hr'.
  unfold rollback_where. destruct (String.eqb_spec (idempotency_key r') (key_of c)) as [E|]; [|done]. cbn.
  apply bool_decide_eq_true. apply sql_update_in in Hr' as (r0 & Hr0 & ->).
  assert (Hk0 : idempotency_key r0 = key_of c) by (by destruct (among keys r0)).
  assert (Hna : among keys r0 = false).
  { apply not_true_iff_false. intros Ha. apply among_in in Ha. by rewrite Hk0 in Ha. }
  rewrite Hna in *. apply by_uk_some in Hr as [Hin Hkey].
  assert (r0 = r) as -> by (eapply (uk_unique_inj idempotency_key); [apply Hh|done|done|congruence]).
  destruct (pending_snapshot r); [by eexists|done].
Qed.

Section Writes.
Context (prepared : list preparedCreate) (Hnd : List.NoDup (map key_of prepared))
  (Hok : forall c, In c prepared -> prepared_ok c /\ stable c).

Lemma prepared_at i c : prepared !! i = Some c -> In c prepared.
Proof. intros H. by apply list_elem_of_In, list_elem_of_lookup; exists i. Qed.

(** The keys a batch revives: candidates whose rollback is not safe. *)
Definition revives (keys : list string) (t : table) : Prop :=
  forall key, In key keys -> exists c, In c prepared /\ key_of c = key /\ ~ rollback_safe c t.

Lemma cancel_loop ixs b keys s b' t' :
  List.NoDup ixs -> healthy s ->
  (forall i, In i ixs -> exists c, prepared !! i = Some c /\ decided ActCancel c s) ->
  replacing keys s -> (forall key, In key keys -> ~ In key (keys_at prepared ixs)) ->
  apply_all (apply_cancel now) prepared b ixs (revive keys s) = (Ok b', t') ->
  exists keys' s', rtc table_step s s' /\ frame (keys_at prepared ixs) s s' /\ t' = revive keys' s' /\
    (forall a, list_of a b' = list_of a b) /\ sql_count executing s' <= sql_count executing s /\
    replacing keys' s' /\
    (forall key, In key keys' -> In key keys \/
       exists c, In c prepared /\ key_of c = key /\ In key (keys_at prepared ixs) /\ ~ rollback_safe c s).
Proof.
  unfold apply_all. revert b keys s. induction ixs as [|i ixs IH]; intros b keys s Hix Hh Hdec Hrep Hdis H.
  { injection H as <- <-. exists keys, s. split_and!; [done|apply frame_refl|done|done|lia|done|auto]. }
  apply NoDup_cons_iff in Hix as [Hi Hix]. cbn [fold_each] in H. apply bind_ok in H as (b1 & t1 & H1 & H2).
  destruct (Hdec i (or_introl eq_refl)) as (c & Hc & Hd). rewrite Hc in H1. pose proof (prepared_at _ _ Hc) as Hin.
  assert (Hcons : keys_at prepared (i :: ixs) = key_of c :: keys_at prepared ixs).
  { unfold keys_at. cbn. by rewrite Hc. }
  rewrite Hcons in *.
  assert (Hother : forall j c', In j ixs -> prepared !! j = Some c' -> key_of c' <> key_of c).
  { intros j c' Hj Hc' E. eapply (keys_distinct prepared j i); [exact Hnd|done|done| |done]. by intros ->. }
  assert (Hfresh : ~ In (key_of c) (keys_at prepared ixs)).
  { intros Hk. apply keys_at_in in Hk as (j & c' & Hj & Hc' & E). by eapply Hother. }
  assert (Hkeys : ~ In (key_of c) keys) by (intros Hk; apply (Hdis _ Hk); by left).
  destruct (cancel_cases _ _ Hd) as (r & x & k & Hr & Hl & Hp & [Hs|[Hone Huns]]).
  - assert (Hcm : commutes keys (apply_cancel now b i c) s).
    { apply commutes_reread; [done|apply rollback_where_key|keys]. }
    unfold commutes in Hcm. rewrite Hcm in H1. destruct (apply_cancel now b i c s) as [res s1] eqn:E1.
    injection H1 as -> <-. cbn [fst snd] in *.
    destruct (apply_decided_ok ActCancel b i c s b1 s1 (proj2 (Hok c Hin)) Hh Hd (fun _ => Hs) E1)
      as (S1 & F1 & L1 & C1). cbn [cost] in C1.
    destruct (IH b1 keys s1 Hix) as (keys' & s' & S2 & F2 & E2 & L2 & C2 & R2 & K2); [by eapply steps_healthy| | | |done|].
    + intros j Hj. destruct (Hdec j (or_intror Hj)) as (c' & Hc' & Hd'). exists c'. split; [done|].
      eapply decided_frame; [exact F1| |done]. intros [E|[]]. by eapply Hother.
    + eapply replacing_frame; [exact F1| |done]. intros key Hk [<-|[]]. done.
    + intros key Hk Hk'. apply (Hdis key Hk). by right.
    + exists keys', s'. split_and!; [by etransitivity|exact (frame_trans [key_of c] _ _ _ _ F1 F2)|done
        |intros a; by rewrite L2|lia|done|].
      intros key Hk. destruct (K2 key Hk) as [?|(c' & Hc' & Ek & Hat & Hu)]; [by left|right].
      exists c'. split_and!; [done|done|by right|]. intros Hsafe. apply Hu.
      eapply rollback_safe_frame; [exact F1| |done]. intros [E|[]]. rewrite <- Ek, <- E in Hat. done.
  - destruct (cancel_revive _ _ _ _ _ _ _ _ Hh Hkeys Hr Hp H1) as [-> L1].
    destruct (IH b1 (key_of c :: keys) s Hix) as (keys' & s' & S2 & F2 & E2 & L2 & C2 & R2 & K2); [done| | | |done|].
    + intros j Hj. apply Hdec. by right.
    + intros key [<-|Hk]; [by exists r, x, k|by apply Hrep].
    + intros key [<-|Hk]; [done|]. intros Hk'. apply (Hdis key Hk). by right.
    + exists keys', s'. split_and!; [done| |done|intros a; by rewrite L2, L1|lia|done|].
      * eapply frame_incl; [|exact F2]. intros key Hk. by right.
      * intros key Hk. destruct (K2 key Hk) as [[<-|?]|(c' & Hc' & Ek & Hat & Hu)].
        -- right. exists c. split_and!; [done|done|by left|done].
        -- by left.
        -- right. exists c'. split_and!; [done|done|by right|done].
Qed.

(** The statement loops, in the order of the code, around the rollbacks. *)
Definition before : list stage :=
  [mkStage [ActNew] 1 (apply_new now); mkStage [ActUpdate] 0 (apply_update now)].
Definition after : list stage :=
  [mkStage [ActRestart] 1 (apply_restart now); mkStage [ActRestartUpdate] 1 (apply_restart_update now);
   mkStage [ActReplace; ActTerminalReplace] 0 (apply_replace now)].

Lemma stages_ok s : In s (before ++ after)%list -> stage_ok prepared (sg_acts s) (sg_each s) (sg_apply s).
Proof.
  intros Hin b i c t b' t' Hc Hh (a & Ha & Hd & Hsafe) H. destruct (Hok c Hc) as [O Hs].
  repeat (destruct Hin as [<-|Hin]; [cbn in Ha, H; repeat (destruct Ha as [<-|Ha]; [|]);
    first [ contradiction
          | eapply apply_new_ok; [exact O|exact Hs|exact Hh|exact Hd|exact H]
          | match type of Hd with decided ?a0 _ _ => exact (apply_decided_ok a0 _ _ _ _ _ _ Hs Hh Hd Hsafe H) end ] | ]).
  contradiction.
Qed.

Lemma plan_split b :
  Permutation (plan b)
    (flat_map (fun s => sg_list s b) before ++ b_cancel b ++ flat_map (fun s => sg_list s b) after)%list.
Proof. unfold plan, sg_list. cbn. rewrite !app_nil_r, <- !app_assoc. done. Qed.

Lemma stages_ready b t s :
  (forall a i, In i (list_of a b) -> exists c, prepared !! i = Some c /\ decided a c t) ->
  In s (before ++ after)%list -> all_ready prepared (sg_acts s) (sg_list s b) t.
Proof.
  intros Hdec Hs i Hi. apply in_flat_map in Hi as (a & Ha & Hi). destruct (Hdec a i Hi) as (c & Hc & Hd).
  exists c. split; [done|]. exists a. split_and!; [done|done|]. intros ->. exfalso.
  repeat (destruct Hs as [<-|Hs]; [cbn in Ha; intuition congruence|]). contradiction.
Qed.

Lemma stages_costs b :
  stages_cost before b + stages_cost after b =
  Z.of_nat (length (b_new b)) + Z.of_nat (length (b_restart b)) + Z.of_nat (length (b_restartUpdate b)).
Proof.
  unfold stages_cost, sg_list. cbn [before after foldr sg_acts sg_each flat_map list_of]. rewrite !app_nil_r. lia.
Qed.

Lemma after_commutes keys b s :
  (forall i c, In i (flat_map (fun st => sg_list st b) after) -> prepared !! i = Some c -> ~ In (key_of c) keys) ->
  commutes keys (run_stages prepared after b) s.
Proof.
  intros Hi. apply commutes_stages; [|done]. intros st Hst.
  repeat (destruct Hst as [<-|Hst]; [cbn [sg_apply]|]); [..|contradiction].
  - split; [intros ? * H; by eapply reread_keeps_lists|]. intros b0 i c s' Hn.
    apply commutes_reread; [done|apply restart_where_key|keys].
  - split; [intros ? * H; by eapply reread_keeps_lists|]. intros b0 i c s' Hn.
    apply commutes_reread; [done|apply restart_where_key|keys].
  - split; [apply replace_keeps_lists|]. intros b0 i c s' Hn. apply commutes_bind; [|done].
    eapply commutes_for_key; [exact Hn|apply live_key_key|keys].
Qed.

Lemma keys_apart l1 l2 i c :
  (forall j, In j l2 -> ~ In j l1) -> In i l2 -> prepared !! i = Some c -> ~ In (key_of c) (keys_at prepared l1).
Proof.
  intros Hdis Hi Hc Hk. apply keys_at_in in Hk as (j & c' & Hj & Hc' & E).
  eapply (keys_distinct prepared j i); [exact Hnd|done|done| |done]. intros ->. by apply (Hdis i).
Qed.

(** The rollbacks, and the loops after them, from a table the earlier loops
    left. *)
Lemma writes_after b t b2 t2 b3 t3 :
  List.NoDup (b_cancel b ++ flat_map (fun s => sg_list s b) after)%list -> healthy t ->
  (forall a i, In a (ActCancel :: flat_map sg_acts after) -> In i (list_of a b) ->
     exists c, prepared !! i = Some c /\ decided a c t) ->
  apply_all (apply_cancel now) prepared b (b_cancel b) t = (Ok b2, t2) ->
  run_stages prepared after b2 t2 = (Ok b3, t3) ->
  exists keys s, rtc table_step t s /\ frame (map key_of prepared) t s /\ t3 = revive keys s /\
    replacing keys s /\ revives keys t /\ incl keys (keys_at prepared (b_cancel b)) /\
    sql_count executing s <= sql_count executing t + stages_cost after b.
Proof.
  intros Hn Hh Hdec H1 H2. apply plan_disjoint in Hn as (N1 & N2 & Hdis). rewrite <- (revive_nil t) in H1.
  destruct (cancel_loop (b_cancel b) b [] t b2 t2 N1 Hh) as (keys & s & S1 & F1 & -> & L1 & C1 & R1 & K1);
    [intros i Hi; apply (Hdec ActCancel); [by left|done]|by intros ?|by intros ?|done|].
  assert (Hflat : flat_map (fun st => sg_list st b2) after = flat_map (fun st => sg_list st b) after).
  { apply flat_map_ext. intros st. by apply sg_list_same. }
  assert (Hapart : forall i c, In i (flat_map (fun st => sg_list st b2) after) -> prepared !! i = Some c ->
    ~ In (key_of c) (keys_at prepared (b_cancel b))).
  { intros i c Hi. rewrite Hflat in Hi. by apply (keys_apart _ _ i c Hdis). }
  assert (Hkat : forall key, In key keys -> In key (keys_at prepared (b_cancel b))).
  { intros key Hk. destruct (K1 key Hk) as [[]|(c & _ & _ & Hat & _)]. done. }
  pose proof (after_commutes keys b2 s) as Hcm. unfold commutes in Hcm. rewrite Hcm in H2.
  2: { intros i c Hi Hc Hk. apply (Hapart i c Hi Hc). auto. }
  destruct (run_stages prepared after b2 s) as [res s3] eqn:E3. injection H2 as -> <-. cbn [fst snd] in *.
  destruct (run_stages_ok prepared Hnd after b2 s b3 s3) as (S2 & F2 & _ & C2);
    [intros st Hst; apply stages_ok, in_app_iff; by right|by rewrite Hflat|by eapply steps_healthy| |done|].
  { intros st Hst i Hi. apply in_flat_map in Hi as (a & Ha & Hi). rewrite L1 in Hi.
    destruct (Hdec a i) as (c & Hc & Hd); [right; apply in_flat_map; eauto|done|].
    exists c. split; [done|]. exists a. split_and!; [done| |].
    - eapply decided_frame; [exact F1| |done]. eapply Hapart; [|done]. apply in_flat_map. exists st. split; [done|].
      apply in_flat_map. exists a. by rewrite L1.
    - intros ->. exfalso. repeat (destruct Hst as [<-|Hst]; [cbn in Ha; intuition congruence|]). contradiction. }
  exists keys, s3. rewrite (stages_cost_same _ _ _ L1) in C2. split_and!; [by etransitivity| |done| | |done|lia].
  - eapply frame_incl; [|exact (frame_trans _ _ _ _ _ F1 F2)]. intros key Hk.
    apply in_app_iff in Hk as [Hk|Hk]; by eapply keys_at_incl.
  - eapply replacing_frame; [exact F2| |done]. intros key Hk Hk2. apply keys_at_in in Hk2 as (i & c & Hi & Hc & <-).
    by apply (Hapart i c Hi Hc), Hkat.
  - intros key Hk. destruct (K1 key Hk) as [[]|(c & Hc & E & _ & Hu)]. eauto.
Qed.

(** All writes of the transaction. *)
Lemma writes_ok n b t pruned b1 t1 b2 t2 b3 t3 u t' :
  healthy t -> planned prepared n b t -> List.NoDup pruned ->
  (forall id, In id pruned -> prunable id t /\ ~ In (workstation_key id) (map key_of prepared)) ->
  run_stages prepared before b t = (Ok b1, t1) ->
  apply_all (apply_cancel now) prepared b1 (b_cancel b1) t1 = (Ok b2, t2) ->
  run_stages prepared after b2 t2 = (Ok b3, t3) -> for_each (apply_prune now) pruned t3 = (Ok u, t') ->
  exists keys s, rtc table_step t s /\ t' = revive keys s /\ replacing keys s /\ revives keys t /\
    sql_count executing s <= sql_count executing t + (stages_cost before b + stages_cost after b).
Proof.
  intros Hh [P1 _ P3] Hpn Hpp H1 H2 H3 H4. rewrite plan_split in P1. apply plan_disjoint in P1 as (N1 & N2 & Hdis).
  destruct (run_stages_ok prepared Hnd before b t b1 t1) as (S1 & F1 & L1 & C1);
    [intros st Hst; apply stages_ok, in_app_iff; by left|done|done| |done|].
  { intros st Hst. apply stages_ready; [done|]. apply in_app_iff. by left. }
  assert (Hflat : flat_map (fun st => sg_list st b1) after = flat_map (fun st => sg_list st b) after).
  { apply flat_map_ext. intros st. by apply sg_list_same. }
  change (b_cancel b1) with (list_of ActCancel b1) in H2. rewrite L1 in H2.
  assert (Hcancel : b_cancel b1 = b_cancel b) by exact (L1 ActCancel).
  change (list_of ActCancel b) with (b_cancel b) in H2. rewrite <- Hcancel in H2.
  destruct (writes_after b1 t1 b2 t2 b3 t3) as (keys & s & S2 & F2 & -> & R2 & K2 & I2 & C2);
    [by rewrite Hcancel, Hflat|by eapply steps_healthy| |done|done|].
  { intros a i Ha Hi. rewrite L1 in Hi. destruct (P3 a i Hi) as (c & Hc & Hd). exists c. split; [done|].
    eapply decided_frame; [exact F1| |done]. eapply (keys_apart _ _ i c Hdis); [|done].
    apply in_app_iff. destruct Ha as [<-|Ha]; [by left|right].
    apply in_flat_map in Ha as (st & Hst & Ha). apply in_flat_map. exists st. split; [done|].
    apply in_flat_map. eauto. }
  assert (Hcand : forall key, In key keys -> In key (map key_of prepared)).
  { intros key Hk. destruct (K2 key Hk) as (c & Hc & <- & _). by apply in_map. }
  assert (Hprunable : forall id, In id pruned -> prunable id s).
  { intros id Hid. destruct (Hpp id Hid) as [Hp Hnk]. eapply prunable_frame; [exact F2|done|].
    eapply prunable_frame; [exact F1| |done]. intros Hk. apply Hnk. by eapply keys_at_incl. }
  pose proof (steps_healthy _ _ S2 (steps_healthy _ _ S1 Hh)) as Hhs.
  pose proof (commutes_prune keys pruned s) as Hcm. unfold commutes in Hcm. rewrite Hcm in H4.
  2: { intros r Hr Hk Hid. destruct (Hprunable _ Hid) as (r' & x & k & Hr' & Hid' & _).
    apply by_uk_some in Hr' as [Hin Hkey].
    assert (r' = r) as -> by (eapply (pk_sorted_inj run_id); [apply Hhs|done|done|done]).
    destruct (Hpp _ Hid) as [_ Hnk]. apply Hnk. rewrite <- Hkey. by apply Hcand. }
  destruct (for_each (apply_prune now) pruned s) as [res s4] eqn:E4. injection H4 as -> <-. cbn [fst snd] in *.
  destruct (prune_loop pruned s u s4 Hpn Hhs Hprunable E4) as (S3 & F3 & C3).
  exists keys, s4. rewrite (stages_cost_same _ _ _ L1) in C2.
  split_and!; [do 2 (etransitivity; [eassumption|]); done|done| | |lia].
  - eapply replacing_frame; [exact F3| |done]. intros key Hk Hk2. apply in_map_iff in Hk2 as (id & <- & Hid).
    destruct (Hpp id Hid) as [_ Hnk]. by apply Hnk, Hcand.
  - intros key Hk. destruct (K2 key Hk) as (c & Hc & E & Hu). exists c. split_and!; [done|done|].
    intros Hs. apply Hu. eapply rollback_safe_frame; [exact F1| |done]. subst key.
    apply I2 in Hk. rewrite Hcancel in Hk. apply keys_at_in in Hk as (i & c' & Hi & Hc' & E). rewrite <- E.
    eapply (keys_apart _ _ i c' Hdis); [|done]. apply in_app_iff. by left.
Qed.
End Writes.

Lemma empty_planned prepared t : planned prepared 0 (empty_batch (length prepared)) t.
Proof. split; [constructor|done|]. by intros []. Qed.

(** The capacity check counts every executing run. *)
Lemma counted_executing t :
  sql_count executing t <= sql_count (fun r => not_deleted r && state_in (counted_states reclaim) r) t.
Proof.
  apply sql_count_weaken. intros r. unfold executing, counted_states, state_in. rewrite !andb_true_iff.
  intros [-> Hs]. split; [done|]. destruct reclaim; [done|]. cbn in *. rewrite !orb_true_iff in *. tauto.
Qed.

Lemma create_tx_ok st prepared prune acknowledged t res t' :
  List.NoDup (map key_of prepared) -> (forall c, In c prepared -> prepared_ok c /\ stable c) ->
  healthy t -> clock_ok now t ->
  create_tx st now prepared reclaim prune replace acknowledged t = (Ok res, t') ->
  exists keys s, rtc table_step t s /\ t' = revive keys s /\ replacing keys s /\ revives prepared keys t /\
    sql_count executing s <= maxActiveRuns st.
Proof.
  intros Hnd Hok Hh Hc H. unfold create_tx in H.
  apply bind_ok in H as (n & t1 & Hsw & H). rewrite sweepTx_healthy in Hsw by done. injection Hsw as _ <-.
  set (t1 := map (sweep_row now) t) in *.
  assert (Hst1 : rtc table_step t t1) by (apply steps_map; intros r Hr; by eapply sweep_row_step).
  pose proof (steps_healthy _ _ Hst1 Hh) as Hh1.
  assert (Hc1 : clock_ok now t1) by (apply clock_ok_map; [apply sweep_keeps|done]).
  apply bind_ok in H as (b & t2 & Hcl & H).
  destruct (classify_loop prepared 0 prepared _ _ _ _ Hnd ltac:(done) Hh1 Hc1 (empty_planned _ _) Hcl)
    as (Hst2 & _ & Hc2 & Hplan & Hsafe2).
  pose proof (steps_healthy _ _ Hst2 Hh1) as Hh2.
  apply bind_ok in H as (tt2 & t2' & Hget & H). injection Hget as <- <-.
  apply bind_ok in H as (pruned & t2' & Hpr & H). injection Hpr as Hpr <-.
  destruct (prune_ids_ok _ _ _ _ Hh2 Hc2 Hpr) as [Hpn Hpp].
  apply bind_ok in H as (u1 & t2' & Hg1 & H). apply guard_ok in Hg1 as [_ ->].
  apply bind_ok in H as (u2 & t2' & Hgr & H). apply for_each_check_group in Hgr as ->.
  apply bind_ok in H as (tt3 & t2' & Hget & H). injection Hget as <- <-.
  apply bind_ok in H as (u3 & t2' & Hg2 & H). apply guard_ok in Hg2 as [Hcap ->].
  apply bind_ok in H as (b1 & t3 & A1 & H). apply bind_ok in H as (b2 & t4 & A2 & H).
  apply bind_ok in H as (b3 & t5 & A3 & H). apply bind_ok in H as (b4 & t6 & A4 & H).
  apply bind_ok in H as (b5 & t7 & A5 & H). apply bind_ok in H as (b6 & t8 & A6 & H).
  apply bind_ok in H as (u4 & t9 & Hprune & H). injection H as _ <-.
  destruct (writes_ok prepared Hnd Hok _ b t2 pruned b2 t4 b3 t5 b6 t8 u4 t9 Hh2 Hplan Hpn Hpp)
    as (keys & s & S3 & -> & R & K & Hcnt); [|exact A3| |exact Hprune|].
  { unfold run_stages, before, sg_list, bind, ret. cbn [flat_map sg_acts sg_apply list_of].
    by rewrite app_nil_r, A1, app_nil_r, A2. }
  { unfold run_stages, after, sg_list, bind, ret. cbn [flat_map sg_acts sg_apply list_of].
    by rewrite app_nil_r, A4, app_nil_r, A5, app_nil_r, A6. }
  exists keys, s. split_and!; [do 2 (etransitivity; [eassumption|]); done|done|done| |].
  - intros key Hk. destruct (K key Hk) as (c & Hin & E & Hu). exists c. split_and!; [done|done|].
    intros Hs. by apply Hu, Hsafe2, sweep_rollback_safe.
  - apply Z.ltb_ge in Hcap. pose proof (counted_executing t2) as Hce. rewrite stages_costs in Hcnt. lia.
Qed.
End Classify.
End BatchRefine.
