(* ===== verification/StoreSystem.v ===== *)
(** * The store as a whole

    The operations of [Store] as one type, the tables they can produce, the
    refinement of StoreSteps by all of them that roll back no immutable
    replacement, and what such a rollback leaves. *)
From stdpp Require Import base list strings relations.
From Stdlib Require Import ZArith Lia.
From S2P Require Import Prelude GoStrings GoUrl GoJson Sha256 Contract Validation Decode LocalRun Sql StoreRow StoreOps StoreBatch Fixture StoreValid StoreSteps StoreRefine StoreViews StoreBatchRefine.


Local Open Scope Z_scope.
Local Open Scope string_scope.

(** The methods of [Store] that read or write the table, with their clock
    readings. *)
Inductive operation : Type :=
| OpSweep (now : time)
| OpGet (t0 : time) (runID : string)
| OpList (t0 : time) (limit : Z) (after : string) (activeOnly : bool)
| OpClaim (t0 now : time) (input : ClaimInput)
| OpUpdateStatus (t0 now : time) (input : StatusInput)
| OpAbort (now : time) (runID owner : string) (expectedRevision : Z)
| OpCancel (t0 now : time) (runID : string)
| OpDelete (t0 now : time) (runID : string)
| OpCreate (t0 now : time) (input : CreateInput)
| OpCreateBatch (now : time) (inputs : list CreateInput)
| OpReconcile (now : time) (inputs : list CreateInput) (prune replace acknowledged : bool).

Section System.
Context {C : SnapshotCodec}.

(** The table an operation leaves behind, whatever it returns. *)
Definition exec_op (st : Store) (op : operation) (t : table) : table :=
  match op with
  | OpSweep now => snd (Sweep now t)
  | OpGet t0 id => snd (Get t0 id t)
  | OpList t0 limit after active => snd (store_list t0 limit after active t)
  | OpClaim t0 now i => snd (Claim st t0 now i t)
  | OpUpdateStatus t0 now i => snd (UpdateStatus t0 now i t)
  | OpAbort now id owner rev => snd (abortPendingConfiguration now id owner rev t)
  | OpCancel t0 now id => snd (Cancel t0 now id t)
  | OpDelete t0 now id => snd (Delete t0 now id t)
  | OpCreate t0 now i => snd (Create st t0 now i t)
  | OpCreateBatch now is_ => snd (CreateBatch st now is_ t)
  | OpReconcile now is_ prune replace ack => snd (ReconcileWorkstations st now is_ prune replace ack t)
  end.

(** The inputs of a batch, and the clock reading of its transaction. *)
Definition op_inputs (op : operation) : list CreateInput :=
  match op with
  | OpCreate _ _ i => [i]
  | OpCreateBatch _ inputs | OpReconcile _ inputs _ _ _ => inputs
  | _ => []
  end.

Definition op_now (op : operation) : time :=
  match op with
  | OpSweep now | OpGet now _ | OpList now _ _ _ | OpClaim _ now _ | OpUpdateStatus _ now _
  | OpAbort now _ _ _ | OpCancel _ now _ | OpDelete _ now _ | OpCreate _ now _
  | OpCreateBatch now _ | OpReconcile now _ _ _ _ => now
  end.

(** An input asks for the active snapshot of a run whose immutable
    replacement is under way: the batch rolls the replacement back. *)
Definition rolls_back (t : table) (i : CreateInput) : bool :=
  match canonicalSnapshot (ci_ResolvedRun i), find_key (ci_IdempotencyKey i) t with
  | Ok (_, _, digest), Some r =>
      (request_digest r =? digest) && negb (default "" (pending_snapshot r) =? "") && negb (delete_requested r =? 0)%Z
  | _, _ => false
  end.

Definition rolled_back (inputs : list CreateInput) (t : table) : list string :=
  map ci_IdempotencyKey (List.filter (rolls_back t) inputs).

Definition admissible_batch (now : time) (inputs : list CreateInput) (t : table) : Prop :=
  clock_ok now t /\ List.Forall stable_input inputs.

(** The clock is not behind the creation times of the rows; the marshalled
    document of an input decodes back to the document; a rollout is aborted
    only while it is preparing, which is where the reconciler does it. *)
Definition admissible (op : operation) (t : table) : Prop :=
  match op with
  | OpSweep now => clock_ok now t
  | OpGet t0 _ => clock_ok t0 t
  | OpList t0 _ _ _ => clock_ok t0 t
  | OpClaim t0 now _ | OpUpdateStatus t0 now _ | OpCancel t0 now _ | OpDelete t0 now _ =>
      clock_ok t0 t /\ clock_ok now t
  | OpAbort now id owner rev => clock_ok now t /\ aborts_preparing id owner rev t
  | OpCreate t0 now i => clock_ok t0 t /\ admissible_batch now [i] t
  | OpCreateBatch now inputs | OpReconcile now inputs _ _ _ => admissible_batch now inputs t
  end.

Lemma rolls_back_safe c t : prepared_ok c -> rolls_back t (pc_input c) = false -> rollback_safe c t.
Proof.
  intros O H r Hr Hd Hp. unfold rolls_back in H. rewrite (po_snapshot _ O) in H.
  change (ci_IdempotencyKey (pc_input c)) with (key_of c) in H. rewrite Hr, Hd, String.eqb_refl in H.
  apply String.eqb_neq in Hp. rewrite Hp in H. cbn in H. bool_prop. done.
Qed.

(** The prepared form of an admissible batch. *)
Lemma admissible_prepared now inputs t prepared :
  admissible_batch now inputs t -> prepare [] [] [] inputs = Ok prepared ->
  List.NoDup (map key_of prepared) /\ (forall c, In c prepared -> prepared_ok c /\ stable c) /\
  map pc_input prepared = inputs.
Proof.
  intros (_ & Hst) Hp. apply prepare_ok in Hp as (Hin & Hok & Hnd). split_and!; [done| |done].
  intros c Hc. destruct (Hok c Hc) as [O _]. split; [done|]. apply prepared_stable; [done|].
  rewrite List.Forall_forall in Hst. apply Hst. rewrite <- Hin. by apply in_map.
Qed.

Lemma revives_rolled_back prepared inputs keys t :
  map pc_input prepared = inputs -> (forall c, In c prepared -> prepared_ok c /\ stable c) ->
  revives prepared keys t -> incl keys (rolled_back inputs t).
Proof.
  intros Hin Hok Hr key Hk. destruct (Hr key Hk) as (c & Hc & <- & Hu). unfold rolled_back.
  apply in_map_iff. exists (pc_input c). split; [done|]. apply List.filter_In. split; [rewrite <- Hin; by apply in_map|].
  destruct (rolls_back t (pc_input c)) eqn:E; [done|]. destruct Hu. by apply rolls_back_safe; [apply Hok|].
Qed.

(** [refines now inputs t t']: steps of the transition system, then the
    revival of rows whose replacement the batch rolled back. *)
Definition refines (now : time) (inputs : list CreateInput) (t t' : table) : Prop :=
  exists keys s, rtc table_step t s /\ t' = revive now keys s /\ replacing now keys s /\
    incl keys (rolled_back inputs t).

Lemma refines_steps now inputs t t' : rtc table_step t t' -> refines now inputs t t'.
Proof. intros H. exists [], t'. rewrite revive_nil. split_and!; [done|done|by intros ?|by intros ?]. Qed.

Lemma refines_sweep now inputs t1 t2 t' :
  rtc table_step t1 t2 -> incl (rolled_back inputs t2) (rolled_back inputs t1) ->
  refines now inputs t2 t' -> refines now inputs t1 t'.
Proof.
  intros H Hi (keys & s & Hs & E & R & K). exists keys, s. split_and!; [by etransitivity|done|done|].
  by eapply incl_tran.
Qed.

Lemma create_tx_refines st now inputs prepared reclaim prune replace ack t res t' :
  healthy t -> admissible_batch now inputs t -> prepare [] [] [] inputs = Ok prepared ->
  create_tx st now prepared reclaim prune replace ack t = (Ok res, t') ->
  exists keys s, rtc table_step t s /\ t' = revive now keys s /\ replacing now keys s /\
    incl keys (rolled_back inputs t) /\ sql_count executing s <= maxActiveRuns st.
Proof.
  intros Hh Ha Hp H. destruct (admissible_prepared _ _ _ _ Ha Hp) as (Hnd & Hok & Hin).
  destruct (create_tx_ok _ _ _ _ _ _ _ _ _ _ Hnd Hok Hh (proj1 Ha) H) as (keys & s & S & E & R & K & Hcap).
  exists keys, s. split_and!; [done..| |done]. by eapply revives_rolled_back.
Qed.

Lemma moves_createBatch st now inputs reclaim prune replace ack t :
  healthy t -> admissible_batch now inputs t ->
  refines now inputs t (snd (createBatch st now inputs reclaim prune replace ack t)).
Proof.
  intros Hh Ha. unfold createBatch. rewrite guard_bind. destruct (_ || _); [by apply refines_steps|].
  unfold bind, lift. destruct (prepare [] [] [] inputs) as [prepared|] eqn:Ep; [|by apply refines_steps].
  unfold transaction. destruct (create_tx _ _ _ _ _ _ _ _) as [[res|e] t'] eqn:E; [|by apply refines_steps].
  destruct (create_tx_refines _ _ _ _ _ _ _ _ _ _ _ Hh Ha Ep E) as (keys & s & S & ? & R & K & _). by exists keys, s.
Qed.

(** A sweep does not make a batch inadmissible, nor start a rollback. *)
Lemma admissible_sweep t0 now inputs t :
  admissible_batch now inputs t -> admissible_batch now inputs (map (sweep_row t0) t).
Proof. intros (Hc & Hst). split; [|done]. apply clock_ok_map; [apply sweep_keeps|done]. Qed.

Lemma rolls_back_sweep t0 t i : healthy t -> rolls_back (map (sweep_row t0) t) i = true -> rolls_back t i = true.
Proof.
  intros Hh. unfold rolls_back. destruct (canonicalSnapshot _) as [[[snap x] digest]|]; [|done].
  destruct (find_key _ (map _ t)) as [r'|] eqn:Hr'; [|done]. intros H. pose proof H as H0.
  apply andb_true_iff in H0 as [H0 _]. apply andb_true_iff in H0 as [_ H0]. apply negb_true_iff, String.eqb_neq in H0.
  by rewrite (sweep_find_staged t0 _ _ _ Hh Hr' H0).
Qed.

Lemma rolled_back_sweep t0 t inputs : healthy t -> incl (rolled_back inputs (map (sweep_row t0) t)) (rolled_back inputs t).
Proof.
  intros Hh key Hk. apply in_map_iff in Hk as (i & <- & Hi). apply List.filter_In in Hi as [Hi Hr].
  apply in_map, List.filter_In. split; [done|]. by eapply rolls_back_sweep.
Qed.

Lemma moves_Create st t0 now i t :
  healthy t -> clock_ok t0 t -> admissible_batch now [i] t -> refines now [i] t (snd (Create st t0 now i t)).
Proof.
  intros Hh Hc Ha. unfold Create. erewrite bind_run by (by apply Sweep_healthy).
  apply (refines_sweep _ _ _ (map (sweep_row t0) t)); [|by apply rolled_back_sweep|].
  { apply updates_steps. pose proof (moves_sweep t0 t Hh Hc) as Hm. unfold moves in Hm.
    by rewrite Sweep_healthy in Hm. }
  pose proof (moves_createBatch st now [i] false false false false (map (sweep_row t0) t)
    (sweep_preserves t0 t Hh Hc) (admissible_sweep _ _ _ _ Ha)) as Hb.
  unfold bind. destruct (createBatch _ _ _ _ _ _ _ _) as [[rs|e] t']; exact Hb.
Qed.

Lemma operation_refines st op t :
  healthy t -> admissible op t -> refines (op_now op) (op_inputs op) t (exec_op st op t).
Proof.
  intros Hh Ha. destruct op; cbn in Ha.
  1-8: apply refines_steps, updates_steps.
  - by apply moves_sweep.
  - by apply moves_Get.
  - by apply moves_list.
  - destruct Ha. by apply moves_Claim.
  - destruct Ha. by apply moves_UpdateStatus.
  - destruct Ha. by apply moves_abort.
  - destruct Ha. by apply moves_requestStop.
  - destruct Ha. by apply moves_Delete.
  - destruct Ha. by apply moves_Create.
  - by apply moves_createBatch.
  - by apply moves_createBatch.
Qed.

(** Without a rollback of a replacement, nothing but steps. *)
Lemma operation_moves st op t :
  healthy t -> admissible op t -> rolled_back (op_inputs op) t = [] -> rtc table_step t (exec_op st op t).
Proof.
  intros Hh Ha Hr. destruct (operation_refines st op t Hh Ha) as (keys & s & Hs & -> & _ & K). rewrite Hr in K.
  assert (keys = []) as -> by (destruct keys as [|key keys]; [done|by destruct (K key (or_introl eq_refl))]).
  by rewrite revive_nil.
Qed.

(** ** Tables the operations produce *)

(** By any operations, and by operations that roll back no replacement. *)
Inductive produced (st : Store) : table -> Prop :=
| produce_empty : produced st []
| produce_op op t : produced st t -> admissible op t -> produced st (exec_op st op t).

Inductive reachable (st : Store) : table -> Prop :=
| reach_empty : reachable st []
| reach_op op t : reachable st t -> admissible op t -> rolled_back (op_inputs op) t = [] ->
    reachable st (exec_op st op t).

Lemma healthy_nil : healthy [].
Proof. split; [constructor|]. split; [constructor|]. done. Qed.

Lemma reachable_healthy st t : reachable st t -> healthy t.
Proof.
  induction 1 as [|op t Hr IH Ha Hn]; [apply healthy_nil|].
  eapply steps_healthy; [by apply operation_moves|done].
Qed.

(** ** After a rolled back replacement *)

(** A healthy table in which some rows were revived. *)
Definition wedged (t : table) : Prop :=
  exists now key keys s, healthy s /\ replacing now (key :: keys) s /\ t = revive now (key :: keys) s.

Lemma revived_invalid now r x k :
  live now r x k -> delete_requested r = 1 ->
  is_Some (scanStoredRun (rollback_update now r)) /\ row_record (rollback_update now r) = None.
Proof.
  intros (V & _) Hone. split.
  - destruct (rv_stamps _ _ _ V) as (S1 & S2 & S3 & S4 & S5 & S6). eexists. apply scanStoredRun_some.
    split; [by right|]. exists (touch now k). split; [|reflexivity]. by repeat split.
  - destruct (row_record (rollback_update now r)) as [s|] eqn:E; [|done]. exfalso.
    apply row_record_some in E as (x' & k' & V' & _). by pose proof (rv_deleting _ _ _ V' Hone eq_refl).
Qed.

(** A row no reader accepts makes every read of all rows fail. *)
Lemma valid_records_invalid rows r :
  In r rows -> is_Some (scanStoredRun r) -> row_record r = None -> State_terminal (state r) = false ->
  valid_records rows = Err ErrStoreUnavailable.
Proof.
  intros Hin Hs Hn Ht. induction rows as [|y rows IH]; [done|]. cbn [valid_records].
  destruct (scanStoredRun y) as [s|] eqn:Ey; [|done]. destruct Hin as [->|Hin].
  - unfold row_record in Hn. rewrite Ey in Hn. cbn in Hn. rewrite Hn.
    apply scanStoredRun_some in Ey as (_ & k & _ & ->). cbn. by rewrite Ht.
  - specialize (IH Hin). destruct (validateStoredRun s); [by rewrite IH|].
    destruct (State_terminal (v_State (sr_view s))); [exact IH|reflexivity].
Qed.

Lemma wedged_row t : wedged t ->
  exists r, In r t /\ is_Some (scanStoredRun r) /\ row_record r = None /\ state r = StatePreparing /\
    delete_requested r = 1 /\ not_deleted r = true.
Proof.
  intros (now & key & keys & s & Hh & Hr & ->). destruct (Hr key (or_introl eq_refl)) as (r & x & k & Hf & Hl & Hone).
  apply by_uk_some in Hf as [Hin Hkey]. exists (rollback_update now r).
  destruct (revived_invalid now r x k Hl Hone) as [H1 H2]. split_and!; [|done..|].
  - apply sql_update_in. exists r. split; [done|].
    assert (Ha : among (key :: keys) r = true) by (apply among_in; left; by symmetry). by rewrite Ha.
  - change (not_deleted r = true). by eapply live_not_deleted.
Qed.

Lemma wedged_sweep t : wedged t ->
  validate t = Err ErrStoreUnavailable /\ forall now, sweepTx now t = (Err ErrStoreUnavailable, t).
Proof.
  intros Hw. destruct (wedged_row t Hw) as (r & Hin & Hs & Hn & Hst & _ & Hd).
  assert (Ht : State_terminal (state r) = false) by (by rewrite Hst). split.
  - unfold validate. destruct (_ <? _)%Z; [done|]. by rewrite (valid_records_invalid t r).
  - intros now. unfold sweepTx, bind, get, lift. rewrite (valid_records_invalid _ r); [done| |done..].
    apply List.filter_In. done.
Qed.

Lemma wedged_Sweep t now : wedged t -> Sweep now t = (Err ErrStoreUnavailable, t).
Proof. intros Hw. unfold Sweep, transaction. by rewrite (proj2 (wedged_sweep t Hw) now). Qed.

Definition aborts (op : operation) : bool := match op with OpAbort _ _ _ _ => true | _ => false end.

(** Every operation but the abandoning of a rollout sweeps, and so does
    nothing. *)
Lemma wedged_createBatch st now inputs reclaim prune replace ack t :
  wedged t -> snd (createBatch st now inputs reclaim prune replace ack t) = t.
Proof.
  intros Hw. unfold createBatch. rewrite guard_bind. destruct (_ || _); [done|].
  unfold bind, lift. destruct (prepare _ _ _ _); [|done]. unfold transaction, create_tx, bind at 1.
  by rewrite (proj2 (wedged_sweep t Hw) now).
Qed.

Lemma wedged_stuck st op t : wedged t -> aborts op = false -> exec_op st op t = t.
Proof.
  intros Hw Ha. destruct op; try discriminate Ha; cbn [exec_op].
  all: try (by apply wedged_createBatch).
  all: unfold Get, store_list, Claim, UpdateStatus, Cancel, Delete, requestStop, Create; rewrite ?guard_bind;
    repeat match goal with |- context [if ?b then (Err _, _) else _] => destruct b; [done|] end;
    unfold bind; try (by rewrite (wedged_Sweep t _ Hw)).
Qed.

(** Abandoning a rollout never matches a revived row: the rollback cleared
    its lease. *)
Lemma wedged_abort st now id owner rev t :
  wedged t -> clock_ok now t -> aborts_preparing id owner rev t -> wedged (exec_op st (OpAbort now id owner rev) t).
Proof.
  intros (u & key & keys & s & Hh & Hr & ->) Hc Hp. set (ks := key :: keys) in *.
  set (w := fun r => negb (among ks r) && abort_where id owner rev r).
  assert (E : sql_update (abort_where id owner rev) (abort_update now) (revive u ks s) =
              revive u ks (sql_update w (abort_update now) s)).
  { unfold revive, sql_update. rewrite !map_map. apply map_ext. intros r. unfold w.
    destruct (among ks r) eqn:Ea; cbn [negb andb].
    - rewrite Ea. assert (Hw : abort_where id owner rev (rollback_update u r) = false); [|by rewrite Hw].
      unfold abort_where. cbn. by rewrite andb_false_r.
    - destruct (abort_where id owner rev r); [|by rewrite Ea].
      change (among ks (abort_update now r)) with (among ks r). by rewrite Ea. }
  assert (Hin : forall r, In r s -> among ks r = false -> In r (revive u ks s)).
  { intros r Hr0 Ea. apply sql_update_in. exists r. by rewrite Ea. }
  assert (Hs : rtc table_step s (sql_update w (abort_update now) s)).
  { apply steps_update. intros r Hr0 Hw. apply andb_true_iff in Hw as [Ea Hw]. apply negb_true_iff in Ea.
    pose proof (Hp r (Hin r Hr0 Ea) Hw) as Hst.
    destruct (row_ok_active r) as (x & k & V & Hd); [by apply Hh|by rewrite Hst|].
    eapply rs_abort; [|done]. split_and!; [done|done|]. apply (Hc r); [by apply Hin|apply V]. }
  assert (Hw : wedged (revive u ks (sql_update w (abort_update now) s))).
  { exists u, key, keys, (sql_update w (abort_update now) s). split_and!; [by eapply steps_healthy| |done].
    intros key' Hk. destruct (Hr key' Hk) as (r & x & k & Hf & H). exists r, x, k. split; [|done].
    pose proof (by_uk_some _ _ _ _ Hf) as [_ Hkey]. rewrite <- Hkey in Hk. apply among_in in Hk.
    assert (Hwr : w r = false) by (unfold w, ks; by rewrite Hk).
    unfold find_key in *. rewrite by_uk_update by done. rewrite Hf. cbn -[w]. by rewrite Hwr. }
  cbn [exec_op]. unfold abortPendingConfiguration, exec_one, bind, sql_exec, guard. rewrite E. by destruct (negb _).
Qed.

(** A table the operations produce is healthy, or wedged for good. *)
Lemma produced_cases st t : produced st t -> healthy t \/ wedged t.
Proof.
  induction 1 as [|op t _ IH Ha]; [left; apply healthy_nil|]. destruct IH as [Hh|Hw].
  - destruct (operation_refines st op t Hh Ha) as (keys & s & Hs & -> & R & _).
    pose proof (steps_healthy _ _ Hs Hh) as Hh'. destruct keys as [|key keys]; [left; by rewrite revive_nil|].
    right. by exists (op_now op), key, keys, s.
  - right. destruct (aborts op) eqn:Eo; [|by rewrite wedged_stuck].
    destruct op; try discriminate Eo. destruct Ha. by apply wedged_abort.
Qed.
End System.

(** * Concrete tables of the store

    Tables reached from the empty one by concrete operations: the inputs at
    which the store's properties are exercised. *)

Local Open Scope Z_scope.
Local Open Scope string_scope.

(** Decidable forms of the side conditions. *)
Definition clock_okb (now : time) (t : table) : bool :=
  forallb (fun r => match created_at r with RFC3339 c => (c <=? now)%Z | Malformed => true end) t.

Lemma clock_okb_ok now t : clock_okb now t = true -> clock_ok now t.
Proof.
  intros H r c Hin Hc. unfold clock_okb in H. rewrite forallb_forall in H. specialize (H r Hin).
  rewrite Hc in H. by bool_prop.
Qed.

Definition unstagedb (t : table) : bool :=
  forallb (fun r => default "" (pending_snapshot r) =? "") t.

Lemma unstaged_rolled_back `{SnapshotCodec} inputs t : unstagedb t = true -> rolled_back inputs t = [].
Proof.
  intros Hu. unfold rolled_back. assert (E : List.filter (rolls_back t) inputs = []); [|by rewrite E].
  induction inputs as [|i inputs IH]; [done|]. cbn. rewrite IH. unfold rolls_back.
  destruct (canonicalSnapshot _) as [[[snap x] digest]|]; [|done]. destruct (find_key _ t) as [r|] eqn:E; [|done].
  apply by_uk_some in E as [Hin _]. unfold unstagedb in Hu. rewrite forallb_forall in Hu. rewrite (Hu r Hin).
  cbn. by rewrite andb_false_r.
Qed.

Lemma stable_a : stable_input input_a.
Proof. intros snap x d H. vm_compute in H. injection H as <- <- _. vm_compute. reflexivity. Qed.
Lemma stable_b : stable_input input_b.
Proof. intros snap x d H. vm_compute in H. injection H as <- <- _. vm_compute. reflexivity. Qed.
Lemma stable_c : stable_input input_c.
Proof. intros snap x d H. vm_compute in H. injection H as <- <- _. vm_compute. reflexivity. Qed.
Lemma stable_job : stable_input input_job.
Proof. intros snap x d H. vm_compute in H. injection H as <- <- _. vm_compute. reflexivity. Qed.

(** Instants of the scenarios, in seconds. *)
Definition at_second (s : Z) : time := s * Second.

(** A job created at second 10; the same job claimed at second 11 for half a
    minute; the workstation created at second 10. *)
Definition create_job : operation := OpCreate (at_second 10) (at_second 10) input_job.
Definition job_table : table := Eval vm_compute in exec_op fixture_store create_job [].
Definition job_claim : ClaimInput := mkClaimInput "job" "owner-a" 1 (30 * Second).
Definition claim_job : operation := OpClaim (at_second 11) (at_second 11) job_claim.
Definition claimed_table : table := Eval vm_compute in exec_op fixture_store claim_job job_table.
Definition create_dev : operation := OpReconcile (at_second 10) [input_a] false false false.
Definition dev_table : table := Eval vm_compute in exec_op fixture_store create_dev [].

Lemma create_job_admissible : admissible create_job [].
Proof.
  split; [by intros ? ? []|]. split; [by intros ? ? []|].
  constructor; [apply stable_job|constructor].
Qed.

Lemma job_reachable : reachable fixture_store job_table.
Proof.
  replace job_table with (exec_op fixture_store create_job []) by (vm_compute; reflexivity).
  apply reach_op; [constructor|apply create_job_admissible|by apply unstaged_rolled_back].
Qed.

Lemma claimed_reachable : reachable fixture_store claimed_table.
Proof.
  replace claimed_table with (exec_op fixture_store claim_job job_table) by (vm_compute; reflexivity).
  apply reach_op; [apply job_reachable| |done]. split; apply clock_okb_ok; vm_compute; reflexivity.
Qed.

Lemma create_dev_admissible : admissible create_dev [].
Proof. split; [by intros ? ? []|]. constructor; [apply stable_a|constructor]. Qed.

Lemma dev_reachable : reachable fixture_store dev_table.
Proof.
  replace dev_table with (exec_op fixture_store create_dev []) by (vm_compute; reflexivity).
  apply reach_op; [constructor|apply create_dev_admissible|by apply unstaged_rolled_back].
Qed.

(** The workstation's immutable replacement, requested at second 11, and the
    batch that asks for its first document again before the cleanup ends. *)
Definition replace_dev : operation := OpReconcile (at_second 11) [input_c] false true true.
Definition replaced_table : table := Eval vm_compute in exec_op fixture_store replace_dev dev_table.
Definition revert_dev : operation := OpReconcile (at_second 12) [input_a] false true true.
Definition reverted_table : table := Eval vm_compute in exec_op fixture_store revert_dev replaced_table.

Lemma replace_dev_admissible : admissible replace_dev dev_table.
Proof. split; [apply clock_okb_ok; vm_compute; reflexivity|]. constructor; [apply stable_c|constructor]. Qed.

Lemma revert_dev_admissible : admissible revert_dev replaced_table.
Proof. split; [apply clock_okb_ok; vm_compute; reflexivity|]. constructor; [apply stable_a|constructor]. Qed.

Lemma replaced_reachable : reachable fixture_store replaced_table.
Proof.
  replace replaced_table with (exec_op fixture_store replace_dev dev_table) by (vm_compute; reflexivity).
  apply reach_op; [apply dev_reachable|apply replace_dev_admissible|by apply unstaged_rolled_back].
Qed.

Lemma reachable_produced `{SnapshotCodec} st t : reachable st t -> produced st t.
Proof. induction 1; [apply produce_empty|by apply produce_op]. Qed.

Lemma reverted_produced : produced fixture_store reverted_table.
Proof.
  replace reverted_table with (exec_op fixture_store revert_dev replaced_table) by (vm_compute; reflexivity).
  apply produce_op; [apply reachable_produced, replaced_reachable|apply revert_dev_admissible].
Qed.

Lemma replaced_healthy : healthy replaced_table.
Proof. eapply reachable_healthy, replaced_reachable. Qed.
Lemma job_healthy : healthy job_table.
Proof. eapply reachable_healthy, job_reachable. Qed.
Lemma claimed_healthy : healthy claimed_table.
Proof. eapply reachable_healthy, claimed_reachable. Qed.
Lemma dev_healthy : healthy dev_table.
Proof. eapply reachable_healthy, dev_reachable. Qed.

Ltac clocks := apply clock_okb_ok; vm_compute; reflexivity.
