(* ===== verification/StoreProps.v ===== *)
(** * Properties of the run store

    What the store promises to its callers, each with a concrete instance. *)
From stdpp Require Import base list strings relations.
From Stdlib Require Import ZArith Lia.
From S2P Require Import Prelude GoStrings GoUrl GoJson Sha256 Contract Validation Decode LocalRun Sql StoreRow StoreOps StoreBatch Fixture StoreValid StoreSteps StoreRefine StoreViews StoreBatchRefine StoreSystem.


Local Open Scope Z_scope.
Local Open Scope string_scope.

Section Props.
Context {C : SnapshotCodec}.

(** ** Helper lemmas *)

Lemma row_record_state r s : row_record r = Some s -> v_State (sr_view s) = state r.
Proof. intros H. by apply row_record_ids in H as (_ & _ & ? & _). Qed.

(** A swept row is not due again. *)
Lemma sweep_row_settled now r : sweep_due now (sweep_row now r) = false.
Proof.
  destruct (sweep_due now r) eqn:E.
  - assert (Hs : state (sweep_row now r) = StateStopping).
    { unfold sweep_row. unfold sweep_due in E. destruct (not_deleted r); [|done]. cbn in E.
      destruct (row_record r); [|done]. destruct (deadline_due _ _); [done|]. cbn in E. by rewrite E. }
    unfold sweep_due. destruct (row_record (sweep_row now r)) as [s|] eqn:Er; [|apply andb_false_r].
    apply row_record_state in Er. unfold deadline_due, retention_due. rewrite Er, Hs. cbn. by rewrite andb_false_r.
  - assert (Hs : sweep_row now r = r); [|by rewrite Hs].
    unfold sweep_row. unfold sweep_due in E. destruct (not_deleted r); [|done]. cbn in E.
    destruct (row_record r); [|done]. apply orb_false_iff in E as [-> ->]. done.
Qed.

Lemma sweep_row_id now r : sweep_due now r = false -> sweep_row now r = r.
Proof.
  intros E. unfold sweep_row. unfold sweep_due in E. destruct (not_deleted r); [|done]. cbn in E.
  destruct (row_record r); [|done]. apply orb_false_iff in E as [-> ->]. done.
Qed.

Lemma sweep_row_idem now r : sweep_row now (sweep_row now r) = sweep_row now r.
Proof. apply sweep_row_id, sweep_row_settled. Qed.

Lemma sweep_keeps_row now t r : In r t -> sweep_due now r = false -> In r (map (sweep_row now) t).
Proof. intros Hin Hd. apply in_map_iff. exists r. split; [by apply sweep_row_id|done]. Qed.

Lemma sql_count_none w (t : table) : (forall r, In r t -> w r = false) -> sql_count w t = 0.
Proof.
  intros H. unfold sql_count. assert (E : List.filter w t = []); [|by rewrite E].
  induction t as [|r t IH]; [done|]. cbn. rewrite (H r) by (by left). apply IH. intros r' Hr'. apply H. by right.
Qed.

(** A readable row with identifier [id] is what a load finds. *)
Lemma load_row t r s :
  healthy t -> In r t -> row_record r = Some s -> sr_deletedAt s = None ->
  loadForUpdate (run_id r) t = (Ok s, t).
Proof.
  intros Hh Hin Hr Hd. apply row_record_some in Hr as (x & k & V & ->).
  apply load_valid; [apply Hh|done|done|done].
Qed.

Lemma row_steps_revision_eq r r' :
  rtc row_step r r' -> is_Some (row_record r) -> revision r' = revision r -> r' = r.
Proof.
  intros H Hv He. destruct H as [|r r1 r2 H1 H2]; [done|].
  apply row_steps_revision in H2. destruct (row_step_revision _ _ H1) as [?|[Hn _]]; [lia|].
  rewrite Hn in Hv. by destruct Hv.
Qed.

Lemma row_ok_phase r : row_ok r -> exists p, phase_of (state r) = Some p.
Proof.
  intros O. assert (Hv : State_valid (state r) = true).
  { destruct (ok_valid _ O) as [[s Hs]|Ht]; [|by apply State_terminal_valid].
    apply row_record_some in Hs as (x & k & V & _). apply V. }
  apply State_valid_phase in Hv as [p ->]. exists p. apply phase_of_text.
Qed.

Lemma row_steps_lifecycle r r' p q :
  rtc row_step r r' -> row_ok r -> phase_of (state r) = Some p -> phase_of (state r') = Some q ->
  rtc lifecycle_step p q.
Proof.
  intros H. revert p. induction H as [r|r r1 r2 H1 _ IH]; intros p O Hp Hq.
  - rewrite Hp in Hq. injection Hq as <-. apply rtc_refl.
  - pose proof (row_step_ok _ _ H1 O) as O1. destruct (row_ok_phase _ O1) as [p1 Hp1].
    eapply rtc_l; [by eapply row_step_lifecycle|]. by apply IH.
Qed.

(** ** The store refines its transition system *)

(** C1: Run any operation of the store on a healthy table, with a clock that is
    not behind the rows, inputs that survive marshalling, and the abandoning of
    a rollout only for a preparing run.  Whether it succeeds or fails, the
    table it leaves is reached by steps of the abstract transition system (one
    guarded rule per kind of change), except for the rows of immutable
    replacements the batch rolled back: each of those had its key among the
    inputs, asked for the snapshot it still ran, was on its way to deletion,
    and is left preparing while marked for deletion.  An operation that rolls
    back no replacement takes steps only. *)
Theorem store_refines st op t :
  healthy t -> admissible op t ->
  (exists keys s, rtc table_step t s /\ exec_op st op t = revive (op_now op) keys s /\
     replacing (op_now op) keys s /\ incl keys (rolled_back (op_inputs op) t)) /\
  (rolled_back (op_inputs op) t = [] -> rtc table_step t (exec_op st op t)).
Proof. intros Hh Ha. split; [by apply operation_refines|by apply operation_moves]. Qed.

(** C2: Every table the operations can produce from the empty database (in any
    number, under the conditions of [admissible], up to the row limit of the
    validator) is of one of two kinds.  Either [Store.validate] accepts it when
    the controller reopens it and the sweep every method starts with succeeds;
    or some batch rolled back an immutable replacement and left a preparing
    row that is marked for deletion: then the validator refuses the table,
    every sweep fails, and no operation but the abandoning of a rollout changes
    it.  Tables produced without such a rollback are of the first kind. *)
Theorem reachable_validates st t now :
  produced st t -> Z.of_nat (length t) <= 100000 ->
  let opens := validate t = Ok tt /\ exists n, Sweep now t = (Ok n, map (sweep_row now) t) in
  let stuck := (exists r, In r t /\ state r = StatePreparing /\ delete_requested r = 1) /\
    validate t = Err ErrStoreUnavailable /\ Sweep now t = (Err ErrStoreUnavailable, t) /\
    forall op, aborts op = false -> exec_op st op t = t in
  (opens \/ stuck) /\ (reachable st t -> opens).
Proof.
  intros Hp Hlen opens stuck.
  assert (Hopens : healthy t -> opens).
  { intros Hh. split; [|eexists; by apply Sweep_healthy]. unfold validate.
    assert (Hl : (100000 <? Z.of_nat (length t))%Z = false) by (apply Z.ltb_ge; lia).
    rewrite Hl, valid_records_healthy; [done|]. apply Hh. }
  split; [|intros Hr; by eapply Hopens, reachable_healthy].
  destruct (produced_cases _ _ Hp) as [Hh|Hw]; [left; auto|right]. split_and!.
  - destruct (wedged_row t Hw) as (r & Hin & _ & _ & Hst & Hd & _). by exists r.
  - by apply wedged_sweep.
  - by apply wedged_Sweep.
  - intros op. by apply wedged_stuck.
Qed.

(** C3: A sweep brings every due row to its stopping state in one pass and is
    idempotent: it reports the number of due rows, and a second sweep at the
    same instant changes nothing. *)
Theorem sweep_settles now t :
  healthy t -> clock_ok now t ->
  Sweep now t = (Ok (sql_count (sweep_due now) t), map (sweep_row now) t) /\
  Sweep now (map (sweep_row now) t) = (Ok 0, map (sweep_row now) t).
Proof.
  intros Hh Hc. split; [by apply Sweep_healthy|].
  rewrite Sweep_healthy by (by apply sweep_preserves). f_equal.
  - f_equal. apply sql_count_none. intros r Hr. apply in_map_iff in Hr as (r0 & <- & _). apply sweep_row_settled.
  - rewrite map_map. apply map_ext. intros r. apply sweep_row_idem.
Qed.

(** C4: The reconcile lease is exclusive.  While a run is leased to one owner
    and the lease has not expired, a claim by another owner fails with an
    ownership conflict (or as an invalid request) and writes nothing beyond
    the sweep. *)
Theorem claim_excludes st t0 now i t r a u :
  healthy t -> clock_ok t0 t -> In r t -> run_id r = cl_RunID i -> sweep_due t0 r = false ->
  is_Some (row_record r) -> reconcile_owner r = Some a -> a <> "" -> a <> cl_Owner i ->
  reconcile_until r = Some (RFC3339 u) -> now < u ->
  Claim st t0 now i t = (Err ErrInvalidRequest, t) \/
  Claim st t0 now i t = (Err ErrOwnershipConflict, map (sweep_row t0) t).
Proof.
  intros Hh Hc Hin Hid Hdue [s Hs] Ha Hne Hother Hu Hnow.
  unfold Claim. rewrite guard_bind. destruct (_ || _); [by left|]. right.
  erewrite bind_run by (by apply Sweep_healthy). pose proof (sweep_preserves t0 t Hh Hc) as Hh1.
  pose proof (sweep_keeps_row _ _ _ Hin Hdue) as Hin1. pose proof Hs as Hrec.
  apply row_record_some in Hs as (x & k & V & ->).
  assert (Hnd : st_deleted k = None).
  { destruct (State_terminal (state r)) eqn:Et; [|by eapply valid_live].
    pose proof (rv_unleased _ _ _ V Et) as Hz. rewrite Ha in Hz. done. }
  destruct (rv_stamps _ _ _ V) as (_ & _ & _ & _ & Hst & _). rewrite Hu in Hst.
  destruct (st_until k) as [u'|] eqn:Eu; [|done]. injection Hst as <-.
  apply String.eqb_neq in Hne, Hother. apply Z.ltb_lt in Hnow.
  rewrite <- Hid. rewrite (transaction_run _ _ (Err ErrOwnershipConflict) (map (sweep_row t0) t)); [done|].
  erewrite bind_run by (by apply (load_row _ _ _ Hh1 Hin1 Hrec Hnd)). cbn zeta. rewrite guard_bind.
  destruct (_ || _); [done|].
  cbn [record_of sr_view row_view populateRunMetadata bare_view v_ReconcileOwner v_ReconcileUntil].
  rewrite Ha, Eu. cbn. rewrite Hne, Hother. cbn [negb andb].
  erewrite bind_run by reflexivity. rewrite guard_bind. unfold After. by rewrite Hnow.
Qed.

(** What a mutation returns is what is stored.  A successful claim, status
    update (cursor-only, rollout completion, replacement completion or plain
    transition) or stop request returns exactly the view a read gives
    afterwards; a claim's is leased to the caller until [now + lease], at the
    next revision. *)
Theorem mutations_return_stored_view st t0 now t :
  healthy t -> clock_ok t0 t -> clock_ok now t ->
  (forall i v t', Claim st t0 now i t = (Ok v, t') ->
     reads t' (cl_RunID i) v /\ v_Revision v = cl_ExpectedRevision i + 1 /\
     v_ReconcileOwner v = cl_Owner i /\ v_ReconcileUntil v = Some (now + cl_Lease i)) /\
  (forall i v t', UpdateStatus t0 now i t = (Ok v, t') -> reads t' (si_RunID i) v) /\
  (forall id del v t', requestStop t0 now id del t = (Ok v, t') -> reads t' id v).
Proof.
  intros Hh H0 Hn. split_and!; intros *; [by apply Claim_reads|by apply UpdateStatus_reads|by apply requestStop_reads].
Qed.

(** A status update by a caller that does not hold the current revision
    and an unexpired lease fails with an ownership conflict (or as an invalid
    request) and writes nothing beyond the sweep. *)
Theorem stale_update_rejected t0 now i t r s :
  healthy t -> clock_ok t0 t -> In r t -> run_id r = si_RunID i -> sweep_due t0 r = false ->
  row_record r = Some s -> sr_deletedAt s = None ->
  (revision r <> si_ExpectedRevision i \/ default "" (reconcile_owner r) <> si_Owner i \/
   forall u, reconcile_until r = Some (RFC3339 u) -> u <= now) ->
  UpdateStatus t0 now i t = (Err ErrInvalidRequest, t) \/
  UpdateStatus t0 now i t = (Err ErrOwnershipConflict, map (sweep_row t0) t).
Proof.
  intros Hh Hc Hin Hid Hdue Hrec Hd Hstale.
  unfold UpdateStatus. rewrite guard_bind. destruct (status_input_bad i); [by left|]. right.
  erewrite bind_run by (by apply Sweep_healthy). pose proof (sweep_preserves t0 t Hh Hc) as Hh1.
  pose proof (sweep_keeps_row _ _ _ Hin Hdue) as Hin1. unfold bind at 1.
  assert (E : update_status_tx now i (map (sweep_row t0) t) = (Err ErrOwnershipConflict, map (sweep_row t0) t));
    [|by rewrite (transaction_run _ _ _ _ E)].
  unfold update_status_tx. rewrite <- Hid. erewrite bind_run by (by apply (load_row _ _ _ Hh1 Hin1 Hrec Hd)).
  apply row_record_some in Hrec as (x & k & V & ->). cbn zeta. rewrite guard_bind.
  cbn [record_of sr_view row_view populateRunMetadata bare_view v_State v_Revision v_ReconcileOwner v_ReconcileUntil].
  assert (Hb : negb (revision r =? si_ExpectedRevision i)%Z || negb (default "" (reconcile_owner r) =? si_Owner i)
               || negb (opt_and (fun u => After u now) (st_until k)) = true); [|by rewrite Hb].
  destruct Hstale as [Hs|[Hs|Hs]].
  - apply Z.eqb_neq in Hs. by rewrite Hs.
  - apply String.eqb_neq in Hs. rewrite Hs. cbn. by rewrite orb_true_r.
  - apply orb_true_iff. right. destruct (st_until k) as [u|] eqn:Eu; [|done]. cbn.
    destruct (rv_stamps _ _ _ V) as (_ & _ & _ & _ & Hst & _). rewrite Eu in Hst. apply Hs in Hst.
    unfold After. apply negb_true_iff, Z.ltb_ge. lia.
Qed.

(** Deletion is permanent: a tombstone is never changed or removed by any
    operation that rolls back no replacement. *)
Theorem tombstone_permanent st op t r :
  healthy t -> admissible op t -> rolled_back (op_inputs op) t = [] ->
  In r t -> is_Some (deleted_at r) -> In r (exec_op st op t).
Proof.
  intros Hh Ha Hn Hin Hd. destruct (steps_row _ _ r (operation_moves st op t Hh Ha Hn) Hin) as (r' & Hin' & Hs).
  by rewrite <- (row_steps_tombstone _ _ Hs Hd).
Qed.

(** Revisions identify row versions: if a readable row has the same
    revision before and after an operation, no column of it changed. *)
Theorem revision_identifies st op t r r' :
  healthy t -> admissible op t -> rolled_back (op_inputs op) t = [] -> In r t -> is_Some (row_record r) ->
  In r' (exec_op st op t) -> run_id r' = run_id r -> revision r' = revision r -> r' = r.
Proof.
  intros Hh Ha Hn Hin Hv Hin' Hid Hrev. pose proof (operation_moves st op t Hh Ha Hn) as Hm.
  destruct (steps_row _ _ r Hm Hin) as (r1 & Hin1 & Hs).
  assert (r1 = r') as ->.
  { eapply (pk_sorted_inj run_id); [apply (steps_healthy _ _ Hm Hh)|done|done|].
    rewrite Hid. by apply row_steps_keys in Hs as [? _]. }
  by apply row_steps_revision_eq.
Qed.

(** Every operation moves every run along the lifecycle: only from
    stopping into a terminal state, out of a terminal state only by a restart,
    a deletion request or a replacement. *)
Theorem operations_follow_lifecycle st op t r r' p q :
  healthy t -> admissible op t -> rolled_back (op_inputs op) t = [] ->
  In r t -> In r' (exec_op st op t) -> run_id r' = run_id r ->
  phase_of (state r) = Some p -> phase_of (state r') = Some q -> rtc lifecycle_step p q.
Proof.
  intros Hh Ha Hn Hin Hin' Hid Hp Hq. pose proof (operation_moves st op t Hh Ha Hn) as Hm.
  destruct (steps_row _ _ r Hm Hin) as (r1 & Hin1 & Hs).
  assert (r1 = r') as ->.
  { eapply (pk_sorted_inj run_id); [apply (steps_healthy _ _ Hm Hh)|done|done|].
    rewrite Hid. by apply row_steps_keys in Hs as [? _]. }
  eapply row_steps_lifecycle; [exact Hs|by apply Hh|done|done].
Qed.
End Props.

(** ** Instances *)

(** A claim takes steps; the batch that rolls the replacement back does not. *)
Lemma store_refines_witness :
  rtc table_step job_table (exec_op fixture_store claim_job job_table) /\
  rolled_back (op_inputs revert_dev) replaced_table = [dev_key] /\
  exists keys s, rtc table_step replaced_table s /\
    exec_op fixture_store revert_dev replaced_table = revive (at_second 12) keys s /\
    replacing (at_second 12) keys s /\ incl keys (rolled_back (op_inputs revert_dev) replaced_table).
Proof.
  split; [apply store_refines; [apply job_healthy|split; clocks|reflexivity]|].
  split; [vm_compute; reflexivity|].
  exact (proj1 (store_refines fixture_store revert_dev replaced_table replaced_healthy revert_dev_admissible)).
Defined.

(** A claimed job, and the table of the rolled back replacement. *)
Lemma reachable_validates_witness :
  (validate claimed_table = Ok tt /\
   exists n, Sweep (at_second 12) claimed_table = (Ok n, map (sweep_row (at_second 12)) claimed_table)) /\
  (exists r, In r reverted_table /\ state r = StatePreparing /\ delete_requested r = 1).
Proof.
  split.
  - apply (reachable_validates fixture_store claimed_table (at_second 12));
      [apply reachable_produced, claimed_reachable|vm_compute; congruence|apply claimed_reachable].
  - destruct (proj1 (reachable_validates fixture_store reverted_table (at_second 13) reverted_produced
      ltac:(vm_compute; congruence))) as [[Hbad _]|[H _]]; [vm_compute in Hbad; discriminate Hbad|exact H].
Defined.

(** The job's deadline (60 s) has passed at second 100. *)
Lemma sweep_settles_witness :
  sql_count (sweep_due (at_second 100)) job_table = 1 /\
  Sweep (at_second 100) job_table
  = (Ok (sql_count (sweep_due (at_second 100)) job_table), map (sweep_row (at_second 100)) job_table).
Proof.
  split; [vm_compute; reflexivity|].
  refine (proj1 (sweep_settles (at_second 100) job_table _ _)); [apply job_healthy|clocks].
Defined.

Definition claimed_row : row := Eval vm_compute in
  match claimed_table with r :: _ => r | [] => new_row (mkPrepared input_job "" job "") 0 None end.

Lemma claim_excludes_witness :
  let rival := mkClaimInput "job" "owner-b" 2 (30 * Second) in
  Claim fixture_store (at_second 12) (at_second 12) rival claimed_table = (Err ErrInvalidRequest, claimed_table) \/
  Claim fixture_store (at_second 12) (at_second 12) rival claimed_table
  = (Err ErrOwnershipConflict, map (sweep_row (at_second 12)) claimed_table).
Proof.
  intros rival.
  apply (claim_excludes _ _ _ rival claimed_table claimed_row "owner-a" (at_second 41));
    [apply claimed_healthy|clocks|left; reflexivity|vm_compute; reflexivity|vm_compute; reflexivity
    |vm_compute; eexists; reflexivity|reflexivity|discriminate|vm_compute; discriminate|reflexivity
    |vm_compute; reflexivity].
Defined.

Definition claimed_view : Run := Eval vm_compute in
  match fst (Claim fixture_store (at_second 11) (at_second 11) job_claim job_table) with
  | Ok v => v | Err _ => zero_Run end.

(** The owner moves the claimed job to preparing. *)
Definition prepare_job : StatusInput := mkStatusInput "job" "owner-a" 2 StatePreparing "" "starting" None.

Definition prepared_pair : result error Run * table := Eval vm_compute in
  UpdateStatus (at_second 12) (at_second 12) prepare_job claimed_table.

Definition stopped_pair : result error Run * table := Eval vm_compute in
  requestStop (at_second 12) (at_second 12) "job" false claimed_table.

Lemma mutations_return_stored_view_witness :
  (exists v, fst prepared_pair = Ok v /\ reads (snd prepared_pair) "job" v) /\
  exists v, fst stopped_pair = Ok v /\ reads (snd stopped_pair) "job" v.
Proof.
  destruct (mutations_return_stored_view fixture_store (at_second 12) (at_second 12) claimed_table) as (_ & Hu & Hs);
    [apply claimed_healthy|clocks|clocks|].
  split; (eexists; split; [reflexivity|]).
  - apply (Hu prepare_job). vm_compute. reflexivity.
  - apply (Hs "job" false). vm_compute. reflexivity.
Defined.

Definition claimed_record : storedRun := Eval vm_compute in
  match row_record claimed_row with
  | Some s => s | None => mkStoredRun zero_Run "" "" "" "" None "" "" "" "" end.

(** The lease (until second 41) has lapsed at second 50. *)
Lemma stale_update_rejected_witness :
  UpdateStatus (at_second 50) (at_second 50) prepare_job claimed_table = (Err ErrInvalidRequest, claimed_table) \/
  UpdateStatus (at_second 50) (at_second 50) prepare_job claimed_table
  = (Err ErrOwnershipConflict, map (sweep_row (at_second 50)) claimed_table).
Proof.
  apply (stale_update_rejected _ _ prepare_job claimed_table claimed_row claimed_record);
    [apply claimed_healthy|clocks|left; reflexivity|reflexivity|vm_compute; reflexivity|vm_compute; reflexivity|reflexivity|].
  right. right. intros u Hu. vm_compute in Hu. injection Hu as <-. vm_compute. congruence.
Defined.

(** The workstation is deleted: requested at second 11, claimed and finished at
    second 12. *)
Definition delete_dev : operation := OpDelete (at_second 11) (at_second 11) "dev".
Definition claim_dev : operation := OpClaim (at_second 12) (at_second 12) (mkClaimInput "dev" "owner-a" 2 (30 * Second)).
Definition finish_dev : operation :=
  OpUpdateStatus (at_second 12) (at_second 12) (mkStatusInput "dev" "owner-a" 3 StateCompleted "" "removed" None).
Definition deleting_table : table := Eval vm_compute in exec_op fixture_store delete_dev dev_table.
Definition finishing_table : table := Eval vm_compute in exec_op fixture_store claim_dev deleting_table.
Definition gone_table : table := Eval vm_compute in exec_op fixture_store finish_dev finishing_table.

Lemma gone_reachable : reachable fixture_store gone_table.
Proof.
  replace gone_table with (exec_op fixture_store finish_dev finishing_table) by (vm_compute; reflexivity).
  apply reach_op; [|split; clocks|done].
  replace finishing_table with (exec_op fixture_store claim_dev deleting_table) by (vm_compute; reflexivity).
  apply reach_op; [|split; clocks|done].
  replace deleting_table with (exec_op fixture_store delete_dev dev_table) by (vm_compute; reflexivity).
  apply reach_op; [apply dev_reachable|split; clocks|done].
Qed.

Lemma gone_healthy : healthy gone_table.
Proof. eapply reachable_healthy, gone_reachable. Qed.

Definition gone_row : row := Eval vm_compute in
  match gone_table with r :: _ => r | [] => new_row (mkPrepared input_a "" ws_a "") 0 None end.

Lemma tombstone_permanent_witness :
  In gone_row (exec_op fixture_store (OpDelete (at_second 20) (at_second 20) "dev") gone_table).
Proof.
  apply tombstone_permanent; [apply gone_healthy|split; clocks|reflexivity|left; reflexivity|vm_compute; eexists; reflexivity].
Defined.

Lemma revision_identifies_witness :
  hd claimed_row (exec_op fixture_store (OpGet (at_second 12) "job") claimed_table) = claimed_row.
Proof.
  apply (revision_identifies fixture_store (OpGet (at_second 12) "job") claimed_table claimed_row);
    [apply claimed_healthy|clocks|reflexivity|left; reflexivity|vm_compute; eexists; reflexivity
    |vm_compute; left; reflexivity|vm_compute; reflexivity|vm_compute; reflexivity].
Defined.

Lemma operations_follow_lifecycle_witness : rtc lifecycle_step Pending Preparing.
Proof.
  apply (operations_follow_lifecycle fixture_store
    (OpUpdateStatus (at_second 12) (at_second 12) prepare_job) claimed_table claimed_row
    (match snd prepared_pair with r :: _ => r | [] => claimed_row end));
    [apply claimed_healthy|split; clocks|reflexivity|left; reflexivity|vm_compute; left; reflexivity|reflexivity|reflexivity|reflexivity].
Defined.
