(* ===== verification/StoreBatchProps.v ===== *)
(** * Properties of creation, batches and listing *)
From stdpp Require Import base list strings relations.
From Stdlib Require Import ZArith Lia.
From S2P Require Import Prelude GoStrings GoUrl GoJson Sha256 Contract Validation Decode LocalRun Sql StoreRow StoreOps StoreBatch Fixture StoreValid StoreSteps StoreRefine StoreViews StoreBatchRefine StoreSystem StoreProps.


Local Open Scope Z_scope.
Local Open Scope string_scope.

Section BatchProps.
Context {C : SnapshotCodec}.

(** ** One candidate, step by step *)

Definition active_count (t : table) : Z :=
  sql_count (fun r => not_deleted r && state_in active_states r) t.

(** The row, and the view, of a fresh creation. *)
Definition created_row (now : time) (c : preparedCreate) : row :=
  new_row c now (optionalDeadline now (ttl_ActiveSeconds (rr_TTL (pc_resolved c)))).

Definition created_view (now : time) (c : preparedCreate) : Run :=
  populateRunMetadata
    (mkRun APIVersion (rr_RunID (pc_resolved c)) StatePending 1 (pc_digest c) "" "" "" "" "" "" false now now
       (optionalDeadline now (ttl_ActiveSeconds (rr_TTL (pc_resolved c)))) None false "" "" "" None)
    (pc_resolved c).

Lemma query_none key t : find_key key t = None -> queryByIdempotency key t = (Ok None, t).
Proof. intros H. unfold queryByIdempotency, bind, get. unfold find_key in H. by rewrite H. Qed.

Lemma query_some key t r s :
  find_key key t = Some r -> row_record r = Some s ->
  exists s0, queryByIdempotency key t = (Ok (Some s0), t) /\ validateStoredRun s0 = Some s.
Proof.
  intros H Hr. unfold row_record in Hr. apply bind_Some in Hr as (s0 & Hs & Hv). exists s0. split; [|done].
  unfold queryByIdempotency, bind, get. unfold find_key in H. by rewrite H, Hs.
Qed.

(** [Create] for a key no row has: the checks in order, then the insert. *)
Lemma create_tx_fresh st now c t :
  healthy t -> let t1 := map (sweep_row now) t in
  find_key (key_of c) t1 = None ->
  create_tx st now [c] false false false false t =
  if negb (ci_ActiveGroup (pc_input c) =? "") && (0 <? sql_count (group_busy (ci_ActiveGroup (pc_input c))) t1)%Z
  then (Err ErrActiveGroup, t1)
  else if (maxActiveRuns st <? active_count t1 + 1)%Z then (Err ErrCapacityExceeded, t1)
  else match sql_insert run_id idempotency_key (created_row now c) t1 with
       | None => (Err ErrConflict, t1)
       | Some t' => (Ok [mkCreateResult (created_view now c) true], t')
       end.
Proof.
  intros Hh t1 Hf. unfold create_tx. erewrite bind_run by (by apply sweepTx_healthy). fold t1.
  erewrite bind_run.
  2: { cbn [imap fold_each]. erewrite bind_run; [reflexivity|]. unfold classify.
       erewrite bind_run by (by apply query_none). reflexivity. }
  erewrite bind_run by reflexivity. erewrite bind_run by reflexivity. cbn zeta. rewrite guard_bind. cbn.
  assert (Hcap : forall e, e = active_count t1 + Z.of_nat 1 + Z.of_nat 0 + Z.of_nat 0 + Z.of_nat 0 ->
    e = active_count t1 + 1) by (intros; lia).
  unfold check_group. cbn. destruct (ci_ActiveGroup (pc_input c) =? "") eqn:Eg; cbn [negb andb].
  - unfold bind, get, guard, ret, fail, put. cbn [fst snd].
    match goal with |- context [(maxActiveRuns st <? ?e)%Z] => rewrite (Hcap e eq_refl) end.
    destruct (_ <? _)%Z; [done|]. unfold apply_new, bind, get, fail, ret, put. fold (created_row now c).
    by destruct (sql_insert _ _ _ t1).
  - unfold bind, get, guard, ret, fail, put. cbn [fst snd]. destruct (0 <? _)%Z; [done|].
    match goal with |- context [(maxActiveRuns st <? ?e)%Z] => rewrite (Hcap e eq_refl) end.
    destruct (_ <? _)%Z; [done|]. unfold apply_new, bind, get, fail, ret, put. fold (created_row now c).
    by destruct (sql_insert _ _ _ t1).
Qed.

(** [Create] for a key a readable row has and that needs no write. *)
Lemma create_tx_existing st now c t r s :
  healthy t -> let t1 := map (sweep_row now) t in
  find_key (key_of c) t1 = Some r -> row_record r = Some s ->
  (forall e, decide_existing false false now c s = Err e ->
     create_tx st now [c] false false false false t = (Err e, t1)) /\
  (decide_existing false false now c s = Ok ActKeep -> active_count t1 <= maxActiveRuns st ->
     create_tx st now [c] false false false false t = (Ok [mkCreateResult (sr_view s) false], t1)).
Proof.
  intros Hh t1 Hf Hr. destruct (query_some _ _ _ _ Hf Hr) as (s0 & Hq & Hv).
  assert (Hcl : forall b, classify false false now b (0%nat, c) t1 =
    match decide_existing false false now c s with
    | Err e => (Err e, t1)
    | Ok a => (Ok (match a with ActReplace | ActTerminalReplace => record_action 0 a b
                   | _ => with_result 0 (mkCreateResult (sr_view s) false) (record_action 0 a b) end), t1)
    end).
  { intros b. unfold classify. erewrite bind_run by exact Hq. cbv beta iota. erewrite bind_run.
    2: { unfold trusted_existing. rewrite Hv. reflexivity. }
    unfold bind, lift, ret. by destruct (decide_existing _ _ _ _ _). }
  split.
  - intros e He. unfold create_tx. erewrite bind_run by (by apply sweepTx_healthy). fold t1.
    cbn [imap fold_each]. unfold bind at 1 2. rewrite Hcl, He. done.
  - intros Hd Hcap. unfold create_tx. erewrite bind_run by (by apply sweepTx_healthy). fold t1.
    erewrite bind_run.
    2: { cbn [imap fold_each]. erewrite bind_run; [reflexivity|]. rewrite Hcl, Hd. reflexivity. }
    unfold bind, get, lift, guard, ret, fail. cbn.
    match goal with |- context [(maxActiveRuns st <? ?e)%Z] => assert (E : (maxActiveRuns st <? e)%Z = false) end.
    { apply Z.ltb_ge. etransitivity; [|exact Hcap].
      transitivity (active_count t1 + Z.of_nat 0 + Z.of_nat 0 + Z.of_nat 0 + Z.of_nat 0); [reflexivity|lia]. }
    rewrite E. done.
Qed.

Lemma prepare_single i snap x digest :
  validIdempotencyKey (ci_IdempotencyKey i) = true ->
  (ci_ActiveGroup i = "" \/ validIdempotencyKey (ci_ActiveGroup i) = true) ->
  canonicalSnapshot (ci_ResolvedRun i) = Ok (snap, x, digest) ->
  prepare [] [] [] [i] = Ok [mkPrepared i snap x digest].
Proof.
  intros Hk Hg Hc. cbn. rewrite Hk, Hc. cbn.
  assert (E : negb (ci_ActiveGroup i =? "") && negb (validIdempotencyKey (ci_ActiveGroup i)) = false).
  { destruct Hg as [-> | ->]; [done|]. apply andb_false_r. }
  rewrite E. by rewrite andb_false_r.
Qed.

(** [Create] reduces to the transaction on the swept table. *)
Lemma Create_run st t0 now i c t res t' :
  healthy t -> 1 <= maxActiveRuns st -> prepare [] [] [] [i] = Ok [c] ->
  create_tx st now [c] false false false false (map (sweep_row t0) t) = (res, t') ->
  Create st t0 now i t =
  match res with
  | Ok rs => (Ok (match rs with r :: _ => r | [] => zero_CreateResult end), t')
  | Err e => (Err e, map (sweep_row t0) t)
  end.
Proof.
  intros Hh Hmax Hp Htx. unfold Create. erewrite bind_run by (by apply Sweep_healthy).
  unfold createBatch, bind at 1. rewrite guard_bind.
  assert (E : (bool_decide ([i] = []) && negb false) || (maxActiveRuns st <? Z.of_nat (length [i]))%Z = false).
  { cbn. apply Z.ltb_ge. lia. }
  rewrite E. unfold bind at 1, lift. rewrite Hp, (transaction_run _ _ _ _ Htx). by destruct res.
Qed.

Lemma find_key_map f key t :
  keeps_keys f -> find_key key (map f t) = f <$> find_key key t.
Proof.
  intros Hk. unfold find_key, by_uk. induction t as [|r t IH]; [done|]. cbn.
  destruct (Hk r) as (_ & -> & _). by destruct (idempotency_key r =? key).
Qed.

Lemma find_key_sweep now key t :
  find_key key (map (sweep_row now) t) = sweep_row now <$> find_key key t.
Proof. apply find_key_map, sweep_keeps. Qed.

(** ** What happens to a row through a batch *)

Section Kept.
Context (P : relation row) `{!PreOrder P}.

(** Every row is still there, related to what it was. *)
Definition kept (t t' : table) : Prop :=
  forall r, In r t -> exists r', In r' t' /\ run_id r' = run_id r /\ P r r'.

#[local] Instance kept_preorder : PreOrder kept.
Proof.
  split.
  - intros t r Hr. exists r. split_and!; [done|done|reflexivity].
  - intros t1 t2 t3 H12 H23 r Hr. destruct (H12 r Hr) as (r2 & Hr2 & E1 & E2).
    destruct (H23 r2 Hr2) as (r3 & Hr3 & E3 & E4). exists r3. split_and!; [done|congruence|by etransitivity].
Qed.

(** A statement that keeps identifiers and [P]. *)
Definition keeps (f : row -> row) : Prop := forall r, run_id (f r) = run_id r /\ P r (f r).

Lemma kept_update w f t : keeps f -> kept t (sql_update w f t).
Proof.
  intros Hf r Hr. exists (if w r then f r else r). split; [apply sql_update_in; eauto|]. destruct (w r); [apply Hf|split; [done|reflexivity]].
Qed.

Lemma kept_exec w f e : keeps f -> preserves kept (exec_one w f e).
Proof.
  intros Hf t. pose proof (kept_update w f t Hf). unfold exec_one, bind, sql_exec, guard. by destruct (negb _).
Qed.

Lemma kept_load id : preserves kept (loadForUpdate id).
Proof. intros t. unfold loadForUpdate, bind, get, fail, ret. repeat break_match; reflexivity. Qed.

Lemma kept_query key : preserves kept (queryByIdempotency key).
Proof.
  apply preserves_bind; [typeclasses eauto|apply preserves_get; typeclasses eauto|].
  intros t. destruct (by_uk _ _ _) as [r|]; [|apply preserves_ret; typeclasses eauto].
  destruct (scanStoredRun r); [apply preserves_ret|apply preserves_fail]; typeclasses eauto.
Qed.

Lemma kept_classify reclaim replace now b ic :
  (forall d d', keeps (repair_update d d')) -> preserves kept (classify reclaim replace now b ic).
Proof.
  intros Hf. destruct ic as [i c]. unfold classify.
  apply preserves_bind; [typeclasses eauto|apply kept_query|].
  intros [s|]; [|apply preserves_ret; typeclasses eauto].
  apply preserves_bind; [typeclasses eauto| |].
  - unfold trusted_existing. destruct (validateStoredRun s); [apply preserves_ret; typeclasses eauto|].
    destruct (repairableMalformedTerminal s); [|apply preserves_fail; typeclasses eauto].
    apply preserves_bind; [typeclasses eauto|apply preserves_guard; typeclasses eauto|]. intros _.
    apply preserves_bind; [typeclasses eauto|by apply kept_exec|].
    intros _. apply preserves_ret; typeclasses eauto.
  - intros existing. apply preserves_bind; [typeclasses eauto|apply preserves_lift; typeclasses eauto|].
    intros a. apply preserves_ret; typeclasses eauto.
Qed.

Lemma kept_reread w f key b i : keeps f -> preserves kept (apply_reread w f key b i).
Proof.
  intros Hf. apply preserves_bind; [typeclasses eauto|by apply kept_exec|]. intros _.
  apply preserves_bind; [typeclasses eauto|apply kept_query|].
  intros [s|]; [apply preserves_ret|apply preserves_fail]; typeclasses eauto.
Qed.

Lemma kept_new now b i c : preserves kept (apply_new now b i c).
Proof.
  intros t. unfold apply_new, bind, get. destruct (sql_insert _ _ _ t) as [t'|] eqn:E; cbn; [|reflexivity].
  apply sql_insert_some in E as (-> & _). intros r Hr. exists r. split_and!; [|done|reflexivity].
  apply (insert_sorted_in run_id idempotency_key). auto.
Qed.

Lemma kept_all (apply : batch -> nat -> preparedCreate -> DB batch) prepared b ixs :
  (forall b i c, preserves kept (apply b i c)) -> preserves kept (apply_all apply prepared b ixs).
Proof.
  intros Ha. unfold apply_all. apply preserves_fold_each; [typeclasses eauto|].
  intros b' i. destruct (prepared !! i); [apply Ha|apply preserves_ret; typeclasses eauto].
Qed.

Lemma kept_sweepTx now :
  keeps (deadline_update now) -> keeps (retention_update now) -> preserves kept (sweepTx now).
Proof.
  intros Hd Hr. apply preserves_bind; [typeclasses eauto|apply preserves_get; typeclasses eauto|]. intros t.
  apply preserves_bind; [typeclasses eauto|apply preserves_lift; typeclasses eauto|]. intros ss.
  apply preserves_fold_each; [typeclasses eauto|]. intros n s. unfold sweep_record.
  destruct (deadline_due _ _); [|destruct (retention_due _ _); [|apply preserves_ret; typeclasses eauto]];
    (apply preserves_bind; [typeclasses eauto|by apply kept_exec|intros _; apply preserves_ret; typeclasses eauto]).
Qed.

Lemma kept_run {A} (m : DB A) t a t' : preserves kept m -> m t = (Ok a, t') -> kept t t'.
Proof. intros Hp H. specialize (Hp t). by rewrite H in Hp. Qed.
End Kept.

(** Deletion intent. *)
Definition same_delete (r r' : row) : Prop := delete_requested r' = delete_requested r.

#[local] Instance same_delete_preorder : PreOrder same_delete.
Proof. split; [done|]. intros r1 r2 r3 H1 H2. unfold same_delete in *. congruence. Qed.

#[local] Existing Instance kept_preorder.

(** The loops before the replacement loop do not touch the replacement list. *)
Definition same_replace (b b' : batch) : Prop :=
  b_replace b' = b_replace b /\ b_terminalReplace b' = b_terminalReplace b.

Lemma apply_all_replace (apply : batch -> nat -> preparedCreate -> DB batch) prepared b ixs t b' t' :
  (forall b i c t b' t', apply b i c t = (Ok b', t') -> same_replace b b') ->
  apply_all apply prepared b ixs t = (Ok b', t') -> same_replace b b'.
Proof.
  intros Ha. unfold apply_all. revert b t. induction ixs as [|i ixs IH]; intros b t H; cbn in H.
  { injection H as <- _. done. }
  apply bind_ok in H as (b1 & t1 & H1 & H2). apply IH in H2 as [E1 E2].
  assert (H : same_replace b b1) by (destruct (prepared !! i); [by eapply Ha|by injection H1 as <- _]).
  destruct H. split; congruence.
Qed.

Lemma new_replace now b i c t b' t' : apply_new now b i c t = (Ok b', t') -> same_replace b b'.
Proof.
  unfold apply_new, bind, get. destruct (sql_insert _ _ _ t); cbn; [|done]. intros [= <- _]. done.
Qed.

Lemma reread_replace w f key b i t b' t' : apply_reread w f key b i t = (Ok b', t') -> same_replace b b'.
Proof.
  intros H. apply bind_ok in H as (u & t1 & _ & H). apply bind_ok in H as (o & t2 & _ & H).
  destruct o; [|done]. injection H as <- _. done.
Qed.

Lemma create_tx_unacknowledged st now prepared reclaim prune replace t res t' :
  create_tx st now prepared reclaim prune replace false t = (Ok res, t') ->
  exists n t1, sweepTx now t = (Ok n, t1) /\ kept same_delete t1 t'.
Proof.
  intros H. unfold create_tx in H. apply bind_ok in H as (n & t1 & Hsw & H). exists n, t1. split; [done|].
  apply bind_ok in H as (b & t2 & Hcl & H).
  assert (K2 : kept same_delete t1 t2).
  { eapply kept_run; [|exact Hcl]. apply preserves_fold_each; [typeclasses eauto|].
    intros. by apply kept_classify; [typeclasses eauto|]. }
  apply bind_ok in H as (tt2 & t2' & Hget & H). injection Hget as <- <-.
  apply bind_ok in H as (pruned & t2' & Hpr & H). injection Hpr as Hpr <-.
  apply bind_ok in H as (u1 & t2' & Hg1 & H). apply guard_ok in Hg1 as [Hack ->].
  rewrite andb_true_r, !orb_false_iff, !negb_false_iff, !bool_decide_eq_true in Hack.
  destruct Hack as [[-> Er] Et].
  apply bind_ok in H as (u2 & t2' & Hgr & H). apply for_each_check_group in Hgr as ->.
  apply bind_ok in H as (tt3 & t2' & Hget & H). injection Hget as <- <-.
  apply bind_ok in H as (u3 & t2' & Hg2 & H). apply guard_ok in Hg2 as [_ ->].
  apply bind_ok in H as (b1 & t3 & A1 & H). apply bind_ok in H as (b2 & t4 & A2 & H).
  apply bind_ok in H as (b3 & t5 & A3 & H). apply bind_ok in H as (b4 & t6 & A4 & H).
  apply bind_ok in H as (b5 & t7 & A5 & H). apply bind_ok in H as (b6 & t8 & A6 & H).
  apply bind_ok in H as (u4 & t9 & Hprune & H). injection H as _ <-. injection Hprune as _ <-.
  destruct (apply_all_replace _ _ _ _ _ _ _ ltac:(intros *; apply new_replace) A1) as [R1 S1].
  destruct (apply_all_replace _ _ _ _ _ _ _ ltac:(intros *; apply reread_replace) A2) as [R2 S2].
  destruct (apply_all_replace _ _ _ _ _ _ _ ltac:(intros *; apply reread_replace) A3) as [R3 S3].
  destruct (apply_all_replace _ _ _ _ _ _ _ ltac:(intros *; apply reread_replace) A4) as [R4 S4].
  destruct (apply_all_replace _ _ _ _ _ _ _ ltac:(intros *; apply reread_replace) A5) as [R5 S5].
  assert (Hnil : (b_replace b5 ++ b_terminalReplace b5)%list = []).
  { rewrite R5, R4, R3, R2, R1, S5, S4, S3, S2, S1, Er, Et. done. }
  rewrite Hnil in A6. injection A6 as _ <-.
  etransitivity; [exact K2|].
  etransitivity; [eapply kept_run; [|exact A1]; apply kept_all; [typeclasses eauto|]; intros; apply kept_new, _|].
  etransitivity; [eapply kept_run; [|exact A2]; apply kept_all; [typeclasses eauto|]; intros; by apply kept_reread; [typeclasses eauto|]|].
  etransitivity; [eapply kept_run; [|exact A3]; apply kept_all; [typeclasses eauto|]; intros; by apply kept_reread; [typeclasses eauto|]|].
  etransitivity; [eapply kept_run; [|exact A4]; apply kept_all; [typeclasses eauto|]; intros; by apply kept_reread; [typeclasses eauto|]|].
  eapply kept_run; [|exact A5]. apply kept_all; [typeclasses eauto|]. intros. by apply kept_reread; [typeclasses eauto|].
Qed.

(** ** Errors of the sweep, minimum of the lifetimes *)

Lemma valid_records_error rows e : valid_records rows = Err e -> e = ErrStoreUnavailable.
Proof.
  induction rows as [|r rows IH]; cbn [valid_records]; [done|].
  destruct (scanStoredRun r) as [s|]; [|by intros [= <-]]. destruct (validateStoredRun s).
  - destruct (valid_records rows); [done|]. intros [= <-]. by apply IH.
  - destruct (State_terminal _); [done|by intros [= <-]].
Qed.

Lemma exec_one_error w f e (t : table) e' t' : exec_one w f e t = (Err e', t') -> e' = e.
Proof. unfold exec_one, bind, sql_exec, guard. destruct (negb _); cbn; unfold fail, ret; congruence. Qed.

Lemma sweepTx_error now t e t' : sweepTx now t = (Err e, t') -> e = ErrStoreUnavailable.
Proof.
  unfold sweepTx, bind at 1, get. unfold bind at 1, lift.
  destruct (valid_records _) as [ss|e1] eqn:Ev; [|intros [= <- _]; by eapply valid_records_error].
  clear Ev. revert t. generalize 0. induction ss as [|s ss IH]; intros n t; cbn [fold_each]; [done|].
  intros H. apply bind_err in H as [H|(n1 & t1 & _ & H)]; [|by eapply IH]. unfold sweep_record in H.
  destruct (deadline_due _ _); [|destruct (retention_due _ _); [|done]];
    apply bind_err in H as [H|(u & t1 & _ & H)]; try done; by eapply exec_one_error.
Qed.

Lemma min_fold_spec cs c :
  let m := fold_left (fun m v => if (v <? m)%Z then v else m) cs c in
  In m (c :: cs) /\ forall v, In v (c :: cs) -> m <= v.
Proof.
  revert c. induction cs as [|d cs IH]; intros c; cbn [fold_left].
  { split; [by left|]. intros v [->|[]]. lia. }
  destruct (IH (if (d <? c)%Z then d else c)) as [Hin Hle]. split.
  - destruct Hin as [Hin|Hin]; [|cbn; tauto]. rewrite <- Hin. destruct (d <? c)%Z; cbn; tauto.
  - pose proof (Hle _ (or_introl eq_refl)) as Hm. intros v Hv.
    destruct (d <? c)%Z eqn:E; bool_prop; destruct Hv as [<-|[<-|Hv]]; try lia; apply Hle; cbn; tauto.
Qed.

(** ** Properties *)

(** C5: After a successful batch (creation or workstation reconciliation, any
    flags) on a healthy table, with a clock not behind the rows and inputs that
    survive marshalling, the number of executing runs is within the configured
    capacity, plus the immutable replacements the batch rolled back: those runs
    were stopping, so the capacity check did not count them.  A batch that rolls
    back none stays within the capacity. *)
Theorem batch_within_capacity st now inputs reclaim prune replace ack t res t' :
  healthy t -> admissible_batch now inputs t ->
  createBatch st now inputs reclaim prune replace ack t = (Ok res, t') ->
  sql_count executing t' <= maxActiveRuns st + Z.of_nat (length (rolled_back inputs t)).
Proof.
  intros Hh Ha H. apply bind_ok in H as (u & t1 & Hg & H). apply guard_ok in Hg as [_ ->].
  apply bind_ok in H as (prepared & t1 & Hp & H). injection Hp as Hp <-. apply transaction_ok in H.
  destruct (create_tx_refines _ _ _ _ _ _ _ _ _ _ _ Hh Ha Hp H) as (keys & s & Hs & -> & _ & K & Hcap).
  pose proof (revive_executing now keys s (rolled_back inputs t)
    (proj1 (proj2 (steps_healthy _ _ Hs Hh))) K) as Hle. lia.
Qed.

(** A batch is atomic: when any input, conflict, group, capacity or
    acknowledgement check fails, no row has changed. *)
Theorem batch_atomic st now inputs reclaim prune replace ack t e t' :
  createBatch st now inputs reclaim prune replace ack t = (Err e, t') -> t' = t.
Proof.
  unfold createBatch. rewrite guard_bind. destruct (_ || _); [by intros [= _ <-]|].
  unfold bind, lift. destruct (prepare _ _ _ _); [|by intros [= _ <-]]. apply transaction_err.
Qed.

(** What [Create] does for a key no run has, on every branch: refuse a
    busy active group, refuse beyond capacity, refuse a taken run identifier,
    otherwise insert one pending row at revision 1 and return its view. *)
Theorem create_fresh_spec st t0 now i snap x digest t :
  healthy t -> clock_ok t0 t -> 1 <= maxActiveRuns st ->
  validIdempotencyKey (ci_IdempotencyKey i) = true ->
  (ci_ActiveGroup i = "" \/ validIdempotencyKey (ci_ActiveGroup i) = true) ->
  canonicalSnapshot (ci_ResolvedRun i) = Ok (snap, x, digest) ->
  find_key (ci_IdempotencyKey i) t = None ->
  let c := mkPrepared i snap x digest in
  let t1 := map (sweep_row t0) t in
  let t2 := map (sweep_row now) t1 in
  Create st t0 now i t =
  if negb (ci_ActiveGroup i =? "") && (0 <? sql_count (group_busy (ci_ActiveGroup i)) t2)%Z
  then (Err ErrActiveGroup, t1)
  else if (maxActiveRuns st <? active_count t2 + 1)%Z then (Err ErrCapacityExceeded, t1)
  else match sql_insert run_id idempotency_key (created_row now c) t2 with
       | None => (Err ErrConflict, t1)
       | Some t' => (Ok (mkCreateResult (created_view now c) true), t')
       end.
Proof.
  intros Hh Hc Hmax Hk Hg Hcan Hf c t1 t2. pose proof (sweep_preserves t0 t Hh Hc) as Hh1.
  assert (Hf2 : find_key (key_of c) t2 = None).
  { unfold t2, t1. rewrite !find_key_sweep. change (key_of c) with (ci_IdempotencyKey i). by rewrite Hf. }
  pose proof (create_tx_fresh st now c t1 Hh1 Hf2) as Htx. cbn zeta in Htx. fold t2 in Htx.
  destruct (create_tx st now [c] false false false false t1) as [res t'] eqn:E.
  rewrite (Create_run st t0 now i c t res t' Hh Hmax (prepare_single i snap x digest Hk Hg Hcan) E).
  change (pc_input c) with i in Htx. destruct (_ && _); [by injection Htx as -> ->|].
  destruct (_ <? _)%Z; [by injection Htx as -> ->|].
  destruct (sql_insert _ _ _ _); by injection Htx as -> ->.
Qed.

(** Creation is idempotent: repeating a request whose run exists with the
    same canonical document, under no staged change, returns the existing run,
    marks it as not created, and writes nothing beyond the sweeps. *)
Theorem create_replay st t0 now i snap x digest t r s :
  healthy t -> clock_ok t0 t -> 1 <= maxActiveRuns st ->
  validIdempotencyKey (ci_IdempotencyKey i) = true ->
  (ci_ActiveGroup i = "" \/ validIdempotencyKey (ci_ActiveGroup i) = true) ->
  canonicalSnapshot (ci_ResolvedRun i) = Ok (snap, x, digest) ->
  find_key (ci_IdempotencyKey i) t = Some r -> row_record r = Some s -> sr_deletedAt s = None ->
  sr_requestDigest s = digest -> sr_pendingSnapshot s = "" -> v_RunID (sr_view s) = rr_RunID x ->
  sweep_due t0 r = false -> sweep_due now r = false ->
  let t2 := map (sweep_row now) (map (sweep_row t0) t) in
  active_count t2 <= maxActiveRuns st ->
  Create st t0 now i t = (Ok (mkCreateResult (sr_view s) false), t2).
Proof.
  intros Hh Hc Hmax Hk Hg Hcan Hf Hr Hnd Hdig Hun Hid Hd0 Hd1 t2 Hcap.
  pose proof (sweep_preserves t0 t Hh Hc) as Hh1.
  assert (Hf2 : find_key (ci_IdempotencyKey i) t2 = Some r).
  { unfold t2. rewrite !find_key_sweep, Hf. cbn. by rewrite (sweep_row_id t0 r Hd0), (sweep_row_id now r Hd1). }
  destruct (create_tx_existing st now (mkPrepared i snap x digest) (map (sweep_row t0) t) r s Hh1 Hf2 Hr)
    as [_ Hkeep].
  assert (Hdec : decide_existing false false now (mkPrepared i snap x digest) s = Ok ActKeep).
  { unfold decide_existing. cbn. by rewrite Hnd, Hid, Hdig, Hun, !String.eqb_refl. }
  specialize (Hkeep Hdec Hcap).
  rewrite (Create_run st t0 now i _ t _ _ Hh Hmax (prepare_single i snap x digest Hk Hg Hcan) Hkeep). done.
Qed.

(** A deleted run is never created again: a request with the key of a
    tombstone fails with [ErrGone] and writes nothing beyond the sweep. *)
Theorem create_after_delete_is_gone st t0 now i snap x digest t r s :
  healthy t -> clock_ok t0 t -> 1 <= maxActiveRuns st ->
  validIdempotencyKey (ci_IdempotencyKey i) = true ->
  (ci_ActiveGroup i = "" \/ validIdempotencyKey (ci_ActiveGroup i) = true) ->
  canonicalSnapshot (ci_ResolvedRun i) = Ok (snap, x, digest) ->
  find_key (ci_IdempotencyKey i) t = Some r -> row_record r = Some s -> is_Some (sr_deletedAt s) ->
  Create st t0 now i t = (Err ErrGone, map (sweep_row t0) t).
Proof.
  intros Hh Hc Hmax Hk Hg Hcan Hf Hr Hd. pose proof (sweep_preserves t0 t Hh Hc) as Hh1.
  assert (Hnd : not_deleted r = false).
  { apply row_record_some in Hr as (y & k & V & ->). unfold not_deleted. apply bool_decide_eq_false_2.
    destruct (rv_stamps _ _ _ V) as (_ & _ & _ & _ & _ & ->). destruct Hd as [d Hd]. cbn in Hd. by rewrite Hd. }
  assert (Hsw : forall u, sweep_row u r = r) by (intros u; unfold sweep_row; by rewrite Hnd).
  assert (Hf2 : find_key (ci_IdempotencyKey i) (map (sweep_row now) (map (sweep_row t0) t)) = Some r).
  { rewrite !find_key_sweep, Hf. cbn. by rewrite !Hsw. }
  destruct (create_tx_existing st now (mkPrepared i snap x digest) (map (sweep_row t0) t) r s Hh1 Hf2 Hr)
    as [Herr _].
  assert (Hdec : decide_existing false false now (mkPrepared i snap x digest) s = Err ErrGone).
  { unfold decide_existing. by rewrite (bool_decide_eq_true_2 _ Hd). }
  specialize (Herr _ Hdec).
  by rewrite (Create_run st t0 now i _ t _ _ Hh Hmax (prepare_single i snap x digest Hk Hg Hcan) Herr).
Qed.

(** Reconciliation is not destructive without acknowledgement: on any
    table, a batch that succeeds with [acknowledged = false] leaves every run
    in place with the deletion intent it had after the sweep (nothing is
    pruned or replaced). *)
Theorem unacknowledged_not_destructive st now inputs reclaim prune replace t res t' :
  createBatch st now inputs reclaim prune replace false t = (Ok res, t') ->
  exists n t1, sweepTx now t = (Ok n, t1) /\
    forall r, In r t1 -> exists r', In r' t' /\ run_id r' = run_id r /\ delete_requested r' = delete_requested r.
Proof.
  intros H. apply bind_ok in H as (u & t1 & Hg & H). apply guard_ok in Hg as [_ ->].
  apply bind_ok in H as (prepared & t1 & Hp & H). injection Hp as _ <-. apply transaction_ok in H.
  by eapply create_tx_unacknowledged.
Qed.

(** A listing page is exactly the first [limit] readable runs after the
    cursor in identifier order; the returned cursor is empty precisely when
    nothing is left, and otherwise the next page starts where this one ended. *)
Theorem list_page_spec t0 limit after active t :
  healthy t -> clock_ok t0 t -> 1 <= limit <= MaxListLimit -> after = "" \/ validRunID after = true ->
  let t1 := map (sweep_row t0) t in
  let runs := listing t1 after active in
  store_list t0 limit after active t =
  (Ok (Some (mkListResult APIVersion (take (Z.to_nat limit) runs)
     (if (Z.to_nat limit <? length runs)%nat
      then match last (take (Z.to_nat limit) runs) with Some v => v_RunID v | None => "" end else ""))), t1).
Proof. intros Hh Hc Hl Ha. by apply store_list_healthy. Qed.

(** The paging loop of [list] terminates on every table, healthy or not:
    one query per row and one more always suffice. *)
Theorem list_terminates limit active t after :
  pk_sorted run_id t -> exists res, list_pages (S (length t)) limit active t [] after = Some res.
Proof. intros Hs. destruct (list_fuel_enough limit active t after Hs) as [res Hres]. eauto. Qed.

(** [Claim] never dereferences a nil lease, on any table whatsoever: the
    row invariant it checks pairs every owner with an expiry. *)
Theorem claim_never_nil st t0 now i t : fst (Claim st t0 now i t) <> Err NilDereference.
Proof.
  unfold Claim. rewrite guard_bind. destruct (_ || _); [done|].
  unfold bind at 1. destruct (Sweep t0 t) as [[n|e] t1] eqn:Es.
  2: { unfold Sweep in Es. unfold transaction in Es. destruct (sweepTx t0 t) as [[|e'] t2] eqn:Ex; [done|].
       injection Es as <- <-. apply sweepTx_error in Ex as ->. done. }
  unfold transaction. unfold bind at 1. destruct (loadForUpdate (cl_RunID i) t1) as [[s|e] t2] eqn:El.
  2: { cbn. intros [= ->]. unfold loadForUpdate, bind, get, fail, ret in El. repeat break_match_in El; done. }
  apply loadForUpdate_ok in El as (-> & r & x & k & (_ & _ & V & _) & ->). cbn zeta. rewrite guard_bind.
  destruct (_ || _); [done|].
  cbn [record_of sr_view row_view populateRunMetadata bare_view v_ReconcileOwner v_ReconcileUntil].
  unfold bind at 1. destruct (negb (_ =? "") && _) eqn:Eo.
  - destruct (st_until k) as [u|] eqn:Eu.
    2: { apply andb_true_iff in Eo as [Eo _]. apply negb_true_iff, String.eqb_neq in Eo.
         destruct Eo. by apply (rv_lease _ _ _ V). }
    unfold ret at 1. rewrite guard_bind. destruct (After u now); [done|].
    unfold bind at 1. destruct (exec_one _ _ _ _) as [[|e] t2] eqn:Ee; [done|]. by apply exec_one_error in Ee as ->.
  - unfold ret at 1. rewrite guard_bind. unfold bind at 1. destruct (exec_one _ _ _ _) as [[|e] t2] eqn:Ee; [done|]. by apply exec_one_error in Ee as ->.
Qed.

(** Retention deadlines are computed without int64 overflow for every
    document the decoder accepts, never lie in the past, and are absent for
    runs that are not terminal or have no lifetime. *)
Theorem terminal_expiry_bounds now s raw x :
  DecodeResolvedAgentRun raw = Some x ->
  match terminalExpiry now s x with
  | Some e => State_terminal s = true /\
      exists secs, In secs (expiry_candidates s x) /\ 0 < secs <= maxTTLSeconds /\ e = now + secs * Second /\
        forall other, In other (expiry_candidates s x) -> secs <= other
  | None => State_terminal s = false \/ expiry_candidates s x = []
  end.
Proof.
  intros Hd. apply decode_ttl, validateTTL_bounds in Hd as (_ & Hc & Hf & Hr). unfold terminalExpiry.
  destruct (State_terminal s); cbn [negb]; [|auto].
  assert (Hin : forall v, In v (expiry_candidates s x) -> 0 < v <= maxTTLSeconds).
  { intros v. unfold expiry_candidates. rewrite !in_app_iff.
    repeat break_match; cbn; rewrite ?in_app_iff; bool_prop; intros Hv; intuition (subst; lia). }
  destruct (expiry_candidates s x) as [|c cs] eqn:E; [auto|]. split; [done|].
  destruct (min_fold_spec cs c) as [Hmin Hle]. eexists. split; [exact Hmin|].
  pose proof (Hin _ Hmin) as Hb. split; [done|]. split; [|exact Hle].
  by destruct (add_seconds_later now (fold_left (fun m v => if (v <? m)%Z then v else m) cs c)); [lia|].
Qed.

(** [scanStoredRun] followed by [validateStoredRun] accepts a row exactly
    when the row satisfies the declarative invariant [row_valid], and the
    record it returns is the row's columns with the metadata of its snapshot. *)
Theorem stored_run_valid_iff r s :
  (s0 ← scanStoredRun r; validateStoredRun s0) = Some s <->
  exists x k, row_valid r x k /\ s = record_of r k (row_view r x k).
Proof. apply row_record_some. Qed.
End BatchProps.

(** A rollback of an immutable replacement makes the store unusable: after
    a workstation is installed, replaced (acknowledged) and then reverted to
    its first document before the cleanup ends, every call returned success,
    yet the row is preparing and marked for deletion at once, so the store can
    be neither reopened nor swept: every method that sweeps fails. *)
Theorem replacement_rollback_breaks_store :
  let install := ReconcileWorkstations fixture_store (at_second 10) [input_a] false false false [] in
  let replaced := ReconcileWorkstations fixture_store (at_second 11) [input_c] false true true (snd install) in
  let reverted := ReconcileWorkstations fixture_store (at_second 12) [input_a] false true true (snd replaced) in
  (exists rs, fst install = Ok rs) /\ (exists rs, fst replaced = Ok rs) /\ (exists rs, fst reverted = Ok rs) /\
  map (fun r => (state r, delete_requested r)) (snd reverted) = [(StatePreparing, 1)] /\
  validate (snd reverted) = Err ErrStoreUnavailable /\
  forall now, Sweep now (snd reverted) = (Err ErrStoreUnavailable, snd reverted).
Proof.
  cbv zeta. split; [eexists; vm_compute; reflexivity|]. split; [eexists; vm_compute; reflexivity|].
  split; [eexists; vm_compute; reflexivity|]. split; [vm_compute; reflexivity|]. split; [vm_compute; reflexivity|].
  intros now. vm_compute. reflexivity.
Qed.

(** The replacement that is rolled back was not counted: with room for one
    run, a workstation whose replacement was asked for and a job created while it
    stops both execute after the rollback. *)
Definition narrow_store : Store := mkStore 1 (60 * Second).
Definition narrow_table : table := Eval vm_compute in
  snd (CreateBatch narrow_store (at_second 12) [input_job]
    (snd (ReconcileWorkstations narrow_store (at_second 11) [input_c] false true true
      (snd (ReconcileWorkstations narrow_store (at_second 10) [input_a] false false false []))))).

Example rollback_exceeds_capacity :
  sql_count executing narrow_table = 1 /\ rolled_back [input_a] narrow_table = [dev_key] /\
  let reverted := ReconcileWorkstations narrow_store (at_second 13) [input_a] false true true narrow_table in
  (exists rs, fst reverted = Ok rs) /\ sql_count executing (snd reverted) = 2.
Proof.
  split; [vm_compute; reflexivity|]. split; [vm_compute; reflexivity|]. cbv zeta.
  split; [eexists; vm_compute; reflexivity|vm_compute; reflexivity].
Qed.

(** ** Instances *)

Lemma batch_within_capacity_witness : sql_count executing dev_table <= 4 + Z.of_nat (length (rolled_back [input_a] [])).
Proof.
  apply (batch_within_capacity fixture_store (at_second 10) [input_a] true false false false []
    (match fst (ReconcileWorkstations fixture_store (at_second 10) [input_a] false false false []) with
     | Ok rs => rs | Err _ => [] end));
    [apply healthy_nil|apply create_dev_admissible|vm_compute; reflexivity].
Defined.

(** Two inputs with one key: the second conflicts, the first is not installed. *)
Lemma batch_atomic_witness :
  fst (createBatch fixture_store (at_second 20) [input_job; input_job] true false false false dev_table) = Err ErrConflict /\
  snd (createBatch fixture_store (at_second 20) [input_job; input_job] true false false false dev_table) = dev_table.
Proof.
  split; [vm_compute; reflexivity|].
  apply (batch_atomic fixture_store (at_second 20) [input_job; input_job] true false false false dev_table ErrConflict).
  vm_compute. reflexivity.
Defined.

Definition job_digest : string := Eval vm_compute in sha256_hex doc_job.
Definition doc_a_digest : string := Eval vm_compute in sha256_hex doc_a.
Definition job_prepared : preparedCreate := mkPrepared input_job doc_job job job_digest.

Lemma create_fresh_spec_witness :
  Create fixture_store (at_second 10) (at_second 10) input_job dev_table
  = (Ok (mkCreateResult (created_view (at_second 10) job_prepared) true),
     (dev_table ++ [created_row (at_second 10) job_prepared])%list).
Proof.
  rewrite (create_fresh_spec fixture_store (at_second 10) (at_second 10) input_job doc_job job (pc_digest job_prepared));
    [vm_compute; reflexivity|apply dev_healthy|clocks|vm_compute; congruence|vm_compute; reflexivity
    |left; reflexivity|vm_compute; reflexivity|vm_compute; reflexivity].
Defined.

Definition job_row : row := created_row (at_second 10) job_prepared.
Definition job_record : storedRun := Eval vm_compute in
  match row_record job_row with
  | Some s => s | None => mkStoredRun zero_Run "" "" "" "" None "" "" "" "" end.

Lemma create_replay_witness :
  Create fixture_store (at_second 12) (at_second 12) input_job job_table
  = (Ok (mkCreateResult (sr_view job_record) false),
     map (sweep_row (at_second 12)) (map (sweep_row (at_second 12)) job_table)).
Proof.
  apply (create_replay fixture_store (at_second 12) (at_second 12) input_job doc_job job (pc_digest job_prepared)
    job_table job_row job_record);
    [apply job_healthy|clocks|vm_compute; congruence|vm_compute; reflexivity|left; reflexivity|..];
    try (vm_compute; reflexivity). vm_compute; congruence.
Defined.

Definition gone_record : storedRun := Eval vm_compute in
  match row_record gone_row with
  | Some s => s | None => mkStoredRun zero_Run "" "" "" "" None "" "" "" "" end.

Lemma create_after_delete_is_gone_witness :
  Create fixture_store (at_second 20) (at_second 20) input_a gone_table
  = (Err ErrGone, map (sweep_row (at_second 20)) gone_table).
Proof.
  apply (create_after_delete_is_gone fixture_store (at_second 20) (at_second 20) input_a doc_a ws_a
    doc_a_digest gone_table gone_row gone_record);
    [apply gone_healthy|clocks|vm_compute; congruence|vm_compute; reflexivity|left; reflexivity
    |vm_compute; reflexivity|vm_compute; reflexivity|vm_compute; reflexivity|vm_compute; eexists; reflexivity].
Defined.

(** A rollout (not destructive) needs no acknowledgement. *)
Definition rollout_pair : result error (list CreateResult) * table := Eval vm_compute in
  createBatch fixture_store (at_second 30)
    [mkCreateInput dev_key "" doc_a] true true true false dev_table.

Lemma unacknowledged_not_destructive_witness :
  exists n t1, sweepTx (at_second 30) dev_table = (Ok n, t1) /\
    forall r, In r t1 -> exists r', In r' (snd rollout_pair) /\ run_id r' = run_id r /\
      delete_requested r' = delete_requested r.
Proof.
  apply (unacknowledged_not_destructive fixture_store (at_second 30) [mkCreateInput dev_key "" doc_a]
    true true true dev_table (match fst rollout_pair with Ok rs => rs | Err _ => [] end)).
  vm_compute. reflexivity.
Defined.

Lemma list_page_spec_witness :
  store_list (at_second 12) 1 "" false claimed_table
  = (Ok (Some (mkListResult APIVersion [claimed_view] "")), map (sweep_row (at_second 12)) claimed_table).
Proof.
  rewrite (list_page_spec (at_second 12) 1 "" false claimed_table);
    [vm_compute; reflexivity|apply claimed_healthy|clocks|vm_compute; split; congruence|left; reflexivity].
Defined.

Lemma list_terminates_witness :
  exists res, list_pages (S (length claimed_table)) 1 false claimed_table [] "" = Some res.
Proof. apply (list_terminates 1 false claimed_table ""). apply claimed_healthy. Defined.

(** The job's completed lifetime is 30 seconds. *)
Lemma terminal_expiry_bounds_witness :
  terminalExpiry (at_second 5) StateCompleted job = Some (at_second 35) /\
  State_terminal StateCompleted = true.
Proof.
  split; [vm_compute; reflexivity|].
  assert (Hd : DecodeResolvedAgentRun doc_job = Some job) by (vm_compute; reflexivity).
  exact (proj1 (terminal_expiry_bounds (at_second 5) StateCompleted doc_job job Hd)).
Defined.

Lemma claim_never_nil_witness :
  fst (Claim fixture_store (at_second 12) (at_second 12) (mkClaimInput "job" "owner-b" 1 Second) claimed_table)
  <> Err NilDereference.
Proof.
  exact (claim_never_nil fixture_store (at_second 12) (at_second 12) (mkClaimInput "job" "owner-b" 1 Second)
    claimed_table).
Defined.

Lemma stored_run_valid_iff_witness :
  exists x k, row_valid claimed_row x k /\ v_RunID (row_view claimed_row x k) = "job".
Proof.
  destruct (proj1 (stored_run_valid_iff claimed_row
    (match (s0 ← scanStoredRun claimed_row; validateStoredRun s0) with Some s => s | None => mkStoredRun zero_Run "" "" "" "" None "" "" "" "" end)))
    as (x & k & Hv & _); [vm_compute; reflexivity|].
  exists x, k. split; [exact Hv|vm_compute; reflexivity].
Defined.
