(* ===== verification/Reconciler.v ===== *)
(** * The reconciler

    localcontroller/internal/controller/reconciler.go: one controller process
    that drives every durable run towards its backend.  It shares the store
    with the API handlers and with other processes: before each of its store
    calls, and before each backend call, the environment may change the table
    ([interference]).  Each store call reads the clock, and may fail for a
    reason of the database ([outage]).  The execution backend is the interface
    [LocalBackend].  Log lines are not modelled. *)
From stdpp Require Import base list strings relations.
From Stdlib Require Import ZArith Lia.
From S2P Require Import Prelude GoStrings GoUrl GoJson Sha256 Contract Validation Decode LocalRun Sql StoreRow StoreOps.


Local Open Scope Z_scope.
Local Open Scope string_scope.
Local Open Scope go_scope.

(** ** Owners *)

(** [NewProcessReconcileOwner]; the twelve random bytes are an argument,
    [None] when the random source fails. *)
Definition NewProcessReconcileOwner (resourceOwner : string) (random : option (list Z)) : result error string :=
  if negb (validOwner resourceOwner) || (63 <? len resourceOwner)%Z then Err ErrInvalidRequest
  else match random with
       | None => Err ErrStoreUnavailable
       | Some bytes =>
           let owner := (resourceOwner ++ "-" ++ hex_encode bytes)%string in
           if negb (validOwner owner) then Err ErrInvalidRequest else Ok owner
       end.

(** ** The backend *)

Record BackendRun := mkBackendRun {
  br_Resolved : ResolvedAgentRun;
  br_PreviousResolved : option ResolvedAgentRun;
  br_SnapshotDigest : string;
  br_DesiredDigest : string;
  br_ConfigurationRollout : bool;
  br_DeleteRequested : bool;
  br_LifecycleCursor : string
}.

Record BackendObservation := mkObservation {
  ob_Ready : bool;
  ob_TerminalTarget : State;
  ob_LifecycleCursor : string
}.

(** The two sentinels, and any other error. *)
Inductive backend_error : Type :=
| ErrBackendRetryable
| ErrBackendDesiredRunInvalid
| BackendOther.

(** A backend with its own state [B]; each call may change it. *)
Class LocalBackend (B : Type) := {
  Ensure : BackendRun -> B -> result backend_error BackendObservation * B;
  Inspect : BackendRun -> B -> result backend_error BackendObservation * B;
  BackendDelete : BackendRun -> B -> result backend_error unit * B
}.

(** Errors of a reconciliation: the store's or the backend's. *)
Inductive reconcile_error : Type :=
| StoreError (e : error)
| BackendError (e : backend_error).

Record Reconciler := mkReconciler {
  rc_store : Store;
  rc_owner : string;
  rc_lease : Z
}.

Definition NewReconciler (st : Store) (owner : string) (lease : Z) : result error Reconciler :=
  if negb (validOwner owner) || (lease <? Second)%Z || (maxClaimLease st <? lease)%Z
  then Err ErrInvalidRequest else Ok (mkReconciler st owner lease).

(** ** The world a reconciler runs in *)

(** A record of the calls made to the backend, each with the step it is made at
    and the table at that moment: a history that nothing reads. *)
Inductive backend_call : Type :=
| CallEnsure (run : BackendRun) (step : nat) (t : table)
| CallInspect (run : BackendRun) (step : nat) (t : table)
| CallDelete (run : BackendRun) (step : nat) (t : table).

Record world (B : Type) := mkWorld {
  w_table : table;
  w_backend : B;
  w_step : nat;
  w_calls : list backend_call
}.
Arguments mkWorld {B}.
Arguments w_table {B}.
Arguments w_backend {B}.
Arguments w_step {B}.
Arguments w_calls {B}.

Definition terminalReason (target : State) : string :=
  if target =? StateCompleted then "backend-completed" else "backend-runtime-failed".

Section Reconcile.
Context `{SnapshotCodec} {B : Type} `{LocalBackend B}.
Context (rc : Reconciler) (clock : nat -> time) (interference : nat -> table -> table).
Context (outage : nat -> option error).

Definition R (A : Type) : Type := M (world B) reconcile_error A.

(** One store call: what the environment did since the last call, then the
    method at the clock readings of this one.  A call the database fails leaves
    what the environment left: [interference] covers the sweep and the
    statements that were committed before the failure. *)
Definition store_call {A} (m : time -> time -> DB A) : R A :=
  fun w =>
    let n := w_step w in
    let t := interference n (w_table w) in
    match outage n with
    | Some e => (Err (StoreError e), mkWorld t (w_backend w) (S n) (w_calls w))
    | None =>
        let '(r, t') := m (clock (2 * n)) (clock (2 * n + 1)) t in
        (match r with Ok a => Ok a | Err e => Err (StoreError e) end,
         mkWorld t' (w_backend w) (S n) (w_calls w))
    end.

(** One backend call.  The others go on using the store before it. *)
Definition backend_op {A} (f : B -> result backend_error A * B) (call : nat -> table -> backend_call)
  : R (result backend_error A) :=
  fun w =>
    let n := w_step w in
    let t := interference n (w_table w) in
    let '(r, b) := f (w_backend w) in
    (Ok r, mkWorld t b (S n) (call n t :: w_calls w)).

(** The outcome as a value, for the callers that inspect the error. *)
Definition attempt {A} (m : R A) : R (result reconcile_error A) :=
  fun w => let '(r, w') := m w in (Ok r, w').

Definition claim (run : Run) : R Run :=
  store_call (fun t0 now =>
    Claim (rc_store rc) t0 now (mkClaimInput (v_RunID run) (rc_owner rc) (v_Revision run) (rc_lease rc))).

Definition update_status (i : StatusInput) : R Run := store_call (fun t0 now => UpdateStatus t0 now i).

(** The desired value of a run, read in one or two store calls. *)
Definition backendRun (run : Run) : R BackendRun :=
  let* (raw, desiredDigest, ownershipDigest, cursor, rollout) :=
    store_call (fun _ _ => backendSnapshot (v_RunID run)) in
  match DecodeResolvedAgentRun raw with
  | None => fail (StoreError ErrStoreUnavailable)
  | Some resolved =>
      guard ((desiredDigest =? "") || (ownershipDigest =? "")) (StoreError ErrStoreUnavailable) ;;;
      if rollout then
        let* (active, _) := store_call (fun _ _ => ResolvedSnapshot (v_RunID run)) in
        match DecodeResolvedAgentRun active with
        | None => fail (StoreError ErrStoreUnavailable)
        | Some previous =>
            ret (mkBackendRun resolved (Some previous) ownershipDigest desiredDigest rollout
                   (v_DeleteRequested run) cursor)
        end
      else ret (mkBackendRun resolved None ownershipDigest desiredDigest rollout
                  (v_DeleteRequested run) cursor)
  end.

Definition stopping_input (run claimed : Run) (target : State) (reason : string) (cursor : option string)
  : StatusInput :=
  mkStatusInput (v_RunID run) (rc_owner rc) (v_Revision claimed) StateStopping target reason cursor.

Definition finished_target (s : State) : bool := (s =? StateCompleted) || (s =? StateFailed).

(** ** The four states of [reconcileRun] *)

Definition reconcile_pending (run : Run) : R unit :=
  let* claimed := claim run in
  update_status (mkStatusInput (v_RunID run) (rc_owner rc) (v_Revision claimed) StatePreparing ""
                   "backend-preparing" None) ;;;
  ret tt.

(** What the outcome of [Ensure] asks for. *)
Definition after_ensure (run claimed : Run) (br : BackendRun) (ensured : result backend_error BackendObservation)
  : R unit :=
  match ensured with
  | Err ErrBackendDesiredRunInvalid =>
      if br_ConfigurationRollout br then
        store_call (fun _ now =>
          abortPendingConfiguration now (v_RunID run) (rc_owner rc) (v_Revision claimed))
      else
        update_status (stopping_input run claimed StateFailed "backend-prepare-failed" None) ;;; ret tt
  | Err e => fail (BackendError e)
  | Ok ob =>
      if negb (ob_TerminalTarget ob =? "") then
        guard (negb (finished_target (ob_TerminalTarget ob))) (BackendError ErrBackendRetryable) ;;;
        update_status (stopping_input run claimed (ob_TerminalTarget ob) (terminalReason (ob_TerminalTarget ob))
                         (Some (ob_LifecycleCursor ob))) ;;;
        ret tt
      else
        guard (negb (ob_Ready ob)) (BackendError ErrBackendRetryable) ;;;
        let reason := if v_LastReason run =? "backend-recovery-requested" then "backend-recovered"
                      else if br_ConfigurationRollout br then "configuration-applied" else "backend-ready" in
        update_status (mkStatusInput (v_RunID run) (rc_owner rc) (v_Revision claimed) StateRunning "" reason
                         (Some (ob_LifecycleCursor ob))) ;;;
        ret tt
  end.

Definition reconcile_preparing (run : Run) (br : BackendRun) : R unit :=
  let* claimed := claim run in
  let* ensured := backend_op (Ensure br) (CallEnsure br) in
  after_ensure run claimed br ensured.

Definition reconcile_running (run : Run) (br : BackendRun) : R unit :=
  let* inspected := backend_op (Inspect br) (CallInspect br) in
  match inspected with
  | Err e => fail (BackendError e)
  | Ok ob =>
      if ob_Ready ob && (ob_LifecycleCursor ob =? br_LifecycleCursor br) then ret tt
      else if negb (finished_target (ob_TerminalTarget ob)) then
        if negb (ob_LifecycleCursor ob =? br_LifecycleCursor br) then
          let* claimed := claim run in
          update_status (mkStatusInput (v_RunID run) (rc_owner rc) (v_Revision claimed) StateRunning "" ""
                           (Some (ob_LifecycleCursor ob))) ;;;
          ret tt
        else fail (BackendError ErrBackendRetryable)
      else
        let* claimed := claim run in
        update_status (stopping_input run claimed (ob_TerminalTarget ob) (terminalReason (ob_TerminalTarget ob))
                         (Some (ob_LifecycleCursor ob))) ;;;
        ret tt
  end.

Definition reconcile_stopping (run : Run) (br : BackendRun) : R unit :=
  let* claimed := claim run in
  let* deleted := backend_op (BackendDelete br) (CallDelete br) in
  match deleted with
  | Err e => fail (BackendError e)
  | Ok _ =>
      update_status (mkStatusInput (v_RunID run) (rc_owner rc) (v_Revision claimed) (v_TerminalTarget run) ""
                       "backend-cleanup-complete" None) ;;;
      ret tt
  end.

Definition reconcileRun (run : Run) : R unit :=
  let* br := backendRun run in
  if v_State run =? StatePending then reconcile_pending run
  else if v_State run =? StatePreparing then reconcile_preparing run br
  else if v_State run =? StateRunning then reconcile_running run br
  else if v_State run =? StateStopping then reconcile_stopping run br
  else ret tt.

(** ** The passes over the durable set *)

(** [store.List(ctx, MaxListLimit, after)]; the page loop inside it always has
    enough fuel ([list_terminates]). *)
Definition list_page (after : string) : R ListResult :=
  let* page := store_call (fun t0 _ => List_ t0 MaxListLimit after) in
  match page with
  | Some p => ret p
  | None => fail (StoreError ErrStoreUnavailable)
  end.

(** One pass: cleanup-bound runs when [cleanup], the other active runs when
    not.  An error of one run is logged and the pass goes on. *)
Definition reconcile_one (cleanup : bool) (run : Run) : R unit :=
  if State_terminal (v_State run) || negb (Bool.eqb (v_State run =? StateStopping) cleanup) then ret tt
  else attempt (reconcileRun run) ;;; ret tt.

(** [for { page := List(after); ...; if page.NextAfter == "" break }]; the
    fuel bounds the pages, [None] is exhausted fuel. *)
Fixpoint reconcile_pages (fuel : nat) (cleanup : bool) (after : string) : R (option unit) :=
  match fuel with
  | O => ret None
  | S fuel' =>
      let* page := list_page after in
      for_each (reconcile_one cleanup) (lr_Runs page) ;;;
      if lr_NextAfter page =? "" then ret (Some tt)
      else reconcile_pages fuel' cleanup (lr_NextAfter page)
  end.

Definition Reconcile (fuel : nat) : R (option unit) :=
  let* first := reconcile_pages fuel true "" in
  match first with
  | None => ret None
  | Some _ =>
      let* blocked := store_call (fun _ _ => replacementCleanupPending (rc_store rc)) in
      if blocked then ret (Some tt) else reconcile_pages fuel false ""
  end.

(** [Recover]: the flag is set when a run was leased by someone else. *)
Definition recover_one (pendingLease : bool) (run : Run) : R bool :=
  if negb (v_State run =? StateRunning) then ret pendingLease
  else
    let* claimed := attempt (claim run) in
    match claimed with
    | Err (StoreError ErrOwnershipConflict) => ret true
    | Err (StoreError ErrNotFound) => ret pendingLease
    | Err e => fail e
    | Ok c =>
        let* updated := attempt (update_status
          (mkStatusInput (v_RunID run) (rc_owner rc) (v_Revision c) StatePreparing ""
             "backend-recovery-requested" None)) in
        match updated with
        | Err (StoreError ErrOwnershipConflict) => ret true
        | Err (StoreError ErrNotFound) => ret pendingLease
        | Err e => fail e
        | Ok _ => ret pendingLease
        end
    end.

Fixpoint recover_pages (fuel : nat) (pendingLease : bool) (after : string) : R (option unit) :=
  match fuel with
  | O => ret None
  | S fuel' =>
      let* page := list_page after in
      let* pending := fold_each recover_one pendingLease (lr_Runs page) in
      if lr_NextAfter page =? "" then
        guard pending (StoreError ErrOwnershipConflict) ;;; ret (Some tt)
      else recover_pages fuel' pending (lr_NextAfter page)
  end.

Definition Recover (fuel : nat) : R (option unit) := recover_pages fuel false "".
End Reconcile.
