(* ===== verification/ReconcilerTheorems.v ===== *)
(** * Properties of the reconciler

    The reconciler is correct against any environment that follows the
    store's transition system, acts between any two of its calls, and fails any
    call of the database: it keeps the store healthy, and it acts on the backend
    only for the row version it was given the lease of. *)
From stdpp Require Import base list strings relations.
From Stdlib Require Import ZArith Lia.
From S2P Require Import Prelude GoStrings GoUrl GoJson Sha256 Contract Validation Decode LocalRun Sql StoreRow StoreOps StoreBatch Fixture StoreValid StoreSteps StoreRefine StoreViews StoreBatchRefine StoreSystem StoreProps Reconciler.


Local Open Scope Z_scope.
Local Open Scope string_scope.

Section Rows.
Context {C : SnapshotCodec}.

(** ** Row versions along a history *)

(** If a readable row is found unchanged later, it was unchanged in between. *)
Lemma row_between t0 t t1 r :
  healthy t0 -> In r t0 -> is_Some (row_record r) -> rtc table_step t0 t -> rtc table_step t t1 ->
  (exists r1, In r1 t1 /\ run_id r1 = run_id r /\ revision r1 = revision r) -> In r t /\ In r t1.
Proof.
  intros Hh Hin Hv H1 H2 (r1 & Hin1 & Hid & Hrev).
  destruct (steps_row _ _ r H1 Hin) as (ra & Hina & Ha). destruct (steps_row _ _ ra H2 Hina) as (rb & Hinb & Hb).
  assert (rb = r1) as ->.
  { eapply (pk_sorted_inj run_id); [eapply steps_healthy; [exact H2|by eapply steps_healthy]|done|done|].
    apply row_steps_keys in Ha as [Ha _]. apply row_steps_keys in Hb as [Hb _]. congruence. }
  pose proof (row_steps_revision _ _ Ha). pose proof (row_steps_revision _ _ Hb).
  assert (ra = r) as -> by (apply row_steps_revision_eq; [done|done|lia]).
  split; [done|]. by rewrite (row_steps_revision_eq _ _ Hb Hv Hrev) in Hinb.
Qed.

(** A successful claim found the row at the expected revision and left it
    leased. *)
Lemma Claim_row st t0 now i t v t' :
  healthy t -> clock_ok t0 t -> clock_ok now t -> Claim st t0 now i t = (Ok v, t') ->
  Second <= cl_Lease i /\
  exists r, In r (map (sweep_row t0) t) /\ run_id r = cl_RunID i /\ revision r = cl_ExpectedRevision i /\
    v_Revision v = revision r + 1 /\
    In (claim_update (cl_Owner i) (now + cl_Lease i) now (revision r + 1) r) t'.
Proof.
  intros Hh Hc0 Hc H. apply bind_ok in H as (u & t1 & Hg & H). apply guard_ok in Hg as [Hlease ->].
  split; [by bool_prop|].
  apply (sweep_then t0 now) in H as (t1 & -> & Hh1 & Hc1 & H); [|done..].
  apply transaction_ok in H. apply bind_ok in H as (s & t2 & Hl & H).
  apply load_live in Hl as (-> & _ & r & x & k & Hl & ->); [|done]. cbn zeta in H.
  apply bind_ok in H as (u2 & t2 & Hg2 & H). apply guard_ok in Hg2 as [Hg2 ->].
  apply bind_ok in H as (held & t2 & Hheld & H).
  assert (t2 = map (sweep_row t0) t) as ->.
  { destruct (_ && _) in Hheld; [|by injection Hheld]. destruct (v_ReconcileUntil _) in Hheld; by injection Hheld. }
  apply bind_ok in H as (u3 & t2 & Hg3 & H). apply guard_ok in Hg3 as [_ ->].
  apply bind_ok in H as (u4 & t2 & He & H). injection H as <- <-.
  rewrite orb_false_iff in Hg2. destruct Hg2 as [Hr _]. apply negb_false_iff, Z.eqb_eq in Hr. cbn in Hr.
  destruct Hl as (Hin & Hid & _). exists r. split_and!; [done|done|done|done|].
  apply exec_one_ok_count in He as [_ ->]. apply sql_update_in. exists r. split; [done|].
  assert (E : at_revision (cl_RunID i) (cl_ExpectedRevision i) r = true); [|by rewrite E].
  unfold at_revision. by rewrite Hid, Hr, String.eqb_refl, Z.eqb_refl.
Qed.

(** [br] is the desired value of row [r]: the staged snapshot during a rollout
    or replacement, the active one otherwise. *)
Definition describes (r : row) (br : BackendRun) : Prop :=
  let staged := negb (default "" (pending_snapshot r) =? "") in
  br_ConfigurationRollout br = staged /\
  DecodeResolvedAgentRun (if staged then default "" (pending_snapshot r) else snapshot r) = Some (br_Resolved br) /\
  br_DesiredDigest br = (if staged then pending_snapshot_digest r else snapshot_digest r) /\
  br_SnapshotDigest br = ownership_digest r /\ br_LifecycleCursor br = lifecycle_cursor r /\
  br_DeleteRequested br = (delete_requested r =? 1)%Z /\
  br_PreviousResolved br = if staged then DecodeResolvedAgentRun (snapshot r) else None.

Lemma stamp_inj (a b : option time) : RFC3339 <$> a = RFC3339 <$> b -> a = b.
Proof. destruct a, b; cbn; congruence. Qed.

Lemma load_found t r s id s' t' :
  healthy t -> In r t -> run_id r = id -> row_record r = Some s -> loadForUpdate id t = (Ok s', t') -> s' = s.
Proof.
  intros Hh Hin Hid Hr H. apply loadForUpdate_ok in H as (-> & r' & x & k & (Hin' & Hid' & V & Hd) & ->).
  assert (r' = r) as -> by (eapply (pk_sorted_inj run_id); [apply Hh|done|done|congruence]).
  apply row_record_some in Hr as (x' & k' & V' & ->).
  assert (x' = x) as -> by (pose proof (rv_decode _ _ _ V); pose proof (rv_decode _ _ _ V'); congruence).
  assert (k' = k) as ->; [|done].
  destruct k as [k1 k2 k3 k4 k5 k6], k' as [l1 l2 l3 l4 l5 l6].
  destruct (rv_stamps _ _ _ V) as (E1 & E2 & E3 & E4 & E5 & E6).
  destruct (rv_stamps _ _ _ V') as (F1 & F2 & F3 & F4 & F5 & F6). cbn in *.
  rewrite E1 in F1. rewrite E2 in F2. rewrite E3 in F3. rewrite E4 in F4. rewrite E5 in F5. rewrite E6 in F6.
  injection F1 as ->. injection F2 as ->.
  apply stamp_inj in F3, F4, F5, F6. by subst.
Qed.
End Rows.

Section World.
Context {C : SnapshotCodec} {B : Type} {LB : LocalBackend B}.
Context (rc : Reconciler) (clock : nat -> time) (interference : nat -> table -> table) (outage : nat -> option error).

(** The clock does not go back; the environment follows the transition system
    (so it rolls back no immutable replacement) and creates no row later than
    the next reading. *)
Record environment : Prop := {
  env_mono : forall n m, (n <= m)%nat -> clock n <= clock m;
  env_steps : forall n t, healthy t -> rtc table_step t (interference n t);
  env_clock : forall n t, healthy t -> clock_ok (clock (2 * n)) t -> clock_ok (clock (2 * n)) (interference n t)
}.
Context (E : environment).

Definition good (w : world B) : Prop :=
  healthy (w_table w) /\ clock_ok (clock (2 * w_step w)) (w_table w).

(** [w'] is a good world reached from [w] along the transition system. *)
Definition leads (w w' : world B) : Prop :=
  good w -> good w' /\ rtc table_step (w_table w) (w_table w').

#[local] Instance leads_preorder : PreOrder leads.
Proof.
  split.
  - intros w Hg. split; [done|apply rtc_refl].
  - intros w1 w2 w3 H12 H23 Hg. destruct (H12 Hg) as [G2 S2]. destruct (H23 G2) as [G3 S3].
    split; [done|]. by etransitivity.
Qed.

Lemma clock_later n m t : (n <= m)%nat -> clock_ok (clock n) t -> clock_ok (clock m) t.
Proof. intros Hle Hc r c Hin Hcr. pose proof (env_mono E _ _ Hle). pose proof (Hc r c Hin Hcr). lia. Qed.

(** The table a store call works on. *)
Definition called (w : world B) : table := interference (w_step w) (w_table w).

Lemma called_ok w : good w ->
  healthy (called w) /\ clock_ok (clock (2 * w_step w)) (called w) /\
  clock_ok (clock (2 * w_step w + 1)) (called w) /\ rtc table_step (w_table w) (called w).
Proof.
  intros [Hh Hc]. pose proof (env_steps E (w_step w) _ Hh) as Hs. pose proof (env_clock E _ _ Hh Hc) as Hc'.
  split_and!; [by eapply steps_healthy|done| |done]. eapply clock_later; [|exact Hc']. lia.
Qed.

Lemma leads_store_call {A} (m : time -> time -> DB A) w :
  (good w -> moves (m (clock (2 * w_step w)) (clock (2 * w_step w + 1))) (called w)) ->
  leads w (snd (store_call clock interference outage m w)).
Proof.
  intros Hm Hg. destruct (called_ok w Hg) as (Hh & Hc0 & Hc1 & Hs). specialize (Hm Hg).
  unfold store_call. fold (called w). unfold moves in Hm. destruct (outage (w_step w)).
  { split; [split; [exact Hh|]|exact Hs]. cbn. eapply clock_later; [|exact Hc1]. lia. }
  destruct (m _ _ (called w)) as [r t'] eqn:Em. cbn in *. split.
  - split; cbn.
    + eapply steps_healthy; [apply updates_steps, Hm|done].
    + eapply updates_clock; [exact Hm|]. eapply clock_later; [|exact Hc1]. lia.
  - etransitivity; [exact Hs|]. by apply updates_steps.
Qed.

Lemma leads_backend {A} (f : B -> result backend_error A * B) call w :
  leads w (snd (backend_op interference f call w)).
Proof.
  intros Hg. destruct (called_ok w Hg) as (Hh & Hc0 & Hc1 & Hs).
  unfold backend_op. fold (called w). destruct (f (w_backend w)). cbn. split; [|exact Hs].
  split; [exact Hh|]. cbn. eapply clock_later; [|exact Hc1]. lia.
Qed.

Lemma leads_attempt {A} (m : R A) w : leads w (snd (m w)) -> leads w (snd (attempt m w)).
Proof. unfold attempt. by destruct (m w). Qed.

Lemma leads_claim run w : leads w (snd (claim rc clock interference outage run w)).
Proof. apply leads_store_call. intros Hg. destruct (called_ok w Hg) as (? & ? & ? & _). by apply moves_Claim. Qed.

Lemma leads_update i w : leads w (snd (update_status clock interference outage i w)).
Proof. apply leads_store_call. intros Hg. destruct (called_ok w Hg) as (? & ? & ? & _). by apply moves_UpdateStatus. Qed.

Lemma moves_load_ret {A} id (f : storedRun -> A) t : moves (let* s := loadForUpdate id in ret (f s))%go t.
Proof. apply moves_load. intros. apply moves_ret. Qed.

Lemma leads_backendRun run w : leads w (snd (backendRun clock interference outage run w)).
Proof.
  revert w. apply preserves_bind; [typeclasses eauto| |].
  { intros w. apply leads_store_call. intros _. apply moves_guard. intros _. apply moves_load_ret. }
  intros [[[[raw desired] ownership] cursor] rollout].
  destruct (DecodeResolvedAgentRun raw); [|apply preserves_fail; typeclasses eauto].
  apply preserves_bind; [typeclasses eauto|apply preserves_guard; typeclasses eauto|]. intros _.
  destruct rollout; [|apply preserves_ret; typeclasses eauto].
  apply preserves_bind; [typeclasses eauto| |].
  { intros w. apply leads_store_call. intros _. apply moves_guard. intros _. apply moves_load_ret. }
  intros [active d]. destruct (DecodeResolvedAgentRun active);
    [apply preserves_ret|apply preserves_fail]; typeclasses eauto.
Qed.

(** ** The run a reconciliation works on was read from the store *)

(** [r] is the version the view [run] was read from, at or before [w]. *)
Definition seen (run : Run) (r : row) (w : world B) : Prop :=
  exists s t, row_record r = Some s /\ sr_view s = run /\ healthy t /\ In r t /\ rtc table_step t (w_table w).

Lemma seen_later run r w w' : rtc table_step (w_table w) (w_table w') -> seen run r w -> seen run r w'.
Proof. intros Hs (s & t & H1 & H2 & H3 & H4 & H5). exists s, t. split_and!; [done..|]. by etransitivity. Qed.

Lemma seen_view run r w : seen run r w ->
  v_RunID run = run_id r /\ v_Revision run = revision r /\ v_State run = state r /\
  v_DeleteRequested run = (delete_requested r =? 1)%Z /\ v_TerminalTarget run = terminal_target r.
Proof.
  intros (s & t & Hr & Hv & _). apply row_record_some in Hr as (x & k & V & ->). subst run. done.
Qed.

(** What the two reads of [backendRun] say about a row that is still there. *)
Lemma backendRun_describes run br w w' r :
  good w -> seen run r w -> backendRun clock interference outage run w = (Ok br, w') ->
  exists ta tb, rtc table_step (w_table w) ta /\ rtc table_step ta tb /\ rtc table_step tb (w_table w') /\
    (In r ta -> In r tb -> describes r br).
Proof.
  intros Hg Hseen H. pose proof (seen_view _ _ _ Hseen) as (Hid & _ & _ & Hdel & _).
  pose proof Hseen as (s & _ & Hrec & _).
  apply bind_ok in H as ([[[[raw desired] ownership] cursor] rollout] & w1 & H1 & H).
  assert (Hw1 : w_table w1 = called w /\ good w1 /\ (In r (called w) ->
    raw = (if negb (sr_pendingSnapshot s =? "") then sr_pendingSnapshot s else sr_snapshot s) /\
    desired = (if negb (sr_pendingSnapshot s =? "") then sr_pendingDigest s else v_SnapshotDigest (sr_view s)) /\
    ownership = sr_ownershipDigest s /\ cursor = sr_lifecycleCursor s /\ rollout = negb (sr_pendingSnapshot s =? ""))).
  { pose proof (leads_store_call (fun _ _ => backendSnapshot (v_RunID run)) w) as Hl. rewrite H1 in Hl. cbn in Hl.
    destruct (called_ok w Hg) as (Hh & _).
    destruct Hl as [Hg1 _]; [intros _; apply moves_guard; intros _; apply moves_load_ret|done|].
    unfold store_call in H1. fold (called w) in H1. destruct (outage (w_step w)); [done|].
    destruct (backendSnapshot (v_RunID run) (called w)) as [[v|e] t'] eqn:Eb; [|done]. injection H1 as -> <-. cbn.
    apply bind_ok in Eb as (u & t1 & Eg & Eb). apply guard_ok in Eg as [_ ->].
    apply bind_ok in Eb as (s' & t1 & El & Eb). pose proof (loadForUpdate_ok _ _ _ _ El) as (-> & _).
    injection Eb as <- <- <- <- <- <-. split; [done|]. split; [exact Hg1|]. intros Hin.
    by rewrite (load_found _ r s _ _ _ Hh Hin (eq_sym Hid) Hrec El). }
  destruct Hw1 as (Ht1 & Hg1 & Hread). destruct (called_ok w Hg) as (_ & _ & _ & Hs1).
  destruct (DecodeResolvedAgentRun raw) as [resolved|] eqn:Ed; [|done].
  apply bind_ok in H as (u & w2 & Hgd & H). apply guard_ok in Hgd as [_ ->].
  apply row_record_some in Hrec as (x & k & V & Es). subst s. cbn in Hread.
  destruct rollout.
  2: { injection H as <- <-. exists (called w), (called w). rewrite Ht1. split_and!; [done|apply rtc_refl|apply rtc_refl|].
       intros Hin _. destruct (Hread Hin) as (-> & -> & -> & -> & Hro). unfold describes. cbn. rewrite <- Hro.
       rewrite <- Hro in Ed. split_and!; done. }
  apply bind_ok in H as ([active d] & w2 & H2 & H).
  assert (Hw2 : w_table w2 = called w1 /\ (In r (called w1) -> active = snapshot r)).
  { destruct (called_ok w1 Hg1) as (Hh & _). unfold store_call in H2. fold (called w1) in H2.
    destruct (outage (w_step w1)); [done|]. destruct (ResolvedSnapshot (v_RunID run) (called w1)) as [[v|e] t'] eqn:Eb; [|done]. injection H2 as -> <-. cbn.
    apply bind_ok in Eb as (u2 & t1 & Eg & Eb). apply guard_ok in Eg as [_ ->].
    apply bind_ok in Eb as (s' & t1 & El & Eb). pose proof (loadForUpdate_ok _ _ _ _ El) as (-> & _).
    injection Eb as <- <- <-. split; [done|]. intros Hin.
    assert (Hrec : row_record r = Some (record_of r k (row_view r x k))) by (apply row_record_some; eauto).
    by rewrite (load_found _ r _ _ _ _ Hh Hin (eq_sym Hid) Hrec El). }
  destruct Hw2 as [Ht2 Hact]. destruct (called_ok w1 Hg1) as (_ & _ & _ & Hs2).
  destruct (DecodeResolvedAgentRun active) as [previous|] eqn:Ep; [|done]. injection H as <- <-.
  exists (called w), (called w1). rewrite Ht2. rewrite Ht1 in Hs2. split_and!; [done|done|apply rtc_refl|].
  intros Hin Hin2. destruct (Hread Hin) as (-> & -> & -> & -> & Hro). rewrite (Hact Hin2) in Ep. unfold describes. cbn.
  rewrite <- Hro. rewrite <- Hro in Ed. split_and!; done.
Qed.

(** ** Claims *)

(** The row version [r], leased to this process by its store call [n]. *)
Definition leased (n : nat) (r r' : row) : Prop :=
  r' = claim_update (rc_owner rc) (clock (2 * n + 1) + rc_lease rc) (clock (2 * n + 1)) (revision r + 1) r.

Lemma claim_leases run r v w w' :
  good w -> seen run r w -> claim rc clock interference outage run w = (Ok v, w') ->
  good w' /\ rtc table_step (w_table w) (w_table w') /\ In r (called w) /\ v_Revision v = revision r + 1 /\
  w_calls w' = w_calls w /\ w_step w' = S (w_step w) /\ Second <= rc_lease rc /\
  exists r', leased (w_step w) r r' /\ In r' (w_table w').
Proof.
  intros Hg Hseen H. pose proof (leads_claim run w Hg) as Hl. rewrite H in Hl. cbn in Hl. destruct Hl as [Hg' Hs].
  split; [done|]. split; [done|]. destruct (called_ok w Hg) as (Hh & Hc0 & Hc1 & Hsteps).
  unfold claim, store_call in H. fold (called w) in H. destruct (outage (w_step w)); [done|].
  destruct (Claim _ _ _ _ (called w)) as [[v'|e] t'] eqn:Ec; [|done]. injection H as <- <-. cbn.
  destruct (Claim_row _ _ _ _ _ _ _ Hh Hc0 Hc1 Ec) as (Hpos & r1 & Hin1 & Hid1 & Hrev1 & Hv & Hin'). cbn in *.
  destruct (seen_view _ _ _ Hseen) as (Hid & Hrev & _). destruct Hseen as (s & t & Hr & _ & Ht & Hint & Hst).
  assert (Hsweep : rtc table_step (called w) (map (sweep_row (clock (2 * w_step w))) (called w))).
  { apply steps_map. intros y Hy. by eapply sweep_row_step. }
  destruct (row_between t (called w) _ r Ht Hint ltac:(eauto) ltac:(by etransitivity) Hsweep) as [Hcall Hsw].
  { exists r1. split_and!; [done|congruence|congruence]. }
  assert (r1 = r) as ->.
  { eapply (pk_sorted_inj run_id); [apply (steps_healthy _ _ Hsweep Hh)|done|done|congruence]. }
  split_and!; [done|done|done|done|done|]. eexists. split; [|exact Hin']. reflexivity.
Qed.

Lemma leased_facts n r r' : leased n r r' ->
  run_id r' = run_id r /\ state r' = state r /\ reconcile_owner r' = Some (rc_owner rc) /\
  reconcile_until r' = Some (RFC3339 (clock (2 * n + 1) + rc_lease rc)) /\
  revision r' = revision r + 1 /\ forall br, describes r br -> describes r' br.
Proof. intros ->. split_and!; done. Qed.

(** The desired value handed to the backend is that of the leased row. *)
Lemma claim_describes run r br v w w1 w2 :
  good w -> seen run r w -> backendRun clock interference outage run w = (Ok br, w1) ->
  claim rc clock interference outage run w1 = (Ok v, w2) ->
  good w2 /\ rtc table_step (w_table w) (w_table w2) /\ v_Revision v = revision r + 1 /\
  w_calls w2 = w_calls w1 /\ Second <= rc_lease rc /\
  exists r' n, w_step w2 = S n /\ In r' (w_table w2) /\ leased n r r' /\ describes r' br.
Proof.
  intros Hg Hseen Hb Hc. destruct (backendRun_describes _ _ _ _ _ Hg Hseen Hb) as (ta & tb & S1 & S2 & S3 & Hd).
  pose proof (leads_backendRun run w Hg) as Hl. rewrite Hb in Hl. cbn in Hl. destruct Hl as [Hg1 Hs1].
  destruct (claim_leases run r v w1 w2 Hg1 (seen_later _ _ _ _ Hs1 Hseen) Hc)
    as (Hg2 & Hs2 & Hcall & Hv & Hlog & Hstep & Hpos & r' & Hl & Hin').
  split_and!; [done|by etransitivity|done|done|done|]. exists r', (w_step w1). split_and!; [done|done|done|].
  apply (leased_facts _ _ _ Hl), Hd.
  - destruct Hseen as (s & t & Hr & _ & Ht & Hint & Hst).
    destruct (called_ok w1 Hg1) as (_ & _ & _ & Hs4).
    eapply (row_between t ta (called w1)); [done|done|eauto|by etransitivity| |eauto].
    etransitivity; [exact S2|]. etransitivity; [exact S3|exact Hs4].
  - destruct Hseen as (s & t & Hr & _ & Ht & Hint & Hst).
    destruct (called_ok w1 Hg1) as (_ & _ & _ & Hs4).
    eapply (row_between t tb (called w1)); [done|done|eauto| | |eauto].
    + etransitivity; [exact Hst|]. etransitivity; [exact S1|exact S2].
    + etransitivity; [exact S3|exact Hs4].
Qed.

(** ** Abandoning a rollout touches only the leased preparing row *)

Lemma leased_readable n r r' s : row_record r = Some s -> leased n r r' -> State_terminal (state r) = false ->
  (exists t, In r' t /\ healthy t) -> is_Some (row_record r').
Proof.
  intros Hr Hl Ht (t & Hin & Hh). destruct (leased_facts _ _ _ Hl) as (_ & Hs & _).
  destruct (row_ok_active r') as (x & k & V & _); [by apply Hh|by rewrite Hs|].
  exists (record_of r' k (row_view r' x k)). apply row_record_some. eauto.
Qed.

Lemma abort_leased_preparing run n r r' v w t :
  good w -> seen run r w -> state r = StatePreparing -> leased n r r' -> In r' (w_table w) ->
  v_Revision v = revision r + 1 -> rtc table_step (w_table w) t ->
  aborts_preparing (v_RunID run) (rc_owner rc) (v_Revision v) t.
Proof.
  intros [Hh _] Hseen Hst Hl Hin Hv Hs r1 Hin1 Hw.
  destruct (leased_facts _ _ _ Hl) as (Hid & Hst' & _ & _ & Hrev & _).
  destruct (seen_view _ _ _ Hseen) as (Hrid & _). pose proof Hseen as (s & _ & Hr & _).
  assert (Hread : is_Some (row_record r')).
  { eapply leased_readable; [exact Hr|exact Hl|by rewrite Hst|eauto]. }
  unfold abort_where, at_revision in Hw. bool_prop.
  destruct (row_between _ _ _ _ Hh Hin Hread Hs (rtc_refl _ _)) as [_ Hint].
  { exists r1. split_and!; [done|congruence|congruence]. }
  assert (r1 = r') as ->; [|by rewrite Hst'].
  eapply (pk_sorted_inj run_id); [apply (steps_healthy _ _ Hs Hh)|done|done|congruence].
Qed.

(** ** Steps that do not touch the backend *)

Definition quiet (w w' : world B) : Prop := w_calls w' = w_calls w.

#[local] Instance quiet_preorder : PreOrder quiet.
Proof. split; [done|]. intros w1 w2 w3 H1 H2. unfold quiet in *. congruence. Qed.

Lemma quiet_store_call {A} (m : time -> time -> DB A) : preserves quiet (store_call clock interference outage m).
Proof. intros w. unfold store_call. destruct (outage (w_step w)); [done|]. by destruct (m _ _ _). Qed.

Lemma quiet_backendRun run : preserves quiet (backendRun clock interference outage run).
Proof.
  apply preserves_bind; [typeclasses eauto|apply quiet_store_call|].
  intros [[[[raw desired] ownership] cursor] rollout].
  destruct (DecodeResolvedAgentRun raw); [|apply preserves_fail; typeclasses eauto].
  apply preserves_bind; [typeclasses eauto|apply preserves_guard; typeclasses eauto|]. intros _.
  destruct rollout; [|apply preserves_ret; typeclasses eauto].
  apply preserves_bind; [typeclasses eauto|apply quiet_store_call|].
  intros [active d]. destruct (DecodeResolvedAgentRun active);
    [apply preserves_ret|apply preserves_fail]; typeclasses eauto.
Qed.

Lemma quiet_then_ret i : preserves quiet (let* _ := update_status clock interference outage i in ret tt)%go.
Proof.
  apply preserves_bind; [typeclasses eauto|apply quiet_store_call|]. intros _. apply preserves_ret; typeclasses eauto.
Qed.

Lemma leads_then_ret i : preserves leads (let* _ := update_status clock interference outage i in ret tt)%go.
Proof.
  apply preserves_bind; [typeclasses eauto|intros w; apply leads_update|].
  intros _. apply preserves_ret; typeclasses eauto.
Qed.

Lemma quiet_after_ensure run claimed br ensured : preserves quiet (after_ensure rc clock interference outage run claimed br ensured).
Proof.
  unfold after_ensure. destruct ensured as [ob|[]]; try (apply preserves_fail; typeclasses eauto).
  - destruct (negb (ob_TerminalTarget ob =? "")).
    + apply preserves_bind; [typeclasses eauto|apply preserves_guard; typeclasses eauto|]. intros _. apply quiet_then_ret.
    + apply preserves_bind; [typeclasses eauto|apply preserves_guard; typeclasses eauto|]. intros _. apply quiet_then_ret.
  - destruct (br_ConfigurationRollout br); [apply quiet_store_call|apply quiet_then_ret].
Qed.

Lemma leads_after_ensure run claimed br ensured w :
  (forall t, rtc table_step (w_table w) t -> aborts_preparing (v_RunID run) (rc_owner rc) (v_Revision claimed) t) ->
  leads w (snd (after_ensure rc clock interference outage run claimed br ensured w)).
Proof.
  intros Hab. unfold after_ensure. destruct ensured as [ob|[]]; try (apply preserves_fail; typeclasses eauto).
  - destruct (negb (ob_TerminalTarget ob =? "")); rewrite guard_bind; destruct (negb _); try reflexivity;
      apply leads_then_ret.
  - destruct (br_ConfigurationRollout br); [|apply leads_then_ret].
    apply leads_store_call. intros Hg. destruct (called_ok w Hg) as (Hh & _ & Hc & Hs).
    apply moves_abort; [done|done|]. by apply Hab.
Qed.

(** ** One run *)

(** The backend call at step [n] was made under a claim.  The store call just
    before it left, in some table [t0], a row [r] in [st] with [desired] as its
    desired value, leased to this process from that call's clock reading for
    the whole lease.  Then the others acted, which gave the table [t] of the
    call: [r] is still there, or they moved it on along the transition
    system to a later revision. *)
Definition entitled (st : State) (desired : BackendRun) (n : nat) (t t0 : table) (r : row) : Prop :=
  In r t0 /\ state r = st /\ describes r desired /\
  (let claimed_at := clock (2 * (n - 1) + 1) in
   reconcile_owner r = Some (rc_owner rc) /\
   reconcile_until r = Some (RFC3339 (claimed_at + rc_lease rc)) /\ Second <= rc_lease rc) /\
  t = interference n t0 /\
  (In r t \/ exists r', In r' t /\ rtc row_step r r' /\ revision r < revision r').

(** What a backend call is entitled to. *)
Definition call_ok (run : Run) (from : table) (call : backend_call) : Prop :=
  match call with
  | CallEnsure br n t => v_State run = StatePreparing /\
      exists t0 r, rtc table_step from t0 /\ run_id r = v_RunID run /\ entitled StatePreparing br n t t0 r
  | CallDelete br n t => v_State run = StateStopping /\
      exists t0 r, rtc table_step from t0 /\ run_id r = v_RunID run /\ entitled StateStopping br n t t0 r
  | CallInspect br n t => v_State run = StateRunning
  end.

Lemma call_ok_from run from from' call : rtc table_step from from' -> call_ok run from' call -> call_ok run from call.
Proof.
  intros Hs. destruct call as [br n t|br n t|br n t]; [| done |];
    intros (Hst & t0 & r & H0 & H); (split; [done|]); exists t0, r; (split; [by etransitivity|done]).
Qed.

Definition outcome (run : Run) (w w' : world B) : Prop :=
  good w' /\ rtc table_step (w_table w) (w_table w') /\
  exists cs, w_calls w' = (cs ++ w_calls w)%list /\ List.Forall (call_ok run (w_table w)) cs.

Lemma outcome_quiet run w w' : good w -> leads w w' -> quiet w w' -> outcome run w w'.
Proof. intros Hg Hl Hq. destruct (Hl Hg). split_and!; [done|done|]. exists []. split; [done|constructor]. Qed.

Lemma outcome_trans run w w1 w2 : outcome run w w1 -> (good w1 -> outcome run w1 w2) -> outcome run w w2.
Proof.
  intros (G1 & S1 & cs1 & E1 & F1) H2. destruct (H2 G1) as (G2 & S2 & cs2 & E2 & F2).
  split_and!; [done|by etransitivity|]. exists (cs2 ++ cs1)%list. rewrite E2, E1, app_assoc.
  split; [done|]. apply List.Forall_app. split; [|done].
  eapply List.Forall_impl; [|exact F2]. intros call. by apply call_ok_from.
Qed.

Lemma backend_outcome run {A} (f : B -> result backend_error A * B) call w r w1 :
  good w -> call_ok run (w_table w) (call (w_step w) (called w)) -> backend_op interference f call w = (r, w1) ->
  outcome run w w1 /\ w_table w1 = called w.
Proof.
  intros Hg Hc H. pose proof (leads_backend f call w Hg) as [Hg1 Hs1]. rewrite H in Hg1, Hs1. cbn in Hg1, Hs1.
  unfold backend_op in H. fold (called w) in H. destruct (f (w_backend w)) as [x b]. injection H as <- <-.
  split; [|done]. split; [exact Hg1|]. split; [exact Hs1|]. exists [call (w_step w) (called w)]. split; [done|].
  by constructor.
Qed.

(** The claimed row, when the backend is called. *)
Lemma leased_entitled run st desired r r' n w :
  good w -> seen run r w -> leased n r r' -> w_step w = S n -> In r' (w_table w) -> state r = st ->
  State_terminal st = false -> describes r' desired -> Second <= rc_lease rc ->
  run_id r' = v_RunID run /\ entitled st desired (w_step w) (called w) (w_table w) r'.
Proof.
  intros Hg Hseen Hl Hn Hin Hst Ht Hd Hpos. destruct (seen_view _ _ _ Hseen) as (Hid & _).
  destruct (leased_facts _ _ _ Hl) as (Hid' & Hst' & Hown & Huntil & _). split; [congruence|].
  destruct (called_ok w Hg) as (Hh & _ & _ & Hs). pose proof Hseen as (s & _ & Hrec & _).
  assert (Hread : is_Some (row_record r')).
  { eapply leased_readable; [exact Hrec|exact Hl|by rewrite Hst|]. exists (w_table w). split; [done|apply Hg]. }
  rewrite Hn. unfold entitled. replace (S n - 1)%nat with n by lia. rewrite <- Hn.
  split_and!; [done|congruence|done|done|done|done|done|].
  destruct (steps_row _ _ r' Hs Hin) as (r1 & Hin1 & Hr1). destruct (decide (revision r1 = revision r')) as [He|He].
  - left. by rewrite (row_steps_revision_eq _ _ Hr1 Hread He) in Hin1.
  - right. exists r1. split_and!; [done|done|]. pose proof (row_steps_revision _ _ Hr1). lia.
Qed.

Lemma pending_outcome run w : good w -> outcome run w (snd (reconcile_pending rc clock interference outage run w)).
Proof.
  intros Hg. apply outcome_quiet; [done| |].
  - revert w Hg. assert (H : preserves leads (reconcile_pending rc clock interference outage run)); [|by intros w _].
    apply preserves_bind; [typeclasses eauto|intros w; apply leads_claim|]. intros v. apply leads_then_ret.
  - assert (H : preserves quiet (reconcile_pending rc clock interference outage run)); [|apply H].
    apply preserves_bind; [typeclasses eauto|apply quiet_store_call|]. intros v. apply quiet_then_ret.
Qed.

Lemma claim_then_status_outcome run f w :
  good w -> outcome run w (snd ((let* claimed := claim rc clock interference outage run in
                                 let* _ := update_status clock interference outage (f claimed) in ret tt)%go w)).
Proof.
  intros Hg. apply outcome_quiet; [done| |].
  - revert w Hg. assert (H : preserves leads (let* claimed := claim rc clock interference outage run in
      let* _ := update_status clock interference outage (f claimed) in ret tt)%go); [|by intros w _].
    apply preserves_bind; [typeclasses eauto|intros w; apply leads_claim|]. intros v. apply leads_then_ret.
  - assert (H : preserves quiet (let* claimed := claim rc clock interference outage run in
      let* _ := update_status clock interference outage (f claimed) in ret tt)%go); [|apply H].
    apply preserves_bind; [typeclasses eauto|apply quiet_store_call|]. intros v. apply quiet_then_ret.
Qed.

Lemma running_outcome run br w :
  good w -> v_State run = StateRunning -> outcome run w (snd (reconcile_running rc clock interference outage run br w)).
Proof.
  intros Hg Hs. unfold reconcile_running, bind at 1.
  destruct (backend_op interference (Inspect br) (CallInspect br) w) as [[res|e] w1] eqn:Eb.
  2: { unfold backend_op in Eb. destruct (Inspect br (w_backend w)); done. }
  destruct (backend_outcome run _ (CallInspect br) w _ w1 Hg Hs Eb) as [Ho Ht].
  eapply outcome_trans; [exact Ho|]. intros Hg1. destruct res as [ob|e].
  - assert (Hsame : outcome run w1 w1) by (apply outcome_quiet; [done|reflexivity|done]).
    destruct (_ && _); [exact Hsame|]. destruct (negb (finished_target _)).
    + destruct (negb _); [|exact Hsame]. by apply claim_then_status_outcome.
    + by apply claim_then_status_outcome.
  - apply outcome_quiet; [done|reflexivity|done].
Qed.

(** The two branches that act on the backend do so under a claim of the row
    version they describe. *)
Lemma claim_outcome run r br (k : Run -> R unit) w w1 :
  good w -> seen run r w -> backendRun clock interference outage run w = (Ok br, w1) ->
  (forall v w2 r' n, good w2 -> seen run r w2 -> w_step w2 = S n -> In r' (w_table w2) -> leased n r r' ->
     describes r' br -> Second <= rc_lease rc -> v_Revision v = revision r + 1 -> outcome run w2 (snd (k v w2))) ->
  outcome run w (snd (bind (claim rc clock interference outage run) k w1)).
Proof.
  intros Hg Hseen Hb Hk. pose proof (leads_backendRun run w Hg) as Hl. rewrite Hb in Hl. cbn in Hl.
  pose proof (quiet_backendRun run w) as Hq. rewrite Hb in Hq. cbn in Hq. destruct Hl as [Hg1 Hs1].
  assert (Ho1 : outcome run w w1) by (apply outcome_quiet; done).
  unfold bind at 1. pose proof (leads_claim run w1) as Hl.
  pose proof (quiet_store_call (fun t0 now => Claim (rc_store rc) t0 now
    (mkClaimInput (v_RunID run) (rc_owner rc) (v_Revision run) (rc_lease rc))) w1) as Hq2.
  fold (claim (B := B) rc clock interference outage run) in Hq2.
  destruct (claim rc clock interference outage run w1) as [[v|e] w2] eqn:Ec; cbn in Hl, Hq2.
  - destruct (claim_describes _ _ _ _ _ _ _ Hg Hseen Hb Ec) as (Hg2 & Hs2 & Hv & Hlog & Hpos & r' & n & Hn & Hin & Hlease & Hd).
    eapply outcome_trans; [exact Ho1|]. intros _. eapply outcome_trans; [by apply outcome_quiet|]. intros _.
    eapply Hk; eauto using seen_later.
  - eapply outcome_trans; [exact Ho1|]. intros _. by apply outcome_quiet.
Qed.

Lemma preparing_outcome run r br w w1 :
  good w -> seen run r w -> v_State run = StatePreparing ->
  backendRun clock interference outage run w = (Ok br, w1) ->
  outcome run w (snd (reconcile_preparing rc clock interference outage run br w1)).
Proof.
  intros Hg Hseen Hst Hb. eapply claim_outcome; [done|exact Hseen|exact Hb|].
  intros v w2 r' n Hg2 Hseen2 Hn Hin Hlease Hd Hpos Hv.
  destruct (seen_view _ _ _ Hseen2) as (_ & _ & Hstate & _). rewrite Hst in Hstate.
  destruct (leased_entitled run StatePreparing br r r' n w2) as [Hid Hent]; [done..|].
  unfold bind at 1. destruct (backend_op interference (Ensure br) (CallEnsure br) w2) as [[ens|e] w3] eqn:Eb.
  2: { unfold backend_op in Eb. destruct (Ensure br (w_backend w2)); done. }
  assert (Hcall : call_ok run (w_table w2) (CallEnsure br (w_step w2) (called w2))).
  { split; [done|]. exists (w_table w2), r'. by split_and!; [apply rtc_refl|..]. }
  destruct (backend_outcome run _ (CallEnsure br) w2 _ w3 Hg2 Hcall Eb) as [Ho3 Ht3].
  eapply outcome_trans; [exact Ho3|]. intros Hg3. apply outcome_quiet; [done| |apply quiet_after_ensure].
  apply leads_after_ensure. intros t Hst3. rewrite Ht3 in Hst3. destruct (called_ok w2 Hg2) as (_ & _ & _ & Hs2).
  eapply (abort_leased_preparing run n r r' v w2); [done|done|done|done|done|done|by etransitivity].
Qed.

Lemma stopping_outcome run r br w w1 :
  good w -> seen run r w -> v_State run = StateStopping ->
  backendRun clock interference outage run w = (Ok br, w1) ->
  outcome run w (snd (reconcile_stopping rc clock interference outage run br w1)).
Proof.
  intros Hg Hseen Hst Hb. eapply claim_outcome; [done|exact Hseen|exact Hb|].
  intros v w2 r' n Hg2 Hseen2 Hn Hin Hlease Hd Hpos Hv.
  destruct (seen_view _ _ _ Hseen2) as (_ & _ & Hstate & _). rewrite Hst in Hstate.
  destruct (leased_entitled run StateStopping br r r' n w2) as [Hid Hent]; [done..|].
  unfold bind at 1. destruct (backend_op interference (BackendDelete br) (CallDelete br) w2) as [[del|e] w3] eqn:Eb.
  2: { unfold backend_op in Eb. destruct (BackendDelete br (w_backend w2)); done. }
  assert (Hcall : call_ok run (w_table w2) (CallDelete br (w_step w2) (called w2))).
  { split; [done|]. exists (w_table w2), r'. by split_and!; [apply rtc_refl|..]. }
  destruct (backend_outcome run _ (CallDelete br) w2 _ w3 Hg2 Hcall Eb) as [Ho3 Ht3].
  eapply outcome_trans; [exact Ho3|]. intros Hg3.
  destruct del as [u|e]; [|apply outcome_quiet; [done|reflexivity|done]].
  apply outcome_quiet; [done|apply leads_then_ret|apply quiet_then_ret].
Qed.

Lemma reconcileRun_outcome run r w :
  good w -> seen run r w -> outcome run w (snd (reconcileRun rc clock interference outage run w)).
Proof.
  intros Hg Hseen. unfold reconcileRun, bind at 1.
  pose proof (leads_backendRun run w) as Hl. pose proof (quiet_backendRun run w) as Hq.
  destruct (backendRun clock interference outage run w) as [[br|e] w1] eqn:Eb; cbn in Hl, Hq;
    [|by apply outcome_quiet].
  assert (Ho1 : outcome run w w1) by (by apply outcome_quiet).
  destruct (v_State run =? StatePending) eqn:E1.
  { eapply outcome_trans; [exact Ho1|]. intros. by apply pending_outcome. }
  destruct (v_State run =? StatePreparing) eqn:E2; [apply String.eqb_eq in E2; by eapply preparing_outcome|].
  destruct (v_State run =? StateRunning) eqn:E3.
  { apply String.eqb_eq in E3. eapply outcome_trans; [exact Ho1|]. intros. by apply running_outcome. }
  destruct (v_State run =? StateStopping) eqn:E4; [apply String.eqb_eq in E4; by eapply stopping_outcome|].
  exact Ho1.
Qed.

(** ** Passes *)

(** A pass keeps the world good and makes calls entitled to their runs, of the
    kinds [P] allows. *)
Definition pass (P : Run -> Prop) (w w' : world B) : Prop :=
  good w -> good w' /\ rtc table_step (w_table w) (w_table w') /\
  exists cs, w_calls w' = (cs ++ w_calls w)%list /\
    List.Forall (fun call => exists run, P run /\ call_ok run (w_table w) call) cs.

#[local] Instance pass_preorder P : PreOrder (pass P).
Proof.
  split.
  - intros w Hg. split_and!; [done|apply rtc_refl|]. exists []. split; [done|constructor].
  - intros w1 w2 w3 H12 H23 Hg. destruct (H12 Hg) as (G2 & S2 & cs2 & E2 & F2).
    destruct (H23 G2) as (G3 & S3 & cs3 & E3 & F3). split_and!; [done|by etransitivity|].
    exists (cs3 ++ cs2)%list. rewrite E3, E2, app_assoc. split; [done|]. apply List.Forall_app. split; [|done].
    eapply List.Forall_impl; [|exact F3]. intros call (run & HP & Hc). exists run. split; [done|].
    by eapply call_ok_from.
Qed.

Lemma pass_quiet P w w' : leads w w' -> quiet w w' -> pass P w w'.
Proof. intros Hl Hq Hg. destruct (Hl Hg). split_and!; [done|done|]. exists []. split; [done|constructor]. Qed.

Lemma pass_outcome (P : Run -> Prop) run w w' : P run -> outcome run w w' -> pass P w w'.
Proof.
  intros HP (G & S & cs & E1 & F) _. split_and!; [done|done|]. exists cs. split; [done|].
  eapply List.Forall_impl; [|exact F]. intros call Hc. eauto.
Qed.

Lemma pass_bind {A A'} P (m : R A) (k : A -> R A') w :
  pass P w (snd (m w)) -> (forall a w1, good w -> m w = (Ok a, w1) -> pass P w1 (snd (k a w1))) ->
  pass P w (snd (bind m k w)).
Proof.
  unfold bind. destruct (m w) as [[a|e] w1] eqn:Em; intros Hm Hk; [|exact Hm].
  intros Hg. exact (transitivity (R := pass P) Hm (Hk a w1 Hg eq_refl) Hg).
Qed.

(** The runs of a page were read from the table the page leaves behind. *)
Lemma list_page_seen after w page w' :
  good w -> list_page clock interference outage after w = (Ok page, w') ->
  good w' /\ rtc table_step (w_table w) (w_table w') /\ quiet w w' /\
  forall run, In run (lr_Runs page) -> exists r, seen run r w'.
Proof.
  intros Hg H. apply bind_ok in H as (o & w1 & H1 & H2).
  pose proof (leads_store_call (fun t0 _ => List_ t0 MaxListLimit after) w) as Hl.
  pose proof (quiet_store_call (fun t0 _ => List_ t0 MaxListLimit after) w) as Hq.
  rewrite H1 in Hl, Hq. cbn in Hl, Hq. destruct (called_ok w Hg) as (Hh & Hc0 & Hc1 & Hs).
  destruct Hl as [Hg1 Hs1]; [intros _; by apply moves_list|done|].
  destruct o as [p|]; [|done]. injection H2 as <- <-. split_and!; [done|done|done|].
  unfold store_call in H1. fold (called w) in H1. destruct (outage (w_step w)); [done|].
  destruct (List_ _ _ _ (called w)) as [[o|e] t'] eqn:El; [|done]. injection H1 as -> <-.
  assert (Hafter : after = "" \/ validRunID after = true).
  { unfold List_, store_list in El. rewrite guard_bind in El. destruct (_ || _) eqn:Eg in El; [done|].
    apply orb_false_iff in Eg as [_ Eg]. apply andb_false_iff in Eg as [Eg|Eg]; apply negb_false_iff in Eg;
      [left; by apply String.eqb_eq|by right]. }
  unfold List_ in El. rewrite store_list_healthy in El; [|done|done|vm_compute; split; congruence|done].
  injection El as <- <-. cbn. intros run Hin.
  assert (Hin' : In run (listing (map (sweep_row (clock (2 * w_step w))) (called w)) after false)).
  { rewrite <- (take_drop (Z.to_nat MaxListLimit)). apply in_app_iff. by left. }
  unfold listing in Hin'. apply omap_in in Hin' as (r & Hr & Hv). apply List.filter_In in Hr as [Hr _].
  unfold row_run in Hv. destruct (row_record r) as [s|] eqn:Er; [|done]. injection Hv as <-.
  exists r, s, (map (sweep_row (clock (2 * w_step w))) (called w)).
  split_and!; [done|done|by apply sweep_preserves|done|apply rtc_refl].
Qed.

Lemma list_page_pass P after : preserves (pass P) (list_page clock interference outage after).
Proof.
  intros w. apply pass_quiet.
  - assert (H : preserves leads (list_page clock interference outage after)); [|apply H].
    apply preserves_bind; [typeclasses eauto| |].
    + intros w0. apply leads_store_call. intros Hg. destruct (called_ok w0 Hg) as (? & ? & _). by apply moves_list.
    + intros [p|]; [apply preserves_ret|apply preserves_fail]; typeclasses eauto.
  - assert (H : preserves quiet (list_page clock interference outage after)); [|apply H].
    apply preserves_bind; [typeclasses eauto|apply quiet_store_call|].
    intros [p|]; [apply preserves_ret|apply preserves_fail]; typeclasses eauto.
Qed.

Definition in_pass (cleanup : bool) (run : Run) : Prop :=
  State_terminal (v_State run) = false /\ (v_State run =? StateStopping) = cleanup.

Lemma reconcile_one_pass cleanup run r w :
  seen run r w -> pass (in_pass cleanup) w (snd (reconcile_one rc clock interference outage cleanup run w)).
Proof.
  intros Hseen Hg. unfold reconcile_one. destruct (_ || _) eqn:Eb.
  { by apply (pass_quiet _ w w). }
  apply orb_false_iff in Eb as [E1 E2]. apply negb_false_iff, Bool.eqb_prop in E2.
  pose proof (reconcileRun_outcome run r w Hg Hseen) as Ho. unfold bind, attempt.
  destruct (reconcileRun rc clock interference outage run w) as [res w']. cbn in *.
  by eapply (pass_outcome (in_pass cleanup)).
Qed.

(** All runs of a page, each seen before its turn. *)
Lemma reconcile_each_pass cleanup runs w :
  (forall run, In run runs -> exists r, seen run r w) ->
  pass (in_pass cleanup) w (snd (for_each (reconcile_one rc clock interference outage cleanup) runs w)).
Proof.
  revert w. induction runs as [|run runs IH]; intros w Hs; [reflexivity|]. cbn [for_each].
  destruct (Hs run (or_introl eq_refl)) as [r Hr]. pose proof (reconcile_one_pass cleanup run r w Hr) as H1.
  apply pass_bind; [exact H1|]. intros u w1 Hg E1. rewrite E1 in H1. destruct (H1 Hg) as (_ & S1 & _).
  apply IH. intros run' Hin. destruct (Hs run' (or_intror Hin)) as [r' Hr']. exists r'. by eapply seen_later.
Qed.

Lemma reconcile_pages_pass fuel cleanup after w :
  pass (in_pass cleanup) w (snd (reconcile_pages rc clock interference outage fuel cleanup after w)).
Proof.
  revert after w. induction fuel as [|fuel IH]; intros after w; [reflexivity|]. cbn [reconcile_pages].
  apply pass_bind; [apply list_page_pass|]. intros page w1 Hg El.
  destruct (list_page_seen _ _ _ _ Hg El) as (_ & _ & _ & Hseen).
  apply pass_bind; [by apply reconcile_each_pass|]. intros u w2 _ _.
  destruct (lr_NextAfter page =? ""); [reflexivity|apply IH].
Qed.

Lemma replacementCleanupPending_moves st t : moves (replacementCleanupPending st) t.
Proof. apply rtc_refl. Qed.

Lemma replacementCleanupPending_pure st t : exists b, replacementCleanupPending st t = (Ok b, t).
Proof. eexists. reflexivity. Qed.

Lemma blocked_pass P w :
  pass P w (snd (store_call (B := B) clock interference outage (fun _ _ => replacementCleanupPending (rc_store rc)) w)).
Proof.
  apply pass_quiet; [|apply quiet_store_call]. apply leads_store_call. intros _. apply replacementCleanupPending_moves.
Qed.

Lemma pass_weaken (P Q : Run -> Prop) w w' : (forall run, P run -> Q run) -> pass P w w' -> pass Q w w'.
Proof.
  intros HPQ H Hg. destruct (H Hg) as (G & S & cs & E1 & F). split_and!; [done|done|]. exists cs. split; [done|].
  eapply List.Forall_impl; [|exact F]. intros call (run & HP & Hc). eauto.
Qed.

(** ** Recovery *)

Lemma recover_one_pass P b run w : pass P w (snd (recover_one rc clock interference outage b run w)).
Proof.
  assert (H : preserves (pass P) (recover_one rc clock interference outage b run)); [|apply H].
  assert (Hcall : forall A (m : R A), preserves leads m -> preserves quiet m -> preserves (pass P) (attempt m)).
  { intros A m Hl Hq w0. unfold attempt. specialize (Hl w0). specialize (Hq w0). destruct (m w0). by apply pass_quiet. }
  unfold recover_one. destruct (negb _); [apply preserves_ret; typeclasses eauto|].
  apply preserves_bind; [typeclasses eauto|apply Hcall; [intros w0; apply leads_claim|apply quiet_store_call]|].
  intros [v|[[]|]]; try (apply preserves_ret; typeclasses eauto); try (apply preserves_fail; typeclasses eauto).
  apply preserves_bind; [typeclasses eauto|apply Hcall; [intros w0; apply leads_update|apply quiet_store_call]|].
  intros [v'|[[]|]]; try (apply preserves_ret; typeclasses eauto); apply preserves_fail; typeclasses eauto.
Qed.

Lemma recover_pages_pass P fuel b after w : pass P w (snd (recover_pages rc clock interference outage fuel b after w)).
Proof.
  revert b after w. induction fuel as [|fuel IH]; intros b after w; [reflexivity|]. cbn [recover_pages].
  apply pass_bind; [apply list_page_pass|]. intros page w1 _ _. apply pass_bind.
  { apply preserves_fold_each; [typeclasses eauto|]. intros b' run w0. apply recover_one_pass. }
  intros pending w2 _ _. destruct (lr_NextAfter page =? ""); [|apply IH].
  rewrite guard_bind. destruct pending; reflexivity.
Qed.

(** ** The two passes of [Reconcile] *)

Lemma Reconcile_passes fuel w :
  good w ->
  exists w1, pass (in_pass true) w w1 /\
    (pass (in_pass false) w1 (snd (Reconcile rc clock interference outage fuel w)) /\
     (quiet w1 (snd (Reconcile rc clock interference outage fuel w)) \/
      replacementCleanupPending (rc_store rc) (called w1) = (Ok false, called w1))).
Proof.
  intros Hg. unfold Reconcile. pose proof (reconcile_pages_pass fuel true "" w) as H1.
  unfold bind at 1 3. destruct (reconcile_pages rc clock interference outage fuel true "" w) as [[[u|]|e] w1]; cbn in H1.
  - exists w1. split; [exact H1|]. unfold bind. pose proof (blocked_pass (in_pass false) w1) as H2.
    destruct (store_call _ _ _ _ w1) as [[blocked|e] w2] eqn:Es; cbn in H2.
    + destruct blocked.
      * cbn. split; [exact H2|]. left. pose proof (quiet_store_call (fun _ _ => replacementCleanupPending (rc_store rc)) w1) as Hq.
        rewrite Es in Hq. exact Hq.
      * split; [etransitivity; [exact H2|apply reconcile_pages_pass]|]. right.
        destruct (replacementCleanupPending_pure (rc_store rc) (called w1)) as [b Hb].
        unfold store_call in Es. fold (called w1) in Es. destruct (outage (w_step w1)); [done|].
        rewrite Hb in Es |- *. by injection Es as -> _.
    + cbn. split; [exact H2|]. left.
      pose proof (quiet_store_call (fun _ _ => replacementCleanupPending (rc_store rc)) w1) as Hq. by rewrite Es in Hq.
  - exists w1. split; [exact H1|]. cbn. split; [reflexivity|by left].
  - exists w1. split; [exact H1|]. cbn. split; [reflexivity|by left].
Qed.
End World.

(** ** Termination of the page loop *)

Section Ids.
Context {C : SnapshotCodec}.









End Ids.

Section Terminates.
Context {C : SnapshotCodec} {B : Type} {LB : LocalBackend B}.
Context (rc : Reconciler) (clock : nat -> time) (interference : nat -> table -> table) (outage : nat -> option error).
Context (E : environment clock interference).
(** The environment creates no more than [N] rows. *)
Context (N : nat) (Hroom : forall n t, (length t <= N)%nat -> (length (interference n t) <= N)%nat).

Definition bounded (w w' : world B) : Prop :=
  (length (w_table w) <= N)%nat -> (length (w_table w') <= N)%nat.

#[local] Instance bounded_preorder : PreOrder bounded.
Proof. split; [intros w Hw; exact Hw|]. intros w1 w2 w3 H1 H2 H. by apply H2, H1. Qed.
















End Terminates.

(** * What the reconciler guarantees *)

Local Open Scope Z_scope.
Local Open Scope string_scope.

Section Theorems.
Context {C : SnapshotCodec} {B : Type} {LB : LocalBackend B}.

(** C6: Whatever the API and other processes do to the store between its
    calls along the store's transition system, also between a claim and the
    backend call it is for, whichever store calls the database fails, and
    whatever the backend answers: a reconciliation keeps the store healthy and
    on its transition system, and every backend mutation it makes is entitled.
    [Ensure] is called only under a claim, by the store call before it, of a
    preparing run, and [Delete] only under one of a stopping run; the claimed
    row carries a lease of this process, of at least a second from the claim's
    clock reading, and the backend gets exactly the desired value that row
    describes.  At the call the row is as it was claimed, or the others have
    moved it on to a later revision. *)
Theorem reconcile_entitled (rc : Reconciler) clock interference outage fuel (w : world B) :
  environment clock interference -> good clock w ->
  let w' := snd (Reconcile rc clock interference outage fuel w) in
  good clock w' /\ rtc table_step (w_table w) (w_table w') /\
  exists cs, w_calls w' = (cs ++ w_calls w)%list /\
    List.Forall (fun call =>
      match call with
      | CallEnsure br n t => exists t0 r, rtc table_step (w_table w) t0 /\
          entitled rc clock interference StatePreparing br n t t0 r
      | CallDelete br n t => exists t0 r, rtc table_step (w_table w) t0 /\
          entitled rc clock interference StateStopping br n t t0 r
      | CallInspect _ _ _ => True
      end) cs.
Proof.
  intros E Hg w'. destruct (Reconcile_passes rc clock interference outage E fuel w Hg) as (w1 & H1 & H2 & _).
  fold w' in H2. destruct (H1 Hg) as (G1 & S1 & cs1 & E1 & F1). destruct (H2 G1) as (G2 & S2 & cs2 & E2 & F2).
  split_and!; [done|by etransitivity|]. exists (cs2 ++ cs1)%list. rewrite E2, E1, app_assoc. split; [done|].
  apply List.Forall_app. split; (eapply List.Forall_impl; [|eassumption]);
    intros [br n t|br n t|br n t] (run & _ & Hc); cbn in Hc; try done;
    destruct Hc as (_ & t0 & r & Hs & _ & He); exists t0, r; (split; [|done]); by try (by etransitivity).
Qed.

(** Cleanup comes first: a reconciliation makes all its [Delete] calls
    before any other backend call, and makes no other call at all while
    stopping runs hold the capacity over its limit. *)
Theorem cleanup_first (rc : Reconciler) clock interference outage fuel (w : world B) :
  environment clock interference -> good clock w ->
  exists (w1 : world B) cs0 cs1,
    w_calls w1 = (cs0 ++ w_calls w)%list /\
    w_calls (snd (Reconcile rc clock interference outage fuel w)) = (cs1 ++ w_calls w1)%list /\
    List.Forall (fun call => exists br n t, call = CallDelete br n t) cs0 /\
    List.Forall (fun call => forall br n t, call <> CallDelete br n t) cs1 /\
    (cs1 = [] \/ replacementCleanupPending (rc_store rc) (called interference w1) = (Ok false, called interference w1)).
Proof.
  intros E Hg. destruct (Reconcile_passes rc clock interference outage E fuel w Hg) as (w1 & H1 & H2 & H3).
  destruct (H1 Hg) as (G1 & _ & cs0 & E1 & F1). destruct (H2 G1) as (_ & _ & cs1 & E2 & F2).
  exists w1, cs0, cs1. split_and!; [done|done| | |].
  - eapply List.Forall_impl; [|exact F1]. intros [br n t|br n t|br n t] (run & [_ Hst] & Hc); [| |eauto].
    + destruct Hc as (Hp & _). rewrite Hp in Hst. discriminate Hst.
    + cbn in Hc. rewrite Hc in Hst. discriminate Hst.
  - eapply List.Forall_impl; [|exact F2]. intros call (run & [_ Hst] & Hc) br n t ->.
    destruct Hc as (Hp & _). rewrite Hp in Hst. discriminate Hst.
  - destruct H3 as [H3|H3]; [left|by right]. unfold quiet in H3. rewrite E2 in H3.
    destruct cs1 as [|c cs1]; [done|]. apply (f_equal length) in H3. cbn in H3. rewrite length_app in H3. lia.
Qed.

(** Recovery keeps the store healthy and on its transition system and
    never touches the backend. *)
Theorem recover_only_touches_store (rc : Reconciler) clock interference outage fuel (w : world B) :
  environment clock interference -> good clock w ->
  let w' := snd (Recover rc clock interference outage fuel w) in
  good clock w' /\ rtc table_step (w_table w) (w_table w') /\ w_calls w' = w_calls w.
Proof.
  intros E Hg w'. destruct (recover_pages_pass rc clock interference outage E (fun _ => False) fuel false "" w Hg)
    as (G & S & cs & E1 & F). split_and!; [done|done|]. unfold w', Recover. rewrite E1.
  destruct cs as [|c cs]; [done|]. inversion F as [|? ? (run & [] & _)].
Qed.

End Theorems.

(** ** Instances *)

(** A backend that is always ready. *)
#[local] Instance ready_backend : LocalBackend unit := {
  Ensure br b := (Ok (mkObservation true "" (br_LifecycleCursor br)), b);
  Inspect br b := (Ok (mkObservation true "" (br_LifecycleCursor br)), b);
  BackendDelete br b := (Ok tt, b)
}.

Definition fixture_reconciler : Reconciler := mkReconciler fixture_store "owner-a" (30 * Second).
Definition fixture_clock (n : nat) : time := at_second 20 + Z.of_nat n.
Definition no_interference (n : nat) (t : table) : table := t.
Definition no_outage (n : nat) : option error := None.

Lemma quiet_environment : environment fixture_clock no_interference.
Proof.
  split.
  - intros n m Hle. unfold fixture_clock. lia.
  - intros n t _. apply rtc_refl.
  - intros n t _ Hc. exact Hc.
Qed.

Definition job_world : world unit := mkWorld job_table tt 0 [].

Lemma job_world_good : good fixture_clock job_world.
Proof. split; [apply job_healthy|clocks]. Qed.

(** Two reconciliations bring the pending job to running: the second one calls
    [Ensure] once. *)
Definition first_world : world unit := Eval vm_compute in
  snd (Reconcile fixture_reconciler fixture_clock no_interference no_outage 2 job_world).
Definition second_world : world unit := Eval vm_compute in
  snd (Reconcile fixture_reconciler fixture_clock no_interference no_outage 2 first_world).

Lemma first_world_good : good fixture_clock first_world.
Proof.
  replace first_world with (snd (Reconcile fixture_reconciler fixture_clock no_interference no_outage 2 job_world))
    by (vm_compute; reflexivity).
  destruct (Reconcile_passes fixture_reconciler _ _ no_outage quiet_environment 2 job_world job_world_good) as (w1 & H1 & H2 & _).
  apply H2, H1, job_world_good.
Qed.

(** The API cancels the job between the claim and the [Ensure] call (step 11). *)
Definition cancelling (n : nat) (t : table) : table :=
  if (n =? 11)%nat && clock_okb (fixture_clock 22) t
  then exec_op fixture_store (OpCancel (fixture_clock 22) (fixture_clock 22) "job") t else t.

Lemma cancelling_environment : environment fixture_clock cancelling.
Proof.
  split.
  - intros n m Hle. unfold fixture_clock. lia.
  - intros n t Hh. unfold cancelling. destruct (_ && _) eqn:Eb; [|apply rtc_refl].
    apply andb_true_iff in Eb as [_ Hc]. apply clock_okb_ok in Hc. by apply operation_moves.
  - intros n t Hh Hc. unfold cancelling. destruct (_ && _) eqn:Eb; [|done].
    apply andb_true_iff in Eb as [_ Hc2]. apply clock_okb_ok in Hc2.
    eapply updates_clock; [|exact Hc]. by apply moves_requestStop.
Qed.

Definition cancelled_world : world unit := Eval vm_compute in
  snd (Reconcile fixture_reconciler fixture_clock cancelling no_outage 2 first_world).

(** The one call was made for a run that was stopping by then. *)
Lemma reconcile_entitled_witness :
  map state (w_table cancelled_world) = [StateStopping] /\
  (exists br t, w_calls cancelled_world = [CallEnsure br 11 t] /\ map state t = [StateStopping]) /\
  List.Forall (fun call =>
    match call with
    | CallEnsure br n t => exists t0 r, rtc table_step (w_table first_world) t0 /\
        entitled fixture_reconciler fixture_clock cancelling StatePreparing br n t t0 r
    | CallDelete br n t => exists t0 r, rtc table_step (w_table first_world) t0 /\
        entitled fixture_reconciler fixture_clock cancelling StateStopping br n t t0 r
    | CallInspect _ _ _ => True
    end) (w_calls cancelled_world).
Proof.
  split; [vm_compute; reflexivity|]. split; [do 2 eexists; split; vm_compute; reflexivity|].
  destruct (reconcile_entitled fixture_reconciler fixture_clock cancelling no_outage 2 first_world
    cancelling_environment first_world_good) as (_ & _ & cs & Ecs & Hcs).
  assert (Ew : snd (Reconcile fixture_reconciler fixture_clock cancelling no_outage 2 first_world) = cancelled_world)
    by (vm_compute; reflexivity).
  rewrite Ew in Ecs. rewrite Ecs. change (w_calls first_world) with (@nil backend_call). by rewrite app_nil_r.
Defined.

Lemma cleanup_first_witness :
  exists (w1 : world unit) cs0 cs1,
    w_calls w1 = (cs0 ++ w_calls first_world)%list /\
    w_calls (snd (Reconcile fixture_reconciler fixture_clock no_interference no_outage 2 first_world)) = (cs1 ++ w_calls w1)%list /\
    List.Forall (fun call => exists br n t, call = CallDelete br n t) cs0 /\
    List.Forall (fun call => forall br n t, call <> CallDelete br n t) cs1 /\
    (cs1 = [] \/ replacementCleanupPending fixture_store (called no_interference w1) = (Ok false, called no_interference w1)).
Proof.
  exact (cleanup_first fixture_reconciler fixture_clock no_interference no_outage 2 first_world quiet_environment first_world_good).
Defined.

Lemma recover_only_touches_store_witness :
  w_calls (snd (Recover fixture_reconciler fixture_clock no_interference no_outage 2 first_world)) = [].
Proof.
  exact (proj2 (proj2 (recover_only_touches_store fixture_reconciler fixture_clock no_interference no_outage 2 first_world
    quiet_environment first_world_good))).
Defined.




