(* ===== verification/Eligibility.v ===== *)
(** * Eligibility policies

    protocol/eligibility/policy.go: the default-deny policy by which the
    gateway and the credential portal decide who may log in, evaluated over
    the claims of an identity provider. *)
From stdpp Require Import base list strings.
From Stdlib Require Import ZArith Lia Ascii.
From S2P Require Import Prelude GoStrings GoUrl Validation.


Local Open Scope Z_scope.
Local Open Scope go_scope.
Local Open Scope string_scope.

(** ** Claims

    What encoding/json decodes into an [any].  A number is the text
    [fmt.Sprint] prints of it: the literal of a [json.Number], the shortest
    form of a [float64].  A map lists its members; no key occurs twice. *)
#[warnings="-register-all"]
Inductive claim : Type :=
| CNull
| CBool (b : bool)
| CNumber (text : string)
| CString (s : string)
| CSlice (items : list claim)
| CMap (members : list (string * claim)).

Section ClaimInduction.
Variable P : claim -> Prop.
Hypothesis HNull : P CNull.
Hypothesis HBool : forall b, P (CBool b).
Hypothesis HNumber : forall t, P (CNumber t).
Hypothesis HString : forall s, P (CString s).
Hypothesis HSlice : forall items, List.Forall P items -> P (CSlice items).
Hypothesis HMap : forall members, List.Forall (fun m => P (snd m)) members -> P (CMap members).

(** Induction that reaches the items of slices and the values of maps. *)
Fixpoint claim_nested_ind (v : claim) : P v :=
  match v with
  | CNull => HNull
  | CBool b => HBool b
  | CNumber t => HNumber t
  | CString s => HString s
  | CSlice items =>
      HSlice items ((fix go (l : list claim) : List.Forall P l :=
        match l with [] => @List.Forall_nil _ _ | x :: l' => @List.Forall_cons _ _ _ _ (claim_nested_ind x) (go l') end) items)
  | CMap members =>
      HMap members ((fix go (l : list (string * claim)) : List.Forall (fun m => P (snd m)) l :=
        match l with [] => @List.Forall_nil _ _ | x :: l' => @List.Forall_cons _ _ _ _ (claim_nested_ind (snd x)) (go l') end) members)
  end.
End ClaimInduction.

(** [object[key]] of a map *)
Fixpoint member {A} (key : string) (members : list (string * A)) : option A :=
  match members with
  | [] => None
  | (k, v) :: rest => if k =? key then Some v else member key rest
  end.

(** ** Policies *)

Definition DefaultDeny : string := "deny".
Definition EffectAllow : string := "allow".
Definition maxRules : nat := 64.
Definition maxConditions : nat := 16.
Definition maxValues : nat := 64.
Definition maxRuleValueBytes : Z := 1024.
Definition maxPathSegments : nat := 16.
Definition maxSelectedClaimNodes : nat := 512.

Definition ClaimSourceIDToken : string := "id_token".
Definition ClaimSourceAccessToken : string := "access_token".
Definition ClaimSourceUserInfo : string := "userinfo".

Definition ValidClaimSource (source : string) : bool :=
  (source =? ClaimSourceIDToken) || (source =? ClaimSourceAccessToken) || (source =? ClaimSourceUserInfo).

Record Condition := mkCondition { cd_ClaimPath : string; cd_Values : list string }.

Record Where := mkWhere { wh_Array : string; wh_All : list Condition }.

Record Rule := mkRule {
  ru_ID : string;
  ru_Effect : string;
  ru_Authenticated : bool;
  ru_ClaimPath : string;
  ru_Values : list string;
  ru_Where : Where
}.

Record Policy := mkEligibility { pl_Default : string; pl_Rules : list Rule }.

Record Decision := mkDecision { dc_Allowed : bool; dc_RuleID : string }.

(** ** Paths *)

(** [strings.ReplaceAll(path, old, new)] where [old] is the letter o with a
    stroke, two bytes of UTF-8, and [new] the letter o. *)
Fixpoint replace_o_stroke (s : string) : string :=
  match s with
  | String a ((String b rest) as tail) =>
      if (code a =? 0xC3)%Z && (code b =? 0xB8)%Z then String "o" (replace_o_stroke rest) else String a (replace_o_stroke tail)
  | _ => s
  end.

(** [strings.FieldsFunc] where the separators are ASCII characters. *)
Fixpoint FieldsFunc (separator : ascii -> bool) (s word : string) : list string :=
  match s with
  | EmptyString => if word =? "" then [] else [word]
  | String c s' =>
      if separator c then (if word =? "" then FieldsFunc separator s' "" else word :: FieldsFunc separator s' "")
      else FieldsFunc separator s' (word ++ String c "")
  end.

Definition isSensitivePath (path : string) : bool :=
  let normalized := ToLower (replace_o_stroke path) in
  existsb (fun part => mem part ["pid"; "ssn"; "fodselsnummer"; "foedselsnummer"])
    (FieldsFunc (one_of ".[]-_") normalized "").

Definition policy_containsControl (value : string) : bool := exists_rune IsControl value.

Definition segment_ok (raw : string) : bool :=
  let segment := TrimSuffix raw "[]" in
  negb ((segment =? "") || (128 <? len segment)%Z || Contains segment "[]").

Definition validPolicyPath (path : string) : bool :=
  if (path =? "") || (2048 <? len path)%Z || negb (ValidString path) || policy_containsControl path then false
  else
    let segments := Split path "."%char in
    if (maxPathSegments <? length segments)%nat then false else forallb segment_ok segments.

(** [^[A-Za-z_][A-Za-z0-9_-]*(?:\[\])?(?:\.[A-Za-z_][A-Za-z0-9_-]*(?:\[\])?)*$] *)
Definition claim_segment : regex :=
  RSeq (RSet (fun c => is_upper c || is_lower c || one_of "_" c))
    (RSeq (RStar (RSet (fun c => alnum c || one_of "_-" c))) (ROpt (RText "[]"))).
Definition claimPathPattern : regex := RSeq claim_segment (RStar (RSeq (RChar "."%char) claim_segment)).

Definition validClaimPath (path : string) : bool :=
  re_match claimPathPattern path && (length (Split path "."%char) <=? maxPathSegments)%nat.

(** ** Validation

    The messages name the field; the prefix and the position of the rule are
    left out. *)
Definition validatePredicate (path : string) (values : list string) : result string unit :=
  reject (negb (validPolicyPath path) || (length values =? 0)%nat || (maxValues <? length values)%nat) "predicate" |>>
  reject (isSensitivePath path) "claimPath" |>>
  each (fun value => reject ((maxRuleValueBytes <? len value)%Z || negb (ValidString value)) "values") values.

Definition has_scalar (rule : Rule) : bool := negb (ru_ClaimPath rule =? "") || negb (length (ru_Values rule) =? 0)%nat.
Definition has_where (rule : Rule) : bool :=
  negb (wh_Array (ru_Where rule) =? "") || negb (length (wh_All (ru_Where rule)) =? 0)%nat.

(** How many of the conditions hold. *)
Definition count_true (bs : list bool) : nat := length (List.filter (fun b => b) bs).

Definition validate_rule (rule : Rule) : result string unit :=
  reject ((TrimSpace (ru_ID rule) =? "") || (128 <? len (ru_ID rule))%Z || negb (ValidString (ru_ID rule))
          || policy_containsControl (ru_ID rule)) "id" |>>
  reject (negb (ru_Effect rule =? EffectAllow)) "effect" |>>
  reject (negb (count_true [ru_Authenticated rule; has_scalar rule; has_where rule] =? 1)%nat) "exactly one predicate" |>>
  if ru_Authenticated rule then Ok tt
  else if has_scalar rule then validatePredicate (ru_ClaimPath rule) (ru_Values rule)
  else
    reject (negb (validPolicyPath (wh_Array (ru_Where rule))) || (length (wh_All (ru_Where rule)) =? 0)%nat
            || (maxConditions <? length (wh_All (ru_Where rule)))%nat) "where" |>>
    reject (isSensitivePath (wh_Array (ru_Where rule))) "where.array" |>>
    each (fun condition => validatePredicate (cd_ClaimPath condition) (cd_Values condition)) (wh_All (ru_Where rule)).

(** [Policy.Validate] *)
Definition Policy_Validate (p : Policy) : result string unit :=
  let decision := if pl_Default p =? "" then DefaultDeny else pl_Default p in
  reject (negb (decision =? DefaultDeny)) "default" |>>
  reject (maxRules <? length (pl_Rules p))%nat "rules" |>>
  each validate_rule (pl_Rules p).

(** ** Selection *)

Definition sliceValues (value : claim) : option (list claim) :=
  match value with CSlice items => Some items | _ => None end.

(** The inner loop of [selectValues] for one segment: [next] collects, [None]
    is the refusal. *)
Fixpoint select_segment (array : bool) (segment : string) (current next : list claim) : option (list claim) :=
  match current with
  | [] => Some next
  | value :: rest =>
      match value with
      | CMap object =>
          match member segment object with
          | None => select_segment array segment rest next
          | Some v =>
              if array then
                match sliceValues v with
                | None => None
                | Some items =>
                    if (maxSelectedClaimNodes <? length next + length items)%nat then None
                    else select_segment array segment rest (next ++ items)%list
                end
              else if (length next =? maxSelectedClaimNodes)%nat then None
              else select_segment array segment rest (next ++ [v])%list
          end
      | _ => select_segment array segment rest next
      end
  end.

Fixpoint select_path (segments : list string) (current : list claim) : option (list claim) :=
  match segments with
  | [] => Some current
  | raw :: rest =>
      match select_segment (HasSuffix raw "[]") (TrimSuffix raw "[]") current [] with
      | None => None
      | Some next => select_path rest next
      end
  end.

Definition selectValues (root : claim) (path : string) : option (list claim) := select_path (Split path "."%char) [root].

Definition Select (root : claim) (path : string) : option (list claim) :=
  if path =? "$" then Some [root]
  else if negb (validClaimPath path) then None
  else selectValues root path.

(** ** Evaluation *)

Definition scalarString (value : claim) : option string :=
  match value with
  | CString s => Some s
  | CBool b => Some (if b then "true" else "false")
  | CNumber text => Some text
  | _ => None
  end.

Definition claimPathMatches (root : claim) (path : string) (values : list string) : bool :=
  match selectValues root path with
  | None => false
  | Some selected =>
      existsb (fun value => match scalarString value with Some scalar => mem scalar values | None => false end) selected
  end.

Definition whereMatches (claims : claim) (w : Where) : bool :=
  match selectValues claims (wh_Array w) with
  | None => false
  | Some selected =>
      existsb (fun item =>
        match item with
        | CMap _ => forallb (fun condition => claimPathMatches item (cd_ClaimPath condition) (cd_Values condition)) (wh_All w)
        | _ => false
        end) selected
  end.

Fixpoint evaluate_rules (rules : list Rule) (claims : claim) : Decision :=
  match rules with
  | [] => mkDecision false ""
  | rule :: rest =>
      if negb (ru_Effect rule =? EffectAllow) then evaluate_rules rest claims
      else if ru_Authenticated rule then mkDecision true (ru_ID rule)
      else if negb (ru_ClaimPath rule =? "") && claimPathMatches claims (ru_ClaimPath rule) (ru_Values rule)
      then mkDecision true (ru_ID rule)
      else if negb (wh_Array (ru_Where rule) =? "") && whereMatches claims (ru_Where rule) then mkDecision true (ru_ID rule)
      else evaluate_rules rest claims
  end.

Definition Evaluate (policy : Policy) (claims : claim) : Decision := evaluate_rules (pl_Rules policy) claims.
