(* ===== verification/GatewayAuth.v ===== *)
(** * The gateway's authorization (gateway/internal/gateway/authorization.go)

    Who may open which run: default-deny rules over the claims of the session
    and the owner of the run, and the removal of sensitive claims at login. *)
From stdpp Require Import base list strings.
From Stdlib Require Import ZArith Lia Ascii.
From S2P Require Import Prelude GoStrings GoUrl GoHttp Sha256 Validation Eligibility.


Local Open Scope Z_scope.
Local Open Scope go_scope.
Local Open Scope string_scope.

Record AuthorizationRule := mkAuthorizationRule {
  gr_ID : string;
  gr_Effect : string;
  gr_Authenticated : bool;
  gr_Owner : bool;
  gr_ClaimPath : string;
  gr_Values : list string;
  gr_Where : Where
}.

Record AuthorizationConfig := mkAuthorizationConfig {
  gc_Default : string;
  gc_ClaimSource : string;
  gc_Rules : list AuthorizationRule
}.

Record GatewayPrincipal := mkGatewayPrincipal {
  gp_Issuer : string;
  gp_Subject : string;
  gp_DisplayName : string;
  gp_Claims : list (string * claim)
}.

(** ** Validation *)

(** The word with the stroked letter in it, which is gone by then. *)
Definition o_stroke_word : string := String "f" (String "195" (String "184" "dselsnummer")).

Definition isSensitiveClaimPath (path : string) : bool :=
  let normalized := replace_o_stroke (ToLower path) in
  existsb (fun part => mem part ["pid"; "ssn"; "fodselsnummer"; "foedselsnummer"; o_stroke_word])
    (FieldsFunc (one_of ".[]") normalized "").

Definition gr_has_simple (rule : AuthorizationRule) : bool :=
  negb (gr_ClaimPath rule =? "") || negb (length (gr_Values rule) =? 0)%nat.
Definition gr_has_where (rule : AuthorizationRule) : bool :=
  negb (wh_Array (gr_Where rule) =? "") || negb (length (wh_All (gr_Where rule)) =? 0)%nat.

Definition validateAuthorizationRule (allowOwner : bool) (rule : AuthorizationRule) : result string unit :=
  reject (TrimSpace (gr_ID rule) =? "") "id" |>>
  reject (negb (gr_Effect rule =? EffectAllow)) "effect" |>>
  reject (gr_Owner rule && negb allowOwner) "owner" |>>
  reject (negb (count_true [gr_Authenticated rule; gr_Owner rule; gr_has_simple rule; gr_has_where rule] =? 1)%nat)
    "exactly one predicate" |>>
  if gr_Authenticated rule || gr_Owner rule then Ok tt
  else if gr_has_simple rule then
    reject ((gr_ClaimPath rule =? "") || (length (gr_Values rule) =? 0)%nat) "claimPath and values" |>>
    reject (isSensitiveClaimPath (gr_ClaimPath rule)) "claimPath"
  else
    reject ((wh_Array (gr_Where rule) =? "") || (length (wh_All (gr_Where rule)) =? 0)%nat) "where" |>>
    reject (isSensitiveClaimPath (wh_Array (gr_Where rule))) "where.array" |>>
    each (fun condition =>
      reject ((cd_ClaimPath condition =? "") || (length (cd_Values condition) =? 0)%nat) "where.all" |>>
      reject (isSensitiveClaimPath (cd_ClaimPath condition)) "where.all claimPath") (wh_All (gr_Where rule)).

(** [AuthorizationConfig.validate] *)
Definition AuthorizationConfig_validate (c : AuthorizationConfig) : result string unit :=
  let defaultDecision := if gc_Default c =? "" then DefaultDeny else gc_Default c in
  let claimSource := if gc_ClaimSource c =? "" then ClaimSourceIDToken else gc_ClaimSource c in
  reject (negb (defaultDecision =? DefaultDeny)) "default" |>>
  reject (negb (ValidClaimSource claimSource)) "claimSource" |>>
  each (validateAuthorizationRule true) (gc_Rules c).

(** ** Selection *)

(** The order [fmt] prints the keys of a map in. *)
Fixpoint insert_member (m : string * string) (l : list (string * string)) : list (string * string) :=
  match l with
  | [] => [m]
  | x :: l' => if str_lt (fst m) (fst x) then m :: l else x :: insert_member m l'
  end.
Definition sort_members (l : list (string * string)) : list (string * string) := foldr insert_member [] l.

(** [fmt.Sprint] of a claim *)
Fixpoint Sprint (v : claim) : string :=
  match v with
  | CNull => "<nil>"
  | CBool b => if b then "true" else "false"
  | CNumber text => text
  | CString s => s
  | CSlice items => "[" ++ Join (map Sprint items) " " ++ "]"
  | CMap members =>
      "map[" ++ Join (map (fun '(k, t) => k ++ ":" ++ t) (sort_members (map (fun '(k, x) => (k, Sprint x)) members))) " " ++ "]"
  end.

Definition valueToString (value : claim) : string := Sprint value.

Definition asSlice (value : claim) : list claim := match value with CSlice items => items | _ => [] end.

(** One value under one segment; an empty name keeps the value itself. *)
Definition claim_step (array : bool) (segment : string) (value : claim) : list claim :=
  let under :=
    if segment =? "" then Some value
    else match value with CMap object => member segment object | _ => None end in
  match under with
  | None => []
  | Some v => if array then asSlice v else [v]
  end.

Fixpoint claim_path (segments : list string) (current : list claim) : list claim :=
  match segments with
  | [] => current
  | raw :: rest =>
      if raw =? "" then []
      else claim_path rest (flat_map (claim_step (HasSuffix raw "[]") (TrimSuffix raw "[]")) current)
  end.

Definition selectClaimValues (root : claim) (path : string) : list claim :=
  if path =? "" then [] else claim_path (Split path "."%char) [root].

Definition gateway_claimPathMatches (root : claim) (path : string) (values : list string) : bool :=
  existsb (fun selected => mem (valueToString selected) values) (selectClaimValues root path).

Definition whereArrayMatches (claims : claim) (w : Where) : bool :=
  existsb (fun item =>
    match item with
    | CMap _ => forallb (fun condition => gateway_claimPathMatches item (cd_ClaimPath condition) (cd_Values condition)) (wh_All w)
    | _ => false
    end) (selectClaimValues claims (wh_Array w)).

(** ** Decisions *)

Fixpoint authorize_rules (rules : list AuthorizationRule) (claims : claim) (owned : bool) : Decision :=
  match rules with
  | [] => mkDecision false ""
  | rule :: rest =>
      if negb (gr_Effect rule =? EffectAllow) then authorize_rules rest claims owned
      else if gr_Authenticated rule then mkDecision true (gr_ID rule)
      else if gr_Owner rule && owned then mkDecision true (gr_ID rule)
      else if negb (gr_ClaimPath rule =? "") && gateway_claimPathMatches claims (gr_ClaimPath rule) (gr_Values rule)
      then mkDecision true (gr_ID rule)
      else if negb (wh_Array (gr_Where rule) =? "") && whereArrayMatches claims (gr_Where rule) then mkDecision true (gr_ID rule)
      else authorize_rules rest claims owned
  end.

Definition evaluateAuthorization (policy : AuthorizationConfig) (principal : GatewayPrincipal) (owned : bool) : Decision :=
  authorize_rules (gc_Rules policy) (CMap (gp_Claims principal)) owned.

(** Owner and caller are the same principal, neither of them unnamed. *)
Definition same_principal (principal : GatewayPrincipal) (issuer subject : string) : bool :=
  negb (gp_Issuer principal =? "") && negb (gp_Subject principal =? "") && negb (issuer =? "") && negb (subject =? "")
  && (gp_Issuer principal =? issuer) && (gp_Subject principal =? subject).

Definition EvaluateAuthorizationForOwner (policy : AuthorizationConfig) (principal : GatewayPrincipal)
    (issuer subject : string) : Decision :=
  evaluateAuthorization policy principal (same_principal principal issuer subject).

(** The owner an AgentRun records, if it has a profile with a principal. *)
Definition principalOwnsAgentRun (principal : GatewayPrincipal) (owner : option (string * string)) : bool :=
  match owner with
  | Some (issuer, subject) => same_principal principal issuer subject
  | None => false
  end.

Definition EvaluateAuthorization (policy : AuthorizationConfig) (principal : GatewayPrincipal)
    (owner : option (string * string)) : Decision :=
  evaluateAuthorization policy principal (principalOwnsAgentRun principal owner).

(** [EvaluateAdmission] of admission.go *)
Definition EvaluateAdmission (policy : Policy) (principal : GatewayPrincipal) : Decision :=
  Evaluate policy (CMap (gp_Claims principal)).

(** ** Sensitive claims *)

(** The loop of [stripSensitiveMap], with the function it maps values by. *)
Definition strip_loop (strip : claim -> string -> claim) (prefix : string) : list (string * claim) -> list (string * claim) :=
  fix go (input : list (string * claim)) : list (string * claim) :=
    match input with
    | [] => []
    | (key, value) :: rest =>
        let path := if prefix =? "" then key else prefix ++ "." ++ key in
        if isSensitiveClaimPath path || isSensitiveClaimPath key then go rest
        else (key, strip value path) :: go rest
    end.

Fixpoint stripSensitiveValue (value : claim) (path : string) : claim :=
  match value with
  | CMap members => CMap (strip_loop stripSensitiveValue path members)
  | CSlice items => CSlice (map (fun item => stripSensitiveValue item path) items)
  | _ => value
  end.

Definition stripSensitiveMap (input : list (string * claim)) (prefix : string) : list (string * claim) :=
  strip_loop stripSensitiveValue prefix input.

Definition stripSensitiveClaims (claims : list (string * claim)) : list (string * claim) := stripSensitiveMap claims "".

(** ** The log *)

Definition shortHash (value : string) : string :=
  if value =? "" then "-" else String.substring 0 16 (sha256_hex value).

Definition principalHash (principal : GatewayPrincipal) : string :=
  if (gp_Issuer principal =? "") || (gp_Subject principal =? "") then "-"
  else shortHash (gp_Issuer principal ++ String (Ascii.ascii_of_nat 0) (gp_Subject principal)).

Definition log_rune (r : Z) (chunk : string) : string :=
  if in_range 97 122 r || in_range 65 90 r || in_range 48 57 r || (r =? 45)%Z || (r =? 95)%Z || (r =? 46)%Z then chunk else "_".

Definition sanitizeLogValue (value : string) : string :=
  if value =? "" then "-"
  else
    let mapped := foldr (fun '(r, chunk) acc => log_rune r chunk ++ acc) "" (runes value) in
    if (80 <? len mapped)%Z then String.substring 0 80 mapped else mapped.
