(* ===== verification/GatewayRouting.v ===== *)
(** * The gateway's routing

    gateway/internal/gateway/routing.go, the host and local routes of
    server.go and local_runs.go, and the cookies of proxy_security.go: from
    the URL and host of a request to the run it names, and what of the request
    reaches that run. *)
From stdpp Require Import base list strings gmap.
From Stdlib Require Import ZArith Lia Ascii.
From S2P Require Import Prelude GoStrings GoUrl GoJson GoHttp Validation LocalRun LocalRoutes.


Local Open Scope Z_scope.
Local Open Scope string_scope.

(** ** Routes *)

Inductive routeKind : Type := routeDashboard | routeAgentRun | routeLocalSession | routeLocalExposure | routeNotFound.

#[export] Instance routeKind_eq_dec : EqDecision routeKind.
Proof. solve_decision. Defined.

Record gateway_route := mkGatewayRoute {
  gt_kind : routeKind;
  gt_accessKey : string;
  gt_exposure : string;
  gt_localPath : bool
}.

Definition not_found : gateway_route := mkGatewayRoute routeNotFound "" "" false.
Definition dashboard : gateway_route := mkGatewayRoute routeDashboard "" "" false.

Definition maxAccessKeyBytes : Z := 253.

(** ** Paths *)

(** [url.PathUnescape] *)
Definition PathUnescape : string -> option string := unescape encodePath.

(** [url.PathEscape] *)
Definition segment_escapes (c : ascii) : bool := one_of "/;,?" c || shouldEscape c encodePath.
Fixpoint PathEscape (s : string) : string :=
  match s with
  | EmptyString => ""
  | String c rest =>
      if segment_escapes c
      then String "%" (String (upper_hex (code c / 16)) (String (upper_hex (code c mod 16)) (PathEscape rest)))
      else String c (PathEscape rest)
  end.

Definition unambiguousPath (requestURL : URL) : option string :=
  if negb (RawPath requestURL =? "") && negb (bool_decide (PathUnescape (RawPath requestURL) = Some (Path requestURL))) then None
  else
    let escapedPath := EscapedPath requestURL in
    let lowerEscapedPath := ToLower escapedPath in
    if Contains lowerEscapedPath "%2f" || Contains lowerEscapedPath "%5c" then None
    else match PathUnescape escapedPath with
    | None => None
    | Some path =>
        if negb (path =? Path requestURL) || negb (opt_test (Ascii.eqb "/"%char) (first_byte path)) || has_byte path backslash
        then None else Some path
    end.

Definition pathBelowBase (requestURL : URL) (basePath : string) : option (string * string) :=
  match unambiguousPath requestURL with
  | None => None
  | Some path =>
      let escapedPath := EscapedPath requestURL in
      if basePath =? "" then Some (path, escapedPath)
      else
        let prefix := basePath ++ "/" in
        if negb (HasPrefix path prefix) || negb (HasPrefix escapedPath prefix) then None
        else Some ("/" ++ TrimPrefix path prefix, "/" ++ TrimPrefix escapedPath prefix)
  end.

Definition validAccessKey (key : string) : bool :=
  if (key =? "") || (maxAccessKeyBytes <? len key)%Z || negb (ValidString key) || (key =? ".") || (key =? "..") then false
  else all_runes (fun r => negb ((r =? 47)%Z || (r =? 92)%Z || (r =? 37)%Z || (r <? 0x21)%Z || (r =? 0x7f)%Z)) key.

Definition reservedGatewayPath (key : string) : bool :=
  let lowered := ToLower key in (lowered =? "healthz") || (lowered =? "oauth2").

(** The loop over the segments of a path: dot segments anywhere and empty
    segments other than a trailing one are refused. *)
Fixpoint segments_ok (first : bool) (segments : list string) : bool :=
  match segments with
  | [] => true
  | segment :: rest =>
      negb ((segment =? ".") || (segment =? "..")) && negb (negb first && (segment =? "") && negb (length rest =? 0)%nat)
      && segments_ok false rest
  end.

Definition ParsePathAtBase (requestURL : URL) (basePath : string) : gateway_route :=
  match pathBelowBase requestURL basePath with
  | None => not_found
  | Some (path, escapedPath) =>
      if path =? "/" then dashboard
      else
        let segments := Split (TrimPrefix path "/") "/"%char in
        if (length segments <? 2)%nat then not_found
        else if negb (segments_ok true segments) then not_found
        else
          let key := nth 0 segments "" in
          if negb (validAccessKey key) || reservedGatewayPath key then not_found
          else
            let keyPrefix := "/" ++ key in
            if negb (escapedPath =? "") && negb (escapedPath =? keyPrefix) && negb (HasPrefix escapedPath (keyPrefix ++ "/"))
            then not_found
            else mkGatewayRoute routeAgentRun key "" false
  end.

(** [stripPathRoutePrefix]: the path and raw path it leaves. *)
Definition stripPathRoutePrefix (path rawPath basePath accessKey : string) : string * string :=
  let prefix := basePath ++ "/" ++ accessKey in
  let trim (p : string) := let t := TrimPrefix p prefix in if t =? "" then "/" else t in
  (trim path, if rawPath =? "" then "" else trim rawPath).

(** ** The public URL *)

Definition canonicalBasePathCharacter (character : Z) : bool :=
  in_range 97 122 character || in_range 65 90 character || in_range 48 57 character || existsb (Z.eqb character) [46; 95; 126; 45].

Definition base_segment_ok (segment : string) : bool :=
  negb ((segment =? "") || (segment =? ".") || (segment =? "..")) && all_runes canonicalBasePathCharacter segment.

(** [publicURLParts]: the parsed URL with the base path as its path. *)
Definition publicURLParts (raw : string) : option (URL * string) :=
  match url_Parse raw with
  | None => None
  | Some parsed =>
      if (Scheme parsed =? "") || (Host parsed =? "") || bool_decide (is_Some (User parsed)) || negb (Opaque parsed =? "")
         || negb (RawQuery parsed =? "") || ForceQuery parsed || negb (Fragment parsed =? "") then None
      else if has_byte raw backslash || has_byte (Path parsed) backslash || has_byte (EscapedPath parsed) "%"%char then None
      else
        let basePath := if Path parsed =? "/" then "" else Path parsed in
        let canonical :=
          (basePath =? "") || HasPrefix basePath "/" && negb (HasSuffix basePath "/") && negb (Contains basePath "//")
            && forallb base_segment_ok (Split (TrimPrefix basePath "/") "/"%char) in
        if negb canonical then None
        else Some (mkURL (Scheme parsed) (Opaque parsed) (User parsed) (Host parsed) basePath "" (OmitHost parsed)
                     (ForceQuery parsed) (RawQuery parsed) (Fragment parsed) (RawFragment parsed), basePath)
  end.

Definition requestMatchesPublicOrigin (host publicURL : string) : bool :=
  match url_Parse publicURL with None => false | Some publicOrigin => EqualFold host (Host publicOrigin) end.

Definition publicForwardedPort (publicOrigin : URL) : string :=
  if negb (Port publicOrigin =? "") then Port publicOrigin
  else if Scheme publicOrigin =? "https" then "443" else "80".

Definition callback_segment_ok (segment : string) : bool := negb ((segment =? "") || (segment =? ".") || (segment =? "..")).

Definition validOAuthCallbackPath (raw : string) : bool :=
  if has_byte raw "%"%char then false
  else match url_Parse raw with
  | None => false
  | Some callbackURL =>
      if negb (Scheme callbackURL =? "") || negb (Host callbackURL =? "") || negb (RawQuery callbackURL =? "")
         || negb (Fragment callbackURL =? "") then false
      else match unambiguousPath callbackURL with
      | None => false
      | Some path =>
          match Split (TrimPrefix path "/") "/"%char with
          | first :: ((_ :: _) as rest) => (first =? "oauth2") && forallb callback_segment_ok rest
          | _ => false
          end
      end
  end.

(** ** Hosts *)

Definition stripPort (host : string) : string :=
  match SplitHostPort host with Some (parsedHost, _) => parsedHost | None => host end.

Definition normalized_host (host : string) : string := ToLower (TrimSuffix (stripPort host) ".").

Definition ParseHost (host baseDomain : string) : gateway_route :=
  let host := normalized_host host in
  let baseDomain := ToLower (TrimSuffix baseDomain ".") in
  if host =? baseDomain then dashboard
  else
    let suffix := "." ++ baseDomain in
    if HasSuffix host suffix then
      let key := TrimSuffix host suffix in
      if negb (key =? "") && negb (Contains key ".") then mkGatewayRoute routeAgentRun key "" false else not_found
    else not_found.

(** ** Local runs *)

Record LocalRunsConfig := mkLocalRunsConfig {
  lc_Enabled : bool;
  lc_ControllerURL : string;
  lc_TokenFile : string;
  lc_BaseDomain : string;
  lc_PathPrefix : string;
  lc_Timeout : Z;
  lc_DisableKubernetes : bool
}.

Definition millisecond : Z := 1000000.

Definition applyDefaults (config : LocalRunsConfig) : LocalRunsConfig :=
  mkLocalRunsConfig (lc_Enabled config) (lc_ControllerURL config) (lc_TokenFile config)
    (if lc_BaseDomain config =? "" then "agent.localhost" else lc_BaseDomain config)
    (if lc_PathPrefix config =? "" then "/agents" else lc_PathPrefix config)
    (if (lc_Timeout config =? 0)%Z then 2000 * millisecond else lc_Timeout config)
    (lc_DisableKubernetes config).

Definition localAlphaNumeric (c : ascii) : bool := in_range 97 122 (code c) || in_range 48 57 (code c).

Definition validLocalLabel (value : string) : bool :=
  match value with
  | EmptyString => false
  | String c rest =>
      if (63 <? len value)%Z || negb (localAlphaNumeric c) then false
      else if all_bytes (fun x => (code x =? 45)%Z || localAlphaNumeric x) rest
      then negb (opt_test (Ascii.eqb "-"%char) (last_byte value)) else false
  end.

Definition validLocalBaseDomain (value : string) : bool :=
  if (len value =? 0)%Z || (190 <? len value)%Z || negb (value =? ToLower value) || HasSuffix value "." then false
  else forallb validLocalLabel (Split value "."%char).

Definition validLocalPathPrefix (value : string) : bool :=
  if (len value <? 2)%Z || (256 <? len value)%Z || negb (opt_test (Ascii.eqb "/"%char) (first_byte value)) || HasSuffix value "/"
     || Contains value "//" || ContainsAny value path_forbidden then false
  else forallb validLocalLabel (Split (TrimPrefix value "/") "/"%char).

Definition canonicalLocalOrigin (raw : string) : option URL :=
  match url_Parse raw with
  | None => None
  | Some parsed =>
      if negb ((Scheme parsed =? "http") || (Scheme parsed =? "https")) || (Host parsed =? "") || bool_decide (is_Some (User parsed))
         || negb (Opaque parsed =? "") || negb (Path parsed =? "") && negb (Path parsed =? "/") || negb (RawQuery parsed =? "")
         || negb (Fragment parsed =? "") then None
      else Some (mkURL (Scheme parsed) (Opaque parsed) (User parsed) (Host parsed) "" (RawPath parsed) (OmitHost parsed)
                   (ForceQuery parsed) (RawQuery parsed) (Fragment parsed) (RawFragment parsed))
  end.

(** [LocalRunsConfig.validate] *)
Definition LocalRunsConfig_validate (given : LocalRunsConfig) : bool :=
  if negb (lc_Enabled given) then negb (lc_DisableKubernetes given)
  else
    let config := applyDefaults given in
    negb (negb (bool_decide (is_Some (canonicalLocalOrigin (lc_ControllerURL config))))
          || negb (validLocalBaseDomain (lc_BaseDomain config)) || negb (validLocalPathPrefix (lc_PathPrefix config))
          || (lc_TokenFile config =? "") || negb (IsAbs (lc_TokenFile config))
          || negb (Clean (lc_TokenFile config) =? lc_TokenFile config) || ContainsAny (lc_TokenFile config) nul_cr_lf
          || (lc_Timeout config <? 100 * millisecond)%Z || (10000 * millisecond <? lc_Timeout config)%Z).

Definition local_host_route (labels : list string) : gateway_route :=
  match labels with
  | [run] => if validLocalLabel run then mkGatewayRoute routeLocalSession run "" false else not_found
  | [exposure; run] =>
      if validLocalLabel exposure && validLocalLabel run then mkGatewayRoute routeLocalExposure run exposure false else not_found
  | _ => not_found
  end.

Definition ParseLocalRoute (requestURL : URL) (host : string) (given : LocalRunsConfig) : gateway_route :=
  if negb (lc_Enabled given) then not_found
  else
    let config := applyDefaults given in
    let normalizedHost := normalized_host host in
    if normalizedHost =? lc_BaseDomain config then not_found
    else
      let suffix := "." ++ lc_BaseDomain config in
      if HasSuffix normalizedHost suffix then local_host_route (Split (TrimSuffix normalizedHost suffix) "."%char)
      else match pathBelowBase requestURL (lc_PathPrefix config) with
      | None => not_found
      | Some (path, _) =>
          if path =? "/" then dashboard
          else match Split (Trim path "/") "/"%char with
          | run :: _ => if validLocalLabel run then mkGatewayRoute routeLocalSession run "" true else not_found
          | [] => not_found
          end
      end.

Definition localRunMatchesConfig (run : RouteRun) (given : LocalRunsConfig) : bool :=
  let config := applyDefaults given in
  if negb (is_nil (ValidateRun run)) || negb (ep_Host (rtr_Session run) =? rtr_RunID run ++ "." ++ lc_BaseDomain config)
     || negb (ep_Path (rtr_Session run) =? lc_PathPrefix config ++ "/" ++ rtr_RunID run ++ "/") then false
  else forallb (fun exposure => ex_Host exposure =? ex_Name exposure ++ "." ++ rtr_RunID run ++ "." ++ lc_BaseDomain config)
         (rtr_Exposures run).

(** ** Cookies *)

Definition defaultSessionCookie : string := "nvt_agent_gateway".
Definition loginStateCookie : string := "nvt_agent_gateway_login".

Definition gatewayCookieNames (sessionCookieName : string) : list string :=
  [if sessionCookieName =? "" then defaultSessionCookie else sessionCookieName; loginStateCookie].

Definition cookie_forbidden : string := "()<>@,;:\/[]?={}" ++ String dquote "".

Definition validCookieName (name : string) : bool :=
  negb (name =? "") && all_runes (fun r => negb ((r <=? 0x20)%Z || (0x7f <=? r)%Z || has_byte cookie_forbidden (byte r))) name.

(** The fields of the Cookie headers that are passed on. *)
Definition keep_field (owned : list string) (raw : string) : option string :=
  let field := TrimSpace raw in
  let '(name, _, ok) := Cut field "="%char in
  let name := TrimSpace name in
  if negb ok || negb (validCookieName name) then None
  else if mem name owned then None
  else Some field.

Definition kept_fields (rawValues : list string) (owned : list string) : list string :=
  flat_map (fun raw => omap (keep_field owned) (Split raw ";"%char)) rawValues.

(** [filterUpstreamRequestCookies]: the Cookie header it sets, if any. *)
Definition filterUpstreamRequestCookies (rawValues : list string) (owned : list string) : option string :=
  match kept_fields rawValues owned with
  | [] => None
  | kept => Some (Join kept "; ")
  end.

Definition pathCookiePrefix (basePath accessKey : string) : string := basePath ++ "/" ++ PathEscape accessKey ++ "/".
