(* ===== verification/GatewaySessions.v ===== *)
(** * The gateway's sessions

    gateway/internal/gateway/auth.go and oauth2_auth.go: login through an
    identity provider, the session store, logout and the redirect targets.
    The identity provider, the cookie codec (securecookie) and claim enrichment
    are arguments; a handler takes its clock readings and the session
    identifier it draws, and returns the response and the store it leaves.
    Encoding the small values of its own cookies is taken to succeed, and the
    maximum age of a session to be less than 292 years. *)
From stdpp Require Import base list strings gmap.
From Stdlib Require Import ZArith Lia Ascii.
From S2P Require Import Prelude GoStrings GoUrl GoJson GoHttp Validation LocalRun LocalRoutes Eligibility GatewayAuth GatewayRouting.


Local Open Scope Z_scope.
Local Open Scope string_scope.

(** ** Configuration *)

Definition authModeOIDC : string := "oidc".
Definition authModeOAuth2 : string := "oauth2".
Definition routingModeSubdomain : string := "subdomain".
Definition routingModePath : string := "path".
Definition defaultSessionMaxAge : Z := 24 * 60 * 60.

(** The parts of [Config] that sessions depend on. *)
Record GatewayConfig := mkGatewayConfig {
  cg_BaseDomain : string;
  cg_PublicURL : string;
  cg_RoutingMode : string;
  cg_AuthMode : string;
  cg_CookieName : string;
  cg_MaxAgeSeconds : Z;
  cg_OIDCCallbackPath : string;
  cg_ValidIssuer : string;
  cg_OAuth2CallbackPath : string;
  cg_OAuth2Issuer : string;
  cg_SubjectPath : string;
  cg_DisplayNamePath : string;
  cg_Admission : option Policy;
  cg_Authorization : AuthorizationConfig;
  cg_LocalRuns : LocalRunsConfig
}.

Definition routingMode (c : GatewayConfig) : string :=
  if cg_RoutingMode c =? "" then routingModeSubdomain else cg_RoutingMode c.

Definition path_mode (c : GatewayConfig) : bool := routingMode c =? routingModePath.

Definition basePath (c : GatewayConfig) : string :=
  if negb (path_mode c) then ""
  else match publicURLParts (cg_PublicURL c) with Some (_, base) => base | None => "" end.

Definition publicOrigin (c : GatewayConfig) : string :=
  match publicURLParts (cg_PublicURL c) with
  | None => ""
  | Some (p, _) =>
      URL_String (mkURL (Scheme p) (Opaque p) (User p) (Host p) "" (RawPath p) (OmitHost p) (ForceQuery p) (RawQuery p)
        (Fragment p) (RawFragment p))
  end.

(** [Authenticator.mountedPath] *)
Definition mountedPath (c : GatewayConfig) (relative : string) : string :=
  if negb (path_mode c) then relative else basePath c ++ relative.

Definition callbackPath (c : GatewayConfig) : string :=
  if cg_AuthMode c =? authModeOAuth2 then cg_OAuth2CallbackPath c else cg_OIDCCallbackPath c.

(** ** Requests and responses *)

(** [gq_Browser] is [isBrowserRead] of the method and headers. *)
Record GatewayRequest := mkGatewayRequest {
  gq_Method : string;
  gq_URL : URL;
  gq_Host : string;
  gq_TLS : bool;
  gq_Cookies : list (string * string);
  gq_ForwardedProto : string;
  gq_ForwardedHost : string;
  gq_Browser : bool
}.

Record sessionCookie := mkSessionCookie { sk_ID : string; sk_ExpiresAt : Z }.

Record storedSession := mkStoredSession { se_Principal : GatewayPrincipal; se_ExpiresAt : Z }.

Record loginStateCookieValue := mkLoginState {
  li_State : string;
  li_Nonce : string;
  li_CodeVerifier : string;
  li_ReturnURL : string;
  li_ExpiresAt : Z
}.

Abbreviation session_store := (gmap string storedSession).

(** A response: its status, the location of a redirect, the session cookie it
    sets and the names of the cookies it clears. *)
Record GatewayResponse := mkGatewayResponse {
  gw_Status : Z;
  gw_Location : string;
  gw_Session : option sessionCookie;
  gw_Cleared : list string
}.

Definition http_error (status : Z) : GatewayResponse := mkGatewayResponse status "" None [].
Definition http_error_cleared (status : Z) : GatewayResponse := mkGatewayResponse status "" None [loginStateCookie].

(** [r.Cookie(name)] *)
Definition request_cookie (r : GatewayRequest) (name : string) : option string := member name (gq_Cookies r).

(** [r.URL.Query().Get(key)]: pairs that do not decode are left out. *)
Definition query_pair (setting : string) : option (string * string) :=
  if (setting =? "") || has_byte setting ";"%char then None
  else
    let '(key, value, _) := Cut setting "="%char in
    match QueryUnescape key, QueryUnescape value with Some k, Some v => Some (k, v) | _, _ => None end.
Definition url_Query_Get (u : URL) (key : string) : string := query_Get (omap query_pair (Split (RawQuery u) "&"%char)) key.

(** [URL.RequestURI] *)
Definition RequestURI (u : URL) : string :=
  let result :=
    if Opaque u =? "" then (if EscapedPath u =? "" then "/" else EscapedPath u)
    else if HasPrefix (Opaque u) "//" then Scheme u ++ ":" ++ Opaque u else Opaque u in
  if ForceQuery u || negb (RawQuery u =? "") then result ++ "?" ++ RawQuery u else result.

(** ** What is not part of the gateway *)

(** securecookie; [None] is an error. *)
Record CookieCodec := mkCookieCodec {
  DecodeSession : string -> string -> option sessionCookie;
  DecodeLogin : string -> string -> option loginStateCookieValue
}.

Record oauth_token := mkToken { tk_AccessToken : string; tk_IDToken : string }.

(** A verified ID token; [None] are claims that do not parse. *)
Record oidc_token := mkIDToken { it_Issuer : string; it_Subject : string; it_Claims : option (list (string * claim)) }.

Record IdentityProvider := mkProvider {
  (** The code exchange. *)
  Exchange : string -> string -> option oauth_token;
  (** The verifiers of ID tokens and of access tokens. *)
  VerifyID : string -> option oidc_token;
  VerifyAccess : string -> option oidc_token;
  (** The claims of the userinfo endpoint. *)
  UserInfo : oauth_token -> option (list (string * claim));
  (** Status and body of the identity endpoint. *)
  IdentityEndpoint : string -> option (Z * string);
  (** [eligibility.Enrich] with the configured sources. *)
  EnrichClaims : string -> list (string * claim) -> option (list (string * claim))
}.

(** ** The store *)

Definition storeSession (now : Z) (id : string) (session : storedSession) (sessions : session_store) : session_store :=
  <[id := session]> (filter (fun kv => now < se_ExpiresAt (snd kv)) sessions).

Definition lookupSession (now : Z) (cookie : sessionCookie) (sessions : session_store) : option storedSession :=
  if sk_ID cookie =? "" then None
  else match sessions !! sk_ID cookie with
  | None => None
  | Some session =>
      if negb (se_ExpiresAt session =? sk_ExpiresAt cookie)%Z || (se_ExpiresAt session <=? now)%Z then None else Some session
  end.

Definition deleteSession (id : string) (sessions : session_store) : session_store :=
  if id =? "" then sessions else delete id sessions.

(** ** Redirect targets *)

Definition forwardedHeaderValue (raw : string) : string := let '(value, _, _) := Cut raw ","%char in TrimSpace value.

Definition trim_slashes (s : string) : string := trim_right (one_of "/") s.

Definition requestBaseURL (c : GatewayConfig) (r : GatewayRequest) : string :=
  if path_mode c then trim_slashes (cg_PublicURL c)
  else
    let forwardedProto := forwardedHeaderValue (gq_ForwardedProto r) in
    let scheme := if (forwardedProto =? "https") || (forwardedProto =? "http") then forwardedProto
                  else if gq_TLS r then "https" else "http" in
    let forwardedHost := forwardedHeaderValue (gq_ForwardedHost r) in
    scheme ++ "://" ++ (if forwardedHost =? "" then gq_Host r else forwardedHost).

Definition safeReturnURL (c : GatewayConfig) (r : GatewayRequest) : string :=
  if path_mode c then publicOrigin c ++ RequestURI (gq_URL r) else requestBaseURL c r ++ RequestURI (gq_URL r).

Definition publicBaseURL (c : GatewayConfig) (r : GatewayRequest) : string :=
  if negb (cg_PublicURL c =? "") then trim_slashes (cg_PublicURL c) else requestBaseURL c r.

(** The redirect URL of [oauthConfigForRequest]. *)
Definition oauth_redirect_url (c : GatewayConfig) (r : GatewayRequest) : string := publicBaseURL c r ++ callbackPath c.

Definition same_origin (parsed : URL) (publicURL : string) : bool :=
  match url_Parse publicURL with
  | None => false
  | Some origin => EqualFold (Scheme parsed) (Scheme origin) && EqualFold (Host parsed) (Host origin)
  end.

Definition validateReturnURL (c : GatewayConfig) (raw : string) : option string :=
  if raw =? "" then Some (mountedPath c "/")
  else match url_Parse raw with
  | None => None
  | Some parsed =>
      if path_mode c then
        if negb (Fragment parsed =? "") || bool_decide (is_Some (User parsed)) then None
        else
          let local :=
            if negb (Scheme parsed =? "") then same_origin parsed (cg_PublicURL c)
            else negb (negb (Host parsed =? "") || negb (HasPrefix raw "/") || HasPrefix raw "//") in
          if negb local then None
          else match gt_kind (ParsePathAtBase parsed (basePath c)) with
          | routeDashboard | routeAgentRun => Some (URL_String parsed)
          | _ => None
          end
      else if negb (Scheme parsed =? "") then
        let host := normalized_host (Host parsed) in
        let baseDomain := ToLower (TrimSuffix (cg_BaseDomain c) ".") in
        if negb (host =? baseDomain) && negb (HasSuffix host ("." ++ baseDomain)) then None else Some (URL_String parsed)
      else if HasPrefix raw "/" && negb (HasPrefix raw "//") then Some raw
      else None
  end.

Definition requestReturnURL (c : GatewayConfig) (r : GatewayRequest) : string :=
  match validateReturnURL c (safeReturnURL c r) with Some url => url | None => mountedPath c "/" end.

Definition signInURL (c : GatewayConfig) (returnURL : string) : string :=
  let query := "?return_url=" ++ escape encodeQueryComponent returnURL in
  let trusted := trim_slashes (cg_PublicURL c) in
  if negb (trusted =? "") then trusted ++ "/oauth2/login" ++ query else mountedPath c "/oauth2/login" ++ query.

(** ** Sessions *)

Section Sessions.
Variable codec : CookieCodec.
Variable config : GatewayConfig.
Variable provider : IdentityProvider.

Definition readSession (r : GatewayRequest) : option sessionCookie :=
  request_cookie r (cg_CookieName config) ≫= DecodeSession codec (cg_CookieName config).

Definition readLoginState (r : GatewayRequest) : option loginStateCookieValue :=
  request_cookie r loginStateCookie ≫= DecodeLogin codec loginStateCookie.

Inductive auth_result : Type :=
| Authenticated (principal : GatewayPrincipal)
| SignInPage (signIn : string) (cleared : bool)
| AuthenticationRequired (cleared : bool).

Definition refuse (r : GatewayRequest) (cleared : bool) : auth_result :=
  if gq_Browser r then SignInPage (signInURL config (requestReturnURL config r)) cleared else AuthenticationRequired cleared.

(** [Authenticator.Authenticate] *)
Definition Authenticate (t1 t2 : Z) (r : GatewayRequest) (sessions : session_store) : auth_result :=
  match readSession r with
  | None => refuse r false
  | Some session =>
      if (t1 <? sk_ExpiresAt session)%Z then
        match lookupSession t2 session sessions with
        | Some stored => Authenticated (se_Principal stored)
        | None => refuse r true
        end
      else refuse r true
  end.

Definition handleLogout (r : GatewayRequest) (sessions : session_store) : GatewayResponse * session_store :=
  if negb (gq_Method r =? "POST") then (http_error 405, sessions)
  else
    (mkGatewayResponse 303 (mountedPath config "/oauth2/logged-out") None [cg_CookieName config; loginStateCookie],
     match readSession r with Some session => deleteSession (sk_ID session) sessions | None => sessions end).

Definition handleLoggedOut (r : GatewayRequest) : GatewayResponse :=
  if negb (gq_Method r =? "GET") && negb (gq_Method r =? "HEAD") then http_error 405
  else mkGatewayResponse 200 (signInURL config (mountedPath config "/")) None [].

(** [handleLogin]: the login state it puts into its cookie; the redirect goes
    to the provider. *)
Definition handleLogin (now : Z) (state nonce verifier : string) (r : GatewayRequest) : option loginStateCookieValue :=
  match validateReturnURL config (url_Query_Get (gq_URL r) "return_url") with
  | None => None
  | Some returnURL => Some (mkLoginState state nonce verifier returnURL (now + 10 * 60))
  end.

(** [finishLogin] *)
Definition finishLogin (t1 t2 : Z) (sessionID : string) (loginState : loginStateCookieValue) (given : GatewayPrincipal)
    (sessions : session_store) : GatewayResponse * session_store :=
  if (TrimSpace (gp_Issuer given) =? "") || (TrimSpace (gp_Subject given) =? "") then (http_error 401, sessions)
  else
    let principal := mkGatewayPrincipal (gp_Issuer given) (gp_Subject given) (gp_DisplayName given)
                       (stripSensitiveClaims (gp_Claims given)) in
    let admitted :=
      match cg_Admission config with
      | None => true
      | Some policy => dc_Allowed (EvaluateAdmission policy principal)
      end in
    if negb admitted then (http_error_cleared 401, sessions)
    else
      let expiresAt := t1 + cg_MaxAgeSeconds config in
      (mkGatewayResponse 302 (li_ReturnURL loginState) (Some (mkSessionCookie sessionID expiresAt)) [loginStateCookie],
       storeSession t2 sessionID (mkStoredSession principal expiresAt) sessions).

Definition finishOAuthLogin (t1 t2 : Z) (sessionID : string) (loginState : loginStateCookieValue) (token : oauth_token)
    (principal : GatewayPrincipal) (sessions : session_store) : GatewayResponse * session_store :=
  match EnrichClaims provider (tk_AccessToken token) (gp_Claims principal) with
  | None => (http_error_cleared 401, sessions)
  | Some claims =>
      finishLogin t1 t2 sessionID loginState
        (mkGatewayPrincipal (gp_Issuer principal) (gp_Subject principal) (gp_DisplayName principal) claims) sessions
  end.

(** [strings.Count(s, dot)] *)
Definition count_dots (s : string) : nat := (length (Split s "."%char) - 1)%nat.

Definition issuer_accepted (issuer : string) : bool := (cg_ValidIssuer config =? "") || (issuer =? cg_ValidIssuer config).

Definition authorizationClaims (token : oauth_token) (idClaims : list (string * claim)) : option (list (string * claim)) :=
  let source := gc_ClaimSource (cg_Authorization config) in
  let claimSource := if source =? "" then ClaimSourceIDToken else source in
  if claimSource =? ClaimSourceIDToken then Some idClaims
  else if claimSource =? ClaimSourceAccessToken then
    let raw := tk_AccessToken token in
    if (raw =? "") || negb (count_dots raw =? 2)%nat then None
    else match VerifyAccess provider raw with
    | None => None
    | Some access => if negb (issuer_accepted (it_Issuer access)) then None else it_Claims access
    end
  else if claimSource =? ClaimSourceUserInfo then UserInfo provider token
  else None.

(** [value, _ := claims[key].(string)] *)
Definition string_claim (claims : list (string * claim)) (key : string) : string :=
  match member key claims with Some (CString s) => s | _ => "" end.

Definition handleOIDCCallback (t1 t2 : Z) (sessionID : string) (r : GatewayRequest) (loginState : loginStateCookieValue)
    (sessions : session_store) : GatewayResponse * session_store :=
  match Exchange provider (url_Query_Get (gq_URL r) "code") (li_CodeVerifier loginState) with
  | None => (http_error 502, sessions)
  | Some token =>
      if tk_IDToken token =? "" then (http_error 502, sessions)
      else match VerifyID provider (tk_IDToken token) with
      | None => (http_error 401, sessions)
      | Some idToken =>
          if negb (issuer_accepted (it_Issuer idToken)) then (http_error 401, sessions)
          else match it_Claims idToken with
          | None => (http_error 401, sessions)
          | Some idClaims =>
              if negb (string_claim idClaims "nonce" =? li_Nonce loginState) then (http_error 401, sessions)
              else match authorizationClaims token idClaims with
              | None => (http_error 401, sessions)
              | Some claims =>
                  let issuer := if cg_ValidIssuer config =? "" then it_Issuer idToken else cg_ValidIssuer config in
                  let name := string_claim idClaims "name" in
                  let displayName := if name =? "" then string_claim idClaims "preferred_username" else name in
                  finishOAuthLogin t1 t2 sessionID loginState token
                    (mkGatewayPrincipal issuer (it_Subject idToken) displayName claims) sessions
              end
          end
      end
  end.

(** ** OAuth2 identities *)

Definition maxOAuth2IdentityResponseBytes : Z := 64 * 1024.
Definition maxOAuth2SubjectBytes : Z := 1024.
Definition maxOAuth2DisplayNameBytes : Z := 1024.

Definition validOAuth2IdentityString (value : string) (limit : Z) : bool :=
  if (value =? "") || (limit <? len value)%Z || negb (ValidString value) || negb (trimmed value) then false
  else all_runes (fun r => negb ((r <? 0x20)%Z || (r =? 0x7f)%Z)) value.

(** [big.Int] of a JSON number: an optional sign and decimal digits, printed
    without leading zeros. *)
Definition integer_text (text : string) : option string :=
  let '(sign, digits) := match text with String "-" d => ("-", d) | _ => ("", text) end in
  if (digits =? "") || negb (all_bytes is_digit digits) then None
  else
    let significant := trim_left (one_of "0") digits in
    Some (if significant =? "" then "0" else sign ++ significant).

Definition canonicalOAuth2Subject (value : claim) : option string :=
  let subject := match value with CString s => Some s | CNumber text => integer_text text | _ => None end in
  match subject with
  | Some s => if validOAuth2IdentityString s maxOAuth2SubjectBytes then Some s else None
  | None => None
  end.

Definition oauth2DisplayName (value : claim) : option string :=
  match value with
  | CString s => if validOAuth2IdentityString s maxOAuth2DisplayNameBytes then Some s else None
  | _ => None
  end.

(** Of the members of one name the last counts. *)
Fixpoint last_members {A} (l : list (string * A)) : list (string * A) :=
  match l with
  | [] => []
  | (k, v) :: rest => if mem k (map fst rest) then last_members rest else (k, v) :: last_members rest
  end.

(** A decoded document as claims. *)
Fixpoint claim_of_json (v : json) : claim :=
  match v with
  | JNull => CNull
  | JBool b => CBool b
  | JNumber text => CNumber text
  | JString s => CString s
  | JArray l => CSlice (map claim_of_json l)
  | JObject members => CMap (last_members (map (fun '(k, x) => (k, claim_of_json x)) members))
  end.

Definition fetchOAuth2Identity (accessToken : string) : option GatewayPrincipal :=
  match IdentityEndpoint provider accessToken with
  | None => None
  | Some (status, body) =>
      if (status <? 200)%Z || (300 <=? status)%Z || (maxOAuth2IdentityResponseBytes <? len body)%Z then None
      else match json_document body with
      | Some ((JObject _) as parsed) =>
          let document := claim_of_json parsed in
          match selectClaimValues document (cg_SubjectPath config) with
          | [value] =>
              match canonicalOAuth2Subject value with
              | None => None
              | Some subject =>
                  if Contains subject accessToken then None
                  else
                    let names := if cg_DisplayNamePath config =? "" then []
                                 else selectClaimValues document (cg_DisplayNamePath config) in
                    let displayName :=
                      match names with
                      | [] => Some ""
                      | [v] => match oauth2DisplayName v with
                               | Some s => if Contains s accessToken then None else Some s
                               | None => None
                               end
                      | _ => None
                      end in
                    match displayName with
                    | None => None
                    | Some name =>
                        Some (mkGatewayPrincipal (cg_OAuth2Issuer config) subject name
                          (("oauth2_subject", CString subject)
                           :: if name =? "" then [] else [("oauth2_display_name", CString name)]))
                    end
              end
          | _ => None
          end
      | _ => None
      end
  end.

Definition handleOAuth2Callback (t1 t2 : Z) (sessionID : string) (r : GatewayRequest) (loginState : loginStateCookieValue)
    (sessions : session_store) : GatewayResponse * session_store :=
  match Exchange provider (url_Query_Get (gq_URL r) "code") (li_CodeVerifier loginState) with
  | None => (http_error_cleared 502, sessions)
  | Some token =>
      if tk_AccessToken token =? "" then (http_error_cleared 502, sessions)
      else match fetchOAuth2Identity (tk_AccessToken token) with
      | None => (http_error_cleared 401, sessions)
      | Some principal => finishOAuthLogin t1 t2 sessionID loginState token principal sessions
      end
  end.

(** [handleCallback]; [t0] is the reading its first check uses. *)
Definition handleCallback (t0 t1 t2 : Z) (sessionID : string) (r : GatewayRequest) (sessions : session_store)
  : GatewayResponse * session_store :=
  match readLoginState r with
  | None => (http_error 400, sessions)
  | Some loginState =>
      if (li_ExpiresAt loginState <=? t0)%Z then (http_error 400, sessions)
      else if negb (url_Query_Get (gq_URL r) "state" =? li_State loginState) then (http_error 400, sessions)
      else if cg_AuthMode config =? authModeOAuth2 then handleOAuth2Callback t1 t2 sessionID r loginState sessions
      else handleOIDCCallback t1 t2 sessionID r loginState sessions
  end.
End Sessions.

(** * Local runs at the gateway (local_runs.go)

    The client that reads the controller's routes, page by page, and the
    decision to proxy a request to a local run.  The HTTP exchange with the
    controller is an argument that may change the world it talks to; the
    struct mapping of encoding/json is the argument of the protocol's
    decoder. *)

Definition localRouteRequestLimit : Z := RouteMaxDocumentBytes.

(** ** The token *)

Definition readLocalRouteToken (fs : FileSystem) (path : string) : option string :=
  match Lstat fs path with
  | None => None
  | Some info =>
      if negb (fi_regular info) || negb (Z.land (fi_perm info) 63 =? 0)%Z || (fi_size info <? 32)%Z || (4096 <? fi_size info)%Z
      then None
      else match ReadFile fs path with
      | None => None
      | Some data =>
          if (4096 <? len data)%Z then None
          else
            let token := TrimSpace data in
            if (len token <? 32)%Z || (4096 <? len token)%Z || negb (ValidString token)
               || exists_rune (fun r => (r <=? 0x20)%Z || (r =? 0x7f)%Z) token
            then None else Some token
      end
  end.

(** ** The client *)

Section Source.
Context {W : Type}.
(** A GET of a path with a query: status and body, and the world after it. *)
Variable fetch : string -> string -> W -> option (Z * string) * W.
Variable unmarshal_run : string -> option RouteRun.
Variable unmarshal_list : string -> option RouteList.

(** [httpLocalRunSource.get] *)
Definition source_get (path query : string) (w : W) : option (string * Z) * W :=
  match fetch path query w with
  | (Some (status, data), w') => ((if (localRouteRequestLimit <? len data)%Z then None else Some (data, status)), w')
  | (None, w') => (None, w')
  end.

(** [Get] *)
Definition source_Get (runID : string) (w : W) : option RouteRun * W :=
  if negb (validLocalLabel runID) then (None, w)
  else match source_get ("/v1/routes/" ++ PathEscape runID) "" w with
  | (Some (data, 200), w') => (DecodeRun unmarshal_run data, w')
  | (_, w') => (None, w')
  end.

Definition page_params (after : string) : string :=
  if after =? "" then "limit=8" else "limit=8&after=" ++ escape encodeQueryComponent after.

Definition list_runs (l : RouteList) : list RouteRun := match rl_Runs l with Some runs => runs | None => [] end.

Definition last_run_id (runs : list RouteRun) : option string := rtr_RunID <$> last runs.

(** The checks of one page against the cursor and the runs before it. *)
Definition page_accepted (result : list RouteRun) (after : string) (decoded : RouteList) : bool :=
  let runs := list_runs decoded in
  let next := rl_NextAfter decoded in
  negb ((MaxRuns <? Z.of_nat (length result + length runs))%Z || negb (next =? "") && negb (str_lt after next))
  && forallb (fun run =>
       negb (negb (after =? "") && negb (str_lt after (rtr_RunID run))
             || match last_run_id result with Some id => negb (str_lt id (rtr_RunID run)) | None => false end)) runs
  && negb (negb (next =? "") && match last_run_id runs with Some id => str_lt next id | None => false end).

(** The loop of [List] with the pages it has left. *)
Fixpoint list_loop (pages : nat) (result : list RouteRun) (after : string) (w : W) : option (list RouteRun) * W :=
  match pages with
  | O => (None, w)
  | S pages =>
      match source_get "/v1/routes" (page_params after) w with
      | (Some (data, 200), w') =>
          match DecodeList unmarshal_list data with
          | None => (None, w')
          | Some decoded =>
              if negb (page_accepted result after decoded) then (None, w')
              else
                let result := (result ++ list_runs decoded)%list in
                if rl_NextAfter decoded =? "" then (Some result, w') else list_loop pages result (rl_NextAfter decoded) w'
          end
      | (_, w') => (None, w')
      end
  end.

(** [List] *)
Definition source_List (w : W) : option (list RouteRun) * W := list_loop 64 [] "" w.

(** ** Serving a run *)

Inductive local_answer : Type :=
| LocalRefused (result : auth_result)
| LocalNotFound
| LocalUnavailable
| LocalProxy (publicHost upstreamHost : string) (upstreamPort : Z).

Definition exposure_target (exposures : list Exposure) (name : string) : string * string * Z :=
  match List.find (fun e => ex_Name e =? name) exposures with
  | Some e => (ex_Host e, ex_UpstreamHost e, ex_UpstreamPort e)
  | None => ("", "", 0)
  end.

Definition authorized (config : GatewayConfig) (principal : option GatewayPrincipal) (run : RouteRun) : bool :=
  match principal with
  | None => true
  | Some p => dc_Allowed (EvaluateAuthorizationForOwner (cg_Authorization config) p (rtp_Issuer (rtr_Principal run))
                            (rtp_Subject (rtr_Principal run)))
  end.

(** The rest of [serveAuthorizedLocalRun] once the caller is known. *)
Definition serve_for (config : GatewayConfig) (principal : option GatewayPrincipal) (parsed : gateway_route) (w : W)
  : local_answer * W :=
  match source_Get (gt_accessKey parsed) w with
  | (None, w') => (LocalNotFound, w')
  | (Some localRun, w') =>
      (if negb (localRunMatchesConfig localRun (cg_LocalRuns config)) then LocalNotFound
       else if negb (authorized config principal localRun) then LocalNotFound
       else if negb (rtr_Ready localRun) then LocalUnavailable
       else
         let '(publicHost, upstreamHost, upstreamPort) :=
           if bool_decide (gt_kind parsed = routeLocalExposure) then exposure_target (rtr_Exposures localRun) (gt_exposure parsed)
           else (ep_Host (rtr_Session localRun), ep_UpstreamHost (rtr_Session localRun), ep_UpstreamPort (rtr_Session localRun)) in
         if bool_decide (gt_kind parsed = routeLocalExposure) && (upstreamHost =? "") then LocalNotFound
         else LocalProxy publicHost upstreamHost upstreamPort, w')
  end.

(** [serveAuthorizedLocalRun]; [codec] is [None] when authentication is off. *)
Definition serveAuthorizedLocalRun (codec : option CookieCodec) (config : GatewayConfig) (t1 t2 : Z) (sessions : session_store)
    (r : GatewayRequest) (parsed : gateway_route) (w : W) : local_answer * W :=
  match codec with
  | None => serve_for config None parsed w
  | Some codec =>
      match Authenticate codec config t1 t2 r sessions with
      | Authenticated principal => serve_for config (Some principal) parsed w
      | refused => (LocalRefused refused, w)
      end
  end.
End Source.
