(* ===== verification/GatewayProps.v ===== *)
(** * Paths into claims

    What [selectValues] and [selectClaimValues] select, as a relation, and the
    facts on sensitive paths the guarantees of the gateway rest on. *)
From stdpp Require Import base list strings gmap.
From Stdlib Require Import ZArith Lia Ascii.
From S2P Require Import Prelude GoStrings GoUrl GoJson GoJsonPrint GoHttp Sha256 Validation LocalRun LocalRoutes Eligibility GatewayAuth GatewayRouting GatewaySessions.


Local Open Scope Z_scope.
Local Open Scope string_scope.

(** ** Text with ASCII separators *)

Lemma lead_high b n lo hi : lead b = Some (n, lo, hi) -> 0x80 <= lo.
Proof. unfold lead. repeat (destruct (_ : bool); [intros [= <- <- <-]; lia|]). done. Qed.

Lemma in_range_low lo hi c : 0x80 <= lo -> (code c <? 0x80)%Z = true -> in_range lo hi (code c) = false.
Proof. intros H Hc. unfold in_range. apply andb_false_iff. left. lia. Qed.

(** An ASCII byte ends the sequence before it. *)
Lemma runes_app_ascii a c b :
  (code c <? 0x80)%Z = true -> runes (a +:+ String c b) = (runes a ++ runes (String c b))%list.
Proof.
  intros Hc. remember (String.length a) as n eqn:Hn. revert a Hn.
  induction n as [n IH] using lt_wf_ind. intros [|x a] ->; [done|]. rewrite str_cons_app.
  assert (IHa : forall a', (String.length a' < String.length (String x a))%nat ->
    runes (a' +:+ String c b) = (runes a' ++ runes (String c b))%list) by (intros a' Ha; by eapply IH).
  change (runes (String x (a +:+ String c b)) = (runes (String x a) ++ runes (String c b))%list).
  cbn [runes]. destruct (code x <? 0x80)%Z; [cbn [app]; f_equal; apply IHa; cbn; lia|].
  assert (Hbad : (RuneError, chunk1 x) :: runes (a +:+ String c b) = (((RuneError, chunk1 x) :: runes a) ++ runes (String c b))%list)
    by (cbn [app]; f_equal; apply IHa; cbn; lia).
  destruct (lead (code x)) as [[[k lo] hi]|] eqn:El; [|exact Hbad]. apply lead_high in El.
  assert (Hlow : in_range lo hi (code c) = false) by (by apply in_range_low).
  assert (Hcont : cont c = false) by (by apply in_range_low).
  destruct k as [|[|[|[|[|k]]]]]; try exact Hbad.
  - destruct a as [|y a]; [rewrite str_nil_app in *; by rewrite Hlow|]. rewrite str_cons_app in *.
    destruct (in_range lo hi (code y)); [|exact Hbad]. cbn [app]. f_equal. apply IHa. cbn. lia.
  - destruct a as [|y [|z a]]; rewrite ?str_cons_app, ?str_nil_app in *.
    + destruct b; [exact Hbad|]. by rewrite Hlow.
    + by rewrite Hcont, andb_false_r.
    + destruct (_ && _); [|exact Hbad]. cbn [app]. f_equal. apply IHa. cbn. lia.
  - destruct a as [|y [|z [|w a]]]; rewrite ?str_cons_app, ?str_nil_app in *.
    + destruct b as [|? [|? ?]]; [exact Hbad..|]. by rewrite Hlow.
    + destruct b; [exact Hbad|]. by rewrite Hcont, andb_false_r.
    + by rewrite Hcont, andb_false_r.
    + destruct (_ && _); [|exact Hbad]. cbn [app]. f_equal. apply IHa. cbn. lia.
Qed.

(** Concatenation of what the runes are mapped to. *)
Lemma foldr_map_app f (l r : list (Z * string)) :
  foldr (fun '(x, _) acc => f x +:+ acc) "" (l ++ r)%list
  = foldr (fun '(x, _) acc => f x +:+ acc) "" l +:+ foldr (fun '(x, _) acc => f x +:+ acc) "" r.
Proof. induction l as [|[x y] l IH]; [done|]. cbn. rewrite IH. by rewrite str_app_assoc. Qed.

Definition separator_byte (c : ascii) : bool := one_of ".[]-_" c.

Lemma separator_ascii c : separator_byte c = true ->
  (code c <? 0x80)%Z = true /\ EncodeRune (rune_ToLower (code c)) = String c "" /\
  (code c =? 0xC3)%Z = false /\ (code c =? 0xB8)%Z = false.
Proof. destruct c as [[] [] [] [] [] [] [] []]; vm_compute; repeat split; congruence. Qed.

Lemma ToLower_app a c b : separator_byte c = true -> ToLower (a +:+ String c b) = ToLower a +:+ String c (ToLower b).
Proof.
  intros Hc. destruct (separator_ascii c Hc) as (Ha & He & _). unfold ToLower. rewrite runes_app_ascii by done.
  rewrite (foldr_map_app (fun r => EncodeRune (rune_ToLower r))). f_equal. cbn [runes]. rewrite Ha. cbn [foldr].
  rewrite He. by rewrite str_cons_app, str_nil_app.
Qed.

Lemma replace_cons2 x y r : replace_o_stroke (String x (String y r))
  = if (code x =? 0xC3)%Z && (code y =? 0xB8)%Z then String "o" (replace_o_stroke r) else String x (replace_o_stroke (String y r)).
Proof. reflexivity. Qed.

Lemma replace_app a c b : separator_byte c = true ->
  replace_o_stroke (a +:+ String c b) = replace_o_stroke a +:+ String c (replace_o_stroke b).
Proof.
  intros Hc. destruct (separator_ascii c Hc) as (_ & _ & H1 & H2).
  assert (Hb : replace_o_stroke (String c b) = String c (replace_o_stroke b)) by (cbn; destruct b; [done|]; by rewrite H1).
  remember (String.length a) as n eqn:Hn. revert a Hn. induction n as [n IH] using lt_wf_ind. intros a ->.
  destruct a as [|x [|y a]]; [done| |].
  - rewrite !str_cons_app, !str_nil_app.
    rewrite replace_cons2, H2, andb_false_r, Hb. cbn [replace_o_stroke]. by rewrite str_cons_app, str_nil_app.
  - rewrite !str_cons_app, !replace_cons2. destruct (_ && _); rewrite str_cons_app; f_equal.
    + apply (IH (String.length a)); [cbn; lia|done].
    + rewrite <- str_cons_app. apply (IH (String.length (String y a))); [cbn; lia|done].
Qed.

Lemma FieldsFunc_app p a c b w : p c = true ->
  FieldsFunc p (a +:+ String c b) w = (FieldsFunc p a w ++ FieldsFunc p b "")%list.
Proof.
  intros Hc. revert w. induction a as [|x a IH]; intros w.
  - rewrite str_nil_app. cbn. rewrite Hc. by destruct (w =? "").
  - rewrite str_cons_app. cbn. destruct (p x); [|apply IH]. destruct (w =? ""); [apply IH|]. cbn. f_equal. apply IH.
Qed.

Lemma sensitive_app a c b : one_of ".[]" c = true ->
  isSensitiveClaimPath (a +:+ String c b) = isSensitiveClaimPath a || isSensitiveClaimPath b.
Proof.
  intros Hc. assert (Hs : separator_byte c = true).
  { revert Hc. unfold separator_byte, one_of. cbn. intros Hc. by destruct (c =? ".")%char, (c =? "[")%char, (c =? "]")%char. }
  unfold isSensitiveClaimPath. rewrite ToLower_app, replace_app by done. by rewrite FieldsFunc_app, existsb_app.
Qed.

Lemma sensitive_nil : isSensitiveClaimPath "" = false.
Proof. reflexivity. Qed.

Lemma sensitive_brackets p : isSensitiveClaimPath (p +:+ "[]") = isSensitiveClaimPath p.
Proof. rewrite (sensitive_app p "["%char "]"); [|done]. by rewrite orb_false_r. Qed.

#[local] Opaque isSensitiveClaimPath.
#[local] Hint Resolve sensitive_nil : core.

Lemma sensitive_suffix raw : isSensitiveClaimPath (TrimSuffix raw "[]") = isSensitiveClaimPath raw.
Proof.
  destruct (HasSuffix raw "[]") eqn:E; [|by rewrite TrimSuffix_none].
  apply HasSuffix_iff in E as [p ->]. by rewrite TrimSuffix_app, sensitive_brackets.
Qed.

Lemma sensitive_split path : isSensitiveClaimPath path = existsb isSensitiveClaimPath (Split path "."%char).
Proof.
  rewrite <- (Join_Split "."%char path) at 1. pose proof (Split_nonempty "."%char path) as Hne.
  destruct (Split path "."%char) as [|w ws]; [done|]. clear Hne. revert w. induction ws as [|w' ws IH]; intros w.
  - cbn. by rewrite orb_false_r.
  - rewrite Join_cons, sensitive_app, IH by done. done.
Qed.

(** ** Paths *)

(** [at_path segments v w]: the path leads from [v] to [w].  A segment names a
    member, or with [[]] behind it an item of a member that is an array; [[]]
    alone is an item of the array itself. *)
Inductive at_path : list string -> claim -> claim -> Prop :=
| at_here v : at_path [] v v
| at_member name rest object v w :
    name <> "" -> HasSuffix name "[]" = false -> member name object = Some v -> at_path rest v w ->
    at_path (name :: rest) (CMap object) w
| at_item name rest object items v w :
    name <> "" -> member name object = Some (CSlice items) -> In v items -> at_path rest v w ->
    at_path ((name +:+ "[]") :: rest) (CMap object) w
| at_element rest items v w : In v items -> at_path rest v w -> at_path ("[]" :: rest) (CSlice items) w.

#[export] Hint Constructors at_path : core.

(** One step of the gateway's selection, as the relation has it. *)
Lemma claim_step_iff raw rest v w : raw <> "" ->
  (exists u, In u (claim_step (HasSuffix raw "[]") (TrimSuffix raw "[]") v) /\ at_path rest u w) <-> at_path (raw :: rest) v w.
Proof.
  intros Hraw. destruct (HasSuffix raw "[]") eqn:E.
  - apply HasSuffix_iff in E as [name ->]. rewrite TrimSuffix_app. unfold claim_step. split.
    + intros (u & Hu & Ha). destruct (name =? "") eqn:En.
      * apply String.eqb_eq in En as ->. destruct v as [| | | |items|]; cbn in Hu; try done. by eapply at_element.
      * apply String.eqb_neq in En. destruct v as [| | | | |object]; try done.
        destruct (member name object) as [[| | | |items|]|] eqn:Em; try done. by eapply at_item.
    + intros H. inversion H as [|? ? ? ? ? ? Hs|name' ? object items ? ? Hn Hm Hi Ha Eq|? items ? ? Hi Ha Eq]; subst.
      * by rewrite (proj2 (HasSuffix_iff _ _)) in Hs by eauto.
      * assert (name' = name) as -> by (rewrite <- (TrimSuffix_app name' "[]"), <- (TrimSuffix_app name "[]"); congruence).
        rewrite (proj2 (String.eqb_neq _ _) Hn), Hm. eauto.
      * assert (name = "") as -> by (destruct name as [|c name]; [done|]; apply (f_equal String.length) in Eq;
          rewrite str_length_app in Eq; cbn in Eq; lia).
        cbn. eauto.
  - rewrite TrimSuffix_none by done. unfold claim_step. rewrite (proj2 (String.eqb_neq _ _) Hraw). split.
    + intros (u & Hu & Ha). destruct v as [| | | | |object]; try done.
      destruct (member raw object) as [x|] eqn:Em; [|done]. destruct Hu as [->|[]]. by eapply at_member.
    + intros H. inversion H as [|? ? ? u ? _ _ Hm Ha|name' ? ? ? ? ? _ _ _ _ Eq|]; subst.
      * rewrite Hm. exists u. split; [by left|done].
      * by rewrite (proj2 (HasSuffix_iff _ _)) in E by eauto.
      * done.
Qed.

Lemma claim_path_iff segments current w :
  In w (claim_path segments current) <-> exists v, In v current /\ at_path segments v w.
Proof.
  revert current. induction segments as [|raw rest IH]; intros current.
  - cbn. split; [intros H; by exists w; eauto|]. intros (v & Hv & Ha). by inversion Ha; subst.
  - cbn. destruct (raw =? "") eqn:E.
    + apply String.eqb_eq in E as ->. split; [done|]. intros (v & _ & Ha). inversion Ha as [| |name ? ? ? ? ? Hn _ _ _ Eq|]; subst; [done|].
      by destruct name.
    + apply String.eqb_neq in E. rewrite IH. split.
      * intros (u & Hu & Ha). apply in_flat_map in Hu as (v & Hv & Hu). exists v. split; [done|]. apply claim_step_iff; eauto.
      * intros (v & Hv & Ha). apply claim_step_iff in Ha as (u & Hu & Ha); [|done]. exists u. split; [|done]. apply in_flat_map. eauto.
Qed.

(** Where the policy's bounded selection succeeds it is the gateway's. *)
Lemma select_segment_eq array segment current next l :
  segment <> "" -> select_segment array segment current next = Some l ->
  l = (next ++ flat_map (claim_step array segment) current)%list.
Proof.
  intros Hs. revert next. induction current as [|v rest IH]; intros next; cbn [select_segment flat_map];
    [intros [= <-]; by rewrite app_nil_r|].
  unfold claim_step at 1. rewrite (proj2 (String.eqb_neq _ _) Hs).
  destruct v as [| | | | |object]; try (intros H; by apply IH in H).
  destruct (member segment object) as [v|]; [|intros H; by apply IH in H].
  destruct array.
  - destruct v as [| | | |items|]; try done. cbn [sliceValues asSlice]. destruct (_ <? _)%nat; [done|]. intros H. apply IH in H as ->. by rewrite <- app_assoc.
  - destruct (_ =? _)%nat; [done|]. intros H. apply IH in H as ->. by rewrite <- app_assoc.
Qed.

Lemma selectValues_eq root path l :
  validPolicyPath path = true -> selectValues root path = Some l -> l = selectClaimValues root path.
Proof.
  unfold validPolicyPath, selectValues, selectClaimValues. destruct (path =? ""); [done|]. cbn [orb].
  destruct (_ || _ || _); [done|]. destruct (_ <? _)%nat; [done|]. generalize [root] as current.
  induction (Split path "."%char) as [|raw rest IH]; intros current; cbn [forallb select_path claim_path]; [by intros _ [= <-]|].
  rewrite andb_true_iff. intros [Hok Hrest]. unfold segment_ok in Hok.
  destruct (TrimSuffix raw "[]" =? "") eqn:En; [done|]. apply String.eqb_neq in En.
  assert (Hraw : raw <> "") by (intros ->; done). rewrite (proj2 (String.eqb_neq _ _) Hraw).
  destruct (select_segment _ _ _ _) as [next|] eqn:Es; [|done]. apply select_segment_eq in Es as ->; [|done]. by apply IH.
Qed.

(** ** Stripped claims *)

(** Stripping from the root. *)
Definition strip0 (v : claim) : claim := stripSensitiveValue v "".

Definition strip_members (l : list (string * claim)) : list (string * claim) :=
  omap (fun '(k, v) => if isSensitiveClaimPath k then None else Some (k, strip0 v)) l.

Lemma strip_members_cons k v l :
  strip_members ((k, v) :: l) = if isSensitiveClaimPath k then strip_members l else (k, strip0 v) :: strip_members l.
Proof. unfold strip_members. cbn [omap list_omap]. by destruct (isSensitiveClaimPath k). Qed.

Lemma strip_loop_cons f p k v rest : strip_loop f p ((k, v) :: rest)
  = let path := if p =? "" then k else p +:+ "." +:+ k in
    if isSensitiveClaimPath path || isSensitiveClaimPath k then strip_loop f p rest else (k, f v path) :: strip_loop f p rest.
Proof. reflexivity. Qed.

(** Whether a key is stripped does not depend on where it is found. *)
Lemma sensitive_key p k : isSensitiveClaimPath p = false ->
  isSensitiveClaimPath (if p =? "" then k else p +:+ "." +:+ k) = isSensitiveClaimPath k.
Proof. intros Hp. destruct (p =? ""); [done|]. rewrite str_cons_app, str_nil_app. by rewrite sensitive_app, Hp. Qed.

Lemma strip_loop_members f p l : isSensitiveClaimPath p = false ->
  List.Forall (fun m => forall q, isSensitiveClaimPath q = false -> f (snd m) q = strip0 (snd m)) l ->
  strip_loop f p l = strip_members l.
Proof.
  intros Hp. induction l as [|[k v] l IH]; [done|]. intros H. apply List.Forall_cons_iff in H as [Hv H].
  rewrite strip_loop_cons. cbv zeta. rewrite sensitive_key, strip_members_cons by done.
  destruct (isSensitiveClaimPath k) eqn:E; cbn [orb]; [by apply IH|]. f_equal; [|by apply IH]. f_equal. apply Hv.
  by rewrite sensitive_key.
Qed.

(** The path a value was found under does not matter, as long as it is not
    sensitive itself. *)
Lemma strip_path v p : isSensitiveClaimPath p = false -> stripSensitiveValue v p = strip0 v.
Proof.
  revert p. induction v as [| | | |items IH|members IH] using claim_nested_ind; intros p Hp; try done.
  - unfold strip0. cbn [stripSensitiveValue]. f_equal. apply map_ext_in. intros x Hx. rewrite List.Forall_forall in IH.
    rewrite (IH x Hx p), (IH x Hx ""); auto.
  - unfold strip0. cbn [stripSensitiveValue]. f_equal. by rewrite !strip_loop_members.
Qed.

Lemma strip_map l : strip0 (CMap l) = CMap (strip_members l).
Proof.
  unfold strip0 at 1. cbn [stripSensitiveValue]. f_equal. apply strip_loop_members; [done|].
  apply List.Forall_forall. intros m _ q. apply strip_path.
Qed.

Lemma strip_slice l : strip0 (CSlice l) = CSlice (map strip0 l).
Proof. reflexivity. Qed.

Lemma strip_claims l : CMap (stripSensitiveClaims l) = strip0 (CMap l).
Proof. reflexivity. Qed.

Lemma strip_scalar v : scalarString (strip0 v) = scalarString v.
Proof. by destruct v. Qed.

Lemma member_strip k l :
  member k (strip_members l) = if isSensitiveClaimPath k then None else strip0 <$> member k l.
Proof.
  induction l as [|[x v] l IH]; [by destruct (isSensitiveClaimPath k)|].
  rewrite strip_members_cons. destruct (isSensitiveClaimPath x) eqn:E; cbn [member].
  - rewrite IH. destruct (isSensitiveClaimPath k) eqn:Ek; [done|]. destruct (x =? k) eqn:Exk; [|done].
    apply String.eqb_eq in Exk as ->. congruence.
  - destruct (x =? k) eqn:Exk; [|exact IH]. apply String.eqb_eq in Exk as ->. by rewrite E.
Qed.

(** Selection under a path that is not sensitive sees the same values, each
    stripped; under a sensitive path it sees nothing. *)
Lemma claim_step_strip array segment v :
  claim_step array segment (strip0 v) = if isSensitiveClaimPath segment then [] else map strip0 (claim_step array segment v).
Proof.
  unfold claim_step. destruct (segment =? "") eqn:E.
  - apply String.eqb_eq in E as ->. rewrite sensitive_nil. destruct array; [|done].
    by destruct v.
  - destruct v as [| | | | |l]; try (by destruct (isSensitiveClaimPath segment)). rewrite strip_map, member_strip.
    destruct (isSensitiveClaimPath segment); [done|]. destruct (member segment l) as [x|]; [|done]. cbn [fmap option_fmap option_map].
    destruct array; [|done]. by destruct x.
Qed.

Lemma flat_map_strip array segment current : isSensitiveClaimPath segment = false ->
  flat_map (claim_step array segment) (map strip0 current) = map strip0 (flat_map (claim_step array segment) current).
Proof.
  intros Hs. induction current as [|v l IH]; [done|]. cbn. by rewrite claim_step_strip, Hs, IH, map_app.
Qed.

Lemma claim_path_strip segments current :
  claim_path segments (map strip0 current)
  = if existsb isSensitiveClaimPath segments then [] else map strip0 (claim_path segments current).
Proof.
  revert current. induction segments as [|raw rest IH]; intros current; [done|]. cbn [claim_path existsb].
  destruct (raw =? ""); [by destruct (_ || _)|]. rewrite <- (sensitive_suffix raw).
  destruct (isSensitiveClaimPath (TrimSuffix raw "[]")) eqn:E; cbn [orb]; [|by rewrite flat_map_strip, IH].
  assert (Hn : flat_map (claim_step (HasSuffix raw "[]") (TrimSuffix raw "[]")) (map strip0 current) = []).
  { clear IH. induction current as [|v l IH]; [done|]. cbn. by rewrite claim_step_strip, E, IH. }
  rewrite Hn. clear. induction rest as [|raw' rest IH]; [done|]. cbn. by destruct (raw' =? "").
Qed.

Lemma select_segment_strip array segment current next : isSensitiveClaimPath segment = false ->
  select_segment array segment (map strip0 current) (map strip0 next) = map strip0 <$> select_segment array segment current next.
Proof.
  intros Hs. revert next. induction current as [|v rest IH]; intros next; [done|]. cbn [map select_segment].
  destruct v as [| | | | |l]; try apply IH. rewrite strip_map, member_strip, Hs.
  destruct (member segment l) as [x|]; [|apply IH]. cbn [fmap option_fmap option_map]. destruct array.
  - destruct x as [| | | |items|m]; rewrite ?strip_map; try done. rewrite strip_slice. cbn [sliceValues]. rewrite !length_map.
    destruct (_ <? _)%nat; [done|]. rewrite <- map_app. apply IH.
  - rewrite length_map. destruct (_ =? _)%nat; [done|]. change [strip0 x] with (map strip0 [x]). rewrite <- map_app. apply IH.
Qed.

Lemma selectValues_strip root path : isSensitiveClaimPath path = false ->
  selectValues (strip0 root) path = map strip0 <$> selectValues root path.
Proof.
  rewrite sensitive_split. unfold selectValues. change [strip0 root] with (map strip0 [root]). generalize [root] as current.
  induction (Split path "."%char) as [|raw rest IH]; intros current; [done|]. cbn [existsb select_path].
  rewrite orb_false_iff, <- (sensitive_suffix raw). intros [Hr Hrest]. change (@nil claim) with (map strip0 []) at 1.
  rewrite select_segment_strip by done. destruct (select_segment _ _ current _) as [next|]; [|done]. by apply IH.
Qed.

(** * Lemmas on the gateway

    Decisions as a relation on claims, admitted sessions, redirect targets and
    forwarded cookies. *)

Local Open Scope Z_scope.
Local Open Scope string_scope.

(** ** Decisions *)

(** A value whose text is listed lies at the path. *)
Definition holds_at (root : claim) (path : string) (values : list string) : Prop :=
  exists w, at_path (Split path "."%char) root w /\ In (Sprint w) values.

(** An object at the array's path meets every condition. *)
Definition holds_where (root : claim) (w : Where) : Prop :=
  exists members, at_path (Split (wh_Array w) "."%char) root (CMap members) /\
    forall condition, In condition (wh_All w) -> holds_at (CMap members) (cd_ClaimPath condition) (cd_Values condition).

(** What a rule of the gateway grants. *)
Definition grants (claims : claim) (owned : bool) (rule : AuthorizationRule) : Prop :=
  gr_Effect rule = EffectAllow /\
  (gr_Authenticated rule = true \/ (gr_Owner rule = true /\ owned = true) \/
   (gr_ClaimPath rule <> "" /\ holds_at claims (gr_ClaimPath rule) (gr_Values rule)) \/
   (wh_Array (gr_Where rule) <> "" /\ holds_where claims (gr_Where rule))).

Lemma mem_iff s l : mem s l = true <-> In s l.
Proof.
  unfold mem. rewrite existsb_exists. split; [intros (x & Hx & E); by apply String.eqb_eq in E as ->|].
  intros H. exists s. by rewrite String.eqb_refl.
Qed.

Lemma Split_empty_path v w : at_path (Split "" "."%char) v w -> False.
Proof. intros H. inversion H as [|? ? ? ? ? Hn|? ? ? ? ? ? Hn _ _ _ Eq|]; subst; [done|]. by destruct name. Qed.

Lemma gateway_matches_iff root path values : gateway_claimPathMatches root path values = true <-> holds_at root path values.
Proof.
  unfold gateway_claimPathMatches, holds_at, selectClaimValues, valueToString. rewrite existsb_exists. destruct (path =? "") eqn:E.
  - apply String.eqb_eq in E as ->. split; [by intros (? & [] & _)|]. intros (w & H & _). by apply Split_empty_path in H.
  - split.
    + intros (w & Hw & Hm). apply claim_path_iff in Hw as (v & [<-|[]] & Ha). exists w. split; [done|]. by apply mem_iff.
    + intros (w & Ha & Hm). exists w. rewrite mem_iff, claim_path_iff. split; [|done]. exists root. split; [by left|done].
Qed.

Lemma where_matches_iff root w : whereArrayMatches root w = true <-> holds_where root w.
Proof.
  unfold whereArrayMatches, holds_where, selectClaimValues. rewrite existsb_exists. destruct (wh_Array w =? "") eqn:E.
  - apply String.eqb_eq in E as ->. split; [by intros (? & [] & _)|]. intros (m & H & _). by apply Split_empty_path in H.
  - split.
    + intros (x & Hx & Hm). apply claim_path_iff in Hx as (v & [<-|[]] & Ha). destruct x as [| | | | |members]; try done.
      exists members. split; [done|]. intros c Hc. rewrite forallb_forall in Hm. by apply gateway_matches_iff, Hm.
    + intros (members & Ha & Hall). exists (CMap members). rewrite claim_path_iff. split; [exists root; split; [by left|done]|].
      apply forallb_forall. intros c Hc. by apply gateway_matches_iff, Hall.
Qed.

Lemma negb_eqb_iff s : negb (s =? "") = true <-> s <> "".
Proof. rewrite negb_true_iff. apply String.eqb_neq. Qed.

(** [grants] as the code tests it. *)
Definition grantsb (claims : claim) (owned : bool) (rule : AuthorizationRule) : bool :=
  (gr_Effect rule =? EffectAllow) &&
  (gr_Authenticated rule || gr_Owner rule && owned
   || negb (gr_ClaimPath rule =? "") && gateway_claimPathMatches claims (gr_ClaimPath rule) (gr_Values rule)
   || negb (wh_Array (gr_Where rule) =? "") && whereArrayMatches claims (gr_Where rule)).

Lemma grantsb_iff claims owned rule : grantsb claims owned rule = true <-> grants claims owned rule.
Proof.
  unfold grantsb, grants. rewrite andb_true_iff, !orb_true_iff, !andb_true_iff, !negb_eqb_iff, gateway_matches_iff, where_matches_iff,
    String.eqb_eq. tauto.
Qed.

(** The first rule that grants decides. *)
Lemma authorize_rules_find rules claims owned :
  authorize_rules rules claims owned
  = match List.find (grantsb claims owned) rules with
    | Some rule => mkDecision true (gr_ID rule)
    | None => mkDecision false ""
    end.
Proof.
  induction rules as [|rule rest IH]; [done|]. cbn [authorize_rules List.find]. unfold grantsb at 1.
  destruct (gr_Effect rule =? EffectAllow); cbn [negb andb]; [|exact IH]. destruct (gr_Authenticated rule); [done|].
  destruct (gr_Owner rule && owned); [done|]. cbn [orb]. destruct (negb (gr_ClaimPath rule =? "") && _); [done|].
  destruct (negb (wh_Array (gr_Where rule) =? "") && _); [done|]. exact IH.
Qed.

Lemma authorize_allowed rules claims owned :
  dc_Allowed (authorize_rules rules claims owned) = true <-> exists rule, In rule rules /\ grants claims owned rule.
Proof.
  rewrite authorize_rules_find. destruct (List.find _ rules) as [rule|] eqn:E.
  - apply List.find_some in E as [Hin Hg]. apply grantsb_iff in Hg. split; [eauto|done].
  - split; [done|]. intros (rule & Hin & Hg). apply grantsb_iff in Hg. by rewrite (List.find_none _ _ E rule Hin) in Hg.
Qed.

(** ** Login policies *)

(** The gateway's rule with the predicate of a login rule. *)
Definition login_rule (rule : Rule) : AuthorizationRule :=
  mkAuthorizationRule (ru_ID rule) (ru_Effect rule) (ru_Authenticated rule) false (ru_ClaimPath rule) (ru_Values rule) (ru_Where rule).

Lemma scalar_Sprint v s : scalarString v = Some s -> Sprint v = s.
Proof. destruct v; cbn; congruence. Qed.

Lemma claimPathMatches_holds root path values :
  validPolicyPath path = true -> claimPathMatches root path values = true -> gateway_claimPathMatches root path values = true.
Proof.
  intros Hp. unfold claimPathMatches, gateway_claimPathMatches. destruct (selectValues root path) as [l|] eqn:E; [|done].
  apply selectValues_eq in E as ->; [|done]. rewrite !existsb_exists. intros (v & Hv & Hm). exists v. split; [done|].
  destruct (scalarString v) as [s|] eqn:Es; [|done]. unfold valueToString. by rewrite (scalar_Sprint _ _ Es).
Qed.

Lemma validatePredicate_path path values : validatePredicate path values = Ok tt ->
  validPolicyPath path = true /\ isSensitivePath path = false.
Proof.
  unfold validatePredicate. intros H. checks H. rewrite !orb_false_iff in H0. destruct H0 as [[H0 _] _].
  by apply negb_false_iff in H0.
Qed.

Lemma whereMatches_holds root w :
  validPolicyPath (wh_Array w) = true ->
  (forall c, In c (wh_All w) -> validPolicyPath (cd_ClaimPath c) = true) ->
  whereMatches root w = true -> whereArrayMatches root w = true.
Proof.
  intros Hp Hall. unfold whereMatches, whereArrayMatches. destruct (selectValues root (wh_Array w)) as [l|] eqn:E; [|done].
  apply selectValues_eq in E as ->; [|done]. rewrite !existsb_exists. intros (v & Hv & Hm). exists v. split; [done|].
  destruct v as [| | | | |members]; try done. rewrite forallb_forall in *. intros c Hc. apply claimPathMatches_holds; auto.
Qed.

(** The paths of a validated rule. *)
Lemma validate_rule_paths rule : validate_rule rule = Ok tt -> ru_Authenticated rule = false ->
  (ru_ClaimPath rule <> "" -> validPolicyPath (ru_ClaimPath rule) = true) /\
  (wh_Array (ru_Where rule) <> "" -> validPolicyPath (wh_Array (ru_Where rule)) = true /\
    forall c, In c (wh_All (ru_Where rule)) -> validPolicyPath (cd_ClaimPath c) = true).
Proof.
  unfold validate_rule. intros H Ha. apply andThen_ok in H as [_ H]. apply andThen_ok in H as [_ H]. apply andThen_ok in H as [Hone H].
  apply reject_ok, negb_false_iff in Hone. rewrite Ha in *. unfold count_true in Hone. cbn [List.filter] in Hone. split.
  - intros Hp. assert (Hs : has_scalar rule = true) by (unfold has_scalar; by rewrite (proj2 (negb_eqb_iff _) Hp)).
    rewrite Hs in H. by apply validatePredicate_path in H as [H _].
  - intros Hp. assert (Hw : has_where rule = true) by (unfold has_where; by rewrite (proj2 (negb_eqb_iff _) Hp)).
    rewrite Hw in Hone. destruct (has_scalar rule); [done|]. checks H. rewrite !orb_false_iff in H0. destruct H0 as [[H0 _] _].
    apply negb_false_iff in H0. split; [done|]. intros c Hc. rewrite each_ok in H. specialize (H c Hc).
    by apply validatePredicate_path in H as [H _].
Qed.

Lemma evaluate_grants rules claims :
  each validate_rule rules = Ok tt -> dc_Allowed (evaluate_rules rules claims) = true ->
  exists rule, In rule rules /\ dc_RuleID (evaluate_rules rules claims) = ru_ID rule /\ grantsb claims false (login_rule rule) = true.
Proof.
  rewrite each_ok. induction rules as [|rule rest IH]; intros Hv; [done|]. cbn [evaluate_rules].
  assert (IH' : dc_Allowed (evaluate_rules rest claims) = true -> exists r, In r (rule :: rest) /\
    dc_RuleID (evaluate_rules rest claims) = ru_ID r /\ grantsb claims false (login_rule r) = true).
  { intros H. destruct IH as (r & Hin & Hg); [intros r Hr; apply Hv; by right|done|]. exists r. split; [by right|done]. }
  destruct (ru_Effect rule =? EffectAllow) eqn:Ee; cbn [negb]; [|exact IH'].
  assert (Hhere : grantsb claims false (login_rule rule) = true -> exists r, In r (rule :: rest) /\
    ru_ID rule = ru_ID r /\ grantsb claims false (login_rule r) = true) by (intros H; exists rule; split; [by left|done]).
  destruct (ru_Authenticated rule) eqn:Ea.
  { intros _. apply Hhere. unfold grantsb, login_rule. cbn. by rewrite Ee, Ea. }
  destruct (validate_rule_paths rule (Hv rule (or_introl eq_refl)) Ea) as [Hc Hw].
  destruct (negb (ru_ClaimPath rule =? "") && _) eqn:E1.
  { intros _. apply Hhere. apply andb_true_iff in E1 as [E1 E2]. unfold grantsb, login_rule. cbn. rewrite Ee, Ea, E1.
    apply negb_eqb_iff in E1. rewrite (claimPathMatches_holds _ _ _ (Hc E1) E2). done. }
  destruct (negb (wh_Array (ru_Where rule) =? "") && _) eqn:E3; [|exact IH'].
  intros _. apply Hhere. apply andb_true_iff in E3 as [E3 E4]. unfold grantsb, login_rule. cbn. rewrite Ee, Ea, E3.
  apply negb_eqb_iff in E3. destruct (Hw E3) as [Hp Hall]. rewrite (whereMatches_holds _ _ Hp Hall E4). by rewrite orb_true_r.
Qed.

(** ** Sensitive claims and login *)

Lemma claimPathMatches_strip root path values : isSensitiveClaimPath path = false ->
  claimPathMatches (strip0 root) path values = claimPathMatches root path values.
Proof.
  intros Hp. unfold claimPathMatches. rewrite selectValues_strip by done. destruct (selectValues root path) as [l|]; [|done].
  cbn [fmap option_fmap option_map]. induction l as [|v l IH]; [done|]. cbn [map existsb]. by rewrite IH, strip_scalar.
Qed.

(** No path of the rule is one the gateway calls sensitive. *)
Definition open_rule (rule : Rule) : Prop :=
  isSensitiveClaimPath (ru_ClaimPath rule) = false /\ isSensitiveClaimPath (wh_Array (ru_Where rule)) = false /\
  forall c, In c (wh_All (ru_Where rule)) -> isSensitiveClaimPath (cd_ClaimPath c) = false.

Lemma forallb_ext_in {A} (f g : A -> bool) l : (forall x, In x l -> f x = g x) -> forallb f l = forallb g l.
Proof. induction l as [|x l IH]; intros H; [done|]. cbn. rewrite (H x (or_introl eq_refl)), IH; [done|]. intros y Hy. apply H. by right. Qed.

Lemma whereMatches_strip root w : isSensitiveClaimPath (wh_Array w) = false ->
  (forall c, In c (wh_All w) -> isSensitiveClaimPath (cd_ClaimPath c) = false) ->
  whereMatches (strip0 root) w = whereMatches root w.
Proof.
  intros Hp Hall. unfold whereMatches. rewrite selectValues_strip by done. destruct (selectValues root (wh_Array w)) as [l|]; [|done].
  cbn [fmap option_fmap option_map]. induction l as [|v l IH]; [done|]. cbn [map existsb]. rewrite IH. f_equal.
  destruct v as [| | | | |members]; try done. rewrite strip_map. apply forallb_ext_in. intros c Hc.
  rewrite <- strip_map. apply claimPathMatches_strip. by apply Hall.
Qed.

Lemma evaluate_rules_strip rules claims : List.Forall open_rule rules ->
  evaluate_rules rules (strip0 claims) = evaluate_rules rules claims.
Proof.
  induction 1 as [|rule rest (H1 & H2 & H3) _ IH]; [done|]. cbn [evaluate_rules].
  by rewrite IH, claimPathMatches_strip, whereMatches_strip.
Qed.

(** ** Sessions *)

(** A principal login admits: named, without sensitive claims, and allowed by
    the policy if there is one. *)
Definition admitted (config : GatewayConfig) (p : GatewayPrincipal) : Prop :=
  TrimSpace (gp_Issuer p) <> "" /\ TrimSpace (gp_Subject p) <> "" /\
  (exists raw, gp_Claims p = stripSensitiveClaims raw) /\
  match cg_Admission config with None => True | Some policy => dc_Allowed (EvaluateAdmission policy p) = true end.

Definition session_good (config : GatewayConfig) (s : storedSession) : Prop := admitted config (se_Principal s).

Lemma finishLogin_cases config t1 t2 id login p s :
  let out := finishLogin config t1 t2 id login p s in
  snd out = s /\ gw_Session (fst out) = None \/
  exists session, session_good config session /\ gp_Issuer (se_Principal session) = gp_Issuer p /\
    gp_Subject (se_Principal session) = gp_Subject p /\ se_ExpiresAt session = t1 + cg_MaxAgeSeconds config /\
    snd out = storeSession t2 id session s /\ gw_Location (fst out) = li_ReturnURL login.
Proof.
  cbv zeta. unfold finishLogin. destruct (_ || _) eqn:E; [by left|]. apply orb_false_iff in E as [E1 E2].
  set (principal := mkGatewayPrincipal _ _ _ _). destruct (negb _) eqn:Ea; [by left|]. apply negb_false_iff in Ea. right.
  exists (mkStoredSession principal (t1 + cg_MaxAgeSeconds config)). split_and!; try done. unfold session_good, admitted. cbn.
  split_and!; [by apply String.eqb_neq|by apply String.eqb_neq|by eexists|]. by destruct (cg_Admission config).
Qed.

(** The two ways a login ends. *)
Ltac login_cases :=
  match goal with |- context [finishLogin ?c ?t1 ?t2 ?id ?login ?p ?s] =>
    let H := fresh "H" in
    destruct (finishLogin_cases c t1 t2 id login p s) as [H|(session & H)]; [by left|right]
  end.

(** What a callback that creates a session has checked. *)
Record callback_checked (codec : CookieCodec) (config : GatewayConfig) (provider : IdentityProvider) (t0 : Z)
    (r : GatewayRequest) (login : loginStateCookieValue) (session : storedSession) : Prop := {
  cc_login : readLoginState codec r = Some login;
  cc_fresh : t0 < li_ExpiresAt login;
  cc_state : url_Query_Get (gq_URL r) "state" = li_State login;
  cc_oidc : cg_AuthMode config <> authModeOAuth2 ->
    exists token idToken claims, Exchange provider (url_Query_Get (gq_URL r) "code") (li_CodeVerifier login) = Some token /\
      VerifyID provider (tk_IDToken token) = Some idToken /\ it_Claims idToken = Some claims /\
      string_claim claims "nonce" = li_Nonce login /\ gp_Subject (se_Principal session) = it_Subject idToken /\
      gp_Issuer (se_Principal session) = it_Issuer idToken /\ (cg_ValidIssuer config = "" \/ it_Issuer idToken = cg_ValidIssuer config)
}.

Lemma callback_cases codec config provider t0 t1 t2 id r s :
  let out := handleCallback codec config provider t0 t1 t2 id r s in
  snd out = s /\ gw_Session (fst out) = None \/
  exists login session, callback_checked codec config provider t0 r login session /\ session_good config session /\
    se_ExpiresAt session = t1 + cg_MaxAgeSeconds config /\ snd out = storeSession t2 id session s /\
    gw_Location (fst out) = li_ReturnURL login.
Proof.
  cbv zeta. unfold handleCallback. destruct (readLoginState codec r) as [login|] eqn:El; [|by left].
  destruct (li_ExpiresAt login <=? t0)%Z eqn:Ef; [by left|]. destruct (negb (_ =? li_State login)) eqn:Es; [by left|].
  apply negb_false_iff, String.eqb_eq in Es. apply Z.leb_gt in Ef. destruct (cg_AuthMode config =? authModeOAuth2) eqn:Em.
  - apply String.eqb_eq in Em. unfold handleOAuth2Callback. destruct (Exchange _ _ _) as [token|]; [|by left].
    destruct (tk_AccessToken token =? ""); [by left|]. destruct (fetchOAuth2Identity _ _ _) as [p|]; [|by left].
    unfold finishOAuthLogin. destruct (EnrichClaims _ _ _) as [claims|]; [|by left].
    login_cases. destruct H as (Hg & _ & _ & He & Ho & Hl). exists login, session. split; [|done]. by split.
  - unfold handleOIDCCallback. destruct (Exchange _ _ _) as [token|] eqn:Ex; [|by left].
    destruct (tk_IDToken token =? ""); [by left|]. destruct (VerifyID _ _) as [idToken|] eqn:Ev; [|by left].
    destruct (negb (issuer_accepted config _)) eqn:Ei; [by left|]. destruct (it_Claims idToken) as [idClaims|] eqn:Ec; [|by left].
    destruct (negb (_ =? li_Nonce login)) eqn:En; [by left|]. apply negb_false_iff in Ei, En. apply String.eqb_eq in En.
    destruct (authorizationClaims _ _ _ _) as [claims|]; [|by left]. unfold finishOAuthLogin.
    destruct (EnrichClaims _ _ _) as [claims'|]; [|by left].
    login_cases. destruct H as (Hg & Hi & Hsub & He & Ho & Hl). cbn in Hi, Hsub. exists login, session. split; [|done].
    unfold issuer_accepted in Ei. apply orb_true_iff in Ei. rewrite !String.eqb_eq in Ei.
    split; try done. intros _. exists token, idToken, idClaims. split_and!; try done. rewrite Hi.
    destruct (cg_ValidIssuer config =? "") eqn:E0; [done|]. apply String.eqb_neq in E0. destruct Ei; congruence.
Qed.

(** The stores logins and logouts lead to, whatever the identity provider
    says each time. *)
Inductive reachable_sessions (codec : CookieCodec) (config : GatewayConfig) : session_store -> Prop :=
| rs_empty : reachable_sessions codec config ∅
| rs_callback provider t0 t1 t2 id r s :
    reachable_sessions codec config s -> reachable_sessions codec config (snd (handleCallback codec config provider t0 t1 t2 id r s))
| rs_logout r s :
    reachable_sessions codec config s -> reachable_sessions codec config (snd (handleLogout codec config r s)).

Lemma storeSession_lookup now id session s id' x :
  storeSession now id session s !! id' = Some x -> (id' = id /\ x = session) \/ (s !! id' = Some x /\ now < se_ExpiresAt x).
Proof.
  unfold storeSession. intros H. apply lookup_insert_Some in H as [[-> ->]|[_ H]]; [by left|].
  apply map_lookup_filter_Some in H as [H Hf]. right. done.
Qed.

Lemma deleteSession_lookup id s id' x : deleteSession id s !! id' = Some x -> s !! id' = Some x /\ (id <> "" -> id' <> id).
Proof.
  unfold deleteSession. destruct (id =? "") eqn:E; [apply String.eqb_eq in E; intros H; split; [done|by intros []]|].
  intros H. apply lookup_delete_Some in H as [Hn H]. split; [done|]. intros _ ->. done.
Qed.

Lemma reachable_good codec config s id x : reachable_sessions codec config s -> s !! id = Some x -> session_good config x.
Proof.
  intros Hr. revert id x. induction Hr as [|provider t0 t1 t2 id0 r s _ IH|r s _ IH]; intros id x Hx; [by rewrite lookup_empty in Hx| |].
  - destruct (callback_cases codec config provider t0 t1 t2 id0 r s) as [[E _]|(login & session & _ & Hg & _ & E & _)]; rewrite E in Hx.
    + by eapply IH.
    + apply storeSession_lookup in Hx as [[_ ->]|[Hx _]]; [done|by eapply IH].
  - unfold handleLogout in Hx. destruct (negb _); [by eapply IH|]. cbn in Hx. destruct (readSession _ _ _) as [c|]; [|by eapply IH].
    apply deleteSession_lookup in Hx as [Hx _]. by eapply IH.
Qed.

Lemma Authenticate_session codec config t1 t2 r s p :
  Authenticate codec config t1 t2 r s = Authenticated p ->
  exists cookie session, readSession codec config r = Some cookie /\ sk_ID cookie <> "" /\ s !! sk_ID cookie = Some session /\
    se_Principal session = p /\ t1 < se_ExpiresAt session /\ t2 < se_ExpiresAt session.
Proof.
  unfold Authenticate, refuse. destruct (readSession codec config r) as [cookie|]; [|by destruct (gq_Browser r)].
  destruct (t1 <? _)%Z eqn:E1; [|by destruct (gq_Browser r)]. unfold lookupSession.
  destruct (sk_ID cookie =? "") eqn:E0; [by destruct (gq_Browser r)|].
  destruct (s !! sk_ID cookie) as [session|] eqn:Es; [|by destruct (gq_Browser r)].
  destruct (_ || _) eqn:E2; [by destruct (gq_Browser r)|]. intros [= <-]. rewrite orb_false_iff, negb_false_iff in E2. destruct E2 as [E2 E3].
  apply String.eqb_neq in E0. apply Z.eqb_eq in E2. exists cookie, session. split_and!; try done; lia.
Qed.

(** ** Text *)

Lemma all_bytes_chunks p l : all_bytes p (concat_chunks l) = forallb (fun '(_, c) => all_bytes p c) l.
Proof.
  induction l as [|[x c] l IH]; [done|]. change (concat_chunks ((x, c) :: l)) with (c +:+ concat_chunks l).
  by rewrite all_bytes_app, IH.
Qed.

Lemma drop_space_incl l x : In x (drop_space l) -> In x l.
Proof. induction l as [|[r c] l IH]; [done|]. cbn. destruct (IsSpace r); [auto|done]. Qed.

Lemma all_bytes_TrimSpace p s : all_bytes p s = true -> all_bytes p (TrimSpace s) = true.
Proof.
  intros H. rewrite <- (concat_runes s), all_bytes_chunks, forallb_forall in H. unfold TrimSpace.
  rewrite all_bytes_chunks, forallb_forall. intros x Hx. apply H.
  apply in_rev, drop_space_incl, in_rev, drop_space_incl in Hx. done.
Qed.

Lemma Split_clean s sep x : In x (Split s sep) -> all_bytes (fun c => negb (c =? sep)%char) x = true.
Proof.
  revert x. induction s as [|c s IH]; intros x; cbn; [by intros [<-|[]]|]. destruct (c =? sep)%char eqn:E.
  - intros [<-|Hx]; [done|]. by apply IH.
  - destruct (Split s sep) as [|w ws]; [intros [<-|[]]; cbn; by rewrite E|].
    intros [<-|Hx]; [cbn; rewrite E; cbn; apply IH; by left|apply IH; by right].
Qed.

(** ** Cookies *)

(** A field of the forwarded header that is not one of the gateway's. *)
Definition foreign_field (owned : list string) (f : string) : Prop :=
  all_bytes (fun c => negb (c =? ";")%char) f = true /\
  exists name value, Cut f "="%char = (name, value, true) /\ validCookieName (TrimSpace name) = true /\ ~ In (TrimSpace name) owned.

Lemma keep_field_foreign owned raw f :
  all_bytes (fun c => negb (c =? ";")%char) raw = true -> keep_field owned raw = Some f -> foreign_field owned f.
Proof.
  intros Hraw. unfold keep_field. destruct (Cut (TrimSpace raw) "="%char) as [[name value] ok] eqn:E.
  destruct (negb ok || negb _) eqn:Eo; [done|]. rewrite orb_false_iff, !negb_false_iff in Eo. destruct Eo as [-> Hv].
  destruct (mem _ owned) eqn:Em; [done|]. intros [= <-]. split; [by apply all_bytes_TrimSpace|].
  exists name, value. split; [done|]. split; [done|]. intros H. apply mem_iff in H. congruence.
Qed.

Lemma kept_foreign values owned : List.Forall (foreign_field owned) (kept_fields values owned).
Proof.
  apply List.Forall_forall. intros f Hf. apply in_flat_map in Hf as (raw & _ & Hf). apply list_elem_of_In, list_elem_of_omap in Hf as (x & Hx & Hk).
  apply list_elem_of_In, Split_clean in Hx. by eapply keep_field_foreign.
Qed.

Lemma Split_Join_fields owned f fs : List.Forall (foreign_field owned) (f :: fs) ->
  Split (Join (f :: fs) "; ") ";"%char = f :: map (fun x => " " +:+ x) fs.
Proof.
  revert f. induction fs as [|g fs IH]; intros f H; apply List.Forall_cons_iff in H as [[Hf _] H].
  - by apply Split_whole.
  - change (Join (f :: g :: fs) "; ") with (f +:+ "; " +:+ Join (g :: fs) "; ").
    rewrite !str_cons_app, str_nil_app, Split_app, Split_whole by done. cbn [app map]. f_equal.
    cbn [Split]. change (" " =? ";")%char with false. cbv iota. rewrite IH by done. done.
Qed.
