(* ===== verification/Scheduling.v ===== *)
(** * Scheduled work and API credentials

    localcontroller/internal/controller/scheduling.go and api_auth.go: the
    producers' policies, the identity of a piece of work, bearer tokens, and
    the loading of both from the administrator's document.  The YAML library
    and the struct mapping of the document are arguments; the handlers that
    use the store are in HttpApi. *)
From stdpp Require Import base list strings gmap.
From Stdlib Require Import ZArith Lia Ascii.
From S2P Require Import Prelude GoStrings GoUrl GoJson GoJsonPrint GoHttp Sha256 Contract Validation Decode Resolver EgressProps LocalRun StoreRow StoreOps.


Local Open Scope Z_scope.
Local Open Scope string_scope.

Definition NativeConfigAPIVersion : string := "nvt.local-platform/v1".
Definition maxNativeConfigBytes : Z := Z.shiftl 1 20.
Definition maxNativeConfigNodes : Z := 32768.
Definition maxNativeConfigDepth : Z := 64.

(** ** The document *)

Record workstationReconciliation := mkReconciliation {
  wr_Prune : bool;
  wr_ReplaceOnImmutableChange : bool;
  wr_DestructiveAcknowledged : bool
}.

Record workstationConfig := mkWorkstation {
  ws_Name : string;
  ws_Principal : Principal;
  ws_Profile : string;
  ws_Workflow : string;
  ws_Retention : string;
  ws_Backend : string
}.

Record scheduleSelection := mkSelection { ss_Profile : string; ss_Workflow : string }.

Record scheduleProducerConfig := mkProducer {
  sp_Identity : string;
  sp_TokenFile : string;
  sp_AllowedPrincipalIssuers : list string;
  sp_Selections : list scheduleSelection;
  sp_DefaultWorkflow : string;
  sp_Retention : string;
  sp_Backend : string
}.

Record scheduleConfig := mkScheduleConfig { sd_Name : string; sd_Producers : list scheduleProducerConfig }.

Record nativeConfiguration := mkNativeConfiguration {
  nc_APIVersion : string;
  nc_Reconciliation : workstationReconciliation;
  nc_Defaults : PlatformDefaults;
  nc_Profiles : slice Profile;
  nc_Workflows : slice Workflow;
  nc_ExecutionBackends : slice ExecutionBackend;
  nc_RetentionPolicies : slice RetentionPolicy;
  nc_Workstations : list workstationConfig;
  nc_Schedules : list scheduleConfig
}.

(** ** The compiled policies *)

Record schedulePolicy := mkPolicy {
  po_identity : string;
  po_tokenDigest : list Z;
  po_allowedIssuers : gset string;
  po_selections : gmap string scheduleSelection;
  po_defaultWorkflow : string;
  po_retention : string;
  po_backend : string;
  po_authorization : AuthorizationContext
}.

Record schedule := mkSchedule { sch_name : string; sch_policies : list schedulePolicy; sch_resolver : Resolver }.

Record Scheduler := mkScheduler {
  sc_schedules : gmap string schedule;
  sc_workstations : list CreateInput;
  sc_reconciliation : workstationReconciliation
}.

(** ** Identifiers and text *)

Definition nul : string := String (Ascii.ascii_of_nat 0) "".

(** What the identity of a piece of work is the digest of. *)
Definition work_preimage (scheduleName producerIdentity workID : string) : string :=
  "nvt.local-scheduling/v1" ++ nul ++ scheduleName ++ nul ++ producerIdentity ++ nul ++ workID.

(** The idempotency key and the run identifier. *)
Definition localWorkIdentity (scheduleName producerIdentity workID : string) : string * string :=
  let hexDigest := sha256_hex (work_preimage scheduleName producerIdentity workID) in
  ("local-work-" ++ hexDigest, "local-" ++ String.substring 0 32 hexDigest).

Definition validWorkID (value : string) : bool :=
  if (len value <? 16)%Z || (256 <? len value)%Z || negb (trimmed value) then false
  else all_runes (fun r => negb ((r <? 0x21)%Z || (0x7e <? r)%Z || existsb (Z.eqb r) [0x25; 0x5c; 0x3f; 0x23])) value.

Definition validScheduleText (value : string) (maximum : Z) (allowEmpty : bool) : bool :=
  (allowEmpty || negb (value =? "")) && (len value <=? maximum)%Z && trimmed value && ValidString value
  && negb (ContainsAny value nul_cr_lf).

Definition validScheduleURL (raw : string) : bool := is_nil (ValidateSourceURL raw).

Definition validIssuer (raw : string) : bool :=
  match url_Parse raw with
  | None => false
  | Some parsed =>
      (Scheme parsed =? "https") && negb (Host parsed =? "") && bool_decide (User parsed = None)
      && (RawQuery parsed =? "") && (Fragment parsed =? "") && (URL_String parsed =? raw) && trimmed raw
      && negb (ContainsAny raw nul_cr_lf)
  end.

(** ** Requests *)

Record scheduleAdmissionPrincipal := mkAdmissionPrincipal { ap_Issuer : string; ap_Subject : string; ap_DisplayName : string }.

Record scheduleAdmissionWork := mkAdmissionWork {
  aw_ID : string;
  aw_Group : string;
  aw_Title : string;
  aw_URL : string;
  aw_Repository : string;
  aw_Principal : scheduleAdmissionPrincipal
}.

Record scheduleAdmissionRequest := mkAdmissionRequest {
  ar_Workflow : string;
  ar_Work : scheduleAdmissionWork;
  ar_Prompt : string
}.

Definition validScheduleWork (value : scheduleAdmissionWork) : bool :=
  validWorkID (aw_ID value) && ((aw_Group value =? "") || validWorkID (aw_Group value))
  && validScheduleText (aw_Title value) 512 true && validScheduleText (aw_Repository value) 512 false
  && validScheduleURL (aw_URL value) && validIssuer (ap_Issuer (aw_Principal value))
  && validScheduleText (ap_Subject (aw_Principal value)) 1024 false
  && validScheduleText (ap_DisplayName (aw_Principal value)) 512 true.

(** [scheduleWorkQuery]: the one query parameter, when it is a work identifier. *)
Definition scheduleWorkQuery (rawQuery : string) : option string :=
  match ParseQuery rawQuery with
  | None => None
  | Some query =>
      if negb (length (query_keys query) =? 1)%nat then None
      else match query_values query "work_id" with
      | [value] => if validWorkID value then Some value else None
      | _ => None
      end
  end.

(** ** Bearer tokens *)

(** [readPrivateBearer]; the file is read once, [Lstat] before. *)
Definition readPrivateBearer (fs : FileSystem) (path : string) : option string :=
  match Lstat fs path with
  | None => None
  | Some info =>
      if negb (fi_regular info) || negb (Z.land (fi_perm info) 63 =? 0)%Z || (fi_size info <? 32)%Z || (4096 <? fi_size info)%Z
      then None
      else match ReadFile fs path with
      | None => None
      | Some data =>
          if (4096 <? len data)%Z then None
          else
            let token := TrimSpace data in
            if (len token <? 32)%Z || (4096 <? len token)%Z || negb (ValidString token)
               || exists_rune (fun r => (r <=? 0x20)%Z || (r =? 0x7f)%Z) token
            then None else Some token
      end
  end.

(** [strings.Count(s, " ")] *)
Fixpoint count_byte (c : ascii) (s : string) : nat :=
  match s with EmptyString => 0 | String d s' => (if (d =? c)%char then 1 else 0) + count_byte c s' end.

(** The policy whose token the request carries. *)
Definition authenticateScheduleProducer (headers : list string) (configured : schedule) : option schedulePolicy :=
  match headers with
  | [header] =>
      if negb (HasPrefix header "Bearer ") || negb (count_byte " "%char header =? 1)%nat then None
      else
        let token := TrimPrefix header "Bearer " in
        if (len token <? 32)%Z || (4096 <? len token)%Z then None
        else List.find (fun policy => bool_decide (po_tokenDigest policy = Sum256 token)) (sch_policies configured)
  | _ => None
  end.

Definition usesTokenDigest (scheduler : option Scheduler) (candidate : option (list Z)) : bool :=
  match scheduler, candidate with
  | Some sc, Some digest =>
      existsb (fun '(_, configured) =>
        existsb (fun policy => bool_decide (po_tokenDigest policy = digest)) (sch_policies configured))
        (map_to_list (sc_schedules sc))
  | _, _ => false
  end.

(** *** API audiences (api_auth.go) *)

Inductive apiAudience : Type := apiAudienceNone | apiAudienceAdmin | apiAudienceRoutes.

Record APIAuthorization := mkAuthorization { au_admin : option (list Z); au_routes : option (list Z) }.

Definition privateBearerDigest (fs : FileSystem) (path : string) : option (list Z) := Sum256 <$> readPrivateBearer fs path.

(** A token file that is not configured gives no digest; one that cannot be
    read fails the load. *)
Definition load_digest (fs : FileSystem) (path : string) : result error (option (list Z)) :=
  if path =? "" then Ok None
  else match privateBearerDigest fs path with Some d => Ok (Some d) | None => Err ErrInvalidRequest end.

Definition LoadAPIAuthorization (fs : FileSystem) (adminTokenFile routeTokenFile : string) (scheduler : option Scheduler)
  : result error APIAuthorization :=
  match load_digest fs adminTokenFile with
  | Err e => Err e
  | Ok admin =>
      match load_digest fs routeTokenFile with
      | Err e => Err e
      | Ok routes =>
          if bool_decide (is_Some admin /\ admin = routes) then Err ErrInvalidRequest
          else if usesTokenDigest scheduler admin || usesTokenDigest scheduler routes then Err ErrInvalidRequest
          else Ok (mkAuthorization admin routes)
      end
  end.

Definition APIAuthorization_validate (authorization : option APIAuthorization) (routeProvider : bool) : bool :=
  negb (routeProvider && bool_decide ((authorization ≫= au_routes) = None)).

Definition apiAudienceForPath (path : string) : apiAudience :=
  if (path =? "/v1/routes") || HasPrefix path "/v1/routes/" then apiAudienceRoutes
  else if (path =? "/v1/runs") || HasPrefix path "/v1/runs/" then apiAudienceAdmin
  else apiAudienceNone.

Definition permits (authorization : option APIAuthorization) (headers : list string) (audience : apiAudience) : bool :=
  let expected := match audience with
    | apiAudienceNone => None
    | apiAudienceAdmin => authorization ≫= au_admin
    | apiAudienceRoutes => authorization ≫= au_routes
    end in
  match audience with
  | apiAudienceNone => true
  | _ =>
      match expected with
      | None => false
      | Some digest =>
          match headers with
          | [value] =>
              if (len value <? 7 + 32)%Z || (7 + 4096 <? len value)%Z || negb (String.substring 0 7 value =? "Bearer ") then false
              else
                let token := String.substring 7 (String.length value - 7) value in
                if (len token <? 32)%Z || (4096 <? len token)%Z then false
                else bool_decide (Sum256 token = digest)
          | _ => false
          end
      end
  end.

(** * The identity of scheduled work

    A piece of work is known by the digest of its schedule, producer and
    identifier: the digested text tells the three apart, and the identifiers
    made from the digest are ones the store accepts. *)

Local Open Scope Z_scope.
Local Open Scope string_scope.

(** ** The identity of work *)

Definition no_nul (s : string) : bool := all_bytes (fun c => negb (Ascii.eqb c (Ascii.ascii_of_nat 0))) s.

(** Texts without a NUL before the first NUL. *)
Lemma nul_split a b c d : no_nul a = true -> no_nul c = true -> a +:+ nul +:+ b = c +:+ nul +:+ d -> a = c /\ b = d.
Proof.
  unfold nul. revert c. induction a as [|x a IH]; intros c Ha Hc E; destruct c as [|y c]; rewrite ?str_cons_app, ?str_nil_app in E.
  - by injection E as ->.
  - by injection E as <- _.
  - by injection E as -> _.
  - injection E as <- E. cbn in Ha, Hc. bool_prop. destruct (IH c) as [-> ->]; [done..|]. done.
Qed.

Lemma no_nul_app a b : no_nul (a +:+ b) = no_nul a && no_nul b.
Proof. induction a as [|x a IH]; [done|]. rewrite str_cons_app. cbn. fold (no_nul (a +:+ b)). by rewrite IH, andb_assoc. Qed.

Lemma no_nul_all p s : (forall c, p c = true -> code c <> 0) -> all_bytes p s = true -> no_nul s = true.
Proof.
  intros Hp. induction s as [|c s IH]; [done|]. cbn. intros H. bool_prop. fold (no_nul s). rewrite IH by done.
  rewrite andb_true_r, negb_true_iff. apply Ascii.eqb_neq. intros ->. by apply (Hp (Ascii.ascii_of_nat 0)).
Qed.

Lemma validRunID_no_nul s : validRunID s = true -> no_nul s = true.
Proof.
  unfold validRunID. destruct (_ || _) eqn:E; [done|]. rewrite !orb_false_iff in E. destruct E as [_ E].
  destruct s as [|c s]; [done|]. cbn in E. apply negb_false_iff in E. destruct (all_bytes _ s) eqn:Ea; [|done]. intros _.
  apply (no_nul_all (fun c => lowerAlphaNumeric c || (code c =? 45)%Z)).
  - intros x Hx Hz. unfold lowerAlphaNumeric in Hx. rewrite Hz in Hx. done.
  - cbn. by rewrite E, Ea.
Qed.

Lemma ContainsAny_no_nul s : ContainsAny s nul_cr_lf = false -> no_nul s = true.
Proof.
  unfold ContainsAny. induction s as [|c s IH]; [done|]. cbn. rewrite !orb_false_iff. intros [[Hc _] Hs].
  fold (no_nul s). by rewrite Hc, IH.
Qed.

Lemma validOwner_no_nul s : validOwner s = true -> no_nul s = true.
Proof. unfold validOwner. rewrite !andb_true_iff, negb_true_iff. intros [_ H]. by apply ContainsAny_no_nul. Qed.

Lemma work_preimage_inj n1 i1 w1 n2 i2 w2 :
  validRunID n1 = true -> validRunID n2 = true -> validOwner i1 = true -> validOwner i2 = true ->
  work_preimage n1 i1 w1 = work_preimage n2 i2 w2 -> n1 = n2 /\ i1 = i2 /\ w1 = w2.
Proof.
  intros Hn1 Hn2 Hi1 Hi2 E. unfold work_preimage in E.
  apply nul_split in E as [_ E]; [|done|done].
  apply nul_split in E as [-> E]; [|by apply validRunID_no_nul..].
  apply nul_split in E as [-> ->]; [done|by apply validOwner_no_nul..].
Qed.

(** *** Identities are valid *)

Lemma hex_digit_lower n : 0 <= n < 16 -> lowerAlphaNumeric (hex_digit n) = true.
Proof.
  intros Hn. unfold lowerAlphaNumeric, in_range. rewrite hex_digit_code by done.
  destruct (n <? 10)%Z eqn:E; bool_prop; apply orb_true_iff; [right|left]; apply andb_true_iff; rewrite !Z.leb_le; lia.
Qed.

Lemma sha256_hex_lower msg : all_bytes lowerAlphaNumeric (sha256_hex msg) = true.
Proof.
  unfold sha256_hex. pose proof (Sum256_bytes msg) as H. induction H as [|b bs Hb _ IH]; [done|]. cbn [hex_encode all_bytes].
  rewrite !hex_digit_lower, IH; [done| |].
  - apply Z.mod_pos_bound. lia.
  - split; [apply Z.div_pos; lia | apply Z.div_lt_upper_bound; lia].
Qed.

Lemma get_all p s i c : all_bytes p s = true -> String.get i s = Some c -> p c = true.
Proof.
  revert i. induction s as [|x s IH]; intros [|i]; cbn; try done; intros H; bool_prop; [by intros [= <-]|].
  by apply IH.
Qed.

Lemma get_some s i : (i < String.length s)%nat -> is_Some (String.get i s).
Proof. revert i. induction s as [|x s IH]; intros [|i]; cbn; try lia; [eauto|]. intros H. apply IH. lia. Qed.

Lemma get_app_right a b i : (String.length a <= i)%nat -> String.get i (a +:+ b) = String.get (i - String.length a) b.
Proof.
  revert i. induction a as [|x a IH]; intros i Hi; [by rewrite str_nil_app, Nat.sub_0_r|].
  rewrite str_cons_app. destruct i as [|i]; cbn in *; [lia|]. apply IH. lia.
Qed.

Lemma substring_length n s : (n <= String.length s)%nat -> String.length (String.substring 0 n s) = n.
Proof. revert n. induction s as [|c s IH]; intros [|n] Hn; cbn in *; try lia. rewrite IH; lia. Qed.

(** A lower-case alphanumeric text behind a prefix of the same and dashes. *)
Lemma validRunID_prefix p s :
  opt_test lowerAlphaNumeric (first_byte p) = true -> all_bytes (fun c => lowerAlphaNumeric c || (code c =? 45)%Z) p = true ->
  all_bytes lowerAlphaNumeric s = true -> s <> "" -> (String.length p + String.length s <= 63)%nat ->
  validRunID (p +:+ s) = true.
Proof.
  intros Hf Hp Hs Hne Hl. destruct p as [|c p]; [done|]. cbn in Hf, Hp. bool_prop.
  assert (Hlen : (0 < String.length s)%nat) by (destruct s; [done|cbn; lia]).
  assert (Hlast : opt_test lowerAlphaNumeric (last_byte (String c p +:+ s)) = true).
  { unfold last_byte. rewrite str_length_app, get_app_right by (cbn; lia).
    destruct (get_some s (String.length (String c p) + String.length s - 1 - String.length (String c p))) as [x Hx]; [cbn; lia|].
    rewrite Hx. cbn. by eapply get_all. }
  unfold validRunID. rewrite str_cons_app in *. unfold len. cbn [String.length]. rewrite str_length_app. cbn in Hl.
  replace (Z.of_nat (S (String.length p + String.length s)) =? 0)%Z with false by (symmetry; apply Z.eqb_neq; lia).
  replace (63 <? Z.of_nat (S (String.length p + String.length s)))%Z with false by (symmetry; apply Z.ltb_ge; lia).
  cbn [first_byte String.get opt_test]. rewrite Hf. cbn [orb negb].
  rewrite all_bytes_app, H0. cbn [andb]. rewrite (all_bytes_impl lowerAlphaNumeric); [exact Hlast| |done].
  intros x ->. done.
Qed.

Lemma lower_graphic c : lowerAlphaNumeric c = true -> (0x21 <= code c <= 0x7e).
Proof. unfold lowerAlphaNumeric, in_range. intros H. apply orb_true_iff in H as [H|H]; bool_prop; lia. Qed.

Lemma work_identity_valid n i w :
  validRunID (snd (localWorkIdentity n i w)) = true /\ validIdempotencyKey (fst (localWorkIdentity n i w)) = true.
Proof.
  unfold localWorkIdentity. cbv zeta. cbn [fst snd].
  pose proof (sha256_hex_lower (work_preimage n i w)) as Hh. pose proof (sha256_hex_len (work_preimage n i w)) as Hl.
  set (h := sha256_hex _) in *. clearbody h. unfold len in Hl. split.
  - pose proof (substring_length 32 h ltac:(lia)) as Hs. apply validRunID_prefix; [done|done|by apply all_bytes_substring| |].
    + intros E. by rewrite E in Hs.
    + rewrite Hs. cbn. lia.
  - set (g := fun c => (0x21 <=? code c)%Z && (code c <=? 0x7e)%Z).
    assert (Hg : all_bytes g ("local-work-" +:+ h) = true).
    { rewrite all_bytes_app. apply andb_true_iff. split; [done|]. eapply all_bytes_impl; [|exact Hh].
      intros c Hc. apply lower_graphic in Hc. unfold g. apply andb_true_iff. rewrite !Z.leb_le. lia. }
    unfold validIdempotencyKey, MaxIdempotencyKeyBytes. rewrite len_app. unfold len at 1 2 3 4. rewrite Hl.
    change ("local-work-" +:+ h =? TrimSpace ("local-work-" +:+ h)) with (trimmed ("local-work-" +:+ h)).
    rewrite trimmed_solid; [|eapply all_bytes_impl; [|exact Hg]; intros c Hc; unfold g in Hc; bool_prop; unfold solid, ascii_byte, IsSpace, in_range; lia].
    change (negb true) with false.
    rewrite all_runes_ascii.
    2: { intros r Hr. bool_prop. lia. }
    cbn [orb]. eapply all_bytes_impl; [|exact Hg]. intros c Hc. unfold g in Hc. bool_prop.
    rewrite negb_true_iff, orb_false_iff, !Z.ltb_ge. lia.
Qed.
