(* ===== verification/SchedulerLoad.v ===== *)
(** * Loading the scheduler (scheduling.go)

    The administrator's document, from the file to compiled policies and
    workstation inputs.  YAML parsing and the struct mapping of the document
    are the arguments of [NativeDecoder]; [validateYAMLNode] is the code's own
    check of the parsed tree. *)
From stdpp Require Import base list strings gmap.
From Stdlib Require Import ZArith Lia Ascii.
From S2P Require Import Prelude GoStrings GoUrl GoJson GoHttp Sha256 Contract Validation Decode Resolver LocalRun StoreRow StoreOps StoreBatch Scheduling.


Local Open Scope Z_scope.
Local Open Scope string_scope.

(** ** The YAML tree *)

Inductive yaml_kind : Type := DocumentNode | SequenceNode | MappingNode | ScalarNode | AliasNode.

#[export] Instance yaml_kind_eq_dec : EqDecision yaml_kind.
Proof. solve_decision. Defined.

(** A [yaml.Node]: of the alias only whether there is one. *)
#[warnings="-register-all"]
Inductive yaml_node : Type :=
  YNode (kind : yaml_kind) (tag value anchor : string) (alias : bool) (content : list yaml_node).

Definition y_kind (n : yaml_node) : yaml_kind := let 'YNode k _ _ _ _ _ := n in k.
Definition y_tag (n : yaml_node) : string := let 'YNode _ t _ _ _ _ := n in t.
Definition y_value (n : yaml_node) : string := let 'YNode _ _ v _ _ _ := n in v.
Definition y_content (n : yaml_node) : list yaml_node := let 'YNode _ _ _ _ _ c := n in c.

(** [validateYAMLNode]: the node count after the node, [None] on an error.  A
    mapping's content alternates keys and values; keys are not counted. *)
Fixpoint validateYAMLNode (node : yaml_node) (depth nodes : Z) : option Z :=
  let '(YNode kind tag _ anchor alias content) := node in
  if (maxNativeConfigDepth <? depth)%Z then None
  else
    let nodes := nodes + 1 in
    if (maxNativeConfigNodes <? nodes)%Z || alias || negb (anchor =? "") then None
    else match kind with
    | MappingNode =>
        if negb (Nat.even (length content)) then None
        else
          (fix members (seen : list string) (c : list yaml_node) (nodes : Z) : option Z :=
             match c with
             | key :: value :: c' =>
                 if negb (bool_decide (y_kind key = ScalarNode)) || negb (y_tag key =? "!!str") || (y_value key =? "") then None
                 else if mem (y_value key) seen then None
                 else match validateYAMLNode value (depth + 1) nodes with
                      | Some nodes' => members (y_value key :: seen) c' nodes'
                      | None => None
                      end
             | _ => Some nodes
             end) [] content nodes
    | SequenceNode =>
        (fix children (c : list yaml_node) (nodes : Z) : option Z :=
           match c with
           | child :: c' =>
               match validateYAMLNode child (depth + 1) nodes with Some nodes' => children c' nodes' | None => None end
           | [] => Some nodes
           end) content nodes
    | ScalarNode => if mem tag ["!!str"; "!!bool"; "!!int"; "!!null"] then Some nodes else None
    | _ => None
    end.

(** ** The document *)

Record NativeDecoder := mkNativeDecoder {
  (** The documents of a YAML stream, [None] on an error. *)
  yaml_documents : string -> option (list yaml_node);
  (** [node.Decode(&value)] and [json.Marshal(value)] of a checked tree. *)
  yaml_json : yaml_node -> option string;
  (** [decoder.Decode(&document)] with the end of the input after it. *)
  native_document : string -> option nativeConfiguration
}.

Definition strictYAMLToJSON (nd : NativeDecoder) (data : string) : option string :=
  match yaml_documents nd data with
  | Some [document] =>
      match y_content document with
      | [root] =>
          match validateYAMLNode root 0 0 with
          | Some _ =>
              match yaml_json nd root with
              | Some encoded => if (maxNativeConfigBytes <? len encoded)%Z then None else Some encoded
              | None => None
              end
          | None => None
          end
      | _ => None
      end
  | _ => None
  end.

Definition clean_absolute (path : string) : bool := IsAbs path && (Clean path =? path).

Definition loadNativeConfiguration (nd : NativeDecoder) (fs : FileSystem) (path : string)
  : result error (nativeConfiguration * Resolver) :=
  let bad := Err ErrInvalidRequest in
  if negb (clean_absolute path) then bad
  else match Lstat fs path with
  | None => bad
  | Some info =>
      if negb (fi_regular info) || (fi_size info <? 1)%Z || (maxNativeConfigBytes <? fi_size info)%Z then bad
      else match ReadFile fs path with
      | None => bad
      | Some data =>
          if (len data =? 0)%Z || (maxNativeConfigBytes <? len data)%Z then bad
          else match strictYAMLToJSON nd data ≫= native_document nd with
          | None => bad
          | Some document =>
              if negb (nc_APIVersion document =? NativeConfigAPIVersion)
                 || ((length (nc_Schedules document) =? 0)%nat && (length (nc_Workstations document) =? 0)%nat
                     && negb (wr_Prune (nc_Reconciliation document)))
                 || (64 <? length (nc_Schedules document))%nat || (128 <? length (nc_Workstations document))%nat
              then bad
              else match NewResolver (mkTrustedConfiguration (nc_Defaults document) (nc_Profiles document)
                           (nc_Workflows document) (nc_ExecutionBackends document) (nc_RetentionPolicies document)) with
              | Err _ => bad
              | Ok resolver => Ok (document, resolver)
              end
          end
      end
  end.

(** ** Policies *)

(** The issuers of a producer, none of them twice. *)
Fixpoint compile_issuers (issuers : list string) (allowed : gset string) : option (gset string) :=
  match issuers with
  | [] => Some allowed
  | issuer :: rest =>
      if negb (validIssuer issuer) || bool_decide (issuer ∈ allowed) then None
      else compile_issuers rest ({[issuer]} ∪ allowed)
  end.

(** The selections by workflow, and the workflows of each profile. *)
Fixpoint compile_selections (selections : list scheduleSelection) (byWorkflow : gmap string scheduleSelection)
    (byProfile : gmap string (list string)) : option (gmap string scheduleSelection * gmap string (list string)) :=
  match selections with
  | [] => Some (byWorkflow, byProfile)
  | s :: rest =>
      if negb (validRunID (ss_Profile s)) || negb (validRunID (ss_Workflow s)) then None
      else match byWorkflow !! ss_Workflow s with
      | Some _ => None
      | None =>
          compile_selections rest (<[ss_Workflow s := s]> byWorkflow)
            (<[ss_Profile s := (default [] (byProfile !! ss_Profile s) ++ [ss_Workflow s])%list]> byProfile)
      end
  end.

(** The selections an authorization lists, in the order of the map's keys:
    Go's order over a map is unspecified, and nothing depends on it. *)
Definition authorized_selections (byProfile : gmap string (list string)) : list AuthorizedSelection :=
  map (fun '(profile, workflows) => mkAuthorizedSelection profile (Some workflows)) (map_to_list byProfile).

Definition producer_bad (config : scheduleProducerConfig) : bool :=
  negb (validOwner (sp_Identity config)) || negb (clean_absolute (sp_TokenFile config))
  || (length (sp_AllowedPrincipalIssuers config) =? 0)%nat || (32 <? length (sp_AllowedPrincipalIssuers config))%nat
  || (length (sp_Selections config) =? 0)%nat || (MaxWorkflows <? Z.of_nat (length (sp_Selections config)))%Z
  || negb (validRunID (sp_DefaultWorkflow config)) || negb (validRunID (sp_Retention config))
  || negb (sp_Backend config =? "") && negb (validRunID (sp_Backend config)).

(** [compileSchedulePolicy]; every error is a refusal to start. *)
Definition compileSchedulePolicy (fs : FileSystem) (config : scheduleProducerConfig) : option schedulePolicy :=
  if producer_bad config then None
  else match readPrivateBearer fs (sp_TokenFile config) with
  | None => None
  | Some token =>
      match compile_issuers (sp_AllowedPrincipalIssuers config) ∅, compile_selections (sp_Selections config) ∅ ∅ with
      | Some issuers, Some (byWorkflow, byProfile) =>
          match byWorkflow !! sp_DefaultWorkflow config with
          | None => None
          | Some _ =>
              Some (mkPolicy (sp_Identity config) (Sum256 token) issuers byWorkflow (sp_DefaultWorkflow config)
                (sp_Retention config) (sp_Backend config)
                (mkAuthorizationContext (mkPrincipal "" "" "") (Some (authorized_selections byProfile))))
          end
      | _, _ => None
      end
  end.

(** The policies of one schedule, after the tokens of the schedules before. *)
Fixpoint compile_producers (fs : FileSystem) (producers : list scheduleProducerConfig) (compiled : list schedulePolicy)
    (tokens : list (list Z)) : option (list schedulePolicy * list (list Z)) :=
  match producers with
  | [] => Some (compiled, tokens)
  | producer :: rest =>
      match compileSchedulePolicy fs producer with
      | None => None
      | Some policy =>
          if mem (po_identity policy) (map po_identity compiled) || bool_decide (po_tokenDigest policy ∈ tokens) then None
          else compile_producers fs rest (compiled ++ [policy])%list (po_tokenDigest policy :: tokens)
      end
  end.

Fixpoint compile_schedules (fs : FileSystem) (resolver : Resolver) (configs : list scheduleConfig)
    (schedules : gmap string schedule) (tokens : list (list Z)) : option (gmap string schedule) :=
  match configs with
  | [] => Some schedules
  | configured :: rest =>
      if negb (validRunID (sd_Name configured)) || (length (sd_Producers configured) =? 0)%nat
         || (32 <? length (sd_Producers configured))%nat then None
      else match schedules !! sd_Name configured with
      | Some _ => None
      | None =>
          match compile_producers fs (sd_Producers configured) [] tokens with
          | None => None
          | Some (policies, tokens') =>
              compile_schedules fs resolver rest
                (<[sd_Name configured := mkSchedule (sd_Name configured) policies resolver]> schedules) tokens'
          end
      end
  end.

(** ** Workstations *)

Fixpoint insert_workstation (w : workstationConfig) (l : list workstationConfig) : list workstationConfig :=
  match l with
  | [] => [w]
  | x :: l' => if str_lt (ws_Name w) (ws_Name x) then w :: l else x :: insert_workstation w l'
  end.

(** [sort.Slice] by name; equal names are refused below. *)
Definition sort_workstations (l : list workstationConfig) : list workstationConfig :=
  fold_left (fun acc w => insert_workstation w acc) l [].

Section Load.
Context `{SnapshotCodec}.

Definition encodeCanonicalResolved (value : ResolvedAgentRun) : option string :=
  match Marshal value with
  | Some encoded => if (MaxDocumentBytes <? len encoded)%Z then None else Some encoded
  | None => None
  end.

Definition workstation_input (resolver : Resolver) (configured : workstationConfig) : option CreateInput :=
  if negb (validRunID (ws_Name configured)) || (ws_Backend configured =? "") || (ws_Retention configured =? "") then None
  else
    let authorization := mkAuthorizationContext (ws_Principal configured)
      (Some [mkAuthorizedSelection (ws_Profile configured) (Some [ws_Workflow configured])]) in
    match Resolve resolver authorization (mkLocalRunRequest (ws_Name configured) (ws_Profile configured)
            (ws_Workflow configured) (ws_Retention configured) (ws_Backend configured) "" "") with
    | Err _ => None
    | Ok resolved =>
        if negb (fully_persistent resolved) || negb (bool_decide (rr_TTL resolved = zero_TTL)) then None
        else match encodeCanonicalResolved resolved with
        | None => None
        | Some encoded => Some (mkCreateInput (workstation_key (ws_Name configured)) "" encoded)
        end
    end.

Fixpoint workstation_inputs (resolver : Resolver) (seen : list string) (configs : list workstationConfig)
  : option (list CreateInput) :=
  match configs with
  | [] => Some []
  | configured :: rest =>
      if mem (ws_Name configured) seen then None
      else match workstation_input resolver configured, workstation_inputs resolver (ws_Name configured :: seen) rest with
      | Some input, Some inputs => Some (input :: inputs)
      | _, _ => None
      end
  end.

(** [LoadScheduler]; no path is no scheduler. *)
Definition LoadScheduler (nd : NativeDecoder) (fs : FileSystem) (path : string) (st : Store) : result error (option Scheduler) :=
  if path =? "" then Ok None
  else match loadNativeConfiguration nd fs path with
  | Err e => Err e
  | Ok (document, resolver) =>
      let workstations := nc_Workstations document in
      if (128 <? length workstations)%nat || (maxActiveRuns st <? Z.of_nat (length workstations))%Z
         || (64 <? length (nc_Schedules document))%nat then Err ErrInvalidRequest
      else match workstation_inputs resolver [] (sort_workstations workstations),
                 compile_schedules fs resolver (nc_Schedules document) ∅ [] with
      | Some inputs, Some schedules => Ok (Some (mkScheduler schedules inputs (nc_Reconciliation document)))
      | _, _ => Err ErrInvalidRequest
      end
  end.

(** [BootstrapWorkstations] *)
Definition BootstrapWorkstations (st : Store) (scheduler : option Scheduler) (now : time) : DB unit :=
  match scheduler with
  | None => ret tt
  | Some sc =>
      if (length (sc_workstations sc) =? 0)%nat && negb (wr_Prune (sc_reconciliation sc)) then ret tt
      else bind (ReconcileWorkstations st now (sc_workstations sc) (wr_Prune (sc_reconciliation sc))
                   (wr_ReplaceOnImmutableChange (sc_reconciliation sc)) (wr_DestructiveAcknowledged (sc_reconciliation sc)))
             (fun _ => ret tt)
  end.
End Load.
