(* ===== verification/HttpApi.v ===== *)
(** * The controller's HTTP API

    localcontroller/internal/controller/http.go, routes.go and the handlers of
    scheduling.go.  A handler takes a request and the table and returns the
    response with the table it leaves; the clock readings of its store call
    are [t0] and [now].  Headers of the response, logging and the encoding of
    bodies are not modelled: a body is the value that is encoded. *)
From stdpp Require Import base list strings gmap.
From Stdlib Require Import ZArith Lia Ascii.
From S2P Require Import Prelude GoStrings GoUrl GoJson GoHttp Sha256 Contract Validation Decode Resolver LocalRun LocalRoutes Sql StoreRow StoreOps StoreBatch Reconciler Scheduling SchedulerLoad.


Local Open Scope Z_scope.
Local Open Scope string_scope.

Definition MaxRequestBytes : Z := Z.shiftl 1088 10.

(** ** Responses *)

Inductive response_body : Type :=
| NoBody
| ErrorBody (reason : string)
| RunBody (run : Run)
| CreatedBody (created : bool) (run : Run)
| ListBody (page : ListResult)
| RouteBody (route : RouteRun)
| RouteListBody (routes : RouteList)
| AdmissionBody (scheduled : bool) (reason : string) (state : State) (agentRun : option string).

(** The triple a handler returns for the log, and the body. *)
Record Response := mkResponse { rs_Status : Z; rs_Reason : string; rs_RunID : string; rs_Body : response_body }.

Definition Handler : Type := table -> Response * table.

Definition respond (status : Z) (reason runID : string) (body : response_body) : Response := mkResponse status reason runID body.

Definition error_status (e : error) : Z * string :=
  match e with
  | ErrInvalidRequest => (400, "invalid-request")
  | ErrNotFound => (404, "not-found")
  | ErrGone => (410, "gone")
  | ErrConflict | ErrInvalidTransition | ErrOwnershipConflict => (409, "conflict")
  | ErrCapacityExceeded => (429, "capacity-exceeded")
  | ErrStoreUnavailable => (503, "unavailable")
  | _ => (500, "internal-error")
  end.

Definition writeError (e : error) (runID : string) : Response :=
  let '(status, reason) := error_status e in respond status reason runID (ErrorBody reason).
Definition writeMethod (runID : string) : Response := respond 405 "method-not-allowed" runID (ErrorBody "method-not-allowed").
Definition writeUnauthorized : Response := respond 401 "not-authorized" "" (ErrorBody "not-authorized").

(** A response that leaves the table alone. *)
Definition answer (r : Response) : Handler := fun t => (r, t).

(** A store call and what becomes of its result. *)
Definition on_store {A} (m : DB A) (ok : A -> Response) (err : error -> Response) : Handler :=
  fun t => match m t with
           | (Ok a, t') => (ok a, t')
           | (Err e, t') => (err e, t')
           end.

(** ** Request documents *)

(** [scanJSONValue]: at most 66 levels, no repeated key. *)
Fixpoint scanJSONValue (depth : Z) (v : json) : bool :=
  (depth <=? 66)%Z &&
  match v with
  | JObject members =>
      (fix unique (seen : list string) (ms : list (string * json)) : bool :=
         match ms with
         | [] => true
         | (k, x) :: ms' => negb (mem k seen) && scanJSONValue (depth + 1) x && unique (k :: seen) ms'
         end) [] members
  | JArray l => forallb (scanJSONValue (depth + 1)) l
  | _ => true
  end.

Definition rejectDuplicateJSONKeys (data : string) : bool :=
  match json_document data with Some v => scanJSONValue 0 v | None => false end.

(** [decodeRequest]: [decode] is the mapping into the destination. *)
Definition decodeRequest {T} (request : Request) (decode : string -> option T) : option T :=
  if negb (bool_decide (ParseMediaType (rq_ContentType request) = Some "application/json")) then None
  else match read_limited (rq_Body request) MaxRequestBytes with
  | None => None
  | Some data =>
      if (len data =? 0)%Z || (MaxRequestBytes <? len data)%Z || negb (ValidString data)
         || negb (rejectDuplicateJSONKeys data) then None
      else decode data
  end.

Definition emptyBody (request : Request) : bool :=
  match read_limited (rq_Body request) MaxRequestBytes with
  | None => false
  | Some data => (len data <=? MaxRequestBytes)%Z && (TrimSpace data =? "")
  end.

Record createRequest := mkCreateRequest { cq_APIVersion : string; cq_IdempotencyKey : string; cq_ResolvedRun : string }.

(** A field that ignores the text of its value, and one that keeps only it. *)
Definition of_value {T} (f : json -> T -> option T) (v : json * string) (x : T) : option T := f (fst v) x.

Definition create_fields : list (field (json * string) createRequest) :=
  [("api_version", of_value (into_string (fun s x => mkCreateRequest s (cq_IdempotencyKey x) (cq_ResolvedRun x))));
   ("idempotency_key", of_value (into_string (fun s x => mkCreateRequest (cq_APIVersion x) s (cq_ResolvedRun x))));
   ("resolved_run", fun v x => Some (mkCreateRequest (cq_APIVersion x) (cq_IdempotencyKey x) (snd v)))].

Definition decode_create (data : string) : option createRequest :=
  let zero := mkCreateRequest "" "" "" in
  match json_document data with
  | Some JNull => Some zero
  | Some (JObject _) => raw_object data ≫= (fun ms => decode_members create_fields ms zero)
  | _ => None
  end.

Record claimRequest := mkClaimRequest { lq_APIVersion : string; lq_Owner : string; lq_ExpectedRevision : Z; lq_LeaseSeconds : Z }.

Definition claim_fields : list (field json claimRequest) :=
  [("api_version", into_string (fun s x => mkClaimRequest s (lq_Owner x) (lq_ExpectedRevision x) (lq_LeaseSeconds x)));
   ("owner", into_string (fun s x => mkClaimRequest (lq_APIVersion x) s (lq_ExpectedRevision x) (lq_LeaseSeconds x)));
   ("expected_revision", into_int64 (fun n x => mkClaimRequest (lq_APIVersion x) (lq_Owner x) n (lq_LeaseSeconds x)));
   ("lease_seconds", into_int64 (fun n x => mkClaimRequest (lq_APIVersion x) (lq_Owner x) (lq_ExpectedRevision x) n))].

Definition decode_claim (data : string) : option claimRequest :=
  json_document data ≫= decode_struct claim_fields (mkClaimRequest "" "" 0 0).

Record statusRequest := mkStatusRequest {
  sq_APIVersion : string;
  sq_Owner : string;
  sq_ExpectedRevision : Z;
  sq_State : State;
  sq_TerminalTarget : State;
  sq_Reason : string
}.

Definition status_fields : list (field json statusRequest) :=
  [("api_version", into_string (fun s x =>
      mkStatusRequest s (sq_Owner x) (sq_ExpectedRevision x) (sq_State x) (sq_TerminalTarget x) (sq_Reason x)));
   ("owner", into_string (fun s x =>
      mkStatusRequest (sq_APIVersion x) s (sq_ExpectedRevision x) (sq_State x) (sq_TerminalTarget x) (sq_Reason x)));
   ("expected_revision", into_int64 (fun n x =>
      mkStatusRequest (sq_APIVersion x) (sq_Owner x) n (sq_State x) (sq_TerminalTarget x) (sq_Reason x)));
   ("state", into_string (fun s x =>
      mkStatusRequest (sq_APIVersion x) (sq_Owner x) (sq_ExpectedRevision x) s (sq_TerminalTarget x) (sq_Reason x)));
   ("terminal_target", into_string (fun s x =>
      mkStatusRequest (sq_APIVersion x) (sq_Owner x) (sq_ExpectedRevision x) (sq_State x) s (sq_Reason x)));
   ("reason", into_string (fun s x =>
      mkStatusRequest (sq_APIVersion x) (sq_Owner x) (sq_ExpectedRevision x) (sq_State x) (sq_TerminalTarget x) s))].

Definition decode_status (data : string) : option statusRequest :=
  json_document data ≫= decode_struct status_fields (mkStatusRequest "" "" 0 "" "" "").

Definition principal_fields : list (field json scheduleAdmissionPrincipal) :=
  [("issuer", into_string (fun s x => mkAdmissionPrincipal s (ap_Subject x) (ap_DisplayName x)));
   ("subject", into_string (fun s x => mkAdmissionPrincipal (ap_Issuer x) s (ap_DisplayName x)));
   ("displayName", into_string (fun s x => mkAdmissionPrincipal (ap_Issuer x) (ap_Subject x) s))].

Definition work_fields : list (field json scheduleAdmissionWork) :=
  [("id", into_string (fun s x => mkAdmissionWork s (aw_Group x) (aw_Title x) (aw_URL x) (aw_Repository x) (aw_Principal x)));
   ("group", into_string (fun s x => mkAdmissionWork (aw_ID x) s (aw_Title x) (aw_URL x) (aw_Repository x) (aw_Principal x)));
   ("title", into_string (fun s x => mkAdmissionWork (aw_ID x) (aw_Group x) s (aw_URL x) (aw_Repository x) (aw_Principal x)));
   ("url", into_string (fun s x => mkAdmissionWork (aw_ID x) (aw_Group x) (aw_Title x) s (aw_Repository x) (aw_Principal x)));
   ("repository", into_string (fun s x => mkAdmissionWork (aw_ID x) (aw_Group x) (aw_Title x) (aw_URL x) s (aw_Principal x)));
   ("principal", into_struct principal_fields aw_Principal (fun p x =>
      mkAdmissionWork (aw_ID x) (aw_Group x) (aw_Title x) (aw_URL x) (aw_Repository x) p))].

(** The prompt is the only field of the request's [input]. *)
Definition input_fields : list (field json string) := [("prompt", into_string (fun s _ => s))].

Definition admission_fields : list (field json scheduleAdmissionRequest) :=
  [("workflow", into_string (fun s x => mkAdmissionRequest s (ar_Work x) (ar_Prompt x)));
   ("work", into_struct work_fields ar_Work (fun w x => mkAdmissionRequest (ar_Workflow x) w (ar_Prompt x)));
   ("input", into_struct input_fields ar_Prompt (fun p x => mkAdmissionRequest (ar_Workflow x) (ar_Work x) p))].

Definition decode_admission (data : string) : option scheduleAdmissionRequest :=
  json_document data ≫= decode_struct admission_fields
    (mkAdmissionRequest "" (mkAdmissionWork "" "" "" "" "" (mkAdmissionPrincipal "" "" "")) "").

(** ** The server *)

Record BackendRoutes := mkBackendRoutes { bt_Session : Endpoint; bt_Exposures : list Exposure }.

(** [Routes] of the backend; [None] is its error. *)
Definition RouteProvider : Type := BackendRun -> option BackendRoutes.

(** [hs_ready] is what [store.Ready] and [hs_backendReady] what the backend's
    probe answers. *)
Record HTTPServer := mkServer {
  hs_store : Store;
  hs_ready : bool;
  hs_backendReady : option bool;
  hs_routeProvider : option RouteProvider;
  hs_scheduler : option Scheduler;
  hs_authorization : option APIAuthorization
}.

Section Handlers.
Context `{SnapshotCodec} (server : HTTPServer) (t0 now : time).

Definition create (request : Request) : Handler :=
  match decodeRequest request decode_create with
  | Some input =>
      if negb (cq_APIVersion input =? APIVersion) then answer (writeError ErrInvalidRequest "")
      else on_store (Create (hs_store server) t0 now (mkCreateInput (cq_IdempotencyKey input) "" (cq_ResolvedRun input)))
             (fun res => respond (if cr_Created res then 201 else 200) "ok" (v_RunID (cr_Run res))
                           (CreatedBody (cr_Created res) (cr_Run res)))
             (fun e => writeError e "")
  | None => answer (writeError ErrInvalidRequest "")
  end.

Definition http_get (runID : string) : Handler :=
  on_store (Get t0 runID) (fun run => respond 200 "ok" runID (RunBody run)) (fun e => writeError e runID).

(** The query of a listing: the limit and the cursor, or an error. *)
Definition page_query (rawQuery : string) (fallback : Z) : option (Z * string) :=
  match ParseQuery rawQuery with
  | None => None
  | Some query =>
      if forallb (fun key => ((key =? "limit") || (key =? "after")) && (length (query_values query key) =? 1)%nat) (query_keys query)
      then
        let raw := query_Get query "limit" in
        if raw =? "" then Some (fallback, query_Get query "after")
        else match Atoi raw with Some limit => Some (limit, query_Get query "after") | None => None end
      else None
  end.

(** A listing whose fuel ran out does not exist ([list_terminates]). *)
Definition http_list (request : Request) : Handler :=
  match page_query (RawQuery (rq_URL request)) 100 with
  | None => answer (writeError ErrInvalidRequest "")
  | Some (limit, after) =>
      on_store (List_ t0 limit after)
        (fun page => match page with
                     | Some result => respond 200 "ok" "" (ListBody result)
                     | None => writeError ErrStoreUnavailable ""
                     end)
        (fun e => writeError e "")
  end.

Definition http_cancel (request : Request) (runID : string) : Handler :=
  if negb (emptyBody request) then answer (writeError ErrInvalidRequest runID)
  else on_store (Cancel t0 now runID) (fun run => respond 200 "ok" runID (RunBody run)) (fun e => writeError e runID).

Definition http_delete (request : Request) (runID : string) : Handler :=
  if negb (emptyBody request) then answer (writeError ErrInvalidRequest runID)
  else on_store (Delete t0 now runID)
         (fun '(run, deleted) =>
            if deleted : bool then respond 204 "ok" runID NoBody else respond 202 "ok" runID (RunBody run))
         (fun e => writeError e runID).

(** [time.Duration(input.LeaseSeconds) * time.Second] *)
Definition http_claim (request : Request) (runID : string) : Handler :=
  match decodeRequest request decode_claim with
  | Some input =>
      if negb (lq_APIVersion input =? APIVersion) then answer (writeError ErrInvalidRequest runID)
      else on_store (Claim (hs_store server) t0 now
                       (mkClaimInput runID (lq_Owner input) (lq_ExpectedRevision input) (wrap64 (lq_LeaseSeconds input * Second))))
             (fun run => respond 200 "ok" runID (RunBody run)) (fun e => writeError e runID)
  | None => answer (writeError ErrInvalidRequest runID)
  end.

Definition http_status (request : Request) (runID : string) : Handler :=
  match decodeRequest request decode_status with
  | Some input =>
      if negb (sq_APIVersion input =? APIVersion) then answer (writeError ErrInvalidRequest runID)
      else on_store (UpdateStatus t0 now
                       (mkStatusInput runID (sq_Owner input) (sq_ExpectedRevision input) (sq_State input)
                          (sq_TerminalTarget input) (sq_Reason input) None))
             (fun run => respond 200 "ok" runID (RunBody run)) (fun e => writeError e runID)
  | None => answer (writeError ErrInvalidRequest runID)
  end.

(** ** Routes *)

Definition route_of (run : Run) (resolved : ResolvedAgentRun) (routes : BackendRoutes) : RouteRun :=
  mkRouteRun RoutesAPIVersion (v_RunID run) (v_State run) (v_State run =? StateRunning)
    (mkRoutePrincipal (p_Issuer (rr_Principal resolved)) (p_Subject (rr_Principal resolved)) (p_DisplayName (rr_Principal resolved)))
    (rr_SourceURL resolved) (rr_Profile resolved) (rr_Workflow resolved) (v_CreatedAt run) (bt_Session routes)
    (bt_Exposures routes).

Definition routeForRun (run : Run) : DB RouteRun :=
  match hs_routeProvider server with
  | None => fail ErrNotFound
  | Some provider =>
      if State_terminal (v_State run) then fail ErrNotFound
      else
        bind (ResolvedSnapshot (v_RunID run)) (fun '(snapshot, digest) =>
        match DecodeResolvedAgentRun snapshot with
        | None => fail ErrStoreUnavailable
        | Some resolved =>
            match provider (mkBackendRun resolved None digest "" false false "") with
            | None => fail ErrStoreUnavailable
            | Some routes =>
                let result := route_of run resolved routes in
                if is_nil (ValidateRun result) then ret result else fail ErrStoreUnavailable
            end
        end)
  end.

Fixpoint routes_for_runs (runs : list Run) : DB (list RouteRun) :=
  match runs with
  | [] => ret []
  | run :: rest =>
      bind (routeForRun run) (fun route => bind (routes_for_runs rest) (fun routes => ret (route :: routes)))
  end.

Definition routeList (limit : Z) (after : string) : DB RouteList :=
  match hs_routeProvider server with
  | None => fail ErrNotFound
  | Some _ =>
      if (limit <? 1)%Z || (MaxRunsPerPage <? limit)%Z then fail ErrInvalidRequest
      else
        bind (listActive t0 limit after) (fun page =>
        match page with
        | None => fail ErrStoreUnavailable
        | Some runs =>
            bind (routes_for_runs (lr_Runs runs)) (fun routes =>
            let result := mkRouteList RoutesAPIVersion (Some routes) (lr_NextAfter runs) in
            if is_nil (ValidateList result) then ret result else fail ErrStoreUnavailable)
        end)
  end.

Definition listRoutes (request : Request) : Handler :=
  match page_query (RawQuery (rq_URL request)) MaxRunsPerPage with
  | None => answer (writeError ErrInvalidRequest "")
  | Some (limit, after) =>
      on_store (routeList limit after) (fun routes => respond 200 "ok" "" (RouteListBody routes)) (fun e => writeError e "")
  end.

Definition getRoute (runID : string) : Handler :=
  on_store (bind (Get t0 runID) routeForRun) (fun route => respond 200 "ok" runID (RouteBody route)) (fun e => writeError e runID).

(** ** Scheduled work *)

Definition admission_reply (status : Z) (reason : string) (runID : string) : Response :=
  respond status reason runID (AdmissionBody false reason "" None).

(** The status and reason of a failed resolution. *)
Definition resolve_refusal (e : resolver_error) : Z * string :=
  match e with
  | ErrSelectionDenied | ErrUnknownProfile | ErrUnknownWorkflow => (403, "profile-selection-denied")
  | _ => (400, "invalid-execution-profile-configuration")
  end.

Definition create_refusal (e : error) : Z * string :=
  match e with
  | ErrActiveGroup => (202, "duplicate-work")
  | ErrCapacityExceeded => (429, "max-parallelism-reached")
  | ErrConflict | ErrGone => (409, "work-conflict")
  | _ => (503, "scheduling-unavailable")
  end.

(** What an admission asks of the store: the input of [Create] and the run's
    identifier, or the refusal. *)
Definition admission_input (configured : schedule) (policy : schedulePolicy) (request : Request)
  : result (Z * string) (CreateInput * string) :=
  match decodeRequest request decode_admission with
  | None => Err (400, "invalid-request")
  | Some input =>
      let work := ar_Work input in
      if negb (validScheduleWork work) || (MaxPromptBytes <? len (ar_Prompt input))%Z
         || negb (ValidString (ar_Prompt input)) || has_nul (ar_Prompt input) then Err (400, "invalid-request")
      else if negb (bool_decide (ap_Issuer (aw_Principal work) ∈ po_allowedIssuers policy))
      then Err (403, "principal-not-eligible")
      else
        let workflow := if ar_Workflow input =? "" then po_defaultWorkflow policy else ar_Workflow input in
        match po_selections policy !! workflow with
        | None => Err (403, "workflow-selection-denied")
        | Some selection =>
            let principal := mkPrincipal (ap_Issuer (aw_Principal work)) (ap_Subject (aw_Principal work))
                               (ap_DisplayName (aw_Principal work)) in
            let authorization := mkAuthorizationContext principal (ac_Selections (po_authorization policy)) in
            let '(key, runID) := localWorkIdentity (sch_name configured) (po_identity policy) (aw_ID work) in
            match Resolve (sch_resolver configured) authorization
                    (mkLocalRunRequest runID (ss_Profile selection) (ss_Workflow selection) (po_retention policy)
                       (po_backend policy) (ar_Prompt input) (aw_URL work)) with
            | Err e => Err (resolve_refusal e)
            | Ok resolved =>
                match encodeCanonicalResolved resolved with
                | None => Err (503, "scheduling-unavailable")
                | Some encoded =>
                    let group := if aw_Group work =? "" then ""
                                 else fst (localWorkIdentity (sch_name configured) (po_identity policy) (aw_Group work)) in
                    Ok (mkCreateInput key group encoded, runID)
                end
            end
        end
  end.

Definition admit_work (configured : schedule) (policy : schedulePolicy) (request : Request) : Handler :=
  match admission_input configured policy request with
  | Err (status, reason) => answer (admission_reply status reason "")
  | Ok (input, runID) =>
      on_store (Create (hs_store server) t0 now input)
        (fun created =>
           let id := v_RunID (cr_Run created) in
           if cr_Created created
           then respond 201 "scheduled" id (AdmissionBody true "" (v_State (cr_Run created)) (Some id))
           else admission_reply 202 "duplicate-work" id)
        (fun e => let '(status, reason) := create_refusal e in admission_reply status reason runID)
  end.

Definition workStatus (configured : schedule) (policy : schedulePolicy) (workID : string) : Handler :=
  let runID := snd (localWorkIdentity (sch_name configured) (po_identity policy) workID) in
  on_store (Get t0 runID)
    (fun run => respond 200 "ok" runID (AdmissionBody (State_active (v_State run)) "" (v_State run) (Some (v_RunID run))))
    (fun e => writeError e runID).

Definition cancelWork (configured : schedule) (policy : schedulePolicy) (workID : string) : Handler :=
  let runID := snd (localWorkIdentity (sch_name configured) (po_identity policy) workID) in
  on_store (Cancel t0 now runID)
    (fun run => respond 202 "cancel-requested" runID (AdmissionBody false "" (v_State run) (Some (v_RunID run))))
    (fun e => writeError e runID).

(** [scheduler.serveHTTP] *)
Definition serve_schedule (scheduler : Scheduler) (request : Request) : Handler :=
  let url := rq_URL request in
  match Split (TrimPrefix (Path url) "/v1/schedules/") "/"%char with
  | name :: tail =>
      if (length tail <? 1)%nat || negb (validRunID name) then answer (writeError ErrNotFound "")
      else match sc_schedules scheduler !! name with
      | None => answer (writeError ErrNotFound "")
      | Some configured =>
          match authenticateScheduleProducer (rq_Authorization request) configured with
          | None => answer (admission_reply 401 "producer-not-authorized" "")
          | Some policy =>
              let method := rq_Method request in
              if bool_decide (tail = ["admissions"]) then
                if negb (method =? "POST") || negb (RawQuery url =? "") then answer (writeMethod "")
                else admit_work configured policy request
              else if bool_decide (tail = ["work"]) then
                match scheduleWorkQuery (RawQuery url) with
                | Some workID => if method =? "GET" then workStatus configured policy workID else answer (writeMethod "")
                | None => answer (writeMethod "")
                end
              else if bool_decide (tail = ["work"; "cancel"]) then
                match scheduleWorkQuery (RawQuery url) with
                | Some workID =>
                    if (method =? "POST") && emptyBody request then cancelWork configured policy workID
                    else answer (writeMethod "")
                | None => answer (writeMethod "")
                end
              else answer (writeError ErrNotFound "")
          end
      end
  | [] => answer (writeError ErrNotFound "")
  end.

(** ** Dispatch *)

Definition run_routes (request : Request) : Handler :=
  let method := rq_Method request in
  match Split (TrimPrefix (Path (rq_URL request)) "/v1/runs/") "/"%char with
  | runID :: tail =>
      if (1 <? length tail)%nat || negb (validRunID runID) then answer (writeError ErrNotFound "")
      else match tail with
      | [] =>
          if method =? "GET" then http_get runID
          else if method =? "DELETE" then http_delete request runID
          else answer (writeMethod runID)
      | action :: _ =>
          if action =? "cancel" then
            if method =? "POST" then http_cancel request runID else answer (writeMethod runID)
          else if action =? "claim" then
            if method =? "POST" then http_claim request runID else answer (writeMethod runID)
          else if action =? "status" then
            if method =? "PUT" then http_status request runID else answer (writeMethod runID)
          else answer (writeError ErrNotFound runID)
      end
  | [] => answer (writeError ErrNotFound "")
  end.

(** [HTTPServer.route] *)
Definition route (request : Request) : Handler :=
  let url := rq_URL request in
  let path := Path url in
  let method := rq_Method request in
  if negb (EscapedPath url =? path) then answer (writeError ErrNotFound "")
  else if negb (permits (hs_authorization server) (rq_Authorization request) (apiAudienceForPath path)) then answer writeUnauthorized
  else if negb (RawQuery url =? "") && negb (path =? "/v1/runs") && negb (path =? "/v1/routes") && negb (HasPrefix path "/v1/schedules/")
  then answer (writeError ErrInvalidRequest "")
  else if path =? "/healthz" then
    if negb (method =? "GET") then answer (writeMethod "") else answer (respond 200 "ok" "" NoBody)
  else if path =? "/readyz" then
    if negb (method =? "GET") then answer (writeMethod "")
    else if negb (hs_ready server) || match hs_backendReady server with Some ready => negb ready | None => false end
    then answer (writeError ErrStoreUnavailable "")
    else answer (respond 200 "ok" "" NoBody)
  else if path =? "/v1/runs" then
    if method =? "POST" then create request
    else if method =? "GET" then http_list request
    else answer (writeMethod "")
  else if path =? "/v1/routes" then
    if negb (method =? "GET") then answer (writeMethod "") else listRoutes request
  else if HasPrefix path "/v1/routes/" then
    if negb (method =? "GET") || negb (RawQuery url =? "") then answer (writeMethod "")
    else
      let runID := TrimPrefix path "/v1/routes/" in
      if negb (validRunID runID) || Contains runID "/" then answer (writeError ErrNotFound "") else getRoute runID
  else match HasPrefix path "/v1/schedules/", hs_scheduler server with
  | true, Some scheduler => serve_schedule scheduler request
  | _, _ => if negb (HasPrefix path "/v1/runs/") then answer (writeError ErrNotFound "") else run_routes request
  end.
End Handlers.

Definition routeClass (path : string) : string :=
  if path =? "/healthz" then "health"
  else if path =? "/readyz" then "ready"
  else if path =? "/v1/runs" then "runs"
  else if path =? "/v1/routes" then "routes"
  else if HasPrefix path "/v1/routes/" then "route"
  else if HasPrefix path "/v1/schedules/" then "schedule"
  else if HasSuffix path "/cancel" then "run-cancel"
  else if HasSuffix path "/claim" then "run-claim"
  else if HasSuffix path "/status" then "run-status"
  else if HasPrefix path "/v1/runs/" then "run"
  else "unknown".
