(* ===== verification/ApiProps.v ===== *)
(** * What the controller's API guarantees

    Every request leaves the table as one operation of the store would, and
    which operation depends on the token it carries; the tokens of the three
    audiences are apart; and what an admission creates. *)
From stdpp Require Import base list strings gmap.
From Stdlib Require Import ZArith Lia Ascii Sorted.
From S2P Require Import Prelude GoStrings GoUrl GoJson GoJsonPrint GoHttp Sha256 Contract Validation Decode Resolver ResolvedLemmas EgressProps LocalRun LocalRoutes Sql StoreRow StoreOps StoreBatch Fixture ResolvedProps StoreValid StoreSteps StoreViews StoreSystem Reconciler Scheduling SchedulerLoad HttpApi.


Local Open Scope Z_scope.
Local Open Scope string_scope.

#[local] Opaque localWorkIdentity sha256_hex Sum256.

(** ** The effect of a request *)

Section Effect.
Context {C : SnapshotCodec}.

(** The operations a producer's policy gives access to: creating, reading and
    cancelling the run of one piece of its own work. *)
Inductive own_work (configured : schedule) (policy : schedulePolicy) (t0 now : time) : operation -> Prop :=
| ow_create workID input :
    validWorkID workID = true ->
    ci_IdempotencyKey input = fst (localWorkIdentity (sch_name configured) (po_identity policy) workID) ->
    own_work configured policy t0 now (OpCreate t0 now input)
| ow_get workID :
    validWorkID workID = true ->
    own_work configured policy t0 now (OpGet t0 (snd (localWorkIdentity (sch_name configured) (po_identity policy) workID)))
| ow_cancel workID :
    validWorkID workID = true ->
    own_work configured policy t0 now (OpCancel t0 now (snd (localWorkIdentity (sch_name configured) (po_identity policy) workID))).

(** What a token entitles to: the administrator's to the run operations, the
    gateway's to reading, a producer's to its own work. *)
Inductive entitled (server : HTTPServer) (headers : list string) (t0 now : time) : operation -> Prop :=
| en_admin op :
    permits (hs_authorization server) headers apiAudienceAdmin = true ->
    match op with
    | OpCreate _ _ _ | OpGet _ _ | OpList _ _ _ _ | OpClaim _ _ _ | OpUpdateStatus _ _ _ | OpCancel _ _ _ | OpDelete _ _ _ => True
    | _ => False
    end ->
    entitled server headers t0 now op
| en_routes op :
    permits (hs_authorization server) headers apiAudienceRoutes = true ->
    match op with OpGet _ _ | OpList _ _ _ true => True | _ => False end ->
    entitled server headers t0 now op
| en_producer scheduler name configured policy op :
    hs_scheduler server = Some scheduler -> sc_schedules scheduler !! name = Some configured ->
    authenticateScheduleProducer headers configured = Some policy ->
    own_work configured policy t0 now op ->
    entitled server headers t0 now op.

(** A handler either leaves the table alone or acts as an entitled operation. *)
Definition acts (server : HTTPServer) (headers : list string) (t0 now : time) (h : Handler) : Prop :=
  forall t, snd (h t) = t \/
    exists op, entitled server headers t0 now op /\ snd (h t) = exec_op (hs_store server) op t.

Lemma acts_answer server headers t0 now r : acts server headers t0 now (answer r).
Proof. intros t. by left. Qed.

Lemma acts_store {A} server headers t0 now (m : DB A) ok err op :
  entitled server headers t0 now op -> (forall t, snd (m t) = exec_op (hs_store server) op t) ->
  acts server headers t0 now (on_store m ok err).
Proof. intros He Hm t. right. exists op. split; [done|]. rewrite <- Hm. unfold on_store. by destruct (m t) as [[a|e] t']. Qed.

Lemma acts_if server headers t0 now (b : bool) h1 h2 :
  acts server headers t0 now h1 -> acts server headers t0 now h2 -> acts server headers t0 now (if b then h1 else h2).
Proof. by destruct b. Qed.

Ltac branches :=
  repeat match goal with
  | |- acts _ _ _ _ (if _ then _ else _) => apply acts_if
  | |- acts _ _ _ _ (answer _) => apply acts_answer
  end.

(** A computation that does not touch the table. *)
Ltac reads := solve [apply preserves_fail; apply _ | apply preserves_ret; apply _ | apply preserves_guard; apply _].

(** Reading a snapshot and rendering its route leave the table alone. *)
Lemma loadForUpdate_reads id : preserves eq (loadForUpdate id).
Proof.
  intros t. destruct (loadForUpdate id t) as [[s|e] t'] eqn:E; cbn; symmetry; [by apply loadForUpdate_ok in E as [-> _]|].
  by apply loadForUpdate_err in E.
Qed.

Lemma routeForRun_reads server run : preserves eq (routeForRun server run).
Proof.
  unfold routeForRun. destruct (hs_routeProvider server); [|reads].
  destruct (State_terminal _); [reads|]. apply preserves_bind; [apply _| |].
  - unfold ResolvedSnapshot. apply preserves_bind; [apply _|reads|]. intros _.
    apply preserves_bind; [apply _|apply loadForUpdate_reads|]. intros s. reads.
  - intros [snapshot digest]. repeat break_match; reads.
Qed.

Lemma routes_for_runs_reads server runs : preserves eq (routes_for_runs server runs).
Proof.
  induction runs as [|run runs IH]; [reads|]. cbn [routes_for_runs].
  apply preserves_bind; [apply _|apply routeForRun_reads|]. intros route.
  apply preserves_bind; [apply _|exact IH|]. intros routes. reads.
Qed.

(** A computation followed by reads. *)
Lemma bind_reads {A B} (m : DB A) (k : A -> DB B) t :
  (forall a, preserves eq (k a)) -> snd (bind m k t) = snd (m t).
Proof. intros Hk. unfold bind. destruct (m t) as [[a|e] t']; [|done]. cbn. symmetry. apply Hk. Qed.

Lemma routeList_effect server t0 limit after t :
  snd (routeList server t0 limit after t) = t \/
  snd (routeList server t0 limit after t) = exec_op (hs_store server) (OpList t0 limit after true) t.
Proof.
  unfold routeList. destruct (hs_routeProvider server); [|by left]. destruct (_ || _); [by left|]. right.
  rewrite bind_reads; [done|]. intros [page|]; [|reads].
  apply preserves_bind; [apply _|apply routes_for_runs_reads|]. intros routes.
  destruct (is_nil _); reads.
Qed.

(** ** Handlers *)

Section Handlers.
Context (server : HTTPServer) (t0 now : time) (request : Request).

Abbreviation headers := (rq_Authorization request).
Abbreviation acts_here := (acts server headers t0 now).

Lemma run_routes_act :
  permits (hs_authorization server) headers apiAudienceAdmin = true -> acts_here (run_routes server t0 now request).
Proof.
  intros Hp. unfold run_routes.
  assert (Hs : forall A (m : DB A) ok err op, (forall t, snd (m t) = exec_op (hs_store server) op t) ->
    match op with
    | OpCreate _ _ _ | OpGet _ _ | OpList _ _ _ _ | OpClaim _ _ _ | OpUpdateStatus _ _ _ | OpCancel _ _ _ | OpDelete _ _ _ => True
    | _ => False
    end -> acts_here (on_store m ok err)).
  { intros A m ok err op Hm Hop. eapply acts_store; [|exact Hm]. by apply en_admin. }
  destruct (Split _ _) as [|runID tail]; [apply acts_answer|]. branches.
  destruct tail as [|action tail].
  - branches.
    + by apply (Hs _ _ _ _ (OpGet t0 runID)).
    + unfold http_delete. branches. by apply (Hs _ _ _ _ (OpDelete t0 now runID)).
  - branches.
    + unfold http_cancel. branches. by apply (Hs _ _ _ _ (OpCancel t0 now runID)).
    + unfold http_claim. destruct (decodeRequest _ _) as [input|]; [|apply acts_answer]. branches.
      by eapply (Hs _ _ _ _ (OpClaim t0 now _)).
    + unfold http_status. destruct (decodeRequest _ _) as [input|]; [|apply acts_answer]. branches.
      by eapply (Hs _ _ _ _ (OpUpdateStatus t0 now _)).
Qed.

Lemma create_acts :
  permits (hs_authorization server) headers apiAudienceAdmin = true -> acts_here (create server t0 now request).
Proof.
  intros Hp. unfold create. destruct (decodeRequest _ _) as [input|]; [|apply acts_answer]. branches.
  eapply acts_store with (op := OpCreate t0 now _); [|reflexivity]. by apply en_admin.
Qed.

Lemma list_acts :
  permits (hs_authorization server) headers apiAudienceAdmin = true -> acts_here (http_list t0 request).
Proof.
  intros Hp. unfold http_list. destruct (page_query _ _) as [[limit after]|]; [|apply acts_answer].
  eapply acts_store with (op := OpList t0 limit after false); [|reflexivity]. by apply en_admin.
Qed.

Lemma listRoutes_acts :
  permits (hs_authorization server) headers apiAudienceRoutes = true -> acts_here (listRoutes server t0 request).
Proof.
  intros Hp. unfold listRoutes. destruct (page_query _ _) as [[limit after]|]; [|apply acts_answer].
  intros t. assert (E : forall ok err, snd (on_store (routeList server t0 limit after) ok err t) = snd (routeList server t0 limit after t)).
  { intros ok err. unfold on_store. by destruct (routeList server t0 limit after t) as [[a|e] t']. }
  rewrite E. destruct (routeList_effect server t0 limit after t) as [->| ->]; [by left|right].
  exists (OpList t0 limit after true). split; [by apply en_routes|done].
Qed.

Lemma getRoute_acts runID :
  permits (hs_authorization server) headers apiAudienceRoutes = true -> acts_here (getRoute server t0 runID).
Proof.
  intros Hp. unfold getRoute. eapply acts_store with (op := OpGet t0 runID); [by apply en_routes|].
  intros t. rewrite bind_reads; [done|]. intros run. apply routeForRun_reads.
Qed.

Lemma admission_own_work configured policy input runID :
  admission_input configured policy request = Ok (input, runID) ->
  exists workID, validWorkID workID = true /\
    (ci_IdempotencyKey input, runID) = localWorkIdentity (sch_name configured) (po_identity policy) workID.
Proof.
  unfold admission_input. destruct (decodeRequest _ _) as [req|]; [|done]. destruct (_ || _) eqn:E; [done|].
  destruct (negb (bool_decide _)); [done|]. destruct (po_selections policy !! _) as [selection|]; [|done].
  destruct (localWorkIdentity _ _ (aw_ID _)) as [key id] eqn:Ei. destruct (Resolve _ _ _) as [resolved|]; [|done].
  destruct (encodeCanonicalResolved _) as [encoded|]; [|done]. intros [= <- <-]. exists (aw_ID (ar_Work req)). split; [|by rewrite Ei].
  rewrite !orb_false_iff in E. destruct E as [[[E _] _] _]. apply negb_false_iff in E. unfold validScheduleWork in E.
  rewrite !andb_true_iff in E. tauto.
Qed.

Lemma scheduleWorkQuery_valid q workID : scheduleWorkQuery q = Some workID -> validWorkID workID = true.
Proof.
  unfold scheduleWorkQuery. destruct (ParseQuery q) as [query|]; [|done]. destruct (negb _); [done|].
  destruct (query_values query "work_id") as [|v [|w l]]; [done| |done]. destruct (validWorkID v) eqn:E; [|done].
  by intros [= <-].
Qed.

Lemma serve_schedule_acts scheduler :
  hs_scheduler server = Some scheduler -> acts_here (serve_schedule server t0 now scheduler request).
Proof.
  intros Hs. unfold serve_schedule. destruct (Split _ _) as [|name tail]; branches.
  destruct (sc_schedules scheduler !! name) as [configured|] eqn:En; branches.
  destruct (authenticateScheduleProducer _ _) as [policy|] eqn:Ea; branches.
  - unfold admit_work. destruct (admission_input _ _ _) as [[input runID]|[status reason]] eqn:Ei; branches.
    destruct (admission_own_work _ _ _ _ Ei) as (workID & Hw & Hid).
    eapply acts_store with (op := OpCreate t0 now input); [|reflexivity].
    eapply en_producer; [exact Hs|exact En|exact Ea|]. apply (ow_create _ _ _ _ workID); [done|]. by rewrite <- Hid.
  - destruct (scheduleWorkQuery _) as [workID|] eqn:Eq; branches. apply scheduleWorkQuery_valid in Eq.
    eapply acts_store with (op := OpGet t0 _); [|reflexivity]. eapply en_producer; [exact Hs|exact En|exact Ea|]. by constructor.
  - destruct (scheduleWorkQuery _) as [workID|] eqn:Eq; branches. apply scheduleWorkQuery_valid in Eq.
    eapply acts_store with (op := OpCancel t0 now _); [|reflexivity]. eapply en_producer; [exact Hs|exact En|exact Ea|]. by constructor.
Qed.

Lemma audience_runs path : HasPrefix path "/v1/runs/" = true -> apiAudienceForPath path = apiAudienceAdmin.
Proof. intros H. apply HasPrefix_iff in H as [r ->]. by destruct r. Qed.

Lemma audience_routes path : HasPrefix path "/v1/routes/" = true -> apiAudienceForPath path = apiAudienceRoutes.
Proof. intros H. unfold apiAudienceForPath. by rewrite H, orb_true_r. Qed.

Lemma route_acts : acts_here (route server t0 now request).
Proof.
  unfold route. cbv zeta. set (path := Path (rq_URL request)).
  match goal with |- acts _ _ _ _ (if ?b then _ else _) => destruct b end; [apply acts_answer|].
  destruct (permits _ _ _) eqn:Hp; [|apply acts_answer]. cbn [negb].
  match goal with |- acts _ _ _ _ (if ?b then _ else _) => destruct b end; [apply acts_answer|].
  destruct (path =? "/healthz"); [branches|].
  destruct (path =? "/readyz"); [branches|].
  destruct (String.eqb_spec path "/v1/runs") as [E|_].
  { rewrite E in Hp. branches; [by apply create_acts|by apply list_acts]. }
  destruct (String.eqb_spec path "/v1/routes") as [E|_].
  { rewrite E in Hp. branches. by apply listRoutes_acts. }
  destruct (HasPrefix path "/v1/routes/") eqn:Er.
  { rewrite (audience_routes _ Er) in Hp. branches. by apply getRoute_acts. }
  assert (Hrun : acts_here (if negb (HasPrefix path "/v1/runs/") then answer (writeError ErrNotFound "")
    else run_routes server t0 now request)).
  { destruct (HasPrefix path "/v1/runs/") eqn:Eu; cbn [negb]; [|apply acts_answer].
    rewrite (audience_runs _ Eu) in Hp. by apply run_routes_act. }
  destruct (HasPrefix path "/v1/schedules/"); [|exact Hrun].
  destruct (hs_scheduler server) as [scheduler|] eqn:Es; [|exact Hrun]. by apply serve_schedule_acts.
Qed.
End Handlers.
End Effect.

(** ** Tokens *)

(** The digest of the token a request carries. *)
Definition bearer_digest (headers : list string) : option (list Z) :=
  match headers with
  | [header] => Some (Sum256 (String.substring 7 (String.length header - 7) header))
  | _ => None
  end.

Lemma permits_digest auth headers audience :
  audience <> apiAudienceNone -> permits (Some auth) headers audience = true ->
  bearer_digest headers = match audience with apiAudienceRoutes => au_routes auth | _ => au_admin auth end /\
  is_Some (bearer_digest headers).
Proof.
  intros Ha. unfold permits. destruct audience; [done| |]; cbn [mbind option_bind];
    destruct (au_admin auth) as [a|], (au_routes auth) as [r|]; try done; unfold bearer_digest;
    destruct headers as [|h [|? ?]]; try done; destruct (_ || _); try done; cbv zeta;
    destruct (_ || _); try done; intros H; apply bool_decide_eq_true in H; rewrite H; by eauto.
Qed.

Lemma authenticate_digest headers configured policy :
  authenticateScheduleProducer headers configured = Some policy ->
  In policy (sch_policies configured) /\ bearer_digest headers = Some (po_tokenDigest policy).
Proof.
  unfold authenticateScheduleProducer. destruct headers as [|h [|? ?]]; try done.
  destruct (HasPrefix h "Bearer ") eqn:Ep; [|done]. cbn [negb orb]. destruct (negb _); [done|]. cbv zeta.
  destruct (_ || _); [done|]. intros H. apply List.find_some in H as [Hin Hd]. split; [done|].
  apply bool_decide_eq_true in Hd. rewrite Hd. unfold bearer_digest, TrimPrefix. by rewrite Ep.
Qed.

(** *** Distinct tokens *)

Lemma compile_producers_tokens fs producers compiled tokens policies tokens' :
  compile_producers fs producers compiled tokens = Some (policies, tokens') ->
  (forall d, In d tokens -> In d tokens') /\
  exists new, policies = (compiled ++ new)%list /\
    (forall p, In p new -> In (po_tokenDigest p) tokens' /\ ~ In (po_tokenDigest p) tokens).
Proof.
  revert compiled tokens. induction producers as [|p ps IH]; intros compiled tokens; cbn.
  { intros [= <- <-]. split; [done|]. exists []. split; [by rewrite app_nil_r|done]. }
  destruct (compileSchedulePolicy fs p) as [policy|]; [|done].
  destruct (_ || _) eqn:E; [done|]. apply orb_false_iff in E as [_ E]. apply bool_decide_eq_false in E. rewrite list_elem_of_In in E.
  intros H. apply IH in H as (Hs & new & -> & Hn). split; [intros d Hd; apply Hs; by right|].
  exists (policy :: new). split; [by rewrite <- app_assoc|]. intros q [<-|Hq].
  - split; [apply Hs; by left|done].
  - destruct (Hn q Hq) as [H1 H2]. split; [done|]. intros H3. apply H2. by right.
Qed.

(** Every policy's token is among [tokens], and those of different schedules
    differ. *)
Definition tokens_apart (schedules : gmap string schedule) (tokens : list (list Z)) : Prop :=
  (forall n s p, schedules !! n = Some s -> In p (sch_policies s) -> In (po_tokenDigest p) tokens) /\
  (forall n1 s1 p1 n2 s2 p2, schedules !! n1 = Some s1 -> In p1 (sch_policies s1) ->
     schedules !! n2 = Some s2 -> In p2 (sch_policies s2) -> po_tokenDigest p1 = po_tokenDigest p2 -> n1 = n2).

Lemma compile_schedules_apart fs resolver configs schedules tokens schedules' :
  tokens_apart schedules tokens -> compile_schedules fs resolver configs schedules tokens = Some schedules' ->
  exists tokens', tokens_apart schedules' tokens'.
Proof.
  revert schedules tokens. induction configs as [|c cs IH]; intros schedules tokens [H1 H2]; cbn.
  { intros [= <-]. by exists tokens. }
  destruct (_ || _); [done|]. destruct (schedules !! sd_Name c) eqn:En; [done|].
  destruct (compile_producers fs (sd_Producers c) [] tokens) as [[policies tokens']|] eqn:Ec; [|done].
  apply compile_producers_tokens in Ec as (Hs & new & -> & Hn). apply IH. clear IH. cbn [app].
  assert (Hold : forall n s p, schedules !! n = Some s -> In p (sch_policies s) -> In (po_tokenDigest p) tokens) by exact H1.
  split.
  - intros n s p. rewrite lookup_insert_Some. intros [[<- <-]|[_ Hl]] Hp; [by apply Hn|]. apply Hs. by eapply Hold.
  - intros n1 s1 p1 n2 s2 p2. rewrite !lookup_insert_Some.
    intros [[<- <-]|[N1 L1]] P1 [[<- <-]|[N2 L2]] P2 E; [done| | |by eapply H2].
    + exfalso. apply (Hn p1 P1). rewrite E. by eapply Hold.
    + exfalso. apply (Hn p2 P2). rewrite <- E. by eapply Hold.
Qed.

Lemma LoadScheduler_apart {C : SnapshotCodec} nd fs path st sc :
  LoadScheduler nd fs path st = Ok (Some sc) -> exists tokens, tokens_apart (sc_schedules sc) tokens.
Proof.
  unfold LoadScheduler. destruct (path =? ""); [done|]. destruct (loadNativeConfiguration _ _ _) as [[document resolver]|]; [|done].
  destruct (_ || _); [done|]. destruct (workstation_inputs _ _ _); [|done].
  destruct (compile_schedules _ _ _ _ _) as [schedules|] eqn:E; [|done]. intros [= <-]. cbn [sc_schedules].
  eapply compile_schedules_apart; [|exact E]. split; intros *; by rewrite lookup_empty.
Qed.

Lemma usesTokenDigest_false sc d n s p :
  usesTokenDigest (Some sc) (Some d) = false -> sc_schedules sc !! n = Some s -> In p (sch_policies s) -> po_tokenDigest p <> d.
Proof.
  cbn [usesTokenDigest]. intros H Hl Hp E. rewrite <- not_true_iff_false in H. apply H. apply existsb_exists.
  exists (n, s). split; [by apply list_elem_of_In, elem_of_map_to_list|]. apply existsb_exists. exists p. split; [done|].
  by apply bool_decide_eq_true.
Qed.

Lemma LoadAPIAuthorization_ok fs a r scheduler auth :
  LoadAPIAuthorization fs a r scheduler = Ok auth ->
  ~ (is_Some (au_admin auth) /\ au_admin auth = au_routes auth) /\
  usesTokenDigest scheduler (au_admin auth) = false /\ usesTokenDigest scheduler (au_routes auth) = false.
Proof.
  unfold LoadAPIAuthorization. destruct (load_digest fs a) as [admin|]; [|done]. destruct (load_digest fs r) as [routes|]; [|done].
  destruct (bool_decide _) eqn:E; [done|]. apply bool_decide_eq_false in E. destruct (_ || _) eqn:U; [done|].
  apply orb_false_iff in U as [U1 U2]. by intros [= <-].
Qed.

(** * Routes of valid runs

    The controller serves a route for every active run, checked against
    protocol/localroutes.  What protocol/resolvedrun accepts passes that check
    except in one point: a display name with white space around it. *)

Local Open Scope Z_scope.
Local Open Scope string_scope.

(** ** The two packages' checks *)

Lemma all_bytes_ext p q s : (forall c, p c = q c) -> all_bytes p s = all_bytes q s.
Proof. intros H. induction s as [|c s IH]; [done|]. cbn. by rewrite H, IH. Qed.

Lemma dash_not_alnum c :
  lowerAlphaNumeric c || (code c =? 45)%Z = true -> negb (Ascii.eqb "-"%char c) = lowerAlphaNumeric c.
Proof. destruct c as [[] [] [] [] [] [] [] []]; vm_compute; congruence. Qed.

Lemma route_validName_validRunID s : route_validName s = validRunID s.
Proof.
  unfold route_validName, validRunID, MaxNameBytes. destruct (_ || _ || _) eqn:E; [done|].
  destruct s as [|c s]; [done|]. rewrite !orb_false_iff in E. destruct E as [_ Ec]. apply negb_false_iff in Ec. cbn in Ec.
  rewrite all_runes_ascii.
  2: { intros r Hr. unfold route_char, in_range in Hr. rewrite !orb_true_iff, !andb_true_iff in Hr. lia. }
  assert (Hb : all_bytes (fun c => route_char (code c)) s = all_bytes (fun c => lowerAlphaNumeric c || (code c =? 45)%Z) s).
  { apply all_bytes_ext. intros x. unfold route_char, lowerAlphaNumeric.
    by destruct (code x =? 45)%Z, (in_range 97 122 _), (in_range 48 57 _). }
  rewrite Hb. clear Hb. set (q := fun c => lowerAlphaNumeric c || (code c =? 45)%Z). destruct (all_bytes q s) eqn:Ea; [|done]. cbn [andb].
  unfold last_byte. destruct (get_some (String c s) (String.length (String c s) - 1)) as [x Hx]; [cbn; lia|].
  rewrite Hx. cbn [opt_test]. apply dash_not_alnum. refine (get_all q _ _ _ _ Hx). cbn [all_bytes]. unfold q at 1. by rewrite Ec, Ea.
Qed.

Lemma len_zero s : (len s =? 0)%Z = (s =? "").
Proof. by destruct s. Qed.

Lemma control_text v : containsControl v = false -> ContainsAny v nul_cr_lf = false /\ ValidString v = true.
Proof. unfold containsControl. rewrite orb_false_iff, negb_false_iff. done. Qed.

Lemma principal_routes p :
  validatePrincipal p = Ok tt ->
  validPrincipal (mkRoutePrincipal (p_Issuer p) (p_Subject p) (p_DisplayName p)) = trimmed (p_DisplayName p).
Proof.
  unfold validatePrincipal, validPrincipal, validHTTPSIssuer. cbn [rtp_Issuer rtp_Subject rtp_DisplayName].
  destruct (_ || _) eqn:E in |- *; [done|]. destruct (url_Parse _) as [parsed|]; [|done].
  intros H. checks H. rewrite !orb_false_iff in *. destruct E as [[[E1 E2] E3] E4].
  apply control_text in E4 as [E4 E5]. destruct H0 as [[[[[A1 A2] A3] A4] A5] A6]. destruct H1 as [[[B1 B2] B3] B4].
  apply control_text in B4 as [B4 B5]. destruct H as [D1 D2]. apply control_text in D2 as [D2 D3].
  unfold validText, maxIssuerBytes, maxSubjectBytes, maxDisplayNameBytes in *. rewrite !negb_false_iff in *.
  rewrite A1, A2, A4, A5, A6, E3, B3, B5, D3.
  change nul_cr_lf_set with nul_cr_lf in *. rewrite E4, B4, D2. cbn [negb].
  rewrite (bool_decide_true (User parsed = None)) by (apply bool_decide_eq_false in A3; by apply eq_None_not_Some).
  pose proof (len_nonneg (p_Issuer p)). rewrite <- (len_zero (p_Subject p)), B1.
  rewrite (proj2 (Z.ltb_lt _ _)), !(proj2 (Z.leb_le _ _)) by (apply Z.eqb_neq in E1; lia || lia).
  cbn [andb orb negb]. by rewrite andb_true_r.
Qed.

Lemma source_url_routes v :
  validOptionalSourceURL v = (v =? "") || is_nil (ValidateSourceURL v).
Proof.
  unfold validOptionalSourceURL, ValidateSourceURL. rewrite len_zero. destruct (v =? ""); [done|]. cbn [orb].
  change RouteMaxSourceURLBytes with MaxSourceURLBytes. destruct (_ || _ || _ || _); [done|].
  destruct (url_Parse v) as [parsed|]; [|done]. destruct (_ || _ || _ || _ || _ || _); [done|].
  destruct (QueryUnescape _) as [q|]; [|done]. unfold reject.
  by destruct (ValidString (Path parsed)), (ValidString q), (ValidString (Fragment parsed)), (exists_rune _ (Path parsed)),
    (exists_rune _ q), (exists_rune _ (Fragment parsed)).
Qed.

(** What a validated run has of what a route shows. *)
Lemma validated_route_parts run :
  ValidateResolvedAgentRun run = Ok tt ->
  validName (rr_Profile run) = true /\ validName (rr_Workflow run) = true /\
  validOptionalSourceURL (rr_SourceURL run) = true /\ validatePrincipal (rr_Principal run) = Ok tt.
Proof.
  unfold ValidateResolvedAgentRun. intros H. apply andThen_ok in H as [_ H]. apply andThen_ok in H as [Hr H].
  apply andThen_ok in H as [Hp _]. unfold ValidateLocalRunRequest in Hr. checks Hr.
  cbn [lr_RunID lr_Profile lr_Workflow lr_SourceURL] in *. apply negb_false_iff in Hr1, Hr2.
  split; [done|]. split; [done|]. split; [|done].
  rewrite source_url_routes. revert Hr. by destruct (rr_SourceURL run =? ""), (is_nil (ValidateSourceURL (rr_SourceURL run))).
Qed.

(** The endpoints a provider hands back, as protocol/localroutes wants them. *)
Definition routes_fit (routes : BackendRoutes) : Prop :=
  validEndpoint (bt_Session routes) true = true /\ (Z.of_nat (length (bt_Exposures routes)) <= MaxExposures)%Z /\
  each_seen (exposure_ok (ep_Host (bt_Session routes))) [] (bt_Exposures routes) = Ok tt.

Lemma route_of_valid run resolved routes :
  ValidateResolvedAgentRun resolved = Ok tt -> routes_fit routes -> validRunID (v_RunID run) = true ->
  validState (v_State run) = true -> v_CreatedAt run <> 0 ->
  is_nil (ValidateRun (route_of run resolved routes)) = trimmed (p_DisplayName (rr_Principal resolved)).
Proof.
  intros Hv (Hs & Hn & He) Hid Hst Hc. apply validated_route_parts in Hv as (H1 & H2 & H3 & H4).
  apply principal_routes in H4. unfold ValidateRun, route_of.
  cbn [rtr_APIVersion rtr_RunID rtr_State rtr_Ready rtr_Principal rtr_SourceURL rtr_Profile rtr_Workflow rtr_CreatedAt rtr_Session rtr_Exposures].
  rewrite H4, H3, Hs, Hst, !route_validName_validRunID, Hid, <- !validName_validRunID, H1, H2, He.
  rewrite (proj2 (Z.eqb_neq _ _) Hc), (proj2 (Z.ltb_ge _ _) Hn). unfold StateRunning. rewrite Bool.eqb_reflx, String.eqb_refl.
  by destruct (trimmed _).
Qed.

(** ** Lists of routes *)

Lemma sorted_before {A} (key : A -> string) l x r y :
  StronglySorted (fun a b => str_lt a b = true) (map key (l ++ x :: r)) -> In y l -> str_lt (key y) (key x) = true.
Proof.
  induction l as [|z l IH]; [done|]. cbn. intros Hs [->|Hy]; apply StronglySorted_inv in Hs as [Hs Hf]; [|by apply IH].
  rewrite List.Forall_forall in Hf. apply Hf, in_map, in_or_app. right. by left.
Qed.

Lemma sorted_routes_ok routes :
  StronglySorted (fun a b => str_lt a b = true) (map rtr_RunID routes) -> (forall x, In x routes -> ValidateRun x = Ok tt) ->
  each_seen list_run_ok [] routes = Ok tt.
Proof.
  intros Hs Hv. apply each_seen_ok. intros l x r ->. cbn [app]. unfold list_run_ok. rewrite Hv by (apply in_or_app; right; by left).
  assert (Hm : mem (rtr_RunID x) (map rtr_RunID l) = false).
  { apply not_true_iff_false. unfold mem. intros H. apply existsb_exists in H as (id & Hin & E). apply String.eqb_eq in E as <-.
    apply in_map_iff in Hin as (y & E & Hy). pose proof (sorted_before rtr_RunID _ _ _ _ Hs Hy) as H.
    by rewrite E, str_lt_irrefl in H. }
  rewrite Hm. destruct (last l) as [y|] eqn:El; [|done]. apply last_Some_elem_of, list_elem_of_In in El.
  rewrite (sorted_before rtr_RunID _ _ _ _ Hs El). by rewrite andb_false_r.
Qed.

(** ** The page the gateway gets *)

Section Pages.
Context {C : SnapshotCodec}.
Variable server : HTTPServer.
Variable provider : BackendRun -> option BackendRoutes.
Hypothesis Hprovider : hs_routeProvider server = Some provider.
Hypothesis Hfit : forall b, exists routes, provider b = Some routes /\ routes_fit routes.

(** The display name a row's snapshot carries. *)
Definition display_name (r : row) : string :=
  match DecodeResolvedAgentRun (snapshot r) with Some x => p_DisplayName (rr_Principal x) | None => "" end.

(** The route a row has. *)
Definition row_route (r : row) : option RouteRun :=
  run ← row_run r; x ← DecodeResolvedAgentRun (snapshot r);
  routes ← provider (mkBackendRun x None (snapshot_digest r) "" false false "");
  Some (route_of run x routes).

(** A row a listing of active runs shows. *)
Definition shown (t : table) (r : row) : Prop :=
  In r t /\ not_deleted r = true /\ state_in active_states r = true /\ created_at r <> RFC3339 0.

Lemma active_validState s : existsb (String.eqb s) active_states = true -> validState s = true /\ State_terminal s = false.
Proof.
  cbn. rewrite orb_false_r, !orb_true_iff, !String.eqb_eq. intros [->|[->|[->| ->]]]; done.
Qed.

Lemma shown_valid t r : healthy t -> shown t r ->
  exists x k, row_valid r x k /\ row_run r = Some (row_view r x k) /\ st_deleted k = None /\ st_created k <> 0.
Proof.
  intros (_ & _ & Hok) (Hin & Hd & Hs & Hc). destruct (ok_valid _ (Hok _ Hin)) as [[s Hr]|Ht].
  - pose proof Hr as Hr0. apply row_record_some in Hr as (x & k & V & ->). exists x, k. split; [done|].
    split; [unfold row_run; by rewrite Hr0|]. pose proof (rv_stamps _ _ _ V) as (H1 & _ & _ & _ & _ & H2).
    unfold not_deleted in Hd. apply bool_decide_eq_true in Hd. rewrite Hd in H2. split; [by destruct (st_deleted k)|]. congruence.
  - apply active_validState in Hs as [_ Hs]. congruence.
Qed.

Lemma snapshot_run t r x k : healthy t -> In r t -> row_valid r x k -> st_deleted k = None ->
  ResolvedSnapshot (run_id r) t = (Ok (snapshot r, snapshot_digest r), t).
Proof.
  intros Hh Hin V Hd. unfold ResolvedSnapshot. rewrite guard_bind, (rv_id _ _ _ V). cbn [negb].
  erewrite bind_run; [|apply load_valid; try done; apply Hh]. done.
Qed.

Lemma routeForRun_row t r : healthy t -> shown t r ->
  exists run route, row_run r = Some run /\ row_route r = Some route /\ rtr_RunID route = run_id r /\ v_RunID run = run_id r /\
    is_nil (ValidateRun route) = trimmed (display_name r) /\
    routeForRun server run t = ((if trimmed (display_name r) then Ok route else Err ErrStoreUnavailable), t).
Proof.
  intros Hh Hs. destruct (shown_valid _ _ Hh Hs) as (x & k & V & Hr & Hd & Hc). pose proof Hs as (Hin & _ & Hact & _).
  apply active_validState in Hact as [Hst Hterm].
  destruct (Hfit (mkBackendRun x None (snapshot_digest r) "" false false "")) as (routes & Hp & Hf).
  exists (row_view r x k), (route_of (row_view r x k) x routes). unfold row_route, display_name.
  assert (Hvr : is_nil (ValidateRun (route_of (row_view r x k) x routes)) = trimmed (p_DisplayName (rr_Principal x))).
  { apply route_of_valid; try done; [by eapply decode_parts, V|apply V]. }
  rewrite Hr, (rv_decode _ _ _ V). cbn [mbind option_bind]. rewrite Hp. split_and!; try done.
  - unfold routeForRun. rewrite Hprovider. cbn [row_view bare_view populateRunMetadata v_State v_RunID]. rewrite Hterm.
    rewrite (bind_run _ _ _ _ _ (snapshot_run _ _ _ _ Hh Hin V Hd)). cbv beta iota. rewrite (rv_decode _ _ _ V).
    rewrite Hp, Hvr. by destruct (trimmed _).
Qed.

Lemma page_routes t rows : healthy t -> (forall r, In r rows -> shown t r) ->
  routes_for_runs server (omap row_run rows) t
  = ((if forallb (fun r => trimmed (display_name r)) rows then Ok (omap row_route rows) else Err ErrStoreUnavailable), t).
Proof.
  intros Hh. induction rows as [|r rows IH]; intros Hs; [done|].
  destruct (routeForRun_row t r Hh) as (run & route & H1 & H2 & _ & _ & _ & H3); [apply Hs; by left|].
  cbn [omap list_omap forallb]. rewrite H1, H2. cbn [routes_for_runs]. unfold bind. rewrite H3.
  destruct (trimmed _); [|done]. cbn [andb]. rewrite IH by (intros r' Hr'; apply Hs; by right). by destruct (forallb _ _).
Qed.

Lemma page_ids t rows : healthy t -> (forall r, In r rows -> shown t r) ->
  map rtr_RunID (omap row_route rows) = map run_id rows.
Proof.
  intros Hh. induction rows as [|r rows IH]; intros Hs; [done|].
  destruct (routeForRun_row t r Hh) as (run & route & _ & H2 & H3 & _); [apply Hs; by left|].
  cbn [omap list_omap]. rewrite H2. cbn. rewrite H3. f_equal. apply IH. intros r' Hr'. apply Hs. by right.
Qed.

Lemma page_valid t rows cursor : healthy t -> (forall r, In r rows -> shown t r) -> pk_sorted run_id rows ->
  forallb (fun r => trimmed (display_name r)) rows = true -> (Z.of_nat (length rows) <= MaxRunsPerPage)%Z ->
  cursor = "" \/ validRunID cursor = true ->
  ValidateList (mkRouteList RoutesAPIVersion (Some (omap row_route rows)) cursor) = Ok tt.
Proof.
  intros Hh Hs Hsort Ht Hlen Hc. unfold ValidateList. cbn [rl_Runs rl_APIVersion rl_NextAfter].
  pose proof (page_ids t rows Hh Hs) as Hmap.
  rewrite <- (length_map rtr_RunID), Hmap, length_map, (proj2 (Z.ltb_ge _ _) Hlen), String.eqb_refl, route_validName_validRunID.
  replace (negb (cursor =? "") && negb (validRunID cursor)) with false by (destruct Hc as [->| ->]; by rewrite ?andb_false_r).
  cbn. apply sorted_routes_ok; [by rewrite Hmap|]. intros x Hx. apply list_elem_of_In, list_elem_of_omap in Hx as (r & Hr & Hx).
  apply list_elem_of_In in Hr. destruct (routeForRun_row t r Hh (Hs _ Hr)) as (run & route & _ & H2 & _ & _ & H4 & _).
  apply is_nil_true. rewrite forallb_forall in Ht. specialize (Ht _ Hr). cbv beta in Ht. congruence.
Qed.

Lemma take_omap {A B} (f : A -> option B) n l :
  (forall x, In x l -> is_Some (f x)) -> take n (omap f l) = omap f (take n l).
Proof.
  revert n. induction l as [|x l IH]; intros [|n] H; [done..|]. cbn. destruct (H x) as [y ->]; [by left|]. cbn. f_equal. apply IH.
  intros z Hz. apply H. by right.
Qed.

Lemma pk_sorted_take n (t : table) : pk_sorted run_id t -> pk_sorted run_id (take n t).
Proof.
  revert n. induction t as [|r t IH]; intros [|n]; [constructor..| |]; [constructor|]. rewrite !firstn_cons, !pk_sorted_cons.
  intros [Hs Hlt]. split; [auto|]. intros r' Hin. apply Hlt. rewrite <- (take_drop n t). apply in_or_app. by left.
Qed.

Lemma listed_shown t after r : (forall r, In r t -> created_at r <> RFC3339 0) ->
  In r (sql_select (list_where after true) t) -> shown t r.
Proof.
  intros Hc Hr. apply filter_In in Hr as [Hin Hw]. unfold list_where in Hw. cbn in Hw. rewrite !andb_true_iff in Hw.
  destruct Hw as [[H1 _] H2]. split_and!; try done. by apply Hc.
Qed.

Lemma cursor_valid t rows limit : healthy t -> (forall r, In r rows -> shown t r) ->
  page_cursor limit (omap row_run rows) = "" \/ validRunID (page_cursor limit (omap row_run rows)) = true.
Proof.
  intros Hh Hs. unfold page_cursor. destruct (_ <? _)%nat; [|by left]. destruct (last _) as [v|] eqn:El; [|by left]. right.
  apply last_Some_elem_of in El. assert (Hv : v ∈ omap row_run rows) by (eapply elem_of_take in El as (i & Hi & _); by eapply list_elem_of_lookup_2).
  apply list_elem_of_omap in Hv as (r & Hr & Hv). apply list_elem_of_In in Hr.
  destruct (shown_valid _ _ Hh (Hs _ Hr)) as (x & k & V & Hv' & _). rewrite Hv' in Hv. injection Hv as <-. apply V.
Qed.

(** The page, as a function of the rows. *)
Definition route_page (rows : list row) (limit : nat) : RouteList :=
  mkRouteList RoutesAPIVersion (Some (omap row_route (take limit rows))) (page_cursor limit (omap row_run rows)).

(** The rows of a page, on the table a listing leaves. *)
Lemma page_shown t after limit : (forall r, In r t -> created_at r <> RFC3339 0) ->
  forall r, In r (take limit (sql_select (list_where after true) t)) -> shown t r.
Proof.
  intros Hz r Hr. eapply listed_shown; [done|]. rewrite <- (take_drop limit (sql_select _ _)). apply in_or_app. left. exact Hr.
Qed.

Lemma route_page_valid t after limit :
  healthy t -> (forall r, In r t -> created_at r <> RFC3339 0) -> Z.of_nat limit <= MaxRunsPerPage ->
  let rows := sql_select (list_where after true) t in
  forallb (fun r => trimmed (display_name r)) (take limit rows) = true -> ValidateList (route_page rows limit) = Ok tt.
Proof.
  intros Hh Hz Hl rows Ht. apply (page_valid t); try done.
  - by apply page_shown.
  - apply pk_sorted_take, pk_sorted_filter, Hh.
  - rewrite length_take. lia.
  - apply (cursor_valid t); [done|]. intros r. by apply listed_shown.
Qed.

Lemma routeList_page t0 limit after t :
  healthy t -> clock_ok t0 t -> 1 <= limit <= MaxRunsPerPage -> after = "" \/ validRunID after = true ->
  let t1 := map (sweep_row t0) t in
  let rows := sql_select (list_where after true) t1 in
  (forall r, In r t1 -> created_at r <> RFC3339 0) ->
  routeList server t0 limit after t
  = ((if forallb (fun r => trimmed (display_name r)) (take (Z.to_nat limit) rows)
      then Ok (route_page rows (Z.to_nat limit)) else Err ErrStoreUnavailable), t1).
Proof.
  intros Hh Hc Hl Ha t1 rows Hz. pose proof (sweep_preserves t0 t Hh Hc) as Hh1. fold t1 in Hh1.
  unfold routeList. rewrite Hprovider, (proj2 (Z.ltb_ge _ _)), (proj2 (Z.ltb_ge _ _)) by lia. cbn [orb].
  unfold listActive. erewrite bind_run; [|apply store_list_healthy; try done; unfold MaxRunsPerPage, MaxListLimit in *; lia].
  cbn [lr_Runs lr_NextAfter]. fold t1. unfold listing. fold rows.
  rewrite take_omap
    by (intros r Hr; destruct (shown_valid _ r Hh1 (listed_shown _ _ _ Hz Hr)) as (x & k & _ & -> & _); by eexists).
  unfold bind. rewrite (page_routes t1); [|done|by apply page_shown]. destruct (forallb _ _) eqn:Ef; [|done].
  pose proof (route_page_valid t1 after (Z.to_nat limit) Hh1 Hz ltac:(lia) Ef) as Hv. unfold route_page in *. fold rows in Hv. by rewrite Hv.
Qed.
End Pages.
