(* ===== verification/ApiFixture.v ===== *)
(** * A concrete controller

    Token files, an administrator's document with one schedule, a server over
    them and requests to it: the inputs at which the API's theorems are
    exercised. *)
From stdpp Require Import base list strings gmap.
From Stdlib Require Import ZArith Lia Ascii.
From S2P Require Import Prelude GoStrings GoUrl GoJson GoHttp Sha256 Contract Validation Decode Resolver LocalRun LocalRoutes Sql StoreRow StoreOps StoreBatch Fixture ResolvedProps StoreSystem Reconciler Scheduling SchedulerLoad HttpApi ApiProps.


Local Open Scope Z_scope.
Local Open Scope string_scope.

(** ** Credentials *)

Definition admin_token : string := "admin-0123456789abcdef0123456789abcdef".
Definition route_token : string := "route-0123456789abcdef0123456789abcdef".
Definition producer_token : string := "queue-0123456789abcdef0123456789abcdef".

Definition fixture_files (path : string) : option string :=
  if path =? "/run/admin" then Some admin_token
  else if path =? "/run/routes" then Some route_token
  else if path =? "/run/queue" then Some producer_token
  else if path =? "/etc/nvt.yaml" then Some "{}"
  else None.

Definition fixture_fs : FileSystem :=
  mkFileSystem (fun path => (fun data => mkFileInfo true 384 (len data)) <$> fixture_files path) fixture_files.

(** ** The administrator's document *)

Definition fixture_producer : scheduleProducerConfig :=
  mkProducer "queue" "/run/queue" ["https://id.example"] [mkSelection "default" "implement"] "implement" "keep" "docker".

Definition fixture_document : nativeConfiguration :=
  mkNativeConfiguration NativeConfigAPIVersion (mkReconciliation false false false) (tc_Defaults fixture_trusted)
    (tc_Profiles fixture_trusted) (tc_Workflows fixture_trusted) (tc_ExecutionBackends fixture_trusted)
    (tc_RetentionPolicies fixture_trusted) [] [mkScheduleConfig "tickets" [fixture_producer]].

Definition fixture_native : NativeDecoder :=
  mkNativeDecoder
    (fun data => if data =? "{}" then Some [YNode DocumentNode "" "" "" false [YNode MappingNode "!!map" "" "" false []]] else None)
    (fun _ => Some "{}")
    (fun data => if data =? "{}" then Some fixture_document else None).

(** ** Runs *)

(** The job, and the same job for a principal whose display name starts with
    a space. *)
Definition ann : ResolvedAgentRun :=
  mkResolvedAgentRun ContractVersion "ann" (mkPrincipal "https://id.example" "ann" " Ann") "" "default" "implement" "image:1"
    (rr_Runtime job) (rr_AgentConfig job) "" None None "" (rr_Broker job) (rr_Egress job) (rr_WorkspaceInstructions job)
    (rr_Resources job) (rr_Persistence job) "keep" (rr_TTL job) (rr_Lifecycle job) (rr_Execution job).
Definition doc_ann : string := Eval vm_compute in dq "{'run_id':'ann'}".

Definition api_codec : SnapshotCodec := {|
  Unmarshal raw := if raw =? doc_ann then Some ann else if raw =? doc_job then Some job else None;
  Marshal r := if bool_decide (r = ann) then Some doc_ann else Some doc_job
|}.

(** ** The server *)

Definition fixture_scheduler : option Scheduler :=
  match LoadScheduler (H := api_codec) fixture_native fixture_fs "/etc/nvt.yaml" fixture_store with Ok s => s | Err _ => None end.
Definition fixture_auth : APIAuthorization :=
  match LoadAPIAuthorization fixture_fs "/run/admin" "/run/routes" fixture_scheduler with
  | Ok a => a | Err _ => mkAuthorization None None end.
Definition fixture_policy : schedulePolicy :=
  match compileSchedulePolicy fixture_fs fixture_producer with
  | Some p => p | None => mkPolicy "" [] ∅ ∅ "" "" "" (mkAuthorizationContext (mkPrincipal "" "" "") None) end.
Definition fixture_schedule : schedule := mkSchedule "tickets" [fixture_policy] the_resolver.

Definition fixture_provider : RouteProvider :=
  fun _ => Some (mkBackendRoutes (mkEndpoint "dev.nvt.local" "/run/" "backend" 8080) []).
Definition fixture_server : HTTPServer :=
  mkServer fixture_store true None (Some fixture_provider) fixture_scheduler (Some fixture_auth).

Definition request_to (method path query token content : string) : Request :=
  mkRequest method (mkURL "" "" None "" path "" false false query "" "") ["Bearer " ++ token] "application/json"
    (Some (dq content)).

Definition post_ann : Request :=
  request_to "POST" "/v1/runs" "" admin_token
    "{'api_version':'nvt.local-runs/v1','idempotency_key':'local-work-0123456789','resolved_run':{'run_id':'ann'}}".
Definition get_routes : Request := request_to "GET" "/v1/routes" "" route_token "".
Definition post_ticket : Request :=
  request_to "POST" "/v1/schedules/tickets/runs" "" producer_token
    "{'work':{'id':'ticket:acme/app:1','repository':'acme/app','url':'https://github.com/acme/app/issues/1','principal':{'issuer':'https://id.example','subject':'alice'}},'input':{'prompt':'do it'}}".

(** What the ticket becomes. *)
Definition ticket_input : CreateInput * string := Eval vm_compute in
  match admission_input (H := api_codec) fixture_schedule fixture_policy post_ticket with
  | Ok r => r | Err _ => (mkCreateInput "" "" "", "") end.
