(* ===== verification/ApiTheorems.v ===== *)
(** * The guarantees of the controller's API *)
From stdpp Require Import base list strings gmap.
From Stdlib Require Import ZArith Lia Ascii.
From S2P Require Import Prelude GoStrings GoUrl GoJson GoJsonPrint GoHttp Sha256 Contract Validation Decode Resolver ResolvedLemmas LocalRun LocalRoutes Sql StoreRow StoreOps StoreBatch Fixture ResolvedProps StoreValid StoreSteps StoreRefine StoreViews StoreBatchRefine StoreSystem Reconciler Scheduling SchedulerLoad HttpApi ApiProps ApiFixture.


Local Open Scope Z_scope.
Local Open Scope string_scope.

(** ** Compiled policies *)

Lemma compile_issuers_in issuers allowed result i :
  compile_issuers issuers allowed = Some result -> i ∈ result -> i ∈ allowed \/ In i issuers.
Proof.
  revert allowed. induction issuers as [|x xs IH]; intros allowed; cbn; [intros [= <-]; auto|].
  destruct (_ || _); [done|]. intros H Hi. destruct (IH _ H Hi) as [Ha|Ha]; [|by right; right].
  apply elem_of_union in Ha as [Ha|Ha]; [|by left]. apply elem_of_singleton in Ha as ->. right. by left.
Qed.

Lemma compile_selections_in selections byWorkflow byProfile bw bp w s :
  compile_selections selections byWorkflow byProfile = Some (bw, bp) -> bw !! w = Some s ->
  byWorkflow !! w = Some s \/ In s selections /\ ss_Workflow s = w.
Proof.
  revert byWorkflow byProfile. induction selections as [|x xs IH]; intros byWorkflow byProfile; cbn; [intros [= <- _]; auto|].
  destruct (_ || _); [done|]. destruct (byWorkflow !! ss_Workflow x); [done|]. intros H Hs.
  destruct (IH _ _ H Hs) as [Ha|[Ha Hw]]; [|right; split; [by right|done]].
  apply lookup_insert_Some in Ha as [[<- <-]|[_ Ha]]; [right; split; [by left|done]|by left].
Qed.

(** What a compiled policy grants is what its configuration lists. *)
Lemma compile_policy_sound fs config policy :
  compileSchedulePolicy fs config = Some policy ->
  (po_identity policy = sp_Identity config /\ po_retention policy = sp_Retention config /\ validOwner (sp_Identity config) = true) /\
  (forall i, i ∈ po_allowedIssuers policy -> In i (sp_AllowedPrincipalIssuers config)) /\
  (forall w s, po_selections policy !! w = Some s -> In s (sp_Selections config) /\ ss_Workflow s = w).
Proof.
  unfold compileSchedulePolicy. destruct (producer_bad config) eqn:Eb; [done|]. destruct (readPrivateBearer _ _) as [token|]; [|done].
  destruct (compile_issuers _ _) as [issuers|] eqn:Ei; [|done].
  destruct (compile_selections _ _ _) as [[bw bp]|] eqn:Es; [|done]. destruct (bw !! _) as [chosen|]; [|done]. intros [= <-]. cbn.
  split; [|split].
  - split; [done|]. split; [done|]. unfold producer_bad in Eb. rewrite !orb_false_iff in Eb.
    destruct Eb as [[[[[[[[Eb _] _] _] _] _] _] _] _]. by apply negb_false_iff in Eb.
  - intros i Hi. destruct (compile_issuers_in _ _ _ _ Ei Hi) as [H|H]; [|done]. by apply elem_of_empty in H.
  - intros w s Hs. destruct (compile_selections_in _ _ _ _ _ _ _ Es Hs) as [H|H]; [|done]. by rewrite lookup_empty in H.
Qed.

Section Theorems.
Context {C : SnapshotCodec}.

(** ** Requests *)

(** C36: Whatever a request asks, it leaves the table as it was or as one
    operation of the store leaves it, and that operation is one the token it
    carries entitles to: the administrator's token to the operations on runs,
    the gateway's to reading, a producer's to creating, reading and
    cancelling its own work only. *)
Theorem request_effect server t0 now request t :
  let t' := snd (route server t0 now request t) in
  t' = t \/ exists op, entitled server (rq_Authorization request) t0 now op /\ t' = exec_op (hs_store server) op t.
Proof. apply route_acts. Qed.

(** The tokens of different audiences are apart.  With credentials and
    schedules loaded from one configuration, no request is both the
    administrator's and the gateway's, and one a producer of some schedule
    sends is neither, nor any other schedule's. *)
Theorem audiences_apart nd fs path st adminFile routeFile scheduler auth headers :
  LoadScheduler nd fs path st = Ok scheduler ->
  LoadAPIAuthorization fs adminFile routeFile scheduler = Ok auth ->
  (permits (Some auth) headers apiAudienceAdmin && permits (Some auth) headers apiAudienceRoutes = false) /\
  forall sc name configured policy,
    scheduler = Some sc -> sc_schedules sc !! name = Some configured ->
    authenticateScheduleProducer headers configured = Some policy ->
    permits (Some auth) headers apiAudienceAdmin = false /\ permits (Some auth) headers apiAudienceRoutes = false /\
    forall name' configured', sc_schedules sc !! name' = Some configured' ->
      is_Some (authenticateScheduleProducer headers configured') -> name' = name.
Proof.
  intros Hl Ha. apply LoadAPIAuthorization_ok in Ha as (Hne & Hu1 & Hu2). split.
  - destruct (permits _ _ apiAudienceAdmin) eqn:E1; [|done]. destruct (permits _ _ apiAudienceRoutes) eqn:E2; [|done]. exfalso.
    apply permits_digest in E1 as [E1 [d Hd]]; [|done]. apply permits_digest in E2 as [E2 _]; [|done].
    apply Hne. split; [exists d|]; congruence.
  - intros sc name configured policy -> Hname Hauth. apply authenticate_digest in Hauth as [Hin Hd].
    assert (Hno : forall audience, audience <> apiAudienceNone -> permits (Some auth) headers audience = false).
    { intros audience Hn. apply not_true_iff_false. intros E. apply permits_digest in E as [E _]; [|done].
      rewrite Hd in E. destruct audience; [done| |]; rewrite <- E in *; by eapply usesTokenDigest_false. }
    split; [by apply Hno|]. split; [by apply Hno|]. intros name' configured' Hname' [policy' Hauth'].
    apply authenticate_digest in Hauth' as [Hin' Hd']. apply LoadScheduler_apart in Hl as (tokens & _ & Hapart).
    eapply Hapart; [exact Hname'|exact Hin'|exact Hname|exact Hin|]. congruence.
Qed.

(** The page of routes the gateway gets.  On a healthy table, with a
    provider whose endpoints fit the protocol, a page of routes is exactly the
    page of active runs in the order of their identifiers, each with its own
    snapshot's data, and the document passes the protocol's own check; but one
    run on the page whose principal has a display name with white space around
    it, which the contract accepts, makes the whole page unavailable. *)
Theorem route_page_served server provider t0 limit after t :
  hs_routeProvider server = Some provider -> (forall b, exists routes, provider b = Some routes /\ routes_fit routes) ->
  healthy t -> clock_ok t0 t -> 1 <= limit <= MaxRunsPerPage -> after = "" \/ validRunID after = true ->
  let t1 := map (sweep_row t0) t in
  let rows := sql_select (list_where after true) t1 in
  let page := take (Z.to_nat limit) rows in
  (forall r, In r t1 -> created_at r <> RFC3339 0) ->
  (List.Forall (fun r => trimmed (display_name r) = true) page ->
   routeList server t0 limit after t = (Ok (route_page provider rows (Z.to_nat limit)), t1) /\
   map rtr_RunID (omap (row_route provider) page) = map run_id page /\
   ValidateList (route_page provider rows (Z.to_nat limit)) = Ok tt) /\
  (List.Exists (fun r => trimmed (display_name r) = false) page ->
   routeList server t0 limit after t = (Err ErrStoreUnavailable, t1)).
Proof.
  intros Hp Hf Hh Hc Hl Ha t1 rows page Hz. pose proof (sweep_preserves t0 t Hh Hc) as Hh1. fold t1 in Hh1.
  pose proof (routeList_page server provider Hp Hf t0 limit after t Hh Hc Hl Ha Hz) as Hpage. fold t1 rows page in Hpage.
  split; intros Ht.
  - assert (Hall : forallb (fun r => trimmed (display_name r)) page = true) by (by apply forallb_forall, List.Forall_forall).
    rewrite Hall in Hpage. split; [done|]. split.
    + apply (page_ids server provider Hp Hf t1); [done|]. by apply page_shown.
    + eapply (route_page_valid server provider Hp Hf t1); try done. lia.
  - destruct (forallb _ page) eqn:E in Hpage; [|done]. apply List.Exists_exists in Ht as (r & Hr & Hn).
    rewrite forallb_forall in E. by rewrite (E r Hr) in Hn.
Qed.

(** What an admission asks the store to create.  For a policy compiled
    from a producer's configuration, the document is a valid resolved run
    whose identifier and key are the identity of the work under this schedule
    and producer, whose principal is the request's and comes from an issuer
    the producer may speak for, and whose profile, workflow and retention are
    the producer's. *)
Theorem admission_sound fs config policy configured request input runID :
  compileSchedulePolicy fs config = Some policy ->
  admission_input configured policy request = Ok (input, runID) ->
  exists req resolved selection,
    decodeRequest request decode_admission = Some req /\ validScheduleWork (ar_Work req) = true /\
    encodeCanonicalResolved resolved = Some (ci_ResolvedRun input) /\ ValidateResolvedAgentRun resolved = Ok tt /\
    (ci_IdempotencyKey input, runID) = localWorkIdentity (sch_name configured) (sp_Identity config) (aw_ID (ar_Work req)) /\
    rr_RunID resolved = runID /\ rr_Prompt resolved = ar_Prompt req /\
    p_Issuer (rr_Principal resolved) = ap_Issuer (aw_Principal (ar_Work req)) /\
    In (p_Issuer (rr_Principal resolved)) (sp_AllowedPrincipalIssuers config) /\
    In selection (sp_Selections config) /\ rr_Profile resolved = ss_Profile selection /\
    rr_Workflow resolved = ss_Workflow selection /\ rr_Retention resolved = sp_Retention config.
Proof.
  intros Hp. apply compile_policy_sound in Hp as ((Hid & Hret & _) & Hiss & Hsel). unfold admission_input.
  destruct (decodeRequest _ _) as [req|]; [|done]. destruct (_ || _) eqn:E; [done|].
  destruct (bool_decide _) eqn:Ei; [|done]. cbn [negb]. apply bool_decide_eq_true in Ei.
  destruct (po_selections policy !! _) as [selection|] eqn:Es; [|done].
  destruct (localWorkIdentity _ _ (aw_ID _)) as [key id] eqn:Ew. destruct (Resolve _ _ _) as [resolved|] eqn:Er; [|done].
  destruct (encodeCanonicalResolved _) as [encoded|] eqn:Ee; [|done]. intros [= <- <-].
  exists req, resolved, selection. pose proof (Resolve_ok _ _ _ _ Er) as (Hv & ? & ? & ? & ? & _ & [(Hrun & Hprompt & _) Hpr]).
  apply Resolve_request in Er as (Hprof & Hwf & Hrt). destruct (Hsel _ _ Es) as [Hs _].
  rewrite !orb_false_iff in E. destruct E as [[[E _] _] _]. apply negb_false_iff in E.
  rewrite Hpr. cbn [p_Issuer ac_Principal] in *. rewrite <- Hid, Ew. cbn [lr_RunID lr_Prompt lr_Profile lr_Workflow lr_Retention] in *.
  split_and!; try done; [by apply Hiss|congruence].
Qed.
End Theorems.

(** The identity of work.  The run identifier and the key are always ones
    the store accepts, and two pieces of work of valid schedules and producers
    get the same run only if they are the same work, or else two different
    texts have been found whose SHA-256 digests agree in 128 bits. *)
Theorem work_identity_separates n1 i1 w1 n2 i2 w2 :
  validRunID n1 = true -> validRunID n2 = true -> validOwner i1 = true -> validOwner i2 = true ->
  (validRunID (snd (localWorkIdentity n1 i1 w1)) = true /\ validIdempotencyKey (fst (localWorkIdentity n1 i1 w1)) = true) /\
  (snd (localWorkIdentity n1 i1 w1) = snd (localWorkIdentity n2 i2 w2) ->
   (n1 = n2 /\ i1 = i2 /\ w1 = w2) \/
   exists m1 m2, m1 <> m2 /\ String.substring 0 32 (sha256_hex m1) = String.substring 0 32 (sha256_hex m2)).
Proof.
  intros Hn1 Hn2 Hi1 Hi2. split; [apply work_identity_valid|]. unfold localWorkIdentity. cbv zeta. cbn [snd]. intros E.
  destruct (decide (work_preimage n1 i1 w1 = work_preimage n2 i2 w2)) as [Hp|Hp].
  - left. by apply work_preimage_inj.
  - right. exists (work_preimage n1 i1 w1), (work_preimage n2 i2 w2). split; [done|].
    rewrite !str_cons_app, !str_nil_app in E. by injection E.
Qed.

(** ** Instances *)

Lemma audiences_apart_witness :
  permits (Some fixture_auth) ["Bearer " ++ producer_token] apiAudienceAdmin = false.
Proof.
  assert (Hl : LoadScheduler (H := api_codec) fixture_native fixture_fs "/etc/nvt.yaml" fixture_store = Ok fixture_scheduler)
    by (vm_compute; reflexivity).
  assert (Ha : LoadAPIAuthorization fixture_fs "/run/admin" "/run/routes" fixture_scheduler = Ok fixture_auth)
    by (vm_compute; reflexivity).
  refine (proj1 (proj2 (audiences_apart (C := api_codec) _ _ _ _ _ _ _ _ ["Bearer " ++ producer_token] Hl Ha)
    (default (mkScheduler ∅ [] (mkReconciliation false false false)) fixture_scheduler) "tickets" fixture_schedule fixture_policy _ _ _));
    vm_compute; reflexivity.
Defined.

Lemma admission_sound_witness :
  exists resolved, ValidateResolvedAgentRun resolved = Ok tt /\ rr_RunID resolved = snd ticket_input /\
    rr_Workflow resolved = "implement".
Proof.
  destruct (admission_sound (C := api_codec) fixture_fs fixture_producer fixture_policy fixture_schedule post_ticket
    (fst ticket_input) (snd ticket_input)) as (req & resolved & sel & _ & _ & _ & Hv & _ & Hr & _ & _ & _ & Hs & _ & Hw & _);
    [vm_compute; reflexivity..|].
  exists resolved. split; [exact Hv|]. split; [exact Hr|]. rewrite Hw. destruct Hs as [<-|[]]. reflexivity.
Defined.

Lemma work_identity_separates_witness :
  validRunID (snd (localWorkIdentity "tickets" "queue" "ticket:acme/app:1")) = true /\
  "ticket:acme/app:1" <> "ticket:acme/app:2".
Proof.
  split; [|discriminate].
  exact (proj1 (proj1 (work_identity_separates "tickets" "queue" "ticket:acme/app:1" "tickets" "queue" "ticket:acme/app:2"
    eq_refl eq_refl eq_refl eq_refl))).
Defined.

Lemma route_page_served_witness :
  let rows := sql_select (list_where "" true) (map (sweep_row (C := fixture_codec) (at_second 11)) job_table) in
  map run_id rows = ["job"] /\ ValidateList (route_page (C := fixture_codec) fixture_provider rows (Z.to_nat 8)) = Ok tt.
Proof.
  assert (Hz : forall r, In r (map (sweep_row (C := fixture_codec) (at_second 11)) job_table) -> created_at r <> RFC3339 0)
    by (intros r [<-|[]]; vm_compute; discriminate).
  assert (Hf : forall b, exists routes, fixture_provider b = Some routes /\ routes_fit routes)
    by (intros b; eexists; split; [reflexivity|]; split; [vm_compute; reflexivity|]; split; [vm_compute; discriminate|reflexivity]).
  split; [vm_compute; reflexivity|].
  destruct (route_page_served (C := fixture_codec) fixture_server fixture_provider (at_second 11) 8 "" job_table eq_refl Hf
    job_healthy) as [H _]; [clocks|split; vm_compute; discriminate|by left|exact Hz|].
  apply H. apply List.Forall_forall. apply (forallb_forall (fun r => trimmed (display_name r))). vm_compute. reflexivity.
Defined.

(** The other branch at a concrete controller: the administrator creates a run
    for a principal displayed as Ann with a space before the name, and is told
    that it was created; from then on the gateway is told that routes are
    unavailable. *)
Example untrimmed_name_hides_routes :
  let created := route (H := api_codec) fixture_server (at_second 10) (at_second 10) post_ann [] in
  rs_Status (fst created) = 201 /\
  rs_Status (fst (route (H := api_codec) fixture_server (at_second 11) (at_second 11) get_routes (snd created))) = 503.
Proof. split; vm_compute; reflexivity. Qed.
