(* ===== verification/GatewayTheorems.v ===== *)
(** * The gateway over the controller

    The gateway's client of [GatewaySessions] talking to the controller of
    [HttpApi]: what the dashboard is shown, end to end. *)
From stdpp Require Import base list strings gmap.
From Stdlib Require Import ZArith Lia Ascii Sorted.
From S2P Require Import Prelude GoStrings GoUrl GoJson GoJsonPrint GoHttp Sha256 Contract Validation Decode Resolver ResolvedLemmas LocalRun LocalRoutes Sql StoreRow StoreOps StoreBatch Fixture StoreValid StoreSteps StoreViews StoreSystem StoreProps Reconciler Eligibility GatewayAuth GatewayRouting GatewaySessions GatewayProps Scheduling SchedulerLoad HttpApi ApiProps ApiFixture.


Local Open Scope Z_scope.
Local Open Scope string_scope.

(** ** The query of a page *)

Definition plain_byte (c : ascii) : bool := lowerAlphaNumeric c || (code c =? 45)%Z.

Lemma plain_query c : plain_byte c = true ->
  shouldEscape c encodeQueryComponent = false /\ (c =? "%")%char = false /\ (c =? "+")%char = false /\
  (c =? "&")%char = false /\ (c =? ";")%char = false.
Proof. destruct c as [[] [] [] [] [] [] [] []]; vm_compute; intros; repeat split; congruence. Qed.

Lemma validRunID_plain s : validRunID s = true -> all_bytes plain_byte s = true.
Proof.
  unfold validRunID. destruct (_ || _) eqn:E; [done|]. rewrite !orb_false_iff in E. destruct E as [_ E].
  destruct s as [|c rest]; [done|]. apply negb_false_iff in E. cbn in E. destruct (all_bytes _ rest) eqn:Ea; [|done]. intros _.
  cbn [all_bytes]. unfold plain_byte at 1. by rewrite E.
Qed.

Lemma escape_plain s : all_bytes plain_byte s = true -> escape encodeQueryComponent s = s.
Proof.
  induction s as [|c s IH]; [done|]. cbn [all_bytes escape]. rewrite andb_true_iff. intros [Hc Hs].
  destruct (plain_query c Hc) as (-> & _). cbn [negb]. by rewrite IH.
Qed.

Lemma unescape_plain s : all_bytes plain_byte s = true -> QueryUnescape s = Some s.
Proof.
  unfold QueryUnescape. induction s as [|c s IH]; [done|]. cbn [all_bytes]. rewrite andb_true_iff. intros [Hc Hs].
  destruct (plain_query c Hc) as (_ & H1 & H2 & _).
  assert (Hu : unescape encodeQueryComponent (String c s) = String c <$> unescape encodeQueryComponent s).
  { clear IH Hs. destruct c as [[] [] [] [] [] [] [] []]; (discriminate Hc || discriminate H1 || reflexivity). }
  by rewrite Hu, IH.
Qed.

Lemma Split_plain s sep : all_bytes plain_byte s = true -> (forall c, plain_byte c = true -> (c =? sep)%char = false) -> Split s sep = [s].
Proof.
  intros Hs Hsep. induction s as [|c s IH]; [done|]. cbn [all_bytes] in Hs. apply andb_true_iff in Hs as [Hc Hs].
  cbn [Split]. by rewrite Hsep, IH.
Qed.

Lemma after_pair id : all_bytes plain_byte id = true -> query_pairs ["after=" +:+ id] = Some [("after", id)].
Proof.
  intros Hp. cbn [query_pairs].
  assert (Hb : has_byte ("after=" +:+ id) ";"%char = false).
  { unfold has_byte. rewrite !str_cons_app, str_nil_app. cbn [any_byte]. cbn. induction id as [|c id IH]; [done|].
    cbn [all_bytes] in Hp. apply andb_true_iff in Hp as [Hc Hp]. destruct (plain_query c Hc) as (_ & _ & _ & _ & H).
    cbn [any_byte]. rewrite Ascii.eqb_sym, H. by apply IH. }
  rewrite Hb. rewrite !str_cons_app, str_nil_app.
  change (Cut (String "a" (String "f" (String "t" (String "e" (String "r" (String "=" id)))))) "="%char) with ("after", id, true).
  cbv beta iota. rewrite (unescape_plain id Hp). reflexivity.
Qed.

Lemma page_query_params after :
  after = "" \/ validRunID after = true -> page_query (page_params after) MaxRunsPerPage = Some (8, after).
Proof.
  intros [->|Hv]; [reflexivity|]. pose proof (validRunID_plain _ Hv) as Hp. unfold page_params.
  assert (Hn : (after =? "") = false) by (apply String.eqb_neq; intros ->; done). rewrite Hn, escape_plain by done.
  unfold page_query, ParseQuery.
  change ("limit=8&after=" +:+ after) with ("limit=8" +:+ String "&" ("after=" +:+ after)).
  rewrite Split_app. change (Split "limit=8" "&"%char) with ["limit=8"].
  assert (Hs : Split ("after=" +:+ after) "&"%char = ["after=" +:+ after]).
  { rewrite !str_cons_app, str_nil_app. cbn [Split Ascii.eqb]. cbn.
    rewrite Split_plain; [done|done|]. intros c Hc. by apply plain_query. }
  rewrite Hs.
  assert (Hq : query_pairs (["limit=8"] ++ ["after=" +:+ after])%list = Some [("limit", "8"); ("after", after)]).
  { change (query_pairs (["limit=8"] ++ ["after=" +:+ after])%list)
      with (match query_pairs ["after=" +:+ after] with Some ps => Some (("limit", "8") :: ps) | None => None end).
    by rewrite after_pair. }
  rewrite Hq. reflexivity.
Qed.

(** ** The controller behind the client *)

Section Compose.
Context {C : SnapshotCodec}.
Variable server : HTTPServer.
Variable token : string.
(** The encoding of a body, and the struct mapping that reads it back. *)
Variable encode : response_body -> string.
Variable unmarshal : string -> option RouteList.
(** The instant at which the controller serves the pages. *)
Variables t0 now : time.

Definition route_request (path query : string) : Request :=
  mkRequest "GET" (mkURL "" "" None "" path "" false false query "" "") ["Bearer " +:+ token] "" None.

(** The exchange: the controller's response to a GET with the gateway's
    token. *)
Definition controller_fetch (path query : string) (t : table) : option (Z * string) * table :=
  let '(response, t') := route server t0 now (route_request path query) t in
  (Some (rs_Status response, encode (rs_Body response)), t').

Variable provider : BackendRun -> option BackendRoutes.
Hypothesis Hprovider : hs_routeProvider server = Some provider.
Hypothesis Hfit : forall b, exists routes, provider b = Some routes /\ routes_fit routes.
Hypothesis Hpermits : permits (hs_authorization server) ["Bearer " +:+ token] apiAudienceRoutes = true.

(** The table the pages are read from, its rows active and routable. *)
Variable t1 : table.
Hypothesis Hhealthy : healthy t1.
Hypothesis Hclock : clock_ok t0 t1.
Hypothesis Hswept : map (sweep_row t0) t1 = t1.
Hypothesis Hcreated : forall r, In r t1 -> created_at r <> RFC3339 0.

Definition active_rows (after : string) : list row := sql_select (list_where after true) t1.
Definition page_of (after : string) : RouteList := route_page provider (active_rows after) 8.

Hypothesis Htrimmed : forall r, In r (active_rows "") -> trimmed (display_name r) = true.
(** Pages survive encoding and decoding. *)
Hypothesis Hencode : forall after, len (encode (RouteListBody (page_of after))) <= localRouteRequestLimit /\
  (ValidateList (page_of after) = Ok tt -> DecodeList unmarshal (encode (RouteListBody (page_of after))) = Some (page_of after)).

Lemma active_shown after r : In r (active_rows after) -> shown t1 r.
Proof. by apply listed_shown. Qed.

Lemma active_id after r : In r (active_rows after) -> validRunID (run_id r) = true.
Proof. intros Hr. destruct (shown_valid _ _ Hhealthy (active_shown _ _ Hr)) as (x & k & V & _). apply V. Qed.

Lemma active_rows_first after r : In r (active_rows after) -> In r (active_rows "").
Proof.
  intros Hr. pose proof (active_id _ _ Hr) as Hid. unfold active_rows, sql_select in *. rewrite filter_In in *. destruct Hr as [Hin Hw].
  split; [done|]. unfold list_where in *. rewrite !andb_true_iff in *. destruct Hw as [[Hw1 Hw2] Hw3]. split; [split|]; try done.
  by destruct (run_id r).
Qed.

Lemma page_trimmed after : forallb (fun r => trimmed (display_name r)) (take 8 (active_rows after)) = true.
Proof.
  apply forallb_forall. intros r Hr. apply Htrimmed, (active_rows_first after). rewrite <- (take_drop 8 (active_rows after)).
  apply in_or_app. by left.
Qed.

Lemma page_of_valid after : ValidateList (page_of after) = Ok tt.
Proof. eapply (route_page_valid server provider Hprovider Hfit); try done. apply page_trimmed. Qed.

(** A table the sweep of the first page turns into [t1]. *)
Definition before (t : table) : Prop := healthy t /\ clock_ok t0 t /\ map (sweep_row t0) t = t1.

Lemma fetch_page after t : before t -> after = "" \/ validRunID after = true ->
  controller_fetch "/v1/routes" (page_params after) t = (Some (200, encode (RouteListBody (page_of after))), t1).
Proof.
  intros (Hh & Hk & Hsw) Ha.
  assert (Hl : listRoutes server t0 (route_request "/v1/routes" (page_params after)) t
               = (respond 200 "ok" "" (RouteListBody (page_of after)), t1)).
  { unfold listRoutes. cbn [route_request rq_URL RawQuery]. rewrite page_query_params by done. unfold on_store.
    pose proof (routeList_page server provider Hprovider Hfit t0 8 after t Hh Hk) as Hr. cbv zeta in Hr. rewrite Hsw in Hr.
    rewrite Hr; [|unfold MaxRunsPerPage; lia|done|done].
    change (Z.to_nat 8) with 8%nat. fold (active_rows after). rewrite page_trimmed. done. }
  unfold controller_fetch.
  assert (Hroute : route server t0 now (route_request "/v1/routes" (page_params after)) t
                   = listRoutes server t0 (route_request "/v1/routes" (page_params after)) t).
  { unfold route. cbn [route_request rq_URL Path rq_Method rq_Authorization RawQuery].
    change (EscapedPath (mkURL "" "" None "" "/v1/routes" "" false false (page_params after) "" "")) with "/v1/routes".
    change (apiAudienceForPath "/v1/routes") with apiAudienceRoutes. rewrite Hpermits. cbn [negb].
    change ("/v1/routes" =? "/v1/routes") with true. cbn [negb andb]. rewrite andb_false_r. reflexivity. }
  rewrite Hroute, Hl. reflexivity.
Qed.

(** ** The loop *)

Lemma run_ids rows : (forall r, In r rows -> shown t1 r) -> map v_RunID (omap row_run rows) = map run_id rows.
Proof.
  induction rows as [|r rows IH]; intros Hs; [done|].
  destruct (routeForRun_row server provider Hprovider Hfit t1 r Hhealthy) as (run & route & H1 & _ & _ & H4 & _); [apply Hs; by left|].
  cbn [omap list_omap]. rewrite H1. cbn. rewrite H4. f_equal. apply IH. intros r' Hr'. apply Hs. by right.
Qed.

Lemma taken_shown n after r : In r (take n (active_rows after)) -> shown t1 r.
Proof. by apply page_shown. Qed.

Lemma route_ids n after : map rtr_RunID (omap (row_route provider) (take n (active_rows after))) = map run_id (take n (active_rows after)).
Proof. apply (page_ids server provider Hprovider Hfit t1); [done|]. apply taken_shown. Qed.

Lemma active_after after id : In id (map run_id (active_rows after)) -> str_lt after id = true.
Proof.
  intros Hin. apply in_map_iff in Hin as (r & <- & Hr). unfold active_rows, sql_select in Hr. apply filter_In in Hr as [_ Hw].
  unfold list_where in Hw. rewrite !andb_true_iff in Hw. apply Hw.
Qed.

Lemma taken_after n after id : In id (map run_id (take n (active_rows after))) -> str_lt after id = true.
Proof.
  intros Hin. apply active_after. rewrite <- (take_drop n (active_rows after)), map_app. apply in_or_app. by left.
Qed.

(** The cursor a page ends with. *)
Lemma page_next after :
  rl_NextAfter (page_of after)
  = if (8 <? length (active_rows after))%nat then default "" (last (map run_id (take 8 (active_rows after)))) else "".
Proof.
  unfold page_of, route_page, page_cursor. cbn [rl_NextAfter].
  assert (Hm : map v_RunID (omap row_run (active_rows after)) = map run_id (active_rows after))
    by (apply run_ids; intros r; apply active_shown).
  rewrite <- (length_map v_RunID), Hm, length_map. destruct (_ <? _)%nat; [|done].
  rewrite <- firstn_map, <- Hm, firstn_map, fmap_last. by destruct (last _).
Qed.

Lemma last_run_ids (runs : list RouteRun) : last_run_id runs = last (map rtr_RunID runs).
Proof. unfold last_run_id. by rewrite <- fmap_last. Qed.

(** What the loop knows of the pages before. *)
Definition cursor_of (result : list RouteRun) (after : string) : Prop :=
  after = "" /\ result = [] \/ last_run_id result = Some after /\ validRunID after = true.

Lemma page_ok result after : cursor_of result after ->
  Z.of_nat (length result + length (active_rows after)) <= MaxRuns -> page_accepted result after (page_of after) = true.
Proof.
  intros Hc Hmax. unfold page_accepted. rewrite page_next, !andb_true_iff. change (list_runs (page_of after))
    with (omap (row_route provider) (take 8 (active_rows after))).
  assert (Hlen : length (omap (row_route provider) (take 8 (active_rows after))) = length (take 8 (active_rows after)))
    by (rewrite <- (length_map rtr_RunID), route_ids; apply length_map).
  rewrite Hlen, (last_run_ids (omap _ _)), route_ids, length_take. split; [split|].
  - rewrite (proj2 (Z.ltb_ge _ _)) by lia. cbn [orb]. destruct (_ <? _)%nat; [|done].
    destruct (last (map _ _)) as [id|] eqn:El; [|done]. change (default "" (Some id)) with id. apply last_Some_elem_of, list_elem_of_In in El.
    rewrite (taken_after _ _ _ El). by rewrite andb_false_r.
  - apply forallb_forall. intros run Hrun.
    assert (Hr : str_lt after (rtr_RunID run) = true) by (apply (taken_after 8); rewrite <- route_ids; by apply in_map).
    rewrite Hr. cbn [negb]. rewrite andb_false_r. cbn [orb].
    destruct Hc as [[_ ->]|[-> _]]; [done|by rewrite Hr].
  - destruct (_ <? _)%nat; [|done]. destruct (last (map _ _)) as [id|]; [|done]. change (default "" (Some id)) with id. by rewrite str_lt_irrefl, andb_false_r.
Qed.

Lemma list_loop_step pages result after t :
  list_loop controller_fetch unmarshal (S pages) result after t
  = match source_get controller_fetch "/v1/routes" (page_params after) t with
    | (Some (data, 200), t') =>
        match DecodeList unmarshal data with
        | None => (None, t')
        | Some decoded =>
            if negb (page_accepted result after decoded) then (None, t')
            else if rl_NextAfter decoded =? "" then (Some (result ++ list_runs decoded)%list, t')
            else list_loop controller_fetch unmarshal pages (result ++ list_runs decoded)%list (rl_NextAfter decoded) t'
        end
    | (_, t') => (None, t')
    end.
Proof. reflexivity. Qed.

Lemma list_loop_all pages result after t :
  before t -> cursor_of result after -> (length (active_rows after) <= 8 * S pages)%nat ->
  Z.of_nat (length result + length (active_rows after)) <= MaxRuns ->
  list_loop controller_fetch unmarshal (S pages) result after t
  = (Some (result ++ omap (row_route provider) (active_rows after))%list, t1).
Proof.
  revert result after t. induction pages as [|pages IH]; intros result after t Hb Hc Hp Hmax; rewrite list_loop_step; unfold source_get;
    (rewrite (fetch_page after t Hb) by (destruct Hc as [[-> _]|[_ ?]]; auto)); destruct (Hencode after) as [Hl Hd];
    rewrite (proj2 (Z.ltb_ge _ _) Hl), Hd by apply page_of_valid; rewrite page_ok by done; cbn [negb]; rewrite page_next;
    change (list_runs (page_of after)) with (omap (row_route provider) (take 8 (active_rows after))).
  - rewrite (proj2 (Nat.ltb_ge _ _)) by lia. cbn. by rewrite take_ge by lia.
  - destruct (8 <? _)%nat eqn:E.
    + apply Nat.ltb_lt in E. destruct (last (map run_id (take 8 (active_rows after)))) as [id|] eqn:El; cycle 1.
      { apply last_None, (f_equal length) in El. rewrite length_map, length_take in El. cbn [length] in El. lia. }
      change (default "" (Some id)) with id. pose proof El as Hin. apply last_Some_elem_of, list_elem_of_In in Hin.
      assert (Hid : validRunID id = true).
      { apply in_map_iff in Hin as (r & <- & Hr). eapply active_id. rewrite <- (take_drop 8 (active_rows after)). apply in_or_app. by left. }
      assert (Hne : (id =? "") = false) by (apply String.eqb_neq; intros ->; done). rewrite Hne.
      assert (Hrest : active_rows id = drop 8 (active_rows after)).
      { unfold active_rows in *. rewrite <- select_after_page; [|apply Hhealthy|lia]. do 2 f_equal.
        unfold last_id. rewrite fmap_last in El. destruct (last (take 8 _)); [|done]. cbn in El. by injection El. }
      rewrite IH; rewrite ?Hrest; rewrite ?length_drop, ?length_app; [|done|right|lia|].
      * rewrite <- app_assoc, <- omap_app, take_drop. done.
      * split; [|done]. rewrite last_run_ids, map_app, last_app, route_ids, El. done.
      * rewrite <- (length_map rtr_RunID (omap _ _)), route_ids, length_map, length_take. lia.
    + apply Nat.ltb_ge in E. cbn. by rewrite take_ge by lia.
Qed.
End Compose.

(** * A concrete gateway

    A configuration, an identity provider, a login and a run: the inputs at
    which the gateway's theorems are exercised. *)

(** ** Policies *)

Definition developers : Rule := mkRule "developers" "allow" false "groups[]" ["dev"] (mkWhere "" []).
Definition fixture_admission : Policy := mkEligibility "deny" [developers].
Definition owners : AuthorizationRule := mkAuthorizationRule "owners" "allow" false true "" [] (mkWhere "" []).
Definition dev_claims : list (string * claim) :=
  [("nonce", CString "n1"); ("groups", CSlice [CString "ops"; CString "dev"]); ("pid", CString "0101");
   ("name", CString "Ann")].

Definition fixture_gateway : GatewayConfig :=
  mkGatewayConfig "nvt.example" "" "" authModeOIDC "nvt_session" 3600 "/oauth2/callback" "https://id.example" "" "" "" ""
    (Some fixture_admission) (mkAuthorizationConfig "deny" "" [owners])
    (mkLocalRunsConfig true "http://controller:8080" "/run/token" "nvt.local" "/run" (1000 * millisecond) false).

(** ** A login *)

Definition fixture_cookies : CookieCodec :=
  mkCookieCodec
    (fun _ value => if value =? "sealed" then Some (mkSessionCookie "s1" 3700) else None)
    (fun _ value => if value =? "login" then Some (mkLoginState "st" "n1" "v" "/dash" 600) else None).

Definition fixture_idp : IdentityProvider :=
  mkProvider (fun _ _ => Some (mkToken "at" "it"))
    (fun _ => Some (mkIDToken "https://id.example" "ann" (Some dev_claims)))
    (fun _ => None) (fun _ => None) (fun _ => None) (fun _ claims => Some claims).

Definition gateway_get (method path query : string) (cookies : list (string * string)) : GatewayRequest :=
  mkGatewayRequest method (mkURL "" "" None "" path "" false false query "" "") "nvt.example" true cookies "" "" true.

Definition login_callback : GatewayRequest :=
  gateway_get "GET" "/oauth2/callback" "state=st&code=c" [(loginStateCookie, "login")].
Definition session_request (method : string) : GatewayRequest := gateway_get method "/" "" [("nvt_session", "sealed")].

Definition fixture_sessions : session_store :=
  snd (handleCallback fixture_cookies fixture_gateway fixture_idp 100 100 100 "s1" login_callback ∅).

(** ** A run *)

Definition ann_run : RouteRun :=
  mkRouteRun RoutesAPIVersion "job" "running" true (mkRoutePrincipal "https://id.example" "ann" "Ann") "" "default" "implement"
    Second (mkEndpoint "job.nvt.local" "/run/job/" "backend" 8080) [mkExposure "web" "web.job.nvt.local" "backend" 3000].

Definition fixture_fetch (path _ : string) (w : nat) : option (Z * string) * nat :=
  (if path =? "/v1/routes/job" then Some (200, "{}") else Some (404, ""), S w).
Definition fixture_unmarshal (_ : string) : option RouteRun := Some ann_run.
Definition web_route : gateway_route := mkGatewayRoute routeLocalExposure "job" "web" false.

(** * The guarantees of the gateway

    What a login policy admits, what a session implies, which runs a caller
    reaches, what the dashboard is shown and what an upstream never sees. *)

Local Open Scope Z_scope.
Local Open Scope string_scope.

(** ** What the dashboard is shown *)

(** The dashboard is complete.  With a token the controller takes as the
    gateway's and a healthy table of at most [MaxRuns] active runs, whose
    principals' display names are trimmed, the gateway's paging client talking
    to the controller's handler returns the routes of all active runs in order
    and no other, and leaves the table as a sweep leaves it. *)
Theorem gateway_shows_active_runs {C : SnapshotCodec} server token encode unmarshal t0 now provider t :
  hs_routeProvider server = Some provider ->
  (forall b, exists routes, provider b = Some routes /\ routes_fit routes) ->
  permits (hs_authorization server) ["Bearer " +:+ token] apiAudienceRoutes = true ->
  healthy t -> clock_ok t0 t ->
  let t1 := map (sweep_row t0) t in
  let rows := active_rows t1 "" in
  (forall r, In r t1 -> created_at r <> RFC3339 0) ->
  (forall r, In r rows -> trimmed (display_name r) = true) ->
  (forall after, len (encode (RouteListBody (page_of provider t1 after))) <= localRouteRequestLimit /\
     (ValidateList (page_of provider t1 after) = Ok tt ->
      DecodeList unmarshal (encode (RouteListBody (page_of provider t1 after))) = Some (page_of provider t1 after))) ->
  Z.of_nat (length rows) <= MaxRuns ->
  source_List (controller_fetch server token encode t0 now) unmarshal t = (Some (omap (row_route provider) rows), t1) /\
  map rtr_RunID (omap (row_route provider) rows) = map run_id rows.
Proof.
  intros Hp Hf Ha Hh Hc t1 rows Hz Ht He Hm. pose proof (sweep_preserves t0 t Hh Hc) as Hh1. fold t1 in Hh1.
  assert (Hsw : map (sweep_row t0) t1 = t1) by (unfold t1; rewrite map_map; apply map_ext; intros r; apply sweep_row_idem).
  assert (Hc1 : clock_ok t0 t1) by (apply clock_ok_map; [apply sweep_keeps|done]).
  split.
  - apply (list_loop_all server token encode unmarshal t0 now provider Hp Hf Ha t1 Hh1 Hc1 Hsw Hz Ht He 63 [] "" t);
      [split; done|by left| |]; unfold MaxRuns in *; cbn [length]; fold rows; lia.
  - apply (page_ids server provider Hp Hf t1); [done|]. intros r Hr. by apply (active_shown t1 Hz "").
Qed.

(** ** Login policies *)

(** C37: Login admits no one the same rules would not authorize.  When a
    validated login policy allows a principal, the decision names a rule of the
    policy whose predicate holds of the claims, and the gateway's authorization
    evaluates those rules, read as rules without owners, to an allowance as
    well, by the first of them whose predicate holds. *)
Theorem login_refines_authorization policy claims :
  Policy_Validate policy = Ok tt -> dc_Allowed (Evaluate policy claims) = true ->
  let rules := map login_rule (pl_Rules policy) in
  (exists rule, In rule (pl_Rules policy) /\ ru_ID rule = dc_RuleID (Evaluate policy claims) /\
     grants claims false (login_rule rule)) /\
  exists rule, List.find (grantsb claims false) rules = Some rule /\
    authorize_rules rules claims false = mkDecision true (gr_ID rule).
Proof.
  intros Hv Ha rules. unfold Policy_Validate in Hv. apply andThen_ok in Hv as [_ Hv]. apply andThen_ok in Hv as [_ Hv].
  destruct (evaluate_grants _ _ Hv Ha) as (rule & Hin & Hid & Hg). split.
  - exists rule. split_and!; [done|done|]. by apply grantsb_iff.
  - rewrite authorize_rules_find. destruct (List.find _ rules) as [r|] eqn:E; [by exists r|].
    by rewrite (List.find_none _ _ E (login_rule rule) (in_map _ _ _ Hin)) in Hg.
Qed.

(** ** Sensitive claims *)

(** Sensitive claims cannot be used.  A path the gateway calls sensitive
    selects nothing from the claims a session keeps, whatever the identity
    provider sent; and a login policy that names no such path decides on the
    stripped claims as it would on the claims as sent. *)
Theorem sensitive_claims_unusable raw path policy issuer subject name :
  let kept := mkGatewayPrincipal issuer subject name (stripSensitiveClaims raw) in
  (isSensitiveClaimPath path = true -> selectClaimValues (CMap (gp_Claims kept)) path = []) /\
  (List.Forall open_rule (pl_Rules policy) ->
   EvaluateAdmission policy kept = EvaluateAdmission policy (mkGatewayPrincipal issuer subject name raw)).
Proof.
  intros kept. unfold kept, EvaluateAdmission, Evaluate. cbn [gp_Claims]. rewrite strip_claims. split.
  - rewrite sensitive_split. intros Hs. unfold selectClaimValues. destruct (path =? ""); [done|].
    change [strip0 (CMap raw)] with (map strip0 [CMap raw]). by rewrite claim_path_strip, Hs.
  - apply evaluate_rules_strip.
Qed.

(** ** Sessions *)

(** What changes the sessions.  A callback leaves them as they were or
    stores one session under the identifier it drew: then the signed login
    state of this browser was fresh and its state is the request's, with OIDC
    the token's nonce is the state's and its issuer the configured one, the
    principal is admitted, the redirect goes where the login was asked to
    return to, and no other session appears.  After a logout its cookie
    authenticates no one. *)
Theorem session_changes codec config provider t0 t1 t2 id r s :
  (let out := handleCallback codec config provider t0 t1 t2 id r s in
   snd out = s /\ gw_Session (fst out) = None \/
   exists login session, callback_checked codec config provider t0 r login session /\ admitted config (se_Principal session) /\
     se_ExpiresAt session = t1 + cg_MaxAgeSeconds config /\ gw_Location (fst out) = li_ReturnURL login /\
     snd out !! id = Some session /\ forall id' x, id' <> id -> snd out !! id' = Some x -> s !! id' = Some x) /\
  (gq_Method r = "POST" -> forall p, Authenticate codec config t1 t2 r (snd (handleLogout codec config r s)) <> Authenticated p).
Proof.
  split.
  - cbv zeta. destruct (callback_cases codec config provider t0 t1 t2 id r s) as [H|(login & session & Hc & Hg & He & Ho & Hl)]; [by left|].
    right. exists login, session. rewrite Ho. split_and!; try done.
    + unfold storeSession. by rewrite lookup_insert_eq.
    + intros id' x Hn Hx. apply storeSession_lookup in Hx as [[? _]|[Hx _]]; done.
  - intros Hm p Ha. apply Authenticate_session in Ha as (cookie & session & Hr & Hn & Hs & _).
    unfold handleLogout in Hs. rewrite Hm, Hr in Hs. cbn in Hs. by apply deleteSession_lookup in Hs as [_ Hs]; apply Hs.
Qed.

(** ** Access to a run *)

(** Who reaches a local run.  A request is proxied only for a live session
    of an admitted principal whom some authorization rule grants the run, by
    ownership only as the run's own principal; the run is one the controller
    reported, valid, ready and on the configured hosts; and the upstream is
    that run's session endpoint or the exposure the route names. *)
Theorem local_run_access {W} (fetch : string -> string -> W -> option (Z * string) * W) unmarshal codec config t1 t2 sessions
    r parsed w w' host upstream port :
  reachable_sessions codec config sessions ->
  serveAuthorizedLocalRun fetch unmarshal (Some codec) config t1 t2 sessions r parsed w = (LocalProxy host upstream port, w') ->
  exists cookie session run rule,
    readSession codec config r = Some cookie /\ sessions !! sk_ID cookie = Some session /\
    t1 < se_ExpiresAt session /\ t2 < se_ExpiresAt session /\ admitted config (se_Principal session) /\
    source_Get fetch unmarshal (gt_accessKey parsed) w = (Some run, w') /\
    ValidateRun run = Ok tt /\ rtr_Ready run = true /\ localRunMatchesConfig run (cg_LocalRuns config) = true /\
    In rule (gc_Rules (cg_Authorization config)) /\
    grants (CMap (gp_Claims (se_Principal session)))
      (same_principal (se_Principal session) (rtp_Issuer (rtr_Principal run)) (rtp_Subject (rtr_Principal run))) rule /\
    (if bool_decide (gt_kind parsed = routeLocalExposure)
     then exists e, In e (rtr_Exposures run) /\ ex_Name e = gt_exposure parsed /\
            (host, upstream, port) = (ex_Host e, ex_UpstreamHost e, ex_UpstreamPort e)
     else (host, upstream, port) = (ep_Host (rtr_Session run), ep_UpstreamHost (rtr_Session run), ep_UpstreamPort (rtr_Session run))).
Proof.
  intros Hr. unfold serveAuthorizedLocalRun. destruct (Authenticate _ _ _ _ _ _) as [p| |] eqn:Ea; [|done..].
  apply Authenticate_session in Ea as (cookie & session & Hck & _ & Hs & Hp & H1 & H2). unfold serve_for.
  destruct (source_Get _ _ _ _) as [[run|] w1] eqn:Eg; [|done]. destruct (localRunMatchesConfig run _) eqn:Em; [|done].
  destruct (authorized config (Some p) run) eqn:Ez; [|done]. destruct (rtr_Ready run) eqn:Er; [|done]. cbn [negb]. intros H.
  unfold authorized, EvaluateAuthorizationForOwner, evaluateAuthorization in Ez. apply authorize_allowed in Ez as (rule & Hin & Hg).
  exists cookie, session, run, rule. rewrite Hp.
  assert (Hv : ValidateRun run = Ok tt).
  { unfold localRunMatchesConfig in Em. destruct (ValidateRun run) as [[]|]; [done|]. by cbn in Em. }
  assert (w1 = w') as -> by (destruct (if bool_decide _ then _ else _) as [[? ?] ?]; by injection H).
  split_and!; try done; [rewrite <- Hp; by eapply reachable_good|]. apply (f_equal fst) in H. cbn [fst] in H.
  destruct (bool_decide (gt_kind parsed = routeLocalExposure)); cbn [andb] in H; [|by injection H as <- <- <-].
  unfold exposure_target in H. destruct (List.find _ _) as [e|] eqn:Ef; [|done]. apply List.find_some in Ef as [He Hn].
  apply String.eqb_eq in Hn. exists e. destruct (ex_UpstreamHost e =? ""); [done|]. injection H as <- <- <-. done.
Qed.

(** ** Forwarded cookies *)

(** The gateway's own cookies stay at the gateway.  Split at its
    separators, the Cookie header an upstream gets consists of fields of the
    request that have a cookie name and value and whose name is neither the
    session's nor the login state's. *)
Theorem own_cookies_withheld values session header :
  filterUpstreamRequestCookies values (gatewayCookieNames session) = Some header ->
  exists f fs, kept_fields values (gatewayCookieNames session) = f :: fs /\
    Split header ";"%char = f :: map (fun x => " " +:+ x) fs /\
    List.Forall (fun g => exists raw name value, In raw (flat_map (fun v => Split v ";"%char) values) /\ g = TrimSpace raw /\
      Cut g "="%char = (name, value, true) /\ validCookieName (TrimSpace name) = true /\
      TrimSpace name <> loginStateCookie /\ TrimSpace name <> (if session =? "" then defaultSessionCookie else session)) (f :: fs).
Proof.
  unfold filterUpstreamRequestCookies. pose proof (kept_foreign values (gatewayCookieNames session)) as Hk.
  destruct (kept_fields _ _) as [|f fs] eqn:E; [done|]. intros [= <-]. exists f, fs. split; [done|].
  split; [by eapply Split_Join_fields|]. rewrite List.Forall_forall in *. intros g Hg.
  destruct (Hk g Hg) as (_ & name & value & Hc & Hv & Ho). rewrite <- E in Hg.
  apply in_flat_map in Hg as (v & Hin & Hg). apply list_elem_of_In, list_elem_of_omap in Hg as (raw & Hraw & Hkeep).
  exists raw, name, value. split; [apply in_flat_map; exists v; split; [done|by apply list_elem_of_In]|].
  split_and!; try done; [|intros Hn; apply Ho; rewrite Hn; right; by left|intros Hn; apply Ho; rewrite Hn; by left].
  unfold keep_field in Hkeep. destruct (Cut (TrimSpace raw) _) as [[? ?] ?]. destruct (_ || _); [done|]. destruct (mem _ _); [done|]. by injection Hkeep.
Qed.

(** ** Instances *)

Lemma gateway_shows_active_runs_witness :
  let page := page_of (C := fixture_codec) fixture_provider (map (sweep_row (C := fixture_codec) (at_second 11)) job_table) in
  let encode body := match body with RouteListBody l => if list_runs l is [] then "{}" else "[]" | _ => "" end in
  let unmarshal s := if s =? "{}" then Some (page "job") else Some (page "") in
  exists route, fst (source_List (controller_fetch (C := fixture_codec) fixture_server route_token encode (at_second 11) (at_second 11))
    unmarshal job_table) = Some [route] /\ rtr_RunID route = "job".
Proof.
  intros page encode unmarshal.
  destruct (gateway_shows_active_runs (C := fixture_codec) fixture_server route_token encode unmarshal (at_second 11) (at_second 11)
    fixture_provider job_table) as [H1 H2].
  - reflexivity.
  - intros b. eexists. split; [reflexivity|]. split; [vm_compute; reflexivity|]. split; [vm_compute; discriminate|reflexivity].
  - vm_compute. reflexivity.
  - exact job_healthy.
  - clocks.
  - intros r [<-|[]]. vm_compute. discriminate.
  - apply (forallb_forall (fun r => trimmed (display_name r))). vm_compute. reflexivity.
  - intros after. fold page.
    assert (Hp : page after = page "" \/ page after = page "job").
    { unfold page, page_of, active_rows, sql_select. cbn [map job_table List.filter].
      destruct (list_where after true _); [left|right]; vm_compute; reflexivity. }
    destruct Hp as [->| ->]; (split; [vm_compute; discriminate|intros _; vm_compute; reflexivity]).
  - vm_compute. discriminate.
  - rewrite H1. cbn [fst]. revert H2. vm_compute. intros H2. eexists. split; reflexivity.
Defined.

Lemma login_refines_authorization_witness :
  Evaluate fixture_admission (CMap dev_claims) = mkDecision true "developers" /\
  exists rule, In rule (pl_Rules fixture_admission) /\ grants (CMap dev_claims) false (login_rule rule).
Proof.
  split; [vm_compute; reflexivity|].
  destruct (login_refines_authorization fixture_admission (CMap dev_claims)) as [(rule & Hin & _ & Hg) _]; [vm_compute; reflexivity..|].
  by exists rule.
Defined.

Lemma sensitive_claims_unusable_witness :
  selectClaimValues (CMap dev_claims) "pid" = [CString "0101"] /\
  selectClaimValues (CMap (stripSensitiveClaims dev_claims)) "pid" = [].
Proof.
  split; [vm_compute; reflexivity|].
  apply (proj1 (sensitive_claims_unusable dev_claims "pid" fixture_admission "" "" "")). vm_compute. reflexivity.
Defined.

Lemma session_changes_witness :
  (exists p, Authenticate fixture_cookies fixture_gateway 200 200 (session_request "POST") fixture_sessions = Authenticated p) /\
  forall p, Authenticate fixture_cookies fixture_gateway 200 200 (session_request "POST")
    (snd (handleLogout fixture_cookies fixture_gateway (session_request "POST") fixture_sessions)) <> Authenticated p.
Proof.
  split; [eexists; vm_compute; reflexivity|].
  apply (proj2 (session_changes fixture_cookies fixture_gateway fixture_idp 0 200 200 "s2" (session_request "POST") fixture_sessions)).
  reflexivity.
Defined.

Lemma local_run_access_witness :
  exists rule, In rule [owners] /\ grants (CMap (stripSensitiveClaims dev_claims)) true rule.
Proof.
  destruct (local_run_access fixture_fetch fixture_unmarshal fixture_cookies fixture_gateway 200 200 fixture_sessions
    (session_request "GET") web_route 0%nat 1%nat "web.job.nvt.local" "backend" 3000)
    as (cookie & session & run & rule & Hc & Hs & _ & _ & _ & Hr & _ & _ & _ & Hin & Hg & _);
    [unfold fixture_sessions; apply rs_callback, rs_empty|vm_compute; reflexivity|].
  exists rule. split; [exact Hin|]. vm_compute in Hc. injection Hc as <-. vm_compute in Hs. injection Hs as <-.
  vm_compute in Hr. injection Hr as <-. exact Hg.
Defined.

Lemma own_cookies_withheld_witness :
  exists f fs, kept_fields ["a=1; nvt_session=sealed"; "nvt_agent_gateway_login=x;b=2"] (gatewayCookieNames "nvt_session") = f :: fs /\
    Split "a=1; b=2" ";"%char = f :: map (fun x => " " +:+ x) fs.
Proof.
  destruct (own_cookies_withheld ["a=1; nvt_session=sealed"; "nvt_agent_gateway_login=x;b=2"] "nvt_session" "a=1; b=2")
    as (f & fs & Hk & Hs & _); [vm_compute; reflexivity|].
  exists f, fs. split; [exact Hk|exact Hs].
Defined.

(** ** Divergences *)

(** The login policy's test of sensitive paths replaces the letter before it
    lowers the case, the gateway's after it. *)
Example sensitive_paths_diverge :
  let path := String "F" (String "195" (String "152" "DSELSNUMMER")) in
  isSensitiveClaimPath path = true /\ isSensitivePath path = false.
Proof. vm_compute. split; reflexivity. Qed.

(** In subdomain mode a return address may start with a slash and a
    backslash, which browsers read as two slashes and a host. *)
Example backslash_return_url :
  validateReturnURL fixture_gateway (String "/" (String "\" "evil.example")) = Some (String "/" (String "\" "evil.example")) /\
  validateReturnURL fixture_gateway "//evil.example" = None.
Proof. vm_compute. split; reflexivity. Qed.
