(* ===== verification/GithubSubmit.v ===== *)
(** * Submitting work

    agentrun.go of the comment producer: what a command asks a schedule for,
    the admission token, and how the answer is classified.  The HTTP exchange
    and the files are arguments, the exchange with the world it changes; so are the two older modes of submission,
    which build Kubernetes objects. *)
From stdpp Require Import base list strings.
From Stdlib Require Import ZArith Lia Ascii.
From S2P Require Import Prelude GoStrings GoUrl GoJson GoJsonPrint GoHttp GoEncoding Validation LocalRun GatewayRouting GithubCommand.


Local Open Scope Z_scope.
Local Open Scope string_scope.

(** ** Configuration *)

Definition IdempotencyScopeIssue : string := "issue".
Definition IdempotencyScopeComment : string := "comment".
Definition SubmissionModeDirect : string := "direct".
Definition SubmissionModeScheduleAdmission : string := "scheduleAdmission".
Definition AdmissionModeLegacy : string := "legacy".
Definition AdmissionModeProfiled : string := "profiled".
Definition SubmissionBackendLocal : string := "local".
Definition defaultOperatorCallbackBaseURL : string := "http://nvt-operator:8082".
Definition defaultScheduleName : string := "default".
Definition defaultAcceptedReaction : string := "+1".
Definition defaultRejectedReaction : string := "-1".

(** The parts of [Config] that polling depends on; [pg_InitialSince] is
    [Some None] when the text does not parse. *)
Record ProducerConfig := mkProducerConfig {
  pg_CommandPrefixes : list string;
  pg_AllowedAuthors : list string;
  pg_Repositories : list GitHubRepository;
  pg_Scope : string;
  pg_Mode : string;
  pg_Backend : string;
  pg_AdmissionMode : string;
  pg_AdmissionBaseURL : string;
  pg_AdmissionTokenFile : string;
  pg_ScheduleNamespace : string;
  pg_ScheduleName : string;
  pg_Workflow : string;
  pg_CommandWorkflows : list (CommandIntent * string);
  pg_Namespace : string;
  pg_ReactionsEnabled : option bool;
  pg_Accepted : string;
  pg_Rejected : string;
  pg_InitialSince : option (option time)
}.

Definition submissionMode (c : ProducerConfig) : string := if pg_Mode c =? "" then SubmissionModeDirect else pg_Mode c.
Definition admissionMode (c : ProducerConfig) : string :=
  if pg_AdmissionMode c =? "" then AdmissionModeLegacy else pg_AdmissionMode c.
Definition idempotencyScope (c : ProducerConfig) : string := if pg_Scope c =? "" then IdempotencyScopeIssue else pg_Scope c.

Definition profiled (c : ProducerConfig) : bool :=
  (submissionMode c =? SubmissionModeScheduleAdmission) && (admissionMode c =? AdmissionModeProfiled).

Definition scheduleAdmissionURL (c : ProducerConfig) : string :=
  let baseURL := trim_right (one_of "/") (firstNonEmpty (pg_AdmissionBaseURL c) defaultOperatorCallbackBaseURL) in
  let namespace := firstNonEmpty (pg_ScheduleNamespace c) (pg_Namespace c) in
  let scheduleName := firstNonEmpty (pg_ScheduleName c) defaultScheduleName in
  if pg_Backend c =? SubmissionBackendLocal then baseURL ++ "/v1/schedules/" ++ PathEscape scheduleName ++ "/admissions"
  else baseURL ++ "/v1/schedules/" ++ PathEscape namespace ++ "/" ++ PathEscape scheduleName ++ "/admissions".

(** [commandWorkflows] has each intent once. *)
Definition workflowForCommand (c : ProducerConfig) (intent : CommandIntent) : option string :=
  let intent := if intent =? "" then CommandIntentPRCreate else intent in
  let configured := match List.find (fun kv => fst kv =? intent) (pg_CommandWorkflows c) with Some kv => snd kv | None => "" end in
  if negb (configured =? "") then Some configured
  else if intent =? CommandIntentPRCreate then Some (pg_Workflow c)
  else None.

(** ** Identity *)

Record agentRunIdentity := mkIdentity { id_Key : string; id_Name : string }.

Definition agentRunIdentityForCommand (c : ProducerConfig) (repo : GitHubRepository) (issue : GitHubIssue)
    (commandComment : GitHubIssueComment) (command : Command) : agentRunIdentity :=
  let o := re_Owner repo in
  let n := re_Name repo in
  if isCooperativeIntent (cm_Intent command) then
    mkIdentity (CommentIntentIdempotencyKey o n (gi_Number issue) (ic_ID commandComment) (cm_Intent command))
      (CommentIntentAgentRunName o n (gi_Number issue) (ic_ID commandComment) (cm_Intent command))
  else if idempotencyScope c =? IdempotencyScopeComment then
    mkIdentity (CommentIdempotencyKey o n (gi_Number issue) (ic_ID commandComment))
      (CommentAgentRunName o n (gi_Number issue) (ic_ID commandComment))
  else mkIdentity (IdempotencyKey o n (gi_Number issue)) (AgentRunName o n (gi_Number issue)).

Definition workGroupForCommand (repo : GitHubRepository) (issue : GitHubIssue) (command : Command) : string :=
  if negb (cm_Intent command =? CommandIntentPRContinue) then ""
  else IssueIntentIdempotencyKey (re_Owner repo) (re_Name repo) (gi_Number issue) (cm_Intent command).

Definition sourceURLForCommand (issue : GitHubIssue) (commandComment : GitHubIssueComment) : string :=
  firstNonEmpty (ic_HTMLURL commandComment) (gi_HTMLURL issue).

(** ** The request *)

Definition githubPrincipalIssuer : string := "https://github.com".
Definition maxScheduleAdmissionResponseBytes : Z := 64 * 1024.
Definition maxResolvedRunPromptBytes : Z := 64 * 1024.

Record profiledAdmissionPrincipal := mkProfiledPrincipal { fp_Issuer : string; fp_Subject : string; fp_DisplayName : string }.

Record profiledScheduleAdmissionWork := mkProfiledWork {
  fw_ID : string;
  fw_Group : string;
  fw_Title : string;
  fw_URL : string;
  fw_Repository : string;
  fw_Principal : profiledAdmissionPrincipal
}.

Record profiledScheduleAdmissionRequest := mkProfiledRequest {
  fr_Workflow : string;
  fr_Work : profiledScheduleAdmissionWork;
  fr_Prompt : string
}.

#[export] Instance ToJson_principal : ToJson profiledAdmissionPrincipal := fun p =>
  JObject [("issuer", JString (fp_Issuer p)); ("subject", JString (fp_Subject p)); ("displayName", JString (fp_DisplayName p))].

#[export] Instance ToJson_work : ToJson profiledScheduleAdmissionWork := fun w =>
  JObject ([("id", JString (fw_ID w))] ++ omitempty "group" (fw_Group w)
    ++ [("title", JString (fw_Title w)); ("url", JString (fw_URL w)); ("repository", JString (fw_Repository w));
        ("principal", to_json (fw_Principal w))])%list.

#[export] Instance ToJson_request : ToJson profiledScheduleAdmissionRequest := fun r =>
  JObject (omitempty "workflow" (fr_Workflow r)
    ++ [("work", to_json (fr_Work r)); ("input", JObject [("prompt", JString (fr_Prompt r))])])%list.

(** ** Tokens *)

(** A part of a JWT that decodes to something, and one that is an object. *)
Definition jwt_part (part : string) : bool :=
  match base64_decode part with Some value => negb (value =? "") | None => false end.
Definition jwt_object (part : string) : bool :=
  match base64_decode part ≫= json_document with Some (JObject _) => true | _ => false end.

Definition readAdmissionToken (fs : FileSystem) (path : string) : option string :=
  match ReadFile fs path with
  | None => None
  | Some data =>
      let token := TrimSpace data in
      match Split token "."%char with
      | [header; claims; signature] =>
          if ContainsAny token (String "032" (String "009" (String "013" (String "010" "")))) then None
          else if jwt_part header && jwt_part claims && jwt_part signature && jwt_object header && jwt_object claims then Some token
          else None
      | _ => None
      end
  end.

Definition readLocalAdmissionToken (fs : FileSystem) (path : string) : option string :=
  match Lstat fs path with
  | None => None
  | Some info =>
      if negb (fi_regular info) || negb (Z.land (fi_perm info) 63 =? 0)%Z || (fi_size info <? 32)%Z || (4096 <? fi_size info)%Z then None
      else match ReadFile fs path with
      | None => None
      | Some data =>
          if (len data <? 32)%Z || (4096 <? len data)%Z then None
          else
            let token := TrimSpace data in
            if (len token <? 32)%Z || (4096 <? len token)%Z || negb (ValidString token)
               || exists_rune (fun r => (r <=? 0x20)%Z || (r =? 0x7f)%Z) token
            then None else Some token
      end
  end.

(** ** The answer *)

Inductive schedulingOutcome : Type :=
| schedulingOutcomeNone
| schedulingOutcomeAccepted
| schedulingOutcomeDeferred
| schedulingOutcomeRejected
| schedulingOutcomeUncertain.

Record submissionResult := mkSubmission { sm_Key : string; sm_Created : bool; sm_Outcome : schedulingOutcome }.

Inductive submit_error : Type := ErrSubmissionDeferred | errCommandDisabled | errCommandPromptTooLarge | errSubmission.

Definition submission : Type := submissionResult * option submit_error.

Record scheduleAdmissionResponse := mkAdmissionResponse {
  as_Scheduled : bool;
  as_Reason : string;
  as_AgentRun : option (string * string)
}.

Definition run_name_fields : list (field json (string * string)) :=
  [("namespace", into_string (fun s x => (s, snd x))); ("name", into_string (fun s x => (fst x, s)))].

(** A pointer: null clears it, an object is decoded into what it points to or
    into a new value. *)
Definition into_run_name (v : json) (x : scheduleAdmissionResponse) : option scheduleAdmissionResponse :=
  match v with
  | JNull => Some (mkAdmissionResponse (as_Scheduled x) (as_Reason x) None)
  | JObject ms =>
      (fun n => mkAdmissionResponse (as_Scheduled x) (as_Reason x) (Some n))
        <$> unmarshal_members run_name_fields ms (default ("", "") (as_AgentRun x))
  | _ => None
  end.

Definition response_fields : list (field json scheduleAdmissionResponse) :=
  [("scheduled", into_bool (fun b x => mkAdmissionResponse b (as_Reason x) (as_AgentRun x)));
   ("reason", into_string (fun s x => mkAdmissionResponse (as_Scheduled x) s (as_AgentRun x)));
   ("agentRun", into_run_name)].

Definition decodeScheduleAdmissionContract (body : string) : option scheduleAdmissionResponse :=
  if (maxScheduleAdmissionResponseBytes <? len body)%Z then None
  else match json_document body with
  | Some JNull => Some (mkAdmissionResponse false "" None)
  | Some (JObject ms) => unmarshal_members response_fields ms (mkAdmissionResponse false "" None)
  | _ => None
  end.

Definition isDeferredCapacityReason (reason : string) : bool :=
  (reason =? "max-parallelism-reached") || (reason =? "principal-max-parallelism-reached").

Definition definitiveScheduleAdmissionRejection (status : Z) (response : scheduleAdmissionResponse) : bool :=
  if as_Scheduled response || bool_decide (is_Some (as_AgentRun response)) then false
  else if (status =? 400)%Z
  then (as_Reason response =? "invalid-execution-profile-configuration") || (as_Reason response =? "principal-required")
  else if (status =? 403)%Z
  then mem (as_Reason response)
         ["workflow-selection-denied"; "profile-selection-denied"; "principal-not-eligible"; "principal-not-enrolled"]
  else if (status =? 409)%Z then as_Reason response =? "credential-not-ready"
  else false.

Definition uncertain : submission := (mkSubmission "" false schedulingOutcomeUncertain, Some errSubmission).

(** The answer to a posted request, by its status and body. *)
Definition classify_response (key : string) (status : Z) (body : string) : submission :=
  let decoded := decodeScheduleAdmissionContract body in
  if (status =? 201)%Z then
    match decoded with
    | Some r => if as_Scheduled r then (mkSubmission key true schedulingOutcomeAccepted, None) else uncertain
    | None => uncertain
    end
  else if (status =? 202)%Z then
    match decoded with
    | Some r =>
        if as_Scheduled r then (mkSubmission key true schedulingOutcomeAccepted, None)
        else if as_Reason r =? "duplicate-work" then (mkSubmission key false schedulingOutcomeAccepted, None)
        else if as_Reason r =? "schedule-suspended"
        then (mkSubmission key false schedulingOutcomeDeferred, Some ErrSubmissionDeferred)
        else uncertain
    | None => uncertain
    end
  else if (status =? 429)%Z then
    match decoded with
    | Some r =>
        if negb (as_Scheduled r) && isDeferredCapacityReason (as_Reason r)
        then (mkSubmission key false schedulingOutcomeDeferred, Some ErrSubmissionDeferred) else uncertain
    | None => uncertain
    end
  else
    match decoded with
    | Some r =>
        if definitiveScheduleAdmissionRejection status r
        then (mkSubmission "" false schedulingOutcomeRejected, Some errSubmission) else uncertain
    | None => uncertain
    end.

(** ** Submission *)

Section Submit.
Variable config : ProducerConfig.
Variable fs : FileSystem.
(** The outside world, which an exchange may change. *)
Context {G : Type}.
(** The older modes: the direct creation of an object (created or not), and
    the body of an unprofiled admission. *)
Variable submitDirect : GitHubRepository -> GitHubIssue -> list GitHubIssueComment -> GitHubIssueComment -> Command
                        -> agentRunIdentity -> G -> option bool * G.
Variable legacyBody : GitHubRepository -> GitHubIssue -> list GitHubIssueComment -> GitHubIssueComment -> Command
                      -> agentRunIdentity -> option string.
(** The exchange: address, token and body of the request, status and body of
    the answer. *)
Variable post : string -> string -> string -> G -> option (Z * string) * G.

(** The request of a command in profiled mode. *)
Definition profiled_request (workflow : string) (repo : GitHubRepository) (issue : GitHubIssue) (commandComment : GitHubIssueComment)
    (command : Command) (identity : agentRunIdentity) (prompt : string) : profiledScheduleAdmissionRequest :=
  mkProfiledRequest workflow
    (mkProfiledWork (id_Key identity) (workGroupForCommand repo issue command) (gi_Title issue)
       (sourceURLForCommand issue commandComment) (re_Owner repo ++ "/" ++ re_Name repo)
       (mkProfiledPrincipal githubPrincipalIssuer (Itoa (us_ID (ic_User commandComment))) (us_Login (ic_User commandComment))))
    prompt.

(** [scheduleAdmissionPayload], marshalled, with the token. *)
Definition scheduleAdmissionPayload (repo : GitHubRepository) (issue : GitHubIssue) (comments : list GitHubIssueComment)
    (commandComment : GitHubIssueComment) (command : Command) (identity : agentRunIdentity) : result submit_error (string * string) :=
  if admissionMode config =? AdmissionModeProfiled then
    if (us_ID (ic_User commandComment) <=? 0)%Z then Err errSubmission
    else match (if pg_Backend config =? SubmissionBackendLocal then readLocalAdmissionToken else readAdmissionToken)
                 fs (pg_AdmissionTokenFile config) with
    | None => Err errSubmission
    | Some token =>
        match workflowForCommand config (cm_Intent command) with
        | None => Err errSubmission
        | Some workflow =>
            let prompt := buildPrompt repo issue comments commandComment command in
            if isCooperativeIntent (cm_Intent command) && (maxResolvedRunPromptBytes <? len prompt)%Z then Err errCommandPromptTooLarge
            else Ok (json_Marshal (profiled_request workflow repo issue commandComment command identity prompt), token)
        end
    end
  else match legacyBody repo issue comments commandComment command identity with
  | Some body => Ok (body, "")
  | None => Err errSubmission
  end.

Definition submitScheduleAdmission (repo : GitHubRepository) (issue : GitHubIssue) (comments : list GitHubIssueComment)
    (commandComment : GitHubIssueComment) (command : Command) (identity : agentRunIdentity) (g : G) : submission * G :=
  match scheduleAdmissionPayload repo issue comments commandComment command identity with
  | Err errCommandPromptTooLarge => ((mkSubmission "" false schedulingOutcomeRejected, Some errCommandPromptTooLarge), g)
  | Err e => ((mkSubmission "" false schedulingOutcomeNone, Some e), g)
  | Ok (body, token) =>
      match url_Parse (scheduleAdmissionURL config) with
      | None => ((mkSubmission "" false schedulingOutcomeNone, Some errSubmission), g)
      | Some _ =>
        let '(response, g') := post (scheduleAdmissionURL config) token body g in
        (match response with
         | None => uncertain
         | Some (status, answer) =>
             classify_response (id_Key identity) status
               (String.substring 0 (Z.to_nat (maxScheduleAdmissionResponseBytes + 1)) answer)
         end, g')
      end
  end.

Definition submitWithOutcome (repo : GitHubRepository) (issue : GitHubIssue) (comments : list GitHubIssueComment)
    (commandComment : GitHubIssueComment) (command : Command) (g : G) : submission * G :=
  if isCooperativeIntent (cm_Intent command)
     && (negb (profiled config) || bool_decide (workflowForCommand config (cm_Intent command) = None))
  then ((mkSubmission "" false schedulingOutcomeRejected, Some errCommandDisabled), g)
  else
    let identity := agentRunIdentityForCommand config repo issue commandComment command in
    if submissionMode config =? SubmissionModeScheduleAdmission
    then submitScheduleAdmission repo issue comments commandComment command identity g
    else
      let '(created, g') := submitDirect repo issue comments commandComment command identity g in
      (match created with
       | Some created => (mkSubmission (id_Key identity) created schedulingOutcomeNone, None)
       | None => (mkSubmission "" false schedulingOutcomeNone, Some errSubmission)
       end, g').
End Submit.
