(* ===== verification/GithubState.v ===== *)
(** * The comment producer's state

    state.go: how far each repository has been polled, and the help requests
    being answered.  [StateStore] is the interface, [StateSpec] what its
    clients rely on; the SQLite store and the store in memory are the two
    implementations. *)
From stdpp Require Import base list strings gmap.
From Stdlib Require Import ZArith Lia.
From S2P Require Import Prelude GoStrings LocalRun.


Local Open Scope Z_scope.
Local Open Scope string_scope.

Definition HelpResponsePending : string := "pending".
Definition HelpResponseDelivered : string := "delivered".

Record HelpResponseRecord := mkHelp { hp_Marker : string; hp_Status : string; hp_AttemptedAt : option time }.

(** ** The interface *)

(** [None] and [false] are errors. *)
Class StateStore (S : Type) : Type := {
  GetRepoCursor : string -> S -> option (option time);
  SetRepoCursor : string -> time -> S -> bool * S;
  GetOrCreateHelpResponse : string -> Z -> string -> time -> S -> option (HelpResponseRecord * bool) * S;
  TryBeginHelpResponseAttempt : string -> Z -> time -> time -> S -> option bool * S;
  SetHelpResponseDelivered : string -> Z -> time -> S -> bool * S;
  DeleteDeliveredHelpResponses : string -> S -> bool * S
}.

Definition help_pending (r : HelpResponseRecord) : bool := hp_Status r =? HelpResponsePending.
Definition help_delivered (r : HelpResponseRecord) : bool := hp_Status r =? HelpResponseDelivered.
Definition set_attempted (t : time) (r : HelpResponseRecord) : HelpResponseRecord := mkHelp (hp_Marker r) (hp_Status r) (Some t).
Definition set_delivered (r : HelpResponseRecord) : HelpResponseRecord := mkHelp (hp_Marker r) HelpResponseDelivered (hp_AttemptedAt r).

(** A help request whose last attempt is old enough. *)
Definition attempt_due (retryBefore : time) (r : HelpResponseRecord) : bool :=
  help_pending r && match hp_AttemptedAt r with Some t => (t <=? retryBefore)%Z | None => true end.

(** What the operations do to the cursors and the help requests: each succeeds
    as described or fails and changes nothing. *)
Class StateSpec (S : Type) `{StateStore S} : Type := {
  state_ok : S -> Prop;
  cursors : S -> gmap string time;
  helps : S -> gmap (string * Z) HelpResponseRecord;
  GetRepoCursor_spec k s : state_ok s -> forall r, GetRepoCursor k s = Some r -> r = cursors s !! k;
  SetRepoCursor_spec k c s : state_ok s ->
    let '(ok, s') := SetRepoCursor k c s in
    state_ok s' /\ cursors s' = (if ok then <[k := c]> (cursors s) else cursors s) /\ helps s' = helps s;
  GetOrCreate_spec k id marker now s : state_ok s ->
    let '(r, s') := GetOrCreateHelpResponse k id marker now s in
    state_ok s' /\ cursors s' = cursors s /\
    match r with
    | None => helps s' = helps s
    | Some (record, created) =>
        match helps s !! (k, id) with
        | Some old => record = old /\ created = false /\ helps s' = helps s
        | None => record = mkHelp marker HelpResponsePending None /\ created = true /\ helps s' = <[(k, id) := record]> (helps s)
        end
    end;
  TryBegin_spec k id now before s : state_ok s ->
    let '(r, s') := TryBeginHelpResponseAttempt k id now before s in
    state_ok s' /\ cursors s' = cursors s /\
    match r with
    | None => helps s' = helps s
    | Some begun =>
        begun = match helps s !! (k, id) with Some old => attempt_due before old | None => false end /\
        helps s' = if begun then alter (set_attempted now) (k, id) (helps s) else helps s
    end;
  SetDelivered_spec k id now s : state_ok s ->
    let '(ok, s') := SetHelpResponseDelivered k id now s in
    state_ok s' /\ cursors s' = cursors s /\
    helps s' = (if ok then alter set_delivered (k, id) (helps s) else helps s) /\
    (ok = true -> is_Some (helps s !! (k, id)));
  DeleteDelivered_spec k s : state_ok s ->
    let '(ok, s') := DeleteDeliveredHelpResponses k s in
    state_ok s' /\ cursors s' = cursors s /\
    helps s' = if ok then filter (fun kv => negb ((fst (fst kv) =? k) && help_delivered (snd kv))) (helps s) else helps s
}.

(** A store on which an operation fails only when it has nothing to act on. *)
Class StateTotal (S : Type) `{StateSpec S} : Type := {
  GetRepoCursor_total k s : state_ok s -> is_Some (GetRepoCursor k s);
  SetRepoCursor_total k c s : state_ok s -> fst (SetRepoCursor k c s) = true;
  GetOrCreate_total k id marker now s : state_ok s -> is_Some (fst (GetOrCreateHelpResponse k id marker now s));
  TryBegin_total k id now before s : state_ok s -> is_Some (fst (TryBeginHelpResponseAttempt k id now before s));
  SetDelivered_total k id now s : state_ok s -> is_Some (helps s !! (k, id)) -> fst (SetHelpResponseDelivered k id now s) = true;
  DeleteDelivered_total k s : state_ok s -> fst (DeleteDeliveredHelpResponses k s) = true
}.

(** ** In memory *)

Record memoryStateStore := mkMemory { mm_cursors : gmap string time; mm_help : gmap string (gmap Z HelpResponseRecord) }.

Definition newMemoryStateStore : memoryStateStore := mkMemory ∅ ∅.

Definition memory_GetRepoCursor (k : string) (s : memoryStateStore) : option (option time) := Some (mm_cursors s !! k).

Definition memory_SetRepoCursor (k : string) (c : time) (s : memoryStateStore) : bool * memoryStateStore :=
  (true, mkMemory (<[k := c]> (mm_cursors s)) (mm_help s)).

Definition memory_comments (k : string) (s : memoryStateStore) : gmap Z HelpResponseRecord := default ∅ (mm_help s !! k).

Definition memory_GetOrCreate (k : string) (id : Z) (marker : string) (_ : time) (s : memoryStateStore)
  : option (HelpResponseRecord * bool) * memoryStateStore :=
  let comments := memory_comments k s in
  match comments !! id with
  | Some record => (Some (record, false), mkMemory (mm_cursors s) (<[k := comments]> (mm_help s)))
  | None =>
      let record := mkHelp marker HelpResponsePending None in
      (Some (record, true), mkMemory (mm_cursors s) (<[k := <[id := record]> comments]> (mm_help s)))
  end.

Definition memory_TryBegin (k : string) (id : Z) (now retryBefore : time) (s : memoryStateStore) : option bool * memoryStateStore :=
  match memory_comments k s !! id with
  | None => (Some false, s)
  | Some record =>
      if negb (hp_Status record =? HelpResponsePending)
         || match hp_AttemptedAt record with Some t => (retryBefore <? t)%Z | None => false end
      then (Some false, s)
      else (Some true, mkMemory (mm_cursors s) (<[k := <[id := set_attempted now record]> (memory_comments k s)]> (mm_help s)))
  end.

Definition memory_SetDelivered (k : string) (id : Z) (_ : time) (s : memoryStateStore) : bool * memoryStateStore :=
  match memory_comments k s !! id with
  | None => (false, s)
  | Some record =>
      if hp_Status record =? HelpResponseDelivered then (true, s)
      else if negb (hp_Status record =? HelpResponsePending) then (false, s)
      else (true, mkMemory (mm_cursors s) (<[k := <[id := set_delivered record]> (memory_comments k s)]> (mm_help s)))
  end.

Definition memory_DeleteDelivered (k : string) (s : memoryStateStore) : bool * memoryStateStore :=
  (true, mkMemory (mm_cursors s) (alter (filter (fun kv => negb (help_delivered (snd kv)))) k (mm_help s))).

#[export] Instance memory_store : StateStore memoryStateStore := {|
  GetRepoCursor := memory_GetRepoCursor;
  SetRepoCursor := memory_SetRepoCursor;
  GetOrCreateHelpResponse := memory_GetOrCreate;
  TryBeginHelpResponseAttempt := memory_TryBegin;
  SetHelpResponseDelivered := memory_SetDelivered;
  DeleteDeliveredHelpResponses := memory_DeleteDelivered
|}.

(** ** In SQLite *)

(** Times are stored as text of fixed width in UTC, whose order is that of the
    instants.  [updated_at] is written and never read. *)
Record cursor_row := mkCursorRow { cr_repo_key : string; cr_cursor : time }.
Record help_row := mkHelpRow {
  hr_repo_key : string;
  hr_comment_id : Z;
  hr_marker : string;
  hr_status : string;
  hr_attempted_at : option time
}.
Record SQLiteStateStore := mkSQLite { sq_cursors : list cursor_row; sq_help : list help_row }.

Definition is_help (k : string) (id : Z) (r : help_row) : bool := (hr_repo_key r =? k) && (hr_comment_id r =? id)%Z.
Definition help_record (r : help_row) : HelpResponseRecord := mkHelp (hr_marker r) (hr_status r) (hr_attempted_at r).

Definition sqlite_GetRepoCursor (k : string) (s : SQLiteStateStore) : option (option time) :=
  Some (cr_cursor <$> List.find (fun r => cr_repo_key r =? k) (sq_cursors s)).

(** INSERT ... ON CONFLICT DO UPDATE *)
Definition sqlite_SetRepoCursor (k : string) (c : time) (s : SQLiteStateStore) : bool * SQLiteStateStore :=
  (true, mkSQLite
    (if existsb (fun r => cr_repo_key r =? k) (sq_cursors s)
     then map (fun r => if cr_repo_key r =? k then mkCursorRow k c else r) (sq_cursors s)
     else sq_cursors s ++ [mkCursorRow k c])%list (sq_help s)).

(** INSERT ... ON CONFLICT DO NOTHING, and the row read back. *)
Definition sqlite_GetOrCreate (k : string) (id : Z) (marker : string) (_ : time) (s : SQLiteStateStore)
  : option (HelpResponseRecord * bool) * SQLiteStateStore :=
  let created := negb (existsb (is_help k id) (sq_help s)) in
  let s' := mkSQLite (sq_cursors s)
              (if created then sq_help s ++ [mkHelpRow k id marker HelpResponsePending None] else sq_help s)%list in
  (match List.find (is_help k id) (sq_help s') with
   | None => None
   | Some row =>
       if negb (hr_status row =? HelpResponsePending) && negb (hr_status row =? HelpResponseDelivered) then None
       else Some (help_record row, created)
   end, s').

(** The rows an UPDATE's WHERE clause selects, and their number. *)
Definition update_help (where_ : help_row -> bool) (set : help_row -> help_row) (s : SQLiteStateStore) : nat * SQLiteStateStore :=
  (length (List.filter where_ (sq_help s)),
   mkSQLite (sq_cursors s) (map (fun r => if where_ r then set r else r) (sq_help s))).

Definition sqlite_TryBegin (k : string) (id : Z) (now retryBefore : time) (s : SQLiteStateStore) : option bool * SQLiteStateStore :=
  let '(rows, s') := update_help
    (fun r => is_help k id r && ((hr_status r =? HelpResponsePending)
              && match hr_attempted_at r with Some t => (t <=? retryBefore)%Z | None => true end))
    (fun r => mkHelpRow (hr_repo_key r) (hr_comment_id r) (hr_marker r) (hr_status r) (Some now)) s in
  (Some (rows =? 1)%nat, s').

Definition sqlite_SetDelivered (k : string) (id : Z) (_ : time) (s : SQLiteStateStore) : bool * SQLiteStateStore :=
  let '(rows, s') := update_help
    (fun r => is_help k id r && (hr_status r =? HelpResponsePending))
    (fun r => mkHelpRow (hr_repo_key r) (hr_comment_id r) (hr_marker r) HelpResponseDelivered (hr_attempted_at r)) s in
  (if (rows =? 0)%nat
   then match List.find (is_help k id) (sq_help s') with Some row => hr_status row =? HelpResponseDelivered | None => false end
   else true, s').

Definition sqlite_DeleteDelivered (k : string) (s : SQLiteStateStore) : bool * SQLiteStateStore :=
  (true, mkSQLite (sq_cursors s)
    (List.filter (fun r => negb ((hr_repo_key r =? k) && (hr_status r =? HelpResponseDelivered))) (sq_help s))).

#[export] Instance sqlite_store : StateStore SQLiteStateStore := {|
  GetRepoCursor := sqlite_GetRepoCursor;
  SetRepoCursor := sqlite_SetRepoCursor;
  GetOrCreateHelpResponse := sqlite_GetOrCreate;
  TryBeginHelpResponseAttempt := sqlite_TryBegin;
  SetHelpResponseDelivered := sqlite_SetDelivered;
  DeleteDeliveredHelpResponses := sqlite_DeleteDelivered
|}.

(** * Both state stores keep the interface

    The store in memory and the store in SQLite satisfy the laws of
    [StateSpec], so what is proved of the poller holds over either. *)

Local Open Scope Z_scope.
Local Open Scope string_scope.

Definition status_ok (r : HelpResponseRecord) : bool := help_pending r || help_delivered r.

Lemma attempt_due_cases before r :
  negb (hp_Status r =? HelpResponsePending) || match hp_AttemptedAt r with Some t => (before <? t)%Z | None => false end
  = negb (attempt_due before r).
Proof.
  unfold attempt_due, help_pending. destruct (_ =? _); [|done]. destruct (hp_AttemptedAt r) as [t|]; [|done]. cbn [negb orb andb].
  by rewrite Z.ltb_antisym.
Qed.

Lemma set_delivered_idle r : help_delivered r = true -> set_delivered r = r.
Proof. unfold help_delivered, set_delivered. intros H%String.eqb_eq. destruct r. cbn in *. by subst. Qed.

(** ** In memory *)

Definition memory_helps (s : memoryStateStore) : gmap (string * Z) HelpResponseRecord :=
  map_uncurry (M1 := gmap string) (M2 := gmap Z) (mm_help s).

Definition memory_ok (s : memoryStateStore) : Prop := forall k r, memory_helps s !! k = Some r -> status_ok r = true.

Lemma memory_lookup k id s : memory_helps s !! (k, id) = memory_comments k s !! id.
Proof.
  unfold memory_helps, memory_comments. rewrite lookup_map_uncurry. destruct (mm_help s !! k); cbn; [done|]. by rewrite lookup_empty.
Qed.

(** A write to one comment's record. *)
Lemma memory_write k id r s :
  memory_helps (mkMemory (mm_cursors s) (<[k := <[id := r]> (memory_comments k s)]> (mm_help s))) = <[(k, id) := r]> (memory_helps s).
Proof.
  apply map_eq. intros [k' id']. rewrite memory_lookup. unfold memory_comments at 1. cbn [mm_help].
  destruct (decide (k' = k)) as [->|Hk].
  - rewrite lookup_insert_eq. cbn [default]; unfold Datatypes.id. destruct (decide (id' = id)) as [->|Hid].
    + by rewrite !lookup_insert_eq.
    + rewrite !lookup_insert_ne by congruence. by rewrite memory_lookup.
  - rewrite !lookup_insert_ne by congruence. by rewrite memory_lookup.
Qed.

Lemma memory_idle k s : memory_helps (mkMemory (mm_cursors s) (<[k := memory_comments k s]> (mm_help s))) = memory_helps s.
Proof.
  apply map_eq. intros [k' id']. rewrite !memory_lookup. unfold memory_comments at 1. cbn [mm_help].
  destruct (decide (k' = k)) as [->|Hk]; [by rewrite lookup_insert_eq|]. by rewrite lookup_insert_ne.
Qed.

Lemma memory_ok_insert c m k r s : status_ok r = true -> memory_ok s -> memory_helps (mkMemory c m) = <[k := r]> (memory_helps s) ->
  memory_ok (mkMemory c m).
Proof. intros Hr Hs E k' r'. rewrite E. intros [[_ <-]|[_ H]]%lookup_insert_Some; [done|by eapply Hs]. Qed.

Lemma alter_write {K A} `{Countable K} (f : A -> A) (k : K) (m : gmap K A) x : m !! k = Some x -> <[k := f x]> m = alter f k m.
Proof.
  intros E. apply map_eq. intros k'. destruct (decide (k = k')) as [<-|Hk].
  - by rewrite lookup_insert_eq, lookup_alter_eq, E.
  - by rewrite lookup_insert_ne, lookup_alter_ne.
Qed.

#[export] Instance memory_spec : StateSpec memoryStateStore.
Proof.
  apply (Build_StateSpec _ _ memory_ok mm_cursors memory_helps).
  - intros k s _ r [= <-]. done.
  - intros k c s Hs. done.
  - intros k id marker now s Hs. cbn [GetOrCreateHelpResponse memory_store]. unfold memory_GetOrCreate. rewrite memory_lookup.
    destruct (memory_comments k s !! id) as [r|] eqn:E.
    + split; [|split; [done|by rewrite memory_idle]]. intros k' r'. rewrite memory_idle. apply Hs.
    + rewrite memory_write. split; [|done]. eapply memory_ok_insert; [|exact Hs|apply memory_write]. done.
  - intros k id now before s Hs. cbn [TryBeginHelpResponseAttempt memory_store]. unfold memory_TryBegin. rewrite memory_lookup.
    destruct (memory_comments k s !! id) as [r|] eqn:E; [|done]. rewrite attempt_due_cases.
    destruct (attempt_due before r) eqn:Ed; cbn [negb]; [|done]. rewrite memory_write. split; [|split; [done|]].
    + eapply memory_ok_insert; [|exact Hs|apply memory_write]. unfold attempt_due in Ed. apply andb_true_iff in Ed as [Ed _].
      unfold status_ok, help_pending in *. cbn [hp_Status set_attempted]. by rewrite Ed.
    + split; [done|]. apply alter_write. by rewrite memory_lookup.
  - intros k id now s Hs. cbn [SetHelpResponseDelivered memory_store]. unfold memory_SetDelivered.
    destruct (memory_comments k s !! id) as [r|] eqn:E; [|done]. rewrite <- memory_lookup in E.
    destruct (_ =? HelpResponseDelivered) eqn:Ed.
    + split; [done|]. split; [done|]. rewrite E. split; [|by eexists]. rewrite <- (alter_write _ _ _ _ E), set_delivered_idle by done.
      by rewrite insert_id.
    + destruct (_ =? HelpResponsePending) eqn:Ep; cbn [negb]; [|done]. rewrite memory_write. split; [|split; [done|]].
      * eapply memory_ok_insert; [|exact Hs|apply memory_write]. unfold status_ok, help_delivered. cbn. done.
      * split; [by apply alter_write|]. rewrite E. by eexists.
  - intros k s Hs. cbn [DeleteDeliveredHelpResponses memory_store]. unfold memory_DeleteDelivered.
    set (s' := mkMemory _ _).
    assert (E : memory_helps s' = filter (fun kv => negb ((fst (fst kv) =? k) && help_delivered (snd kv))) (memory_helps s)).
    { apply map_eq. intros [k' id']. rewrite memory_lookup, map_lookup_filter. unfold memory_comments. cbn [mm_help s'].
      rewrite memory_lookup. unfold memory_comments. destruct (decide (k' = k)) as [->|Hk].
      - rewrite lookup_alter_eq. destruct (mm_help s !! k) as [m|]; cbn [fmap option_fmap option_map default]; [|by rewrite lookup_empty].
        unfold id. rewrite map_lookup_filter. destruct (m !! id') as [r|]; [|done]. cbn [fst snd]. rewrite String.eqb_refl. done.
      - rewrite lookup_alter_ne by done. destruct (default ∅ (mm_help s !! k') !! id') as [r|]; [|done]. cbn [fst snd].
        apply String.eqb_neq in Hk. rewrite Hk. done. }
    split; [|done]. intros k' r. rewrite E, map_lookup_filter_Some. intros [H _]. by eapply Hs.
Defined.

#[export] Instance memory_total : StateTotal memoryStateStore.
Proof.
  split; cbn [GetRepoCursor SetRepoCursor GetOrCreateHelpResponse TryBeginHelpResponseAttempt SetHelpResponseDelivered
    DeleteDeliveredHelpResponses memory_store]; intros.
  - by eexists.
  - done.
  - unfold memory_GetOrCreate. destruct (_ !! _); by eexists.
  - unfold memory_TryBegin. destruct (_ !! _); [|by eexists]. destruct (_ || _); by eexists.
  - unfold memory_SetDelivered. cbn [helps memory_spec state_ok] in *. destruct H0 as [r Hr]. rewrite memory_lookup in Hr. rewrite Hr.
    rewrite <- memory_lookup in Hr. apply H in Hr. unfold status_ok, help_pending, help_delivered in Hr.
    destruct (_ =? HelpResponseDelivered) eqn:E; [done|]. rewrite orb_false_r in Hr. by rewrite Hr.
  - done.
Qed.

(** ** In SQLite *)

(** The first row a predicate selects, in a table that has been changed. *)
Lemma find_map_same {A} (p : A -> bool) (f : A -> A) l : (forall x, p (f x) = p x) -> List.find p (map f l) = f <$> List.find p l.
Proof. intros Hp. induction l as [|x l IH]; [done|]. cbn. rewrite Hp. by destruct (p x). Qed.

Lemma find_app {A} (p : A -> bool) l1 l2 :
  List.find p (l1 ++ l2) = match List.find p l1 with Some x => Some x | None => List.find p l2 end.
Proof. induction l1 as [|x l IH]; [done|]. cbn. by destruct (p x). Qed.

Lemma existsb_find {A} (p : A -> bool) l : existsb p l = match List.find p l with Some _ => true | None => false end.
Proof. induction l as [|x l IH]; [done|]. cbn. by destruct (p x). Qed.

(** A predicate that selects at most one row. *)
Definition sole {A} (p : A -> bool) (l : list A) : Prop := (length (List.filter p l) <= 1)%nat.

Lemma filter_none {A} (p : A -> bool) l : length (List.filter p l) = 0%nat -> List.find p l = None.
Proof. induction l as [|x l IH]; [done|]. cbn. by destruct (p x). Qed.

Lemma find_filter {A} (p q : A -> bool) l : sole p l ->
  List.find p (List.filter q l) = match List.find p l with Some x => if q x then Some x else None | None => None end.
Proof.
  unfold sole. induction l as [|x l IH]; [done|]. cbn. destruct (p x) eqn:Ep; cbn [length].
  - intros Hl. assert (H0 : List.find p l = None) by (apply filter_none; lia). destruct (q x) eqn:Eq; cbn; [by rewrite Ep|].
    rewrite IH by lia. by rewrite H0.
  - intros Hl. destruct (q x); cbn; [rewrite Ep|]; by apply IH.
Qed.

Lemma count_filter {A} (p q : A -> bool) l : sole p l ->
  length (List.filter (fun x => p x && q x) l) = match List.find p l with Some x => if q x then 1%nat else 0%nat | None => 0%nat end.
Proof.
  unfold sole. induction l as [|x l IH]; [done|]. cbn. destruct (p x) eqn:Ep; cbn [length andb].
  - intros Hl. assert (H0 : List.find p l = None) by (apply filter_none; lia). specialize (IH ltac:(lia)). rewrite H0 in IH.
    destruct (q x); cbn [length]; by rewrite IH.
  - intros Hl. by apply IH.
Qed.

Lemma sole_filter {A} (p q : A -> bool) l : sole p l -> sole p (List.filter q l).
Proof.
  unfold sole. enough (length (List.filter p (List.filter q l)) <= length (List.filter p l))%nat by lia.
  induction l as [|x l IH]; [done|]. cbn. destruct (q x); cbn; destruct (p x); cbn; lia.
Qed.

Lemma sole_map {A} (p : A -> bool) (f : A -> A) l : (forall x, p (f x) = p x) -> sole p l -> sole p (map f l).
Proof.
  unfold sole. intros Hp. assert (E : length (List.filter p (map f l)) = length (List.filter p l)).
  { induction l as [|x l IH]; [done|]. cbn. rewrite Hp. destruct (p x); cbn; lia. }
  by rewrite E.
Qed.

Lemma sole_add {A} (p : A -> bool) l x : (List.find p l = None \/ p x = false) -> sole p l -> sole p (l ++ [x]).
Proof.
  unfold sole. rewrite List.filter_app, length_app. cbn. intros [H|H] Hl.
  - assert (List.filter p l = []) as ->; [|destruct (p x); cbn; lia]. clear Hl. induction l as [|y l IH]; [done|]. cbn in *.
    destruct (p y); [done|]. by apply IH.
  - rewrite H. cbn. lia.
Qed.

Definition sqlite_cursors (s : SQLiteStateStore) : gmap string time := list_to_map (map (fun r => (cr_repo_key r, cr_cursor r)) (sq_cursors s)).
Definition sqlite_helps (s : SQLiteStateStore) : gmap (string * Z) HelpResponseRecord :=
  list_to_map (map (fun r => ((hr_repo_key r, hr_comment_id r), help_record r)) (sq_help s)).

(** The tables' primary keys and the check on the status. *)
Definition sqlite_ok (s : SQLiteStateStore) : Prop :=
  (forall k id, sole (is_help k id) (sq_help s)) /\ List.Forall (fun r => status_ok (help_record r) = true) (sq_help s).

Lemma sqlite_cursor_lookup k s : sqlite_cursors s !! k = cr_cursor <$> List.find (fun r => cr_repo_key r =? k) (sq_cursors s).
Proof.
  unfold sqlite_cursors. induction (sq_cursors s) as [|r l IH]; cbn; [apply lookup_empty|]. destruct (String.eqb_spec (cr_repo_key r) k) as [->|Hn].
  - by rewrite lookup_insert_eq.
  - by rewrite lookup_insert_ne.
Qed.

Lemma is_help_spec k id r : is_help k id r = true <-> (hr_repo_key r, hr_comment_id r) = (k, id).
Proof.
  unfold is_help. rewrite andb_true_iff, String.eqb_eq, Z.eqb_eq. split; [by intros [-> ->]|by intros [= -> ->]].
Qed.

Lemma sqlite_help_lookup k id s : sqlite_helps s !! (k, id) = help_record <$> List.find (is_help k id) (sq_help s).
Proof.
  unfold sqlite_helps. induction (sq_help s) as [|r l IH]; cbn; [apply lookup_empty|]. destruct (is_help k id r) eqn:E.
  - apply is_help_spec in E as ->. by rewrite lookup_insert_eq.
  - rewrite lookup_insert_ne; [done|]. intros H. apply is_help_spec in H. congruence.
Qed.

Lemma is_help_key k id r r' : hr_repo_key r' = hr_repo_key r -> hr_comment_id r' = hr_comment_id r -> is_help k id r' = is_help k id r.
Proof. unfold is_help. by intros -> ->. Qed.

(** An UPDATE of one help record. *)
Lemma update_help_spec k id (q : help_row -> bool) (set : help_row -> help_row) (f : HelpResponseRecord -> HelpResponseRecord) s :
  sqlite_ok s ->
  (forall r, hr_repo_key (set r) = hr_repo_key r /\ hr_comment_id (set r) = hr_comment_id r /\ help_record (set r) = f (help_record r)) ->
  (forall r, q r = true -> status_ok (f (help_record r)) = true) ->
  let '(rows, s') := update_help (fun r => is_help k id r && q r) set s in
  sqlite_ok s' /\ sqlite_cursors s' = sqlite_cursors s /\
  rows = (match List.find (is_help k id) (sq_help s) with Some r => if q r then 1%nat else 0%nat | None => 0%nat end) /\
  sqlite_helps s' = (if (rows =? 1)%nat then alter f (k, id) (sqlite_helps s) else sqlite_helps s) /\
  ((rows =? 0)%nat = true -> sq_help s' = sq_help s).
Proof.
  intros [Hu Hst] Hset Hq. unfold update_help.
  set (row := fun r => if is_help k id r && q r then set r else r).
  assert (Hkey : forall k' id' r, is_help k' id' (row r) = is_help k' id' r).
  { intros k' id' r. unfold row. destruct (_ && _); [|done]. by apply is_help_key; apply Hset. }
  split; [split|split; [done|split; [by apply count_filter|split]]].
  - intros k' id'. apply sole_map; [apply Hkey|apply Hu].
  - apply List.Forall_map. eapply List.Forall_impl; [|exact Hst]. intros r Hr. unfold row. destruct (_ && q r) eqn:E; [|done].
    apply andb_true_iff in E as [_ E]. destruct (Hset r) as (_ & _ & ->). by apply Hq.
  - rewrite (count_filter _ _ _ (Hu k id)). apply map_eq. intros [k' id'].
    rewrite sqlite_help_lookup. cbn [sq_help]. rewrite (find_map_same _ row) by apply Hkey.
    destruct (decide ((k', id') = (k, id))) as [[= -> ->]|Hn].
    + destruct (List.find (is_help k id) (sq_help s)) as [r|] eqn:E; cbn [Nat.eqb]; [|by rewrite sqlite_help_lookup, E].
      pose proof (List.find_some _ _ E) as [_ Hr]. unfold row. cbn [fmap option_fmap option_map]. rewrite Hr. cbn [andb].
      destruct (q r) eqn:Eq; cbn [Nat.eqb]; [|by rewrite sqlite_help_lookup, E]. rewrite lookup_alter_eq, sqlite_help_lookup, E.
      cbn. by destruct (Hset r) as (_ & _ & ->).
    + transitivity (sqlite_helps s !! (k', id')).
      * rewrite sqlite_help_lookup. destruct (List.find (is_help k' id') (sq_help s)) as [r|] eqn:E; [|done].
        pose proof (List.find_some _ _ E) as [_ Hr]. apply is_help_spec in Hr. unfold row. cbn.
        destruct (is_help k id r) eqn:Er; [|done]. apply is_help_spec in Er. congruence.
      * destruct (_ =? 1)%nat; [|done]. by rewrite lookup_alter_ne.
  - intros Hz%Nat.eqb_eq. cbn [sq_help]. clear Hu Hst. induction (sq_help s) as [|r l IH]; [done|]. cbn in *. unfold row at 1.
    destruct (is_help k id r && q r) eqn:E; [done|]. f_equal. by apply IH.
Qed.

#[export] Instance sqlite_spec : StateSpec SQLiteStateStore.
Proof.
  apply (Build_StateSpec _ _ sqlite_ok sqlite_cursors sqlite_helps).
  - intros k s _ r [= <-]. by rewrite sqlite_cursor_lookup.
  - intros k c s Hs. split; [done|]. split; [|done]. apply map_eq. intros k'. rewrite sqlite_cursor_lookup. cbn [sq_cursors].
    destruct (decide (k = k')) as [<-|Hk].
    + rewrite lookup_insert_eq, existsb_find. destruct (List.find _ (sq_cursors s)) as [r|] eqn:E.
      * rewrite find_map_same; [|intros x; destruct (cr_repo_key x =? k) eqn:Ex; [cbn; by rewrite String.eqb_refl|done]].
        rewrite E. cbn. apply List.find_some in E as [_ ->]. done.
      * rewrite find_app, E. cbn. by rewrite String.eqb_refl.
    + rewrite lookup_insert_ne by done. rewrite sqlite_cursor_lookup. destruct (existsb _ _).
      * rewrite find_map_same.
        -- destruct (List.find _ (sq_cursors s)) as [r|] eqn:E; [|done]. cbn. apply List.find_some in E as [_ E].
           apply String.eqb_eq in E. destruct (String.eqb_spec (cr_repo_key r) k); [congruence|done].
        -- intros x. destruct (String.eqb_spec (cr_repo_key x) k) as [->|]; [done|done].
      * rewrite find_app. destruct (List.find _ (sq_cursors s)) as [r|] eqn:E; [done|]. cbn.
        apply String.eqb_neq in Hk. by rewrite Hk.
  - intros k id marker now s [Hu Hst]. cbn [GetOrCreateHelpResponse sqlite_store]. unfold sqlite_GetOrCreate.
    rewrite existsb_find, sqlite_help_lookup. destruct (List.find _ (sq_help s)) as [r|] eqn:E; cbn [negb sq_help].
    + rewrite E. split; [done|]. split; [done|]. destruct (_ && _); done.
    + rewrite find_app, E. cbn [List.find]. assert (Hr : is_help k id (mkHelpRow k id marker HelpResponsePending None) = true)
        by (by apply is_help_spec). rewrite Hr. cbn [hr_status]. split.
      { split; [|by apply List.Forall_app; split; [|constructor]]. intros k' id'. cbn [sq_help]. apply sole_add; [|apply Hu].
        destruct (is_help k' id' _) eqn:E'; [|by right]. left. apply is_help_spec in E' as [= <- <-]. done. }
      split; [done|]. cbn [andb negb]. split; [done|]. split; [done|]. apply map_eq. intros [k' id'].
      rewrite sqlite_help_lookup. cbn [sq_help]. rewrite find_app. destruct (decide ((k, id) = (k', id'))) as [[= <- <-]|Hn].
      * rewrite E, lookup_insert_eq. cbn [List.find]. by rewrite Hr.
      * rewrite lookup_insert_ne, sqlite_help_lookup by done. destruct (List.find (is_help k' id') (sq_help s)); [done|]. cbn [List.find].
        destruct (is_help k' id' _) eqn:E'; [|done]. apply is_help_spec in E' as [= <- <-]. done.
  - intros k id now before s Hs. cbn [TryBeginHelpResponseAttempt sqlite_store]. unfold sqlite_TryBegin.
    pose proof (update_help_spec k id (fun r => attempt_due before (help_record r))
      (fun r => mkHelpRow (hr_repo_key r) (hr_comment_id r) (hr_marker r) (hr_status r) (Some now)) (set_attempted now) s Hs) as H.
    unfold attempt_due, help_pending in H. cbn [hp_Status hp_AttemptedAt help_record] in H.
    destruct (update_help _ _ s) as [rows s']. destruct H as (Hok & Hc & Hrows & Hh & _).
    + done.
    + intros r [Hp _]%andb_true_iff. unfold status_ok, help_pending. cbn. by rewrite Hp.
    + split; [done|]. split; [done|]. split; [|done]. rewrite sqlite_help_lookup, Hrows.
      destruct (List.find _ (sq_help s)) as [r|]; [|done]. cbn. unfold attempt_due, help_pending. cbn. by destruct (_ && _).
  - intros k id now s Hs. cbn [SetHelpResponseDelivered sqlite_store]. unfold sqlite_SetDelivered.
    pose proof (update_help_spec k id (fun r => hr_status r =? HelpResponsePending)
      (fun r => mkHelpRow (hr_repo_key r) (hr_comment_id r) (hr_marker r) HelpResponseDelivered (hr_attempted_at r)) set_delivered s Hs) as H.
    destruct (update_help _ _ s) as [rows s']. destruct H as (Hok & Hc & Hrows & Hh & Hz); [done|done|].
    split; [done|]. split; [done|]. rewrite Hh, sqlite_help_lookup. destruct (rows =? 0)%nat eqn:E0.
    + rewrite Hz by done. apply Nat.eqb_eq in E0. rewrite E0. cbn [Nat.eqb].
      destruct (List.find _ (sq_help s)) as [r|] eqn:E; [|done]. destruct (hr_status r =? HelpResponseDelivered) eqn:Ed; [|done].
      split; [|by eexists]. symmetry. rewrite <- (alter_write _ _ _ (help_record r)) by (by rewrite sqlite_help_lookup, E).
      rewrite set_delivered_idle by done. apply insert_id. by rewrite sqlite_help_lookup, E.
    + destruct (List.find _ (sq_help s)) as [r|]; [|by subst rows]. destruct (_ =? HelpResponsePending); [|by subst rows].
      subst rows. cbn [Nat.eqb]. split; [done|by eexists].
  - intros k s [Hu Hst]. cbn [DeleteDeliveredHelpResponses sqlite_store]. unfold sqlite_DeleteDelivered. split; [split|split; [done|]].
    + intros k' id'. apply sole_filter, Hu.
    + apply List.Forall_forall. intros r [Hr _]%List.filter_In. by eapply List.Forall_forall in Hst.
    + apply map_eq. intros [k' id']. rewrite sqlite_help_lookup, map_lookup_filter, sqlite_help_lookup. cbn [sq_help].
      rewrite find_filter by apply Hu. destruct (List.find _ (sq_help s)) as [r|] eqn:E; [|done]. apply List.find_some in E as [_ E].
      apply is_help_spec in E as [= <- _]. cbn. unfold help_delivered. cbn. by destruct (_ && _).
Defined.

#[export] Instance sqlite_total : StateTotal SQLiteStateStore.
Proof.
  split; cbn [GetRepoCursor SetRepoCursor GetOrCreateHelpResponse TryBeginHelpResponseAttempt SetHelpResponseDelivered
    DeleteDeliveredHelpResponses sqlite_store state_ok helps sqlite_spec].
  - by eexists.
  - done.
  - intros k id marker now s [Hu Hst]. unfold sqlite_GetOrCreate. rewrite existsb_find.
    destruct (List.find _ (sq_help s)) as [r|] eqn:E; cbn [negb sq_help fst].
    + rewrite E. apply List.find_some in E as [Hr _]. eapply List.Forall_forall in Hst; [|exact Hr].
      unfold status_ok, help_pending, help_delivered in Hst. cbn in Hst. rewrite <- negb_orb, Hst. by eexists.
    + rewrite find_app, E. cbn [List.find]. destruct (is_help _ _ _) eqn:Eh; [by eexists|].
      exfalso. revert Eh. apply not_false_iff_true. by apply is_help_spec.
  - intros. unfold sqlite_TryBegin. destruct (update_help _ _ s). by eexists.
  - intros k id now s Hs [r0 Hr0]. unfold sqlite_SetDelivered.
    pose proof (update_help_spec k id (fun r => hr_status r =? HelpResponsePending)
      (fun r => mkHelpRow (hr_repo_key r) (hr_comment_id r) (hr_marker r) HelpResponseDelivered (hr_attempted_at r)) set_delivered s Hs) as H.
    destruct (update_help _ _ s) as [rows s']. destruct H as (Hok & _ & Hrows & _ & Hz); [done|done|]. cbn [fst].
    destruct (rows =? 0)%nat eqn:E0; [|done]. rewrite Hz by done. rewrite sqlite_help_lookup in Hr0.
    destruct (List.find _ (sq_help s)) as [r|] eqn:E; [|done]. apply List.find_some in E as [Hr _]. destruct Hs as [_ Hst].
    eapply List.Forall_forall in Hst; [|exact Hr]. unfold status_ok, help_pending, help_delivered in Hst. cbn in Hst.
    destruct (hr_status r =? HelpResponsePending); [by subst rows|done].
  - done.
Qed.
