(* ===== verification/GithubPoller.v ===== *)
(** * Polling for commands

    poller.go: each repository's comments since its cursor are read, the
    commands among them submitted or answered, and the cursor moved when
    nothing is left to do again.  The store, GitHub, the submission and the
    clock are interfaces; [pl_log] records what was done, in order, and is
    read by no definition. *)
From stdpp Require Import base list strings.
From Stdlib Require Import ZArith Lia Ascii.
From S2P Require Import Prelude GoStrings GoUrl LocalRun GithubCommand GithubSubmit GithubState.


Local Open Scope Z_scope.
Local Open Scope go_scope.
Local Open Scope string_scope.

Definition helpResponseRetryDelay : Z := 60 * Second.
Definition helpResponseMarkerPrefix : string := "<!-- nvt-github-help-response:".

(** ** Help *)

Definition helpResponse (prefix : string) : string :=
  "```text" ++ newline ++ Join
  ["NVT GitHub Producer";
   "";
   "USAGE";
   "  " ++ prefix ++ " --help";
   "  " ++ prefix ++ " pr create [-- <instructions>]";
   "  " ++ prefix ++ " review [-- <instructions>]";
   "  " ++ prefix ++ " run -- <instructions>";
   "  " ++ prefix ++ " pr continue [-- <instructions>]";
   "";
   "COMMANDS";
   "  --help";
   "      Show this command reference. Valid on issues and pull requests.";
   "";
   "  pr create";
   "      Create and deliver a pull request. Valid only on ordinary issues.";
   "      Additional instructions are optional.";
   "";
   "  review";
   "      Review the current pull request and post findings without approving,";
   "      requesting changes, or modifying product code. Valid only on pull requests.";
   "      Additional focus instructions are optional.";
   "";
   "  run";
   "      Perform one bounded task, post the result to the originating thread,";
   "      and exit. Valid on issues and pull requests. Instructions are required.";
   "";
   "  pr continue";
   "      Start a durable pull-request maintenance session. The agent checks out";
   "      the PR branch, reads reviews, comments, and checks, addresses actionable";
   "      issues, watches for later activity, and remains active until merge or close.";
   "      Valid only on pull requests. Additional instructions are optional.";
   "";
   "INSTRUCTIONS";
   "  Put the command on the first non-empty line. Add instructions either after";
   "  a standalone -- on that line, or on the following lines. If both forms are";
   "  used, the inline text is followed by a newline and then the multiline text.";
   "  Bare trailing text without -- is invalid."] newline ++ newline ++ "```".

Definition helpResponseComment (prefix marker : string) : string := helpResponse prefix ++ newline ++ marker.

Definition helpResponseMarkerExists (comments : list GitHubIssueComment) (commandCommentID : Z) (marker : string) : bool :=
  if marker =? "" then false
  else existsb (fun comment => (commandCommentID <? ic_ID comment)%Z && Contains (ic_Body comment) marker) comments.

Definition validHelpResponseMarker (marker : string) : bool :=
  if negb (HasPrefix marker helpResponseMarkerPrefix) then false
  else
    let raw := TrimPrefix marker helpResponseMarkerPrefix in
    if negb (HasSuffix raw " -->") then false
    else
      let raw := TrimSuffix raw " -->" in
      (len raw =? 32)%Z && all_bytes is_hex raw.

(** ** Reactions *)

Definition reactions_enabled (config : ProducerConfig) : bool := default true (pg_ReactionsEnabled config).

Definition reactionForOutcome (config : ProducerConfig) (outcome : schedulingOutcome) : string :=
  if negb (reactions_enabled config) then ""
  else match outcome with
  | schedulingOutcomeAccepted => if pg_Accepted config =? "" then defaultAcceptedReaction else pg_Accepted config
  | schedulingOutcomeRejected => if pg_Rejected config =? "" then defaultRejectedReaction else pg_Rejected config
  | _ => ""
  end.

Definition appendSchedulingReaction (config : ProducerConfig) (pending : list (Z * string)) (commentID : Z)
    (outcome : schedulingOutcome) : list (Z * string) :=
  let reaction := reactionForOutcome config outcome in
  if reaction =? "" then pending else (pending ++ [(commentID, reaction)])%list.

(** ** The outside *)

(** [None] and [false] are errors; a call may change the world. *)
Class GitHubClient (G : Type) : Type := {
  ListUpdatedIssueComments : GitHubRepository -> time -> G -> option (list GitHubIssueComment) * G;
  GetIssue : GitHubRepository -> Z -> G -> option GitHubIssue * G;
  ListIssueComments : GitHubRepository -> Z -> G -> option (list GitHubIssueComment) * G;
  CreateIssueComment : GitHubRepository -> Z -> string -> G -> bool * G;
  CreateIssueCommentReaction : GitHubRepository -> Z -> string -> G -> bool * G
}.

(** The clock and the source of randomness. *)
Class Ambient (G : Type) : Type := {
  clock : G -> time * G;
  rand_Read : G -> option (list Z) * G
}.

(** [submitWithOutcome] of the submitter the poller is given. *)
Class Submitter (G : Type) : Type :=
  submit : GitHubRepository -> GitHubIssue -> list GitHubIssueComment -> GitHubIssueComment -> Command -> G -> submission * G.

Definition newHelpResponseMarker {G} `{Ambient G} (g : G) : option string * G :=
  let '(raw, g') := rand_Read g in
  ((fun bytes => helpResponseMarkerPrefix ++ hex_encode bytes ++ " -->") <$> raw, g').

(** ** The state of a poll *)

Inductive poll_error : Type :=
| errGetCursor | errInitialSince | errListComments | errHelpMarker | errHelpState | errReconcileHelp | errGetIssue
| errListIssueComments | errSubmit (e : submit_error) | errSetCursor | errCleanHelp.

Inductive poll_event : Type :=
| Submitted (repo : string) (comment : Z) (result : submission)
| HelpFound (repo : string) (comment : Z)
| HelpAttempted (repo : string) (comment : Z) (now : time) (delivered : bool)
| CursorMoved (repo : string)
| Reacted (repo : string) (comment : Z) (reaction : string).

(** [pl_next], [pl_deferred] and [pl_reactions] are locals of [pollRepo]. *)
Record poll (S G : Type) := mkPoll {
  pl_store : S;
  pl_out : G;
  pl_next : time;
  pl_deferred : bool;
  pl_reactions : list (Z * string);
  pl_log : list poll_event
}.
Arguments mkPoll {S G}. Arguments pl_store {S G}. Arguments pl_out {S G}. Arguments pl_next {S G}.
Arguments pl_deferred {S G}. Arguments pl_reactions {S G}. Arguments pl_log {S G}.

Definition repo_key (repo : GitHubRepository) : string := re_Owner repo ++ "/" ++ re_Name repo.

Section Poller.
Context {S G : Type} `{StateStore S} `{GitHubClient G} `{Ambient G} `{Submitter G}.
Variable config : ProducerConfig.
Variable startedAt : time.

Abbreviation PM := (M (poll S G) poll_error).

Definition set_store (s : S) (p : poll S G) : poll S G :=
  mkPoll s (pl_out p) (pl_next p) (pl_deferred p) (pl_reactions p) (pl_log p).
Definition set_out (g : G) (p : poll S G) : poll S G :=
  mkPoll (pl_store p) g (pl_next p) (pl_deferred p) (pl_reactions p) (pl_log p).

Definition on_state {A} (f : S -> A * S) : PM A := fun p => let '(a, s) := f (pl_store p) in (Ok a, set_store s p).
Definition outside {A} (f : G -> A * G) : PM A := fun p => let '(a, g) := f (pl_out p) in (Ok a, set_out g p).
Definition note (e : poll_event) : PM unit := fun p =>
  (Ok tt, mkPoll (pl_store p) (pl_out p) (pl_next p) (pl_deferred p) (pl_reactions p) (pl_log p ++ [e])%list).

(** [if err != nil { return err }] *)
Definition need {A} (e : poll_error) (m : PM (option A)) : PM A :=
  let* a := m in match a with Some x => ret x | None => fail e end.
Definition need_ok (e : poll_error) (m : PM bool) : PM unit := let* ok := m in guard (negb ok) e.

Definition set_next (t : time) : PM unit := fun p =>
  (Ok tt, mkPoll (pl_store p) (pl_out p) t (pl_deferred p) (pl_reactions p) (pl_log p)).
Definition set_deferred : PM unit := fun p =>
  (Ok tt, mkPoll (pl_store p) (pl_out p) (pl_next p) true (pl_reactions p) (pl_log p)).
Definition set_reactions (f : list (Z * string) -> list (Z * string)) : PM unit := fun p =>
  (Ok tt, mkPoll (pl_store p) (pl_out p) (pl_next p) (pl_deferred p) (f (pl_reactions p)) (pl_log p)).

(** ** One comment *)

(** The answer to a request for help. *)
Definition poll_help (repo : GitHubRepository) (key : string) (comment : GitHubIssueComment) (command : Command) : PM unit :=
  match IssueNumberFromIssueURL (ic_IssueURL comment) with
  | None => ret tt
  | Some issueNumber =>
      let* marker := need errHelpMarker (outside newHelpResponseMarker) in
      let* now := outside clock in
      let* (record, created) := need errHelpState (on_state (GetOrCreateHelpResponse key (ic_ID comment) marker now)) in
      guard (negb (validHelpResponseMarker (hp_Marker record))) errHelpState ;;;
      if hp_Status record =? HelpResponseDelivered then ret tt
      else
        let* found := (if created : bool then ret false
                       else let* thread := need errReconcileHelp (outside (ListIssueComments repo issueNumber)) in
                            ret (helpResponseMarkerExists thread (ic_ID comment) (hp_Marker record))) in
        if found : bool then
          note (HelpFound key (ic_ID comment)) ;;;
          need_ok errHelpState (on_state (SetHelpResponseDelivered key (ic_ID comment) now))
        else
          let* attempt := need errHelpState
            (on_state (TryBeginHelpResponseAttempt key (ic_ID comment) now (now - helpResponseRetryDelay)%Z)) in
          if negb attempt then set_deferred
          else
            let* delivered := outside (CreateIssueComment repo issueNumber (helpResponseComment (cm_Prefix command) (hp_Marker record))) in
            note (HelpAttempted key (ic_ID comment) now delivered) ;;;
            if negb delivered then set_deferred
            else need_ok errHelpState (on_state (SetHelpResponseDelivered key (ic_ID comment) now))
  end.

(** What becomes of a submission: nothing more, a later attempt, or the end of
    this poll. *)
Definition after_submission (result : submission) : PM unit :=
  match snd result with
  | Some ErrSubmissionDeferred => set_deferred
  | Some e => match sm_Outcome (fst result) with schedulingOutcomeRejected => ret tt | _ => fail (errSubmit e) end
  | None => ret tt
  end.

Definition poll_command (repo : GitHubRepository) (key : string) (comment : GitHubIssueComment) (command : Command) : PM unit :=
  match IssueNumberFromIssueURL (ic_IssueURL comment) with
  | None => ret tt
  | Some issueNumber =>
      let* issue := need errGetIssue (outside (GetIssue repo issueNumber)) in
      if negb (validCommandPlacement (cm_Intent command) (gi_IsPullRequest issue)) then ret tt
      else
        let* issueComments := (if isCooperativeIntent (cm_Intent command) then ret []
                               else need errListIssueComments (outside (ListIssueComments repo issueNumber))) in
        let* result := outside (submit repo issue issueComments comment command) in
        note (Submitted key (ic_ID comment) result) ;;;
        set_reactions (fun pending => appendSchedulingReaction config pending (ic_ID comment) (sm_Outcome (fst result))) ;;;
        after_submission result
  end.

(** A comment that is a command its author may give. *)
Definition command_of (comment : GitHubIssueComment) : option Command :=
  match ParseCommand (ic_Body comment) (pg_CommandPrefixes config) with
  | Some command => if IsAllowedAuthor (us_Login (ic_User comment)) (pg_AllowedAuthors config) then Some command else None
  | None => None
  end.

Definition poll_comment (repo : GitHubRepository) (key : string) (comment : GitHubIssueComment) : PM unit :=
  let* p := get in
  set_next (if (pl_next p <? ic_UpdatedAt comment)%Z then ic_UpdatedAt comment else pl_next p) ;;;
  match command_of comment with
  | None => ret tt
  | Some command =>
      if cm_Intent command =? CommandIntentHelp then poll_help repo key comment command else poll_command repo key comment command
  end.

(** ** One repository *)

Definition poll_since (found : option time) : PM time :=
  match found, pg_InitialSince config with
  | Some cursor, _ => ret cursor
  | None, Some (Some parsed) => ret parsed
  | None, Some None => fail errInitialSince
  | None, None => ret startedAt
  end.

(** The body of [pollRepo]. *)
Definition poll_body (repo : GitHubRepository) : PM unit :=
  let key := repo_key repo in
  let* found := need errGetCursor (on_state (fun s => (GetRepoCursor key s, s))) in
  let* since := poll_since found in
  let* pollStartedAt := outside clock in
  let* comments := need errListComments (outside (ListUpdatedIssueComments repo since)) in
  set_next pollStartedAt ;;;
  for_each (poll_comment repo key) comments ;;;
  let* p := get in
  if pl_deferred p then ret tt
  else
    need_ok errSetCursor (on_state (SetRepoCursor key (pl_next p))) ;;;
    note (CursorMoved key) ;;;
    need_ok errCleanHelp (on_state (DeleteDeliveredHelpResponses key)).

(** The deferred posts; their errors are only logged. *)
Fixpoint postSchedulingReactions (repo : GitHubRepository) (pending : list (Z * string)) (p : poll S G) : poll S G :=
  match pending with
  | [] => p
  | (commentID, reaction) :: rest =>
      let '(_, p') := bind (outside (CreateIssueCommentReaction repo commentID reaction)) (fun _ => note (Reacted (repo_key repo) commentID reaction)) p in
      postSchedulingReactions repo rest p'
  end.

Definition pollRepo (repo : GitHubRepository) : PM unit := fun p =>
  let '(r, p') := poll_body repo (mkPoll (pl_store p) (pl_out p) 0 false [] (pl_log p)) in
  (r, postSchedulingReactions repo (pl_reactions p') p').

Definition PollOnce : PM unit := for_each pollRepo (pg_Repositories config).

(** The first [ticks] polls of [Run]; their errors are only logged. *)
Fixpoint Run_polls (ticks : nat) (p : poll S G) : poll S G :=
  match ticks with
  | O => p
  | Datatypes.S n => Run_polls n (snd (PollOnce p))
  end.
End Poller.
