(* ===== verification/GithubPollerProps.v ===== *)
(** * What a poll does

    Weakest preconditions of the poller's computations over any store that
    keeps [StateSpec], and the relation [within] between the states before and
    after a stretch of one repository's poll. *)
From stdpp Require Import base list strings gmap.
From Stdlib Require Import ZArith Lia.
From S2P Require Import Prelude GoStrings LocalRun GithubCommand GithubSubmit GithubState GithubPoller.


Local Open Scope Z_scope.
Local Open Scope string_scope.

(** ** Attempts in the log *)

(** When a request for help was last answered since the repository's cursor
    moved. *)
Definition last_event (k : string) (id : Z) (acc : option time) (e : poll_event) : option time :=
  match e with
  | HelpAttempted k' id' t _ => if (k' =? k) && (id' =? id)%Z then Some t else acc
  | CursorMoved k' => if k' =? k then None else acc
  | _ => acc
  end.
Definition last_attempt (k : string) (id : Z) (log : list poll_event) : option time := fold_left (last_event k id) log None.

(** Any two attempts without such a move between them are a retry delay apart. *)
Definition spaced (log : list poll_event) : Prop :=
  forall l k id t d l' t0, log = (l ++ HelpAttempted k id t d :: l')%list -> last_attempt k id l = Some t0 -> t0 + helpResponseRetryDelay <= t.

Lemma last_attempt_add k id log e : last_attempt k id (log ++ [e]) = last_event k id (last_attempt k id log) e.
Proof. unfold last_attempt. by rewrite fold_left_app. Qed.

Lemma spaced_add log e : spaced log ->
  (forall k id t d t0, e = HelpAttempted k id t d -> last_attempt k id log = Some t0 -> t0 + helpResponseRetryDelay <= t) ->
  spaced (log ++ [e]).
Proof.
  intros Hs He l k id t d l' t0 E. destruct (decide (l' = [])) as [->|Hn].
  - apply app_inj_tail in E as [-> ->]. by eapply He.
  - destruct (exists_last Hn) as (l1 & x & ->). rewrite app_comm_cons, app_assoc in E. apply app_inj_tail in E as [-> _].
    by eapply Hs.
Qed.

(** The reactions the submissions of a log call for. *)
Definition event_reaction (config : ProducerConfig) (e : poll_event) : list (Z * string) :=
  match e with Submitted _ id result => appendSchedulingReaction config [] id (sm_Outcome (fst result)) | _ => [] end.

(** Events of the comments themselves. *)
Definition comment_event (key : string) (e : poll_event) : bool :=
  match e with
  | Submitted k _ _ | HelpFound k _ | HelpAttempted k _ _ _ => k =? key
  | CursorMoved _ | Reacted _ _ _ => false
  end.

Definition help_answered (key : string) (id : Z) (l : list poll_event) : Prop :=
  In (HelpFound key id) l \/ exists t, In (HelpAttempted key id t true) l.

Lemma help_answered_app key id l1 l2 : help_answered key id (l1 ++ l2) <-> help_answered key id l1 \/ help_answered key id l2.
Proof.
  unfold help_answered. rewrite in_app_iff. split.
  - intros [[H|H]|[t H]]; [by left; left|by right; left|]. apply in_app_iff in H as [H|H]; [left|right]; right; by exists t.
  - intros [[H|[t H]]|[H|[t H]]]; [by left; left|right; exists t; apply in_app_iff; by left|by left; right|right; exists t; apply in_app_iff; by right].
Qed.

Section Props.
Context {S G : Type} `{StateSpec S} `{GitHubClient G} `{Ambient G} `{Submitter G}.
Variable config : ProducerConfig.

Abbreviation PM := (M (poll S G) poll_error).

(** ** Weakest preconditions *)

Definition wp {A} (m : PM A) (p : poll S G) (Q : result poll_error A -> poll S G -> Prop) : Prop := let '(r, p') := m p in Q r p'.

Lemma wp_bind {A B} (m : PM A) (k : A -> PM B) p Q :
  wp m p (fun r p' => match r with Ok a => wp (k a) p' Q | Err e => Q (Err e) p' end) -> wp (bind m k) p Q.
Proof. unfold wp, bind. destruct (m p) as [[a|e] p']; done. Qed.

Lemma wp_mono {A} (m : PM A) p (Q Q' : result poll_error A -> poll S G -> Prop) :
  wp m p Q -> (forall r p', Q r p' -> Q' r p') -> wp m p Q'.
Proof. unfold wp. destruct (m p). eauto. Qed.

Lemma wp_ret {A} (a : A) p (Q : result poll_error A -> poll S G -> Prop) : Q (Ok a) p -> wp (ret a) p Q.
Proof. done. Qed.

Lemma wp_fail {A} e p (Q : result poll_error A -> poll S G -> Prop) : Q (Err e) p -> wp (fail e) p Q.
Proof. done. Qed.

Lemma wp_guard b e p (Q : result poll_error unit -> poll S G -> Prop) :
  (b = true -> Q (Err e) p) -> (b = false -> Q (Ok tt) p) -> wp (guard b e) p Q.
Proof. unfold guard, wp, fail, ret. destruct b; auto. Qed.

Lemma wp_outside {A} (f : G -> A * G) p (Q : result poll_error A -> poll S G -> Prop) :
  (forall a g, f (pl_out p) = (a, g) -> Q (Ok a) (set_out g p)) -> wp (outside f) p Q.
Proof. unfold wp, outside. destruct (f (pl_out p)) as [a g]. eauto. Qed.

Lemma wp_on_state {A} (f : S -> A * S) p (Q : result poll_error A -> poll S G -> Prop) :
  (forall a s, f (pl_store p) = (a, s) -> Q (Ok a) (set_store s p)) -> wp (on_state f) p Q.
Proof. unfold wp, on_state. destruct (f (pl_store p)) as [a s]. eauto. Qed.

Lemma wp_need {A} e (m : PM (option A)) p (Q : result poll_error A -> poll S G -> Prop) :
  wp m p (fun r p' => match r with Ok (Some a) => Q (Ok a) p' | Ok None => Q (Err e) p' | Err e' => Q (Err e') p' end) ->
  wp (need e m) p Q.
Proof. intros Hm. apply wp_bind. eapply wp_mono; [exact Hm|]. by intros [[a|]|e'] p'. Qed.

Lemma wp_need_ok e (m : PM bool) p (Q : result poll_error unit -> poll S G -> Prop) :
  wp m p (fun r p' => match r with Ok true => Q (Ok tt) p' | Ok false => Q (Err e) p' | Err e' => Q (Err e') p' end) ->
  wp (need_ok e m) p Q.
Proof. intros Hm. apply wp_bind. eapply wp_mono; [exact Hm|]. by intros [[|]|e'] p'. Qed.

(** ** A stretch of one repository's poll *)

(** The store is sound, and remembers the last attempt of every request. *)
Definition good (p : poll S G) : Prop :=
  state_ok (pl_store p) /\ spaced (pl_log p) /\
  forall k id t, last_attempt k id (pl_log p) = Some t ->
    exists r, helps (pl_store p) !! (k, id) = Some r /\
      (help_delivered r = true \/ exists t', hp_AttemptedAt r = Some t' /\ t <= t').

Definition delivered_in (key : string) (id : Z) (s : S) : Prop :=
  exists r, helps s !! (key, id) = Some r /\ help_delivered r = true.

(** [l] is what was logged. *)
Record within (key : string) (p : poll S G) (l : list poll_event) (p' : poll S G) : Prop := mkWithin {
  wi_good : good p';
  wi_cursors : cursors (pl_store p') = cursors (pl_store p);
  wi_helps k id : k <> key -> helps (pl_store p') !! (k, id) = helps (pl_store p) !! (k, id);
  wi_log : pl_log p' = (pl_log p ++ l)%list;
  wi_events : forallb (comment_event key) l = true;
  wi_reactions : pl_reactions p' = (pl_reactions p ++ flat_map (event_reaction config) l)%list;
  wi_next : pl_next p <= pl_next p';
  wi_deferred : pl_deferred p = true -> pl_deferred p' = true;
  wi_delivered id : delivered_in key id (pl_store p') -> delivered_in key id (pl_store p) \/ help_answered key id l
}.

Lemma within_refl key p : good p -> within key p [] p.
Proof. intros Hg. split; cbn; rewrite ?app_nil_r; auto; lia. Qed.

Lemma within_trans key p l p1 l1 p' : within key p l p1 -> within key p1 l1 p' -> within key p (l ++ l1) p'.
Proof.
  intros [G1 C1 H1' L1 E1 R1 N1 D1 V1] [G2 C2 H2' L2 E2 R2 N2 D2 V2]. split; try done.
  - congruence.
  - intros k id Hk. by rewrite H2', H1'.
  - by rewrite L2, L1, app_assoc.
  - by rewrite forallb_app, E1, E2.
  - by rewrite R2, R1, flat_map_app, app_assoc.
  - lia.
  - auto.
  - intros id Hd. rewrite help_answered_app. apply V2 in Hd as [Hd|Hd]; [|auto]. apply V1 in Hd as [Hd|Hd]; auto.
Qed.

(** Steps that leave the store and the log alone. *)
Lemma within_same key p l p1 p2 : within key p l p1 ->
  pl_store p2 = pl_store p1 -> pl_log p2 = pl_log p1 -> pl_reactions p2 = pl_reactions p1 -> pl_next p1 <= pl_next p2 ->
  (pl_deferred p1 = true -> pl_deferred p2 = true) -> within key p l p2.
Proof.
  intros [Gd C Hh L E R N D V] Es El Er En Ed. split; rewrite ?Es, ?El, ?Er; auto; [|lia].
  destruct Gd as (Hok & Hsp & Hla). unfold good. rewrite Es, El. auto.
Qed.

Lemma within_out key p l p1 g : within key p l p1 -> within key p l (set_out g p1).
Proof. intros Hw. eapply within_same; [exact Hw|..]; try done; cbn; lia. Qed.

(** A change of one request's record. *)
Lemma within_record key id p l p1 s' : within key p l p1 ->
  state_ok s' -> cursors s' = cursors (pl_store p1) ->
  (forall k, k <> (key, id) -> helps s' !! k = helps (pl_store p1) !! k) ->
  (forall r, helps (pl_store p1) !! (key, id) = Some r -> exists r', helps s' !! (key, id) = Some r' /\
     (help_delivered r = true -> help_delivered r' = true) /\
     (forall t, hp_AttemptedAt r = Some t -> exists t', hp_AttemptedAt r' = Some t' /\ t <= t')) ->
  (delivered_in key id s' -> delivered_in key id (pl_store p1) \/ help_answered key id l) ->
  within key p l (set_store s' p1).
Proof.
  intros [(Hok & Hsp & Hla) C Hh L E R N D V] Hok' Hc Hother Hrec Hdel. split; try done; cbn [pl_store set_store].
  - split; [done|]. split; [done|]. intros k i t Ht. cbn [pl_store set_store]. destruct (Hla _ _ _ Ht) as (r & Hr & Hcase).
    destruct (decide ((k, i) = (key, id))) as [[= -> ->]|Hn]; [|exists r; by rewrite Hother].
    destruct (Hrec r Hr) as (r' & Hr' & Hd & Ha). exists r'. split; [done|].
    destruct Hcase as [Hcase|(t' & Ht' & Hle)]; [left; auto|]. right. destruct (Ha _ Ht') as (t2 & Ht2 & Hle2). exists t2. split; [done|lia].
  - congruence.
  - intros k i Hk. rewrite Hother by congruence. auto.
  - intros i Hd. destruct (decide (i = id)) as [->|Hn].
    + apply Hdel in Hd as [Hd|Hd]; [by apply V in Hd|by right].
    + apply V. destruct Hd as (r & Hr & Hdr). exists r. rewrite Hother in Hr by congruence. done.
Qed.

(** An event of a comment. *)
Lemma within_event key p l p1 e : within key p l p1 -> comment_event key e = true ->
  (forall k id t d, e = HelpAttempted k id t d -> (exists r, helps (pl_store p1) !! (k, id) = Some r /\ hp_AttemptedAt r = Some t) /\
     forall t0, last_attempt k id (pl_log p1) = Some t0 -> t0 + helpResponseRetryDelay <= t) ->
  within key p (l ++ [e])
    (mkPoll (pl_store p1) (pl_out p1) (pl_next p1) (pl_deferred p1) (pl_reactions p1 ++ event_reaction config e) (pl_log p1 ++ [e])).
Proof.
  intros [(Hok & Hsp & Hla) C Hh L E R N D V] He Ha. split; try done; cbn [pl_store pl_log pl_reactions pl_next pl_deferred].
  - split; [done|]. split; [apply spaced_add; [done|intros k id t d t0 He'; by apply (Ha k id t d)]|]. intros k id t. cbn [pl_log pl_store].
    rewrite last_attempt_add. destruct e as [| |k' i' t' d'| |]; cbn [last_event]; try apply Hla; [|done].
    destruct (_ && _) eqn:Ek; [|apply Hla]. intros [= <-]. apply andb_true_iff in Ek as [->%String.eqb_eq ->%Z.eqb_eq].
    destruct (Ha _ _ _ _ eq_refl) as [(r & Hr & Hat) _]. exists r. split; [done|]. right. eexists. split; [done|lia].
  - by rewrite L, app_assoc.
  - rewrite forallb_app, E. cbn. by rewrite He.
  - rewrite R, flat_map_app. cbn. by rewrite app_nil_r, app_assoc.
  - intros id Hd. rewrite help_answered_app. apply V in Hd as [Hd|Hd]; auto.
Qed.

(** ** Requests for help *)

(** The store's operations on a request. *)
Lemma within_unchanged key p l p1 s' : within key p l p1 ->
  state_ok s' -> cursors s' = cursors (pl_store p1) -> helps s' = helps (pl_store p1) -> within key p l (set_store s' p1).
Proof.
  intros Hw Hok Hc Hh. apply (within_record key 0); try done; rewrite ?Hh; try done.
  - intros r Hr. exists r. eauto using Z.le_refl.
  - intros (r & Hr & Hd). left. exists r. by rewrite <- Hh.
Qed.

Lemma within_GetOrCreate key id marker now p l p1 r s' : within key p l p1 ->
  GetOrCreateHelpResponse key id marker now (pl_store p1) = (r, s') ->
  within key p l (set_store s' p1) /\
  forall record created, r = Some (record, created) ->
    helps s' !! (key, id) = Some record /\ (help_delivered record = true -> delivered_in key id (pl_store p1)).
Proof.
  intros Hw E. pose proof (GetOrCreate_spec key id marker now (pl_store p1) (proj1 (wi_good _ _ _ _ Hw))) as Hs. rewrite E in Hs.
  destruct Hs as (Hok & Hc & Hr). destruct r as [[record created]|]; [|split; [by apply within_unchanged|done]].
  destruct (helps (pl_store p1) !! (key, id)) as [old|] eqn:Eo; destruct Hr as (-> & -> & Hh); split; try by apply within_unchanged.
  - intros ? ? [= <- <-]. rewrite Hh. split; [done|]. by exists old.
  - apply (within_record key id); try done; rewrite ?Hh.
    + intros k Hk. by rewrite lookup_insert_ne.
    + by rewrite Eo.
    + intros (r & Hr & Hd). rewrite Hh, lookup_insert_eq in Hr. injection Hr as <-. done.
  - intros ? ? [= <- <-]. rewrite Hh. split; [by rewrite lookup_insert_eq|done].
Qed.

Lemma within_TryBegin key id now p l p1 r s' : within key p l p1 ->
  TryBeginHelpResponseAttempt key id now (now - helpResponseRetryDelay) (pl_store p1) = (r, s') ->
  within key p l (set_store s' p1) /\
  (r = Some true -> (exists h, helps s' !! (key, id) = Some h /\ hp_AttemptedAt h = Some now) /\
     forall t0, last_attempt key id (pl_log p1) = Some t0 -> t0 + helpResponseRetryDelay <= now).
Proof.
  intros Hw E. destruct (wi_good _ _ _ _ Hw) as (Hok1 & _ & Hla).
  pose proof (TryBegin_spec key id now (now - helpResponseRetryDelay) (pl_store p1) Hok1) as Hs. rewrite E in Hs.
  destruct Hs as (Hok & Hc & Hr). destruct r as [begun|]; [|split; [by apply within_unchanged|done]].
  destruct Hr as [Hb Hh]. destruct begun; [|split; [by apply within_unchanged|done]].
  destruct (helps (pl_store p1) !! (key, id)) as [old|] eqn:Eo; [|done]. symmetry in Hb.
  assert (Hold : forall t, hp_AttemptedAt old = Some t -> t + helpResponseRetryDelay <= now).
  { intros t Ht. unfold attempt_due in Hb. rewrite Ht in Hb. apply andb_true_iff in Hb as [_ Hb]. apply Z.leb_le in Hb. lia. }
  assert (Hnew : helps s' !! (key, id) = Some (set_attempted now old)) by (rewrite Hh, lookup_alter_eq, Eo; done).
  split; [|intros _; split].
  - apply (within_record key id); try done.
    + intros k Hk. rewrite Hh. by rewrite lookup_alter_ne.
    + intros r Hr. assert (r = old) as -> by congruence. exists (set_attempted now old). split; [done|]. split; [done|].
      intros t Ht. exists now. split; [done|]. specialize (Hold t Ht). unfold helpResponseRetryDelay, Second in Hold. lia.
    + intros (r & Hr & Hd). left. exists old. split; [done|]. assert (r = set_attempted now old) as -> by congruence. done.
  - by exists (set_attempted now old).
  - intros t0 Ht0. destruct (Hla _ _ _ Ht0) as (r & Hr & Hcase). assert (r = old) as -> by congruence.
    destruct Hcase as [Hd|(t' & Ht' & Hle)]; [|specialize (Hold t' Ht'); lia].
    unfold attempt_due, help_pending, help_delivered in *. apply String.eqb_eq in Hd. rewrite Hd in Hb. done.
Qed.

Lemma within_SetDelivered key id now p l p1 r s' : within key p l p1 -> help_answered key id l ->
  SetHelpResponseDelivered key id now (pl_store p1) = (r, s') -> within key p l (set_store s' p1).
Proof.
  intros Hw Ha E. pose proof (SetDelivered_spec key id now (pl_store p1) (proj1 (wi_good _ _ _ _ Hw))) as Hs. rewrite E in Hs.
  destruct Hs as (Hok & Hc & Hh & _). destruct r; [|by apply within_unchanged].
  apply (within_record key id); try done; [| |by right].
  - intros k Hk. rewrite Hh. by rewrite lookup_alter_ne.
  - intros r Hr. exists (set_delivered r). rewrite Hh, lookup_alter_eq, Hr. split; [done|]. split; [done|]. eauto using Z.le_refl.
Qed.

(** What a stretch ends with: something left to do, an early error, or a
    request that is answered. *)
Definition after_help (key : string) (id : Z) (issueURL : string) (p : poll S G) (r : result poll_error unit) (p' : poll S G) : Prop :=
  exists l, within key p l p' /\
    (r = Ok tt -> pl_deferred p' = true \/ IssueNumberFromIssueURL issueURL = None \/ delivered_in key id (pl_store p) \/ help_answered key id l).

Lemma wp_deliver key id now p l p1 Q : within key p l p1 -> help_answered key id l ->
  (forall r p', within key p l p' -> Q r p') -> wp (need_ok errHelpState (on_state (SetHelpResponseDelivered key id now))) p1 Q.
Proof.
  intros Hw Ha HQ. apply wp_need_ok, wp_on_state. intros ok s' E. pose proof (within_SetDelivered _ _ _ _ _ _ _ _ Hw Ha E).
  destruct ok; by apply HQ.
Qed.

Lemma poll_help_spec repo key c command p : good p ->
  wp (poll_help repo key c command) p (after_help key (ic_ID c) (ic_IssueURL c) p).
Proof.
  intros Hg. pose proof (within_refl key p Hg) as Hw. unfold poll_help.
  destruct (IssueNumberFromIssueURL _) as [n|] eqn:En; [|apply wp_ret; exists []; rewrite En; auto].
  assert (Hout : forall g p1, within key p [] p1 -> within key p [] (set_out g p1)) by (intros; by apply within_out).
  assert (Hstop : forall e p1, within key p [] p1 -> after_help key (ic_ID c) (ic_IssueURL c) p (Err e) p1) by (intros e p1 H'; by exists []).
  apply wp_bind, wp_need, wp_outside. intros [marker|] g Em; [|by apply Hstop, Hout].
  apply wp_bind, wp_outside. intros now g' Ec. apply (Hout g), (Hout g') in Hw. revert Hw.
  generalize (set_out g' (set_out g p)) as p1. clear g g' Em Ec. intros p1 Hw.
  apply wp_bind, wp_need, wp_on_state. intros r s' Er. destruct (within_GetOrCreate _ _ _ _ _ _ _ _ _ Hw Er) as [Hw2 Hrec].
  destruct r as [[record created]|]; [|by apply Hstop]. destruct (Hrec _ _ eq_refl) as [Hlook Hdel]. clear Hrec Er.
  apply wp_bind, wp_guard; intros _; [by apply Hstop|].
  destruct (hp_Status record =? HelpResponseDelivered) eqn:Ed.
  { apply wp_ret. exists []. split; [done|]. intros _. right; right; left. destruct (wi_delivered _ _ _ _ Hw (ic_ID c)) as [Hd|Hd]; [by apply Hdel|done|].
    destruct Hd as [[]|[t []]]. }
  revert Hw2. generalize (set_store s' p1) as p2. clear s' Hlook Hdel Hw p1. intros p2 Hw.
  apply wp_bind. apply (wp_mono _ _ (fun r p' => within key p [] p')).
  { destruct created; [by apply wp_ret|]. apply wp_bind, wp_need, wp_outside. intros [thread|] g Et; [|by apply Hout]. by apply wp_ret, Hout. }
  clear p2 Hw. intros [found|e] p2 Hw; [|by apply Hstop]. destruct found.
  - apply wp_bind. unfold wp at 1, note. pose proof (within_event _ _ _ _ (HelpFound key (ic_ID c)) Hw (String.eqb_refl key)) as Hw2.
    cbn [event_reaction app] in Hw2. rewrite app_nil_r in Hw2. specialize (Hw2 ltac:(done)).
    assert (Ha : help_answered key (ic_ID c) [HelpFound key (ic_ID c)]) by (left; by left).
    eapply wp_deliver; [exact Hw2|exact Ha|]. intros r p' Hw'. eexists. split; [exact Hw'|auto].
  - apply wp_bind, wp_need, wp_on_state. intros r s' Er. destruct (within_TryBegin _ _ _ _ _ _ _ _ Hw Er) as [Hw2 Hbegun].
    destruct r as [begun|]; [|by apply Hstop]. destruct begun; cbn [negb].
    2:{ unfold wp, set_deferred. exists []. split; [eapply within_same; [exact Hw2|..]; try done; cbn; lia|by left]. }
    destruct (Hbegun eq_refl) as [Hlook Hlast]. clear Hbegun Er. apply wp_bind, wp_outside. intros delivered g Ec.
    apply wp_bind. unfold wp at 1, note.
    pose proof (within_event _ _ _ _ (HelpAttempted key (ic_ID c) now delivered) (Hout g _ Hw2) (String.eqb_refl key)) as Hw3.
    cbn [event_reaction app] in Hw3. rewrite app_nil_r in Hw3. specialize (Hw3 ltac:(by intros ? ? ? ? [= <- <- <- <-])).
    destruct delivered; cbn [negb].
    + assert (Ha : help_answered key (ic_ID c) [HelpAttempted key (ic_ID c) now true]) by (right; exists now; by left).
      eapply wp_deliver; [exact Hw3|exact Ha|]. intros r p' Hw'. eexists. split; [exact Hw'|auto].
    + unfold wp, set_deferred. eexists. split; [eapply within_same; [exact Hw3|..]; try done; cbn; lia|by left].
Qed.

(** ** Commands *)

(** A submission that need not be made again: taken, or refused for good. *)
Definition definite (result : submission) : Prop :=
  match snd result with
  | None => True
  | Some ErrSubmissionDeferred => False
  | Some _ => sm_Outcome (fst result) = schedulingOutcomeRejected
  end.

(** A command on an issue of the wrong kind. *)
Definition misplaced (repo : GitHubRepository) (number : Z) (intent : CommandIntent) : Prop :=
  exists g g' issue, GetIssue repo number g = (Some issue, g') /\ validCommandPlacement intent (gi_IsPullRequest issue) = false.

Definition submitted (key : string) (id : Z) (l : list poll_event) : Prop :=
  exists result, In (Submitted key id result) l /\ definite result.

(** A command comment with which nothing is left to do, before a stretch in
    which [l] was logged. *)
Definition settled (repo : GitHubRepository) (key : string) (s : S) (l : list poll_event) (c : GitHubIssueComment) (command : Command) : Prop :=
  IssueNumberFromIssueURL (ic_IssueURL c) = None \/
  if cm_Intent command =? CommandIntentHelp then delivered_in key (ic_ID c) s \/ help_answered key (ic_ID c) l
  else (exists n, IssueNumberFromIssueURL (ic_IssueURL c) = Some n /\ misplaced repo n (cm_Intent command)) \/ submitted key (ic_ID c) l.

Lemma appendSchedulingReaction_app pending id outcome :
  appendSchedulingReaction config pending id outcome = (pending ++ appendSchedulingReaction config [] id outcome)%list.
Proof. unfold appendSchedulingReaction. destruct (_ =? ""); [by rewrite app_nil_r|done]. Qed.

Lemma poll_command_spec repo key c command p : good p -> cm_Intent command <> CommandIntentHelp ->
  wp (poll_command config repo key c command) p (fun r p' => exists l, within key p l p' /\
    (r = Ok tt -> pl_deferred p' = true \/ settled repo key (pl_store p) l c command)).
Proof.
  intros Hg Hn. pose proof (within_refl key p Hg) as Hw. unfold poll_command, settled. apply String.eqb_neq in Hn. rewrite Hn.
  destruct (IssueNumberFromIssueURL _) as [n|] eqn:En; [|apply wp_ret; exists []; auto].
  apply wp_bind, wp_need, wp_outside. intros issue g Ei. apply (within_out _ _ _ _ g) in Hw.
  destruct issue as [issue|]; [|by exists []]. destruct (validCommandPlacement _ _) eqn:Ev; cbn [negb].
  2:{ apply wp_ret. exists []. split; [done|]. intros _. right; right; left. exists n. split; [done|]. by exists (pl_out p), g, issue. }
  apply wp_bind. apply (wp_mono _ _ (fun r p' => within key p [] p')).
  { destruct (isCooperativeIntent _); [by apply wp_ret|]. apply wp_need, wp_outside. intros [thread|] g' Et; by apply within_out. }
  clear Hw. intros [comments|e] p1 Hw; [|by exists []].
  apply wp_bind, wp_outside. intros result g' Es. apply (within_out _ _ _ _ g') in Hw. revert Hw. generalize (set_out g' p1) as p2.
  intros p2 Hw. apply wp_bind. unfold wp at 1, note. apply wp_bind. unfold wp at 1, set_reactions. cbn [pl_reactions pl_store pl_out pl_next pl_deferred pl_log].
  rewrite appendSchedulingReaction_app.
  pose proof (within_event _ _ _ _ (Submitted key (ic_ID c) result) Hw (String.eqb_refl key) ltac:(done)) as Hw2. cbn [event_reaction] in Hw2.
  assert (Hin : definite result -> submitted key (ic_ID c) [Submitted key (ic_ID c) result]) by (intros Hd; exists result; split; [by left|done]).
  unfold definite in Hin. unfold after_submission. destruct (snd result) as [e|]; [|apply wp_ret; eexists; split; [exact Hw2|intros _; right; right; right; auto]].
  destruct e; try (destruct (sm_Outcome (fst result)); eexists; split; try exact Hw2; try done; intros _; right; right; right; auto).
  unfold wp, set_deferred. eexists. split; [eapply within_same; [exact Hw2|..]; try done; cbn; lia|by left].
Qed.

Lemma settled_app repo key p l p1 l1 c command : within key p l p1 ->
  settled repo key (pl_store p) l c command \/ settled repo key (pl_store p1) l1 c command ->
  settled repo key (pl_store p) (l ++ l1) c command.
Proof.
  intros Hw. unfold settled, submitted. destruct (_ =? CommandIntentHelp).
  - rewrite help_answered_app. intros [[Hs|[Hs|Hs]]|[Hs|[Hs|Hs]]]; auto. apply (wi_delivered _ _ _ _ Hw) in Hs as [Hs|Hs]; auto.
  - intros [[Hs|[Hs|(r & Hr & Hd)]]|[Hs|[Hs|(r & Hr & Hd)]]]; auto; right; right; exists r; rewrite in_app_iff; auto.
Qed.

(** ** Comments *)

Lemma poll_comment_spec repo key c p : good p ->
  wp (poll_comment config repo key c) p (fun r p' => exists l, within key p l p' /\ ic_UpdatedAt c <= pl_next p' /\
    (r = Ok tt -> pl_deferred p' = true \/ forall command, command_of config c = Some command -> settled repo key (pl_store p) l c command)).
Proof.
  intros Hg. unfold poll_comment. apply wp_bind. unfold wp at 1, get. apply wp_bind. unfold wp at 1, set_next.
  set (p1 := mkPoll _ _ _ _ _ _). assert (Hnext : pl_next p <= pl_next p1 /\ ic_UpdatedAt c <= pl_next p1).
  { cbn. destruct (Z.ltb_spec (pl_next p) (ic_UpdatedAt c)); lia. }
  assert (Hw : within key p [] p1) by (eapply within_same; [by apply within_refl|..]; try done; lia).
  assert (Hg1 : good p1) by apply (wi_good _ _ _ _ Hw).
  destruct (command_of config c) as [command|] eqn:Ec; [|apply wp_ret; exists []; split; [done|]; split; [lia|by right]].
  destruct (cm_Intent command =? CommandIntentHelp) eqn:Eh.
  - eapply wp_mono; [by apply poll_help_spec|]. intros r p' (l & Hl & Hr). exists l.
    split; [by apply (within_trans _ _ [] p1)|]. split; [pose proof (wi_next _ _ _ _ Hl); lia|].
    intros Ho. destruct (Hr Ho) as [Hd|Hs]; [by left|]. right. intros command' [= <-]. unfold settled. rewrite Eh. naive_solver.
  - eapply wp_mono; [apply poll_command_spec; [done|by apply String.eqb_neq]|]. intros r p' (l & Hl & Hr). exists l.
    split; [by apply (within_trans _ _ [] p1)|]. split; [pose proof (wi_next _ _ _ _ Hl); lia|].
    intros Ho. destruct (Hr Ho) as [Hd|Hs]; [by left|]. right. by intros command' [= <-].
Qed.

Lemma poll_comments_spec repo key comments p : good p ->
  wp (for_each (poll_comment config repo key) comments) p (fun r p' => exists l, within key p l p' /\
    (r = Ok tt -> List.Forall (fun c => ic_UpdatedAt c <= pl_next p') comments /\
       (pl_deferred p' = true \/
        List.Forall (fun c => forall command, command_of config c = Some command -> settled repo key (pl_store p) l c command) comments))).
Proof.
  revert p. induction comments as [|c comments IH]; intros p Hg; cbn [for_each].
  { apply wp_ret. exists []. split; [by apply within_refl|]. intros _. split; [constructor|]. right. constructor. }
  apply wp_bind. eapply wp_mono; [by apply poll_comment_spec|]. intros [[]|e] p1 (l & Hl & Hu & Hr); [|by exists l].
  eapply wp_mono; [apply IH, Hl|]. intros r p' (l' & Hl' & Hr'). exists (l ++ l')%list. split; [by eapply within_trans|].
  intros Ho. destruct (Hr' Ho) as [Hu' Hs']. split; [constructor; [pose proof (wi_next _ _ _ _ Hl'); lia|done]|].
  destruct (Hr eq_refl) as [Hd|Hs]; [left; by apply (wi_deferred _ _ _ _ Hl')|]. destruct Hs' as [Hd|Hs']; [by left|]. right. constructor.
  - intros command Hc. eapply settled_app; [exact Hl|]. left. auto.
  - eapply List.Forall_impl; [|exact Hs']. intros c' Hc' command Hcmd. eapply settled_app; [exact Hl|]. right. auto.
Qed.

(** ** The next cursor *)

(** A computation that leaves it alone. *)
Definition keeps {A} (m : PM A) : Prop := forall p, pl_next (snd (m p)) = pl_next p.

Lemma cursor_kept_bind {A B} (m : PM A) (k : A -> PM B) : keeps m -> (forall a, keeps (k a)) -> keeps (bind m k).
Proof. intros Hm Hk p. unfold bind. specialize (Hm p). destruct (m p) as [[a|e] p']; cbn in *; [by rewrite Hk|done]. Qed.

Lemma keeps_outside {A} (f : G -> A * G) : keeps (outside f).
Proof. intros p. unfold outside. by destruct (f _). Qed.
Lemma keeps_on_state {A} (f : S -> A * S) : keeps (on_state f).
Proof. intros p. unfold on_state. by destruct (f _). Qed.

Ltac keeps_steps :=
  repeat match goal with
  | |- forall _, _ => intro
  | |- keeps (bind _ _) => apply cursor_kept_bind
  | |- keeps (need _ _) => apply cursor_kept_bind
  | |- keeps (need_ok _ _) => apply cursor_kept_bind
  | |- keeps (outside _) => apply keeps_outside
  | |- keeps (on_state _) => apply keeps_on_state
  | |- keeps (guard ?b _) => unfold guard; destruct b
  | |- keeps (match ?x with _ => _ end) => destruct x
  | |- keeps (ret _) => exact (fun _ => eq_refl)
  | |- keeps (fail _) => exact (fun _ => eq_refl)
  | |- keeps (note _) => exact (fun _ => eq_refl)
  | |- keeps set_deferred => exact (fun _ => eq_refl)
  | |- keeps (set_reactions _) => exact (fun _ => eq_refl)
  end.

Lemma keeps_help repo key c command : keeps (poll_help repo key c command).
Proof. unfold poll_help. keeps_steps. Qed.

Lemma keeps_command repo key c command : keeps (poll_command config repo key c command).
Proof. unfold poll_command, after_submission. keeps_steps. Qed.

Lemma poll_comment_next repo key c p : pl_next (snd (poll_comment config repo key c p)) = Z.max (pl_next p) (ic_UpdatedAt c).
Proof.
  unfold poll_comment, bind, get, set_next. set (p1 := mkPoll _ _ _ _ _ _).
  assert (E : pl_next p1 = Z.max (pl_next p) (ic_UpdatedAt c)) by (cbn; destruct (Z.ltb_spec (pl_next p) (ic_UpdatedAt c)); lia).
  rewrite <- E. destruct (command_of config c); [|done]. destruct (_ =? _); [apply keeps_help|apply keeps_command].
Qed.

Lemma poll_comments_next repo key comments p p' :
  for_each (poll_comment config repo key) comments p = (Ok tt, p') ->
  pl_next p' = fold_left Z.max (map ic_UpdatedAt comments) (pl_next p).
Proof.
  revert p. induction comments as [|c comments IH]; intros p; cbn [for_each map fold_left]; [by intros [= <-]|].
  unfold bind. pose proof (poll_comment_next repo key c p) as Hn. destruct (poll_comment config repo key c p) as [[[]|e] p1]; [|done].
  cbn [snd] in Hn. intros Hl. by rewrite (IH _ Hl), Hn.
Qed.

(** ** One repository *)

Variable startedAt : time.

(** Where a poll starts from, given the stored cursor. *)
Definition since_of (found : option time) (since : time) : Prop :=
  found = Some since \/
  found = None /\ (pg_InitialSince config = Some (Some since) \/ pg_InitialSince config = None /\ since = startedAt).

(** What a poll that starts in the world [g] reads from the clock, and the
    comments it then lists. *)
Definition pollStartedAt (g : G) : time := fst (clock g).
Definition listed (repo : GitHubRepository) (found : option time) (g : G) (comments : list GitHubIssueComment) : Prop :=
  exists since, since_of found since /\ fst (ListUpdatedIssueComments repo since (snd (clock g))) = Some comments.

(** The cursor was moved past everything that was listed, and nothing of it is
    left to do. *)
Definition moved (repo : GitHubRepository) (g : G) (p : poll S G) (l : list poll_event) (s' : S) : Prop :=
  exists comments, listed repo (cursors (pl_store p) !! repo_key repo) g comments /\
    cursors s' = <[repo_key repo := fold_left Z.max (map ic_UpdatedAt comments) (pollStartedAt g)]> (cursors (pl_store p)) /\
    List.Forall (fun c => forall command, command_of config c = Some command ->
      settled repo (repo_key repo) (pl_store p) l c command) comments.

(** A poll of one repository, up to the reactions it owes; [l] is what the
    comments gave rise to. *)
Definition polled (repo : GitHubRepository) (g : G) (p : poll S G) (l : list poll_event) (p' : poll S G) : Prop :=
  good p' /\ forallb (comment_event (repo_key repo)) l = true /\
  (forall k id, k <> repo_key repo -> helps (pl_store p') !! (k, id) = helps (pl_store p) !! (k, id)) /\
  (cursors (pl_store p') = cursors (pl_store p) /\ pl_log p' = (pl_log p ++ l)%list \/
   moved repo g p l (pl_store p') /\ pl_log p' = (pl_log p ++ l ++ [CursorMoved (repo_key repo)])%list).

Lemma within_polled repo g p l p' : within (repo_key repo) p l p' -> polled repo g p l p'.
Proof. intros [Gd C Hh L E R N D V]. split_and!; auto. Qed.

(** The cursor moves, and what was delivered is forgotten. *)
Lemma finish_spec repo g p l p1 : within (repo_key repo) p l p1 ->
  (forall s', cursors s' = <[repo_key repo := pl_next p1]> (cursors (pl_store p)) -> moved repo g p l s') ->
  wp (bind (need_ok errSetCursor (on_state (SetRepoCursor (repo_key repo) (pl_next p1)))) (fun _ =>
      bind (note (CursorMoved (repo_key repo))) (fun _ =>
      need_ok errCleanHelp (on_state (DeleteDeliveredHelpResponses (repo_key repo)))))) p1
    (fun _ p' => polled repo g p l p' /\ pl_reactions p' = pl_reactions p1).
Proof.
  intros Hw Hm. set (key := repo_key repo) in *. destruct (wi_good _ _ _ _ Hw) as (Hok & Hsp & Hla).
  apply wp_bind, wp_need_ok, wp_on_state. intros ok s1 Es.
  pose proof (SetRepoCursor_spec key (pl_next p1) (pl_store p1) Hok) as Hs. rewrite Es in Hs. destruct Hs as (Hok1 & Hc1 & Hh1).
  destruct ok.
  2:{ split; [|done]. apply within_polled. by apply within_unchanged. }
  apply wp_bind. unfold wp at 1, note. cbn [pl_store pl_out pl_next pl_deferred pl_reactions pl_log set_store].
  rewrite (wi_cursors _ _ _ _ Hw) in Hc1. set (log' := (pl_log p1 ++ [CursorMoved key])%list).
  assert (Hlast : forall k id t, last_attempt k id log' = Some t -> k <> key /\ last_attempt k id (pl_log p1) = Some t).
  { intros k id t. unfold log'. rewrite last_attempt_add. cbn [last_event]. destruct (String.eqb_spec key k); [done|]. by split. }
  assert (Hgood : forall s', state_ok s' -> (forall k id, k <> key -> helps s' !! (k, id) = helps (pl_store p1) !! (k, id)) ->
    cursors s' = cursors s1 ->
    polled repo g p l (mkPoll s' (pl_out p1) (pl_next p1) (pl_deferred p1) (pl_reactions p1) log')).
  { intros s' Hok' Hh' Hc'. split_and!.
    - split; [done|]. cbn. split; [apply spaced_add; [done|by intros]|]. intros k id t Ht. apply Hlast in Ht as [Hk Ht].
      destruct (Hla _ _ _ Ht) as (r & Hr & Hcase). exists r. by rewrite Hh'.
    - apply (wi_events _ _ _ _ Hw).
    - intros k id Hk. cbn. rewrite Hh' by done. by apply (wi_helps _ _ _ _ Hw).
    - right. cbn. split; [apply Hm; by rewrite Hc'|]. unfold log'. by rewrite (wi_log _ _ _ _ Hw), app_assoc. }
  apply wp_need_ok, wp_on_state. cbn [pl_store]. intros ok s2 Ed.
  pose proof (DeleteDelivered_spec key s1 Hok1) as Hs2. rewrite Ed in Hs2. destruct Hs2 as (Hok2 & Hc2 & Hh2).
  assert (Hother : forall k id, k <> key -> helps s2 !! (k, id) = helps (pl_store p1) !! (k, id)).
  { intros k id Hk. rewrite <- Hh1, Hh2. destruct ok; [|done]. rewrite map_lookup_filter. destruct (helps s1 !! (k, id)); [|done].
    cbn. apply String.eqb_neq in Hk. by rewrite Hk. }
  destruct ok; (split; [by apply Hgood|done]).
Qed.

(** A step that only changes the outside and the locals. *)
Lemma polled_from repo g p p1 l p' : pl_store p1 = pl_store p -> pl_log p1 = pl_log p -> polled repo g p1 l p' -> polled repo g p l p'.
Proof. unfold polled, moved. by intros -> ->. Qed.

Lemma poll_body_spec repo p : good p -> pl_reactions p = [] -> pl_deferred p = false ->
  wp (poll_body config startedAt repo) p (fun _ p' => exists l, polled repo (pl_out p) p l p' /\ pl_reactions p' = flat_map (event_reaction config) l).
Proof.
  intros Hg Hr Hd. unfold poll_body.
  assert (Hidle : forall p1, pl_store p1 = pl_store p -> pl_log p1 = pl_log p -> pl_reactions p1 = [] ->
    exists l, polled repo (pl_out p) p l p1 /\ pl_reactions p1 = flat_map (event_reaction config) l).
  { intros p1 Es El Er. exists []. split; [|done]. unfold polled, good. rewrite Es, El, app_nil_r.
    split; [exact Hg|]. split; [done|]. split; [done|]. by left. }
  apply wp_bind, wp_need, wp_on_state. intros found s [= <- <-]. destruct (GetRepoCursor _ _) as [found|] eqn:Ef; [|by apply Hidle].
  apply (GetRepoCursor_spec _ _ (proj1 Hg)) in Ef. apply wp_bind.
  apply (wp_mono _ _ (fun r p' => p' = set_store (pl_store p) p /\ forall since, r = Ok since -> since_of found since)).
  { unfold poll_since, since_of. destruct found as [c|]; [by split; [|intros ? [= <-]; left]|].
    destruct (pg_InitialSince config) as [[t|]|]; (split; [done|]); intros ? [= <-]; auto. }
  intros [since|e] p1 [-> Hsince]; [specialize (Hsince _ eq_refl)|by apply Hidle].
  apply wp_bind, wp_outside. intros t0 g1 Ec. apply wp_bind, wp_need, wp_outside. intros [comments|] g2 El; [|by apply Hidle].
  apply wp_bind. unfold wp at 1, set_next. set (p2 := mkPoll _ _ _ _ _ _).
  assert (Hg2 : good p2) by done. apply wp_bind. pose proof (poll_comments_next repo (repo_key repo) comments p2) as Hnext.
  pose proof (poll_comments_spec repo (repo_key repo) comments p2 Hg2) as Hspec. unfold wp in Hspec |- * at 1.
  destruct (for_each _ comments p2) as [[[]|e] p3]; destruct Hspec as (l & Hw & Hset).
  2:{ exists l. split; [by apply (polled_from repo (pl_out p) p p2), within_polled|]. rewrite (wi_reactions _ _ _ _ Hw). cbn. by rewrite Hr. }
  specialize (Hnext _ eq_refl). destruct (Hset eq_refl) as [_ Hall]. apply wp_bind. unfold wp at 1, get.
  assert (Hrs : pl_reactions p3 = flat_map (event_reaction config) l) by (rewrite (wi_reactions _ _ _ _ Hw); cbn; by rewrite Hr).
  destruct (pl_deferred p3) eqn:Ed; [apply wp_ret; exists l; split; [by apply (polled_from repo (pl_out p) p p2), within_polled|done]|].
  destruct Hall as [Hall|Hall]; [done|]. eapply wp_mono; [apply (finish_spec repo (pl_out p) p2 l p3 Hw)|].
  - intros s' Hs'. exists comments. cbn in Ec, El. unfold pollStartedAt, listed. rewrite Ec. split; [|split; [by rewrite Hs', Hnext|done]].
    exists since. cbn. split; [by rewrite <- Ef|by rewrite El].
  - intros r p' [Hp Hrp]. exists l. split; [by apply (polled_from repo (pl_out p) p p2)|]. congruence.
Qed.

(** ** Reactions *)

Lemma postSchedulingReactions_log repo pending (p : poll S G) :
  let p' := postSchedulingReactions repo pending p in
  pl_store p' = pl_store p /\ pl_log p' = (pl_log p ++ map (fun '(id, r) => Reacted (repo_key repo) id r) pending)%list.
Proof.
  revert p. induction pending as [|[id r] rest IH]; intros p; cbn [postSchedulingReactions map]; [by rewrite app_nil_r|].
  unfold bind, outside, note. destruct (CreateIssueCommentReaction _ _ _ _) as [a g]. specialize (IH (mkPoll (pl_store p) g (pl_next p)
    (pl_deferred p) (pl_reactions p) (pl_log p ++ [Reacted (repo_key repo) id r]))). destruct IH as [Hs Hl]. split; [exact Hs|].
  etransitivity; [exact Hl|]. cbn. by rewrite <- app_assoc.
Qed.

Lemma good_reacted repo pending p p' : good p -> pl_store p' = pl_store p ->
  pl_log p' = (pl_log p ++ map (fun '(id, r) => Reacted repo id r) pending)%list -> good p'.
Proof.
  intros (Hok & Hsp & Hla) Es El. unfold good. rewrite Es, El. split; [done|]. clear Es El p'. revert Hsp Hla. generalize (pl_log p) as log.
  induction pending as [|[id r] rest IH]; intros log Hsp Hla; cbn [map]; [by rewrite app_nil_r|].
  rewrite cons_middle, app_assoc. apply IH; [by apply spaced_add|]. intros k i t. rewrite last_attempt_add. apply Hla.
Qed.

(** What the log gains when the repository's cursor moved or did not. *)
Definition poll_log (repo : GitHubRepository) (l : list poll_event) (cursor : bool) : list poll_event :=
  l ++ (if cursor then [CursorMoved (repo_key repo)] else [])
    ++ map (fun '(id, r) => Reacted (repo_key repo) id r) (flat_map (event_reaction config) l).

Lemma pollRepo_spec repo p : good p ->
  wp (pollRepo config startedAt repo) p (fun _ p' => exists l cursor,
    good p' /\ forallb (comment_event (repo_key repo)) l = true /\ pl_log p' = (pl_log p ++ poll_log repo l cursor)%list /\
    (forall k id, k <> repo_key repo -> helps (pl_store p') !! (k, id) = helps (pl_store p) !! (k, id)) /\
    if cursor then moved repo (pl_out p) p l (pl_store p') else cursors (pl_store p') = cursors (pl_store p)).
Proof.
  intros Hg. unfold pollRepo. set (p0 := mkPoll (pl_store p) (pl_out p) 0 false [] (pl_log p)). assert (Hg0 : good p0) by done.
  pose proof (poll_body_spec repo p0 Hg0 eq_refl eq_refl) as Hb. unfold wp in Hb |- *. fold p0.
  destruct (poll_body config startedAt repo p0) as [r p1]. destruct Hb as (l & (Hg1 & He & Hh & Hc) & Hr).
  destruct (postSchedulingReactions_log repo (pl_reactions p1) p1) as [Es El].
  pose proof (good_reacted _ _ _ _ Hg1 Es El) as Hg'. unfold poll_log. rewrite Es, El. rewrite Hr in *.
  destruct Hc as [[Hc Hl]|[Hc Hl]]; exists l; [exists false|exists true]; split_and!; try done; try exact Hc; rewrite Hl; by rewrite ?app_nil_l, <- ?app_assoc.
Qed.

Lemma PollOnce_good p : good p -> wp (PollOnce config startedAt) p (fun _ p' => good p').
Proof.
  unfold PollOnce. revert p. induction (pg_Repositories config) as [|repo repos IH]; intros p Hg; [by apply wp_ret|]. cbn [for_each].
  apply wp_bind. eapply wp_mono; [by apply pollRepo_spec|]. intros [[]|e] p' (l & cursor & Hg' & _); [by apply IH|done].
Qed.

Lemma Run_polls_good n p : good p -> good (Run_polls config startedAt n p).
Proof.
  revert p. induction n as [|n IH]; intros p Hg; [done|]. cbn. apply IH. pose proof (PollOnce_good p Hg) as Hp. unfold wp in Hp.
  by destruct (PollOnce config startedAt p).
Qed.
End Props.

(** * Interchangeable stores

    The poller over two stores that keep the interface and do not fail: from
    states that agree, the polls agree in everything but the store's own
    representation. *)

Local Open Scope Z_scope.
Local Open Scope string_scope.

Section Simulation.
Context {S1 S2 G : Type} `{StateTotal S1} `{StateTotal S2} `{GitHubClient G} `{Ambient G} `{Submitter G}.
Variable config : ProducerConfig.
Variable startedAt : time.

(** The same cursors and the same requests. *)
Definition same_state (s1 : S1) (s2 : S2) : Prop :=
  state_ok s1 /\ state_ok s2 /\ cursors s1 = cursors s2 /\ helps s1 = helps s2.

Definition same_poll (p1 : poll S1 G) (p2 : poll S2 G) : Prop :=
  same_state (pl_store p1) (pl_store p2) /\ pl_out p1 = pl_out p2 /\ pl_next p1 = pl_next p2 /\
  pl_deferred p1 = pl_deferred p2 /\ pl_reactions p1 = pl_reactions p2 /\ pl_log p1 = pl_log p2.

Abbreviation PM1 := (M (poll S1 G) poll_error).
Abbreviation PM2 := (M (poll S2 G) poll_error).

Definition sim {A} (m1 : PM1 A) (m2 : PM2 A) : Prop :=
  forall p1 p2, same_poll p1 p2 -> fst (m1 p1) = fst (m2 p2) /\ same_poll (snd (m1 p1)) (snd (m2 p2)).

Definition sim_op {A} (f1 : S1 -> A * S1) (f2 : S2 -> A * S2) : Prop :=
  forall s1 s2, same_state s1 s2 -> fst (f1 s1) = fst (f2 s2) /\ same_state (snd (f1 s1)) (snd (f2 s2)).

(** ** The store's operations *)

Lemma sim_GetRepoCursor k : sim_op (fun s => (GetRepoCursor k s, s)) (fun s => (GetRepoCursor k s, s)).
Proof.
  intros s1 s2 Hs. split; [|done]. destruct Hs as (O1 & O2 & Ec & _). cbn.
  destruct (GetRepoCursor_total k s1 O1) as [r1 E1], (GetRepoCursor_total k s2 O2) as [r2 E2].
  rewrite E1, E2. apply GetRepoCursor_spec in E1 as ->, E2 as ->; try done. by rewrite Ec.
Qed.

Lemma sim_SetRepoCursor k c : sim_op (SetRepoCursor k c) (SetRepoCursor k c).
Proof.
  intros s1 s2 (O1 & O2 & Ec & Eh).
  pose proof (SetRepoCursor_total k c s1 O1) as T1. pose proof (SetRepoCursor_total k c s2 O2) as T2.
  pose proof (SetRepoCursor_spec k c s1 O1) as L1. pose proof (SetRepoCursor_spec k c s2 O2) as L2.
  destruct (SetRepoCursor k c s1) as [a1 s1'], (SetRepoCursor k c s2) as [a2 s2']. cbn in *. subst.
  destruct L1 as (? & C1 & H1'), L2 as (? & C2 & H2'). split; [done|]. split_and!; congruence.
Qed.

Lemma sim_GetOrCreate k id marker now : sim_op (GetOrCreateHelpResponse k id marker now) (GetOrCreateHelpResponse k id marker now).
Proof.
  intros s1 s2 (O1 & O2 & Ec & Eh).
  destruct (GetOrCreate_total k id marker now s1 O1) as [[r1 b1] T1], (GetOrCreate_total k id marker now s2 O2) as [[r2 b2] T2].
  pose proof (GetOrCreate_spec k id marker now s1 O1) as L1. pose proof (GetOrCreate_spec k id marker now s2 O2) as L2.
  destruct (GetOrCreateHelpResponse k id marker now s1) as [a1 s1'], (GetOrCreateHelpResponse k id marker now s2) as [a2 s2'].
  cbn [fst snd] in *. subst. rewrite Eh in L1. destruct L1 as (? & C1 & H1'), L2 as (? & C2 & H2').
  destruct (helps s2 !! (k, id)) as [old|]; destruct H1' as (-> & -> & H1'), H2' as (-> & -> & H2'); (split; [done|]; split_and!; congruence).
Qed.

Lemma sim_TryBegin k id now before : sim_op (TryBeginHelpResponseAttempt k id now before) (TryBeginHelpResponseAttempt k id now before).
Proof.
  intros s1 s2 (O1 & O2 & Ec & Eh).
  destruct (TryBegin_total k id now before s1 O1) as [b1 T1], (TryBegin_total k id now before s2 O2) as [b2 T2].
  pose proof (TryBegin_spec k id now before s1 O1) as L1. pose proof (TryBegin_spec k id now before s2 O2) as L2.
  destruct (TryBeginHelpResponseAttempt k id now before s1) as [a1 s1'], (TryBeginHelpResponseAttempt k id now before s2) as [a2 s2'].
  cbn [fst snd] in *. subst. rewrite Eh in L1. destruct L1 as (? & C1 & E1 & H1'), L2 as (? & C2 & E2 & H2').
  rewrite <- E1 in E2. subst b2. split; [done|]. destruct b1; split_and!; congruence.
Qed.

Lemma sim_SetDelivered k id now : sim_op (SetHelpResponseDelivered k id now) (SetHelpResponseDelivered k id now).
Proof.
  intros s1 s2 (O1 & O2 & Ec & Eh).
  pose proof (SetDelivered_total k id now s1 O1) as T1. pose proof (SetDelivered_total k id now s2 O2) as T2. rewrite Eh in T1.
  pose proof (SetDelivered_spec k id now s1 O1) as L1. pose proof (SetDelivered_spec k id now s2 O2) as L2.
  destruct (SetHelpResponseDelivered k id now s1) as [a1 s1'], (SetHelpResponseDelivered k id now s2) as [a2 s2'].
  cbn [fst snd] in *. destruct L1 as (? & C1 & H1' & F1), L2 as (? & C2 & H2' & F2). rewrite Eh in F1.
  assert (a1 = a2) as -> by (destruct a1, a2; try done; [symmetry; by apply T2, F1|by apply T1, F2]).
  split; [done|]. destruct a2; split_and!; congruence.
Qed.

Lemma sim_DeleteDelivered k : sim_op (DeleteDeliveredHelpResponses k) (DeleteDeliveredHelpResponses k).
Proof.
  intros s1 s2 (O1 & O2 & Ec & Eh).
  pose proof (DeleteDelivered_total k s1 O1) as T1. pose proof (DeleteDelivered_total k s2 O2) as T2.
  pose proof (DeleteDelivered_spec k s1 O1) as L1. pose proof (DeleteDelivered_spec k s2 O2) as L2.
  destruct (DeleteDeliveredHelpResponses k s1) as [a1 s1'], (DeleteDeliveredHelpResponses k s2) as [a2 s2']. cbn [fst snd] in *. subst.
  destruct L1 as (? & C1 & H1'), L2 as (? & C2 & H2'). split; [done|]. split_and!; congruence.
Qed.

(** ** Computations *)

Lemma sim_bind {A B} (m1 : PM1 A) (m2 : PM2 A) (k1 : A -> PM1 B) (k2 : A -> PM2 B) :
  sim m1 m2 -> (forall a, sim (k1 a) (k2 a)) -> sim (bind m1 k1) (bind m2 k2).
Proof.
  intros Hm Hk p1 p2 Hp. unfold bind. destruct (Hm _ _ Hp) as [Er Hp']. destruct (m1 p1) as [r1 q1], (m2 p2) as [r2 q2]. cbn [fst snd] in *.
  subst r2. destruct r1; [by apply Hk|done].
Qed.

Lemma sim_lift {A} (r : result poll_error A) : sim (fun p => (r, p)) (fun p => (r, p)).
Proof. done. Qed.

Lemma sim_on_state {A} (f1 : S1 -> A * S1) (f2 : S2 -> A * S2) : sim_op f1 f2 -> sim (on_state f1) (on_state f2).
Proof.
  intros Hf p1 p2 (Hs & Hrest). unfold on_state. destruct (Hf _ _ Hs) as [Ea Hs']. destruct (f1 _), (f2 _). cbn [fst snd] in *.
  subst. by split.
Qed.

Lemma sim_outside {A} (f : G -> A * G) : sim (outside f) (outside f).
Proof.
  intros p1 p2 (Hs & Eo & Hrest). unfold outside. rewrite Eo. destruct (f (pl_out p2)). cbn. split; [done|]. by split.
Qed.

Lemma sim_note e : sim (note e) (note e).
Proof. intros p1 p2 (Hs & Eo & En & Ed & Er & El). cbn. split; [done|]. split_and!; cbn; congruence || done. Qed.
Lemma sim_set_next t : sim (set_next t) (set_next t).
Proof. intros p1 p2 (Hs & Eo & En & Ed & Er & El). cbn. by split_and!. Qed.
Lemma sim_set_deferred : sim set_deferred set_deferred.
Proof. intros p1 p2 (Hs & Eo & En & Ed & Er & El). cbn. by split_and!. Qed.
Lemma sim_set_reactions f : sim (set_reactions f) (set_reactions f).
Proof. intros p1 p2 (Hs & Eo & En & Ed & Er & El). cbn. split; [done|]. split_and!; cbn; congruence || done. Qed.

Lemma sim_get {B} (k1 : poll S1 G -> PM1 B) (k2 : poll S2 G -> PM2 B) :
  (forall p1 p2, same_poll p1 p2 -> sim (k1 p1) (k2 p2)) -> sim (bind get k1) (bind get k2).
Proof. intros Hk p1 p2 Hp. unfold bind, get. by apply Hk. Qed.

Lemma sim_for_each {A} (f1 : A -> PM1 unit) (f2 : A -> PM2 unit) xs : (forall x, sim (f1 x) (f2 x)) -> sim (for_each f1 xs) (for_each f2 xs).
Proof. intros Hf. induction xs as [|x xs IH]; [apply sim_lift|]. cbn. apply sim_bind; [apply Hf|by intros]. Qed.

(** Walks through two computations of the same shape. *)
Ltac sim_steps :=
  repeat match goal with
  | |- forall _, _ => intro
  | |- sim (bind get _) _ => apply sim_get
  | |- sim (bind _ _) _ => apply sim_bind
  | |- sim (need _ _) _ => apply sim_bind
  | |- sim (need_ok _ _) _ => apply sim_bind
  | |- sim (outside _) _ => apply sim_outside
  | |- sim (on_state _) _ => apply sim_on_state
  | |- sim (note _) _ => apply sim_note
  | |- sim (set_next _) _ => apply sim_set_next
  | |- sim set_deferred _ => apply sim_set_deferred
  | |- sim (set_reactions _) _ => apply sim_set_reactions
  | |- sim (ret _) _ => apply sim_lift
  | |- sim (fail _) _ => apply sim_lift
  | |- sim (guard ?b _) _ => unfold guard; destruct b
  | |- sim (match ?x with _ => _ end) _ => destruct x
  | |- sim_op (fun _ => (GetRepoCursor _ _, _)) _ => apply sim_GetRepoCursor
  | |- sim_op (SetRepoCursor _ _) _ => apply sim_SetRepoCursor
  | |- sim_op (GetOrCreateHelpResponse _ _ _ _) _ => apply sim_GetOrCreate
  | |- sim_op (TryBeginHelpResponseAttempt _ _ _ _) _ => apply sim_TryBegin
  | |- sim_op (SetHelpResponseDelivered _ _ _) _ => apply sim_SetDelivered
  | |- sim_op (DeleteDeliveredHelpResponses _) _ => apply sim_DeleteDelivered
  end.

Lemma sim_help repo key c command : sim (poll_help repo key c command) (poll_help repo key c command).
Proof. unfold poll_help. sim_steps. Qed.

Lemma sim_command repo key c command : sim (poll_command config repo key c command) (poll_command config repo key c command).
Proof. unfold poll_command, after_submission. sim_steps. Qed.

Lemma sim_comment repo key c : sim (poll_comment config repo key c) (poll_comment config repo key c).
Proof.
  unfold poll_comment. apply sim_get. intros p1 p2 (_ & _ & En & _). rewrite En. apply sim_bind; [apply sim_set_next|]. intros _.
  destruct (command_of config c); [|apply sim_lift]. destruct (_ =? _); [apply sim_help|apply sim_command].
Qed.

(** The end of a poll, from the state it reads. *)
Lemma sim_finish key p1 p2 : same_poll p1 p2 ->
  sim (if pl_deferred p1 then ret tt
       else bind (need_ok errSetCursor (on_state (SetRepoCursor key (pl_next p1)))) (fun _ =>
            bind (note (CursorMoved key)) (fun _ => need_ok errCleanHelp (on_state (DeleteDeliveredHelpResponses key)))))
      (if pl_deferred p2 then ret tt
       else bind (need_ok errSetCursor (on_state (SetRepoCursor key (pl_next p2)))) (fun _ =>
            bind (note (CursorMoved key)) (fun _ => need_ok errCleanHelp (on_state (DeleteDeliveredHelpResponses key))))).
Proof. intros (_ & _ & En & Ed & _). rewrite En, Ed. sim_steps. Qed.

Lemma sim_body repo : sim (poll_body config startedAt repo) (poll_body config startedAt repo).
Proof.
  unfold poll_body, poll_since. apply sim_bind; [sim_steps|intros found]. apply sim_bind; [sim_steps|intros since].
  apply sim_bind; [sim_steps|intros t0]. apply sim_bind; [sim_steps|intros comments]. apply sim_bind; [sim_steps|intros _].
  apply sim_bind; [apply sim_for_each; intros; apply sim_comment|intros _]. apply sim_get. intros p1 p2 Hp. by apply sim_finish.
Qed.

Lemma sim_reactions repo pending p1 p2 : same_poll p1 p2 ->
  same_poll (postSchedulingReactions repo pending p1) (postSchedulingReactions repo pending p2).
Proof.
  revert p1 p2. induction pending as [|[id r] rest IH]; intros p1 p2 Hp; [done|]. cbn [postSchedulingReactions].
  assert (Hs : sim (bind (outside (CreateIssueCommentReaction repo id r)) (fun _ => note (Reacted (repo_key repo) id r)))
                   (bind (outside (CreateIssueCommentReaction repo id r)) (fun _ => note (Reacted (repo_key repo) id r)))) by sim_steps.
  destruct (Hs _ _ Hp) as [_ Hp']. destruct (bind _ _ p1), (bind _ _ p2). by apply IH.
Qed.

Lemma sim_repo repo : sim (pollRepo config startedAt repo) (pollRepo config startedAt repo).
Proof.
  intros p1 p2 (Hs & Eo & En & Ed & Er & El). unfold pollRepo.
  destruct (sim_body repo (mkPoll (pl_store p1) (pl_out p1) 0 false [] (pl_log p1)) (mkPoll (pl_store p2) (pl_out p2) 0 false [] (pl_log p2)))
    as [E Hp]; [by split_and!|].
  destruct (poll_body _ _ _ _) as [r1 q1], (poll_body _ _ _ _) as [r2 q2]. cbn [fst snd] in *. split; [done|].
  assert (Eq : pl_reactions q1 = pl_reactions q2) by apply Hp. rewrite Eq. by apply sim_reactions.
Qed.

Lemma sim_polls n p1 p2 : same_poll p1 p2 -> same_poll (Run_polls config startedAt n p1) (Run_polls config startedAt n p2).
Proof.
  revert p1 p2. induction n as [|n IH]; intros p1 p2 Hp; [done|]. cbn. apply IH.
  apply (sim_for_each _ _ (pg_Repositories config) sim_repo _ _ Hp).
Qed.
End Simulation.
