(* ===== verification/GithubCompose.v ===== *)
(** * The producer and the local controller

    The exchange of an admission: the producer's request as the controller
    decodes it, and the controller's answer as the producer classifies it. *)
From stdpp Require Import base list strings gmap.
From Stdlib Require Import ZArith Lia Ascii.
From S2P Require Import Prelude GoStrings GoUrl GoJson GoJsonPrint GoHttp Sha256 Contract Validation Decode Resolver LocalRun Sql StoreRow StoreOps StoreBatch StoreValid StoreBatchRefine Scheduling SchedulerLoad HttpApi GithubCommand GithubSubmit.


Local Open Scope Z_scope.
Local Open Scope string_scope.

(** ** The controller's answer as text *)

(** The bodies sent to a request for admission; [writeJSON] adds a newline. *)
Definition schedule_reply (body : response_body) : option json :=
  match body with
  | AdmissionBody scheduled reason state agentRun =>
      Some (JObject ([("scheduled", JBool scheduled)] ++ omitempty "reason" reason ++ omitempty "state" state
        ++ match agentRun with
           | Some name => [("agentRun", JObject [("namespace", JString "local"); ("name", JString name)])]
           | None => []
           end)%list)
  | ErrorBody reason => Some (JObject [("error", JObject [("reason", JString reason); ("message", JString "request denied")])])
  | _ => None
  end.

(** The exchange: what the server does with the posted request. *)
Definition controller_post `{SnapshotCodec} (server : HTTPServer) (t0 now : time) (address token body : string) (t : table)
  : option (Z * string) * table :=
  match url_Parse address with
  | None => (None, t)
  | Some u =>
      let request := mkRequest "POST" u (if token =? "" then [] else ["Bearer " ++ token]) "application/json" (Some body) in
      let '(response, t') := route server t0 now request t in
      ((fun reply => (rs_Status response, print_json reply ++ newline)) <$> schedule_reply (rs_Body response), t')
  end.

(** ** What a created run is called *)

Section Created.
Context {C : SnapshotCodec}.

Definition fresh_results (prepared : list preparedCreate) (rs : list CreateResult) : Prop :=
  List.Forall (fun r => cr_Created r = true -> exists c, In c prepared /\
    v_RunID (cr_Run r) = rr_RunID (pc_resolved c) /\ v_State (cr_Run r) = StatePending) rs.

Lemma fresh_with prepared i r b :
  (cr_Created r = true -> exists c, In c prepared /\ v_RunID (cr_Run r) = rr_RunID (pc_resolved c) /\ v_State (cr_Run r) = StatePending) ->
  fresh_results prepared (b_results b) -> fresh_results prepared (b_results (with_result i r b)).
Proof. intros Hr Hb. unfold fresh_results in *. apply Forall_insert; done. Qed.

Lemma fresh_classify prepared now b ic t b' t' :
  classify false false now b ic t = (Ok b', t') -> fresh_results prepared (b_results b) -> fresh_results prepared (b_results b').
Proof.
  intros Hc Hb. destruct ic as [i c]. unfold classify in Hc. monad_inv.
  match goal with H : queryByIdempotency _ _ = (Ok ?f, _) |- _ => destruct f end; monad_inv; [|by destruct b].
  assert (Hrec : forall a, b_results (record_action i a b) = b_results b) by (by intros []).
  match goal with H : lift _ _ = (Ok ?a, _) |- _ => destruct a end; rewrite ?Hrec; try done; apply fresh_with; rewrite ?Hrec; done.
Qed.

Lemma fresh_classify_all prepared now ics b t b' t' :
  fold_each (classify false false now) b ics t = (Ok b', t') -> fresh_results prepared (b_results b) -> fresh_results prepared (b_results b').
Proof.
  revert b t. induction ics as [|ic ics IH]; intros b t; cbn [fold_each]; [by intros [= <- _]|].
  intros Hf Hb. apply bind_ok in Hf as (b1 & t1 & H1 & H2). eapply IH; [exact H2|]. by eapply fresh_classify.
Qed.

Lemma fresh_apply prepared apply b ixs t b' t' :
  (forall b i c t b' t', In c prepared -> apply b i c t = (Ok b', t') -> fresh_results prepared (b_results b) -> fresh_results prepared (b_results b')) ->
  apply_all apply prepared b ixs t = (Ok b', t') -> fresh_results prepared (b_results b) -> fresh_results prepared (b_results b').
Proof.
  intros Ha. unfold apply_all. revert b t. induction ixs as [|i ixs IH]; intros b t; cbn [fold_each]; [by intros [= <- _]|].
  intros Hf Hb. apply bind_ok in Hf as (b1 & t1 & H1 & H2). eapply IH; [exact H2|].
  destruct (prepared !! i) as [c|] eqn:E; [|by injection H1 as <- _]. eapply Ha; [|exact H1|done]. apply list_elem_of_In. by eapply list_elem_of_lookup_2.
Qed.

Lemma fresh_reread prepared w f key b i t b' t' :
  apply_reread w f key b i t = (Ok b', t') -> fresh_results prepared (b_results b) -> fresh_results prepared (b_results b').
Proof.
  intros Hr Hb. unfold apply_reread in Hr. monad_inv.
  match goal with H : queryByIdempotency _ _ = (Ok ?f, _) |- _ => destruct f end; monad_inv. by apply fresh_with.
Qed.

Lemma fresh_new prepared now b i c t b' t' : In c prepared ->
  apply_new now b i c t = (Ok b', t') -> fresh_results prepared (b_results b) -> fresh_results prepared (b_results b').
Proof.
  intros Hin Hn Hb. unfold apply_new in Hn. monad_inv.
  match goal with Hs : context [sql_insert ?a ?b ?c ?d] |- _ => destruct (sql_insert a b c d) end; monad_inv.
  apply fresh_with; [|done]. intros _. by exists c.
Qed.

Lemma fresh_replace prepared now b i c t b' t' :
  apply_replace now b i c t = (Ok b', t') -> fresh_results prepared (b_results b) -> fresh_results prepared (b_results b').
Proof. intros Hr Hb. unfold apply_replace in Hr. monad_inv. done. Qed.

Lemma create_tx_fresh_results st now prepared t rs t' :
  create_tx st now prepared false false false false t = (Ok rs, t') -> fresh_results prepared rs.
Proof.
  intros Hc. unfold create_tx in Hc. monad_inv.
  assert (Hempty : fresh_results prepared (b_results (empty_batch (length prepared)))).
  { unfold fresh_results. cbn. apply List.Forall_forall. intros r Hr. apply repeat_spec in Hr as ->. done. }
  repeat match goal with
  | Ha : apply_all _ prepared _ _ _ = (Ok ?b, _) |- fresh_results prepared (b_results ?b) =>
      refine (fresh_apply _ _ _ _ _ _ _ _ Ha _); [intros * Hin; solve [apply fresh_reread|by apply fresh_replace|by apply fresh_new]|clear Ha]
  end.
  by eapply fresh_classify_all.
Qed.

Lemma Create_created st t0 now i t created t' :
  Create st t0 now i t = (Ok created, t') -> cr_Created created = true ->
  exists snap x digest, canonicalSnapshot (ci_ResolvedRun i) = Ok (snap, x, digest) /\
    v_RunID (cr_Run created) = rr_RunID x /\ v_State (cr_Run created) = StatePending.
Proof.
  intros Hc Ht. unfold Create, createBatch in Hc. monad_inv.
  match goal with Hl : lift _ _ = (Ok ?cs, _), Hx : create_tx _ _ _ _ _ _ _ _ = (Ok ?rs, _) |- _ =>
    rename Hl into Hprep; rename Hx into Htx; rename rs into results; rename cs into prepared end.
  unfold lift in Hprep. assert (Hp : prepare [] [] [] [i] = Ok prepared) by congruence. clear Hprep. apply create_tx_fresh_results in Htx. destruct results as [|r results]; [done|].
  apply prepare_ok in Hp as (Hin & Hok & _). inversion_clear Htx as [|? ? Hr _].
  destruct (Hr Ht) as (c & Hc & Hid & Hst). destruct (Hok c Hc) as [O _]. pose proof (po_snapshot _ O) as Hs.
  assert (pc_input c = i) as Hi by (apply (in_map pc_input) in Hc; rewrite Hin in Hc; by destruct Hc as [<-|[]]).
  rewrite Hi in Hs. eauto 6.
Qed.
End Created.

(** ** The answer as the producer reads it *)

(** A reason the producer takes for final. *)
Definition refused_for_good (reason : string) : bool :=
  mem reason ["principal-not-eligible"; "workflow-selection-denied"; "profile-selection-denied"; "invalid-execution-profile-configuration"].

Definition accepted (key : string) (created : bool) : submission := (mkSubmission key created schedulingOutcomeAccepted, None).
Definition deferred (key : string) : submission := (mkSubmission key false schedulingOutcomeDeferred, Some ErrSubmissionDeferred).
Definition rejected : submission := (mkSubmission "" false schedulingOutcomeRejected, Some errSubmission).

(** Text that needs no escape. *)
Definition plain_id (c : ascii) : bool := lowerAlphaNumeric c || (code c =? 45)%Z.

Lemma escape_json_plain s : all_bytes plain_id s = true -> escape_json s = s.
Proof.
  unfold escape_json. induction s as [|c s IH]; [done|]. cbn [all_bytes]. rewrite andb_true_iff. intros [Hc Hs].
  assert (Ha : (code c <? 0x80)%Z = true) by (revert Hc; clear; destruct c as [[] [] [] [] [] [] [] []]; vm_compute; congruence).
  cbn [runes]. rewrite Ha. cbn [foldr]. rewrite (IH Hs).
  assert (He : escape_rune (code c, chunk1 c) = chunk1 c)
    by (revert Hc; clear; destruct c as [[] [] [] [] [] [] [] []]; vm_compute; congruence).
  rewrite He. done.
Qed.

Lemma validRunID_text s : validRunID s = true -> all_bytes plain_id s = true /\ len s <= 63 /\ ValidString s = true.
Proof.
  unfold validRunID. destruct (_ || _) eqn:E; [done|]. rewrite !orb_false_iff in E. destruct E as [[_ Hl] E]. apply Z.ltb_ge in Hl.
  destruct s as [|c s]; [done|]. cbn in E. apply negb_false_iff in E. destruct (all_bytes _ s) eqn:Ea; [|done]. intros _.
  assert (Hp : all_bytes plain_id (String c s) = true) by (cbn; unfold plain_id at 1; by rewrite E). split; [done|]. split; [done|].
  rewrite <- (str_app_nil (String c s)). rewrite valid_ascii; [done|]. unfold ascii_text. revert Hp. generalize (String c s) as r. clear.
  induction r as [|c r IH]; [done|]. cbn [all_bytes]. rewrite !andb_true_iff. intros [Hc Hr]. split; [|by apply IH].
  revert Hc. clear. destruct c as [[] [] [] [] [] [] [] []]; vm_compute; congruence.
Qed.

(** The answer to an admission that created a run. *)
Definition created_reply (id : string) : json :=
  JObject [("scheduled", JBool true); ("state", JString StatePending);
           ("agentRun", JObject [("namespace", JString "local"); ("name", JString id)])].

Lemma created_reply_len id : all_bytes plain_id id = true -> len (print_json (created_reply id)) <= 128 + len id.
Proof.
  intros Hid. assert (Hp : len (print_string id) = len id + 2).
  { unfold print_string. rewrite (escape_json_plain id Hid). change (String dquote (id +:+ String dquote "")) with (String dquote "" +:+ (id +:+ String dquote "")).
    rewrite !len_app. unfold len. cbn. lia. }
  unfold created_reply. cbn [print_json map Join]. revert Hp. generalize (print_string id) as text. intros text Hp.
  rewrite !len_app, Hp.
  repeat match goal with |- context [len ?s] => let v := eval vm_compute in (len s) in lazymatch v with Zpos _ => change (len s) with v end end.
  lia.
Qed.

Lemma substring_short n s : (String.length s <= n)%nat -> String.substring 0 n s = s.
Proof.
  revert s. induction n as [|n IH]; intros [|c s] Hl; cbn in *; try done; [lia|]. by rewrite IH by lia.
Qed.

Lemma limit_short n s : 0 <= n -> len s <= n -> String.substring 0 (Z.to_nat n) s = s.
Proof. intros Hn Hs. apply substring_short. unfold len in Hs. lia. Qed.

Lemma classify_created key id : validRunID id = true ->
  classify_response key 201 (String.substring 0 (Z.to_nat (maxScheduleAdmissionResponseBytes + 1)) (print_json (created_reply id) ++ newline))
  = accepted key true.
Proof.
  intros Hid. apply validRunID_text in Hid as (Hp & Hl & Hv). pose proof (created_reply_len id Hp) as Hlen.
  assert (Hlen2 : len (print_json (created_reply id) +:+ newline) <= maxScheduleAdmissionResponseBytes).
  { rewrite len_app. change (len newline) with 1. unfold maxScheduleAdmissionResponseBytes. lia. }
  assert (Hmax : 0 <= maxScheduleAdmissionResponseBytes) by (vm_compute; discriminate).
  revert Hlen2 Hmax. unfold classify_response, decodeScheduleAdmissionContract. generalize maxScheduleAdmissionResponseBytes as m. intros m Hlen2 Hmax.
  rewrite limit_short by lia. rewrite (proj2 (Z.ltb_ge _ _)) by lia.
  assert (Hok : json_ok (created_reply id) = true) by (unfold created_reply; cbn [json_ok forallb]; rewrite Hv; vm_compute; reflexivity).
  unfold newline. rewrite (proj2 (json_document_print _ Hok)). reflexivity.
Qed.

(** The refusals of an admission before the store is asked. *)
Lemma admission_refusals `{SnapshotCodec} configured policy request s r : admission_input configured policy request = Err (s, r) ->
  In (s, r) [(400, "invalid-request"); (403, "principal-not-eligible"); (403, "workflow-selection-denied"); (403, "profile-selection-denied");
             (400, "invalid-execution-profile-configuration"); (503, "scheduling-unavailable")].
Proof.
  unfold admission_input. destruct (decodeRequest _ _) as [input|]; [|intros [= <- <-]; cbn; tauto].
  destruct (_ || _); [intros [= <- <-]; cbn; tauto|]. destruct (negb _); [intros [= <- <-]; cbn; tauto|].
  destruct (po_selections policy !! _) as [sel|]; [|intros [= <- <-]; cbn; tauto].
  destruct (localWorkIdentity _ _ (aw_ID _)) as [key id]. destruct (Resolve _ _ _) as [resolved|e].
  - destruct (encodeCanonicalResolved _); [done|]. intros [= <- <-]. cbn. tauto.
  - destruct e; cbn [resolve_refusal]; intros [= <- <-]; cbn; tauto.
Qed.

(** The texts of the refusals, read back. *)
Lemma classify_refusal key status reason :
  In (status, reason) [(400, "invalid-request"); (403, "principal-not-eligible"); (403, "workflow-selection-denied");
    (403, "profile-selection-denied"); (400, "invalid-execution-profile-configuration"); (503, "scheduling-unavailable");
    (409, "work-conflict")] ->
  exists reply, schedule_reply (AdmissionBody false reason "" None) = Some reply /\
  classify_response key status (String.substring 0 (Z.to_nat (maxScheduleAdmissionResponseBytes + 1)) (print_json reply ++ newline))
  = if refused_for_good reason then rejected else uncertain.
Proof. intros Hin. eexists. split; [reflexivity|]. repeat destruct Hin as [[= <- <-]|Hin]; [vm_compute; reflexivity..|done]. Qed.

Section Answers.
Context {C : SnapshotCodec}.

(** What the producer concludes from an admission, by what the controller
    did with it. *)
Definition admission_outcome (key : string) (server : HTTPServer) (t0 now : time) (configured : schedule) (policy : schedulePolicy)
    (request : Request) (t : table) : submission :=
  match admission_input configured policy request with
  | Err (_, reason) => if refused_for_good reason then rejected else uncertain
  | Ok (input, _) =>
      match fst (Create (hs_store server) t0 now input t) with
      | Ok created => accepted key (cr_Created created)
      | Err ErrActiveGroup => accepted key false
      | Err ErrCapacityExceeded => deferred key
      | Err _ => uncertain
      end
  end.

Lemma admit_answer server t0 now configured policy request t key :
  let '(response, _) := admit_work server t0 now configured policy request t in
  exists reply, schedule_reply (rs_Body response) = Some reply /\
    classify_response key (rs_Status response)
      (String.substring 0 (Z.to_nat (maxScheduleAdmissionResponseBytes + 1)) (print_json reply ++ newline))
    = admission_outcome key server t0 now configured policy request t.
Proof.
  unfold admit_work, admission_outcome. destruct (admission_input _ _ _) as [[input runID]|[status reason]] eqn:Ea.
  2:{ apply admission_refusals in Ea. cbn [answer admission_reply respond rs_Body rs_Status]. apply classify_refusal.
      cbn in Ea |- *. tauto. }
  unfold on_store. destruct (Create _ t0 now input t) as [[created|e] t'] eqn:Ec; cbn [fst].
  - destruct (cr_Created created) eqn:Ef.
    + destruct (Create_created _ _ _ _ _ _ _ Ec Ef) as (snap & x & digest & Hs & Hid & Hst).
      apply canonicalSnapshot_ok in Hs as (Hd & _). apply decode_run_id in Hd. rewrite Hid, Hst.
      exists (created_reply (rr_RunID x)). split; [reflexivity|]. by apply classify_created.
    + eexists. split; [reflexivity|]. vm_compute. reflexivity.
  - destruct e; cbn [create_refusal]; eexists; (split; [reflexivity|vm_compute; reflexivity]).
Qed.
End Answers.

(** ** The request as the controller decodes it *)

(** The same request in the controller's types. *)
Definition request_view (r : profiledScheduleAdmissionRequest) : scheduleAdmissionRequest :=
  let w := fr_Work r in
  let p := fw_Principal w in
  mkAdmissionRequest (fr_Workflow r)
    (mkAdmissionWork (fw_ID w) (fw_Group w) (fw_Title w) (fw_URL w) (fw_Repository w)
       (mkAdmissionPrincipal (fp_Issuer p) (fp_Subject p) (fp_DisplayName p)))
    (fr_Prompt r).

(** All of its text is UTF-8. *)
Definition request_text_ok (r : profiledScheduleAdmissionRequest) : bool := json_ok (to_json r).

Lemma request_document r : request_text_ok r = true -> json_document (json_Marshal r) = Some (to_json r).
Proof. apply json_document_print. Qed.

Lemma request_decodes r : request_text_ok r = true -> decode_admission (json_Marshal r) = Some (request_view r).
Proof.
  intros Hok. unfold decode_admission. rewrite (request_document r Hok). clear Hok.
  destruct r as [workflow [id group title url repository [issuer subject display]] prompt].
  unfold to_json, ToJson_request, request_view. cbn [fr_Workflow fr_Work fr_Prompt fw_ID fw_Group fw_Title fw_URL fw_Repository fw_Principal fp_Issuer fp_Subject fp_DisplayName].
  unfold to_json, ToJson_work, to_json, ToJson_principal, omitempty. cbn [fw_ID fw_Group fw_Title fw_URL fw_Repository fw_Principal fp_Issuer fp_Subject fp_DisplayName].
  destruct (String.eqb_spec workflow "") as [->|], (String.eqb_spec group "") as [->|]; reflexivity.
Qed.

Lemma request_scans r : scanJSONValue 0 (to_json r) = true.
Proof.
  destruct r as [workflow [id group title url repository [issuer subject display]] prompt].
  unfold to_json, ToJson_request, to_json, ToJson_work, to_json, ToJson_principal, omitempty. cbn [fr_Workflow fr_Work fr_Prompt fw_ID fw_Group fw_Title fw_URL fw_Repository fw_Principal fp_Issuer fp_Subject fp_DisplayName].
  destruct (workflow =? ""), (group =? ""); reflexivity.
Qed.

Definition json_type (request : Request) : Prop := rq_ContentType request = "application/json".

Lemma request_roundtrip r request : request_text_ok r = true -> len (json_Marshal r) <= MaxRequestBytes ->
  json_type request -> rq_Body request = Some (json_Marshal r) ->
  decodeRequest request decode_admission = Some (request_view r).
Proof.
  intros Hok Hl Ht Hb. unfold decodeRequest. rewrite Ht, Hb.
  assert (E1 : bool_decide (ParseMediaType "application/json" = Some "application/json") = true) by (vm_compute; reflexivity).
  rewrite E1. cbn [negb read_limited fmap option_fmap option_map].
  assert (Hmax : 0 <= MaxRequestBytes) by (vm_compute; discriminate). revert Hl Hmax. generalize MaxRequestBytes as m. intros m Hl Hmax.
  rewrite limit_short by lia. rewrite (proj2 (Z.ltb_ge _ _)) by lia.
  assert (Hv : ValidString (json_Marshal r) = true) by (rewrite <- (str_app_nil (json_Marshal r)); unfold json_Marshal; by rewrite valid_print).
  assert (Hd : rejectDuplicateJSONKeys (json_Marshal r) = true) by (unfold rejectDuplicateJSONKeys; rewrite request_document by done; apply request_scans).
  assert (Hz : (len (json_Marshal r) =? 0)%Z = false) by (apply Z.eqb_neq; unfold json_Marshal, to_json, ToJson_request; cbn [print_json]; rewrite !len_app; unfold len; cbn [String.length]; lia).
  rewrite Hz, Hv, Hd. cbn [orb negb]. by apply request_decodes.
Qed.

Lemma read_limited_long data m : 0 <= m -> m < len data ->
  exists cut, read_limited (Some data) m = Some cut /\ (m <? len cut)%Z = true.
Proof.
  intros Hm Hl. exists (String.substring 0 (Z.to_nat (m + 1)) data). split; [done|]. apply Z.ltb_lt. unfold len in *.
  rewrite substring_length by lia. lia.
Qed.

Lemma request_too_long {T} u token body (decode : string -> option T) : MaxRequestBytes < len body ->
  decodeRequest (mkRequest "POST" u ["Bearer " +:+ token] "application/json" (Some body)) decode = None.
Proof.
  intros Hl. unfold decodeRequest. cbn [rq_ContentType rq_Body].
  assert (E1 : bool_decide (ParseMediaType "application/json" = Some "application/json") = true) by (vm_compute; reflexivity).
  rewrite E1. cbn [negb]. assert (Hmax : 0 <= MaxRequestBytes) by (vm_compute; discriminate).
  destruct (read_limited_long body MaxRequestBytes Hmax Hl) as (cut & -> & Hcut). rewrite Hcut, orb_true_r. done.
Qed.

(** ** The way to the handler *)

Lemma Split_valid_id name : validRunID name = true -> Split name "/"%char = [name].
Proof.
  intros Hn. apply validRunID_text in Hn as (Hp & _). induction name as [|c s IH]; [done|]. cbn [all_bytes] in Hp.
  apply andb_true_iff in Hp as [Hc Hs]. cbn [Split]. assert (E : (c =? "/")%char = false).
  { revert Hc. clear. destruct c as [[] [] [] [] [] [] [] []]; vm_compute; congruence. }
  rewrite E, IH by done. done.
Qed.

Section EndToEnd.
Context {C : SnapshotCodec}.

Lemma route_admission server t0 now request scheduler name configured policy t :
  hs_scheduler server = Some scheduler -> sc_schedules scheduler !! name = Some configured -> validRunID name = true ->
  authenticateScheduleProducer (rq_Authorization request) configured = Some policy ->
  rq_Method request = "POST" -> Path (rq_URL request) = "/v1/schedules/" +:+ (name +:+ "/admissions") ->
  EscapedPath (rq_URL request) = Path (rq_URL request) -> RawQuery (rq_URL request) = "" ->
  route server t0 now request t = admit_work server t0 now configured policy request t.
Proof.
  intros Hs Hc Hn Ha Hm Hp He Hq. unfold route. rewrite He, String.eqb_refl, Hm, Hq, Hp. cbn [negb andb].
  set (path := "/v1/schedules/" +:+ (name +:+ "/admissions")).
  assert (Hpre : HasPrefix path "/v1/schedules/" = true) by (apply HasPrefix_iff; by eexists).
  rewrite Hpre, Hs. unfold serve_schedule. rewrite Hp. fold path.
  replace (TrimPrefix path "/v1/schedules/") with (name +:+ String "/" "admissions") by (symmetry; apply TrimPrefix_app).
  rewrite Split_app, (Split_valid_id name Hn). cbn [app Split]. rewrite Hn, Hc, Ha, Hm, Hq. reflexivity.
Qed.

Lemma readLocalAdmissionToken_nonempty fs path token : readLocalAdmissionToken fs path = Some token -> (token =? "") = false.
Proof.
  unfold readLocalAdmissionToken. destruct (Lstat fs path) as [info|]; [|done]. destruct (negb _ || _ || _ || _); [done|].
  destruct (ReadFile fs path) as [data|]; [|done]. destruct (_ || _); [done|]. destruct ((len (TrimSpace data) <? 32)%Z) eqn:E; [done|].
  cbn [orb]. destruct (_ || _); [done|]. intros [= <-]. destruct (TrimSpace data); done.
Qed.

(** A producer of a schedule of this controller: local, profiled, with the
    token of one of the schedule's policies and the schedule's address. *)
Record connected (config : ProducerConfig) (fs : FileSystem) (server : HTTPServer) (configured : schedule) (policy : schedulePolicy)
    (token : string) (u : URL) : Prop := mkConnected {
  cn_profiled : profiled config = true;
  cn_backend : pg_Backend config = SubmissionBackendLocal;
  cn_token : readLocalAdmissionToken fs (pg_AdmissionTokenFile config) = Some token;
  cn_url : url_Parse (scheduleAdmissionURL config) = Some u;
  cn_path : exists scheduler name, hs_scheduler server = Some scheduler /\ sc_schedules scheduler !! name = Some configured /\
    validRunID name = true /\ Path u = "/v1/schedules/" +:+ (name +:+ "/admissions");
  cn_escaped : EscapedPath u = Path u;
  cn_query : RawQuery u = "";
  cn_policy : authenticateScheduleProducer ["Bearer " +:+ token] configured = Some policy
}.

(** The request a connected producer sends. *)
Definition sent_request (u : URL) (token body : string) : Request := mkRequest "POST" u ["Bearer " +:+ token] "application/json" (Some body).

(** What the admission leaves in the table. *)
Definition admitted_table (server : HTTPServer) (t0 now : time) (configured : schedule) (policy : schedulePolicy) (request : Request) (t : table) : table :=
  match admission_input configured policy request with
  | Ok (input, _) => snd (Create (hs_store server) t0 now input t)
  | Err _ => t
  end.

Lemma admit_table server t0 now configured policy request t :
  snd (admit_work server t0 now configured policy request t) = admitted_table server t0 now configured policy request t.
Proof.
  unfold admit_work, admitted_table. destruct (admission_input _ _ _) as [[input id]|[s r]]; [|done].
  unfold on_store. by destruct (Create _ t0 now input t) as [[|] ?].
Qed.

Lemma controller_post_admits config fs server configured policy token u t0 now body t :
  connected config fs server configured policy token u ->
  let request := sent_request u token body in
  exists reply response, admit_work server t0 now configured policy request t = (response, admitted_table server t0 now configured policy request t) /\
    schedule_reply (rs_Body response) = Some reply /\
    controller_post server t0 now (scheduleAdmissionURL config) token body t
    = (Some (rs_Status response, print_json reply +:+ newline), admitted_table server t0 now configured policy request t).
Proof.
  intros Hc request. pose proof (admit_answer server t0 now configured policy request t "") as Ha.
  pose proof (admit_table server t0 now configured policy request t) as Ht.
  destruct (admit_work server t0 now configured policy request t) as [response t'] eqn:Ew. cbn [snd] in Ht. subst t'.
  destruct Ha as (reply & Hr & _). exists reply, response. split; [done|]. split; [done|].
  unfold controller_post. rewrite (cn_url _ _ _ _ _ _ _ Hc), (readLocalAdmissionToken_nonempty _ _ _ (cn_token _ _ _ _ _ _ _ Hc)).
  destruct (cn_path _ _ _ _ _ _ _ Hc) as (scheduler & name & Hs & Hn & Hv & Hp).
  fold (sent_request u token body). fold request.
  rewrite (route_admission server t0 now request scheduler name configured policy t Hs Hn Hv (cn_policy _ _ _ _ _ _ _ Hc) eq_refl Hp
    (cn_escaped _ _ _ _ _ _ _ Hc) (cn_query _ _ _ _ _ _ _ Hc)).
  rewrite Ew, Hr. reflexivity.
Qed.
End EndToEnd.
