(* ===== verification/GithubTheorems.v ===== *)
(** * The guarantees of the comment producer *)
From stdpp Require Import base list strings gmap.
From Stdlib Require Import ZArith Lia Ascii.
From S2P Require Import Prelude GoStrings GoUrl GoJson GoJsonPrint GoHttp Sha256 Contract Validation Decode Resolver LocalRun Sql StoreRow StoreOps StoreBatch Fixture ResolvedProps StoreSystem Scheduling SchedulerLoad HttpApi ApiFixture GithubCommand GithubSubmit GithubState GithubPoller GithubPollerProps GithubCompose.


Local Open Scope Z_scope.
Local Open Scope string_scope.

(** ** A concrete producer *)

(** ** The controller's side *)

Definition gh_producer : scheduleProducerConfig :=
  mkProducer "queue" "/run/queue" ["https://github.com"] [mkSelection "default" "implement"] "implement" "keep" "docker".
Definition gh_policy : schedulePolicy :=
  match compileSchedulePolicy fixture_fs gh_producer with
  | Some p => p | None => mkPolicy "" [] ∅ ∅ "" "" "" (mkAuthorizationContext (mkPrincipal "" "" "") None) end.
Definition gh_schedule : schedule := mkSchedule "tickets" [gh_policy] the_resolver.
Definition gh_server : HTTPServer :=
  mkServer fixture_store true None None (Some (mkScheduler {["tickets" := gh_schedule]} [] (mkReconciliation false false false))) None.

(** ** The producer's side *)

Definition gh_app : GitHubRepository := mkGitHubRepository "acme" "app".
Definition gh_lib : GitHubRepository := mkGitHubRepository "acme" "lib".

Definition gh_config : ProducerConfig :=
  mkProducerConfig ["/nvtagent"] ["ann"] [gh_app; gh_lib] "" SubmissionModeScheduleAdmission SubmissionBackendLocal AdmissionModeProfiled
    "http://127.0.0.1:8080" "/run/queue" "" "tickets" "implement" [] "default" None "" "" None.

Definition gh_url : URL := Eval vm_compute in
  match url_Parse (scheduleAdmissionURL gh_config) with Some u => u | None => mkURL "" "" None "" "" "" false false "" "" "" end.

Definition gh_comment : GitHubIssueComment :=
  mkComment 7 "/nvtagent pr create" "https://github.com/acme/app/issues/1#issuecomment-7" "https://api.github.com/repos/acme/app/issues/1"
    (5 * Second) (5 * Second) (mkUser "ann" 42).
Definition gh_command : Command := mkCommand "/nvtagent" CommandIntentPRCreate "".
Definition gh_issue (title : string) : GitHubIssue :=
  mkIssue 1 title "It fails." "https://api.github.com/repos/acme/app/issues/1" "https://github.com/acme/app/issues/1" false.

(** A title of 171 characters of three bytes each. *)
Definition long_title : string := Nat.iter 171 (fun s => String "228" (String "184" (String "173" s))) "".

(** ** The outside *)

(** The controller's table, the clock, and the repositories that were listed. *)
Record gh_world := mkWorld { gw_table : table; gw_clock : time; gw_listed : list string }.

Section World.
Variable title : string.

Definition gh_client : GitHubClient gh_world := {|
  ListUpdatedIssueComments repo _ g :=
    (Some (if re_Name repo =? "app" then [gh_comment] else []), mkWorld (gw_table g) (gw_clock g) (gw_listed g ++ [re_Name repo]));
  GetIssue _ _ g := (Some (gh_issue title), g);
  ListIssueComments _ _ g := (Some [], g);
  CreateIssueComment _ _ _ g := (true, g);
  CreateIssueCommentReaction _ _ _ g := (true, g)
|}.

Definition gh_ambient : Ambient gh_world := {|
  clock g := (gw_clock g, mkWorld (gw_table g) (gw_clock g + Second) (gw_listed g));
  rand_Read g := (Some (repeat 0 16), g)
|}.

(** The exchange with the controller. *)
Definition gh_post (address token body : string) (g : gh_world) : option (Z * string) * gh_world :=
  let '(answer, t') := controller_post (H := api_codec) gh_server (gw_clock g) (gw_clock g) address token body (gw_table g) in
  (answer, mkWorld t' (gw_clock g) (gw_listed g)).

Definition gh_submitter : Submitter gh_world :=
  submitWithOutcome gh_config fixture_fs (fun _ _ _ _ _ _ g => (None, g)) (fun _ _ _ _ _ _ => None) gh_post.

Definition gh_start : poll memoryStateStore gh_world := mkPoll newMemoryStateStore (mkWorld [] (10 * Second) []) 0 false [] [].

Definition gh_poll : result poll_error unit * poll memoryStateStore gh_world :=
  PollOnce (H0 := gh_client) (H1 := gh_ambient) (H2 := gh_submitter) gh_config 0 gh_start.
End World.

(** ** Two polls *)

(** An ordinary title: the run is created, the cursors of both repositories
    move, and the comment gets its reaction. *)
Example accepted_poll :
  let '(r, p) := gh_poll "Fix it" in
  r = Ok tt /\ map run_id (gw_table (pl_out p)) = ["job"] /\ gw_listed (pl_out p) = ["app"; "lib"] /\
  pl_log p = [Submitted "acme/app" 7 (accepted "github:acme/app:issue:1:intent:create_pr" true); CursorMoved "acme/app";
              Reacted "acme/app" 7 "+1"; CursorMoved "acme/lib"].
Proof. vm_compute. auto. Qed.

(** The long title: the poll ends with an error, the cursor stays, and the
    second repository is not even listed; the next poll does the same. *)
Example blocked_poll :
  let '(r, p) := gh_poll long_title in
  r = Err (errSubmit errSubmission) /\ gw_table (pl_out p) = [] /\ gw_listed (pl_out p) = ["app"] /\
  pl_log p = [Submitted "acme/app" 7 uncertain] /\ mm_cursors (pl_store p) = ∅.
Proof. vm_compute. auto. Qed.

(** ** Names *)

Lemma dns_rune_plain r c : rune_shape r c -> dns_rune r = true -> all_bytes plain_id c = true.
Proof.
  intros Hs Hd. destruct Hs as [a Ha|r c Hr _ _ _|a].
  - revert Hd. clear. destruct a as [[] [] [] [] [] [] [] []]; vm_compute; congruence.
  - exfalso. apply Z.leb_le in Hr. unfold dns_rune, in_range in Hd. rewrite !orb_true_iff, !andb_true_iff, !Z.leb_le, Z.eqb_eq in Hd. lia.
  - discriminate Hd.
Qed.

Lemma replace_invalid_plain inside l : List.Forall (fun rc => rune_shape (fst rc) (snd rc)) l -> all_bytes plain_id (replace_invalid inside l) = true.
Proof.
  revert inside. induction l as [|[r c] l IH]; intros inside Hl; [done|]. inversion_clear Hl as [|? ? Hs Hl']. cbn [fst snd] in Hs.
  cbn [replace_invalid]. destruct (dns_rune r) eqn:E; [|destruct inside; [by apply IH|rewrite all_bytes_app, IH by done; done]].
  rewrite all_bytes_app, IH by done. by rewrite (dns_rune_plain _ _ Hs E).
Qed.

Lemma trim_left_bytes p q s : all_bytes q s = true -> all_bytes q (trim_left p s) = true /\ opt_test p (first_byte (trim_left p s)) = false.
Proof.
  induction s as [|c s IH]; [done|]. cbn [all_bytes trim_left]. rewrite andb_true_iff. intros [Hc Hs]. destruct (p c) eqn:E; [by apply IH|].
  cbn [all_bytes]. rewrite Hc, Hs. by split.
Qed.

Lemma trim_right_bytes p q s : all_bytes q s = true -> all_bytes q (trim_right p s) = true /\
  (String.length (trim_right p s) <= String.length s)%nat /\ (trim_right p s = "" \/ first_byte (trim_right p s) = first_byte s).
Proof.
  induction s as [|c s IH]; [by repeat split; left|]. cbn [all_bytes trim_right]. rewrite andb_true_iff. intros [Hc Hs].
  destruct (IH Hs) as (Hq & Hl & _). destruct (trim_right p s) as [|d r].
  - destruct (p c); [by repeat split; [cbn; lia|left]|]. split; [cbn; by rewrite Hc|]. split; [cbn; lia|by right].
  - split; [cbn [all_bytes] in *; by rewrite Hc|]. split; [cbn in *; lia|by right].
Qed.

(** Text of lower-case letters, digits and dashes that does not start with a
    dash. *)
Definition label_start (s : string) : Prop := all_bytes plain_id s = true /\ (s = "" \/ opt_test lowerAlphaNumeric (first_byte s) = true).

Lemma Trim_label s : all_bytes plain_id s = true -> label_start (Trim s "-") /\ (String.length (Trim s "-") <= String.length s)%nat.
Proof.
  intros Hs. unfold Trim. destruct (trim_left_bytes (one_of "-") plain_id s Hs) as [Hl Hf].
  assert (Hlen : (String.length (trim_left (one_of "-") s) <= String.length s)%nat).
  { clear. induction s as [|c s IH]; cbn [trim_left]; [done|]. destruct (one_of "-" c); cbn; lia. }
  destruct (trim_right_bytes (one_of "-") plain_id _ Hl) as (Hr & Hrl & Hrf). split; [|lia]. split; [done|].
  destruct Hrf as [->|E]; [by left|]. destruct (trim_left (one_of "-") s) as [|c t]; [by left|right]. rewrite E. cbn in Hl, Hf |- *.
  apply andb_true_iff in Hl as [Hc _]. unfold plain_id in Hc. apply orb_true_iff in Hc as [Hc|Hc]; [done|]. exfalso. revert Hc Hf. clear.
  destruct c as [[] [] [] [] [] [] [] []]; vm_compute; congruence.
Qed.

Lemma substring_label n s : label_start s -> all_bytes plain_id (String.substring 0 n s) = true.
Proof. intros [Hs _]. by apply all_bytes_substring. Qed.

Lemma name_valid base key : label_start base -> validRunID (agentRunNameFromBaseAndKey base key) = true.
Proof.
  intros Hb. unfold agentRunNameFromBaseAndKey. pose proof (sha256_hex_lower key) as Hh. pose proof (sha256_hex_len key) as Hl.
  set (h := sha256_hex key) in *. clearbody h. unfold len in Hl. pose proof (substring_length 10 h ltac:(lia)) as Hs. cbv zeta. rewrite Hs.
  set (cut := if (_ <? _)%nat then _ else _).
  assert (Hc : label_start cut /\ (String.length cut <= 52)%nat).
  { unfold cut. destruct (Nat.ltb_spec (63 - 10 - 1) (String.length base)).
    - destruct (Trim_label _ (substring_label (63 - 10 - 1) _ Hb)) as [H1 H2]. split; [done|].
      rewrite (substring_length (63 - 10 - 1) base) in H2 by lia. done.
    - split; [done|]. lia. }
  clearbody cut. destruct Hc as [[Hp Hf] Hlen].
  set (final := if cut =? "" then _ else _).
  assert (Hfin : opt_test lowerAlphaNumeric (first_byte final) = true /\ all_bytes plain_id final = true /\ (String.length final <= 52)%nat).
  { unfold final. destruct (String.eqb_spec cut "") as [E|E]; [split; [done|split; [done|cbn; lia]]|]. destruct Hf as [Hf|Hf]; done. }
  clearbody final. destruct Hfin as (F1 & F2 & F3). rewrite <- str_app_assoc. apply validRunID_prefix.
  - destruct final; done.
  - fold plain_id. rewrite all_bytes_app, F2. done.
  - by apply all_bytes_substring.
  - intros E. rewrite E in Hs. done.
  - rewrite str_length_app, Hs. cbn. lia.
Qed.

Lemma dns_base_label text : label_start (dns_base text).
Proof. unfold dns_base. apply Trim_label, replace_invalid_plain, runes_shapes. Qed.

(** Whatever the repository, the issue, the comment and the command are
    called, the name of the work they ask for is a DNS label of at most 63
    bytes, one the controller's store accepts as a run identifier. *)
Theorem run_names_valid config repo issue comment command :
  validRunID (id_Name (agentRunIdentityForCommand config repo issue comment command)) = true.
Proof.
  unfold agentRunIdentityForCommand. destruct (isCooperativeIntent _); [|destruct (_ =? _)]; apply name_valid, dns_base_label.
Qed.

(** ** Submissions *)

Section Submissions.
Context {C : SnapshotCodec}.
Context (config : ProducerConfig) (fs : FileSystem) (server : HTTPServer) (configured : schedule) (policy : schedulePolicy) (token : string) (u : URL).
Context (submitDirect : GitHubRepository -> GitHubIssue -> list GitHubIssueComment -> GitHubIssueComment -> Command -> agentRunIdentity -> table -> option bool * table).
Context (legacyBody : GitHubRepository -> GitHubIssue -> list GitHubIssueComment -> GitHubIssueComment -> Command -> agentRunIdentity -> option string).

(** The document a command becomes. *)
Definition command_request (workflow : string) (repo : GitHubRepository) (issue : GitHubIssue) (comments : list GitHubIssueComment)
    (comment : GitHubIssueComment) (command : Command) : profiledScheduleAdmissionRequest :=
  profiled_request workflow repo issue comment command (agentRunIdentityForCommand config repo issue comment command)
    (buildPrompt repo issue comments comment command).

Lemma payload_connected repo issue comments comment command workflow : connected config fs server configured policy token u ->
  0 < us_ID (ic_User comment) -> workflowForCommand config (cm_Intent command) = Some workflow ->
  isCooperativeIntent (cm_Intent command) && (maxResolvedRunPromptBytes <? len (buildPrompt repo issue comments comment command))%Z = false ->
  scheduleAdmissionPayload config fs legacyBody repo issue comments comment command (agentRunIdentityForCommand config repo issue comment command)
  = Ok (json_Marshal (command_request workflow repo issue comments comment command), token).
Proof.
  intros Hc Hid Hw Hp. unfold scheduleAdmissionPayload. pose proof (cn_profiled _ _ _ _ _ _ _ Hc) as Hm. unfold profiled in Hm.
  apply andb_true_iff in Hm as [_ Hm]. rewrite Hm, (cn_backend _ _ _ _ _ _ _ Hc). rewrite (proj2 (Z.leb_gt _ _)) by lia.
  change (SubmissionBackendLocal =? SubmissionBackendLocal) with true. cbn iota. rewrite (cn_token _ _ _ _ _ _ _ Hc), Hw.
  cbv zeta. rewrite Hp. done.
Qed.

(** The exchange, before its documents are looked at. *)
Lemma submission_connected t0 now repo issue comments comment command workflow t :
  connected config fs server configured policy token u ->
  0 < us_ID (ic_User comment) -> workflowForCommand config (cm_Intent command) = Some workflow ->
  isCooperativeIntent (cm_Intent command) && (maxResolvedRunPromptBytes <? len (buildPrompt repo issue comments comment command))%Z = false ->
  let request := sent_request u token (json_Marshal (command_request workflow repo issue comments comment command)) in
  submitWithOutcome config fs submitDirect legacyBody (controller_post server t0 now) repo issue comments comment command t
  = (admission_outcome (id_Key (agentRunIdentityForCommand config repo issue comment command)) server t0 now configured policy request t,
     admitted_table server t0 now configured policy request t).
Proof.
  intros Hc Hid Hw Hp request. unfold submitWithOutcome. rewrite (cn_profiled _ _ _ _ _ _ _ Hc), Hw. rewrite bool_decide_false by done.
  cbn [negb orb]. rewrite andb_false_r.
  assert (Hs : (submissionMode config =? SubmissionModeScheduleAdmission) = true)
    by (pose proof (cn_profiled _ _ _ _ _ _ _ Hc) as Hm; unfold profiled in Hm; by apply andb_true_iff in Hm as [Hm _]).
  rewrite Hs. unfold submitScheduleAdmission. rewrite (payload_connected _ _ _ _ _ _ Hc Hid Hw Hp), (cn_url _ _ _ _ _ _ _ Hc).
  destruct (controller_post_admits _ _ _ _ _ _ _ t0 now (json_Marshal (command_request workflow repo issue comments comment command)) t Hc)
    as (reply & response & Ew & Hr & Hpost).
  rewrite Hpost. cbn iota zeta. f_equal. fold request. fold request in Ew.
  pose proof (admit_answer server t0 now configured policy request t (id_Key (agentRunIdentityForCommand config repo issue comment command))) as Ha.
  rewrite Ew in Ha. destruct Ha as (reply' & Hr' & Ha). rewrite Hr in Hr'. injection Hr' as <-. exact Ha.
Qed.

(** C38: A command submitted to the local controller it is connected to.  The
    controller decodes exactly the work the command describes, and what the
    producer concludes is what the controller did: accepted and created when
    the store created the run, accepted when the work is already there or its
    group is active, deferred when the capacity is used up, refused for good
    when the policy or the profiles refuse it, and uncertain in every other
    case; the table is the one the store's [Create] leaves. *)
Theorem submission_end_to_end t0 now repo issue comments comment command workflow t :
  connected config fs server configured policy token u ->
  0 < us_ID (ic_User comment) -> workflowForCommand config (cm_Intent command) = Some workflow ->
  isCooperativeIntent (cm_Intent command) && (maxResolvedRunPromptBytes <? len (buildPrompt repo issue comments comment command))%Z = false ->
  let document := command_request workflow repo issue comments comment command in
  let request := sent_request u token (json_Marshal document) in
  request_text_ok document = true -> len (json_Marshal document) <= MaxRequestBytes ->
  submitWithOutcome config fs submitDirect legacyBody (controller_post server t0 now) repo issue comments comment command t
  = (admission_outcome (id_Key (agentRunIdentityForCommand config repo issue comment command)) server t0 now configured policy request t,
     admitted_table server t0 now configured policy request t) /\
  decodeRequest request decode_admission = Some (request_view document).
Proof.
  intros Hc Hid Hw Hp document request Hok Hlen. split; [by apply submission_connected|by apply (request_roundtrip document)].
Qed.

(** What the controller requires of a document, before it looks at its
    policies. *)
Definition acceptable (document : profiledScheduleAdmissionRequest) : bool :=
  (len (json_Marshal document) <=? MaxRequestBytes)%Z && validScheduleWork (ar_Work (request_view document))
  && (len (fr_Prompt document) <=? MaxPromptBytes)%Z && negb (has_nul (fr_Prompt document)).

(** Work the controller cannot accept is submitted for ever.  A command
    whose title, names or prompt exceed what the controller's checks allow
    (the producer makes none of them for a request to create a pull request)
    is answered as an invalid request, which the producer takes for an
    uncertain outcome, whatever the state of the store. *)
Theorem unacceptable_work_never_final t0 now repo issue comments comment command workflow t :
  connected config fs server configured policy token u ->
  0 < us_ID (ic_User comment) -> workflowForCommand config (cm_Intent command) = Some workflow ->
  isCooperativeIntent (cm_Intent command) && (maxResolvedRunPromptBytes <? len (buildPrompt repo issue comments comment command))%Z = false ->
  let document := command_request workflow repo issue comments comment command in
  request_text_ok document = true -> acceptable document = false ->
  submitWithOutcome config fs submitDirect legacyBody (controller_post server t0 now) repo issue comments comment command t = (uncertain, t).
Proof.
  intros Hc Hid Hw Hp document Hok Hbad. rewrite (submission_connected t0 now repo issue comments comment command workflow t Hc Hid Hw Hp).
  fold document. unfold admission_outcome, admitted_table, admission_input. unfold acceptable in Hbad.
  destruct (len (json_Marshal document) <=? MaxRequestBytes)%Z eqn:El.
  - apply Z.leb_le in El. rewrite (request_roundtrip document) by done. cbv zeta. cbn [andb] in Hbad.
    change (ar_Prompt (request_view document)) with (fr_Prompt document). rewrite Z.ltb_antisym.
    destruct (validScheduleWork _); [|done]. destruct (_ <=? _)%Z; [|done]. cbn [negb andb orb] in *. apply negb_false_iff in Hbad.
    rewrite Hbad, orb_true_r. done.
  - unfold sent_request. rewrite request_too_long by (apply Z.leb_gt in El; done). done.
Qed.
End Submissions.

(** ** Polling *)

Section Polling.
Context {S G : Type} `{StateSpec S} `{GitHubClient G} `{Ambient G} `{Submitter G}.
Variable config : ProducerConfig.
Variable startedAt : time.

(** A producer that has just started. *)
Definition fresh_poll (s : S) (g : G) : poll S G := mkPoll s g 0 false [] [].

Lemma fresh_good s g : state_ok s -> good (fresh_poll s g).
Proof. intros Hs. split; [done|]. split; [intros [] ? ? ? ? ? ? [=]|]. intros k id t [=]. Qed.


(** Answers to one request for help are at least a minute apart, over any
    number of polls and any failures of the store, of GitHub and of the
    submissions, unless the cursor of the repository moved in between. *)
Theorem help_attempts_spaced s g n : state_ok s -> spaced (pl_log (Run_polls config startedAt n (fresh_poll s g))).
Proof. intros Hs. by apply Run_polls_good, fresh_good. Qed.

End Polling.

(** C40: The store in memory and the store in SQLite are interchangeable: from
    empty stores and any GitHub, submitter and clock, any number of polls do
    the same things in the same order and leave the outside in the same
    state. *)
Theorem stores_interchangeable {G} `{GitHubClient G} `{Ambient G} `{Submitter G} config startedAt n (g : G) :
  let p1 := Run_polls config startedAt n (mkPoll newMemoryStateStore g 0 false [] []) in
  let p2 := Run_polls config startedAt n (mkPoll (mkSQLite [] []) g 0 false [] []) in
  pl_log p1 = pl_log p2 /\ pl_out p1 = pl_out p2 /\ cursors (pl_store p1) = cursors (pl_store p2) /\
  helps (pl_store p1) = helps (pl_store p2).
Proof.
  intros p1 p2. assert (Hp : same_poll p1 p2).
  { apply sim_polls. split; [|done]. split; [intros k r; done|]. split; [|done]. split; [intros k id; unfold sole; cbn; lia|constructor]. }
  destruct Hp as ((_ & _ & Hc & Hh) & Ho & _ & _ & _ & Hl). done.
Qed.

(** ** Instances *)

Lemma gh_connected : connected gh_config fixture_fs gh_server gh_schedule gh_policy producer_token gh_url.
Proof.
  split; try (vm_compute; reflexivity). exists (mkScheduler {["tickets" := gh_schedule]} [] (mkReconciliation false false false)), "tickets".
  split; [reflexivity|]. split; [apply lookup_singleton_eq|]. split; vm_compute; reflexivity.
Qed.

Definition no_direct : GitHubRepository -> GitHubIssue -> list GitHubIssueComment -> GitHubIssueComment -> Command -> agentRunIdentity -> table -> option bool * table :=
  fun _ _ _ _ _ _ t => (None, t).
Definition no_legacy : GitHubRepository -> GitHubIssue -> list GitHubIssueComment -> GitHubIssueComment -> Command -> agentRunIdentity -> option string :=
  fun _ _ _ _ _ _ => None.

Lemma submission_end_to_end_witness :
  fst (submitWithOutcome gh_config fixture_fs no_direct no_legacy (controller_post (H := api_codec) gh_server (at_second 10) (at_second 10))
         gh_app (gh_issue "Fix it") [] gh_comment gh_command [])
  = accepted "github:acme/app:issue:1:intent:create_pr" true.
Proof.
  destruct (submission_end_to_end (C := api_codec) gh_config fixture_fs gh_server gh_schedule gh_policy producer_token gh_url no_direct no_legacy
    (at_second 10) (at_second 10) gh_app (gh_issue "Fix it") [] gh_comment gh_command "implement" [] gh_connected) as [H _];
    [reflexivity|reflexivity|reflexivity|vm_compute; reflexivity|vm_compute; discriminate|].
  rewrite H. vm_compute. reflexivity.
Defined.

Lemma unacceptable_work_never_final_witness :
  submitWithOutcome gh_config fixture_fs no_direct no_legacy (controller_post (H := api_codec) gh_server (at_second 10) (at_second 10))
    gh_app (gh_issue long_title) [] gh_comment gh_command [] = (uncertain, []).
Proof.
  apply (unacceptable_work_never_final (C := api_codec) gh_config fixture_fs gh_server gh_schedule gh_policy producer_token gh_url no_direct no_legacy
    (at_second 10) (at_second 10) gh_app (gh_issue long_title) [] gh_comment gh_command "implement" [] gh_connected);
    [reflexivity|reflexivity|reflexivity|vm_compute; reflexivity|vm_compute; reflexivity].
Defined.


Lemma help_attempts_spaced_witness :
  spaced (pl_log (Run_polls (H0 := gh_client "Fix it") (H1 := gh_ambient) (H2 := gh_submitter) gh_config 0 3
    (fresh_poll newMemoryStateStore (mkWorld [] (10 * Second) [])))).
Proof. apply (help_attempts_spaced (S := memoryStateStore)). intros k r. done. Defined.
