(* ===== verification/Program.v ===== *)
(** * Programs that call a service

    A Go function that talks to a server (the Kubernetes API, a broker) as a
    tree: what it returns, or the next call and what it does with each answer.
    Between two calls anything may happen to the server, so the tree says
    nothing of its state; that is added by the semantics of a system, which
    runs the calls of several programs in any order.  [safe] is the weakest
    precondition of a tree over a ghost state that the calls and their answers
    advance; [keeps] the same over a state that the calls change, where a
    program may also be interrupted.  [handle] implements the calls of one
    language by programs of another. *)
From stdpp Require Import base list.
From S2P Require Import Prelude.

Section Programs.
Context {call : Type} {answer : call -> Type}.

Inductive prog (A : Type) : Type :=
| Ret (a : A)
| Call (c : call) (k : answer c -> prog A).

Fixpoint pbind {A B} (m : prog A) (f : A -> prog B) : prog B :=
  match m with
  | Ret _ a => f a
  | Call _ c k => Call _ c (fun r => pbind (k r) f)
  end.

Definition perform (c : call) : prog (answer c) := Call _ c (Ret _).

(** Early return: a program that has already answered ([inl]) does nothing
    more. *)
Definition early (R A : Type) : Type := prog (R + A).

Definition go {R A} (a : A) : early R A := Ret _ (inr a).
Definition stop {R A} (r : R) : early R A := Ret _ (inl r).
Definition ebind {R A B} (m : early R A) (f : A -> early R B) : early R B :=
  pbind m (fun x => match x with inl r => Ret _ (inl r) | inr a => f a end).
Definition then_do {R A} (m : prog A) : early R A := pbind m (fun a => Ret _ (inr a)).
Definition finish {R} (m : early R R) : prog R := pbind m (fun x => match x with inl r | inr r => Ret _ r end).

(** A loop whose body may answer. *)
Fixpoint loop {R A B} (f : B -> A -> early R B) (acc : B) (xs : list A) : early R B :=
  match xs with
  | [] => go acc
  | x :: xs' => ebind (f acc x) (fun acc' => loop f acc' xs')
  end.

(** ** Weakest preconditions *)

Section Safe.
Context {G : Type} (legit : forall c, answer c -> Prop) (ok : G -> call -> Prop)
  (next : G -> forall c, answer c -> G).

(** Every call is permitted in the ghost state it is made in, whatever the
    answers, as long as they are [legit]; the result satisfies [Q]. *)
Fixpoint safe {A} (Q : G -> A -> Prop) (g : G) (p : prog A) : Prop :=
  match p with
  | Ret _ a => Q g a
  | Call _ c k => ok g c /\ forall r, legit c r -> safe Q (next g c r) (k r)
  end.

Lemma safe_mono {A} (Q Q' : G -> A -> Prop) g p :
  (forall g a, Q g a -> Q' g a) -> safe Q g p -> safe Q' g p.
Proof.
  intros HQ. revert g. induction p as [a|c k IH]; intros g; cbn; [apply HQ|].
  intros [Hok Hk]. split; [done|]. intros r Hr. apply IH, Hk, Hr.
Qed.

Lemma safe_bind {A B} (Q : G -> B -> Prop) g (m : prog A) (f : A -> prog B) :
  safe (fun g a => safe Q g (f a)) g m -> safe Q g (pbind m f).
Proof.
  revert g. induction m as [a|c k IH]; intros g; cbn; [done|].
  intros [Hok Hk]. split; [done|]. intros r Hr. apply IH, Hk, Hr.
Qed.

(** A result of an early-return program: an answer satisfies [Q], a value the
    precondition of what follows. *)
Definition answers {R A} (Q : G -> R -> Prop) (P : G -> A -> Prop) (g : G) (x : R + A) : Prop :=
  match x with inl r => Q g r | inr a => P g a end.

Lemma safe_ebind {R A B} (Q : G -> R -> Prop) (P : G -> B -> Prop) g (m : early R A) (f : A -> early R B) :
  safe (answers Q (fun g a => safe (answers Q P) g (f a))) g m -> safe (answers Q P) g (ebind m f).
Proof. intros H. apply safe_bind. eapply safe_mono; [|exact H]. by intros g' [r|a]. Qed.

Lemma safe_finish {R} (Q : G -> R -> Prop) g (m : early R R) : safe (answers Q Q) g m -> safe Q g (finish m).
Proof. intros H. apply safe_bind. eapply safe_mono; [|exact H]. by intros g' [r|r]. Qed.

Lemma safe_then_do {R A} (Q : G -> R -> Prop) (P : G -> A -> Prop) g (m : prog A) :
  safe P g m -> safe (answers Q P) g (then_do m).
Proof. intros H. apply safe_bind. eapply safe_mono; [|exact H]. done. Qed.
End Safe.

(** ** Executions that may be interrupted *)

Section Executions.
Context {W : Type} (step : W -> forall c, answer c -> W -> Prop).

(** From a state to the state a program is interrupted in ([None]) or returns
    in.  A call that is interrupted is a call that fails. *)
Fixpoint runs {A} (w : W) (p : prog A) (w' : W) (o : option A) : Prop :=
  (w' = w /\ o = None) \/
  match p with
  | Ret _ a => w' = w /\ o = Some a
  | Call _ c k => exists r w1, step w c r w1 /\ runs w1 (k r) w' o
  end.

(** [I] holds after every call, [Q] of what the program returns. *)
Fixpoint keeps {A} (I : W -> Prop) (Q : W -> A -> Prop) (w : W) (p : prog A) : Prop :=
  match p with
  | Ret _ a => Q w a
  | Call _ c k => forall r w', step w c r w' -> I w' /\ keeps I Q w' (k r)
  end.

Lemma keeps_runs {A} (I : W -> Prop) (Q : W -> A -> Prop) w p w' o :
  I w -> keeps I Q w p -> runs w p w' o -> I w' /\ (forall a, o = Some a -> Q w' a).
Proof.
  revert w. induction p as [a|c k IH]; intros w Hi Hk [[-> ->]|Hr]; cbn [keeps] in Hk; try done.
  - destruct Hr as [-> ->]. split; [done|]. by intros ? [= <-].
  - destruct Hr as (r & w1 & Hs & Hr). destruct (Hk r w1 Hs) as [H1 H2]. by apply (IH r w1).
Qed.

Lemma keeps_weaken {A} (I I' : W -> Prop) (Q Q' : W -> A -> Prop) w p :
  (forall w, I w -> I' w) -> (forall w a, Q w a -> Q' w a) -> keeps I Q w p -> keeps I' Q' w p.
Proof.
  intros HI HQ. revert w. induction p as [a|c k IH]; intros w; cbn; [apply HQ|].
  intros Hk r w' Hs. destruct (Hk r w' Hs) as [H1 H2]. split; [by apply HI|by apply IH].
Qed.

Lemma keeps_mono {A} (I : W -> Prop) (Q Q' : W -> A -> Prop) w p :
  (forall w a, Q w a -> Q' w a) -> keeps I Q w p -> keeps I Q' w p.
Proof. by apply keeps_weaken. Qed.

Lemma keeps_bind {A B} (I : W -> Prop) (Q : W -> B -> Prop) w (m : prog A) (f : A -> prog B) :
  keeps I (fun w a => keeps I Q w (f a)) w m -> keeps I Q w (pbind m f).
Proof.
  revert w. induction m as [a|c k IH]; intros w; cbn; [done|].
  intros Hk r w' Hs. destruct (Hk r w' Hs) as [H1 H2]. split; [done|by apply IH].
Qed.

Lemma keeps_ebind {R A B} (I : W -> Prop) (Q : W -> R -> Prop) (P : W -> B -> Prop) w (m : early R A) (f : A -> early R B) :
  keeps I (answers Q (fun w a => keeps I (answers Q P) w (f a))) w m -> keeps I (answers Q P) w (ebind m f).
Proof. intros H. apply keeps_bind. eapply keeps_mono; [|exact H]. by intros w' [r|a]. Qed.

Lemma keeps_finish {R} (I : W -> Prop) (Q : W -> R -> Prop) w (m : early R R) :
  keeps I (answers Q Q) w m -> keeps I Q w (finish m).
Proof. intros H. apply keeps_bind. eapply keeps_mono; [|exact H]. by intros w' [r|r]. Qed.

(** A loop, by an invariant of the elements done and left. *)
Lemma keeps_loop {R A B} (I : W -> Prop) (Q : W -> R -> Prop) (L : list A -> W -> B -> Prop) (f : B -> A -> early R B) xs acc w :
  (forall x xs' w acc, L (x :: xs') w acc -> keeps I (answers Q (L xs')) w (f acc x)) ->
  L xs w acc -> keeps I (answers Q (L [])) w (loop f acc xs).
Proof.
  intros Hf. revert acc w. induction xs as [|x xs IH]; intros acc w HL; [done|].
  cbn [loop]. apply keeps_ebind. eapply keeps_mono; [|by apply Hf].
  intros w' [r|b]; [done|]. apply IH.
Qed.

Lemma runs_bind {A B} w (m : prog A) (f : A -> prog B) w' o :
  runs w (pbind m f) w' o ->
  (o = None /\ runs w m w' None) \/ exists w1 a, runs w m w1 (Some a) /\ runs w1 (f a) w' o.
Proof.
  revert w. induction m as [a|c k IH]; intros w; cbn [pbind].
  - intros H. right. exists w, a. split; [by right|done].
  - intros [[-> ->]|(r & w1 & Hs & Hr)]; [left; split; [done|by left]|].
    destruct (IH _ _ Hr) as [[-> Hm]|(w2 & a & Hm & Hf)].
    + left. split; [done|]. right. by exists r, w1.
    + right. exists w2, a. split; [|done]. right. by exists r, w1.
Qed.
End Executions.
End Programs.


Arguments prog {call} answer A.
Arguments early {call} answer R A.
Arguments Ret {call answer A} a.
Arguments Call {call answer A} c k.

(** ** Implementations *)

Section Handlers.
Context {call : Type} {answer : call -> Type} {call' : Type} {answer' : call' -> Type}.
Context (implement : forall c, prog answer' (answer c)).

(** Every call done by the program that implements it. *)
Fixpoint handle {A} (p : prog answer A) : prog answer' A :=
  match p with
  | Ret a => Ret a
  | Call c k => pbind (implement c) (fun r => handle (k r))
  end.

Context {W O : Type} (step : W -> forall c, answer' c -> W -> Prop) (spec : O -> forall c, answer c -> O -> Prop) (view : W -> O).

(** An implementation keeps a specification when what it does, interrupted or
    not, is a step of the specification, seen through [view]. *)
Definition implements : Prop :=
  forall c w, keeps step (fun w' => exists r, spec (view w) c r (view w')) (fun w' r => spec (view w) c r (view w')) w (implement c).

Lemma handle_runs : implements ->
  (forall o c, exists r, spec o c r o) ->
  forall A (p : prog answer A) w w' o, runs step w (handle p) w' o -> runs spec (view w) p (view w') o.
Proof.
  intros Hi Hidle A p. induction p as [a|c k IH]; intros w w' o; cbn [handle].
  - intros [[-> ->]|[-> ->]]; [by left|by right].
  - intros [[-> Hm]|(w1 & r & Hm & Hk)]%runs_bind.
    + destruct (keeps_runs step _ _ _ _ _ _ (Hidle (view w) c) (Hi c w) Hm) as [[r Hs] _].
      right. exists r, (view w'). split; [done|by destruct (k r); left].
    + destruct (keeps_runs step _ _ _ _ _ _ (Hidle (view w) c) (Hi c w) Hm) as [_ HQ].
      right. exists r, (view w1). split; [by apply HQ|by apply IH].
Qed.
End Handlers.

Notation "'let!' x ':=' m 'in' k" := (ebind m (fun x => k))
  (at level 10, x pattern, m at level 100, k at level 200) : go_scope.
Notation "'when' b 'answering' r ';' k" := (if b then stop r else k)
  (at level 100, b at level 99, r at level 99, k at level 200) : go_scope.
