(* ===== verification/OperatorTypes.v ===== *)
(** * The Kubernetes resources of the operator

    operator/api/v1alpha1: [AgentRun] and [AgentSchedule], a record per struct
    with the struct's fields in order.  A Go string type is a [string], a
    pointer an [option], a slice a list where only its elements are looked at
    and a [slice] where nil and empty differ; a map is a [gmap].  Of the
    Kubernetes types the fields the operator reads are kept;
    [ResourceRequirements], [Toleration] and [Condition] are carried as
    documents and a [resource.Quantity] as what its methods [Sign] and [Value]
    answer.  [DeepCopy] of a value is the value: nothing in the model is
    shared. *)
From stdpp Require Import base list strings gmap.
From Stdlib Require Import ZArith.
From S2P Require Import Prelude GoJson Contract LocalRun.

Local Open Scope string_scope.

(** ** Kubernetes metadata *)

Record OwnerReference := mkOwner { or_Kind : string; or_Name : string; or_UID : string; or_Controller : bool }.

Record ObjectMeta := mkMeta {
  om_Name : string;
  om_GenerateName : string;
  om_Namespace : string;
  om_UID : string;
  om_Generation : Z;
  om_Labels : gmap string string;
  om_Annotations : gmap string string;
  om_OwnerReferences : list OwnerReference
}.

Record TypeMeta := mkType { tm_APIVersion : string; tm_Kind : string }.

Record Quantity := mkQuantity { qt_Sign : Z; qt_Value : Z }.

(** ** AgentRun *)

Definition AgentRunPhasePending : string := "Pending".
Definition AgentRunPhaseRunning : string := "Running".
Definition AgentRunPhaseCompleted : string := "Completed".
Definition AgentRunPhaseFailed : string := "Failed".
Definition AgentRunPhaseDeadlineExceeded : string := "DeadlineExceeded".

Definition AgentRunEgressDirect : string := "direct".
Definition AgentRunEgressMediated : string := "mediated".
Definition AgentRunEgressTransportRedirect : string := "redirect".
Definition AgentRunEgressTransportForwardProxy : string := "forward-proxy".
Definition AgentRunEgressTransportTransparent : string := "transparent".
Definition AgentRunEgressDomainAllow : string := "allow".
Definition AgentRunEgressDomainDeny : string := "deny".
Definition AgentRunGrantFileBundle : string := "file-bundle".
Definition AgentRunGrantHeaderInject : string := "header-inject".
Definition AgentRunGrantPlaceholderFile : string := "placeholder-file".
Definition AgentRunWorkspaceEphemeral : string := "Ephemeral".
Definition AgentRunWorkspacePersistent : string := "Persistent".
Definition AgentRunBrokerPreparationIdentity : string := "identity".

Record AgentRunLegacyExecution := mkLegacyExecution {
  le_Kind : string;
  le_Driver : string;
  le_ClassRef : string;
  le_Configuration : string
}.

Record AgentRunPrincipal := mkRunPrincipal { pr_Issuer : string; pr_Subject : string; pr_DisplayName : string }.

Record AgentRunPrincipalCredentialProvenance := mkCredentialProvenance {
  cv_Template : string;
  cv_ProviderInstanceID : string;
  cv_Generation : Z
}.

Record AgentRunProfileProvenance := mkProvenance {
  pv_AuthenticatedProducer : string;
  pv_ScheduleName : string;
  pv_ScheduleUID : string;
  pv_ScheduleGeneration : Z;
  pv_SelectedProfile : string;
  pv_SelectedWorkflow : string;
  pv_Principal : option AgentRunPrincipal;
  pv_PrincipalCredential : option AgentRunPrincipalCredentialProvenance
}.

(** [rk_Capabilities] is the pointer to the capabilities and [Add] of them. *)
Record AgentRunRuntimeContainer := mkRunContainer { rk_Capabilities : option (list string) }.

Record AgentRunDockerNetwork := mkRunNetwork { rw_Name : string; rw_Subnet : string }.

Record AgentRunRuntimeDocker := mkRunDocker { rx_KernelLogDevice : bool; rx_RequiredNetworks : list AgentRunDockerNetwork }.

Record AgentRunRuntime := mkRunRuntime {
  rr_Type : string;
  rr_Autonomy : string;
  rr_Model : string;
  rr_Effort : string;
  rr_User : string;
  rr_Container : option AgentRunRuntimeContainer;
  rr_Docker : option AgentRunRuntimeDocker
}.

Record AgentRunRuntimeAuth := mkRunAuth { ra_SecretName : string; ra_MountPath : string }.

Record AgentRunWorkspace := mkRunWorkspace {
  rs_Mode : string;
  rs_Size : option Quantity;
  rs_DockerSize : option Quantity;
  rs_StorageClassName : string
}.

Record AgentRunBrokerGrantAuthorizationRule := mkGrantRule { gl_Operation : string; gl_Resource : string }.

Record AgentRunBrokerGrantAuthorization := mkGrantAuthorization {
  gz_Preset : string;
  gz_ResourcePrefix : string;
  gz_DefaultAction : string;
  gz_Rules : slice AgentRunBrokerGrantAuthorizationRule
}.

Record AgentRunBrokerGrant := mkGrant {
  gr_Provider : string;
  gr_Repositories : list string;
  gr_Resources : list string;
  gr_Preparations : list string;
  gr_Materialization : string;
  gr_EgressHosts : list string;
  gr_Git : bool;
  gr_Permissions : gmap string string;
  gr_Authorization : option AgentRunBrokerGrantAuthorization;
  gr_AllowInsecureUpstream : bool;
  gr_Quota : option Z
}.

Record AgentRunBroker := mkRunBroker { rb_Grants : list AgentRunBrokerGrant }.

Record AgentRunEgressDomainPolicy := mkRunDomainPolicy {
  rp_DefaultAction : string;
  rp_Allow : list string;
  rp_Deny : list string
}.

Record AgentRunAgent := mkRunAgent {
  rg_Config : string;
  rg_WorkspaceInstructions : string;
  rg_WorkflowInstructions : string
}.

Record AgentRunLifecycle := mkRunLifecycle { rl_CompleteOn : list string; rl_FailOn : list string }.

Record AgentRunTTL := mkRunTTL {
  rt_ActiveDeadlineSeconds : option Z;
  rt_CompletedTTLSeconds : option Z;
  rt_FailedTTLSeconds : option Z;
  rt_RunRetentionSeconds : option Z
}.

(** [ru_Prompt] is the text of the prompt. *)
Record AgentRunSpec := mkRunSpec {
  ru_Execution : option AgentRunLegacyExecution;
  ru_Runtime : AgentRunRuntime;
  ru_RuntimeAuth : option AgentRunRuntimeAuth;
  ru_Image : string;
  ru_RuntimeClassName : option string;
  ru_Resources : json;
  ru_Tolerations : list json;
  ru_Egress : string;
  ru_EgressAllowInsecureBroker : bool;
  ru_EgressEnforcement : bool;
  ru_EgressForwardProxy : option bool;
  ru_EgressTransport : string;
  ru_EgressMaxConcurrentTunnels : Z;
  ru_EgressDomainPolicy : option AgentRunEgressDomainPolicy;
  ru_Workspace : AgentRunWorkspace;
  ru_Broker : option AgentRunBroker;
  ru_Prompt : option string;
  ru_Agent : AgentRunAgent;
  ru_Lifecycle : option AgentRunLifecycle;
  ru_TTL : option AgentRunTTL;
  ru_ProfileProvenance : option AgentRunProfileProvenance
}.

Record AgentRunStatus := mkRunStatus {
  st_Phase : string;
  st_PodName : string;
  st_StartedAt : option time;
  st_FinishedAt : option time;
  st_Reason : string;
  st_Conditions : list json
}.

Record AgentRun := mkAgentRun { run_Type : TypeMeta; run_Meta : ObjectMeta; run_Spec : AgentRunSpec; run_Status : AgentRunStatus }.

(** ** AgentSchedule *)

Definition AgentScheduleOnNoMatchUseDefault : string := "useDefault".
Definition AgentScheduleOnNoMatchDeny : string := "deny".

Record AgentScheduleTemplate := mkTemplate {
  te_Image : string;
  te_RuntimeClassName : option string;
  te_Resources : json;
  te_Tolerations : list json;
  te_Workspace : AgentRunWorkspace;
  te_Agent : AgentRunAgent;
  te_Lifecycle : option AgentRunLifecycle;
  te_TTL : option AgentRunTTL
}.

Record AgentScheduleExecutionProfile := mkExecutionProfile {
  ep_Name : string;
  ep_Runtime : AgentRunRuntime;
  ep_RuntimeAuth : option AgentRunRuntimeAuth;
  ep_AgentRuntimeConfig : string;
  ep_WorkspaceInstructions : string;
  ep_Egress : string;
  ep_EgressAllowInsecureBroker : bool;
  ep_EgressEnforcement : bool;
  ep_EgressForwardProxy : option bool;
  ep_EgressTransport : string;
  ep_EgressMaxConcurrentTunnels : Z;
  ep_EgressDomainPolicy : option AgentRunEgressDomainPolicy;
  ep_Broker : option AgentRunBroker
}.

Record AgentScheduleWorkflowProfile := mkWorkflowProfile {
  wp_Name : string;
  wp_WorkspaceInstructions : string;
  wp_Lifecycle : option AgentRunLifecycle
}.

Record AgentScheduleProducerPolicy := mkProducerPolicy {
  pp_Identity : string;
  pp_Workflows : list string;
  pp_DefaultWorkflow : string;
  pp_AllowedPrincipalIssuers : list string
}.

Record AgentSchedulePrincipalParallelismOverride := mkOverride {
  ov_Issuer : string;
  ov_Subject : string;
  ov_MaxParallelism : Z
}.

Record AgentSchedulePrincipalParallelism := mkParallelism {
  pa_DefaultMaxParallelism : Z;
  pa_Overrides : list AgentSchedulePrincipalParallelismOverride
}.

Record AgentSchedulePrincipalCredentialTemplateProfile := mkTemplateProfile { tp_Template : string; tp_Profile : string }.

Record AgentSchedulePrincipalCredentialSelection := mkCredentialSelection {
  cs_Enabled : bool;
  cs_OnNoMatch : string;
  cs_TemplateProfiles : list AgentSchedulePrincipalCredentialTemplateProfile
}.

Record AgentScheduleProfileSelectionRule := mkSelectionRule { sr_Issuer : string; sr_Subject : string; sr_Profile : string }.

Record AgentScheduleProfileSelection := mkProfileSelection {
  ps_DefaultProfile : string;
  ps_Rules : list AgentScheduleProfileSelectionRule;
  ps_OnNoMatch : string
}.

Record AgentScheduleSpec := mkScheduleSpec {
  sk_Suspend : bool;
  sk_MaxParallelism : Z;
  sk_PrincipalParallelism : option AgentSchedulePrincipalParallelism;
  sk_Template : option AgentScheduleTemplate;
  sk_Profiles : list AgentScheduleExecutionProfile;
  sk_ProfileSelection : option AgentScheduleProfileSelection;
  sk_PrincipalCredentialSelection : option AgentSchedulePrincipalCredentialSelection;
  sk_WorkflowProfiles : list AgentScheduleWorkflowProfile;
  sk_ProducerPolicies : list AgentScheduleProducerPolicy;
  sk_AllowedProducers : list string
}.

Record AgentScheduleStatus := mkScheduleStatus {
  su_ObservedGeneration : Z;
  su_ActiveRuns : Z;
  su_LastAcceptedAt : option time;
  su_LastRejectedAt : option time;
  su_LastRejectionReason : string
}.

Record AgentSchedule := mkAgentSchedule {
  sched_Meta : ObjectMeta;
  sched_Spec : AgentScheduleSpec;
  sched_Status : AgentScheduleStatus
}.

#[export] Instance quantity_eq_dec : EqDecision Quantity.
Proof. solve_decision. Defined.
#[export] Instance run_principal_eq_dec : EqDecision AgentRunPrincipal.
Proof. solve_decision. Defined.
#[export] Instance schedule_status_eq_dec : EqDecision AgentScheduleStatus.
Proof. solve_decision. Defined.

(** ** Zero values and updates *)

Definition no_status : AgentRunStatus := mkRunStatus "" "" None None "" [].

Definition no_meta : ObjectMeta := mkMeta "" "" "" "" 0 ∅ ∅ [].

Definition no_runtime : AgentRunRuntime := mkRunRuntime "" "" "" "" "" None None.

Definition no_workspace : AgentRunWorkspace := mkRunWorkspace "" None None "".

Definition no_spec : AgentRunSpec :=
  mkRunSpec None no_runtime None "" None JNull [] "" false false None "" 0 None no_workspace None None
    (mkRunAgent "" "" "") None None None.

(** [var run nvtv1alpha1.AgentRun] *)
Definition no_run : AgentRun := mkAgentRun (mkType "" "") no_meta no_spec no_status.

Definition with_egress (s : AgentRunSpec) (egress : string) : AgentRunSpec :=
  mkRunSpec (ru_Execution s) (ru_Runtime s) (ru_RuntimeAuth s) (ru_Image s) (ru_RuntimeClassName s) (ru_Resources s)
    (ru_Tolerations s) egress (ru_EgressAllowInsecureBroker s) (ru_EgressEnforcement s) (ru_EgressForwardProxy s)
    (ru_EgressTransport s) (ru_EgressMaxConcurrentTunnels s) (ru_EgressDomainPolicy s) (ru_Workspace s) (ru_Broker s)
    (ru_Prompt s) (ru_Agent s) (ru_Lifecycle s) (ru_TTL s) (ru_ProfileProvenance s).

Definition with_agent (s : AgentRunSpec) (agent : AgentRunAgent) : AgentRunSpec :=
  mkRunSpec (ru_Execution s) (ru_Runtime s) (ru_RuntimeAuth s) (ru_Image s) (ru_RuntimeClassName s) (ru_Resources s)
    (ru_Tolerations s) (ru_Egress s) (ru_EgressAllowInsecureBroker s) (ru_EgressEnforcement s) (ru_EgressForwardProxy s)
    (ru_EgressTransport s) (ru_EgressMaxConcurrentTunnels s) (ru_EgressDomainPolicy s) (ru_Workspace s) (ru_Broker s)
    (ru_Prompt s) agent (ru_Lifecycle s) (ru_TTL s) (ru_ProfileProvenance s).

Definition set_spec (r : AgentRun) (s : AgentRunSpec) : AgentRun := mkAgentRun (run_Type r) (run_Meta r) s (run_Status r).

Definition set_meta (r : AgentRun) (m : ObjectMeta) : AgentRun := mkAgentRun (run_Type r) m (run_Spec r) (run_Status r).
