(* ===== verification/OperatorPolicy.v ===== *)
(** * What the operator admits of an AgentRun

    operator/internal/controller: agentrun_policy.go, runtime_capabilities.go,
    runtime_docker_networks.go, the validators of agentrun_storage.go and the
    transports of agentrun_egress.go.  The process environment is an argument,
    [env].  Error texts leave out the values the code quotes into them. *)
From stdpp Require Import base list strings gmap sorting.
From Stdlib Require Import ZArith Lia Ascii.
From S2P Require Import Prelude GoStrings GoUrl GoJson Contract Validation Egress OperatorTypes.


Local Open Scope Z_scope.
Local Open Scope go_scope.
Local Open Scope string_scope.

Definition nul_text : string := String (Ascii.ascii_of_nat 0) "".

(** ** Kubernetes names *)

(** [utilvalidation.IsDNS1123Label(value)] reports no problem, and
    [IsDNS1123Subdomain]. *)
Definition dns1123_label : regex :=
  RSeq (RSet lower_digit) (ROpt (RSeq (RStar (RSet (fun c => lower_digit c || Ascii.eqb c "-"))) (RSet lower_digit))).

Definition IsDNS1123Label (value : string) : bool := (len value <=? 63)%Z && re_match dns1123_label value.

Definition IsDNS1123Subdomain (value : string) : bool :=
  (len value <=? 253)%Z && re_match (RSeq dns1123_label (RStar (RSeq (RChar "."%char) dns1123_label))) value.

(** ** The deployment *)

Definition builtInEgressDenyCIDRs : list string :=
  [ "0.0.0.0/8"; "10.0.0.0/8"; "100.64.0.0/10"; "127.0.0.0/8";
    "169.254.0.0/16"; "172.16.0.0/12"; "192.0.0.0/24"; "192.0.2.0/24";
    "192.88.99.0/24"; "192.168.0.0/16"; "198.18.0.0/15"; "198.51.100.0/24"; "203.0.113.0/24";
    "224.0.0.0/4"; "240.0.0.0/4";
    "::/96"; "64:ff9b::/96"; "64:ff9b:1::/48";
    "100::/64"; "100:0:0:1::/64"; "2001::/32"; "2001:2::/48";
    "2001:10::/28"; "2001:20::/28"; "2001:db8::/32"; "2002::/16";
    "3fff::/20"; "5f00::/16"; "fc00::/7"; "fe80::/10"; "fec0::/10"; "ff00::/8" ].

Definition Prefix_String (p : Prefix) : string := Addr_String (pfx_addr p) ++ "/" ++ decimal_digits 3 (pfx_bits p) "".

(** [sort.Slice]'s order: the address family, the length, the address. *)
Definition prefix_less (a b : Prefix) : bool :=
  if negb (BitLen (pfx_addr a) =? BitLen (pfx_addr b))%Z then (BitLen (pfx_addr a) <? BitLen (pfx_addr b))%Z
  else if negb (pfx_bits a =? pfx_bits b)%Z then (pfx_bits a <? pfx_bits b)%Z
  else (addr_value (pfx_addr a) <? addr_value (pfx_addr b))%Z.

Definition prefix_le (a b : Prefix) : Prop := prefix_less b a = false.

#[export] Instance prefix_le_dec a b : Decision (prefix_le a b) := decide (prefix_less b a = false).

(** The loop over the configured texts: parsed, masked, one entry per text of
    the masked prefix. *)
Fixpoint unique_prefixes (values : list string) (unique : gmap string Prefix) : result string (gmap string Prefix) :=
  match values with
  | [] => Ok unique
  | value :: rest =>
      match ParsePrefix value with
      | None => Err "invalid egress deny CIDR"
      | Some prefix => let prefix := Masked prefix in unique_prefixes rest (<[Prefix_String prefix := prefix]> unique)
      end
  end.

(** The loop that leaves out what an earlier prefix contains. *)
Fixpoint drop_covered (normalized prefixes : list Prefix) : list Prefix :=
  match prefixes with
  | [] => normalized
  | prefix :: rest =>
      if existsb (fun existing => prefix_Contains existing (pfx_addr prefix)) normalized then drop_covered normalized rest
      else drop_covered (normalized ++ [prefix])%list rest
  end.

Definition normalized_prefixes (values : list string) : result string (list Prefix) :=
  match unique_prefixes values ∅ with
  | Err e => Err e
  | Ok unique => Ok (drop_covered [] (merge_sort prefix_le (snd <$> map_to_list unique)))
  end.

Definition normalizeCIDRs (values : list string) : result string (list string) :=
  match normalized_prefixes values with
  | Err e => Err e
  | Ok prefixes => Ok (map Prefix_String prefixes)
  end.

Section Environment.
Variable env : string -> string.

Definition NetworkPolicyCapable : bool :=
  let value := ToLower (TrimSpace (env "NVT_NETWORK_POLICY_CAPABLE")) in
  (value =? "1") || (value =? "true") || (value =? "yes").

Definition configured_cidrs : list string :=
  let configured := TrimSpace (env "NVT_EGRESS_DENY_CIDRS") in
  if configured =? "" then [] else List.filter (fun v => negb (v =? "")) (map TrimSpace (Split configured ","%char)).

Definition DeploymentDenyCIDRs : result string (list string) := normalizeCIDRs (builtInEgressDenyCIDRs ++ configured_cidrs)%list.

Definition defaultExternalTCPPorts : list Z := [80; 443].

Fixpoint parse_ports (raw : list string) : result string (list Z) :=
  match raw with
  | [] => Ok []
  | value :: rest =>
      match Atoi (TrimSpace value) with
      | Some port =>
          if (port <? 1)%Z || (65535 <? port)%Z then Err "invalid external TCP port"
          else match parse_ports rest with Ok ports => Ok (port :: ports) | Err e => Err e end
      | None => Err "invalid external TCP port"
      end
  end.

(** The repetitions dropped, the first occurrence kept. *)
Fixpoint distinct_ports (seen ports : list Z) : list Z :=
  match ports with
  | [] => []
  | port :: rest => if existsb (Z.eqb port) seen then distinct_ports seen rest else port :: distinct_ports (port :: seen) rest
  end.

Definition ExternalTCPPorts : result string (list Z) :=
  let configured := TrimSpace (env "NVT_EGRESS_ALLOWED_TCP_PORTS") in
  match (if configured =? "" then Ok defaultExternalTCPPorts else parse_ports (Split configured ","%char)) with
  | Err e => Err e
  | Ok values =>
      let result := distinct_ports [] values in
      if (length result =? 0)%nat then Err "external TCP ports must not be empty" else Ok (merge_sort Z.le result)
  end.

Definition defaultBrokerURL : string := "http://nvt-broker:7347".

Definition BrokerURL : string :=
  let url := TrimSpace (env "NVT_BROKER_URL") in if url =? "" then defaultBrokerURL else url.

Definition brokerIsTLS : bool := HasPrefix BrokerURL "https://".

Definition BrokerCASecretName : string := TrimSpace (env "NVT_BROKER_CA_SECRET").

Definition brokerCADistributed : bool := brokerIsTLS && negb (BrokerCASecretName =? "").

Definition BrandingConfigMapName : string := TrimSpace (env "NVT_BRANDING_CONFIGMAP").

Definition ValidateBrandingConfig : result string unit :=
  reject (negb (BrandingConfigMapName =? "") && negb (IsDNS1123Subdomain BrandingConfigMapName))
    "NVT_BRANDING_CONFIGMAP must be a valid Kubernetes ConfigMap name".

Definition ValidateBrokerTLSConfig : result string unit :=
  reject (brokerIsTLS && (BrokerCASecretName =? "")) "NVT_BROKER_URL is https but NVT_BROKER_CA_SECRET is not set".

Definition DefaultEgressMode : string :=
  let mode := TrimSpace (env "NVT_DEFAULT_EGRESS_MODE") in if mode =? "" then AgentRunEgressDirect else mode.

Definition ValidateDefaultEgressMode : result string unit :=
  reject (negb (DefaultEgressMode =? AgentRunEgressDirect) && negb (DefaultEgressMode =? AgentRunEgressMediated))
    "NVT_DEFAULT_EGRESS_MODE must be direct or mediated".

Definition ApplyDefaultEgressMode (agentRun : AgentRun) : AgentRun :=
  if ru_Egress (run_Spec agentRun) =? "" then set_spec agentRun (with_egress (run_Spec agentRun) DefaultEgressMode)
  else agentRun.

Definition AllowInsecureUpstreamsEnabled : bool :=
  mem (ToLower (TrimSpace (env "NVT_ALLOW_INSECURE_UPSTREAMS"))) ["1"; "true"; "yes"; "on"].
End Environment.

Definition AgentRunBrokerID (namespace name : string) : string := namespace ++ "/" ++ name.
Definition AgentRunEgressBrokerID (namespace name : string) : string := namespace ++ "/" ++ name ++ "-egress".

(** ** Modes and transports *)

Definition AgentRunEgressMode (agentRun : AgentRun) : string :=
  if ru_Egress (run_Spec agentRun) =? "" then AgentRunEgressDirect else ru_Egress (run_Spec agentRun).

Definition AgentRunBrokerGrants (broker : option AgentRunBroker) : list AgentRunBrokerGrant :=
  match broker with None => [] | Some b => rb_Grants b end.

Definition AgentRunGrantMaterialization (grant : AgentRunBrokerGrant) : string :=
  if gr_Materialization grant =? "" then AgentRunGrantFileBundle else gr_Materialization grant.

Definition AgentRunEgressEnforced (agentRun : AgentRun) : bool :=
  ru_EgressEnforcement (run_Spec agentRun) && (AgentRunEgressMode agentRun =? AgentRunEgressMediated).

Definition AgentRunEgressTransport (agentRun : AgentRun) : string :=
  if ru_EgressTransport (run_Spec agentRun) =? "" then AgentRunEgressTransportRedirect
  else ru_EgressTransport (run_Spec agentRun).

(** Forward proxy or transparent. *)
Definition proxied (transport : string) : bool :=
  (transport =? AgentRunEgressTransportForwardProxy) || (transport =? AgentRunEgressTransportTransparent).

Definition AgentRunEgressForwardProxy (agentRun : AgentRun) : bool :=
  proxied (AgentRunEgressTransport agentRun) && AgentRunEgressEnforced agentRun.

Definition AgentRunEgressTransparent (agentRun : AgentRun) : bool :=
  AgentRunEgressEnforced agentRun && (AgentRunEgressTransport agentRun =? AgentRunEgressTransportTransparent).

Definition AgentRunLiteralZeroSecret (agentRun : AgentRun) : bool :=
  (AgentRunEgressMode agentRun =? AgentRunEgressMediated) && AgentRunEgressEnforced agentRun.

Record forwardProxyInject := mkInject {
  fi_Host : string;
  fi_Capability : string;
  fi_Upstream : string;
  fi_AllowInsecureUpstream : bool;
  fi_MaxRequests : Z;
  fi_RequireCapabilityHint : bool
}.

Definition injectable (grant : AgentRunBrokerGrant) : bool :=
  let materialization := AgentRunGrantMaterialization grant in
  (materialization =? AgentRunGrantHeaderInject) || (materialization =? AgentRunGrantPlaceholderFile).

Definition forwardProxyInjects (agentRun : AgentRun) : list forwardProxyInject :=
  let grants := List.filter injectable (AgentRunBrokerGrants (ru_Broker (run_Spec agentRun))) in
  let counted := map (fun upstream => ToLower (egressHostName upstream)) (mjoin (map gr_EgressHosts grants)) in
  mjoin (map (fun grant => map (fun upstream =>
    let host := egressHostName upstream in
    mkInject host (gr_Provider grant) upstream (gr_AllowInsecureUpstream grant) (default 0 (gr_Quota grant))
      (gr_Git grant || (1 <? Z.of_nat (length (List.filter (String.eqb (ToLower host)) counted)))%Z))
    (gr_EgressHosts grant)) grants).

(** ** Domain policies *)

Definition normalizeEgressDomain (value : string) : option string :=
  if (value =? "") || negb (trimmed value) || ContainsAny value domain_forbidden then None
  else
    let value := ToLower (TrimSuffix value ".") in
    if bool_decide (is_Some (ParseIP value)) then None
    else if (value =? "") || (253 <? len value)%Z then None
    else if forallb domain_label (Split value "."%char) then Some value
    else None.

Definition normalized_rule (rule : string) : string := default "" (normalizeEgressDomain rule).

Definition validateEgressDomainPolicy (policy : option AgentRunEgressDomainPolicy) : result string unit :=
  match policy with
  | None => Ok tt
  | Some policy =>
      reject (negb (rp_DefaultAction policy =? AgentRunEgressDomainAllow)
              && negb (rp_DefaultAction policy =? AgentRunEgressDomainDeny))
        "defaultAction must be allow or deny" |>>
      reject ((256 <? Z.of_nat (length (rp_Allow policy)))%Z || (256 <? Z.of_nat (length (rp_Deny policy)))%Z)
        "allow and deny must contain at most 256 entries each" |>>
      each (fun '(name, entries) =>
        each_seen (fun seen entry =>
          match normalizeEgressDomain entry with
          | None => Err (name ++ ": must be a DNS domain")
          | Some normalized => reject (mem normalized (map normalized_rule seen)) (name ++ " duplicates an entry after normalization")
          end) [] entries) [("allow", rp_Allow policy); ("deny", rp_Deny policy)]
  end.

Definition egressDomainAllowed (policy : AgentRunEgressDomainPolicy) (host : string) : bool :=
  let matches normalized rule :=
    (normalized =? normalized_rule rule) || HasSuffix normalized ("." ++ normalized_rule rule) in
  match normalizeEgressDomain host with
  | None => rp_DefaultAction policy =? AgentRunEgressDomainAllow
  | Some normalized =>
      if existsb (matches normalized) (rp_Deny policy) then false
      else if existsb (matches normalized) (rp_Allow policy) then true
      else rp_DefaultAction policy =? AgentRunEgressDomainAllow
  end.

Definition normalizeEgressDomains (values : list string) : list string := omap normalizeEgressDomain values.

Definition validateEgressMaxConcurrentTunnels (value : Z) : result string unit :=
  reject ((value <? 0)%Z || (4096 <? value)%Z) "spec.egressMaxConcurrentTunnels must be between 1 and 4096 when set".

(** ** Runs *)

Definition agentRunHasProviderPreparations (agentRun : AgentRun) : bool :=
  existsb (fun grant => (0 <? length (gr_Preparations grant))%nat) (AgentRunBrokerGrants (ru_Broker (run_Spec agentRun))).

Definition agentRunHasGitGrant (agentRun : AgentRun) : bool :=
  existsb (fun grant => gr_Git grant && (AgentRunGrantMaterialization grant =? AgentRunGrantHeaderInject))
    (AgentRunBrokerGrants (ru_Broker (run_Spec agentRun))).

Definition ValidateRemovedEgressForwardProxy (agentRun : AgentRun) : result string unit :=
  reject (bool_decide (is_Some (ru_EgressForwardProxy (run_Spec agentRun))))
    "spec.egressForwardProxy is removed; use spec.egressTransport".

Definition validEgressHost (value : string) : bool :=
  if (value =? "") || Contains value "://" || Contains value "/" || Contains value "@" then false
  else
    let '(before, after, ok) := Cut value ":"%char in
    if ok && ((before =? "") || (after =? "")) then false
    else let host := if ok then before else value in
         trimmed host && negb (host =? "") && negb (HasPrefix host ".") && negb (HasSuffix host ".").

(** The rules of a grant's resources, which schedules check too. *)
Definition check_resources (provider : string) (resources : list string) : result string unit :=
  reject (256 <? Z.of_nat (length resources))%Z ("broker grant " ++ provider ++ " resources exceeds 256 entries") |>>
  each_seen (fun seen resource =>
    reject ((resource =? "") || (4096 <? len resource)%Z)
      ("broker grant " ++ provider ++ " resources require bounded non-empty values") |>>
    reject (mem resource seen) ("broker grant " ++ provider ++ " resources contains a duplicate")) [] resources.

Definition bounded_rule (rule : AgentRunBrokerGrantAuthorizationRule) : bool :=
  negb ((gl_Operation rule =? "") || (4096 <? len (gl_Operation rule))%Z || (gl_Resource rule =? "")
        || (8192 <? len (gl_Resource rule))%Z).

Definition check_authorization (provider : string) (authorization : option AgentRunBrokerGrantAuthorization)
    : result string unit :=
  match authorization with
  | None => Ok tt
  | Some policy =>
      reject (negb (gz_Preset policy =? "") || negb (gz_ResourcePrefix policy =? ""))
        ("broker grant " ++ provider ++ " authorization.preset must be resolved before AgentRun admission") |>>
      reject (negb (gz_DefaultAction policy =? "allow") && negb (gz_DefaultAction policy =? "deny"))
        ("broker grant " ++ provider ++ " authorization.defaultAction must be allow or deny") |>>
      reject (256 <? size (gz_Rules policy))%Z ("broker grant " ++ provider ++ " authorization.rules exceeds 256 entries") |>>
      each (fun rule => reject (negb (bounded_rule rule))
        ("broker grant " ++ provider ++ " authorization rules require bounded operation and resource")) (elems (gz_Rules policy))
  end.

(** Two parts joined by a zero byte, a key of a Go map; and the keys of the
    [preparations] map a grant adds. *)
Definition joined (a b : string) : string := a ++ nul_text ++ b.

Definition preparation_keys (grant : AgentRunBrokerGrant) : list string := map (joined (gr_Provider grant)) (gr_Preparations grant).

Section Runs.
Variable env : string -> string.

(** One turn of the loop over the grants, after [prepared], the preparations
    of the grants before. *)
Definition check_grant (agentRun : AgentRun) (prepared : list string) (grant : AgentRunBrokerGrant) : result string unit :=
  let mode := AgentRunEgressMode agentRun in
  let materialization := AgentRunGrantMaterialization grant in
  let named text := "broker grant " ++ gr_Provider grant ++ text in
  check_resources (gr_Provider grant) (gr_Resources grant) |>>
  each_seen (fun seen operation =>
    reject (negb (operation =? AgentRunBrokerPreparationIdentity)) (named " preparation operation must be identity") |>>
    reject (mem (joined (gr_Provider grant) operation) (prepared ++ map (joined (gr_Provider grant)) seen)%list)
      ("broker grant preparation " ++ gr_Provider grant ++ "/" ++ operation ++ " is duplicated")) [] (gr_Preparations grant) |>>
  reject (negb ((materialization =? AgentRunGrantFileBundle) || (materialization =? AgentRunGrantHeaderInject)
                || (materialization =? AgentRunGrantPlaceholderFile)))
    (named " materialization must be file-bundle, header-inject, or placeholder-file") |>>
  reject ((mode =? AgentRunEgressDirect) && negb (materialization =? AgentRunGrantFileBundle))
    ("egress direct is incompatible with " ++ named (" materialization " ++ materialization)) |>>
  reject ((mode =? AgentRunEgressMediated) && (materialization =? AgentRunGrantFileBundle))
    ("egress mediated is incompatible with " ++ named " materialization file-bundle") |>>
  reject (gr_Git grant && negb (materialization =? AgentRunGrantHeaderInject)) (named " git requires materialization header-inject") |>>
  reject (negb (forallb (fun '(key, value) => negb (key =? "") && ((value =? "read") || (value =? "write")))
                  (map_to_list (gr_Permissions grant))))
    (named " permissions must map permission names to read or write") |>>
  check_authorization (gr_Provider grant) (gr_Authorization grant) |>>
  reject (match gr_Quota grant with Some requests => (requests <=? 0)%Z | None => false end)
    (named " quota.requests must be a positive integer") |>>
  reject (gr_AllowInsecureUpstream grant && gr_Git grant) (named " must not set allowInsecureUpstream on a git grant") |>>
  reject (gr_AllowInsecureUpstream grant && negb (AllowInsecureUpstreamsEnabled env))
    (named " sets allowInsecureUpstream, which requires the operator's NVT_ALLOW_INSECURE_UPSTREAMS opt-in (test/dev only)") |>>
  (if (mode =? AgentRunEgressMediated) && (materialization =? AgentRunGrantHeaderInject) then
     reject (length (gr_EgressHosts grant) =? 0)%nat ("egress mediated " ++ named " requires egressHosts") |>>
     reject (negb (forallb validEgressHost (gr_EgressHosts grant))) ("egress mediated " ++ named " has invalid egressHosts entry")
   else Ok tt) |>>
  reject (AgentRunEgressForwardProxy agentRun && (materialization =? AgentRunGrantPlaceholderFile)
          && negb (forallb validEgressHost (gr_EgressHosts grant)))
    ("forward-proxy " ++ named " has invalid egressHosts entry").

Fixpoint check_grants (agentRun : AgentRun) (prepared : list string) (grants : list AgentRunBrokerGrant) : result string unit :=
  match grants with
  | [] => Ok tt
  | grant :: rest => check_grant agentRun prepared grant |>> check_grants agentRun (prepared ++ preparation_keys grant)%list rest
  end.

(** The checks of the hosts a forward proxy intercepts. *)
Definition check_injects (agentRun : AgentRun) : result string unit :=
  let injects := forwardProxyInjects agentRun in
  reject (length injects =? 0)%nat
    ("spec.egressTransport " ++ AgentRunEgressTransport agentRun
     ++ " requires at least one header-inject or placeholder-file broker grant with egressHosts") |>>
  each_seen (fun seen inject =>
    reject (bool_decide (is_Some (ParseIP (fi_Host inject)))) "forward-proxy egressHost must be a DNS name, not an IP" |>>
    reject (mem (joined (fi_Host inject) (fi_Capability inject)) (map (fun i => joined (fi_Host i) (fi_Capability i)) seen))
      ("forward-proxy host is duplicated for broker grant " ++ fi_Capability inject) |>>
    reject (match ru_EgressDomainPolicy (run_Spec agentRun) with
            | Some policy => negb (egressDomainAllowed policy (fi_Host inject))
            | None => false
            end)
      ("forward-proxy host required by broker grant " ++ fi_Capability inject ++ " is denied by spec.egressDomainPolicy"))
    [] injects.

Definition as_check {A} (r : result string A) : result string unit := match r with Ok _ => Ok tt | Err e => Err e end.

Definition ValidateAgentRunEgressMode (agentRun : AgentRun) : result string unit :=
  let spec := run_Spec agentRun in
  let mode := AgentRunEgressMode agentRun in
  let transport := AgentRunEgressTransport agentRun in
  let grants := AgentRunBrokerGrants (ru_Broker spec) in
  ValidateRemovedEgressForwardProxy agentRun |>>
  ValidateBrokerTLSConfig env |>>
  as_check (DeploymentDenyCIDRs env) |>>
  as_check (ExternalTCPPorts env) |>>
  reject (negb (mode =? AgentRunEgressDirect) && negb (mode =? AgentRunEgressMediated)) "spec.egress must be direct or mediated" |>>
  reject (ru_EgressEnforcement spec && negb (mode =? AgentRunEgressMediated))
    "spec.egressEnforcement requires spec.egress mediated" |>>
  validateEgressDomainPolicy (ru_EgressDomainPolicy spec) |>>
  validateEgressMaxConcurrentTunnels (ru_EgressMaxConcurrentTunnels spec) |>>
  reject (negb (ru_EgressMaxConcurrentTunnels spec =? 0)%Z && negb (proxied transport))
    "spec.egressMaxConcurrentTunnels requires spec.egressTransport forward-proxy or transparent" |>>
  reject (negb ((transport =? AgentRunEgressTransportRedirect) || proxied transport))
    "spec.egressTransport must be redirect, forward-proxy, or transparent" |>>
  reject (negb (transport =? AgentRunEgressTransportRedirect)
          && (negb (ru_EgressEnforcement spec) || negb (mode =? AgentRunEgressMediated)))
    ("spec.egressTransport " ++ transport ++ " requires spec.egress mediated and spec.egressEnforcement") |>>
  reject (bool_decide (is_Some (ru_EgressDomainPolicy spec))
          && (negb (mode =? AgentRunEgressMediated) || negb (ru_EgressEnforcement spec) || negb (proxied transport)))
    "spec.egressDomainPolicy requires mediated, enforced forward-proxy or transparent egress" |>>
  reject ((transport =? AgentRunEgressTransportTransparent) && negb (NetworkPolicyCapable env))
    "spec.egressTransport transparent requires a NetworkPolicy-capable deployment" |>>
  reject ((mode =? AgentRunEgressMediated) && bool_decide (is_Some (ru_RuntimeAuth spec)))
    "egress mediated is incompatible with spec.runtimeAuth" |>>
  reject ((mode =? AgentRunEgressMediated) && HasPrefix (BrokerURL env) "http://" && negb (ru_EgressAllowInsecureBroker spec))
    "egress mediated with plaintext broker requires spec.egressAllowInsecureBroker=true for local/dev use" |>>
  check_grants agentRun [] grants |>>
  if AgentRunEgressForwardProxy agentRun then check_injects agentRun
  else reject ((mode =? AgentRunEgressMediated)
               && negb (existsb (fun grant => AgentRunGrantMaterialization grant =? AgentRunGrantHeaderInject) grants))
         "egress mediated requires at least one header-inject broker grant with egressHosts".
End Runs.

(** ** Runtime *)

Definition linuxCapabilityNames : list string :=
  [ "CHOWN"; "DAC_OVERRIDE"; "DAC_READ_SEARCH"; "FOWNER"; "FSETID"; "KILL"; "SETGID"; "SETUID"; "SETPCAP";
    "LINUX_IMMUTABLE"; "NET_BIND_SERVICE"; "NET_BROADCAST"; "NET_ADMIN"; "NET_RAW"; "IPC_LOCK"; "IPC_OWNER";
    "SYS_MODULE"; "SYS_RAWIO"; "SYS_CHROOT"; "SYS_PTRACE"; "SYS_PACCT"; "SYS_ADMIN"; "SYS_BOOT"; "SYS_NICE";
    "SYS_RESOURCE"; "SYS_TIME"; "SYS_TTY_CONFIG"; "MKNOD"; "LEASE"; "AUDIT_WRITE"; "AUDIT_CONTROL"; "SETFCAP";
    "MAC_OVERRIDE"; "MAC_ADMIN"; "SYSLOG"; "WAKE_ALARM"; "BLOCK_SUSPEND"; "AUDIT_READ"; "PERFMON"; "BPF";
    "CHECKPOINT_RESTORE" ].

(** The efforts a runtime type supports; [None] for a type without selection. *)
Definition runtime_efforts (type : string) : option (list string) :=
  if type =? "codex" then Some ["minimal"; "low"; "medium"; "high"; "xhigh"]
  else if type =? "claude" then Some ["low"; "medium"; "high"; "xhigh"; "max"]
  else None.

Definition validateRuntimeSelection (runtime : AgentRunRuntime) : result string unit :=
  reject (negb (rr_Model runtime =? "") && (negb (trimmed (rr_Model runtime)) || has_nul (rr_Model runtime)))
    "spec.runtime.model must be a non-empty trimmed string" |>>
  if (rr_Model runtime =? "") && (rr_Effort runtime =? "") then Ok tt
  else match runtime_efforts (rr_Type runtime) with
  | None => Err "spec.runtime.type does not support model or effort selection"
  | Some efforts =>
      reject (negb (rr_Effort runtime =? "") && negb (mem (rr_Effort runtime) efforts))
        "spec.runtime.effort is not supported by the runtime type"
  end.

Definition validateRuntimeCapabilities (runtime : AgentRunRuntime) : result string unit :=
  match rr_Container runtime ≫= rk_Capabilities with
  | None => Ok tt
  | Some added =>
      each_seen (fun seen capability =>
        reject (negb (mem capability linuxCapabilityNames))
          "spec.runtime.container.capabilities.add contains unknown Linux capability" |>>
        reject (mem capability seen) "spec.runtime.container.capabilities.add contains duplicate capability") [] added
  end.

Definition ValidateAgentRunRuntimeCapabilities (agentRun : AgentRun) : result string unit :=
  validateRuntimeSelection (ru_Runtime (run_Spec agentRun)) |>> validateRuntimeCapabilities (ru_Runtime (run_Spec agentRun)).

Definition agentRuntimeCapabilities (agentRun : AgentRun) : list string :=
  default [] (rr_Container (ru_Runtime (run_Spec agentRun)) ≫= rk_Capabilities).

Definition managedDockerNetworkPool : string := "172.31.0.0/16".
Definition maxRequiredDockerNetworks : Z := 16.

#[export] Instance prefix_eq_dec : EqDecision Prefix.
Proof. solve_decision. Defined.

(** The subnet of a required network, when it is a canonical /24 of the pool. *)
Definition managed_subnet (value : string) : option Prefix :=
  match ParsePrefix value, ParsePrefix managedDockerNetworkPool with
  | Some subnet, Some pool =>
      if negb (addr_is4 (pfx_addr subnet)) || negb (pfx_bits subnet =? 24)%Z || negb (bool_decide (subnet = Masked subnet))
         || negb (prefix_Contains pool (pfx_addr subnet)) then None
      else Some subnet
  | _, _ => None
  end.

Definition validateRuntimeDockerNetworks (runtime : AgentRunRuntime) : result string unit :=
  match rr_Docker runtime with
  | None => Ok tt
  | Some docker =>
      reject (maxRequiredDockerNetworks <? Z.of_nat (length (rx_RequiredNetworks docker)))%Z
        "runtime.docker.requiredNetworks supports at most 16 entries" |>>
      each_seen (fun seen network =>
        reject (negb (IsDNS1123Label (rw_Name network))) "runtime.docker.requiredNetworks name must be a DNS label" |>>
        reject (mem (rw_Name network) (map rw_Name seen)) "runtime.docker.requiredNetworks name is duplicated" |>>
        match managed_subnet (rw_Subnet network) with
        | None => Err "runtime.docker.requiredNetworks subnet must be a canonical IPv4 /24 within the pool"
        | Some subnet =>
            reject (bool_decide (Some subnet ∈ map (fun n => managed_subnet (rw_Subnet n)) seen))
              "runtime.docker.requiredNetworks subnet is duplicated"
        end) [] (rx_RequiredNetworks docker)
  end.

Definition ValidateAgentRunDockerNetworks (agentRun : AgentRun) : result string unit :=
  validateRuntimeDockerNetworks (ru_Runtime (run_Spec agentRun)).

Definition AgentRunDockerKernelLogDevice (agentRun : AgentRun) : bool :=
  match rr_Docker (ru_Runtime (run_Spec agentRun)) with Some docker => rx_KernelLogDevice docker | None => false end.

(** ** Workspace *)

Definition maxWorkspaceInstructionsBytes : Z := 64 * 1024.
Definition minimumDockerPVCSizeBytes : Z := 1024 * 1024 * 1024.
Definition maximumDockerPVCSizeBytes : Z := 1024 * 1024 * 1024 * 1024.

Definition AgentRunWorkspaceMode (agentRun : AgentRun) : string :=
  if rs_Mode (ru_Workspace (run_Spec agentRun)) =? "" then AgentRunWorkspaceEphemeral
  else rs_Mode (ru_Workspace (run_Spec agentRun)).

Definition ValidateAgentRunWorkspaceInstructions (agentRun : AgentRun) : result string unit :=
  reject (maxWorkspaceInstructionsBytes <? len (rg_WorkspaceInstructions (ru_Agent (run_Spec agentRun))))%Z
    "spec.agent.workspaceInstructions must be at most 65536 bytes" |>>
  reject (maxWorkspaceInstructionsBytes <? len (rg_WorkflowInstructions (ru_Agent (run_Spec agentRun))))%Z
    "spec.agent.workflowInstructions must be at most 65536 bytes".

Definition ValidateAgentRunWorkspace (agentRun : AgentRun) : result string unit :=
  let workspace := ru_Workspace (run_Spec agentRun) in
  let mode := AgentRunWorkspaceMode agentRun in
  if mode =? AgentRunWorkspaceEphemeral then
    reject (bool_decide (is_Some (rs_Size workspace)) || bool_decide (is_Some (rs_DockerSize workspace))
            || negb (rs_StorageClassName workspace =? ""))
      "spec.workspace size, dockerSize, and storageClassName require mode Persistent"
  else if mode =? AgentRunWorkspacePersistent then
    reject (match rs_Size workspace with None => true | Some size => (qt_Sign size <=? 0)%Z end)
      "spec.workspace.size must be a positive Kubernetes resource quantity for mode Persistent" |>>
    (if rs_StorageClassName workspace =? "" then Ok tt
     else reject (negb (trimmed (rs_StorageClassName workspace))) "spec.workspace.storageClassName must be normalized" |>>
          reject (negb (IsDNS1123Subdomain (rs_StorageClassName workspace)))
            "spec.workspace.storageClassName must be a valid DNS subdomain") |>>
    reject (match rs_DockerSize workspace with
            | Some size => (qt_Value size <? minimumDockerPVCSizeBytes)%Z || (maximumDockerPVCSizeBytes <? qt_Value size)%Z
            | None => false
            end) "spec.workspace.dockerSize must be between 1Gi and 1Ti" |>>
    each (fun grant => reject (AgentRunGrantMaterialization grant =? AgentRunGrantFileBundle)
      ("persistent workspace is incompatible with broker grant " ++ gr_Provider grant ++ " materialization file-bundle"))
      (AgentRunBrokerGrants (ru_Broker (run_Spec agentRun)))
  else Err "spec.workspace.mode must be Ephemeral or Persistent".
