(* ===== verification/OperatorProfiles.v ===== *)
(** * Execution profiles (operator/internal/controller/execution_profile.go)

    What a schedule lets a producer run: the administrator's profiles and
    workflows, their validation, the choice of one of each for a request, and
    the run built from the choice.  The sentinel errors of the file are
    [profile_error].  A Go map built by a validation loop is the list of its
    entries, whose keys the loop makes distinct.

    The second half says what a profile makes of a run without the code's own
    functions ([profiled_as]), and that the code does so. *)
From stdpp Require Import base list strings gmap sorting.
From Stdlib Require Import ZArith Lia Ascii.
From S2P Require Import Prelude GoStrings GoUrl GoJson GoJsonPrint GoFloat Contract Validation OperatorTypes OperatorPolicy.


Local Open Scope Z_scope.
Local Open Scope go_scope.
Local Open Scope string_scope.

Inductive profile_error : Type :=
| errInvalidExecutionProfileConfiguration
| errExecutionProfileSelectionDenied
| errProducerNotAllowed
| errWorkflowSelectionDenied
| errPrincipalNotEnrolled
| errPrincipalNotEligible
| errPrincipalCredentialNotReady
| errPrincipalCredentialResolution
| errRemovedForwardProxy.

#[export] Instance profile_error_eq_dec : EqDecision profile_error.
Proof. solve_decision. Defined.

Definition maxLifecycleEvents : Z := 128.
Definition principalAccountProviderPlaceholder : string := "$principal-account".

(** [if bad { return nil, errInvalidExecutionProfileConfiguration }] *)
Definition refuse (bad : bool) : result profile_error unit := if bad then Err errInvalidExecutionProfileConfiguration else Ok tt.

(** The resolution of a validator's own error to the sentinel. *)
Definition invalid_unless (r : result string unit) : result profile_error unit := refuse (negb (is_nil r)).

(** [^[a-z][a-z0-9]*(?:[._-][a-z0-9]+)*$] *)
Definition lifecycleEventPattern : regex :=
  RSeq (RSet is_lower) (RSeq (RStar (RSet lower_digit)) (RStar (RSeq (RSet (one_of "._-")) (RPlus (RSet lower_digit))))).

Record ResolvedExecutionProfile := mkResolvedProfile {
  re_Profile : AgentScheduleExecutionProfile;
  re_PrincipalCredential : option AgentRunPrincipalCredentialProvenance
}.

Record ResolvedWorkflowProfile := mkResolvedWorkflow {
  rf_Name : string;
  rf_WorkspaceInstructions : string;
  rf_Lifecycle : option AgentRunLifecycle
}.

(** The producers of a schedule without workflows, or its workflows and
    producer policies. *)
Inductive validatedWorkflowConfiguration : Type :=
| LegacyAllowed (producers : list string)
| WorkflowMode (profiles : list AgentScheduleWorkflowProfile) (policies : list AgentScheduleProducerPolicy).

(** ** Documents as Go values

    A document read into [map[string]any] or [any]: an object has each key
    once, the last member's value, and is printed in the order of its keys. *)

Fixpoint any_set (key : string) (value : json) (members : list (string * json)) : list (string * json) :=
  match members with
  | [] => [(key, value)]
  | (k, v) :: rest =>
      if key =? k then (key, value) :: rest
      else if str_lt key k then (key, value) :: (k, v) :: rest
      else (k, v) :: any_set key value rest
  end.

Fixpoint any_value (v : json) : option json :=
  match v with
  | JNumber text => JNumber <$> reprint_number text
  | JArray l =>
      JArray <$> (fix values (l : list json) : option (list json) :=
        match l with
        | [] => Some []
        | x :: rest => match any_value x, values rest with Some x, Some rest => Some (x :: rest) | _, _ => None end
        end) l
  | JObject ms =>
      JObject <$> (fix members (acc : list (string * json)) (ms : list (string * json)) : option (list (string * json)) :=
        match ms with
        | [] => Some acc
        | (k, x) :: rest => match any_value x with Some x => members (any_set k x acc) rest | None => None end
        end) [] ms
  | _ => Some v
  end.

(** [json.Unmarshal] into an [any]. *)
Definition unmarshal_any (raw : string) : option json := json_document raw ≫= any_value.

Definition jsonObject (value : string) : option (list (string * json)) :=
  match unmarshal_any (if value =? "" then "{}" else value) with
  | Some (JObject members) => Some members
  | _ => None
  end.

Fixpoint replace_placeholder (id : string) (v : json) : json :=
  match v with
  | JString s => if s =? principalAccountProviderPlaceholder then JString id else v
  | JArray l => JArray (map (replace_placeholder id) l)
  | JObject members => JObject (map (fun '(k, x) => (k, replace_placeholder id x)) members)
  | _ => v
  end.

Definition replacePrincipalAccountPlaceholder (configuration providerInstanceID : string) : option string :=
  (fun v => print_json (replace_placeholder providerInstanceID v)) <$> unmarshal_any configuration.

(** ** Modes *)

Definition ScheduleUsesExecutionProfiles (schedule : AgentSchedule) : bool :=
  let spec := sched_Spec schedule in
  bool_decide (is_Some (sk_Template spec)) || negb (length (sk_Profiles spec) =? 0)%nat
  || bool_decide (is_Some (sk_ProfileSelection spec)) || negb (length (sk_AllowedProducers spec) =? 0)%nat
  || bool_decide (is_Some (sk_PrincipalCredentialSelection spec))
  || negb (length (sk_WorkflowProfiles spec) =? 0)%nat || negb (length (sk_ProducerPolicies spec) =? 0)%nat.

Definition ScheduleUsesPrincipalCredentials (schedule : AgentSchedule) : bool :=
  match sk_PrincipalCredentialSelection (sched_Spec schedule) with Some selection => cs_Enabled selection | None => false end.

(** ** Principals *)

Definition validPrincipalSubject (value : string) : bool :=
  negb (value =? "") && (len value <=? 512)%Z && trimmed value && negb (ContainsAny value nul_cr_lf_set).

Definition canonicalPrincipalIssuer (value : string) : bool :=
  if (value =? "") || (2048 <? len value)%Z || negb (trimmed value) || ContainsAny value nul_cr_lf_set then false
  else match url_Parse value with
  | None => false
  | Some parsed =>
      (Scheme parsed =? "https") && negb (Host parsed =? "") && bool_decide (User parsed = None)
      && (RawQuery parsed =? "") && (Fragment parsed =? "") && (URL_String parsed =? value)
  end.

Definition producerAllowsDynamicPrincipal (schedule : AgentSchedule) (producer : string) (principal : option AgentRunPrincipal) : bool :=
  match principal with
  | None => false
  | Some principal =>
      if negb (ScheduleUsesPrincipalCredentials schedule) || negb (canonicalPrincipalIssuer (pr_Issuer principal))
         || negb (validPrincipalSubject (pr_Subject principal)) then false
      else match List.find (fun policy => pp_Identity policy =? producer) (sk_ProducerPolicies (sched_Spec schedule)) with
      | Some policy => mem (pr_Issuer principal) (pp_AllowedPrincipalIssuers policy)
      | None => false
      end
  end.

(** ** Broker authorization *)

Definition resource_prefix : regex := RPlus (RSet (fun c => alnum c || one_of ":/._-" c)).

Definition validateScheduleBrokerAuthorization (broker : option AgentRunBroker) : result profile_error unit :=
  match broker with
  | None => Ok tt
  | Some broker =>
      each (fun grant =>
        invalid_unless (check_resources (gr_Provider grant) (gr_Resources grant)) |>>
        match gr_Authorization grant with
        | None => Ok tt
        | Some policy =>
            if negb (gz_Preset policy =? "") then
              refuse (negb (gz_Preset policy =? "observe") || negb (gz_DefaultAction policy =? "")
                      || bool_decide (is_Some (gz_Rules policy)) || (length (gr_Resources grant) =? 0)%nat
                      || (128 <? len (gz_ResourcePrefix policy))%Z
                      || negb (gz_ResourcePrefix policy =? "") && negb (re_match resource_prefix (gz_ResourcePrefix policy)))
            else
              refuse (negb (gz_ResourcePrefix policy =? "")) |>>
              refuse (negb (gz_DefaultAction policy =? "allow") && negb (gz_DefaultAction policy =? "deny")) |>>
              refuse (256 <? size (gz_Rules policy))%Z |>>
              each (fun rule => refuse (negb (bounded_rule rule))) (elems (gz_Rules policy))
        end) (rb_Grants broker)
  end.

Definition resolve_preset (grant : AgentRunBrokerGrant) : AgentRunBrokerGrant :=
  match gr_Authorization grant with
  | Some policy =>
      if gz_Preset policy =? "observe" then
        let prefix := if gz_ResourcePrefix policy =? "" then "context/" else gz_ResourcePrefix policy in
        let rules := map (fun resource => mkGrantRule "observe" (prefix ++ resource)) (gr_Resources grant) in
        mkGrant (gr_Provider grant) (gr_Repositories grant) (gr_Resources grant) (gr_Preparations grant) (gr_Materialization grant)
          (gr_EgressHosts grant) (gr_Git grant) (gr_Permissions grant) (Some (mkGrantAuthorization "" "" "deny" (Some rules)))
          (gr_AllowInsecureUpstream grant) (gr_Quota grant)
      else grant
  | None => grant
  end.

Definition resolveBrokerAuthorizationPresets (broker : option AgentRunBroker) : option AgentRunBroker :=
  (fun b => mkRunBroker (map resolve_preset (rb_Grants b))) <$> broker.

(** ** Workflows *)

Definition validLifecycle (lifecycle : option AgentRunLifecycle) : bool :=
  match lifecycle with
  | None => true
  | Some lifecycle =>
      if (maxLifecycleEvents <? Z.of_nat (length (rl_CompleteOn lifecycle)))%Z
         || (maxLifecycleEvents <? Z.of_nat (length (rl_FailOn lifecycle)))%Z then false
      else is_nil (each_seen (fun seen event =>
             refuse ((256 <? len event)%Z || negb (re_match lifecycleEventPattern event)) |>> refuse (mem event seen))
             [] (rl_CompleteOn lifecycle ++ rl_FailOn lifecycle)%list)
  end.

(** A trimmed, non-empty identity that is not among those before. *)
Definition fresh_identity (seen : list string) (identity : string) : result profile_error unit :=
  refuse ((TrimSpace identity =? "") || negb (trimmed identity)) |>> refuse (mem identity seen).

Definition check_policy (schedule : AgentSchedule) (policy : AgentScheduleProducerPolicy) : result profile_error unit :=
  let workflows := map wp_Name (sk_WorkflowProfiles (sched_Spec schedule)) in
  each_seen (fun seen workflow => refuse (negb (mem workflow workflows)) |>> refuse (mem workflow seen)) [] (pp_Workflows policy) |>>
  refuse (negb (pp_DefaultWorkflow policy =? "") && negb (mem (pp_DefaultWorkflow policy) (pp_Workflows policy))) |>>
  let issuers := pp_AllowedPrincipalIssuers policy in
  if ScheduleUsesPrincipalCredentials schedule then
    refuse ((length issuers =? 0)%nat || (32 <? Z.of_nat (length issuers))%Z) |>>
    each_seen (fun seen issuer => refuse (negb (canonicalPrincipalIssuer issuer)) |>> refuse (mem issuer seen)) [] issuers
  else refuse (negb (length issuers =? 0)%nat).

Definition validateWorkflowConfiguration (schedule : AgentSchedule) : result profile_error validatedWorkflowConfiguration :=
  let spec := sched_Spec schedule in
  if (length (sk_WorkflowProfiles spec) =? 0)%nat && (length (sk_ProducerPolicies spec) =? 0)%nat then
    refuse (ScheduleUsesPrincipalCredentials schedule) |>>
    refuse (length (sk_AllowedProducers spec) =? 0)%nat |>>
    each_seen fresh_identity [] (sk_AllowedProducers spec) |>>
    Ok (LegacyAllowed (sk_AllowedProducers spec))
  else
    refuse (negb (length (sk_AllowedProducers spec) =? 0)%nat || (length (sk_WorkflowProfiles spec) =? 0)%nat
            || (length (sk_ProducerPolicies spec) =? 0)%nat) |>>
    each_seen (fun seen profile =>
      refuse (negb (IsDNS1123Label (wp_Name profile)) || (maxWorkspaceInstructionsBytes <? len (wp_WorkspaceInstructions profile))%Z) |>>
      refuse (negb (validLifecycle (wp_Lifecycle profile))) |>>
      refuse (mem (wp_Name profile) (map wp_Name seen))) [] (sk_WorkflowProfiles spec) |>>
    each_seen (fun seen policy =>
      fresh_identity (map pp_Identity seen) (pp_Identity policy) |>> check_policy schedule policy) [] (sk_ProducerPolicies spec) |>>
    Ok (WorkflowMode (sk_WorkflowProfiles spec) (sk_ProducerPolicies spec)).

(** [None] in [Ok None] is the workflow-free request. *)
Definition resolveWorkflowForProducer (schedule : AgentSchedule) (producer requested : string)
    : result profile_error (option ResolvedWorkflowProfile) :=
  match validateWorkflowConfiguration schedule with
  | Err e => Err e
  | Ok (LegacyAllowed producers) =>
      if negb (mem producer producers) then Err errProducerNotAllowed
      else if negb (requested =? "") then Err errWorkflowSelectionDenied
      else Ok None
  | Ok (WorkflowMode profiles policies) =>
      match List.find (fun policy => pp_Identity policy =? producer) policies with
      | None => Err errProducerNotAllowed
      | Some policy =>
          let selected := if requested =? "" then pp_DefaultWorkflow policy else requested in
          if selected =? "" then Ok None
          else if negb (mem selected (pp_Workflows policy)) then Err errWorkflowSelectionDenied
          else match List.find (fun profile => wp_Name profile =? selected) profiles with
          | None => Err errInvalidExecutionProfileConfiguration
          | Some profile => Ok (Some (mkResolvedWorkflow (wp_Name profile) (wp_WorkspaceInstructions profile) (wp_Lifecycle profile)))
          end
      end
  end.

(** ** Profiles *)

Definition find_profile (profiles : list AgentScheduleExecutionProfile) (name : string) : option AgentScheduleExecutionProfile :=
  List.find (fun profile => ep_Name profile =? name) profiles.

(** The domain policy allows every host the profile injects credentials for. *)
Definition injected_hosts_allowed (profile : AgentScheduleExecutionProfile) : bool :=
  match ep_EgressDomainPolicy profile with
  | Some policy =>
      forallb (fun grant => forallb (fun upstream => egressDomainAllowed policy (egressHostName upstream)) (gr_EgressHosts grant))
        (List.filter injectable (AgentRunBrokerGrants (ep_Broker profile)))
  | None => true
  end.

Definition check_profile (seen : list AgentScheduleExecutionProfile) (profile : AgentScheduleExecutionProfile)
    : result profile_error unit :=
  (if bool_decide (is_Some (ep_EgressForwardProxy profile)) then Err errRemovedForwardProxy else Ok tt) |>>
  refuse ((TrimSpace (ep_Name profile) =? "") || (TrimSpace (rr_Type (ep_Runtime profile)) =? "")
          || (TrimSpace (rr_Autonomy (ep_Runtime profile)) =? "") || (ep_Egress profile =? "")) |>>
  refuse (mem (ep_Name profile) (map ep_Name seen)) |>>
  refuse (negb (bool_decide (is_Some (jsonObject (ep_AgentRuntimeConfig profile))))) |>>
  refuse (maxWorkspaceInstructionsBytes <? len (ep_WorkspaceInstructions profile))%Z |>>
  invalid_unless (validateEgressMaxConcurrentTunnels (ep_EgressMaxConcurrentTunnels profile)) |>>
  refuse (negb (ep_EgressMaxConcurrentTunnels profile =? 0)%Z && negb (proxied (ep_EgressTransport profile))) |>>
  invalid_unless (validateEgressDomainPolicy (ep_EgressDomainPolicy profile)) |>>
  refuse (bool_decide (is_Some (ep_EgressDomainPolicy profile))
          && (negb (ep_Egress profile =? AgentRunEgressMediated) || negb (ep_EgressEnforcement profile)
              || negb (proxied (ep_EgressTransport profile)))) |>>
  refuse (negb (injected_hosts_allowed profile)) |>>
  invalid_unless (validateRuntimeCapabilities (ep_Runtime profile)) |>>
  invalid_unless (validateRuntimeDockerNetworks (ep_Runtime profile)) |>>
  validateScheduleBrokerAuthorization (ep_Broker profile).

(** A profile bound to a template has the placeholder grants of a mediated
    run. *)
Definition check_mapping (profiles : list AgentScheduleExecutionProfile) (seen : list AgentSchedulePrincipalCredentialTemplateProfile)
    (mapping : AgentSchedulePrincipalCredentialTemplateProfile) : result profile_error unit :=
  refuse (negb (IsDNS1123Label (tp_Template mapping)) || negb (IsDNS1123Label (tp_Profile mapping))) |>>
  refuse (mem (tp_Template mapping) (map tp_Template seen)) |>>
  match find_profile profiles (tp_Profile mapping) with
  | None => Err errInvalidExecutionProfileConfiguration
  | Some profile =>
      match ep_Broker profile with
      | None => Err errInvalidExecutionProfileConfiguration
      | Some broker =>
          let placeholders := List.filter (fun grant => gr_Provider grant =? principalAccountProviderPlaceholder) (rb_Grants broker) in
          refuse (negb (ep_Egress profile =? AgentRunEgressMediated)) |>>
          refuse (existsb (fun grant => AgentRunGrantMaterialization grant =? AgentRunGrantFileBundle) placeholders) |>>
          refuse (length placeholders =? 0)%nat
      end
  end.

Definition check_selection (profiles : list AgentScheduleExecutionProfile) (selection : AgentScheduleProfileSelection)
    : result profile_error unit :=
  (if ps_OnNoMatch selection =? AgentScheduleOnNoMatchUseDefault then refuse (ps_DefaultProfile selection =? "")
   else if ps_OnNoMatch selection =? AgentScheduleOnNoMatchDeny then refuse (length (ps_Rules selection) =? 0)%nat
   else Err errInvalidExecutionProfileConfiguration) |>>
  refuse (negb (ps_DefaultProfile selection =? "")
          && negb (bool_decide (is_Some (find_profile profiles (ps_DefaultProfile selection))))) |>>
  each_seen (fun seen rule =>
    refuse ((TrimSpace (sr_Issuer rule) =? "") || (TrimSpace (sr_Subject rule) =? "")) |>>
    refuse (negb (bool_decide (is_Some (find_profile profiles (sr_Profile rule))))) |>>
    refuse (mem (joined (sr_Issuer rule) (sr_Subject rule)) (map (fun r => joined (sr_Issuer r) (sr_Subject r)) seen)))
    [] (ps_Rules selection).

Definition check_template (template : AgentScheduleTemplate) : result profile_error unit :=
  refuse (TrimSpace (te_Image template) =? "") |>>
  match jsonObject (rg_Config (te_Agent template)) with
  | None => Err errInvalidExecutionProfileConfiguration
  | Some common => refuse (bool_decide (is_Some (json_get common "runtime")))
  end |>>
  refuse (negb (rg_WorkspaceInstructions (te_Agent template) =? "") || negb (rg_WorkflowInstructions (te_Agent template) =? "")).

(** The validated profiles, which are the schedule's. *)
Definition validateExecutionProfileSchedule (schedule : AgentSchedule) : result profile_error (list AgentScheduleExecutionProfile) :=
  let spec := sched_Spec schedule in
  let dynamic := sk_PrincipalCredentialSelection spec in
  match sk_Template spec with
  | None => Err errInvalidExecutionProfileConfiguration
  | Some template =>
      refuse (length (sk_Profiles spec) =? 0)%nat |>>
      refuse (match dynamic with
              | None => negb (bool_decide (is_Some (sk_ProfileSelection spec)))
              | Some selection => negb (cs_Enabled selection) || bool_decide (is_Some (sk_ProfileSelection spec))
              end) |>>
      check_template template |>>
      match validateWorkflowConfiguration schedule with Err e => Err e | Ok _ => Ok tt end |>>
      each_seen check_profile [] (sk_Profiles spec) |>>
      match dynamic, sk_ProfileSelection spec with
      | Some selection, _ =>
          refuse (negb (cs_OnNoMatch selection =? AgentScheduleOnNoMatchDeny) || (length (cs_TemplateProfiles selection) =? 0)%nat
                  || (64 <? Z.of_nat (length (cs_TemplateProfiles selection)))%Z) |>>
          each_seen (check_mapping (sk_Profiles spec)) [] (cs_TemplateProfiles selection)
      | None, Some selection => check_selection (sk_Profiles spec) selection
      | None, None => Err errInvalidExecutionProfileConfiguration
      end |>>
      Ok (sk_Profiles spec)
  end.

Definition with_broker (p : AgentScheduleExecutionProfile) (broker : option AgentRunBroker) : AgentScheduleExecutionProfile :=
  mkExecutionProfile (ep_Name p) (ep_Runtime p) (ep_RuntimeAuth p) (ep_AgentRuntimeConfig p) (ep_WorkspaceInstructions p) (ep_Egress p)
    (ep_EgressAllowInsecureBroker p) (ep_EgressEnforcement p) (ep_EgressForwardProxy p) (ep_EgressTransport p)
    (ep_EgressMaxConcurrentTunnels p) (ep_EgressDomainPolicy p) broker.

Definition with_runtime_config (p : AgentScheduleExecutionProfile) (config : string) : AgentScheduleExecutionProfile :=
  mkExecutionProfile (ep_Name p) (ep_Runtime p) (ep_RuntimeAuth p) config (ep_WorkspaceInstructions p) (ep_Egress p)
    (ep_EgressAllowInsecureBroker p) (ep_EgressEnforcement p) (ep_EgressForwardProxy p) (ep_EgressTransport p)
    (ep_EgressMaxConcurrentTunnels p) (ep_EgressDomainPolicy p) (ep_Broker p).

(** The profile of the first rule for the principal. *)
Definition rule_for (rules : list AgentScheduleProfileSelectionRule) (principal : option AgentRunPrincipal) : string :=
  match principal with
  | None => ""
  | Some principal =>
      match List.find (fun rule => (sr_Issuer rule =? pr_Issuer principal) && (sr_Subject rule =? pr_Subject principal)) rules with
      | Some rule => sr_Profile rule
      | None => ""
      end
  end.

(** [StaticExecutionProfileResolver.Resolve]; [profiles[selected]] of a name
    outside the map is the zero profile, here the error of a schedule that
    validation does not let through. *)
Definition Resolve (schedule : AgentSchedule) (principal : option AgentRunPrincipal) : result profile_error ResolvedExecutionProfile :=
  match validateExecutionProfileSchedule schedule, sk_ProfileSelection (sched_Spec schedule) with
  | Err e, _ => Err e
  | Ok _, None => Err errInvalidExecutionProfileConfiguration
  | Ok profiles, Some selection =>
      let ruled := rule_for (ps_Rules selection) principal in
      if (ruled =? "") && negb (ps_OnNoMatch selection =? AgentScheduleOnNoMatchUseDefault)
      then Err errExecutionProfileSelectionDenied
      else match find_profile profiles (if ruled =? "" then ps_DefaultProfile selection else ruled) with
      | None => Err errInvalidExecutionProfileConfiguration
      | Some profile => Ok (mkResolvedProfile (with_broker profile (resolveBrokerAuthorizationPresets (ep_Broker profile))) None)
      end
  end.

(** ** Credentials of a principal's account *)

(** [principalaccounts.Resolution] *)
Record Resolution := mkResolution { rn_Template : string; rn_ProviderInstanceID : string; rn_Generation : Z }.

Definition bind_provider (id : string) (grant : AgentRunBrokerGrant) : AgentRunBrokerGrant :=
  if gr_Provider grant =? principalAccountProviderPlaceholder then
    mkGrant id (gr_Repositories grant) (gr_Resources grant) (gr_Preparations grant) (gr_Materialization grant) (gr_EgressHosts grant)
      (gr_Git grant) (gr_Permissions grant) (gr_Authorization grant) (gr_AllowInsecureUpstream grant) (gr_Quota grant)
  else grant.

(** The part of [resolvePrincipalCredentialProfile] after the account is
    known. *)
Definition bind_principal_profile (schedule : AgentSchedule) (profiles : list AgentScheduleExecutionProfile) (resolution : Resolution)
    : result profile_error ResolvedExecutionProfile :=
  let mappings := match sk_PrincipalCredentialSelection (sched_Spec schedule) with
                  | Some selection => cs_TemplateProfiles selection
                  | None => []
                  end in
  let selected := match List.find (fun mapping => tp_Template mapping =? rn_Template resolution) mappings with
                  | Some mapping => tp_Profile mapping
                  | None => ""
                  end in
  match find_profile profiles selected with
  | None => Err errPrincipalCredentialResolution
  | Some profile =>
      if selected =? "" then Err errPrincipalCredentialResolution
      else
        let broker := (fun b => mkRunBroker (map (bind_provider (rn_ProviderInstanceID resolution)) (rb_Grants b))) <$> ep_Broker profile in
        match replacePrincipalAccountPlaceholder (ep_AgentRuntimeConfig profile) (rn_ProviderInstanceID resolution) with
        | None => Err errInvalidExecutionProfileConfiguration
        | Some config =>
            Ok (mkResolvedProfile
                  (with_broker (with_runtime_config profile config) (resolveBrokerAuthorizationPresets broker))
                  (Some (mkCredentialProvenance (rn_Template resolution) (rn_ProviderInstanceID resolution) (rn_Generation resolution))))
        end
  end.

(** ** The run *)

Definition buildProfiledAgentRun (schedule : AgentSchedule) (resolved : ResolvedExecutionProfile) (producer : string)
    (principal : option AgentRunPrincipal) (workflow : option ResolvedWorkflowProfile) (prompt : string)
    : result profile_error AgentRun :=
  match sk_Template (sched_Spec schedule) with
  | None => Err errInvalidExecutionProfileConfiguration
  | Some template =>
      let profile := re_Profile resolved in
      match jsonObject (rg_Config (te_Agent template)), jsonObject (ep_AgentRuntimeConfig profile) with
      | Some config, Some runtimeConfig =>
          let rawConfig := print_json (JObject (any_set "runtime" (JObject runtimeConfig) config)) in
          let lifecycle := match workflow ≫= rf_Lifecycle with Some l => Some l | None => te_Lifecycle template end in
          Ok (mkAgentRun (mkType "" "") no_meta
            (mkRunSpec None (ep_Runtime profile) (ep_RuntimeAuth profile) (te_Image template) (te_RuntimeClassName template)
              (te_Resources template) (te_Tolerations template) (ep_Egress profile) (ep_EgressAllowInsecureBroker profile)
              (ep_EgressEnforcement profile) None (ep_EgressTransport profile) (ep_EgressMaxConcurrentTunnels profile)
              (ep_EgressDomainPolicy profile) (te_Workspace template) (ep_Broker profile)
              (if prompt =? "" then None else Some prompt)
              (mkRunAgent rawConfig (ep_WorkspaceInstructions profile) (default "" (rf_WorkspaceInstructions <$> workflow)))
              lifecycle (te_TTL template)
              (Some (mkProvenance producer (om_Name (sched_Meta schedule)) (om_UID (sched_Meta schedule))
                       (om_Generation (sched_Meta schedule)) (ep_Name profile) (default "" (rf_Name <$> workflow)) principal
                       (re_PrincipalCredential resolved))))
            no_status)
      | _, _ => Err errInvalidExecutionProfileConfiguration
      end
  end.

Definition callbackTokenKey : string := "NVT_OPERATOR_CALLBACK_TOKEN".

Fixpoint uniqueStrings (seen values : list string) : list string :=
  match values with
  | [] => []
  | value :: rest => if mem value seen then uniqueStrings seen rest else value :: uniqueStrings (value :: seen) rest
  end.

(** [None] is the error of a value that is no list. *)
Definition agentConfigPlugins (config : list (string * json)) : option (list json) :=
  match json_get config "plugins" with
  | None | Some JNull => Some []
  | Some (JArray plugins) => Some plugins
  | Some _ => None
  end.

(** An entry that is an object of another name. *)
Definition foreign_plugin (raw : json) : bool :=
  match raw with
  | JObject plugin => match json_get plugin "name" with Some (JString name) => negb (name =? "event-webhook") | _ => true end
  | _ => false
  end.

(** The keys of the maps in their printed order. *)
Definition lifecycle_webhook (namespace name : string) (filters : list string) : json :=
  JObject [
    ("config", JObject [
      ("auth", JObject [("env", JString callbackTokenKey); ("type", JString "bearer-env")]);
      ("delivery", JObject [("retry", JObject [("backoff-seconds", JNumber "1")])]);
      ("filters", JArray (map JString filters));
      ("url", JString ("http://nvt-operator:8082/v1/agentruns/" ++ namespace ++ "/" ++ name ++ "/events"))]);
    ("name", JString "event-webhook"); ("restart", JString "always"); ("source", JString "builtin"); ("when", JString "after-agent")].

Definition injectProfiledLifecycleCallback (run : AgentRun) : result profile_error AgentRun :=
  match ru_Lifecycle (run_Spec run) with
  | None => Ok run
  | Some lifecycle =>
      if (length (rl_CompleteOn lifecycle) =? 0)%nat && (length (rl_FailOn lifecycle) =? 0)%nat || AgentRunLiteralZeroSecret run then Ok run
      else
        let agent := ru_Agent (run_Spec run) in
        match jsonObject (rg_Config agent) with
        | None => Err errInvalidExecutionProfileConfiguration
        | Some config =>
            match agentConfigPlugins config with
            | None => Err errInvalidExecutionProfileConfiguration
            | Some plugins =>
                if negb (forallb foreign_plugin plugins) then Err errInvalidExecutionProfileConfiguration
                else
                  let filters := uniqueStrings [] (rl_CompleteOn lifecycle ++ rl_FailOn lifecycle)%list in
                  let webhook := lifecycle_webhook (om_Namespace (run_Meta run)) (om_Name (run_Meta run)) filters in
                  let raw := print_json (JObject (any_set "plugins" (JArray (plugins ++ [webhook])%list) config)) in
                  Ok (set_spec run (with_agent (run_Spec run)
                        (mkRunAgent raw (rg_WorkspaceInstructions agent) (rg_WorkflowInstructions agent))))
            end
        end
  end.

(** * What a profiled run is

    The run of a profile stated by itself, field by field, without the
    operations above; of those only the reading and the printing of a
    document's text are used. *)

(** ** Documents *)

(** The text is an object, or nothing; its members, each key once with the
    last value the text gives it. *)
Definition reads (text : string) (members : list (string * json)) : Prop :=
  NoDup (map fst members)
  /\ exists raw, json_document (if text =? "" then "{}" else text) = Some (JObject raw)
     /\ forall key, json_get members key = json_get raw key ≫= any_value.

(** One member has a new value, every other the value it had. *)
Definition replaces (key : string) (value : json) (before after : list (string * json)) : Prop :=
  NoDup (map fst after) /\ json_get after key = Some value
  /\ forall k, k <> key -> json_get after k = json_get before k.

Fixpoint json_at (path : list string) (v : json) : option json :=
  match path with
  | [] => Some v
  | key :: rest => match v with JObject members => json_get members key ≫= json_at rest | _ => None end
  end.

(** The same document with an account's identifier for every placeholder. *)
#[warnings="-register-all"]
Inductive substituted (id : string) : json -> json -> Prop :=
| substituted_placeholder : substituted id (JString "$principal-account") (JString id)
| substituted_string s : s <> "$principal-account" -> substituted id (JString s) (JString s)
| substituted_null : substituted id JNull JNull
| substituted_bool b : substituted id (JBool b) (JBool b)
| substituted_number text : substituted id (JNumber text) (JNumber text)
| substituted_array l l' : Forall2 (substituted id) l l' -> substituted id (JArray l) (JArray l')
| substituted_object members members' : map fst members = map fst members' ->
    Forall2 (substituted id) (map snd members) (map snd members') -> substituted id (JObject members) (JObject members').

(** ** The choice *)

(** The profile the schedule's own rules choose for a principal: that of the
    first rule that names it, or the default one where no rule does and the
    schedule allows that. *)
Definition rule_names (principal : option AgentRunPrincipal) (rule : AgentScheduleProfileSelectionRule) : Prop :=
  exists p, principal = Some p /\ sr_Issuer rule = pr_Issuer p /\ sr_Subject rule = pr_Subject p.

Definition ruled_profile (schedule : AgentSchedule) (principal : option AgentRunPrincipal) (profile : string) : Prop :=
  exists selection, sk_ProfileSelection (sched_Spec schedule) = Some selection
  /\ ((exists before rule after, ps_Rules selection = (before ++ rule :: after)%list /\ rule_names principal rule
        /\ (forall other, In other before -> ~ rule_names principal other) /\ profile = sr_Profile rule)
      \/ (forall rule, In rule (ps_Rules selection) -> ~ rule_names principal rule)
         /\ ps_OnNoMatch selection = "useDefault" /\ profile = ps_DefaultProfile selection).

(** The profile of the first mapping for the template of an account. *)
Definition account_profile (schedule : AgentSchedule) (account : Resolution) (profile : string) : Prop :=
  exists selection before mapping after, sk_PrincipalCredentialSelection (sched_Spec schedule) = Some selection
  /\ cs_TemplateProfiles selection = (before ++ mapping :: after)%list
  /\ tp_Template mapping = rn_Template account
  /\ (forall other, In other before -> tp_Template other <> rn_Template account)
  /\ profile = tp_Profile mapping.

(** The one profile of that name, chosen by the rules, or through an account
    the broker has answered for this principal. *)
Definition chosen_profile (schedule : AgentSchedule) (answered : AgentRunPrincipal -> Resolution -> Prop)
    (principal : option AgentRunPrincipal) (account : option Resolution) (profile : AgentScheduleExecutionProfile) : Prop :=
  In profile (sk_Profiles (sched_Spec schedule)) /\ NoDup (map ep_Name (sk_Profiles (sched_Spec schedule)))
  /\ match account with
     | None => ScheduleUsesPrincipalCredentials schedule = false /\ ruled_profile schedule principal (ep_Name profile)
     | Some resolution =>
         ScheduleUsesPrincipalCredentials schedule = true /\ account_profile schedule resolution (ep_Name profile)
         /\ exists p, principal = Some p /\ answered p resolution
     end.

(** The workflow of a producer the schedule allows. *)
Definition allowed_workflow (schedule : AgentSchedule) (producer : string) (workflow : option ResolvedWorkflowProfile) : Prop :=
  (sk_WorkflowProfiles (sched_Spec schedule) = [] /\ sk_ProducerPolicies (sched_Spec schedule) = []
   /\ In producer (sk_AllowedProducers (sched_Spec schedule)) /\ workflow = None)
  \/ exists policy, In policy (sk_ProducerPolicies (sched_Spec schedule)) /\ pp_Identity policy = producer
     /\ (workflow = None /\ pp_DefaultWorkflow policy = ""
         \/ exists w, In w (sk_WorkflowProfiles (sched_Spec schedule)) /\ In (wp_Name w) (pp_Workflows policy)
            /\ workflow = Some (mkResolvedWorkflow (wp_Name w) (wp_WorkspaceInstructions w) (wp_Lifecycle w))).

(** ** The run *)

(** A grant of the profile in the run: under the account's identifier where
    it has the placeholder, a preset of observation spelled out. *)
Record run_grant (account : option Resolution) (before after : AgentRunBrokerGrant) : Prop := {
  gd_provider : gr_Provider after =
    match account with
    | Some resolution => if gr_Provider before =? "$principal-account" then rn_ProviderInstanceID resolution else gr_Provider before
    | None => gr_Provider before
    end;
  gd_rest : (gr_Repositories after, gr_Resources after, gr_Preparations after, gr_Materialization after, gr_EgressHosts after,
             gr_Git after, gr_Permissions after, gr_AllowInsecureUpstream after, gr_Quota after)
          = (gr_Repositories before, gr_Resources before, gr_Preparations before, gr_Materialization before, gr_EgressHosts before,
             gr_Git before, gr_Permissions before, gr_AllowInsecureUpstream before, gr_Quota before);
  gd_preset : forall policy, gr_Authorization before = Some policy -> gz_Preset policy = "observe" ->
    exists rules, gr_Authorization after = Some (mkGrantAuthorization "" "" "deny" (Some rules))
    /\ forall operation resource, In (mkGrantRule operation resource) rules <->
         operation = "observe" /\ exists r, In r (gr_Resources before)
         /\ resource = (if gz_ResourcePrefix policy =? "" then "context/" else gz_ResourcePrefix policy) ++ r;
  gd_authorization : (forall policy, gr_Authorization before = Some policy -> gz_Preset policy <> "observe") ->
    gr_Authorization after = gr_Authorization before
}.

Definition run_grants (account : option Resolution) (before after : option AgentRunBroker) : Prop :=
  match before, after with
  | None, None => True
  | Some b, Some b' => Forall2 (run_grant account) (rb_Grants b) (rb_Grants b')
  | _, _ => False
  end.

(** The profile's own configuration of its runtime. *)
Definition runtime_config (profile : AgentScheduleExecutionProfile) (account : option Resolution) (runtime : list (string * json)) : Prop :=
  match account with
  | None => reads (ep_AgentRuntimeConfig profile) runtime
  | Some resolution =>
      exists v v', unmarshal_any (ep_AgentRuntimeConfig profile) = Some v
      /\ substituted (rn_ProviderInstanceID resolution) v v' /\ reads (print_json v') runtime
  end.

(** The template's configuration of the agent with the profile's runtime. *)
Definition merged_config (template : AgentScheduleTemplate) (profile : AgentScheduleExecutionProfile) (account : option Resolution)
    (text : string) : Prop :=
  exists common runtime merged, reads (rg_Config (te_Agent template)) common /\ runtime_config profile account runtime
  /\ replaces "runtime" (JObject runtime) common merged /\ text = print_json (JObject merged).

(** The plugin that reports these events of the run to the operator. *)
Definition reports (key : string * string) (events : list string) (plugin : json) : Prop :=
  json_at ["name"] plugin = Some (JString "event-webhook") /\ json_at ["source"] plugin = Some (JString "builtin")
  /\ json_at ["when"] plugin = Some (JString "after-agent") /\ json_at ["restart"] plugin = Some (JString "always")
  /\ json_at ["config"; "url"] plugin
     = Some (JString ("http://nvt-operator:8082/v1/agentruns/" ++ fst key ++ "/" ++ snd key ++ "/events"))
  /\ json_at ["config"; "auth"; "type"] plugin = Some (JString "bearer-env")
  /\ json_at ["config"; "auth"; "env"] plugin = Some (JString "NVT_OPERATOR_CALLBACK_TOKEN")
  /\ exists filters, json_at ["config"; "filters"] plugin = Some (JArray (map JString filters))
     /\ NoDup filters /\ forall event, In event filters <-> In event events.

(** The configuration with that plugin added to those it has, none of which
    reports already. *)
Definition reporting_config (key : string * string) (events : list string) (before after : string) : Prop :=
  exists config plugins plugin config', reads before config
  /\ (json_get config "plugins" = Some (JArray plugins)
      \/ (json_get config "plugins" = None \/ json_get config "plugins" = Some JNull) /\ plugins = [])
  /\ (forall other, In other plugins -> exists members, other = JObject members
        /\ json_get members "name" <> Some (JString "event-webhook"))
  /\ reports key events plugin
  /\ replaces "plugins" (JArray (plugins ++ [plugin])%list) config config' /\ after = print_json (JObject config').

(** The events that end a run, of a run that can call the operator: one that
    is not cut off with its secrets at the proxy. *)
Definition reported_events (spec : AgentRunSpec) : list string :=
  match ru_Lifecycle spec with
  | Some lifecycle =>
      if (ru_Egress spec =? "mediated") && ru_EgressEnforcement spec then [] else (rl_CompleteOn lifecycle ++ rl_FailOn lifecycle)%list
  | None => []
  end.

Definition agent_config (template : AgentScheduleTemplate) (profile : AgentScheduleExecutionProfile) (account : option Resolution)
    (run : AgentRun) : Prop :=
  exists merged, merged_config template profile account merged
  /\ match reported_events (run_Spec run) with
     | [] => rg_Config (ru_Agent (run_Spec run)) = merged
     | events => reporting_config (om_Namespace (run_Meta run), om_Name (run_Meta run)) events merged (rg_Config (ru_Agent (run_Spec run)))
     end.

Record profiled_as (schedule : AgentSchedule) (template : AgentScheduleTemplate) (profile : AgentScheduleExecutionProfile)
    (account : option Resolution) (producer : string) (principal : option AgentRunPrincipal) (workflow : option ResolvedWorkflowProfile)
    (run : AgentRun) : Prop := {
  pf_template : sk_Template (sched_Spec schedule) = Some template;
  pf_of_template : (ru_Image (run_Spec run), ru_RuntimeClassName (run_Spec run), ru_Resources (run_Spec run),
                    ru_Tolerations (run_Spec run), ru_Workspace (run_Spec run), ru_TTL (run_Spec run))
    = (te_Image template, te_RuntimeClassName template, te_Resources template, te_Tolerations template, te_Workspace template,
       te_TTL template);
  pf_of_profile : (ru_Runtime (run_Spec run), ru_RuntimeAuth (run_Spec run), ru_Egress (run_Spec run),
                   ru_EgressAllowInsecureBroker (run_Spec run), ru_EgressEnforcement (run_Spec run), ru_EgressTransport (run_Spec run),
                   ru_EgressMaxConcurrentTunnels (run_Spec run), ru_EgressDomainPolicy (run_Spec run))
    = (ep_Runtime profile, ep_RuntimeAuth profile, ep_Egress profile, ep_EgressAllowInsecureBroker profile,
       ep_EgressEnforcement profile, ep_EgressTransport profile, ep_EgressMaxConcurrentTunnels profile, ep_EgressDomainPolicy profile);
  pf_removed : ru_Execution (run_Spec run) = None /\ ru_EgressForwardProxy (run_Spec run) = None;
  pf_broker : run_grants account (ep_Broker profile) (ru_Broker (run_Spec run));
  pf_lifecycle : ru_Lifecycle (run_Spec run)
    = match workflow ≫= rf_Lifecycle with Some lifecycle => Some lifecycle | None => te_Lifecycle template end;
  pf_instructions : rg_WorkspaceInstructions (ru_Agent (run_Spec run)) = ep_WorkspaceInstructions profile
    /\ rg_WorkflowInstructions (ru_Agent (run_Spec run))
       = match workflow with Some w => rf_WorkspaceInstructions w | None => "" end;
  pf_config : agent_config template profile account run;
  pf_provenance : ru_ProfileProvenance (run_Spec run)
    = Some (mkProvenance producer (om_Name (sched_Meta schedule)) (om_UID (sched_Meta schedule)) (om_Generation (sched_Meta schedule))
              (ep_Name profile) (match workflow with Some w => rf_Name w | None => "" end) principal
              ((fun a => mkCredentialProvenance (rn_Template a) (rn_ProviderInstanceID a) (rn_Generation a)) <$> account))
}.

(** ** Documents with each key once *)

Definition ascending (members : list (string * json)) : Prop := StronglySorted (fun a b => str_lt a b = true) (map fst members).

Lemma ascending_nodup members : ascending members -> NoDup (map fst members).
Proof.
  unfold ascending. induction (map fst members) as [|k l IH]; intros H; [constructor|]. apply StronglySorted_inv in H as [H1 H2].
  constructor; [|by apply IH]. intros Hk%list_elem_of_In. rewrite List.Forall_forall in H2. specialize (H2 k Hk). by rewrite str_lt_irrefl in H2.
Qed.

Lemma json_get_cons k v members key :
  json_get ((k, v) :: members) key = match json_get members key with Some x => Some x | None => if k =? key then Some v else None end.
Proof.
  unfold json_get. cbn [rev]. induction (rev members) as [|[k' v'] l IH]; cbn; [by destruct (k =? key)|]. by destruct (k' =? key).
Qed.

#[local] Arguments json_get : simpl never.

Lemma json_get_none members key : ~ In key (map fst members) -> json_get members key = None.
Proof.
  induction members as [|[k v] l IH]; [done|]. cbn [map fst In]. intros H. rewrite json_get_cons, IH by tauto.
  destruct (String.eqb_spec k key); [tauto|done].
Qed.

Lemma any_set_keys key value members k : In k (map fst (any_set key value members)) -> k = key \/ In k (map fst members).
Proof.
  induction members as [|[k' v'] l IH]; cbn; [by intros [<-|[]]; left|]. destruct (String.eqb_spec key k') as [->|]; cbn; [tauto|].
  destruct (str_lt key k'); cbn; [intros [<-|H]; auto|]. intros [<-|H]; [auto|]. destruct (IH H); auto.
Qed.

Lemma any_set_ascending key value members : ascending members -> ascending (any_set key value members).
Proof.
  unfold ascending. induction members as [|[k v] l IH]; cbn; intros H; [by repeat constructor|]. apply StronglySorted_inv in H as [H1 H2].
  destruct (String.eqb_spec key k) as [->|Hne]; [by constructor|]. destruct (str_lt key k) eqn:E; cbn; rewrite List.Forall_forall in H2.
  - constructor; [constructor; [done|by apply List.Forall_forall]|]. constructor; [done|]. apply List.Forall_forall. intros k' Hk'.
    by eapply str_lt_trans, H2.
  - constructor; [by apply IH|]. apply List.Forall_forall. intros k' Hk'. apply any_set_keys in Hk' as [->|Hk']; [|by apply H2].
    destruct (str_lt k key) eqn:E'; [done|]. by destruct Hne; apply str_lt_total.
Qed.

Lemma json_get_set key value members k : ascending members ->
  json_get (any_set key value members) k = if key =? k then Some value else json_get members k.
Proof.
  unfold ascending. induction members as [|[k' v'] l IH]; cbn [any_set map fst]; intros H; [by rewrite json_get_cons|].
  apply StronglySorted_inv in H as [H1 H2]. rewrite List.Forall_forall in H2.
  assert (Hfresh : forall x, str_lt x k' = true \/ x = k' -> json_get l x = None).
  { intros x Hx. apply json_get_none. intros Hin. specialize (H2 x Hin). destruct Hx as [Hx| ->]; [|by rewrite str_lt_irrefl in H2].
    pose proof (str_lt_trans _ _ _ Hx H2) as E. by rewrite str_lt_irrefl in E. }
  destruct (String.eqb_spec key k') as [<-|Hne].
  - rewrite !json_get_cons.
    destruct (String.eqb_spec key k) as [Ek|]; [by rewrite Hfresh by auto|done].
  - destruct (str_lt key k') eqn:E.
    + rewrite !json_get_cons.
      destruct (String.eqb_spec key k) as [Ek|]; [|by destruct (json_get l k), (k' =? k)]. rewrite Hfresh by (left; congruence).
      by destruct (String.eqb_spec k' k); [congruence|].
    + rewrite !json_get_cons, IH by done. by destruct (key =? k).
Qed.

Lemma any_set_replaces key value members : ascending members -> replaces key value members (any_set key value members).
Proof.
  intros H. split; [by apply ascending_nodup, any_set_ascending|]. split; [by rewrite json_get_set, String.eqb_refl by done|].
  intros k Hk. rewrite json_get_set by done. destruct (String.eqb_spec key k); [congruence|done].
Qed.

Lemma jsonObject_reads text members : jsonObject text = Some members -> ascending members /\ reads text members.
Proof.
  unfold jsonObject, unmarshal_any, reads. destruct (json_document _) as [v|]; [|done]. cbn [mbind option_bind].
  destruct v as [| |t| |l|raw]; try done.
  1: { cbn [any_value]. by destruct (reprint_number t). }
  1: { cbn [any_value]. by destruct ((fix values (l : list json) : option (list json) := _) l). }
  cbn [any_value]. set (go := fix go acc ms := match ms with [] => _ | _ => _ end).
  assert (H : forall ms acc out, go acc ms = Some out -> ascending acc ->
    ascending out /\ forall key, json_get out key = match json_get ms key with Some x => any_value x | None => json_get acc key end).
  { induction ms as [|[k x] ms IH]; intros acc out; cbn; [by intros [= <-]|]. destruct (any_value x) as [y|] eqn:Ex; [|done].
    intros H Hacc. destruct (IH _ _ H (any_set_ascending k y acc Hacc)) as [H1 H2]. split; [done|]. intros key.
    rewrite H2, json_get_cons, json_get_set by done.
    destruct (json_get ms key); [done|]. by destruct (k =? key). }
  destruct (go [] raw) as [out|] eqn:E; [|done]. cbn. intros [= <-]. destruct (H _ _ _ E (SSorted_nil _)) as [H1 H2].
  split; [done|]. split; [by apply ascending_nodup|]. exists raw. split; [done|]. intros key. rewrite H2. by destruct (json_get raw key).
Qed.

Lemma replace_substituted id v : substituted id v (replace_placeholder id v).
Proof.
  induction v as [| | |s|l IH|members IH] using json_nested_ind; cbn; try constructor.
  - destruct (String.eqb_spec s principalAccountProviderPlaceholder) as [->|]; by constructor.
  - induction IH; cbn; constructor; auto.
  - rewrite map_map. apply map_ext. by intros [].
  - induction IH as [|[k x] l Hx _ IHl]; cbn; constructor; auto.
Qed.

(** ** The choice *)

Lemma refuse_ok bad : refuse bad = Ok tt <-> bad = false.
Proof. by destruct bad. Qed.

(** What is refused when seen before occurs once. *)
Lemma each_seen_nodup {E A} (f : list A -> A -> result E unit) (name : A -> string) xs :
  (forall seen x, f seen x = Ok tt -> mem (name x) (map name seen) = false) -> each_seen f [] xs = Ok tt -> NoDup (map name xs).
Proof.
  intros Hf H. rewrite each_seen_ok in H. cbn [app] in H. assert (Hx : forall l x r, xs = (l ++ x :: r)%list -> ~ In (name x) (map name l)).
  { intros l x r Ex Hin. specialize (Hf _ _ (H l x r Ex)). apply not_true_iff_false in Hf. apply Hf. unfold mem. apply existsb_exists.
    exists (name x). by rewrite String.eqb_refl. }
  clear Hf H. induction xs as [|x xs IH] using rev_ind; [constructor|]. rewrite map_app. apply NoDup_app. split.
  - apply IH. intros l y r ->. apply (Hx l y (r ++ [x])%list). by rewrite <- app_assoc.
  - split; [|by apply NoDup_singleton]. intros k Hk Hin. apply list_elem_of_singleton in Hin as ->.
    apply (Hx xs x [] eq_refl). by apply list_elem_of_In.
Qed.

(** The first element with a property. *)
Lemma find_first {A} (p : A -> bool) l x : List.find p l = Some x ->
  exists before after, l = (before ++ x :: after)%list /\ p x = true /\ forall y, In y before -> p y = false.
Proof.
  induction l as [|y l IH]; [done|]. cbn. destruct (p y) eqn:E; [intros [= <-]; by exists [], l|].
  intros H. destruct (IH H) as (before & after & -> & Hx & Hb). exists (y :: before), after. do 2 (split; [done|]). by intros z [<-|Hz]; auto.
Qed.

Section Validated.
Context (schedule : AgentSchedule) (profiles : list AgentScheduleExecutionProfile).
Hypothesis Hvalid : validateExecutionProfileSchedule schedule = Ok profiles.

Lemma validated_profiles : profiles = sk_Profiles (sched_Spec schedule) /\ NoDup (map ep_Name profiles)
  /\ forall profile, In profile profiles -> ep_Name profile <> "" /\ ep_Egress profile <> "".
Proof.
  unfold validateExecutionProfileSchedule in Hvalid. destruct (sk_Template _) as [template|]; [|done].
  do 4 (apply andThen_ok in Hvalid as [_ Hvalid]). apply andThen_ok in Hvalid as [H Hv]. apply andThen_ok in Hv as [_ [= <-]].
  split; [done|]. split.
  - apply (each_seen_nodup check_profile); [|done]. intros seen x Hx. unfold check_profile in Hx.
    do 2 (apply andThen_ok in Hx as [_ Hx]). apply andThen_ok in Hx as [Hx _]. by apply refuse_ok in Hx.
  - intros profile Hin. apply List.in_split in Hin as (l & r & E). rewrite each_seen_ok in H. specialize (H l profile r E).
    unfold check_profile in H. apply andThen_ok in H as [_ H]. apply andThen_ok in H as [H _]. apply refuse_ok in H.
    apply orb_false_iff in H as [H He]. apply orb_false_iff in H as [H _]. apply orb_false_iff in H as [Hn _].
    split; [|by apply String.eqb_neq]. intros E'. by rewrite E' in Hn.
Qed.

Lemma validated_rules selection : sk_PrincipalCredentialSelection (sched_Spec schedule) = None ->
  sk_ProfileSelection (sched_Spec schedule) = Some selection -> forall rule, In rule (ps_Rules selection) ->
  exists profile, In profile profiles /\ ep_Name profile = sr_Profile rule.
Proof.
  intros Hd Hs rule Hin. unfold validateExecutionProfileSchedule in Hvalid. destruct (sk_Template _) as [template|]; [|done].
  do 5 (apply andThen_ok in Hvalid as [_ Hvalid]). apply andThen_ok in Hvalid as [H [= <-]]. rewrite Hd, Hs in H.
  unfold check_selection in H. do 2 (apply andThen_ok in H as [_ H]). rewrite each_seen_ok in H.
  apply List.in_split in Hin as (l & r & E). specialize (H l rule r E). apply andThen_ok in H as [_ H]. apply andThen_ok in H as [H _].
  apply refuse_ok, negb_false_iff, bool_decide_eq_true in H as [profile H]. apply List.find_some in H as [Hin Hn].
  apply String.eqb_eq in Hn. by exists profile.
Qed.

Lemma find_profile_named name profile : find_profile profiles name = Some profile -> In profile profiles /\ ep_Name profile = name.
Proof. intros H. apply List.find_some in H as [Hin Hn]. by apply String.eqb_eq in Hn. Qed.
End Validated.

Lemma dynamic_off schedule profiles : validateExecutionProfileSchedule schedule = Ok profiles ->
  ScheduleUsesPrincipalCredentials schedule = false -> sk_PrincipalCredentialSelection (sched_Spec schedule) = None.
Proof.
  unfold validateExecutionProfileSchedule, ScheduleUsesPrincipalCredentials. destruct (sk_Template _) as [template|]; [|done].
  intros H Hu. apply andThen_ok in H as [_ H]. apply andThen_ok in H as [H _]. apply refuse_ok in H.
  destruct (sk_PrincipalCredentialSelection _) as [selection|]; [|done]. by rewrite Hu in H.
Qed.

(** [rule_for] is the first rule that names the principal. *)
Lemma rule_for_ruled rules principal :
  (exists before rule after, rules = (before ++ rule :: after)%list /\ rule_names principal rule
     /\ (forall other, In other before -> ~ rule_names principal other) /\ rule_for rules principal = sr_Profile rule)
  \/ (forall rule, In rule rules -> ~ rule_names principal rule) /\ rule_for rules principal = "".
Proof.
  unfold rule_for, rule_names. destruct principal as [p|]; [|right; split; [|done]; by intros rule _ (p & ? & _)].
  set (test := fun rule : AgentScheduleProfileSelectionRule => _).
  assert (Ht : forall rule, test rule = true <-> exists q, Some p = Some q /\ sr_Issuer rule = pr_Issuer q /\ sr_Subject rule = pr_Subject q).
  { intros rule. unfold test. rewrite andb_true_iff, !String.eqb_eq. split; [by intros []; exists p|]. by intros (q & [= <-] & ?). }
  destruct (List.find test rules) as [rule|] eqn:E.
  - left. apply find_first in E as (before & after & -> & Hr & Hb). exists before, rule, after. split; [done|]. split; [by apply Ht|].
    split; [|done]. intros other Hin Hn. apply Ht in Hn. by rewrite Hb in Hn.
  - right. split; [|done]. intros rule Hin Hn. apply Ht in Hn. by rewrite (List.find_none _ _ E rule Hin) in Hn.
Qed.

Lemma preset_grant grant : run_grant None grant (resolve_preset grant).
Proof.
  unfold resolve_preset. destruct (gr_Authorization grant) as [policy|] eqn:E; [|by split; rewrite ?E].
  destruct (String.eqb_spec (gz_Preset policy) "observe") as [Ep|Ep]; [|split; rewrite ?E; try done; by intros ? [= <-]].
  split; cbn; try done; [|intros H; by specialize (H policy E)]. intros policy' Ha _. rewrite E in Ha. injection Ha as <-.
  eexists. split; [done|]. intros operation resource. rewrite in_map_iff. split.
  - intros (r & [= <- <-] & Hr). split; [done|]. by exists r.
  - intros (-> & r & Hr & ->). by exists r.
Qed.

Lemma bound_grant account grant : run_grant (Some account) grant (resolve_preset (bind_provider (rn_ProviderInstanceID account) grant)).
Proof.
  destruct (preset_grant (bind_provider (rn_ProviderInstanceID account) grant)) as [H1 H2 H3 H4]. revert H1 H2 H3 H4.
  unfold bind_provider, principalAccountProviderPlaceholder. by destruct (gr_Provider grant =? _) eqn:E; intros; split; rewrite ?E.
Qed.

(** The schedule's own choice. *)
Lemma Resolve_chosen schedule answered principal resolved : ScheduleUsesPrincipalCredentials schedule = false ->
  Resolve schedule principal = Ok resolved ->
  exists profile, chosen_profile schedule answered principal None profile /\ ep_Egress profile <> "" /\ re_PrincipalCredential resolved = None
    /\ re_Profile resolved = with_broker profile (resolveBrokerAuthorizationPresets (ep_Broker profile)).
Proof.
  unfold Resolve. intros Hu. destruct (validateExecutionProfileSchedule schedule) as [profiles|] eqn:Ev; [|done].
  pose proof (dynamic_off _ _ Ev Hu) as Hd. destruct (validated_profiles _ _ Ev) as (Ep & Hnodup & Hne).
  destruct (sk_ProfileSelection _) as [selection|] eqn:Es; [|done]. destruct (_ && _) eqn:Ec; [done|].
  destruct (find_profile _ _) as [profile|] eqn:Ef; [|done]. intros [= <-]. apply find_profile_named in Ef as [Hin Hname].
  exists profile. split; [|split; [by apply Hne|done]]. split; [by rewrite <- Ep|]. split; [by rewrite <- Ep|]. split; [done|].
  exists selection. split; [done|]. destruct (rule_for_ruled (ps_Rules selection) principal) as [(before & rule & after & Er & Hr & Hb & Hf)|[Hr Hf]].
  - left. exists before, rule, after. do 3 (split; [done|]).
    destruct (validated_rules _ _ Ev selection Hd Es rule) as (q & Hq & Hqn); [rewrite Er; apply in_or_app; right; by left|].
    apply Hne in Hq as [Hq _]. rewrite Hqn in Hq. apply String.eqb_neq in Hq. by rewrite Hf, Hq in Hname.
  - right. rewrite Hf in Hname, Ec. cbn in Hname, Ec. split; [done|]. split; [|done].
    apply negb_false_iff, String.eqb_eq in Ec. exact Ec.
Qed.

(** The choice through an account. *)
Lemma bind_chosen schedule (answered : AgentRunPrincipal -> Resolution -> Prop) p account profiles resolved :
  ScheduleUsesPrincipalCredentials schedule = true -> answered p account ->
  validateExecutionProfileSchedule schedule = Ok profiles -> bind_principal_profile schedule profiles account = Ok resolved ->
  exists profile config, chosen_profile schedule answered (Some p) (Some account) profile /\ ep_Egress profile <> ""
    /\ replacePrincipalAccountPlaceholder (ep_AgentRuntimeConfig profile) (rn_ProviderInstanceID account) = Some config
    /\ re_PrincipalCredential resolved = Some (mkCredentialProvenance (rn_Template account) (rn_ProviderInstanceID account) (rn_Generation account))
    /\ re_Profile resolved = with_broker (with_runtime_config profile config)
         (resolveBrokerAuthorizationPresets ((fun b => mkRunBroker (map (bind_provider (rn_ProviderInstanceID account)) (rb_Grants b)))
            <$> ep_Broker profile)).
Proof.
  intros Hu Ha Ev. destruct (validated_profiles _ _ Ev) as (Ep & Hnodup & Hne). unfold bind_principal_profile.
  assert (exists selection, sk_PrincipalCredentialSelection (sched_Spec schedule) = Some selection) as [selection Es].
  { unfold ScheduleUsesPrincipalCredentials in Hu. destruct (sk_PrincipalCredentialSelection _) as [s|]; [by exists s|done]. }
  rewrite Es. destruct (List.find _ _) as [mapping|] eqn:Ef.
  2: { destruct (find_profile profiles "") as [profile|]; done. }
  destruct (find_profile profiles (tp_Profile mapping)) as [profile|] eqn:Efp; [|done].
  destruct (tp_Profile mapping =? ""); [done|]. destruct (replacePrincipalAccountPlaceholder _ _) as [config|] eqn:Er; [|done].
  intros [= <-]. apply find_profile_named in Efp as [Hin Hname]. apply find_first in Ef as (before & after & Em & Ht & Hb).
  apply String.eqb_eq in Ht. exists profile, config. split; [|split; [by apply Hne|done]]. split; [by rewrite <- Ep|]. split; [by rewrite <- Ep|].
  split; [done|]. split; [|by exists p]. exists selection, before, mapping, after. do 3 (split; [done|]). split; [|done].
  intros other Hin' E. apply Hb in Hin'. by rewrite E, String.eqb_refl in Hin'.
Qed.

(** What either choice makes of the profile. *)
Definition resolved_as (profile : AgentScheduleExecutionProfile) (account : option Resolution) (resolved : ResolvedExecutionProfile) : Prop :=
  ep_Egress profile <> ""
  /\ re_PrincipalCredential resolved
     = (fun a => mkCredentialProvenance (rn_Template a) (rn_ProviderInstanceID a) (rn_Generation a)) <$> account
  /\ exists config broker, re_Profile resolved = with_broker (with_runtime_config profile config) broker
     /\ run_grants account (ep_Broker profile) broker
     /\ forall runtime, jsonObject config = Some runtime -> runtime_config profile account runtime.

Lemma map_grants account (f : AgentRunBrokerGrant -> AgentRunBrokerGrant) grants : (forall grant, run_grant account grant (f grant)) ->
  Forall2 (run_grant account) grants (map f grants).
Proof. intros H. induction grants; cbn; by constructor. Qed.

Lemma Resolve_resolved schedule answered principal resolved : ScheduleUsesPrincipalCredentials schedule = false ->
  Resolve schedule principal = Ok resolved ->
  exists profile, chosen_profile schedule answered principal None profile /\ resolved_as profile None resolved.
Proof.
  intros Hu H. destruct (Resolve_chosen _ answered _ _ Hu H) as (profile & Hc & He & Hp & Er). exists profile. split; [done|].
  split; [done|]. split; [done|]. exists (ep_AgentRuntimeConfig profile), (resolveBrokerAuthorizationPresets (ep_Broker profile)).
  split; [by destruct profile|]. split; [|intros runtime Hr; by apply jsonObject_reads].
  destruct (ep_Broker profile) as [broker|]; [|done]. apply map_grants, preset_grant.
Qed.

Lemma bind_resolved schedule (answered : AgentRunPrincipal -> Resolution -> Prop) p account profiles resolved :
  ScheduleUsesPrincipalCredentials schedule = true -> answered p account ->
  validateExecutionProfileSchedule schedule = Ok profiles -> bind_principal_profile schedule profiles account = Ok resolved ->
  exists profile, chosen_profile schedule answered (Some p) (Some account) profile /\ resolved_as profile (Some account) resolved.
Proof.
  intros Hu Ha Hv H. destruct (bind_chosen _ answered _ _ _ _ Hu Ha Hv H) as (profile & config & Hc & He & Hr & Hp & Er).
  exists profile. split; [done|]. split; [done|]. split; [done|]. exists config. eexists. split; [exact Er|]. split.
  - destruct (ep_Broker profile) as [broker|]; [|done]. cbn. rewrite map_map. apply map_grants, bound_grant.
  - intros runtime Hj. unfold replacePrincipalAccountPlaceholder in Hr. destruct (unmarshal_any _) as [v|] eqn:Ev; [|done].
    cbn in Hr. injection Hr as <-. exists v. eexists. split; [done|]. split; [apply replace_substituted|by apply jsonObject_reads].
Qed.

(** ** The run *)

Lemma uniqueStrings_in seen values s : In s (uniqueStrings seen values) <-> In s values /\ ~ In s seen.
Proof.
  revert seen. induction values as [|v l IH]; intros seen; cbn; [by split; [|intros [[] _]]|].
  assert (Hm : mem v seen = true <-> In v seen).
  { unfold mem. rewrite existsb_exists. split; [intros (x & Hx & E); by apply String.eqb_eq in E as ->|].
    intros H. exists v. by rewrite String.eqb_refl. }
  destruct (mem v seen) eqn:E; cbn [In]; rewrite IH; cbn [In].
  - split; [tauto|]. intros [[<-|H] Hn]; [by destruct Hn; apply Hm|done].
  - assert (Hv : ~ In v seen) by (intros H; by apply Hm in H). destruct (decide (v = s)) as [<-|]; tauto.
Qed.

Lemma uniqueStrings_nodup seen values : NoDup (uniqueStrings seen values).
Proof.
  revert seen. induction values as [|v l IH]; intros seen; cbn; [constructor|]. destruct (mem v seen); [done|]. constructor; [|done].
  rewrite list_elem_of_In, uniqueStrings_in. cbn. tauto.
Qed.

Lemma webhook_reports namespace name events :
  reports (namespace, name) events (lifecycle_webhook namespace name (uniqueStrings [] events)).
Proof.
  do 7 (split; [done|]). eexists. split; [done|]. split; [apply uniqueStrings_nodup|]. intros event. rewrite uniqueStrings_in. cbn. tauto.
Qed.

Lemma reported_events_skip run : reported_events (run_Spec run) = [] -> injectProfiledLifecycleCallback run = Ok run.
Proof.
  unfold reported_events, injectProfiledLifecycleCallback, AgentRunLiteralZeroSecret, AgentRunEgressEnforced, AgentRunEgressMode,
    AgentRunEgressMediated, AgentRunEgressDirect.
  destruct (ru_Lifecycle _) as [[complete fail]|]; [|done]. cbn. destruct (String.eqb_spec (ru_Egress (run_Spec run)) "") as [->|Hne].
  - by destruct (ru_EgressEnforcement _), complete, fail.
  - destruct (_ =? "mediated"), (ru_EgressEnforcement _); cbn; rewrite ?orb_true_r; try done; by destruct complete, fail.
Qed.

(** The callback of a run that has events to report. *)
Lemma injected_config run run' : injectProfiledLifecycleCallback run = Ok run' -> reported_events (run_Spec run) <> [] ->
  exists text, run' = set_spec run (with_agent (run_Spec run)
      (mkRunAgent text (rg_WorkspaceInstructions (ru_Agent (run_Spec run))) (rg_WorkflowInstructions (ru_Agent (run_Spec run)))))
    /\ reporting_config (om_Namespace (run_Meta run), om_Name (run_Meta run)) (reported_events (run_Spec run))
         (rg_Config (ru_Agent (run_Spec run))) text.
Proof.
  unfold reported_events, injectProfiledLifecycleCallback. destruct (ru_Lifecycle _) as [lifecycle|]; [|done].
  destruct (_ && ru_EgressEnforcement _) eqn:Ez; [done|]. intros H Hne.
  assert (Hz : AgentRunLiteralZeroSecret run = false).
  { unfold AgentRunLiteralZeroSecret, AgentRunEgressEnforced, AgentRunEgressMode, AgentRunEgressMediated, AgentRunEgressDirect.
    destruct (String.eqb_spec (ru_Egress (run_Spec run)) "") as [_|]; [done|]. revert Ez.
    by destruct (_ =? "mediated"), (ru_EgressEnforcement _). }
  rewrite Hz, orb_false_r in H. destruct ((_ =? 0)%nat && _) eqn:El.
  { apply andb_true_iff in El as [H1 H2]. apply Nat.eqb_eq, length_zero_iff_nil in H1, H2. by rewrite H1, H2 in Hne. }
  destruct (jsonObject _) as [config|] eqn:Ec; [|done]. apply jsonObject_reads in Ec as [Hasc Hreads].
  destruct (agentConfigPlugins config) as [plugins|] eqn:Ep; [|done]. destruct (forallb foreign_plugin plugins) eqn:Ef; [|done].
  injection H as <-. eexists. split; [done|]. exists config, plugins. eexists _, _. split; [done|]. split; [|split; [|split; [|split; [|done]]]].
  - unfold agentConfigPlugins in Ep. destruct (json_get config "plugins") as [[]|]; try done; injection Ep as <-; auto.
  - intros other Hin. rewrite forallb_forall in Ef. specialize (Ef other Hin). unfold foreign_plugin in Ef.
    destruct other as [| | | | |members]; try done. exists members. split; [done|]. intros E. by rewrite E in Ef.
  - apply webhook_reports.
  - by apply any_set_replaces.
Qed.

(** The run that is created for a profile. *)
Lemma built_as schedule principal account profile resolved producer workflow prompt built run run' :
  resolved_as profile account resolved ->
  buildProfiledAgentRun schedule resolved producer principal workflow prompt = Ok built ->
  run_Spec run = run_Spec built -> injectProfiledLifecycleCallback run = Ok run' ->
  exists template, profiled_as schedule template profile account producer principal workflow run'.
Proof.
  intros (_ & Hcred & config & broker & Er & Hbroker & Hconfig). unfold buildProfiledAgentRun.
  destruct (sk_Template _) as [template|] eqn:Et; [|done]. rewrite Er.
  destruct (jsonObject (rg_Config (te_Agent template))) as [common|] eqn:Ec; [|done].
  destruct (jsonObject (ep_AgentRuntimeConfig _)) as [runtime|] eqn:Ej; [|done].
  apply Hconfig in Ej. apply jsonObject_reads in Ec as [Hasc Hreads]. cbn zeta.
  assert (Hmerged : merged_config template profile account (print_json (JObject (any_set "runtime" (JObject runtime) common)))).
  { exists common, runtime. eexists. do 2 (split; [done|]). split; [by apply any_set_replaces|done]. }
  revert Hmerged. generalize (print_json (JObject (any_set "runtime" (JObject runtime) common))). intros merged Hmerged [= <-] Hs Hi.
  exists template. destruct run as [kind meta spec status]. cbn [run_Spec] in Hs. subst spec.
  set (run := mkAgentRun kind meta _ status) in Hi. assert (Hw : forall {B} (f : ResolvedWorkflowProfile -> B) z,
    default z (f <$> workflow) = match workflow with Some w => f w | None => z end) by (intros; by destruct workflow).
  destruct (decide (reported_events (run_Spec run) = [])) as [En|En].
  - rewrite (reported_events_skip run En) in Hi. injection Hi as <-. split; try done.
    + split; [done|apply Hw].
    + exists merged. split; [done|]. by rewrite En.
    + cbn. by rewrite Hcred, !Hw.
  - destruct (injected_config run run' Hi En) as (text & -> & Hrep). split; try done.
    + split; [done|apply Hw].
    + exists merged. split; [done|]. cbn [run_Spec set_spec]. change (reported_events (with_agent _ _)) with (reported_events (run_Spec run)).
      by destruct (reported_events (run_Spec run)).
    + cbn. by rewrite Hcred, !Hw.
Qed.

(** The workflow of a request. *)
Lemma workflow_configuration schedule configuration : validateWorkflowConfiguration schedule = Ok configuration ->
  sk_WorkflowProfiles (sched_Spec schedule) = [] /\ sk_ProducerPolicies (sched_Spec schedule) = []
    /\ configuration = LegacyAllowed (sk_AllowedProducers (sched_Spec schedule))
  \/ configuration = WorkflowMode (sk_WorkflowProfiles (sched_Spec schedule)) (sk_ProducerPolicies (sched_Spec schedule)).
Proof.
  unfold validateWorkflowConfiguration. destruct ((length (sk_WorkflowProfiles _) =? 0)%nat && _) eqn:E; intros H.
  - apply andb_true_iff in E as [E1 E2]. apply Nat.eqb_eq, length_zero_iff_nil in E1, E2.
    do 3 (apply andThen_ok in H as [_ H]). injection H as <-. by left.
  - do 3 (apply andThen_ok in H as [_ H]). injection H as <-. by right.
Qed.

Lemma workflow_allowed schedule producer requested workflow :
  resolveWorkflowForProducer schedule producer requested = Ok workflow -> allowed_workflow schedule producer workflow.
Proof.
  unfold resolveWorkflowForProducer, allowed_workflow.
  assert (Hm : forall x l, negb (mem x l) = false -> In x l).
  { intros x l H. apply negb_false_iff, existsb_exists in H as (y & Hy & E). by apply String.eqb_eq in E as ->. }
  destruct (validateWorkflowConfiguration schedule) as [c|e] eqn:E; [|done]. apply workflow_configuration in E as [(E1 & E2 & ->)| ->].
  - destruct (negb (mem producer _)) eqn:Ep; [done|]. destruct (negb (requested =? "")); [done|]. intros [= <-]. left. auto.
  - destruct (List.find _ (sk_ProducerPolicies _)) as [policy|] eqn:Ef; [|done]. apply List.find_some in Ef as [Hin Hid].
    apply String.eqb_eq in Hid. intros H. right. exists policy. do 2 (split; [done|]). revert H.
    destruct (String.eqb_spec requested "") as [->|Hne].
    2: apply String.eqb_neq in Hne as Hne'; rewrite Hne'.
    + destruct (String.eqb_spec (pp_DefaultWorkflow policy) ""); [intros [= <-]; by left|].
      destruct (negb (mem _ _)) eqn:Em; [done|]. destruct (List.find _ (sk_WorkflowProfiles _)) as [w|] eqn:Ew; [|done]. intros [= <-].
      apply List.find_some in Ew as [Hw Hn]. apply String.eqb_eq in Hn. right. exists w. split; [done|]. rewrite Hn. auto.
    + destruct (negb (mem _ _)) eqn:Em; [done|]. destruct (List.find _ (sk_WorkflowProfiles _)) as [w|] eqn:Ew; [|done]. intros [= <-].
      apply List.find_some in Ew as [Hw Hn]. apply String.eqb_eq in Hn. right. exists w. split; [done|]. rewrite Hn. auto.
Qed.
