(* ===== verification/OperatorSchedule.v ===== *)
(** * Schedules (operator/internal/controller/agentschedule_controller.go)

    Which runs belong to a schedule, what they take of its capacity, the
    metadata of an admitted run, and the reconciler of a schedule's status.
    The owner reference is set by controller-runtime, whose answer is the
    argument [owner]. *)
From stdpp Require Import base list strings gmap.
From Stdlib Require Import ZArith Lia Ascii.
From S2P Require Import Prelude GoStrings Contract OperatorTypes OperatorPolicy.

Local Open Scope Z_scope.
Local Open Scope go_scope.
Local Open Scope string_scope.

Definition scheduleLabel : string := "nvt.dev/schedule".
Definition workIDAnnotation : string := "nvt.dev/work-id".
Definition workGroupAnnotation : string := "nvt.dev/work-group".
Definition workURLAnnotation : string := "nvt.dev/work-url".
Definition workRepositoryAnnotation : string := "nvt.dev/work-repository".
Definition accessKeyAnnotation : string := "nvt.dev/access-key".
Definition displayNameAnnotation : string := "nvt.dev/display-name".
Definition sourceURLAnnotation : string := "nvt.dev/source-url".
Definition accessPortAnnotation : string := "nvt.dev/access-port".
Definition defaultParallelism : Z := 1.
Definition generatedNameSuffix : nat := 5.

Record scheduleAdmissionWorkMetadata := mkWorkMetadata {
  wm_ID : string;
  wm_Group : string;
  wm_Title : string;
  wm_URL : string;
  wm_Repository : string
}.

(** [m[key]] of a map of strings. *)
Definition value_of (m : gmap string string) (key : string) : string := default "" (m !! key).

Definition annotation (run : AgentRun) (key : string) : string := value_of (om_Annotations (run_Meta run)) key.

(** ** Capacity *)

Definition IsTerminalAgentRunPhase (phase : string) : bool :=
  (phase =? AgentRunPhaseCompleted) || (phase =? AgentRunPhaseFailed) || (phase =? AgentRunPhaseDeadlineExceeded).

Definition IsActiveScheduledRun (run : AgentRun) : bool := negb (IsTerminalAgentRunPhase (st_Phase (run_Status run))).


Definition countActiveScheduledRuns (runs : list AgentRun) : Z := count IsActiveScheduledRun runs.

Definition EffectiveMaxParallelism (schedule : AgentSchedule) : Z :=
  if (0 <? sk_MaxParallelism (sched_Spec schedule))%Z then sk_MaxParallelism (sched_Spec schedule) else defaultParallelism.

Definition retainedWorkExists (runs : list AgentRun) (workID : string) : bool :=
  existsb (fun run => annotation run workIDAnnotation =? workID) runs.

Definition activeWorkGroupExists (runs : list AgentRun) (group : string) : bool :=
  if group =? "" then false
  else existsb (fun run => IsActiveScheduledRun run
         && ((annotation run workGroupAnnotation =? group) || (annotation run workIDAnnotation =? group))) runs.

(** A run labelled with the schedule's name in its namespace, as
    [ListScheduledRuns] selects. *)
Definition scheduled_by (namespace name : string) (run : AgentRun) : bool :=
  (om_Namespace (run_Meta run) =? namespace) && bool_decide (om_Labels (run_Meta run) !! scheduleLabel = Some name).

(** ** The metadata of an admitted run *)

Definition generatedRunName (prefix : string) (random : list Z) : string := prefix ++ hex_encode random.

Definition set_or_delete (key value : string) (m : gmap string string) : gmap string string :=
  if value =? "" then delete key m else <[key := value]> m.

Definition set_if_empty (key value : string) (m : gmap string string) : gmap string string :=
  if value_of m key =? "" then <[key := value]> m else m.

Definition admitted_annotations (work : scheduleAdmissionWorkMetadata) (name : string) (m : gmap string string) : gmap string string :=
  let m := <[workIDAnnotation := wm_ID work]> m in
  let m := set_or_delete workGroupAnnotation (wm_Group work) m in
  let m := set_or_delete workURLAnnotation (wm_URL work) m in
  let m := set_or_delete workRepositoryAnnotation (wm_Repository work) m in
  let m := <[accessKeyAnnotation := name]> m in
  let m := set_if_empty displayNameAnnotation (if wm_Title work =? "" then name else wm_Title work) m in
  let m := if wm_URL work =? "" then m else <[sourceURLAnnotation := wm_URL work]> m in
  set_if_empty accessPortAnnotation "4090" m.

Definition GroupVersion : string := "nvt.dev/v1alpha1".

(** The name of an admitted run, or the prefix of the name to be generated. *)
Definition chosen_name (schedule : AgentSchedule) (run : AgentRun) : string + string :=
  let meta := run_Meta run in
  if negb (om_Name meta =? "") then inl (om_Name meta)
  else inr (if om_GenerateName meta =? "" then om_Name (sched_Meta schedule) ++ "-" else om_GenerateName meta).

Definition PrepareScheduledAgentRun (env : string -> string) (owner : ObjectMeta -> ObjectMeta -> result string (list OwnerReference))
    (schedule : AgentSchedule) (run : AgentRun) (work : scheduleAdmissionWorkMetadata) (random : option (list Z))
    : result string AgentRun :=
  let meta := run_Meta run in
  let kind := mkType (if tm_APIVersion (run_Type run) =? "" then GroupVersion else tm_APIVersion (run_Type run))
                     (if tm_Kind (run_Type run) =? "" then "AgentRun" else tm_Kind (run_Type run)) in
  let generate := match chosen_name schedule run with inl _ => om_GenerateName meta | inr prefix => prefix end in
  match (match chosen_name schedule run, random with
         | inl name, _ => Ok name
         | inr prefix, Some bytes => Ok (generatedRunName prefix bytes)
         | inr _, None => Err "generate AgentRun name"
         end) with
  | Err e => Err e
  | Ok name =>
      let meta := mkMeta name generate (om_Namespace (sched_Meta schedule)) (om_UID meta) (om_Generation meta)
        (<[scheduleLabel := om_Name (sched_Meta schedule)]> (om_Labels meta))
        (admitted_annotations work name (om_Annotations meta)) (om_OwnerReferences meta) in
      match owner (sched_Meta schedule) meta with
      | Err e => Err ("set AgentSchedule owner: " ++ e)
      | Ok owners =>
          let meta := mkMeta (om_Name meta) (om_GenerateName meta) (om_Namespace meta) (om_UID meta) (om_Generation meta)
            (om_Labels meta) (om_Annotations meta) owners in
          let run := mkAgentRun kind meta (run_Spec run) no_status in
          ValidateAgentRunEgressMode env run |>>
          ValidateAgentRunWorkspace run |>>
          ValidateAgentRunRuntimeCapabilities run |>>
          ValidateAgentRunDockerNetworks run |>>
          Ok run
      end
  end.
