(* ===== verification/OperatorAdmission.v ===== *)
(** * Schedule admission (operator/internal/controller/agentschedule_admission.go)

    The handler that turns a producer's request into an AgentRun, as a program
    over the calls it makes: the Kubernetes API, the token review, the
    principal-account broker, randomness and the clock.  What runs it, next to
    the other requests and under the schedule's lock, is in OperatorLocks.
    schedule_producer_auth.go and [bearerToken] are here too.  The struct
    mapping of a legacy [agentRun] and controller-runtime's owner references
    are arguments, with the environment of the process. *)
From stdpp Require Import base list strings gmap.
From Stdlib Require Import ZArith Lia Ascii.
From S2P Require Import Prelude GoStrings GoUrl GoJson GoJsonPrint GoHttp GoEncoding Contract Validation LocalRun GithubSubmit Program OperatorTypes OperatorPolicy OperatorProfiles OperatorSchedule.


Local Open Scope Z_scope.
Local Open Scope go_scope.
Local Open Scope string_scope.

Definition invalidExecutionProfileConfigurationReason : string := "invalid-execution-profile-configuration".
Definition maxParallelismReachedReason : string := "max-parallelism-reached".
Definition principalMaxParallelismReachedReason : string := "principal-max-parallelism-reached".
Definition scheduleAdmissionPathPrefix : string := "/v1/schedules/".

(** ** The request *)

Record scheduleAdmissionPrincipal := mkAdmitPrincipal { sa_Issuer : string; sa_Subject : string; sa_DisplayName : string }.

Record scheduleAdmissionWork := mkAdmitWork {
  sw_ID : string;
  sw_Group : string;
  sw_Title : string;
  sw_URL : string;
  sw_Repository : string;
  sw_Principal : option scheduleAdmissionPrincipal
}.

(** [sq_Input] is the prompt of the input. *)
Record scheduleAdmissionRequest := mkAdmitRequest {
  sq_Workflow : string;
  sq_Work : scheduleAdmissionWork;
  sq_Input : option string;
  sq_AgentRun : option AgentRun
}.

Definition principal_fields : list (field json scheduleAdmissionPrincipal) :=
  [("issuer", into_string (fun s x => mkAdmitPrincipal s (sa_Subject x) (sa_DisplayName x)));
   ("subject", into_string (fun s x => mkAdmitPrincipal (sa_Issuer x) s (sa_DisplayName x)));
   ("displayName", into_string (fun s x => mkAdmitPrincipal (sa_Issuer x) (sa_Subject x) s))].

(** A pointer to a struct: null clears it, an object is decoded into what it
    points to or into a new value. *)
Definition into_pointer {T U} (fields : list (field json U)) (zero : U) (get : T -> option U) (put : option U -> T -> T)
    (v : json) (x : T) : option T :=
  match v with
  | JNull => Some (put None x)
  | JObject ms => (fun u => put (Some u) x) <$> unmarshal_members fields ms (default zero (get x))
  | _ => None
  end.

Definition work_fields : list (field json scheduleAdmissionWork) :=
  [("id", into_string (fun s x => mkAdmitWork s (sw_Group x) (sw_Title x) (sw_URL x) (sw_Repository x) (sw_Principal x)));
   ("group", into_string (fun s x => mkAdmitWork (sw_ID x) s (sw_Title x) (sw_URL x) (sw_Repository x) (sw_Principal x)));
   ("title", into_string (fun s x => mkAdmitWork (sw_ID x) (sw_Group x) s (sw_URL x) (sw_Repository x) (sw_Principal x)));
   ("url", into_string (fun s x => mkAdmitWork (sw_ID x) (sw_Group x) (sw_Title x) s (sw_Repository x) (sw_Principal x)));
   ("repository", into_string (fun s x => mkAdmitWork (sw_ID x) (sw_Group x) (sw_Title x) (sw_URL x) s (sw_Principal x)));
   ("principal", into_pointer principal_fields (mkAdmitPrincipal "" "" "") sw_Principal (fun p x =>
      mkAdmitWork (sw_ID x) (sw_Group x) (sw_Title x) (sw_URL x) (sw_Repository x) p))].

Definition input_fields : list (field json string) := [("prompt", into_string (fun s _ => s))].

Definition no_work : scheduleAdmissionWork := mkAdmitWork "" "" "" "" "" None.

(** A field whose value is a struct. *)
Definition into_value {T U} (fields : list (field json U)) (get : T -> U) (put : U -> T -> T) (v : json) (x : T) : option T :=
  match v with
  | JNull => Some x
  | JObject ms => (fun u => put u x) <$> unmarshal_members fields ms (get x)
  | _ => None
  end.

Section Decoding.
(** The struct mapping of an AgentRun, into a run already decoded. *)
Variable decode_run : option AgentRun -> json -> option AgentRun.

Definition into_run (v : json) (x : scheduleAdmissionRequest) : option scheduleAdmissionRequest :=
  match v with
  | JNull => Some (mkAdmitRequest (sq_Workflow x) (sq_Work x) (sq_Input x) None)
  | _ => (fun run => mkAdmitRequest (sq_Workflow x) (sq_Work x) (sq_Input x) (Some run)) <$> decode_run (sq_AgentRun x) v
  end.

Definition admission_fields : list (field json scheduleAdmissionRequest) :=
  [("workflow", into_string (fun s x => mkAdmitRequest s (sq_Work x) (sq_Input x) (sq_AgentRun x)));
   ("work", into_value work_fields sq_Work (fun w x => mkAdmitRequest (sq_Workflow x) w (sq_Input x) (sq_AgentRun x)));
   ("input", into_pointer input_fields "" sq_Input (fun i x => mkAdmitRequest (sq_Workflow x) (sq_Work x) i (sq_AgentRun x)));
   ("agentRun", into_run)].

(** The members of the document as [map[string]json.RawMessage]: one value per
    key, in the order in which the map is printed. *)
Definition raw_map (ms : list (string * json)) : list (string * json) :=
  foldl (fun acc '(k, v) => any_set k v acc) [] ms.

(** The two decodings of the body: the raw members and the request. *)
Definition decode_body (body : string) : option (list (string * json) * scheduleAdmissionRequest) :=
  match json_document body with
  | Some (JObject ms) =>
      let raw := raw_map ms in
      (fun admission => (raw, admission)) <$> unmarshal_members admission_fields raw (mkAdmitRequest "" no_work None None)
  | _ => None
  end.
End Decoding.

(** The body behind [http.MaxBytesReader], read to its end by the two
    [Decode] calls. *)
Definition bounded_body (body : option string) : option string :=
  body ≫= (fun data => if (Z.shiftl 1 20 <? len data)%Z then None else Some data).

Definition validateJSONKeys (object : list (string * json)) (allowed : list string) : bool :=
  forallb (fun '(key, _) => mem key allowed) object.

(** [rawJSONObject] of a value that may be missing. *)
Definition rawJSONObject (v : option json) : option (list (string * json)) :=
  match v with Some (JObject ms) => Some ms | _ => None end.

(** [validateProfiledAdmissionShape(raw) == nil] *)
Definition validateProfiledAdmissionShape (raw : list (string * json)) : bool :=
  validateJSONKeys raw ["workflow"; "work"; "input"]
  && match rawJSONObject (json_get raw "work") with
     | None => false
     | Some work =>
         validateJSONKeys work ["id"; "group"; "title"; "url"; "repository"; "principal"]
         && match json_get work "principal" with
            | None => true
            | Some principal =>
                match rawJSONObject (Some principal) with
                | Some members => validateJSONKeys members ["issuer"; "subject"; "displayName"]
                | None => false
                end
            end
     end
  && match json_get raw "input" with
     | None => true
     | Some input => match rawJSONObject (Some input) with Some members => validateJSONKeys members ["prompt"] | None => false end
     end.

Definition parseScheduleAdmissionPath (path : string) : option (string * string) :=
  if negb (HasPrefix path scheduleAdmissionPathPrefix) then None
  else match Split (TrimPrefix path scheduleAdmissionPathPrefix) "/"%char with
  | [namespace; name; action] =>
      if (namespace =? "") || (name =? "") || negb ((action =? "admissions") || (action =? "runs")) then None
      else Some (namespace, name)
  | _ => None
  end.

Definition bearerToken (authorization : string) : option string :=
  if negb (HasPrefix authorization "Bearer ") then None
  else let token := TrimSpace (TrimPrefix authorization "Bearer ") in if token =? "" then None else Some token.

Definition validAdmissionWorkKey (value : string) : bool :=
  if (len value <? 16)%Z || (256 <? len value)%Z then false
  else all_runes (fun r => negb ((r <? 0x21)%Z || (0x7e <? r)%Z || existsb (Z.eqb r) [0x25; 0x5c; 0x3f; 0x23])) value.

Definition admissionPrincipal (input : option scheduleAdmissionPrincipal) : option AgentRunPrincipal :=
  (fun p => mkRunPrincipal (sa_Issuer p) (sa_Subject p) (sa_DisplayName p)) <$> input.

(** ** Limits *)

Definition validPrincipalIdentity (principal : option AgentRunPrincipal) : bool :=
  match principal with
  | Some p => canonicalPrincipalIssuer (pr_Issuer p) && validPrincipalSubject (pr_Subject p)
  | None => false
  end.

(** The run's provenance names the principal. *)
Definition owned_by (principal : AgentRunPrincipal) (run : AgentRun) : bool :=
  match ru_ProfileProvenance (run_Spec run) ≫= pv_Principal with
  | Some owner => (pr_Issuer owner =? pr_Issuer principal) && (pr_Subject owner =? pr_Subject principal)
  | None => false
  end.

Definition countActiveScheduledRunsForPrincipal (runs : list AgentRun) (principal : option AgentRunPrincipal) : Z :=
  match principal with
  | Some p => if validPrincipalIdentity principal then count (fun run => IsActiveScheduledRun run && owned_by p run) runs else 0
  | None => 0
  end.

Inductive limit_error : Type := errPrincipalRequired | errInvalidParallelism.

Definition principalParallelismLimit (configuration : AgentSchedulePrincipalParallelism) (principal : option AgentRunPrincipal)
    : result limit_error Z :=
  let bad (b : bool) : result limit_error unit := if b then Err errInvalidParallelism else Ok tt in
  bad ((pa_DefaultMaxParallelism configuration <? 1)%Z || (256 <? Z.of_nat (length (pa_Overrides configuration)))%Z) |>>
  each_seen (fun seen override =>
    bad (negb (canonicalPrincipalIssuer (ov_Issuer override)) || negb (validPrincipalSubject (ov_Subject override))
         || (ov_MaxParallelism override <? 1)%Z) |>>
    bad (existsb (fun o => (ov_Issuer o =? ov_Issuer override) && (ov_Subject o =? ov_Subject override)) seen))
    [] (pa_Overrides configuration) |>>
  match principal with
  | Some p =>
      if negb (validPrincipalIdentity principal) then Err errPrincipalRequired
      else match List.find (fun o => (ov_Issuer o =? pr_Issuer p) && (ov_Subject o =? pr_Subject p)) (pa_Overrides configuration) with
      | Some override => Ok (ov_MaxParallelism override)
      | None => Ok (pa_DefaultMaxParallelism configuration)
      end
  | None => Err errPrincipalRequired
  end.

(** ** Calls *)

Inductive account_error : Type := ErrNotEnrolled | ErrNotReady | ErrNotEligible | ErrUnavailable.

Inductive get_answer : Type := Found (schedule : AgentSchedule) | NotFound | GetFailed.

Inductive update_answer : Type := Updated | Conflict | UpdateFailed.

(** The status of a [TokenReview] after its creation. *)
Record TokenReviewStatus := mkReview {
  tr_Authenticated : bool;
  tr_Error : string;
  tr_Username : string;
  tr_Audiences : list string
}.

(** [GetSchedule] and [ListRuns] are uncached reads; [GetCached] and
    [ListCached] go through the manager's cache. *)
Inductive call : Type :=
| GetSchedule (namespace name : string)
| ListRuns (namespace name : string)
| ReviewToken (token : string) (audiences : list string)
| RandRead (size : nat)
| BeginAdmission (issuer subject operation : string)
| EndAdmission (issuer subject operation : string)
| ResolveAccount (issuer subject : string)
| CreateRun (run : AgentRun)
| GetCached (namespace name : string)
| ListCached (namespace name : string)
| UpdateStatus (schedule : AgentSchedule)
| ReadClock.

Definition answer (c : call) : Type :=
  match c with
  | GetSchedule _ _ | GetCached _ _ => get_answer
  | ListRuns _ _ | ListCached _ _ => option (list AgentRun)
  | ReviewToken _ _ => option TokenReviewStatus
  | RandRead _ => option (list Z)
  | BeginAdmission _ _ _ => result account_error unit
  | EndAdmission _ _ _ => unit
  | ResolveAccount _ _ => result account_error Resolution
  | CreateRun _ => bool
  | UpdateStatus _ => update_answer
  | ReadClock => time
  end.

Record scheduleAdmissionResponse := mkAdmitResponse {
  an_Scheduled : bool;
  an_Reason : string;
  an_AgentRun : option (string * string)
}.

(** [writeScheduleAdmissionJSON]'s body: the encoder ends it with a newline. *)
#[export] Instance response_json : ToJson scheduleAdmissionResponse := fun body =>
  JObject (("scheduled", JBool (an_Scheduled body)) :: omitempty "reason" (an_Reason body)
           ++ match an_AgentRun body with
              | Some (namespace, name) => [("agentRun", JObject [("namespace", JString namespace); ("name", JString name)])]
              | None => []
              end)%list.

Definition response_text (body : scheduleAdmissionResponse) : string := json_Marshal body ++ String "010" "".

(** A response: a text, the JSON contract, or the panic of a nil pointer. *)
Inductive response : Type :=
| Text (status : Z) (message : string)
| Json (status : Z) (body : scheduleAdmissionResponse)
| Crash.

Abbreviation program := (prog answer).
Abbreviation handler := (early answer response).

(** ** Authentication *)

Definition scheduleProducerAudience : string := "nvt-operator".

Definition Authenticate (token : string) : program (option string) :=
  if token =? "" then Ret None
  else Call (ReviewToken token [scheduleProducerAudience]) (fun status =>
    match status with
    | None => Ret None
    | Some status =>
        if negb (tr_Authenticated status) || negb (tr_Error status =? "") || (tr_Username status =? "")
           || negb (mem scheduleProducerAudience (tr_Audiences status)) then Ret None
        else Ret (Some (tr_Username status))
    end).

(** ** Recording the outcome *)

Definition accepted_status (now : time) (status : AgentScheduleStatus) : AgentScheduleStatus :=
  mkScheduleStatus (su_ObservedGeneration status) (su_ActiveRuns status) (Some now) (su_LastRejectedAt status) "".

Definition rejected_status (reason : string) (now : time) (status : AgentScheduleStatus) : AgentScheduleStatus :=
  mkScheduleStatus (su_ObservedGeneration status) (su_ActiveRuns status) (su_LastAcceptedAt status) (Some now) reason.

(** [retry.DefaultRetry] makes at most five attempts. *)
Fixpoint updateAdmissionStatus (attempts : nat) (schedule : AgentSchedule) (mutate : time -> AgentScheduleStatus -> AgentScheduleStatus)
    : program unit :=
  match attempts with
  | O => Ret tt
  | S attempts =>
      Call (GetCached (om_Namespace (sched_Meta schedule)) (om_Name (sched_Meta schedule))) (fun current =>
        match current with
        | Found current =>
            Call ReadClock (fun now =>
              Call (UpdateStatus (mkAgentSchedule (sched_Meta current) (sched_Spec current) (mutate now (sched_Status current))))
                (fun outcome => match outcome with Conflict => updateAdmissionStatus attempts schedule mutate | _ => Ret tt end))
        | _ => Ret tt
        end)
  end.

Definition recordAccepted (schedule : AgentSchedule) : program unit := updateAdmissionStatus 5 schedule accepted_status.
Definition recordRejected (schedule : AgentSchedule) (reason : string) : program unit :=
  updateAdmissionStatus 5 schedule (rejected_status reason).

Definition rejection (reason : string) : scheduleAdmissionResponse := mkAdmitResponse false reason None.

(** A recorded rejection. *)
Definition reject_with {A} (schedule : AgentSchedule) (status : Z) (reason : string) : handler A :=
  let! _ := then_do (recordRejected schedule reason) in stop (Json status (rejection reason)).

(** ** The handler *)

Section Handler.
Variable env : string -> string.
Variable owner : ObjectMeta -> ObjectMeta -> result string (list OwnerReference).
Variable decode_run : option AgentRun -> json -> option AgentRun.
(** Whether the broker resolver is configured, and whether it coordinates. *)
Variable accounts : bool.
Variable coordination : bool.

(** What an admission in profiled mode knows of its caller. *)
Record caller := mkCaller {
  cl_producer : string;
  cl_workflow : option ResolvedWorkflowProfile;
  cl_principal : option AgentRunPrincipal
}.

Definition authenticate_caller (schedule : AgentSchedule) (authorization : string) (raw : list (string * json))
    (admission : scheduleAdmissionRequest) : handler caller :=
  match bearerToken authorization with
  | None => stop (Text 401 "producer authentication failed")
  | Some token =>
      let! producer := then_do (Authenticate token) in
      match producer with
      | None => stop (Text 401 "producer authentication failed")
      | Some producer =>
          when negb (validateProfiledAdmissionShape raw)
            answering (Text 400 "profiled admission accepts only work and input plus optional workflow");
          when bool_decide (is_Some (json_get raw "workflow"))
               && ((TrimSpace (sq_Workflow admission) =? "") || negb (trimmed (sq_Workflow admission)))
            answering (Text 400 "invalid workflow selection");
          match resolveWorkflowForProducer schedule producer (sq_Workflow admission) with
          | Err errProducerNotAllowed => stop (Text 403 "producer is not allowed")
          | Err errWorkflowSelectionDenied => reject_with schedule 403 "workflow-selection-denied"
          | Err _ => reject_with schedule 400 invalidExecutionProfileConfigurationReason
          | Ok workflow =>
              let principal := admissionPrincipal (sw_Principal (sq_Work admission)) in
              if ScheduleUsesPrincipalCredentials schedule && negb (producerAllowsDynamicPrincipal schedule producer principal)
              then reject_with schedule 403 "principal-not-eligible"
              else go (mkCaller producer workflow principal)
          end
      end
  end.

(** The limit of the principal's runs; 0 is no limit. *)
Definition principal_limit (schedule : AgentSchedule) (profiled : bool) (principal : option AgentRunPrincipal) : handler Z :=
  match sk_PrincipalParallelism (sched_Spec schedule) with
  | None => go 0
  | Some configuration =>
      if negb profiled then reject_with schedule 400 invalidExecutionProfileConfigurationReason
      else match principalParallelismLimit configuration principal with
      | Ok limit => go limit
      | Err errPrincipalRequired => reject_with schedule 400 "principal-required"
      | Err _ => reject_with schedule 400 invalidExecutionProfileConfigurationReason
      end
  end.

(** The checks against the runs of the schedule. *)
Definition check_capacity (schedule : AgentSchedule) (profiled : bool) (principal : option AgentRunPrincipal)
    (runs : list AgentRun) (workID workGroup : string) : handler unit :=
  if retainedWorkExists runs workID || activeWorkGroupExists runs workGroup then reject_with schedule 202 "duplicate-work"
  else if sk_Suspend (sched_Spec schedule) then reject_with schedule 202 "schedule-suspended"
  else
    let! limit := principal_limit schedule profiled principal in
    if (EffectiveMaxParallelism schedule <=? countActiveScheduledRuns runs)%Z then reject_with schedule 429 maxParallelismReachedReason
    else if (0 <? limit)%Z && (limit <=? countActiveScheduledRunsForPrincipal runs principal)%Z
    then reject_with schedule 429 principalMaxParallelismReachedReason
    else go tt.

(** [resolvePrincipalCredentialProfile] *)
Definition resolvePrincipalCredentialProfile (schedule : AgentSchedule) (principal : option AgentRunPrincipal)
    : program (result profile_error ResolvedExecutionProfile) :=
  match validateExecutionProfileSchedule schedule with
  | Err e => Ret (Err e)
  | Ok profiles =>
      match principal with
      | None => Ret (Err errPrincipalCredentialResolution)
      | Some p =>
          if negb accounts then Ret (Err errPrincipalCredentialResolution)
          else Call (ResolveAccount (pr_Issuer p) (pr_Subject p)) (fun resolution => Ret
            match resolution with
            | Ok resolution => bind_principal_profile schedule profiles resolution
            | Err ErrNotEligible => Err errPrincipalNotEligible
            | Err ErrNotEnrolled => Err errPrincipalNotEnrolled
            | Err ErrNotReady => Err errPrincipalCredentialNotReady
            | Err ErrUnavailable => Err errPrincipalCredentialResolution
            end)
      end
  end.

(** The status and the reason of a failed resolution. *)
Definition resolution_rejection (e : profile_error) : Z * string :=
  match e with
  | errExecutionProfileSelectionDenied => (403, "profile-selection-denied")
  | errPrincipalNotEnrolled => (403, "principal-not-enrolled")
  | errPrincipalNotEligible => (403, "principal-not-eligible")
  | errPrincipalCredentialNotReady => (409, "credential-not-ready")
  | errPrincipalCredentialResolution => (503, "credential-resolution-unavailable")
  | _ => (400, invalidExecutionProfileConfigurationReason)
  end.

(** The run of a profiled admission, once its profile is resolved. *)
Definition profiled_run (schedule : AgentSchedule) (who : caller) (prompt : string)
    (resolved : result profile_error ResolvedExecutionProfile) : handler AgentRun :=
  match resolved with
  | Err e => let '(status, reason) := resolution_rejection e in reject_with schedule status reason
  | Ok resolved =>
      match buildProfiledAgentRun schedule resolved (cl_producer who) (cl_principal who) (cl_workflow who) prompt with
      | Err _ => reject_with schedule 400 invalidExecutionProfileConfigurationReason
      | Ok run => go run
      end
  end.

Definition legacy_run (schedule : AgentSchedule) (admission : scheduleAdmissionRequest) : handler AgentRun :=
  match sq_AgentRun admission with
  | None => go no_run
  | Some run =>
      if bool_decide (is_Some (rr_Container (ru_Runtime (run_Spec run)))) || bool_decide (is_Some (rr_Docker (ru_Runtime (run_Spec run))))
      then let! _ := then_do (recordRejected schedule "legacy producer cannot configure profile-owned runtime controls") in
           stop (Json 400 (rejection "legacy producer cannot configure spec.runtime.container or spec.runtime.docker; use an execution profile"))
      else go (mkAgentRun (run_Type run) (run_Meta run) (run_Spec run) (run_Status run))
  end.

(** A validator's error: the reason is its text, except in profiled mode. *)
Definition checked (schedule : AgentSchedule) (profiled : bool) (r : result string unit) : handler unit :=
  match r with
  | Ok _ => go tt
  | Err e => reject_with schedule 400 (if profiled then invalidExecutionProfileConfigurationReason else e)
  end.

Definition validate_run (schedule : AgentSchedule) (profiled : bool) (run : AgentRun) : handler unit :=
  let! _ := checked schedule profiled (ValidateAgentRunRuntimeCapabilities run) in
  let! _ := checked schedule profiled (ValidateAgentRunDockerNetworks run) in
  let! _ := checked schedule profiled (ValidateAgentRunEgressMode env run) in
  let! _ := checked schedule profiled (ValidateAgentRunWorkspace run) in
  checked schedule profiled (ValidateAgentRunWorkspaceInstructions run).

Definition work_metadata (admission : scheduleAdmissionRequest) (workID workGroup : string) : scheduleAdmissionWorkMetadata :=
  mkWorkMetadata workID workGroup (sw_Title (sq_Work admission)) (sw_URL (sq_Work admission)) (sw_Repository (sq_Work admission)).

(** [PrepareScheduledAgentRun] with the randomness it draws. *)
Definition prepare (schedule : AgentSchedule) (run : AgentRun) (work : scheduleAdmissionWorkMetadata) : handler (result string AgentRun) :=
  let! random := then_do match chosen_name schedule run with
                         | inl _ => Ret None
                         | inr _ => perform (RandRead generatedNameSuffix)
                         end in
  go (PrepareScheduledAgentRun env owner schedule run work random).

(** From the built run to the response. *)
Definition create_run (schedule : AgentSchedule) (profiled : bool) (work : scheduleAdmissionWorkMetadata) (run : AgentRun)
    : handler response :=
  let run := ApplyDefaultEgressMode env run in
  let! _ := validate_run schedule profiled run in
  let! prepared := prepare schedule run work in
  match prepared with
  | Err _ => stop (Text 500 "prepare AgentRun failed")
  | Ok run =>
      match (if profiled then injectProfiledLifecycleCallback run else Ok run) with
      | Err _ => reject_with schedule 400 invalidExecutionProfileConfigurationReason
      | Ok run =>
          let! created := then_do (perform (CreateRun run)) in
          if negb created then stop (Text 500 "create AgentRun failed")
          else
            let! _ := then_do (recordAccepted schedule) in
            go (Json 201 (mkAdmitResponse true "" (Some (om_Namespace (run_Meta run), om_Name (run_Meta run)))))
      end
  end.

(** The reservation of a coordinated admission: the operation to end, or the
    error of the resolution. *)
Definition reserve (principal : AgentRunPrincipal) : program (result profile_error string) :=
  Call (RandRead 24) (fun raw =>
    match raw with
    | None => Ret (Err errPrincipalCredentialResolution)
    | Some bytes =>
        let operation := base64url bytes in
        Call (BeginAdmission (pr_Issuer principal) (pr_Subject principal) operation) (fun r => Ret
          match r with
          | Ok _ => Ok operation
          | Err ErrNotEnrolled => Err errPrincipalNotEnrolled
          | Err ErrNotEligible => Err errPrincipalNotEligible
          | Err _ => Err errPrincipalCredentialResolution
          end)
    end).

(** Everything from the capacity checks on, in profiled mode. *)
Definition admit_profiled (schedule : AgentSchedule) (who : caller) (work : scheduleAdmissionWorkMetadata) (prompt : string)
    : program response :=
  let build resolved :=
    let! run := profiled_run schedule who prompt resolved in create_run schedule true work run in
  match cl_principal who with
  | Some p =>
      if (TrimSpace (pr_Issuer p) =? "") || (TrimSpace (pr_Subject p) =? "")
      then Ret (Text 400 "principal issuer and subject are required")
      else if negb (ScheduleUsesPrincipalCredentials schedule) then finish (build (Resolve schedule (cl_principal who)))
      else if negb coordination then
        pbind (resolvePrincipalCredentialProfile schedule (cl_principal who)) (fun resolved => finish (build resolved))
      else
        pbind (reserve p) (fun reservation =>
          match reservation with
          | Err e => finish (build (Err e))
          | Ok operation =>
              pbind (pbind (resolvePrincipalCredentialProfile schedule (cl_principal who)) (fun resolved => finish (build resolved)))
                (fun r => Call (EndAdmission (pr_Issuer p) (pr_Subject p) operation) (fun _ => Ret r))
          end)
  | None =>
      if negb (ScheduleUsesPrincipalCredentials schedule) then finish (build (Resolve schedule None))
      else if coordination then Ret Crash
      else pbind (resolvePrincipalCredentialProfile schedule None) (fun resolved => finish (build resolved))
  end.

(** The part of [ServeHTTP] that runs under the schedule's lock. *)
Definition serve_locked (namespace name authorization : string) (raw : list (string * json)) (admission : scheduleAdmissionRequest)
    : handler response :=
  let! got := then_do (perform (GetSchedule namespace name)) in
  match got with
  | NotFound => stop (Text 404 "AgentSchedule not found")
  | GetFailed => stop (Text 500 "get AgentSchedule failed")
  | Found schedule =>
      let profiled := ScheduleUsesExecutionProfiles schedule in
      let! who := (if profiled then authenticate_caller schedule authorization raw admission else go (mkCaller "" None None)) in
      let workID := TrimSpace (sw_ID (sq_Work admission)) in
      let workGroup := TrimSpace (sw_Group (sq_Work admission)) in
      when workID =? "" answering (Text 400 "missing work.id");
      when negb (sw_Group (sq_Work admission) =? workGroup) || negb (workGroup =? "") && negb (validAdmissionWorkKey workGroup)
        answering (Text 400 "invalid work.group");
      let! listed := then_do (perform (ListRuns (om_Namespace (sched_Meta schedule)) (om_Name (sched_Meta schedule)))) in
      match listed with
      | None => stop (Text 500 "list scheduled AgentRuns failed")
      | Some runs =>
          let! _ := check_capacity schedule profiled (cl_principal who) runs workID workGroup in
          let work := work_metadata admission workID workGroup in
          if profiled then then_do (admit_profiled schedule who work (default "" (sq_Input admission)))
          else let! run := legacy_run schedule admission in create_run schedule false work run
      end
  end.

(** What [ServeHTTP] does before it takes the lock: an answer, or the key of
    the lock and the program to run under it. *)
Definition ServeHTTP (request : Request) : response + ((string * string) * program response) :=
  if negb (rq_Method request =? "POST") then inl (Text 405 "method not allowed")
  else match parseScheduleAdmissionPath (Path (rq_URL request)) with
  | None => inl (Text 400 "bad schedule admission path")
  | Some (namespace, name) =>
      match bounded_body (rq_Body request) ≫= decode_body decode_run with
      | None => inl (Text 400 "malformed JSON")
      | Some (raw, admission) =>
          inr ((namespace, name), finish (serve_locked namespace name (hd "" (rq_Authorization request)) raw admission))
      end
  end.
End Handler.

(** ** The reconciler of a schedule *)

Inductive reconcile_outcome : Type := Reconciled | ReconcileError.

Definition CountActiveScheduledRuns (schedule : AgentSchedule) : program (option Z) :=
  Call (ListCached (om_Namespace (sched_Meta schedule)) (om_Name (sched_Meta schedule))) (fun runs : option (list AgentRun) =>
    Ret (countActiveScheduledRuns <$> runs)).

(** [AgentScheduleReconciler.Reconcile] *)
Definition Reconcile (namespace name : string) : program reconcile_outcome :=
  Call (GetCached namespace name) (fun got =>
    match got with
    | NotFound => Ret Reconciled
    | GetFailed => Ret ReconcileError
    | Found schedule =>
        pbind (CountActiveScheduledRuns schedule) (fun active =>
          match active with
          | None => Ret ReconcileError
          | Some activeRuns =>
              let status := sched_Status schedule in
              let nextStatus := mkScheduleStatus (om_Generation (sched_Meta schedule)) activeRuns (su_LastAcceptedAt status)
                (su_LastRejectedAt status) (su_LastRejectionReason status) in
              if bool_decide (status = nextStatus) then Ret Reconciled
              else Call (UpdateStatus (mkAgentSchedule (sched_Meta schedule) (sched_Spec schedule) nextStatus)) (fun outcome =>
                     Ret (match outcome with Updated => Reconciled | _ => ReconcileError end))
          end)
    end).
