(* ===== verification/OperatorLocks.v ===== *)
(** * Concurrent admissions

    [scheduleAdmissionLocks] of agentschedule_admission.go, and the requests
    that run under it.  Every request is a goroutine; a step of the system is
    one operation of one of them on the shared state (the mutex of the table
    of locks, the table, a lock of the table, the API server), or a change the
    rest of the cluster makes.  A lock object lives in [sy_locks] and stays
    there after the table has dropped it, like the Go object some goroutine
    still points to. *)
From stdpp Require Import base list strings gmap.
From Stdlib Require Import ZArith Lia.
From S2P Require Import Prelude GoHttp Contract LocalRun Program OperatorTypes OperatorProfiles OperatorSchedule OperatorAdmission.


(** [types.NamespacedName] *)
Definition NamespacedName : Type := string * string.

(** ** The cluster *)

(** What a service has said: the status of a token it reviewed, the account of
    a principal. *)
Inductive testimony : Type :=
| Reviewed (status : TokenReviewStatus)
| Resolved (issuer subject : string) (account : Resolution).

(** The objects of the API server, and a record of what it and the account
    broker have said so far, which no code reads. *)
Record cluster := mkCluster {
  cu_schedules : gmap NamespacedName AgentSchedule;
  cu_runs : gmap NamespacedName AgentRun;
  cu_said : list testimony
}.

Definition run_key (run : AgentRun) : NamespacedName := (om_Namespace (run_Meta run), om_Name (run_Meta run)).
Definition schedule_key (schedule : AgentSchedule) : NamespacedName :=
  (om_Namespace (sched_Meta schedule), om_Name (sched_Meta schedule)).

(** The stored run: the server sets what identifies the object. *)
Definition stored_as (run stored : AgentRun) : Prop :=
  run_key stored = run_key run /\ om_Labels (run_Meta stored) = om_Labels (run_Meta run)
  /\ om_Annotations (run_Meta stored) = om_Annotations (run_Meta run) /\ run_Spec stored = run_Spec run
  /\ run_Status stored = run_Status run.

Definition with_runs (w : cluster) (runs : gmap NamespacedName AgentRun) : cluster :=
  mkCluster (cu_schedules w) runs (cu_said w).

Definition with_schedules (w : cluster) (schedules : gmap NamespacedName AgentSchedule) : cluster :=
  mkCluster schedules (cu_runs w) (cu_said w).

Definition saying (w : cluster) (t : testimony) : cluster := mkCluster (cu_schedules w) (cu_runs w) (t :: cu_said w).

(** A creation puts a new object in place. *)
Definition created (w : cluster) (run : AgentRun) (w' : cluster) : Prop :=
  cu_runs w !! run_key run = None /\ exists stored, stored_as run stored /\ w' = with_runs w (<[run_key run := stored]> (cu_runs w)).

(** A status update replaces the status of the object that is there. *)
Definition status_written (w : cluster) (schedule : AgentSchedule) (w' : cluster) : Prop :=
  exists current, cu_schedules w !! schedule_key schedule = Some current
    /\ w' = with_schedules w (<[schedule_key schedule := mkAgentSchedule (sched_Meta current) (sched_Spec current) (sched_Status schedule)]>
              (cu_schedules w)).

(** What a call can be answered and what it does.  The uncached reads see the
    objects there are; any call can fail, and a creation or an update that
    fails may have taken place. *)
Definition serves (w : cluster) (c : call) (a : answer c) (w' : cluster) : Prop :=
  match c return answer c -> Prop with
  | GetSchedule namespace name => fun a =>
      w' = w /\ match a with
                | Found schedule => cu_schedules w !! (namespace, name) = Some schedule
                | NotFound => cu_schedules w !! (namespace, name) = None
                | GetFailed => True
                end
  | ListRuns namespace name => fun a =>
      w' = w /\ match a with
                | Some runs => runs ≡ₚ List.filter (scheduled_by namespace name) (snd <$> map_to_list (cu_runs w))
                | None => True
                end
  | ReviewToken _ _ => fun a => w' = match a with Some status => saying w (Reviewed status) | None => w end
  | ResolveAccount issuer subject => fun a => w' = match a with Ok account => saying w (Resolved issuer subject account) | Err _ => w end
  | CreateRun run => fun a => if a then created w run w' else w' = w \/ created w run w'
  | UpdateStatus schedule => fun a => w' = w \/ status_written w schedule w'
  | _ => fun _ => w' = w
  end a.

(** What others do: administrators write and delete schedules ([admin] says
    which are ever written), runs progress, are deleted, or are created
    outside every schedule.  A terminal run does not become active again. *)
Definition evolves (before after : AgentRun) : Prop :=
  run_key after = run_key before /\ om_Labels (run_Meta after) = om_Labels (run_Meta before)
  /\ om_Annotations (run_Meta after) = om_Annotations (run_Meta before) /\ run_Spec after = run_Spec before
  /\ (IsActiveScheduledRun after = true -> IsActiveScheduledRun before = true).

Inductive elsewhere (admin : AgentSchedule -> Prop) (w : cluster) : cluster -> Prop :=
| schedule_written schedule : admin schedule ->
    elsewhere admin w (with_schedules w (<[schedule_key schedule := schedule]> (cu_schedules w)))
| schedule_deleted key : elsewhere admin w (with_schedules w (delete key (cu_schedules w)))
| run_progressed key before after : cu_runs w !! key = Some before -> evolves before after ->
    elsewhere admin w (with_runs w (<[key := after]> (cu_runs w)))
| run_deleted key : elsewhere admin w (with_runs w (delete key (cu_runs w)))
| run_created run : cu_runs w !! run_key run = None -> om_Labels (run_Meta run) !! scheduleLabel = None ->
    elsewhere admin w (with_runs w (<[run_key run := run]> (cu_runs w))).

(** ** Goroutines *)

Record scheduleAdmissionLock := mkLock { lk_mu : option nat; lk_refCount : Z }.

(** Where a request stands: before [l.mu.Lock()], holding [l.mu] before and
    after its reference is counted, before [lock.mu.Lock()], under the lock
    with the program left to run, after [lock.mu.Unlock()], holding [l.mu]
    before and after the reference is dropped, answered. *)
Inductive thread : Type :=
| Arrived (key : NamespacedName) (p : program response)
| Looking (key : NamespacedName) (p : program response)
| Counted (key : NamespacedName) (lock : nat) (p : program response)
| Waiting (key : NamespacedName) (lock : nat) (p : program response)
| Running (key : NamespacedName) (lock : nat) (p : program response)
| Unlocked (key : NamespacedName) (lock : nat) (r : response)
| Dropping (key : NamespacedName) (lock : nat) (r : response)
| Dropped (r : response)
| Answered (r : response).

Record system := mkSystem {
  sy_cluster : cluster;
  sy_mu : option nat;
  sy_table : gmap NamespacedName nat;
  sy_locks : list scheduleAdmissionLock;
  sy_threads : list thread
}.

Definition moved_to (s : system) (i : nat) (x : thread) : list thread := <[i := x]> (sy_threads s).

(** One operation of a goroutine. *)
Inductive moves (s : system) : system -> Prop :=
(** l.mu.Lock() *)
| move_enter i key p : sy_threads s !! i = Some (Arrived key p) -> sy_mu s = None ->
    moves s (mkSystem (sy_cluster s) (Some i) (sy_table s) (sy_locks s) (moved_to s i (Looking key p)))
(** lock := l.locks[key]; lock.refCount++ *)
| move_found i key p lock l : sy_threads s !! i = Some (Looking key p) -> sy_table s !! key = Some lock -> sy_locks s !! lock = Some l ->
    moves s (mkSystem (sy_cluster s) (sy_mu s) (sy_table s) (<[lock := mkLock (lk_mu l) (lk_refCount l + 1)]> (sy_locks s))
              (moved_to s i (Counted key lock p)))
(** lock = &scheduleAdmissionLock{}; l.locks[key] = lock; lock.refCount++ *)
| move_new i key p : sy_threads s !! i = Some (Looking key p) -> sy_table s !! key = None ->
    moves s (mkSystem (sy_cluster s) (sy_mu s) (<[key := length (sy_locks s)]> (sy_table s)) (sy_locks s ++ [mkLock None 1])
              (moved_to s i (Counted key (length (sy_locks s)) p)))
(** l.mu.Unlock() *)
| move_leave i key lock p : sy_threads s !! i = Some (Counted key lock p) ->
    moves s (mkSystem (sy_cluster s) None (sy_table s) (sy_locks s) (moved_to s i (Waiting key lock p)))
(** lock.mu.Lock() *)
| move_acquire i key lock l p : sy_threads s !! i = Some (Waiting key lock p) -> sy_locks s !! lock = Some l -> lk_mu l = None ->
    moves s (mkSystem (sy_cluster s) (sy_mu s) (sy_table s) (<[lock := mkLock (Some i) (lk_refCount l)]> (sy_locks s))
              (moved_to s i (Running key lock p)))
(** a call of the handler *)
| move_call i key lock c k a w : sy_threads s !! i = Some (Running key lock (Call c k)) -> serves (sy_cluster s) c a w ->
    moves s (mkSystem w (sy_mu s) (sy_table s) (sy_locks s) (moved_to s i (Running key lock (k a))))
(** lock.mu.Unlock() *)
| move_release i key lock l r : sy_threads s !! i = Some (Running key lock (Ret r)) -> sy_locks s !! lock = Some l ->
    moves s (mkSystem (sy_cluster s) (sy_mu s) (sy_table s) (<[lock := mkLock None (lk_refCount l)]> (sy_locks s))
              (moved_to s i (Unlocked key lock r)))
(** l.mu.Lock() *)
| move_return i key lock r : sy_threads s !! i = Some (Unlocked key lock r) -> sy_mu s = None ->
    moves s (mkSystem (sy_cluster s) (Some i) (sy_table s) (sy_locks s) (moved_to s i (Dropping key lock r)))
(** lock.refCount--; if lock.refCount == 0 { delete(l.locks, key) } *)
| move_drop i key lock l r : sy_threads s !! i = Some (Dropping key lock r) -> sy_locks s !! lock = Some l ->
    moves s (mkSystem (sy_cluster s) (sy_mu s)
              (if (lk_refCount l - 1 =? 0)%Z then delete key (sy_table s) else sy_table s)
              (<[lock := mkLock (lk_mu l) (lk_refCount l - 1)]> (sy_locks s)) (moved_to s i (Dropped r)))
(** l.mu.Unlock() *)
| move_answer i r : sy_threads s !! i = Some (Dropped r) ->
    moves s (mkSystem (sy_cluster s) None (sy_table s) (sy_locks s) (moved_to s i (Answered r))).

Section System.
Variable admin : AgentSchedule -> Prop.
(** What an incoming request runs, by its key. *)
Variable incoming : NamespacedName -> program response -> Prop.

Inductive step (s : system) : system -> Prop :=
| step_elsewhere w : elsewhere admin (sy_cluster s) w ->
    step s (mkSystem w (sy_mu s) (sy_table s) (sy_locks s) (sy_threads s))
| step_arrive key p : incoming key p ->
    step s (mkSystem (sy_cluster s) (sy_mu s) (sy_table s) (sy_locks s) (sy_threads s ++ [Arrived key p]))
| step_goroutine s' : moves s s' -> step s s'.

(** No request yet: [newScheduleAdmissionLocks()]. *)
Definition idle (w : cluster) : system := mkSystem w None ∅ [] [].

Inductive reachable (w : cluster) : system -> Prop :=
| reachable_start : reachable w (idle w)
| reachable_step s s' : reachable w s -> step s s' -> reachable w s'.
End System.

(** * The locks of concurrent admissions: the invariant

    Which goroutine holds which mutex, and that the table of locks is exactly
    the locks some goroutine refers to. *)

(** ** What a goroutine refers to and holds *)

Definition refers (t : thread) : option (NamespacedName * nat) :=
  match t with
  | Counted key lock _ | Waiting key lock _ | Running key lock _ => Some (key, lock)
  | Unlocked key lock _ | Dropping key lock _ => Some (key, lock)
  | _ => None
  end.

Definition refs (lock : nat) (t : thread) : bool := match refers t with Some (_, l) => Nat.eqb l lock | None => false end.

Definition in_table (t : thread) : bool :=
  match t with Looking _ _ | Counted _ _ _ | Dropping _ _ _ | Dropped _ => true | _ => false end.

Definition holds (t : thread) : option nat := match t with Running _ lock _ => Some lock | _ => None end.

Record lock_inv (s : system) : Prop := {
  li_mu : forall i, sy_mu s = Some i <-> exists t, sy_threads s !! i = Some t /\ in_table t = true;
  li_holder : forall id l, sy_locks s !! id = Some l ->
    forall i, lk_mu l = Some i <-> exists t, sy_threads s !! i = Some t /\ holds t = Some id;
  li_refs : forall i t key id, sy_threads s !! i = Some t -> refers t = Some (key, id) -> sy_table s !! key = Some id;
  li_count : forall id l, sy_locks s !! id = Some l -> lk_refCount l = count (refs id) (sy_threads s);
  li_table : forall key id, sy_table s !! key = Some id -> exists l, sy_locks s !! id = Some l /\ (0 < lk_refCount l)%Z;
  li_inj : forall key key' id, sy_table s !! key = Some id -> sy_table s !! key' = Some id -> key = key'
}.

Lemma refs_refers t key id : refers t = Some (key, id) -> refs id t = true.
Proof. unfold refs. intros ->. apply Nat.eqb_refl. Qed.

Lemma lock_inv_idle w : lock_inv (idle w).
Proof. split; cbn; intros; try done; try (by rewrite lookup_nil in *). split; [done|]. by intros (t & H & _). Qed.

(** ** Moving one goroutine *)

Section Move.
Context (s : system) (i : nat) (x y : thread).
Hypothesis Hx : sy_threads s !! i = Some x.

Lemma lookup_moved j : moved_to s i y !! j = if decide (i = j) then Some y else sy_threads s !! j.
Proof.
  unfold moved_to. destruct (decide (i = j)) as [->|Hne]; [|by rewrite list_lookup_insert_ne by done].
  apply list_lookup_insert_eq. by eapply lookup_lt_Some.
Qed.

(** Who satisfies [f] after the move. *)
Lemma exists_moved {B} (f : thread -> B) (b : B) j :
  (exists t, moved_to s i y !! j = Some t /\ f t = b) <->
  if decide (i = j) then f y = b else exists t, sy_threads s !! j = Some t /\ f t = b.
Proof.
  rewrite lookup_moved. destruct (decide (i = j)) as [->|Hne]; [|done].
  split; [by intros (t & [= <-] & ?)|]. intros H. by exists y.
Qed.

Lemma count_moved id : count (refs id) (moved_to s i y) =
  (count (refs id) (sy_threads s) - (if refs id x then 1 else 0) + (if refs id y then 1 else 0))%Z.
Proof. by apply count_insert. Qed.

(** The mutex of the table follows the goroutine. *)
Lemma mu_moved (I : lock_inv s) mu' :
  (in_table x = in_table y -> mu' = sy_mu s) ->
  (in_table x = false -> in_table y = true -> sy_mu s = None /\ mu' = Some i) ->
  (in_table x = true -> in_table y = false -> mu' = None) ->
  forall j, mu' = Some j <-> exists t, moved_to s i y !! j = Some t /\ in_table t = true.
Proof.
  intros Hsame Henter Hleave j. rewrite exists_moved. pose proof (li_mu s I) as Hmu.
  assert (Hi : sy_mu s = Some i <-> in_table x = true).
  { rewrite Hmu. split; [|by exists x]. intros (t & Ht & E). congruence. }
  destruct (in_table x) eqn:Ex, (in_table y) eqn:Ey.
  - rewrite (Hsame eq_refl). destruct (decide (i = j)) as [->|]; [|apply Hmu]. tauto.
  - rewrite (Hleave eq_refl eq_refl). destruct (decide (i = j)) as [->|Hne]; split; try done.
    intros Ht. apply Hmu in Ht. rewrite (proj2 Hi eq_refl) in Ht. congruence.
  - destruct (Henter eq_refl eq_refl) as [HN ->]. destruct (decide (i = j)) as [->|Hne]; [done|].
    split; [congruence|]. intros Ht. apply Hmu in Ht. congruence.
  - rewrite (Hsame eq_refl). destruct (decide (i = j)) as [->|]; [|apply Hmu].
    split; [|done]. intros H. by apply Hi in H.
Qed.
End Move.

(** A step that leaves the holders, references and the table alone. *)
Lemma lock_inv_frame s w i x y mu' : lock_inv s -> sy_threads s !! i = Some x ->
  refers x = refers y -> holds x = holds y ->
  (in_table x = in_table y -> mu' = sy_mu s) ->
  (in_table x = false -> in_table y = true -> sy_mu s = None /\ mu' = Some i) ->
  (in_table x = true -> in_table y = false -> mu' = None) ->
  lock_inv (mkSystem w mu' (sy_table s) (sy_locks s) (moved_to s i y)).
Proof.
  intros I Hx Hr Hh H1 H2 H3. split; cbn.
  - by eapply mu_moved.
  - intros id l Hl j. rewrite exists_moved by done. rewrite (li_holder s I id l Hl j).
    destruct (decide (i = j)) as [->|]; [|done]. rewrite <- Hh. split; [|by exists x].
    intros (t & Ht & E). congruence.
  - intros j t key id. rewrite (lookup_moved s i x y Hx). destruct (decide (i = j)) as [->|]; [|apply (li_refs s I)].
    intros [= <-] E. rewrite <- Hr in E. by eapply (li_refs s I).
  - intros id l Hl. rewrite (count_moved s i x y Hx). unfold refs. rewrite <- Hr.
    change (count _ (sy_threads s)) with (count (refs id) (sy_threads s)). rewrite (li_count s I id l Hl). lia.
  - apply (li_table s I).
  - apply (li_inj s I).
Qed.

(** ** The steps that change a lock *)

Lemma lookup_lock (locks : list scheduleAdmissionLock) id l l' id' : locks !! id = Some l ->
  <[id := l']> locks !! id' = if decide (id = id') then Some l' else locks !! id'.
Proof.
  intros H. destruct (decide (id = id')) as [->|]; [|by rewrite list_lookup_insert_ne by done].
  apply list_lookup_insert_eq. by eapply lookup_lt_Some.
Qed.

(** A lock's count or holder changes with the goroutine that changes it; the
    table keeps its entries. *)
Lemma lock_inv_update s i x y id l l' : lock_inv s -> sy_threads s !! i = Some x -> in_table x = in_table y ->
  sy_locks s !! id = Some l ->
  (forall id', id' <> id -> refs id' x = refs id' y /\ (holds x = Some id' <-> holds y = Some id')) ->
  (forall key id', refers y = Some (key, id') -> sy_table s !! key = Some id') ->
  lk_refCount l' = (lk_refCount l - (if refs id x then 1 else 0) + (if refs id y then 1 else 0))%Z ->
  (0 < lk_refCount l')%Z ->
  (holds y = Some id -> lk_mu l' = Some i) ->
  (holds y <> Some id -> lk_mu l' <> Some i) ->
  (forall j, j <> i -> lk_mu l' = Some j <-> lk_mu l = Some j) ->
  lock_inv (mkSystem (sy_cluster s) (sy_mu s) (sy_table s) (<[id := l']> (sy_locks s)) (moved_to s i y)).
Proof.
  intros I Hx Ht Hl Hother Hrefs Hcount Hpos Hhold Hfree Hrest. split; cbn.
  - apply (mu_moved s i x y Hx I); [done| |]; congruence.
  - intros id' l0. rewrite (lookup_lock _ id l l') by done. intros Hl0 j. rewrite exists_moved by done.
    destruct (decide (id = id')) as [<-|Hne].
    + injection Hl0 as <-. destruct (decide (i = j)) as [<-|Hij].
      * split; [|apply Hhold]. intros E. destruct (decide (holds y = Some id)); [done|]. by destruct (Hfree n).
      * rewrite (Hrest j) by congruence. apply (li_holder s I id l Hl).
    + rewrite (li_holder s I id' l0 Hl0 j). destruct (decide (i = j)) as [<-|]; [|done].
      destruct (Hother id') as [_ <-]; [congruence|]. split; [intros (t & E & ?); congruence|by exists x].
  - intros j t key id'. rewrite (lookup_moved s i x y Hx). destruct (decide (i = j)) as [<-|]; [|apply (li_refs s I)].
    intros [= <-]. apply Hrefs.
  - intros id' l0. rewrite (lookup_lock _ id l l') by done. rewrite (count_moved s i x y Hx).
    destruct (decide (id = id')) as [<-|Hne].
    + intros [= <-]. rewrite Hcount, (li_count s I id l Hl). lia.
    + intros Hl0. rewrite (li_count s I id' l0 Hl0). destruct (Hother id') as [-> _]; [congruence|]. lia.
  - intros key id' Hk. destruct (li_table s I key id' Hk) as (l0 & Hl0 & Hp). rewrite (lookup_lock _ id l l') by done.
    destruct (decide (id = id')) as [<-|]; eauto.
  - apply (li_inj s I).
Qed.

(** A new lock is in the table under the key of the goroutine that made it. *)
Lemma lock_inv_new s i key p : lock_inv s -> sy_threads s !! i = Some (Looking key p) -> sy_table s !! key = None ->
  lock_inv (mkSystem (sy_cluster s) (sy_mu s) (<[key := length (sy_locks s)]> (sy_table s)) (sy_locks s ++ [mkLock None 1])
    (moved_to s i (Counted key (length (sy_locks s)) p))).
Proof.
  intros I Hx Hk. set (n := length (sy_locks s)).
  assert (Hfresh : forall key' id, sy_table s !! key' = Some id -> id < n).
  { intros key' id H. destruct (li_table s I _ _ H) as (l & Hl & _). by eapply lookup_lt_Some. }
  assert (Hnone : forall j t, sy_threads s !! j = Some t -> refs n t = false).
  { intros j t Hj. unfold refs. destruct (refers t) as [[k id]|] eqn:E; [|done].
    apply (li_refs s I j t k id Hj) in E. apply Hfresh in E. apply Nat.eqb_neq. lia. }
  assert (Hlock : forall id l, (sy_locks s ++ [mkLock None 1]) !! id = Some l ->
    sy_locks s !! id = Some l /\ id < n \/ id = n /\ l = mkLock None 1).
  { intros id l H. apply lookup_app_Some in H as [H|[H1 H2]]; [left; split; [done|by eapply lookup_lt_Some]|right].
    apply list_lookup_singleton_Some in H2 as [? <-]. split; [|done]. subst n. lia. }
  split; cbn.
  - apply (mu_moved s i _ _ Hx I); done.
  - intros id l Hl j. rewrite exists_moved by done. destruct (Hlock _ _ Hl) as [[Hl' Hid]|[-> ->]].
    + rewrite (li_holder s I id l Hl' j). destruct (decide (i = j)) as [<-|]; [|done].
      cbn. split; [|done]. intros (t & Ht & E). rewrite Hx in Ht. by injection Ht as <-.
    + cbn. split; [done|]. destruct (decide (i = j)) as [<-|]; [done|]. intros (t & Ht & E).
      specialize (Hnone j t Ht). destruct t; try done. cbn in E. injection E as ->. unfold refs in Hnone. cbn in Hnone.
      by rewrite Nat.eqb_refl in Hnone.
  - intros j t k id. rewrite (lookup_moved s i _ _ Hx). destruct (decide (i = j)) as [<-|].
    + intros [= <-] [= <- <-]. by simplify_map_eq.
    + intros Hj E. pose proof (li_refs s I j t k id Hj E) as Ht. rewrite lookup_insert_ne; [done|]. by intros ->; rewrite Hk in Ht.
  - intros id l Hl. rewrite (count_moved s i _ _ Hx). unfold refs at 2 3. cbn [refers].
    destruct (Hlock _ _ Hl) as [[Hl' Hid]|[-> ->]].
    + rewrite (li_count s I id l Hl'). destruct (Nat.eqb_spec n id); [lia|]. lia.
    + rewrite Nat.eqb_refl. cbn [lk_refCount]. enough (count (refs n) (sy_threads s) = 0%Z) by lia.
      destruct (Z.lt_trichotomy 0 (count (refs n) (sy_threads s))) as [H|[H|H]]; [|done|pose proof (count_nonneg (refs n) (sy_threads s)); lia].
      apply count_some in H as (j & t & Hj & E). by rewrite (Hnone j t Hj) in E.
  - intros k id H. apply lookup_insert_Some in H as [[-> <-]|[_ H]].
    + exists (mkLock None 1). split; [|done]. by apply list_lookup_middle.
    + destruct (li_table s I k id H) as (l & Hl & Hp). exists l. split; [|done]. by apply lookup_app_l_Some.
  - intros k k' id H H'. apply lookup_insert_Some in H as [[<- <-]|[Hne H]]; apply lookup_insert_Some in H' as [[E E']|[Hne' H']]; try done.
    + apply Hfresh in H'. lia.
    + apply Hfresh in H. lia.
    + by eapply (li_inj s I).
Qed.

(** The last reference gone, the table forgets the lock. *)
Lemma lock_inv_drop s i key id l r : lock_inv s -> sy_threads s !! i = Some (Dropping key id r) -> sy_locks s !! id = Some l ->
  lk_refCount l = 1%Z ->
  lock_inv (mkSystem (sy_cluster s) (sy_mu s) (delete key (sy_table s)) (<[id := mkLock (lk_mu l) 0]> (sy_locks s)) (moved_to s i (Dropped r))).
Proof.
  intros I Hx Hl Hone. pose proof (li_refs s I i _ key id Hx eq_refl) as Hkey.
  assert (Honly : forall j t, sy_threads s !! j = Some t -> j <> i -> refs id t = false).
  { intros j t Hj Hne. destruct (refs id t) eqn:E; [|done].
    pose proof (count_two (refs id) (sy_threads s) i j _ t Hx Hj (not_eq_sym Hne) (Nat.eqb_refl id) E).
    rewrite <- (li_count s I id l Hl) in H. lia. }
  split; cbn.
  - apply (mu_moved s i _ _ Hx I); done.
  - intros id' l0. rewrite (lookup_lock _ id l _) by done. intros Hl0 j. rewrite exists_moved by done.
    assert (Hmu : forall l1, sy_locks s !! id' = Some l1 -> lk_mu l1 = Some j <->
      if decide (i = j) then holds (Dropped r) = Some id' else exists t, sy_threads s !! j = Some t /\ holds t = Some id').
    { intros l1 Hl1. rewrite (li_holder s I id' l1 Hl1 j). destruct (decide (i = j)) as [<-|]; [|done]. cbn.
      split; [|done]. intros (t & Ht & E). rewrite Hx in Ht. by injection Ht as <-. }
    destruct (decide (id = id')) as [<-|Hne]; [injection Hl0 as <-; cbn|]; by apply Hmu.
  - intros j t k id'. rewrite (lookup_moved s i _ _ Hx). destruct (decide (i = j)) as [<-|Hne]; [by intros [= <-]|].
    intros Hj E. pose proof (li_refs s I j t k id' Hj E) as Ht. rewrite lookup_delete_ne; [done|].
    intros <-. rewrite Hkey in Ht. injection Ht as <-. pose proof (Honly j t Hj (not_eq_sym Hne)) as Hf.
    by rewrite (refs_refers t key id E) in Hf.
  - intros id' l0. rewrite (lookup_lock _ id l _) by done. rewrite (count_moved s i _ _ Hx). unfold refs at 2 3. cbn [refers].
    destruct (decide (id = id')) as [<-|Hne].
    + intros [= <-]. rewrite <- (li_count s I id l Hl), Nat.eqb_refl. cbn [lk_refCount]. lia.
    + intros Hl0. rewrite (li_count s I id' l0 Hl0). destruct (Nat.eqb_spec id id'); [done|]. lia.
  - intros k id' H. apply lookup_delete_Some in H as [Hne H]. destruct (li_table s I k id' H) as (l0 & Hl0 & Hp).
    rewrite (lookup_lock _ id l _) by done. destruct (decide (id = id')) as [<-|]; [|eauto].
    destruct Hne. by eapply (li_inj s I).
  - intros k k' id' H H'. apply lookup_delete_Some in H as [_ H]. apply lookup_delete_Some in H' as [_ H']. by eapply (li_inj s I).
Qed.

Lemma lock_inv_arrive s key p : lock_inv s ->
  lock_inv (mkSystem (sy_cluster s) (sy_mu s) (sy_table s) (sy_locks s) (sy_threads s ++ [Arrived key p])).
Proof.
  intros I. assert (Hin : forall {B} (f : thread -> B) b j, f (Arrived key p) <> b ->
    (exists t, (sy_threads s ++ [Arrived key p]) !! j = Some t /\ f t = b) <-> exists t, sy_threads s !! j = Some t /\ f t = b).
  { intros B f b j Hne. split; intros (t & Ht & E); exists t; (split; [|done]).
    - apply lookup_app_Some in Ht as [Ht|[_ Ht]]; [done|]. apply list_lookup_singleton_Some in Ht as [_ <-]. done.
    - by apply lookup_app_l_Some. }
  split; cbn.
  - intros j. rewrite Hin by done. apply (li_mu s I).
  - intros id l Hl j. rewrite Hin by done. by apply (li_holder s I).
  - intros j t k id Hj E. apply lookup_app_Some in Hj as [Hj|[_ Hj]]; [by eapply (li_refs s I)|].
    apply list_lookup_singleton_Some in Hj as [_ <-]. done.
  - intros id l Hl. rewrite count_app, (li_count s I id l Hl). change (count (refs id) [Arrived key p]) with 0%Z. lia.
  - apply (li_table s I).
  - apply (li_inj s I).
Qed.

Lemma lock_inv_moves s s' : lock_inv s -> moves s s' -> lock_inv s'.
Proof.
  intros I H. destruct H as [i key p Hi Hm|i key p id l Hi Ht Hl|i key p Hi Ht|i key id p Hi|i key id l p Hi Hl Hf
    |i key id c k a w Hi Hs|i key id l r Hi Hl|i key id r Hi Hm|i key id l r Hi Hl|i r Hi].
  - by apply (lock_inv_frame s _ i _ _ _ I Hi).
  - pose proof (li_count s I id l Hl) as Hc. pose proof (count_nonneg (refs id) (sy_threads s)).
    apply (lock_inv_update s i _ _ id l _ I Hi); try done; cbn.
    + intros id' Hne. unfold refs. cbn. split; [|done]. symmetry. by apply Nat.eqb_neq.
    + by intros key' id' [= <- <-].
    + unfold refs. cbn. rewrite Nat.eqb_refl. lia.
    + lia.
    + intros _ E. apply (li_holder s I id l Hl) in E as (t & Ht' & E). rewrite Hi in Ht'. by injection Ht' as <-.
  - by apply lock_inv_new.
  - by apply (lock_inv_frame s _ i _ _ _ I Hi).
  - pose proof (li_count s I id l Hl) as Hc. pose proof (count_one (refs id) _ i _ Hi (Nat.eqb_refl id)).
    apply (lock_inv_update s i _ _ id l _ I Hi); try done; cbn.
    + intros id' Hne. split; [done|]. split; [done|congruence].
    + intros key' id' [= <- <-]. by apply (li_refs s I i _ key id Hi).
    + unfold refs. cbn. lia.
    + lia.
    + intros j Hne. rewrite Hf. split; [congruence|done].
  - by apply (lock_inv_frame s w i _ _ _ I Hi).
  - pose proof (li_count s I id l Hl) as Hc. pose proof (count_one (refs id) _ i _ Hi (Nat.eqb_refl id)).
    apply (lock_inv_update s i _ _ id l _ I Hi); try done; cbn.
    + intros id' Hne. split; [done|]. split; [congruence|done].
    + intros key' id' [= <- <-]. by apply (li_refs s I i _ key id Hi).
    + unfold refs. cbn. lia.
    + lia.
    + intros j Hne. split; [done|]. intros E. apply (li_holder s I id l Hl) in E as E'. destruct E' as (t & Hj & _).
      assert (Some i = Some j); [|congruence]. rewrite <- E. symmetry. apply (li_holder s I id l Hl). eauto.
  - by apply (lock_inv_frame s _ i _ _ _ I Hi).
  - pose proof (li_count s I id l Hl) as Hc. pose proof (count_one (refs id) _ i _ Hi (Nat.eqb_refl id)).
    destruct (Z.eqb_spec (lk_refCount l - 1) 0) as [E|E].
    + rewrite E. apply (lock_inv_drop s i key id l r I Hi Hl). lia.
    + apply (lock_inv_update s i _ _ id l _ I Hi); try done; cbn.
      * intros id' Hne. unfold refs. cbn. split; [|done]. by apply Nat.eqb_neq.
      * unfold refs. cbn. rewrite Nat.eqb_refl. lia.
      * lia.
      * intros _ E'. apply (li_holder s I id l Hl) in E' as (t & Ht' & E'). rewrite Hi in Ht'. by injection Ht' as <-.
  - by apply (lock_inv_frame s _ i _ _ _ I Hi).
Qed.

Section Reachable.
Context (admin : AgentSchedule -> Prop) (incoming : NamespacedName -> program response -> Prop).

Lemma lock_inv_step s s' : lock_inv s -> step admin incoming s s' -> lock_inv s'.
Proof.
  intros I H. destruct H as [w Hw|key p Hp|s' H]; [destruct I; by split|by apply lock_inv_arrive|by eapply lock_inv_moves].
Qed.

Lemma reachable_locks w s : reachable admin incoming w s -> lock_inv s.
Proof. induction 1; [apply lock_inv_idle|by eapply lock_inv_step]. Qed.
End Reachable.

(** One goroutine at a time runs under the lock of a key. *)
Lemma running_alone s i j key id id' p q : lock_inv s -> sy_threads s !! i = Some (Running key id p) ->
  sy_threads s !! j = Some (Running key id' q) -> i = j.
Proof.
  intros I Hi Hj. pose proof (li_refs s I i _ key id Hi eq_refl) as Ht.
  pose proof (li_refs s I j _ key id' Hj eq_refl) as Ht'. rewrite Ht in Ht'. injection Ht' as <-.
  destruct (li_table s I key id Ht) as (l & Hl & _).
  assert (lk_mu l = Some i) by (apply (li_holder s I id l Hl); eauto).
  assert (lk_mu l = Some j) by (apply (li_holder s I id l Hl); eauto). congruence.
Qed.

(** * Every admission is answered

    The goroutines of the system need no luck: whichever of them moves, and
    whatever the servers answer, after finitely many moves every request has
    its answer and every lock is gone. *)

(** ** No infinite sequence of moves *)

(** What a goroutine can become by its own move. *)
Definition follows (y x : thread) : Prop :=
  match x with
  | Arrived key p => y = Looking key p
  | Looking key p => exists lock, y = Counted key lock p
  | Counted key lock p => y = Waiting key lock p
  | Waiting key lock p => y = Running key lock p
  | Running key lock (Ret r) => y = Unlocked key lock r
  | Running key lock (Call c k) => exists a, y = Running key lock (k a)
  | Unlocked key lock r => y = Dropping key lock r
  | Dropping _ _ r => y = Dropped r
  | Dropped r => y = Answered r
  | Answered _ => False
  end.

Lemma follows_acc x : Acc follows x.
Proof.
  assert (H1 : forall r, Acc follows (Answered r)) by (intros r; constructor; intros y []).
  assert (H2 : forall r, Acc follows (Dropped r)) by (intros r; constructor; by intros y ->).
  assert (H3 : forall key lock r, Acc follows (Dropping key lock r)) by (intros key lock r; constructor; by intros y ->).
  assert (H4 : forall key lock r, Acc follows (Unlocked key lock r)) by (intros key lock r; constructor; by intros y ->).
  assert (H5 : forall key lock p, Acc follows (Running key lock p)).
  { intros key lock p. induction p as [r|c k IH]; constructor; [by intros y ->|]. by intros y [a ->]. }
  assert (H6 : forall key lock p, Acc follows (Waiting key lock p)) by (intros key lock p; constructor; by intros y ->).
  assert (H7 : forall key lock p, Acc follows (Counted key lock p)) by (intros key lock p; constructor; by intros y ->).
  assert (H8 : forall key p, Acc follows (Looking key p)) by (intros key p; constructor; by intros y [lock ->]).
  destruct x; [|solve [auto]..]. constructor. intros y ->. apply H8.
Qed.

(** One element of a list moves. *)
Definition one_moves (l' l : list thread) : Prop := exists i x y, l !! i = Some x /\ l' = <[i := y]> l /\ follows y x.

Lemma one_moves_acc l : Acc one_moves l.
Proof.
  induction l as [|x l IH]; [constructor; intros l' (i & x & y & H & _); by destruct i|].
  induction (follows_acc x) as [x _ IHx] in l, IH |- *. induction IH as [l Hl IHl].
  constructor. intros l' ([|i] & z & y & Hi & -> & Hf).
  - injection Hi as ->. apply (IHx y Hf). by constructor.
  - apply IHl. exists i, z, y. by split.
Qed.

Lemma moves_one s s' : moves s s' -> one_moves (sy_threads s') (sy_threads s).
Proof. destruct 1; cbn; (eexists i, _, _; split; [eassumption|]; split; [reflexivity|]; cbn; eauto). Qed.

Lemma moves_acc s : Acc (fun s' s => moves s s') s.
Proof.
  remember (sy_threads s) as l eqn:E. revert s E. induction (one_moves_acc l) as [l _ IH]. intros s ->.
  constructor. intros s' H. apply (IH (sy_threads s')); [by apply moves_one|done].
Qed.

(** ** A goroutine can always move *)

Lemma serves_total w c : exists a w', serves w c a w'.
Proof.
  destruct c; cbn.
  - by exists GetFailed, w.
  - by exists None, w.
  - by exists None, w.
  - by exists None, w.
  - by exists (Err ErrUnavailable), w.
  - by exists tt, w.
  - by exists (Err ErrUnavailable), w.
  - exists false, w. by left.
  - by exists GetFailed, w.
  - by exists None, w.
  - exists UpdateFailed, w. by left.
  - by exists 0%Z, w.
Qed.

Definition answered (t : thread) : Prop := exists r, t = Answered r.

(** The holder of the table's mutex can go on, and so can the holder of a
    lock. *)
Lemma table_holder_moves s i t : lock_inv s -> sy_threads s !! i = Some t -> in_table t = true -> exists s', moves s s'.
Proof.
  intros I Hi Ht. destruct t as [| key p|key lock p| | | |key lock r|r|]; try done.
  - destruct (sy_table s !! key) as [lock|] eqn:E; [|eexists; by eapply move_new].
    destruct (li_table s I key lock E) as (l & Hl & _). eexists. by eapply move_found.
  - eexists. by eapply move_leave.
  - destruct (li_table s I key lock (li_refs s I i _ key lock Hi eq_refl)) as (l & Hl & _). eexists. by eapply move_drop.
  - eexists. by eapply move_answer.
Qed.

Lemma lock_holder_moves s i key lock p : lock_inv s -> sy_threads s !! i = Some (Running key lock p) -> exists s', moves s s'.
Proof.
  intros I Hi. destruct p as [r|c k].
  - destruct (li_table s I key lock (li_refs s I i _ key lock Hi eq_refl)) as (l & Hl & _). eexists. by eapply move_release.
  - destruct (serves_total (sy_cluster s) c) as (a & w' & Hs). eexists. by eapply move_call.
Qed.

Lemma unanswered_moves s i t : lock_inv s -> sy_threads s !! i = Some t -> ~ answered t -> exists s', moves s s'.
Proof.
  intros I Hi Hn. destruct (sy_mu s) as [j|] eqn:Emu.
  - apply (li_mu s I) in Emu as (t' & Hj & Ht). by eapply table_holder_moves.
  - destruct t as [key p|key p|key lock p|key lock p|key lock p|key lock r|key lock r|r|r].
    + eexists. by eapply move_enter.
    + by eapply table_holder_moves.
    + by eapply table_holder_moves.
    + destruct (li_table s I key lock (li_refs s I i _ key lock Hi eq_refl)) as (l & Hl & _).
      destruct (lk_mu l) as [j|] eqn:Em; [|eexists; by eapply move_acquire].
      apply (li_holder s I lock l Hl) in Em as (t' & Hj & Ht). destruct t'; try done. by eapply lock_holder_moves.
    + by eapply lock_holder_moves.
    + eexists. by eapply move_return.
    + by eapply table_holder_moves.
    + by eapply table_holder_moves.
    + destruct Hn. by exists r.
Qed.

(** ** On every path *)

(** Every sequence of moves that goes on as long as it can reaches [Q]. *)
Inductive inevitable (Q : system -> Prop) (s : system) : Prop :=
| inevitable_now : Q s -> inevitable Q s
| inevitable_later s1 : moves s s1 -> (forall s', moves s s' -> inevitable Q s') -> inevitable Q s.

(** All requests answered, no mutex held and no lock left. *)
Definition quiescent (s : system) : Prop :=
  (forall i t, sy_threads s !! i = Some t -> answered t) /\ sy_mu s = None /\ sy_table s = ∅.

Lemma answered_quiescent s : lock_inv s -> (forall i t, sy_threads s !! i = Some t -> answered t) -> quiescent s.
Proof.
  intros I H. split; [done|]. split.
  - destruct (sy_mu s) as [i|] eqn:E; [|done]. apply (li_mu s I) in E as (t & Ht & Hin). by destruct (H i t Ht) as [r ->].
  - apply map_empty. intros key. destruct (sy_table s !! key) as [lock|] eqn:E; [|done].
    destruct (li_table s I key lock E) as (l & Hl & Hp). rewrite (li_count s I lock l Hl) in Hp.
    apply count_some in Hp as (i & t & Hi & Hr). by destruct (H i t Hi) as [r ->].
Qed.

Lemma all_answered_dec (l : list thread) :
  (forall i t, l !! i = Some t -> answered t) \/ exists i t, l !! i = Some t /\ ~ answered t.
Proof.
  induction l as [|x l [IH|(i & t & Hi & Ht)]]; [by left| |right; by exists (S i), t].
  destruct x as [| | | | | | | |r]; [right; eexists 0, _; split; [reflexivity|]; intros [? H]; discriminate H..|].
  left. intros [|i] t; [|apply IH]. intros [= <-]. by exists r.
Qed.

Lemma moves_inevitable s : lock_inv s -> inevitable quiescent s.
Proof.
  induction (moves_acc s) as [s _ IH]. intros I. destruct (all_answered_dec (sy_threads s)) as [H|(i & t & Hi & Ht)].
  - by apply inevitable_now, answered_quiescent.
  - destruct (unanswered_moves s i t I Hi Ht) as [s1 H1]. apply (inevitable_later _ _ s1 H1).
    intros s' H. apply IH; [done|]. by eapply lock_inv_moves.
Qed.
