(* ===== verification/OperatorProps.v ===== *)
(** * What an admission may do

    The weakest preconditions of the handler's parts, over any ghost state
    that only the calls of the main line advance, and two instances of them:
    what an admission knows when it creates a run, and the reservations it
    holds. *)
From stdpp Require Import base list strings gmap.
From Stdlib Require Import ZArith Lia.
From S2P Require Import Prelude GoStrings GoJson GoHttp GoEncoding Contract Validation LocalRun Program OperatorTypes OperatorPolicy OperatorProfiles OperatorSchedule OperatorAdmission OperatorLocks.


Local Open Scope string_scope.

(** Calls that record the outcome or draw randomness. *)
Definition background (c : call) : bool :=
  match c with
  | GetCached _ _ | ListCached _ _ | UpdateStatus _ | ReadClock | RandRead _ => true
  | _ => false
  end.

(** An answer that creates nothing, other than the 202 of a duplicate or of a
    suspended schedule. *)
Definition refusal (r : response) : bool :=
  match r with
  | Text status _ | Json status _ => negb (status =? 201)%Z && negb (status =? 202)%Z
  | Crash => false
  end.

Section Parts.
Context {G : Type} (legit : forall c, answer c -> Prop) (ok : G -> call -> Prop) (next : G -> forall c, answer c -> G).
Hypothesis Hbackground : forall g c r, background c = true -> ok g c /\ next g c r = g.
(** What is to hold when the request is answered. *)
Variable Q : G -> response -> Prop.

(** Every refusal is a good answer in this ghost state. *)
Definition refuses (g : G) : Prop := forall r, refusal r = true -> Q g r.

Abbreviation safe := (safe legit ok next).

Lemma safe_background {A} (Q' : G -> A -> Prop) g c k : background c = true ->
  (forall r, safe Q' g (k r)) -> safe Q' g (Call c k).
Proof.
  intros Hc Hk. cbn. split.
  - destruct c; try discriminate Hc; cbn in *.
    + apply (Hbackground g (RandRead size) None); done.
    + apply (Hbackground g (GetCached namespace name) NotFound); done.
    + apply (Hbackground g (ListCached namespace name) None); done.
    + apply (Hbackground g (UpdateStatus schedule) Updated); done.
    + apply (Hbackground g ReadClock 0%Z); done.
  - intros r _. destruct (Hbackground g c r Hc) as [_ ->]. apply Hk.
Qed.

Lemma updateAdmissionStatus_safe (Q' : G -> unit -> Prop) g n schedule mutate : Q' g tt ->
  safe Q' g (updateAdmissionStatus n schedule mutate).
Proof.
  intros HQ. induction n as [|n IH]; cbn [updateAdmissionStatus]; [done|]. apply safe_background; [done|].
  intros [current| |]; [|done..]. do 2 (apply safe_background; [done|intros ?]). by destruct r0.
Qed.

Lemma reject_with_safe {A} (P : G -> A -> Prop) g schedule status reason : Q g (Json status (rejection reason)) ->
  safe (answers Q P) g (reject_with schedule status reason).
Proof. intros HQ. by apply safe_ebind, safe_then_do, updateAdmissionStatus_safe. Qed.

Lemma checked_safe (P : G -> unit -> Prop) g schedule profiled r : refuses g -> (r = Ok tt -> P g tt) ->
  safe (answers Q P) g (checked schedule profiled r).
Proof. intros HF HP. destruct r as [[]|e]; [by apply HP|by apply reject_with_safe, HF]. Qed.

Lemma validate_run_safe (P : G -> unit -> Prop) env g schedule profiled run : refuses g -> P g tt ->
  safe (answers Q P) g (validate_run env schedule profiled run).
Proof. intros HF HP. do 4 (apply safe_ebind, checked_safe; [done|intros _]). by apply checked_safe. Qed.

Lemma prepare_safe (P : G -> result string AgentRun -> Prop) env owner g schedule run work :
  (forall random, P g (PrepareScheduledAgentRun env owner schedule run work random)) ->
  safe (answers Q P) g (prepare env owner schedule run work).
Proof.
  intros HP. apply safe_ebind, safe_then_do. destruct (chosen_name schedule run); [apply HP|].
  apply safe_background; [done|]. intros r. apply HP.
Qed.

(** The creation is the only call of [create_run] that is not in the
    background. *)
Lemma create_run_safe env owner g schedule (profiled : bool) work run : refuses g ->
  (forall (random : option (list Z)) (run1 run2 : AgentRun), PrepareScheduledAgentRun env owner schedule (ApplyDefaultEgressMode env run) work random = Ok run1 ->
     (if profiled then injectProfiledLifecycleCallback run1 else Ok run1) = Ok run2 ->
     ok g (CreateRun run2)
     /\ Q (next g (CreateRun run2) true) (Json 201 (mkAdmitResponse true "" (Some (om_Namespace (run_Meta run2), om_Name (run_Meta run2)))))
     /\ Q (next g (CreateRun run2) false) (Text 500 "create AgentRun failed")) ->
  safe (answers Q Q) g (create_run env owner schedule profiled work run).
Proof.
  intros HF Hcreate. unfold create_run. apply safe_ebind, validate_run_safe; [done|].
  apply safe_ebind, prepare_safe. intros random.
  destruct (PrepareScheduledAgentRun _ _ _ _ _ _) as [run1|e] eqn:E1; [|by apply HF].
  destruct (if profiled then _ else _) as [run2|e] eqn:E2; [|by apply reject_with_safe, HF].
  destruct (Hcreate random run1 run2 E1 E2) as (Hok & Htrue & Hfalse).
  apply safe_ebind, safe_then_do. split; [exact Hok|]. intros b _. cbn [Program.safe]. destruct b; cbn [negb].
  - by apply safe_ebind, safe_then_do, updateAdmissionStatus_safe.
  - done.
Qed.

Lemma profiled_run_safe (P : G -> AgentRun -> Prop) g schedule who prompt resolved : refuses g ->
  (forall profile run, resolved = Ok profile ->
     buildProfiledAgentRun schedule profile (cl_producer who) (cl_principal who) (cl_workflow who) prompt = Ok run -> P g run) ->
  safe (answers Q P) g (profiled_run schedule who prompt resolved).
Proof.
  intros HF HP. unfold profiled_run. destruct resolved as [profile|e].
  - destruct (buildProfiledAgentRun _ _ _ _ _ _) as [run|e] eqn:E; [by eapply HP|by apply reject_with_safe, HF].
  - by destruct e; apply reject_with_safe, HF.
Qed.

Lemma legacy_run_safe (P : G -> AgentRun -> Prop) g schedule admission : refuses g -> (forall run, P g run) ->
  safe (answers Q P) g (legacy_run schedule admission).
Proof.
  intros HF HP. unfold legacy_run. destruct (sq_AgentRun admission) as [run|]; [|apply HP].
  destruct (_ || _); [|apply HP]. by apply safe_ebind, safe_then_do, updateAdmissionStatus_safe, HF.
Qed.

(** The profile an account selects comes from what the broker says of the
    principal's account. *)
Lemma resolvePrincipal_safe (Q' : G -> result profile_error ResolvedExecutionProfile -> Prop) accounts g schedule principal :
  (forall issuer subject, ok g (ResolveAccount issuer subject)) -> (forall e, Q' g (Err e)) ->
  (forall issuer subject a e, Q' (next g (ResolveAccount issuer subject) a) (Err e)) ->
  (forall p account profiles, principal = Some p -> validateExecutionProfileSchedule schedule = Ok profiles ->
     Q' (next g (ResolveAccount (pr_Issuer p) (pr_Subject p)) (Ok account)) (bind_principal_profile schedule profiles account)) ->
  safe Q' g (resolvePrincipalCredentialProfile accounts schedule principal).
Proof.
  intros Hok Herr Hfail HQ. unfold resolvePrincipalCredentialProfile. destruct (validateExecutionProfileSchedule schedule) eqn:E; [|apply Herr].
  destruct principal as [p|]; [|apply Herr]. destruct accounts; [|apply Herr]. split; [apply Hok|].
  intros [account|[]] _; [by apply HQ|apply Hfail..].
Qed.

(** A review that authenticates its user for this audience. *)
Definition authenticates (status : TokenReviewStatus) : bool :=
  tr_Authenticated status && (tr_Error status =? "") && negb (tr_Username status =? "")
  && mem scheduleProducerAudience (tr_Audiences status).

Lemma Authenticate_safe (Q' : G -> option string -> Prop) g token : Q' g None ->
  ok g (ReviewToken token [scheduleProducerAudience]) ->
  (forall status, Q' (next g (ReviewToken token [scheduleProducerAudience]) status) None) ->
  (forall status, authenticates status = true ->
     Q' (next g (ReviewToken token [scheduleProducerAudience]) (Some status)) (Some (tr_Username status))) ->
  safe Q' g (Authenticate token).
Proof.
  intros HN Hok HQ HS. unfold Authenticate. destruct (token =? ""); [done|]. split; [done|].
  intros [status|] _; [|apply HQ]. destruct (_ || _) eqn:E; [apply HQ|]. apply HS. unfold authenticates. revert E.
  by destruct (tr_Authenticated status), (tr_Error status =? ""), (tr_Username status =? ""), (mem _ _).
Qed.

Lemma authenticate_caller_safe (P : G -> caller -> Prop) g schedule authorization raw admission : refuses g ->
  (forall token, ok g (ReviewToken token [scheduleProducerAudience])) ->
  (forall token status, refuses (next g (ReviewToken token [scheduleProducerAudience]) status)) ->
  (forall token status who, authenticates status = true -> tr_Username status = cl_producer who ->
     resolveWorkflowForProducer schedule (cl_producer who) (sq_Workflow admission) = Ok (cl_workflow who) ->
     (ScheduleUsesPrincipalCredentials schedule = true ->
      producerAllowsDynamicPrincipal schedule (cl_producer who) (cl_principal who) = true) ->
     P (next g (ReviewToken token [scheduleProducerAudience]) (Some status)) who) ->
  safe (answers Q P) g (authenticate_caller schedule authorization raw admission).
Proof.
  intros HF Hok HF' HP. unfold authenticate_caller.
  destruct (bearerToken authorization) as [token|]; [|by apply HF].
  apply safe_ebind, safe_then_do, Authenticate_safe; [by apply HF|apply Hok|intros status; by apply HF'|].
  intros status Ha. specialize (HF' token (Some status)). clear HF. rename HF' into HF.
  destruct (negb (validateProfiledAdmissionShape raw)); [by apply HF|].
  destruct (bool_decide _ && _); [by apply HF|].
  destruct (resolveWorkflowForProducer _ _ _) as [workflow|e] eqn:Ew.
  - destruct (ScheduleUsesPrincipalCredentials schedule) eqn:Ep, (producerAllowsDynamicPrincipal _ _ _) eqn:Ea'; cbn [andb negb];
      try (by apply reject_with_safe, HF); by apply HP.
  - destruct e; first [by apply reject_with_safe, HF | by apply HF].
Qed.

Lemma check_capacity_safe (P : G -> unit -> Prop) g schedule profiled principal runs workID workGroup : refuses g ->
  (retainedWorkExists runs workID || activeWorkGroupExists runs workGroup = true -> Q g (Json 202 (rejection "duplicate-work"))) ->
  (sk_Suspend (sched_Spec schedule) = true -> Q g (Json 202 (rejection "schedule-suspended"))) ->
  (forall limit, retainedWorkExists runs workID = false -> activeWorkGroupExists runs workGroup = false ->
     sk_Suspend (sched_Spec schedule) = false -> (countActiveScheduledRuns runs < EffectiveMaxParallelism schedule)%Z ->
     match sk_PrincipalParallelism (sched_Spec schedule) with
     | None => limit = 0%Z
     | Some configuration => profiled = true /\ principalParallelismLimit configuration principal = Ok limit
     end ->
     ((0 < limit)%Z -> (countActiveScheduledRunsForPrincipal runs principal < limit)%Z) -> P g tt) ->
  safe (answers Q P) g (check_capacity schedule profiled principal runs workID workGroup).
Proof.
  intros HF Hdup Hsus HP. unfold check_capacity. destruct (_ || _) eqn:Ed; [by apply reject_with_safe, Hdup|].
  apply orb_false_iff in Ed as [Er Eg]. destruct (sk_Suspend _) eqn:Es; [by apply reject_with_safe, Hsus|].
  apply safe_ebind. assert (Hrest : forall limit,
    match sk_PrincipalParallelism (sched_Spec schedule) with
    | None => limit = 0%Z
    | Some configuration => profiled = true /\ principalParallelismLimit configuration principal = Ok limit
    end -> safe (answers Q P) g
      (if (EffectiveMaxParallelism schedule <=? countActiveScheduledRuns runs)%Z
       then reject_with schedule 429 maxParallelismReachedReason
       else if (0 <? limit)%Z && (limit <=? countActiveScheduledRunsForPrincipal runs principal)%Z
            then reject_with schedule 429 principalMaxParallelismReachedReason else go tt)).
  { intros limit Hl. destruct (Z.leb_spec (EffectiveMaxParallelism schedule) (countActiveScheduledRuns runs)); [by apply reject_with_safe, HF|].
    destruct (_ && _) eqn:El; [by apply reject_with_safe, HF|]. apply (HP limit); try done.
    intros Hpos. apply andb_false_iff in El as [El|El]; bool_prop; lia. }
  unfold principal_limit. destruct (sk_PrincipalParallelism (sched_Spec schedule)) as [configuration|]; [|by apply (Hrest 0%Z)].
  destruct profiled; cbn [negb]; [|by apply reject_with_safe, HF].
  destruct (principalParallelismLimit configuration principal) as [limit|[]] eqn:El; try by apply reject_with_safe, HF.
  by apply (Hrest limit).
Qed.
End Parts.

(** Answered without a crash, in a ghost state that satisfies [F]. *)
Definition done_in {G} (F : G -> Prop) (g : G) (r : response) : Prop := F g /\ r <> Crash.

Lemma done_refuses {G} (F : G -> Prop) g : F g -> refuses (done_in F) g.
Proof. intros HF r Hr. split; [done|]. by intros ->. Qed.

(** * What an admission knows when it creates a run

    The ghost state of an admission: the schedule it read, the producer its
    token review named, the runs it listed, and whether it has created.  Every
    creation the handler can make is [admitted] by that knowledge. *)

Local Open Scope go_scope.
Local Open Scope string_scope.

(** ** The prepared run *)

Definition provenance (run : AgentRun) : option AgentRunProfileProvenance := ru_ProfileProvenance (run_Spec run).

Lemma value_of_insert m k v : value_of (<[k := v]> m) k = v.
Proof. unfold value_of. by rewrite lookup_insert_eq. Qed.

Lemma value_of_insert_ne m k k' v : k <> k' -> value_of (<[k := v]> m) k' = value_of m k'.
Proof. intros H. unfold value_of. by rewrite lookup_insert_ne. Qed.

Lemma value_of_delete_ne m k k' : k <> k' -> value_of (delete k m) k' = value_of m k'.
Proof. intros H. unfold value_of. by rewrite lookup_delete_ne. Qed.

Lemma value_of_set_or_delete m k v : value_of (set_or_delete k v m) k = v.
Proof.
  unfold set_or_delete. destruct (String.eqb_spec v "") as [->|]; [|apply value_of_insert].
  unfold value_of. by rewrite lookup_delete_eq.
Qed.

Lemma value_of_set_or_delete_ne m k k' v : k <> k' -> value_of (set_or_delete k v m) k' = value_of m k'.
Proof. intros H. unfold set_or_delete. destruct (v =? ""); [by apply value_of_delete_ne|by apply value_of_insert_ne]. Qed.

Lemma value_of_set_if_empty_ne m k k' v : k <> k' -> value_of (set_if_empty k v m) k' = value_of m k'.
Proof. intros H. unfold set_if_empty. destruct (_ =? ""); [by apply value_of_insert_ne|done]. Qed.

(** The identity of the work survives the later annotations. *)
Lemma admitted_annotations_work work name m :
  value_of (admitted_annotations work name m) workIDAnnotation = wm_ID work
  /\ value_of (admitted_annotations work name m) workGroupAnnotation = wm_Group work.
Proof.
  unfold admitted_annotations. split; destruct (wm_URL work =? "");
    repeat first [rewrite value_of_set_if_empty_ne by done | rewrite value_of_insert_ne by done
                 | rewrite value_of_set_or_delete_ne by done | rewrite value_of_insert | rewrite value_of_set_or_delete]; done.
Qed.

Lemma prepared_run env owner schedule run work random run' :
  PrepareScheduledAgentRun env owner schedule run work random = Ok run' ->
  run_Spec run' = run_Spec run /\ run_Status run' = no_status
  /\ scheduled_by (om_Namespace (sched_Meta schedule)) (om_Name (sched_Meta schedule)) run' = true
  /\ annotation run' workIDAnnotation = wm_ID work /\ annotation run' workGroupAnnotation = wm_Group work.
Proof.
  unfold PrepareScheduledAgentRun. destruct (match chosen_name schedule run with inl _ => _ | inr _ => _ end) as [name|e]; [|done].
  destruct (owner _ _) as [owners|e]; [|done]. intros H. repeat (apply andThen_ok in H as [_ H]). injection H as <-.
  pose proof (admitted_annotations_work work name (om_Annotations (run_Meta run))) as [H1 H2].
  repeat split; try done. unfold scheduled_by. cbn. rewrite String.eqb_refl, lookup_insert_eq. by rewrite bool_decide_eq_true_2.
Qed.

Lemma injected_run run run' : injectProfiledLifecycleCallback run = Ok run' ->
  run_Meta run' = run_Meta run /\ run_Status run' = run_Status run /\ provenance run' = provenance run.
Proof.
  unfold injectProfiledLifecycleCallback. destruct (ru_Lifecycle _) as [lifecycle|]; [|by intros [= <-]].
  destruct (_ || _); [by intros [= <-]|]. destruct (jsonObject _) as [config|]; [|done].
  destruct (agentConfigPlugins config) as [plugins|]; [|done]. destruct (negb _); [done|]. by intros [= <-].
Qed.

Lemma annotation_meta run run' key : run_Meta run' = run_Meta run -> annotation run' key = annotation run key.
Proof. unfold annotation. by intros ->. Qed.

Lemma scheduled_by_meta ns name run run' : run_Meta run' = run_Meta run -> scheduled_by ns name run' = scheduled_by ns name run.
Proof. unfold scheduled_by. by intros ->. Qed.

(** ** Limits *)

Lemma limit_positive configuration principal limit : principalParallelismLimit configuration principal = Ok limit ->
  (0 < limit)%Z /\ exists p, principal = Some p /\ validPrincipalIdentity principal = true.
Proof.
  unfold principalParallelismLimit. intros H. apply andThen_ok in H as [H1 H]. apply andThen_ok in H as [H2 H].
  destruct principal as [p|]; [|done]. destruct (negb (validPrincipalIdentity (Some p))) eqn:Ev; [done|].
  split; [|exists p; by apply negb_false_iff in Ev].
  destruct (_ || _) eqn:E1 in H1; [done|]. bool_prop.
  destruct (List.find _ _) as [override|] eqn:Ef; injection H as <-; [|lia].
  apply List.find_some in Ef as [Hin _]. apply List.in_split in Hin as (l & r & Hsplit).
  rewrite (each_seen_ok (E := limit_error)) in H2. specialize (H2 l override r Hsplit). apply andThen_ok in H2 as [H2 _].
  destruct (_ || _) eqn:E2 in H2; [done|]. bool_prop. lia.
Qed.

(** ** Knowledge *)

Record knowledge := mkKnowledge {
  kn_schedule : option AgentSchedule;
  kn_said : list testimony;
  kn_runs : option (list AgentRun);
  kn_spent : bool
}.

Definition nothing : knowledge := mkKnowledge None [] None false.

Definition told (g : knowledge) (t : testimony) : knowledge := mkKnowledge (kn_schedule g) (t :: kn_said g) (kn_runs g) (kn_spent g).

Definition learn (g : knowledge) (c : call) : answer c -> knowledge :=
  match c return answer c -> knowledge with
  | GetSchedule _ _ => fun a =>
      match a with Found s => mkKnowledge (Some s) (kn_said g) (kn_runs g) (kn_spent g) | _ => g end
  | ReviewToken _ _ => fun a => match a with Some status => told g (Reviewed status) | None => g end
  | ResolveAccount issuer subject => fun a => match a with Ok account => told g (Resolved issuer subject account) | Err _ => g end
  | ListRuns _ _ => fun a =>
      match a with Some runs => mkKnowledge (kn_schedule g) (kn_said g) (Some runs) (kn_spent g) | None => g end
  | CreateRun _ => fun _ => mkKnowledge (kn_schedule g) (kn_said g) (kn_runs g) true
  | _ => fun _ => g
  end.

(** An object read from the server has the name it was read by. *)
Definition legit (c : call) : answer c -> Prop :=
  match c return answer c -> Prop with
  | GetSchedule namespace name => fun a => match a with Found s => schedule_key s = (namespace, name) | _ => True end
  | _ => fun _ => True
  end.

(** A token that was reviewed for the operator authenticates the producer. *)
Definition attested (said : list testimony) (producer : string) : Prop :=
  exists status, In (Reviewed status) said /\ tr_Authenticated status = true /\ tr_Error status = ""
  /\ tr_Username status = producer /\ producer <> "" /\ In "nvt-operator" (tr_Audiences status).

(** The broker has said that this is the principal's account. *)
Definition account_of (said : list testimony) (principal : AgentRunPrincipal) (account : Resolution) : Prop :=
  In (Resolved (pr_Issuer principal) (pr_Subject principal) account) said.

(** A run of a profiled schedule: for an authenticated producer the schedule
    allows, of the profile chosen for its principal. *)
Definition built_for (said : list testimony) (schedule : AgentSchedule) (run : AgentRun) : Prop :=
  exists producer template profile account principal workflow,
    attested said producer /\ allowed_workflow schedule producer workflow
    /\ chosen_profile schedule (account_of said) principal account profile
    /\ profiled_as schedule template profile account producer principal workflow run.

Record admitted (said : list testimony) (schedule : AgentSchedule) (runs : list AgentRun) (run : AgentRun) : Prop := {
  ad_scheduled : scheduled_by (om_Namespace (sched_Meta schedule)) (om_Name (sched_Meta schedule)) run = true;
  ad_status : run_Status run = no_status;
  ad_open : sk_Suspend (sched_Spec schedule) = false;
  ad_capacity : (countActiveScheduledRuns runs < EffectiveMaxParallelism schedule)%Z;
  ad_work : annotation run workIDAnnotation <> "" /\ retainedWorkExists runs (annotation run workIDAnnotation) = false;
  ad_group : activeWorkGroupExists runs (annotation run workGroupAnnotation) = false;
  ad_principal : forall configuration, sk_PrincipalParallelism (sched_Spec schedule) = Some configuration ->
    exists p limit, provenance run ≫= pv_Principal = Some p /\ principalParallelismLimit configuration (Some p) = Ok limit
      /\ (countActiveScheduledRunsForPrincipal runs (Some p) < limit)%Z;
  ad_profiled : ScheduleUsesExecutionProfiles schedule = true -> built_for said schedule run
}.

Definition permitted (key : NamespacedName) (g : knowledge) (c : call) : Prop :=
  match c with
  | GetSchedule namespace name => (namespace, name) = key
  | ListRuns namespace name => (namespace, name) = key /\ kn_runs g = None
  | CreateRun run =>
      kn_spent g = false /\ exists schedule runs, kn_schedule g = Some schedule /\ schedule_key schedule = key
        /\ kn_runs g = Some runs /\ admitted (kn_said g) schedule runs run
  | _ => True
  end.

Lemma permitted_background key g c r : background c = true -> permitted key g c /\ learn g c r = g.
Proof. by destruct c. Qed.

(** ** The handler *)

Section Handler.
Context (env : string -> string) (owner : ObjectMeta -> ObjectMeta -> result string (list OwnerReference))
  (decode_run : option AgentRun -> json -> option AgentRun) (accounts coordination : bool).
Context (key : NamespacedName).

Abbreviation safe := (safe legit (permitted key) learn).
Abbreviation answered := (done_in (fun _ : knowledge => True)).

(** The creation of [create_run], when the built run and the guards admit it. *)
Lemma create_permitted g schedule (profiled : bool) work run random run1 run2 runs :
  kn_spent g = false -> kn_schedule g = Some schedule -> schedule_key schedule = key -> kn_runs g = Some runs ->
  profiled = ScheduleUsesExecutionProfiles schedule ->
  PrepareScheduledAgentRun env owner schedule (ApplyDefaultEgressMode env run) work random = Ok run1 ->
  (if profiled then injectProfiledLifecycleCallback run1 else Ok run1) = Ok run2 ->
  sk_Suspend (sched_Spec schedule) = false -> (countActiveScheduledRuns runs < EffectiveMaxParallelism schedule)%Z ->
  wm_ID work <> "" -> retainedWorkExists runs (wm_ID work) = false -> activeWorkGroupExists runs (wm_Group work) = false ->
  (forall configuration, sk_PrincipalParallelism (sched_Spec schedule) = Some configuration ->
    exists p limit, provenance run ≫= pv_Principal = Some p /\ principalParallelismLimit configuration (Some p) = Ok limit
      /\ (countActiveScheduledRunsForPrincipal runs (Some p) < limit)%Z) ->
  (profiled = true -> built_for (kn_said g) schedule run2) ->
  permitted key g (CreateRun run2).
Proof.
  intros Hs Hg Hk Hl Hp H1 H2 Hsus Hcap Hw Hret Hgrp Hpr Hprof.
  apply prepared_run in H1 as (Hspec & Hst & Hby & Hid & Hgr).
  assert (H : run_Meta run2 = run_Meta run1 /\ run_Status run2 = run_Status run1 /\ provenance run2 = provenance run1).
  { destruct profiled; [by apply injected_run|by injection H2 as <-]. }
  destruct H as (Hm & Hst' & Hprov).
  assert (Hprov' : provenance run2 = provenance run).
  { rewrite Hprov. unfold provenance. rewrite Hspec. unfold ApplyDefaultEgressMode. by destruct (_ =? ""). }
  split; [done|]. exists schedule, runs. do 3 (split; [done|]). split.
  - by rewrite (scheduled_by_meta _ _ run1).
  - congruence.
  - done.
  - done.
  - rewrite (annotation_meta run1) by done. by rewrite Hid.
  - rewrite (annotation_meta run1) by done. by rewrite Hgr.
  - by rewrite Hprov'.
  - intros Hu. apply Hprof. by rewrite Hp.
Qed.

Lemma built_provenance schedule profile producer principal workflow prompt run :
  buildProfiledAgentRun schedule profile producer principal workflow prompt = Ok run -> provenance run ≫= pv_Principal = principal.
Proof.
  unfold buildProfiledAgentRun. destruct (sk_Template _); [|done]. destruct (jsonObject _); [|done].
  destruct (jsonObject _); [|done]. by intros [= <-].
Qed.

(** What a resolution may be of. *)
Definition resolved_for (said : list testimony) (schedule : AgentSchedule) (principal : option AgentRunPrincipal)
    (resolved : ResolvedExecutionProfile) : Prop :=
  exists account profile, chosen_profile schedule (account_of said) principal account profile /\ resolved_as profile account resolved.

Lemma built_run said schedule who prompt resolved run work random run1 run2 :
  attested said (cl_producer who) -> allowed_workflow schedule (cl_producer who) (cl_workflow who) ->
  resolved_for said schedule (cl_principal who) resolved ->
  buildProfiledAgentRun schedule resolved (cl_producer who) (cl_principal who) (cl_workflow who) prompt = Ok run ->
  PrepareScheduledAgentRun env owner schedule (ApplyDefaultEgressMode env run) work random = Ok run1 ->
  injectProfiledLifecycleCallback run1 = Ok run2 -> built_for said schedule run2.
Proof.
  intros Ha Hw (account & profile & Hc & Hr) Hb H1 H2. apply prepared_run in H1 as (Hspec & _).
  assert (Hs : run_Spec run1 = run_Spec run).
  { rewrite Hspec. unfold ApplyDefaultEgressMode. destruct Hr as (He & _ & config & broker & Er & _). revert Hb.
    unfold buildProfiledAgentRun. destruct (sk_Template _); [|done]. destruct (jsonObject _); [|done]. destruct (jsonObject _); [|done].
    intros [= <-]. cbn. rewrite Er. cbn. apply String.eqb_neq in He. by rewrite He. }
  destruct (built_as _ _ _ _ _ _ _ _ _ _ _ Hr Hb Hs H2) as [template Ht].
  by exists (cl_producer who), template, profile, account, (cl_principal who), (cl_workflow who).
Qed.

(** The same admission, having been told more. *)
Definition having (g : knowledge) (said : list testimony) : knowledge := mkKnowledge (kn_schedule g) said (kn_runs g) (kn_spent g).

(** From the resolution of the profile to the response. *)
Lemma build_safe g schedule who work prompt resolved :
  (forall profile, resolved = Ok profile -> resolved_for (kn_said g) schedule (cl_principal who) profile) ->
  attested (kn_said g) (cl_producer who) -> allowed_workflow schedule (cl_producer who) (cl_workflow who) ->
  (forall run random run1 run2, provenance run ≫= pv_Principal = cl_principal who ->
     PrepareScheduledAgentRun env owner schedule (ApplyDefaultEgressMode env run) work random = Ok run1 ->
     injectProfiledLifecycleCallback run1 = Ok run2 -> built_for (kn_said g) schedule run2 -> permitted key g (CreateRun run2)) ->
  safe answered g (finish (ebind (profiled_run schedule who prompt resolved) (create_run env owner schedule true work))).
Proof.
  intros Hfrom Ha Hw Hcreate. apply safe_finish, safe_ebind, profiled_run_safe; [apply permitted_background|by apply done_refuses|].
  intros profile run Hr Hb. apply create_run_safe; [apply permitted_background|by apply done_refuses|].
  intros random run1 run2 H1 H2. split; [|by split]. apply (Hcreate run random run1 run2); try done.
  - by eapply built_provenance.
  - by eapply built_run; [| |apply Hfrom|..].
Qed.

Lemma admit_profiled_safe g schedule who work prompt :
  (ScheduleUsesPrincipalCredentials schedule = true -> cl_principal who <> None) ->
  attested (kn_said g) (cl_producer who) -> allowed_workflow schedule (cl_producer who) (cl_workflow who) ->
  (forall said run random run1 run2, provenance run ≫= pv_Principal = cl_principal who ->
     PrepareScheduledAgentRun env owner schedule (ApplyDefaultEgressMode env run) work random = Ok run1 ->
     injectProfiledLifecycleCallback run1 = Ok run2 -> built_for said schedule run2 -> permitted key (having g said) (CreateRun run2)) ->
  safe answered g (admit_profiled env owner accounts coordination schedule who work prompt).
Proof.
  intros Hdyn Ha Hw Hcreate.
  assert (Hat : forall said resolved, attested said (cl_producer who) ->
    (forall profile, resolved = Ok profile -> resolved_for said schedule (cl_principal who) profile) ->
    safe answered (having g said) (finish (ebind (profiled_run schedule who prompt resolved) (create_run env owner schedule true work)))).
  { intros said resolved Hs Hr. apply build_safe; [done..|]. intros. by eapply Hcreate. }
  assert (Hnow : forall resolved, (forall profile, resolved = Ok profile -> resolved_for (kn_said g) schedule (cl_principal who) profile) ->
    safe answered g (finish (ebind (profiled_run schedule who prompt resolved) (create_run env owner schedule true work)))).
  { intros resolved Hr. specialize (Hat (kn_said g) resolved Ha Hr). by destruct g. }
  assert (Hstatic : ScheduleUsesPrincipalCredentials schedule = false ->
    safe answered g (finish (ebind (profiled_run schedule who prompt (Resolve schedule (cl_principal who))) (create_run env owner schedule true work)))).
  { intros Hs. apply Hnow. intros profile Hr. destruct (Resolve_resolved _ (account_of (kn_said g)) _ _ Hs Hr) as (ep & Hc & He). by exists None, ep. }
  assert (Herr : forall e, safe answered g (finish (ebind (profiled_run schedule who prompt (Err e)) (create_run env owner schedule true work)))).
  { intros e. by apply Hnow. }
  assert (Haccount : ScheduleUsesPrincipalCredentials schedule = true ->
    safe answered g (pbind (resolvePrincipalCredentialProfile accounts schedule (cl_principal who)) (fun resolved =>
      finish (ebind (profiled_run schedule who prompt resolved) (create_run env owner schedule true work))))).
  { intros Hs. apply safe_bind, resolvePrincipal_safe; [done|done| |].
    - intros issuer subject [account|e'] e; [|apply Herr]. apply (Hat (Resolved issuer subject account :: kn_said g)); [|done].
      destruct Ha as (status & Hin & Hst). exists status. split; [by right|done].
    - intros p account profiles Ep Ev. apply (Hat (Resolved (pr_Issuer p) (pr_Subject p) account :: kn_said g)).
      + destruct Ha as (status & Hin & Hst). exists status. split; [by right|done].
      + intros profile Hr. destruct (bind_resolved _ (account_of (Resolved (pr_Issuer p) (pr_Subject p) account :: kn_said g)) p _ _ _ Hs ltac:(by left) Ev Hr)
          as (ep & Hc & He). exists (Some account), ep. by rewrite Ep. }
  unfold admit_profiled. destruct (cl_principal who) as [p|] eqn:Ep.
  - destruct (_ || _); [split; [done|discriminate]|]. destruct (ScheduleUsesPrincipalCredentials schedule) eqn:Es; cbn [negb]; [|by apply Hstatic].
    destruct coordination; cbn [negb]; [|by apply Haccount].
    apply safe_bind. unfold reserve. apply safe_background; [apply permitted_background|done|].
    intros [bytes|]; [|apply Herr]. split; [done|]. intros a _.
    destruct a as [[]|[]]; try apply Herr. apply safe_bind. eapply safe_mono; [|by apply Haccount].
    intros g' r Hr. split; [done|]. by intros [] _.
  - destruct (ScheduleUsesPrincipalCredentials schedule) eqn:Es; cbn [negb]; [by destruct (Hdyn eq_refl)|by apply Hstatic].
Qed.

Lemma authenticates_attested g token status producer : authenticates status = true -> tr_Username status = producer ->
  attested (kn_said (learn g (ReviewToken token [scheduleProducerAudience]) (Some status))) producer.
Proof.
  unfold authenticates. intros H <-. bool_prop. exists status. split; [by left|]. split_and!; try done.
  apply existsb_exists in H0 as (a & Ha & E). by apply String.eqb_eq in E as <-.
Qed.

Lemma dynamic_principal schedule producer principal : producerAllowsDynamicPrincipal schedule producer principal = true -> principal <> None.
Proof. by destruct principal. Qed.

Lemma serve_locked_safe authorization raw admission :
  safe answered nothing (finish (serve_locked env owner accounts coordination (fst key) (snd key) authorization raw admission)).
Proof.
  apply safe_finish. unfold serve_locked. apply safe_ebind, safe_then_do. split; [by destruct key|].
  intros [schedule| |] Hkey; cbn [Program.safe]; [|split; [done|discriminate]..]. cbn in Hkey. rewrite <- surjective_pairing in Hkey.
  set (g := learn nothing _ _).
  assert (Hcaller : safe (answers answered (fun g' who => kn_spent g' = false /\ kn_schedule g' = Some schedule /\ kn_runs g' = None
      /\ (ScheduleUsesExecutionProfiles schedule = true -> attested (kn_said g') (cl_producer who)
          /\ allowed_workflow schedule (cl_producer who) (cl_workflow who)
          /\ (ScheduleUsesPrincipalCredentials schedule = true -> cl_principal who <> None))))
    g (if ScheduleUsesExecutionProfiles schedule then authenticate_caller schedule authorization raw admission
       else go (mkCaller "" None None))).
  { destruct (ScheduleUsesExecutionProfiles schedule) eqn:Eu; [|done].
    apply authenticate_caller_safe; [apply permitted_background|by apply done_refuses|done|intros; by apply done_refuses|].
    intros token status who Ha Hu Hw Hp. do 3 (split; [done|]). intros _. split; [by eapply authenticates_attested|].
    split; [by eapply workflow_allowed|]. intros Hs. by eapply dynamic_principal, Hp. }
  apply safe_ebind. eapply safe_mono; [|exact Hcaller]. clear Hcaller. intros g' [r|who] Hg; [done|].
  destruct Hg as (Hspent & Hsched & Hruns & Hprof).
  destruct (_ =? "") eqn:Ewid; [split; [done|discriminate]|]. destruct (_ || _); [split; [done|discriminate]|].
  apply safe_ebind, safe_then_do. split; [by split|].
  intros [runs|] _; cbn [Program.safe learn]; [|split; [done|discriminate]].
  apply safe_ebind, check_capacity_safe; [apply permitted_background|by apply done_refuses|done|done|].
  intros limit Hret Hgrp Hsus Hcap Hlim Hcount. apply String.eqb_neq in Ewid.
  assert (Hprincipal : forall configuration, sk_PrincipalParallelism (sched_Spec schedule) = Some configuration ->
    ScheduleUsesExecutionProfiles schedule = true /\ exists p, cl_principal who = Some p
    /\ principalParallelismLimit configuration (Some p) = Ok limit /\ (countActiveScheduledRunsForPrincipal runs (Some p) < limit)%Z).
  { intros configuration E. rewrite E in Hlim. destruct Hlim as [Hu Hl]. destruct (limit_positive _ _ _ Hl) as (Hpos & p & Ep & _).
    split; [done|]. exists p. rewrite Ep in Hl, Hcount. auto. }
  destruct (ScheduleUsesExecutionProfiles schedule) eqn:Eu.
  - destruct (Hprof eq_refl) as (Hprod & Hw & Hdyn). apply safe_then_do, admit_profiled_safe; [done..|].
    intros said run random run1 run2 Hpr H1 H2 Hb.
    eapply (create_permitted _ schedule true _ run random run1 run2 runs); cbn; try done.
    intros configuration E. destruct (Hprincipal _ E) as (_ & p & Ep & Hl & Hc). exists p, limit. by rewrite Hpr, Ep.
  - apply safe_ebind, legacy_run_safe; [apply permitted_background|by apply done_refuses|]. intros run.
    apply create_run_safe; [apply permitted_background|by apply done_refuses|]. intros random run1 run2 H1 H2. split; [|by split].
    eapply (create_permitted _ schedule false _ run random run1 run2 runs); cbn; try done.
    intros configuration E. by destruct (Hprincipal _ E).
Qed.

(** Every program the server runs under a lock makes only permitted calls,
    and never fails on a nil pointer. *)
Lemma handler_safe request p : ServeHTTP env owner decode_run accounts coordination request = inr (key, p) ->
  safe (fun _ r => r <> Crash) nothing p.
Proof.
  unfold ServeHTTP. destruct (negb _); [done|]. destruct (parseScheduleAdmissionPath _) as [[ns name]|]; [|done].
  destruct (_ ≫= _) as [[raw admission]|]; [|done]. intros H. injection H as Hk <-.
  assert (Hns : ns = fst key) by (by rewrite <- Hk). assert (Hn : name = snd key) by (by rewrite <- Hk). rewrite Hns, Hn.
  eapply safe_mono; [|apply serve_locked_safe]. by intros g r [_ ?].
Qed.
End Handler.

(** * Reservations of coordinated admissions

    An admission that resolves a principal's own account reserves the
    principal at the broker first, so that the account is not switched under
    it.  The ghost state here is the schedule that was read and the reservation
    that is open. *)

Local Open Scope go_scope.
Local Open Scope string_scope.

Record held := mkHeld {
  hd_schedule : option AgentSchedule;
  hd_open : option (string * string * string)
}.

Definition unreserved : held := mkHeld None None.

Definition hold (g : held) (c : call) : answer c -> held :=
  match c return answer c -> held with
  | GetSchedule _ _ => fun a => match a with Found s => mkHeld (Some s) (hd_open g) | _ => g end
  | BeginAdmission issuer subject operation => fun a =>
      match a with Ok _ => mkHeld (hd_schedule g) (Some (issuer, subject, operation)) | Err _ => g end
  | EndAdmission _ _ _ => fun _ => mkHeld (hd_schedule g) None
  | _ => fun _ => g
  end.

(** One reservation at a time; what is ended is what was begun; a run of a
    schedule that uses principals' credentials is created under a reservation
    of the principal that will own it. *)
Definition reserved (coordination : bool) (g : held) (c : call) : Prop :=
  match c with
  | BeginAdmission _ _ _ => hd_open g = None
  | EndAdmission issuer subject operation => hd_open g = Some (issuer, subject, operation)
  | CreateRun run => coordination = true ->
      forall schedule, hd_schedule g = Some schedule -> ScheduleUsesPrincipalCredentials schedule = true ->
      exists p operation, provenance run ≫= pv_Principal = Some p /\ hd_open g = Some (pr_Issuer p, pr_Subject p, operation)
  | _ => True
  end.

Lemma reserved_background coordination g c r : background c = true -> reserved coordination g c /\ hold g c r = g.
Proof. by destruct c. Qed.

Section Reservations.
Context (env : string -> string) (owner : ObjectMeta -> ObjectMeta -> result string (list OwnerReference))
  (decode_run : option AgentRun -> json -> option AgentRun) (accounts coordination : bool).

Abbreviation safe := (safe legit (reserved coordination) hold).
Abbreviation answered g := (done_in (eq (g : held))).

Lemma created_provenance schedule (profiled : bool) work run random run1 run2 :
  PrepareScheduledAgentRun env owner schedule (ApplyDefaultEgressMode env run) work random = Ok run1 ->
  (if profiled then injectProfiledLifecycleCallback run1 else Ok run1) = Ok run2 -> provenance run2 = provenance run.
Proof.
  intros H1 H2. apply prepared_run in H1 as (Hspec & _).
  assert (H : provenance run2 = provenance run1) by (destruct profiled; [by apply injected_run|by injection H2 as <-]).
  rewrite H. unfold provenance. rewrite Hspec. unfold ApplyDefaultEgressMode. by destruct (_ =? "").
Qed.

(** Principals' credentials make a schedule profiled. *)
Lemma credentials_profiled schedule : ScheduleUsesPrincipalCredentials schedule = true -> ScheduleUsesExecutionProfiles schedule = true.
Proof.
  unfold ScheduleUsesPrincipalCredentials, ScheduleUsesExecutionProfiles.
  destruct (sk_PrincipalCredentialSelection _) as [selection|]; [|done]. rewrite (bool_decide_eq_true_2 (is_Some (Some selection))) by done.
  by rewrite orb_true_r.
Qed.

(** From the resolution of the profile to the response. *)
Lemma build_reserved g schedule who work prompt resolved :
  (forall run, provenance run ≫= pv_Principal = cl_principal who -> reserved coordination g (CreateRun run)) ->
  safe (answered g) g (finish (ebind (profiled_run schedule who prompt resolved) (create_run env owner schedule true work))).
Proof.
  intros Hcreate. apply safe_finish, safe_ebind, profiled_run_safe; [apply reserved_background|by apply done_refuses|].
  intros profile run _ Hb. apply create_run_safe; [apply reserved_background|by apply done_refuses|].
  intros random run1 run2 H1 H2. split; [|by split]. apply Hcreate. rewrite (created_provenance schedule true work run random run1 run2 H1 H2). by eapply built_provenance.
Qed.

Lemma admit_reserved g schedule who work prompt : hd_schedule g = Some schedule -> hd_open g = None ->
  (ScheduleUsesPrincipalCredentials schedule = true -> cl_principal who <> None) ->
  safe (answered g) g (admit_profiled env owner accounts coordination schedule who work prompt).
Proof.
  intros Hs Ho Hdyn. unfold admit_profiled.
  assert (Haccount : forall g', (forall run, provenance run ≫= pv_Principal = cl_principal who -> reserved coordination g' (CreateRun run)) ->
    safe (answered g') g' (pbind (resolvePrincipalCredentialProfile accounts schedule (cl_principal who)) (fun resolved =>
      finish (ebind (profiled_run schedule who prompt resolved) (create_run env owner schedule true work))))).
  { intros g' Hg. apply safe_bind, resolvePrincipal_safe; [done|intros; by apply build_reserved..]. }
  destruct (cl_principal who) as [p|] eqn:Ep.
  - destruct (_ || _); [split; [done|discriminate]|]. destruct (ScheduleUsesPrincipalCredentials schedule) eqn:Es; cbn [negb].
    2: { rewrite <- Ep. apply build_reserved. intros run _ _ s Hs'. rewrite Hs in Hs'. injection Hs' as <-. by rewrite Es. }
    destruct (negb coordination) eqn:Ec; [apply Haccount; intros run _ Hc; by rewrite Hc in Ec|].
    apply safe_bind. unfold reserve. apply safe_background; [apply reserved_background|done|].
    assert (Herr : forall e, safe (answered g) g (finish (ebind (profiled_run schedule who prompt (Err e)) (create_run env owner schedule true work)))).
    { intros e. apply safe_finish, safe_ebind, profiled_run_safe; [apply reserved_background|by apply done_refuses|done]. }
    intros [bytes|]; [|apply Herr]. split; [done|]. intros [[]|e] _; [|destruct e; apply Herr].
    cbn [Program.safe hold]. apply safe_bind. set (g' := mkHeld _ _).
    eapply safe_mono; [|apply (Haccount g')].
    + intros g1 r [<- Hr]. split; [done|]. intros [] _. split; [|done]. cbn. rewrite <- Ho. by destruct g.
    + intros run Hrun _ s _ _. exists p, (base64url bytes). by rewrite Hrun.
  - destruct (ScheduleUsesPrincipalCredentials schedule) eqn:Es; cbn [negb]; [by destruct (Hdyn eq_refl)|].
    rewrite <- Ep. apply build_reserved. intros run _ _ s Hs'. rewrite Hs in Hs'. injection Hs' as <-. by rewrite Es.
Qed.

(** Under the lock. *)
Lemma serve_reserved namespace name authorization raw admission :
  safe (done_in (fun g => hd_open g = None)) unreserved
    (finish (serve_locked env owner accounts coordination namespace name authorization raw admission)).
Proof.
  apply safe_finish. unfold serve_locked. apply safe_ebind, safe_then_do. split; [done|].
  intros [schedule| |] _; cbn [Program.safe]; [|split; [done|discriminate]..].
  set (g := hold unreserved _ _).
  assert (Hcaller : safe (answers (done_in (fun g => hd_open g = None)) (fun g' who => g' = g
      /\ (ScheduleUsesExecutionProfiles schedule = true -> ScheduleUsesPrincipalCredentials schedule = true -> cl_principal who <> None)))
    g (if ScheduleUsesExecutionProfiles schedule then authenticate_caller schedule authorization raw admission
       else go (mkCaller "" None None))).
  { destruct (ScheduleUsesExecutionProfiles schedule) eqn:Eu; [|done].
    apply authenticate_caller_safe; [apply reserved_background|by apply done_refuses|done|intros; by apply done_refuses|].
    intros token status who _ _ _ Hp. split; [done|]. intros _ Hc. by eapply dynamic_principal, Hp. }
  apply safe_ebind. eapply safe_mono; [|exact Hcaller]. clear Hcaller. intros g' [r|who] Hg; [done|]. destruct Hg as [-> Hdyn].
  destruct (_ =? ""); [split; [done|discriminate]|]. destruct (_ || _); [split; [done|discriminate]|].
  apply safe_ebind, safe_then_do. split; [done|]. intros [runs|] _; cbn [Program.safe hold]; [|split; [done|discriminate]].
  apply safe_ebind, check_capacity_safe; [apply reserved_background|by apply done_refuses|done|done|]. intros limit _ _ _ _ _ _.
  destruct (ScheduleUsesExecutionProfiles schedule) eqn:Eu.
  - apply safe_then_do. eapply safe_mono; [|apply admit_reserved; [done|done|by apply Hdyn]]. by intros g1 r [<- Hr].
  - apply safe_ebind, legacy_run_safe; [apply reserved_background|by apply done_refuses|]. intros run.
    apply create_run_safe; [apply reserved_background|by apply done_refuses|]. intros random run1 run2 _ _. split; [|by split].
    intros _ s [= <-] Hc. apply credentials_profiled in Hc. congruence.
Qed.
End Reservations.
