(* ===== verification/OperatorSystem.v ===== *)
(** * Quotas under concurrent admissions

    A quota is a property of a schedule's runs of which no more than a number
    exist, because an admission that would add one has seen fewer and holds
    the schedule's lock.  Here: every quota is kept in every reachable state of
    the system, whatever the interleaving, the answers of the API server and
    the changes made elsewhere in the cluster. *)
From stdpp Require Import base list strings gmap.
From Stdlib Require Import ZArith Lia.
From S2P Require Import Prelude GoJson GoHttp Contract LocalRun Program OperatorTypes OperatorPolicy OperatorProfiles OperatorSchedule OperatorAdmission OperatorLocks OperatorProps.


(** ** Runs with a property *)

Definition holders (P : AgentRun -> bool) (m : gmap NamespacedName AgentRun) : gset NamespacedName :=
  dom (filter (fun kr => P (snd kr) = true) m).

Definition tally (P : AgentRun -> bool) (m : gmap NamespacedName AgentRun) : Z := Z.of_nat (size (holders P m)).

Lemma elem_of_holders P m k : k ∈ holders P m <-> exists r, m !! k = Some r /\ P r = true.
Proof.
  unfold holders. rewrite elem_of_dom. split.
  - intros [r H]. apply map_lookup_filter_Some in H as [? ?]. by exists r.
  - intros (r & H & HP). exists r. by apply map_lookup_filter_Some.
Qed.

Lemma tally_le P P' m m' : (forall k r, m !! k = Some r -> P r = true -> exists x, m' !! k = Some x /\ P' x = true) ->
  (tally P m <= tally P' m')%Z.
Proof.
  intros H. unfold tally. apply inj_le, subseteq_size. intros k. rewrite !elem_of_holders. intros (r & Hr & HP). by eapply H.
Qed.

Lemma tally_insert P m k r : (tally P (<[k := r]> m) <= tally P m + (if P r then 1 else 0))%Z.
Proof.
  destruct (P r) eqn:E.
  - unfold tally. transitivity (Z.of_nat (size ({[k]} ∪ holders P m))).
    + apply inj_le, subseteq_size. intros k'. rewrite elem_of_union, elem_of_singleton, !elem_of_holders.
      intros (x & Hx & HP). apply lookup_insert_Some in Hx as [[-> _]|[_ Hx]]; [by left|right; eauto].
    + rewrite size_union_alt, size_singleton. assert (size (holders P m ∖ {[k]}) <= size (holders P m))%nat; [|lia].
      apply subseteq_size. intros k' Hk'. by apply elem_of_difference in Hk' as [? _].
  - rewrite Z.add_0_r. apply tally_le. intros k' x Hx HP. apply lookup_insert_Some in Hx as [[-> <-]|[_ Hx]]; [congruence|eauto].
Qed.

(** A list of the runs of a schedule counts the same. *)
Lemma count_perm {A} (p : A -> bool) l l' : l ≡ₚ l' -> count p l = count p l'.
Proof.
  unfold count. induction 1 as [|x l l' _ IH|x y l|l l' l'' _ IH1 _ IH2]; cbn; try lia.
  - destruct (p x); cbn [length]; lia.
  - destruct (p x), (p y); done.
Qed.

Lemma count_refined {A} (p q : A -> bool) l : (forall x, p x = true -> q x = true) -> count p (List.filter q l) = count p l.
Proof.
  intros H. induction l as [|x l IH]; [done|]. cbn. destruct (q x) eqn:E; rewrite !count_cons, IH; [done|].
  destruct (p x) eqn:Ep; [by rewrite (H x Ep) in E|done].
Qed.

Lemma count_values P m : count P (snd <$> map_to_list m) = tally P m.
Proof.
  unfold tally, holders. rewrite size_dom. induction m as [|k r m Hk IH] using map_ind; [done|].
  rewrite (count_perm P _ (r :: (snd <$> map_to_list m))) by (by rewrite map_to_list_insert by done).
  rewrite count_cons, IH. destruct (P r) eqn:E.
  - rewrite map_filter_insert_True by done. rewrite map_size_insert_None; [lia|]. by apply map_lookup_filter_None_2; left.
  - rewrite map_filter_insert_False by (by cbn; congruence). by rewrite delete_id by done.
Qed.

(** ** Snapshots *)

Lemma evolves_refl r : evolves r r.
Proof. by repeat split. Qed.

Lemma evolves_trans r1 r2 r3 : evolves r1 r2 -> evolves r2 r3 -> evolves r1 r3.
Proof. intros (A1 & A2 & A3 & A4 & A5) (B1 & B2 & B3 & B4 & B5). repeat split; try congruence. auto. Qed.

Lemma evolves_scheduled ns name x r : evolves x r -> scheduled_by ns name r = scheduled_by ns name x.
Proof. intros (A1 & A2 & _). unfold scheduled_by. rewrite A2. injection A1 as -> _. done. Qed.

(** What is left of a schedule's runs after a snapshot. *)
Definition below (key : NamespacedName) (snap m : gmap NamespacedName AgentRun) : Prop :=
  forall k r, m !! k = Some r -> scheduled_by (fst key) (snd key) r = true -> exists x, snap !! k = Some x /\ evolves x r.

Lemma below_refl key m : below key m m.
Proof. intros k r H _. exists r. by split; [|apply evolves_refl]. Qed.

Lemma below_elsewhere admin key snap w w' : below key snap (cu_runs w) -> elsewhere admin w w' -> below key snap (cu_runs w').
Proof.
  intros H E k r. destruct E as [schedule _|k0|k0 x y Hx Hxy|k0|run Hn Hl]; cbn.
  - apply H.
  - apply H.
  - intros Hr Hs. apply lookup_insert_Some in Hr as [[-> <-]|[_ Hr]]; [|by apply H].
    destruct (H k x Hx) as (z & Hz & Hzx); [by rewrite <- (evolves_scheduled _ _ x y)|].
    exists z. split; [done|]. by eapply evolves_trans.
  - intros Hr Hs. apply lookup_delete_Some in Hr as [_ Hr]. by apply H.
  - intros Hr Hs. apply lookup_insert_Some in Hr as [[<- <-]|[_ Hr]]; [|by apply H].
    unfold scheduled_by in Hs. rewrite Hl in Hs. rewrite bool_decide_eq_false_2 in Hs by done. by rewrite andb_false_r in Hs.
Qed.

(** A run of one schedule is no run of another. *)
Lemma scheduled_once (key key' : NamespacedName) run : scheduled_by (fst key) (snd key) run = true ->
  scheduled_by (fst key') (snd key') run = true -> key = key'.
Proof.
  unfold scheduled_by. intros H H'. apply andb_true_iff in H as [A B], H' as [C D]. apply bool_decide_eq_true in B, D.
  bool_prop. destruct key, key'; cbn in *. congruence.
Qed.

Lemma below_other key key' snap m k run : below key snap m -> scheduled_by (fst key') (snd key') run = true -> key <> key' ->
  below key snap (<[k := run]> m).
Proof.
  intros H Hr Hne k' r Hk Hs. apply lookup_insert_Some in Hk as [[-> <-]|[_ Hk]]; [|by apply H].
  destruct Hne. by apply (scheduled_once key key' run).
Qed.

Lemma stored_scheduled ns name run stored : stored_as run stored -> scheduled_by ns name stored = scheduled_by ns name run.
Proof. intros (A & B & _). unfold scheduled_by. rewrite B. by injection A as -> _. Qed.

(** ** The invariant *)

Section Quotas.
Context (admin : AgentSchedule -> Prop) (env : string -> string) (owner : ObjectMeta -> ObjectMeta -> result string (list OwnerReference))
  (decode_run : option AgentRun -> json -> option AgentRun) (accounts coordination : bool).

(** A schedule as an administrator wrote it, with any status. *)
Definition known (s : AgentSchedule) : Prop := exists status, admin (mkAgentSchedule (sched_Meta s) (sched_Spec s) status).

Definition cluster_ok (w : cluster) : Prop := forall k s, cu_schedules w !! k = Some s -> schedule_key s = k /\ known s.

(** The programs of incoming requests. *)
Definition requested (key : NamespacedName) (p : program response) : Prop :=
  exists request, ServeHTTP env owner decode_run accounts coordination request = inr (key, p).

Record quota (key : NamespacedName) (P : AgentRun -> bool) (M : Z) : Prop := {
  qu_scheduled : forall r, P r = true -> scheduled_by (fst key) (snd key) r = true;
  qu_evolves : forall x r, evolves x r -> P r = true -> P x = true;
  qu_stored : forall r stored, stored_as r stored -> P stored = true -> P r = true;
  qu_admits : forall said s l r, known s -> schedule_key s = key -> admitted said s l r -> P r = true -> (count P l < M)%Z
}.

Definition fits (key : NamespacedName) (w : cluster) (g : knowledge) : Prop :=
  (forall s, kn_schedule g = Some s -> known s)
  /\ incl (kn_said g) (cu_said w)
  /\ (forall l, kn_runs g = Some l -> kn_spent g = false ->
      exists snap, below key snap (cu_runs w)
        /\ l ≡ₚ List.filter (scheduled_by (fst key) (snd key)) (snd <$> map_to_list snap)).

Abbreviation safe key := (safe legit (permitted key) learn (fun _ r => r <> Crash)).

Definition thread_ok (w : cluster) (t : thread) : Prop :=
  match t with
  | Arrived key p | Looking key p | Counted key _ p | Waiting key _ p => safe key nothing p
  | Running key _ p => exists g, safe key g p /\ fits key w g
  | _ => True
  end.

Definition threads_ok (s : system) : Prop := forall i t, sy_threads s !! i = Some t -> thread_ok (sy_cluster s) t.

Lemma fits_nothing key w : fits key w nothing.
Proof. split_and!; [done|by intros t []|done]. Qed.

(** What was said stays said. *)
Lemma said_elsewhere w w' : elsewhere admin w w' -> cu_said w' = cu_said w.
Proof. by destruct 1. Qed.

Lemma said_serves w c a w' : serves w c a w' -> incl (cu_said w) (cu_said w').
Proof.
  intros Hs. destruct c; cbn in Hs; try (subst w'; by apply incl_refl).
  - destruct Hs as [-> _]. apply incl_refl.
  - destruct Hs as [-> _]. apply incl_refl.
  - subst w'. destruct a; [by apply incl_tl, incl_refl|apply incl_refl].
  - subst w'. destruct a; [by apply incl_tl, incl_refl|apply incl_refl].
  - assert (H : w' = w \/ created w run w') by (destruct a; auto). destruct H as [->|(_ & stored & Hst & ->)]; apply incl_refl.
  - destruct Hs as [->|(current & _ & ->)]; apply incl_refl.
Qed.

Lemma fits_elsewhere key w w' g : fits key w g -> elsewhere admin w w' -> fits key w' g.
Proof.
  intros (H1 & H3 & H2) E. split; [done|]. split; [by rewrite (said_elsewhere w w' E)|].
  intros l Hl Hs. destruct (H2 l Hl Hs) as (snap & Hb & Hp). exists snap. split; [|done]. by eapply below_elsewhere.
Qed.

Lemma fits_same_runs key w w' g : fits key w g -> cu_runs w' = cu_runs w -> incl (cu_said w) (cu_said w') -> fits key w' g.
Proof. intros (H1 & H2 & H3) E Hi. unfold fits. rewrite E. split_and!; [done| |done]. by eapply incl_tran. Qed.

(** *** The cluster *)

Lemma cluster_ok_elsewhere w w' : cluster_ok w -> elsewhere admin w w' -> cluster_ok w'.
Proof.
  intros H E k s. destruct E as [schedule Ha|k0|? ? ? _ _|?|? _ _]; cbn; try apply H.
  - intros Hs. apply lookup_insert_Some in Hs as [[<- <-]|[_ Hs]]; [|by apply H]. split; [done|].
    exists (sched_Status schedule). by destruct schedule.
  - intros Hs. apply lookup_delete_Some in Hs as [_ Hs]. by apply H.
Qed.

Lemma cluster_ok_status w schedule w' : cluster_ok w -> status_written w schedule w' -> cluster_ok w' /\ cu_runs w' = cu_runs w.
Proof.
  intros H (current & Hc & ->). split; [|done]. intros k s Hs. cbn in Hs. apply lookup_insert_Some in Hs as [[<- <-]|[_ Hs]]; [|by apply H].
  destruct (H _ _ Hc) as [Hk [status Ha]]. split; [done|]. by exists status.
Qed.

(** *** One call *)

(** What a call of the goroutine that runs under the lock of [key] does to the
    cluster, beside the schedules' statuses: nothing, or the creation of a run
    that its knowledge admits. *)
Lemma call_effect key w c a w' g : cluster_ok w -> permitted key g c -> serves w c a w' ->
  cluster_ok w' /\ legit c a /\
  (cu_runs w' = cu_runs w \/ exists run stored, c = CreateRun run /\ stored_as run stored /\ cu_runs w' = <[run_key run := stored]> (cu_runs w)).
Proof.
  intros Hw Hp Hs. destruct c; cbn in *; try (subst w'; by auto); try (subst w'; by destruct a; auto).
  - destruct Hs as [-> Ha]. split; [done|]. split; [|by left]. destruct a as [s| |]; try done. by destruct (Hw _ _ Ha).
  - destruct Hs as [-> _]. auto.
  - assert (H : w' = w \/ created w run w') by (destruct a; auto). destruct H as [->|(_ & stored & Hst & ->)]; [auto|].
    split; [done|]. split; [done|]. right. by exists run, stored.
  - destruct Hs as [->|Hs]; [auto|]. apply (cluster_ok_status _ _ _ Hw) in Hs as [? ?]. auto.
Qed.

Lemma fits_learn key w c a w' g : cluster_ok w -> permitted key g c -> serves w c a w' -> fits key w g ->
  fits key w' (learn g c a).
Proof.
  intros Hw Hp Hs Hf. pose proof (said_serves w c a w' Hs) as Hi.
  destruct (call_effect key w c a w' g Hw Hp Hs) as (_ & _ & [Hr|(run & stored & -> & _ & Hr)]).
  - pose proof (fits_same_runs key w w' g Hf Hr Hi) as Hf'. destruct Hf' as (H1 & H2 & H3).
    destruct c; cbn in *; try exact (conj H1 (conj H2 H3)).
    + destruct a as [s| |]; try exact (conj H1 (conj H2 H3)). destruct Hs as [-> Hs]. split; cbn; [|done].
      intros s' [= <-]. by apply (Hw _ _ Hs).
    + destruct a as [l|]; [|exact (conj H1 (conj H2 H3))]. destruct Hs as [-> Hs], Hp as [<- Hp]. split_and!; [done..|]. cbn.
      intros l' [= <-] _. exists (cu_runs w). split; [apply below_refl|done].
    + destruct a as [status|]; [|exact (conj H1 (conj H2 H3))]. subst w'. split_and!; [done| |done]. apply incl_cons; [by left|done].
    + destruct a as [account|]; [|exact (conj H1 (conj H2 H3))]. subst w'. split_and!; [done| |done]. apply incl_cons; [by left|done].
    + split_and!; [done|done|]. intros l Hl [=].
  - destruct Hf as (H1 & H2 & _). split_and!; [done|by eapply incl_tran|]. intros l Hl [=].
Qed.

(** *** The quota *)

Section Kept.
Context (key : NamespacedName) (P : AgentRun -> bool) (M : Z) (HQ : quota key P M).

Lemma tally_elsewhere w w' : elsewhere admin w w' -> (tally P (cu_runs w') <= tally P (cu_runs w))%Z.
Proof.
  intros E. apply tally_le. intros k r. destruct E as [schedule _|k0|k0 x y Hx Hxy|k0|run Hn Hl]; cbn; eauto.
  - intros Hr HP. apply lookup_insert_Some in Hr as [[-> <-]|[_ Hr]]; [|eauto]. exists x. split; [done|]. by eapply (qu_evolves _ _ _ HQ).
  - intros Hr HP. apply lookup_delete_Some in Hr as [_ Hr]. eauto.
  - intros Hr HP. apply lookup_insert_Some in Hr as [[<- <-]|[_ Hr]]; [|eauto].
    apply (qu_scheduled _ _ _ HQ) in HP. unfold scheduled_by in HP. rewrite Hl in HP.
    rewrite bool_decide_eq_false_2 in HP by done. by rewrite andb_false_r in HP.
Qed.

(** An admitted creation finds room. *)
Lemma tally_call key' w c a w' g : cluster_ok w -> permitted key' g c -> serves w c a w' -> fits key' w g ->
  (tally P (cu_runs w) <= M)%Z -> (tally P (cu_runs w') <= M)%Z.
Proof.
  intros Hw Hp Hs Hf HM. destruct (call_effect key' w c a w' g Hw Hp Hs) as (_ & _ & [->|(run & stored & -> & Hst & ->)]); [done|].
  pose proof (tally_insert P (cu_runs w) (run_key run) stored) as Hins. destruct (P stored) eqn:EP; [|lia].
  cbn in Hp. destruct Hp as (Hspent & s & l & Hks & Hkey & Hkl & Had). apply (qu_stored _ _ _ HQ _ _ Hst) in EP.
  destruct Hf as (Hf1 & _ & Hf2). destruct (Hf2 l Hkl Hspent) as (snap & Hb & Hperm).
  assert (Hk : key' = key).
  { rewrite <- Hkey. apply (scheduled_once _ _ run); [apply (ad_scheduled _ _ _ _ Had)|apply (qu_scheduled _ _ _ HQ _ EP)]. }
  rewrite Hk in Hkey, Hb, Hperm. pose proof (qu_admits _ _ _ HQ _ s l run (Hf1 s Hks) Hkey Had EP) as Hcount.
  rewrite (count_perm P l _ Hperm), count_refined, count_values in Hcount by apply (qu_scheduled _ _ _ HQ).
  enough (tally P (cu_runs w) <= tally P snap)%Z by lia. apply tally_le. intros k r Hr HP.
  destruct (Hb k r Hr (qu_scheduled _ _ _ HQ _ HP)) as (x & Hx & Hxr). exists x. split; [done|]. by eapply (qu_evolves _ _ _ HQ).
Qed.
End Kept.

(** *** The system *)

Lemma thread_ok_moved s i x y w : threads_ok s -> sy_threads s !! i = Some x -> thread_ok w y ->
  (forall j t, j <> i -> sy_threads s !! j = Some t -> thread_ok (sy_cluster s) t -> thread_ok w t) ->
  forall j t, moved_to s i y !! j = Some t -> thread_ok w t.
Proof.
  intros H Hx Hy Hrest j t. rewrite (lookup_moved s i x y Hx). destruct (decide (i = j)) as [<-|Hne]; [by intros [= <-]|].
  intros Hj. apply (Hrest j t); [done|done|]. by apply (H j).
Qed.

(** Another goroutine's call leaves what a goroutine knows of its own
    schedule. *)
Lemma thread_ok_call s i key lock p c a w' g j t : lock_inv s -> cluster_ok (sy_cluster s) ->
  sy_threads s !! i = Some (Running key lock p) -> permitted key g c -> serves (sy_cluster s) c a w' -> j <> i ->
  sy_threads s !! j = Some t -> thread_ok (sy_cluster s) t -> thread_ok w' t.
Proof.
  intros I Hw Hi Hp Hs Hne Hj Ht. destruct t as [| | | |key' lock' p'| | | |]; try exact Ht.
  destruct Ht as (g' & Hsafe & Hf). exists g'. split; [done|].
  destruct (call_effect key _ c a w' g Hw Hp Hs) as (_ & _ & [Hr|(run & stored & -> & Hst & Hr)]); [apply (fits_same_runs key' (sy_cluster s)); [done..|by eapply said_serves]|].
  destruct Hf as (H1 & H3 & H2). split; [done|]. split; [by eapply incl_tran, said_serves|]. intros l Hl Hsp. destruct (H2 l Hl Hsp) as (snap & Hb & Hperm). exists snap. split; [|done].
  rewrite Hr. apply (below_other key' key); [done| |].
  - rewrite (stored_scheduled _ _ run) by done. cbn in Hp. destruct Hp as (_ & sch & runs & _ & <- & _ & Had). apply (ad_scheduled _ _ _ _ Had).
  - intros ->. apply Hne. by eapply running_alone.
Qed.

Abbreviation step := (step admin requested).

Lemma system_step s s' : lock_inv s -> cluster_ok (sy_cluster s) -> threads_ok s -> step s s' ->
  cluster_ok (sy_cluster s') /\ threads_ok s'.
Proof.
  intros I Hw Ht H.
  destruct H as [w E|key p [request Hreq]|s' H]; [| |destruct H as [i key p Hi|i key p id l Hi|i key p Hi|i key id p Hi|i key id l p Hi
    |i key id c k a w Hi Hs|i key id l r Hi|i key id r Hi|i key id l r Hi|i r Hi]]; unfold threads_ok; cbn.
  - split; [by eapply cluster_ok_elsewhere|]. intros i t Hi. specialize (Ht i t Hi). cbn in Hi |- *.
    destruct t; try exact Ht. destruct Ht as (g & Hsafe & Hf). exists g. split; [done|]. by eapply fits_elsewhere.
  - split; [done|]. intros i t Hi. cbn in Hi |- *. apply lookup_app_Some in Hi as [Hi|[_ Hi]]; [by apply (Ht i)|].
    apply list_lookup_singleton_Some in Hi as [_ <-]. by eapply handler_safe.
  - split; [done|]. apply (thread_ok_moved s i _ _ _ Ht Hi); [by apply (Ht i _ Hi)|done].
  - split; [done|]. apply (thread_ok_moved s i _ _ _ Ht Hi); [by apply (Ht i _ Hi)|done].
  - split; [done|]. apply (thread_ok_moved s i _ _ _ Ht Hi); [by apply (Ht i _ Hi)|done].
  - split; [done|]. apply (thread_ok_moved s i _ _ _ Ht Hi); [by apply (Ht i _ Hi)|done].
  - split; [done|]. apply (thread_ok_moved s i _ _ _ Ht Hi); [|done].
    exists nothing. split; [apply (Ht i _ Hi)|apply fits_nothing].
  - destruct (Ht i _ Hi) as (g & [Hp Hsafe] & Hf). destruct (call_effect key _ c a w g Hw Hp Hs) as (Hw' & Hl & _). split; [done|].
    apply (thread_ok_moved s i _ _ _ Ht Hi).
    + exists (learn g c a). split; [by apply Hsafe|]. by apply (fits_learn key (sy_cluster s) c a w g).
    + intros j t Hne Hj Hok. by eapply (thread_ok_call s i key id _ c a w g).
  - split; [done|]. apply (thread_ok_moved s i _ _ _ Ht Hi); done.
  - split; [done|]. apply (thread_ok_moved s i _ _ _ Ht Hi); done.
  - split; [done|]. apply (thread_ok_moved s i _ _ _ Ht Hi); done.
  - split; [done|]. apply (thread_ok_moved s i _ _ _ Ht Hi); done.
Qed.

Lemma reachable_system w s : cluster_ok w -> reachable admin requested w s -> cluster_ok (sy_cluster s) /\ threads_ok s.
Proof.
  intros Hw. induction 1 as [|s s' Hr [IH1 IH2] Hs]; [split; [done|by intros i t H]|].
  eapply system_step; [|done|done|done]. by eapply reachable_locks.
Qed.

(** Every quota that holds at the start is kept. *)
Lemma quota_kept w s key P M : quota key P M -> cluster_ok w -> (tally P (cu_runs w) <= M)%Z -> reachable admin requested w s ->
  (tally P (cu_runs (sy_cluster s)) <= M)%Z.
Proof.
  intros HQ Hw HM. induction 1 as [|s s' Hr IH H]; [done|]. destruct (reachable_system w s Hw Hr) as [Hc Ht].
  destruct H as [w' E|? ? ?|s' H]; [|exact IH|destruct H as [| | | | |i key' id c k a w' Hi Hs| | | |]; try exact IH]; cbn.
  - pose proof (tally_elsewhere key P M HQ _ _ E). lia.
  - destruct (Ht i _ Hi) as (g & [Hp _] & Hf). by eapply (tally_call key P M HQ key').
Qed.
(** ** What every run of a schedule has *)

Definition each_scheduled (key : NamespacedName) (R : AgentRun -> Prop) (w : cluster) : Prop :=
  forall k r, cu_runs w !! k = Some r -> scheduled_by (fst key) (snd key) r = true -> R r.

(** What survives progress and every admission puts into a run, the runs of
    the schedule keep.  It may refer to what was said. *)
Lemma scheduled_kept key (R : list testimony -> AgentRun -> Prop) w s :
  (forall said said' r, incl said said' -> R said r -> R said' r) ->
  (forall said x r, evolves x r -> R said x -> R said r) -> (forall said r stored, stored_as r stored -> R said r -> R said stored) ->
  (forall said sch l r, known sch -> schedule_key sch = key -> admitted said sch l r -> R said r) ->
  cluster_ok w -> each_scheduled key (R (cu_said w)) w -> reachable admin requested w s ->
  each_scheduled key (R (cu_said (sy_cluster s))) (sy_cluster s).
Proof.
  intros Hmono Hev Hst Had Hw H0. induction 1 as [|s s' Hr IH H]; [done|]. destruct (reachable_system w s Hw Hr) as [Hc Ht].
  destruct H as [w' E|? ? ?|s' H]; [|exact IH|destruct H as [| | | | |i key' id c k a w' Hi Hs| | | |]; try exact IH]; cbn; intros k0 r Hk Hs'.
  - rewrite (said_elsewhere _ _ E). destruct E as [schedule _|k1|k1 x y Hx Hxy|k1|run Hn Hl]; cbn in Hk; try by apply (IH k0).
    + apply lookup_insert_Some in Hk as [[-> <-]|[_ Hk]]; [|by apply (IH k0)]. apply (Hev _ x y Hxy), (IH k0); [done|].
      by rewrite <- (evolves_scheduled _ _ x y).
    + apply lookup_delete_Some in Hk as [_ Hk]. by apply (IH k0).
    + apply lookup_insert_Some in Hk as [[<- <-]|[_ Hk]]; [|by apply (IH k0)]. unfold scheduled_by in Hs'. rewrite Hl in Hs'.
      rewrite bool_decide_eq_false_2 in Hs' by done. by rewrite andb_false_r in Hs'.
  - destruct (Ht i _ Hi) as (g & [Hp _] & Hf). pose proof (said_serves _ _ _ _ Hs) as Hsaid. apply (Hmono _ _ _ Hsaid).
    destruct (call_effect key' _ c a w' g Hc Hp Hs) as (_ & _ & [E|(run & stored & -> & Hsto & E)]); rewrite E in Hk; [by apply (IH k0)|].
    apply lookup_insert_Some in Hk as [[<- <-]|[_ Hk]]; [|by apply (IH k0)]. cbn in Hp.
    destruct Hp as (_ & sch & l & Hks & Hkey & _ & Ha). destruct Hf as (Hf & Hin & _).
    apply (Hmono (kn_said g)); [done|]. apply (Hst _ run stored Hsto), (Had _ sch l run); [by apply Hf| |done].
    rewrite (stored_scheduled _ _ run stored Hsto) in Hs'. apply (scheduled_once (schedule_key sch) key run); [|done].
    apply (ad_scheduled _ _ _ _ Ha).
Qed.
End Quotas.
