(* ===== verification/OperatorCompose.v ===== *)
(** * A comment producer and the operator it submits to

    The request the producer prints is the request the operator decodes, the
    answer the operator prints is the answer the producer decodes, and what the
    producer concludes from an answer is what the operator did. *)
From stdpp Require Import base list strings gmap.
From Stdlib Require Import ZArith Lia Ascii.
From S2P Require Import Prelude GoStrings GoUrl GoJson GoJsonPrint GoHttp Contract Validation LocalRun GithubCommand GithubSubmit GithubCompose Program OperatorTypes OperatorPolicy OperatorProfiles OperatorSchedule OperatorAdmission OperatorLocks OperatorProps.


Local Open Scope go_scope.
Local Open Scope string_scope.

(** ** What is on the wire *)

(** The producer's request in the operator's types. *)
Definition operator_view (r : profiledScheduleAdmissionRequest) : scheduleAdmissionRequest :=
  let w := fr_Work r in
  let p := fw_Principal w in
  mkAdmitRequest (fr_Workflow r)
    (mkAdmitWork (fw_ID w) (fw_Group w) (fw_Title w) (fw_URL w) (fw_Repository w)
       (Some (mkAdmitPrincipal (fp_Issuer p) (fp_Subject p) (fp_DisplayName p))))
    (Some (fr_Prompt r)) None.

Lemma operator_decodes decode_run r : request_text_ok r = true ->
  exists raw, decode_body decode_run (json_Marshal r) = Some (raw, operator_view r) /\ validateProfiledAdmissionShape raw = true
    /\ (fr_Workflow r = "" -> json_get raw "workflow" = None).
Proof.
  intros Hok. unfold decode_body. rewrite (request_document r Hok). clear Hok.
  destruct r as [workflow [id group title url repository [issuer subject display]] prompt].
  unfold to_json, ToJson_request. cbn [fr_Workflow fr_Work fr_Prompt].
  unfold to_json, ToJson_work, to_json, ToJson_principal, omitempty. cbn [fw_ID fw_Group fw_Title fw_URL fw_Repository fw_Principal fp_Issuer fp_Subject fp_DisplayName].
  destruct (String.eqb_spec workflow "") as [->|Hw], (String.eqb_spec group "") as [->|]; eexists; (split; [reflexivity|]); split; done.
Qed.

(** The operator's answer in the producer's types. *)
Definition producer_view (body : scheduleAdmissionResponse) : GithubSubmit.scheduleAdmissionResponse :=
  mkAdmissionResponse (an_Scheduled body) (an_Reason body) (an_AgentRun body).

(** An answer in UTF-8 that is within the producer's limit. *)
Definition body_fits (body : scheduleAdmissionResponse) : bool :=
  json_ok (to_json body) && (len (response_text body) <=? maxScheduleAdmissionResponseBytes)%Z.

Lemma producer_decodes body : body_fits body = true -> decodeScheduleAdmissionContract (response_text body) = Some (producer_view body).
Proof.
  unfold body_fits. intros [Hok Hlen]%andb_prop. unfold decodeScheduleAdmissionContract. apply Z.leb_le in Hlen.
  rewrite (proj2 (Z.ltb_ge _ _)) by exact Hlen. clear Hlen. unfold response_text, json_Marshal.
  rewrite (proj2 (json_document_print _ Hok)). clear Hok.
  destruct body as [scheduled reason [[namespace name]|]]; unfold to_json, response_json, omitempty; cbn [an_Scheduled an_Reason an_AgentRun];
    destruct (String.eqb_spec reason "") as [->|]; reflexivity.
Qed.

(** ** What the producer concludes *)

Definition received (answer : string) : string := String.substring 0 (Z.to_nat (maxScheduleAdmissionResponseBytes + 1)) answer.

(** The texts end in a newline, and [http.Error] adds one; a crash closes the
    connection. *)
Definition understood (key : string) (r : response) : submission :=
  match r with
  | Text status message => classify_response key status (received (message ++ newline ++ newline))
  | Json status body => classify_response key status (received (response_text body))
  | Crash => uncertain
  end.

Lemma classify_other key status body : (status =? 201)%Z = false -> (status =? 202)%Z = false ->
  sm_Outcome (fst (classify_response key status body)) <> schedulingOutcomeAccepted.
Proof.
  unfold classify_response. intros -> ->. destruct (_ =? 429)%Z, (decodeScheduleAdmissionContract body); try done;
    by destruct (_ : bool).
Qed.

Lemma classify_not_none key status body : sm_Outcome (fst (classify_response key status body)) <> schedulingOutcomeNone.
Proof. unfold classify_response. repeat (case_match; try done). Qed.

Lemma classify_201 key body : classify_response key 201 body = accepted key true \/ classify_response key 201 body = uncertain.
Proof. unfold classify_response. cbn [Z.eqb Pos.eqb]. repeat (case_match; auto). Qed.

Lemma received_fits body : body_fits body = true -> received (response_text body) = response_text body.
Proof.
  intros H. apply andb_prop in H as [_ H]. apply Z.leb_le in H. unfold received.
  assert (Hm : (0 <= maxScheduleAdmissionResponseBytes)%Z) by (vm_compute; discriminate).
  revert H Hm. generalize maxScheduleAdmissionResponseBytes as m. intros m H Hm. apply limit_short; lia.
Qed.

(** ** What the operator did *)

(** The runs it listed, and the answer to its creation. *)
Record story := mkStory { to_runs : option (list AgentRun); to_created : option bool }.

Definition tell (g : story) (c : call) : answer c -> story :=
  match c return answer c -> story with
  | ListRuns _ _ => fun a => match a with Some runs => mkStory (Some runs) (to_created g) | None => g end
  | CreateRun _ => fun b => mkStory (to_runs g) (Some b)
  | _ => fun _ => g
  end.

(** One creation at most. *)
Definition once (g : story) (c : call) : Prop := match c with CreateRun _ => to_created g = None | _ => True end.

Definition untold : story := mkStory None None.

(** The conclusion agrees with the story: the producer takes for accepted what
    was created or what the schedule already runs or has run, and retries or
    gives up only what was never created. *)
Definition agrees (admission : scheduleAdmissionRequest) (key : string) (g : story) (r : response) : Prop :=
  let conclusion := fst (understood key r) in
  match sm_Outcome conclusion with
  | schedulingOutcomeAccepted =>
      if sm_Created conclusion then to_created g = Some true
      else exists runs, to_runs g = Some runs
        /\ retainedWorkExists runs (TrimSpace (sw_ID (sq_Work admission)))
           || activeWorkGroupExists runs (TrimSpace (sw_Group (sq_Work admission))) = true
  | schedulingOutcomeDeferred | schedulingOutcomeRejected => to_created g = None
  | schedulingOutcomeUncertain => True
  | schedulingOutcomeNone => False
  end
  /\ (to_created g = Some true -> exists body, r = Json 201 body /\ (body_fits body = true -> understood key r = accepted key true)).

Lemma tell_background g c r : background c = true -> once g c /\ tell g c r = g.
Proof. by destruct c. Qed.

Section Outcomes.
Context (env : string -> string) (owner : ObjectMeta -> ObjectMeta -> result string (list OwnerReference))
  (decode_run : option AgentRun -> json -> option AgentRun) (accounts coordination : bool).
Context (admission : scheduleAdmissionRequest) (key : string).

Abbreviation safe := (safe legit once tell).
Abbreviation agrees := (agrees admission key).

Lemma agrees_refuses g : to_created g = None -> refuses agrees g.
Proof.
  intros Hg r Hr. split; [|by rewrite Hg].
  assert (H : forall status body, negb (status =? 201)%Z && negb (status =? 202)%Z = true -> understood key r = classify_response key status body ->
    match sm_Outcome (fst (understood key r)) with
    | schedulingOutcomeAccepted => False | schedulingOutcomeNone => False | schedulingOutcomeUncertain => True | _ => to_created g = None end).
  { intros status body Hs ->. apply andb_prop in Hs as [H1%negb_true_iff H2%negb_true_iff].
    pose proof (classify_other key status body H1 H2). pose proof (classify_not_none key status body).
    by destruct (sm_Outcome _). }
  destruct r as [status message|status body|]; [..|done]; specialize (H status _ Hr eq_refl); revert H;
    by destruct (sm_Outcome _).
Qed.

Lemma agrees_created g namespace name : agrees (mkStory g (Some true)) (Json 201 (mkAdmitResponse true "" (Some (namespace, name)))).
Proof.
  set (body := mkAdmitResponse _ _ _). assert (Hfits : body_fits body = true -> understood key (Json 201 body) = accepted key true).
  { intros Hf. cbn [understood]. rewrite (received_fits body Hf). unfold classify_response. by rewrite (producer_decodes body Hf). }
  split; [|intros _; by exists body]. cbn [understood].
  destruct (classify_201 key (received (response_text body))) as [->| ->]; done.
Qed.

Lemma agrees_failed g : agrees (mkStory g (Some false)) (Text 500 "create AgentRun failed").
Proof. split; [|done]. cbn [understood]. unfold classify_response. cbn [Z.eqb Pos.eqb]. by repeat case_match. Qed.

Lemma create_told g schedule profiled work run : to_created g = None ->
  safe (answers agrees agrees) g (create_run env owner schedule profiled work run).
Proof.
  intros Hg. apply create_run_safe; [apply tell_background|by apply agrees_refuses|]. intros random run1 run2 _ _.
  split; [done|]. split; [apply agrees_created|apply agrees_failed].
Qed.

Lemma build_told g schedule who work prompt resolved : to_created g = None ->
  safe agrees g (finish (ebind (profiled_run schedule who prompt resolved) (create_run env owner schedule true work))).
Proof.
  intros Hg. apply safe_finish, safe_ebind, profiled_run_safe; [apply tell_background|by apply agrees_refuses|]. intros profile run _ _.
  by apply create_told.
Qed.

Lemma admit_told g schedule who work prompt : to_created g = None ->
  (ScheduleUsesPrincipalCredentials schedule = true -> cl_principal who <> None) ->
  safe agrees g (admit_profiled env owner accounts coordination schedule who work prompt).
Proof.
  intros Hg Hdyn. assert (Haccount : safe agrees g (pbind (resolvePrincipalCredentialProfile accounts schedule (cl_principal who)) (fun resolved =>
      finish (ebind (profiled_run schedule who prompt resolved) (create_run env owner schedule true work))))).
  { apply safe_bind, resolvePrincipal_safe; [done|intros; by apply build_told..]. }
  unfold admit_profiled. destruct (cl_principal who) as [p|] eqn:Ep.
  - destruct (_ || _); [by apply agrees_refuses|]. destruct (negb (ScheduleUsesPrincipalCredentials schedule)); [by apply build_told|].
    destruct (negb coordination); [exact Haccount|].
    apply safe_bind. unfold reserve. apply safe_background; [apply tell_background|done|].
    intros [bytes|]; [|by apply build_told]. split; [done|]. intros [[]|e] _; [|by destruct e; apply build_told].
    cbn [Program.safe tell]. apply safe_bind. eapply safe_mono; [|exact Haccount]. intros g' r Hr. split; [done|]. by intros [] _.
  - destruct (ScheduleUsesPrincipalCredentials schedule) eqn:Es; cbn [negb]; [by destruct (Hdyn eq_refl)|by apply build_told].
Qed.

Lemma serve_told namespace name authorization raw :
  safe agrees untold (finish (serve_locked env owner accounts coordination namespace name authorization raw admission)).
Proof.
  apply safe_finish. unfold serve_locked. apply safe_ebind, safe_then_do. split; [done|].
  intros [schedule| |] _; cbn [Program.safe tell]; [|by apply agrees_refuses..].
  assert (Hcaller : safe (answers agrees (fun g' who => g' = untold
      /\ (ScheduleUsesExecutionProfiles schedule = true -> ScheduleUsesPrincipalCredentials schedule = true -> cl_principal who <> None)))
    untold (if ScheduleUsesExecutionProfiles schedule then authenticate_caller schedule authorization raw admission
       else go (mkCaller "" None None))).
  { destruct (ScheduleUsesExecutionProfiles schedule) eqn:Eu; [|done].
    apply authenticate_caller_safe; [apply tell_background|by apply agrees_refuses|done|intros; by apply agrees_refuses|].
    intros token status who _ _ _ Hp. split; [done|]. intros _ Hc. by eapply dynamic_principal, Hp. }
  apply safe_ebind. eapply safe_mono; [|exact Hcaller]. clear Hcaller. intros g' [r|who] Hg; [done|]. destruct Hg as [-> Hdyn].
  destruct (_ =? ""); [by apply agrees_refuses|]. destruct (_ || _); [by apply agrees_refuses|].
  apply safe_ebind, safe_then_do. split; [done|]. intros [runs|] _; cbn [Program.safe tell]; [|by apply agrees_refuses].
  apply safe_ebind, check_capacity_safe; [apply tell_background|by apply agrees_refuses| | |].
  - intros Hdup. split; [|done]. by exists runs.
  - intros _. by split.
  - intros limit _ _ _ _ _ _. destruct (ScheduleUsesExecutionProfiles schedule) eqn:Eu.
    + apply safe_then_do, admit_told; [done|by apply Hdyn].
    + apply safe_ebind, legacy_run_safe; [apply tell_background|by apply agrees_refuses|]. intros run. by apply create_told.
Qed.
End Outcomes.
