(* ===== verification/EgressConfig.v ===== *)
(** * The egress daemon's configuration (egressd/internal/egress/config.go)

    The configuration file, its decoding and the rules of [Config.Validate].
    Whether a text holds a PEM certificate is crypto/x509's answer, an
    argument.  Error texts leave out the values the code quotes into them. *)
From stdpp Require Import base list strings gmap.
From Stdlib Require Import ZArith Lia Ascii.
From S2P Require Import Prelude GoStrings GoUrl GoJson GoJsonPrint GoHttp Contract Validation Egress.


Local Open Scope Z_scope.
Local Open Scope go_scope.
Local Open Scope string_scope.

Definition RouteListenTLSCA : string := "ca".

Record Route := mkRoute {
  ro_Listen : string;
  ro_Capability : string;
  ro_Upstream : string;
  ro_InjectionHost : string;
  ro_AllowInsecureUpstream : bool;
  ro_ListenTLSCert : string;
  ro_ListenTLSKey : string;
  ro_ListenTLS : string;
  ro_MaxRequests : Z
}.

Definition TLSEnabled (r : Route) : bool :=
  (ro_ListenTLS r =? RouteListenTLSCA) || negb (ro_ListenTLSCert r =? "") && negb (ro_ListenTLSKey r =? "").

Record CAConfig := mkCAConfig {
  ca_PublishDir : string;
  ca_LeafDNSNames : list string;
  ca_ServeAddr : string;
  ca_CertFile : string;
  ca_KeyFile : string
}.

Record Config := mkConfig {
  co_BrokerURL : string;
  co_AllowInsecureBroker : bool;
  co_BrokerCAFile : string;
  co_Routes : list Route;
  co_ForwardProxy : option ForwardProxyConfig;
  co_CA : option CAConfig
}.

(** ** Decoding *)

(** A slice: null is nil, and the elements are decoded one by one into zero
    values. *)
Definition into_elements {T E} (element : json -> option E) (put : list E -> T -> T) (v : json) (x : T) : option T :=
  match v with
  | JNull => Some (put [] x)
  | JArray l => (fun es => put es x) <$> mapM element l
  | _ => None
  end.

Definition string_element (v : json) : option string := match v with JString s => Some s | JNull => Some "" | _ => None end.

Definition int_element (v : json) : option Z := match v with JNumber text => parse_int64 text | JNull => Some 0 | _ => None end.

Definition struct_element {E} (fields : list (field json E)) (zero : E) (v : json) : option E :=
  match v with JObject ms => unmarshal_members fields ms zero | JNull => Some zero | _ => None end.

(** A pointer to a struct: null clears it, an object is decoded into what it
    points to or into a new value. *)
Definition into_optional {T U} (fields : list (field json U)) (zero : U) (get : T -> option U) (put : option U -> T -> T)
    (v : json) (x : T) : option T :=
  match v with
  | JNull => Some (put None x)
  | JObject ms => (fun u => put (Some u) x) <$> unmarshal_members fields ms (default zero (get x))
  | _ => None
  end.

Definition route_fields : list (field json Route) :=
  [("listen", into_string (fun s r => mkRoute s (ro_Capability r) (ro_Upstream r) (ro_InjectionHost r) (ro_AllowInsecureUpstream r) (ro_ListenTLSCert r) (ro_ListenTLSKey r) (ro_ListenTLS r) (ro_MaxRequests r)));
   ("capability", into_string (fun s r => mkRoute (ro_Listen r) s (ro_Upstream r) (ro_InjectionHost r) (ro_AllowInsecureUpstream r) (ro_ListenTLSCert r) (ro_ListenTLSKey r) (ro_ListenTLS r) (ro_MaxRequests r)));
   ("upstream", into_string (fun s r => mkRoute (ro_Listen r) (ro_Capability r) s (ro_InjectionHost r) (ro_AllowInsecureUpstream r) (ro_ListenTLSCert r) (ro_ListenTLSKey r) (ro_ListenTLS r) (ro_MaxRequests r)));
   ("allow_insecure_upstream", into_bool (fun b r => mkRoute (ro_Listen r) (ro_Capability r) (ro_Upstream r) (ro_InjectionHost r) b (ro_ListenTLSCert r) (ro_ListenTLSKey r) (ro_ListenTLS r) (ro_MaxRequests r)));
   ("listen_tls_cert", into_string (fun s r => mkRoute (ro_Listen r) (ro_Capability r) (ro_Upstream r) (ro_InjectionHost r) (ro_AllowInsecureUpstream r) s (ro_ListenTLSKey r) (ro_ListenTLS r) (ro_MaxRequests r)));
   ("listen_tls_key", into_string (fun s r => mkRoute (ro_Listen r) (ro_Capability r) (ro_Upstream r) (ro_InjectionHost r) (ro_AllowInsecureUpstream r) (ro_ListenTLSCert r) s (ro_ListenTLS r) (ro_MaxRequests r)));
   ("listen_tls", into_string (fun s r => mkRoute (ro_Listen r) (ro_Capability r) (ro_Upstream r) (ro_InjectionHost r) (ro_AllowInsecureUpstream r) (ro_ListenTLSCert r) (ro_ListenTLSKey r) s (ro_MaxRequests r)));
   ("max_requests", into_int64 (fun n r => mkRoute (ro_Listen r) (ro_Capability r) (ro_Upstream r) (ro_InjectionHost r) (ro_AllowInsecureUpstream r) (ro_ListenTLSCert r) (ro_ListenTLSKey r) (ro_ListenTLS r) n))].

Definition no_route : Route := mkRoute "" "" "" "" false "" "" "" 0.

Definition ca_fields : list (field json CAConfig) :=
  [("publish_dir", into_string (fun s c => mkCAConfig s (ca_LeafDNSNames c) (ca_ServeAddr c) (ca_CertFile c) (ca_KeyFile c)));
   ("leaf_dns_names", into_elements string_element (fun l c => mkCAConfig (ca_PublishDir c) l (ca_ServeAddr c) (ca_CertFile c) (ca_KeyFile c)));
   ("serve_addr", into_string (fun s c => mkCAConfig (ca_PublishDir c) (ca_LeafDNSNames c) s (ca_CertFile c) (ca_KeyFile c)));
   ("cert_file", into_string (fun s c => mkCAConfig (ca_PublishDir c) (ca_LeafDNSNames c) (ca_ServeAddr c) s (ca_KeyFile c)));
   ("key_file", into_string (fun s c => mkCAConfig (ca_PublishDir c) (ca_LeafDNSNames c) (ca_ServeAddr c) (ca_CertFile c) s))].

Definition no_ca : CAConfig := mkCAConfig "" [] "" "" "".

Definition policy_fields : list (field json DomainPolicy) :=
  [("default_action", into_string (fun s p => mkDomainPolicy s (dp_Allow p) (dp_Deny p)));
   ("allow", into_elements string_element (fun l p => mkDomainPolicy (dp_DefaultAction p) (Some l) (dp_Deny p)));
   ("deny", into_elements string_element (fun l p => mkDomainPolicy (dp_DefaultAction p) (dp_Allow p) (Some l)))].

Definition no_policy : DomainPolicy := mkDomainPolicy "" None None.

Definition inject_fields : list (field json ForwardProxyInjectRoute) :=
  [("host", into_string (fun s r => mkInjectRoute s (ir_Capability r) (ir_Upstream r) (ir_AllowInsecureUpstream r) (ir_UpstreamCAPEM r) (ir_UpstreamServerName r) (ir_AllowPrivateUpstream r) (ir_MaxRequests r) (ir_RequireCapabilityHint r)));
   ("capability", into_string (fun s r => mkInjectRoute (ir_Host r) s (ir_Upstream r) (ir_AllowInsecureUpstream r) (ir_UpstreamCAPEM r) (ir_UpstreamServerName r) (ir_AllowPrivateUpstream r) (ir_MaxRequests r) (ir_RequireCapabilityHint r)));
   ("upstream", into_string (fun s r => mkInjectRoute (ir_Host r) (ir_Capability r) s (ir_AllowInsecureUpstream r) (ir_UpstreamCAPEM r) (ir_UpstreamServerName r) (ir_AllowPrivateUpstream r) (ir_MaxRequests r) (ir_RequireCapabilityHint r)));
   ("allow_insecure_upstream", into_bool (fun b r => mkInjectRoute (ir_Host r) (ir_Capability r) (ir_Upstream r) b (ir_UpstreamCAPEM r) (ir_UpstreamServerName r) (ir_AllowPrivateUpstream r) (ir_MaxRequests r) (ir_RequireCapabilityHint r)));
   ("upstream_ca_pem", into_string (fun s r => mkInjectRoute (ir_Host r) (ir_Capability r) (ir_Upstream r) (ir_AllowInsecureUpstream r) s (ir_UpstreamServerName r) (ir_AllowPrivateUpstream r) (ir_MaxRequests r) (ir_RequireCapabilityHint r)));
   ("upstream_server_name", into_string (fun s r => mkInjectRoute (ir_Host r) (ir_Capability r) (ir_Upstream r) (ir_AllowInsecureUpstream r) (ir_UpstreamCAPEM r) s (ir_AllowPrivateUpstream r) (ir_MaxRequests r) (ir_RequireCapabilityHint r)));
   ("allow_private_upstream", into_bool (fun b r => mkInjectRoute (ir_Host r) (ir_Capability r) (ir_Upstream r) (ir_AllowInsecureUpstream r) (ir_UpstreamCAPEM r) (ir_UpstreamServerName r) b (ir_MaxRequests r) (ir_RequireCapabilityHint r)));
   ("max_requests", into_int64 (fun n r => mkInjectRoute (ir_Host r) (ir_Capability r) (ir_Upstream r) (ir_AllowInsecureUpstream r) (ir_UpstreamCAPEM r) (ir_UpstreamServerName r) (ir_AllowPrivateUpstream r) n (ir_RequireCapabilityHint r)));
   ("require_capability_hint", into_bool (fun b r => mkInjectRoute (ir_Host r) (ir_Capability r) (ir_Upstream r) (ir_AllowInsecureUpstream r) (ir_UpstreamCAPEM r) (ir_UpstreamServerName r) (ir_AllowPrivateUpstream r) (ir_MaxRequests r) b))].

Definition no_inject : ForwardProxyInjectRoute := mkInjectRoute "" "" "" false "" "" false 0 false.

Definition proxy_fields : list (field json ForwardProxyConfig) :=
  [("listen", into_string (fun s c => mkForwardProxyConfig s (fc_TransparentMode c) (fc_AllowHosts c) (fc_AllowUnmatchedHosts c) (fc_DomainPolicy c) (fc_AllowPorts c) (fc_MaxConcurrentTunnels c) (fc_TunnelIdleTimeoutSeconds c) (fc_DenyCIDRs c) (fc_InjectRoutes c)));
   ("transparent_mode", into_bool (fun b c => mkForwardProxyConfig (fc_Listen c) b (fc_AllowHosts c) (fc_AllowUnmatchedHosts c) (fc_DomainPolicy c) (fc_AllowPorts c) (fc_MaxConcurrentTunnels c) (fc_TunnelIdleTimeoutSeconds c) (fc_DenyCIDRs c) (fc_InjectRoutes c)));
   ("allow_hosts", into_elements string_element (fun l c => mkForwardProxyConfig (fc_Listen c) (fc_TransparentMode c) l (fc_AllowUnmatchedHosts c) (fc_DomainPolicy c) (fc_AllowPorts c) (fc_MaxConcurrentTunnels c) (fc_TunnelIdleTimeoutSeconds c) (fc_DenyCIDRs c) (fc_InjectRoutes c)));
   ("allow_unmatched_hosts", into_bool (fun b c => mkForwardProxyConfig (fc_Listen c) (fc_TransparentMode c) (fc_AllowHosts c) b (fc_DomainPolicy c) (fc_AllowPorts c) (fc_MaxConcurrentTunnels c) (fc_TunnelIdleTimeoutSeconds c) (fc_DenyCIDRs c) (fc_InjectRoutes c)));
   ("domain_policy", into_optional policy_fields no_policy fc_DomainPolicy (fun p c => mkForwardProxyConfig (fc_Listen c) (fc_TransparentMode c) (fc_AllowHosts c) (fc_AllowUnmatchedHosts c) p (fc_AllowPorts c) (fc_MaxConcurrentTunnels c) (fc_TunnelIdleTimeoutSeconds c) (fc_DenyCIDRs c) (fc_InjectRoutes c)));
   ("allow_ports", into_elements int_element (fun l c => mkForwardProxyConfig (fc_Listen c) (fc_TransparentMode c) (fc_AllowHosts c) (fc_AllowUnmatchedHosts c) (fc_DomainPolicy c) l (fc_MaxConcurrentTunnels c) (fc_TunnelIdleTimeoutSeconds c) (fc_DenyCIDRs c) (fc_InjectRoutes c)));
   ("max_concurrent_tunnels", into_int64 (fun n c => mkForwardProxyConfig (fc_Listen c) (fc_TransparentMode c) (fc_AllowHosts c) (fc_AllowUnmatchedHosts c) (fc_DomainPolicy c) (fc_AllowPorts c) n (fc_TunnelIdleTimeoutSeconds c) (fc_DenyCIDRs c) (fc_InjectRoutes c)));
   ("tunnel_idle_timeout_seconds", into_int64 (fun n c => mkForwardProxyConfig (fc_Listen c) (fc_TransparentMode c) (fc_AllowHosts c) (fc_AllowUnmatchedHosts c) (fc_DomainPolicy c) (fc_AllowPorts c) (fc_MaxConcurrentTunnels c) n (fc_DenyCIDRs c) (fc_InjectRoutes c)));
   ("deny_cidrs", into_elements string_element (fun l c => mkForwardProxyConfig (fc_Listen c) (fc_TransparentMode c) (fc_AllowHosts c) (fc_AllowUnmatchedHosts c) (fc_DomainPolicy c) (fc_AllowPorts c) (fc_MaxConcurrentTunnels c) (fc_TunnelIdleTimeoutSeconds c) l (fc_InjectRoutes c)));
   ("inject_routes", into_elements (struct_element inject_fields no_inject) (fun l c => mkForwardProxyConfig (fc_Listen c) (fc_TransparentMode c) (fc_AllowHosts c) (fc_AllowUnmatchedHosts c) (fc_DomainPolicy c) (fc_AllowPorts c) (fc_MaxConcurrentTunnels c) (fc_TunnelIdleTimeoutSeconds c) (fc_DenyCIDRs c) l))].

Definition no_proxy : ForwardProxyConfig := mkForwardProxyConfig "" false [] false None [] 0 0 [] [].

Definition config_fields : list (field json Config) :=
  [("broker_url", into_string (fun s c => mkConfig s (co_AllowInsecureBroker c) (co_BrokerCAFile c) (co_Routes c) (co_ForwardProxy c) (co_CA c)));
   ("allow_insecure_broker", into_bool (fun b c => mkConfig (co_BrokerURL c) b (co_BrokerCAFile c) (co_Routes c) (co_ForwardProxy c) (co_CA c)));
   ("broker_ca_file", into_string (fun s c => mkConfig (co_BrokerURL c) (co_AllowInsecureBroker c) s (co_Routes c) (co_ForwardProxy c) (co_CA c)));
   ("routes", into_elements (struct_element route_fields no_route) (fun l c => mkConfig (co_BrokerURL c) (co_AllowInsecureBroker c) (co_BrokerCAFile c) l (co_ForwardProxy c) (co_CA c)));
   ("forward_proxy", into_optional proxy_fields no_proxy co_ForwardProxy (fun p c => mkConfig (co_BrokerURL c) (co_AllowInsecureBroker c) (co_BrokerCAFile c) (co_Routes c) p (co_CA c)));
   ("ca", into_optional ca_fields no_ca co_CA (fun p c => mkConfig (co_BrokerURL c) (co_AllowInsecureBroker c) (co_BrokerCAFile c) (co_Routes c) (co_ForwardProxy c) p))].

(** [json.Unmarshal(raw, &config)] of a document. *)
Definition decode_config (document : json) : option Config :=
  struct_element config_fields (mkConfig "" false "" [] None None) document.

(** ** Rules *)

Section Rules.
(** [x509.NewCertPool().AppendCertsFromPEM] *)
Variable appends_certificate : string -> bool.

Definition check_broker (c : Config) : result string unit :=
  match url_Parse (co_BrokerURL c) with
  | None => Err "broker_url must be a valid URL"
  | Some parsed =>
      reject (Host parsed =? "") "broker_url must be a valid URL" |>>
      if Scheme parsed =? "https" then Ok tt
      else if Scheme parsed =? "http"
      then reject (negb (co_AllowInsecureBroker c)) "broker_url must be https unless allow_insecure_broker is set (local dev only)"
      else Err "broker_url must be an http(s) URL"
  end.

Definition check_route (c : Config) (route : Route) : result string unit :=
  reject (ro_Listen route =? "") "listen is required" |>>
  reject (ro_Capability route =? "") "capability is required" |>>
  validateUpstream (ro_Upstream route) |>>
  reject (ro_MaxRequests route <? 0)%Z "max_requests must be non-negative" |>>
  reject (xorb (ro_ListenTLSCert route =? "") (ro_ListenTLSKey route =? ""))
    "listen_tls_cert and listen_tls_key must be set together" |>>
  if ro_ListenTLS route =? "" then Ok tt
  else if ro_ListenTLS route =? RouteListenTLSCA then
    reject (negb (ro_ListenTLSCert route =? "") || negb (ro_ListenTLSKey route =? ""))
      "listen_tls: ca is mutually exclusive with listen_tls_cert/listen_tls_key" |>>
    reject (bool_decide (co_CA c = None)) "listen_tls: ca requires the config-level ca block"
  else Err "listen_tls must be ca when set".

Definition inject_routes (c : Config) : list ForwardProxyInjectRoute := match co_ForwardProxy c with Some p => fc_InjectRoutes p | None => [] end.

(** The hosts of the routes' upstreams. *)
Definition route_hosts (c : Config) : list string := omap (fun r => normalizedRouteUpstreamHost (ro_Upstream r)) (co_Routes c).

(** [realUpstreamHosts] *)
Definition real_hosts (c : Config) : list string :=
  (route_hosts c ++ omap (fun r => normalizeProxyHost (ir_Host r)) (inject_routes c)
   ++ omap (fun r => normalizedRouteUpstreamHost (ir_Upstream r)) (inject_routes c))%list.

Definition check_ca (c : Config) (ca : CAConfig) : result string unit :=
  reject (xorb (ca_CertFile ca =? "") (ca_KeyFile ca =? "")) "ca cert_file and key_file must be set together" |>>
  reject ((ca_PublishDir ca =? "") && (ca_ServeAddr ca =? "") && (ca_CertFile ca =? ""))
    "ca requires publish_dir, serve_addr, or cert_file/key_file" |>>
  each (fun name =>
    reject (name =? "") "ca.leaf_dns_names must not be empty" |>>
    reject (mem (ToLower name) (real_hosts c)) "ca.leaf_dns_names matches a real upstream host") (ca_LeafDNSNames ca).

(** The key of [injectHostCapabilities]. *)
Definition host_capability (host capability : string) : string := host ++ String (Ascii.ascii_of_nat 0) capability.

Definition route_key (r : ForwardProxyInjectRoute) : option string :=
  (fun host => host_capability host (ir_Capability r)) <$> normalizeProxyHost (ir_Host r).

Definition server_name_forbidden : string :=
  "/" ++ String "092" ("@?# " ++ String "009" (String "013" (String "010" ""))).

(** One turn of the loop over the inject routes, after [seen]. *)
Definition check_inject (blindHosts routeHosts : list string) (seen : list ForwardProxyInjectRoute) (route : ForwardProxyInjectRoute)
    : result string unit :=
  match normalizeProxyHost (ir_Host route) with
  | None => Err "inject_routes host is invalid"
  | Some host =>
      reject (bool_decide (is_Some (ParseIP host))) "inject_routes host must be a DNS name, not an IP" |>>
      reject (ir_Capability route =? "") "inject_routes capability is required" |>>
      validateUpstream (ir_Upstream route) |>>
      reject (ir_MaxRequests route <? 0)%Z "inject_routes max_requests must be non-negative" |>>
      reject (xorb (ir_UpstreamCAPEM route =? "") (ir_UpstreamServerName route =? ""))
        "inject_routes must set upstream_ca_pem and upstream_server_name together" |>>
      (if ir_UpstreamCAPEM route =? "" then Ok tt
       else reject (negb (appends_certificate (ir_UpstreamCAPEM route))) "inject_routes upstream_ca_pem is invalid" |>>
            reject (ContainsAny (ir_UpstreamServerName route) server_name_forbidden) "inject_routes upstream_server_name is invalid") |>>
      reject (ir_AllowPrivateUpstream route && ((ir_UpstreamCAPEM route =? "") || ir_AllowInsecureUpstream route))
        "inject_routes private upstream requires pinned TLS CA and server name" |>>
      reject (mem (host_capability host (ir_Capability route)) (omap route_key seen))
        "inject_routes host and capability are duplicated" |>>
      reject (mem host blindHosts || mem host routeHosts) "inject_routes host overlaps a blind-tunnel or mediated route host"
  end.

Definition validateForwardProxyRouteOverlap (c : Config) (proxy : ForwardProxyConfig) : result string unit :=
  each (fun host => reject (mem (ToLower host) (route_hosts c)) "forward_proxy.allow_hosts overlaps mediated route upstream")
    (fc_AllowHosts proxy) |>>
  each_seen (check_inject (omap normalizeProxyHost (fc_AllowHosts proxy)) (route_hosts c)) [] (fc_InjectRoutes proxy).

Definition Config_Validate (c : Config) : result string unit :=
  reject (bool_decide (co_Routes c = []) && bool_decide (co_ForwardProxy c = None)) "at least one route or forward_proxy is required" |>>
  (if bool_decide (co_Routes c <> []) || bool_decide (inject_routes c <> []) then check_broker c else Ok tt) |>>
  each (check_route c) (co_Routes c) |>>
  match co_CA c with None => Ok tt | Some ca => check_ca c ca end |>>
  match co_ForwardProxy c with
  | None => Ok tt
  | Some proxy =>
      ForwardProxyConfig_Validate proxy |>>
      validateForwardProxyRouteOverlap c proxy |>>
      reject (bool_decide (fc_InjectRoutes proxy <> []) && bool_decide (co_CA c = None))
        "forward_proxy.inject_routes require the config-level ca block"
  end.

(** [LoadConfig] of the file's document. *)
Definition LoadConfig (document : json) : result string Config :=
  match decode_config document with
  | None => Err "parse config"
  | Some config => Config_Validate config |>> Ok config
  end.
End Rules.

Definition ForwardProxyUpstreamLeafNames (c : Config) : list string := omap (fun r => normalizeProxyHost (ir_Host r)) (inject_routes c).
