(* ===== verification/Injection.v ===== *)
(** * Credential injection (egressd/internal/egress: proxy.go, broker.go)

    The proxy behind a route: it asks the broker for the headers that authorize
    a request, puts them into the request in place of what the caller sent, and
    forwards it to the route's upstream.

    A Go map is ranged over in any order, so what ranges over one takes the
    order of its visit as an argument ([visit]).  The broker's and the
    upstream's answers and the readings of the clock are arguments too; a time
    is the number of nanoseconds since the zero [time.Time]. *)
From stdpp Require Import base list gmap strings.
From Stdlib Require Import ZArith Lia Ascii.
From S2P Require Import Prelude GoStrings GoUrl GoJson GoJsonPrint GoHttp GoEncoding Contract Validation Egress EgressConfig.


Local Open Scope Z_scope.
Local Open Scope string_scope.

(** ** Headers (net/http, net/textproto) *)

Definition validHeaderFieldByte (c : ascii) : bool := alphanumeric c || one_of "!#$%&'*+-.^_`|~" c.

Definition fold_byte (c : ascii) : ascii := if is_upper c then byte (code c + 32) else c.

Fixpoint canonical_from (upper : bool) (s : string) : string :=
  match s with
  | EmptyString => ""
  | String c rest => String (if upper then upper_byte c else fold_byte c) (canonical_from (c =? "-")%char rest)
  end.

(** [http.CanonicalHeaderKey] *)
Definition CanonicalHeaderKey (s : string) : string :=
  if all_bytes validHeaderFieldByte s then canonical_from true s else s.

Abbreviation Header := (gmap string (list string)).

Definition header_Set (name value : string) (h : Header) : Header := <[CanonicalHeaderKey name := [value]]> h.
Definition header_Values (h : Header) (name : string) : list string := default [] (h !! CanonicalHeaderKey name).
Definition header_Get (h : Header) (name : string) : string := hd "" (header_Values h name).

Definition headerHasToken (header : Header) (name token : string) : bool :=
  existsb (fun value => existsb (fun part => EqualFold (TrimSpace part) token) (Split value ","%char))
    (header_Values header name).

(** ** Requests (net/http, net/url) *)

(** [url.ParseRequestURI], by which the server reads the target of a request
    line: it differs from [url.Parse] where there is no scheme. *)
Definition ParseRequestURI (raw : string) : option URL :=
  if raw =? "" then None
  else if any_byte is_ctl raw then None
  else if raw =? "*" then parse_url raw
  else match getScheme raw raw true "" with
  | SchemeError => None
  | SchemeSplit scheme _ =>
      if negb (scheme =? "") then parse_url raw
      else
        let '(before, after, found) := Cut raw "?"%char in
        if negb (HasPrefix before "/") then None
        else set_path (mkURL "" "" None "" "" "" false (found && (after =? "")) after "" "") before
  end.

(** [URL.RequestURI] *)
Definition RequestURI (u : URL) : string :=
  (if Opaque u =? "" then (if EscapedPath u =? "" then "/" else EscapedPath u)
   else if HasPrefix (Opaque u) "//" then Scheme u ++ ":" ++ Opaque u else Opaque u)
  ++ (if ForceQuery u || negb (RawQuery u =? "") then "?" ++ RawQuery u else "").

(** What the proxy reads of a request. *)
Record ProxyRequest := mkProxyRequest {
  pr_Method : string;
  pr_URL : URL;
  pr_Header : Header;
  pr_Body : string;
  pr_ContentLength : Z
}.

Record Outbound := mkOutbound {
  ob_Method : string;
  ob_URL : URL;
  ob_Host : string;
  ob_Header : Header;
  ob_Body : string;
  ob_ContentLength : Z
}.

Definition isToken (s : string) : bool := negb (s =? "") && all_bytes validHeaderFieldByte s.

(** [hasPort] and [removeEmptyPort] of net/http. *)
Definition hasPort (s : string) : bool :=
  match cut_last s ":"%char with Some (_, port) => negb (has_byte port "]"%char) | None => false end.
Definition removeEmptyPort (host : string) : string := if hasPort host then TrimSuffix host ":" else host.

(** [http.NewRequestWithContext]: the method and the URL of the request. *)
Definition NewRequest (method url : string) : option (string * URL) :=
  let method := if method =? "" then "GET" else method in
  if negb (isToken method) then None
  else match url_Parse url with
  | Some u =>
      Some (method, mkURL (Scheme u) (Opaque u) (User u) (removeEmptyPort (Host u)) (Path u) (RawPath u)
                      (OmitHost u) (ForceQuery u) (RawQuery u) (Fragment u) (RawFragment u))
  | None => None
  end.

(** ** time.Parse of RFC 3339 *)

Definition second : Z := 1000000000.

Definition leap (year : Z) : bool := (year mod 4 =? 0)%Z && (negb (year mod 100 =? 0)%Z || (year mod 400 =? 0)%Z).

Definition daysIn (month year : Z) : Z :=
  if (month =? 2)%Z then (if leap year then 29 else 28)
  else if existsb (Z.eqb month) [4; 6; 9; 11] then 30 else 31.

(** Days from the first day of year 1 to a date. *)
Definition days_since (year month day : Z) : Z :=
  let y := year - 1 in
  365 * y + y / 4 - y / 100 + y / 400
  + foldr Z.add 0 (map (fun m => daysIn m year) (firstn (Z.to_nat (month - 1)) [1; 2; 3; 4; 5; 6; 7; 8; 9; 10; 11])) + (day - 1).

Definition digit_at (s : string) : option (Z * string) :=
  match s with String c rest => if is_digit c then Some (code c - 48, rest) else None | EmptyString => None end.

(** [getnum]: one digit will do unless it is [fixed]. *)
Definition getnum (fixed : bool) (s : string) : option (Z * string) :=
  match digit_at s with
  | Some (a, rest) =>
      match digit_at rest with
      | Some (b, rest') => Some (10 * a + b, rest')
      | None => if fixed then None else Some (a, rest)
      end
  | None => None
  end.

Definition expect_byte (c : ascii) (s : string) : option string :=
  match s with String x rest => if (x =? c)%char then Some rest else None | EmptyString => None end.

(** A fraction of a second, cut off after nine digits. *)
Definition fraction (s : string) : Z * string :=
  match s with
  | String point rest =>
      if ((point =? ".")%char || (point =? ",")%char) && bool_decide (is_Some (digit_at rest)) then
        let '(digits, rest') := span_digits rest in
        let kept := String.substring 0 9 digits in
        (default 0 (digits_value kept 0) * 10 ^ (9 - len kept), rest')
      else (0, s)
  | EmptyString => (0, s)
  end.

(** The offset from UTC in seconds. *)
Definition time_zone (s : string) : option (Z * string) :=
  match s with
  | EmptyString => None
  | String sign rest =>
      if (sign =? "Z")%char then Some (0, rest)
      else
        if negb ((sign =? "+")%char || (sign =? "-")%char) then None
        else getnum true rest ≫= fun '(hours, r1) => expect_byte ":" r1 ≫= fun r2 => getnum true r2 ≫= fun '(minutes, r3) =>
             if (24 <? hours)%Z || (60 <? minutes)%Z then None
             else Some ((if (sign =? "-")%char then -1 else 1) * (hours * 60 + minutes) * 60, r3)
  end.

(** [time.Parse(time.RFC3339, value)] *)
Definition ParseRFC3339 (value : string) : option Z :=
  getnum true value ≫= fun '(century, r1) => getnum true r1 ≫= fun '(years, r2) => expect_byte "-" r2 ≫= fun r3 =>
  getnum true r3 ≫= fun '(month, r4) => expect_byte "-" r4 ≫= fun r5 => getnum true r5 ≫= fun '(day, r6) =>
  expect_byte "T" r6 ≫= fun r7 => getnum false r7 ≫= fun '(hour, r8) => expect_byte ":" r8 ≫= fun r9 =>
  getnum true r9 ≫= fun '(minute, r10) => expect_byte ":" r10 ≫= fun r11 => getnum true r11 ≫= fun '(sec, r12) =>
  let '(nanoseconds, r13) := fraction r12 in
  time_zone r13 ≫= fun '(offset, r14) =>
  let year := 100 * century + years in
  if negb (r14 =? "") || negb (in_range 1 12 month) || (23 <? hour)%Z || (59 <? minute)%Z || (59 <? sec)%Z
     || negb (in_range 1 (daysIn month year) day) then None
  else Some ((days_since year month day * 86400 + hour * 3600 + minute * 60 + sec - offset) * second + nanoseconds).

(** ** The broker's answer (broker.go) *)

Record Material := mkMaterial {
  mt_Headers : gmap string string;
  mt_AppendHeaders : gmap string string;
  mt_Strip : list string;
  mt_ExpiresAt : Z
}.

Record injectionRequest := mkInjectionRequest {
  in_Capability : string;
  in_Host : string;
  in_Method : string;
  in_Path : string;
  in_Upgrade : bool
}.

(** The encoded document leaves [upgrade] out when it is false. *)
Definition injection_document (q : injectionRequest) : json :=
  JObject ([("capability", JString (in_Capability q)); ("host", JString (in_Host q)); ("method", JString (in_Method q));
            ("path", JString (in_Path q))] ++ (if in_Upgrade q then [("upgrade", JBool true)] else []))%list.

(** What [FetchHeaders] posts.  The encoder writes an invalid byte as the
    replacement character, so the broker reads back the arguments when they are
    UTF-8, and another text otherwise. *)
Definition injection_body (q : injectionRequest) : string := print_json (injection_document q).

Record injectionResponse := mkInjectionResponse {
  is_OK : bool;
  is_Error : string;
  is_Headers : gmap string string;
  is_AppendHeaders : gmap string string;
  is_ExpiresAt : string;
  is_Strip : list string
}.

Definition injection_fields : list (field json injectionResponse) := [
  ("ok", into_bool (fun b x => mkInjectionResponse b (is_Error x) (is_Headers x) (is_AppendHeaders x) (is_ExpiresAt x) (is_Strip x)));
  ("error", into_string (fun s x => mkInjectionResponse (is_OK x) s (is_Headers x) (is_AppendHeaders x) (is_ExpiresAt x) (is_Strip x)));
  ("headers", into_labels is_Headers
     (fun m x => mkInjectionResponse (is_OK x) (is_Error x) m (is_AppendHeaders x) (is_ExpiresAt x) (is_Strip x)));
  ("append_headers", into_labels is_AppendHeaders
     (fun m x => mkInjectionResponse (is_OK x) (is_Error x) (is_Headers x) m (is_ExpiresAt x) (is_Strip x)));
  ("expires_at", into_string (fun s x => mkInjectionResponse (is_OK x) (is_Error x) (is_Headers x) (is_AppendHeaders x) s (is_Strip x)));
  ("strip_request_headers", into_slice (into_string (fun s _ => s)) "" is_Strip
     (fun l x => mkInjectionResponse (is_OK x) (is_Error x) (is_Headers x) (is_AppendHeaders x) (is_ExpiresAt x) l))
].

(** What posting a request to the broker comes to. *)
Inductive broker_reply : Type :=
  | BrokerUnreachable
  | BrokerReply (status : Z) (body : string).

Inductive fetch_error : Type :=
  | ErrInjectionDenied
  | FetchFailed (message : string).

Definition overlappingHeaderNames (headers appendHeaders : gmap string string) (strip : list string) : bool :=
  let restricted := (map (fun e => CanonicalHeaderKey (fst e)) (map_to_list headers) ++ map CanonicalHeaderKey strip)%list in
  existsb (fun e => mem (CanonicalHeaderKey (fst e)) restricted) (map_to_list appendHeaders).

(** [FetchHeaders], as the reply decides it. *)
Definition FetchHeaders (reply : broker_reply) : result fetch_error Material :=
  match reply with
  | BrokerUnreachable => Err (FetchFailed "broker unreachable")
  | BrokerReply status body =>
      if (status =? 403)%Z then Err ErrInjectionDenied
      else if negb (status =? 200)%Z then Err (FetchFailed "broker injection failed: status")
      else match first_value body ≫= fun v => unmarshal_struct injection_fields v (mkInjectionResponse false "" ∅ ∅ "" []) with
      | None => Err (FetchFailed "decode injection response")
      | Some decoded =>
          if negb (is_OK decoded) then Err (FetchFailed "broker injection failed")
          else if overlappingHeaderNames (is_Headers decoded) (is_AppendHeaders decoded) (is_Strip decoded)
          then Err (FetchFailed "broker returned overlapping replacement, append, or strip headers")
          else if is_ExpiresAt decoded =? ""
          then Ok (mkMaterial (is_Headers decoded) (is_AppendHeaders decoded) (is_Strip decoded) 0)
          else match ParseRFC3339 (is_ExpiresAt decoded) with
          | None => Err (FetchFailed "broker returned invalid expires_at")
          | Some expires => Ok (mkMaterial (is_Headers decoded) (is_AppendHeaders decoded) (is_Strip decoded) expires)
          end
      end
  end.

(** ** The proxy of a route (proxy.go) *)

Definition Placeholder : string := "NVT-PLACEHOLDER-NOT-A-KEY".

Definition expiryMargin : Z := 30 * second.
Definition maxCacheTTL : Z := 60 * second.
Definition maxCacheEntries : nat := 256.

Definition hopByHopHeaders : list string :=
  ["Connection"; "Keep-Alive"; "Proxy-Authenticate"; "Proxy-Authorization"; "Proxy-Connection"; "Te"; "Trailer";
   "Transfer-Encoding"; "Upgrade"].

Record cacheEntry := mkCacheEntry { ce_material : Material; ce_fetchedAt : Z }.

(** What a proxy keeps between requests. *)
Record Proxy := mkProxy { px_cache : gmap string cacheEntry; px_requestCount : Z }.

Definition newProxy : Proxy := mkProxy ∅ 0.

Section Proxying.
Context (route : Route).

(** True when the request is over the limit. *)
Definition quotaExceeded (p : Proxy) : bool * Proxy :=
  if (ro_MaxRequests route <=? 0)%Z then (false, p)
  else
    let count := wrap64 (px_requestCount p + 1) in
    ((ro_MaxRequests route <? count)%Z, mkProxy (px_cache p) count).

Definition injectionHost (upstream : string) : string :=
  match SplitHostPort upstream with Some (host, _) => host | None => upstream end.

Definition brokerInjectionHost : string :=
  if negb (ro_InjectionHost route =? "") then ro_InjectionHost route else injectionHost (ro_Upstream route).

Definition FormatBool (b : bool) : string := if b then "true" else "false".

Definition cache_key (method path : string) (upgrade : bool) : string := method ++ " " ++ path ++ " " ++ FormatBool upgrade.

(** The time is before the material's expiry by the margin, if it has one. *)
Definition unexpired (m : Material) (now : Z) : bool :=
  (mt_ExpiresAt m =? 0)%Z || (now <? mt_ExpiresAt m - expiryMargin)%Z.

Definition entryValidLocked (entry : cacheEntry) (now : Z) : bool :=
  (now <? ce_fetchedAt entry + maxCacheTTL)%Z && unexpired (ce_material entry) now.

(** The clock as [material] reads it: when it looks into the cache, when the
    broker has answered, and when it stores the answer. *)
Record readings := mkReadings { at_lookup : Z; at_answer : Z; at_store : Z }.

Definition injection_request (method path : string) (upgrade : bool) : injectionRequest :=
  mkInjectionRequest (ro_Capability route) brokerInjectionHost method path upgrade.

(** [material]: the request it posts to the broker, if any, is answered by
    [reply]. *)
Definition material (clock : readings) (reply : broker_reply) (method path : string) (upgrade : bool) (p : Proxy)
  : result fetch_error Material * option injectionRequest * Proxy :=
  let key := cache_key method path upgrade in
  let valid := match px_cache p !! key with Some entry => entryValidLocked entry (at_lookup clock) | None => false end in
  match px_cache p !! key, valid with
  | Some entry, true => (Ok (ce_material entry), None, p)
  | _, _ =>
      let cache := delete key (px_cache p) in
      let posted := Some (injection_request method path upgrade) in
      match FetchHeaders reply with
      | Err e => (Err e, posted, mkProxy cache (px_requestCount p))
      | Ok m =>
          if negb (unexpired m (at_answer clock))
          then (Err (FetchFailed "broker returned expired injection material"), posted, mkProxy cache (px_requestCount p))
          else
            let cache := if (maxCacheEntries <=? base.size cache)%nat then ∅ else cache in
            (Ok m, posted, mkProxy (<[key := mkCacheEntry m (at_store clock)]> cache) (px_requestCount p))
      end
  end.

Definition isUpgradeRequest (r : ProxyRequest) : bool :=
  headerHasToken (pr_Header r) "Connection" "upgrade" && negb (header_Get (pr_Header r) "Upgrade" =? "").

Definition copyUpgradeHeaders (dst src : Header) : Header :=
  let dst := header_Set "Connection" "Upgrade" dst in
  let upgrade := header_Get src "Upgrade" in
  if negb (upgrade =? "") then header_Set "Upgrade" upgrade dst else dst.

Definition sensitiveWorkloadHeader (name : string) : bool :=
  let canonical := CanonicalHeaderKey name in
  (canonical =? "Authorization") || (canonical =? "Proxy-Authorization") || HasPrefix canonical "Impersonate-".

Definition containsPlaceholder (values : list string) : bool := existsb (fun value => Contains value Placeholder) values.

Definition add_token (tokens : list string) (raw : string) : list string :=
  let token := TrimSpace raw in
  if (token =? "") || mem token tokens then tokens else (tokens ++ [token])%list.

Definition appendHeaderTokens (name value : string) (header : Header) : Header :=
  let values := (header_Values header name ++ [value])%list in
  let tokens := foldl add_token [] (concat (map (fun current => Split current ","%char) values)) in
  header_Set name (Join tokens ",") header.

(** The orders in which [buildOutbound] visits the caller's fields and the
    material's replacement and appended headers. *)
Record visit := mkVisit {
  vi_fields : list (string * list string);
  vi_headers : list (string * string);
  vi_append : list (string * string)
}.

Definition visits (r : ProxyRequest) (m : Material) (v : visit) : Prop :=
  vi_fields v ≡ₚ map_to_list (pr_Header r) /\
  vi_headers v ≡ₚ map_to_list (mt_Headers m) /\
  vi_append v ≡ₚ map_to_list (mt_AppendHeaders m).

(** Whether a field of the caller stays behind. *)
Definition withheld (strip : list string) (canonical : string) : bool :=
  mem canonical hopByHopHeaders || mem canonical (map CanonicalHeaderKey strip) || sensitiveWorkloadHeader canonical
  || (canonical =? "Host").

Definition copy_field (strip : list string) (header : Header) (entry : string * list string) : Header :=
  let '(name, values) := entry in
  let canonical := CanonicalHeaderKey name in
  if withheld strip canonical then header
  else if containsPlaceholder values then header
  else <[canonical := values]> header.

(** The material's headers over what is there. *)
Definition inject (v : visit) (header : Header) : Header :=
  let header := foldl (fun h e => header_Set (fst e) (snd e) h) header (vi_headers v) in
  foldl (fun h e => appendHeaderTokens (fst e) (snd e) h) header (vi_append v).

Definition buildOutbound (r : ProxyRequest) (m : Material) (v : visit) : option Outbound :=
  let scheme := if ro_AllowInsecureUpstream route then "http" else "https" in
  match NewRequest (pr_Method r) (scheme ++ "://" ++ ro_Upstream route ++ RequestURI (pr_URL r)) with
  | None => None
  | Some (method, url) =>
      let header := inject v (foldl (copy_field (mt_Strip m)) ∅ (vi_fields v)) in
      let header := if isUpgradeRequest r then copyUpgradeHeaders header (pr_Header r) else header in
      Some (mkOutbound method url (ro_Upstream route) header (pr_Body r) (pr_ContentLength r))
  end.

(** ** Audit (reporter.go) *)

Definition pathClassMaxLen : nat := 64.

Definition class_rune (r : Z) : bool :=
  in_range 97 122 r || in_range 48 57 r || (r =? 46)%Z || (r =? 95)%Z || (r =? 45)%Z.

(** The loop of [sanitizePathClass], with the number of bytes written. *)
Fixpoint sanitize (written : nat) (rs : list Z) : string :=
  match rs with
  | [] => ""
  | r :: rest =>
      if (pathClassMaxLen <=? written)%nat then ""
      else if class_rune r then String (byte r) (sanitize (S written) rest)
      else sanitize written rest
  end.

Definition sanitizePathClass (segment : string) : string := sanitize 0 (map fst (runes (ToLower segment))).

Definition PathClass (path : string) : string :=
  if HasSuffix path "/info/refs" then "info-refs"
  else if HasSuffix path "/git-upload-pack" then "git-upload-pack"
  else if HasSuffix path "/git-receive-pack" then "git-receive-pack"
  else
    let '(trimmed, _, _) := Cut (TrimPrefix path "/") "/"%char in
    if trimmed =? "" then "root"
    else
      let class := sanitizePathClass trimmed in
      if class =? "" then "other" else class.

Record ReportEntry := mkReportEntry {
  en_Capability : string;
  en_Host : string;
  en_Method : string;
  en_PathClass : string;
  en_Status : Z;
  en_Port : Z;
  en_Decision : string
}.

(** [report] *)
Definition report (method path : string) (status : Z) : ReportEntry :=
  mkReportEntry (ro_Capability route) brokerInjectionHost method (PathClass path) status 0 "".

(** ** Serving a request *)

(** What the caller gets: an error of the proxy's own, a response of the
    upstream, an upgraded connection, or a connection just closed. *)
Inductive answer : Type :=
  | writeError (status : Z) (reason : string)
  | copyResponse (status : Z) (header : Header)
  | relayUpgrade (head : string)
  | Closed.

(** The upstream's answer to [RoundTrip]; [ur_bidirectional] is whether its
    body can also be written to. *)
Record upstream_response := mkUpstreamResponse {
  ur_StatusCode : Z;
  ur_Status : string;
  ur_ProtoMajor : Z;
  ur_ProtoMinor : Z;
  ur_Header : list (string * list string);
  ur_bidirectional : bool
}.

(** Whether the connection of the caller can be taken over. *)
Inductive hijacking : Type := NoHijacker | HijackFails | Hijacks.

(** The header fields [copyResponse] leaves the caller. *)
Definition response_header (fields : list (string * list string)) : Header :=
  foldl (fun h '(name, values) => if mem (CanonicalHeaderKey name) hopByHopHeaders then h else <[name := values]> h) ∅ fields.

Definition crlf : string := String "013" (String "010" "").

(** [writeUpgradeResponse], for the status 101. *)
Definition writeUpgradeResponse (u : upstream_response) : string :=
  "HTTP/" ++ Itoa (ur_ProtoMajor u) ++ "." ++ Itoa (ur_ProtoMinor u) ++ " "
  ++ (if ur_Status u =? "" then "101 Switching Protocols" else ur_Status u) ++ crlf
  ++ foldr (fun '(name, values) rest => foldr (fun value rest => name ++ ": " ++ value ++ crlf ++ rest) rest values) crlf
       (ur_Header u).

(** The part of [ServeHTTP] before the quota: an answer, or the request to the
    upstream. *)
Definition prepare (clock : readings) (reply : broker_reply) (v : visit) (r : ProxyRequest) (p : Proxy)
  : result (answer * Z) (Material * Outbound) * option injectionRequest * Proxy :=
  let '(fetched, posted, p) := material clock reply (pr_Method r) (RequestURI (pr_URL r)) (isUpgradeRequest r) p in
  (match fetched with
   | Err ErrInjectionDenied => Err (writeError 403 "egress-injection-forbidden", 403)
   | Err (FetchFailed _) => Err (writeError 502 "egress-injection-unavailable", 502)
   | Ok m => match buildOutbound r m v with
             | None => Err (writeError 502 "egress-request-invalid", 502)
             | Some outbound => Ok (m, outbound)
             end
   end, posted, p).

Definition quota_answer : answer * Z := (writeError 429 "egress-quota-exceeded", 429).

(** What follows the exchange with the upstream, in [ServeHTTP] or
    [serveUpgrade]: the answer and the status reported. *)
Definition finish (w : hijacking) (r : ProxyRequest) (reply : option upstream_response) : answer * Z :=
  match reply with
  | None => (writeError 502 "egress-upstream-unreachable", 502)
  | Some u =>
      if negb (isUpgradeRequest r) || negb (ur_StatusCode u =? 101)%Z
      then (copyResponse (ur_StatusCode u) (response_header (ur_Header u)), ur_StatusCode u)
      else if negb (ur_bidirectional u) then (writeError 502 "egress-upgrade-unavailable", 502)
      else match w with
      | NoHijacker => (writeError 502 "egress-upgrade-unavailable", 502)
      | HijackFails => (Closed, 502)
      | Hijacks => (relayUpgrade (writeUpgradeResponse u), ur_StatusCode u)
      end
  end.

(** [ServeHTTP] without interruption: the answer, the report, what was posted
    to the broker and what was sent to the upstream. *)
Definition ServeHTTP (clock : readings) (reply : broker_reply) (upstream : Outbound -> option upstream_response)
    (w : hijacking) (v : visit) (r : ProxyRequest) (p : Proxy)
  : answer * ReportEntry * option injectionRequest * option Outbound * Proxy :=
  let reported '(a, status) := (a, report (pr_Method r) (Path (pr_URL r)) status) in
  let '(prepared, posted, p) := prepare clock reply v r p in
  match prepared with
  | Err refused => (reported refused, posted, None, p)
  | Ok (_, outbound) =>
      let '(exceeded, p) := quotaExceeded p in
      if exceeded then (reported quota_answer, posted, None, p)
      else (reported (finish w r (upstream outbound)), posted, Some outbound, p)
  end.

End Proxying.

(** ** Interception (forward_proxy.go) *)

Fixpoint url_alphabet (s : string) : string :=
  match s with
  | EmptyString => ""
  | String c rest => String (if (c =? "+")%char then "-"%char else if (c =? "/")%char then "_"%char else c) (url_alphabet rest)
  end.

(** [base64.StdEncoding.DecodeString] *)
Definition Std_DecodeString (s : string) : option string :=
  if any_byte (one_of "-_") s then None else URL_DecodeString (url_alphabet s).

Definition basic_prefix : string := "Basic ".

Definition capabilityHintFromConnect (header : Header) : string :=
  let named := TrimSpace (header_Get header "X-NVT-Capability") in
  if negb (named =? "") then named
  else
    let value := TrimSpace (header_Get header "Proxy-Authorization") in
    if (len value <? len basic_prefix)%Z || negb (EqualFold (String.substring 0 6 value) basic_prefix) then ""
    else match Std_DecodeString (TrimSpace (String.substring 6 (String.length value - 6) value)) with
    | None => ""
    | Some decoded => let '(user, _, ok) := Cut decoded ":"%char in if ok then user else ""
    end.

(** The route of the proxy [init] makes for an inject route. *)
Definition inject_proxy_route (route : ForwardProxyInjectRoute) : option Route :=
  (fun host => mkRoute "" (ir_Capability route) (ir_Upstream route) host (ir_AllowInsecureUpstream route) "" "" "" (ir_MaxRequests route))
    <$> normalizeProxyHost (ir_Host route).

(** ** Public catalogs (catalog.go) *)

Definition maxPublicCatalogBytes : Z := 1024 * 1024.

Record catalogFile := mkCatalogFile { cf_Path : string; cf_Content : string; cf_Mode : string }.

Record catalog := mkCatalog { ct_OK : bool; ct_Files : option (list catalogFile); ct_ExpiresAt : option string }.

Definition catalog_file_fields : list (field json catalogFile) := [
  ("path", into_string (fun s f => mkCatalogFile s (cf_Content f) (cf_Mode f)));
  ("content", into_string (fun s f => mkCatalogFile (cf_Path f) s (cf_Mode f)));
  ("mode", into_string (fun s f => mkCatalogFile (cf_Path f) (cf_Content f) s))
].

Definition into_catalog_file (v : json) (f : catalogFile) : option catalogFile :=
  match v with JNull => Some f | JObject ms => decode_members catalog_file_fields ms f | _ => None end.

Definition catalog_fields : list (field json catalog) := [
  ("ok", into_bool (fun b x => mkCatalog b (ct_Files x) (ct_ExpiresAt x)));
  ("files", fun v x =>
     match v with
     | JNull => Some (mkCatalog (ct_OK x) None (ct_ExpiresAt x))
     | JArray l => (fun files => mkCatalog (ct_OK x) (Some files) (ct_ExpiresAt x))
                     <$> slice_elements into_catalog_file (mkCatalogFile "" "" "") (default [] (ct_Files x)) l
     | _ => None
     end);
  ("expires_at", fun v x =>
     match v with
     | JNull => Some (mkCatalog (ct_OK x) (ct_Files x) None)
     | JString s => Some (mkCatalog (ct_OK x) (ct_Files x) (Some s))
     | _ => None
     end)
].

Definition catalog_file_ok (f : catalogFile) : bool :=
  in_range 1 4096 (len (cf_Path f)) && (len (cf_Mode f) <=? 16)%Z.

Definition catalog_document (x : catalog) : json :=
  JObject [("ok", JBool (ct_OK x));
           ("files", match ct_Files x with
                     | None => JNull
                     | Some files => JArray (map (fun f =>
                         JObject ([("path", JString (cf_Path f)); ("content", JString (cf_Content f))]
                                  ++ (if cf_Mode f =? "" then [] else [("mode", JString (cf_Mode f))]))%list) files)
                     end);
           ("expires_at", match ct_ExpiresAt x with None => JNull | Some s => JString s end)].

(** [publicCatalog]: the text of the public fields; [RFC3339Nano] parses what
    [RFC3339] does. *)
Definition publicCatalog (reply : broker_reply) : option string :=
  match reply with
  | BrokerUnreachable => None
  | BrokerReply status body =>
      if negb (status =? 200)%Z then None
      else if (maxPublicCatalogBytes <? len (String.substring 0 (Z.to_nat (maxPublicCatalogBytes + 1)) body))%Z then None
      else match json_document body ≫= decode_struct catalog_fields (mkCatalog false None None) with
      | None => None
      | Some result =>
          match ct_Files result with
          | None => None
          | Some files =>
              if negb (ct_OK result) || (1024 <? Z.of_nat (length files))%Z || negb (forallb catalog_file_ok files)
                 || match ct_ExpiresAt result with Some s => bool_decide (ParseRFC3339 s = None) | None => false end then None
              else
                let encoded := print_json (catalog_document result) in
                if (maxPublicCatalogBytes <? len encoded)%Z then None else Some encoded
          end
      end
  end.

Inductive catalog_answer : Type :=
  | CatalogError (status : Z) (message : string)
  | CatalogServed (data : string).

(** [servePublicCatalog]; [broker] is what posting to the broker comes to,
    [None] when there is none, [slot] whether [acquireTunnel] gave one. *)
Definition servePublicCatalog (c : ForwardProxyConfig) (broker : option broker_reply) (slot : bool)
    (method : string) (url : URL) (contentLength : Z) (transferEncoding : list string) (header : Header) : catalog_answer :=
  if negb (method =? "GET") || negb (Scheme url =? "") || negb (RawQuery url =? "") || negb (contentLength =? 0)%Z
     || negb (bool_decide (transferEncoding = [])) then CatalogError 400 "invalid catalog request"
  else
    let capability := capabilityHintFromConnect header in
    let configured := existsb (fun route => negb (capability =? "") && (ir_Capability route =? capability)) (fc_InjectRoutes c) in
    match broker with
    | Some reply =>
        if negb configured then CatalogError 403 "catalog capability not allowed"
        else if negb slot then CatalogError 503 "catalog capacity unavailable"
        else match publicCatalog reply with
        | None => CatalogError 502 "public catalog unavailable"
        | Some data => CatalogServed data
        end
    | None => CatalogError 403 "catalog capability not allowed"
    end.

(** ** The reporter (reporter.go) *)

Definition defaultReportQueueSize : nat := 1024.
Definition defaultReportBatchSize : nat := 100.

(** The keys as the encoder sorts them. *)
Definition toWire (e : ReportEntry) : json :=
  if negb (en_Decision e =? "")
  then JObject [("capability", JString (en_Capability e)); ("decision", JString (en_Decision e));
                ("host", JString (en_Host e)); ("port", JNumber (Itoa (en_Port e)))]
  else JObject [("capability", JString (en_Capability e)); ("host", JString (en_Host e)); ("method", JString (en_Method e));
                ("path_class", JString (en_PathClass e)); ("status", JNumber (Itoa (en_Status e)))].

Inductive run_mode : Type := Running | Draining | Stopped.

(** The queue, what [Run] has taken from it, the entries dropped; [rr_posted]
    is the history of the batches the broker took. *)
Record Reporter := mkReporter {
  rr_queue : list ReportEntry;
  rr_batch : list ReportEntry;
  rr_dropped : Z;
  rr_mode : run_mode;
  rr_cancelled : bool;
  rr_posted : list (list ReportEntry)
}.

Definition NewReporter : Reporter := mkReporter [] [] 0 Running false [].

Definition Enqueue (e : ReportEntry) (r : Reporter) : Reporter :=
  if (length (rr_queue r) <? defaultReportQueueSize)%nat
  then mkReporter (rr_queue r ++ [e]) (rr_batch r) (rr_dropped r) (rr_mode r) (rr_cancelled r) (rr_posted r)
  else mkReporter (rr_queue r) (rr_batch r) (wrap64 (rr_dropped r + 1)) (rr_mode r) (rr_cancelled r) (rr_posted r).

(** [send] and the reset of the batch; a request fails under a context that is
    cancelled. *)
Definition send (accepted : bool) (r : Reporter) : Reporter :=
  if bool_decide (rr_batch r = []) then r
  else if accepted && negb (rr_cancelled r)
  then mkReporter (rr_queue r) [] (rr_dropped r) (rr_mode r) (rr_cancelled r) (rr_posted r ++ [rr_batch r])
  else mkReporter (rr_queue r) [] (wrap64 (rr_dropped r + Z.of_nat (length (rr_batch r)))) (rr_mode r) (rr_cancelled r) (rr_posted r).

Definition set_mode (mode : run_mode) (r : Reporter) : Reporter :=
  mkReporter (rr_queue r) (rr_batch r) (rr_dropped r) mode (rr_cancelled r) (rr_posted r).

(** What happens to a reporter: an entry is offered, [Run] or [finalDrain]
    receives one or finds none, the ticker fires, the context is cancelled,
    [Run] notices. *)
Inductive reporter_event : Type :=
  | Offered (e : ReportEntry)
  | Received (accepted : bool)
  | Ticked (accepted : bool)
  | Cancelled
  | Noticed.

Definition receive (e : ReportEntry) (queue : list ReportEntry) (accepted : bool) (r : Reporter) : Reporter :=
  let r := mkReporter queue (rr_batch r ++ [e]) (rr_dropped r) (rr_mode r) (rr_cancelled r) (rr_posted r) in
  if (defaultReportBatchSize <=? length (rr_batch r))%nat then send accepted r else r.

(** One step of [Run] and [finalDrain]; [None] when it cannot be taken. *)
Definition reporter_step (event : reporter_event) (r : Reporter) : option Reporter :=
  match event, rr_mode r with
  | Offered e, _ => Some (Enqueue e r)
  | Cancelled, _ => Some (mkReporter (rr_queue r) (rr_batch r) (rr_dropped r) (rr_mode r) true (rr_posted r))
  | Noticed, Running => if rr_cancelled r then Some (set_mode Draining r) else None
  | Ticked accepted, Running => Some (send accepted r)
  | Received accepted, Running =>
      match rr_queue r with e :: queue => Some (receive e queue accepted r) | [] => None end
  | Received accepted, Draining =>
      match rr_queue r with
      | e :: queue => Some (receive e queue accepted r)
      | [] => Some (set_mode Stopped (send accepted r))
      end
  | _, _ => None
  end.

Fixpoint reporter_run (events : list reporter_event) (r : Reporter) : option Reporter :=
  match events with [] => Some r | e :: events' => reporter_step e r ≫= reporter_run events' end.

(** ** Concurrent requests

    The server runs [ServeHTTP] in a goroutine per request.  A proxy's mutex is
    held all through [material], its counter is atomic, and the rest of a
    request is its own: the runs of a proxy are the interleavings of three
    steps per request. *)

(** A request past [buildOutbound], the material it was built from and the
    reading of the clock at which that was found good. *)
Record job := mkJob {
  jb_request : ProxyRequest;
  jb_material : Material;
  jb_outbound : Outbound;
  jb_time : Z
}.

Inductive stage : Type :=
  | Prepared (j : job)
  | Sent (j : job)
  | Answered (r : ProxyRequest) (sent : option job) (a : answer) (status : Z).

(** One call of [FetchHeaders]: its arguments, the body it posted, the
    broker's answer to that body, and when it was stored. *)
Record fetch := mkFetch { ft_request : injectionRequest; ft_body : string; ft_reply : broker_reply; ft_time : Z }.

Record world := mkWorld {
  w_proxy : Proxy;
  w_stages : list stage;
  w_fetches : list fetch;
  w_now : Z;
  w_reports : list ReportEntry
}.

(** What net/http guarantees of a request it hands over: a method and field
    names that are tokens, the names canonical, and a target that parsed. *)
Definition server_request (r : ProxyRequest) : Prop :=
  isToken (pr_Method r) = true /\
  (forall name values, pr_Header r !! name = Some values -> isToken name = true /\ CanonicalHeaderKey name = name) /\
  exists target, ParseRequestURI target = Some (pr_URL r).

Section Serving.
Context (route : Route).

Definition arrival_stage (clock : readings) (r : ProxyRequest) (posted : option injectionRequest)
    (prepared : result (answer * Z) (Material * Outbound)) : stage :=
  match prepared with
  | Err (a, status) => Answered r None a status
  | Ok (m, outbound) =>
      Prepared (mkJob r m outbound (match posted with Some _ => at_answer clock | None => at_lookup clock end))
  end.

Definition stage_reports (s : stage) : list ReportEntry :=
  match s with Answered r _ _ status => [report route (pr_Method r) (Path (pr_URL r)) status] | _ => [] end.

Definition arrive (clock : readings) (reply : broker_reply) (v : visit) (r : ProxyRequest) (w : world) : world :=
  let '(prepared, posted, p) := prepare route clock reply v r (w_proxy w) in
  let s := arrival_stage clock r posted prepared in
  mkWorld p (w_stages w ++ [s])
    (w_fetches w ++ match posted with Some q => [mkFetch q (injection_body q) reply (at_store clock)] | None => [] end)
    (at_store clock) (w_reports w ++ stage_reports s).

Definition set_stage (i : nat) (s : stage) (p : Proxy) (w : world) : world :=
  mkWorld p (<[i := s]> (w_stages w)) (w_fetches w) (w_now w) (w_reports w ++ stage_reports s).

Definition counted_stage (exceeded : bool) (j : job) : stage :=
  if exceeded then Answered (jb_request j) None (fst quota_answer) (snd quota_answer) else Sent j.

Definition finished_stage (hijack : hijacking) (j : job) (upstream : option upstream_response) : stage :=
  let '(a, status) := finish hijack (jb_request j) upstream in Answered (jb_request j) (Some j) a status.

Inductive serves (w : world) : world -> Prop :=
  | serves_arrive clock reply v r :
      server_request r ->
      w_now w <= at_lookup clock <= at_answer clock -> at_answer clock <= at_store clock ->
      (forall m, (material route clock reply (pr_Method r) (RequestURI (pr_URL r)) (isUpgradeRequest r) (w_proxy w)).1.1 = Ok m ->
         visits r m v) ->
      serves w (arrive clock reply v r w)
  | serves_count i j :
      w_stages w !! i = Some (Prepared j) ->
      serves w (set_stage i (counted_stage (quotaExceeded route (w_proxy w)).1 j) (quotaExceeded route (w_proxy w)).2 w)
  | serves_finish i j hijack upstream :
      w_stages w !! i = Some (Sent j) ->
      serves w (set_stage i (finished_stage hijack j upstream) (w_proxy w) w).

Definition first_world (now : Z) : world := mkWorld newProxy [] [] now [].

Inductive reachable (now : Z) : world -> Prop :=
  | reachable_first : reachable now (first_world now)
  | reachable_step w w' : reachable now w -> serves w w' -> reachable now w'.

End Serving.
