(* ===== verification/InjectionProps.v ===== *)
(** * Proofs on credential injection

    What the upstream is sent and on whose authority: the caller has no say in
    the credentials, the destination is the route's, the material is the
    broker's answer to this very request and recent, the quota is exact, and
    every request is reported once. *)
From stdpp Require Import base list gmap strings.
From Stdlib Require Import ZArith Lia Ascii.
From S2P Require Import Prelude GoStrings GoUrl GoJson GoJsonPrint GoHttp GoEncoding Contract Validation Egress EgressProps EgressConfig Injection.


Local Open Scope Z_scope.
Local Open Scope string_scope.

(** ** Field names

    Field names are compared without regard to case; [CanonicalHeaderKey]
    chooses one spelling of a token. *)

Definition same_name (a b : string) : Prop := map_string fold_byte a = map_string fold_byte b.

#[export] Instance same_name_equiv : Equivalence same_name.
Proof. split; unfold same_name; [done| |]; repeat intro; congruence. Qed.

Ltac each_byte := intros c; destruct c as [[] [] [] [] [] [] [] []]; vm_compute; reflexivity.

Lemma fold_upper : forall c, fold_byte (upper_byte c) = fold_byte c. Proof. each_byte. Qed.
Lemma fold_fold : forall c, fold_byte (fold_byte c) = fold_byte c. Proof. each_byte. Qed.
Lemma upper_fold : forall c, upper_byte (fold_byte c) = upper_byte c. Proof. each_byte. Qed.
Lemma upper_upper : forall c, upper_byte (upper_byte c) = upper_byte c. Proof. each_byte. Qed.
Lemma dash_upper : forall c, (upper_byte c =? "-")%char = (c =? "-")%char. Proof. each_byte. Qed.
Lemma dash_fold : forall c, (fold_byte c =? "-")%char = (c =? "-")%char. Proof. each_byte. Qed.
Lemma token_fold : forall c, validHeaderFieldByte (fold_byte c) = validHeaderFieldByte c. Proof. each_byte. Qed.
Lemma token_upper : forall c, validHeaderFieldByte (upper_byte c) = validHeaderFieldByte c. Proof. each_byte. Qed.

Lemma token_map s : all_bytes validHeaderFieldByte (map_string fold_byte s) = all_bytes validHeaderFieldByte s.
Proof. induction s as [|c s IH]; [done|]. cbn. by rewrite token_fold, IH. Qed.

Lemma canonical_token u s : all_bytes validHeaderFieldByte (canonical_from u s) = all_bytes validHeaderFieldByte s.
Proof. revert u. induction s as [|c s IH]; intros u; [done|]. cbn. rewrite IH. f_equal. destruct u; auto using token_upper, token_fold. Qed.

Lemma canonical_from_idem u s : canonical_from u (canonical_from u s) = canonical_from u s.
Proof.
  revert u. induction s as [|c s IH]; intros u; [done|]. cbn [canonical_from].
  destruct u; rewrite ?dash_upper, ?dash_fold, IH, ?upper_upper, ?fold_fold; done.
Qed.

Lemma canonical_folded u s : canonical_from u (map_string fold_byte s) = canonical_from u s.
Proof.
  revert u. induction s as [|c s IH]; intros u; [done|]. cbn [canonical_from map_string].
  rewrite dash_fold, IH. by destruct u; rewrite ?upper_fold, ?fold_fold.
Qed.

Lemma canonical_same u s : map_string fold_byte (canonical_from u s) = map_string fold_byte s.
Proof.
  revert u. induction s as [|c s IH]; intros u; [done|]. cbn [canonical_from map_string].
  rewrite IH. by destruct u; rewrite ?fold_upper, ?fold_fold.
Qed.

Lemma CanonicalHeaderKey_idem s : CanonicalHeaderKey (CanonicalHeaderKey s) = CanonicalHeaderKey s.
Proof.
  unfold CanonicalHeaderKey. destruct (all_bytes _ s) eqn:E; [|by rewrite E]. by rewrite canonical_token, E, canonical_from_idem.
Qed.

Lemma same_name_token a b : same_name a b -> all_bytes validHeaderFieldByte a = all_bytes validHeaderFieldByte b.
Proof. unfold same_name. intros H. by rewrite <- (token_map a), H, token_map. Qed.

Lemma same_name_canonical a b : all_bytes validHeaderFieldByte b = true -> same_name a b ->
  CanonicalHeaderKey a = CanonicalHeaderKey b.
Proof.
  intros Hb Hs. unfold CanonicalHeaderKey. rewrite (same_name_token _ _ Hs), Hb.
  rewrite <- (canonical_folded true a), <- (canonical_folded true b). by rewrite Hs.
Qed.

Lemma isToken_bytes s : isToken s = true -> all_bytes validHeaderFieldByte s = true.
Proof. unfold isToken. rewrite andb_true_iff. by intros [_ H]. Qed.

(** ** What the caller cannot say *)

(** Names of credentials: two by themselves, a family, and what the broker
    wants stripped. *)
Definition credential_name (m : Material) (name : string) : Prop :=
  same_name name "authorization" \/ same_name name "proxy-authorization" \/
  (exists rest, same_name name ("impersonate-" ++ rest)) \/
  exists stripped, In stripped (mt_Strip m) /\ same_name name stripped.

Lemma credential_withheld m name : all_bytes validHeaderFieldByte name = true -> credential_name m name ->
  withheld (mt_Strip m) (CanonicalHeaderKey name) = true.
Proof.
  intros Ht Hc. unfold withheld, sensitiveWorkloadHeader. rewrite CanonicalHeaderKey_idem.
  assert (Hcanonical : forall other, same_name name other -> CanonicalHeaderKey name = CanonicalHeaderKey other).
  { intros other Hs. apply same_name_canonical; [|done]. by rewrite <- (same_name_token _ _ Hs). }
  destruct Hc as [Hs|[Hs|[[rest Hs]|[s [Hin Hs]]]]].
  - rewrite (Hcanonical _ Hs). change (CanonicalHeaderKey "authorization") with "Authorization". cbn. by rewrite orb_true_r.
  - rewrite (Hcanonical _ Hs). by change (CanonicalHeaderKey "proxy-authorization") with "Proxy-Authorization".
  - rewrite (Hcanonical _ Hs). unfold CanonicalHeaderKey. rewrite <- (same_name_token _ _ Hs), Ht.
    assert (Hp : HasPrefix (canonical_from true ("impersonate-" ++ rest)) "Impersonate-" = true)
      by (apply HasPrefix_iff; by exists (canonical_from true rest)).
    by rewrite Hp, !orb_true_r.
  - apply orb_true_iff. left. apply orb_true_iff. left. apply orb_true_iff. right.
    apply existsb_exists. exists (CanonicalHeaderKey s). split; [by apply in_map|]. apply String.eqb_eq. by apply Hcanonical.
Qed.

Section Rewriting.
Context (m : Material) (r : ProxyRequest) (v : visit).
Hypothesis served : server_request r.
Hypothesis visited : visits r m v.

Definition kept : Header := foldl (copy_field (mt_Strip m)) ∅ (vi_fields v).

(** A field of the caller is in the copy as it came, or not at all. *)
Definition kept_field (name : string) : option (list string) :=
  if withheld (mt_Strip m) name then None
  else match pr_Header r !! name with Some values => if containsPlaceholder values then None else Some values | None => None end.

Lemma copy_fields fields h :
  NoDup (map fst fields) -> (forall e, e ∈ fields -> CanonicalHeaderKey e.1 = e.1) -> forall name,
  foldl (copy_field (mt_Strip m)) h fields !! name =
    match (list_to_map fields : Header) !! name with
    | Some values => if withheld (mt_Strip m) name then h !! name else if containsPlaceholder values then h !! name else Some values
    | None => h !! name
    end.
Proof.
  revert h. induction fields as [|[k values] fields IH]; intros h Hnd Hc name; [by simpl; rewrite lookup_empty|].
  cbn [foldl list_to_map foldr map fst snd uncurry] in *. apply NoDup_cons in Hnd as [Hk Hnd].
  rewrite IH by (try done; intros e He; apply Hc; by right). cbn [copy_field].
  assert (Hck : CanonicalHeaderKey k = k) by (apply (Hc (k, values)); by left). rewrite Hck.
  destruct (decide (k = name)) as [->|Hne].
  - rewrite lookup_insert_eq, not_elem_of_list_to_map_1 by done.
    destruct (withheld _ name); [done|]. destruct (containsPlaceholder values); [done|]. by rewrite lookup_insert_eq.
  - rewrite lookup_insert_ne by done. assert (Hh : copy_field (mt_Strip m) h (k, values) !! name = h !! name).
    { cbn [copy_field]. rewrite Hck. destruct (withheld _ k); [done|]. destruct (containsPlaceholder values); [done|]. by rewrite lookup_insert_ne. }
    cbn [copy_field] in Hh. rewrite Hck in Hh. by rewrite Hh.
Qed.

Lemma kept_lookup name : kept !! name = kept_field name.
Proof.
  destruct visited as [Hf _]. destruct served as (_ & Hc & _). unfold kept, kept_field.
  assert (Hnd : NoDup (map fst (vi_fields v))).
  { change (map fst (vi_fields v)) with ((vi_fields v).*1). rewrite Hf. apply NoDup_fst_map_to_list. }
  rewrite copy_fields; [|done|].
  - rewrite (list_to_map_proper _ (map_to_list (pr_Header r))) by done. rewrite list_to_map_to_list, lookup_empty.
    destruct (pr_Header r !! name); by destruct (withheld _ name).
  - intros [k values] He. rewrite Hf in He. apply elem_of_map_to_list in He. by destruct (Hc _ _ He).
Qed.

(** A credential of the caller is not in the copy. *)
Lemma kept_none name : credential_name m name -> kept !! name = None.
Proof.
  intros Hc. rewrite kept_lookup. unfold kept_field. destruct served as (_ & Hn & _).
  destruct (pr_Header r !! name) as [values|] eqn:E; [|by destruct (withheld _ name)].
  destruct (Hn _ _ E) as [Ht Hk]. pose proof (credential_withheld m name (isToken_bytes _ Ht) Hc) as H. by rewrite Hk in H; rewrite H.
Qed.

End Rewriting.

Lemma foldl_local {A} (f : Header -> A -> Header) (l : list A) name :
  (forall h h' x, h !! name = h' !! name -> f h x !! name = f h' x !! name) ->
  forall h h', h !! name = h' !! name -> foldl f h l !! name = foldl f h' l !! name.
Proof. intros Hf. induction l as [|x l IH]; intros h h' H; [done|]. cbn. apply IH. by apply Hf. Qed.

Lemma insert_local (h h' : Header) key name values values' :
  h !! name = h' !! name -> (key = name -> values = values') -> (<[key := values]> h) !! name = (<[key := values']> h') !! name.
Proof.
  intros H Hv. destruct (decide (key = name)) as [->|Hne]; [by rewrite !lookup_insert_eq, Hv|by rewrite !lookup_insert_ne].
Qed.

(** What the injection leaves under a name depends on what was there. *)
Lemma inject_local v h h' name : h !! name = h' !! name -> inject v h !! name = inject v h' !! name.
Proof.
  intros H. unfold inject. apply foldl_local; [|apply foldl_local; [|done]]; intros g g' x Hg.
  - unfold appendHeaderTokens, header_Set. apply insert_local; [done|]. intros <-. unfold header_Values. by rewrite Hg.
  - unfold header_Set. by apply insert_local.
Qed.

(** Two requests that differ in credentials only. *)
Definition indistinguishable (m : Material) (r r' : ProxyRequest) : Prop :=
  pr_Method r = pr_Method r' /\ pr_URL r = pr_URL r' /\ pr_Body r = pr_Body r' /\ pr_ContentLength r = pr_ContentLength r' /\
  forall name, ~ credential_name m name \/ name = "Connection" \/ name = "Upgrade" -> pr_Header r !! name = pr_Header r' !! name.

#[export] Instance indistinguishable_equiv m : Equivalence (indistinguishable m).
Proof.
  split.
  - by repeat split.
  - intros r r' (? & ? & ? & ? & H). repeat split; try done. intros name Hn. symmetry. by apply H.
  - intros a b c (? & ? & ? & ? & H) (? & ? & ? & ? & H'). repeat split; try congruence. intros name Hn. by rewrite H, H'.
Qed.

Lemma kept_same m r r' v v' : server_request r -> server_request r' -> visits r m v -> visits r' m v' ->
  indistinguishable m r r' -> kept m v = kept m v'.
Proof.
  intros Hs Hs' Hv Hv' (_ & _ & _ & _ & Hh). apply map_eq. intros name.
  rewrite (kept_lookup m r v), (kept_lookup m r' v') by done. unfold kept_field.
  destruct (withheld (mt_Strip m) name) eqn:Ew; [done|].
  assert (Htoken : forall q values, server_request q -> pr_Header q !! name = Some values -> ~ credential_name m name).
  { intros q values (_ & Hn & _) E Hc. destruct (Hn _ _ E) as [Ht Hk].
    pose proof (credential_withheld m name (isToken_bytes _ Ht) Hc) as H. rewrite Hk in H. congruence. }
  destruct (pr_Header r !! name) as [values|] eqn:E.
  - rewrite <- Hh, E by (left; by apply (Htoken r values)). done.
  - destruct (pr_Header r' !! name) as [values|] eqn:E'; [|done].
    rewrite <- Hh, E in E' by (left; by apply (Htoken r' values)). done.
Qed.

Lemma upgrade_same m r r' : indistinguishable m r r' ->
  isUpgradeRequest r = isUpgradeRequest r' /\ forall h, copyUpgradeHeaders h (pr_Header r) = copyUpgradeHeaders h (pr_Header r').
Proof.
  intros (_ & _ & _ & _ & Hh).
  assert (HC : header_Values (pr_Header r) "Connection" = header_Values (pr_Header r') "Connection")
    by (unfold header_Values; change (CanonicalHeaderKey "Connection") with "Connection"; rewrite Hh; auto).
  assert (HU : header_Get (pr_Header r) "Upgrade" = header_Get (pr_Header r') "Upgrade")
    by (unfold header_Get, header_Values; change (CanonicalHeaderKey "Upgrade") with "Upgrade"; rewrite Hh; auto).
  unfold isUpgradeRequest, headerHasToken, copyUpgradeHeaders. by rewrite HC, HU.
Qed.

Lemma copyUpgrade_other h src name : name <> "Connection" -> name <> "Upgrade" -> copyUpgradeHeaders h src !! name = h !! name.
Proof.
  intros H1 H2. unfold copyUpgradeHeaders, header_Set.
  change (CanonicalHeaderKey "Connection") with "Connection". change (CanonicalHeaderKey "Upgrade") with "Upgrade".
  destruct (negb _); by rewrite !lookup_insert_ne.
Qed.

(** C32: the caller has no say in the credentials.  Requests that differ in
    credentials only, under whatever spelling of their names, become the same
    request to the upstream; and what that request carries under the name of
    a credential is what it would carry had the caller sent no header. *)
Theorem caller_credentials_ignored route m r r' v v' :
  server_request r -> server_request r' -> visits r m v -> visits r' m v' ->
  vi_headers v = vi_headers v' -> vi_append v = vi_append v' -> indistinguishable m r r' ->
  buildOutbound route r m v = buildOutbound route r' m v' /\
  forall out name, buildOutbound route r m v = Some out -> credential_name m name ->
    name <> "Connection" -> name <> "Upgrade" -> ob_Header out !! name = inject v ∅ !! name.
Proof.
  intros Hs Hs' Hv Hv' Hh Ha Hi. split.
  - pose proof (kept_same _ _ _ _ _ Hs Hs' Hv Hv' Hi) as Hk. destruct (upgrade_same _ _ _ Hi) as [Hu Hc].
    destruct Hi as (Hm & Hurl & Hb & Hl & _). unfold buildOutbound. rewrite Hm, Hurl. destruct (NewRequest _ _) as [[method url]|]; [|done].
    change (foldl _ _ (vi_fields v)) with (kept m v). change (foldl _ _ (vi_fields v')) with (kept m v').
    unfold inject. rewrite Hk, Hh, Ha, Hu, Hc, Hb, Hl. done.
  - intros out name Hout Hc H1 H2. unfold buildOutbound in Hout. destruct (NewRequest _ _) as [[method url]|]; [|done].
    injection Hout as <-. cbn [ob_Header]. change (foldl _ _ (vi_fields v)) with (kept m v).
    assert (Hin : inject v (kept m v) !! name = inject v ∅ !! name)
      by (apply inject_local; by rewrite (kept_none m r v), lookup_empty).
    destruct (isUpgradeRequest r); by rewrite ?copyUpgrade_other.
Qed.

(** ** Where the request goes *)

Definition rooted (u : URL) : Prop :=
  (Path u = "" \/ HasPrefix (Path u) "/" = true) /\ (RawPath u = "" \/ HasPrefix (RawPath u) "/" = true).

Lemma slash_first s : HasPrefix s "/" = true <-> exists rest, s = String "/" rest.
Proof. rewrite HasPrefix_iff. split; intros [rest ->]; by exists rest. Qed.

Lemma set_path_rooted u p u' : (p = "" \/ HasPrefix p "/" = true) -> set_path u p = Some u' ->
  rooted u' /\ Opaque u' = Opaque u.
Proof.
  intros Hp. unfold set_path. destruct (unescape encodePath p) as [path|] eqn:E; [|done]. intros [= <-]. split; [|done].
  unfold rooted. cbn [Path RawPath]. split; [|destruct (p =? _); auto].
  destruct Hp as [->|Hp]; [cbn in E; injection E as <-; by left|]. right.
  apply slash_first in Hp as [rest ->]. cbn [unescape] in E. cbn in E. destruct (unescape encodePath rest); [|done]. injection E as <-. apply (proj2 (slash_first _)). eauto.
Qed.

Lemma Cut_first s c a b f : Cut s c = (a, b, f) -> forall d rest, s = String d rest -> (d =? c)%char = false ->
  exists a', a = String d a'.
Proof.
  intros H d rest -> Hd. cbn in H. rewrite Hd in H. destruct (Cut rest c) as [[x y] z]. injection H as <- _ _. eauto.
Qed.

Lemma ToLower_nonempty s : s <> "" -> ToLower s <> "".
Proof.
  intros Hs. assert (Hr : exists rc l, runes s = rc :: l).
  { destruct s as [|a s]; [done|]. cbn [runes]. repeat case_match; eauto. }
  destruct Hr as [[r chunk] [l Hl]]. unfold ToLower. rewrite Hl. cbn [foldr]. unfold EncodeRune. by repeat case_match.
Qed.

(** The target of a request line either is opaque or has a path from the root. *)
Lemma ParseRequestURI_rooted target u : ParseRequestURI target = Some u -> Opaque u = "" -> target <> "*" -> rooted u.
Proof.
  unfold ParseRequestURI. intros H Ho Hstar. destruct (target =? ""); [done|]. destruct (any_byte is_ctl target) eqn:Ectl; [done|].
  destruct (String.eqb_spec target "*"); [done|]. destruct (getScheme target target true "") as [|scheme rest] eqn:Es; [done|].
  destruct (negb (scheme =? "")) eqn:En.
  - unfold parse_url in H. rewrite Ectl, (proj2 (String.eqb_neq target "*")), Es in H by done.
    destruct (Cut rest "?"%char) as [[before after] found]. destruct (negb (HasPrefix before "/") && negb (ToLower scheme =? "")) eqn:E0.
    { injection H as <-. cbn in *. repeat split; by left. }
    destruct (negb (HasPrefix before "/") && first_segment_has_colon before); [done|]. destruct ((_ || _) && HasPrefix before "//").
    + destruct (Cut (TrimPrefix before "//") "/"%char) as [[authority tail] slash].
      destruct (parseAuthority authority) as [[user host]|]; [|done]. apply set_path_rooted in H as [H _]; [done|].
      destruct slash; [right|by left]. apply slash_first. by exists tail.
    + revert Ho. apply negb_true_iff in En. pose proof H as H'. destruct (HasPrefix before "/") eqn:Eb.
      * apply set_path_rooted in H as [H _]; [done|by right].
      * exfalso. apply String.eqb_neq in En. apply andb_false_iff in E0 as [E0|E0]; [done|].
        apply negb_false_iff, String.eqb_eq in E0. by apply ToLower_nonempty in E0.
  - destruct (Cut target "?"%char) as [[before after] found]. destruct (HasPrefix before "/") eqn:Eb; [|done].
    apply set_path_rooted in H as [H _]; [done|by right].
Qed.

Lemma unescape_no_percent m s h : m <> encodeQueryComponent -> has_byte s "%"%char = false -> unescape m s = Some h -> h = s.
Proof.
  intros Hm. revert h. unfold has_byte. induction s as [|c s IH]; intros h Hp H; [by injection H as <-|].
  cbn [any_byte] in Hp. apply orb_false_iff in Hp as [Hc Hp]. cbn [unescape] in H.
  assert (Hne : c <> "%"%char) by (intros ->; discriminate Hc).
  assert (H' : (if hostlike m && (code c <? 128)%Z && shouldEscape c m then None
                else String c <$> unescape m s) = Some h).
  { revert H. destruct c as [[] [] [] [] [] [] [] []]; try (by contradiction Hne);
      rewrite (bool_decide_eq_false_2 (m = encodeQueryComponent)) by done; exact (fun H => H). }
  destruct (_ && _); [done|]. destruct (unescape m s) as [x|] eqn:E; [|done]. injection H' as <-. by rewrite (IH x).
Qed.

Lemma cut_zone_none s : has_byte s "%"%char = false -> cut_zone s = None.
Proof.
  unfold has_byte. induction s as [|c s IH]; [done|]. cbn [any_byte cut_zone]. intros H. apply orb_false_iff in H as [Hc H].
  rewrite IH by done. destruct (HasPrefix (String c s) "%25") eqn:E; [|done].
  apply HasPrefix_iff in E as [x [= -> _]]. discriminate Hc.
Qed.

Lemma parseHost_plain host h : has_byte host "%"%char = false -> parseHost host = Some h -> h = host.
Proof.
  intros Hp. assert (Hu : unescape encodeHost host = Some h -> h = host) by (by apply unescape_no_percent). unfold parseHost.
  assert (Hz : forall a b, cut_last host "]"%char = Some (a, b) -> cut_zone a = None).
  { intros a b E. apply cut_zone_none. apply cut_last_split in E as ->. unfold has_byte in *. rewrite any_byte_app in Hp.
    by apply orb_false_iff in Hp as [? _]. }
  destruct (cut_last host "]"%char) as [[literal port]|]; [rewrite (Hz _ _ eq_refl)|]; by repeat case_match.
Qed.

Definition plain_upstream (upstream : string) : Prop :=
  forall c, In c ["/"%char; "@"%char; "?"%char; "#"%char] -> has_byte upstream c = false.

Lemma validateUpstream_plain upstream : validateUpstream upstream = Ok tt ->
  plain_upstream upstream /\ removeEmptyPort upstream = upstream.
Proof.
  unfold validateUpstream. intros H. checks H. bool_prop. split.
  - intros c Hc. destruct (has_byte upstream c) eqn:E; [|done]. exfalso.
    match goal with Hf : ContainsAny upstream ?chars = false |- _ =>
      assert (Ht : ContainsAny upstream chars = true); [|congruence] end.
    revert E. apply any_byte_impl. intros d Hd. apply Ascii.eqb_eq in Hd as <-.
    repeat destruct Hc as [<-|Hc]; try done; by destruct Hc.
  - unfold removeEmptyPort. destruct (hasPort upstream); [|done]. apply TrimSuffix_none.
    destruct (HasSuffix upstream ":") eqn:E; [|done]. exfalso. apply HasSuffix_iff in E as [x ->].
    revert H. unfold has_byte. rewrite any_byte_app, orb_true_r. unfold SplitHostPort. rewrite cut_last_end.
    repeat case_match; try done; simplify_eq.
Qed.

Lemma set_path_authority u p u' : set_path u p = Some u' -> Scheme u' = Scheme u /\ User u' = User u /\ Host u' = Host u.
Proof. unfold set_path. destruct (unescape _ p); [|done]. by intros [= <-]. Qed.

(** The authority of an address is what follows the scheme up to a slash. *)
Lemma parse_url_authority (secure : bool) upstream tail u :
  let scheme := if secure then "https" else "http" in
  plain_upstream upstream ->
  parse_url (scheme +:+ "://" +:+ upstream +:+ String "/" tail) = Some u ->
  Scheme u = scheme /\ User u = None /\ parseHost upstream = Some (Host u).
Proof.
  intros scheme Hp H. unfold parse_url in H. destruct (any_byte is_ctl _); [done|].
  set (rest := "//" +:+ upstream +:+ String "/" tail) in *.
  assert (Hs : getScheme (scheme +:+ "://" +:+ upstream +:+ String "/" tail) (scheme +:+ "://" +:+ upstream +:+ String "/" tail) true ""
               = SchemeSplit scheme rest) by (by destruct secure).
  assert (Hstar : (scheme +:+ "://" +:+ upstream +:+ String "/" tail =? "*") = false) by (by destruct secure).
  rewrite Hs, Hstar in H. clear Hs Hstar.
  assert (Hl : ToLower scheme = scheme) by (by destruct secure). assert (Hn : (scheme =? "") = false) by (by destruct secure).
  rewrite Hl, Hn in H. clearbody scheme.
  assert (Hq : Cut rest "?"%char = let '(x, y, f) := Cut (String "/" tail) "?"%char in ("//" +:+ upstream +:+ x, y, f)).
  { unfold rest. rewrite <- !str_app_assoc. apply (Cut_within ("//" +:+ upstream)). apply (Hp "?"%char). cbn. auto. }
  rewrite Hq in H. clear Hq rest. destruct (Cut (String "/" tail) "?"%char) as [[x y] f] eqn:Ex.
  destruct (Cut_first _ _ _ _ _ Ex "/"%char tail eq_refl eq_refl) as [x' ->].
  assert (H1 : HasPrefix ("//" +:+ upstream +:+ String "/" x') "/" = true) by (apply HasPrefix_iff; eexists; reflexivity).
  assert (H2 : HasPrefix ("//" +:+ upstream +:+ String "/" x') "//" = true) by (apply HasPrefix_iff; eexists; reflexivity).
  rewrite H1, H2, TrimPrefix_app in H. cbn [negb andb orb] in H.
  rewrite Cut_found in H by (apply no_byte_all, (Hp "/"%char); cbn; auto).
  unfold parseAuthority in H. rewrite cut_last_none in H by (apply (Hp "@"%char); cbn; auto).
  destruct (parseHost upstream) as [host|]; [|done]. cbn in H.
  by apply set_path_authority in H as (-> & -> & ->).
Qed.

Lemma NewRequest_authority secure method upstream tail method' u :
  let scheme := if (secure : bool) then "https" else "http" in
  validateUpstream upstream = Ok tt -> HasPrefix tail "/" = true ->
  NewRequest method (scheme +:+ "://" +:+ upstream +:+ tail) = Some (method', u) ->
  Scheme u = scheme /\ User u = None /\
  exists host, parseHost upstream = Some host /\ Host u = removeEmptyPort host.
Proof.
  intros scheme Hv Ht H. destruct (validateUpstream_plain _ Hv) as [Hp _]. apply slash_first in Ht as [t ->].
  unfold NewRequest in H. destruct (negb _); [done|]. destruct (url_Parse _) as [u0|] eqn:E; [|done]. injection H as _ <-. cbn [Scheme User Host].
  assert (H0 : Scheme u0 = scheme /\ User u0 = None /\ parseHost upstream = Some (Host u0)).
  { unfold url_Parse in E. rewrite <- (str_app_assoc "://"), <- !(str_app_assoc scheme), Cut_within in E.
    - destruct (Cut (String "/" t) "#"%char) as [[x y] f] eqn:Ex. destruct (Cut_first _ _ _ _ _ Ex "/"%char t eq_refl eq_refl) as [x' ->].
      destruct (parse_url _) as [u1|] eqn:E1; [|done]. rewrite !str_app_assoc in E1.
      apply (parse_url_authority secure) in E1; [|done].
      destruct (y =? ""); [by injection E as <-|]. unfold set_fragment in E. destruct (unescape encodeFragment y); [|done]. by injection E as <-.
    - unfold has_byte. rewrite any_byte_app. apply orb_false_iff. split; [by destruct secure|].
      apply (Hp "#"%char). cbn. auto 6. }
  destruct H0 as (-> & -> & ->). eauto.
Qed.

Lemma EscapedPath_rooted u : rooted u -> EscapedPath u = "" \/ HasPrefix (EscapedPath u) "/" = true.
Proof.
  intros [Hp Hr]. unfold EscapedPath. destruct (_ && _); [done|].
  destruct Hp as [->|Hp]; [by left|]. right. apply slash_first in Hp as [rest ->]. apply slash_first. by exists (escape encodePath rest).
Qed.

Lemma RequestURI_rooted u : Opaque u = "" -> rooted u -> HasPrefix (RequestURI u) "/" = true.
Proof.
  intros Ho Hr. unfold RequestURI. rewrite Ho. cbn [String.eqb]. apply slash_first.
  destruct (EscapedPath_rooted u Hr) as [->|Hp]; [by eexists|]. apply slash_first in Hp as [rest ->]. by eexists.
Qed.

(** The routes a daemon serves: those of its listeners, and those [init] makes
    for the hosts it intercepts. *)
Definition configured (c : Config) (route : Route) : Prop :=
  In route (co_Routes c) \/ exists inject, In inject (inject_routes c) /\ inject_proxy_route inject = Some route.

Lemma configured_upstream certificates document c route :
  LoadConfig certificates document = Ok c -> configured c route -> validateUpstream (ro_Upstream route) = Ok tt.
Proof.
  unfold LoadConfig. destruct (decode_config document) as [config|]; [|done]. rewrite andThen_ok. intros [H [= ->]] Hc.
  unfold Config_Validate in H. checks H. destruct Hc as [Hin|(i & Hin & Hi)].
  - match goal with Hr : each (check_route c) _ = Ok tt |- _ => apply each_ok with (x := route) in Hr; [|done]; unfold check_route in Hr; checks Hr end.
    done.
  - unfold inject_routes in Hin. destruct (co_ForwardProxy c) as [proxy|]; [|done]. unfold inject_proxy_route in Hi.
    checks H. match goal with Ho : validateForwardProxyRouteOverlap _ _ _ = Ok tt |- _ => unfold validateForwardProxyRouteOverlap in Ho; checks Ho end.
    match goal with He : each_seen _ _ _ = Ok tt |- _ => rewrite each_seen_ok in He; apply in_split in Hin as (l & q & Hq); specialize (He l i q Hq) end.
    match goal with He : check_inject _ _ _ _ _ = Ok tt |- _ => unfold check_inject in He end.
    destruct (normalizeProxyHost (ir_Host i)); [|done]. injection Hi as <-. match goal with He : _ = Ok tt |- _ => checks He end. done.
Qed.

(** C33: whatever the target of a request, short of an opaque one or the
    asterisk, it goes to the upstream of its route, over the scheme of the
    route and without user information: the caller chooses the path and the
    query only. *)
Theorem upstream_pinned certificates document c route r m v out target :
  LoadConfig certificates document = Ok c -> configured c route ->
  ParseRequestURI target = Some (pr_URL r) -> Opaque (pr_URL r) = "" -> target <> "*" ->
  buildOutbound route r m v = Some out ->
  Scheme (ob_URL out) = (if ro_AllowInsecureUpstream route then "http" else "https") /\
  User (ob_URL out) = None /\ ob_Host out = ro_Upstream route /\
  (exists host, parseHost (ro_Upstream route) = Some host /\ Host (ob_URL out) = removeEmptyPort host) /\
  (has_byte (ro_Upstream route) "%"%char = false -> Host (ob_URL out) = ro_Upstream route).
Proof.
  intros Hl Hc Ht Ho Hs Hout. pose proof (configured_upstream _ _ _ _ Hl Hc) as Hv.
  pose proof (RequestURI_rooted _ Ho (ParseRequestURI_rooted _ _ Ht Ho Hs)) as Hp.
  unfold buildOutbound in Hout. destruct (NewRequest _ _) as [[method u]|] eqn:E; [|done]. injection Hout as <-. cbn [ob_URL ob_Host].
  assert (E' : NewRequest (pr_Method r) ((if negb (ro_AllowInsecureUpstream route) then "https" else "http") +:+ "://"
                 +:+ ro_Upstream route +:+ RequestURI (pr_URL r)) = Some (method, u)) by (by destruct (ro_AllowInsecureUpstream route)).
  apply NewRequest_authority in E' as (H1 & H2 & host & H3 & H4); [|done|done].
  split; [by destruct (ro_AllowInsecureUpstream route)|]. repeat split; try done; [by exists host|].
  intros Hn. apply parseHost_plain in H3 as ->; [|done]. rewrite H4. by apply validateUpstream_plain.
Qed.

(** ** The material *)

Lemma list_of_app a b : String.list_ascii_of_string (a +:+ b) = (String.list_ascii_of_string a ++ String.list_ascii_of_string b)%list.
Proof. induction a as [|c a IH]; [done|]. rewrite str_cons_app. cbn. by rewrite IH. Qed.

Lemma bool_suffix p p' b b' : p +:+ " " +:+ FormatBool b = p' +:+ " " +:+ FormatBool b' -> p = p' /\ b = b'.
Proof.
  intros H. apply (f_equal (fun s => rev (String.list_ascii_of_string s))) in H. rewrite !list_of_app, !rev_app_distr in H.
  destruct b, b'; cbn in H; try (by simplify_eq); simplify_eq;
    match goal with Hr : rev _ = rev _ |- _ => apply (f_equal (@rev ascii)) in Hr; rewrite !rev_involutive in Hr;
      apply (f_equal String.string_of_list_ascii) in Hr; by rewrite !String.string_of_list_ascii_of_string in Hr end.
Qed.

(** The key of the cache tells methods, paths and upgrades apart. *)
Lemma cache_key_inj m p u m' p' u' : isToken m = true -> isToken m' = true ->
  cache_key m p u = cache_key m' p' u' -> m = m' /\ p = p' /\ u = u'.
Proof.
  assert (Hspace : forall s, isToken s = true -> all_bytes (fun d => negb (d =? " ")%char) s = true).
  { intros s Hs. apply isToken_bytes in Hs. revert Hs. apply all_bytes_impl.
    intros c; destruct c as [[] [] [] [] [] [] [] []]; vm_compute; done. }
  intros Hm Hm' H. unfold cache_key in H. apply (f_equal (fun s => Cut s " "%char)) in H.
  change (m +:+ " " +:+ p +:+ " " +:+ FormatBool u) with (m +:+ String " " (p +:+ " " +:+ FormatBool u)) in H.
  change (m' +:+ " " +:+ p' +:+ " " +:+ FormatBool u') with (m' +:+ String " " (p' +:+ " " +:+ FormatBool u')) in H.
  rewrite !Cut_found in H by auto. injection H as -> H. by apply bool_suffix in H as [-> ->].
Qed.

Section Runs.
Context (route : Route).

(** The broker answered this request, at this time, with this material. *)
Definition granted (fetches : list fetch) (method path : string) (upgrade : bool) (m : Material) (time : Z) : Prop :=
  exists f, f ∈ fetches /\ ft_request f = injection_request route method path upgrade /\
    ft_body f = injection_body (ft_request f) /\ FetchHeaders (ft_reply f) = Ok m /\ ft_time f = time.

Definition stage_job (s : stage) : option job :=
  match s with Prepared j | Sent j => Some j | Answered _ sent _ _ => sent end.

Definition job_granted (fetches : list fetch) (j : job) : Prop :=
  let r := jb_request j in
  (exists time, granted fetches (pr_Method r) (RequestURI (pr_URL r)) (isUpgradeRequest r) (jb_material j) time /\
     jb_time j < time + maxCacheTTL) /\
  unexpired (jb_material j) (jb_time j) = true /\
  exists v, visits r (jb_material j) v /\ buildOutbound route r (jb_material j) v = Some (jb_outbound j).

Record kept_world (w : world) : Prop := {
  kw_cache : forall key entry, px_cache (w_proxy w) !! key = Some entry -> exists method path upgrade,
    isToken method = true /\ key = cache_key method path upgrade /\
    granted (w_fetches w) method path upgrade (ce_material entry) (ce_fetchedAt entry);
  kw_jobs : forall i s j, w_stages w !! i = Some s -> stage_job s = Some j -> job_granted (w_fetches w) j
}.

Lemma granted_more fetches more method path upgrade m time :
  granted fetches method path upgrade m time -> granted (fetches ++ more) method path upgrade m time.
Proof. intros (f & Hf & H). exists f. split; [|done]. apply elem_of_app. by left. Qed.

Lemma job_granted_more fetches more j : job_granted fetches j -> job_granted (fetches ++ more) j.
Proof. intros ((time & Hg & Ht) & H). split; [exists time; eauto using granted_more|done]. Qed.

(** One call of [material]: what it answers was granted to these arguments,
    and so is what the cache then holds. *)
Lemma material_granted fetches clock reply method path upgrade p :
  isToken method = true -> at_answer clock <= at_store clock ->
  (forall key entry, px_cache p !! key = Some entry -> exists method path upgrade,
    isToken method = true /\ key = cache_key method path upgrade /\
    granted fetches method path upgrade (ce_material entry) (ce_fetchedAt entry)) ->
  let '(fetched, posted, p') := material route clock reply method path upgrade p in
  let now := match posted with Some _ => at_answer clock | None => at_lookup clock end in
  let fetches' := (fetches ++ match posted with Some q => [mkFetch q (injection_body q) reply (at_store clock)] | None => [] end)%list in
  (forall m, fetched = Ok m ->
     (exists time, granted fetches' method path upgrade m time /\ now < time + maxCacheTTL) /\ unexpired m now = true) /\
  (forall key entry, px_cache p' !! key = Some entry -> exists method path upgrade,
    isToken method = true /\ key = cache_key method path upgrade /\
    granted fetches' method path upgrade (ce_material entry) (ce_fetchedAt entry)).
Proof.
  intros Hm Hclock Hcache. unfold material. set (key := cache_key method path upgrade).
  set (posted := mkFetch (injection_request route method path upgrade) (injection_body (injection_request route method path upgrade)) reply (at_store clock)).
  assert (Hold : forall k entry, delete key (px_cache p) !! k = Some entry -> exists method path upgrade,
    isToken method = true /\ k = cache_key method path upgrade /\
    granted (fetches ++ [posted]) method path upgrade (ce_material entry) (ce_fetchedAt entry)).
  { intros k entry H. apply lookup_delete_Some in H as [_ H]. destruct (Hcache _ _ H) as (a & b & c & ? & ? & ?).
    exists a, b, c. eauto using granted_more. }
  destruct (px_cache p !! key) as [entry|] eqn:E; [destruct (entryValidLocked entry (at_lookup clock)) eqn:Ev|].
  1: { rewrite app_nil_r. split; [|done]. intros m [= <-]. unfold entryValidLocked in Ev. apply andb_true_iff in Ev as [Et Ee].
       split; [|done]. destruct (Hcache _ _ E) as (a & b & c & Ha & Hk & Hg). apply cache_key_inj in Hk as (<- & <- & <-); [|done..].
       eexists. split; [exact Hg|]. by apply Z.ltb_lt. }
  all: destruct (FetchHeaders reply) as [m|e] eqn:Ef; [|by split].
  all: destruct (unexpired m (at_answer clock)) eqn:Eu; cbn [negb]; [|by split].
  all: assert (Hnew : granted (fetches ++ [posted]) method path upgrade m (at_store clock))
         by (exists posted; repeat split; [apply elem_of_app; right; by apply list_elem_of_singleton|done]).
  all: split; [intros m' [= <-]; split; [exists (at_store clock); split; [done|unfold maxCacheTTL, second; lia]|done]|].
  all: intros k x Hx; cbn [px_cache] in Hx; apply lookup_insert_Some in Hx as [[<- <-]|[_ Hx]]; [by exists method, path, upgrade|].
  all: apply Hold; destruct (_ <=? _)%nat; [by rewrite lookup_empty in Hx|done].
Qed.

Lemma arrive_kept w clock reply v r : kept_world w -> server_request r -> at_answer clock <= at_store clock ->
  (forall m, (material route clock reply (pr_Method r) (RequestURI (pr_URL r)) (isUpgradeRequest r) (w_proxy w)).1.1 = Ok m -> visits r m v) ->
  kept_world (arrive route clock reply v r w).
Proof.
  intros [Hc Hj] (Hm & _ & _) Hclock Hv. unfold arrive, prepare.
  pose proof (material_granted (w_fetches w) clock reply _ (RequestURI (pr_URL r)) (isUpgradeRequest r) (w_proxy w) Hm Hclock Hc) as H.
  destruct (material route clock reply _ _ _ (w_proxy w)) as [[fetched posted] p']. cbn [fst] in *. destruct H as [Hg Hc'].
  split; cbn [w_proxy w_fetches w_stages]; [exact Hc'|].
  intros i s j Hi Hs. apply lookup_app_Some in Hi as [Hi|[_ Hi]].
  - apply job_granted_more. by apply (Hj i s).
  - apply list_lookup_singleton_Some in Hi as [_ <-].
    destruct fetched as [m|[|message]]; cbn in Hs; [|done|done]. destruct (buildOutbound route r m v) as [out|] eqn:Eo; [|done].
    cbn in Hs. injection Hs as <-. destruct (Hg m eq_refl) as [Ht Hu]. split; [exact Ht|]. split; [exact Hu|]. exists v. auto.
Qed.

Lemma set_stage_kept w i s0 s p : kept_world w -> w_stages w !! i = Some s0 -> px_cache p = px_cache (w_proxy w) ->
  (forall j, stage_job s = Some j -> stage_job s0 = Some j) -> kept_world (set_stage route i s p w).
Proof.
  intros [Hc Hj] Hi Hp Hs. split; cbn; [by rewrite Hp|]. intros k s' j Hk Hj'.
  apply list_lookup_insert_Some in Hk as [(-> & <- & _)|[_ Hk]]; [|by apply (Hj k s')]. apply (Hj k s0); auto.
Qed.

Lemma quota_cache p : px_cache (quotaExceeded route p).2 = px_cache p.
Proof. unfold quotaExceeded. by destruct (_ <=? _)%Z. Qed.

Lemma reachable_kept now w : reachable route now w -> kept_world w.
Proof.
  induction 1 as [|w w' _ IH Hw]; [split; [intros k e H; simpl in H; by rewrite lookup_empty in H|by intros [|i]]|].
  destruct Hw as [clock reply v r Hr _ Hclock Hv|i j Hi|i j hijack upstream Hi].
  - by apply arrive_kept.
  - eapply set_stage_kept; [done..|apply quota_cache|]. intros j'. unfold counted_stage. by destruct (_.1).
  - eapply set_stage_kept; [done..|]. intros j'. unfold finished_stage. by destruct (finish hijack _ upstream).
Qed.
End Runs.

(** C34: however requests interleave, a request is only ever forwarded with
    material the broker gave in answer to the encoding of this capability,
    host, method, target and upgrade, which it reads back exactly when they
    are UTF-8; not within the margin of its expiry, and found good less than a
    minute after it was stored; so once the broker grants a request no more,
    no request is given an old grant a minute later.  The time is the one the
    material was found good at, not the one the request left at. *)
Theorem material_current route now w i s j :
  reachable route now w -> w_stages w !! i = Some s -> stage_job s = Some j ->
  let r := jb_request j in
  let asked := injection_request route (pr_Method r) (RequestURI (pr_URL r)) (isUpgradeRequest r) in
  (exists f, f ∈ w_fetches w /\ ft_request f = asked /\ FetchHeaders (ft_reply f) = Ok (jb_material j) /\
     jb_time j < ft_time f + 60 * second /\ ft_body f = injection_body asked /\
     (json_ok (injection_document asked) = true -> json_document (ft_body f) = Some (injection_document asked))) /\
  (mt_ExpiresAt (jb_material j) = 0 \/ jb_time j < mt_ExpiresAt (jb_material j) - 30 * second) /\
  (exists v, visits r (jb_material j) v /\ buildOutbound route r (jb_material j) v = Some (jb_outbound j)) /\
  forall revoked, (forall f m, f ∈ w_fetches w -> ft_request f = asked -> FetchHeaders (ft_reply f) = Ok m -> ft_time f < revoked) ->
    jb_time j < revoked + 60 * second.
Proof.
  intros Hw Hi Hs r asked. destruct (kw_jobs _ _ (reachable_kept _ _ _ Hw) _ _ _ Hi Hs) as ((time & (f & Hf & Hq & Hb & Hm & <-) & Ht) & Hu & Hv).
  unfold maxCacheTTL in Ht. rewrite Hq in Hb. fold r in Hq, Hb. fold asked in Hq, Hb.
  split; [exists f; split_and!; try done; intros Hok; rewrite Hb; by apply json_document_print|]. split; [|split; [done|]].
  - unfold unexpired, expiryMargin in Hu. apply orb_true_iff in Hu as [Hu|Hu]; bool_prop; auto.
  - intros revoked Hr. specialize (Hr f _ Hf Hq Hm). lia.
Qed.

(** ** The quota *)

Section Quota.
Context (route : Route).

Definition is_sent (s : stage) : bool := match stage_job s, s with Some _, Prepared _ => false | Some _, _ => true | None, _ => false end.

(** Refused for the quota: the other answers of the proxy itself have another
    status. *)
Definition is_over (s : stage) : bool := match s with Answered _ None _ status => (status =? 429)%Z | _ => false end.

Definition tally (w : world) : Z := count is_sent (w_stages w) + count is_over (w_stages w).

Definition quota_world (w : world) : Prop :=
  0 < ro_MaxRequests route -> Z.of_nat (length (w_stages w)) < 2 ^ 63 ->
  px_requestCount (w_proxy w) = tally w /\ count is_sent (w_stages w) = Z.min (tally w) (ro_MaxRequests route).

Lemma material_count clock reply method path upgrade p :
  px_requestCount (material route clock reply method path upgrade p).2 = px_requestCount p.
Proof. unfold material. by repeat case_match. Qed.

Lemma arrival_uncounted clock reply v r p :
  let '(prepared, posted, p') := prepare route clock reply v r p in
  is_sent (arrival_stage clock r posted prepared) = false /\ is_over (arrival_stage clock r posted prepared) = false /\
  px_requestCount p' = px_requestCount p.
Proof.
  unfold prepare. pose proof (material_count clock reply (pr_Method r) (RequestURI (pr_URL r)) (isUpgradeRequest r) p) as Hc.
  destruct (material _ _ _ _ _ _ _) as [[fetched posted] p']. cbn in Hc. rewrite Hc.
  destruct fetched as [m|[|message]]; [destruct (buildOutbound route r m v)|..]; by repeat split.
Qed.

Definition is_pending (s : stage) : bool := negb (is_sent s || is_over s).

Lemma tally_length w : tally w + count is_pending (w_stages w) = Z.of_nat (length (w_stages w)).
Proof.
  unfold tally. generalize (w_stages w). intros l. induction l as [|s l IH]; [done|].
  rewrite !count_cons. cbn [length]. assert (Hs : is_sent s && is_over s = false) by (destruct s as [| |r [] a st]; done).
  unfold is_pending at 1. destruct (is_sent s), (is_over s); try done; cbn; lia.
Qed.

Lemma tally_nonneg w : 0 <= tally w.
Proof. unfold tally. pose proof (count_nonneg is_sent (w_stages w)). pose proof (count_nonneg is_over (w_stages w)). lia. Qed.

Lemma set_stage_count (p : stage -> bool) w i s0 s px : w_stages w !! i = Some s0 ->
  count p (w_stages (set_stage route i s px w)) =
    count p (w_stages w) - (if p s0 then 1 else 0) + (if p s then 1 else 0).
Proof. apply count_insert. Qed.

Lemma set_stage_length w i s px : length (w_stages (set_stage route i s px w)) = length (w_stages w).
Proof. apply length_insert. Qed.

Lemma reachable_quota now w : reachable route now w -> quota_world w.
Proof.
  induction 1 as [|w w' _ IH Hw]; [intros Hm _; unfold tally; unfold count; cbn; lia|].
  destruct Hw as [clock reply v r _ _ _ _|i j Hi|i j hijack upstream Hi]; intros Hm Hl.
  - unfold arrive in *. pose proof (arrival_uncounted clock reply v r (w_proxy w)) as Ha.
    destruct (prepare route clock reply v r (w_proxy w)) as [[prepared posted] p']. destruct Ha as (H1 & H2 & H3).
    cbn [w_stages] in Hl. rewrite length_app in Hl. unfold tally. cbn [w_proxy w_stages px_requestCount].
    rewrite !count_app, !count_cons, H1, H2, H3. destruct IH as [Hc Hs]; [done|lia|]. unfold tally in *.
    change (count is_sent []) with 0. change (count is_over []) with 0. lia.
  - rewrite set_stage_length in Hl. destruct (IH Hm Hl) as [Hc Hs]. pose proof (tally_length w) as Ht. pose proof (tally_nonneg w).
    pose proof (count_one is_pending _ _ _ Hi eq_refl) as Hone.
    unfold quotaExceeded, tally in *. rewrite !(set_stage_count _ _ _ _ _ _ Hi).
    rewrite (proj2 (Z.leb_gt (ro_MaxRequests route) 0)) by lia. cbn [fst snd w_proxy set_stage px_requestCount].
    rewrite wrap64_small by lia. rewrite Hc. unfold counted_stage.
    destruct (ro_MaxRequests route <? _)%Z eqn:E; bool_prop; cbn; lia.
  - rewrite set_stage_length in Hl. destruct (IH Hm Hl) as [Hc Hs]. unfold tally in *.
    rewrite !(set_stage_count _ _ _ _ _ _ Hi). unfold finished_stage. destruct (finish hijack _ upstream) as [a st]. cbn. lia.
Qed.
End Quota.

(** C35: however requests interleave, no more of them reach the upstream than
    the route's limit, and none is refused for the quota before the limit is
    used up. *)
Theorem quota_exact route now w :
  reachable route now w -> 0 < ro_MaxRequests route -> Z.of_nat (length (w_stages w)) < 2 ^ 63 ->
  count is_sent (w_stages w) <= ro_MaxRequests route /\
  (0 < count is_over (w_stages w) -> count is_sent (w_stages w) = ro_MaxRequests route).
Proof.
  intros Hw Hm Hl. destruct (reachable_quota _ _ _ Hw Hm Hl) as [_ Hs]. unfold tally in Hs. lia.
Qed.

(** ** Audit *)

Definition class_byte (c : ascii) : bool := is_lower c || is_digit c || one_of "._-" c.

(** [^[a-z0-9._-]{1,64}$], the classes the broker takes. *)
Definition broker_class (s : string) : Prop := all_bytes class_byte s = true /\ (1 <= String.length s <= 64)%nat.

Lemma class_rune_byte r : class_rune r = true -> class_byte (byte r) = true.
Proof.
  intros H. assert (Hr : 0 <= r < 256) by (unfold class_rune, in_range in H; bool_prop; lia).
  assert (Hall : forallb (fun n => implb (class_rune (Z.of_nat n)) (class_byte (byte (Z.of_nat n)))) (seq 0 256) = true)
    by (by vm_compute).
  rewrite forallb_forall in Hall. specialize (Hall (Z.to_nat r)). rewrite Z2Nat.id, H in Hall by lia. apply Hall, in_seq. lia.
Qed.

Lemma sanitize_class n rs : (n <= 64)%nat ->
  all_bytes class_byte (sanitize n rs) = true /\ (String.length (sanitize n rs) <= 64 - n)%nat.
Proof.
  revert n. induction rs as [|r rs IH]; intros n Hn; [by split; [|cbn; lia]|]. cbn [sanitize].
  destruct (pathClassMaxLen <=? n)%nat eqn:E; [by split; [|cbn; lia]|]. apply Nat.leb_gt in E. unfold pathClassMaxLen in E.
  destruct (class_rune r) eqn:Er; [|by apply IH]. destruct (IH (S n)) as [H1 H2]; [lia|].
  cbn [all_bytes String.length]. rewrite class_rune_byte by done. split; [done|lia].
Qed.

(** Whatever the path, its class is one the broker takes. *)
Theorem PathClass_shape path : broker_class (PathClass path).
Proof.
  unfold PathClass. destruct (HasSuffix path "/info/refs"); [split; [done|cbn; lia]|].
  destruct (HasSuffix path "/git-upload-pack"); [split; [done|cbn; lia]|].
  destruct (HasSuffix path "/git-receive-pack"); [split; [done|cbn; lia]|].
  destruct (Cut _ _) as [[trimmed y] f]. destruct (trimmed =? ""); [split; [done|cbn; lia]|].
  destruct (sanitize_class 0 (map fst (runes (ToLower trimmed)))) as [H1 H2]; [lia|]. fold (sanitizePathClass trimmed) in *.
  destruct (String.eqb_spec (sanitizePathClass trimmed) "") as [|Hn]; [split; [done|cbn; lia]|].
  split; [done|]. destruct (sanitizePathClass trimmed); [done|]. cbn in *. lia.
Qed.

Lemma set_stage_reports route i s0 s p w : w_stages w !! i = Some s0 -> stage_reports route s0 = [] ->
  concat (map (stage_reports route) (w_stages (set_stage route i s p w))) ≡ₚ
  (concat (map (stage_reports route) (w_stages w)) ++ stage_reports route s)%list.
Proof.
  intros Hi H0. cbn [w_stages set_stage]. rewrite insert_take_drop by (by eapply lookup_lt_Some).
  rewrite <- (take_drop_middle _ _ _ Hi) at 3. rewrite !map_app. cbn [map]. rewrite !concat_app. cbn [concat]. rewrite H0. cbn [app].
  rewrite <- !app_assoc. apply Permutation_app_head. apply Permutation_app_comm.
Qed.

Lemma reachable_reports route now w : reachable route now w ->
  w_reports w ≡ₚ concat (map (stage_reports route) (w_stages w)).
Proof.
  induction 1 as [|w w' _ IH Hw]; [done|]. destruct Hw as [clock reply v r _ _ _ _|i j Hi|i j hijack upstream Hi].
  - unfold arrive. destruct (prepare _ _ _ _ _ _) as [[prepared posted] p']. cbn [w_reports w_stages].
    rewrite map_app, concat_app. cbn [map concat]. by rewrite app_nil_r, IH.
  - rewrite (set_stage_reports _ _ _ _ _ _ Hi) by done. cbn [w_reports set_stage]. by rewrite IH.
  - rewrite (set_stage_reports _ _ _ _ _ _ Hi) by done. cbn [w_reports set_stage]. by rewrite IH.
Qed.

(** The status a caller sees, if the connection is not just closed. *)
Definition answer_status (a : answer) : option Z :=
  match a with writeError status _ | copyResponse status _ => Some status | relayUpgrade _ => Some 101 | Closed => None end.

Definition answered_as_reported (s : stage) : Prop :=
  match s with Answered _ _ a status => a = Closed \/ answer_status a = Some status | _ => True end.

Lemma finish_status hijack r upstream : let '(a, status) := finish hijack r upstream in a = Closed \/ answer_status a = Some status.
Proof.
  unfold finish. destruct upstream as [u|]; [|by right]. destruct (_ || _) eqn:E; [by right|].
  apply orb_false_iff in E as [_ E]. bool_prop. destruct (negb _); [by right|]. destruct hijack; [by right|by left|]. right. cbn. congruence.
Qed.

Lemma arrival_status route clock reply v r p :
  let '(prepared, posted, _) := prepare route clock reply v r p in answered_as_reported (arrival_stage clock r posted prepared).
Proof.
  unfold prepare. destruct (material _ _ _ _ _ _ _) as [[fetched posted] p'].
  destruct fetched as [m|[|message]]; [destruct (buildOutbound route r m v)|..]; cbn; auto.
Qed.

Lemma reachable_statuses route now w i s : reachable route now w -> w_stages w !! i = Some s -> answered_as_reported s.
Proof.
  intros Hw. revert i s. induction Hw as [|w w' _ IH Hw]; intros k s Hk; [by destruct k|].
  destruct Hw as [clock reply v r _ _ _ _|i j Hi|i j hijack upstream Hi].
  - unfold arrive in Hk. pose proof (arrival_status route clock reply v r (w_proxy w)) as Ha.
    destruct (prepare _ _ _ _ _ _) as [[prepared posted] p']. cbn [w_stages] in Hk.
    apply lookup_app_Some in Hk as [Hk|[_ Hk]]; [by apply (IH k)|]. by apply list_lookup_singleton_Some in Hk as [_ <-].
  - cbn [w_stages set_stage] in Hk. apply list_lookup_insert_Some in Hk as [(_ & <- & _)|[_ Hk]]; [|by apply (IH k)].
    unfold counted_stage. destruct (_.1); [by right|done].
  - cbn [w_stages set_stage] in Hk. apply list_lookup_insert_Some in Hk as [(_ & <- & _)|[_ Hk]]; [|by apply (IH k)].
    unfold finished_stage. pose proof (finish_status hijack (jb_request j) upstream) as Hf. by destruct (finish _ _ _).
Qed.

(** Every answered request is reported once, with the status its caller saw,
    under a class the broker takes; nothing else is reported. *)
Theorem requests_audited route now w :
  reachable route now w ->
  w_reports w ≡ₚ concat (map (stage_reports route) (w_stages w)) /\
  (forall e, e ∈ w_reports w -> en_Capability e = ro_Capability route /\ broker_class (en_PathClass e)) /\
  (forall i r sent a status, w_stages w !! i = Some (Answered r sent a status) -> a = Closed \/ answer_status a = Some status).
Proof.
  intros Hw. pose proof (reachable_reports _ _ _ Hw) as Hp. split; [done|]. split.
  - intros e He. rewrite Hp in He. apply list_elem_of_In, in_concat in He as (l & Hl & He).
    apply in_map_iff in Hl as (s & <- & _). destruct s as [| |r sent a status]; [done..|]. cbn in He.
    destruct He as [<-|[]]. split; [done|]. apply PathClass_shape.
  - intros i r sent a status Hi. exact (reachable_statuses _ _ _ _ _ Hw Hi).
Qed.

(** ** The reporter *)

Definition offered (events : list reporter_event) : list ReportEntry :=
  omap (fun event => match event with Offered e => Some e | _ => None end) events.

(** All entries a reporter still has or has had taken by the broker, in order. *)
Definition entries (r : Reporter) : list ReportEntry := (concat (rr_posted r) ++ rr_batch r ++ rr_queue r)%list.

Record reporter_ok (seen : list ReportEntry) (r : Reporter) : Prop := {
  ro_total : 0 <= rr_dropped r /\ rr_dropped r + Z.of_nat (length (entries r)) = Z.of_nat (length seen);
  ro_order : entries r `sublist_of` seen;
  ro_queue : (length (rr_queue r) <= 1024)%nat;
  ro_batch : (length (rr_batch r) < 100)%nat;
  ro_posted : forall batch, In batch (rr_posted r) -> (1 <= length batch <= 100)%nat
}.

Lemma entries_send accepted r : (length (rr_batch r) <= 100)%nat ->
  0 <= rr_dropped r -> rr_dropped r + Z.of_nat (length (entries r)) < 2 ^ 63 ->
  (forall batch, In batch (rr_posted r) -> (1 <= length batch <= 100)%nat) ->
  let r' := send accepted r in
  rr_batch r' = [] /\ rr_queue r' = rr_queue r /\ entries r' `sublist_of` entries r /\
  0 <= rr_dropped r' /\ rr_dropped r' + Z.of_nat (length (entries r')) = rr_dropped r + Z.of_nat (length (entries r)) /\
  (forall batch, In batch (rr_posted r') -> (1 <= length batch <= 100)%nat).
Proof.
  intros Hb Hd Hl Hp. unfold send. destruct (bool_decide_reflect (rr_batch r = [])) as [E|E]; [by repeat split; try apply Hp|].
  unfold entries in *. destruct (_ && _); cbn [rr_batch rr_queue rr_posted rr_dropped].
  - rewrite concat_app. cbn [concat]. rewrite app_nil_r, <- app_assoc. repeat split; try done.
    + apply in_app_or in H as [H|[<-|[]]]; [by apply Hp|]. destruct (rr_batch r); [done|cbn; lia].
    + apply in_app_or in H as [H|[<-|[]]]; [by apply Hp|done].
  - rewrite !length_app in *. rewrite wrap64_small by lia. repeat split; try done; try apply Hp; try done; [|lia|cbn [length]; lia].
    apply sublist_app; [done|]. by apply sublist_inserts_l.
Qed.

Lemma send_ok seen accepted r : reporter_ok seen r -> Z.of_nat (length seen) < 2 ^ 63 -> reporter_ok seen (send accepted r).
Proof.
  intros [[Hd Ht] Ho Hq Hb Hp] Hl. destruct (entries_send accepted r) as (H1 & H2 & H3 & H4 & H5 & H6); try done; [lia|lia|].
  split; try done; [lia|by etrans|by rewrite H2|rewrite H1; cbn; lia].
Qed.

Lemma receive_ok seen e queue accepted r : reporter_ok seen r -> Z.of_nat (length seen) < 2 ^ 63 ->
  rr_queue r = e :: queue -> reporter_ok seen (receive e queue accepted r).
Proof.
  intros [[Hd Ht] Ho Hq Hb Hp] Hl E. unfold receive.
  set (r1 := mkReporter queue (rr_batch r ++ [e]) (rr_dropped r) (rr_mode r) (rr_cancelled r) (rr_posted r)).
  assert (He : entries r1 = entries r) by (unfold entries; cbn; rewrite E, <- !app_assoc; done).
  assert (Hb1 : length (rr_batch r1) = S (length (rr_batch r))) by (cbn; rewrite length_app; cbn; lia).
  assert (Hq1 : (length queue <= 1024)%nat) by (rewrite E in Hq; cbn in Hq; lia).
  destruct (defaultReportBatchSize <=? length (rr_batch r1))%nat eqn:E1.
  - destruct (entries_send accepted r1) as (H1 & H2 & H3 & H4 & H5 & H6); rewrite ?He; try done; [lia|cbn [rr_dropped r1]; lia|].
    rewrite He in *. cbn [rr_dropped r1] in *. split; try done; [lia|by etrans|by rewrite H2|rewrite H1; cbn; lia].
  - apply Nat.leb_gt in E1. unfold defaultReportBatchSize in E1. split; rewrite ?He; done.
Qed.

Lemma enqueue_ok seen e r : reporter_ok seen r -> Z.of_nat (length (seen ++ [e])) < 2 ^ 63 -> reporter_ok (seen ++ [e]) (Enqueue e r).
Proof.
  intros [[Hd Ht] Ho Hq Hb Hp] Hl. rewrite length_app in Hl. cbn [length] in Hl. unfold Enqueue.
  destruct (_ <? _)%nat eqn:E; split; unfold entries in *; cbn [rr_queue rr_batch rr_dropped rr_posted]; try done.
  - rewrite !length_app in *. cbn [length]. lia.
  - rewrite !app_assoc in *. by apply sublist_app.
  - apply Nat.ltb_lt in E. unfold defaultReportQueueSize in E. rewrite length_app. cbn. lia.
  - rewrite wrap64_small by lia. rewrite !length_app in *. cbn [length]. lia.
  - by apply sublist_inserts_r.
Qed.

Lemma reporter_step_ok seen event r r' : reporter_ok seen r -> reporter_step event r = Some r' ->
  Z.of_nat (length (seen ++ offered [event])) < 2 ^ 63 -> reporter_ok (seen ++ offered [event]) r'.
Proof.
  intros Hr Hs Hl. assert (Hflags : forall q mode cancelled, reporter_ok seen q ->
    reporter_ok seen (mkReporter (rr_queue q) (rr_batch q) (rr_dropped q) mode cancelled (rr_posted q)))
    by (by intros q mode cancelled [? ? ? ? ?]; split).
  destruct event as [e|accepted|accepted| |]; cbn [offered omap list_omap reporter_step] in *; rewrite ?app_nil_r in *.
  - injection Hs as <-. by apply enqueue_ok.
  - destruct (rr_mode r), (rr_queue r) as [|e queue] eqn:Eq; try done; injection Hs as <-; try by apply receive_ok.
    apply Hflags. by apply send_ok.
  - destruct (rr_mode r); try done. injection Hs as <-. by apply send_ok.
  - injection Hs as <-. by apply Hflags.
  - destruct (rr_mode r), (rr_cancelled r); try done. injection Hs as <-. by apply Hflags.
Qed.

Lemma offered_cons event events : offered (event :: events) = (offered [event] ++ offered events)%list.
Proof. by destruct event. Qed.

Lemma reporter_run_ok seen events r r' : reporter_ok seen r -> reporter_run events r = Some r' ->
  Z.of_nat (length (seen ++ offered events)) < 2 ^ 63 -> reporter_ok (seen ++ offered events) r'.
Proof.
  revert seen r. induction events as [|event events IH]; intros seen r Hr Hs Hl; cbn [reporter_run] in Hs.
  - injection Hs as <-. by rewrite app_nil_r.
  - destruct (reporter_step event r) as [r1|] eqn:E; [|done]. rewrite offered_cons, app_assoc in *. cbn in Hs.
    apply (IH _ r1); [|done|done]. apply (reporter_step_ok seen event r); [done..|]. rewrite length_app in Hl. lia.
Qed.

(** Every entry offered is still held, was taken by the broker, or is counted
    as dropped; what was taken and is held keeps the order of the offers, and
    a batch has at most the hundred entries the broker takes. *)
Theorem reporter_accounts events r :
  reporter_run events NewReporter = Some r -> Z.of_nat (length (offered events)) < 2 ^ 63 -> reporter_ok (offered events) r.
Proof.
  intros Hs Hl. apply (reporter_run_ok [] events NewReporter); try done. split; cbn; try done; lia.
Qed.

(** Once its context is cancelled a reporter delivers nothing: the requests of
    the final drain are made under the context whose end it reacts to. *)
Theorem drain_delivers_nothing events r r' :
  rr_cancelled r = true -> reporter_run events r = Some r' -> rr_posted r' = rr_posted r.
Proof.
  assert (Hsend : forall accepted q, rr_cancelled q = true -> rr_posted (send accepted q) = rr_posted q /\ rr_cancelled (send accepted q) = true).
  { intros accepted q Hq. unfold send. destruct (bool_decide _); [done|]. by rewrite Hq, andb_false_r. }
  assert (Hreceive : forall e queue accepted q, rr_cancelled q = true ->
    rr_posted (receive e queue accepted q) = rr_posted q /\ rr_cancelled (receive e queue accepted q) = true).
  { intros e queue accepted q Hq. unfold receive. destruct (_ <=? _)%nat; [|done]. by apply (Hsend accepted (mkReporter queue (rr_batch q ++ [e]) (rr_dropped q) (rr_mode q) (rr_cancelled q) (rr_posted q))). }
  revert r. induction events as [|event events IH]; intros r Hc Hs; cbn [reporter_run] in Hs; [by injection Hs as <-|].
  destruct (reporter_step event r) as [r1|] eqn:E; [|done]. cbn in Hs.
  assert (Hone : rr_posted r1 = rr_posted r /\ rr_cancelled r1 = true).
  { destruct event; cbn [reporter_step] in E; repeat case_match; simplify_eq; auto; try by apply Hsend.
    unfold Enqueue. by destruct (_ <? _)%nat. }
  destruct Hone as [<- Hc1]. by apply IH.
Qed.

(** ** A concrete route *)

Definition demo_document : json :=
  JObject [("broker_url", JString "https://broker");
           ("routes", JArray [JObject [("listen", JString "127.0.0.1:8471"); ("capability", JString "claude");
                                       ("upstream", JString "api.example:443"); ("max_requests", JNumber "2")]])].

Definition demo_route : Route := mkRoute "127.0.0.1:8471" "claude" "api.example:443" "" false "" "" "" 2.

Definition demo_config : Config := mkConfig "https://broker" false "" [demo_route] None None.

Definition demo_reply : broker_reply :=
  BrokerReply 200 (print_json (JObject
    [("ok", JBool true); ("headers", JObject [("authorization", JString "Bearer real")]);
     ("append_headers", JObject [("anthropic-beta", JString "oauth")]);
     ("strip_request_headers", JArray [JString "x-api-key"]); ("expires_at", JString "2026-01-01T00:00:00Z")])).

Definition demo_material : Material :=
  mkMaterial {["authorization" := "Bearer real"]} {["anthropic-beta" := "oauth"]} ["x-api-key"] (63902822400 * second).

Definition demo_request (target : string) (header : Header) : ProxyRequest :=
  mkProxyRequest "GET" (default (mkURL "" "" None "" "" "" false false "" "" "") (ParseRequestURI target)) header "" 0.

Definition plain_header : Header := {["Accept" := ["*/*"]]}.
Definition caller_header : Header := <["Authorization" := ["Bearer mine"]]> (<["X-Api-Key" := ["mine"]]> plain_header).

Definition demo_visit (r : ProxyRequest) : visit :=
  mkVisit (map_to_list (pr_Header r)) (map_to_list (mt_Headers demo_material)) (map_to_list (mt_AppendHeaders demo_material)).

Lemma demo_visits r : visits r demo_material (demo_visit r).
Proof. by repeat split. Qed.

Lemma demo_loaded : LoadConfig (fun _ => false) demo_document = Ok demo_config.
Proof. by vm_compute. Qed.

Lemma demo_fetched : FetchHeaders demo_reply = Ok demo_material.
Proof. by vm_compute. Qed.

Lemma demo_served target header :
  ParseRequestURI target <> None ->
  forallb (fun e => isToken (fst e) && (CanonicalHeaderKey (fst e) =? fst e)) (map_to_list header) = true ->
  server_request (demo_request target header).
Proof.
  intros Ht Hh. split; [done|]. split.
  - intros name values Hn. apply elem_of_map_to_list, list_elem_of_In in Hn. rewrite forallb_forall in Hh.
    specialize (Hh _ Hn). cbn [fst] in Hh. apply andb_true_iff in Hh as [H1 H2]. by apply String.eqb_eq in H2.
  - exists target. unfold demo_request. cbn [pr_URL]. by destruct (ParseRequestURI target).
Qed.

Lemma demo_indistinguishable : indistinguishable demo_material (demo_request "/v1" caller_header) (demo_request "/v1" plain_header).
Proof.
  repeat split. intros name Hn. cbn [pr_Header demo_request]. unfold caller_header.
  destruct (decide (name = "Authorization")) as [->|H1].
  { destruct Hn as [Hn|[Hn|Hn]]; [|done..]. contradiction Hn. left. by vm_compute. }
  destruct (decide (name = "X-Api-Key")) as [->|H2].
  { destruct Hn as [Hn|[Hn|Hn]]; [|done..]. contradiction Hn. right. right. right. exists "x-api-key". split; [by left|by vm_compute]. }
  by rewrite !lookup_insert_ne.
Qed.

Lemma caller_credentials_ignored_witness :
  buildOutbound demo_route (demo_request "/v1" caller_header) demo_material (demo_visit (demo_request "/v1" caller_header))
  = buildOutbound demo_route (demo_request "/v1" plain_header) demo_material (demo_visit (demo_request "/v1" plain_header)).
Proof.
  apply (caller_credentials_ignored demo_route demo_material); try apply demo_visits; try done; try exact demo_indistinguishable.
  - by apply demo_served.
  - by apply demo_served.
Defined.

Definition demo_out : option Outbound :=
  buildOutbound demo_route (demo_request "/v1?q" caller_header) demo_material (demo_visit (demo_request "/v1?q" caller_header)).

Lemma upstream_pinned_witness : exists out, demo_out = Some out /\ Host (ob_URL out) = "api.example:443".
Proof.
  destruct demo_out as [out|] eqn:E; [|by vm_compute in E]. exists out. split; [done|].
  apply (upstream_pinned (fun _ => false) demo_document demo_config demo_route (demo_request "/v1?q" caller_header) demo_material
           (demo_visit (demo_request "/v1?q" caller_header)) out "/v1?q");
    [exact demo_loaded|left; by left|by vm_compute|by vm_compute|done|exact E|by vm_compute].
Defined.

Definition demo_time : Z := 63902822000 * second.
Definition demo_clock : readings := mkReadings demo_time demo_time demo_time.

Definition demo_world : world :=
  arrive demo_route demo_clock demo_reply (demo_visit (demo_request "/v1" caller_header)) (demo_request "/v1" caller_header)
    (first_world demo_time).

Lemma demo_reachable : reachable demo_route demo_time demo_world.
Proof.
  eapply reachable_step; [apply reachable_first|]. apply serves_arrive; [by apply demo_served|by repeat split|done|].
  intros m Hm. assert (Hd : m = demo_material) by (vm_compute in Hm; injection Hm as <-; by vm_compute). rewrite Hd. apply demo_visits.
Qed.

Lemma demo_stage : exists j, w_stages demo_world !! 0%nat = Some (Prepared j).
Proof. vm_compute. by eexists. Qed.

Lemma material_current_witness : exists j f, w_stages demo_world !! 0%nat = Some (Prepared j) /\ f ∈ w_fetches demo_world /\
  FetchHeaders (ft_reply f) = Ok (jb_material j).
Proof.
  destruct demo_stage as [j Hj]. destruct (material_current demo_route demo_time demo_world 0 _ j demo_reachable Hj eq_refl) as [(f & Hf & _ & Hm & _) _].
  exists j, f. split; [exact Hj|]. split; [exact Hf|exact Hm].
Defined.

Lemma quota_exact_witness : count is_sent (w_stages demo_world) <= 2.
Proof. apply (quota_exact demo_route demo_time demo_world); [exact demo_reachable|done|by vm_compute]. Defined.

(** ** A target that is not UTF-8

    Of a target with an invalid byte in its query the broker reads one with the
    replacement character.  The outbound request keeps the byte, so the target
    the broker authorizes is not the one the upstream gets. *)
Definition invalid_target : string := "/v1?q=" ++ String "255" "".
Definition replaced_target : string := "/v1?q=" ++ String "239" (String "191" (String "189" "")).

Theorem invalid_target_read_as_another :
  server_request (demo_request invalid_target caller_header) /\
  RequestURI (pr_URL (demo_request invalid_target caller_header)) = invalid_target /\ invalid_target <> replaced_target /\
  json_document (injection_body (injection_request demo_route "GET" invalid_target false))
  = Some (injection_document (injection_request demo_route "GET" replaced_target false)) /\
  exists out, buildOutbound demo_route (demo_request invalid_target caller_header) demo_material
      (demo_visit (demo_request invalid_target caller_header)) = Some out /\ RequestURI (ob_URL out) = invalid_target.
Proof.
  split; [by apply demo_served|]. split; [vm_compute; reflexivity|]. split; [discriminate|]. split; [vm_compute; reflexivity|].
  eexists. split; [vm_compute; reflexivity|]. by vm_compute.
Qed.

(** ** An opaque target

    [url.ParseRequestURI] takes an absolute target without a slash after its
    scheme as opaque, and [RequestURI] gives the opaque part back as it is: it
    continues the authority of the address [buildOutbound] puts together.
    Behind [@] it is the host, and what was the upstream is user information;
    the credential goes there. *)
Theorem opaque_target_escapes :
  exists out, server_request (demo_request "x:@evil.example/" caller_header) /\
    buildOutbound demo_route (demo_request "x:@evil.example/" caller_header) demo_material
      (demo_visit (demo_request "x:@evil.example/" caller_header)) = Some out /\
    Host (ob_URL out) = "evil.example" /\ ob_Header out !! "Authorization" = Some ["Bearer real"].
Proof.
  eexists. split; [by apply demo_served|]. split; [vm_compute; reflexivity|]. by split.
Qed.
