(* ===== verification/OperatorEgress.v ===== *)
(** * The egress side of a mediated run (operator/internal/controller/agentrun_egress.go)

    The names and labels of a run's egress objects, the proxy environment of
    the agent, the two network policies that fence the agent and its daemon,
    the daemon's service, and the configuration file the daemon is started
    with.  Owner references are controller-runtime's, and left out. *)
From stdpp Require Import base list strings gmap pretty sorting.
From Stdlib Require Import ZArith Lia Ascii.
From S2P Require Import Prelude GoStrings GoUrl GoJson GoJsonPrint GoHttp Sha256 Contract Validation Egress EgressProps GoEncoding GithubCommand GithubSubmit OperatorTypes OperatorPolicy EgressConfig.


Local Open Scope Z_scope.
Local Open Scope go_scope.
Local Open Scope string_scope.

Definition egressCAMountPath : string := "/nvt-egress-ca".
Definition egressCASecretMount : string := "/etc/nvt-egressd/egress-ca".
Definition egressCASecretCert : string := egressCASecretMount ++ "/ca.crt".
Definition egressCASecretKeyFile : string := egressCASecretMount ++ "/ca.key".
Definition egressdBrokerCAFile : string := "/etc/nvt-egressd/broker-ca/ca.crt".
Definition agentRunLabelKey : string := "nvt.dev/agentrun".
Definition roleLabelKey : string := "nvt.dev/role".
Definition roleLabelAgent : string := "agent".
Definition roleLabelEgressd : string := "egressd".
Definition egressCAPort : Z := 8470.
Definition egressRouteBasePort : Z := 8471.
Definition egressForwardProxyPort : Z := 8473.
Definition capturedExplicitPort : Z := 15002.

(** ** Names and labels *)

Definition EgressdPodName (agentRunName : string) : string := agentRunName ++ "-egressd".
Definition EgressdServiceName (agentRunName : string) : string := agentRunName ++ "-egressd".
Definition EgressCAConfigMapName (agentRunName : string) : string := agentRunName ++ "-egress-ca".
Definition EgressCASecretName (agentRunName : string) : string := agentRunName ++ "-egress-ca-keypair".
Definition AgentNetworkPolicyName (agentRunName : string) : string := agentRunName ++ "-agent".
Definition EgressdNetworkPolicyName (agentRunName : string) : string := agentRunName ++ "-egressd".

Abbreviation labels := (gmap string string).

Definition agentRunLabels (agentRunName : string) : labels :=
  <[agentRunLabelKey := agentRunName]> (<["app.kubernetes.io/component" := "agentrun"]> {["app.kubernetes.io/name" := "nvt-agent"]}).

Definition enforcementLabels (agentRunName role : string) : labels := <[roleLabelKey := role]> (agentRunLabels agentRunName).

Definition run_name (agentRun : AgentRun) : string := om_Name (run_Meta agentRun).

Definition egressdLeafDNSNames (agentRun : AgentRun) : list string :=
  let service := EgressdServiceName (run_name agentRun) in
  let namespace := om_Namespace (run_Meta agentRun) in
  [service; service ++ "." ++ namespace; service ++ "." ++ namespace ++ ".svc"].

Definition headerInjectGrants (agentRun : AgentRun) : list AgentRunBrokerGrant :=
  List.filter (fun grant => AgentRunGrantMaterialization grant =? AgentRunGrantHeaderInject) (AgentRunBrokerGrants (ru_Broker (run_Spec agentRun))).

(** ** The proxy environment *)

Fixpoint distinct_hosts (seen hosts : list string) : list string :=
  match hosts with
  | [] => []
  | host :: rest => if mem host seen then distinct_hosts seen rest else host :: distinct_hosts (host :: seen) rest
  end.

Definition forwardProxyUpstreamHosts (agentRun : AgentRun) : list string :=
  if AgentRunEgressForwardProxy agentRun then distinct_hosts [] (map fi_Host (forwardProxyInjects agentRun)) else [].

Section Environment.
Variable env : string -> string.

Definition forwardProxyNoProxy (agentRun : AgentRun) : string :=
  Join (["localhost"; "127.0.0.1"; "::1"; "kubernetes.default.svc"; ".svc"; ".svc.cluster.local"; ".cluster.local";
         EgressdServiceName (run_name agentRun); "nvt-operator"]
        ++ match url_Parse (BrokerURL env) with
           | Some parsed => if Hostname parsed =? "" then [] else [Hostname parsed]
           | None => []
           end)%list ",".

Definition proxy_address (host : string) (port : Z) : string := "http://" ++ host ++ ":" ++ Itoa port.

Definition forwardProxyEnv (agentRun : AgentRun) : list (string * string) :=
  let transparent := AgentRunEgressTransparent agentRun in
  let proxyURL := if transparent then proxy_address "127.0.0.1" capturedExplicitPort
                  else proxy_address (EgressdServiceName (run_name agentRun)) egressForwardProxyPort in
  let noProxy := forwardProxyNoProxy agentRun in
  (map (fun name => (name, proxyURL))
     (if transparent then ["HTTPS_PROXY"; "https_proxy"] else ["HTTP_PROXY"; "HTTPS_PROXY"; "http_proxy"; "https_proxy"])
   ++ (if transparent then map (fun name => (name, "")) ["HTTP_PROXY"; "http_proxy"; "ALL_PROXY"; "all_proxy"] else [])
   ++ map (fun name => (name, noProxy)) ["NO_PROXY"; "no_proxy"])%list.

(** ** Network policies *)

Inductive Protocol : Type := TCP | UDP.

Record NetworkPolicyPort := mkPolicyPort { np_Protocol : Protocol; np_Port : Z }.

(** A peer selects pods of the policy's namespace, pods of namespaces, or
    addresses. *)
Inductive NetworkPolicyPeer : Type :=
| PodSelector (match_labels : labels)
| NamespaceSelector (match_labels : labels)
| IPBlock (cidr : string) (except : list string).

Record NetworkPolicyRule := mkPolicyRule { nr_Peers : list NetworkPolicyPeer; nr_Ports : list NetworkPolicyPort }.

Inductive PolicyType : Type := PolicyTypeIngress | PolicyTypeEgress.

Record NetworkPolicy := mkNetworkPolicy {
  ny_Name : string;
  ny_Namespace : string;
  ny_Labels : labels;
  ny_PodSelector : labels;
  ny_PolicyTypes : list PolicyType;
  ny_Ingress : list NetworkPolicyRule;
  ny_Egress : list NetworkPolicyRule
}.

Definition policyPort (protocol : Protocol) (port : Z) : NetworkPolicyPort := mkPolicyPort protocol port.

Definition dnsPolicyEgressRule : NetworkPolicyRule :=
  mkPolicyRule [NamespaceSelector {["kubernetes.io/metadata.name" := "kube-system"]}] [policyPort UDP 53; policyPort TCP 53].

Definition brokerPolicyEgressRule : NetworkPolicyRule :=
  mkPolicyRule [PodSelector {["app.kubernetes.io/name" := "nvt-broker"]}] [policyPort TCP 7347].

Definition route_ports (agentRun : AgentRun) : list Z :=
  imap (fun index _ => egressRouteBasePort + Z.of_nat index) (headerInjectGrants agentRun).

Definition egressdPolicyPorts (agentRun : AgentRun) : list NetworkPolicyPort :=
  (policyPort TCP egressCAPort :: map (policyPort TCP) (route_ports agentRun)
   ++ if AgentRunEgressForwardProxy agentRun then [policyPort TCP egressForwardProxyPort] else [])%list.

(** The labels that select the pods of a role of a run. *)
Definition role_selector (agentRunName role : string) : labels := {[agentRunLabelKey := agentRunName; roleLabelKey := role]}.

Definition DesiredAgentNetworkPolicy (agentRun : AgentRun) : NetworkPolicy :=
  mkNetworkPolicy (AgentNetworkPolicyName (run_name agentRun)) (om_Namespace (run_Meta agentRun))
    (enforcementLabels (run_name agentRun) roleLabelAgent) (role_selector (run_name agentRun) roleLabelAgent)
    [PolicyTypeEgress] []
    [dnsPolicyEgressRule;
     mkPolicyRule [PodSelector (role_selector (run_name agentRun) roleLabelEgressd)] (egressdPolicyPorts agentRun)].

Definition egressHostLabel (host : string) : string := hex_encode (take 16 (Sum256 (ToLower (TrimSuffix host ".")))).

(** The exception of one upstream of a grant that allows insecure ones. *)
Definition insecure_rule (upstream : string) : option NetworkPolicyRule :=
  match SplitHostPort upstream with
  | None => None
  | Some (host, portText) =>
      (fun port =>
        mkPolicyRule
          [PodSelector (if HasSuffix host ".svc.cluster.local" then {["app.kubernetes.io/name" := hd "" (Split host "."%char)]}
                        else {["nvt.dev/egress-host" := egressHostLabel host]})]
          [policyPort TCP port]) <$> Atoi portText
  end.

Definition insecure_rules (agentRun : AgentRun) : list NetworkPolicyRule :=
  mjoin (map (fun grant => if gr_AllowInsecureUpstream grant then omap insecure_rule (gr_EgressHosts grant) else [])
           (AgentRunBrokerGrants (ru_Broker (run_Spec agentRun)))).

Definition DesiredEgressdNetworkPolicy (agentRun : AgentRun) : result string NetworkPolicy :=
  match DeploymentDenyCIDRs env, ExternalTCPPorts env with
  | Err e, _ => Err e
  | _, Err e => Err e
  | Ok denyCIDRs, Ok externalPorts =>
      let ipv6Except := List.filter (fun cidr => Contains cidr ":") denyCIDRs in
      let ipv4Except := List.filter (fun cidr => negb (Contains cidr ":")) denyCIDRs in
      let externalPolicyPorts := map (policyPort TCP) externalPorts in
      Ok (mkNetworkPolicy (EgressdNetworkPolicyName (run_name agentRun)) (om_Namespace (run_Meta agentRun))
            (enforcementLabels (run_name agentRun) roleLabelEgressd) (role_selector (run_name agentRun) roleLabelEgressd)
            [PolicyTypeIngress; PolicyTypeEgress]
            [mkPolicyRule [PodSelector (role_selector (run_name agentRun) roleLabelAgent)] (egressdPolicyPorts agentRun);
             mkPolicyRule [PodSelector {["app.kubernetes.io/name" := "nvt-operator"]}] [policyPort TCP egressCAPort]]
            ([dnsPolicyEgressRule; brokerPolicyEgressRule] ++ insecure_rules agentRun
             ++ [mkPolicyRule [IPBlock "0.0.0.0/0" ipv4Except] externalPolicyPorts;
                 mkPolicyRule [IPBlock "::/0" ipv6Except] externalPolicyPorts])%list)
  end.

(** The policies [reconcileNetworkPolicies] keeps in place for a run. *)
Definition desiredNetworkPolicies (agentRun : AgentRun) : result string (list NetworkPolicy) :=
  match DesiredEgressdNetworkPolicy agentRun with
  | Err e => Err e
  | Ok egressdPolicy => Ok [DesiredAgentNetworkPolicy agentRun; egressdPolicy]
  end.

(** The labels of the pods of a run. *)
Definition agentPodLabels (agentRun : AgentRun) : labels :=
  if AgentRunEgressEnforced agentRun then enforcementLabels (run_name agentRun) roleLabelAgent else agentRunLabels (run_name agentRun).

Definition egressdPodLabels (agentRun : AgentRun) : labels := enforcementLabels (run_name agentRun) roleLabelEgressd.

(** ** The service *)

Record ServicePort := mkServicePort { sp_Name : string; sp_Port : Z }.

Record Service := mkService {
  sv_Name : string;
  sv_Namespace : string;
  sv_Labels : labels;
  sv_Selector : labels;
  sv_Ports : list ServicePort
}.

Definition DesiredEgressdService (agentRun : AgentRun) : Service :=
  mkService (EgressdServiceName (run_name agentRun)) (om_Namespace (run_Meta agentRun))
    (enforcementLabels (run_name agentRun) roleLabelEgressd) (role_selector (run_name agentRun) roleLabelEgressd)
    (mkServicePort "ca" egressCAPort
     :: imap (fun index _ => mkServicePort ("route-" ++ Itoa (Z.of_nat index)) (egressRouteBasePort + Z.of_nat index)) (headerInjectGrants agentRun)
     ++ if AgentRunEgressForwardProxy agentRun then [mkServicePort "forward-proxy" egressForwardProxyPort] else [])%list.

(** ** The configuration of the daemon *)

Definition omit_number (name : string) (value : Z) : list (string * json) := if (value =? 0)%Z then [] else [(name, JNumber (Itoa value))].
Definition omit_false (name : string) (value : bool) : list (string * json) := if value then [(name, JBool true)] else [].
Definition omit_strings (name : string) (values : list string) : list (string * json) :=
  match values with [] => [] | _ => [(name, JArray (map JString values))] end.

Definition route_document (listen capability upstream : string) (allowInsecureUpstream : bool) (listenTLS : string) (maxRequests : Z) : json :=
  JObject ([("listen", JString listen); ("capability", JString capability); ("upstream", JString upstream);
            ("allow_insecure_upstream", JBool allowInsecureUpstream)]
           ++ omitempty "listen_tls" listenTLS ++ omit_number "max_requests" maxRequests)%list.

Definition inject_document (inject : forwardProxyInject) : json :=
  JObject ([("host", JString (fi_Host inject)); ("capability", JString (fi_Capability inject)); ("upstream", JString (fi_Upstream inject))]
           ++ omit_false "allow_insecure_upstream" (fi_AllowInsecureUpstream inject)
           ++ omit_number "max_requests" (fi_MaxRequests inject)
           ++ omit_false "require_capability_hint" (fi_RequireCapabilityHint inject))%list.

Definition policy_document (policy : AgentRunEgressDomainPolicy) : json :=
  JObject [("default_action", JString (rp_DefaultAction policy));
           ("allow", JArray (map JString (normalizeEgressDomains (rp_Allow policy))));
           ("deny", JArray (map JString (normalizeEgressDomains (rp_Deny policy))))].

Definition listen_address (host : string) (port : Z) : string := host ++ ":" ++ Itoa port.

(** The loop over the grants: the routes and whether one needs the CA. *)
Fixpoint render_routes (enforced : bool) (routeIndex : nat) (grants : list AgentRunBrokerGrant) : result string (list json * bool) :=
  match grants with
  | [] => Ok ([], false)
  | grant :: rest =>
      if negb (AgentRunGrantMaterialization grant =? AgentRunGrantHeaderInject) then render_routes enforced routeIndex rest
      else match gr_EgressHosts grant with
      | [] => Err ("broker grant " ++ gr_Provider grant ++ " egressHosts is required for mediated egress")
      | upstream :: _ =>
          match render_routes enforced (S routeIndex) rest with
          | Err e => Err e
          | Ok (routes, needCA) =>
              let tls := enforced || gr_Git grant in
              Ok (route_document (listen_address (if enforced then "0.0.0.0" else "127.0.0.1") (egressRouteBasePort + Z.of_nat routeIndex))
                    (gr_Provider grant) upstream (gr_AllowInsecureUpstream grant) (if tls then "ca" else "") (default 0 (gr_Quota grant)) :: routes,
                  tls || needCA)
          end
      end
  end.

Definition render_proxy (agentRun : AgentRun) : result string json :=
  match DeploymentDenyCIDRs env, ExternalTCPPorts env with
  | Err e, _ => Err e
  | _, Err e => Err e
  | Ok denyCIDRs, Ok externalPorts =>
      match forwardProxyInjects agentRun with
      | [] => Err "forward-proxy egress requires at least one injectable grant with egressHosts"
      | injects =>
          let policy := ru_EgressDomainPolicy (run_Spec agentRun) in
          Ok (JObject ([("listen", JString (listen_address "0.0.0.0" egressForwardProxyPort))]
                       ++ omit_false "transparent_mode" (AgentRunEgressTransparent agentRun)
                       ++ [("allow_unmatched_hosts", JBool (bool_decide (policy = None)))]
                       ++ match policy with Some policy => [("domain_policy", policy_document policy)] | None => [] end
                       ++ [("allow_ports", JArray (map (fun port => JNumber (Itoa port)) externalPorts))]
                       ++ omit_number "max_concurrent_tunnels" (ru_EgressMaxConcurrentTunnels (run_Spec agentRun))
                       ++ omit_strings "deny_cidrs" denyCIDRs
                       ++ [("inject_routes", JArray (map inject_document injects))])%list)
      end
  end.

(** The document of [RenderEgressdConfigJSON], which prints it with
    indentation. *)
Definition RenderEgressdConfigJSON (agentRun : AgentRun) : result string json :=
  let enforced := AgentRunEgressEnforced agentRun in
  let forwardProxy := AgentRunEgressForwardProxy agentRun in
  ValidateBrokerTLSConfig env |>>
  match (if forwardProxy then Ok ([], false) else render_routes enforced 0 (AgentRunBrokerGrants (ru_Broker (run_Spec agentRun)))) with
  | Err e => Err e
  | Ok (routes, needCA) =>
      match (if forwardProxy then match render_proxy agentRun with Ok document => Ok [("forward_proxy", document)] | Err e => Err e end
             else Ok []) with
      | Err e => Err e
      | Ok proxy =>
          Ok (JObject ([("broker_url", JString (BrokerURL env));
                        ("allow_insecure_broker", JBool (negb (brokerCADistributed env) && ru_EgressAllowInsecureBroker (run_Spec agentRun)))]
                       ++ omitempty "broker_ca_file" (if brokerCADistributed env then egressdBrokerCAFile else "")
                       ++ [("routes", JArray routes)]
                       ++ proxy
                       ++ (if enforced then
                             [("ca", JObject [("leaf_dns_names", JArray (map JString (egressdLeafDNSNames agentRun)));
                                              ("serve_addr", JString (listen_address "0.0.0.0" egressCAPort));
                                              ("cert_file", JString egressCASecretCert); ("key_file", JString egressCASecretKeyFile)])]
                           else if needCA then [("ca", JObject [("publish_dir", JString egressCAMountPath)])]
                           else []))%list)
      end
  end.
End Environment.

(** * What the operator renders for the egress daemon

    The document of [RenderEgressdConfigJSON] as the daemon decodes it, and
    the agreement of the two implementations of the domain policy. *)

Local Open Scope Z_scope.
Local Open Scope go_scope.
Local Open Scope string_scope.

(** ** The domain policy *)

(** The two normal forms are the same. *)
Lemma operator_normal v : normalizeEgressDomain v = normalizeDomainName v.
Proof.
  unfold normalizeEgressDomain, normalizeDomainName. destruct (_ || _ || _); [done|].
  set (low := ToLower (TrimSuffix v ".")). destruct (forallb domain_label (Split low "."%char)) eqn:El.
  - assert (Hp : has_byte low "%"%char = false).
    { apply domain_labels_chars in El. unfold has_byte. apply (any_byte_all _ domain_char); [|done].
      intros c Hc. rewrite Ascii.eqb_sym. apply (domain_char_ok c Hc). }
    rewrite (bool_decide_ext (is_Some (ParseIP low)) (is_Some (ParseAddr low))); [done|]. by rewrite ParseIP_ParseAddr.
  - by destruct (bool_decide (is_Some (ParseIP low))), (bool_decide (is_Some (ParseAddr low))), ((low =? "") || (253 <? len low)%Z).
Qed.

(** A normalized name normalizes to itself. *)
Lemma normal_again v n : normalizeDomainName v = Some n -> normalizeDomainName n = Some n.
Proof. intros H. by apply normal_fixed, (normalizeDomainName_some v). Qed.

(** The policy in the daemon's configuration. *)
Definition daemon_policy (p : AgentRunEgressDomainPolicy) : DomainPolicy :=
  mkDomainPolicy (rp_DefaultAction p) (Some (normalizeEgressDomains (rp_Allow p))) (Some (normalizeEgressDomains (rp_Deny p))).

Lemma normalized_entries name l :
  each_seen (fun seen entry =>
    match normalizeEgressDomain entry with
    | None => Err (name ++ ": must be a DNS domain")
    | Some normalized => reject (mem normalized (map normalized_rule seen)) (name ++ " duplicates an entry after normalization")
    end) [] l = Ok tt ->
  (forall e, In e l -> is_Some (normalizeDomainName e)) /\ NoDup (normalizeEgressDomains l) /\ length (normalizeEgressDomains l) = length l.
Proof.
  rewrite each_seen_ok. cbn [app]. intros H.
  assert (Hall : forall e, In e l -> is_Some (normalizeDomainName e)).
  { intros e He. apply in_split in He as (a & b & ->). specialize (H a e b eq_refl). rewrite <- operator_normal.
    by destruct (normalizeEgressDomain e). }
  split; [exact Hall|].
  induction l as [|x l IH] using rev_ind; [by split; [constructor|]|].
  destruct IH as [IH1 IH2].
  - intros a e b E. apply (H a e (b ++ [x])%list). rewrite E. by rewrite <- app_assoc.
  - intros e He. apply Hall, in_or_app. by left.
  - specialize (H l x [] eq_refl). unfold normalizeEgressDomains in *. rewrite omap_app. cbn [omap list_omap].
    destruct (Hall x) as [n Hn]; [apply in_or_app; right; by left|]. rewrite operator_normal in H |- *. rewrite Hn in H |- *.
    cbn in H. apply reject_ok in H. rewrite !length_app, IH2. split; [|done]. apply NoDup_app. split; [done|]. split; [|apply NoDup_singleton].
    intros y Hy ->%list_elem_of_singleton. apply list_elem_of_omap in Hy as (e & He & En).
    apply eq_true_false_abs with (b := mem n (map normalized_rule l)); [|done].
    unfold mem. apply existsb_exists. exists n. split; [|apply String.eqb_refl]. apply in_map_iff. exists e.
    split; [unfold normalized_rule; by rewrite En|]. by apply list_elem_of_In.
Qed.

Lemma distinct_checked name l : NoDup l -> (forall n, In n l -> normalizeDomainName n = Some n) -> check_entries name l = Ok tt.
Proof.
  intros Hd Hn. apply each_seen_ok. intros a x b ->. cbn [app]. rewrite Hn by (apply in_or_app; right; by left). apply reject_ok.
  destruct (mem x _) eqn:E; [exfalso|done]. unfold mem in E. apply existsb_exists in E as (y & Hy & <-%String.eqb_eq).
  apply in_map_iff in Hy as (z & Hz & Hin). rewrite Hn in Hz by (apply in_or_app; by left). cbn in Hz. subst z.
  apply NoDup_app in Hd as (_ & Hd & _). apply (Hd x); [by apply list_elem_of_In|by left].
Qed.

Lemma normalizeEgressDomains_fixed l n : In n (normalizeEgressDomains l) -> normalizeDomainName n = Some n.
Proof.
  intros H. apply list_elem_of_In, list_elem_of_omap in H as (e & _ & En). rewrite operator_normal in En. by eapply normal_again.
Qed.

Lemma validated_policy p : validateEgressDomainPolicy (Some p) = Ok tt ->
  ((rp_DefaultAction p =? "allow") || (rp_DefaultAction p =? "deny") = true)
  /\ Z.of_nat (length (rp_Allow p)) <= 256 /\ Z.of_nat (length (rp_Deny p)) <= 256
  /\ forall l, l = rp_Allow p \/ l = rp_Deny p ->
     (forall e, In e l -> is_Some (normalizeDomainName e)) /\ NoDup (normalizeEgressDomains l) /\ length (normalizeEgressDomains l) = length l.
Proof.
  cbn [validateEgressDomainPolicy]. intros H. apply andThen_ok in H as [H1 H]. apply andThen_ok in H as [H2 H].
  apply reject_ok in H1, H2. rewrite each_ok in H. apply orb_false_iff in H2 as [H2 H3].
  apply Z.ltb_ge in H2. apply Z.ltb_ge in H3.
  split; [|split; [done|split; [done|]]].
  - unfold AgentRunEgressDomainAllow, AgentRunEgressDomainDeny in H1. by destruct (_ =? "allow"), (_ =? "deny").
  - intros l Hl. destruct Hl as [->| ->]; [apply (normalized_entries "allow"), (H ("allow", _))|apply (normalized_entries "deny"), (H ("deny", _))]; cbn; auto.
Qed.

(** A policy the operator admits, as the daemon checks and applies it. *)
Lemma daemon_policy_agrees p host : validateEgressDomainPolicy (Some p) = Ok tt ->
  DomainPolicy_Validate (daemon_policy p) = Ok tt /\ fst (Decide (daemon_policy p) host) = egressDomainAllowed p host.
Proof.
  intros H. apply validated_policy in H as (Hd & Ha & Hn & Hl). destruct (Hl _ (or_introl eq_refl)) as (Hae & Had & Hal).
  destruct (Hl _ (or_intror eq_refl)) as (Hde & Hdd & Hdl). split.
  - unfold DomainPolicy_Validate, daemon_policy, size, maxDomainPolicyEntries. cbn [dp_DefaultAction dp_Allow dp_Deny elems default].
    rewrite !andThen_ok, !reject_ok. split_and!.
    + by destruct (_ =? "allow"), (_ =? "deny").
    + cbn [default id]. rewrite Hal, Hdl. apply orb_false_iff. split; apply Z.ltb_ge; done.
    + apply distinct_checked; [done|apply normalizeEgressDomains_fixed].
    + apply distinct_checked; [done|apply normalizeEgressDomains_fixed].
  - unfold Decide, egressDomainAllowed, daemon_policy. cbn [dp_DefaultAction dp_Allow dp_Deny elems default id]. rewrite operator_normal.
    assert (Hm : forall l, (forall e, In e l -> is_Some (normalizeDomainName e)) -> forall n,
      existsb (fun rule => domainRuleMatches n (rule_of rule)) (normalizeEgressDomains l)
      = existsb (fun rule => (n =? normalized_rule rule) || HasSuffix n ("." ++ normalized_rule rule)) l).
    { intros l Hsome n. induction l as [|e l IH]; [done|]. destruct (Hsome e (or_introl eq_refl)) as [m Em].
      unfold normalizeEgressDomains in *. cbn [omap list_omap existsb]. unfold normalized_rule at 1 2. rewrite operator_normal, Em.
      cbn [existsb default]. unfold rule_of at 1, domainRuleMatches at 1. rewrite (normal_again e m Em). cbn [default].
      f_equal. apply IH. intros e' He'. apply Hsome. by right. }
    unfold AgentRunEgressDomainAllow. destruct (normalizeDomainName host) as [n|].
    + rewrite !Hm by done. destruct (existsb _ _); [done|]. destruct (existsb _ _); [done|]. by destruct (_ =? "allow").
    + destruct (String.eqb_spec (rp_DefaultAction p) "deny") as [->|]; [done|]. cbn. by destruct (_ =? "allow").
Qed.

(** ** The document, decoded *)

Definition daemon_inject (i : forwardProxyInject) : ForwardProxyInjectRoute :=
  mkInjectRoute (fi_Host i) (fi_Capability i) (fi_Upstream i) (fi_AllowInsecureUpstream i) "" "" false (fi_MaxRequests i) (fi_RequireCapabilityHint i).

Definition daemon_proxy (run : AgentRun) (ports : list Z) (cidrs : list string) : ForwardProxyConfig :=
  mkForwardProxyConfig (listen_address "0.0.0.0" egressForwardProxyPort) (AgentRunEgressTransparent run) []
    (bool_decide (ru_EgressDomainPolicy (run_Spec run) = None)) (daemon_policy <$> ru_EgressDomainPolicy (run_Spec run)) ports
    (ru_EgressMaxConcurrentTunnels (run_Spec run)) 0 cidrs (map daemon_inject (forwardProxyInjects run)).

Definition daemon_ca (run : AgentRun) : CAConfig :=
  mkCAConfig "" (egressdLeafDNSNames run) (listen_address "0.0.0.0" egressCAPort) egressCASecretCert egressCASecretKeyFile.

Definition daemon_config (env : string -> string) (run : AgentRun) (ports : list Z) (cidrs : list string) : Config :=
  mkConfig (BrokerURL env) (negb (brokerCADistributed env) && ru_EgressAllowInsecureBroker (run_Spec run))
    (if brokerCADistributed env then egressdBrokerCAFile else "") [] (Some (daemon_proxy run ports cidrs)) (Some (daemon_ca run)).

Lemma unmarshal_step {T} (fields : list (field json T)) k set v ms x x' :
  find_field fields k = Some set -> set v x = Some x' -> unmarshal_members fields ((k, v) :: ms) x = unmarshal_members fields ms x'.
Proof. intros H1 H2. cbn [unmarshal_members]. by rewrite H1, H2. Qed.

Lemma mapM_strings l : mapM string_element (map JString l) = Some l.
Proof. induction l as [|s l IH]; [done|]. cbn. by rewrite IH. Qed.

Lemma mapM_numbers l : (forall n, In n l -> 0 <= n < 2 ^ 63) -> mapM int_element (map (fun n => JNumber (Itoa n)) l) = Some l.
Proof.
  induction l as [|n l IH]; [done|]. intros H.
  assert (Hn : int_element (JNumber (Itoa n)) = Some n) by (apply Atoi_Itoa, H; by left).
  cbn [map]. unfold mapM. rewrite Hn. cbn [mbind option_bind]. unfold mapM in IH. rewrite IH; [done|]. intros m Hm. apply H. by right.
Qed.

Lemma into_int64_Itoa {T} (put : Z -> T -> T) n x : 0 <= n < 2 ^ 63 -> into_int64 put (JNumber (Itoa n)) x = Some (put n x).
Proof. intros Hn. unfold into_int64, parse_int64. by rewrite Atoi_Itoa. Qed.

Lemma into_elements_all {T E} (element : json -> option E) (put : list E -> T -> T) l es x : mapM element l = Some es ->
  into_elements element put (JArray l) x = Some (put es x).
Proof. intros H. unfold into_elements. by rewrite H. Qed.

Lemma into_optional_object {T U} (fields : list (field json U)) zero (get : T -> option U) put ms x u :
  unmarshal_members fields ms (default zero (get x)) = Some u -> into_optional fields zero get put (JObject ms) x = Some (put (Some u) x).
Proof. intros H. unfold into_optional. by rewrite H. Qed.

(** One member of a document: its field, and what its value does. *)
Ltac member := eapply eq_trans; [eapply unmarshal_step; [reflexivity|reflexivity]|].
Tactic Notation "member_by" uconstr(lemma) := eapply eq_trans; [eapply unmarshal_step; [reflexivity|cbn [snd]; eapply lemma]|].

Lemma inject_decodes i : 0 <= fi_MaxRequests i < 2 ^ 63 -> struct_element inject_fields no_inject (inject_document i) = Some (daemon_inject i).
Proof.
  intros Hm. unfold inject_document, struct_element, omit_false, omit_number, daemon_inject.
  destruct i as [host capability upstream insecure max hint]. cbn [fi_Host fi_Capability fi_Upstream fi_AllowInsecureUpstream fi_MaxRequests fi_RequireCapabilityHint] in *.
  member. member. member.
  destruct insecure; cbn [app]; [member|]; (destruct (Z.eqb_spec max 0) as [->|Hne]; cbn [app];
    [|member_by (into_int64_Itoa _ _ _ Hm)]);
    (destruct hint; [member|]); reflexivity.
Qed.

Lemma mapM_injects l : (forall i, In i l -> 0 <= fi_MaxRequests i < 2 ^ 63) ->
  mapM (struct_element inject_fields no_inject) (map inject_document l) = Some (map daemon_inject l).
Proof.
  induction l as [|i l IH]; [done|]. intros H. cbn [map]. unfold mapM. rewrite inject_decodes by (apply H; by left).
  cbn [mbind option_bind]. unfold mapM in IH. rewrite IH; [done|].
  intros j Hj. apply H. by right.
Qed.

Lemma policy_decodes p x : unmarshal_members policy_fields
  [("default_action", JString (rp_DefaultAction p)); ("allow", JArray (map JString (normalizeEgressDomains (rp_Allow p))));
   ("deny", JArray (map JString (normalizeEgressDomains (rp_Deny p))))] x = Some (daemon_policy p).
Proof.
  member. member_by (into_elements_all _ _ _ _ _ (mapM_strings _)). member_by (into_elements_all _ _ _ _ _ (mapM_strings _)). reflexivity.
Qed.

Lemma unmarshal_app {T} (fields : list (field json T)) a b x y :
  unmarshal_members fields a x = Some y -> unmarshal_members fields (a ++ b)%list x = unmarshal_members fields b y.
Proof.
  revert x. induction a as [|[k v] a IH]; intros x; [by intros [= ->]|]. cbn [unmarshal_members app].
  destruct (find_field fields k) as [set|]; [|apply IH]. destruct (set v x); [apply IH|done].
Qed.

(** The members of the proxy's document, each into its field. *)
Section Proxy.
Variables (listen : string) (transparent unmatched : bool) (policy : option DomainPolicy) (ports : list Z) (tunnels : Z) (cidrs : list string).

Lemma transparent_member value : unmarshal_members proxy_fields (omit_false "transparent_mode" value) (mkForwardProxyConfig listen false [] false None [] 0 0 [] [])
  = Some (mkForwardProxyConfig listen value [] false None [] 0 0 [] []).
Proof. by destruct value. Qed.

Lemma unmatched_member value : unmarshal_members proxy_fields [("allow_unmatched_hosts", JBool value)] (mkForwardProxyConfig listen transparent [] false None [] 0 0 [] [])
  = Some (mkForwardProxyConfig listen transparent [] value None [] 0 0 [] []).
Proof. reflexivity. Qed.

Lemma policy_member value : unmarshal_members proxy_fields (match value with Some policy => [("domain_policy", policy_document policy)] | None => [] end)
    (mkForwardProxyConfig listen transparent [] unmatched None [] 0 0 [] [])
  = Some (mkForwardProxyConfig listen transparent [] unmatched (daemon_policy <$> value) [] 0 0 [] []).
Proof.
  destruct value as [value|]; [|done]. eapply eq_trans; [eapply unmarshal_step; [reflexivity|]|reflexivity].
  cbn [snd]. unfold policy_document. by rewrite (into_optional_object _ _ _ _ _ _ _ (policy_decodes _ _)).
Qed.

Lemma ports_member : (forall n, In n ports -> 0 <= n < 2 ^ 63) ->
  unmarshal_members proxy_fields [("allow_ports", JArray (map (fun port => JNumber (Itoa port)) ports))]
    (mkForwardProxyConfig listen transparent [] unmatched policy [] 0 0 [] [])
  = Some (mkForwardProxyConfig listen transparent [] unmatched policy ports 0 0 [] []).
Proof.
  intros H. eapply eq_trans; [eapply unmarshal_step; [reflexivity|]|reflexivity]. cbn [snd].
  by rewrite (into_elements_all _ _ _ _ _ (mapM_numbers _ H)).
Qed.

Lemma tunnels_member : 0 <= tunnels < 2 ^ 63 ->
  unmarshal_members proxy_fields (omit_number "max_concurrent_tunnels" tunnels) (mkForwardProxyConfig listen transparent [] unmatched policy ports 0 0 [] [])
  = Some (mkForwardProxyConfig listen transparent [] unmatched policy ports tunnels 0 [] []).
Proof.
  intros H. unfold omit_number. destruct (Z.eqb_spec tunnels 0) as [->|_]; [done|].
  eapply eq_trans; [eapply unmarshal_step; [reflexivity|]|reflexivity]. cbn [snd]. by rewrite into_int64_Itoa.
Qed.

Lemma cidrs_member : unmarshal_members proxy_fields (omit_strings "deny_cidrs" cidrs) (mkForwardProxyConfig listen transparent [] unmatched policy ports tunnels 0 [] [])
  = Some (mkForwardProxyConfig listen transparent [] unmatched policy ports tunnels 0 cidrs []).
Proof.
  unfold omit_strings. destruct cidrs as [|cidr rest]; [done|].
  eapply eq_trans; [eapply unmarshal_step; [reflexivity|]|reflexivity]. cbn [snd].
  by rewrite (into_elements_all _ _ _ _ _ (mapM_strings _)).
Qed.

Lemma injects_member injects : (forall i, In i injects -> 0 <= fi_MaxRequests i < 2 ^ 63) ->
  unmarshal_members proxy_fields [("inject_routes", JArray (map inject_document injects))]
    (mkForwardProxyConfig listen transparent [] unmatched policy ports tunnels 0 cidrs [])
  = Some (mkForwardProxyConfig listen transparent [] unmatched policy ports tunnels 0 cidrs (map daemon_inject injects)).
Proof.
  intros H. eapply eq_trans; [eapply unmarshal_step; [reflexivity|]|reflexivity]. cbn [snd].
  by rewrite (into_elements_all _ _ _ _ _ (mapM_injects _ H)).
Qed.
End Proxy.

Lemma ok_inj {E A} (a b : A) : Ok (E := E) a = Ok b -> a = b.
Proof. by intros [= ->]. Qed.

Lemma proxy_decodes env run ports cidrs document :
  DeploymentDenyCIDRs env = Ok cidrs -> ExternalTCPPorts env = Ok ports -> (forall n, In n ports -> 0 <= n < 2 ^ 63) ->
  (forall i, In i (forwardProxyInjects run) -> 0 <= fi_MaxRequests i < 2 ^ 63) ->
  0 <= ru_EgressMaxConcurrentTunnels (run_Spec run) < 2 ^ 63 -> render_proxy env run = Ok document ->
  exists ms, document = JObject ms /\ unmarshal_members proxy_fields ms no_proxy = Some (daemon_proxy run ports cidrs).
Proof.
  intros Hc Hp Hports Hi Ht. unfold render_proxy. rewrite Hc, Hp. unfold daemon_proxy.
  destruct (forwardProxyInjects run) as [|i0 rest]; [done|]. intros <-%ok_inj. set (injects := i0 :: rest) in *. clearbody injects.
  eexists. split; [reflexivity|]. unfold no_proxy. set (listen := listen_address _ _).
  rewrite (unmarshal_app proxy_fields [("listen", JString listen)] _ _ (mkForwardProxyConfig listen false [] false None [] 0 0 [] [])) by reflexivity.
  rewrite (unmarshal_app _ _ _ _ _ (transparent_member _ _)), (unmarshal_app _ _ _ _ _ (unmatched_member _ _ _)),
    (unmarshal_app _ _ _ _ _ (policy_member _ _ _ _)), (unmarshal_app _ _ _ _ _ (ports_member _ _ _ _ _ Hports)),
    (unmarshal_app _ _ _ _ _ (tunnels_member _ _ _ _ _ _ Ht)), (unmarshal_app _ _ _ _ _ (cidrs_member _ _ _ _ _ _ _)).
  by apply injects_member.
Qed.

Lemma config_decodes env run ports cidrs document :
  AgentRunEgressForwardProxy run = true -> AgentRunEgressEnforced run = true ->
  DeploymentDenyCIDRs env = Ok cidrs -> ExternalTCPPorts env = Ok ports -> (forall n, In n ports -> 0 <= n < 2 ^ 63) ->
  (forall i, In i (forwardProxyInjects run) -> 0 <= fi_MaxRequests i < 2 ^ 63) ->
  0 <= ru_EgressMaxConcurrentTunnels (run_Spec run) < 2 ^ 63 -> RenderEgressdConfigJSON env run = Ok document ->
  decode_config document = Some (daemon_config env run ports cidrs).
Proof.
  intros Hf He Hc Hp Hports Hi Ht. unfold RenderEgressdConfigJSON. rewrite Hf, He. intros H. apply andThen_ok in H as [_ H].
  destruct (render_proxy env run) as [proxy|e] eqn:Er; [|done]. apply ok_inj in H as <-.
  destruct (proxy_decodes env run ports cidrs proxy Hc Hp Hports Hi Ht Er) as (ms & -> & Hd).
  unfold decode_config, struct_element, daemon_config, omitempty.
  set (insecure := negb _ && _). set (start := mkConfig "" false "" [] None None).
  assert (Hfile : forall file, unmarshal_members config_fields (if file =? "" then [] else [("broker_ca_file", JString file)]) (mkConfig (BrokerURL env) insecure "" [] None None)
    = Some (mkConfig (BrokerURL env) insecure file [] None None)) by (intros file; by destruct (String.eqb_spec file "") as [->|]).
  rewrite (unmarshal_app config_fields [_; _] _ start (mkConfig (BrokerURL env) insecure "" [] None None)) by reflexivity.
  rewrite (unmarshal_app _ _ _ _ _ (Hfile _)). set (file := if brokerCADistributed env then _ else _).
  rewrite (unmarshal_app config_fields [("routes", JArray [])] _ _ (mkConfig (BrokerURL env) insecure file [] None None)) by reflexivity.
  rewrite (unmarshal_app config_fields [("forward_proxy", JObject ms)] _ _ (mkConfig (BrokerURL env) insecure file [] (Some (daemon_proxy run ports cidrs)) None)).
  - reflexivity.
  - eapply eq_trans; [eapply unmarshal_step; [reflexivity|]|reflexivity]. cbn [snd].
    unfold into_optional. cbn [co_ForwardProxy default]. by rewrite Hd.
Qed.
