(* ===== verification/OperatorEgressTheorems.v ===== *)
(** * The operator and its egress daemon: theorems

    Which runs the operator admits that the daemon then starts for, the ports
    of the daemon's service, and the fence around the agent and the daemon: what
    the policies of any number of runs permit, by the semantics Kubernetes gives
    to pod selectors, policy types, peers and ports. *)
From stdpp Require Import base list strings gmap pretty sorting.
From Stdlib Require Import ZArith Lia Ascii.
From S2P Require Import Prelude GoStrings GoUrl GoJson GoJsonPrint GoHttp Contract Validation ResolvedLemmas Egress EgressProps GithubCommand GithubSubmit OperatorTypes OperatorPolicy EgressConfig OperatorEgress.


Local Open Scope Z_scope.
Local Open Scope go_scope.
Local Open Scope string_scope.

(** ** What admission establishes *)

Lemma parse_ports_range raw ports : parse_ports raw = Ok ports -> forall n, In n ports -> 1 <= n <= 65535.
Proof.
  revert ports. induction raw as [|value rest IH]; intros ports; cbn; [by intros [= <-]|].
  destruct (Atoi _) as [port|]; [|done]. destruct (_ || _) eqn:E; [done|]. destruct (parse_ports rest) as [l|]; [|done].
  intros [= <-] n [<-|Hn]; [bool_prop; lia|by apply (IH l)].
Qed.

Lemma distinct_ports_subset seen ports n : In n (distinct_ports seen ports) -> In n ports.
Proof.
  revert seen. induction ports as [|p ports IH]; intros seen; cbn; [done|]. destruct (existsb _ _); [right; by eapply IH|].
  intros [->|H]; [by left|right; by eapply IH].
Qed.

Lemma external_ports env ports : ExternalTCPPorts env = Ok ports -> ports <> [] /\ forall n, In n ports -> 1 <= n <= 65535.
Proof.
  unfold ExternalTCPPorts. cbv zeta. set (configured := TrimSpace _).
  set (values := if configured =? "" then Ok defaultExternalTCPPorts else parse_ports (Split configured ","%char)). intros H.
  assert (Hv : forall l, values = Ok l -> forall n, In n l -> 1 <= n <= 65535).
  { subst values. intros l. destruct (_ =? ""); [|apply parse_ports_range]. intros [= <-] n [<-|[<-|[]]]; lia. }
  destruct values as [l|e]; [|done]. specialize (Hv l eq_refl). destruct (_ =? 0)%nat eqn:E in H; [done|]. injection H as <-.
  pose proof (merge_sort_Permutation Z.le (distinct_ports [] l)) as Hp. split.
  - intros E0. rewrite E0 in Hp. apply Permutation_nil_l in Hp. by rewrite <- Hp in E.
  - intros n Hn. apply Hv, (distinct_ports_subset []). eapply Permutation_in; [|exact Hn]. by symmetry.
Qed.

Lemma check_grants_each env run prepared grants : check_grants env run prepared grants = Ok tt ->
  forall g, In g grants -> exists prepared', check_grant env run prepared' g = Ok tt.
Proof.
  revert prepared. induction grants as [|g grants IH]; intros prepared; [done|]. cbn [check_grants]. intros H.
  apply andThen_ok in H as [H1 H2]. intros g' [<-|Hg]; [by exists prepared|by eapply IH].
Qed.

Lemma check_grant_quota env run prepared g n : check_grant env run prepared g = Ok tt -> gr_Quota g = Some n -> 0 < n.
Proof.
  unfold check_grant. intros H E. do 8 (apply andThen_ok in H as [_ H]). apply andThen_ok in H as [H _]. rewrite E in H.
  apply reject_ok in H. bool_prop. lia.
Qed.

(** The facts of an admitted forward-proxy run that its configuration needs. *)
Record admitted_proxy (env : string -> string) (run : AgentRun) (ports : list Z) (cidrs : list string) : Prop := {
  ap_tls : ValidateBrokerTLSConfig env = Ok tt;
  ap_cidrs : DeploymentDenyCIDRs env = Ok cidrs;
  ap_ports : ExternalTCPPorts env = Ok ports;
  ap_policy : validateEgressDomainPolicy (ru_EgressDomainPolicy (run_Spec run)) = Ok tt;
  ap_tunnels : 0 <= ru_EgressMaxConcurrentTunnels (run_Spec run) <= 4096;
  ap_broker : HasPrefix (BrokerURL env) "http://" = true -> ru_EgressAllowInsecureBroker (run_Spec run) = true;
  ap_quota : forall i, In i (forwardProxyInjects run) -> 0 <= fi_MaxRequests i;
  ap_injects : check_injects run = Ok tt
}.

Lemma forward_proxy_mode run : AgentRunEgressForwardProxy run = true ->
  AgentRunEgressEnforced run = true /\ AgentRunEgressMode run = "mediated".
Proof.
  unfold AgentRunEgressForwardProxy. intros H. apply andb_true_iff in H as [_ H]. split; [done|]. unfold AgentRunEgressEnforced in H.
  apply andb_true_iff in H as [_ H]. by apply String.eqb_eq in H.
Qed.

Lemma inject_quota run i : In i (forwardProxyInjects run) ->
  exists g, In g (AgentRunBrokerGrants (ru_Broker (run_Spec run))) /\ fi_MaxRequests i = default 0 (gr_Quota g).
Proof.
  unfold forwardProxyInjects. set (grants := List.filter injectable _). set (counted := map _ (mjoin _)). intros H.
  apply list_elem_of_In, list_elem_of_join in H as (l & Hi & Hl). apply list_elem_of_In, in_map_iff in Hl as (g & <- & Hg).
  apply list_elem_of_In, in_map_iff in Hi as (u & <- & _). exists g. split; [|done]. by apply List.filter_In in Hg as [? _].
Qed.

Lemma admission_facts env run : ValidateAgentRunEgressMode env run = Ok tt -> AgentRunEgressForwardProxy run = true ->
  exists ports cidrs, admitted_proxy env run ports cidrs.
Proof.
  intros H Hf. destruct (forward_proxy_mode run Hf) as [_ Hm]. unfold ValidateAgentRunEgressMode in H. rewrite Hf, Hm in H.
  apply andThen_ok in H as [_ H]. apply andThen_ok in H as [Htls H]. apply andThen_ok in H as [Hc H]. apply andThen_ok in H as [Hp H].
  do 2 apply andThen_ok in H as [_ H]. apply andThen_ok in H as [Hpol H]. apply andThen_ok in H as [Ht H].
  do 6 apply andThen_ok in H as [_ H]. apply andThen_ok in H as [Hb H]. apply andThen_ok in H as [Hg H].
  destruct (DeploymentDenyCIDRs env) as [cidrs|] eqn:Ec; [|done]. destruct (ExternalTCPPorts env) as [ports|] eqn:Ep; [|done].
  exists ports, cidrs. split; try done.
  - unfold validateEgressMaxConcurrentTunnels in Ht. apply reject_ok in Ht. bool_prop. lia.
  - intros Hh. apply reject_ok in Hb. rewrite Hh in Hb. cbn in Hb. by apply negb_false_iff in Hb.
  - intros i Hi. destruct (inject_quota run i Hi) as (g & Hin & ->). destruct (check_grants_each _ _ _ _ Hg g Hin) as [prepared Hc'].
    destruct (gr_Quota g) as [n|] eqn:Eq; cbn; [|lia]. pose proof (check_grant_quota _ _ _ _ _ Hc' Eq). lia.
Qed.

(** An admitted run's configuration is rendered. *)
Lemma admitted_renders env run ports cidrs : admitted_proxy env run ports cidrs -> AgentRunEgressForwardProxy run = true ->
  exists document, RenderEgressdConfigJSON env run = Ok document.
Proof.
  intros A Hf. unfold RenderEgressdConfigJSON, render_proxy. rewrite (ap_tls _ _ _ _ A), Hf, (ap_cidrs _ _ _ _ A), (ap_ports _ _ _ _ A).
  pose proof (ap_injects _ _ _ _ A) as Hi. unfold check_injects in Hi. apply andThen_ok in Hi as [Hi _]. apply reject_ok in Hi.
  destruct (forwardProxyInjects run); [done|]. cbn [andThen]. by eexists.
Qed.

(** ** What the daemon checks *)

(** The broker has a URL with a host, over TLS, or in the clear where the run
    accepts that and no CA of the broker is handed out. *)
Definition broker_usable (env : string -> string) (run : AgentRun) : Prop :=
  exists u, url_Parse (BrokerURL env) = Some u /\ Host u <> ""
    /\ (Scheme u = "https"
        \/ Scheme u = "http" /\ ru_EgressAllowInsecureBroker (run_Spec run) = true /\ brokerCADistributed env = false).

(** The ranges the deployment denies, as the operator writes them, read back. *)
Definition ranges_readable (env : string -> string) : Prop :=
  exists cidrs policy, DeploymentDenyCIDRs env = Ok cidrs /\ newDestinationPolicy cidrs = Some policy.

(** The host names of the run's injects carry no zone, and its quotas are
    machine integers. *)
Definition plain_injects (run : AgentRun) : Prop :=
  forall i, In i (forwardProxyInjects run) -> has_byte (fi_Host i) "%"%char = false /\ fi_MaxRequests i < 2 ^ 63.

(** What an inject is to the daemon: the normal form of its host, and the
    capability. *)
Definition inject_pair (i : forwardProxyInject) : option string * string := (normalizeProxyHost (fi_Host i), fi_Capability i).

(** The hosts the daemon can intercept: names with a normal form that are not
    the daemon's own, with a capability and an upstream of its form, each
    pair of normal form and capability once. *)
Definition interceptable (run : AgentRun) : Prop :=
  (forall i, In i (forwardProxyInjects run) ->
     (exists name, normalizeProxyHost (fi_Host i) = Some name /\ forall leaf, In leaf (egressdLeafDNSNames run) -> name <> ToLower leaf)
     /\ fi_Capability i <> "" /\ validateUpstream (fi_Upstream i) = Ok tt)
  /\ NoDup (map inject_pair (forwardProxyInjects run)).

Lemma inject_host run i : In i (forwardProxyInjects run) -> fi_Host i = egressHostName (fi_Upstream i).
Proof.
  unfold forwardProxyInjects. set (grants := List.filter injectable _). set (counted := map _ (mjoin _)). intros H.
  apply list_elem_of_In, list_elem_of_join in H as (l & Hi & Hl). apply list_elem_of_In, in_map_iff in Hl as (g & <- & Hg).
  by apply list_elem_of_In, in_map_iff in Hi as (u & <- & _).
Qed.

Lemma upstream_host u x : normalizedRouteUpstreamHost u = Some x -> normalizeProxyHost (egressHostName u) = Some x.
Proof.
  unfold normalizedRouteUpstreamHost, egressHostName. destruct (has_byte u ":"%char) eqn:E.
  - by destruct (SplitHostPort u) as [[host port]|].
  - intros H. unfold SplitHostPort. by rewrite (cut_last_none u ":"%char).
Qed.

(** Texts joined by a byte neither's first part has are the same parts. *)
Lemma joined_parts c a1 a2 b1 b2 : has_byte a1 c = false -> has_byte a2 c = false ->
  a1 +:+ String c b1 = a2 +:+ String c b2 -> a1 = a2 /\ b1 = b2.
Proof.
  unfold has_byte. revert a2. induction a1 as [|x a1 IH]; intros [|y a2]; cbn [any_byte]; intros H1 H2 E.
  - by injection E as ->.
  - injection E as <- _. by rewrite Ascii.eqb_refl in H2.
  - injection E as -> _. by rewrite Ascii.eqb_refl in H1.
  - apply orb_false_iff in H1 as [_ H1], H2 as [_ H2]. rewrite !str_cons_app in E. injection E as -> E.
    destruct (IH a2 H1 H2 E) as [-> ->]. done.
Qed.

Lemma normal_no_nul n : normal n -> has_byte n (Ascii.ascii_of_nat 0) = false.
Proof.
  intros (_ & _ & _ & Hl). apply domain_labels_chars in Hl. unfold has_byte. apply (any_byte_all _ domain_char); [|done].
  intros c Hc. destruct c as [[] [] [] [] [] [] [] []]; vm_compute in Hc |- *; done.
Qed.

Lemma NoDup_seen {B C} (f : B -> C) l : NoDup (map f l) <-> forall a x b, l = (a ++ x :: b)%list -> ~ In (f x) (map f a).
Proof.
  induction l as [|x l IH] using rev_ind; [split; [intros _ [|] ? ? [=]|by constructor]|].
  rewrite map_app. cbn [map]. rewrite NoDup_app. split.
  - intros (H1 & H2 & _) a y b E. destruct b as [|z b _] using rev_ind.
    + apply app_inj_tail in E as [-> ->]. intros Hin. apply list_elem_of_In in Hin. apply (H2 _ Hin). by left.
    + rewrite app_comm_cons, app_assoc in E. apply app_inj_tail in E as [-> ->]. by apply (proj1 IH H1 a y b).
  - intros H. split; [apply IH; intros a y b ->; apply (H a y (b ++ [x])%list); by rewrite <- app_assoc|].
    split; [|apply NoDup_singleton]. intros y Hy ->%list_elem_of_singleton. by apply (H l x [] eq_refl), list_elem_of_In.
Qed.

Section Accepted.
Context (env : string -> string) (run : AgentRun) (ports : list Z) (cidrs : list string) (certificates : string -> bool).
Hypothesis A : admitted_proxy env run ports cidrs.
Hypothesis P : plain_injects run.

Abbreviation injects := (forwardProxyInjects run).
Let config := daemon_config env run ports cidrs.
Let proxy := daemon_proxy run ports cidrs.

Lemma inject_checked i : In i injects -> ParseAddr (fi_Host i) = None
  /\ forall p, ru_EgressDomainPolicy (run_Spec run) = Some p -> egressDomainAllowed p (fi_Host i) = true.
Proof.
  intros Hi. pose proof (ap_injects _ _ _ _ A) as H. unfold check_injects in H. apply andThen_ok in H as [_ H].
  rewrite each_seen_ok in H. apply in_split in Hi as (l & r & E). specialize (H l i r E).
  apply andThen_ok in H as [H1 H]. apply andThen_ok in H as [_ H]. apply reject_ok in H, H1. split.
  - apply bool_decide_eq_false in H1. rewrite ParseIP_ParseAddr in H1; [by destruct (ParseAddr _); [destruct H1; eexists|]|].
    apply P. rewrite E. apply in_or_app. right. by left.
  - intros p Hp. rewrite Hp in H. by apply negb_false_iff in H.
Qed.

Lemma inject_normal i name : In i injects -> normalizeProxyHost (fi_Host i) = Some name -> normalizeDomainName (fi_Host i) = Some name.
Proof.
  intros Hi. unfold normalizeProxyHost. destruct (inject_checked i Hi) as [-> _]. by destruct (_ || _ || _).
Qed.

Lemma broker_checked : check_broker config = Ok tt <-> broker_usable env run.
Proof.
  unfold check_broker, broker_usable, config, daemon_config. cbn [co_BrokerURL co_AllowInsecureBroker].
  destruct (url_Parse (BrokerURL env)) as [u|]; [|by split; [|intros (? & [=] & _)]]. rewrite andThen_ok, reject_ok, String.eqb_neq.
  transitivity (Host u <> "" /\ (Scheme u = "https"
    \/ Scheme u = "http" /\ ru_EgressAllowInsecureBroker (run_Spec run) = true /\ brokerCADistributed env = false)).
  2: { split; [intros [? ?]; by exists u|]. by intros (? & [= <-] & ? & ?). }
  destruct (String.eqb_spec (Scheme u) "https") as [Hs|Hs]; [intuition|]. destruct (String.eqb_spec (Scheme u) "http") as [Hh|Hh].
  2: { split; [by intros [_ [=]]|]. by intros [_ [?|[? _]]]. }
  rewrite reject_ok, negb_false_iff, andb_true_iff, negb_true_iff. intuition.
Qed.
(** The rules of the CA: the daemon's own names are not intercepted. *)
Lemma ca_checked : check_ca config (daemon_ca run) = Ok tt <->
  forall i name leaf, In i injects -> normalizeProxyHost (fi_Host i) = Some name -> In leaf (egressdLeafDNSNames run) -> name <> ToLower leaf.
Proof.
  unfold check_ca. cbn [daemon_ca ca_CertFile ca_KeyFile ca_PublishDir ca_ServeAddr ca_LeafDNSNames].
  rewrite !andThen_ok, each_ok. change (reject _ "ca cert_file and key_file must be set together" : result string unit) with (Ok (E := string) tt).
  change (reject _ "ca requires publish_dir, serve_addr, or cert_file/key_file" : result string unit) with (Ok (E := string) tt).
  assert (Hreal : forall h, In h (real_hosts config) <-> exists i, In i injects /\ normalizeProxyHost (fi_Host i) = Some h).
  { intros h. unfold real_hosts, route_hosts, inject_routes, config, daemon_config, daemon_proxy. cbn [co_Routes co_ForwardProxy fc_InjectRoutes omap list_omap app].
    rewrite in_app_iff, <- !list_elem_of_In, !list_elem_of_omap. split.
    - intros [(r & Hr & Hh)|(r & Hr & Hh)]; apply list_elem_of_In, in_map_iff in Hr as (i & <- & Hi); exists i; (split; [done|]).
      + exact Hh.
      + cbn in Hh. rewrite (inject_host run i Hi). by apply upstream_host.
    - intros (i & Hi & Hh). left. exists (daemon_inject i). split; [|done]. by apply list_elem_of_In, in_map. }
  split.
  - intros (_ & _ & H) i name leaf Hi Hn Hl ->. specialize (H leaf Hl). apply andThen_ok in H as [_ H]. apply reject_ok in H.
    apply eq_true_false_abs in H; [done|]. apply mem_in, Hreal. by exists i.
  - intros H. split; [done|]. split; [done|]. intros leaf Hl. apply andThen_ok. split; apply reject_ok.
    + assert (Hne : forall a b, ("-egressd" ++ a)%string <> "" /\ (b +:+ "-egressd" <> "")) by (intros a [|c b]; done).
      unfold egressdLeafDNSNames, EgressdServiceName in Hl. apply String.eqb_neq.
      destruct Hl as [<-|[<-|[<-|[]]]]; destruct (run_name run); done.
    + destruct (mem _ _) eqn:E; [|done]. apply mem_in, Hreal in E as (i & Hi & Hn). by destruct (H i _ leaf Hi Hn Hl).
Qed.

(** The rules of the proxy hold. *)
Lemma proxy_checked : ForwardProxyConfig_Validate proxy = Ok tt <-> newDestinationPolicy cidrs <> None.
Proof.
  unfold ForwardProxyConfig_Validate, proxy, daemon_proxy. cbn [fc_Listen fc_AllowHosts fc_DomainPolicy fc_AllowUnmatchedHosts
    fc_MaxConcurrentTunnels fc_TunnelIdleTimeoutSeconds fc_DenyCIDRs fc_InjectRoutes each].
  destruct (external_ports env ports (ap_ports _ _ _ _ A)) as [Hne Hports]. pose proof (ap_tunnels _ _ _ _ A) as Ht.
  rewrite !andThen_ok, (reject_ok (bool_decide _)), bool_decide_eq_false. split; [by intros (_ & _ & _ & _ & _ & _ & H & _)|].
  intros Hcidrs. split; [done|]. split; [done|]. split; [|split; [|split; [|split; [done|split; [done|]]]]].
  - pose proof (ap_policy _ _ _ _ A) as Hp. destruct (ru_EgressDomainPolicy (run_Spec run)) as [p|]; [|done]. cbn [fmap option_fmap option_map].
    apply andThen_ok. split; [done|]. by apply (daemon_policy_agrees p "").
  - apply each_ok. intros n Hn. unfold effectiveAllowPorts in Hn. cbn [fc_AllowPorts] in Hn. destruct ports as [|p l]; [done|].
    apply Hports in Hn. apply reject_ok, orb_false_iff. split; apply Z.ltb_ge; lia.
  - apply reject_ok, orb_false_iff. unfold maxForwardProxyConcurrentTunnels. split; apply Z.ltb_ge; lia.
  - pose proof (ap_policy _ _ _ _ A) as Hp. destruct (ru_EgressDomainPolicy (run_Spec run)) as [p|] eqn:Ep; [|done]. cbn [fmap option_fmap option_map].
    apply each_ok. intros r Hr. apply in_map_iff in Hr as (i & <- & Hi). destruct (inject_checked i Hi) as [Ha Hallowed].
    specialize (Hallowed p Ep). unfold check_inject_route. cbn [ir_Host ir_AllowPrivateUpstream ir_Upstream daemon_inject].
    destruct (daemon_policy_agrees p (fi_Host i) Hp) as [_ Hd]. rewrite Hallowed in Hd. rewrite Hd. apply andThen_ok. split; [done|].
    destruct (normalizedRouteUpstreamHost _) as [x|] eqn:Ex; [|done]. apply upstream_host in Ex. rewrite <- (inject_host run i Hi) in Ex.
    apply inject_normal in Ex; [|done]. apply reject_ok, negb_false_iff. revert Hd. unfold Decide. by rewrite Ex, (normal_again _ _ Ex).
Qed.
Lemma inject_key i name : In i injects -> normalizeProxyHost (fi_Host i) = Some name ->
  route_key (daemon_inject i) = Some (host_capability name (fi_Capability i)) /\ has_byte name (Ascii.ascii_of_nat 0) = false /\ ParseIP name = None.
Proof.
  intros Hi Hn. unfold route_key, daemon_inject. cbn [ir_Host ir_Capability]. rewrite Hn. split; [done|].
  apply (inject_normal i name Hi) in Hn. apply normalizeDomainName_some in Hn as [Hn _]. split; [by apply normal_no_nul|].
  unfold ParseIP. by destruct Hn as (_ & -> & _).
Qed.

(** Two injects share a key when they are the same pair to the daemon. *)
Lemma seen_key l i name : (forall j, In j (i :: l) -> In j injects) -> normalizeProxyHost (fi_Host i) = Some name ->
  In (host_capability name (fi_Capability i)) (omap route_key (map daemon_inject l)) <-> In (inject_pair i) (map inject_pair l).
Proof.
  intros Hl Hn. destruct (inject_key i name (Hl i (or_introl eq_refl)) Hn) as (_ & Hz & _).
  rewrite <- list_elem_of_In, list_elem_of_omap, in_map_iff. split.
  - intros (r & Hr & Hk). apply list_elem_of_In, in_map_iff in Hr as (j & <- & Hj). exists j. split; [|done].
    unfold route_key in Hk. cbn [ir_Host ir_Capability daemon_inject] in Hk.
    destruct (normalizeProxyHost (fi_Host j)) as [name'|] eqn:Hn'; [|done]. injection Hk as Hk.
    destruct (inject_key j name' (Hl j (or_intror Hj)) Hn') as (_ & Hz' & _).
    destruct (joined_parts _ _ _ _ _ Hz' Hz Hk) as [-> Hc]. unfold inject_pair. by rewrite Hn, Hn', Hc.
  - intros (j & Hp & Hj). exists (daemon_inject j). split; [by apply list_elem_of_In, in_map|]. unfold inject_pair in Hp. injection Hp as Hp Hc.
    unfold route_key. cbn [ir_Host ir_Capability daemon_inject]. by rewrite Hp, Hn, Hc.
Qed.

(** The rules of the inject routes: names, capabilities, upstreams, and every
    pair once. *)
Lemma overlap_checked : validateForwardProxyRouteOverlap certificates config proxy = Ok tt <->
  (forall i, In i injects -> (exists name, normalizeProxyHost (fi_Host i) = Some name) /\ fi_Capability i <> "" /\ validateUpstream (fi_Upstream i) = Ok tt)
  /\ NoDup (map inject_pair injects).
Proof.
  unfold validateForwardProxyRouteOverlap. change (fc_AllowHosts proxy) with (@nil string). change (route_hosts config) with (@nil string).
  change (fc_InjectRoutes proxy) with (map daemon_inject injects). cbn [each omap list_omap andThen]. rewrite each_seen_ok. cbn [app].
  assert (Hone : forall l i r, injects = (l ++ i :: r)%list -> check_inject certificates [] [] (map daemon_inject l) (daemon_inject i) = Ok tt <->
    (exists name, normalizeProxyHost (fi_Host i) = Some name) /\ fi_Capability i <> "" /\ validateUpstream (fi_Upstream i) = Ok tt
    /\ ~ In (inject_pair i) (map inject_pair l)).
  { intros l i r E. assert (Hsub : forall j, In j (i :: l) -> In j injects) by (intros j [<-|Hj]; rewrite E; apply in_or_app; [right; by left|by left]).
    assert (Hi := Hsub i (or_introl eq_refl)).
    unfold check_inject, daemon_inject at 1. cbn [ir_Host]. destruct (normalizeProxyHost (fi_Host i)) as [name|] eqn:Hn; [|split; [done|by intros [[? [=]] _]]].
    destruct (inject_key i name Hi Hn) as (_ & _ & Hip). pose proof (seen_key l i name Hsub Hn) as Hk. rewrite <- list_elem_of_In in Hk.
    cbn [daemon_inject ir_Capability ir_Upstream ir_MaxRequests ir_UpstreamCAPEM ir_UpstreamServerName ir_AllowPrivateUpstream].
    rewrite Hip, (bool_decide_eq_false_2 (is_Some None)) by (by intros [? [=]]). cbn [reject andThen String.eqb xorb].
    rewrite !andThen_ok, !reject_ok, String.eqb_neq. pose proof (ap_quota _ _ _ _ A i Hi) as Hq. rewrite list_elem_of_In in Hk.
    assert (Hm : mem (host_capability name (fi_Capability i)) (omap route_key (map daemon_inject l)) = false <-> ~ In (inject_pair i) (map inject_pair l))
      by (by rewrite <- not_true_iff_false, mem_in, Hk).
    rewrite Hm, Z.ltb_ge. clear Hm Hk. split.
    - intros (H1 & H2 & _ & _ & H3 & _). split; [by exists name|]. auto.
    - intros (_ & H1 & H2 & H3). by split_and!. }
  split.
  - intros H. split.
    + intros i Hi. apply in_split in Hi as (l & r & E). specialize (H (map daemon_inject l) (daemon_inject i) (map daemon_inject r)).
      rewrite E, map_app in H. specialize (H eq_refl). apply (Hone l i r E) in H. tauto.
    + apply NoDup_seen. intros l i r E. specialize (H (map daemon_inject l) (daemon_inject i) (map daemon_inject r)).
      rewrite E, map_app in H. specialize (H eq_refl). apply (Hone l i r E) in H. tauto.
  - intros [H1 H2] l' x' r' E. apply map_eq_app in E as (l & t & E & <- & Et). destruct t as [|i r]; [done|]. injection Et as <- <-.
    apply (Hone l i r E). destruct (H1 i) as (? & ? & ?); [rewrite E; apply in_or_app; right; by left|].
    rewrite NoDup_seen in H2. specialize (H2 l i r E). auto.
Qed.

Lemma config_accepted : Config_Validate certificates config = Ok tt <->
  broker_usable env run /\ newDestinationPolicy cidrs <> None /\ interceptable run.
Proof.
  pose proof broker_checked as Hb. pose proof ca_checked as Hca. pose proof proxy_checked as Hp. pose proof overlap_checked as Ho.
  unfold Config_Validate. change (co_Routes config) with (@nil Route). change (co_ForwardProxy config) with (Some proxy).
  change (co_CA config) with (Some (daemon_ca run)). cbn [each].
  assert (Hroutes : inject_routes config <> []).
  { pose proof (ap_injects _ _ _ _ A) as Hi. unfold check_injects in Hi. apply andThen_ok in Hi as [Hi _]. apply reject_ok in Hi.
    change (inject_routes config) with (map daemon_inject injects). by destruct injects. }
  rewrite (bool_decide_eq_true_2 (inject_routes config <> [])) by done. rewrite orb_true_r.
  rewrite !andThen_ok, Hb, Hp, Hca, Ho, !reject_ok. unfold interceptable. split.
  - intros (_ & Hbroker & _ & Hleaf & Hranges & (Hall & Hnd) & _). do 2 (split; [done|]). split; [|done].
    intros i Hi. destruct (Hall i Hi) as ([name Hn] & Hc & Hu).
    split; [|done]. exists name. split; [done|]. intros leaf. by apply (Hleaf i).
  - intros (Hbroker & Hranges & Hall & Hnd). split_and!; try done.
    + intros i name leaf Hi Hn Hl. destruct (Hall i Hi) as ((name' & Hn' & Hleaf) & _). rewrite Hn in Hn'. injection Hn' as <-. by apply Hleaf.
    + intros i Hi. destruct (Hall i Hi) as ((name & Hn & _) & Hc & Hu). split; [by exists name|done].
    + by destruct (bool_decide _).
Qed.
End Accepted.

(** ** The theorems *)

(** C26: Which admitted runs get a running egress daemon.  For every run with
    forward-proxy egress that passes admission, the operator renders a
    configuration; the daemon loads it exactly when the broker's URL has a
    host and a scheme the daemon takes, the denied ranges read back, every
    intercepted host is a name the daemon can normalize and not one of its
    own, every grant has a capability and upstreams of the daemon's form, and
    no two injects are the same host, in normal form, for the same capability.
    Admission alone does not establish this: it does not look at the broker's
    URL, compares the hosts as they are written, and admits ports that are not
    numbers.  Of the run it is assumed that no intercepted host is written with
    a zone, and that its quotas are 64-bit integers. *)
Theorem daemon_starts_iff env run certificates :
  ValidateAgentRunEgressMode env run = Ok tt -> AgentRunEgressForwardProxy run = true -> plain_injects run ->
  exists document, RenderEgressdConfigJSON env run = Ok document
    /\ ((exists config, LoadConfig certificates document = Ok config)
        <-> broker_usable env run /\ ranges_readable env /\ interceptable run).
Proof.
  intros Hv Hf P. destruct (admission_facts env run Hv Hf) as (ports & cidrs & A).
  destruct (admitted_renders env run ports cidrs A Hf) as [document Hd]. exists document. split; [done|].
  assert (Hr : ranges_readable env <-> newDestinationPolicy cidrs <> None).
  { unfold ranges_readable. rewrite (ap_cidrs _ _ _ _ A). split; [by intros (? & policy & [= <-] & ->)|].
    destruct (newDestinationPolicy cidrs) as [policy|] eqn:E; [|done]. by exists cidrs, policy. }
  rewrite Hr. unfold LoadConfig. rewrite (config_decodes env run ports cidrs document); try done.
  - rewrite <- (config_accepted env run ports cidrs certificates A P). split; [|intros ->; by eexists].
    intros [config H]. by apply andThen_ok in H as [? _].
  - by apply forward_proxy_mode.
  - apply A.
  - apply A.
  - intros n Hn. apply (external_ports env ports (ap_ports _ _ _ _ A)) in Hn. lia.
  - intros i Hi. split; [by apply (ap_quota _ _ _ _ A)|by apply P].
  - pose proof (ap_tunnels _ _ _ _ A). lia.
Qed.

(** The ports of the routes, by their indices. *)
Lemma imap_index {B C} (h : nat -> C) (l : list B) : imap (fun i _ => h i) l = map h (seq 0 (length l)).
Proof.
  revert h. induction l as [|x l IH]; intros h; [done|]. rewrite imap_cons. cbn [length seq map]. f_equal.
  rewrite <- seq_shift, map_map. apply (IH (fun i => h (S i))).
Qed.

Lemma route_port_in n p : In p (map (fun i => egressRouteBasePort + Z.of_nat i) (seq 0 n)) <-> egressRouteBasePort <= p < egressRouteBasePort + Z.of_nat n.
Proof.
  rewrite in_map_iff. split.
  - intros (i & <- & Hi). apply in_seq in Hi. lia.
  - intros H. exists (Z.to_nat (p - egressRouteBasePort)). split; [lia|]. apply in_seq. lia.
Qed.

Lemma route_ports_distinct n : NoDup (map (fun i => egressRouteBasePort + Z.of_nat i) (seq 0 n)).
Proof. apply (NoDup_fmap_2_strong (fun i => egressRouteBasePort + Z.of_nat i)); [intros; lia|apply NoDup_seq]. Qed.

(** The daemon's service exposes every port once, which Kubernetes demands
    of a service, unless the run uses the forward proxy and has three
    header-inject grants or more: the third grant's route port is the
    forward proxy's port. *)
Theorem service_ports_distinct_iff run :
  NoDup (map sp_Port (sv_Ports (DesiredEgressdService run)))
  <-> ~ (AgentRunEgressForwardProxy run = true /\ (3 <= length (headerInjectGrants run))%nat).
Proof.
  unfold DesiredEgressdService. cbn [sv_Ports map sp_Port]. rewrite map_app, imap_index, map_map. cbn [sp_Port].
  set (n := length (headerInjectGrants run)). clearbody n. rewrite NoDup_cons, NoDup_app.
  pose proof (route_ports_distinct n) as Hd. pose proof (route_port_in n) as Hin.
  assert (Hca : egressCAPort ∉ (map (fun i => egressRouteBasePort + Z.of_nat i) (seq 0 n))).
  { rewrite list_elem_of_In, Hin. unfold egressCAPort, egressRouteBasePort. lia. }
  destruct (AgentRunEgressForwardProxy run); cbn [map sp_Port].
  - split.
    + intros (_ & _ & H & _) [_ Hn]. apply (H egressForwardProxyPort); [|by left]. apply list_elem_of_In, Hin.
      unfold egressForwardProxyPort, egressRouteBasePort. lia.
    + intros H. rewrite not_elem_of_app. split_and!; [done|by rewrite list_elem_of_singleton|done| |apply NoDup_singleton].
      intros p Hp ->%list_elem_of_singleton. apply list_elem_of_In, Hin in Hp. apply H. split; [done|].
      unfold egressForwardProxyPort, egressRouteBasePort in Hp. lia.
  - split; [by intros _ [[=] _]|]. intros _. rewrite not_elem_of_app. split_and!; [done|by apply not_elem_of_nil|done| |constructor].
    intros p _. apply not_elem_of_nil.
Qed.

(** ** The fence *)

(** An end of a connection: a pod of a namespace, with their labels, or an
    address outside the cluster. *)
Inductive endpoint : Type :=
| Pod (namespace : string) (namespace_labels pod_labels : labels)
| Address (address : string).

Section Fence.
(** Whether an address is in a range, to the cluster's network. *)
Variable in_range_of : string -> string -> bool.

#[export] Instance protocol_eq_dec : EqDecision Protocol.
Proof. solve_decision. Defined.

#[export] Instance policy_type_eq_dec : EqDecision PolicyType.
Proof. solve_decision. Defined.

(** *** Network policies, as Kubernetes documents them *)

Definition peer_selects (policy_namespace : string) (peer : NetworkPolicyPeer) (e : endpoint) : bool :=
  match peer, e with
  | PodSelector wanted, Pod namespace _ pod_labels => (namespace =? policy_namespace) && bool_decide (wanted ⊆ pod_labels)
  | NamespaceSelector wanted, Pod _ namespace_labels _ => bool_decide (wanted ⊆ namespace_labels)
  | IPBlock cidr except, Address address => in_range_of address cidr && negb (existsb (in_range_of address) except)
  | _, _ => false
  end.

(** No peers are all peers, no ports all ports. *)
Definition rule_allows (policy_namespace : string) (e : endpoint) (protocol : Protocol) (port : Z) (rule : NetworkPolicyRule) : bool :=
  ((length (nr_Peers rule) =? 0)%nat || existsb (fun peer => peer_selects policy_namespace peer e) (nr_Peers rule))
  && ((length (nr_Ports rule) =? 0)%nat
      || existsb (fun p => bool_decide (np_Protocol p = protocol) && (np_Port p =? port)%Z) (nr_Ports rule)).

(** A policy governs a direction of the pods of its namespace that it
    selects. *)
Definition governs (direction : PolicyType) (namespace : string) (pod_labels : labels) (policy : NetworkPolicy) : bool :=
  (ny_Namespace policy =? namespace) && bool_decide (ny_PodSelector policy ⊆ pod_labels)
  && existsb (fun t => bool_decide (t = direction)) (ny_PolicyTypes policy).

Definition rules_of (direction : PolicyType) (policy : NetworkPolicy) : list NetworkPolicyRule :=
  match direction with PolicyTypeIngress => ny_Ingress policy | PolicyTypeEgress => ny_Egress policy end.

(** Without a policy that governs it a direction is open; with some, a rule of
    one of them has to allow the connection. *)
Definition permits_connection (policies : list NetworkPolicy) (direction : PolicyType) (namespace : string) (pod_labels : labels)
    (other_end : endpoint) (protocol : Protocol) (port : Z) : bool :=
  let governing := List.filter (governs direction namespace pod_labels) policies in
  (length governing =? 0)%nat
  || existsb (fun policy => existsb (rule_allows (ny_Namespace policy) other_end protocol port) (rules_of direction policy)) governing.

(** One policy alone. *)
Lemma sole_policy policies direction namespace pod_labels policy e protocol port :
  In policy policies -> governs direction namespace pod_labels policy = true ->
  (forall other, In other policies -> governs direction namespace pod_labels other = true -> other = policy) ->
  permits_connection policies direction namespace pod_labels e protocol port
  = existsb (rule_allows (ny_Namespace policy) e protocol port) (rules_of direction policy).
Proof.
  intros Hin Hg Honly. unfold permits_connection. set (governing := List.filter _ policies).
  assert (Hp : In policy governing) by (by apply List.filter_In).
  assert (Hall : forall other, In other governing -> other = policy) by (intros other [H1 H2]%List.filter_In; auto).
  destruct governing as [|x l] eqn:E; [done|]. cbn [length Nat.eqb orb]. apply eq_true_iff_eq. rewrite existsb_exists. split.
  - intros (other & Ho & H). by rewrite <- (Hall other Ho).
  - intros H. by exists policy.
Qed.

(** What the operator has in place for some runs. *)
Definition policies_for (env : string -> string) (runs : list AgentRun) : list NetworkPolicy :=
  mjoin (map (fun r => match desiredNetworkPolicies env r with Ok policies => policies | Err _ => [] end) runs).

Lemma singleton_selects k v (m : labels) : bool_decide ({[k := v]} ⊆ m) = true <-> m !! k = Some v.
Proof. rewrite bool_decide_eq_true. apply map_singleton_subseteq_l. Qed.

Lemma role_selects name role (m : labels) : bool_decide (role_selector name role ⊆ m) = true <->
  m !! agentRunLabelKey = Some name /\ m !! roleLabelKey = Some role.
Proof.
  rewrite bool_decide_eq_true. unfold role_selector. split.
  - intros H. rewrite map_subseteq_spec in H. split; apply H; done.
  - intros [H1 H2]. apply insert_subseteq_l; [done|]. by apply map_singleton_subseteq_l.
Qed.

Lemma policy_ports run protocol port :
  existsb (fun p => bool_decide (np_Protocol p = protocol) && (np_Port p =? port)%Z) (egressdPolicyPorts run) = true <->
  protocol = TCP /\ (port = egressCAPort
    \/ egressRouteBasePort <= port < egressRouteBasePort + Z.of_nat (length (headerInjectGrants run))
    \/ port = egressForwardProxyPort /\ AgentRunEgressForwardProxy run = true).
Proof.
  unfold egressdPolicyPorts, route_ports. rewrite imap_index, existsb_exists, <- route_port_in. split.
  - intros (p & Hp & H). apply andb_true_iff in H as [<-%bool_decide_eq_true <-%Z.eqb_eq].
    destruct Hp as [<-|Hp]; [by auto|]. apply in_app_or in Hp as [Hp|Hp].
    + apply in_map_iff in Hp as (n & <- & Hn). auto.
    + destruct (AgentRunEgressForwardProxy run); [|done]. destruct Hp as [<-|[]]. auto.
  - intros [-> [->|[H|[-> H]]]]; exists (policyPort TCP port) || eexists; cbn [np_Protocol np_Port policyPort].
    + split; [by left|]. by rewrite Z.eqb_refl.
    + split; [right; apply in_or_app; left; by apply in_map|]. by rewrite Z.eqb_refl.
    + split; [right; apply in_or_app; right; rewrite H; by left|]. by rewrite Z.eqb_refl.
Qed.

Lemma policies_of env runs policy : In policy (policies_for env runs) <->
  exists r egressd, In r runs /\ DesiredEgressdNetworkPolicy env r = Ok egressd /\ (policy = DesiredAgentNetworkPolicy r \/ policy = egressd).
Proof.
  unfold policies_for. rewrite <- list_elem_of_In, list_elem_of_join. split.
  - intros (l & Hp & Hl). apply list_elem_of_In, in_map_iff in Hl as (r & <- & Hr). unfold desiredNetworkPolicies in Hp.
    destruct (DesiredEgressdNetworkPolicy env r) as [egressd|] eqn:E; [|by apply not_elem_of_nil in Hp].
    exists r, egressd. do 2 (split; [done|]). apply list_elem_of_In in Hp as [<-|[<-|[]]]; auto.
  - intros (r & egressd & Hr & E & Hp). eexists. split; [|apply list_elem_of_In, in_map_iff; by exists r].
    unfold desiredNetworkPolicies. rewrite E. apply list_elem_of_In. destruct Hp as [->| ->]; cbn; auto.
Qed.

(** The parts of the daemon's policy the fence depends on. *)
Lemma egressd_policy env r egressd : DesiredEgressdNetworkPolicy env r = Ok egressd ->
  ny_Namespace egressd = om_Namespace (run_Meta r) /\ ny_PodSelector egressd = role_selector (run_name r) roleLabelEgressd
  /\ ny_PolicyTypes egressd = [PolicyTypeIngress; PolicyTypeEgress]
  /\ ny_Ingress egressd = [mkPolicyRule [PodSelector (role_selector (run_name r) roleLabelAgent)] (egressdPolicyPorts r);
                            mkPolicyRule [PodSelector {["app.kubernetes.io/name" := "nvt-operator"]}] [policyPort TCP egressCAPort]].
Proof.
  unfold DesiredEgressdNetworkPolicy. destruct (DeploymentDenyCIDRs env); [|done]. destruct (ExternalTCPPorts env); [|done]. by intros [= <-].
Qed.

Lemma role_of_pod name role name' role' : role_selector name role ⊆ enforcementLabels name' role' <-> name = name' /\ role = role'.
Proof.
  rewrite <- (bool_decide_eq_true (role_selector name role ⊆ _)), role_selects. unfold enforcementLabels, agentRunLabels. split.
  - intros [H1 H2]. simplify_map_eq. done.
  - by intros [-> ->].
Qed.

(** The ports of the daemon that an agent uses. *)
Definition agent_port (run : AgentRun) (port : Z) : Prop :=
  port = egressCAPort \/ egressRouteBasePort <= port < egressRouteBasePort + Z.of_nat (length (headerInjectGrants run))
  \/ port = egressForwardProxyPort /\ AgentRunEgressForwardProxy run = true.

Lemma agent_rules run e protocol port :
  existsb (rule_allows (ny_Namespace (DesiredAgentNetworkPolicy run)) e protocol port) (rules_of PolicyTypeEgress (DesiredAgentNetworkPolicy run)) = true
  <-> exists namespace namespace_labels pod_labels, e = Pod namespace namespace_labels pod_labels
      /\ (namespace_labels !! "kubernetes.io/metadata.name" = Some "kube-system" /\ port = 53
          \/ namespace = om_Namespace (run_Meta run) /\ protocol = TCP
             /\ pod_labels !! agentRunLabelKey = Some (run_name run) /\ pod_labels !! roleLabelKey = Some roleLabelEgressd
             /\ agent_port run port).
Proof.
  unfold DesiredAgentNetworkPolicy, dnsPolicyEgressRule, rule_allows, agent_port.
  cbn [rules_of ny_Egress ny_Namespace nr_Peers nr_Ports existsb length Nat.eqb orb].
  change (length (egressdPolicyPorts run) =? 0)%nat with false. cbn [orb]. rewrite !orb_false_r, orb_true_iff, !andb_true_iff, policy_ports.
  split.
  - intros [[H1 H2]|[H1 (-> & H2)]].
    + destruct e as [namespace nl pl|]; [|done]. exists namespace, nl, pl. split; [done|]. left. split; [by apply singleton_selects|].
      apply orb_true_iff in H2 as [H2|H2]; apply andb_true_iff in H2 as [_ H2]; by apply Z.eqb_eq in H2.
    + destruct e as [namespace nl pl|]; [|done]. exists namespace, nl, pl. split; [done|]. right. cbn [peer_selects] in H1.
      apply andb_true_iff in H1 as [H1%String.eqb_eq H3]. apply role_selects in H3 as [? ?]. by split_and!.
  - intros (namespace & nl & pl & -> & [[H ->]|(-> & -> & H1 & H2 & H3)]).
    + left. split; [by apply singleton_selects|]. cbn [np_Protocol np_Port policyPort]. by destruct protocol.
    + right. split; [|done]. cbn [peer_selects]. apply andb_true_iff. split; [by apply String.eqb_refl|]. by apply role_selects.
Qed.

Lemma daemon_rules run e protocol port :
  existsb (rule_allows (om_Namespace (run_Meta run)) e protocol port)
    [mkPolicyRule [PodSelector (role_selector (run_name run) roleLabelAgent)] (egressdPolicyPorts run);
     mkPolicyRule [PodSelector {["app.kubernetes.io/name" := "nvt-operator"]}] [policyPort TCP egressCAPort]] = true
  <-> exists namespace_labels pod_labels, e = Pod (om_Namespace (run_Meta run)) namespace_labels pod_labels /\ protocol = TCP
      /\ (pod_labels !! agentRunLabelKey = Some (run_name run) /\ pod_labels !! roleLabelKey = Some roleLabelAgent
           /\ agent_port run port
          \/ pod_labels !! "app.kubernetes.io/name" = Some "nvt-operator" /\ port = egressCAPort).
Proof.
  unfold rule_allows, agent_port. cbn [nr_Peers nr_Ports existsb length Nat.eqb orb].
  change (length (egressdPolicyPorts run) =? 0)%nat with false. cbn [orb]. rewrite !orb_false_r, orb_true_iff, !andb_true_iff, policy_ports.
  cbn [np_Protocol np_Port policyPort]. rewrite bool_decide_eq_true, Z.eqb_eq. split.
  - intros [[H1 (-> & H2)]|[H1 (<- & H2)]]; destruct e as [namespace nl pl|]; try done; cbn [peer_selects] in H1;
      apply andb_true_iff in H1 as [->%String.eqb_eq H1]; exists nl, pl; (split; [done|]); (split; [done|]).
    + left. apply role_selects in H1 as [? ?]. by split_and!.
    + right. split; [by apply singleton_selects|done].
  - intros (nl & pl & -> & -> & [(H1 & H2 & H3)|[H1 ->]]); cbn [peer_selects]; rewrite String.eqb_refl; cbn [andb].
    + left. split; [by apply role_selects|done].
    + right. split; [by apply singleton_selects|done].
Qed.

Section Pods.
Context (env : string -> string) (runs : list AgentRun) (run : AgentRun).
Hypothesis Hrun : In run runs.
Hypothesis Hnames : forall r, In r runs -> om_Namespace (run_Meta r) = om_Namespace (run_Meta run) -> run_name r = run_name run -> r = run.

(** Of all the policies the one that selects a pod of the run's is the run's
    own. *)
Lemma sole_agent_policy egressd policy : DesiredEgressdNetworkPolicy env run = Ok egressd -> In policy (policies_for env runs) ->
  governs PolicyTypeEgress (om_Namespace (run_Meta run)) (enforcementLabels (run_name run) roleLabelAgent) policy = true ->
  policy = DesiredAgentNetworkPolicy run.
Proof.
  intros _ Hp Hg. apply policies_of in Hp as (r & e & Hr & E & Hp). unfold governs in Hg. rewrite !andb_true_iff in Hg.
  destruct Hg as [[Hns%String.eqb_eq Hsel%bool_decide_eq_true] _]. destruct Hp as [->| ->].
  - apply role_of_pod in Hsel as [Hn _]. by rewrite (Hnames r Hr Hns Hn).
  - destruct (egressd_policy _ _ _ E) as (_ & Hs & _). rewrite Hs in Hsel. by apply role_of_pod in Hsel as [_ [=]].
Qed.

Lemma sole_egressd_policy egressd policy : DesiredEgressdNetworkPolicy env run = Ok egressd -> In policy (policies_for env runs) ->
  governs PolicyTypeIngress (om_Namespace (run_Meta run)) (egressdPodLabels run) policy = true -> policy = egressd.
Proof.
  intros He Hp Hg. apply policies_of in Hp as (r & e & Hr & E & Hp). unfold governs in Hg. rewrite !andb_true_iff in Hg.
  destruct Hg as [[Hns%String.eqb_eq Hsel%bool_decide_eq_true] _]. destruct Hp as [->| ->].
  - by apply role_of_pod in Hsel as [_ [=]].
  - destruct (egressd_policy _ _ _ E) as (Hn & Hs & _). rewrite Hs in Hsel. apply role_of_pod in Hsel as [Hname _].
    rewrite Hn in Hns. rewrite (Hnames r Hr Hns Hname) in E. congruence.
Qed.
End Pods.

(** C27: With the policies of any number of runs in place, of which no two have
    the same name in one namespace, the agent's pod of an enforced run among
    them can connect to name resolution in kube-system and to the daemon of its
    own run on that daemon's ports, and to nothing else: no address outside
    the cluster, not the broker, not the daemon of another run.  And the
    daemon's pod can be connected to by the agent of its own run on those
    ports, by the operator for its certificate, and by nothing else. *)
Theorem agent_fenced env runs run egressd other_end protocol port :
  In run runs -> AgentRunEgressEnforced run = true -> DesiredEgressdNetworkPolicy env run = Ok egressd ->
  (forall r, In r runs -> om_Namespace (run_Meta r) = om_Namespace (run_Meta run) -> run_name r = run_name run -> r = run) ->
  (permits_connection (policies_for env runs) PolicyTypeEgress (om_Namespace (run_Meta run)) (agentPodLabels run) other_end protocol port = true
   <-> exists namespace namespace_labels pod_labels, other_end = Pod namespace namespace_labels pod_labels
       /\ (namespace_labels !! "kubernetes.io/metadata.name" = Some "kube-system" /\ port = 53
           \/ namespace = om_Namespace (run_Meta run) /\ protocol = TCP
              /\ pod_labels !! agentRunLabelKey = Some (run_name run) /\ pod_labels !! roleLabelKey = Some roleLabelEgressd
              /\ agent_port run port))
  /\ (permits_connection (policies_for env runs) PolicyTypeIngress (om_Namespace (run_Meta run)) (egressdPodLabels run) other_end protocol port = true
      <-> exists namespace_labels pod_labels, other_end = Pod (om_Namespace (run_Meta run)) namespace_labels pod_labels /\ protocol = TCP
          /\ (pod_labels !! agentRunLabelKey = Some (run_name run) /\ pod_labels !! roleLabelKey = Some roleLabelAgent
               /\ agent_port run port
              \/ pod_labels !! "app.kubernetes.io/name" = Some "nvt-operator" /\ port = egressCAPort)).
Proof.
  intros Hin He Hd Hnames. assert (Hplaced : forall policy, policy = DesiredAgentNetworkPolicy run \/ policy = egressd ->
    In policy (policies_for env runs)) by (intros policy Hp; apply policies_of; by exists run, egressd).
  destruct (egressd_policy _ _ _ Hd) as (Hns & Hsel & Htypes & Hingress). split.
  - unfold agentPodLabels. rewrite He. rewrite (sole_policy _ _ _ _ (DesiredAgentNetworkPolicy run)).
    + apply agent_rules.
    + auto.
    + unfold governs. cbn [DesiredAgentNetworkPolicy ny_Namespace ny_PodSelector ny_PolicyTypes]. rewrite String.eqb_refl.
      rewrite bool_decide_eq_true_2 by (by apply role_of_pod). done.
    + intros policy Hp Hg. by eapply sole_agent_policy.
  - rewrite (sole_policy _ _ _ _ egressd).
    + cbn [rules_of]. rewrite Hingress, Hns. apply daemon_rules.
    + auto.
    + unfold governs. rewrite Hns, Hsel, Htypes, String.eqb_refl. rewrite bool_decide_eq_true_2 by (by apply role_of_pod). done.
    + intros policy Hp Hg. by eapply sole_egressd_policy.
Qed.
End Fence.

(** C28: One domain policy in three programs.  A policy that the resolved-run
    contract accepts is accepted by the egress daemon, and both decide alike
    for every ASCII host; a policy that the operator admits, in the normal
    form in which the operator writes it into the daemon's configuration, is
    accepted by the daemon, and both decide alike for every host. *)
Theorem domain_policies_agree :
  (forall p host, validateDomainPolicy (Some p) = Ok tt -> all_bytes ascii_byte host = true ->
     DomainPolicy_Validate p = Ok tt /\ fst (Decide p host) = domainPolicyAllows p host)
  /\ (forall p host, validateEgressDomainPolicy (Some p) = Ok tt ->
     DomainPolicy_Validate (daemon_policy p) = Ok tt /\ fst (Decide (daemon_policy p) host) = egressDomainAllowed p host).
Proof. split; intros p host; [apply domain_policy_agrees|apply daemon_policy_agrees]. Qed.

(** ** Concrete runs *)

Definition eg_env (name : string) : string := "".

Definition eg_grant (provider : string) (hosts : list string) : AgentRunBrokerGrant :=
  mkGrant provider [] [] [] AgentRunGrantHeaderInject hosts false ∅ None false None.

(** An enforced run behind the forward proxy, with these grants. *)
Definition eg_run (grants : list AgentRunBrokerGrant) : AgentRun :=
  mkAgentRun (mkType "" "") (mkMeta "nightly-0a1b2" "" "agents" "uid-2" 1 ∅ ∅ [])
    (mkRunSpec None no_runtime None "" None JNull [] AgentRunEgressMediated true true None AgentRunEgressTransportForwardProxy 0
       (Some (mkRunDomainPolicy "deny" ["GitHub.com."] [])) no_workspace (Some (mkRunBroker grants)) None (mkRunAgent "" "" "") None None None)
    no_status.

(** What the daemon answers to the rendered configuration. *)
Definition loads (env : string -> string) (run : AgentRun) : bool :=
  match RenderEgressdConfigJSON env run with
  | Ok document => match LoadConfig (fun _ => false) document with Ok _ => true | Err _ => false end
  | Err _ => false
  end.

Definition admits (env : string -> string) (run : AgentRun) : bool :=
  match ValidateAgentRunEgressMode env run with Ok _ => true | Err _ => false end.

Definition eg_loads : AgentRun -> bool := loads eg_env.
Definition eg_admitted : AgentRun -> bool := admits eg_env.

(** Admission does not look at the broker's URL beyond its prefix: behind this
    one, which has no scheme, a run is admitted whose daemon refuses to start. *)
Definition eg_unschemed (name : string) : string := if name =? "NVT_BROKER_URL" then "broker:7347" else "".

Example admitted_not_started_broker :
  let run := eg_run [eg_grant "github" ["api.github.com"]] in admits eg_unschemed run = true /\ loads eg_unschemed run = false.
Proof. vm_compute. done. Qed.

(** Admission compares hosts as written: this run is admitted and its daemon
    refuses to start. *)
Example admitted_not_started_case :
  let run := eg_run [eg_grant "github" ["api.github.com"; "API.github.com"]] in eg_admitted run = true /\ eg_loads run = false.
Proof. vm_compute. done. Qed.

(** So is this one, for a port that is no number. *)
Example admitted_not_started_port :
  let run := eg_run [eg_grant "github" ["github.com:https"]] in eg_admitted run = true /\ eg_loads run = false.
Proof. vm_compute. done. Qed.

(** A run whose daemon starts, and whose service has the forward proxy's port
    twice. *)
Example admitted_service_repeats_port :
  let run := eg_run [eg_grant "github" ["api.github.com"]; eg_grant "registry" ["npm.pkg.github.com"]; eg_grant "uploads" ["uploads.github.com"]] in
  eg_admitted run = true /\ eg_loads run = true
  /\ map sp_Port (sv_Ports (DesiredEgressdService run)) = [8470; 8471; 8472; 8473; 8473].
Proof. vm_compute. done. Qed.

Lemma daemon_starts_iff_witness :
  exists document, RenderEgressdConfigJSON eg_env (eg_run [eg_grant "github" ["api.github.com"; "github.com:443"]]) = Ok document
    /\ ((exists config, LoadConfig (fun _ => false) document = Ok config)
        <-> broker_usable eg_env (eg_run [eg_grant "github" ["api.github.com"; "github.com:443"]]) /\ ranges_readable eg_env
            /\ interceptable (eg_run [eg_grant "github" ["api.github.com"; "github.com:443"]])).
Proof.
  apply (daemon_starts_iff eg_env (eg_run [eg_grant "github" ["api.github.com"; "github.com:443"]]) (fun _ => false)).
  - vm_compute. reflexivity.
  - vm_compute. reflexivity.
  - intros i [<-|[<-|[]]]; split; vm_compute; reflexivity.
Defined.

(** Two enforced runs side by side. *)
Definition eg_other : AgentRun :=
  set_meta (eg_run [eg_grant "github" ["api.github.com"]]) (mkMeta "nightly-3c4d5" "" "agents" "uid-3" 1 ∅ ∅ []).

Definition eg_one : AgentRun := eg_run [eg_grant "github" ["api.github.com"]].

Definition eg_network (address range : string) : bool := true.

Lemma agent_fenced_witness :
  permits_connection eg_network (policies_for eg_env [eg_one; eg_other]) PolicyTypeEgress "agents" (agentPodLabels eg_one)
    (Pod "agents" ∅ (egressdPodLabels eg_one)) TCP egressCAPort = true
  /\ permits_connection eg_network (policies_for eg_env [eg_one; eg_other]) PolicyTypeEgress "agents" (agentPodLabels eg_one)
       (Pod "agents" ∅ (egressdPodLabels eg_other)) TCP egressCAPort <> true
  /\ permits_connection eg_network (policies_for eg_env [eg_one; eg_other]) PolicyTypeEgress "agents" (agentPodLabels eg_one)
       (Address "93.184.216.34") TCP 443 <> true.
Proof.
  destruct (DesiredEgressdNetworkPolicy eg_env eg_one) as [egressd|err] eqn:E.
  2: { exfalso. apply (f_equal (fun r => match r with Ok _ => true | Err _ => false end)) in E. vm_compute in E. discriminate E. }
  assert (Hn : forall r, In r [eg_one; eg_other] -> om_Namespace (run_Meta r) = om_Namespace (run_Meta eg_one) ->
    run_name r = run_name eg_one -> r = eg_one).
  { intros r [<-|[<-|[]]] _ Hn; [reflexivity|]. exfalso. vm_compute in Hn. discriminate Hn. }
  pose proof (fun e port => proj1 (agent_fenced eg_network eg_env [eg_one; eg_other] eg_one egressd e TCP port (or_introl eq_refl) eq_refl E Hn)) as H.
  change (om_Namespace (run_Meta eg_one)) with "agents" in H.
  split; [|split].
  - apply H. exists "agents", ∅, (egressdPodLabels eg_one). split; [reflexivity|]. right. split_and!; try (vm_compute; reflexivity).
    left. reflexivity.
  - intros Hc. apply H in Hc as (ns & nl & pl & He & Hor). injection He as <- <- <-. destruct Hor as [[Hl _]|(_ & _ & Hl & _)]; vm_compute in Hl; discriminate Hl.
  - intros Hc. apply H in Hc as (ns & nl & pl & He & _). discriminate He.
Defined.
