(* ===== verification/OperatorTheorems.v ===== *)
(** * The schedule admission's theorems

    What holds of the runs of a schedule in every state that concurrent
    admissions, the reconcilers' progress and administrators' changes can
    reach, of the locks they run under, and of one admission. *)
From stdpp Require Import base list strings gmap.
From Stdlib Require Import ZArith Lia Ascii.
From S2P Require Import Prelude GoStrings GoUrl GoJson GoJsonPrint GoHttp Contract Validation LocalRun GithubSubmit GithubCompose Program OperatorTypes OperatorPolicy OperatorProfiles OperatorSchedule OperatorAdmission OperatorLocks OperatorProps OperatorSystem OperatorCompose.


Local Open Scope string_scope.

(** ** A concrete operator *)

(** ** The server *)

Definition obliging (producer : string) (w : cluster) (c : call) : answer c * cluster :=
  match c return answer c * cluster with
  | GetSchedule namespace name =>
      (match cu_schedules w !! (namespace, name) with Some s => Found s | None => NotFound end, w)
  | ListRuns namespace name => (Some (List.filter (scheduled_by namespace name) (snd <$> map_to_list (cu_runs w))), w)
  | ReviewToken _ audiences => let status := mkReview true "" producer audiences in (Some status, saying w (Reviewed status))
  | RandRead size => (Some (replicate size 171%Z), w)
  | BeginAdmission _ _ _ => (Ok tt, w)
  | EndAdmission _ _ _ => (tt, w)
  | ResolveAccount issuer subject =>
      let account := mkResolution "default" "dpa_account" 1 in (Ok account, saying w (Resolved issuer subject account))
  | CreateRun run =>
      match cu_runs w !! run_key run with
      | Some _ => (false, w)
      | None => (true, with_runs w (<[run_key run := run]> (cu_runs w)))
      end
  | GetCached _ _ => (NotFound, w)
  | ListCached _ _ => (None, w)
  | UpdateStatus _ => (UpdateFailed, w)
  | ReadClock => (0%Z, w)
  end.

Lemma obliging_serves producer w c : serves w c (fst (obliging producer w c)) (snd (obliging producer w c)).
Proof.
  destruct c; cbn; try done; try (by left).
  - destruct (cu_schedules w !! _) eqn:E; done.
  - destruct (cu_runs w !! run_key run) eqn:E; cbn; [by left|]. split; [done|]. exists run. by repeat split.
Qed.

Fixpoint simulate {A} (producer : string) (w : cluster) (p : program A) : A * cluster :=
  match p with
  | Ret a => (a, w)
  | Call c k => let '(a, w') := obliging producer w c in simulate producer w' (k a)
  end.

(** ** One admission alone *)

Section Alone.
Context (admin : AgentSchedule -> Prop) (incoming : NamespacedName -> program response -> Prop) (w0 : cluster) (producer : string).

(** One goroutine under its lock, and after its answer. *)
Definition under_lock (key : NamespacedName) (w : cluster) (p : program response) : system :=
  mkSystem w None {[key := 0]} [mkLock (Some 0) 1] [Running key 0 p].

Definition afterwards (w : cluster) (r : response) : system := mkSystem w None ∅ [mkLock None 0] [Answered r].

Lemma reach_move s s' : reachable admin incoming w0 s -> moves s s' -> reachable admin incoming w0 s'.
Proof. intros H Hm. eapply reachable_step; [done|]. by apply step_goroutine. Qed.

Tactic Notation "advance" hyp(H) uconstr(step) :=
  eapply reach_move in H; [|eapply step; first [reflexivity | eassumption | apply lookup_empty]].

Lemma reach_lock key p : incoming key p -> reachable admin incoming w0 (under_lock key w0 p).
Proof.
  intros Hin. pose proof (reachable_step _ _ _ _ _ (reachable_start admin incoming w0) (step_arrive _ _ _ key p Hin)) as H.
  advance H (move_enter _ 0).
  advance H (move_new _ 0).
  advance H (move_leave _ 0).
  advance H (move_acquire _ 0).
  exact H.
Qed.

Lemma reach_simulate key p w : reachable admin incoming w0 (under_lock key w p) ->
  reachable admin incoming w0 (under_lock key (snd (simulate producer w p)) (Ret (fst (simulate producer w p)))).
Proof.
  revert w. induction p as [r|c k IH]; intros w H; [exact H|]. cbn [simulate].
  destruct (obliging producer w c) as [a w'] eqn:E. apply IH.
  pose proof (obliging_serves producer w c) as Hs. rewrite E in Hs.
  advance H (move_call _ 0 key 0 c k a w'). exact H.
Qed.

Lemma reach_answer key w r : reachable admin incoming w0 (under_lock key w (Ret r)) -> reachable admin incoming w0 (afterwards w r).
Proof.
  intros H.
  advance H (move_release _ 0).
  advance H (move_return _ 0).
  advance H (move_drop _ 0).
  advance H (move_answer _ 0).
  cbn in H. unfold moved_to in H. cbn in H. rewrite delete_singleton_eq in H. exact H.
Qed.

Lemma reach_alone key p : incoming key p ->
  reachable admin incoming w0 (afterwards (snd (simulate producer w0 p)) (fst (simulate producer w0 p))).
Proof. intros H. by eapply reach_answer, reach_simulate, reach_lock. Qed.
End Alone.

(** ** Schedules and requests *)

Definition op_env (name : string) : string := "".

(** controller-runtime adds the schedule as the controlling owner. *)
Definition op_owner (schedule run : ObjectMeta) : result string (list OwnerReference) :=
  Ok (om_OwnerReferences run ++ [mkOwner "AgentSchedule" (om_Name schedule) (om_UID schedule) true])%list.

Definition op_decode (_ : option AgentRun) (_ : json) : option AgentRun := None.

Definition op_producer : string := "system:serviceaccount:ci:producer".

Definition op_meta : ObjectMeta := mkMeta "nightly" "" "agents" "uid-1" 7 ∅ ∅ [].

Definition op_status : AgentScheduleStatus := mkScheduleStatus 0 0 None None "".

(** A schedule without profiles, for one run at a time. *)
Definition op_legacy : AgentSchedule := mkAgentSchedule op_meta (mkScheduleSpec false 1 None None [] None None [] [] []) op_status.

Definition op_profile : AgentScheduleExecutionProfile :=
  mkExecutionProfile "codex" (mkRunRuntime "codex" "trusted-local" "" "" "" None None) None "{}" "" "direct" false false None "" 0 None None.

Definition op_template : AgentScheduleTemplate :=
  mkTemplate "registry/agent:1" None (JObject []) [] no_workspace (mkRunAgent "{}" "" "") (Some (mkRunLifecycle ["task.completed"] []))
    None.

(** A schedule with a profile, for two runs at a time and one per principal. *)
Definition op_profiled : AgentSchedule :=
  mkAgentSchedule op_meta
    (mkScheduleSpec false 2 (Some (mkParallelism 1 [])) (Some op_template) [op_profile]
       (Some (mkProfileSelection "codex" [] "useDefault")) None [] [] [op_producer]) op_status.

Definition op_cluster (s : AgentSchedule) : cluster := mkCluster {[schedule_key s := s]} ∅ [].

Definition op_text (s : string) : string := String dquote (s ++ String dquote "").

Definition op_url : URL :=
  mkURL "" "" None "" "/v1/schedules/agents/nightly/admissions" "" false false "" "" "".

Definition op_request (work : string) : Request :=
  mkRequest "POST" op_url ["Bearer token"] "application/json"
    (Some ("{" ++ op_text "work" ++ ":{" ++ op_text "id" ++ ":" ++ op_text work ++ "," ++ op_text "group" ++ ":" ++ op_text "issue-group-00001"
           ++ "," ++ op_text "principal" ++ ":{" ++ op_text "issuer" ++ ":" ++ op_text "https://github.com" ++ ","
           ++ op_text "subject" ++ ":" ++ op_text "42" ++ "}}}")).

Definition op_serve (request : Request) : response + (NamespacedName * program response) :=
  ServeHTTP op_env op_owner op_decode false false request.

(** What the obliging server leaves of the first and of a second admission. *)
Definition op_admit (w : cluster) (request : Request) : response * cluster :=
  match op_serve request with
  | inl r => (r, w)
  | inr (_, p) => simulate op_producer w p
  end.

Definition op_incoming : NamespacedName -> program response -> Prop := requested op_env op_owner op_decode false false.

Definition served (request : Request) : bool := match op_serve request with inl _ => false | inr _ => true end.

Lemma op_reachable s request : served request = true ->
  reachable (eq s) op_incoming (op_cluster s) (afterwards (snd (op_admit (op_cluster s) request)) (fst (op_admit (op_cluster s) request))).
Proof.
  unfold served, op_admit. destruct (op_serve request) as [r|[key p]] eqn:E; [done|]. intros _. apply (reach_alone _ _ _ op_producer key p).
  by exists request.
Qed.

(** A request under its schedule's lock. *)
Definition op_waiting (s : AgentSchedule) (request : Request) : system :=
  match op_serve request with inl _ => idle (op_cluster s) | inr (key, p) => under_lock key (op_cluster s) p end.

Lemma op_locked s request : reachable (eq s) op_incoming (op_cluster s) (op_waiting s request).
Proof.
  unfold op_waiting. destruct (op_serve request) as [r|[key p]] eqn:E; [apply reachable_start|]. apply reach_lock. by exists request.
Qed.

Lemma op_cluster_ok s : cluster_ok (eq s) (op_cluster s).
Proof.
  intros k x H. unfold op_cluster in H. cbn [cu_schedules] in H. apply lookup_singleton_Some in H as [<- <-]. split; [done|]. exists (sched_Status s). by destruct s.
Qed.

Definition op_principal : AgentRunPrincipal := mkRunPrincipal "https://github.com" "42" "".







(** ** Quotas *)

Definition scheduled (key : NamespacedName) : AgentRun -> bool := scheduled_by (fst key) (snd key).

(** The active runs of a schedule, those a principal owns, the runs with one
    identity of work, the active runs of one group. *)
Definition active_of (key : NamespacedName) (r : AgentRun) : bool := scheduled key r && IsActiveScheduledRun r.
Definition owned_of (key : NamespacedName) (p : AgentRunPrincipal) (r : AgentRun) : bool := active_of key r && owned_by p r.
Definition work_of (key : NamespacedName) (id : string) (r : AgentRun) : bool := scheduled key r && (annotation r workIDAnnotation =? id).
Definition group_of (key : NamespacedName) (group : string) (r : AgentRun) : bool :=
  active_of key r && (annotation r workGroupAnnotation =? group).

Lemma count_le {A} (p q : A -> bool) l : (forall x, p x = true -> q x = true) -> (count p l <= count q l)%Z.
Proof.
  intros H. induction l as [|x l IH]; [done|]. rewrite !count_cons. pose proof (H x). destruct (p x), (q x); try lia; by discriminate H0.
Qed.

Lemma count_none {A} (p : A -> bool) l : existsb p l = false -> count p l = 0%Z.
Proof. induction l as [|x l IH]; [done|]. cbn. intros H. apply orb_false_iff in H as [E H]. by rewrite count_cons, E, IH. Qed.

(** What a run keeps when it progresses and when it is stored. *)
Lemma evolves_annotation x r key : evolves x r -> annotation r key = annotation x key.
Proof. intros (_ & _ & H & _). unfold annotation. by rewrite H. Qed.

Lemma evolves_active key x r : evolves x r -> active_of key r = true -> active_of key x = true.
Proof.
  intros H. unfold active_of, scheduled. rewrite !andb_true_iff, (evolves_scheduled _ _ x r H). intros [-> Ha]. split; [done|]. by apply H.
Qed.

Lemma stored_active key r stored : stored_as r stored -> active_of key stored = active_of key r.
Proof.
  intros H. unfold active_of, scheduled. rewrite (stored_scheduled _ _ r stored H). destruct H as (_ & _ & _ & _ & H).
  unfold IsActiveScheduledRun. by rewrite H.
Qed.

Lemma stored_annotation r stored key : stored_as r stored -> annotation stored key = annotation r key.
Proof. intros (_ & _ & H & _). unfold annotation. by rewrite H. Qed.

Section Quota.
Context (admin : AgentSchedule -> Prop) (env : string -> string).

Lemma known_spec s : known admin s -> exists s', admin s' /\ schedule_key s' = schedule_key s /\ sched_Spec s' = sched_Spec s.
Proof. intros [status H]. by eexists. Qed.

Lemma capacity_quota key M :
  (forall s, admin s -> schedule_key s = key -> (EffectiveMaxParallelism s <= M)%Z) -> quota admin key (active_of key) M.
Proof.
  intros HM. split.
  - intros r H. by apply andb_true_iff in H as [H _].
  - intros x r. apply evolves_active.
  - intros r stored H. by rewrite (stored_active key r stored H).
  - intros producer s l r Hk Hkey Had _. pose proof (ad_capacity _ _ _ _ Had) as Hc.
    destruct (known_spec s Hk) as (s' & Ha & Hkey' & Hs). specialize (HM s' Ha (eq_trans Hkey' Hkey)).
    unfold EffectiveMaxParallelism in HM, Hc. rewrite Hs in HM. unfold countActiveScheduledRuns in Hc.
    pose proof (count_le (active_of key) IsActiveScheduledRun l) as H. specialize (H (fun x Hx => proj2 (andb_prop _ _ Hx))). lia.
Qed.

(** Limits and counts go by the principal's identity. *)
Definition same_principal (p q : AgentRunPrincipal) : Prop := pr_Issuer p = pr_Issuer q /\ pr_Subject p = pr_Subject q.

Lemma owned_by_same p q r : same_principal p q -> owned_by p r = owned_by q r.
Proof. intros [Hi Hs]. unfold owned_by. by rewrite Hi, Hs. Qed.

Lemma limit_same configuration p q : same_principal p q ->
  principalParallelismLimit configuration (Some p) = principalParallelismLimit configuration (Some q).
Proof. intros [Hi Hs]. unfold principalParallelismLimit, validPrincipalIdentity. by rewrite Hi, Hs. Qed.

Lemma principal_quota key p M :
  (forall s, admin s -> schedule_key s = key -> exists configuration limit,
     sk_PrincipalParallelism (sched_Spec s) = Some configuration /\ principalParallelismLimit configuration (Some p) = Ok limit
     /\ (limit <= M)%Z) ->
  quota admin key (owned_of key p) M.
Proof.
  intros HM. split.
  - intros r H. apply andb_true_iff in H as [H _]. by apply andb_true_iff in H as [H _].
  - intros x r H Hr. apply andb_true_iff in Hr as [Hr Ho]. apply andb_true_iff. split; [by eapply evolves_active|].
    destruct H as (_ & _ & _ & H & _). unfold owned_by in *. by rewrite <- H.
  - intros r stored H. unfold owned_of. rewrite (stored_active key r stored H). destruct H as (_ & _ & _ & H & _).
    unfold owned_by. by rewrite H.
  - intros producer s l r Hk Hkey Had Hr. apply andb_true_iff in Hr as [_ Ho].
    destruct (known_spec s Hk) as (s' & Ha & Hkey' & Hs). destruct (HM s' Ha (eq_trans Hkey' Hkey)) as (configuration & limit & Hc & Hl & HleM).
    rewrite Hs in Hc. destruct (ad_principal _ _ _ _ Had configuration Hc) as (q & limit' & Hq & Hl' & Hcount).
    unfold owned_by in Ho. unfold provenance in Hq. rewrite Hq in Ho. bool_prop.
    assert (Hsame : same_principal q p) by done. rewrite (limit_same _ q p Hsame) in Hl'. rewrite Hl in Hl'. injection Hl' as <-.
    destruct (limit_positive _ _ _ Hl) as (_ & p' & [= <-] & Hv). unfold countActiveScheduledRunsForPrincipal in Hcount.
    assert (Hvq : validPrincipalIdentity (Some q) = true) by (destruct Hsame as [E1 E2]; unfold validPrincipalIdentity in *; by rewrite E1, E2).
    rewrite Hvq in Hcount. enough (count (owned_of key p) l <= count (fun run => IsActiveScheduledRun run && owned_by q run) l)%Z by lia.
    apply count_le. intros x Hx. apply andb_true_iff in Hx as [Hx Hp]. apply andb_true_iff in Hx as [_ Hx].
    rewrite Hx. by rewrite (owned_by_same q p).
Qed.

Lemma work_quota key id : quota admin key (work_of key id) 1.
Proof.
  split.
  - intros r H. by apply andb_true_iff in H as [H _].
  - intros x r H. unfold work_of, scheduled. by rewrite (evolves_scheduled _ _ x r H), (evolves_annotation x r _ H).
  - intros r stored H. unfold work_of, scheduled. by rewrite (stored_scheduled _ _ r stored H), (stored_annotation r stored _ H).
  - intros producer s l r Hk Hkey Had Hr. apply andb_true_iff in Hr as [_ Hr]. apply String.eqb_eq in Hr.
    destruct (ad_work _ _ _ _ Had) as [_ Hret]. rewrite Hr in Hret. apply count_none in Hret.
    pose proof (count_le (work_of key id) (fun run => annotation run workIDAnnotation =? id) l) as H.
    specialize (H (fun x Hx => proj2 (andb_prop _ _ Hx))). unfold work_of in *. lia.
Qed.

Lemma group_quota key group : group <> "" -> quota admin key (group_of key group) 1.
Proof.
  intros Hg. split.
  - intros r H. apply andb_true_iff in H as [H _]. by apply andb_true_iff in H as [H _].
  - intros x r H Hr. apply andb_true_iff in Hr as [Hr Ha]. apply andb_true_iff. split; [by eapply evolves_active|].
    by rewrite <- (evolves_annotation x r _ H).
  - intros r stored H. unfold group_of. by rewrite (stored_active key r stored H), (stored_annotation r stored _ H).
  - intros producer s l r Hk Hkey Had Hr. apply andb_true_iff in Hr as [_ Hr]. apply String.eqb_eq in Hr.
    pose proof (ad_group _ _ _ _ Had) as Hgrp. rewrite Hr in Hgrp. unfold activeWorkGroupExists in Hgrp.
    apply String.eqb_neq in Hg. rewrite Hg in Hgrp. apply count_none in Hgrp.
    enough (count (group_of key group) l <= 0)%Z by lia. rewrite <- Hgrp. apply count_le. intros x Hx.
    apply andb_true_iff in Hx as [Hx E]. apply andb_true_iff in Hx as [_ Hx]. by rewrite Hx, E.
Qed.
End Quota.

(** At most one run has a property, exactly when two that have it are the
    same. *)
Lemma tally_one P m : (tally P m <= 1)%Z <->
  forall k1 k2 r1 r2, m !! k1 = Some r1 -> m !! k2 = Some r2 -> P r1 = true -> P r2 = true -> k1 = k2.
Proof.
  unfold tally. split.
  - intros H k1 k2 r1 r2 H1 H2 HP1 HP2. apply (size_singleton_inv (holders P m)); try (apply elem_of_holders; eauto).
    destruct (base.size (holders P m)) as [|n] eqn:E; [|lia]. apply size_empty_inv in E. exfalso.
    apply (not_elem_of_empty (C := gset NamespacedName) k1), E, elem_of_holders. eauto.
  - intros H. destruct (Nat.le_gt_cases (base.size (holders P m)) 1) as [Hle|Hgt]; [lia|]. exfalso.
    destruct (size_pos_elem_of (holders P m)) as [k1 Hk1]; [lia|].
    destruct (size_pos_elem_of (holders P m ∖ {[k1]})) as [k2 Hk2].
    + rewrite size_difference by (by intros x ->%elem_of_singleton). rewrite size_singleton. lia.
    + apply elem_of_difference in Hk2 as [Hk2 Hne]. apply elem_of_holders in Hk1 as (r1 & ? & ?), Hk2 as (r2 & ? & ?).
      apply Hne, elem_of_singleton. by eapply H.
Qed.

(** ** What survives *)



(** ** The system *)

Section System.
Context (admin : AgentSchedule -> Prop) (env : string -> string) (owner : ObjectMeta -> ObjectMeta -> result string (list OwnerReference))
  (decode_run : option AgentRun -> json -> option AgentRun) (accounts coordination : bool).
Context (w : cluster) (s : system) (key : NamespacedName).
Hypothesis Hw : cluster_ok admin w.
Hypothesis Hs : reachable admin (requested env owner decode_run accounts coordination) w s.

(** C8: However admissions to a schedule interleave, whatever the API server
    answers and the cluster does in between, the schedule has no more active
    runs than the largest maxParallelism an administrator ever gave it, and
    no principal owns more active runs of it than the largest limit the
    schedule ever set for that principal. *)
Theorem admissions_within_limits M :
  (forall sch, admin sch -> schedule_key sch = key -> (EffectiveMaxParallelism sch <= M)%Z) ->
  (tally (active_of key) (cu_runs w) <= M)%Z ->
  (tally (active_of key) (cu_runs (sy_cluster s)) <= M)%Z
  /\ forall p L,
     (forall sch, admin sch -> schedule_key sch = key -> exists configuration limit,
        sk_PrincipalParallelism (sched_Spec sch) = Some configuration /\ principalParallelismLimit configuration (Some p) = Ok limit
        /\ (limit <= L)%Z) ->
     (tally (owned_of key p) (cu_runs w) <= L)%Z -> (tally (owned_of key p) (cu_runs (sy_cluster s)) <= L)%Z.
Proof.
  intros HM H0. split; [by eapply quota_kept; [apply (capacity_quota admin key M)|..]|].
  intros p L HL HL0. by eapply quota_kept; [apply (principal_quota admin key p L)|..].
Qed.

(** C9: No two runs of a schedule are for the same work, and no two active
    ones for the same group: a producer that submits a piece of work again,
    however often and concurrently, gets no second run while the first is
    retained. *)
Theorem admitted_work_unique id group : group <> "" ->
  (tally (work_of key id) (cu_runs w) <= 1)%Z -> (tally (group_of key group) (cu_runs w) <= 1)%Z ->
  (forall k1 k2 r1 r2, cu_runs (sy_cluster s) !! k1 = Some r1 -> cu_runs (sy_cluster s) !! k2 = Some r2 ->
     work_of key id r1 = true -> work_of key id r2 = true -> k1 = k2)
  /\ (forall k1 k2 r1 r2, cu_runs (sy_cluster s) !! k1 = Some r1 -> cu_runs (sy_cluster s) !! k2 = Some r2 ->
     group_of key group r1 = true -> group_of key group r2 = true -> k1 = k2).
Proof.
  intros Hg H1 H2. split; apply tally_one.
  - by eapply quota_kept; [apply (work_quota admin key id)|..].
  - by eapply quota_kept; [apply (group_quota admin key group Hg)|..].
Qed.


(** C11: Admissions to the same schedule exclude each other, although a lock is
    made for the first of them and thrown away after the last: the table has
    a lock for a schedule exactly when some request refers to it, the lock
    counts those requests, all of them refer to the same lock, and one of
    them at most runs. *)
Theorem admission_locks_exclusive :
  (forall i j l l' p q, sy_threads s !! i = Some (Running key l p) -> sy_threads s !! j = Some (Running key l' q) -> i = j)
  /\ (forall id, sy_table s !! key = Some id <-> exists i t, sy_threads s !! i = Some t /\ refers t = Some (key, id))
  /\ (forall id l, sy_locks s !! id = Some l -> lk_refCount l = count (refs id) (sy_threads s)).
Proof.
  pose proof (reachable_locks _ _ _ _ Hs) as I. split; [|split; [|by apply (li_count s I)]].
  - intros i j l l' p q. by apply (running_alone s i j key).
  - intros id. split; [|by intros (i & t & Hi & Ht); apply (li_refs s I i t)].
    intros H. destruct (li_table s I key id H) as (l & Hl & Hp). rewrite (li_count s I id l Hl) in Hp.
    apply count_some in Hp as (i & t & Hi & Ht). exists i, t. split; [done|]. unfold refs in Ht.
    destruct (refers t) as [[key' id']|] eqn:E; [|done]. apply Nat.eqb_eq in Ht as ->.
    pose proof (li_refs s I i t key' id Hi E) as H'. by rewrite (li_inj s I key key' id H H').
Qed.

(** Every admission is answered: from any reachable state, whichever
    request moves and whatever the servers answer, the requests run out of
    moves only when all of them have their answers, no mutex is held and the
    table of locks is empty. *)
Theorem admissions_answered : inevitable quiescent s.
Proof. by eapply moves_inevitable, reachable_locks. Qed.
End System.

(** ** One admission *)

(** C12: An admission that resolves a principal's account holds one reservation
    at a time, creates a run only under a reservation of the principal that
    will own the run, ends every reservation it began, and never dereferences
    a missing principal: whatever the calls are answered. *)
Theorem reservations_released env owner decode_run accounts coordination request key p :
  ServeHTTP env owner decode_run accounts coordination request = inr (key, p) ->
  safe legit (reserved coordination) hold (fun g r => hd_open g = None /\ r <> Crash) unreserved p.
Proof.
  unfold ServeHTTP. destruct (negb _); [done|]. destruct (parseScheduleAdmissionPath _) as [[ns name]|]; [|done].
  destruct (_ ≫= _) as [[raw admission]|]; [|done]. intros H. injection H as _ <-. apply serve_reserved.
Qed.

(** C14: A comment producer and the operator read each other's messages back.
    The operator decodes the JSON of a profiled request to the request it was
    printed from, and finds it in the shape a profiled admission accepts; the
    producer decodes the operator's answer to the answer it was printed
    from, as long as it is text within the producer's limit. *)
Theorem exchange_roundtrip decode_run :
  (forall r, request_text_ok r = true ->
     exists raw, decode_body decode_run (json_Marshal r) = Some (raw, operator_view r) /\ validateProfiledAdmissionShape raw = true
       /\ (fr_Workflow r = "" -> json_get raw "workflow" = None))
  /\ (forall body, body_fits body = true -> decodeScheduleAdmissionContract (response_text body) = Some (producer_view body)).
Proof. split; [apply operator_decodes|apply producer_decodes]. Qed.

(** C13: What a comment producer concludes from the operator's answer is what
    the operator did, whatever the API server answered in between.  It takes
    a command for submitted only if its run was created; for submitted
    before only if the schedule retains a run of that work or runs one of its
    group; it retries or gives up a command only if no creation was
    attempted; and a creation that succeeded is reported to it. *)
Theorem operator_outcomes_understood env owner decode_run accounts coordination request schedule p raw admission key :
  ServeHTTP env owner decode_run accounts coordination request = inr (schedule, p) ->
  bounded_body (rq_Body request) ≫= decode_body decode_run = Some (raw, admission) ->
  safe legit once tell (agrees admission key) untold p.
Proof.
  unfold ServeHTTP. destruct (negb _); [done|]. destruct (parseScheduleAdmissionPath _) as [[ns name]|]; [|done].
  destruct (_ ≫= _) as [[raw' admission']|]; [|done]. intros H H'. injection H as _ <-. injection H' as _ <-. apply serve_told.
Qed.

(** ** Witnesses *)

Definition op_key : NamespacedName := ("agents", "nightly").

Definition op_after (s : AgentSchedule) : cluster := snd (op_admit (op_cluster s) (op_request "issue-comment-0001")).

Lemma admissions_within_limits_witness :
  (tally (active_of op_key) (cu_runs (op_after op_profiled)) = 1)%Z
  /\ (tally (active_of op_key) (cu_runs (op_after op_profiled)) <= 2)%Z
  /\ (tally (owned_of op_key op_principal) (cu_runs (op_after op_profiled)) <= 1)%Z.
Proof.
  destruct (admissions_within_limits (eq op_profiled) op_env op_owner op_decode false false (op_cluster op_profiled) _ op_key
    (op_cluster_ok op_profiled) (op_reachable op_profiled (op_request "issue-comment-0001") ltac:(vm_compute; reflexivity)) 2) as [H1 H2].
  - intros sch <- _. vm_compute. discriminate.
  - vm_compute. discriminate.
  - split; [vm_compute; reflexivity|]. split; [exact H1|]. apply (H2 op_principal 1%Z).
    + intros sch <- _. exists (mkParallelism 1 []), 1%Z. vm_compute. repeat split; discriminate.
    + vm_compute. discriminate.
Defined.

Lemma admitted_work_unique_witness :
  (tally (work_of op_key "issue-comment-0001") (cu_runs (op_after op_profiled)) = 1)%Z
  /\ (forall k1 k2 r1 r2,
        cu_runs (op_after op_profiled) !! k1 = Some r1 -> cu_runs (op_after op_profiled) !! k2 = Some r2 ->
        work_of op_key "issue-comment-0001" r1 = true -> work_of op_key "issue-comment-0001" r2 = true -> k1 = k2).
Proof.
  split; [vm_compute; reflexivity|].
  apply (admitted_work_unique (eq op_profiled) op_env op_owner op_decode false false (op_cluster op_profiled) _ op_key
    (op_cluster_ok op_profiled) (op_reachable op_profiled (op_request "issue-comment-0001") ltac:(vm_compute; reflexivity))
    "issue-comment-0001" "issue-group-00001"); [discriminate|vm_compute; discriminate..].
Defined.


Lemma admission_locks_exclusive_witness :
  sy_table (op_waiting op_profiled (op_request "issue-comment-0001")) !! op_key = Some 0
  /\ exists i t, sy_threads (op_waiting op_profiled (op_request "issue-comment-0001")) !! i = Some t /\ refers t = Some (op_key, 0).
Proof.
  assert (H : sy_table (op_waiting op_profiled (op_request "issue-comment-0001")) !! op_key = Some 0) by (vm_compute; reflexivity).
  split; [exact H|].
  apply (admission_locks_exclusive (eq op_profiled) op_env op_owner op_decode false false (op_cluster op_profiled) _ op_key
    (op_locked op_profiled (op_request "issue-comment-0001"))). exact H.
Defined.

Lemma admissions_answered_witness : inevitable quiescent (op_waiting op_profiled (op_request "issue-comment-0001")).
Proof.
  apply (admissions_answered (eq op_profiled) op_env op_owner op_decode false false (op_cluster op_profiled)).
  apply op_locked.
Defined.

Lemma reservations_released_witness : match ServeHTTP op_env op_owner op_decode true true (op_request "issue-comment-0001") with
  | inl _ => False
  | inr (_, p) => safe legit (reserved true) hold (fun g r => hd_open g = None /\ r <> Crash) unreserved p
  end.
Proof.
  destruct (ServeHTTP op_env op_owner op_decode true true (op_request "issue-comment-0001")) as [r|[key p]] eqn:E.
  - apply (f_equal (fun x : response + (NamespacedName * program response) => match x with inl _ => true | inr _ => false end)) in E. vm_compute in E. discriminate E.
  - exact (reservations_released _ _ _ _ _ _ _ _ E).
Defined.

Lemma operator_outcomes_understood_witness :
  match ServeHTTP op_env op_owner op_decode true true (op_request "issue-comment-0001"),
        bounded_body (rq_Body (op_request "issue-comment-0001")) ≫= decode_body op_decode with
  | inr (_, p), Some (_, admission) => safe legit once tell (agrees admission "issue-comment-0001") untold p
  | _, _ => False
  end.
Proof.
  destruct (ServeHTTP op_env op_owner op_decode true true (op_request "issue-comment-0001")) as [r|[schedule p]] eqn:E.
  - apply (f_equal (fun x : response + (NamespacedName * program response) => match x with inl _ => true | inr _ => false end)) in E.
    vm_compute in E. discriminate E.
  - destruct (bounded_body _ ≫= decode_body _) as [[raw admission]|] eqn:E'.
    + exact (operator_outcomes_understood _ _ _ _ _ _ _ _ _ _ _ E E').
    + apply (f_equal (fun x => bool_decide (is_Some x))) in E'. vm_compute in E'. discriminate E'.
Defined.

(** ** The provenance of a legacy run

    A legacy producer, which nobody authenticates, sends the run it wants
    created, and with it a provenance: the stored run claims to come from a
    profiled admission for a principal it names. *)
Definition op_forged : AgentRun :=
  mkAgentRun (mkType "" "") no_meta
    (mkRunSpec None no_runtime None "registry/agent:1" None JNull [] "" false false None "" 0 None no_workspace None None (mkRunAgent "" "" "") None None
       (Some (mkProvenance op_producer "nightly" "uid-1" 7 "codex" "" (Some op_principal) None))) no_status.

Definition op_legacy_request : Request :=
  mkRequest "POST" op_url [] "application/json"
    (Some ("{" ++ op_text "work" ++ ":{" ++ op_text "id" ++ ":" ++ op_text "issue-comment-0001" ++ "}," ++ op_text "agentRun" ++ ":{}}")).

Example legacy_provenance_kept :
  match ServeHTTP op_env op_owner (fun _ _ => Some op_forged) false false op_legacy_request with
  | inl _ => False
  | inr (_, p) =>
      let '(r, w) := simulate op_producer (op_cluster op_legacy) p in
      r = Json 201 (mkAdmitResponse true "" (Some ("agents", "nightly-ababababab")))
      /\ (cu_runs w !! ("agents", "nightly-ababababab") ≫= provenance) = provenance op_forged
  end.
Proof. vm_compute. done. Qed.
