(* ===== verification/PortalTypes.v ===== *)
(** * The credential portal: data and documents

    The configuration that the portal's components use, principals and slots
    (config.go of credentialportal), the credential documents a slot accepts
    (adapters.go), the answers of the credential broker (broker_client.go) and
    the authorization codes of an enrollment (enrollment.go). *)
From stdpp Require Import base list strings.
From Stdlib Require Import ZArith Lia Ascii.
From S2P Require Import Prelude GoStrings GoUrl GoJson GoHttp GoEncoding Validation LocalRun.

Local Open Scope Z_scope.
Local Open Scope string_scope.

(** ** config.go *)

Definition AdapterCodexOAuthFile : string := "codex-oauth-file".
Definition AdapterClaudeOAuthFile : string := "claude-oauth-file".
Definition authModeLocal : string := "local".
Definition jsonContentType : string := "application/json".
Definition confirmationReplace : string := "replace".
Definition accountStateRevoked : string := "revoked".
Definition reasonAccountNotFound : string := "account-not-found".

Record PortalPrincipal := mkPortalPrincipal { pl_Issuer : string; pl_Subject : string; pl_DisplayName : string }.

Record Slot := mkSlot {
  sl_Name : string;
  sl_Label : string;
  sl_Owner : PortalPrincipal;
  sl_Adapter : string;
  sl_BrokerProvider : string;
  sl_SecretName : string;
  sl_DataKey : string
}.

Record DynamicCredentialTemplate := mkTemplate { dt_Name : string; dt_Label : string; dt_Adapter : string }.

Record EnrollmentConfig := mkEnrollmentConfig {
  ec_MaxSessions : Z;
  ec_MaxConcurrent : Z;
  ec_TimeoutSeconds : Z;
  ec_MaxOutputBytes : Z;
  ec_ExperimentalCodexDeviceAuth : bool
}.

(** The fields of [Config] that the server reads, [Auth.Mode],
    [RecoveryUpload.Enabled] and [Dynamic] flattened. *)
Record PortalConfig := mkPortalConfig {
  pc_AuthMode : string;
  pc_CallbackPath : string;
  pc_basePath : string;
  pc_publicOrigin : string;
  pc_Namespace : string;
  pc_Slots : list Slot;
  pc_Enrollment : EnrollmentConfig;
  pc_MaxUploadBytes : Z;
  pc_RecoveryUpload : bool;
  pc_Dynamic : bool;
  pc_Templates : list DynamicCredentialTemplate
}.

Definition portal_Path (c : PortalConfig) (suffix : string) : string := pc_basePath c ++ suffix.

Definition Owns (p : PortalPrincipal) (slot : Slot) : bool :=
  (pl_Issuer p =? pl_Issuer (sl_Owner slot)) && (pl_Subject p =? pl_Subject (sl_Owner slot)).

Definition samePrincipal (left right : PortalPrincipal) : bool :=
  (pl_Issuer left =? pl_Issuer right) && (pl_Subject left =? pl_Subject right).

(** ** adapters.go *)

(** No object of the document repeats a key. *)
Fixpoint unique_keys (v : json) : bool :=
  match v with
  | JObject members =>
      (fix unique (seen : list string) (ms : list (string * json)) : bool :=
         match ms with
         | [] => true
         | (k, x) :: ms' => negb (mem k seen) && unique_keys x && unique (k :: seen) ms'
         end) [] members
  | JArray l => forallb unique_keys l
  | _ => true
  end.

(** A bounded document without repeated keys: [json.Valid] and
    [rejectDuplicateJSONKeys], as every caller combines them. *)
Definition strict_document (data : string) : option json :=
  json_document data ≫= fun v => if unique_keys v then Some v else None.

Definition nonemptyString (v : option json) : bool :=
  match v with Some (JString s) => negb (TrimSpace s =? "") | _ => false end.

Definition jwtHasNumericExpiry (token : string) : bool :=
  match Split token "."%char with
  | _ :: part :: _ =>
      let payload := match RawURL_DecodeString part with Some p => Some p | None => URL_DecodeString part end in
      match payload ≫= first_value with
      | Some (JObject claims) =>
          match json_get claims "exp" with
          | Some (JNumber text) => bool_decide (is_Some (parse_int64 text))
          | _ => false
          end
      | _ => false
      end
  | _ => false
  end.

Definition json_member (members : list (string * json)) (key : string) : bool := bool_decide (is_Some (json_get members key)).

(** [ValidateCredential], up to which of its two errors it returns. *)
Definition ValidateCredential (adapter document : string) : bool :=
  match strict_document document with
  | Some (JObject root) =>
      if adapter =? AdapterCodexOAuthFile then
        negb (json_member root "claudeAiOauth") &&
        match json_get root "tokens" with
        | Some (JObject tokens) =>
            nonemptyString (json_get tokens "access_token") && nonemptyString (json_get tokens "refresh_token") &&
            match json_get tokens "access_token" with Some (JString access) => jwtHasNumericExpiry access | _ => false end
        | _ => false
        end
      else if adapter =? AdapterClaudeOAuthFile then
        negb (json_member root "tokens") &&
        match json_get root "claudeAiOauth" with
        | Some (JObject oauth) => nonemptyString (json_get oauth "accessToken") && nonemptyString (json_get oauth "refreshToken")
        | _ => false
        end
      else false
  | _ => false
  end.

(** ** broker_client.go *)

Definition accountStateNotEnrolled : string := "not-enrolled".
Definition accountStateReady : string := "ready".
Definition accountStateUnready : string := "unready".
Definition accountStateUnavailable : string := "unavailable".
Definition reasonBrokerUpdateFailed : string := "broker-update-failed".
Definition reasonBrokerUnavailable : string := "broker-unavailable".

Record DynamicAccountState := mkAccountState { ac_State : string; ac_Template : string; ac_Generation : Z }.

Inductive broker_error : Type :=
| ErrBrokerUnavailable
| ErrBrokerRejected
| brokerOperationError (reason : string).

Definition brokerCompletionReason (e : broker_error) : string :=
  match e with
  | ErrBrokerUnavailable => reasonBrokerUnavailable
  | ErrBrokerRejected => reasonBrokerUpdateFailed
  | brokerOperationError reason =>
      if mem reason ["account-already-enrolled"; "operation-conflict"; "template-switch-not-authorized"] then "account-conflict"
      else if reason =? reasonAccountNotFound then reasonAccountNotFound
      else if mem reason ["provider-initialization-failed"; "unknown-template"] then "credential-rejected"
      else if reason =? "unauthorized" then "broker-authorization-failed"
      else reasonBrokerUpdateFailed
  end.

(** ** enrollment.go *)

Definition maxEnrollmentCodeBytes : Z := 8192.

Definition control_rune (r : Z) : bool := (r <? 0x20)%Z || (r =? 0x7f)%Z.

Definition validEnrollmentCode (code : string) : bool :=
  negb ((code =? "") || (maxEnrollmentCodeBytes <? len code)%Z || negb (ValidString code) || negb (TrimSpace code =? code))
  && all_runes (fun r => negb (control_rune r)) code.
