(* ===== verification/Enrollment.v ===== *)
(** * Enrollments

    [EnrollmentManager] of enrollment.go: the table of enrollment sessions,
    the goroutine that carries one out, and the callers that start, watch, feed
    and cancel them.  Every exported method and [run] is a program whose calls
    are the operations on what goroutines share: the semaphore, a section under
    the manager's mutex, the channel of a session's code, and the services
    (runner, broker, patcher, clock, randomness), which answer as they like.  A
    session is an object that its goroutine points to after the table has
    forgotten it.  The audit log is left out. *)
From stdpp Require Import base list strings gmap.
From Stdlib Require Import ZArith Lia Ascii.
From S2P Require Import Prelude GoStrings GoEncoding LocalRun Program PortalTypes.

Local Open Scope Z_scope.
Local Open Scope go_scope.
Local Open Scope string_scope.

Definition enrollmentStarting : string := "starting".
Definition enrollmentActionRequired : string := "action-required".
Definition enrollmentSucceeded : string := "success".
Definition enrollmentFailed : string := "failure".
Definition enrollmentCancelled : string := "cancelled".
Definition reasonSecretUpdateFailed : string := "secret-update-failed".
Definition dynamicActionEnroll : string := "enroll".
Definition dynamicActionReconnect : string := "reconnect".

Inductive enrollment_error : Type := ErrEnrollmentNotFound | ErrEnrollmentBusy | ErrEnrollmentState | ErrEnrollmentRandom.

Record EnrollmentStatus := mkEnrollmentStatus {
  en_ID : string;
  en_Slot : string;
  en_Adapter : string;
  en_Status : string;
  en_AuthorizationURL : string;
  en_UserCode : string;
  en_Reason : string;
  en_NeedsCode : bool
}.

Record providerAction := mkAction { pa_AuthorizationURL : string; pa_UserCode : string; pa_NeedsCode : bool }.

(** [es_Code] is the channel's buffer of one code, [es_Cancelled] whether the
    session's context was cancelled. *)
Record enrollmentSession := mkEnrollment {
  es_ExpiresAt : time;
  es_EligibilityExpiresAt : time;
  es_TerminalAt : time;
  es_Cancelled : bool;
  es_Code : option string;
  es_Slot : Slot;
  es_Principal : PortalPrincipal;
  es_AuthorizationURL : string;
  es_UserCode : string;
  es_Reason : string;
  es_ID : string;
  es_Status : string;
  es_CancelReason : string;
  es_DynamicAction : string;
  es_OperationID : string;
  es_NeedsCode : bool;
  es_CodeUsed : bool
}.

Definition terminalEnrollmentStatus (status : string) : bool :=
  (status =? enrollmentSucceeded) || (status =? enrollmentFailed) || (status =? enrollmentCancelled).

Definition publicEnrollmentStatus (s : enrollmentSession) : EnrollmentStatus :=
  mkEnrollmentStatus (es_ID s) (sl_Name (es_Slot s)) (sl_Adapter (es_Slot s)) (es_Status s)
    (es_AuthorizationURL s) (es_UserCode s) (es_Reason s) (es_NeedsCode s).

(** ** Sections on one session *)

Definition cancelLocked (reason : string) (s : enrollmentSession) : enrollmentSession :=
  mkEnrollment (es_ExpiresAt s) (es_EligibilityExpiresAt s) (es_TerminalAt s) true (es_Code s) (es_Slot s) (es_Principal s)
    "" "" (es_Reason s) (es_ID s) (es_Status s) reason (es_DynamicAction s) (es_OperationID s) (es_NeedsCode s) (es_CodeUsed s).

Definition publishAction (action : providerAction) (s : enrollmentSession) : enrollmentSession :=
  if terminalEnrollmentStatus (es_Status s) then s
  else
    mkEnrollment (es_ExpiresAt s) (es_EligibilityExpiresAt s) (es_TerminalAt s) (es_Cancelled s) (es_Code s) (es_Slot s) (es_Principal s)
      (pa_AuthorizationURL action) (pa_UserCode action) (es_Reason s) (es_ID s) enrollmentActionRequired (es_CancelReason s)
      (es_DynamicAction s) (es_OperationID s) (pa_NeedsCode action) (es_CodeUsed s).

Definition finishSession (now : time) (status reason : string) (s : enrollmentSession) : enrollmentSession :=
  if terminalEnrollmentStatus (es_Status s) then s
  else
    mkEnrollment (es_ExpiresAt s) (es_EligibilityExpiresAt s) now true (es_Code s) (es_Slot s) (es_Principal s)
      "" "" reason (es_ID s) status (es_CancelReason s) (es_DynamicAction s) (es_OperationID s) (es_NeedsCode s) (es_CodeUsed s).

Definition use_code (s : enrollmentSession) : enrollmentSession :=
  mkEnrollment (es_ExpiresAt s) (es_EligibilityExpiresAt s) (es_TerminalAt s) (es_Cancelled s) (es_Code s) (es_Slot s) (es_Principal s)
    (es_AuthorizationURL s) (es_UserCode s) (es_Reason s) (es_ID s) (es_Status s) (es_CancelReason s) (es_DynamicAction s)
    (es_OperationID s) (es_NeedsCode s) true.

Definition with_code (code : option string) (s : enrollmentSession) : enrollmentSession :=
  mkEnrollment (es_ExpiresAt s) (es_EligibilityExpiresAt s) (es_TerminalAt s) (es_Cancelled s) code (es_Slot s) (es_Principal s)
    (es_AuthorizationURL s) (es_UserCode s) (es_Reason s) (es_ID s) (es_Status s) (es_CancelReason s) (es_DynamicAction s)
    (es_OperationID s) (es_NeedsCode s) (es_CodeUsed s).

(** ** The manager *)

(** [mg_slots] is the number of tokens in the semaphore, [mg_sessions] the
    table, which points into [mg_objects]. *)
Record manager := mkManager {
  mg_config : EnrollmentConfig;
  mg_namespace : string;
  mg_slots : nat;
  mg_sessions : gmap string nat;
  mg_objects : list enrollmentSession
}.

(** [NewEnrollmentManager] *)
Definition NewEnrollmentManager (config : EnrollmentConfig) (namespace : string) : manager := mkManager config namespace 0 ∅ [].

Definition with_slots (m : manager) (slots : nat) : manager :=
  mkManager (mg_config m) (mg_namespace m) slots (mg_sessions m) (mg_objects m).
Definition with_objects (m : manager) (objects : list enrollmentSession) : manager :=
  mkManager (mg_config m) (mg_namespace m) (mg_slots m) (mg_sessions m) objects.
Definition with_sessions (m : manager) (sessions : gmap string nat) : manager :=
  mkManager (mg_config m) (mg_namespace m) (mg_slots m) sessions (mg_objects m).

(** A section on the object behind a pointer. *)
Definition on_object (f : enrollmentSession -> enrollmentSession) (ptr : nat) (m : manager) : manager :=
  with_objects m (alter f ptr (mg_objects m)).

Definition Minute : Z := 60 * Second.

Definition expired (now : time) (objects : list enrollmentSession) (ptr : nat) : bool :=
  match objects !! ptr with
  | Some s => terminalEnrollmentStatus (es_Status s) && (es_TerminalAt s + Minute <? now)%Z
  | None => false
  end.

Definition pruneLocked (now : time) (m : manager) : manager :=
  with_sessions m (filter (fun entry => expired now (mg_objects m) (snd entry) = false) (mg_sessions m)).

(** The session of an identifier, if it is the principal's. *)
Definition owned_session (principal : PortalPrincipal) (id : string) (m : manager) : option (nat * enrollmentSession) :=
  ptr ← mg_sessions m !! id; s ← mg_objects m !! ptr;
  if samePrincipal (es_Principal s) principal then Some (ptr, s) else None.

(** [Status] *)
Definition Status_locked (now : time) (principal : PortalPrincipal) (id : string) (m : manager)
    : result enrollment_error EnrollmentStatus * manager :=
  let m := pruneLocked now m in
  match owned_session principal id m with
  | Some (_, s) => (Ok (publicEnrollmentStatus s), m)
  | None => (Err ErrEnrollmentNotFound, m)
  end.

(** [ProvideCode], up to the unlocking. *)
Definition ProvideCode_locked (principal : PortalPrincipal) (id : string) (m : manager) : result enrollment_error nat * manager :=
  match owned_session principal id m with
  | None => (Err ErrEnrollmentNotFound, m)
  | Some (ptr, s) =>
      if negb (es_Status s =? enrollmentActionRequired) || negb (es_NeedsCode s) || es_CodeUsed s then (Err ErrEnrollmentState, m)
      else (Ok ptr, on_object use_code ptr m)
  end.

(** [Cancel] *)
Definition Cancel_locked (principal : PortalPrincipal) (id : string) (m : manager) : result enrollment_error unit * manager :=
  match owned_session principal id m with
  | None => (Err ErrEnrollmentNotFound, m)
  | Some (ptr, s) =>
      if terminalEnrollmentStatus (es_Status s) || negb (es_CancelReason s =? "") then (Err ErrEnrollmentState, m)
      else (Ok tt, on_object (cancelLocked "cancelled") ptr m)
  end.

Definition cancel_if (chosen : enrollmentSession -> bool) (reason : string) (s : enrollmentSession) : enrollmentSession :=
  if chosen s && negb (terminalEnrollmentStatus (es_Status s)) && (es_CancelReason s =? "") then cancelLocked reason s else s.

(** A loop over the sessions in the table. *)
Definition for_sessions (f : enrollmentSession -> enrollmentSession) (m : manager) : manager :=
  with_objects m (imap (fun ptr s => if bool_decide (ptr ∈ (snd <$> map_to_list (mg_sessions m))) then f s else s) (mg_objects m)).

Definition CancelPrincipal_locked (principal : PortalPrincipal) : manager -> manager :=
  for_sessions (cancel_if (fun s => samePrincipal (es_Principal s) principal) "logout").

(** [Close], before it waits. *)
Definition Close_locked : manager -> manager := for_sessions (cancel_if (fun _ => true) "shutdown").

(** The section of [start]: a new object, in the table if there is room. *)
Definition register_locked (now : time) (session : enrollmentSession) (m : manager) : option (nat * EnrollmentStatus) * manager :=
  let m := pruneLocked now m in
  if (ec_MaxSessions (mg_config m) <=? Z.of_nat (size (mg_sessions m)))%Z then (None, m)
  else
    let ptr := length (mg_objects m) in
    (Some (ptr, publicEnrollmentStatus session),
     with_sessions (with_objects m (mg_objects m ++ [session])) (<[es_ID session := ptr]> (mg_sessions m))).

(** ** Calls *)

Inductive call : Type :=
| AcquireSlot
| ReleaseSlot
| RandomToken (size : Z)
| ReadClock
| Register (now : time) (session : enrollmentSession)
| ReadStatus (principal : PortalPrincipal) (id : string)
| TakeCode (principal : PortalPrincipal) (id : string)
| SendCode (ptr : nat) (code : string)
| CancelOwn (principal : PortalPrincipal) (id : string)
| CancelAll (principal : PortalPrincipal)
| CloseAll
| WaitAll
| RunnerRun (ptr : nat) (id adapter : string)
| ReadCancelReason (ptr : nat)
| CompleteEnrollment (principal : PortalPrincipal) (template operationID document : string) (eligibilityExpiresAt : time)
| Reconnect (principal : PortalPrincipal) (operationID document : string) (eligibilityExpiresAt : time)
| Patch (namespace name key document : string)
| Acknowledge (id : string)
| RunnerCancel (id : string)
| FinishSession (ptr : nat) (status reason : string).

Definition answer (c : call) : Type :=
  match c with
  | AcquireSlot => bool
  | RandomToken _ => option (list Z)
  | ReadClock => time
  | Register _ _ => option (nat * EnrollmentStatus)
  | ReadStatus _ _ => result enrollment_error EnrollmentStatus
  | TakeCode _ _ => result enrollment_error nat
  | CancelOwn _ _ => result enrollment_error unit
  | RunnerRun _ _ _ => string * string
  | ReadCancelReason _ => string
  | CompleteEnrollment _ _ _ _ _ | Reconnect _ _ _ _ => result broker_error unit
  | Patch _ _ _ _ | Acknowledge _ => bool
  | _ => unit
  end.

Inductive reply : Type :=
| Started (r : result enrollment_error EnrollmentStatus)
| StatusOf (r : result enrollment_error EnrollmentStatus)
| Answered (r : result enrollment_error unit)
| Ended.

Abbreviation program := (prog answer).
Abbreviation handler := (early answer reply).

(** ** The goroutine of a session *)

Section Methods.
Variables (config : EnrollmentConfig) (namespace : string).

(** Validation, storing and acknowledgment of a document, with the status and
    the reason they leave. *)
Definition store_document (s : enrollmentSession) (document : string) : program (result string unit) :=
  if negb (ValidateCredential (sl_Adapter (es_Slot s)) document) then Ret (Err "invalid-credential")
  else
    let completed (r : result broker_error unit) : result string unit :=
      match r with Ok _ => Ok tt | Err e => Err (brokerCompletionReason e) end in
    if negb (es_DynamicAction s =? "") then
      if es_DynamicAction s =? dynamicActionEnroll then
        Call (CompleteEnrollment (es_Principal s) (sl_Name (es_Slot s)) (es_OperationID s) document (es_EligibilityExpiresAt s))
          (fun r => Ret (completed r))
      else if es_DynamicAction s =? dynamicActionReconnect then
        Call (Reconnect (es_Principal s) (es_OperationID s) document (es_EligibilityExpiresAt s)) (fun r => Ret (completed r))
      else Ret (completed (Err ErrBrokerRejected))
    else
      Call (Patch namespace (sl_SecretName (es_Slot s)) (sl_DataKey (es_Slot s)) document)
        (fun ok => Ret (if ok : bool then Ok tt else Err reasonSecretUpdateFailed)).

Definition complete (s : enrollmentSession) (document : string) : program (string * string) :=
  pbind (store_document s document) (fun stored =>
    match stored with
    | Err reason => Ret (enrollmentFailed, reason)
    | Ok _ =>
        Call (Acknowledge (es_ID s)) (fun acknowledged =>
          Ret (if acknowledged : bool then (enrollmentSucceeded, "") else (enrollmentFailed, "runner-acknowledgment-failed")))
    end).

(** From the last status on: an unsuccessful run is cancelled at the runner,
    and the token is back before the status is seen. *)
Definition conclude (ptr : nat) (s : enrollmentSession) (outcome : string * string) : program reply :=
  let '(status, reason) := outcome in
  pbind (if negb (status =? enrollmentSucceeded) then perform (RunnerCancel (es_ID s)) else Ret tt) (fun _ =>
    Call ReleaseSlot (fun _ => Call (FinishSession ptr status reason) (fun _ => Ret Ended))).

Definition run (ptr : nat) (s : enrollmentSession) : program reply :=
  Call (RunnerRun ptr (es_ID s) (sl_Adapter (es_Slot s))) (fun '(document, reason) =>
    let status := if reason =? "" then enrollmentSucceeded else enrollmentFailed in
    Call (ReadCancelReason ptr) (fun cancelReason =>
      let '(status, reason) := if cancelReason =? "" then (status, reason) else (enrollmentCancelled, cancelReason) in
      pbind (if status =? enrollmentSucceeded then complete s document else Ret (status, reason)) (conclude ptr s))).

(** ** The exported methods *)

Definition new_session (now authExpiresAt : time) (principal : PortalPrincipal) (slot : Slot) (dynamicAction id operationID : string)
    : enrollmentSession :=
  let deadline := now + ec_TimeoutSeconds config * Second in
  mkEnrollment (Z.min deadline authExpiresAt) authExpiresAt 0 false None slot principal "" "" "" id enrollmentStarting ""
    dynamicAction operationID false false.

Definition start (principal : PortalPrincipal) (slot : Slot) (dynamicAction : string) (authExpiresAt : time) : program reply :=
  let random_failed := Started (Err ErrEnrollmentRandom) in
  Call AcquireSlot (fun acquired =>
    if negb acquired then Ret (Started (Err ErrEnrollmentBusy))
    else Call (RandomToken 32) (fun id =>
      match id with
      | None => Call ReleaseSlot (fun _ => Ret random_failed)
      | Some id =>
          pbind (if dynamicAction =? "" then Ret (Some "") else Call (RandomToken 32) (fun raw : option (list Z) => Ret (base64url <$> raw))) (fun operation =>
            match operation with
            | None => Call ReleaseSlot (fun _ => Ret random_failed)
            | Some operationID =>
                Call ReadClock (fun now =>
                  let session := new_session now authExpiresAt principal slot dynamicAction (base64url id) operationID in
                  if negb (now <? es_ExpiresAt session)%Z then Call ReleaseSlot (fun _ => Ret (Started (Err ErrEnrollmentState)))
                  else Call (Register now session) (fun registered =>
                    match registered with
                    | None => Call ReleaseSlot (fun _ => Ret (Started (Err ErrEnrollmentBusy)))
                    | Some (_, status) => Ret (Started (Ok status))
                    end))
            end)
      end)).

Definition Start (principal : PortalPrincipal) (slot : Slot) (authExpiresAt : time) : program reply :=
  if negb (Owns principal slot) then Ret (Started (Err ErrEnrollmentNotFound)) else start principal slot "" authExpiresAt.

Definition StartDynamic (broker : bool) (principal : PortalPrincipal) (template : DynamicCredentialTemplate) (action : string)
    (authExpiresAt : time) : program reply :=
  if negb broker || (negb (action =? dynamicActionEnroll) && negb (action =? dynamicActionReconnect))
  then Ret (Started (Err ErrEnrollmentState))
  else start principal (mkSlot (dt_Name template) (dt_Label template) principal (dt_Adapter template) "" "" "") action authExpiresAt.

Definition Status (principal : PortalPrincipal) (id : string) : program reply :=
  Call (ReadStatus principal id) (fun r => Ret (StatusOf r)).

Definition ProvideCode (principal : PortalPrincipal) (id code : string) : program reply :=
  if negb (validEnrollmentCode code) then Ret (Answered (Err ErrEnrollmentState))
  else Call (TakeCode principal id) (fun taken =>
    match taken with
    | Err e => Ret (Answered (Err e))
    | Ok ptr => Call (SendCode ptr code) (fun _ => Ret (Answered (Ok tt)))
    end).

Definition Cancel (principal : PortalPrincipal) (id : string) : program reply :=
  Call (CancelOwn principal id) (fun r => Ret (Answered r)).

Definition CancelPrincipal (principal : PortalPrincipal) : program reply := Call (CancelAll principal) (fun _ => Ret (Answered (Ok tt))).

Definition Close : program reply := Call CloseAll (fun _ => Call WaitAll (fun _ => Ret (Answered (Ok tt)))).
End Methods.

(** ** Goroutines

    A thread remembers the calls it made and their answers, and has the rest
    of its program to run. *)

Definition event : Type := {c : call & answer c}.

Inductive kind : Type :=
| Caller
| Goroutine (ptr : nat) (session : enrollmentSession).

Record thread := mkThread { th_kind : kind; th_past : list event; th_rest : program reply }.

Record system := mkSystem { sy_clock : time; sy_manager : manager; sy_threads : list thread }.

Definition is_Ret (p : program reply) : bool := match p with Ret _ => true | Call _ _ => false end.

Definition is_goroutine (t : thread) : bool := match th_kind t with Goroutine _ _ => true | Caller => false end.

(** [m.wg] is zero. *)
Definition goroutines_ended (threads : list thread) : bool := forallb (fun t => negb (is_goroutine t) || is_Ret (th_rest t)) threads.

(** When a call can happen, what it can be answered and what it does.  A send
    waits for room in the channel, [Close] for the goroutines. *)
Definition serves (now : time) (threads : list thread) (m : manager) (c : call) (a : answer c) (m' : manager) : Prop :=
  match c return answer c -> Prop with
  | AcquireSlot => fun a =>
      if a then Z.of_nat (mg_slots m) < ec_MaxConcurrent (mg_config m) /\ m' = with_slots m (S (mg_slots m))
      else ec_MaxConcurrent (mg_config m) <= Z.of_nat (mg_slots m) /\ m' = m
  | ReleaseSlot => fun _ => (0 < mg_slots m)%nat /\ m' = with_slots m (pred (mg_slots m))
  | ReadClock => fun a => a = now /\ m' = m
  | Register t session => fun a => (a, m') = register_locked t session m
  | ReadStatus principal id => fun a => (a, m') = Status_locked now principal id m
  | TakeCode principal id => fun a => (a, m') = ProvideCode_locked principal id m
  | SendCode ptr code => fun _ => (es_Code <$> mg_objects m !! ptr) = Some None /\ m' = on_object (with_code (Some code)) ptr m
  | CancelOwn principal id => fun a => (a, m') = Cancel_locked principal id m
  | CancelAll principal => fun _ => m' = CancelPrincipal_locked principal m
  | CloseAll => fun _ => m' = Close_locked m
  | WaitAll => fun _ => goroutines_ended threads = true /\ m' = m
  | ReadCancelReason ptr => fun a => (es_CancelReason <$> mg_objects m !! ptr) = Some a /\ m' = m
  | FinishSession ptr status reason => fun _ => m' = on_object (finishSession now status reason) ptr m
  | _ => fun _ => m' = m
  end a.

Section System.
Variables (config : EnrollmentConfig) (namespace : string) (broker : bool).

(** The methods that the portal's handlers call. *)
Inductive incoming : program reply -> Prop :=
| in_Start principal slot exp : incoming (Start config principal slot exp)
| in_StartDynamic principal template action exp : incoming (StartDynamic config broker principal template action exp)
| in_Status principal id : incoming (Status principal id)
| in_ProvideCode principal id code : incoming (ProvideCode principal id code)
| in_Cancel principal id : incoming (Cancel principal id)
| in_CancelPrincipal principal : incoming (CancelPrincipal principal)
| in_Close : incoming Close.

(** A registered session has its goroutine. *)
Definition spawned (c : call) (a : answer c) : list thread :=
  match c return answer c -> list thread with
  | Register _ session => fun a =>
      match a with Some (ptr, _) => [mkThread (Goroutine ptr session) [] (run namespace ptr session)] | None => [] end
  | _ => fun _ => []
  end a.

(** A thread makes its call. *)
Inductive served (s : system) : system -> Prop :=
| served_call i kd past c k a m' : sy_threads s !! i = Some (mkThread kd past (Call c k)) ->
    serves (sy_clock s) (sy_threads s) (sy_manager s) c a m' ->
    served s (mkSystem (sy_clock s) m' (<[i := mkThread kd (past ++ [existT c a])%list (k a)]> (sy_threads s) ++ spawned c a)%list).

(** One operation: a call of a thread, what the runner does while it carries
    out a session, time, a new caller. *)
Inductive step (s : system) : system -> Prop :=
| step_call s' : served s s' -> step s s'
| step_publish i kd past ptr id adapter k action : sy_threads s !! i = Some (mkThread kd past (Call (RunnerRun ptr id adapter) k)) ->
    step s (mkSystem (sy_clock s) (on_object (publishAction action) ptr (sy_manager s)) (sy_threads s))
| step_receive i kd past ptr id adapter k : sy_threads s !! i = Some (mkThread kd past (Call (RunnerRun ptr id adapter) k)) ->
    step s (mkSystem (sy_clock s) (on_object (with_code None) ptr (sy_manager s)) (sy_threads s))
| step_tick now : sy_clock s <= now -> step s (mkSystem now (sy_manager s) (sy_threads s))
| step_arrive p : incoming p -> step s (mkSystem (sy_clock s) (sy_manager s) (sy_threads s ++ [mkThread Caller [] p])).

Definition fresh_system (now : time) : system := mkSystem now (NewEnrollmentManager config namespace) [].

Inductive reachable : system -> Prop :=
| reachable_start now : reachable (fresh_system now)
| reachable_step s s' : reachable s -> step s s' -> reachable s'.
End System.

(** ** What a thread did *)

Record ledger := mkLedger {
  lg_holds : bool;
  lg_sending : option nat;
  lg_cancel : option string;
  lg_tried : bool;
  lg_stored : bool;
  lg_acked : bool;
  lg_aborted : bool;
  lg_finished : option string
}.

Definition is_ok {E A} (r : result E A) : bool := match r with Ok _ => true | Err _ => false end.

Definition note (l : ledger) (c : call) (a : answer c) : ledger :=
  let 'mkLedger holds sending cancel tried stored acked aborted finished := l in
  match c return answer c -> ledger with
  | AcquireSlot => fun a => mkLedger a sending cancel tried stored acked aborted finished
  | ReleaseSlot => fun _ => mkLedger false sending cancel tried stored acked aborted finished
  | Register _ _ => fun a => mkLedger (match a with Some _ => false | None => holds end) sending cancel tried stored acked aborted finished
  | TakeCode _ _ => fun a => mkLedger holds (match a with Ok ptr => Some ptr | Err _ => None end) cancel tried stored acked aborted finished
  | SendCode _ _ => fun _ => mkLedger holds None cancel tried stored acked aborted finished
  | ReadCancelReason _ => fun a => mkLedger holds sending (Some a) tried stored acked aborted finished
  | CompleteEnrollment _ _ _ _ _ | Reconnect _ _ _ _ => fun a => mkLedger holds sending cancel true (is_ok a) acked aborted finished
  | Patch _ _ _ _ => fun a => mkLedger holds sending cancel true a acked aborted finished
  | Acknowledge _ => fun a => mkLedger holds sending cancel tried stored a aborted finished
  | RunnerCancel _ => fun _ => mkLedger holds sending cancel tried stored acked true finished
  | FinishSession _ status _ => fun _ => mkLedger holds sending cancel tried stored acked aborted (Some status)
  | _ => fun _ => l
  end a.

(** A session's goroutine starts with the token its starter took. *)
Definition opening (kd : kind) : ledger :=
  mkLedger (match kd with Caller => false | Goroutine _ _ => true end) None None false false false false None.

Definition ledger_of (kd : kind) (past : list event) : ledger := foldl (fun l e => note l (projT1 e) (projT2 e)) (opening kd) past.

Definition th_ledger (t : thread) : ledger := ledger_of (th_kind t) (th_past t).
