(* ===== verification/EnrollmentProps.v ===== *)
(** * Enrollments: the invariant

    What each thread may do, proved of the programs of Enrollment.v, and the
    invariant of the system that follows from it. *)
From stdpp Require Import base list strings gmap.
From Stdlib Require Import ZArith Lia.
From S2P Require Import Prelude GoStrings GoEncoding LocalRun Program PortalTypes Enrollment.

Local Open Scope string_scope.

(** ** What a thread may do *)

Definition any_answer (c : call) (a : answer c) : Prop := True.

(** A session as [start] makes it. *)
Definition fresh_session (s : enrollmentSession) : Prop :=
  Owns (es_Principal s) (es_Slot s) = true /\ es_Status s = enrollmentStarting /\ es_CancelReason s = ""
  /\ es_Code s = None /\ es_CodeUsed s = false.

Definition caller_permitted (l : ledger) (c : call) : Prop :=
  match c with
  | AcquireSlot => lg_holds l = false
  | ReleaseSlot => lg_holds l = true
  | Register _ s => lg_holds l = true /\ fresh_session s
  | TakeCode _ _ => lg_sending l = None
  | SendCode ptr _ => lg_sending l = Some ptr
  | RandomToken _ | ReadClock | ReadStatus _ _ | CancelOwn _ _ | CancelAll _ | CloseAll | WaitAll => True
  | _ => False
  end.

Section Namespace.
Variable namespace : string.

(** A document may be stored once, valid for the adapter, for a session that
    was not cancelled when its runner was done. *)
Definition may_store (s : enrollmentSession) (l : ledger) (document : string) : Prop :=
  ValidateCredential (sl_Adapter (es_Slot s)) document = true /\ lg_cancel l = Some "" /\ lg_tried l = false.

Definition may_finish (l : ledger) (status : string) : Prop :=
  lg_holds l = false /\ terminalEnrollmentStatus status = true
  /\ (status = enrollmentSucceeded -> lg_stored l = true /\ lg_acked l = true)
  /\ (status <> enrollmentSucceeded -> lg_aborted l = true)
  /\ (status = enrollmentCancelled -> lg_tried l = false).

Definition goroutine_permitted (ptr : nat) (s : enrollmentSession) (l : ledger) (c : call) : Prop :=
  lg_finished l = None /\
  match c with
  | RunnerRun p id adapter => p = ptr /\ id = es_ID s /\ adapter = sl_Adapter (es_Slot s)
  | ReadCancelReason p => p = ptr
  | CompleteEnrollment principal template operationID document _ =>
      may_store s l document /\ es_DynamicAction s = dynamicActionEnroll
      /\ principal = es_Principal s /\ template = sl_Name (es_Slot s) /\ operationID = es_OperationID s
  | Reconnect principal operationID document _ =>
      may_store s l document /\ es_DynamicAction s = dynamicActionReconnect /\ principal = es_Principal s /\ operationID = es_OperationID s
  | Patch ns name key document =>
      may_store s l document /\ es_DynamicAction s = "" /\ ns = namespace /\ name = sl_SecretName (es_Slot s) /\ key = sl_DataKey (es_Slot s)
  | Acknowledge id => id = es_ID s /\ lg_stored l = true
  | RunnerCancel id => id = es_ID s
  | ReleaseSlot => lg_holds l = true
  | FinishSession p status _ => p = ptr /\ may_finish l status
  | _ => False
  end.

Definition permitted (kd : kind) : ledger -> call -> Prop :=
  match kd with Caller => caller_permitted | Goroutine ptr s => goroutine_permitted ptr s end.

(** How a thread ends: it holds no token, has no code left to send, and a
    goroutine has finished its session. *)
Definition settled (kd : kind) (l : ledger) (_ : reply) : Prop :=
  lg_holds l = false /\ lg_sending l = None
  /\ match kd with Caller => True | Goroutine _ _ => is_Some (lg_finished l) end.

End Namespace.

Abbreviation keeps namespace kd := (safe any_answer (permitted namespace kd) note (settled kd)).

(** ** The programs keep to it *)

Ltac ledger_cbn := cbn [safe pbind permitted caller_permitted goroutine_permitted note opening is_ok lg_holds lg_sending lg_cancel
  lg_tried lg_stored lg_acked lg_aborted lg_finished].

(** Walks to the next branching of a program. *)
Ltac calls := repeat (ledger_cbn; match goal with
  | |- _ /\ forall _, any_answer _ _ -> _ => split; [repeat split; try done|intros ? _]
  end); ledger_cbn.

Section Goroutines.
Variable namespace : string.

Lemma finish_safe ptr s l status reason :
  lg_holds l = true -> lg_sending l = None -> lg_finished l = None -> terminalEnrollmentStatus status = true ->
  (status = enrollmentSucceeded -> lg_stored l = true /\ lg_acked l = true) ->
  (status = enrollmentCancelled -> lg_tried l = false) ->
  keeps namespace (Goroutine ptr s) l (conclude ptr s (status, reason)).
Proof.
  intros Hh Hs Hf Ht Hok Hc. unfold conclude. destruct l as [holds sending cancel tried stored acked aborted finished]. cbn in *. subst.
  destruct (String.eqb_spec status enrollmentSucceeded) as [->|Hne]; cbn [negb perform pbind].
  - destruct (Hok eq_refl) as [-> ->]. calls. done.
  - calls. done.
Qed.

(** The ledger of a goroutine before it stores. *)
Definition before_storing (cancel : string) : ledger := mkLedger true None (Some cancel) false false false false None.

(** Still to be finished. *)
Definition unfinished (l : ledger) : Prop := lg_holds l = true /\ lg_sending l = None /\ lg_finished l = None.

Definition after_storing (l : ledger) (r : result string unit) : Prop :=
  match r with Ok _ => l = mkLedger true None (Some "") true true false false None | Err _ => unfinished l end.

Lemma store_safe ptr s document :
  safe any_answer (permitted namespace (Goroutine ptr s)) note after_storing (before_storing "") (store_document namespace s document).
Proof.
  unfold store_document. destruct (ValidateCredential _ _) eqn:Hv; cbn [negb]; [|by repeat split].
  destruct (String.eqb_spec (es_DynamicAction s) "") as [E|_]; cbn [negb].
  - unfold before_storing. calls. by destruct r.
  - destruct (String.eqb_spec (es_DynamicAction s) dynamicActionEnroll); [|destruct (String.eqb_spec (es_DynamicAction s) dynamicActionReconnect)];
      unfold before_storing; calls; first [by repeat split|by destruct r as [[]|]].
Qed.

Lemma run_safe ptr s : keeps namespace (Goroutine ptr s) (opening (Goroutine ptr s)) (run namespace ptr s).
Proof.
  unfold run. calls. destruct r as [document reason]. calls.
  change (mkLedger true None (Some r) false false false false None) with (before_storing r).
  destruct (String.eqb_spec r "") as [->|Hr]; [|by apply finish_safe].
  destruct (String.eqb_spec reason "") as [->|Hne]; [|by apply finish_safe].
  apply safe_bind. unfold complete. apply safe_bind. eapply safe_mono; [|apply store_safe].
  intros l [u|e]; cbn [after_storing].
  - intros ->. calls. destruct r; cbn [conclude]; by apply finish_safe.
  - intros (H1 & H2 & H3). by apply finish_safe.
Qed.
End Goroutines.

Lemma start_safe config namespace principal slot action exp : Owns principal slot = true ->
  keeps namespace Caller (opening Caller) (start config principal slot action exp).
Proof.
  intros Hown. unfold start. calls. destruct r; cbn [negb]; [|done]. calls. destruct r as [id|]; [|calls; done].
  apply safe_bind.
  apply (safe_mono _ _ _ (fun l _ => l = mkLedger true None None false false false false None)).
  - intros l operation ->. destruct operation as [op|]; [|calls; done]. calls. destruct (_ <? _)%Z; cbn [negb]; [|calls; done].
    calls. destruct r0 as [[ptr st]|]; [done|calls; done].
  - destruct (action =? ""); [done|]. calls. done.
Qed.

Lemma incoming_safe config namespace broker p : incoming config broker p ->
  keeps namespace Caller (opening Caller) p.
Proof.
  intros H. destruct H; unfold Start, StartDynamic, Status, ProvideCode, Cancel, CancelPrincipal, Close.
  - destruct (Owns _ _) eqn:Ho; cbn [negb]; [by apply start_safe|done].
  - destruct (negb broker || _); [done|]. apply start_safe. unfold Owns. cbn. by rewrite !String.eqb_refl.
  - calls. done.
  - destruct (validEnrollmentCode code); cbn [negb]; [|done]. calls. destruct r as [ptr|e]; calls; done.
  - calls. done.
  - calls. done.
  - calls. done.
Qed.

(** ** The invariant *)

(** What never changes of a session. *)
Definition same_session (x y : enrollmentSession) : Prop :=
  es_ID y = es_ID x /\ es_Slot y = es_Slot x /\ es_Principal y = es_Principal x /\ es_DynamicAction y = es_DynamicAction x
  /\ es_OperationID y = es_OperationID x.

(** A status moves among the ones that are not terminal, or stays. *)
Definition status_kept (x y : enrollmentSession) : Prop :=
  if terminalEnrollmentStatus (es_Status x) then es_Status y = es_Status x else terminalEnrollmentStatus (es_Status y) = false.

(** A session has the status its goroutine gave it. *)
Definition status_of (l : ledger) (x : enrollmentSession) : Prop :=
  match lg_finished l with Some status => es_Status x = status | None => terminalEnrollmentStatus (es_Status x) = false end.

Definition ledger_ok (kd : kind) (l : ledger) : Prop :=
  match kd, lg_finished l with Goroutine _ _, Some status => may_finish l status | _, _ => True end.

Definition holds (t : thread) : bool := lg_holds (th_ledger t).

Section Invariant.
Variables (config : EnrollmentConfig) (namespace : string) (broker : bool).

(** Every call of the past was permitted when it was made. *)
Definition past_ok (kd : kind) (past : list event) : Prop :=
  forall before e after, past = (before ++ e :: after)%list -> permitted namespace kd (ledger_of kd before) (projT1 e).

Definition thread_ok (t : thread) : Prop :=
  keeps namespace (th_kind t) (th_ledger t) (th_rest t) /\ past_ok (th_kind t) (th_past t) /\ ledger_ok (th_kind t) (th_ledger t).

Record enrollment_inv (s : system) : Prop := {
  ei_threads : forall i t, sy_threads s !! i = Some t -> thread_ok t;
  ei_config : mg_config (sy_manager s) = config;
  ei_slots : Z.of_nat (mg_slots (sy_manager s)) = count holds (sy_threads s);
  ei_capacity : (Z.of_nat (mg_slots (sy_manager s)) <= Z.max 0 (ec_MaxConcurrent config))%Z;
  ei_sessions : (Z.of_nat (size (mg_sessions (sy_manager s))) <= Z.max 0 (ec_MaxSessions config))%Z;
  ei_goroutine : forall i t ptr s0, sy_threads s !! i = Some t -> th_kind t = Goroutine ptr s0 ->
    exists x, mg_objects (sy_manager s) !! ptr = Some x /\ same_session s0 x /\ Owns (es_Principal x) (es_Slot x) = true
      /\ status_of (th_ledger t) x;
  ei_unique : forall i j t t' ptr s0 s0', sy_threads s !! i = Some t -> sy_threads s !! j = Some t' ->
    th_kind t = Goroutine ptr s0 -> th_kind t' = Goroutine ptr s0' -> i = j;
  ei_object : forall ptr x, mg_objects (sy_manager s) !! ptr = Some x ->
    exists i t s0, sy_threads s !! i = Some t /\ th_kind t = Goroutine ptr s0;
  ei_table : forall id ptr, mg_sessions (sy_manager s) !! id = Some ptr ->
    exists x, mg_objects (sy_manager s) !! ptr = Some x /\ es_ID x = id;
  ei_sender : forall i t ptr, sy_threads s !! i = Some t -> lg_sending (th_ledger t) = Some ptr ->
    exists x, mg_objects (sy_manager s) !! ptr = Some x /\ es_CodeUsed x = true /\ es_Code x = None;
  ei_senders : forall i j t t' ptr, sy_threads s !! i = Some t -> sy_threads s !! j = Some t' ->
    lg_sending (th_ledger t) = Some ptr -> lg_sending (th_ledger t') = Some ptr -> i = j;
  ei_code : forall ptr x, mg_objects (sy_manager s) !! ptr = Some x -> es_CodeUsed x = false -> es_Code x = None
}.

Lemma inv_fresh now : enrollment_inv (fresh_system config namespace now).
Proof.
  split; cbn; try (intros; rewrite ?lookup_nil, ?lookup_empty in *; done); try done; try lia.
  rewrite map_size_empty. lia.
Qed.

(** A step that changes one thread and, by [f], the objects. *)
Section Frame.
Context (s : system) (i : nat) (t t' : thread) (now : time) (m' : manager) (f : nat -> enrollmentSession -> enrollmentSession).
Hypothesis (I : enrollment_inv s) (Ht : sy_threads s !! i = Some t) (Hkind : th_kind t' = th_kind t) (Hok : thread_ok t').
Hypothesis (Hconfig : mg_config m' = mg_config (sy_manager s)).
Hypothesis Hslots : Z.of_nat (mg_slots m') =
  (Z.of_nat (mg_slots (sy_manager s)) - (if holds t then 1 else 0) + (if holds t' then 1 else 0))%Z.
Hypothesis Hcapacity : (Z.of_nat (mg_slots m') <= Z.max 0 (ec_MaxConcurrent config))%Z.
Hypothesis (Hsessions : mg_sessions m' ⊆ mg_sessions (sy_manager s)).
Hypothesis (Hobjects : mg_objects m' = imap f (mg_objects (sy_manager s))).
Hypothesis (Hsame : forall p x, same_session x (f p x)).
Hypothesis Hown : forall p x s0, mg_objects (sy_manager s) !! p = Some x -> th_kind t = Goroutine p s0 ->
  status_of (th_ledger t) x -> status_of (th_ledger t') (f p x).
Hypothesis Hkept : forall p x, (forall s0, th_kind t <> Goroutine p s0) -> status_kept x (f p x).
Hypothesis Hsending : forall p, lg_sending (th_ledger t') = Some p ->
  exists x, mg_objects (sy_manager s) !! p = Some x /\ es_CodeUsed (f p x) = true /\ es_Code (f p x) = None
    /\ (lg_sending (th_ledger t) = Some p \/ es_CodeUsed x = false).
Hypothesis Hother : forall p x, lg_sending (th_ledger t) <> Some p -> es_CodeUsed x = true -> es_Code x = None ->
  es_CodeUsed (f p x) = true /\ es_Code (f p x) = None.
Hypothesis Hcode : forall p x, mg_objects (sy_manager s) !! p = Some x -> es_CodeUsed (f p x) = false -> es_CodeUsed x = false /\ es_Code (f p x) = es_Code x.

Lemma frame_lookup j x : <[i := t']> (sy_threads s) !! j = Some x -> (j = i /\ x = t') \/ (j <> i /\ sy_threads s !! j = Some x).
Proof.
  intros H. destruct (decide (j = i)) as [->|Hne]; [left|right].
  - rewrite list_lookup_insert_eq in H by by eapply lookup_lt_Some. by injection H as <-.
  - by rewrite list_lookup_insert_ne in H.
Qed.

(** What was before a thread of the new system. *)
Lemma frame_kind j x : <[i := t']> (sy_threads s) !! j = Some x -> exists y, sy_threads s !! j = Some y /\ th_kind x = th_kind y.
Proof. intros [[-> ->]|[_ H]]%frame_lookup; eauto. Qed.

Lemma frame_object p x : mg_objects m' !! p = Some x -> exists y, mg_objects (sy_manager s) !! p = Some y /\ x = f p y.
Proof. rewrite Hobjects, list_lookup_imap. destruct (_ !! p) as [y|]; [|done]. intros [= <-]. eauto. Qed.

Lemma object_frame p y : mg_objects (sy_manager s) !! p = Some y -> mg_objects m' !! p = Some (f p y).
Proof. intros H. by rewrite Hobjects, list_lookup_imap, H. Qed.

Lemma same_trans x y z : same_session x y -> same_session y z -> same_session x z.
Proof. unfold same_session. intuition congruence. Qed.

Lemma status_kept_of kd l x y : ledger_ok kd l -> (exists p s0, kd = Goroutine p s0) -> status_kept x y -> status_of l x -> status_of l y.
Proof.
  unfold ledger_ok, status_kept, status_of. intros Hl (p & s0 & ->). destruct (lg_finished l) as [status|].
  - destruct Hl as (_ & Hterm & _). intros Hk <-. by rewrite Hterm in Hk.
  - intros Hk Hx. by rewrite Hx in Hk.
Qed.

Lemma inv_frame : enrollment_inv (mkSystem now m' (<[i := t']> (sy_threads s))).
Proof.
  pose proof (lookup_lt_Some _ _ _ Ht) as Hlt. split; cbn.
  - intros j x [[-> ->]|[_ H]]%frame_lookup; [done|by eapply (ei_threads s I)].
  - rewrite Hconfig. apply (ei_config s I).
  - rewrite (count_insert holds _ _ _ _ Ht), <- (ei_slots s I). lia.
  - done.
  - pose proof (ei_sessions s I). pose proof (map_subseteq_size _ _ Hsessions). lia.
  - intros j x p s0 Hj Hx. pose proof (frame_kind j x Hj) as (y & Hy & Hk). rewrite Hx in Hk.
    destruct (ei_goroutine s I j y p s0 Hy (eq_sym Hk)) as (o & Ho & Hs & Hw & Hst).
    exists (f p o). pose proof (Hsame p o) as Hso. split; [by apply object_frame|]. split; [by eapply same_trans|].
    split. { destruct Hso as (_ & -> & -> & _). done. }
    destruct (frame_lookup j x Hj) as [[-> ->]|[Hne Hj']].
    + rewrite Ht in Hy. injection Hy as <-. by eapply Hown.
    + rewrite Hj' in Hy. injection Hy as <-. pose proof (ei_threads s I j x Hj') as (_ & _ & Hl).
      eapply status_kept_of; [exact Hl|eauto| |done]. apply Hkept. intros s1 Hs1. apply Hne.
      eapply (ei_unique s I j i); eauto.
  - intros j k x y p s0 s0' Hj Hk Hx Hy. pose proof (frame_kind j x Hj) as (x' & Hx' & E). pose proof (frame_kind k y Hk) as (y' & Hy' & E').
    apply (ei_unique s I j k x' y' p s0 s0'); congruence.
  - intros p x Hp. destruct (frame_object p x Hp) as (y & Hy & _). destruct (ei_object s I p y Hy) as (j & z & s0 & Hj & Hz).
    destruct (decide (j = i)) as [->|Hne].
    + exists i, t', s0. rewrite Ht in Hj. injection Hj as <-. split; [by apply list_lookup_insert_eq|congruence].
    + exists j, z, s0. by rewrite list_lookup_insert_ne.
  - intros id p Hp. pose proof (lookup_weaken _ _ _ _ Hp Hsessions) as Hp'. destruct (ei_table s I id p Hp') as (x & Hx & Hid).
    exists (f p x). split; [by apply object_frame|]. destruct (Hsame p x) as [-> _]. done.
  - intros j x p [[-> ->]|[Hne Hj]]%frame_lookup Hx.
    + destruct (Hsending p Hx) as (o & Ho & H1 & H2 & _). exists (f p o). split; [by apply object_frame|done].
    + destruct (ei_sender s I j x p Hj Hx) as (o & Ho & H1 & H2). exists (f p o). split; [by apply object_frame|].
      apply Hother; [|done..]. intros Hs. apply Hne. eapply (ei_senders s I); eauto.
  - assert (Hnew : forall j x p, j <> i -> sy_threads s !! j = Some x -> lg_sending (th_ledger x) = Some p -> lg_sending (th_ledger t') = Some p -> False).
    { intros j x p Hne Hj Hx Hs. destruct (Hsending p Hs) as (o & Ho & _ & _ & [H|H]).
      - apply Hne. eapply (ei_senders s I); eauto.
      - destruct (ei_sender s I j x p Hj Hx) as (o' & Ho' & H1 & _). congruence. }
    intros j k x y p [[-> ->]|[Hne Hj]]%frame_lookup [[-> ->]|[Hne' Hk]]%frame_lookup Hx Hy; [done| | |].
    + by destruct (Hnew k y p).
    + by destruct (Hnew j x p).
    + eapply (ei_senders s I); eauto.
  - intros p x Hp Hu. destruct (frame_object p x Hp) as (y & Hy & ->). destruct (Hcode p y Hy Hu) as [H1 ->].
    by eapply (ei_code s I).
Qed.
End Frame.

(** *** Threads *)

Lemma ledger_snoc kd past c a : ledger_of kd (past ++ [existT c a])%list = note (ledger_of kd past) c a.
Proof. unfold ledger_of. by rewrite foldl_app. Qed.

Lemma note_finished l c a : lg_finished (note l c a) = match c with FinishSession _ status _ => Some status | _ => lg_finished l end.
Proof. by destruct l, c. Qed.

Lemma note_sending l c a : lg_sending (note l c a) =
  match c return answer c -> option nat with
  | TakeCode _ _ => fun a => match a with Ok ptr => Some ptr | Err _ => None end
  | SendCode _ _ => fun _ => None
  | _ => fun _ => lg_sending l
  end a.
Proof. by destruct l, c. Qed.

Lemma note_holds l c a : lg_holds (note l c a) =
  match c return answer c -> bool with
  | AcquireSlot => fun a => a
  | ReleaseSlot => fun _ => false
  | Register _ _ => fun a => match a with Some _ => false | None => lg_holds l end
  | _ => fun _ => lg_holds l
  end a.
Proof. by destruct l, c. Qed.

(** Nothing follows the end of a session. *)
Lemma ledger_ok_note kd l c a : permitted namespace kd l c -> ledger_ok kd (note l c a).
Proof.
  destruct kd as [|ptr s0]; cbn [permitted]; unfold ledger_ok; [done|]. rewrite note_finished.
  intros [Hf Hc]. destruct c; cbn in *; rewrite ?Hf; try done. destruct Hc as [_ (H1 & H2 & H3 & H4 & H5)].
  destruct l. unfold may_finish. cbn in *. tauto.
Qed.

Lemma thread_ok_permitted kd past c k : thread_ok (mkThread kd past (Call c k)) -> permitted namespace kd (ledger_of kd past) c.
Proof. intros ([H _] & _). exact H. Qed.

Lemma goes_on_ok kd past c k a : thread_ok (mkThread kd past (Call c k)) -> thread_ok (mkThread kd (past ++ [existT c a])%list (k a)).
Proof.
  intros Hok. pose proof (thread_ok_permitted _ _ _ _ Hok) as Hp. destruct Hok as (Hs & Hpast & Hl). unfold thread_ok, th_ledger in *; cbn [th_kind th_past th_rest] in *.
  rewrite ledger_snoc. split; [by apply Hs|]. split; [|by apply ledger_ok_note].
  intros before e after E. destruct after as [|e' after'] using rev_ind.
  - apply app_inj_tail in E as [-> <-]. done.
  - rewrite app_comm_cons, app_assoc in E. apply app_inj_tail in E as [-> _]. by eapply Hpast.
Qed.

(** *** Objects *)

(** An update that concerns neither the end nor the code of a session. *)
Definition gentle (f : nat -> enrollmentSession -> enrollmentSession) : Prop :=
  forall p x, same_session x (f p x) /\ status_kept x (f p x) /\ es_CodeUsed (f p x) = es_CodeUsed x /\ es_Code (f p x) = es_Code x.

Lemma same_refl x : same_session x x.
Proof. by repeat split. Qed.

Lemma kept_refl x : status_kept x x.
Proof. unfold status_kept. by destruct (terminalEnrollmentStatus _) eqn:E. Qed.

Lemma gentle_id : gentle (fun _ x => x).
Proof. intros p x. split; [apply same_refl|]. split; [apply kept_refl|done]. Qed.

Lemma imap_same {A} (l : list A) : imap (fun _ x => x) l = l.
Proof. apply list_eq. intros i. rewrite list_lookup_imap. by destruct (l !! i). Qed.

Definition at_ptr (g : enrollmentSession -> enrollmentSession) (ptr p : nat) (x : enrollmentSession) : enrollmentSession :=
  if decide (p = ptr) then g x else x.

Lemma alter_imap g ptr l : alter g ptr l = imap (at_ptr g ptr) l.
Proof.
  apply list_eq. intros i. rewrite list_lookup_imap. unfold at_ptr. destruct (decide (i = ptr)) as [->|Hne].
  - by rewrite list_lookup_alter_eq.
  - rewrite list_lookup_alter_ne by done. by destruct (l !! i).
Qed.

Lemma gentle_at g ptr : gentle (fun _ => g) -> gentle (at_ptr g ptr).
Proof. intros H p x. unfold at_ptr. destruct (decide _); [apply (H p)|apply gentle_id; exact p]. Qed.

Lemma gentle_if (b : nat -> bool) g : gentle (fun _ => g) -> gentle (fun p x => if b p then g x else x).
Proof. intros H p x. destruct (b p); [apply (H p)|apply gentle_id; exact p]. Qed.

Lemma gentle_cancel reason : gentle (fun _ => cancelLocked reason).
Proof. intros p x. split; [by repeat split|]. split; [|done]. unfold status_kept. cbn. by destruct (terminalEnrollmentStatus _) eqn:E. Qed.

Lemma gentle_cancel_if chosen reason : gentle (fun _ => cancel_if chosen reason).
Proof. intros p x. unfold cancel_if. destruct (_ && _); [apply gentle_cancel; exact p|apply gentle_id; exact p]. Qed.

Lemma gentle_publish action : gentle (fun _ => publishAction action).
Proof.
  intros p x. unfold publishAction. destruct (terminalEnrollmentStatus _) eqn:E; [apply gentle_id; exact p|].
  split; [by repeat split|]. split; [|done]. unfold status_kept. by rewrite E.
Qed.

Lemma inv_gentle s i t t' now m' f : enrollment_inv s -> sy_threads s !! i = Some t -> th_kind t' = th_kind t -> thread_ok t' ->
  gentle f -> mg_config m' = mg_config (sy_manager s) ->
  Z.of_nat (mg_slots m') = (Z.of_nat (mg_slots (sy_manager s)) - (if holds t then 1 else 0) + (if holds t' then 1 else 0))%Z ->
  (Z.of_nat (mg_slots m') <= Z.max 0 (ec_MaxConcurrent config))%Z ->
  mg_sessions m' ⊆ mg_sessions (sy_manager s) -> mg_objects m' = imap f (mg_objects (sy_manager s)) ->
  lg_sending (th_ledger t') = lg_sending (th_ledger t) -> lg_finished (th_ledger t') = lg_finished (th_ledger t) ->
  enrollment_inv (mkSystem now m' (<[i := t']> (sy_threads s))).
Proof.
  intros I Ht Hk Hok Hf Hc Hs Hcap Hsub Hobj Hsend Hfin. apply (inv_frame s i t t' now m' f I Ht Hk Hok Hc Hs Hcap Hsub Hobj).
  - intros p x. apply Hf.
  - intros p x s0 Hx Ho Hst. destruct (Hf p x) as (_ & Hkept & _). unfold status_of. rewrite Hfin.
    apply (status_kept_of (th_kind t) _ x); [|eauto|done|done]. by apply (ei_threads s I i t).
  - intros p x _. apply Hf.
  - intros p Hp. rewrite Hsend in Hp. destruct (ei_sender s I i t p Ht Hp) as (x & Hx & H1 & H2). exists x.
    destruct (Hf p x) as (_ & _ & E1 & E2). rewrite E1, E2. auto.
  - intros p x _ H1 H2. destruct (Hf p x) as (_ & _ & -> & ->). done.
  - intros p x _. destruct (Hf p x) as (_ & _ & -> & ->). done.
Qed.

(** *** Steps *)

Lemma owned_session_Some principal id m ptr x : owned_session principal id m = Some (ptr, x) ->
  mg_sessions m !! id = Some ptr /\ mg_objects m !! ptr = Some x /\ samePrincipal (es_Principal x) principal = true.
Proof.
  unfold owned_session. destruct (_ !! id) as [p|] eqn:H1; [|done]. cbn. destruct (_ !! p) as [y|] eqn:H2; [|done]. cbn.
  destruct (samePrincipal _ _) eqn:H3; [|done]. by intros [= <- <-].
Qed.

(** The calls, by what they do: nothing here of interest, a token, the table,
    the objects. *)
Section Calls.
Context (s : system) (i : nat) (kd : kind) (past : list event) (c : call) (k : answer c -> program reply) (a : answer c) (m' : manager).
Hypothesis (I : enrollment_inv s) (Ht : sy_threads s !! i = Some (mkThread kd past (Call c k))).

Abbreviation t := (mkThread kd past (Call c k)).
Abbreviation t' := (mkThread kd (past ++ [existT c a])%list (k a)).
Abbreviation after := (mkSystem (sy_clock s) m' (<[i := t']> (sy_threads s))).
Abbreviation l := (ledger_of kd past).

Lemma call_ok : thread_ok t'.
Proof. eapply goes_on_ok, (ei_threads s I), Ht. Qed.

Lemma call_permitted : permitted namespace kd l c.
Proof. eapply thread_ok_permitted, (ei_threads s I), Ht. Qed.

Lemma call_ledger : th_ledger t' = note l c a.
Proof. apply ledger_snoc. Qed.

Lemma call_gentle f : gentle f -> mg_config m' = mg_config (sy_manager s) -> mg_slots m' = mg_slots (sy_manager s) ->
  mg_sessions m' ⊆ mg_sessions (sy_manager s) -> mg_objects m' = imap f (mg_objects (sy_manager s)) ->
  lg_holds (note l c a) = lg_holds l -> lg_sending (note l c a) = lg_sending l -> lg_finished (note l c a) = lg_finished l ->
  enrollment_inv after.
Proof.
  intros Hf Hc Hs Hsub Hobj H1 H2 H3.
  assert (E : holds t' = holds t) by (unfold holds; rewrite call_ledger; exact H1).
  apply (inv_gentle s i t t' _ m' f I Ht eq_refl call_ok Hf Hc); [|rewrite Hs; apply (ei_capacity s I)|done..|by rewrite call_ledger|by rewrite call_ledger].
  rewrite Hs, E. lia.
Qed.

Lemma call_idle : m' = sy_manager s ->
  lg_holds (note l c a) = lg_holds l -> lg_sending (note l c a) = lg_sending l -> lg_finished (note l c a) = lg_finished l ->
  enrollment_inv after.
Proof.
  intros E H1 H2 H3. apply (call_gentle (fun _ x => x)); try (by rewrite E); [apply gentle_id|by rewrite E, imap_same|done..].
Qed.

Lemma call_object g ptr : gentle (fun _ => g) -> m' = on_object g ptr (sy_manager s) ->
  lg_holds (note l c a) = lg_holds l -> lg_sending (note l c a) = lg_sending l -> lg_finished (note l c a) = lg_finished l ->
  enrollment_inv after.
Proof.
  intros Hg E H1 H2 H3. apply (call_gentle (at_ptr g ptr)); try (by rewrite E); [by apply gentle_at|rewrite E; apply alter_imap|done..].
Qed.

(** The token of the semaphore. *)
Lemma call_slots slots : m' = with_slots (sy_manager s) slots ->
  Z.of_nat slots = (Z.of_nat (mg_slots (sy_manager s)) - (if lg_holds l then 1 else 0) + (if lg_holds (note l c a) then 1 else 0))%Z ->
  (Z.of_nat slots <= Z.max 0 (ec_MaxConcurrent config))%Z ->
  lg_sending (note l c a) = lg_sending l -> lg_finished (note l c a) = lg_finished l -> enrollment_inv after.
Proof.
  intros E Hs Hcap H2 H3. rewrite E.
  apply (inv_gentle s i t t' _ (with_slots (sy_manager s) slots) (fun _ x => x) I Ht eq_refl call_ok gentle_id eq_refl); cbn [with_slots mg_slots mg_sessions mg_objects];
    [|done|done|by rewrite imap_same|by rewrite call_ledger|by rewrite call_ledger].
  unfold holds. rewrite call_ledger. exact Hs.
Qed.

(** The channel of a code and the end of a session. *)
Lemma call_on_object g ptr : m' = on_object g ptr (sy_manager s) -> (forall x, same_session x (g x)) ->
  lg_holds (note l c a) = lg_holds l ->
  (forall x s0, mg_objects (sy_manager s) !! ptr = Some x -> kd = Goroutine ptr s0 -> status_of l x -> status_of (note l c a) (g x)) ->
  (forall p x s0, p <> ptr -> kd = Goroutine p s0 -> status_of l x -> status_of (note l c a) x) ->
  (forall x, (forall s0, kd <> Goroutine ptr s0) -> status_kept x (g x)) ->
  (forall p, lg_sending (note l c a) = Some p -> exists x, mg_objects (sy_manager s) !! p = Some x
     /\ es_CodeUsed (at_ptr g ptr p x) = true /\ es_Code (at_ptr g ptr p x) = None /\ (lg_sending l = Some p \/ es_CodeUsed x = false)) ->
  (forall x, lg_sending l <> Some ptr -> es_CodeUsed x = true -> es_Code x = None -> es_CodeUsed (g x) = true /\ es_Code (g x) = None) ->
  (forall x, mg_objects (sy_manager s) !! ptr = Some x -> es_CodeUsed (g x) = false -> es_CodeUsed x = false /\ es_Code (g x) = es_Code x) ->
  enrollment_inv after.
Proof.
  intros Hm Hsame Hh Hown1 Hown2 Hkept Hsend Hother Hcode. rewrite Hm.
  assert (E : holds t' = holds t) by (unfold holds; rewrite call_ledger; exact Hh).
  apply (inv_frame s i t t' _ (on_object g ptr (sy_manager s)) (at_ptr g ptr) I Ht eq_refl call_ok); cbn [on_object with_objects mg_config mg_slots mg_sessions mg_objects].
  - done.
  - rewrite E. lia.
  - apply (ei_capacity s I).
  - done.
  - apply alter_imap.
  - intros p x. unfold at_ptr. destruct (decide _); [apply Hsame|apply same_refl].
  - intros p x s0 Hx Hk Hst. unfold at_ptr. rewrite call_ledger. destruct (decide (p = ptr)) as [->|Hne]; [by eapply Hown1|by eapply Hown2].
  - intros p x Hk. unfold at_ptr. destruct (decide (p = ptr)) as [->|]; [by apply Hkept|apply kept_refl].
  - intros p. rewrite call_ledger. apply Hsend.
  - intros p x Hs H1 H2. unfold at_ptr. destruct (decide (p = ptr)) as [->|]; [by apply Hother|done].
  - intros p x Hx. unfold at_ptr. destruct (decide (p = ptr)) as [->|]; [by apply Hcode|done].
Qed.
End Calls.

Lemma prune_sessions now m : mg_sessions (pruneLocked now m) ⊆ mg_sessions m.
Proof. apply map_filter_subseteq. Qed.

Lemma loop_imap f m : mg_objects (for_sessions f m) =
  imap (fun p x => if bool_decide (p ∈ (snd <$> map_to_list (mg_sessions m))) then f x else x) (mg_objects m).
Proof. done. Qed.

Section Served.
Context (s : system) (i : nat) (kd : kind) (past : list event).
Hypothesis I : enrollment_inv s.

Abbreviation running c k := (sy_threads s !! i = Some (mkThread kd past (Call c k))).
Abbreviation next c k a m' := (mkSystem (sy_clock s) m' (<[i := mkThread kd (app past (cons (existT c a) nil)) (k a)]> (sy_threads s))).

Lemma inv_acquire k a m' : running AcquireSlot k -> serves (sy_clock s) (sy_threads s) (sy_manager s) AcquireSlot a m' ->
  enrollment_inv (next AcquireSlot k a m').
Proof.
  intros Ht. pose proof (call_permitted s i kd past _ _ I Ht) as Hp. destruct kd; [|by destruct Hp]. cbn in Hp. cbn.
  destruct a; intros [Hm ->].
  - eapply call_slots; [done|done|done|..]; rewrite ?note_holds, ?note_sending, ?note_finished; [rewrite Hp; lia| |done..].
    rewrite (ei_config s I) in Hm. lia.
  - eapply call_idle; [done|done|done|..]; by rewrite ?note_holds, ?note_sending, ?note_finished.
Qed.

Lemma inv_release k a m' : running ReleaseSlot k -> serves (sy_clock s) (sy_threads s) (sy_manager s) ReleaseSlot a m' ->
  enrollment_inv (next ReleaseSlot k a m').
Proof.
  intros Ht. pose proof (call_permitted s i kd past _ _ I Ht) as Hp. cbn. intros [Hm ->].
  assert (Hh : lg_holds (ledger_of kd past) = true) by (destruct kd; [done|apply Hp]).
  pose proof (ei_capacity s I). eapply call_slots; [done|done|done|..]; rewrite ?note_holds, ?note_sending, ?note_finished; [rewrite Hh; lia|lia|done..].
Qed.

Lemma inv_take principal id k a m' : running (TakeCode principal id) k ->
  serves (sy_clock s) (sy_threads s) (sy_manager s) (TakeCode principal id) a m' -> enrollment_inv (next (TakeCode principal id) k a m').
Proof.
  intros Ht. pose proof (call_permitted s i kd past _ _ I Ht) as Hp.
  assert (Hs : lg_sending (ledger_of kd past) = None) by (destruct kd; [done|by destruct Hp]).
  assert (Hc : forall ptr s0, kd <> Goroutine ptr s0) by (destruct kd; [done|by destruct Hp]).
  cbn. unfold ProvideCode_locked.
  assert (Hidle : forall e, enrollment_inv (next (TakeCode principal id) k (Err e) (sy_manager s))).
  { intros e. eapply call_idle; [done|done|done|..]; by rewrite ?note_holds, ?note_sending, ?note_finished, ?Hs. }
  destruct (owned_session principal id _) as [[ptr x]|] eqn:Ho; [|intros [= -> ->]; apply Hidle].
  destruct (negb _ || _ || _) eqn:Hst; intros [= -> ->]; [apply Hidle|].
  apply owned_session_Some in Ho as (_ & Hx & _). apply orb_false_iff in Hst as [_ Hu].
  eapply call_on_object; [done|done|done|..]; rewrite ?note_holds, ?note_sending, ?note_finished; [by repeat split|done| | | | | |].
  - by intros y s0 _ []%Hc.
  - by intros p y s0 _ []%Hc.
  - intros y _. exact (kept_refl y).
  - intros p [= <-]. exists x. unfold at_ptr. rewrite decide_True by done. pose proof (ei_code s I ptr x Hx Hu). auto.
  - by intros y _ H1 H2.
  - done.
Qed.

Lemma inv_send ptr code k a m' : running (SendCode ptr code) k ->
  serves (sy_clock s) (sy_threads s) (sy_manager s) (SendCode ptr code) a m' -> enrollment_inv (next (SendCode ptr code) k a m').
Proof.
  intros Ht. pose proof (call_permitted s i kd past _ _ I Ht) as Hp. destruct kd; [|by destruct Hp]. cbn in Hp. cbn. intros [_ ->].
  destruct (ei_sender s I i _ ptr Ht Hp) as (x & Hx & Hu & _).
  eapply call_on_object; [done|done|done|..]; rewrite ?note_holds, ?note_sending, ?note_finished; [by repeat split|done..| | | |].
  - intros y _. exact (kept_refl y).
  - done.
  - by intros y Hne.
  - intros y Hy. rewrite Hx in Hy. injection Hy as <-. cbn. by rewrite Hu.
Qed.

Lemma inv_finish ptr status reason k a m' : running (FinishSession ptr status reason) k ->
  serves (sy_clock s) (sy_threads s) (sy_manager s) (FinishSession ptr status reason) a m' ->
  enrollment_inv (next (FinishSession ptr status reason) k a m').
Proof.
  intros Ht. pose proof (call_permitted s i kd past _ _ I Ht) as Hp. destruct kd as [|q s0]; [done|].
  destruct Hp as (Hf & -> & _ & Hterm & _). cbn. intros ->.
  assert (Hfin : forall x, es_CodeUsed (finishSession (sy_clock s) status reason x) = es_CodeUsed x
    /\ es_Code (finishSession (sy_clock s) status reason x) = es_Code x).
  { intros x. unfold finishSession. by destruct (terminalEnrollmentStatus (es_Status x)). }
  eapply call_on_object; [done|done|done|..]; rewrite ?note_holds, ?note_sending; [|done|..].
  - intros x. unfold finishSession. by destruct (terminalEnrollmentStatus (es_Status x)).
  - intros x s1 _ _. unfold status_of. rewrite note_finished, Hf. unfold finishSession. by intros ->.
  - intros p x s1 Hne [= <- _]. done.
  - intros x Hne. by destruct (Hne s0).
  - intros p Hp. destruct (ei_sender s I i _ p Ht Hp) as (x & Hx & H1 & H2). exists x. split; [done|]. unfold at_ptr.
    destruct (decide _); [destruct (Hfin x) as [-> ->]|]; auto.
  - intros x _ H1 H2. destruct (Hfin x) as [-> ->]. done.
  - intros x _. destruct (Hfin x) as [-> ->]. done.
Qed.

Lemma inv_call c k a m' : running c k -> serves (sy_clock s) (sy_threads s) (sy_manager s) c a m' -> spawned namespace c a = [] ->
  enrollment_inv (next c k a m').
Proof.
  intros Ht Hs Hspawn.
  assert (Hidle : m' = sy_manager s -> lg_holds (note (ledger_of kd past) c a) = lg_holds (ledger_of kd past) ->
    lg_sending (note (ledger_of kd past) c a) = lg_sending (ledger_of kd past) ->
    lg_finished (note (ledger_of kd past) c a) = lg_finished (ledger_of kd past) -> enrollment_inv (next c k a m')).
  { apply call_idle; assumption. }
  assert (Hgentle : forall f, gentle f -> mg_config m' = mg_config (sy_manager s) -> mg_slots m' = mg_slots (sy_manager s) ->
    mg_sessions m' ⊆ mg_sessions (sy_manager s) -> mg_objects m' = imap f (mg_objects (sy_manager s)) ->
    lg_holds (note (ledger_of kd past) c a) = lg_holds (ledger_of kd past) ->
    lg_sending (note (ledger_of kd past) c a) = lg_sending (ledger_of kd past) ->
    lg_finished (note (ledger_of kd past) c a) = lg_finished (ledger_of kd past) -> enrollment_inv (next c k a m')).
  { apply call_gentle; assumption. }
  rewrite note_holds, note_sending, note_finished in Hidle, Hgentle.
  destruct c; try (by eapply inv_acquire); try (by eapply inv_release); try (by eapply inv_take); try (by eapply inv_send);
    try (by eapply inv_finish); cbn in Hs; try (by apply Hidle; [first [exact Hs|apply Hs]|..]).
  - unfold register_locked in Hs. destruct (_ <=? _)%Z; injection Hs as -> ->; [|done].
    by apply (Hgentle (fun _ x => x)); [apply gentle_id|..|rewrite imap_same| | |]; try apply prune_sessions.
  - unfold Status_locked in Hs. apply (Hgentle (fun _ x => x)); [apply gentle_id|..]; destruct (owned_session _ _ _) as [[]|]; injection Hs as _ ->;
      try done; try apply prune_sessions; by rewrite imap_same.
  - unfold Cancel_locked in Hs. destruct (owned_session _ _ _) as [[ptr x]|]; [destruct (_ || _)|]; injection Hs as -> ->; try by apply Hidle.
    by apply (Hgentle (at_ptr (cancelLocked "cancelled") ptr)); [apply gentle_at, gentle_cancel|..|apply alter_imap| | |].
  - rewrite Hs. rewrite Hs in Hgentle. eapply Hgentle; [apply gentle_if, gentle_cancel_if|done..|apply loop_imap|done|done|done].
  - rewrite Hs. rewrite Hs in Hgentle. eapply Hgentle; [apply gentle_if, gentle_cancel_if|done..|apply loop_imap|done|done|done].
Qed.
End Served.

(** *** New threads *)

Lemma opening_ok kd p : keeps namespace kd (opening kd) p -> thread_ok (mkThread kd [] p).
Proof. intros H. split; [exact H|]. split; [|by destruct kd]. by intros [|? ?]. Qed.

Lemma inv_arrive s p : enrollment_inv s -> incoming config broker p ->
  enrollment_inv (mkSystem (sy_clock s) (sy_manager s) (sy_threads s ++ [mkThread Caller [] p])).
Proof.
  intros I Hp. split; cbn; try apply I.
  - intros i t [[_ H]|[_ <-]]%lookup_snoc_Some; [by eapply (ei_threads s I)|]. apply opening_ok. by eapply incoming_safe.
  - rewrite count_app, (ei_slots s I). change (count holds [_]) with 0%Z. lia.
  - intros i t ptr s0 [[_ H]|[_ <-]]%lookup_snoc_Some Hk; [by eapply (ei_goroutine s I)|done].
  - intros i j t t' ptr s0 s0' [[_ H]|[_ <-]]%lookup_snoc_Some [[_ H']|[_ <-]]%lookup_snoc_Some Hk Hk'; [|done..].
    by eapply (ei_unique s I).
  - intros ptr x Hx. destruct (ei_object s I ptr x Hx) as (i & t & s0 & Hi & Hk). exists i, t, s0. by rewrite (lookup_app_l_Some _ _ _ _ Hi).
  - intros i t ptr [[_ H]|[_ <-]]%lookup_snoc_Some Hk; [by eapply (ei_sender s I)|done].
  - intros i j t t' ptr [[_ H]|[_ <-]]%lookup_snoc_Some [[_ H']|[_ <-]]%lookup_snoc_Some Hk Hk'; [|done..].
    by eapply (ei_senders s I).
Qed.

(** A session enters the table with its goroutine and its token. *)
Section Spawn.
Context (s : system) (session : enrollmentSession).
Hypothesis (I : enrollment_inv s) (Hfresh : fresh_session session).
Hypothesis Hcapacity : (Z.of_nat (S (mg_slots (sy_manager s))) <= Z.max 0 (ec_MaxConcurrent config))%Z.
Hypothesis Hroom : (Z.of_nat (size (mg_sessions (sy_manager s))) < ec_MaxSessions config)%Z.

Abbreviation ptr := (length (mg_objects (sy_manager s))).
Abbreviation goroutine := (mkThread (Goroutine ptr session) [] (run namespace ptr session)).

Lemma spawn_kind j t p s0 : (sy_threads s ++ [goroutine])%list !! j = Some t -> th_kind t = Goroutine p s0 ->
  (sy_threads s !! j = Some t /\ p < ptr) \/ (j = length (sy_threads s) /\ t = goroutine /\ p = ptr /\ s0 = session).
Proof.
  intros [[_ H]|[-> <-]]%lookup_snoc_Some Hk; [left|right].
  - destruct (ei_goroutine s I j t p s0 H Hk) as (x & Hx & _). split; [done|by eapply lookup_lt_Some].
  - injection Hk as <- <-. done.
Qed.

Lemma inv_spawn : enrollment_inv (mkSystem (sy_clock s)
  (mkManager (mg_config (sy_manager s)) (mg_namespace (sy_manager s)) (S (mg_slots (sy_manager s)))
     (<[es_ID session := ptr]> (mg_sessions (sy_manager s))) (mg_objects (sy_manager s) ++ [session])%list)
  (sy_threads s ++ [goroutine])%list).
Proof.
  destruct Hfresh as (Hown & Hstatus & _ & Hcode & _). split; cbn [sy_threads sy_manager mg_config mg_slots mg_sessions mg_objects].
  - intros i t [[_ H]|[_ <-]]%lookup_snoc_Some; [by eapply (ei_threads s I)|]. apply opening_ok, run_safe.
  - apply (ei_config s I).
  - rewrite count_app, <- (ei_slots s I). change (count holds [_]) with 1%Z. lia.
  - done.
  - rewrite map_size_insert. destruct (_ !! _); cbn; lia.
  - intros j t p s0 Hj Hk. destruct (spawn_kind j t p s0 Hj Hk) as [[H _]|(_ & -> & -> & ->)].
    + destruct (ei_goroutine s I j t p s0 H Hk) as (x & Hx & Hrest). exists x. by rewrite (lookup_app_l_Some _ _ _ _ Hx).
    + exists session. rewrite lookup_app_r, Nat.sub_diag by done. split; [done|]. split; [apply same_refl|]. split; [done|].
      unfold status_of. cbn. by rewrite Hstatus.
  - intros j k t t' p s0 s0' Hj Hk Ht Ht'. destruct (spawn_kind j t p s0 Hj Ht) as [[H ?]|(-> & -> & -> & ->)],
      (spawn_kind k t' _ s0' Hk Ht') as [[H' ?]|(-> & -> & ? & ->)]; [by eapply (ei_unique s I)|lia|lia|done].
  - intros p x [[_ H]|[-> <-]]%lookup_snoc_Some.
    + destruct (ei_object s I p x H) as (i & t & s0 & Hi & Hk). exists i, t, s0. by rewrite (lookup_app_l_Some _ _ _ _ Hi).
    + exists (length (sy_threads s)), goroutine, session. by rewrite lookup_app_r, Nat.sub_diag.
  - intros id p [[<- <-]|[_ H]]%lookup_insert_Some.
    + exists session. by rewrite lookup_app_r, Nat.sub_diag.
    + destruct (ei_table s I id p H) as (x & Hx & Hid). exists x. by rewrite (lookup_app_l_Some _ _ _ _ Hx).
  - intros i t p [[_ H]|[_ <-]]%lookup_snoc_Some Hs; [|done]. destruct (ei_sender s I i t p H Hs) as (x & Hx & Hrest).
    exists x. by rewrite (lookup_app_l_Some _ _ _ _ Hx).
  - intros i j t t' p [[_ H]|[_ <-]]%lookup_snoc_Some [[_ H']|[_ <-]]%lookup_snoc_Some Hk Hk'; [|done..].
    by eapply (ei_senders s I).
  - intros p x [[_ H]|[-> <-]]%lookup_snoc_Some; [by eapply (ei_code s I)|done].
Qed.
End Spawn.

Lemma inv_register s i kd past now session k a m' : enrollment_inv s ->
  sy_threads s !! i = Some (mkThread kd past (Call (Register now session) k)) ->
  serves (sy_clock s) (sy_threads s) (sy_manager s) (Register now session) a m' ->
  enrollment_inv (mkSystem (sy_clock s) m'
    (<[i := mkThread kd (past ++ [existT (Register now session) a])%list (k a)]> (sy_threads s) ++ spawned namespace (Register now session) a)%list).
Proof.
  intros I Ht Hs. destruct (bool_decide (spawned namespace (Register now session) a = [])) eqn:E.
  { apply bool_decide_eq_true in E. rewrite E, app_nil_r. by eapply inv_call. }
  apply bool_decide_eq_false in E. pose proof (call_permitted s i kd past _ _ I Ht) as Hp. destruct kd; [|by destruct Hp].
  destruct Hp as [Hheld Hfresh]. cbn in Hs. unfold register_locked in Hs. destruct (_ <=? _)%Z eqn:Hroom; injection Hs as -> ->; [done|].
  apply Z.leb_gt in Hroom. pose proof (prune_sessions now (sy_manager s)) as Hsub. pose proof (ei_slots s I) as Hslots. pose proof (ei_capacity s I).
  pose proof (count_one holds _ _ _ Ht Hheld) as Hone.
  assert (I' : enrollment_inv (mkSystem (sy_clock s) (with_slots (pruneLocked now (sy_manager s)) (pred (mg_slots (sy_manager s))))
    (<[i := mkThread Caller (past ++ [existT (Register now session) (Some (length (mg_objects (sy_manager s)), publicEnrollmentStatus session))])%list
         (k (Some (length (mg_objects (sy_manager s)), publicEnrollmentStatus session)))]> (sy_threads s)))).
  { eapply (inv_gentle s i _ _ _ _ (fun _ x => x) I Ht); [done|by eapply goes_on_ok, (ei_threads s I)|apply gentle_id|done|..];
      unfold holds, th_ledger in *; cbn [th_kind th_past] in *; rewrite ?ledger_snoc, ?note_holds, ?note_sending, ?note_finished; try done.
    - rewrite Hheld. cbn. lia.
    - cbn. lia.
    - cbn. by rewrite imap_same. }
  pose proof (inv_spawn _ session I' Hfresh) as H'. cbn in H'. rewrite Nat.succ_pred in H' by lia. apply H'; [done|].
  rewrite <- (ei_config s I). exact Hroom.
Qed.

(** *** What the runner does *)

Lemma inv_publish s i t ptr action : enrollment_inv s -> sy_threads s !! i = Some t ->
  enrollment_inv (mkSystem (sy_clock s) (on_object (publishAction action) ptr (sy_manager s)) (sy_threads s)).
Proof.
  intros I Ht. rewrite <- (list_insert_id _ _ _ Ht).
  eapply (inv_gentle s i t t _ _ (at_ptr (publishAction action) ptr) I Ht);
    [done|by eapply (ei_threads s I)|apply gentle_at, gentle_publish|done|cbn [on_object with_objects mg_slots]; lia|apply (ei_capacity s I)|done|apply alter_imap|done..].
Qed.

Lemma inv_receive s i t ptr : enrollment_inv s -> sy_threads s !! i = Some t ->
  enrollment_inv (mkSystem (sy_clock s) (on_object (with_code None) ptr (sy_manager s)) (sy_threads s)).
Proof.
  intros I Ht. rewrite <- (list_insert_id _ _ _ Ht).
  assert (Hat : forall p x, es_Status (at_ptr (with_code None) ptr p x) = es_Status x
    /\ es_CodeUsed (at_ptr (with_code None) ptr p x) = es_CodeUsed x
    /\ (es_Code x = None -> es_Code (at_ptr (with_code None) ptr p x) = None)).
  { intros p x. unfold at_ptr. by destruct (decide _). }
  eapply (inv_frame s i t t _ _ (at_ptr (with_code None) ptr) I Ht);
    [done|by eapply (ei_threads s I)|done|cbn [on_object with_objects mg_slots]; lia|apply (ei_capacity s I)|done|apply alter_imap|..].
  - intros p x. unfold at_ptr. by destruct (decide _).
  - intros p x s0 _ _. unfold status_of. by destruct (Hat p x) as (-> & _).
  - intros p x _. unfold status_kept. destruct (Hat p x) as (-> & _). apply kept_refl.
  - intros p Hp. destruct (ei_sender s I i t p Ht Hp) as (x & Hx & H1 & H2). exists x. destruct (Hat p x) as (_ & -> & H). auto.
  - intros p x _ H1 H2. destruct (Hat p x) as (_ & -> & H). auto.
  - intros p x Hx. destruct (Hat p x) as (_ & -> & H). intros Hu. pose proof (ei_code s I p x Hx Hu) as Hn. rewrite Hn. auto.
Qed.

Lemma inv_step s s' : enrollment_inv s -> step config namespace broker s s' -> enrollment_inv s'.
Proof.
  intros I [? [i kd past c k a m' Ht Hs]|i kd past ptr id adapter k action Ht|i kd past ptr id adapter k Ht|now _|p Hp].
  - destruct (bool_decide (spawned namespace c a = [])) eqn:E.
    + apply bool_decide_eq_true in E. rewrite E, app_nil_r. by eapply inv_call.
    + apply bool_decide_eq_false in E. destruct c; try done. by apply inv_register.
  - by eapply inv_publish.
  - by eapply inv_receive.
  - destruct I. by split.
  - by apply inv_arrive.
Qed.

Lemma reachable_inv s : reachable config namespace broker s -> enrollment_inv s.
Proof. induction 1 as [now|s s' _ IH H]; [apply inv_fresh|by eapply inv_step]. Qed.
End Invariant.
