(* ===== verification/EnrollmentTheorems.v ===== *)
(** * Enrollments: theorems

    What holds of the enrollments of every reachable system: how many there
    are, how a session gets its terminal status, whose credentials are stored
    where, and that whatever the services answer, in whatever order the
    goroutines run, every call returns and every session ends. *)
From stdpp Require Import base list strings gmap.
From Stdlib Require Import ZArith Lia.
From S2P Require Import Prelude GoStrings GoEncoding LocalRun Program PortalTypes Enrollment EnrollmentProps Fixture.

Local Open Scope string_scope.

(** ** Forests

    A relation that replaces one tree of a list by its children ends, in
    whatever order, when every tree is well-founded. *)
Section Forests.
Context {T : Type} (children : T -> list T -> Prop).

Definition forest_step (l' l : list T) : Prop := exists t rest ch, l ≡ₚ t :: rest /\ children t ch /\ l' ≡ₚ (ch ++ rest)%list.

Abbreviation ends := (Acc forest_step).

Lemma forest_perm l l' : l ≡ₚ l' -> ends l -> ends l'.
Proof. intros E [H]. constructor. intros u (t & rest & ch & E1 & Hc & E2). apply H. exists t, rest, ch. by rewrite E. Qed.

Lemma forest_app l1 l2 : ends l1 -> ends l2 -> ends (l1 ++ l2)%list.
Proof.
  intros A1. revert l2. induction A1 as [l1 _ IH1]. intros l2 A2. pose proof A2 as A2'. induction A2 as [l2 _ IH2].
  constructor. intros u (t & rest & ch & E & Hc & E').
  assert (Ht : t ∈ (l1 ++ l2)%list) by (rewrite E; apply list_elem_of_here).
  apply elem_of_app in Ht as [[r Hr]%elem_of_Permutation|[r Hr]%elem_of_Permutation].
  - apply (forest_perm ((ch ++ r) ++ l2)%list).
    + rewrite E', <- app_assoc. f_equiv. rewrite Hr in E. by apply Permutation_cons_inv in E.
    + apply IH1; [exists t, r, ch; auto|done].
  - apply (forest_perm (l1 ++ (ch ++ r))%list).
    + rewrite E', Permutation_app_comm, <- app_assoc. f_equiv. rewrite Hr, <- Permutation_middle in E.
      apply Permutation_cons_inv in E. by rewrite <- E, Permutation_app_comm.
    + assert (Hs : forest_step (ch ++ r)%list l2) by (exists t, r, ch; auto). apply IH2; [done|]. by destruct A2' as [A]; apply A.
Qed.

Lemma forest_list l : Forall (fun t => ends [t]) l -> ends l.
Proof.
  induction 1 as [|t l Ht _ IH]; [|by apply (forest_app [t])].
  constructor. intros u (t & rest & ch & E & _). by apply Permutation_nil_cons in E.
Qed.

Lemma forest_tree t : (forall ch, children t ch -> Forall (fun u => ends [u]) ch) -> ends [t].
Proof.
  intros H. constructor. intros u (t' & rest & ch & E & Hc & E').
  apply Permutation_singleton_l in E. injection E as <- <-. rewrite app_nil_r in E'.
  apply (forest_perm ch); [done|]. by apply forest_list, H.
Qed.
End Forests.

(** ** What a past shows *)

(** The document that a call stores, if it stores one. *)
Definition credential_of (c : call) : option string :=
  match c with
  | CompleteEnrollment _ _ _ document _ | Reconnect _ _ document _ | Patch _ _ _ document => Some document
  | _ => None
  end.

(** A call stores into the slot of a session. *)
Definition into_slot (namespace : string) (x : enrollmentSession) (c : call) : Prop :=
  match c with
  | CompleteEnrollment principal template operationID _ _ =>
      es_DynamicAction x = dynamicActionEnroll /\ principal = es_Principal x /\ template = sl_Name (es_Slot x)
      /\ operationID = es_OperationID x
  | Reconnect principal operationID _ _ =>
      es_DynamicAction x = dynamicActionReconnect /\ principal = es_Principal x /\ operationID = es_OperationID x
  | Patch ns name key _ =>
      es_DynamicAction x = "" /\ ns = namespace /\ name = sl_SecretName (es_Slot x) /\ key = sl_DataKey (es_Slot x)
  | _ => False
  end.

(** The service did what it was asked. *)
Definition accepted (e : event) : bool :=
  let 'existT c a := e in
  match c return answer c -> bool with
  | CompleteEnrollment _ _ _ _ _ | Reconnect _ _ _ _ => fun a => is_ok a
  | Patch _ _ _ _ | Acknowledge _ => fun a => a
  | _ => fun _ => true
  end a.

Lemma ledger_tried kd past : lg_tried (ledger_of kd past) = true <-> exists e, e ∈ past /\ is_Some (credential_of (projT1 e)).
Proof.
  induction past as [|[c a] past IH] using rev_ind.
  - cbn. split; [done|]. intros (e & He & _). by apply elem_of_nil in He.
  - rewrite ledger_snoc. setoid_rewrite elem_of_app. setoid_rewrite list_elem_of_singleton.
    assert (E : lg_tried (note (ledger_of kd past) c a) = true <-> lg_tried (ledger_of kd past) = true \/ is_Some (credential_of c)).
    { destruct (ledger_of kd past) as [????[]???], c; cbn; split; auto; intros [H|[? H]]; done. }
    rewrite E, IH. split.
    + intros [(e & He & Hc)|Hc]; eauto.
    + intros (e & [He| ->] & Hc); eauto.
Qed.

(** What a ledger says, some call of the past has put there. *)
Lemma ledger_shows (P : ledger -> Prop) (Q : event -> Prop) kd past : ~ P (opening kd) ->
  (forall l c a, P (note l c a) -> P l \/ Q (existT c a)) -> P (ledger_of kd past) -> exists e, e ∈ past /\ Q e.
Proof.
  intros Hopen Hnote. induction past as [|[c a] past IH] using rev_ind; [done|]. rewrite ledger_snoc. setoid_rewrite elem_of_app.
  setoid_rewrite list_elem_of_singleton. intros [H|H]%Hnote; [destruct (IH H) as (e & He & Hq); eauto|eauto].
Qed.

Lemma ledger_stored kd past : lg_stored (ledger_of kd past) = true ->
  exists e, e ∈ past /\ is_Some (credential_of (projT1 e)) /\ accepted e = true.
Proof.
  apply (ledger_shows (fun l => lg_stored l = true)); [by destruct kd|]. intros [] c a. destruct c; cbn; eauto.
Qed.

Lemma ledger_cancel kd past reason : lg_cancel (ledger_of kd past) = Some reason ->
  exists e, e ∈ past /\ exists ptr, e = existT (ReadCancelReason ptr) reason.
Proof.
  apply (ledger_shows (fun l => lg_cancel l = Some reason)); [by destruct kd|]. intros [] c a. destruct c; cbn; eauto.
  intros [= ->]. eauto.
Qed.

Lemma ledger_acked kd past : lg_acked (ledger_of kd past) = true -> exists e, e ∈ past /\ exists id, e = existT (Acknowledge id) true.
Proof.
  apply (ledger_shows (fun l => lg_acked l = true)); [by destruct kd|]. intros [] c a. destruct c; cbn; eauto. intros ->. eauto.
Qed.

Lemma ledger_aborted kd past : lg_aborted (ledger_of kd past) = true -> exists e, e ∈ past /\ exists id, e = existT (RunnerCancel id) tt.
Proof.
  apply (ledger_shows (fun l => lg_aborted l = true)); [by destruct kd|]. intros [] c a. destruct c; cbn; eauto. destruct a. eauto.
Qed.

Section Reachable.
Variables (config : EnrollmentConfig) (namespace : string) (broker : bool).

Lemma past_permitted kd past e : past_ok namespace kd past -> e ∈ past ->
  exists before after, past = (before ++ e :: after)%list /\ permitted namespace kd (ledger_of kd before) (projT1 e).
Proof. intros Hp (before & after & ->)%list_elem_of_split. exists before, after. split; [done|]. by eapply Hp. Qed.

(** A call that stores is a goroutine's, into the slot of its session. *)
Lemma attempt_permitted kd l c document : permitted namespace kd l c -> credential_of c = Some document ->
  exists ptr s0, kd = Goroutine ptr s0 /\ into_slot namespace s0 c /\ may_store s0 l document.
Proof.
  destruct kd as [|ptr s0]; cbn [permitted]; intros Hp Hc; [by destruct c|]. exists ptr, s0. split; [done|].
  destruct Hp as [_ Hp], c; try done; injection Hc as <-; cbn [into_slot]; tauto.
Qed.

Lemma into_slot_same x y c : same_session x y -> into_slot namespace x c -> into_slot namespace y c.
Proof. intros (_ & H1 & H2 & H3 & H4) H. destruct c; cbn in *; try done; by rewrite ?H1, ?H2, ?H3, ?H4. Qed.

(** A thread that finished a session does nothing more. *)
Lemma finished_ended t : thread_ok namespace t -> is_goroutine t = true -> is_Some (lg_finished (th_ledger t)) -> is_Ret (th_rest t) = true.
Proof.
  intros (Hs & _) Hg [status Hf]. destruct t as [[|ptr s0] past [r|c k]]; try done. destruct Hs as [[Hs _] _].
  unfold th_ledger in Hf. cbn in *. congruence.
Qed.

(** C18: At most the configured number of enrollments run at a time and at most
    the configured number of sessions is kept, whatever the callers do and in
    whatever order; every token of the semaphore is held by one thread that
    has yet to return it. *)
Theorem enrollments_bounded (s : system) : reachable config namespace broker s ->
  (Z.of_nat (mg_slots (sy_manager s)) <= Z.max 0 (ec_MaxConcurrent config))%Z
  /\ (Z.of_nat (size (mg_sessions (sy_manager s))) <= Z.max 0 (ec_MaxSessions config))%Z
  /\ Z.of_nat (mg_slots (sy_manager s)) = count holds (sy_threads s)
  /\ (forall i t, sy_threads s !! i = Some t -> holds t = true -> is_Ret (th_rest t) = false).
Proof.
  intros I%reachable_inv. split; [apply (ei_capacity _ _ s I)|]. split; [apply (ei_sessions _ _ s I)|].
  split; [apply (ei_slots _ _ s I)|]. intros i t Ht Hh. destruct (ei_threads _ _ s I i t Ht) as (Hs & _).
  destruct (th_rest t) as [r|]; [|done]. destruct Hs as [Hs _]. unfold holds in Hh. congruence.
Qed.

(** C15: A credential is only ever sent to the slot of the session it was made
    for, which is a slot its principal owns; it is a valid document of the
    slot's adapter, it is sent once, and the session had not been cancelled
    when its runner was done. *)
Theorem credentials_stored_by_owner (s : system) i t before e after document :
  reachable config namespace broker s -> sy_threads s !! i = Some t -> th_past t = (before ++ e :: after)%list ->
  credential_of (projT1 e) = Some document ->
  exists ptr s0 x, th_kind t = Goroutine ptr s0 /\ mg_objects (sy_manager s) !! ptr = Some x
    /\ Owns (es_Principal x) (es_Slot x) = true /\ into_slot namespace x (projT1 e)
    /\ ValidateCredential (sl_Adapter (es_Slot x)) document = true
    /\ (exists p, existT (ReadCancelReason p) "" ∈ before)
    /\ (forall e', e' ∈ (before ++ after)%list -> credential_of (projT1 e') = None).
Proof.
  intros I%reachable_inv Ht Hpast Hdoc. destruct (ei_threads _ _ s I i t Ht) as (_ & Hok & _).
  destruct (attempt_permitted _ _ _ _ (Hok before e after Hpast) Hdoc) as (ptr & s0 & Hk & Hinto & Hvalid & Hcancel & Htried).
  destruct (ei_goroutine _ _ s I i t ptr s0 Ht Hk) as (x & Hx & Hsame & Hown & _).
  assert (Hslot : es_Slot x = es_Slot s0) by apply Hsame.
  exists ptr, s0, x. split; [done|]. split; [done|]. split; [done|]. split; [by eapply into_slot_same|]. split; [by rewrite Hslot|].
  split; [destruct (ledger_cancel _ _ _ Hcancel) as (e' & He' & p & ->); eauto|].
  intros e' [He'|He']%elem_of_app; apply eq_None_not_Some; intros Hsome.
  - assert (lg_tried (ledger_of (th_kind t) before) = true) by (apply ledger_tried; eauto). congruence.
  - apply list_elem_of_split in He' as (mid & rest & ->). destruct Hsome as [d Hd].
    assert (Hp : th_past t = ((before ++ e :: mid) ++ e' :: rest)%list) by (by rewrite <- app_assoc).
    destruct (attempt_permitted _ _ _ _ (Hok _ e' rest Hp) Hd) as (_ & _ & _ & _ & _ & _ & Htried').
    assert (lg_tried (ledger_of (th_kind t) (before ++ e :: mid)) = true); [|congruence].
    apply ledger_tried. exists e. split; [apply elem_of_app; right; apply list_elem_of_here|by rewrite Hdoc].
Qed.

(** C16: The status a user polls tells what happened.  A terminal status means
    that the session's goroutine has ended and its token is back; success, that
    the credential is in the session's slot and the runner was told; any other
    terminal status, that the runner was told to drop the session; and a
    session that shows as cancelled has stored nothing. *)
Theorem terminal_status_earned (s : system) ptr x : reachable config namespace broker s ->
  mg_objects (sy_manager s) !! ptr = Some x -> terminalEnrollmentStatus (es_Status x) = true ->
  exists i t s0, sy_threads s !! i = Some t /\ th_kind t = Goroutine ptr s0 /\ is_Ret (th_rest t) = true /\ holds t = false
    /\ (es_Status x = enrollmentSucceeded ->
         (exists e document, e ∈ th_past t /\ accepted e = true /\ into_slot namespace x (projT1 e)
            /\ credential_of (projT1 e) = Some document /\ ValidateCredential (sl_Adapter (es_Slot x)) document = true)
         /\ existT (Acknowledge (es_ID x)) true ∈ th_past t)
    /\ (es_Status x <> enrollmentSucceeded -> existT (RunnerCancel (es_ID x)) tt ∈ th_past t)
    /\ (es_Status x = enrollmentCancelled -> forall e, e ∈ th_past t -> credential_of (projT1 e) = None).
Proof.
  intros I%reachable_inv Hx Hterm. destruct (ei_object _ _ s I ptr x Hx) as (i & t & s0 & Ht & Hk).
  destruct (ei_threads _ _ s I i t Ht) as (Hsafe & Hok & Hledger).
  destruct (ei_goroutine _ _ s I i t ptr s0 Ht Hk) as (y & Hy & Hsame & _ & Hstatus). rewrite Hx in Hy. injection Hy as <-.
  pose proof Hsame as (Hid & Hslot & _). unfold status_of in Hstatus. unfold ledger_ok in Hledger. rewrite Hk in Hledger.
  destruct (lg_finished (th_ledger t)) as [status|] eqn:Hf; [|congruence]. subst status.
  destruct Hledger as (Hh & _ & Hsuccess & Hother & Hcancelled).
  exists i, t, s0. split; [done|]. split; [done|]. split. { apply finished_ended; [by apply (ei_threads _ _ s I i t Ht)|unfold is_goroutine; by rewrite Hk|by rewrite Hf]. }
  split; [exact Hh|]. split; [|split].
  - intros [Hst Hack]%Hsuccess. split.
    + destruct (ledger_stored _ _ Hst) as (e & He & [document Hd] & Ha). destruct (past_permitted _ _ e Hok He) as (before & after & _ & Hp).
      destruct (attempt_permitted _ _ _ _ Hp Hd) as (p & s1 & Hk' & Hinto & Hvalid & _). rewrite Hk in Hk'. injection Hk' as <- <-.
      exists e, document. split; [done|]. split; [done|]. split; [by eapply into_slot_same|]. split; [done|]. by rewrite Hslot.
    + destruct (ledger_acked _ _ Hack) as (e & He & id & ->). destruct (past_permitted _ _ _ Hok He) as (before & after & _ & Hp).
      rewrite Hk in Hp. destruct Hp as (_ & -> & _). by rewrite Hid.
  - intros Ha%Hother. destruct (ledger_aborted _ _ Ha) as (e & He & id & ->). destruct (past_permitted _ _ _ Hok He) as (before & after & _ & Hp).
    rewrite Hk in Hp. destruct Hp as (_ & ->). by rewrite Hid.
  - intros Hc e He. apply eq_None_not_Some. intros Hsome. specialize (Hcancelled Hc).
    assert (lg_tried (th_ledger t) = true) by (apply ledger_tried; eauto). congruence.
Qed.

(** ** Every call returns *)

Definition offspring (t : thread) (ch : list thread) : Prop :=
  match th_rest t with
  | Ret _ => False
  | Call c k => exists a, ch = mkThread (th_kind t) (th_past t ++ [existT c a])%list (k a) :: spawned namespace c a
  end.

(** A thread's calls, and with them those of the goroutines it starts, are
    bounded. *)
Lemma thread_ends kd p : (forall ptr s0 past, thread_ok namespace (mkThread (Goroutine ptr s0) past (run namespace ptr s0)) ->
    Acc (forest_step offspring) [mkThread (Goroutine ptr s0) past (run namespace ptr s0)]) \/ kd <> Caller ->
  forall past, thread_ok namespace (mkThread kd past p) -> Acc (forest_step offspring) [mkThread kd past p].
Proof.
  intros Hrun. induction p as [r|c k IH]; intros past Hok; apply forest_tree; [done|].
  intros ch [a ->]. constructor; [by apply IH, goes_on_ok|].
  pose proof (thread_ok_permitted _ _ _ _ _ Hok) as Hp.
  destruct kd as [|ptr s0]; [|destruct Hp as [_ Hp]; destruct c; try constructor; done].
  destruct Hrun as [Hrun|Hrun]; [|done].
  destruct c as [| | | |now session| | | | | | | | | | | | | | |]; cbn [spawned]; try constructor.
  destruct a as [[ptr st]|]; [constructor; [|constructor]|constructor]. apply Hrun, opening_ok, run_safe.
Qed.

Lemma threads_end t : thread_ok namespace t -> Acc (forest_step offspring) [t].
Proof. destruct t as [kd past p]. apply thread_ends. left. intros. apply thread_ends; [by right|done]. Qed.

(** What a caller or a goroutine waits for is there, unless it is [Close]
    waiting for the goroutines. *)
Lemma call_enabled s i kd past c k : enrollment_inv config namespace s -> sy_threads s !! i = Some (mkThread kd past (Call c k)) ->
  (c = WaitAll -> goroutines_ended (sy_threads s) = true) -> exists a m', serves (sy_clock s) (sy_threads s) (sy_manager s) c a m'.
Proof.
  intros I Ht Hwait. pose proof (call_permitted _ _ s i kd past _ _ I Ht) as Hp. pose proof (ei_slots _ _ s I) as Hslots.
  destruct c; cbn [serves].
  - destruct (decide (Z.of_nat (mg_slots (sy_manager s)) < ec_MaxConcurrent (mg_config (sy_manager s)))%Z).
    + by exists true; eexists.
    + exists false, (sy_manager s). split; [lia|done].
  - assert (Hh : lg_holds (ledger_of kd past) = true) by (destruct kd; apply Hp).
    pose proof (count_one holds _ _ _ Ht Hh). exists tt; eexists. split; [lia|done].
  - by exists None; eexists.
  - by exists (sy_clock s); eexists.
  - destruct (register_locked now session (sy_manager s)) as [a m']. by exists a, m'.
  - destruct (Status_locked _ principal id _) as [a m']. by exists a, m'.
  - destruct (ProvideCode_locked principal id _) as [a m']. by exists a, m'.
  - destruct kd; [|by destruct Hp]. destruct (ei_sender _ _ s I i _ ptr Ht Hp) as (x & Hx & _ & Hcode).
    exists tt; eexists. split; [|done]. by rewrite Hx; cbn; rewrite Hcode.
  - destruct (Cancel_locked principal id _) as [a m']. by exists a, m'.
  - by exists tt; eexists.
  - by exists tt; eexists.
  - exists tt; eexists. split; [by apply Hwait|done].
  - by exists ("", ""); eexists.
  - destruct kd as [|p s0]; [done|]. destruct Hp as [_ ->]. destruct (ei_goroutine _ _ s I i _ p s0 Ht eq_refl) as (x & Hx & _).
    exists (es_CancelReason x); eexists. by rewrite Hx.
  - by exists (Ok tt); eexists.
  - by exists (Ok tt); eexists.
  - by exists true; eexists.
  - by exists true; eexists.
  - by exists tt; eexists.
  - by exists tt; eexists.
Qed.

Lemma stuck_ended s i t : enrollment_inv config namespace s -> (forall s', ~ served namespace s s') -> sy_threads s !! i = Some t ->
  is_Ret (th_rest t) = true.
Proof.
  intros I Hstuck.
  assert (Hcall : forall j kd past c k, sy_threads s !! j = Some (mkThread kd past (Call c k)) ->
    (c = WaitAll -> goroutines_ended (sy_threads s) = true) -> False).
  { intros j kd past c k Hj Hw. destruct (call_enabled s j kd past c k I Hj Hw) as (a & m' & Hs). by eapply Hstuck, served_call. }
  destruct t as [kd past [r|c k]]; [done|]. intros Ht. exfalso. eapply Hcall; [exact Ht|]. intros _.
  apply Is_true_true, forallb_True, Forall_lookup. intros j [kd' past' [r|c' k']] Hj; [by destruct (is_goroutine _)|].
  destruct kd' as [|ptr s0]; [done|]. exfalso. eapply Hcall; [exact Hj|]. intros ->.
  by destruct (call_permitted _ _ s j _ _ _ _ I Hj).
Qed.

(** A step that is not a thread's: the runner's, or time passing. *)
Definition background (s s' : system) : Prop := step config namespace broker s s' /\ sy_threads s' = sy_threads s.

Definition progress (s s' : system) : Prop := exists s1, rtc background s s1 /\ served namespace s1 s'.

Lemma progress_threads s s' : progress s s' -> forest_step offspring (sy_threads s') (sy_threads s).
Proof.
  intros (s1 & Hrtc & Hs). assert (E : sy_threads s1 = sy_threads s).
  { clear Hs. induction Hrtc as [|x y z [_ Hxy] _ IH]; [done|]. congruence. }
  destruct Hs as [i kd past c k a m' Ht Hs]. rewrite E in *. cbn.
  exists (mkThread kd past (Call c k)), (delete i (sy_threads s)), (mkThread kd (past ++ [existT c a])%list (k a) :: spawned namespace c a).
  split; [by apply delete_Permutation|]. split; [by exists a|].
  rewrite insert_take_drop by (by eapply lookup_lt_Some). rewrite delete_take_drop. cbn.
  rewrite <- Permutation_middle. cbn. f_equiv. by rewrite Permutation_app_comm.
Qed.

(** C17: No call blocks for good.  From any state the threads make finitely many
    calls, in whatever order they run and whatever the services answer; and
    when none can make a call, every method has returned, every enrollment
    goroutine has ended, the semaphore is empty and every session has a
    terminal status. *)
Theorem enrollments_drain (s : system) : reachable config namespace broker s ->
  Acc (flip progress) s
  /\ ((forall s', ~ served namespace s s') ->
       (forall i t, sy_threads s !! i = Some t -> is_Ret (th_rest t) = true) /\ mg_slots (sy_manager s) = 0%nat
       /\ (forall ptr x, mg_objects (sy_manager s) !! ptr = Some x -> terminalEnrollmentStatus (es_Status x) = true)).
Proof.
  intros I%reachable_inv. split.
  - assert (A : Acc (forest_step offspring) (sy_threads s)).
    { apply forest_list, Forall_lookup. intros i t Ht. by eapply threads_end, (ei_threads _ _ s I). }
    clear I. remember (sy_threads s) as l eqn:E. revert s E. induction A as [l _ IH]. intros s ->. constructor.
    intros s' Hp%progress_threads. by eapply IH.
  - intros Hstuck. assert (Hended := fun i t => stuck_ended s i t I Hstuck). split; [exact Hended|].
    assert (Hok : forall i t, sy_threads s !! i = Some t -> exists r, settled (th_kind t) (th_ledger t) r).
    { intros i t Ht. destruct (ei_threads _ _ s I i t Ht) as (Hs & _). specialize (Hended i t Ht).
      destruct (th_rest t) as [r|]; [by exists r|done]. }
    split.
    + destruct (mg_slots (sy_manager s)) eqn:E; [done|]. pose proof (ei_slots _ _ s I) as Hslots. rewrite E in Hslots.
      destruct (count_some holds (sy_threads s)) as (i & t & Ht & Hh); [lia|]. destruct (Hok i t Ht) as (r & Hr & _).
      unfold holds in Hh. congruence.
    + intros ptr x Hx. destruct (ei_object _ _ s I ptr x Hx) as (i & t & s0 & Ht & Hk).
      destruct (ei_goroutine _ _ s I i t ptr s0 Ht Hk) as (y & Hy & _ & _ & Hst). rewrite Hx in Hy. injection Hy as <-.
      destruct (Hok i t Ht) as (r & _ & _ & Hf). rewrite Hk in Hf. destruct Hf as [status Hf].
      destruct (ei_threads _ _ s I i t Ht) as (_ & _ & Hl). unfold ledger_ok, status_of in *. rewrite Hk, Hf in *. subst. apply Hl.
Qed.
End Reachable.

(** ** A scheduler

    Executable steps, to run a system on concrete answers. *)
Record oracle := mkOracle { or_token : list Z; or_runner : string * string; or_accepts : bool }.

Definition serve (o : oracle) (now : time) (threads : list thread) (m : manager) (c : call) : option (answer c * manager) :=
  match c return option (answer c * manager) with
  | AcquireSlot => if (Z.of_nat (mg_slots m) <? ec_MaxConcurrent (mg_config m))%Z then Some (true, with_slots m (S (mg_slots m))) else Some (false, m)
  | ReleaseSlot => match mg_slots m with O => None | S n => Some (tt, with_slots m n) end
  | RandomToken _ => Some (Some (or_token o), m)
  | ReadClock => Some (now, m)
  | Register t session => Some (register_locked t session m)
  | ReadStatus principal id => Some (Status_locked now principal id m)
  | TakeCode principal id => Some (ProvideCode_locked principal id m)
  | SendCode ptr code => match es_Code <$> mg_objects m !! ptr with Some None => Some (tt, on_object (with_code (Some code)) ptr m) | _ => None end
  | CancelOwn principal id => Some (Cancel_locked principal id m)
  | CancelAll principal => Some (tt, CancelPrincipal_locked principal m)
  | CloseAll => Some (tt, Close_locked m)
  | WaitAll => if goroutines_ended threads then Some (tt, m) else None
  | RunnerRun _ _ _ => Some (or_runner o, m)
  | ReadCancelReason ptr => match mg_objects m !! ptr with Some x => Some (es_CancelReason x, m) | None => None end
  | CompleteEnrollment _ _ _ _ _ | Reconnect _ _ _ _ => Some ((if or_accepts o then Ok tt else Err ErrBrokerRejected), m)
  | Patch _ _ _ _ => Some (or_accepts o, m)
  | Acknowledge _ => Some (or_accepts o, m)
  | RunnerCancel _ => Some (tt, m)
  | FinishSession ptr status reason => Some (tt, on_object (finishSession now status reason) ptr m)
  end.

Lemma serve_sound o now threads m c a m' : serve o now threads m c = Some (a, m') -> serves now threads m c a m'.
Proof.
  destruct c; cbn; try (intros [= H]; done); try (by intros [= <- <-]).
  - destruct (_ <? _)%Z eqn:E; intros [= <- <-]; [apply Z.ltb_lt in E|apply Z.ltb_ge in E]; done.
  - destruct (mg_slots m) eqn:E; intros [= <- <-]. cbn. split; [lia|done].
  - destruct (mg_objects m !! ptr) as [x|]; cbn; [|done]. by destruct (es_Code x); intros [= <- <-].
  - destruct (goroutines_ended threads); by intros [= <- <-].
  - destruct (mg_objects m !! ptr) as [x|]; by intros [= <- <-].
Qed.

Inductive request : Type :=
| AskStart (principal : PortalPrincipal) (slot : Slot) (authExpiresAt : time)
| AskStatus (principal : PortalPrincipal) (id : string)
| AskCode (principal : PortalPrincipal) (id code : string)
| AskCancel (principal : PortalPrincipal) (id : string)
| AskLogout (principal : PortalPrincipal)
| AskClose.

Inductive move : Type :=
| Arrive (r : request)
| Advance (i : nat) (o : oracle)
| Publish (i : nat) (action : providerAction)
| Receive (i : nat)
| Tick (now : time).

Section Moves.
Variables (config : EnrollmentConfig) (namespace : string) (broker : bool).

Definition program_of (r : request) : program reply :=
  match r with
  | AskStart principal slot exp => Start config principal slot exp
  | AskStatus principal id => Status principal id
  | AskCode principal id code => ProvideCode principal id code
  | AskCancel principal id => Cancel principal id
  | AskLogout principal => CancelPrincipal principal
  | AskClose => Close
  end.

(** The session that a thread's runner works on. *)
Definition running_session (t : option thread) : option nat :=
  match t with Some (mkThread _ _ (Call (RunnerRun ptr _ _) _)) => Some ptr | _ => None end.

Definition move_step (mv : move) (s : system) : option system :=
  match mv with
  | Arrive r => Some (mkSystem (sy_clock s) (sy_manager s) (sy_threads s ++ [mkThread Caller [] (program_of r)])%list)
  | Advance i o =>
      match sy_threads s !! i with
      | Some (mkThread kd past (Call c k)) =>
          match serve o (sy_clock s) (sy_threads s) (sy_manager s) c with
          | Some (a, m') =>
              Some (mkSystem (sy_clock s) m' (<[i := mkThread kd (past ++ [existT c a])%list (k a)]> (sy_threads s) ++ spawned namespace c a)%list)
          | None => None
          end
      | _ => None
      end
  | Publish i action =>
      match running_session (sy_threads s !! i) with
      | Some ptr => Some (mkSystem (sy_clock s) (on_object (publishAction action) ptr (sy_manager s)) (sy_threads s))
      | None => None
      end
  | Receive i =>
      match running_session (sy_threads s !! i) with
      | Some ptr => Some (mkSystem (sy_clock s) (on_object (with_code None) ptr (sy_manager s)) (sy_threads s))
      | None => None
      end
  | Tick now => if (sy_clock s <=? now)%Z then Some (mkSystem now (sy_manager s) (sy_threads s)) else None
  end.

Lemma move_sound mv s s' : move_step mv s = Some s' -> step config namespace broker s s'.
Proof.
  destruct mv as [r|i o|i action|i|now]; cbn.
  - intros [= <-]. apply step_arrive. destruct r; constructor.
  - destruct (sy_threads s !! i) as [[kd past [r|c k]]|] eqn:Ht; [done| |done].
    destruct (serve _ _ _ _ c) as [[a m']|] eqn:Hs; [|done]. intros [= <-]. by eapply step_call, served_call, serve_sound.
  - destruct (sy_threads s !! i) as [[kd past [r|c k]]|] eqn:Ht; try done. destruct c; try done. intros [= <-]. by eapply step_publish.
  - destruct (sy_threads s !! i) as [[kd past [r|c k]]|] eqn:Ht; try done. destruct c; try done. intros [= <-]. by eapply step_receive.
  - destruct (_ <=? _)%Z eqn:E; [|done]. intros [= <-]. by apply step_tick, Z.leb_le.
Qed.

Fixpoint moves (mvs : list move) (s : system) : option system :=
  match mvs with
  | [] => Some s
  | mv :: mvs => match move_step mv s with Some s' => moves mvs s' | None => None end
  end.

Lemma moves_reachable mvs s s' : reachable config namespace broker s -> moves mvs s = Some s' -> reachable config namespace broker s'.
Proof.
  revert s. induction mvs as [|mv mvs IH]; intros s Hs; cbn; [by intros [= <-]|].
  destruct (move_step mv s) as [s1|] eqn:E; [|done]. apply IH. eapply reachable_step; [exact Hs|by eapply move_sound].
Qed.
End Moves.

(** ** A run

    Alice enrolls an account with pasted codes: the runner asks for a code,
    she gives it, and the credential is in her slot; Bob's attempt is turned
    away while hers runs. *)
Definition alice : PortalPrincipal := mkPortalPrincipal "https://id.example" "alice" "Alice".
Definition bob : PortalPrincipal := mkPortalPrincipal "https://id.example" "bob" "Bob".
Definition alice_slot : Slot := mkSlot "alice-claude" "Claude" alice "claude-oauth-file" "" "alice-credentials" "claude.json".
Definition bob_slot : Slot := mkSlot "bob-claude" "Claude" bob "claude-oauth-file" "" "bob-credentials" "claude.json".
Definition limits : EnrollmentConfig := mkEnrollmentConfig 10 1 600 65536 false.

Definition credential : string := dq "{'claudeAiOauth':{'accessToken':'a','refreshToken':'r'}}".

Definition answers_for (token : list Z) : oracle := mkOracle token (credential, "") true.
Definition id_bytes : list Z := repeat 7%Z 32.
Definition session_id : string := base64url id_bytes.
Definition by_default : oracle := answers_for id_bytes.

Definition advance (i n : nat) : list move := repeat (Advance i by_default) n.

(** Thread 0 starts the session, whose goroutine is thread 1; thread 2 is
    Bob's attempt, thread 3 gives the code, thread 4 polls. *)
Definition enrolling : list move :=
  (Arrive (AskStart alice alice_slot 1000000000000000%Z) :: advance 0 4
   ++ Publish 1 (mkAction "https://claude.com/cai/oauth/authorize" "" true)
   :: Arrive (AskStart bob bob_slot 1000000000000000%Z) :: advance 2 1
   ++ Arrive (AskCode alice session_id "one-time-code") :: advance 3 2 ++ [Receive 1])%list.

Definition enrolled : list move :=
  (enrolling ++ advance 1 6 ++ Arrive (AskStatus alice session_id) :: advance 4 1)%list.

Definition run_from (mvs : list move) : option system := moves limits "nvt" mvs (fresh_system limits "nvt" 0%Z).
Definition results (s : option system) : option (list (option reply)) :=
  match s with
  | Some s => Some (map (fun t => match th_rest t with Ret r => Some r | Call _ _ => None end) (sy_threads s))
  | None => None
  end.

Definition state (mvs : list move) : system := default (fresh_system limits "nvt" 0%Z) (run_from mvs).

Lemma state_reachable mvs : reachable limits "nvt" false (state mvs).
Proof.
  unfold state. destruct (run_from mvs) as [s|] eqn:E; [|apply reachable_start]. eapply moves_reachable; [apply reachable_start|exact E].
Qed.

Lemma enrollments_bounded_witness :
  length (sy_threads (state enrolling)) = 4%nat /\ Z.of_nat (mg_slots (sy_manager (state enrolling))) = 1%Z
  /\ (Z.of_nat (mg_slots (sy_manager (state enrolling))) <= Z.max 0 (ec_MaxConcurrent limits))%Z.
Proof.
  split; [vm_compute; reflexivity|]. split; [vm_compute; reflexivity|].
  exact (proj1 (enrollments_bounded limits "nvt" false (state enrolling) (state_reachable enrolling))).
Defined.

Definition alice_session : enrollmentSession :=
  Eval vm_compute in default (new_session limits 0%Z 0%Z alice alice_slot "" "" "") (mg_objects (sy_manager (state enrolled)) !! 0%nat).

Lemma terminal_status_earned_witness : es_Status alice_session = enrollmentSucceeded
  /\ exists i t s0, sy_threads (state enrolled) !! i = Some t /\ th_kind t = Goroutine 0 s0 /\ existT (Acknowledge session_id) true ∈ th_past t.
Proof.
  split; [reflexivity|].
  destruct (terminal_status_earned limits "nvt" false (state enrolled) 0%nat alice_session (state_reachable enrolled)
    ltac:(vm_compute; reflexivity) eq_refl) as (i & t & s0 & Ht & Hk & _ & _ & Hok & _).
  exists i, t, s0. split; [exact Ht|]. split; [exact Hk|]. exact (proj2 (Hok eq_refl)).
Defined.

Definition goroutine : thread := default (mkThread Caller [] (Ret Ended)) (sy_threads (state enrolled) !! 1%nat).

Lemma credentials_stored_by_owner_witness :
  credential_of (Patch "nvt" "alice-credentials" "claude.json" credential) = Some credential
  /\ exists ptr s0 x, th_kind goroutine = Goroutine ptr s0 /\ mg_objects (sy_manager (state enrolled)) !! ptr = Some x
       /\ Owns (es_Principal x) (es_Slot x) = true
       /\ into_slot "nvt" x (Patch "nvt" "alice-credentials" "claude.json" credential).
Proof.
  split; [reflexivity|].
  destruct (credentials_stored_by_owner limits "nvt" false (state enrolled) 1%nat goroutine (take 2 (th_past goroutine))
    (existT (Patch "nvt" "alice-credentials" "claude.json" credential) true) (drop 3 (th_past goroutine)) credential
    (state_reachable enrolled) ltac:(vm_compute; reflexivity) ltac:(vm_compute; reflexivity) eq_refl)
    as (ptr & s0 & x & H1 & H2 & H3 & H4 & _).
  exists ptr, s0, x. split; [exact H1|]. split; [exact H2|]. split; [exact H3|exact H4].
Defined.

Lemma enrollments_drain_witness :
  forallb (fun t => is_Ret (th_rest t)) (sy_threads (state enrolled)) = true /\ Acc (flip (progress limits "nvt" false)) (state enrolling).
Proof.
  split; [vm_compute; reflexivity|]. exact (proj1 (enrollments_drain limits "nvt" false (state enrolling) (state_reachable enrolling))).
Defined.
