(* ===== verification/PortalServer.v ===== *)
(** * The portal's handlers

    [Server.ServeHTTP] of server.go with every handler behind it: a request
    goes through the session, the origin and CSRF checks and the confirmation
    header before anything of its principal changes.  A handler is a program
    whose calls are the operations of the authenticator, the enrollment
    manager, the broker, the switch coordinator and the patcher; their answers
    are arbitrary.  The audit log and the headers that every response carries
    are left out; of the data a page's template is given, the slots, the
    templates, the account and the CSRF token are kept. *)
From stdpp Require Import base list strings.
From Stdlib Require Import ZArith Lia Ascii.
From S2P Require Import Prelude GoStrings GoUrl GoJson GoHttp GoEncoding Validation Eligibility LocalRun Program PortalTypes Enrollment.

Local Open Scope Z_scope.
Local Open Scope go_scope.
Local Open Scope string_scope.

(** ** Requests and responses *)

(** [pq_Body] is what reading the body to its end gives, [None] a read error;
    the headers are their first values, empty when absent. *)
Record PortalRequest := mkPortalRequest {
  pq_Method : string;
  pq_Path : string;
  pq_RawQuery : string;
  pq_Origin : string;
  pq_Csrf : string;
  pq_Confirm : string;
  pq_ContentType : string;
  pq_ContentLength : Z;
  pq_Body : option string
}.

Inductive portal_body : Type :=
| Plain (text : string)
| NoBody
| Location (url : string)
| SlotsPage (csrf : string) (slots : list Slot) (recovery : bool)
| AccountPage (csrf label : string) (account : DynamicAccountState) (templates : list DynamicCredentialTemplate) (recovery : bool)
| StatusJSON (status : EnrollmentStatus)
| AccountJSON (account : DynamicAccountState)
| OutcomeJSON (key name : string)
| Delegated.

Record PortalResponse := mkPortalResponse { pr_Status : Z; pr_Body : portal_body }.

Definition Error (text : string) (status : Z) : PortalResponse := mkPortalResponse status (Plain text).
Definition NotFound : PortalResponse := Error "404 page not found" 404.
Definition NoContent : PortalResponse := mkPortalResponse 204 NoBody.

(** [io.ReadAll(http.MaxBytesReader(w, r.Body, limit))] *)
Definition read_max (body : option string) (limit : Z) : option string :=
  match body with Some data => if (len data <=? limit)%Z then Some data else None | None => None end.

(** ** mime

    Whether [mime.ParseMediaType] returns a parameter: pieces of a parameter
    ([name*0], [name*]) are put together after the others have been read, and
    not at all after a trailing semicolon. *)

(** The parameters as they are written, and whether the text ended in a
    semicolon. *)
Fixpoint media_pieces (fuel : nat) (v : string) : list (string * string) * bool :=
  match fuel with
  | O => ([], false)
  | S fuel =>
      let v := trim_left_space v in
      if v =? "" then ([], false)
      else match consumeMediaParam v with
      | None => ([], true)
      | Some (key, value, rest) => let '(pieces, semicolon) := media_pieces fuel rest in ((key, value) :: pieces, semicolon)
      end
  end.

Fixpoint percent_escaped (s : string) : bool :=
  match s with
  | EmptyString => true
  | String "%" (String a (String b rest)) => is_hex a && is_hex b && percent_escaped rest
  | String "%" _ => false
  | String _ rest => percent_escaped rest
  end.

(** [decode2231Enc], up to whether it decodes. *)
Definition decode2231Enc (v : string) : bool :=
  let '(charset, rest, ok) := Cut v "'"%char in
  let '(_, encoded, ok') := Cut rest "'"%char in
  ok && ok' && mem (ToLower charset) ["us-ascii"; "utf-8"] && percent_escaped encoded.

Definition stitched (pieces : list (string * string)) (base : string) : bool :=
  match member (base ++ "*") pieces with
  | Some v => decode2231Enc v
  | None => mem (base ++ "*0") (map fst pieces) || mem (base ++ "*0*") (map fst pieces)
  end.

Definition media_parameters (v : string) : bool :=
  let '(base, _, _) := Cut v ";"%char in
  let rest := String.substring (String.length base) (String.length v - String.length base) v in
  let '(pieces, semicolon) := media_pieces (S (String.length rest)) rest in
  existsb (fun kv => let '(base, _, starred) := Cut (fst kv) "*"%char in
    if starred then negb semicolon && stitched pieces base else true) pieces.

(** [json_body]: the media type is exactly JSON, without parameters. *)
Definition json_content (contentType : string) : bool :=
  match ParseMediaType contentType with
  | Some mediaType => (mediaType =? jsonContentType) && negb (media_parameters contentType)
  | None => false
  end.

(** ** Checks *)

Definition sameOrigin (r : PortalRequest) (expected : string) : bool :=
  match url_Parse (pq_Origin r) with
  | Some u =>
      (Scheme u ++ "://" ++ Host u =? expected) && negb (bool_decide (is_Some (User u))) && (Path u =? "") && (RawQuery u =? "")
      && (Fragment u =? "")
  | None => false
  end.

Definition validMutation (r : PortalRequest) (origin csrf : string) : bool := sameOrigin r origin && (pq_Csrf r =? csrf).

Definition code_fields : list (field json string) := [("code", into_string (fun s _ => s))].

Definition readEnrollmentCode (r : PortalRequest) : option string :=
  let limit := maxEnrollmentCodeBytes + 64 in
  if negb (json_content (pq_ContentType r)) || (limit <? pq_ContentLength r)%Z then None
  else
    body ← read_max (pq_Body r) limit; document ← strict_document body;
    code ← decode_struct code_fields "" document;
    if validEnrollmentCode code then Some code else None.

Definition ownedSlot (cfg : PortalConfig) (principal : PortalPrincipal) (name : string) : option Slot :=
  List.find (fun slot => (sl_Name slot =? name) && Owns principal slot) (pc_Slots cfg).

Definition dynamicTemplate (cfg : PortalConfig) (name : string) : option DynamicCredentialTemplate :=
  List.find (fun t => dt_Name t =? name) (pc_Templates cfg).

(** [strings.CutPrefix] and [strings.CutSuffix]. *)
Definition CutPrefix (s prefix : string) : option string := if HasPrefix s prefix then Some (TrimPrefix s prefix) else None.
Definition CutSuffix (s suffix : string) : option string := if HasSuffix s suffix then Some (TrimSuffix s suffix) else None.

(** The name between a prefix and a suffix of a path. *)
Definition named (path prefix suffix : string) : option string :=
  if HasPrefix path prefix && HasSuffix path suffix then Some (TrimSuffix (TrimPrefix path prefix) suffix) else None.

Definition bad_segment (name : string) : bool := (name =? "") || has_byte name "/"%char.

(** ** Calls *)

Record session_info := mkSessionInfo {
  si_Principal : PortalPrincipal;
  si_CSRF : string;
  si_ExpiresAt : time;
  si_EligibilityExpiresAt : time
}.

Inductive coordinator_error : Type := ErrTemplateSwitchDenied | ErrTemplateSwitchUnavailable.

Inductive portal_call : Type :=
| RunnerReady
| BrokerReady
| AuthLogin
| AuthCallback
| AuthSession
| AuthLogout (csrf : string)
| EnrollmentsStart (principal : PortalPrincipal) (slot : Slot) (authExpiresAt : time)
| EnrollmentsStartDynamic (principal : PortalPrincipal) (template : DynamicCredentialTemplate) (action : string) (authExpiresAt : time)
| EnrollmentsStatus (principal : PortalPrincipal) (id : string)
| EnrollmentsProvideCode (principal : PortalPrincipal) (id code : string)
| EnrollmentsCancel (principal : PortalPrincipal) (id : string)
| EnrollmentsCancelPrincipal (principal : PortalPrincipal)
| NewToken
| AccountState (principal : PortalPrincipal)
| AccountEnroll (principal : PortalPrincipal) (template operationID document : string) (expires : time)
| AccountReconnect (principal : PortalPrincipal) (operationID document : string) (expires : time)
| AccountRevoke (principal : PortalPrincipal) (operationID : string)
| SwitchRequest (principal : PortalPrincipal) (operationID : string)
| SwitchAuthorize (requestID : string)
| SecretPatch (namespace name key document : string).

Definition portal_answer (c : portal_call) : Type :=
  match c with
  | RunnerReady | BrokerReady | AuthLogout _ | SecretPatch _ _ _ _ => bool
  | AuthSession => option session_info
  | EnrollmentsStart _ _ _ | EnrollmentsStartDynamic _ _ _ _ | EnrollmentsStatus _ _ => result enrollment_error EnrollmentStatus
  | EnrollmentsProvideCode _ _ _ | EnrollmentsCancel _ _ => result enrollment_error unit
  | NewToken => option string
  | AccountState _ => result broker_error DynamicAccountState
  | AccountEnroll _ _ _ _ _ | AccountReconnect _ _ _ _ | AccountRevoke _ _ => result broker_error unit
  | SwitchRequest _ _ => result broker_error (string * bool)
  | SwitchAuthorize _ => result coordinator_error unit
  | _ => unit
  end.

Abbreviation handling := (early portal_answer PortalResponse).
Definition ask (c : portal_call) : handling (portal_answer c) := then_do (perform c).

(** ** Handlers *)

Section Handlers.
Variables (cfg : PortalConfig) (broker coordinator : bool) (r : PortalRequest).

Definition path_at (suffix : string) : bool := pq_Path r =? portal_Path cfg suffix.

(** [reject], the audit line aside. *)
Definition reject (status : Z) (reason : string) : PortalResponse := Error reason status.

Inductive action_error : Type :=
| SwitchDenied
| TemplateConflict
| ActionUnavailable.

Definition authorizeTemplateSwitch (principal : PortalPrincipal) : prog portal_answer (option action_error) :=
  if negb coordinator then Ret (Some TemplateConflict)
  else Call NewToken (fun token =>
    match token with
    | None => Ret (Some ActionUnavailable)
    | Some operationID =>
        Call (SwitchRequest principal operationID) (fun requested =>
          match requested with
          | Err _ => Ret (Some ActionUnavailable)
          | Ok (requestID, authorized) =>
              if authorized : bool then Ret None
              else Call (SwitchAuthorize requestID) (fun answered =>
                match answered with
                | Ok _ => Ret None
                | Err ErrTemplateSwitchDenied => Ret (Some SwitchDenied)
                | Err ErrTemplateSwitchUnavailable => Ret (Some ActionUnavailable)
                end)
          end)
    end).

Definition dynamicAction (principal : PortalPrincipal) (templateName : string) : prog portal_answer (result action_error string) :=
  Call (AccountState principal) (fun answered =>
    match answered with
    | Err _ => Ret (Err ActionUnavailable)
    | Ok account =>
        let same := ac_Template account =? templateName in
        if ac_State account =? accountStateNotEnrolled then Ret (Ok dynamicActionEnroll)
        else if (ac_State account =? accountStateUnready) || (ac_State account =? accountStateReady) then
          Ret (if same then Ok dynamicActionReconnect else Err TemplateConflict)
        else if ac_State account =? accountStateRevoked then
          if same then Ret (Ok dynamicActionEnroll)
          else pbind (authorizeTemplateSwitch principal) (fun failed =>
            Ret (match failed with None => Ok dynamicActionEnroll | Some e => Err e end))
        else Ret (Err ActionUnavailable)
    end).

Definition action_rejected (e : action_error) : PortalResponse :=
  match e with
  | SwitchDenied => reject 409 "active-agentruns"
  | TemplateConflict => reject 409 "template-conflict"
  | ActionUnavailable => reject 503 reasonBrokerUnavailable
  end.

Definition start_rejected (e : enrollment_error) : PortalResponse :=
  match e with ErrEnrollmentBusy => reject 429 "capacity" | _ => reject 502 "runner-start-failed" end.

Definition started (answered : result enrollment_error EnrollmentStatus) : handling PortalResponse :=
  match answered with Ok status => go (mkPortalResponse 202 (StatusJSON status)) | Err e => stop (start_rejected e) end.

(** An answer, or the response that an error gives. *)
Definition checked {E A} (respond : E -> PortalResponse) (answered : result E A) : handling A :=
  match answered with Ok a => go a | Err e => stop (respond e) end.

Definition present {A} (response : PortalResponse) (o : option A) : handling A :=
  match o with Some a => go a | None => stop response end.

Definition dashboard (session : session_info) : handling PortalResponse :=
  if pc_Dynamic cfg then
    let! account :=
      (if broker then
         let! answered := ask (AccountState (si_Principal session)) in
         go (match answered with Ok account => account | Err _ => mkAccountState accountStateUnavailable "" 0 end)
       else go (mkAccountState accountStateUnavailable "" 0)) in
    let label := if (ac_State account =? accountStateReady) || (ac_State account =? accountStateUnready) then "Reconnect" else "Connect" in
    go (mkPortalResponse 200 (AccountPage (si_CSRF session) label account (pc_Templates cfg) (pc_RecoveryUpload cfg)))
  else
    go (mkPortalResponse 200
      (SlotsPage (si_CSRF session) (List.filter (Owns (si_Principal session)) (pc_Slots cfg)) (pc_RecoveryUpload cfg))).

Definition dynamicAccount (session : session_info) : handling PortalResponse :=
  when negb (pq_Method r =? "GET") || negb (pq_RawQuery r =? "") answering NotFound;
  let! answered := ask (AccountState (si_Principal session)) in
  let! account := checked (fun _ => Error reasonBrokerUnavailable 503) answered in
  go (mkPortalResponse 200 (AccountJSON account)).

Definition dynamicConnect (session : session_info) (name : string) : handling PortalResponse :=
  when negb (pq_Method r =? "POST") || negb (pq_RawQuery r =? "") answering NotFound;
  let! template := present NotFound (dynamicTemplate cfg name) in
  when negb (validMutation r (pc_publicOrigin cfg) (si_CSRF session)) answering reject 403 "csrf";
  when negb (pq_Confirm r =? confirmationReplace) answering reject 400 "confirmation-required";
  let! decided := then_do (dynamicAction (si_Principal session) name) in
  let! action := checked action_rejected decided in
  let! answered := ask (EnrollmentsStartDynamic (si_Principal session) template action (si_EligibilityExpiresAt session)) in
  started answered.

Definition readRecoveryCredential : handling string :=
  when negb (json_content (pq_ContentType r)) answering reject 415 "content-type";
  when (pc_MaxUploadBytes cfg <? pq_ContentLength r)%Z answering reject 413 "too-large";
  present (reject 413 "too-large") (read_max (pq_Body r) (pc_MaxUploadBytes cfg)).

Definition completion_rejected (e : broker_error) : PortalResponse :=
  let reason := brokerCompletionReason e in
  reject (if reason =? "account-conflict" then 409 else 502) reason.

Definition dynamicRecovery (session : session_info) (name : string) : handling PortalResponse :=
  when negb (pc_RecoveryUpload cfg) || negb (pq_Method r =? "PUT") || negb (pq_RawQuery r =? "") answering NotFound;
  let! template := present NotFound (dynamicTemplate cfg name) in
  when negb (validMutation r (pc_publicOrigin cfg) (si_CSRF session)) answering reject 403 "csrf";
  when negb (pq_Confirm r =? confirmationReplace) answering reject 400 "confirmation-required";
  let! decided := then_do (dynamicAction (si_Principal session) name) in
  let! action := checked action_rejected decided in
  let! body := readRecoveryCredential in
  when negb (ValidateCredential (dt_Adapter template) body) answering reject 400 "invalid-credential";
  let! token := ask NewToken in
  let! operationID := present (reject 503 reasonBrokerUnavailable) token in
  let! answered :=
    ((if action =? dynamicActionEnroll
      then ask (AccountEnroll (si_Principal session) name operationID body (si_EligibilityExpiresAt session))
      else ask (AccountReconnect (si_Principal session) operationID body (si_EligibilityExpiresAt session)))
     : handling (result broker_error unit)) in
  let! done := checked completion_rejected answered in
  go (mkPortalResponse 200 (OutcomeJSON "template" name)).

Definition dynamicRevoke (session : session_info) : handling PortalResponse :=
  when negb (pq_Method r =? "POST") || negb (pq_RawQuery r =? "")
       || negb (validMutation r (pc_publicOrigin cfg) (si_CSRF session)) || negb (pq_Confirm r =? "revoke")
    answering Error "request rejected" 403;
  let failed := Error "account-update-failed" 502 in
  let! token := ask NewToken in
  let! operationID := present failed token in
  let! answered := ask (AccountRevoke (si_Principal session) operationID) in
  let! revoked := checked (fun _ => failed) answered in
  let! cancelled := ask (EnrollmentsCancelPrincipal (si_Principal session)) in
  go (mkPortalResponse 200 (AccountJSON (mkAccountState accountStateRevoked "" 0))).

Definition connect (session : session_info) (name : string) : handling PortalResponse :=
  when negb (pq_Method r =? "POST") || negb (pq_RawQuery r =? "") answering NotFound;
  let! slot := present NotFound (ownedSlot cfg (si_Principal session) name) in
  when negb (validMutation r (pc_publicOrigin cfg) (si_CSRF session)) answering reject 403 "csrf";
  when negb (pq_Confirm r =? confirmationReplace) answering reject 400 "confirmation-required";
  let! answered := ask (EnrollmentsStart (si_Principal session) slot (si_ExpiresAt session)) in
  started answered.

Definition enroll (session : session_info) (name : string) : handling PortalResponse :=
  when negb (pc_RecoveryUpload cfg) || negb (pq_Method r =? "PUT") || negb (pq_RawQuery r =? "") answering NotFound;
  let! slot := present NotFound (ownedSlot cfg (si_Principal session) name) in
  when negb (validMutation r (pc_publicOrigin cfg) (si_CSRF session)) answering reject 403 "csrf";
  when negb (pq_Confirm r =? confirmationReplace) answering reject 400 "confirmation-required";
  when negb (json_content (pq_ContentType r)) answering reject 415 "content-type";
  when (pc_MaxUploadBytes cfg <? pq_ContentLength r)%Z answering reject 413 "too-large";
  let! body := present (reject 413 "too-large") (read_max (pq_Body r) (pc_MaxUploadBytes cfg)) in
  when negb (ValidateCredential (sl_Adapter slot) body) answering reject 400 "invalid-credential";
  let! patched := ask (SecretPatch (pc_Namespace cfg) (sl_SecretName slot) (sl_DataKey slot) body) in
  when negb patched answering reject 502 "secret-update-failed";
  go (mkPortalResponse 200 (OutcomeJSON "slot" (sl_Name slot))).

Definition enrollment (session : session_info) (id : string) : handling PortalResponse :=
  when negb (pq_RawQuery r =? "") answering NotFound;
  if pq_Method r =? "DELETE" then
    when negb (validMutation r (pc_publicOrigin cfg) (si_CSRF session)) answering Error "request rejected" 403;
    let! answered := ask (EnrollmentsCancel (si_Principal session) id) in
    let! cancelled := checked (fun _ => NotFound) answered in
    go NoContent
  else
    when negb (pq_Method r =? "GET") answering NotFound;
    let! answered := ask (EnrollmentsStatus (si_Principal session) id) in
    let! status := checked (fun _ => NotFound) answered in
    go (mkPortalResponse 200 (StatusJSON status)).

Definition enrollmentCode (session : session_info) (id : string) : handling PortalResponse :=
  when negb (pq_Method r =? "POST") || negb (pq_RawQuery r =? "") answering NotFound;
  when negb (validMutation r (pc_publicOrigin cfg) (si_CSRF session)) answering Error "request rejected" 403;
  let! code := present (Error "request rejected" 400) (readEnrollmentCode r) in
  let! answered := ask (EnrollmentsProvideCode (si_Principal session) id code) in
  let! provided :=
    checked (fun e => match e with ErrEnrollmentNotFound => NotFound | _ => Error "request rejected" 409 end) answered in
  go NoContent.

Definition logout (session : session_info) : handling PortalResponse :=
  when negb (pq_Method r =? "POST") || negb (pq_RawQuery r =? "") || negb (sameOrigin r (pc_publicOrigin cfg))
    answering Error "request rejected" 403;
  let! ended := ask (AuthLogout (si_CSRF session)) in
  when negb ended answering Error "request rejected" 403;
  let! cancelled := ask (EnrollmentsCancelPrincipal (si_Principal session)) in
  go NoContent.

(** ** Routes *)

(** A path that ends in a name, to the handler of the name. *)
Definition on_name (name : string) (handler : string -> handling PortalResponse) : handling PortalResponse :=
  when bad_segment name answering NotFound; handler name.

Definition ready : handling PortalResponse :=
  when negb (pq_Method r =? "GET") answering Error "method not allowed" 405;
  let unavailable := Error "dependency unavailable" 503 in
  let! runner := ask RunnerReady in
  when negb runner answering unavailable;
  if pc_Dynamic cfg then
    when negb broker answering unavailable;
    let! accounts := ask BrokerReady in
    when negb accounts answering unavailable;
    go NoContent
  else go NoContent.

(** The requests that carry no session. *)
Definition serve_open : handling (option PortalResponse) :=
  if negb (pc_basePath cfg =? "") && (pq_Path r =? pc_basePath cfg) && (pq_Method r =? "GET") && (pq_RawQuery r =? "") then
    stop (mkPortalResponse 308 (Location (portal_Path cfg "/")))
  else if pq_Path r =? "/healthz" then
    stop (if pq_Method r =? "GET" then NoContent else Error "method not allowed" 405)
  else if pq_Path r =? "/readyz" then let! response := ready in go (Some response)
  else if path_at "/login" then let! delegated := ask AuthLogin in go (Some (mkPortalResponse 0 Delegated))
  else if negb (pc_AuthMode cfg =? authModeLocal) && path_at (pc_CallbackPath cfg) then
    let! delegated := ask AuthCallback in go (Some (mkPortalResponse 0 Delegated))
  else go None.

Definition serve_dynamic (session : session_info) : option (handling PortalResponse) :=
  let prefix := portal_Path cfg "/templates/" in
  if path_at "/account" then Some (dynamicAccount session)
  else if path_at "/account/revoke" then Some (dynamicRevoke session)
  else match named (pq_Path r) prefix "/connect" with
  | Some name => Some (on_name name (dynamicConnect session))
  | None =>
      match named (pq_Path r) prefix "/credential" with
      | Some name => Some (on_name name (dynamicRecovery session))
      | None => None
      end
  end.

Definition serve_static (session : session_info) : option (handling PortalResponse) :=
  let prefix := portal_Path cfg "/slots/" in
  match named (pq_Path r) prefix "/connect" with
  | Some name => Some (on_name name (connect session))
  | None =>
      match named (pq_Path r) prefix "/credential" with
      | Some name => Some (on_name name (enroll session))
      | None => None
      end
  end.

Definition serve_enrollments (session : session_info) : handling PortalResponse :=
  match CutPrefix (pq_Path r) (portal_Path cfg "/enrollments/") with
  | None => stop NotFound
  | Some tail =>
      match CutSuffix tail "/code" with
      | Some id => on_name id (enrollmentCode session)
      | None => on_name tail (enrollment session)
      end
  end.

Definition serve_session (session : session_info) : handling PortalResponse :=
  if path_at "/" then
    when negb (pq_Method r =? "GET") || negb (pq_RawQuery r =? "") answering Error "not found" 404;
    dashboard session
  else if path_at "/logout" then logout session
  else
    match (if pc_Dynamic cfg then serve_dynamic session else serve_static session) with
    | Some handled => handled
    | None => serve_enrollments session
    end.

Definition portal_ServeHTTP : prog portal_answer PortalResponse :=
  finish (
    let! opened := serve_open in
    match opened with
    | Some response => stop response
    | None =>
        let! found := ask AuthSession in
        match found with
        | Some session => serve_session session
        | None =>
            stop (if path_at "/" && (pq_Method r =? "GET") then mkPortalResponse 302 (Location (portal_Path cfg "/login"))
                  else Error "authentication required" 401)
        end
    end).
End Handlers.

(** ** What a request may cause

    What a handler has found out so far: the session, the account, whether a
    switch of template was requested or authorized, whether the session or the
    account is over. *)
Record known := mkKnown {
  kn_session : option session_info;
  kn_account : option DynamicAccountState;
  kn_requested : option string;
  kn_authorized : bool;
  kn_over : bool
}.

Definition nothing_known : known := mkKnown None None None false false.

Definition learn (g : known) (c : portal_call) (a : portal_answer c) : known :=
  let 'mkKnown session account requested authorized over := g in
  match c return portal_answer c -> known with
  | AuthSession => fun a => mkKnown a account requested authorized over
  | AccountState _ => fun a => mkKnown session (match a with Ok state => Some state | Err _ => None end) requested authorized over
  | SwitchRequest _ _ => fun a =>
      match a with Ok (id, authorized) => mkKnown session account (Some id) authorized over | Err _ => g end
  | SwitchAuthorize _ => fun a => mkKnown session account requested (is_ok a) over
  | AuthLogout _ => fun a => mkKnown session account requested authorized a
  | AccountRevoke _ _ => fun a => mkKnown session account requested authorized (is_ok a)
  | _ => fun _ => g
  end a.

Section Guards.
Variables (cfg : PortalConfig) (r : PortalRequest).

(** A request that its session's page sent on purpose: the origin, the token
    that only the page knows, and no query. *)
Definition deliberate (session : session_info) : Prop :=
  sameOrigin r (pc_publicOrigin cfg) = true /\ pq_Csrf r = si_CSRF session /\ pq_RawQuery r = "".

(** What the state of an account allows for a template.  The template of an
    account that is in use never changes, that of a revoked one only with the
    authorization of the switch. *)
Definition action_allowed (g : known) (template action : string) : Prop :=
  exists account, kn_account g = Some account /\
    ((action = dynamicActionEnroll
      /\ (ac_State account = accountStateNotEnrolled
          \/ (ac_State account = accountStateRevoked /\ (ac_Template account = template \/ kn_authorized g = true))))
     \/ (action = dynamicActionReconnect /\ (ac_State account = accountStateReady \/ ac_State account = accountStateUnready)
         /\ ac_Template account = template)).

Definition by_session (g : known) (P : session_info -> Prop) : Prop := exists session, kn_session g = Some session /\ P session.

(** A recovery upload of a valid document within the bound. *)
Definition uploaded (adapter document : string) : Prop :=
  pc_RecoveryUpload cfg = true /\ pq_Method r = "PUT" /\ pq_Confirm r = confirmationReplace
  /\ pq_Body r = Some document /\ (len document <= pc_MaxUploadBytes cfg)%Z /\ ValidateCredential adapter document = true.

(** What a request may ask of a template's account. *)
Definition template_named (suffix name : string) : Prop :=
  pc_Dynamic cfg = true /\ named (pq_Path r) (portal_Path cfg "/templates/") suffix = Some name.

Definition slot_named (suffix : string) (principal : PortalPrincipal) (slot : Slot) : Prop :=
  pc_Dynamic cfg = false /\ named (pq_Path r) (portal_Path cfg "/slots/") suffix = Some (sl_Name slot)
  /\ In slot (pc_Slots cfg) /\ Owns principal slot = true.

Definition causes (g : known) (c : portal_call) : Prop :=
  match c with
  | RunnerReady | BrokerReady => pq_Path r = "/readyz"
  | AuthLogin => pq_Path r = portal_Path cfg "/login"
  | AuthCallback => pc_AuthMode cfg <> authModeLocal /\ pq_Path r = portal_Path cfg (pc_CallbackPath cfg)
  | AuthSession | NewToken => True
  | AuthLogout csrf => by_session g (fun session =>
      csrf = si_CSRF session /\ pq_Method r = "POST" /\ pq_RawQuery r = "" /\ sameOrigin r (pc_publicOrigin cfg) = true)
  | EnrollmentsStart principal slot expires => by_session g (fun session =>
      principal = si_Principal session /\ expires = si_ExpiresAt session /\ deliberate session
      /\ pq_Method r = "POST" /\ pq_Confirm r = confirmationReplace /\ slot_named "/connect" principal slot)
  | EnrollmentsStartDynamic principal template action expires => by_session g (fun session =>
      principal = si_Principal session /\ expires = si_EligibilityExpiresAt session /\ deliberate session
      /\ pq_Method r = "POST" /\ pq_Confirm r = confirmationReplace
      /\ template_named "/connect" (dt_Name template) /\ In template (pc_Templates cfg) /\ action_allowed g (dt_Name template) action)
  | EnrollmentsStatus principal _ => by_session g (fun session => principal = si_Principal session /\ pq_Method r = "GET")
  | EnrollmentsProvideCode principal _ code => by_session g (fun session =>
      principal = si_Principal session /\ deliberate session /\ pq_Method r = "POST" /\ validEnrollmentCode code = true)
  | EnrollmentsCancel principal _ => by_session g (fun session =>
      principal = si_Principal session /\ deliberate session /\ pq_Method r = "DELETE")
  | EnrollmentsCancelPrincipal principal => kn_over g = true /\ by_session g (fun session => principal = si_Principal session)
  | AccountState principal => pc_Dynamic cfg = true /\ by_session g (fun session => principal = si_Principal session)
  | AccountEnroll principal template _ document expires => by_session g (fun session =>
      principal = si_Principal session /\ expires = si_EligibilityExpiresAt session /\ deliberate session
      /\ template_named "/credential" template /\ action_allowed g template dynamicActionEnroll
      /\ exists t, In t (pc_Templates cfg) /\ dt_Name t = template /\ uploaded (dt_Adapter t) document)
  | AccountReconnect principal _ document expires => by_session g (fun session =>
      principal = si_Principal session /\ expires = si_EligibilityExpiresAt session /\ deliberate session
      /\ exists t, In t (pc_Templates cfg) /\ template_named "/credential" (dt_Name t)
           /\ action_allowed g (dt_Name t) dynamicActionReconnect /\ uploaded (dt_Adapter t) document)
  | AccountRevoke principal _ => by_session g (fun session =>
      principal = si_Principal session /\ deliberate session /\ pc_Dynamic cfg = true
      /\ pq_Path r = portal_Path cfg "/account/revoke" /\ pq_Method r = "POST" /\ pq_Confirm r = "revoke")
  | SwitchRequest principal _ => by_session g (fun session =>
      principal = si_Principal session /\ deliberate session /\ pq_Confirm r = confirmationReplace
      /\ exists account, kn_account g = Some account /\ ac_State account = accountStateRevoked)
  | SwitchAuthorize id => kn_requested g = Some id /\ kn_authorized g = false
  | SecretPatch namespace name key document => by_session g (fun session =>
      deliberate session /\ namespace = pc_Namespace cfg
      /\ exists slot, slot_named "/credential" (si_Principal session) slot /\ name = sl_SecretName slot /\ key = sl_DataKey slot
           /\ uploaded (sl_Adapter slot) document)
  end.
End Guards.

(** ** The handlers keep to it *)

(** The equations of a handler's checks. *)
Ltac facts := repeat match goal with
  | H : _ || _ = false |- _ => apply orb_false_iff in H as [? ?]
  | H : _ && _ = true |- _ => apply andb_true_iff in H as [? ?]
  | H : negb _ = false |- _ => apply negb_false_iff in H
  | H : negb _ = true |- _ => apply negb_true_iff in H
  | H : (_ =? _)%string = true |- _ => apply String.eqb_eq in H
  | H : validMutation _ _ _ = true |- _ => unfold validMutation in H
  | H : path_at _ _ _ = true |- _ => unfold path_at in H
  end.

Section Guarded.
Variables (cfg : PortalConfig) (broker coordinator : bool) (r : PortalRequest).

Definition any_reply (c : portal_call) (a : portal_answer c) : Prop := True.
Definition whatever {A} (g : known) (a : A) : Prop := True.

Abbreviation guarded Q g m := (safe any_reply (causes cfg r) learn (answers (R := PortalResponse) whatever Q) g m).

Lemma guarded_ask {A} (Q : known -> A -> Prop) g c f : causes cfg r g c -> (forall a, guarded Q (learn g c a) (f a)) -> guarded Q g (ebind (ask c) f).
Proof. intros Hc Hf. apply safe_ebind. cbn. split; [exact Hc|]. intros a _. apply Hf. Qed.

Lemma guarded_ask_last (g : known) c (Q : known -> portal_answer c -> Prop) : causes cfg r g c -> (forall a, Q (learn g c a) a) -> guarded Q g (ask c).
Proof. intros Hc HQ. cbn. split; [exact Hc|]. intros a _. apply HQ. Qed.

Lemma guarded_stop {A} (Q : known -> A -> Prop) g (response : PortalResponse) : guarded Q g (stop response).
Proof. done. Qed.

Lemma guarded_go g (response : PortalResponse) : guarded whatever g (go response).
Proof. done. Qed.

Lemma guarded_when {A} (Q : known -> A -> Prop) g (b : bool) (response : PortalResponse) k : (b = false -> guarded Q g k) -> guarded Q g (if b then stop response else k).
Proof. destruct b; [done|auto]. Qed.

Lemma guarded_present {A B} (Q : known -> B -> Prop) g response (o : option A) f :
  (forall a, o = Some a -> guarded Q g (f a)) -> guarded Q g (ebind (present response o) f).
Proof. intros H. apply safe_ebind. destruct o as [a|]; [by apply H|done]. Qed.

Lemma guarded_checked {E A B} (Q : known -> B -> Prop) g respond (answered : result E A) f :
  (forall a, answered = Ok a -> guarded Q g (f a)) -> guarded Q g (ebind (checked respond answered) f).
Proof. intros H. apply safe_ebind. destruct answered as [a|e]; [by apply H|done]. Qed.

Lemma guarded_started g answered : guarded whatever g (started answered).
Proof. by destruct answered. Qed.

(** Walks through a handler; what each call needs is left. *)
Ltac walk := cbv zeta; repeat lazymatch goal with
  | |- safe _ _ _ _ _ (stop _) => apply guarded_stop
  | |- safe _ _ _ _ _ (go _) => apply guarded_go
  | |- safe _ _ _ _ _ (started _) => apply guarded_started
  | |- safe _ _ _ _ _ (if _ then stop _ else _) => apply guarded_when; intros ?
  | |- safe _ _ _ _ _ (ebind (present _ _) _) => apply guarded_present; intros ? ?
  | |- safe _ _ _ _ _ (ebind (checked _ _) _) => apply guarded_checked; intros ? ?
  | |- safe _ _ _ _ _ (ebind (ask _) _) => apply guarded_ask; [|intros ?]
  end.

Section Session.
Variables (session : session_info) (g : known).
Hypothesis Hsession : kn_session g = Some session.

Lemma owned_slot principal name slot : ownedSlot cfg principal name = Some slot ->
  sl_Name slot = name /\ In slot (pc_Slots cfg) /\ Owns principal slot = true.
Proof. intros H. apply find_some in H as [Hin Hb]. facts. done. Qed.

Lemma template_found name template : dynamicTemplate cfg name = Some template -> dt_Name template = name /\ In template (pc_Templates cfg).
Proof. intros H. apply find_some in H as [Hin Hb]. facts. done. Qed.

Lemma deliberately csrf : sameOrigin r (pc_publicOrigin cfg) = true -> pq_Csrf r = csrf -> csrf = si_CSRF session -> pq_RawQuery r = "" ->
  deliberate cfg r session.
Proof. intros. subst. by repeat split. Qed.

Lemma learn_session c a : c <> AuthSession -> kn_session (learn g c a) = Some session.
Proof. destruct g, c; try done; cbn in *; intros; by try destruct a as [[]|]. Qed.

Lemma connect_guarded name : pc_Dynamic cfg = false -> named (pq_Path r) (portal_Path cfg "/slots/") "/connect" = Some name ->
  guarded whatever g (connect cfg r session name).
Proof.
  intros Hd Hn. unfold connect. walk. facts. destruct (owned_slot _ _ _ H0) as (Hname & Hin & Hown).
  exists session. unfold slot_named. rewrite Hname. repeat split; try done.
Qed.

Lemma read_upload document : read_max (pq_Body r) (pc_MaxUploadBytes cfg) = Some document ->
  pq_Body r = Some document /\ (len document <= pc_MaxUploadBytes cfg)%Z.
Proof. unfold read_max. destruct (pq_Body r) as [data|]; [|done]. destruct (_ <=? _)%Z eqn:E; [|done]. intros [= ->]. split; [done|lia]. Qed.

Lemma enroll_guarded name : pc_Dynamic cfg = false -> named (pq_Path r) (portal_Path cfg "/slots/") "/credential" = Some name ->
  guarded whatever g (enroll cfg r session name).
Proof.
  intros Hd Hn. unfold enroll. walk. facts. destruct (owned_slot _ _ _ H0) as (Hname & Hin & Hown).
  destruct (read_upload _ H5) as [Hbody Hlen].
  exists session. split; [done|]. split; [by repeat split|]. split; [done|]. exists a. unfold slot_named, uploaded. rewrite Hname. by repeat split.
Qed.

Lemma enrollment_guarded id : guarded whatever g (enrollment cfg r session id).
Proof.
  unfold enrollment. apply guarded_when. intros Hq. destruct (pq_Method r =? "DELETE") eqn:Hm; walk; facts; exists session; by repeat split.
Qed.

Lemma code_valid code : readEnrollmentCode r = Some code -> validEnrollmentCode code = true.
Proof.
  unfold readEnrollmentCode. destruct (_ || _); [done|]. destruct (read_max _ _); [|done]. cbn. destruct (strict_document _); [|done]. cbn.
  destruct (decode_struct _ _ _) as [c|]; [|done]. cbn. destruct (validEnrollmentCode c) eqn:E; [|done]. by intros [= <-].
Qed.

Lemma enrollmentCode_guarded id : guarded whatever g (enrollmentCode cfg r session id).
Proof. unfold enrollmentCode. walk. facts. exists session. repeat split; try done. by apply code_valid. Qed.

Lemma logout_guarded : guarded whatever g (logout cfg r session).
Proof.
  unfold logout. walk; facts; [by exists session|]. split; [by destruct g|]. exists session. split; [by apply learn_session|done].
Qed.

Lemma dashboard_guarded : guarded whatever g (dashboard cfg broker session).
Proof.
  unfold dashboard. destruct (pc_Dynamic cfg) eqn:Hd; [|done]. apply safe_ebind. destruct broker; [|done].
  apply guarded_ask; [|done]. split; [done|]. by exists session.
Qed.

Lemma dynamicAccount_guarded : pc_Dynamic cfg = true -> guarded whatever g (dynamicAccount r session).
Proof. intros Hd. unfold dynamicAccount. walk. split; [done|]. by exists session. Qed.

Lemma dynamicRevoke_guarded : pc_Dynamic cfg = true -> path_at cfg r "/account/revoke" = true -> guarded whatever g (dynamicRevoke cfg r session).
Proof.
  intros Hd Hp. unfold dynamicRevoke. walk; facts; [done| |].
  - exists session. split; [by apply learn_session|]. by repeat split.
  - split; [by destruct g; subst|]. exists session. split; [|done]. by destruct g; subst.
Qed.
End Session.

(** *** Templates *)

(** What a decided action lets the rest of the handler rely on. *)
Definition decided_for (session : session_info) (name : string) (g' : known) (decided : result action_error string) : Prop :=
  kn_session g' = Some session /\ match decided with Ok action => action_allowed g' name action | Err _ => True end.

Lemma switch_guarded session g (Q : known -> option action_error -> Prop) account : kn_session g = Some session -> kn_account g = Some account ->
  ac_State account = accountStateRevoked -> deliberate cfg r session -> pq_Confirm r = confirmationReplace ->
  (forall g' e, kn_session g' = Some session -> (e = None -> kn_account g' = Some account /\ kn_authorized g' = true) -> Q g' e) ->
  safe any_reply (causes cfg r) learn Q g (authorizeTemplateSwitch coordinator (si_Principal session)).
Proof.
  intros Hsession Ha Hs Hd Hc HQ. destruct g as [known_session known_account requested authorized over]. cbn in Hsession, Ha. subst.
  unfold authorizeTemplateSwitch. destruct coordinator; cbn [negb safe]; [|by apply HQ].
  split; [done|]. intros [operationID|] _; cbn [safe learn]; [|by apply HQ].
  split. { exists session. split; [done|]. split; [done|]. split; [done|]. split; [done|]. by exists account. }
  intros [[requestID [|]]|e] _; cbn [safe]; [by apply HQ| |by apply HQ].
  split; [done|]. intros [u|[|]] _; by apply HQ.
Qed.

Lemma dynamicAction_guarded session g name : kn_session g = Some session -> pc_Dynamic cfg = true -> deliberate cfg r session -> pq_Confirm r = confirmationReplace ->
  safe any_reply (causes cfg r) learn (decided_for session name) g (dynamicAction coordinator (si_Principal session) name).
Proof.
  intros Hsession Hd Hm Hc. unfold dynamicAction. cbn [safe]. split; [split; [done|by exists session]|].
  intros answered _. destruct answered as [account|e]; [|by split; [eapply learn_session|]].
  assert (Hs : kn_session (learn g (AccountState (si_Principal session)) (Ok account)) = Some session) by by eapply learn_session.
  assert (Ha : kn_account (learn g (AccountState (si_Principal session)) (Ok account)) = Some account) by by destruct g.
  set (g' := learn g _ _) in *. clearbody g'.
  destruct (String.eqb_spec (ac_State account) accountStateNotEnrolled) as [E|_].
  { split; [done|]. exists account. auto. }
  destruct (_ || _) eqn:E.
  { cbn [safe]. destruct (String.eqb_spec (ac_Template account) name) as [Et|_]; [|done]. split; [done|]. exists account. split; [done|]. right.
    split; [done|]. split; [|done]. apply orb_true_iff in E as [E%String.eqb_eq|E%String.eqb_eq]; auto. }
  destruct (String.eqb_spec (ac_State account) accountStateRevoked) as [Er|_]; [|done].
  destruct (String.eqb_spec (ac_Template account) name) as [Et|_].
  { split; [done|]. exists account. split; [done|]. left. split; [done|]. right. auto. }
  apply safe_bind. eapply switch_guarded; [done..|]. intros g1 e Hs1 He. cbn [safe]. destruct e as [e|]; [done|]. split; [done|].
  destruct (He eq_refl) as [H1 H2]. exists account. split; [done|]. left. split; [done|]. right. auto.
Qed.

(** The decided action of a request, then the rest of its handler. *)
Lemma guarded_action {A} (Q : known -> A -> Prop) session g name f : kn_session g = Some session -> pc_Dynamic cfg = true ->
  deliberate cfg r session -> pq_Confirm r = confirmationReplace ->
  (forall g' decided, decided_for session name g' decided -> guarded Q g' (f decided)) ->
  guarded Q g (ebind (then_do (dynamicAction coordinator (si_Principal session) name)) f).
Proof.
  intros Hs Hd Hm Hc Hf. apply safe_ebind, safe_then_do. eapply safe_mono; [|by apply dynamicAction_guarded]. exact Hf.
Qed.

Lemma dynamicConnect_guarded session g name : kn_session g = Some session -> pc_Dynamic cfg = true ->
  named (pq_Path r) (portal_Path cfg "/templates/") "/connect" = Some name -> guarded whatever g (dynamicConnect cfg coordinator r session name).
Proof.
  intros Hs Hd Hn. unfold dynamicConnect. walk. facts. destruct (template_found _ _ H0) as [Hname Hin].
  apply guarded_action; [done|done|by repeat split|done|]. intros g' decided [Hs' Ha]. walk. subst decided.
  exists session. split; [done|]. unfold template_named. rewrite Hname. by repeat split.
Qed.

Lemma dynamicRecovery_guarded session g name : kn_session g = Some session -> pc_Dynamic cfg = true ->
  named (pq_Path r) (portal_Path cfg "/templates/") "/credential" = Some name -> guarded whatever g (dynamicRecovery cfg coordinator r session name).
Proof.
  intros Hs Hd Hn. unfold dynamicRecovery. walk. facts. destruct (template_found _ _ H0) as [Hname Hin].
  apply guarded_action; [done|done|by repeat split|done|]. intros g' decided [Hs' Ha]. walk. subst decided.
  apply safe_ebind. unfold readRecoveryCredential. walk. 
  destruct (read_max _ _) as [body|] eqn:Hb; cbn [present]; [|done]. destruct (read_upload _ Hb) as [Hbody Hlen]. cbn [safe go answers].
  walk; [done|]. facts.
  assert (Hup : uploaded cfg r (dt_Adapter a) body) by by repeat split.
  assert (Hs'' : kn_session (learn g' NewToken a1) = Some session) by by eapply learn_session.
  assert (Hact : action_allowed (learn g' NewToken a1) name a0) by by destruct g'.
  assert (Hdel : deliberate cfg r session) by by repeat split.
  apply safe_ebind. destruct (String.eqb_spec a0 dynamicActionEnroll) as [->|Hne];
    apply guarded_ask_last; try (intros answered; walk); exists session; (split; [done|]); (split; [done|]); (split; [done|]); (split; [done|]).
  - split; [done|]. split; [done|]. by exists a.
  - exists a. unfold template_named. rewrite Hname. split; [done|]. split; [done|]. split; [|done].
    destruct Hact as (account & Ha' & [[? _]|(-> & Hst & Ht)]); [done|]. exists account. auto.
Qed.

(** *** Routes *)

Lemma on_name_guarded g name handler : (forall name', name' = name -> guarded whatever g (handler name')) -> guarded whatever g (on_name name handler).
Proof. intros H. unfold on_name. walk. by apply H. Qed.

Lemma enrollments_guarded session g : kn_session g = Some session -> guarded whatever g (serve_enrollments cfg r session).
Proof.
  intros Hs. unfold serve_enrollments. destruct (CutPrefix _ _) as [tail|]; [|done].
  destruct (CutSuffix tail "/code"); apply on_name_guarded; intros name' _; [by apply enrollmentCode_guarded|by apply enrollment_guarded].
Qed.

Lemma session_guarded session g : kn_session g = Some session -> guarded whatever g (serve_session cfg broker coordinator r session).
Proof.
  intros Hs. unfold serve_session. destruct (path_at cfg r "/"); [walk; by apply dashboard_guarded|].
  destruct (path_at cfg r "/logout"); [by apply logout_guarded|]. destruct (pc_Dynamic cfg) eqn:Hd.
  - unfold serve_dynamic. destruct (path_at cfg r "/account"); [by apply dynamicAccount_guarded|].
    destruct (path_at cfg r "/account/revoke") eqn:Hp; [by apply dynamicRevoke_guarded|].
    destruct (named _ _ "/connect") as [name|] eqn:Hn; [apply on_name_guarded; intros ? ->; by apply dynamicConnect_guarded|].
    destruct (named _ _ "/credential") as [name|] eqn:Hn'; [apply on_name_guarded; intros ? ->; by apply dynamicRecovery_guarded|].
    by apply enrollments_guarded.
  - unfold serve_static. destruct (named _ _ "/connect") as [name|] eqn:Hn; [apply on_name_guarded; intros ? ->; by apply connect_guarded|].
    destruct (named _ _ "/credential") as [name|] eqn:Hn'; [apply on_name_guarded; intros ? ->; by apply enroll_guarded|].
    by apply enrollments_guarded.
Qed.

Lemma ready_guarded g : pq_Path r = "/readyz" -> guarded whatever g (ready cfg broker r).
Proof. intros Hp. unfold ready. walk; [done|]. destruct (pc_Dynamic cfg); [walk; done|done]. Qed.

Lemma open_guarded g : guarded (fun g' (_ : option PortalResponse) => True) g (serve_open cfg broker r).
Proof.
  unfold serve_open. destruct (_ && _ && _ && _); [done|]. destruct (pq_Path r =? "/healthz"); [done|].
  destruct (String.eqb_spec (pq_Path r) "/readyz") as [E|_].
  { apply safe_ebind. eapply safe_mono; [|by apply ready_guarded]. by intros g' [response|response]. }
  destruct (path_at cfg r "/login") eqn:Hl; [apply guarded_ask; [by apply String.eqb_eq in Hl|done]|].
  destruct (_ && _) eqn:Hc; [|done]. facts. apply guarded_ask; [|done]. split; [|done]. intros E. by rewrite E in H.
Qed.

(** C19: Nothing that a request causes is unearned.  Every operation of the
    enrollment manager, of the broker, of the switch coordinator and on a
    Secret is made for the principal of the request's own session; whatever
    changes something was asked for deliberately, from the portal's own page
    (same origin, CSRF token), with the method and the confirmation that the
    operation wants, and concerns a slot the principal owns or a template of
    the configuration; a stored document is valid and within the bound; and
    the template of an account changes only after it was revoked and the
    switch authorized. *)
Theorem requests_guarded : safe any_reply (causes cfg r) learn whatever nothing_known (portal_ServeHTTP cfg broker coordinator r).
Proof.
  unfold portal_ServeHTTP. apply safe_finish. eapply safe_mono; [|apply safe_ebind; eapply safe_mono; [|apply open_guarded]].
  { by intros g [response|response]. }
  intros g [response|[response|]]; [done|done|]. intros _. apply guarded_ask; [done|].
  intros [session|]; [|done]. apply session_guarded. by destruct g.
Qed.
End Guarded.
