(* ===== verification/LocalPlan.v ===== *)
(** * The local platform's plan

    localplatform/plan and the plan half of localplatform/state: the volumes
    and mounts of the trusted services ([preparePlan] of plan.go), the
    configuration files and the merged volume inventory (manager.go), the
    inventory's JSON, and when a volume is well formed (docker_store.go).  The
    documents other packages render from the compiled manifest are a
    parameter. *)
From stdpp Require Import base list strings gmap sorting.
From Stdlib Require Import ZArith Lia Ascii.
From S2P Require Import Prelude GoStrings GoUrl GoJson GoJsonPrint GoEncoding GoHttp Sha256 Contract.

Local Open Scope Z_scope.
Local Open Scope go_scope.
Local Open Scope string_scope.

(** ** Sorting *)

(** [sort.Strings] and [sort.Slice] by a key.  [sort.Slice] leaves equal keys
    in any order, this one in the order they had. *)
Definition str_le (a b : string) : Prop := str_lt b a = false.
#[export] Instance str_le_dec : RelDecision str_le := fun a b => decide (str_lt b a = false).
Definition sort_strings : list string -> list string := merge_sort str_le.
Definition by_key {A} (key : A -> string) (a b : A) : Prop := str_le (key a) (key b).
#[export] Instance by_key_dec {A} (key : A -> string) : RelDecision (by_key key) := fun a b => decide (str_le (key a) (key b)).

Definition uniqueSorted (values : list string) : list string := sort_strings (remove_dups values).

(** ** The plan's data *)

Definition ownerLabel : string := "nvt.dev/local-platform-owner".
Definition custodianLabel : string := "nvt.dev/local-platform-custodian".
Definition roleLabel : string := "nvt.dev/local-platform-role".
Definition volumeLabel : string := "nvt.dev/local-platform-volume".
Definition versionLabel : string := "nvt.dev/local-platform-version".
Definition stateVersion : string := "1".

Abbreviation labels := (gmap string string).

Record Volume := mkVolume {
  v_Name : string;
  v_Role : string;
  v_Owner : string;
  v_Consumers : list string;
  v_Labels : labels
}.

Record Mount := mkMount {
  m_Service : string;
  m_Volume : string;
  m_Subpath : string;
  m_Target : string;
  m_ReadOnly : bool
}.

Record Plan := mkPlan { p_Version : string; p_Project : string; p_Volumes : list Volume; p_Mounts : list Mount }.
Record VolumeInventory := mkInventory { vi_Version : string; vi_Project : string; vi_Volumes : list Volume }.

#[export] Instance Volume_eq_dec : EqDecision Volume.
Proof. solve_decision. Defined.
#[export] Instance VolumeInventory_eq_dec : EqDecision VolumeInventory.
Proof. solve_decision. Defined.
#[export] Instance Mount_eq_dec : EqDecision Mount.
Proof. solve_decision. Defined.

Definition ShortID (value : string) : string := hex_encode (take 12 (Sum256 value)).
Definition PrivateTarget (name : string) : string := "/run/nvt-private/" ++ ShortID name.

Definition nul : string := String "000" "".
Definition GeneratedConfigSuffix : string := "generated-config".
Definition StaticInputSuffix (owner name : string) : string := "input-" ++ ShortID (owner ++ nul ++ name).
Definition GeneratedInputSuffix (name consumer : string) : string := "generated-" ++ ShortID (name ++ nul ++ consumer).
Definition ProducerStateSuffix (name : string) : string := "producer-" ++ ShortID name ++ "-state".
Definition VolumeName (project suffix : string) : string := project ++ "-" ++ suffix.

(** base32.StdEncoding without padding, in lower case: the bits in groups of
    five, the last one filled with zeros. *)
Definition base32_digit (n : Z) : ascii := byte (if (n <? 26)%Z then 97 + n else 24 + n).
Fixpoint base32_digits (n : nat) (value : Z) : string :=
  match n with O => "" | S n' => base32_digits n' (value / 32) ++ String (base32_digit (value mod 32)) "" end.
Definition lower_base32 (bytes : list Z) : string :=
  let bits := 8 * Z.of_nat (length bytes) in
  let n := (bits + 4) / 5 in
  base32_digits (Z.to_nat n) (fold_left (fun acc b => acc * 256 + b) bytes 0 * 2 ^ (5 * n - bits)).

Definition CredentialSlotName (account : string) : string :=
  "slot-" ++ lower_base32 (Sum256 ("nvt.local-credential-slot/v1" ++ nul ++ account)).

(** ** Well-formed volumes *)

(** [equalLabels]: the keys of the left map decide. *)
Definition equalLabels (l r : labels) : bool :=
  (size l =? size r)%nat && forallb (fun '(k, v) => default "" (r !! k) =? v) (map_to_list l).

Definition label (l : labels) (key : string) : string := default "" (l !! key).

Definition volume_labels (project owner role name : string) : labels :=
  {[ownerLabel := project; custodianLabel := owner; roleLabel := role; volumeLabel := name; versionLabel := stateVersion]}.

Definition safeVolumeName (value : string) : bool :=
  (0 <? len value)%Z && (len value <=? 255)%Z
  && match value with String c _ => is_lower c || is_digit c | EmptyString => false end
  && all_bytes (fun c => is_lower c || is_digit c || one_of "-_." c) value.

Definition validVolume (v : Volume) : bool :=
  safeVolumeName (v_Name v) && negb (v_Role v =? "") && negb (v_Owner v =? "")
  && equalLabels (v_Labels v) (volume_labels (label (v_Labels v) ownerLabel) (v_Owner v) (v_Role v) (v_Name v))
  && negb (label (v_Labels v) ownerLabel =? "").

(** ** The inventory's JSON *)

Definition labels_json (l : labels) : json :=
  JObject (prod_map id JString <$> merge_sort (by_key fst) (map_to_list l)).

Definition volume_json (v : Volume) : json :=
  JObject ([("name", JString (v_Name v)); ("role", JString (v_Role v)); ("owner", JString (v_Owner v))]
    ++ (if decide (v_Consumers v = []) then [] else [("consumers", JArray (JString <$> v_Consumers v))])
    ++ [("labels", labels_json (v_Labels v))]).

Definition mount_json (m : Mount) : json :=
  JObject ([("service", JString (m_Service m)); ("volume", JString (m_Volume m))] ++ omitempty "subpath" (m_Subpath m)
    ++ [("target", JString (m_Target m)); ("readOnly", JBool (m_ReadOnly m))]).

Definition plan_json (p : Plan) : json :=
  JObject [("version", JString (p_Version p)); ("project", JString (p_Project p));
    ("volumes", JArray (volume_json <$> p_Volumes p)); ("mounts", JArray (mount_json <$> p_Mounts p))].

Definition inventory_json (i : VolumeInventory) : json :=
  JObject [("version", JString (vi_Version i)); ("project", JString (vi_Project i));
    ("volumes", JArray (volume_json <$> vi_Volumes i))].

(** [canonicalJSON]: an encoder that does not escape HTML, without its
    newline. *)
Definition canonicalJSON (v : json) : string := print_json (H := false) v.

Definition set_string (v : json) (s : string) : option string := into_string (fun s _ => s) v s.

Definition volume_fields : list (field json Volume) := [
  ("name", into_string (fun s v => mkVolume s (v_Role v) (v_Owner v) (v_Consumers v) (v_Labels v)));
  ("role", into_string (fun s v => mkVolume (v_Name v) s (v_Owner v) (v_Consumers v) (v_Labels v)));
  ("owner", into_string (fun s v => mkVolume (v_Name v) (v_Role v) s (v_Consumers v) (v_Labels v)));
  ("consumers", into_slice set_string "" v_Consumers (fun l v => mkVolume (v_Name v) (v_Role v) (v_Owner v) l (v_Labels v)));
  ("labels", into_labels v_Labels (fun l v => mkVolume (v_Name v) (v_Role v) (v_Owner v) (v_Consumers v) l))
].

Definition zero_volume : Volume := mkVolume "" "" "" [] ∅.

Definition inventory_fields : list (field json VolumeInventory) := [
  ("version", into_string (fun s i => mkInventory s (vi_Project i) (vi_Volumes i)));
  ("project", into_string (fun s i => mkInventory (vi_Version i) s (vi_Volumes i)));
  ("volumes", into_slice (unmarshal_struct volume_fields) zero_volume vi_Volumes
    (fun l i => mkInventory (vi_Version i) (vi_Project i) l))
].

Definition unmarshal_inventory (data : string) : option VolumeInventory :=
  json_document data ≫= fun v => unmarshal_struct inventory_fields v (mkInventory "" "" []).

(** ** The merged inventory *)

(** A state file is at most the inventory's bound of manager.go. *)
Definition maxStateFileBytes : Z := Z.shiftl 1 20 + MaxWorkspaceInstructionsBytes.
Definition MaxVolumeInventoryRecords : Z := 1024.

Definition without_consumers (v : Volume) : Volume := mkVolume (v_Name v) (v_Role v) (v_Owner v) [] (v_Labels v).

Fixpoint merge_historical (project : string) (merged : gmap string Volume) (vs : list Volume) : result string (gmap string Volume) :=
  match vs with
  | [] => Ok merged
  | v :: vs' =>
      if negb (validVolume v) || negb (label (v_Labels v) ownerLabel =? project) || negb (length (v_Consumers v) =? 0)%nat
      then Err "managed volume inventory has invalid ownership"
      else match merged !! v_Name v with
           | Some _ => Err "managed volume inventory has duplicates"
           | None => merge_historical project (<[v_Name v := v]> merged) vs'
           end
  end.

Fixpoint merge_current (project : string) (merged : gmap string Volume) (vs : list Volume) : result string (gmap string Volume) :=
  match vs with
  | [] => Ok merged
  | v :: vs' =>
      if negb (validVolume v) || negb (label (v_Labels v) ownerLabel =? project)
      then Err "current managed volume inventory is invalid"
      else if match merged !! v_Name v with Some previous => negb (equalLabels (v_Labels previous) (v_Labels v)) | None => false end
      then Err "managed volume ownership changed"
      else merge_current project (<[v_Name v := without_consumers v]> merged) vs'
  end.

Definition historical_volumes (project historical : string) : result string (gmap string Volume) :=
  if (len historical =? 0)%Z then Ok ∅
  else if (maxStateFileBytes <? len historical)%Z then Err "managed volume inventory is oversized"
  else match unmarshal_inventory historical with
       | Some i =>
           if negb (vi_Version i =? stateVersion)%string || negb (vi_Project i =? project)%string || (length (vi_Volumes i) =? 0)%nat
              || (MaxVolumeInventoryRecords <? Z.of_nat (length (vi_Volumes i)))%Z
           then Err "managed volume inventory is malformed"
           else merge_historical project ∅ (vi_Volumes i)
       | None => Err "managed volume inventory is malformed"
       end.

Definition mergeVolumeInventory (project historical : string) (current : list Volume) : result string (list Volume) :=
  match historical_volumes project historical with
  | Ok old =>
      match merge_current project old current with
      | Ok merged =>
          if (Z.of_nat (size merged) =? 0)%Z || (MaxVolumeInventoryRecords <? Z.of_nat (size merged))%Z
          then Err "managed volume inventory exceeded its bound"
          else Ok (omap (fun name => merged !! name) (sort_strings (fst <$> map_to_list merged)))
      | Err e => Err e
      end
  | Err e => Err e
  end.

(** ** The compiled manifest *)

Record ProducerIntent := mkProducerIntent { pi_Owner : string; pi_Name : string; pi_Kind : string; pi_UID : Z; pi_GID : Z }.
Record PrivateInputIntent := mkPrivateInput { in_Owner : string; in_Name : string; in_File : string; in_Purpose : string }.
Record GeneratedPrivateInputIntent := mkGeneratedIntent { gi_Owner : string; gi_Name : string; gi_Purpose : string; gi_Consumers : list string }.
Record PortalAccountIntent := mkPortalAccount { pt_Name : string; pt_Preset : string }.

(** [manifest.Compiled], as far as the state package reads it; [c_Rest] is
    what it only passes on. *)
Record Compiled := mkCompiled {
  c_Version : string;
  c_Producers : list ProducerIntent;
  c_PrivateInputs : list PrivateInputIntent;
  c_GeneratedPrivateInputs : list GeneratedPrivateInputIntent;
  c_CredentialPortalAccounts : list PortalAccountIntent;
  c_Rest : json
}.

Record Instruction := mkInstruction { is_Owner : string; is_Name : string; is_Content : string }.

(** [Inputs]; the key of a private input is its owner and name. *)
Record Inputs := mkInputs { Instructions : list Instruction; private : gmap (string * string) string }.

(** ** The plan under construction *)

Record directoryPlan := mkDirectory { dp_volume : string; dp_uid : Z; dp_gid : Z; dp_mode : Z }.
Record staticInput := mkStatic { st_owner : string; st_name : string; st_volume : string; st_uid : Z; st_gid : Z }.
Record consumerCopy := mkCopy { cc_service : string; cc_volume : string; cc_uid : Z; cc_gid : Z }.
Record generatedInput := mkGenerated { gn_name : string; gn_purpose : string; gn_consumers : list string; gn_encoding : string }.
Record generatedInputPlan := mkGeneratedPlan { gp_input : generatedInput; gp_sourceVolume : string; gp_consumer : list consumerCopy }.

Record preparedPlan := mkPrepared {
  pp_Volumes : list Volume;
  pp_Mounts : list Mount;
  pp_configVolume : string;
  pp_static : list staticInput;
  pp_generated : list generatedInputPlan;
  pp_directories : list directoryPlan
}.

Definition prepared_Plan (project : string) (pp : preparedPlan) : Plan := mkPlan stateVersion project (pp_Volumes pp) (pp_Mounts pp).

Abbreviation planning A := (M preparedPlan string A).

Definition modify (f : preparedPlan -> preparedPlan) : planning unit := let* s := get in put (f s).

Definition add_mount (m : Mount) : planning unit :=
  modify (fun s => mkPrepared (pp_Volumes s) (pp_Mounts s ++ [m]) (pp_configVolume s) (pp_static s) (pp_generated s) (pp_directories s)).
Definition add_directory (volume : Volume) (uid gid mode : Z) : planning unit :=
  modify (fun s => mkPrepared (pp_Volumes s) (pp_Mounts s) (pp_configVolume s) (pp_static s) (pp_generated s)
    (pp_directories s ++ [mkDirectory (v_Name volume) uid gid mode])).
Definition add_static (i : staticInput) : planning unit :=
  modify (fun s => mkPrepared (pp_Volumes s) (pp_Mounts s) (pp_configVolume s) (pp_static s ++ [i]) (pp_generated s) (pp_directories s)).
Definition add_generated (i : generatedInputPlan) : planning unit :=
  modify (fun s => mkPrepared (pp_Volumes s) (pp_Mounts s) (pp_configVolume s) (pp_static s) (pp_generated s ++ [i]) (pp_directories s)).
Definition set_config (volume : Volume) : planning unit :=
  modify (fun s => mkPrepared (pp_Volumes s) (pp_Mounts s) (v_Name volume) (pp_static s) (pp_generated s) (pp_directories s)).

Definition plan_volume (project suffix role owner : string) (consumers : list string) : Volume :=
  mkVolume (VolumeName project suffix) role owner (uniqueSorted consumers) (volume_labels project owner role (VolumeName project suffix)).

Definition addVolume (project suffix role owner : string) (consumers : list string) : planning Volume :=
  let volume := plan_volume project suffix role owner consumers in
  modify (fun s => mkPrepared (pp_Volumes s ++ [volume]) (pp_Mounts s) (pp_configVolume s) (pp_static s) (pp_generated s) (pp_directories s)) ;;;
  ret volume.

(** Mounts in the order of service, target and volume. *)
Definition mount_lt (a b : Mount) : bool :=
  if negb (m_Service a =? m_Service b)%string then str_lt (m_Service a) (m_Service b)
  else if negb (m_Target a =? m_Target b)%string then str_lt (m_Target a) (m_Target b)
  else str_lt (m_Volume a) (m_Volume b).
Definition mount_le (a b : Mount) : Prop := mount_lt b a = false.
#[export] Instance mount_le_dec : RelDecision mount_le := fun a b => decide (mount_lt b a = false).

(** ** Services and their identities *)

Definition is_alnum (c : ascii) : bool := is_lower c || is_digit c.

(** [projectPattern]: ^[a-z0-9][a-z0-9_-]{0,47}$ *)
Definition projectPattern (s : string) : bool :=
  match s with
  | String c rest => is_alnum c && all_bytes (fun c => is_alnum c || one_of "_-" c) rest && (len rest <=? 47)%Z
  | EmptyString => false
  end.

(** [producerServicePattern]: ^producer:[a-z0-9](?:[a-z0-9.-]{0,61}[a-z0-9])?$ *)
Definition producerServicePattern (s : string) : bool :=
  HasPrefix s "producer:"
  && match TrimPrefix s "producer:" with
     | String c rest =>
         is_alnum c && all_bytes (fun c => is_alnum c || one_of ".-" c) rest && (len rest <=? 62)%Z
         && match rev (String.list_ascii_of_string rest) with last :: _ => is_alnum last | [] => true end
     | EmptyString => false
     end.

Definition trustedPrivateOwner (owner : string) : bool := (owner =? "broker")%string || producerServicePattern owner.

Definition trustedGeneratedConsumer (value : string) : bool :=
  (value =? "broker")%string || (value =? "credential-portal")%string || (value =? "credential-runner")%string
  || (value =? "gateway")%string || (value =? "local-controller")%string || producerServicePattern value.

Definition serviceIdentity (service : string) (producers : gmap string (Z * Z)) : option (Z * Z) :=
  if (service =? "gateway")%string then Some (65532, 65532)
  else if (service =? "credential-portal")%string || (service =? "credential-runner")%string then Some (1000, 1000)
  else if producerServicePattern service then producers !! service
  else if (service =? "broker")%string || (service =? "local-controller")%string then Some (0, 0)
  else None.

Definition producer_service (p : ProducerIntent) : string := "producer:" ++ pi_Name p.

(** The runtime identities of the producers. *)
Definition add_identity (ids : gmap string (Z * Z)) (p : ProducerIntent) : planning (gmap string (Z * Z)) :=
  let service := producer_service p in
  guard (negb (pi_Owner p =? service)%string || negb (producerServicePattern service) || (pi_UID p <=? 0)%Z || (2 ^ 31 - 1 <? pi_UID p)%Z
      || (pi_GID p <=? 0)%Z || (2 ^ 31 - 1 <? pi_GID p)%Z) "compiled producer runtime identity is invalid" ;;;
  guard (bool_decide (is_Some (ids !! service))) "duplicate compiled producer runtime identity" ;;;
  ret (<[service := (pi_UID p, pi_GID p)]> ids).

(** ** [preparePlan] *)

Section Preparing.
Variables (project : string) (compiled : Compiled) (inputs : Inputs).

Definition portalEnabled : bool := negb (length (c_CredentialPortalAccounts compiled) =? 0)%nat.

Definition configConsumers : list string :=
  ["broker"; "gateway"; "local-controller"] ++ (if portalEnabled then ["credential-portal"] else [])
    ++ (producer_service <$> c_Producers compiled).

Definition directory_mount (service : string) (volume : Volume) (target : string) (readOnly : bool) : planning unit :=
  add_mount (mkMount service (v_Name volume) "" target readOnly).

(** The volumes every platform has. *)
Definition plan_services (config : Volume) : planning unit :=
  let* brokerData := addVolume project "broker-data" "broker-database-audit" "broker" ["broker"] in
  let* brokerPrivate := addVolume project "broker-private" "broker-identities-canonical-credentials" "broker" ["broker"] in
  let* brokerRegistry := addVolume project "broker-registry" "broker-agent-registry" "local-controller" ["broker"; "local-controller"] in
  let* controllerData := addVolume project "controller-data" "local-controller-database-audit" "local-controller" ["local-controller"] in
  add_directory brokerData 0 0 448 ;;;
  add_directory brokerPrivate 0 0 448 ;;;
  add_directory brokerRegistry 0 0 448 ;;;
  add_directory controllerData 0 0 448 ;;;
  directory_mount "broker" brokerData "/var/lib/nvt/broker" false ;;;
  directory_mount "broker" brokerPrivate "/private" false ;;;
  directory_mount "broker" brokerRegistry "/registry" true ;;;
  directory_mount "local-controller" brokerRegistry "/registry" false ;;;
  directory_mount "local-controller" controllerData "/var/lib/nvt/local-controller" false ;;;
  if portalEnabled then
    let* seeds := addVolume project "credential-seeds" "credential-portal-seed" "credential-portal" ["broker"; "credential-portal"] in
    add_directory seeds 1000 1000 448 ;;;
    directory_mount "credential-portal" seeds "/seed" false ;;;
    directory_mount "broker" seeds "/portal-seed" true
  else ret tt.

Definition plan_producer (config : Volume) (p : ProducerIntent) : planning unit :=
  let service := producer_service p in
  add_mount (mkMount service (v_Name config) ("current/producers/" ++ pi_Name p ++ ".json") "/etc/nvt-producer/config.json" true) ;;;
  if (pi_Kind p =? "github-comments")%string then
    let* state := addVolume project (ProducerStateSuffix (pi_Name p)) "producer-state" service [service] in
    add_directory state (pi_UID p) (pi_GID p) 448 ;;;
    directory_mount service state "/var/lib/nvt-producer" false
  else ret tt.

Definition plan_config (config : Volume) (item : string * string * string) : planning unit :=
  let '(service, subpath, target) := item in
  add_mount (mkMount service (v_Name config) ("current/" ++ subpath) target true).

Definition config_items : list (string * string * string) :=
  [("broker", "broker.json", "/etc/nvt-local/broker.json");
   ("local-controller", "local-controller.json", "/etc/nvt-local/local-controller.json");
   ("gateway", "gateway.json", "/etc/nvt-local/gateway.json")]
  ++ (if portalEnabled then [("credential-portal", "credential-portal.json", "/etc/nvt-local/credential-portal.json")] else []).

(** A private input; the accumulator is [seenStatic]. *)
Definition plan_static (ids : gmap string (Z * Z)) (seen : gset (string * string)) (input : PrivateInputIntent) : planning (gset (string * string)) :=
  let key := (in_Owner input, in_Name input) in
  if (in_Purpose input =? "instructions")%string then ret seen
  else if bool_decide (key ∈ seen) then ret seen
  else
    guard (negb (bool_decide (is_Some (private inputs !! key))) || negb (trustedPrivateOwner (in_Owner input)))
      "resolved private inputs do not match compiled intent" ;;;
    match serviceIdentity (in_Owner input) ids with
    | None => fail "private input runtime identity is unavailable"
    | Some (uid, gid) =>
        let* volume := addVolume project (StaticInputSuffix (in_Owner input) (in_Name input)) "static-private-input" (in_Owner input) [in_Owner input] in
        add_static (mkStatic (in_Owner input) (in_Name input) (v_Name volume) uid gid) ;;;
        add_mount (mkMount (in_Owner input) (v_Name volume) "current/value" (PrivateTarget (in_Name input)) true) ;;;
        ret ({[key]} ∪ seen)
    end.

Definition expectedInstructions : gset (string * string) :=
  list_to_set (omap (fun i => if (in_Purpose i =? "instructions")%string then Some (in_Owner i, in_Name i) else None) (c_PrivateInputs compiled)).

Definition check_instruction (seen : gset (string * string)) (i : Instruction) : planning (gset (string * string)) :=
  let key := (is_Owner i, is_Name i) in
  guard (negb (bool_decide (key ∈ expectedInstructions))) "resolved instructions exceed compiled intent" ;;;
  guard (bool_decide (key ∈ seen)) "duplicate resolved instruction" ;;;
  ret ({[key]} ∪ seen).

Definition platform_inputs : list generatedInput :=
  [mkGenerated "local-controller-identity" "controller-identity-key" ["local-controller"] "raw";
   mkGenerated "local-controller-admin-token" "controller-admin-token" ["local-controller"] "base64url";
   mkGenerated "local-controller-route-token" "controller-route-token" ["gateway"; "local-controller"] "base64url"]
  ++ (if portalEnabled
      then [mkGenerated "credential-runner-key" "credential-runner-authentication" ["credential-portal"; "credential-runner"] "base64url";
            mkGenerated "credential-portal-session-key" "credential-portal-session" ["credential-portal"] "base64url"]
      else []).

Definition compiled_input (acc : list generatedInput) (i : GeneratedPrivateInputIntent) : planning (list generatedInput) :=
  guard (negb (gi_Owner i =? "local-platform-state")%string || (length (gi_Consumers i) =? 0)%nat) "generated private input ownership is invalid" ;;;
  ret (acc ++ [mkGenerated (gi_Name i) (gi_Purpose i) (gi_Consumers i) "base64url"])%list.

(** The copy of a generated value for one consumer. *)
Definition plan_copy (ids : gmap string (Z * Z)) (name : string) (copies : list consumerCopy) (consumer : string) : planning (list consumerCopy) :=
  match serviceIdentity consumer ids with
  | None => fail "generated private input runtime identity is unavailable"
  | Some (uid, gid) =>
      let* volume := addVolume project (GeneratedInputSuffix name consumer) "generated-private-input" "local-platform-state" [consumer] in
      add_mount (mkMount consumer (v_Name volume) "current/value" (PrivateTarget name) true) ;;;
      ret (copies ++ [mkCopy consumer (v_Name volume) uid gid])%list
  end.

Definition plan_generated (ids : gmap string (Z * Z)) (seen : gset string) (i : generatedInput) : planning (gset string) :=
  guard ((gn_name i =? "")%string || (gn_purpose i =? "")%string) "generated private input is invalid" ;;;
  guard (bool_decide (gn_name i ∈ seen)) "duplicate generated private input" ;;;
  let input := mkGenerated (gn_name i) (gn_purpose i) (uniqueSorted (gn_consumers i)) (gn_encoding i) in
  guard (negb (forallb trustedGeneratedConsumer (gn_consumers input))) "generated private input consumer is invalid" ;;;
  let* source := addVolume project ("generated-" ++ ShortID (gn_name i)) "generated-private-source" "local-platform-state" [] in
  let* copies := fold_each (plan_copy ids (gn_name i)) [] (gn_consumers input) in
  add_generated (mkGeneratedPlan input (v_Name source) copies) ;;;
  ret ({[gn_name i]} ∪ seen).

Definition sort_plan : planning unit :=
  modify (fun s => mkPrepared (merge_sort (by_key v_Name) (pp_Volumes s)) (merge_sort mount_le (pp_Mounts s))
    (pp_configVolume s) (pp_static s) (pp_generated s) (pp_directories s)).

Definition preparing : planning unit :=
  guard (negb (projectPattern project)) "trusted state plan configuration is invalid" ;;;
  let* ids := fold_each add_identity ∅ (c_Producers compiled) in
  let* config := addVolume project GeneratedConfigSuffix "generated-config" "local-platform-state" configConsumers in
  set_config config ;;;
  plan_services config ;;;
  for_each (plan_producer config) (c_Producers compiled) ;;;
  for_each (plan_config config) config_items ;;;
  let* seenStatic := fold_each (plan_static ids) ∅ (c_PrivateInputs compiled) in
  guard (negb (size seenStatic =? size (private inputs))%nat) "resolved private inputs exceed compiled intent" ;;;
  let* seenInstructions := fold_each check_instruction ∅ (Instructions inputs) in
  guard (negb (size seenInstructions =? size expectedInstructions)%nat) "compiled instructions are unresolved" ;;;
  let* generated := fold_each compiled_input platform_inputs (c_GeneratedPrivateInputs compiled) in
  fold_each (plan_generated ids) ∅ (merge_sort (by_key gn_name) generated) ;;;
  sort_plan.

Definition preparePlan : result string preparedPlan :=
  match preparing (mkPrepared [] [] "" [] [] []) with (Ok _, s) => Ok s | (Err e, _) => Err e end.

Definition BuildPlan : result string Plan :=
  match preparePlan with Ok s => Ok (prepared_Plan project s) | Err e => Err e end.
End Preparing.

(** ** Configuration files *)

(** The documents of other packages: the manifest's canonical JSON, the
    services' configurations and the configuration of one producer, which
    must be valid. *)
Class ServiceConfigs : Type := {
  CompiledJSON : Compiled -> option string;
  BrokerConfig : Compiled -> option string;
  ControllerConfig : Compiled -> gmap string string -> option string;
  GatewayConfig : Compiled -> option string;
  ProducerConfiguration : ProducerIntent -> option string
}.

Record StateFile := mkStateFile { sf_Name : string; sf_Mode : Z; sf_UID : Z; sf_GID : Z; sf_Data : string }.

(** [producer.Configurations] *)
Definition APIVersion : string := "nvt.dev/local/v1".
Definition MaxProducers : Z := 64.

Fixpoint producer_files `{ServiceConfigs} (seen : gset string) (ps : list ProducerIntent) : option (list (string * string)) :=
  match ps with
  | [] => Some []
  | p :: ps' =>
      data ← ProducerConfiguration p;
      if bool_decide (pi_Name p ∈ seen) then None
      else rest ← producer_files ({[pi_Name p]} ∪ seen) ps'; Some (("producers/" ++ pi_Name p ++ ".json", data) :: rest)
  end.

Definition ProducerConfigurations `{ServiceConfigs} (compiled : Compiled) : option (list (string * string)) :=
  if negb (c_Version compiled =? APIVersion)%string || (MaxProducers <? Z.of_nat (length (c_Producers compiled)))%Z then None
  else producer_files ∅ (merge_sort (by_key pi_Name) (c_Producers compiled)).

Definition maxPortalSlots : Z := 128.

Definition portal_adapter (preset : string) : option string :=
  if (preset =? "codex-oauth")%string then Some "codex-oauth-file"
  else if (preset =? "claude-oauth")%string then Some "claude-oauth-file" else None.

Definition local_developer : list (string * json) := [("issuer", JString "local://workstation"); ("subject", JString "developer")].

(** The slots, with the names and the destinations seen so far. *)
Fixpoint portal_slots (names destinations : gset string) (accounts : list PortalAccountIntent) : option (list json) :=
  match accounts with
  | [] => Some []
  | a :: accounts' =>
      adapter ← portal_adapter (pt_Preset a);
      let slotName := CredentialSlotName (pt_Name a) in
      let dataKey := slotName ++ ".json" in
      if bool_decide (slotName ∈ names) || bool_decide (dataKey ∈ destinations) then None
      else
        rest ← portal_slots ({[slotName]} ∪ names) ({[dataKey]} ∪ destinations) accounts';
        Some (JObject [("name", JString slotName); ("label", JString (pt_Name a)); ("owner", JObject local_developer);
          ("adapter", JString adapter); ("brokerProvider", JString (pt_Name a)); ("secretName", JString "local-seed");
          ("dataKey", JString dataKey)] :: rest)
  end.

Definition portalConfiguration (accounts : list PortalAccountIntent) : option string :=
  if (length accounts =? 0)%nat || (maxPortalSlots <? Z.of_nat (length accounts))%Z then None
  else
    slots ← portal_slots ∅ ∅ (merge_sort (by_key pt_Name) accounts);
    Some (print_json (JObject [
      ("auth", JObject [("local", JObject [("principal", JObject (("displayName", JString "Local developer") :: local_developer))]);
        ("mode", JString "local");
        ("session", JObject [("cookieName", JString "nvt_local_credentials"); ("maxAgeSeconds", JNumber "3600"); ("secure", JBool false)])]);
      ("enrollment", JObject [("experimentalCodexDeviceAuth", JBool true); ("maxConcurrent", JNumber "2");
        ("maxOutputBytes", JNumber "65536"); ("maxSessions", JNumber "16"); ("timeoutSeconds", JNumber "600")]);
      ("listenAddr", JString "0.0.0.0:8080"); ("maxUploadBytes", JNumber "65536"); ("namespace", JString "local");
      ("persistence", JObject [("local", JObject [("directory", JString "/seed")]); ("mode", JString "local")]);
      ("publicURL", JString "http://localhost:4090/agents/credentials");
      ("recoveryUpload", JObject [("enabled", JBool true)]); ("returnURL", JString "/agents"); ("slots", JArray slots)])).

(** Later keys replace earlier ones, as assignments to a map do. *)
Definition assign (m : gmap string string) (kvs : list (string * string)) : gmap string string :=
  fold_left (fun m kv => <[fst kv := snd kv]> m) kvs m.

Section Configuration.
Context `{ServiceConfigs}.

Definition configuration_values (compiled : Compiled) (inputs : Inputs) (plan : Plan) (inventory : list Volume) : option (gmap string string) :=
  compiledJSON ← CompiledJSON compiled;
  broker ← BrokerConfig compiled;
  controller ← ControllerConfig compiled (assign ∅ ((fun i => (is_Name i, is_Content i)) <$> Instructions inputs));
  gateway ← GatewayConfig compiled;
  let redacted := canonicalJSON (plan_json plan) in
  let volumeInventory := canonicalJSON (inventory_json (mkInventory stateVersion (p_Project plan) inventory)) in
  portal ← (if portalEnabled compiled then portal ← portalConfiguration (c_CredentialPortalAccounts compiled); Some [("credential-portal.json", portal)]
            else Some []);
  producers ← ProducerConfigurations compiled;
  Some (assign ∅ ([("compiled.json", compiledJSON); ("broker.json", broker); ("local-controller.json", controller);
    ("gateway.json", gateway); ("state-plan.json", redacted); ("volume-inventory.json", volumeInventory)]
    ++ portal ++ producers
    ++ ((fun i => ("instructions/" ++ ShortID (is_Owner i ++ nul ++ is_Name i), is_Content i)) <$> Instructions inputs))).

Definition configurationFiles (compiled : Compiled) (inputs : Inputs) (plan : Plan) (inventory : list Volume) : option (list StateFile) :=
  values ← configuration_values compiled inputs plan inventory;
  let names := sort_strings (fst <$> map_to_list values) in
  if existsb (fun name => (maxStateFileBytes <? len (default "" (values !! name)))%Z) names then None
  else Some ((fun name => mkStateFile name 292 0 0 (default "" (values !! name))) <$> names).
End Configuration.

(** ** Generated values *)

Definition generatedValueSize (encoding : string) : Z :=
  if (encoding =? "raw")%string then 32 else if (encoding =? "base64url")%string then 43 else 0.

(** [generatedBytes] of 32 bytes read from the source of randomness. *)
Definition generatedBytes (raw : string) (encoding : string) : option string :=
  if (encoding =? "raw")%string then Some raw
  else if (encoding =? "base64url")%string then Some (base64url (string_bytes raw)) else None.

Definition privateSourceMarkerVersion : string := "nvt.local-platform.private-source/v2".
Definition privateSourceMarker (value : string) : string :=
  privateSourceMarkerVersion ++ " sha256:" ++ sha256_hex value ++ " " ++ Itoa (len value) ++ String "010" "".
