(* ===== verification/LocalPlanProps.v ===== *)
(** * The local platform's plan: proofs

    What a prepared plan keeps ([plan_inv]): where its volumes come from, who
    mounts them, which volume each input has; that an inventory is read back
    as it was written, and what merging inventories keeps. *)
From stdpp Require Import base list strings gmap sorting.
From Stdlib Require Import ZArith Lia Ascii.
From S2P Require Import Prelude GoStrings GoUrl GoJson GoJsonPrint GoEncoding GoHttp Sha256 LocalPlan.

Local Open Scope Z_scope.
Local Open Scope go_scope.
Local Open Scope string_scope.

(** ** Labels *)

Lemma equalLabels_get l r k x : equalLabels l r = true -> l !! k = Some x -> default "" (r !! k) = x.
Proof.
  unfold equalLabels. rewrite andb_true_iff, forallb_forall. intros [_ H] Hl. apply String.eqb_eq, (H (k, x)).
  by apply list_elem_of_In, elem_of_map_to_list.
Qed.

Lemma equalLabels_size l r : equalLabels l r = true -> size l = size r.
Proof. unfold equalLabels. rewrite andb_true_iff. intros [H _]. by apply Nat.eqb_eq in H. Qed.

Lemma valid_labels v : validVolume v = true -> size (v_Labels v) = 5%nat.
Proof.
  unfold validVolume. rewrite !andb_true_iff. intros [[_ H] _]. apply equalLabels_size in H. rewrite H. reflexivity.
Qed.

(** ** The plan *)

Definition private_role (role : string) : bool := (role =? "static-private-input")%string || (role =? "generated-private-input")%string.

(** A mount of a volume by one of its consumers. *)
Definition mount_fits (m : Mount) (v : Volume) : Prop :=
  m_Volume m = v_Name v /\ m_Service m ∈ v_Consumers v /\ trustedGeneratedConsumer (m_Service m) = true /\
  v_Role v <> "generated-private-source" /\ (private_role (v_Role v) = true -> v_Consumers v = [m_Service m] /\ m_ReadOnly m = true).

Definition named (vs : list Volume) (name role : string) : Prop := exists v, v ∈ vs /\ v_Name v = name /\ v_Role v = role.

Record plan_inv (project : string) (config : option Volume) (s : preparedPlan) : Prop := {
  pv_volumes : forall v, v ∈ pp_Volumes s -> exists suffix role owner consumers, v = plan_volume project suffix role owner consumers /\
    ascii_text role = true /\ ascii_text owner = true;
  pv_mounts : forall m, m ∈ pp_Mounts s -> exists v, v ∈ pp_Volumes s /\ mount_fits m v;
  pv_static : forall i, i ∈ pp_static s -> named (pp_Volumes s) (st_volume i) "static-private-input";
  pv_generated : forall i, i ∈ pp_generated s -> named (pp_Volumes s) (gp_sourceVolume i) "generated-private-source" /\
    forall cc, cc ∈ gp_consumer i -> named (pp_Volumes s) (cc_volume cc) "generated-private-input";
  pv_config : forall v, config = Some v -> v ∈ pp_Volumes s /\ pp_configVolume s = v_Name v /\
    exists consumers, v = plan_volume project GeneratedConfigSuffix "generated-config" "local-platform-state" consumers
}.

Lemma named_mono vs vs' name role : vs ⊆ vs' -> named vs name role -> named vs' name role.
Proof. intros Hs (v & Hv & H). exists v. split; [by apply Hs|done]. Qed.

(** What a computation of the plan establishes when it does not fail. *)
Definition ensures {A} (m : planning A) (Q : A -> preparedPlan -> Prop) (s : preparedPlan) : Prop :=
  match m s with (Ok a, s') => Q a s' | (Err _, _) => True end.

Lemma ensures_bind {A B} (m : planning A) (k : A -> planning B) Q s :
  ensures m (fun a => ensures (k a) Q) s -> ensures (bind m k) Q s.
Proof. unfold ensures, bind. by destruct (m s) as [[a|e] s']. Qed.

Lemma ensures_mono {A} (m : planning A) (Q Q' : A -> preparedPlan -> Prop) s :
  (forall a s', Q a s' -> Q' a s') -> ensures m Q s -> ensures m Q' s.
Proof. intros H. unfold ensures. destruct (m s) as [[a|e] s']; auto. Qed.

Lemma ensures_guard b e (Q : unit -> preparedPlan -> Prop) s : (b = false -> Q tt s) -> ensures (guard b e) Q s.
Proof. intros H. unfold ensures, guard. by destruct b; [|apply H]. Qed.

Lemma ensures_fold {A B} (I : B -> preparedPlan -> Prop) (f : B -> A -> planning B) xs b s :
  (forall b x s, x ∈ xs -> I b s -> ensures (f b x) I s) -> I b s -> ensures (fold_each f b xs) I s.
Proof.
  revert b s. induction xs as [|x xs IH]; intros b s Hf Hb; [done|]. cbn [fold_each]. apply ensures_bind.
  eapply ensures_mono; [|apply Hf; [by left|done]]. intros b' s' Hb'. apply IH; [|done]. intros. apply Hf; [by right|done].
Qed.

Lemma ensures_for {A} (I : preparedPlan -> Prop) (f : A -> planning unit) xs s :
  (forall x s, x ∈ xs -> I s -> ensures (f x) (fun _ => I) s) -> I s -> ensures (for_each f xs) (fun _ => I) s.
Proof.
  revert s. induction xs as [|x xs IH]; intros s Hf Hs; [done|]. cbn [for_each]. apply ensures_bind.
  eapply ensures_mono; [|apply Hf; [by left|done]]. intros u s' Hs'. apply IH; [|done]. intros. apply Hf; [by right|done].
Qed.

Section Planning.
Variables (project : string) (config : option Volume).
Abbreviation inv := (plan_inv project config).

(** The state after a step: it has the volumes it had, and the invariant. *)
Definition later (s s' : preparedPlan) : Prop := pp_Volumes s ⊆ pp_Volumes s' /\ inv s'.

Lemma addVolume_ok suffix role owner consumers (Q : Volume -> preparedPlan -> Prop) s : inv s ->
  ascii_text role = true -> ascii_text owner = true ->
  (forall s', later s s' -> plan_volume project suffix role owner consumers ∈ pp_Volumes s' -> Q (plan_volume project suffix role owner consumers) s') ->
  ensures (addVolume project suffix role owner consumers) Q s.
Proof.
  intros [H1 H2 H3 H4 H5] Hrole Howner HQ. unfold addVolume, ensures. cbn. set (v := plan_volume _ _ _ _ _) in *.
  assert (Hsub : pp_Volumes s ⊆ (pp_Volumes s ++ [v])%list) by (intros u Hu; by apply elem_of_app; left).
  apply HQ; [split; [done|]|apply elem_of_app; right; by apply list_elem_of_singleton]. split; cbn.
  - intros u [Hu| ->%list_elem_of_singleton]%elem_of_app; [by apply H1|]. by exists suffix, role, owner, consumers.
  - intros m Hm. destruct (H2 m Hm) as (u & Hu & Hf). exists u. split; [by apply Hsub|done].
  - intros i Hi. by eapply named_mono; [|apply H3].
  - intros i Hi. destruct (H4 i Hi) as [Hs Hc]. split; [by eapply named_mono|]. intros cc Hcc. by eapply named_mono; [|apply Hc].
  - intros u Hu. destruct (H5 u Hu) as [Hin H]. split; [by apply Hsub|done].
Qed.

Lemma add_mount_ok m v (Q : unit -> preparedPlan -> Prop) s : inv s -> v ∈ pp_Volumes s -> mount_fits m v ->
  (forall s', later s s' -> Q tt s') -> ensures (add_mount m) Q s.
Proof.
  intros [H1 H2 H3 H4 H5] Hv Hm HQ. unfold add_mount, ensures. cbn. apply HQ. split; [done|]. split; cbn; try done.
  intros m' [Hm'| ->%list_elem_of_singleton]%elem_of_app; [by apply H2|]. by exists v.
Qed.

Lemma add_directory_ok v uid gid mode (Q : unit -> preparedPlan -> Prop) s : inv s -> (forall s', later s s' -> Q tt s') ->
  ensures (add_directory v uid gid mode) Q s.
Proof. intros [H1 H2 H3 H4 H5] HQ. apply HQ. by split. Qed.

Lemma add_static_ok i (Q : unit -> preparedPlan -> Prop) s : inv s -> named (pp_Volumes s) (st_volume i) "static-private-input" ->
  (forall s', later s s' -> Q tt s') -> ensures (add_static i) Q s.
Proof.
  intros [H1 H2 H3 H4 H5] Hi HQ. apply HQ. split; [done|]. split; cbn; try done.
  intros j [Hj| ->%list_elem_of_singleton]%elem_of_app; [by apply H3|done].
Qed.

Lemma add_generated_ok i (Q : unit -> preparedPlan -> Prop) s : inv s ->
  named (pp_Volumes s) (gp_sourceVolume i) "generated-private-source" ->
  (forall cc, cc ∈ gp_consumer i -> named (pp_Volumes s) (cc_volume cc) "generated-private-input") ->
  (forall s', later s s' -> Q tt s') -> ensures (add_generated i) Q s.
Proof.
  intros [H1 H2 H3 H4 H5] Hi Hc HQ. apply HQ. split; [done|]. split; cbn; try done.
  intros j [Hj| ->%list_elem_of_singleton]%elem_of_app; [by apply H4|done].
Qed.

Lemma later_trans s s1 s2 : later s s1 -> later s1 s2 -> later s s2.
Proof. intros [H1 _] [H2 Hi]. split; [|done]. by etransitivity. Qed.

Lemma unique_in x l : x ∈ uniqueSorted l <-> x ∈ l.
Proof. unfold uniqueSorted, sort_strings. by rewrite merge_sort_Permutation, elem_of_remove_dups. Qed.
End Planning.

Section Steps.
Variables (project : string) (compiled : Compiled) (inputs : Inputs) (config : Volume).
Hypothesis Hconfig : config = plan_volume project GeneratedConfigSuffix "generated-config" "local-platform-state" (configConsumers compiled).
Abbreviation inv := (plan_inv project (Some config)).

Lemma config_there s : inv s -> config ∈ pp_Volumes s.
Proof. intros H. by apply (pv_config _ _ _ H config). Qed.

(** A mount by one of several consumers of a volume that holds no secret. *)
Lemma shared_fits service target subpath ro suffix role owner consumers :
  service ∈ consumers -> trustedGeneratedConsumer service = true -> private_role role = false -> role <> "generated-private-source" ->
  mount_fits (mkMount service (VolumeName project suffix) subpath target ro) (plan_volume project suffix role owner consumers).
Proof. intros Hin Ht Hp Hr. split_and!; [done|by apply unique_in|done|done|]. cbn. intros H. by rewrite H in Hp. Qed.

Lemma private_fits service target subpath suffix role owner :
  trustedGeneratedConsumer service = true -> role <> "generated-private-source" ->
  mount_fits (mkMount service (VolumeName project suffix) subpath target true) (plan_volume project suffix role owner [service]).
Proof. intros Ht Hr. split_and!; [done|by left|done|done|]. intros _. by split. Qed.

Lemma config_fits service target subpath : service ∈ configConsumers compiled -> trustedGeneratedConsumer service = true ->
  mount_fits (mkMount service (v_Name config) subpath target true) config.
Proof. intros Hin Ht. rewrite Hconfig. by apply shared_fits. Qed.

Ltac on_volume := apply ensures_bind, addVolume_ok with (config := Some config); [assumption|done|try done|]; [try done..|intros ? [? ?] ?].
Ltac carry := repeat match goal with H : _ ∈ pp_Volumes ?s, Hs : pp_Volumes ?s ⊆ pp_Volumes ?s' |- _ => apply Hs in H end.
Ltac on_directory := apply ensures_bind, add_directory_ok with (project := project) (config := Some config); [assumption|]; intros ? [? ?]; carry.
Ltac on_mount :=
  lazymatch goal with |- ensures (directory_mount ?service ?v ?target ?ro) _ _ =>
    apply (add_mount_ok project (Some config) _ v); [assumption|assumption| |intros ? [? ?]; carry] end.
Ltac on_volume_of H := apply ensures_bind, addVolume_ok with (config := Some config); [assumption|done|exact H|]; intros ? [? ?] ?.
Ltac shared := apply shared_fits; [by apply (bool_decide_unpack _)|done..].

Lemma plan_services_ok s : inv s -> ensures (plan_services project compiled config) (fun _ => inv) s.
Proof.
  intros Hs. unfold plan_services. do 4 (on_volume; carry). do 4 on_directory.
  do 5 (apply ensures_bind; on_mount; [shared|]). destruct (portalEnabled compiled); [|done]. on_volume; carry. on_directory.
  apply ensures_bind; on_mount; [shared|]. on_mount; [shared|done].
Qed.
Lemma trusted_producer service : producerServicePattern service = true -> trustedGeneratedConsumer service = true.
Proof. unfold trustedGeneratedConsumer. intros ->. by rewrite !orb_true_r. Qed.

Lemma trusted_ascii service : trustedGeneratedConsumer service = true -> ascii_text service = true.
Proof.
  unfold trustedGeneratedConsumer. rewrite !orb_true_iff, !String.eqb_eq. intros [[[[[->| ->]| ->]| ->]| ->]|H]; try done.
  unfold producerServicePattern in H. apply andb_true_iff in H as [[r ->]%HasPrefix_iff H].
  assert (Ht : TrimPrefix ("producer:" +:+ r) "producer:" = r).
  { unfold TrimPrefix. rewrite (proj2 (HasPrefix_iff _ _)) by by exists r. rewrite str_length_app.
    replace (slen "producer:" + slen r - slen "producer:")%nat with (slen r) by lia. apply substring_drop. }
  rewrite Ht in H. unfold ascii_text. rewrite all_bytes_app. destruct r as [|c r]; [done|]. rewrite !andb_true_iff in H. destruct H as [[[Hc Hr] _] _].
  assert (Hd : forall d, (is_alnum d || one_of ".-" d) = true -> (code d <? 0x80)%Z = true)
    by (intros [[] [] [] [] [] [] [] []]; vm_compute; congruence).
  apply andb_true_iff. split; [done|]. cbn [all_bytes]. rewrite Hd by (by rewrite Hc). by apply (all_bytes_impl _ _ _ Hd).
Qed.

Lemma plan_producer_ok p s : inv s -> p ∈ c_Producers compiled -> producerServicePattern (producer_service p) = true ->
  ensures (plan_producer project config p) (fun _ => inv) s.
Proof.
  intros Hs Hp Ht. apply trusted_producer in Ht. unfold plan_producer. apply ensures_bind.
  pose proof (trusted_ascii _ Ht) as Hascii.
  apply (add_mount_ok project (Some config) _ config); [done|by apply config_there| |].
  { apply config_fits; [|done]. unfold configConsumers. rewrite !elem_of_app. right; right. by apply list_elem_of_fmap_2. }
  intros s1 [_ H1]. destruct (pi_Kind p =? "github-comments")%string; [|done]. on_volume_of Hascii. on_directory. on_mount; [|done].
  apply shared_fits; [by left|done..].
Qed.

Lemma config_item_ok item s : inv s -> item ∈ config_items compiled -> ensures (plan_config config item) (fun _ => inv) s.
Proof.
  intros Hs Hin. destruct item as [[service subpath] target]. cbn [plan_config].
  apply (add_mount_ok project (Some config) _ config); [done|by apply config_there| |by intros s' [_ H]].
  apply config_fits; unfold configConsumers, config_items in *.
  - apply elem_of_app in Hin as [Hin|Hin]; apply elem_of_app; [left|right; apply elem_of_app; left].
    + rewrite !elem_of_cons in *. destruct Hin as [[= -> _ _]|[[= -> _ _]|[[= -> _ _]|Hin]]]; auto. by apply not_elem_of_nil in Hin.
    + destruct (portalEnabled compiled); [|by apply not_elem_of_nil in Hin]. apply list_elem_of_singleton in Hin as [= -> _ _]. by left.
  - apply elem_of_app in Hin as [Hin|Hin].
    + rewrite !elem_of_cons in Hin. destruct Hin as [[= -> _ _]|[[= -> _ _]|[[= -> _ _]|Hin]]]; try done. by apply not_elem_of_nil in Hin.
    + destruct (portalEnabled compiled); [|by apply not_elem_of_nil in Hin]. by apply list_elem_of_singleton in Hin as [= -> _ _].
Qed.

Lemma plan_static_ok ids seen input s : inv s -> ensures (plan_static project inputs ids seen input) (fun _ => inv) s.
Proof.
  intros Hs. unfold plan_static. destruct (in_Purpose input =? "instructions")%string; [done|]. destruct (bool_decide _); [done|].
  apply ensures_bind, ensures_guard. intros Hg. apply orb_false_iff in Hg as [_ Ht]. apply negb_false_iff in Ht.
  assert (Htrust : trustedGeneratedConsumer (in_Owner input) = true).
  { unfold trustedPrivateOwner in Ht. apply orb_true_iff in Ht as [Ht|Ht]; [|by apply trusted_producer].
    unfold trustedGeneratedConsumer. by rewrite Ht. }
  pose proof (trusted_ascii _ Htrust) as Hascii.
  destruct (serviceIdentity _ ids) as [[uid gid]|]; [|done]. on_volume_of Hascii; carry.
  apply ensures_bind, add_static_ok with (project := project) (config := Some config); [done|eexists; by split_and!|]. intros s2 [? ?]; carry.
  apply ensures_bind. eapply (add_mount_ok project (Some config)); [done|eassumption|by apply private_fits|]. by intros s3 [_ ?].
Qed.

Lemma plan_copy_ok ids name copies consumer s : trustedGeneratedConsumer consumer = true ->
  inv s -> (forall cc, cc ∈ copies -> named (pp_Volumes s) (cc_volume cc) "generated-private-input") ->
  ensures (plan_copy project ids name copies consumer) (fun copies' s' => later project (Some config) s s' /\
    forall cc, cc ∈ copies' -> named (pp_Volumes s') (cc_volume cc) "generated-private-input") s.
Proof.
  intros Ht Hs Hc. unfold plan_copy. destruct (serviceIdentity _ ids) as [[uid gid]|]; [|done]. on_volume; carry.
  match goal with H : pp_Volumes s ⊆ pp_Volumes ?s1 |- _ => rename H into Hsub; rename s1 into s1' end.
  apply ensures_bind. eapply (add_mount_ok project (Some config)); [done|eassumption|by apply private_fits|]. intros s2 [Hsub2 Hinv].
  unfold ensures, ret. split; [split; [by etransitivity|done]|]. intros cc [Hcc| ->%list_elem_of_singleton]%elem_of_app.
  - eapply named_mono; [|by apply Hc]. by etransitivity.
  - eexists. split_and!; [|done..]. by apply Hsub2.
Qed.

Lemma plan_generated_ok ids seen i s : inv s -> ensures (plan_generated project ids seen i) (fun _ => inv) s.
Proof.
  intros Hs. unfold plan_generated. apply ensures_bind, ensures_guard; intros _. apply ensures_bind, ensures_guard; intros _.
  apply ensures_bind, ensures_guard. cbn [gn_consumers]. intros Ht. apply negb_false_iff in Ht. rewrite forallb_forall in Ht. on_volume; carry.
  match goal with H : plan_volume _ _ _ _ _ ∈ pp_Volumes ?s1 |- _ => rename H into Hsrc; rename s1 into s1' end.
  match type of Hsrc with ?v ∈ _ => set (source := v) in * end. apply ensures_bind.
  eapply ensures_mono; [|apply (ensures_fold (fun copies s' => inv s' /\ source ∈ pp_Volumes s' /\
    forall cc, cc ∈ copies -> named (pp_Volumes s') (cc_volume cc) "generated-private-input"))].
  - intros copies s2 (Hinv & Hsrc2 & Hc). apply ensures_bind.
    apply add_generated_ok with (project := project) (config := Some config); [done|by exists source|done|]. by intros s3 [_ ?].
  - intros copies consumer s2 Hin (Hinv & Hsrc2 & Hc). eapply ensures_mono; [|apply plan_copy_ok; [|done|done]].
    + intros copies' s3 [[Hsub ?] ?]. split_and!; [done|by apply Hsub|done].
    + apply Ht. by apply list_elem_of_In.
  - split_and!; [done|done|]. intros cc Hcc. by apply not_elem_of_nil in Hcc.
Qed.

Lemma sort_plan_ok s : inv s -> ensures sort_plan (fun _ => inv) s.
Proof.
  intros [H1 H2 H3 H4 H5]. unfold ensures, sort_plan. cbn.
  assert (Hv : forall v, v ∈ merge_sort (by_key v_Name) (pp_Volumes s) <-> v ∈ pp_Volumes s) by (intros; by rewrite merge_sort_Permutation).
  assert (Hn : forall name role, named (pp_Volumes s) name role -> named (merge_sort (by_key v_Name) (pp_Volumes s)) name role).
  { intros name role. apply named_mono. intros v. apply Hv. }
  split; cbn.
  - intros v Hin. apply H1. by apply Hv.
  - intros m Hm. rewrite merge_sort_Permutation in Hm. destruct (H2 m Hm) as (v & Hin & Hf). exists v. split; [by apply Hv|done].
  - auto.
  - intros i Hi. destruct (H4 i Hi) as [? ?]. auto.
  - intros v Hc. destruct (H5 v Hc) as [? ?]. split; [by apply Hv|done].
Qed.
End Steps.

Lemma identities_trusted ids ps s ids' s' : fold_each add_identity ids ps s = (Ok ids', s') ->
  s' = s /\ forall p, p ∈ ps -> producerServicePattern (producer_service p) = true.
Proof.
  revert ids s. induction ps as [|p ps IH]; intros ids s H; cbn [fold_each] in H; [monad_inv; split; [done|]; by intros p ?%not_elem_of_nil|].
  apply bind_ok in H as (ids1 & s1 & H1 & H). unfold add_identity in H1. monad_inv. rewrite !orb_false_iff in *.
  destruct (IH _ _ H) as [-> Hps]. split; [done|]. intros q [->|Hq]%elem_of_cons; [|by apply Hps].
  repeat match goal with H : _ /\ _ |- _ => destruct H end. by apply negb_false_iff.
Qed.

(** Every plan keeps the invariant. *)
Lemma prepared_inv project compiled inputs pp : preparePlan project compiled inputs = Ok pp -> exists config, plan_inv project (Some config) pp.
Proof.
  set (config := plan_volume project GeneratedConfigSuffix "generated-config" "local-platform-state" (configConsumers compiled)).
  intros H. exists config. revert H. unfold preparePlan.
  set (s0 := mkPrepared [] [] "" [] [] []). assert (Hs0 : plan_inv project None s0)
    by (split; cbn; intros ?; try done; intros H; by apply not_elem_of_nil in H).
  enough (He : ensures (preparing project compiled inputs) (fun _ => plan_inv project (Some config)) s0)
    by (unfold ensures in He; destruct (preparing _ _ _ _) as [[u|e] s]; [by intros [= <-]|done]).
  unfold preparing. apply ensures_bind, ensures_guard. intros _. apply ensures_bind.
  apply (ensures_mono _ (fun _ s => s = s0 /\ forall p, p ∈ c_Producers compiled -> producerServicePattern (producer_service p) = true)).
  2: { unfold ensures. destruct (fold_each _ _ _ s0) as [[ids|e] s] eqn:E; [|done]. by eapply identities_trusted. }
  intros ids s [-> Htrust]. apply ensures_bind, addVolume_ok with (config := None); [done..|]. intros s1 [_ Hs1] Hin. fold config in Hin |- *.
  apply ensures_bind. unfold ensures at 1. cbn. set (s2 := mkPrepared _ _ _ _ _ _).
  assert (Hs2 : plan_inv project (Some config) s2)
    by (destruct Hs1; split; try done; intros ? [= <-]; split_and!; [done|done|by eexists]).
  set (inv := plan_inv project (Some config)) in *. apply ensures_bind.
  eapply ensures_mono; [|by apply plan_services_ok with (compiled := compiled)]. clearbody s2. clear s1 Hs1 Hin. intros u1 s Hs. clear s2 Hs2.
  apply ensures_bind. eapply ensures_mono; [|apply (ensures_for inv (plan_producer project config) (c_Producers compiled)); [|exact Hs]; intros; apply plan_producer_ok with (compiled := compiled); auto].
  intros u2 s' Hs'. clear s Hs. rename s' into s, Hs' into Hs.
  apply ensures_bind. eapply ensures_mono; [|apply (ensures_for inv (plan_config config) (config_items compiled)); [|exact Hs]; intros; by apply config_item_ok with (compiled := compiled)].
  intros u3 s' Hs'. clear s Hs. rename s' into s, Hs' into Hs.
  apply ensures_bind. eapply ensures_mono; [|apply (ensures_fold (fun _ => inv) (plan_static project inputs ids)); [|exact Hs]; intros; by apply plan_static_ok].
  intros u4 s' Hs'. clear s Hs. rename s' into s, Hs' into Hs. apply ensures_bind, ensures_guard. intros _.
  apply ensures_bind. eapply ensures_mono; [|apply (ensures_fold (fun _ => inv) (check_instruction compiled)); [|exact Hs]; intros; unfold check_instruction;
    do 2 (apply ensures_bind, ensures_guard; intros _); done].
  intros u5 s' Hs'. clear s Hs. rename s' into s, Hs' into Hs. apply ensures_bind, ensures_guard. intros _.
  apply ensures_bind. eapply ensures_mono; [|apply (ensures_fold (fun _ => inv) compiled_input); [|exact Hs]; intros; unfold compiled_input;
    apply ensures_bind, ensures_guard; by intros _].
  intros u6 s' Hs'. clear s Hs. rename s' into s, Hs' into Hs.
  apply ensures_bind. eapply ensures_mono; [|apply (ensures_fold (fun _ => inv) (plan_generated project ids)); [|exact Hs]; intros; by apply plan_generated_ok].
  intros u7 s' Hs'. clear s Hs. rename s' into s, Hs' into Hs. by apply sort_plan_ok.
Qed.

(** ** Labels of planned volumes *)

(** Labels without an empty value. *)
Definition proper_labels (l : labels) : Prop := forall k, l !! k <> Some "".

Lemma equalLabels_exact l r : proper_labels l -> equalLabels l r = true -> l = r.
Proof.
  intros Hp He. pose proof (equalLabels_size _ _ He) as Hs.
  assert (Hsub : l ⊆ r).
  { apply map_subseteq_spec. intros k x Hx. pose proof (equalLabels_get _ _ _ _ He Hx) as Hr.
    destruct (r !! k) as [y|] eqn:E; cbn in Hr; [by subst y|]. subst x. by destruct (Hp k). }
  by apply map_subseteq_size_eq; [|rewrite Hs].
Qed.

Definition role_of (l : labels) : string := label l roleLabel.
Definition owner_of (l : labels) : string := label l ownerLabel.

Lemma volume_labels_get project owner role name :
  owner_of (volume_labels project owner role name) = project /\ role_of (volume_labels project owner role name) = role.
Proof. unfold owner_of, role_of, label, volume_labels. by simplify_map_eq. Qed.

Lemma plan_volume_valid project suffix role owner consumers v : v = plan_volume project suffix role owner consumers ->
  validVolume v = true -> proper_labels (v_Labels v).
Proof.
  intros -> Hv k Hk. unfold validVolume in Hv. rewrite !andb_true_iff, !negb_true_iff, !String.eqb_neq in Hv.
  destruct Hv as [[[[Hname Hrole] Howner] _] Hproject]. cbn [plan_volume v_Labels v_Name v_Role v_Owner] in *.
  destruct (volume_labels_get project owner role (VolumeName project suffix)) as [Hp _]. unfold owner_of in Hp. rewrite Hp in Hproject.
  unfold volume_labels in Hk. rewrite !lookup_insert_Some, lookup_singleton_Some in Hk.
  destruct Hk as [[_ Hk]|[_ Hk]]; [exact (Hproject Hk)|]. destruct Hk as [[_ Hk]|[_ Hk]]; [exact (Howner Hk)|].
  destruct Hk as [[_ Hk]|[_ Hk]]; [exact (Hrole Hk)|]. destruct Hk as [[_ Hk]|[_ Hk]]; [|destruct Hk as [_ Hk]; discriminate Hk].
  rewrite Hk in Hname. discriminate Hname.
Qed.

(** ** The inventory is read back *)

(** A volume as an inventory records it. *)
Definition recorded (project : string) (v : Volume) : Prop :=
  exists suffix role owner, v = mkVolume (VolumeName project suffix) role owner [] (volume_labels project owner role (VolumeName project suffix)) /\
    ascii_text (VolumeName project suffix) = true /\ ascii_text role = true /\ ascii_text owner = true.

Lemma ascii_valid s : ascii_text s = true -> ValidString s = true.
Proof. intros H. rewrite <- (str_app_nil s), valid_ascii by done. done. Qed.

Lemma into_map_spec (l : list (string * string)) m : List.NoDup (map fst l) ->
  into_map (prod_map id JString <$> l) m = Some (list_to_map l ∪ m).
Proof.
  revert m. induction l as [|[k x] l IH]; intros m Hl; [by rewrite list_to_map_nil, left_id_L by apply _|].
  cbn [map fst] in Hl. apply List.NoDup_cons_iff in Hl as [Hk Hl]. cbn [fmap list_fmap prod_map id into_map fst snd].
  rewrite IH by done. f_equal. rewrite list_to_map_cons. rewrite <- insert_union_l, <- insert_union_r; [done|].
  apply not_elem_of_list_to_map_1. intros H. apply Hk. by apply list_elem_of_In.
Qed.

Abbreviation put_labels := (fun l v => mkVolume (v_Name v) (v_Role v) (v_Owner v) (v_Consumers v) l).

Lemma labels_read (l : labels) v : v_Labels v = ∅ -> into_labels v_Labels put_labels (labels_json l) v = Some (put_labels l v).
Proof.
  intros Hv. unfold labels_json, into_labels. set (sorted := merge_sort _ _). assert (Hp : sorted ≡ₚ map_to_list l) by apply merge_sort_Permutation.
  rewrite into_map_spec, Hv, (right_id_L ∅ (∪)).
  - do 2 f_equal. rewrite <- (list_to_map_to_list l). apply list_to_map_proper; [|done].
    rewrite Hp. apply NoDup_fst_map_to_list.
  - apply NoDup_ListNoDup. change (NoDup sorted.*1). rewrite Hp. apply NoDup_fst_map_to_list.
Qed.

Lemma volume_read v : v_Consumers v = [] -> unmarshal_struct volume_fields (volume_json v) zero_volume = Some v.
Proof.
  intros Hc. unfold volume_json. rewrite Hc. destruct v as [name role owner consumers l]. cbn [v_Consumers] in Hc. subst consumers.
  change (into_labels v_Labels put_labels (labels_json l) (mkVolume name role owner [] ∅) ≫= unmarshal_members volume_fields []
    = Some (mkVolume name role owner [] l)). by rewrite labels_read.
Qed.

Lemma volumes_read vs : Forall (fun v => v_Consumers v = []) vs ->
  slice_elements (unmarshal_struct volume_fields) zero_volume [] (volume_json <$> vs) = Some vs.
Proof.
  induction 1 as [|v vs Hv _ IH]; [done|]. cbn [fmap list_fmap slice_elements hd tl]. rewrite volume_read by done. cbn [tl] in IH.
  by rewrite IH.
Qed.

Lemma volume_labels_text project owner role name k x : ascii_text project = true -> ascii_text owner = true -> ascii_text role = true ->
  ascii_text name = true -> volume_labels project owner role name !! k = Some x -> ValidString k = true /\ ValidString x = true.
Proof.
  intros Hp Ho Hr Hn H. unfold volume_labels in H. rewrite !lookup_insert_Some, lookup_singleton_Some in H.
  do 4 (destruct H as [[<- <-]|[_ H]]; [split; [done|by apply ascii_valid]|]). destruct H as [<- <-]. done.
Qed.

Lemma recorded_json project v : ascii_text project = true -> recorded project v -> json_ok (volume_json v) = true.
Proof.
  intros Hp (suffix & role & owner & -> & Hn & Hr & Ho). unfold volume_json.
  change (v_Consumers _) with (@nil string). rewrite decide_True by done.
  cbn [app json_ok forallb v_Name v_Role v_Owner v_Labels]. rewrite !ascii_valid by done. cbn [andb].
  unfold labels_json. cbn [json_ok]. rewrite andb_true_r, forallb_forall. intros [k x] Hin.
  apply list_elem_of_In, list_elem_of_fmap in Hin as ([k' y] & [= -> ->] & Hin). rewrite merge_sort_Permutation, elem_of_map_to_list in Hin.
  apply andb_true_iff. by eapply volume_labels_text in Hin.
Qed.

Lemma recorded_consumers project v : recorded project v -> v_Consumers v = [].
Proof. by intros (? & ? & ? & -> & _). Qed.

(** An inventory that [configurationFiles] writes is the one
    [mergeVolumeInventory] reads. *)
Lemma inventory_read project vs : ascii_text project = true -> Forall (recorded project) vs ->
  unmarshal_inventory (canonicalJSON (inventory_json (mkInventory stateVersion project vs))) = Some (mkInventory stateVersion project vs).
Proof.
  intros Hp Hvs.
  assert (Hok : json_ok (inventory_json (mkInventory stateVersion project vs)) = true).
  { unfold inventory_json. cbn [json_ok forallb vi_Version vi_Project vi_Volumes]. rewrite !ascii_valid by done. cbn [andb].
    rewrite !andb_true_r, forallb_forall. intros x Hin.
    apply list_elem_of_In, list_elem_of_fmap in Hin as (v & -> & Hin). rewrite Forall_forall in Hvs. by eapply recorded_json; [|apply Hvs]. }
  unfold unmarshal_inventory, canonicalJSON. rewrite (proj1 (@json_document_print false _ Hok)). unfold inventory_json.
  cbn [mbind option_bind vi_Version vi_Project vi_Volumes].
  assert (Hc : Forall (fun v => v_Consumers v = []) vs) by (eapply Forall_impl; [exact Hvs|]; intros; by eapply recorded_consumers).
  pose proof (volumes_read vs Hc) as Hr.
  change (match slice_elements (unmarshal_struct volume_fields) zero_volume [] (volume_json <$> vs) with
    | Some us => Some (mkInventory stateVersion project us) | None => None end ≫= unmarshal_members inventory_fields []
    = Some (mkInventory stateVersion project vs)). by rewrite Hr.
Qed.

(** ** Merging inventories *)

(** Every label of the one is a label of the other. *)
Definition label_incl (l r : labels) : Prop := forall k x, l !! k = Some x -> x <> "" -> r !! k = Some x.

Lemma equalLabels_incl l r : equalLabels l r = true -> label_incl l r.
Proof.
  intros He k x Hx Hne. pose proof (equalLabels_get _ _ _ _ He Hx) as Hr. destruct (r !! k); cbn in Hr; congruence.
Qed.

Definition keyed (m : gmap string Volume) : Prop := forall n u, m !! n = Some u -> v_Name u = n.

Lemma keyed_insert m v u : keyed m -> v_Name u = v_Name v -> keyed (<[v_Name v := u]> m).
Proof. intros Hk Hn n x. rewrite lookup_insert_Some. intros [[<- <-]|[_ H]]; [done|by apply Hk]. Qed.

Lemma merge_historical_ok project m vs m' : merge_historical project m vs = Ok m' -> keyed m ->
  keyed m' /\ m ⊆ m' /\ (forall v, v ∈ vs -> m' !! v_Name v = Some v) /\ (forall n u, m' !! n = Some u -> m !! n = Some u \/ u ∈ vs).
Proof.
  revert m. induction vs as [|v vs IH]; intros m; cbn [merge_historical].
  - intros [= <-] Hk. split_and!; [done|done|by intros v ?%not_elem_of_nil|by left].
  - destruct (_ || _); [done|]. destruct (m !! v_Name v) eqn:E; [done|]. intros H Hk.
    destruct (IH _ H (keyed_insert _ _ _ Hk eq_refl)) as (H1 & H2 & H3 & H4). split_and!; [done| | |].
    + etransitivity; [by apply insert_subseteq|done].
    + intros u [->|Hu]%elem_of_cons; [|by apply H3]. eapply lookup_weaken; [|done]. by rewrite lookup_insert_eq.
    + intros n u Hu. destruct (H4 n u Hu) as [Hm|]; [|right; by right]. rewrite lookup_insert_Some in Hm.
      destruct Hm as [[_ <-]|[_ Hm]]; [right; by left|by left].
Qed.

Lemma merge_current_ok project m vs m' : merge_current project m vs = Ok m' -> keyed m ->
  keyed m' /\
  (forall n u, m !! n = Some u -> exists u', m' !! n = Some u' /\ label_incl (v_Labels u) (v_Labels u')) /\
  (forall v, v ∈ vs -> validVolume v = true /\ owner_of (v_Labels v) = project /\
    exists u, m' !! v_Name v = Some u /\ label_incl (v_Labels v) (v_Labels u)) /\
  (forall n u, m' !! n = Some u -> m !! n = Some u \/ exists v, v ∈ vs /\ u = without_consumers v).
Proof.
  revert m. induction vs as [|v vs IH]; intros m; cbn [merge_current].
  - intros [= <-] Hk. split_and!; [done|intros n u Hu; exists u; split; [done|by intros k x]|by intros v ?%not_elem_of_nil|by left].
  - destruct (_ || _) eqn:Ev; [done|]. apply orb_false_iff in Ev as [Hv%negb_false_iff Ho%negb_false_iff]. apply String.eqb_eq in Ho.
    destruct (match m !! v_Name v with Some previous => _ | None => _ end) eqn:Ep; [done|]. intros H Hk.
    destruct (IH _ H (keyed_insert _ v (without_consumers v) Hk eq_refl)) as (H1 & H2 & H3 & H4). split_and!; [done| | |].
    + intros n u Hu. destruct (decide (n = v_Name v)) as [->|Hne]; [|apply H2; by rewrite lookup_insert_ne].
      rewrite Hu in Ep. apply negb_false_iff in Ep.
      destruct (H2 (v_Name v) (without_consumers v)) as (u' & Hu' & Hl); [by rewrite lookup_insert_eq|]. exists u'. split; [done|].
      intros k x Hx Hne. apply Hl; [|done]. by apply (equalLabels_incl _ _ Ep).
    + intros u [->|Hu]%elem_of_cons; [|by apply H3]. split_and!; [done|done|]. apply (H2 (v_Name v) (without_consumers v)). by rewrite lookup_insert_eq.
    + intros n u Hu. destruct (H4 n u Hu) as [Hm|(w & Hw & ->)]; [|right; exists w; split; [by right|done]]. rewrite lookup_insert_Some in Hm.
      destruct Hm as [[_ <-]|[_ Hm]]; [right; exists v; split; [by left|done]|by left].
Qed.

(** The volumes an inventory names. *)
Definition inventory_names (data : string) : list string :=
  match unmarshal_inventory data with Some i => v_Name <$> vi_Volumes i | None => [] end.

(** The data of an inventory file that [Ensure] wrote, or none yet. *)
Definition published (project data : string) : Prop :=
  data = "" \/ exists vs, data = canonicalJSON (inventory_json (mkInventory stateVersion project vs)) /\ Forall (recorded project) vs.

Definition planned_volume (project : string) (v : Volume) : Prop :=
  exists suffix role owner consumers, v = plan_volume project suffix role owner consumers /\ ascii_text role = true /\ ascii_text owner = true.

Lemma planned_recorded project v : planned_volume project v -> validVolume v = true -> recorded project (without_consumers v).
Proof.
  intros (suffix & role & owner & consumers & -> & Hr & Ho) Hv. exists suffix, role, owner. split_and!; [done| |done|done].
  unfold validVolume, safeVolumeName in Hv. rewrite !andb_true_iff in Hv. destruct Hv as [[[[[_ Hn] _] _] _] _]. unfold ascii_text.
  eapply all_bytes_impl; [|exact Hn]. intros [[] [] [] [] [] [] [] []]; vm_compute; congruence.
Qed.

Lemma historical_ok project data old : ascii_text project = true -> published project data -> historical_volumes project data = Ok old ->
  keyed old /\ (forall n, n ∈ inventory_names data -> is_Some (old !! n)) /\ (forall n u, old !! n = Some u -> recorded project u).
Proof.
  intros Hp Hd. unfold historical_volumes. destruct (len data =? 0)%Z eqn:El.
  - apply Z.eqb_eq in El. destruct data; [|unfold len in El; cbn in El; lia]. intros [= <-].
    split_and!; [by intros n u|by intros n ?%not_elem_of_nil|by intros n u].
  - destruct (_ <? _)%Z; [done|]. destruct Hd as [->|(vs & -> & Hvs)]; [done|]. unfold inventory_names. rewrite inventory_read by done.
    destruct (_ || _); [done|]. cbn [vi_Volumes]. intros H. destruct (merge_historical_ok _ _ _ _ H) as (H1 & _ & H3 & H4); [by intros n u|].
    split_and!; [done| |].
    + intros n Hn. apply list_elem_of_fmap in Hn as (v & -> & Hv). by exists v; apply H3.
    + intros n u Hu. destruct (H4 n u Hu) as [?|Hin]; [done|]. rewrite Forall_forall in Hvs. by apply Hvs.
Qed.

(** The merged inventory can be written, keeps every name, has every planned
    volume, and planned volumes of one name have the same labels. *)
Lemma merged_ok project data current l : ascii_text project = true -> published project data ->
  Forall (planned_volume project) current -> mergeVolumeInventory project data current = Ok l ->
  Forall (recorded project) l /\ (forall n, n ∈ inventory_names data -> n ∈ (v_Name <$> l)) /\
  (forall v, v ∈ current -> validVolume v = true /\ v_Name v ∈ (v_Name <$> l)) /\
  (forall v v', v ∈ current -> v' ∈ current -> v_Name v = v_Name v' -> v_Labels v = v_Labels v').
Proof.
  intros Hp Hd Hc. unfold mergeVolumeInventory. destruct (historical_volumes project data) as [old|e] eqn:Eh; [|done].
  destruct (merge_current project old current) as [merged|e] eqn:Em; [|done]. destruct (_ || _); [done|]. intros [= <-].
  destruct (historical_ok _ _ _ Hp Hd Eh) as (Hk & Hn & Hr). destruct (merge_current_ok _ _ _ _ Em Hk) as (H1 & H2 & H3 & H4).
  rewrite Forall_forall in Hc.
  assert (Hin : forall u, u ∈ omap (fun name => merged !! name) (sort_strings (fst <$> map_to_list merged)) <-> merged !! v_Name u = Some u).
  { intros u. rewrite list_elem_of_omap. unfold sort_strings. setoid_rewrite merge_sort_Permutation. split.
    - intros (n & _ & Hu). by rewrite (H1 _ _ Hu).
    - intros Hu. exists (v_Name u). split; [|done]. apply list_elem_of_fmap. exists (v_Name u, u). split; [done|]. by apply elem_of_map_to_list. }
  assert (Hname : forall n u, merged !! n = Some u -> n ∈ (v_Name <$> omap (fun name => merged !! name) (sort_strings (fst <$> map_to_list merged)))).
  { intros n u Hu. apply list_elem_of_fmap. exists u. rewrite (H1 _ _ Hu). split; [done|]. apply Hin. by rewrite (H1 _ _ Hu). }
  split_and!.
  - rewrite Forall_forall. intros u Hu. apply Hin in Hu. destruct (H4 _ _ Hu) as [Hu'|(v & Hv & ->)]; [by eapply Hr|].
    apply planned_recorded; [by apply Hc|]. by destruct (H3 v Hv).
  - intros n Hn'. destruct (Hn n Hn') as [u Hu]. destruct (H2 n u Hu) as (u' & Hu' & _). by eapply Hname.
  - intros v Hv. destruct (H3 v Hv) as (? & _ & u & Hu & _). split; [done|by eapply Hname].
  - intros v v' Hv Hv' Hnn. destruct (H3 v Hv) as (Hval & _ & u & Hu & Hl). destruct (H3 v' Hv') as (Hval' & _ & u' & Hu' & Hl').
    rewrite <- Hnn, Hu in Hu'. injection Hu' as <-.
    assert (Hu5 : (size (v_Labels u) <= 5)%nat).
    { destruct (H4 _ _ Hu) as [Hu'|(w & Hw & ->)].
      - destruct (Hr _ _ Hu') as (suffix & role & owner & -> & _). apply Nat.eq_le_incl. reflexivity.
      - destruct (H3 w Hw) as [Hw' _]. by rewrite <- (valid_labels w Hw'). }
    assert (Hlabels : forall w, w ∈ current -> validVolume w = true -> label_incl (v_Labels w) (v_Labels u) -> v_Labels w = v_Labels u).
    { intros w Hw Hwv Hwl. apply map_subseteq_size_eq; [|by rewrite (valid_labels w Hwv)]. apply map_subseteq_spec. intros k x Hx.
      apply Hwl; [done|]. intros ->. destruct (Hc w Hw) as (suffix & role & owner & consumers & Hw' & _). by eapply plan_volume_valid. }
    by rewrite (Hlabels v Hv Hval Hl), (Hlabels v' Hv' Hval' Hl').
Qed.

Lemma prepared_project project compiled inputs pp : preparePlan project compiled inputs = Ok pp -> ascii_text project = true /\ project <> "".
Proof.
  unfold preparePlan, preparing. unfold bind at 1, guard at 1. destruct (projectPattern project) eqn:Hp; [|done]. intros _. unfold projectPattern in Hp.
  destruct project as [|c rest]; [done|]. split; [|done]. rewrite !andb_true_iff in Hp. destruct Hp as [[Hc Hr] _].
  assert (Hd : forall d, (is_alnum d || one_of "_-" d) = true -> (code d <? 0x80)%Z = true)
    by (intros [[] [] [] [] [] [] [] []]; vm_compute; congruence).
  unfold ascii_text. cbn [all_bytes]. rewrite Hd by (by rewrite Hc). by apply (all_bytes_impl _ _ _ Hd).
Qed.
