(* ===== verification/LocalStore.v ===== *)
(** * The local platform's trusted state

    The store half of localplatform/state.  A volume's contents are a small
    tree of files; the shell scripts of docker_store.go are programs over it
    that may stop after any of their commands, and inside those that are not
    atomic.  [DockerStore] is a program over the commands of Docker per method
    of the interface [Store], and [Ensure] of manager.go a program over that
    interface.  A script is interrupted with the process that runs it; what a
    power failure does to unsynced data, and two managers at once, are left
    out. *)
From stdpp Require Import base list strings gmap sorting.
From Stdlib Require Import ZArith Lia Ascii.
From S2P Require Import Prelude GoStrings GoUrl GoJson GoEncoding GoHttp Sha256 Program LocalPlan.

Local Open Scope Z_scope.
Local Open Scope go_scope.
Local Open Scope string_scope.

(** ** Files *)

Record meta := mkMeta { mt_uid : Z; mt_gid : Z; mt_mode : Z }.
#[export] Instance meta_eq_dec : EqDecision meta.
Proof. solve_decision. Defined.

(** A symbolic link has what it leads to, if anything. *)
#[warnings="-register-all"]
Inductive node : Type :=
| File (m : meta) (content : string)
| Dir (m : meta) (entries : gmap string node)
| Link (target : option node)
| Special.

Abbreviation directory := (gmap string node).

(** A volume: the root directory's owner and mode, and its entries. *)
Record contents := mkContents { ct_root : meta; ct_entries : directory }.

Definition at_root (f : directory -> directory) (c : contents) : contents := mkContents (ct_root c) (f (ct_entries c)).

(** test -L, and -e, -f and -d, which follow links. *)
Definition is_link (n : option node) : bool := match n with Some (Link _) => true | _ => false end.
Definition follow (n : option node) : option node := match n with Some (Link t) => t | _ => n end.
Definition is_there (n : option node) : bool := bool_decide (is_Some (follow n)).
Definition is_file (n : option node) : bool := match follow n with Some (File _ _) => true | _ => false end.
Definition is_dir (n : option node) : bool := match follow n with Some (Dir _ _) => true | _ => false end.

Definition entry (c : contents) (name : string) : option node := ct_entries c !! name.
Definition in_dir (c : contents) (dir name : string) : option node :=
  match follow (entry c dir) with Some (Dir _ es) => es !! name | _ => None end.

Definition root_file : meta := mkMeta 0 0 256.
Definition root_dir : meta := mkMeta 0 0 448.
Definition new_volume : contents := mkContents (mkMeta 0 0 493) ∅.

(** ** Commands and scripts *)

Inductive command : Type :=
| Require (b : contents -> bool)
| Remove (names : list string)
| Mkdir (name : string)
| Untar (dir : string) (files : list StateFile)
| Cp (n : option node) (dir name : string)
| Mv (from to : string)
| Ln (dir name : string)
| Rm (dir name : string)
| Chown (dir name : string) (uid gid : Z)
| Chmod (dir name : string) (mode : Z)
| ChownRoot (uid gid : Z)
| ChmodRoot (mode : Z)
| Sync.

(** One file of an archive; directories on its way are made. *)
Fixpoint add_file (path : list string) (n : node) (es : directory) : option directory :=
  match path with
  | [] => None
  | [name] =>
      if (name =? "..")%string || (name =? ".")%string || is_dir (es !! name) then None else Some (<[name := n]> es)
  | name :: path' =>
      match es !! name with
      | None => sub ← add_file path' n ∅; Some (<[name := Dir root_dir sub]> es)
      | Some (Dir m sub) => sub' ← add_file path' n sub; Some (<[name := Dir m sub']> es)
      | Some _ => None
      end
  end.

Definition tar_file (f : StateFile) : node := File (mkMeta (sf_UID f) (sf_GID f) (sf_Mode f)) (sf_Data f).

Fixpoint extract (files : list StateFile) (es : directory) : option directory :=
  match files with
  | [] => Some es
  | f :: files' => add_file (Split (sf_Name f) "/"%char) (tar_file f) es ≫= extract files'
  end.

(** A change inside a directory. *)
Definition within (dir : string) (f : directory -> option directory) (c : contents) : option contents :=
  match entry c dir with
  | Some (Dir m es) => es' ← f es; Some (at_root <[dir := Dir m es']> c)
  | _ => None
  end.

Definition on_meta (f : meta -> meta) (name : string) (es : directory) : option directory :=
  match es !! name with
  | Some (File m s) => Some (<[name := File (f m) s]> es)
  | Some (Dir m sub) => Some (<[name := Dir (f m) sub]> es)
  | _ => None
  end.

(** What a command that succeeds leaves, under umask 077. *)
Definition exec (x : command) (c : contents) : option contents :=
  match x with
  | Require b => if b c then Some c else None
  | Remove names => Some (at_root (fun es => foldr delete es names) c)
  | Mkdir name => match entry c name with None => Some (at_root <[name := Dir root_dir ∅]> c) | Some _ => None end
  | Untar dir files => within dir (extract files) c
  | Cp n dir name =>
      match n with
      | Some (File m s) => within dir (fun es => Some (<[name := File (mkMeta 0 0 (Z.land (mt_mode m) 448)) s]> es)) c
      | _ => None
      end
  | Mv from to =>
      match entry c from, entry c to with
      | None, _ => None
      | Some n, None => Some (at_root (fun es => <[to := n]> (delete from es)) c)
      | Some n, Some (Dir m es) =>
          match es !! from with
          | None => Some (at_root (fun top => <[to := Dir m (<[from := n]> es)]> (delete from top)) c)
          | Some _ => None
          end
      | Some (Dir _ _), Some _ | _, Some (Link (Some (Dir _ _))) => None
      | Some n, Some _ => Some (at_root (fun es => <[to := n]> (delete from es)) c)
      end
  | Ln dir name =>
      match in_dir c dir name, entry c name with
      | Some (File m s), None => Some (at_root <[name := File m s]> c)
      | _, _ => None
      end
  | Rm dir name =>
      within dir (fun es => match es !! name with Some (Dir _ _) | None => None | Some _ => Some (delete name es) end) c
  | Chown dir name uid gid => within dir (on_meta (fun m => mkMeta uid gid (mt_mode m)) name) c
  | Chmod dir name mode => within dir (on_meta (fun m => mkMeta (mt_uid m) (mt_gid m) mode) name) c
  | ChownRoot uid gid => Some (mkContents (mkMeta uid gid (mt_mode (ct_root c))) (ct_entries c))
  | ChmodRoot mode => Some (mkContents (mkMeta (mt_uid (ct_root c)) (mt_gid (ct_root c)) mode) (ct_entries c))
  | Sync => Some c
  end.

(** What is left of an entry that rm -rf was removing. *)
Inductive remains : option node -> option node -> Prop :=
| remains_all n : remains n n
| remains_none n : remains n None
| remains_some m es es' : remains (Some (Dir m es)) (Some (Dir m es')).

(** What a command that is interrupted, or fails half-way, may leave. *)
Inductive partway : command -> contents -> contents -> Prop :=
| partway_remove names c c' : ct_root c' = ct_root c ->
    (forall n, n ∉ names -> entry c' n = entry c n) -> (forall n, n ∈ names -> remains (entry c n) (entry c' n)) ->
    partway (Remove names) c c'
| partway_untar dir files c m es es' : entry c dir = Some (Dir m es) ->
    partway (Untar dir files) c (at_root <[dir := Dir m es']> c)
| partway_cp n dir name c m es es' : entry c dir = Some (Dir m es) ->
    partway (Cp n dir name) c (at_root <[dir := Dir m es']> c).

(** Under set -e a script ends at the first command that fails. *)
Inductive script : Type :=
| Done
| Do (x : command) (k : script)
| IfThen (b : contents -> bool) (s k : script).

Fixpoint run (s : script) (c : contents) : option contents :=
  match s with
  | Done => Some c
  | Do x k => exec x c ≫= run k
  | IfThen b s k => if b c then run s c ≫= run k else run k c
  end.

(** The contents at the points where a script may stop. *)
Fixpoint stops (s : script) (c c' : contents) : Prop :=
  c' = c \/
  match s with
  | Done => False
  | Do x k => partway x c c' \/ exists c1, exec x c = Some c1 /\ stops k c1 c'
  | IfThen b s k =>
      if b c then stops s c c' \/ exists c1, run s c = Some c1 /\ stops k c1 c' else stops k c c'
  end.

(** ** The scripts *)

Definition not_link (name : string) (c : contents) : bool := negb (is_link (entry c name)).
Definition there (name : string) (c : contents) : bool := is_there (entry c name).
Definition absent (name : string) (c : contents) : bool := negb (there name c).

(** [writeFiles] without an expected size. *)
Definition replace_script (files : list StateFile) : script :=
  Do (Require (not_link "current")) $ Do (Require (not_link "current.old")) $ Do (Require (not_link ".next")) $
  IfThen (fun c => absent "current" c && there "current.old" c)
    (Do (Require (fun c => is_dir (entry c "current.old"))) $ Do (Mv "current.old" "current") $ Do Sync Done) $
  Do (Remove [".next"; "current.old"]) $ Do (Mkdir ".next") $ Do (Untar ".next" files) $ Do Sync $
  IfThen (there "current") (Do (Mv "current" "current.old") Done) $
  Do (Mv ".next" "current") $ Do Sync $ Do (Remove ["current.old"]) $ Do Sync Done.

(** The first line of a file in words, as read -r splits it; the fourth holds
    the rest of the line. *)
Definition read_words (text : string) : option (string * string * string * bool) :=
  match Cut text "010"%char with
  | (line, _, true) =>
      let words := List.filter (fun w => negb (w =? "")%string) (Split line " "%char) in
      Some (nth 0 words "", nth 1 words "", nth 2 words "", (3 <? Z.of_nat (length words))%Z)
  | _ => None
  end.

Definition validGeneratedValueSize (value : Z) : bool := (value =? 32)%Z || (value =? 43)%Z.

(** test_private_source; the bounded snapshots are the files themselves. *)
Definition test_private_source (marker value : string) (expected : Z) : bool :=
  validGeneratedValueSize expected && (1 <=? len marker)%Z && (len marker <=? 192)%Z && (len value =? expected)%Z
  && match read_words marker with
     | Some (version, digest, size, extra) =>
         negb extra && (version =? privateSourceMarkerVersion)%string && (digest =? "sha256:" ++ sha256_hex value)%string
         && (size =? Itoa (len value))%string && (sha256_hex marker =? sha256_hex (privateSourceMarker value))%string
     | None => false
     end.

(** test_ready_private_source *)
Definition test_ready (expected : Z) (c : contents) : bool :=
  match entry c ".initialized", entry c "current" with
  | Some (File m marker), Some (Dir d es) =>
      match es !! ".initialized", es !! "value" with
      | None, Some (File vm value) =>
          negb (value =? "")%string && bool_decide (m = root_file) && bool_decide (d = root_dir) && bool_decide (vm = root_file)
          && test_private_source marker value expected
      | _, _ => false
      end
  | _, _ => false
  end.

(** test_publishing_private_source *)
Definition test_publishing (expected : Z) (c : contents) : bool :=
  match entry c "current" with
  | Some (Dir d es) =>
      match es !! ".initialized", es !! "value" with
      | Some (File jm journal), Some (File vm value) =>
          negb (value =? "")%string && bool_decide (d = root_dir) && bool_decide (jm = root_file) && bool_decide (vm = root_file)
          && test_private_source journal value expected
          && match entry c ".initialized" with
             | None => true
             | Some (File m marker) => bool_decide (m = root_file) && test_private_source marker value expected
             | Some _ => false
             end
      | _, _ => false
      end
  | _ => false
  end.

(** The staged files of .next. *)
Definition test_staged (expected : Z) (c : contents) : bool :=
  match in_dir c ".next" ".initialized", in_dir c ".next" "value" with
  | Some (File _ marker), Some (File _ value) => test_private_source marker value expected
  | _, _ => false
  end.

(** [writeFiles] of [InitializePrivateSource]. *)
Definition initialize_script (files : list StateFile) (expected : Z) : script :=
  Do (Require (absent ".initialized")) $ Do (Require (not_link ".initialized")) $
  Do (Require (absent "current")) $ Do (Require (not_link "current")) $
  Do (Remove [".next"; "current.old"]) $ Do (Mkdir ".next") $ Do (Untar ".next" files) $
  Do (Require (test_staged expected)) $ Do Sync $ Do (Mv ".next" "current") $ Do Sync $
  Do (Ln "current" ".initialized") $ Do Sync $ Do (Rm "current" ".initialized") $ Do Sync Done.

Definition finalize_script (expected : Z) : script :=
  Do (Require (test_publishing expected)) $
  IfThen (fun c => absent ".initialized" c && not_link ".initialized" c) (Do (Ln "current" ".initialized") Done) $
  Do Sync $ Do (Require (test_publishing expected)) $ Do (Rm "current" ".initialized") $ Do Sync $
  Do (Require (test_ready expected)) Done.

Inductive PrivateSourceState : Type := SourceEmpty | SourcePublishing | SourceReady | SourceCorrupt.
#[export] Instance PrivateSourceState_eq_dec : EqDecision PrivateSourceState.
Proof. solve_decision. Defined.

(** The script of [InspectPrivateSource]; both tests are made twice, with a
    sync between them. *)
Definition inspect (expected : Z) (c : contents) : PrivateSourceState :=
  if absent ".initialized" c && not_link ".initialized" c && absent "current" c && not_link "current" c then SourceEmpty
  else if test_ready expected c then SourceReady
  else if test_publishing expected c then SourcePublishing
  else SourceCorrupt.

Definition inspect_output (expected : Z) (c : contents) : option string :=
  Some match inspect expected c with
       | SourceEmpty => "empty" | SourceReady => "ready" | SourcePublishing => "publishing" | SourceCorrupt => "corrupt"
       end.

Definition staged_as (name : string) (m : meta) (c : contents) : bool :=
  match in_dir c ".next" name with Some (File m' _) => bool_decide (m' = m) | _ => false end.

Definition same_marker (source c : contents) : bool :=
  match entry source ".initialized", in_dir c ".next" ".initialized" with
  | Some (File _ s), Some (File _ t) => (sha256_hex t =? sha256_hex s)%string
  | _, _ => false
  end.

(** The script of [CopyPrivateFile], over the destination. *)
Definition copy_script (source : contents) (uid gid expected : Z) : script :=
  Do (Require (fun _ => test_ready expected source)) $ Do (Remove [".next"; "current.old"]) $ Do (Mkdir ".next") $
  Do (Cp (entry source ".initialized") ".next" ".initialized") $ Do (Cp (in_dir source "current" "value") ".next" "value") $
  Do (Require (staged_as ".initialized" root_file)) $ Do (Require (staged_as "value" root_file)) $
  Do (Require (test_staged expected)) $ Do (Require (fun _ => test_ready expected source)) $ Do (Require (same_marker source)) $
  Do (Require (test_staged expected)) $ Do (Require (staged_as ".initialized" root_file)) $ Do (Require (staged_as "value" root_file)) $
  Do (Chown ".next" "value" uid gid) $ Do (Chmod ".next" "value" 256) $ Do (Require (staged_as "value" (mkMeta uid gid 256))) $ Do Sync $
  IfThen (there "current") (Do (Mv "current" "current.old") Done) $
  Do (Mv ".next" "current") $ Do Sync $ Do (Remove ["current.old"]) $ Do Sync Done.

Definition directory_script (uid gid mode : Z) : script := Do (ChownRoot uid gid) $ Do (ChmodRoot mode) $ Do Sync Done.

(** The script of [ReadVolumeInventory]; [None] when one of its tests fails. *)
Definition read_inventory (c : contents) : option string :=
  if negb (not_link "current" c && not_link "current.old" c) then None
  else
    let root := if there "current" c then Some "current" else if there "current.old" c then Some "current.old" else None in
    match root with
    | None => Some ""
    | Some root =>
        match entry c root with
        | Some (Dir _ es) =>
            match es !! "volume-inventory.json" with
            | None => Some ""
            | Some (File _ data) => if (len data <=? maxStateFileBytes)%Z then Some data else None
            | Some _ => None
            end
        | _ => None
        end
    end.

(** ** The interface [Store] *)

Inductive store_call : Type :=
| ValidateVolumes (volumes : list Volume)
| EnsureVolumes (volumes : list Volume)
| ReadVolumeInventory (volume : Volume)
| EnsureDirectory (volume : Volume) (uid gid mode : Z)
| InspectPrivateSource (volume : Volume) (size : Z)
| FinalizePrivateSource (volume : Volume) (size : Z)
| InitializePrivateSource (volume : Volume) (size : Z) (files : list StateFile)
| ReplaceFiles (volume : Volume) (files : list StateFile)
| CopyPrivateFile (source destination : Volume) (uid gid size : Z)
| ReadRandom.

(** [None] is an error; [ReadRandom] is 32 bytes of [Manager.Random]. *)
Definition store_answer (c : store_call) : Type :=
  match c with
  | ValidateVolumes _ | EnsureVolumes _ => option (gset string)
  | ReadVolumeInventory _ | ReadRandom => option string
  | InspectPrivateSource _ _ => option PrivateSourceState
  | _ => option unit
  end.

(** ** Docker *)

(** What a helper container does with its mounts: it reads a read-only volume,
    runs a script on a volume, or on the second of two volumes, having read
    the first. *)
Inductive body : Type :=
| Reading (f : contents -> option string)
| Writing (s : script)
| Copying (s : contents -> script).

Record helperMount := mkHelperMount { hm_volume : Volume; hm_target : string }.

Inductive docker_call : Type :=
| VolumeLs (name : string)
| VolumeInspect (name : string)
| VolumeCreate (name : string) (l : labels)
| ImageInspect
| ImagePull
| ContainerName
| ContainerCreate (container : string) (mounts : list string) (b : body)
| ContainerStart (container : string)
| ContainerRemove (container : string)
| RandomRead.

(** Standard output, or an error. *)
Definition docker_answer (c : docker_call) : Type := option string.

(** ** [DockerStore] *)

Abbreviation dockering A := (early docker_answer (option A)).

(** A command whose error is the method's. *)
Definition attempt {A} (c : docker_call) : dockering A string :=
  ebind (then_do (perform c)) (fun r => match r with Some out => go out | None => stop None end).

Definition require {A} (b : bool) : dockering A unit := if b then go tt else stop None.

Section DockerStore.
(** [reference.ParseNamed] and the digest of its result. *)
Variables (pinned_reference : string -> bool) (HelperImage : string).

Definition validHelperImage (value : string) : bool :=
  if HasPrefix value "sha256:" && (len value =? 71)%Z then all_bytes is_hex (TrimPrefix value "sha256:")
  else pinned_reference value.

Definition volumeExists {A} (v : Volume) : dockering A bool :=
  let! output := attempt (VolumeLs (v_Name v)) in
  let! _ := require (forallb (fun line => line =? v_Name v)%string (Fields output)) in
  go (negb (length (Fields output) =? 0)%nat).

(** [json.Unmarshal] into a map. *)
Definition unmarshal_labels (data : string) : option labels :=
  match json_document data with
  | Some JNull => Some ∅
  | Some (JObject ms) => into_map ms ∅
  | _ => None
  end.

Definition verifyVolume {A} (v : Volume) : dockering A unit :=
  let! output := attempt (VolumeInspect (v_Name v)) in
  require (match unmarshal_labels (TrimSpace output) with Some l => equalLabels l (v_Labels v) | None => false end).

Definition classify {A} (found : list Volume * gset string) (v : Volume) : dockering A (list Volume * gset string) :=
  let! _ := require (validVolume v) in
  let! exists_ := volumeExists v in
  if negb exists_ then go ((fst found ++ [v])%list, snd found)
  else let! _ := verifyVolume v in go (fst found, {[v_Name v]} ∪ snd found).

Definition classifyVolumes {A} (volumes : list Volume) : dockering A (list Volume * gset string) :=
  let! _ := require (validHelperImage HelperImage) in
  loop classify ([], ∅) (merge_sort (by_key v_Name) volumes).

Definition create_volume {A} (created : gset string) (v : Volume) : dockering A (gset string) :=
  let! _ := attempt (VolumeCreate (v_Name v) (v_Labels v)) in
  let! _ := verifyVolume v in
  go ({[v_Name v]} ∪ created).

Definition safeContainerPath (value : string) : bool :=
  HasPrefix value "/" && (value =? Clean value)%string && negb (ContainsAny value (nul ++ String "013" (String "010" ",="))).

Definition check_mount {A} (project : string) (seen : gset string) (m : helperMount) : dockering A (gset string) :=
  let! _ := require (validVolume (hm_volume m) && (label (v_Labels (hm_volume m)) ownerLabel =? project)%string && safeContainerPath (hm_target m)) in
  let! _ := require (negb (bool_decide (hm_target m ∈ seen))) in
  go ({[hm_target m]} ∪ seen).

Definition ensureHelperImage {A} : dockering A unit :=
  let! inspected := then_do (perform ImageInspect) in
  match inspected with
  | Some _ => go tt
  | None =>
      let! _ := attempt ImagePull in
      let! _ := attempt ImageInspect in
      go tt
  end.

(** The mounts are verified again once the container exists; it is removed
    whatever happens. *)
Definition runHelper (mounts : list helperMount) (b : body) : prog docker_answer (option string) :=
  finish (
    let! _ := require (negb (length mounts =? 0)%nat) in
    let! _ := loop (check_mount (match mounts with m :: _ => label (v_Labels (hm_volume m)) ownerLabel | [] => "" end)) ∅ mounts in
    let! _ := ensureHelperImage in
    let! container := attempt ContainerName in
    let! _ := attempt (ContainerCreate container (v_Name ∘ hm_volume <$> mounts) b) in
    let! result := then_do (finish (
      let! _ := loop (fun _ m => verifyVolume (hm_volume m)) tt mounts in
      then_do (perform (ContainerStart container)))) in
    let! _ := then_do (perform (ContainerRemove container)) in
    go result).

(** The output of a helper, where only its success counts. *)
Definition succeeds (m : prog docker_answer (option string)) : prog docker_answer (option unit) :=
  pbind m (fun r => Ret (match r with Some _ => Some tt | None => None end)).

Definition maxStateFiles : Z := 2 * 256 + 16.

(** path.Clean; a name of a state file is relative and stays inside. *)
Definition safeArchiveName (value : string) : bool :=
  negb (value =? "")%string && (value =? Clean value)%string && negb (HasPrefix value "/") && negb (HasPrefix value "../")
  && negb (ContainsAny value (String backslash nul)).

Fixpoint archivable (written : gset string) (files : list StateFile) : bool :=
  match files with
  | [] => true
  | f :: files' =>
      safeArchiveName (sf_Name f) && (Z.land (sf_Mode f) (Z.lnot 511) =? 0)%Z && (0 <=? sf_UID f)%Z && (0 <=? sf_GID f)%Z
      && negb (bool_decide (sf_Name f ∈ written)) && (len (sf_Data f) <=? maxStateFileBytes)%Z
      && archivable ({[sf_Name f]} ∪ written) files'
  end.

(** [writeFiles]; an expected size makes it [InitializePrivateSource]'s. *)
Definition writeFiles (v : Volume) (files : list StateFile) (expectedSize : Z) : prog docker_answer (option unit) :=
  if negb (validVolume v) || (length files =? 0)%nat || (maxStateFiles <? Z.of_nat (length files))%Z || negb (archivable ∅ files)
  then Ret None
  else succeeds (runHelper [mkHelperMount v "/state"]
    (Writing (if (expectedSize =? 0)%Z then replace_script files else initialize_script files expectedSize))).

Definition decode_state (output : string) : option PrivateSourceState :=
  let output := TrimSpace output in
  if (output =? "empty")%string then Some SourceEmpty
  else if (output =? "ready")%string then Some SourceReady
  else if (output =? "publishing")%string then Some SourcePublishing
  else if (output =? "corrupt")%string then Some SourceCorrupt
  else None.

(** The interface's methods. *)
Definition DockerStore (c : store_call) : prog docker_answer (store_answer c) :=
  match c return prog docker_answer (store_answer c) with
  | ValidateVolumes volumes => finish (let! (_, existing) := classifyVolumes volumes in go (Some existing))
  | EnsureVolumes volumes =>
      finish (
        let! (missing, _) := classifyVolumes volumes in
        let! created := loop create_volume ∅ missing in
        go (Some created))
  | ReadVolumeInventory v =>
      finish (
        let! _ := require (validHelperImage HelperImage && validVolume v) in
        let! found := volumeExists v in
        if negb found then stop (Some "")
        else
          let! _ := verifyVolume v in
          then_do (runHelper [mkHelperMount v "/state"] (Reading read_inventory)))
  | EnsureDirectory v uid gid mode =>
      if negb (validVolume v) || (uid <? 0)%Z || (gid <? 0)%Z || (mode <? 0)%Z || (511 <? mode)%Z then Ret None
      else succeeds (runHelper [mkHelperMount v "/state"] (Writing (directory_script uid gid mode)))
  | InspectPrivateSource v size =>
      if negb (validVolume v) || negb (validGeneratedValueSize size) then Ret None
      else pbind (runHelper [mkHelperMount v "/source"] (Reading (inspect_output size))) (fun r => Ret (r ≫= decode_state))
  | FinalizePrivateSource v size =>
      if negb (validVolume v) || negb (validGeneratedValueSize size) then Ret None
      else succeeds (runHelper [mkHelperMount v "/source"] (Writing (finalize_script size)))
  | InitializePrivateSource v size files => if negb (validGeneratedValueSize size) then Ret None else writeFiles v files size
  | ReplaceFiles v files => writeFiles v files 0
  | CopyPrivateFile source destination uid gid size =>
      if negb (validVolume source) || negb (validVolume destination) || (uid <? 0)%Z || (gid <? 0)%Z || negb (validGeneratedValueSize size)
      then Ret None
      else succeeds (runHelper [mkHelperMount source "/source"; mkHelperMount destination "/state"]
        (Copying (fun src => copy_script src uid gid size)))
  | ReadRandom => perform RandomRead
  end.
End DockerStore.

(** ** [Manager.Ensure] *)

Abbreviation managing A := (early store_answer (result string Plan) A).

(** A call of the store whose error has a text of its own. *)
Definition stored {A} (m : prog store_answer (option A)) (message : string) : managing A :=
  ebind (then_do m) (fun r => match r with Some a => go a | None => stop (Err message) end).

Section Ensure.
Context `{ServiceConfigs}.

(** The last volume of a name. *)
Definition volumes_by_name (vs : list Volume) : gmap string Volume := fold_left (fun m v => <[v_Name v := v]> m) vs ∅.

Section Loops.
Variable volumes : gmap string Volume.
Definition volume_of (name : string) : Volume := default zero_volume (volumes !! name).

Abbreviation states := (gmap string PrivateSourceState).

Definition inspect_source (st : states) (i : generatedInputPlan) : managing states :=
  let! state := stored (perform (InspectPrivateSource (volume_of (gp_sourceVolume i)) (generatedValueSize (gn_encoding (gp_input i)))))
    "generated private state is missing or corrupt" in
  if decide (state = SourceCorrupt) then stop (Err "generated private state is missing or corrupt")
  else go (<[gp_sourceVolume i := state]> st).

(** Before anything is written, the sources that exist. *)
Definition inspect_existing (existing : gset string) (st : states) (i : generatedInputPlan) : managing states :=
  if bool_decide (gp_sourceVolume i ∈ existing) then inspect_source st i else go st.

Definition inspect_remaining (st : states) (i : generatedInputPlan) : managing states :=
  if bool_decide (is_Some (st !! gp_sourceVolume i)) then go st else inspect_source st i.

Definition finalize_source (st : states) (i : generatedInputPlan) : managing states :=
  if decide (st !! gp_sourceVolume i = Some SourcePublishing) then
    let! _ := stored (perform (FinalizePrivateSource (volume_of (gp_sourceVolume i)) (generatedValueSize (gn_encoding (gp_input i)))))
      "generated private state publication recovery failed" in
    go (<[gp_sourceVolume i := SourceReady]> st)
  else go st.

Definition ensure_directory (_ : unit) (d : directoryPlan) : managing unit :=
  stored (perform (EnsureDirectory (volume_of (dp_volume d)) (dp_uid d) (dp_gid d) (dp_mode d)))
    "trusted state directory initialization failed".

Definition write_static (inputs : Inputs) (_ : unit) (i : staticInput) : managing unit :=
  match private inputs !! (st_owner i, st_name i) with
  | None => stop (Err "resolved private input became unavailable")
  | Some data =>
      stored (perform (ReplaceFiles (volume_of (st_volume i)) [mkStateFile "value" 256 (st_uid i) (st_gid i) data]))
        "private input storage failed"
  end.

Definition marker_files (value : string) : list StateFile :=
  [mkStateFile ".initialized" 256 0 0 (privateSourceMarker value); mkStateFile "value" 256 0 0 value].

Definition copy_value (i : generatedInputPlan) (_ : unit) (consumer : consumerCopy) : managing unit :=
  stored (perform (CopyPrivateFile (volume_of (gp_sourceVolume i)) (volume_of (cc_volume consumer)) (cc_uid consumer) (cc_gid consumer)
    (generatedValueSize (gn_encoding (gp_input i)))))
    "generated private state is missing or corrupt".

(** A first value for a source that has none. *)
Definition initialize_source (st : states) (i : generatedInputPlan) : managing unit :=
  if decide (st !! gp_sourceVolume i = Some SourceEmpty) then
    let! raw := stored (perform ReadRandom) "generated private state is unavailable" in
    match generatedBytes raw (gn_encoding (gp_input i)) with
    | None => stop (Err "generated private state encoding is invalid")
    | Some value =>
        stored (perform (InitializePrivateSource (volume_of (gp_sourceVolume i)) (generatedValueSize (gn_encoding (gp_input i))) (marker_files value)))
          "generated private state storage failed"
    end
  else go tt.

Definition generate (st : states) (_ : unit) (i : generatedInputPlan) : managing unit :=
  let! _ := initialize_source st i in
  loop (copy_value i) tt (gp_consumer i).
End Loops.

(** A value computed before or between the calls. *)
Definition computed {A} (r : option A) (message : string) : managing A :=
  match r with Some a => go a | None => stop (Err message) end.
Definition planned {A} (r : result string A) : managing A :=
  match r with Ok a => go a | Err e => stop (Err e) end.

Definition Ensure (project : string) (compiled : Compiled) (inputs : Inputs) : prog store_answer (result string Plan) :=
  finish (
    let! prepared := planned (preparePlan project compiled inputs) in
    let plan := prepared_Plan project prepared in
    let! _ := computed (configurationFiles compiled inputs plan (pp_Volumes prepared)) "generated configuration is invalid" in
    let volumes := volumes_by_name (pp_Volumes prepared) in
    let configVolume := volume_of volumes (pp_configVolume prepared) in
    let! historical := stored (perform (ReadVolumeInventory configVolume)) "managed volume inventory is unavailable" in
    let! inventory := computed (match mergeVolumeInventory project historical (pp_Volumes prepared) with Ok l => Some l | Err _ => None end)
      "managed volume inventory is invalid" in
    let! configuration := computed (configurationFiles compiled inputs plan inventory) "generated configuration is invalid" in
    let! existing := stored (perform (ValidateVolumes (pp_Volumes prepared))) "trusted state volume ownership conflict or storage failure" in
    let! inspected := loop (inspect_existing volumes existing) ∅ (pp_generated prepared) in
    let! _ := stored (perform (EnsureVolumes [configVolume])) "trusted state inventory volume creation failed" in
    let! _ := stored (perform (ReplaceFiles configVolume configuration)) "generated configuration storage failed" in
    let! _ := stored (perform (EnsureVolumes (pp_Volumes prepared))) "trusted state volume ownership conflict or storage failure" in
    let! inspected := loop (inspect_remaining volumes) inspected (pp_generated prepared) in
    let! states := loop (finalize_source volumes) inspected (pp_generated prepared) in
    let! _ := loop (ensure_directory volumes) tt (pp_directories prepared) in
    let! _ := loop (write_static volumes inputs) tt (pp_static prepared) in
    let! _ := loop (generate volumes states) tt (pp_generated prepared) in
    go (Ok plan)).
End Ensure.

(** ** What Docker does *)

Abbreviation volume_map := (gmap string (labels * contents)).

Record world := mkWorld { w_volumes : volume_map; w_containers : gmap string (list string * body) }.

(** Creating a container creates the volumes it mounts, without labels. *)
Definition mounted (names : list string) (vols vols' : volume_map) : Prop :=
  vols ⊆ vols' /\ forall n x, vols' !! n = Some x -> vols !! n = Some x \/ n ∈ names /\ x = (∅, new_volume).

Definition succeeded (r : option string) : bool := match r with Some _ => true | None => false end.

(** A container's script over a volume: to its end, or to some point of it. *)
Definition script_step (s : script) (ok : bool) (name : string) (vols vols' : volume_map) : Prop :=
  match vols !! name with
  | Some (l, c) => exists c', vols' = <[name := (l, c')]> vols /\ if ok then run s c = Some c' else stops s c c'
  | None => ok = false /\ vols' = vols
  end.

Definition body_step (names : list string) (b : body) (r : option string) (vols vols' : volume_map) : Prop :=
  match names, b with
  | [name], Reading f =>
      vols' = vols /\ (forall out, r = Some out -> exists l c, vols !! name = Some (l, c) /\ f c = Some out)
  | [name], Writing s => script_step s (succeeded r) name vols vols'
  | [source; name], Copying s =>
      if decide (source = name) then
        match vols !! name with
        | Some (l, _) => exists c', vols' = <[name := (l, c')]> vols
        | None => r = None /\ vols' = vols
        end
      else match vols !! source with
           | Some (_, c) => script_step (s c) (succeeded r) name vols vols'
           | None => r = None /\ vols' = vols
           end
  | _, _ => r = None /\ vols' = vols
  end.

(** The effect of a command that answers [r]; any command may fail. *)
Definition docker_step (w : world) (c : docker_call) (r : docker_answer c) (w' : world) : Prop :=
  match c with
  | VolumeLs name =>
      w' = w /\ forall out, r = Some out ->
        (forall line, line ∈ Fields out -> is_Some (w_volumes w !! line)) /\ (is_Some (w_volumes w !! name) -> name ∈ Fields out)
  | VolumeInspect name =>
      w' = w /\ forall out, r = Some out ->
        exists l c, w_volumes w !! name = Some (l, c) /\ unmarshal_labels (TrimSpace out) = Some l
  | VolumeCreate name l =>
      w_containers w' = w_containers w /\
      let created := match w_volumes w !! name with Some _ => w_volumes w | None => <[name := (l, new_volume)]> (w_volumes w) end in
      w_volumes w' = created \/ r = None /\ w_volumes w' = w_volumes w
  | ImageInspect | ImagePull | ContainerName => w' = w
  | RandomRead => w' = w /\ forall out, r = Some out -> len out = 32
  | ContainerCreate container names b =>
      mounted names (w_volumes w) (w_volumes w') /\
      (w_containers w' = w_containers w /\ r = None \/
       w_containers w !! container = None /\ w_containers w' = <[container := (names, b)]> (w_containers w))
  | ContainerStart container =>
      w_containers w' = w_containers w /\
      match w_containers w !! container with
      | Some (names, b) => body_step names b r (w_volumes w) (w_volumes w')
      | None => r = None /\ w_volumes w' = w_volumes w
      end
  | ContainerRemove container =>
      w_volumes w' = w_volumes w /\ (w_containers w' = w_containers w \/ w_containers w' = delete container (w_containers w))
  end.

(** ** The interface's contract

    Over the volumes that have labels: those Docker makes on its own have
    none. *)
Definition labelled (w : world) : volume_map := filter (fun x => fst (snd x) <> ∅) (w_volumes w).

(** A managed volume with the labels it should have. *)
Definition held (o : volume_map) (v : Volume) (c : contents) : Prop :=
  validVolume v = true /\ exists l, o !! v_Name v = Some (l, c) /\ equalLabels l (v_Labels v) = true.

Definition created_from (vs : list Volume) (o o' : volume_map) : Prop :=
  o ⊆ o' /\ forall n x, o' !! n = Some x ->
    o !! n = Some x \/ o !! n = None /\ exists v, v ∈ vs /\ validVolume v = true /\ v_Name v = n /\ x = (v_Labels v, new_volume).

(** A script over a managed volume, to its end or to some point of it. *)
Definition writes (s : script) (ok : bool) (v : Volume) (o o' : volume_map) : Prop :=
  validVolume v = true /\ exists l c c', o !! v_Name v = Some (l, c) /\ equalLabels l (v_Labels v) = true /\
    o' = <[v_Name v := (l, c')]> o /\ if ok then run s c = Some c' else stops s c c'.

Definition written (s : script) (v : Volume) (r : option unit) (o o' : volume_map) : Prop :=
  r = None /\ o' = o \/ writes s (match r with Some _ => true | None => false end) v o o'.

Definition store_step (o : volume_map) (c : store_call) : store_answer c -> volume_map -> Prop :=
  match c return store_answer c -> volume_map -> Prop with
  | ValidateVolumes vs => fun r o' => o' = o /\ forall existing, r = Some existing -> forall v, v ∈ vs ->
      validVolume v = true /\ (if decide (v_Name v ∈ existing) then exists c, held o v c else o !! v_Name v = None)
  | EnsureVolumes vs => fun r o' => created_from vs o o' /\ forall created, r = Some created -> forall v, v ∈ vs -> exists c, held o' v c
  | ReadVolumeInventory v => fun r o' => o' = o /\ forall out, r = Some out ->
      (o !! v_Name v = None /\ out = "") \/ exists c, held o v c /\ read_inventory c = Some out
  | EnsureDirectory v uid gid mode => fun r o' => written (directory_script uid gid mode) v r o o'
  | InspectPrivateSource v size => fun r o' => o' = o /\ forall st, r = Some st -> exists c, held o v c /\ inspect size c = st
  | FinalizePrivateSource v size => fun r o' => written (finalize_script size) v r o o'
  | InitializePrivateSource v size files => fun r o' => written (initialize_script files size) v r o o'
  | ReplaceFiles v files => fun r o' => written (replace_script files) v r o o' /\ (r = None /\ o' = o \/ archivable ∅ files = true)
  | CopyPrivateFile source destination uid gid size => fun r o' =>
      r = None /\ o' = o \/
      exists c, held o source c /\
        if decide (v_Name source = v_Name destination)
        then exists l c', o' = <[v_Name destination := (l, c')]> o /\ equalLabels l (v_Labels destination) = true
        else writes (copy_script c uid gid size) (match r with Some _ => true | None => false end) destination o o'
  | ReadRandom => fun r o' => o' = o /\ forall out, r = Some out -> len out = 32
  end.
