(* ===== verification/LocalStoreProps.v ===== *)
(** * The trusted state: proofs

    [DockerStore] keeps the contract of [Store] under every failure of a
    command and every point a script may stop at ([docker_store_implements]);
    what the scripts leave of a private source, of a copy and of the inventory
    when they are interrupted, and that they finish. *)
From stdpp Require Import base list strings gmap sorting.
From Stdlib Require Import ZArith Lia Ascii.
From S2P Require Import Prelude GoStrings GoUrl GoJson GoJsonPrint GoEncoding GoHttp Sha256 Program LocalPlan LocalPlanProps LocalStore.

Local Open Scope Z_scope.
Local Open Scope go_scope.
Local Open Scope string_scope.

(** ** Scripts *)

Lemma run_stops s c c' : run s c = Some c' -> stops s c c'.
Proof.
  revert c c'. induction s as [|x k IH|b s IHs k IHk]; intros c c'; cbn [run stops].
  - intros [= ->]. by left.
  - destruct (exec x c) as [c1|] eqn:E; [|done]. intros H. right. right. exists c1. split; [done|by apply IH].
  - destruct (b c); [|right; by apply IHk]. destruct (run s c) as [c1|] eqn:E; [|done]. intros H. right. right.
    exists c1. split; [done|by apply IHk].
Qed.

(** ** Labels *)

Lemma held_labelled l v : validVolume v = true -> equalLabels l (v_Labels v) = true -> l <> ∅.
Proof. intros Hv Hl ->. apply equalLabels_size in Hl. rewrite (valid_labels _ Hv) in Hl. by rewrite map_size_empty in Hl. Qed.

(** ** The labelled volumes of a world *)

Lemma labelled_lookup w n l c : labelled w !! n = Some (l, c) <-> w_volumes w !! n = Some (l, c) /\ l <> ∅.
Proof. unfold labelled. by rewrite map_lookup_filter_Some. Qed.

Lemma labelled_none w n : w_volumes w !! n = None -> labelled w !! n = None.
Proof. intros H. unfold labelled. apply map_lookup_filter_None. by left. Qed.

Lemma labelled_same w w' : w_volumes w' = w_volumes w -> labelled w' = labelled w.
Proof. unfold labelled. by intros ->. Qed.

Lemma labelled_mounted names w w' : mounted names (w_volumes w) (w_volumes w') -> labelled w' = labelled w.
Proof.
  intros [Hsub Hnew]. apply map_eq. intros n. apply option_eq. intros [l c]. rewrite !labelled_lookup. split; intros [H Hl].
  - split; [|done]. destruct (Hnew _ _ H) as [?|[_ [= -> _]]]; [done|by destruct Hl].
  - split; [|done]. by eapply lookup_weaken.
Qed.

Lemma labelled_insert w w' n l c : l <> ∅ -> w_volumes w' = <[n := (l, c)]> (w_volumes w) -> labelled w' = <[n := (l, c)]> (labelled w).
Proof. intros Hl H. unfold labelled. rewrite H. by apply map_filter_insert_True. Qed.

(** ** [DockerStore] keeps the contract *)

Definition quiet (c : docker_call) : Prop := forall w r w', docker_step w c r w' -> labelled w' = labelled w.

Lemma quiet_calls c : match c with VolumeCreate _ _ | ContainerStart _ => False | _ => True end -> quiet c.
Proof.
  intros Hc w r w'. destruct c; cbn [docker_step]; try done; try (by intros [-> _]); try (by intros ->).
  - intros [H _]. by eapply labelled_mounted.
  - intros [H _]. by apply labelled_same.
Qed.

(** The volume is there as it should be. *)
Definition verified (w : world) (v : Volume) : Prop :=
  exists l c, w_volumes w !! v_Name v = Some (l, c) /\ equalLabels l (v_Labels v) = true.

Lemma verified_held w v : validVolume v = true -> verified w v -> exists c, held (labelled w) v c.
Proof.
  intros Hv (l & c & Hw & Hl). exists c. split; [done|]. exists l. split; [|done]. apply labelled_lookup.
  split; [done|by eapply held_labelled].
Qed.

Section Methods.
Variables (pinned_reference : string -> bool) (HelperImage : string).
Context (o : volume_map) (I : world -> Prop).
Abbreviation dkeeps := (keeps docker_step I).

Lemma call_keeps {R} (Q : world -> R -> Prop) c (P : world -> docker_answer c -> Prop) w :
  (forall r w', docker_step w c r w' -> I w' /\ P w' r) -> dkeeps (answers Q P) w (then_do (perform c)).
Proof. intros H r w' Hs. exact (H r w' Hs). Qed.

Section Steps.
Context {A : Type} (Q : world -> option A -> Prop).
Hypothesis idle : forall w, labelled w = o -> I w /\ Q w None.

Lemma require_keeps b (P : world -> unit -> Prop) w : labelled w = o -> (b = true -> P w tt) -> dkeeps (answers Q P) w (require b).
Proof. intros Hw HP. unfold require. destruct b; [by apply HP|by apply idle]. Qed.

Lemma attempt_keeps c (P : world -> string -> Prop) w : quiet c -> labelled w = o ->
  (forall out w', docker_step w c (Some out) w' -> labelled w' = o -> P w' out) -> dkeeps (answers Q P) w (attempt c).
Proof.
  intros Hq Hw HP. cbn. intros r w' Hs. pose proof (Hq _ _ _ Hs) as Hl. rewrite Hw in Hl. split; [by apply idle|].
  destruct r as [out|]; [by apply HP|by apply idle].
Qed.

Lemma volumeExists_keeps v (P : world -> bool -> Prop) w : labelled w = o ->
  P w true -> (w_volumes w !! v_Name v = None -> P w false) -> dkeeps (answers Q P) w (volumeExists v).
Proof.
  intros Hw Ht Hf. unfold volumeExists. apply keeps_ebind, attempt_keeps; [by apply quiet_calls|done|].
  intros out w' [-> Hout] _. destruct (Hout _ eq_refl) as [_ Hin]. apply keeps_ebind, require_keeps; [done|]. intros _.
  destruct (Fields out) as [|line lines]; [|exact Ht]. apply Hf. destruct (w_volumes w !! v_Name v); [|done].
  destruct (not_elem_of_nil (v_Name v)). by apply Hin.
Qed.

Lemma verifyVolume_keeps v (P : world -> unit -> Prop) w : labelled w = o -> (verified w v -> P w tt) ->
  dkeeps (answers Q P) w (verifyVolume v).
Proof.
  intros Hw HP. unfold verifyVolume. apply keeps_ebind, attempt_keeps; [by apply quiet_calls|done|].
  intros out w' [-> Hout] _. destruct (Hout _ eq_refl) as (l & c & Hv & Hl). apply require_keeps; [done|]. rewrite Hl.
  intros He. apply HP. by exists l, c.
Qed.

(** What [classifyVolumes] knows of the volumes it has seen. *)
Definition classified (w : world) (seen : list Volume) (found : list Volume * gset string) : Prop :=
  (forall v, v ∈ seen -> validVolume v = true /\ (v ∈ fst found \/ v_Name v ∈ snd found /\ verified w v)) /\
  (forall v, v ∈ fst found -> validVolume v = true /\ v ∈ seen /\ w_volumes w !! v_Name v = None) /\
  (forall n, n ∈ snd found -> is_Some (w_volumes w !! n)).

Lemma classify_keeps w seen found v : labelled w = o -> classified w seen found ->
  dkeeps (answers Q (fun w' found' => w' = w /\ classified w (seen ++ [v]) found')) w (classify found v).
Proof.
  intros Hw (H1 & H2 & H3). unfold classify. apply keeps_ebind, require_keeps; [done|]. intros Hv.
  assert (Hseen : forall found' : list Volume * gset string, (forall u, u ∈ fst found -> u ∈ fst found') -> snd found ⊆ snd found' ->
    (v ∈ fst found' \/ v_Name v ∈ snd found' /\ verified w v) ->
    forall u, u ∈ (seen ++ [v])%list -> validVolume u = true /\ (u ∈ fst found' \/ v_Name u ∈ snd found' /\ verified w u)).
  { intros found' Hf Hs Hn u [Hu| ->%list_elem_of_singleton]%elem_of_app; [|done]. destruct (H1 u Hu) as [? [?|[? ?]]]; auto. }
  apply keeps_ebind, volumeExists_keeps; [done| |].
  - cbn [negb]. apply keeps_ebind, verifyVolume_keeps; [done|]. intros Hver. split; [done|]. split_and!.
    + apply (Hseen (fst found, {[v_Name v]} ∪ snd found)); cbn [fst snd]; [done|apply union_subseteq_r|right; split; [by apply elem_of_union_l, elem_of_singleton|done]].
    + intros u Hu. destruct (H2 u Hu) as (? & ? & ?). split_and!; [done|by apply elem_of_app; left|done].
    + cbn [snd]. intros n [->%elem_of_singleton|Hn]%elem_of_union; [|by apply H3]. destruct Hver as (l & c & -> & _). by eexists.
  - intros Hnone. cbn [negb]. split; [done|]. split_and!; cbn [fst snd]; [| |exact H3].
    + apply (Hseen ((fst found ++ [v])%list, snd found)); cbn [fst snd]; [intros u Hu; by apply elem_of_app; left|done|].
      left. apply elem_of_app. right. by apply list_elem_of_singleton.
    + intros u [Hu| ->%list_elem_of_singleton]%elem_of_app.
      * destruct (H2 u Hu) as (? & ? & ?). split_and!; [done|by apply elem_of_app; left|done].
      * split_and!; [done|apply elem_of_app; right; by apply list_elem_of_singleton|done].
Qed.

Lemma classifyVolumes_keeps vs (P : world -> list Volume * gset string -> Prop) w : labelled w = o ->
  (forall found, classified w vs found -> P w found) ->
  dkeeps (answers Q P) w (classifyVolumes pinned_reference HelperImage vs).
Proof.
  intros Hw HP. unfold classifyVolumes. apply keeps_ebind, require_keeps; [done|]. intros _.
  set (ordered := merge_sort _ vs). assert (Hperm : ordered ≡ₚ vs) by apply merge_sort_Permutation.
  eapply keeps_mono; [|apply (keeps_loop docker_step I Q (fun left w' found => w' = w /\ exists seen, seen ++ left = ordered /\ classified w seen found)%list)].
  - intros w' [r|found]; [done|]. intros (-> & seen & He & Hc). rewrite app_nil_r in He. subst seen. apply HP.
    destruct Hc as (H1 & H2 & H3). split_and!; [|intros v Hv; destruct (H2 v Hv) as (? & ? & ?); split_and!; [done|by rewrite <- Hperm|done]|done].
    intros v Hv. apply H1. by rewrite Hperm.
  - intros v left w' found (-> & seen & He & Hc). eapply keeps_mono; [|by apply classify_keeps].
    intros w'' [r|found']; [done|]. intros [-> Hc']. split; [done|]. exists (seen ++ [v])%list. by rewrite <- app_assoc.
  - split; [done|]. exists []. split; [done|]. split_and!; cbn [fst snd]; set_solver.
Qed.

Lemma ensureHelperImage_keeps (P : world -> unit -> Prop) w : labelled w = o -> (forall w', labelled w' = o -> P w' tt) ->
  dkeeps (answers Q P) w ensureHelperImage.
Proof.
  intros Hw HP. unfold ensureHelperImage. apply keeps_ebind, call_keeps. intros r w' ->. split; [by apply idle|].
  destruct r as [out|]; [by apply HP|]. cbn [answers]. apply keeps_ebind, attempt_keeps; [by apply quiet_calls|done|]. intros _ w' _ Hw'.
  apply keeps_ebind, attempt_keeps; [by apply quiet_calls|done|]. intros _ w'' _ Hw''. by apply HP.
Qed.

Lemma check_mounts_keeps project ms (P : world -> gset string -> Prop) w : labelled w = o ->
  (forall seen, (forall m, m ∈ ms -> validVolume (hm_volume m) = true) -> P w seen) ->
  dkeeps (answers Q P) w (loop (check_mount project) ∅ ms).
Proof.
  intros Hw HP.
  eapply keeps_mono; [|apply (keeps_loop docker_step I Q (fun left w' _ => w' = w /\ exists seen, seen ++ left = ms /\
    forall m, m ∈ seen -> validVolume (hm_volume m) = true)%list)].
  - intros w' [r|found]; [done|]. intros (-> & seen & He & Hc). rewrite app_nil_r in He. subst seen. by apply HP.
  - intros m left w' acc (-> & seen & He & Hc). unfold check_mount. apply keeps_ebind, require_keeps; [done|]. intros Hv.
    rewrite !andb_true_iff in Hv. destruct Hv as [[Hv _] _]. apply keeps_ebind, require_keeps; [done|]. intros _.
    split; [done|]. exists (seen ++ [m])%list. rewrite <- app_assoc. split; [done|].
    intros m' [Hm| ->%list_elem_of_singleton]%elem_of_app; auto.
  - split; [done|]. exists []. split; [done|]. intros m Hm. by apply not_elem_of_nil in Hm.
Qed.

Lemma verify_mounts_keeps ms (P : world -> unit -> Prop) w : labelled w = o ->
  ((forall m, m ∈ ms -> verified w (hm_volume m)) -> P w tt) ->
  dkeeps (answers Q P) w (loop (fun _ m => verifyVolume (hm_volume m)) tt ms).
Proof.
  intros Hw HP.
  eapply keeps_mono; [|apply (keeps_loop docker_step I Q (fun left w' _ => w' = w /\ exists seen, seen ++ left = ms /\
    forall m, m ∈ seen -> verified w (hm_volume m))%list)].
  - intros w' [r|[]]; [done|]. intros (-> & seen & He & Hc). rewrite app_nil_r in He. subst seen. by apply HP.
  - intros m left w' acc (-> & seen & He & Hc). apply verifyVolume_keeps; [done|]. intros Hv.
    split; [done|]. exists (seen ++ [m])%list. rewrite <- app_assoc. split; [done|].
    intros m' [Hm| ->%list_elem_of_singleton]%elem_of_app; auto.
  - split; [done|]. exists []. split; [done|]. intros m Hm. by apply not_elem_of_nil in Hm.
Qed.
End Steps.

(** A helper does what its body does to verified volumes, or nothing. *)
Lemma runHelper_keeps ms b (Q : world -> option string -> Prop) w : labelled w = o ->
  (forall w, labelled w = o -> I w /\ Q w None) ->
  (forall w1 r w2, labelled w1 = o -> (forall m, m ∈ ms -> validVolume (hm_volume m) = true /\ verified w1 (hm_volume m)) ->
    body_step (v_Name ∘ hm_volume <$> ms) b r (w_volumes w1) (w_volumes w2) -> I w2 /\ Q w2 r) ->
  dkeeps Q w (runHelper ms b).
Proof.
  intros Hw idle Hb. unfold runHelper. apply keeps_finish. apply keeps_ebind, require_keeps; [done|done|]. intros _.
  apply keeps_ebind, check_mounts_keeps; [done|done|]. intros _ Hvalid.
  apply keeps_ebind, ensureHelperImage_keeps; [done|done|]. clear w Hw. intros w Hw.
  apply keeps_ebind, attempt_keeps; [done|by apply quiet_calls|done|]. intros container w1 _ Hw1.
  apply keeps_ebind, attempt_keeps; [done|by apply quiet_calls|done|]. intros out w2 [_ [[_ [=]]|[_ Hc]]] Hw2.
  assert (Hrm : forall w3 r, I w3 -> (forall w4, w_volumes w4 = w_volumes w3 -> I w4 /\ Q w4 r) ->
    dkeeps (answers Q Q) w3 (let! _ := then_do (perform (ContainerRemove container)) in go r)).
  { intros w3 r _ H. apply keeps_ebind, call_keeps. intros _ w4 [Hv _]. by apply H. }
  apply keeps_ebind. apply (keeps_mono _ _ (answers Q (fun w3 r => forall w4, w_volumes w4 = w_volumes w3 -> I w4 /\ Q w4 r))).
  { intros w3 [r|r] H; [done|]. apply Hrm; [by apply (H w3)|done]. }
  apply keeps_bind. apply (keeps_mono _ _ (fun w3 r => forall w4, w_volumes w4 = w_volumes w3 -> I w4 /\ Q w4 r)); [done|].
  apply keeps_finish.
  assert (idle' : forall w, labelled w = o -> I w /\ forall w4, w_volumes w4 = w_volumes w -> I w4 /\ Q w4 None).
  { intros w3 H. split; [by apply idle|]. intros w4 H4. apply idle. by rewrite (labelled_same _ _ H4). }
  apply keeps_ebind, verify_mounts_keeps; [done|done|]. intros Hver. apply call_keeps. intros r w3 [_ Hs]. rewrite Hc, lookup_insert_eq in Hs.
  assert (H3 : forall w4, w_volumes w4 = w_volumes w3 -> I w4 /\ Q w4 r).
  { intros w4 H4. eapply (Hb w2); [done|by split; [apply Hvalid|apply Hver]|by rewrite H4]. }
  split; [by apply H3|exact H3].
Qed.
End Methods.

Lemma script_writes s ok v w1 w2 : validVolume v = true -> verified w1 v ->
  script_step s ok (v_Name v) (w_volumes w1) (w_volumes w2) -> writes s ok v (labelled w1) (labelled w2).
Proof.
  intros Hv (l & c & Hw & Hl) Hs. unfold script_step in Hs. rewrite Hw in Hs. destruct Hs as (c' & H2 & Hr).
  pose proof (held_labelled _ _ Hv Hl) as Hne. split; [done|]. exists l, c, c'. split_and!; [|done| |done].
  - by apply labelled_lookup.
  - by apply labelled_insert.
Qed.

(** A method that runs a script on one volume. *)
Lemma written_keeps (Q : world -> option unit -> Prop) I target v s w :
  (forall w', written s v None (labelled w) (labelled w') -> I w') ->
  (forall w' r, written s v r (labelled w) (labelled w') -> Q w' r) ->
  keeps docker_step I Q w (succeeds (runHelper [mkHelperMount v target] (Writing s))).
Proof.
  intros HI HQ. unfold succeeds. apply keeps_bind.
  apply (runHelper_keeps (labelled w) I _ _ (fun w' r => Q w' (match r with Some _ => Some tt | None => None end))); [done| |].
  - intros w' Hw. split; [apply HI|apply HQ]; by left.
  - intros w1 r w2 Hw Hm Hs. destruct (Hm (mkHelperMount v target)) as [Hv Hver]; [by apply list_elem_of_singleton|].
    pose proof (script_writes _ _ _ _ _ Hv Hver Hs) as Hwr. rewrite Hw in Hwr.
    split; [apply HI|apply HQ; right; by destruct r]. right. destruct r; [|exact Hwr].
    destruct Hwr as (_ & l & x & x' & H1 & H2 & H3 & H4). split; [done|]. exists l, x, x'. split_and!; try done. by apply run_stops.
Qed.

(** The volumes an [EnsureVolumes] has made so far. *)
Lemma created_refl vs o : created_from vs o o.
Proof. split; [done|]. intros n x H. by left. Qed.

Lemma created_one vs o v o' : created_from vs o o' -> v ∈ vs -> validVolume v = true -> o !! v_Name v = None -> o' !! v_Name v = None ->
  created_from vs o (<[v_Name v := (v_Labels v, new_volume)]> o').
Proof.
  intros [Hs Hn] Hin Hv Ho Ho'. split; [by apply insert_subseteq_r|]. intros n x Hx.
  destruct (decide (n = v_Name v)) as [->|Hne].
  - rewrite lookup_insert_eq in Hx. injection Hx as <-. right. split; [done|]. by exists v.
  - rewrite lookup_insert_ne in Hx by done. by apply Hn.
Qed.

Section Store.
Variables (pinned_reference : string -> bool) (HelperImage : string).

Lemma ensure_volumes_keeps vs w :
  keeps docker_step (fun w' => created_from vs (labelled w) (labelled w'))
    (fun w' r => created_from vs (labelled w) (labelled w') /\ forall created, r = Some created -> forall v, v ∈ vs -> exists c, held (labelled w') v c)
    w (DockerStore pinned_reference HelperImage (EnsureVolumes vs)).
Proof.
  set (I := fun w' => created_from vs (labelled w) (labelled w')). set (Q := fun w' (r : option (gset string)) => I w' /\ forall created, r = Some created -> forall v, v ∈ vs -> exists c, held (labelled w') v c).
  assert (idle : forall w', I w' -> I w' /\ Q w' None) by (intros w' H; split; [done|split; [done|done]]).
  change (keeps docker_step I Q w (DockerStore pinned_reference HelperImage (EnsureVolumes vs))).
  cbn [DockerStore]. apply keeps_finish. apply keeps_ebind, (classifyVolumes_keeps _ _ (labelled w)); [|done|].
  { intros w' Hw'. apply idle. unfold I. rewrite Hw'. apply created_refl. }
  intros [missing existing] (H1 & H2 & _). cbn [fst snd] in *.
  apply keeps_ebind. eapply keeps_mono; [|apply (keeps_loop docker_step I Q (fun left w' _ => I w' /\
    (forall v, v ∈ left -> v ∈ missing) /\
    (forall v, v ∈ vs -> validVolume v = true /\ (v ∈ left \/ verified w' v))))].
  - intros w' [r|created]; [done|]. intros (HI & _ & Hall). split; [done|]. intros ? _ v Hv. destruct (Hall v Hv) as [Hval [Hn|Hver]];
      [by apply not_elem_of_nil in Hn|by apply verified_held].
  - intros v left w1 acc (HI & Hm & Hall). unfold create_volume. pose proof (H2 v (Hm v ltac:(by left))) as (Hval & Hin & Hnone).
    apply keeps_ebind, keeps_ebind, call_keeps. intros r w2 [_ Hc].
    assert (w_volumes w1 ⊆ w_volumes w2 /\ I w2) as [Hsub HI2].
    { destruct Hc as [Hc|[_ Hc]]; [|rewrite Hc; split; [done|by unfold I; rewrite (labelled_same _ _ Hc)]]. rewrite Hc.
      destruct (w_volumes w1 !! v_Name v) eqn:E; [split; [done|by unfold I; rewrite (labelled_same _ _ Hc)]|].
      split; [by apply insert_subseteq|]. unfold I. pose proof (valid_labels _ Hval) as Hsize.
      rewrite (labelled_insert w1 w2 _ _ _ (fun Hn => ltac:(rewrite Hn in Hsize; by rewrite map_size_empty in Hsize)) Hc).
      by apply created_one; [| | |apply labelled_none|apply labelled_none]. }
    split; [done|]. destruct r as [out|]; [|by apply idle]. cbn [answers go stop keeps].
    apply keeps_ebind, (verifyVolume_keeps (labelled w2)); [|done|].
    { intros w' Hw'. apply idle. unfold I. by rewrite Hw'. }
    intros Hver. split_and!; [done|intros u Hu; apply Hm; by right|]. intros u Hu. destruct (Hall u Hu) as [Hv' [[->|Hl]%elem_of_cons|Hu']];
      (split; [done|]); [by right|by left|right]. destruct Hu' as (l & c & ? & ?). exists l, c. split; [|done]. by eapply lookup_weaken.
  - split_and!; [apply created_refl|done|]. intros v Hv. destruct (H1 v Hv) as [? [?|[? ?]]]; auto.
Qed.

Lemma validate_volumes_keeps vs w :
  keeps docker_step (fun w' => labelled w' = labelled w)
    (fun w' r => store_step (labelled w) (ValidateVolumes vs) r (labelled w')) w
    (DockerStore pinned_reference HelperImage (ValidateVolumes vs)).
Proof.
  apply keeps_finish. apply keeps_ebind, (classifyVolumes_keeps _ _ (labelled w)); [|done|].
  { intros w' Hw'. by rewrite Hw'. }
  intros [missing existing] (H1 & H2 & H3). cbn [fst snd] in *. split; [done|]. intros ? [= <-] v Hv.
  destruct (H1 v Hv) as [Hval Hcase]. split; [done|]. destruct (decide (v_Name v ∈ existing)) as [He|Hn].
  - destruct Hcase as [Hm|[_ Hver]]; [|by apply verified_held]. destruct (H2 v Hm) as (_ & _ & Hno). destruct (H3 _ He) as [x Hx]. congruence.
  - destruct Hcase as [Hm|[? _]]; [|done]. apply labelled_none. by destruct (H2 v Hm) as (_ & _ & ?).
Qed.

(** A helper that reads one volume. *)
Lemma reading_keeps {A} (decode : string -> option A) f target v (Q : world -> option A -> Prop) w :
  (forall r, (forall a, r = Some a -> exists c out, held (labelled w) v c /\ f c = Some out /\ decode out = Some a) ->
    forall w', labelled w' = labelled w -> Q w' r) ->
  keeps docker_step (fun w' => labelled w' = labelled w) Q w
    (pbind (runHelper [mkHelperMount v target] (Reading f)) (fun r => Ret (r ≫= decode))).
Proof.
  intros HQ. apply keeps_bind.
  apply (runHelper_keeps (labelled w) (fun w' => labelled w' = labelled w) _ _ (fun w' r => Q w' (r ≫= decode))); [done| |].
  - intros w' Hw'. split; [done|]. by apply HQ.
  - intros w1 r w2 Hw Hm [Hs Hout]. assert (Hw2 : labelled w2 = labelled w) by (by rewrite (labelled_same _ _ Hs)).
    split; [done|]. apply HQ; [|done]. intros a Ha. destruct r as [out|]; [|done]. cbn in Ha.
    destruct (Hm (mkHelperMount v target)) as [Hv (l & c & Hc & Hl)]; [by apply list_elem_of_singleton|]. cbn [hm_volume] in *.
    destruct (Hout _ eq_refl) as (l' & c' & Hc' & Hf).
    change (w_volumes w1 !! v_Name v = Some (l', c')) in Hc'. assert (c' = c) as -> by congruence.
    exists c, out. split_and!; [|done|done]. split; [done|]. exists l. split; [|done]. rewrite <- Hw. apply labelled_lookup.
    split; [done|by eapply held_labelled].
Qed.

Lemma read_inventory_keeps v w :
  keeps docker_step (fun w' => labelled w' = labelled w)
    (fun w' r => store_step (labelled w) (ReadVolumeInventory v) r (labelled w')) w
    (DockerStore pinned_reference HelperImage (ReadVolumeInventory v)).
Proof.
  assert (idle : forall w', labelled w' = labelled w -> labelled w' = labelled w /\
    store_step (labelled w) (ReadVolumeInventory v) None (labelled w')) by (intros w' ->; done).
  apply keeps_finish. apply keeps_ebind, (require_keeps (labelled w)); [done|done|]. intros _.
  apply keeps_ebind, (volumeExists_keeps (labelled w)); [done|done| |].
  - cbn [negb]. apply keeps_ebind, (verifyVolume_keeps (labelled w)); [done|done|]. intros _.
    apply keeps_bind.
    apply (keeps_mono _ _ (fun w' r => store_step (labelled w) (ReadVolumeInventory v) r (labelled w'))); [done|].
    apply (runHelper_keeps (labelled w)); [done|done|].
    intros w1 r w2 Hw Hm [Hs Hout]. assert (Hw2 : labelled w2 = labelled w) by (by rewrite (labelled_same _ _ Hs)).
    split; [done|]. split; [done|]. intros out ->. destruct (Hout _ eq_refl) as (l & c & Hc & Hf).
    change (w_volumes w1 !! v_Name v = Some (l, c)) in Hc.
    destruct (Hm (mkHelperMount v "/state")) as [Hv (l' & c' & Hc' & Hl)]; [by apply list_elem_of_singleton|]. cbn [hm_volume] in *.
    right. exists c. split; [|done]. split; [done|]. exists l. assert (l' = l) as -> by congruence. split; [|done]. rewrite <- Hw.
    apply labelled_lookup. split; [done|by eapply held_labelled].
  - intros Hno. cbn [negb answers keeps stop]. split; [done|]. intros out [= <-]. left. split; [by apply labelled_none|done].
Qed.

Lemma inspect_keeps v size w :
  keeps docker_step (fun w' => labelled w' = labelled w)
    (fun w' r => store_step (labelled w) (InspectPrivateSource v size) r (labelled w')) w
    (DockerStore pinned_reference HelperImage (InspectPrivateSource v size)).
Proof.
  cbn [DockerStore]. destruct (_ || _); [done|]. apply reading_keeps. intros r Hr w' ->. split; [done|]. intros st Hst.
  destruct (Hr st Hst) as (c & out & Hc & Hf & Hd). exists c. split; [done|]. unfold inspect_output in Hf. injection Hf as <-.
  destruct (inspect size c); vm_compute in Hd; congruence.
Qed.

Lemma copy_keeps source destination uid gid size w :
  keeps docker_step (fun w' => exists r, store_step (labelled w) (CopyPrivateFile source destination uid gid size) r (labelled w'))
    (fun w' r => store_step (labelled w) (CopyPrivateFile source destination uid gid size) r (labelled w')) w
    (DockerStore pinned_reference HelperImage (CopyPrivateFile source destination uid gid size)).
Proof.
  cbn [DockerStore]. destruct (_ || _); [by left|]. unfold succeeds. apply keeps_bind.
  apply (runHelper_keeps (labelled w) _ _ _ (fun w' r => store_step (labelled w) (CopyPrivateFile source destination uid gid size)
    (match r with Some _ => Some tt | None => None end) (labelled w'))); [done| |].
  - intros w' ->. split; [exists None|]; by left.
  - intros w1 r w2 Hw Hm Hs. enough (H : store_step (labelled w) (CopyPrivateFile source destination uid gid size)
      (match r with Some _ => Some tt | None => None end) (labelled w2)) by (split; [by eexists|done]).
    destruct (Hm (mkHelperMount source "/source")) as [Hv1 Hver1]; [by left|].
    destruct (Hm (mkHelperMount destination "/state")) as [Hv2 Hver2]; [by right; left|]. cbn [hm_volume] in *.
    destruct (verified_held _ _ Hv1 Hver1) as [c Hheld]. right. exists c. rewrite <- Hw. split; [done|].
    cbn [fmap list_fmap compose hm_volume body_step] in Hs. destruct Hver2 as (l2 & c2 & E2 & L2).
    pose proof (held_labelled _ _ Hv2 L2) as Hne. destruct (decide _) as [_|_].
    + rewrite E2 in Hs. destruct Hs as [c' Hs]. exists l2, c'. split; [|done]. by apply labelled_insert.
    + destruct Hheld as (_ & l1 & E1 & _). apply labelled_lookup in E1 as [E1 _]. rewrite E1 in Hs.
      apply script_writes in Hs; [by destruct r|done|by exists l2, c2].
Qed.

(** Every command of Docker may fail and every helper may stop anywhere: the
    store's methods still do what the interface says, or a part of it. *)
Lemma docker_store_implements : implements (DockerStore pinned_reference HelperImage) docker_step store_step labelled.
Proof.
  intros c w. destruct c.
  - eapply keeps_weaken; [|exact (fun _ _ H => H)|apply validate_volumes_keeps]. intros w' Hw. exists None. by split.
  - eapply keeps_weaken; [|exact (fun _ _ H => H)|apply ensure_volumes_keeps]. intros w' Hw. by exists None.
  - eapply keeps_weaken; [|exact (fun _ _ H => H)|apply read_inventory_keeps]. intros w' Hw. exists None. by split.
  - cbn [DockerStore]. destruct (_ || _); [by left|]. apply written_keeps; [|done]. intros w' Hw. by exists None.
  - eapply keeps_weaken; [|exact (fun _ _ H => H)|apply inspect_keeps]. intros w' Hw. exists None. by split.
  - cbn [DockerStore]. destruct (_ || _); [by left|]. apply written_keeps; [|done]. intros w' Hw. by exists None.
  - cbn [DockerStore]. destruct (negb (validGeneratedValueSize size)) eqn:Hsize; [by left|]. unfold writeFiles. destruct (_ || _); [by left|].
    destruct (Z.eqb_spec size 0) as [->|_]; [done|]. apply written_keeps; [|done]. intros w' Hw. by exists None.
  - cbn [DockerStore]. unfold writeFiles. destruct (_ || negb (archivable ∅ files)) eqn:Ha; [by split; left|].
    apply orb_false_iff in Ha as [_ Ha]. apply negb_false_iff in Ha. rewrite Z.eqb_refl.
    apply written_keeps; [intros w' Hw; exists None|intros w' r Hw]; (split; [done|by right]).
  - apply copy_keeps.
  - cbn. intros r w' [-> Hr]. split; [by exists None|by split].
Qed.
End Store.

(** ** Reasoning about scripts

    [covers Φ s Ψ c]: at every point [s] may stop at from [c], [Φ] holds, and
    [Ψ] of what the script comes to. *)

Fixpoint covers (Φ : contents -> Prop) (s : script) (Ψ : option contents -> Prop) (c : contents) : Prop :=
  match s with
  | Done => Φ c /\ Ψ (Some c)
  | Do x k => Φ c /\ (forall c', partway x c c' -> Φ c') /\ match exec x c with Some c1 => covers Φ k Ψ c1 | None => Ψ None end
  | IfThen b s k =>
      Φ c /\ if b c then covers Φ s (fun r => match r with Some c1 => covers Φ k Ψ c1 | None => Ψ None end) c else covers Φ k Ψ c
  end.

Lemma covers_sound Φ s Ψ c : covers Φ s Ψ c -> (forall c', stops s c c' -> Φ c') /\ Ψ (run s c).
Proof.
  revert Ψ c. induction s as [|x k IH|b s IHs k IHk]; intros Ψ c; cbn [covers stops run].
  - intros [Hc HΨ]. split; [|done]. by intros c' [->|].
  - intros (Hc & Hp & Hk). destruct (exec x c) as [c1|]; [apply IH in Hk as [Hs HΨ]|]; (split; [|done]);
      (intros c' [->|[?|(c2 & [= <-] & ?)]]; auto).
  - intros [Hc Hk]. destruct (b c); [|apply IHk in Hk as [Hs HΨ]; split; [|done]; intros c' [->|?]; auto].
    apply IHs in Hk as [Hs HΨ]. destruct (run s c) as [c1|]; [apply IHk in HΨ as [Hs' HΨ]|]; (split; [|done]);
      (intros c' [->|[?|(c2 & [= <-] & ?)]]; auto).
Qed.

(** The entries the scripts work on. *)
Record view := mkView { vw_initialized : option node; vw_current : option node; vw_old : option node; vw_next : option node }.
Definition view_of (c : contents) : view := mkView (entry c ".initialized") (entry c "current") (entry c "current.old") (entry c ".next").

Section Rules.
Variables (Φ : contents -> Prop) (Ψ : option contents -> Prop).

Lemma covers_do x k c v v' : view_of c = v -> Φ c -> (forall c', partway x c c' -> Φ c') ->
  (exists c1, exec x c = Some c1 /\ view_of c1 = v') -> (forall c1, view_of c1 = v' -> covers Φ k Ψ c1) -> covers Φ (Do x k) Ψ c.
Proof. intros _ Hc Hp (c1 & E & Hv) Hk. cbn [covers]. rewrite E. auto. Qed.

Lemma covers_require b k c : Φ c -> (b c = true -> covers Φ k Ψ c) -> (b c = false -> Ψ None) -> covers Φ (Do (Require b) k) Ψ c.
Proof.
  intros Hc Hk Hn. cbn [covers exec]. split_and!; [done|intros c' Hp; inversion Hp|]. destruct (b c); auto.
Qed.

Lemma covers_sync k c : covers Φ k Ψ c -> Φ c -> covers Φ (Do Sync k) Ψ c.
Proof. intros Hk Hc. cbn [covers exec]. split_and!; [done|intros c' Hp; inversion Hp|done]. Qed.
Lemma covers_if b s k c : Φ c ->
  (b c = true -> covers Φ s (fun r => match r with Some c1 => covers Φ k Ψ c1 | None => Ψ None end) c) ->
  (b c = false -> covers Φ k Ψ c) -> covers Φ (IfThen b s k) Ψ c.
Proof. intros Hc Ht Hf. cbn [covers]. split; [done|]. destruct (b c); auto. Qed.
End Rules.

Lemma entry_root f c n : entry (at_root f c) n = f (ct_entries c) !! n.
Proof. done. Qed.

Ltac view_step :=
  unfold view_of, within, in_dir, on_meta; rewrite ?entry_root; unfold entry in *; simplify_map_eq.

(** What each command does to the view. *)
Lemma view_remove c i x o n : view_of c = mkView i x o n ->
  exists c1, exec (Remove [".next"; "current.old"]) c = Some c1 /\ view_of c1 = mkView i x None None.
Proof. intros [= <- <- <- <-]. eexists. split; [reflexivity|]. cbn [foldr]. by view_step. Qed.

Lemma view_remove_old c i x o n : view_of c = mkView i x o n ->
  exists c1, exec (Remove ["current.old"]) c = Some c1 /\ view_of c1 = mkView i x None n.
Proof. intros [= <- <- <- <-]. eexists. split; [reflexivity|]. cbn [foldr]. by view_step. Qed.

Lemma view_mkdir c i x o : view_of c = mkView i x o None ->
  exists c1, exec (Mkdir ".next") c = Some c1 /\ view_of c1 = mkView i x o (Some (Dir root_dir ∅)).
Proof. intros [= <- <- <- Hn]. cbn [exec]. rewrite Hn. eexists. split; [reflexivity|]. by view_step. Qed.

Lemma view_within c i x o m es f es' : view_of c = mkView i x o (Some (Dir m es)) -> f es = Some es' ->
  exists c1, within ".next" f c = Some c1 /\ view_of c1 = mkView i x o (Some (Dir m es')).
Proof. intros [= <- <- <- Hn] Hf. unfold within. rewrite Hn, Hf. eexists. split; [reflexivity|]. by view_step. Qed.

Lemma view_publish c i o n : view_of c = mkView i None o (Some n) ->
  exists c1, exec (Mv ".next" "current") c = Some c1 /\ view_of c1 = mkView i (Some n) o None.
Proof. intros [= <- Hx <- Hn]. cbn [exec]. rewrite Hx, Hn. destruct n; (eexists; split; [reflexivity|]; by view_step). Qed.

Lemma view_retire c i x n : view_of c = mkView i (Some x) None n ->
  exists c1, exec (Mv "current" "current.old") c = Some c1 /\ view_of c1 = mkView i None (Some x) n.
Proof. intros [= <- Hx Ho <-]. cbn [exec]. rewrite Hx, Ho. destruct x; (eexists; split; [reflexivity|]; by view_step). Qed.

Lemma view_restore c i o n : view_of c = mkView i None (Some o) n ->
  exists c1, exec (Mv "current.old" "current") c = Some c1 /\ view_of c1 = mkView i (Some o) None n.
Proof. intros [= <- Hx Ho <-]. cbn [exec]. rewrite Hx, Ho. destruct o; (eexists; split; [reflexivity|]; by view_step). Qed.

Lemma view_ln c m es fm s o n : view_of c = mkView None (Some (Dir m es)) o n -> es !! ".initialized" = Some (File fm s) ->
  exists c1, exec (Ln "current" ".initialized") c = Some c1 /\ view_of c1 = mkView (Some (File fm s)) (Some (Dir m es)) o n.
Proof.
  intros [= Hi Hx <- <-] He. cbn [exec]. unfold in_dir. rewrite Hx. cbn [follow]. rewrite He, Hi. eexists. split; [reflexivity|].
  by view_step.
Qed.

Lemma view_rm c i m es fm s o n : view_of c = mkView i (Some (Dir m es)) o n -> es !! ".initialized" = Some (File fm s) ->
  exists c1, exec (Rm "current" ".initialized") c = Some c1 /\ view_of c1 = mkView i (Some (Dir m (delete ".initialized" es))) o n.
Proof. intros [= <- Hx <- <-] He. cbn [exec]. unfold within. rewrite Hx, He. eexists. split; [reflexivity|]. by view_step. Qed.

Ltac names := apply (bool_decide_unpack _); vm_compute; exact I.

(** Where a command may be interrupted. *)
Lemma part_remove c c' i x o n : view_of c = mkView i x o n -> partway (Remove [".next"; "current.old"]) c c' ->
  exists o' n', view_of c' = mkView i x o' n' /\ remains o o' /\ remains n n'.
Proof.
  intros [= <- <- <- <-] Hp. inversion Hp as [? ? ? _ Hoff Hon| |]; subst. eexists _, _. split_and!; [|apply Hon; by names..].
  unfold view_of. by rewrite (Hoff ".initialized"), (Hoff "current") by names.
Qed.

Lemma part_remove_old c c' i x o n : view_of c = mkView i x o n -> partway (Remove ["current.old"]) c c' ->
  exists o', view_of c' = mkView i x o' n /\ remains o o'.
Proof.
  intros [= <- <- <- <-] Hp. inversion Hp as [? ? ? _ Hoff Hon| |]; subst. eexists. split; [|apply Hon; by names].
  unfold view_of. by rewrite (Hoff ".initialized"), (Hoff "current"), (Hoff ".next") by names.
Qed.

Lemma part_fill k c c' i x o n : match k with Untar d _ | Cp _ d _ => d = ".next" | _ => False end ->
  view_of c = mkView i x o n -> partway k c c' -> exists m es, view_of c' = mkView i x o (Some (Dir m es)).
Proof.
  intros Hk [= <- <- <- <-] Hp. destruct Hp; try done; cbn in Hk; subst dir; eexists _, _; by view_step.
Qed.

Lemma part_atomic k c c' : match k with Remove _ | Untar _ _ | Cp _ _ _ => False | _ => True end -> ~ partway k c c'.
Proof. intros Hk Hp. by destruct Hp. Qed.

(** ** The marker of a private source *)

Lemma hex_no_space c : is_hex c = true -> negb (c =? " ")%char = true /\ negb (c =? "010")%char = true.
Proof. destruct c as [[] [] [] [] [] [] [] []]; vm_compute; try discriminate; by split. Qed.

Lemma sha256_hex_text value f : (forall c, is_hex c = true -> f c = true) -> all_bytes f (sha256_hex value) = true.
Proof. intros Hf. apply (all_bytes_impl _ _ _ Hf). unfold sha256_hex. apply hex_encode_is_hex, Sum256_bytes. Qed.

Definition sized (value : string) : Prop := len value = 32 \/ len value = 43.

Lemma sized_valid value : sized value -> validGeneratedValueSize (len value) = true.
Proof. by intros [-> | ->]. Qed.

Lemma marker_words value : sized value ->
  read_words (privateSourceMarker value) = Some (privateSourceMarkerVersion, "sha256:" ++ sha256_hex value, Itoa (len value), false).
Proof.
  intros Hs. unfold read_words, privateSourceMarker.
  assert (Hi : exists size, Itoa (len value) = size /\ all_bytes (fun c => negb (c =? " ")%char) size = true /\
    all_bytes (fun c => negb (c =? "010")%char) size = true /\ (size =? "")%string = false).
  { destruct Hs as [-> | ->]; (eexists; split; [reflexivity|]; vm_compute; done). }
  destruct Hi as (size & -> & S1 & S2 & S3).
  pose proof (sha256_hex_text value _ (fun c H => proj1 (hex_no_space c H))) as H1.
  pose proof (sha256_hex_text value _ (fun c H => proj2 (hex_no_space c H))) as H2.
  set (digest := sha256_hex value) in *.
  replace (privateSourceMarkerVersion ++ " sha256:" ++ digest ++ " " ++ size ++ String "010" "")
    with ((privateSourceMarkerVersion ++ String " " (("sha256:" ++ digest) ++ String " " size)) ++ String "010" "")
    by (rewrite !str_app_assoc, !str_cons_app, !str_app_assoc, !str_cons_app; reflexivity).
  rewrite Cut_found.
  - rewrite Split_app, Split_app, !Split_whole; [|done|by rewrite all_bytes_app, H1|done].
    cbn [app List.filter]. rewrite S3. reflexivity.
  - rewrite !all_bytes_app. cbn [all_bytes]. rewrite !all_bytes_app, H2. cbn [all_bytes]. by rewrite S2.
Qed.

Lemma marker_len value : sized value -> len (privateSourceMarker value) = 112.
Proof.
  intros Hs. unfold privateSourceMarker. rewrite !len_app, sha256_hex_len. destruct Hs as [-> | ->]; reflexivity.
Qed.

(** What [privateSourceMarker] writes, test_private_source accepts. *)
Lemma marker_accepted value : sized value -> test_private_source (privateSourceMarker value) value (len value) = true.
Proof.
  intros Hs. unfold test_private_source. rewrite marker_len, marker_words, sized_valid, !String.eqb_refl, !Z.eqb_refl by done. done.
Qed.

Lemma marker_size marker value expected : test_private_source marker value expected = true -> len value = expected.
Proof. unfold test_private_source. rewrite !andb_true_iff, Z.eqb_eq. tauto. Qed.

(** ** Private sources *)

Definition marker_node (value : string) : node := File root_file (privateSourceMarker value).
Definition value_node (value : string) : node := File root_file value.
Definition published_dir (value : string) : directory := <["value" := value_node value]> {[".initialized" := marker_node value]}.

(** A source volume holds no value yet, or the one value it will keep:
    published with its marker still beside it, or ready. *)
Definition is_ready (value : string) (c : contents) : Prop :=
  entry c ".initialized" = Some (marker_node value) /\ entry c "current" = Some (Dir root_dir {["value" := value_node value]}).

Definition is_publishing (value : string) (c : contents) : Prop :=
  entry c "current" = Some (Dir root_dir (published_dir value)) /\
  (entry c ".initialized" = None \/ entry c ".initialized" = Some (marker_node value)).

Definition is_unpublished (c : contents) : Prop := entry c ".initialized" = None /\ entry c "current" = None.

Definition source_holds (secret : option string) (c : contents) : Prop :=
  match secret with
  | None => is_unpublished c
  | Some value => sized value /\ (is_publishing value c \/ is_ready value c)
  end.

Lemma sized_nonempty value : sized value -> (value =? "")%string = false.
Proof. intros Hs. apply String.eqb_neq. intros ->. by destruct Hs. Qed.

Lemma publishing_accepted c value : sized value -> is_publishing value c -> test_publishing (len value) c = true.
Proof.
  intros Hs [Hx Hi]. unfold test_publishing. rewrite Hx. unfold published_dir, marker_node, value_node. simplify_map_eq.
  rewrite sized_nonempty, marker_accepted by done. destruct Hi as [-> | ->]; [done|]. unfold marker_node. by rewrite marker_accepted.
Qed.

Lemma ready_accepted c value : sized value -> is_ready value c -> test_ready (len value) c = true.
Proof.
  intros Hs [Hi Hx]. unfold test_ready. rewrite Hi, Hx. unfold marker_node, value_node. simplify_map_eq.
  by rewrite sized_nonempty, marker_accepted by done.
Qed.

Lemma publishing_size expected c value : entry c "current" = Some (Dir root_dir (published_dir value)) ->
  test_publishing expected c = true -> len value = expected.
Proof.
  intros Hx. unfold test_publishing. rewrite Hx. unfold published_dir, marker_node, value_node. simplify_map_eq.
  rewrite !andb_true_iff. intros [[_ H] _]. by eapply marker_size.
Qed.

Lemma ready_not_publishing expected c value : entry c "current" = Some (Dir root_dir {["value" := value_node value]}) ->
  test_publishing expected c = false.
Proof. intros Hx. unfold test_publishing. rewrite Hx. by simplify_map_eq. Qed.

Lemma publishing_not_ready expected c value : is_publishing value c -> test_ready expected c = false.
Proof. intros [Hx _]. unfold test_ready. rewrite Hx. by destruct (entry c ".initialized") as [[]|]. Qed.

(** What [InspectPrivateSource] answers of a source with a value of the
    expected size. *)
Lemma inspect_unpublished size c : is_unpublished c -> inspect size c = SourceEmpty.
Proof. intros [Hi Hx]. unfold inspect, absent, there, not_link. by rewrite Hi, Hx. Qed.

Lemma inspect_publishing value c : sized value -> is_publishing value c -> inspect (len value) c = SourcePublishing.
Proof.
  intros Hs Hp. unfold inspect. rewrite (publishing_not_ready _ _ _ Hp), (publishing_accepted _ _ Hs Hp).
  destruct Hp as [Hx _]. unfold absent, there. rewrite Hx. by rewrite !andb_false_r.
Qed.

Lemma inspect_ready value c : sized value -> is_ready value c -> inspect (len value) c = SourceReady.
Proof.
  intros Hs Hr. unfold inspect. rewrite (ready_accepted _ _ Hs Hr). destruct Hr as [_ Hx].
  unfold absent, there. rewrite Hx. by rewrite !andb_false_r.
Qed.

(** A source keeps the value it has. *)
Definition evolves (secret : option string) (c : contents) : Prop :=
  exists secret', source_holds secret' c /\ forall value, secret = Some value -> secret' = Some value.

Lemma evolves_same secret c : source_holds secret c -> evolves secret c.
Proof. intros H. exists secret. by split. Qed.

Lemma evolves_none c i o n x : view_of c = mkView i x o n -> i = None -> x = None -> evolves None c.
Proof. intros [= Hi Hx _ _] -> ->. apply evolves_same. by split. Qed.

Lemma evolves_value value c secret : sized value -> is_publishing value c \/ is_ready value c -> secret = None \/ secret = Some value -> evolves secret c.
Proof. intros Hs Hc Hsec. exists (Some value). split; [by split|]. by destruct Hsec as [-> | ->]; [|intros ? [= ->]]. Qed.

Lemma view_publishing value c i o n : view_of c = mkView i (Some (Dir root_dir (published_dir value))) o n ->
  i = None \/ i = Some (marker_node value) -> is_publishing value c.
Proof. intros [= Hi Hx _ _] H. split; [done|]. by rewrite Hi. Qed.

Lemma view_ready value c o n : view_of c = mkView (Some (marker_node value)) (Some (Dir root_dir {["value" := value_node value]})) o n ->
  is_ready value c.
Proof. by intros [= Hi Hx _ _]. Qed.

Lemma extract_marker value : extract (marker_files value) ∅ = Some (published_dir value).
Proof. reflexivity. Qed.

Lemma published_rm value : delete ".initialized" (published_dir value) = {["value" := value_node value]}.
Proof. unfold published_dir. by rewrite delete_insert_ne, delete_singleton_eq. Qed.

Lemma in_next c i x o m es name : view_of c = mkView i x o (Some (Dir m es)) -> in_dir c ".next" name = es !! name.
Proof. intros [= _ _ _ Hn]. unfold in_dir. by rewrite Hn. Qed.

Lemma view_known c i x : entry c ".initialized" = i -> entry c "current" = x -> exists o n, view_of c = mkView i x o n.
Proof. intros <- <-. by do 2 eexists. Qed.

Ltac no_part := let H := fresh in intros ? H; exfalso; revert H; by apply part_atomic.

(** From its first command to its last the script of [InitializePrivateSource]
    leaves the source without a value, or with the new one. *)
Lemma initialize_covers value c : sized value -> is_unpublished c ->
  covers (evolves None) (initialize_script (marker_files value) (len value)) (fun r => exists c', r = Some c' /\ is_ready value c') c.
Proof.
  intros Hs Hu. pose proof Hu as [Hi Hx]. assert (He : evolves None c) by (by apply (evolves_same None)). unfold initialize_script.
  do 4 (apply covers_require; [done|intros _|unfold absent, there, not_link; rewrite ?Hi, ?Hx; done]).
  destruct (view_known _ _ _ Hi Hx) as (o & n & Hv).
  clear Hu Hi Hx.
  eapply covers_do; [exact Hv|done| |by eapply view_remove|].
  { intros c' Hp. destruct (part_remove _ _ _ _ _ _ Hv Hp) as (o' & n' & Hv' & _). by eapply evolves_none. }
  clear He Hv c. intros c Hv. eapply covers_do; [exact Hv|by eapply evolves_none|no_part|by eapply view_mkdir|].
  clear Hv c. intros c Hv. eapply covers_do; [exact Hv|by eapply evolves_none| |eapply view_within; [exact Hv|apply extract_marker]|].
  { intros c' Hp. destruct (part_fill (Untar ".next" (marker_files value)) _ _ _ _ _ _ eq_refl Hv Hp) as (m & es & Hv'). by eapply evolves_none. }
  clear Hv c. intros c Hv. assert (He : evolves None c) by (by eapply evolves_none). apply covers_require; [done| |].
  2: { unfold test_staged. rewrite !(in_next _ _ _ _ _ _ _ Hv). unfold published_dir, marker_node, value_node. simplify_map_eq.
       by rewrite marker_accepted. }
  intros _. apply covers_sync; [|done].
  eapply covers_do; [exact Hv|done|no_part|by eapply view_publish|]. clear He Hv c. intros c Hv.
  assert (He : evolves None c) by (eapply (evolves_value value); [done|left; eapply view_publishing; [done|by left]|by left]).
  apply covers_sync; [|done].
  eapply covers_do; [exact Hv|done|no_part|eapply view_ln; [exact Hv|by unfold published_dir; simplify_map_eq]|]. clear He Hv c. intros c Hv.
  assert (He : evolves None c) by (eapply (evolves_value value); [done|left; eapply view_publishing; [done|by right]|by left]).
  apply covers_sync; [|done].
  eapply covers_do; [exact Hv|done|no_part|eapply view_rm; [exact Hv|by unfold published_dir; simplify_map_eq]|]. clear He Hv c. intros c Hv.
  rewrite published_rm in Hv. pose proof (view_ready _ _ _ _ Hv) as Hr.
  assert (He : evolves None c) by (eapply (evolves_value value); [done|by right|by left]).
  apply covers_sync; [|done]. split; [done|]. by exists c.
Qed.

(** The same of [FinalizePrivateSource]. *)
Lemma finalize_covers value c : sized value -> is_publishing value c ->
  covers (evolves (Some value)) (finalize_script (len value)) (fun r => exists c', r = Some c' /\ is_ready value c') c.
Proof.
  intros Hs Hp. assert (Hev : forall c, is_publishing value c \/ is_ready value c -> evolves (Some value) c)
    by (intros; eapply evolves_value; eauto).
  assert (Hrest : forall c, is_publishing value c -> entry c ".initialized" = Some (marker_node value) ->
    covers (evolves (Some value)) (Do Sync $ Do (Require (test_publishing (len value))) $ Do (Rm "current" ".initialized") $ Do Sync $
      Do (Require (test_ready (len value))) Done) (fun r => exists c', r = Some c' /\ is_ready value c') c).
  { clear c Hp. intros c Hp Hi. apply covers_sync; [|auto]. apply covers_require; [auto| |by rewrite publishing_accepted]. intros _.
    destruct (view_known _ _ _ Hi (proj1 Hp)) as (o & n & Hv).
    eapply covers_do; [exact Hv|auto|no_part|eapply view_rm; [exact Hv|by unfold published_dir; simplify_map_eq]|]. clear Hv Hp Hi c. intros c Hv.
    rewrite published_rm in Hv. pose proof (view_ready _ _ _ _ Hv) as Hr. apply covers_sync; [|auto].
    apply covers_require; [auto| |by rewrite ready_accepted]. intros _. split; [auto|]. by exists c. }
  unfold finalize_script. apply covers_require; [auto| |by rewrite publishing_accepted]. intros _.
  destruct Hp as [Hx Hi]. apply covers_if; [apply Hev; by left| |]; unfold absent, there, not_link.
  2: { intros Hb. destruct Hi as [Hi|Hi]; [by rewrite Hi in Hb|]. apply Hrest; [split; [done|by right]|done]. }
  intros Hb. destruct Hi as [Hi|Hi]; [|by rewrite Hi in Hb]. clear Hb.
  destruct (view_known _ _ _ Hi Hx) as (o & n & Hv).
  eapply covers_do; [exact Hv|apply Hev; left; split; [done|by left]|no_part|eapply view_ln; [exact Hv|by unfold published_dir; simplify_map_eq]|].
  clear Hv c Hx Hi. intros c Hv. pose proof (view_publishing value _ _ _ _ Hv (or_intror eq_refl)) as Hp.
  split; [auto|]. apply Hrest; [done|]. by injection Hv.
Qed.

Lemma evolves_stops Φ s Ψ c c' : covers Φ s Ψ c -> stops s c c' -> Φ c'.
Proof. intros H. by apply covers_sound in H as [H _]; apply H. Qed.

(** Whatever state a source is in, the script of [InitializePrivateSource]
    only gives it a first value. *)
Lemma initialize_stops secret value c c' : sized value -> source_holds secret c ->
  stops (initialize_script (marker_files value) (len value)) c c' -> evolves secret c'.
Proof.
  intros Hs Hc. destruct secret as [old|]; [|eapply evolves_stops; by apply initialize_covers].
  pose proof (evolves_same _ _ Hc) as He. eapply evolves_stops with (Ψ := fun _ => True). unfold initialize_script.
  apply covers_require; [done|intros _|done]. apply covers_require; [done|intros _|done]. apply covers_require; [done| |done].
  intros Ha. exfalso. destruct Hc as [_ [[Hx _]|[_ Hx]]]; unfold absent, there in Ha; by rewrite Hx in Ha.
Qed.

Lemma finalize_stops secret size c c' : source_holds secret c -> stops (finalize_script size) c c' -> evolves secret c'.
Proof.
  intros Hc. pose proof (evolves_same _ _ Hc) as He.
  assert (Hfail : test_publishing size c = false -> stops (finalize_script size) c c' -> evolves secret c').
  { intros Hf. eapply evolves_stops with (Ψ := fun _ => True). apply covers_require; [done| |done]. intros Ht. by rewrite Hf in Ht. }
  destruct secret as [value|]; [|apply Hfail; unfold test_publishing; by destruct Hc as [_ ->]].
  destruct Hc as [Hs [Hp|Hr]]; [|by apply Hfail; eapply ready_not_publishing; apply Hr].
  destruct (test_publishing size c) eqn:Ht; [|by apply Hfail]. apply (publishing_size _ _ _ (proj1 Hp)) in Ht as <-.
  eapply evolves_stops. by apply finalize_covers.
Qed.

Lemma directory_stops uid gid mode c c' : stops (directory_script uid gid mode) c c' -> ct_entries c' = ct_entries c.
Proof.
  unfold directory_script. cbn [stops]. intros [->|[Hp|(c1 & [= <-] & H)]]; [done|by apply part_atomic in Hp|].
  destruct H as [->|[Hp|(c2 & [= <-] & H)]]; [done|by apply part_atomic in Hp|].
  destruct H as [->|[Hp|(c3 & [= <-] & H)]]; [done|by apply part_atomic in Hp|]. by destruct H as [->|[]].
Qed.

Lemma source_entries secret c c' : ct_entries c' = ct_entries c -> source_holds secret c -> source_holds secret c'.
Proof.
  intros He. unfold source_holds, is_publishing, is_ready, is_unpublished, entry. by rewrite He.
Qed.

(** ** The inventory *)

Lemma add_file_other path n es es' name : add_file path n es = Some es' -> hd name path <> name -> es' !! name = es !! name.
Proof.
  destruct path as [|p [|q path]]; cbn [hd]; [done| |].
  - cbn [add_file]. destruct (_ || _); [done|]. intros [= <-] Hne. by rewrite lookup_insert_ne.
  - change (add_file (p :: q :: path) n es) with (match es !! p with
      | None => sub ← add_file (q :: path) n ∅; Some (<[p := Dir root_dir sub]> es)
      | Some (Dir m sub) => sub' ← add_file (q :: path) n sub; Some (<[p := Dir m sub']> es)
      | Some _ => None
      end).
    intros H Hne. destruct (es !! p) as [[| m sub| |]|]; try done; destruct (add_file (q :: path) n _); try done;
      injection H as <-; by rewrite lookup_insert_ne.
Qed.

(** A file at the top of an archive without repeated names is extracted as it
    is. *)
Lemma extract_file files es es' name f written : Split name "/"%char = [name] ->
  extract files es = Some es' -> archivable written files = true ->
  (f ∈ files /\ sf_Name f = name \/ name ∈ written /\ es !! name = Some (tar_file f)) -> es' !! name = Some (tar_file f).
Proof.
  intros Hname. revert es written. induction files as [|g files IH]; intros es written He Ha Hf.
  - injection He as <-. by destruct Hf as [[Hf _]|[_ ?]]; [apply not_elem_of_nil in Hf|].
  - cbn [extract] in He. destruct (add_file _ _ es) as [es1|] eqn:E1; [|done]. cbn in He. cbn [archivable] in Ha.
    rewrite !andb_true_iff, negb_true_iff, bool_decide_eq_false in Ha. destruct Ha as [[[_ Hn] _] Ha]. eapply IH; [exact He|exact Ha|].
    destruct Hf as [[[->|Hf]%elem_of_cons Hfn]|[Hw Hl]].
    + right. rewrite Hfn in *. split; [by apply elem_of_union_l, elem_of_singleton|].
      rewrite Hname in E1. cbn [add_file] in E1. destruct (_ || _); [done|]. injection E1 as <-. by rewrite lookup_insert_eq.
    + by left.
    + right. split; [by apply elem_of_union_r|]. assert (Hg : sf_Name g <> name) by (intros H; by rewrite H in Hn).
      assert (Hhd : hd name (Split (sf_Name g) "/"%char) <> name \/ exists q path, Split (sf_Name g) "/"%char = name :: q :: path).
      { destruct (Split (sf_Name g) "/"%char) as [|p [|q path]] eqn:E; [by destruct (Split_nonempty "/"%char (sf_Name g))| |].
        - left. cbn [hd]. intros Hp. apply Hg. pose proof (Join_Split "/"%char (sf_Name g)) as HJ. rewrite E in HJ. cbn [Join] in HJ. congruence.
        - cbn [hd]. destruct (decide (p = name)) as [->|]; [right; by exists q, path|by left]. }
      destruct Hhd as [Hhd|(q & path & E)]; [by rewrite (add_file_other _ _ _ _ _ E1 Hhd)|].
      rewrite E in E1. cbn [add_file] in E1. by rewrite Hl in E1.
Qed.

(** The configuration volume: its directories are directories. *)
Definition dir_or_none (n : option node) : Prop := match n with None | Some (Dir _ _) => True | _ => False end.
Definition tidy (c : contents) : Prop := dir_or_none (entry c "current") /\ dir_or_none (entry c "current.old").

Definition directory_inventory (n : option node) : option string :=
  match n with
  | Some (Dir _ es) =>
      match es !! "volume-inventory.json" with
      | None => Some ""
      | Some (File _ data) => if (len data <=? maxStateFileBytes)%Z then Some data else None
      | Some _ => None
      end
  | _ => Some ""
  end.

(** The inventory is read from current, or from current.old when an update
    was interrupted between its two renames. *)
Lemma read_tidy c : tidy c ->
  read_inventory c = directory_inventory (match entry c "current" with Some n => Some n | None => entry c "current.old" end).
Proof.
  intros [Hx Ho]. unfold read_inventory, not_link, there.
  destruct (entry c "current") as [[| m es| |]|] eqn:Ex; try done.
  - destruct (entry c "current.old") as [[]|]; try done; cbn; by rewrite Ex.
  - destruct (entry c "current.old") as [[]|] eqn:Eo; try done; cbn; by rewrite ?Eo.
Qed.

Lemma remains_dir n n' : remains n n' -> dir_or_none n -> dir_or_none n'.
Proof. by destruct 1. Qed.

(** An update of the configuration leaves a readable inventory at every point
    it may stop at: the one before it or the new one. *)
Definition inventory_is (before after : option string) (c : contents) : Prop :=
  tidy c /\ (read_inventory c = before \/ read_inventory c = after).

Section Replace.
Variables (files : list StateFile) (f : StateFile) (before : option string).
Hypotheses (Hfiles : archivable ∅ files = true) (Hf : f ∈ files) (Hname : sf_Name f = "volume-inventory.json").

Abbreviation after := (Some (sf_Data f)).
Abbreviation safe_at := (inventory_is before after).

Lemma inventory_view c i x o n : view_of c = mkView i x o n -> dir_or_none x -> dir_or_none o ->
  directory_inventory (match x with Some y => Some y | None => o end) = before \/
  directory_inventory (match x with Some y => Some y | None => o end) = after -> safe_at c.
Proof. intros [= _ <- <- _] Hx Ho H. assert (Ht : tidy c) by (by split). split; [done|]. by rewrite read_tidy. Qed.

Lemma files_bounded : (len (sf_Data f) <= maxStateFileBytes)%Z.
Proof.
  clear Hname. revert Hf Hfiles. generalize (∅ : gset string). induction files as [|g fs IH]; intros seen Hin Ha;
    [by apply not_elem_of_nil in Hin|]. cbn [archivable] in Ha. rewrite !andb_true_iff in Ha. destruct Ha as [[_ Hl%Z.leb_le] Ha].
  apply elem_of_cons in Hin as [->|Hin]; [done|by eapply IH].
Qed.

Lemma extracted_inventory es : extract files ∅ = Some es -> directory_inventory (Some (Dir root_dir es)) = after.
Proof.
  intros He. cbn. rewrite (extract_file files ∅ es "volume-inventory.json" f ∅); [|done|done|done|by left].
  unfold tar_file. rewrite (proj2 (Z.leb_le _ _)); [done|apply files_bounded].
Qed.

(** The rest of the update once current is where it was. *)
Lemma replace_rest c i x o n : view_of c = mkView i x o n -> (x = None -> o = None) -> dir_or_none x -> dir_or_none o ->
  directory_inventory x = before ->
  covers safe_at (Do (Remove [".next"; "current.old"]) $ Do (Mkdir ".next") $ Do (Untar ".next" files) $ Do Sync $
    IfThen (there "current") (Do (Mv "current" "current.old") Done) $
    Do (Mv ".next" "current") $ Do Sync $ Do (Remove ["current.old"]) $ Do Sync Done)
    (fun r => forall c', r = Some c' -> tidy c' /\ read_inventory c' = after) c.
Proof.
  intros Hv Hxo Hx Ho Hb.
  assert (Hsafe : forall c i o n, view_of c = mkView i x o n -> dir_or_none o -> (x = None -> o = None) -> safe_at c).
  { intros c' i' o' n' Hv' Ho' Hxo'. eapply inventory_view; [exact Hv'|done|done|]. left. destruct x; [done|]. by rewrite Hxo'. }
  eapply covers_do; [exact Hv|by eapply Hsafe| |by eapply view_remove|].
  { intros c' Hp. destruct (part_remove _ _ _ _ _ _ Hv Hp) as (o' & n' & Hv' & Hr & _). eapply Hsafe; [exact Hv'|by eapply remains_dir|].
    intros Hx0. specialize (Hxo Hx0). subst o. by inversion Hr. }
  clear Hv c Ho Hxo. intros c Hv. eapply covers_do; [exact Hv|by eapply Hsafe|no_part|by eapply view_mkdir|].
  clear Hv c. intros c Hv. destruct (extract files ∅) as [es|] eqn:He.
  2: { cbn [covers]. split; [by eapply Hsafe|]. split.
       - intros c' Hp. destruct (part_fill (Untar ".next" files) _ _ _ _ _ _ eq_refl Hv Hp) as (m & es & Hv'). by eapply Hsafe.
       - cbn [exec]. unfold within. injection Hv as _ _ _ Hn. rewrite Hn, He. done. }
  eapply covers_do; [exact Hv|by eapply Hsafe| |eapply view_within; [exact Hv|exact He]|].
  { intros c' Hp. destruct (part_fill (Untar ".next" files) _ _ _ _ _ _ eq_refl Hv Hp) as (m & es' & Hv'). by eapply Hsafe. }
  clear Hv c. intros c Hv. apply covers_sync; [|by eapply Hsafe].
  assert (Hend : forall c o, view_of c = mkView i None o (Some (Dir root_dir es)) -> dir_or_none o -> directory_inventory o = before ->
    covers safe_at (Do (Mv ".next" "current") $ Do Sync $ Do (Remove ["current.old"]) $ Do Sync Done)
      (fun r => forall c', r = Some c' -> tidy c' /\ read_inventory c' = after) c).
  { clear Hv c. intros c o' Hv Ho' Hbo. pose proof (extracted_inventory es He) as Hnew.
    eapply covers_do; [exact Hv|eapply inventory_view; [exact Hv|done|done|by left]|no_part|by eapply view_publish|]. clear Hv c. intros c Hv.
    assert (Hs : safe_at c) by (eapply inventory_view; [exact Hv|done|done|by right]). apply covers_sync; [|done].
    eapply covers_do; [exact Hv|done| |by eapply view_remove_old|].
    { intros c' Hp. destruct (part_remove_old _ _ _ _ _ _ Hv Hp) as (o2 & Hv' & Hr).
      eapply inventory_view; [exact Hv'|done|by eapply remains_dir|by right]. }
    clear Hs Hv c. intros c Hv. assert (Hs : safe_at c) by (eapply inventory_view; [exact Hv|done|done|by right]).
    apply covers_sync; [|done]. split; [done|]. intros c' [= <-]. split; [apply Hs|]. rewrite read_tidy by apply Hs.
    injection Hv as _ -> _ _. exact Hnew. }
  apply covers_if; [by eapply Hsafe| |].
  - intros Hthere. destruct x as [x|]; [|unfold there in Hthere; injection Hv as _ Hx' _ _; by rewrite Hx' in Hthere].
    eapply covers_do; [exact Hv|by eapply Hsafe|no_part|by eapply view_retire|]. clear Hv c Hthere. intros c Hv.
    split; [eapply inventory_view; [exact Hv|done|done|by left]|]. by apply (Hend c (Some x)).
  - intros Hthere. apply (Hend c None); [|done|].
    + destruct x as [x|]; [|done]. exfalso. unfold there in Hthere. injection Hv as _ Hx' _ _. rewrite Hx' in Hthere. by destruct x.
    + destruct x as [x|]; [|done]. exfalso. unfold there in Hthere. injection Hv as _ Hx' _ _. rewrite Hx' in Hthere. by destruct x.
Qed.

Lemma replace_covers c : tidy c -> read_inventory c = before ->
  covers safe_at (replace_script files) (fun r => forall c', r = Some c' -> tidy c' /\ read_inventory c' = after) c.
Proof.
  intros Ht Hb. assert (Hs : safe_at c) by (split; [done|by left]). unfold replace_script.
  do 3 (apply covers_require; [done|intros _|done]). rewrite read_tidy in Hb by done. destruct Ht as [Hx Ho].
  assert (Hv : view_of c = mkView (entry c ".initialized") (entry c "current") (entry c "current.old") (entry c ".next")) by done.
  revert Hv Hx Ho Hb. generalize (entry c ".initialized") (entry c "current") (entry c "current.old") (entry c ".next").
  intros i x o n Hv Hx Ho Hb. apply covers_if; [done| |].
  - intros Hold. apply andb_true_iff in Hold as [Hax Hto]. unfold absent, there in *.
    pose proof Hv as [= _ Ex Eo _]. rewrite Ex in Hax. rewrite Eo in Hto. destruct x as [[]|]; try done. destruct o as [d|]; [|done].
    apply covers_require; [done| |done]. intros _.
    eapply covers_do; [exact Hv|done|no_part|by eapply view_restore|]. clear Hv Hs Ex Eo c. intros c Hv.
    assert (Hs : safe_at c) by (eapply inventory_view; [exact Hv|done|done|by left]).
    apply covers_sync; [|done]. split; [done|]. by eapply replace_rest.
  - intros Hold. apply andb_false_iff in Hold. unfold absent, there in *. pose proof Hv as [= _ Ex Eo _]. rewrite Ex in Hold. rewrite Eo in Hold.
    eapply replace_rest; [exact Hv| |done|done|].
    + intros ->. destruct Hold as [Hold|Hold]; [done|]. by destruct o as [[]|].
    + destruct x as [x|]; [done|]. destruct Hold as [Hold|Hold]; [done|]. by destruct o as [[]|].
Qed.
End Replace.

(** ** Copies *)

Definition delivered (value : string) (uid gid : Z) (c : contents) : Prop :=
  entry c "current" = Some (Dir root_dir (<["value" := File (mkMeta uid gid 256) value]> {[".initialized" := marker_node value]})).

Definition current_tidy (c : contents) : Prop := dir_or_none (entry c "current").

Lemma current_view c i x o n : view_of c = mkView i x o n -> dir_or_none x -> current_tidy c.
Proof. by intros [= _ <- _ _]. Qed.

(** The end of a copy: the staged directory takes its place. *)
Lemma copy_publishes value uid gid c i o :
  view_of c = mkView i None o (Some (Dir root_dir (<["value" := File (mkMeta uid gid 256) value]> {[".initialized" := marker_node value]}))) ->
  covers current_tidy (Do (Mv ".next" "current") $ Do Sync $ Do (Remove ["current.old"]) $ Do Sync Done)
    (fun r => exists c', r = Some c' /\ delivered value uid gid c') c.
Proof.
  intros Hv. eapply covers_do; [exact Hv|by eapply current_view|no_part|by eapply view_publish|]. clear Hv c. intros c Hv.
  apply covers_sync; [|by eapply current_view]. eapply covers_do; [exact Hv|by eapply current_view| |by eapply view_remove_old|].
  { intros c' Hp. destruct (part_remove_old _ _ _ _ _ _ Hv Hp) as (o2 & Hv' & _). by eapply current_view. }
  clear Hv c. intros c Hv. apply covers_sync; [|by eapply current_view]. split; [by eapply current_view|]. exists c. split; [done|].
  unfold delivered. by injection Hv as _ -> _ _.
Qed.

(** The script of [CopyPrivateFile] from a ready source ends with the value in
    place, whatever an interrupted copy left before. *)
Lemma copy_covers value source uid gid c : sized value -> is_ready value source -> current_tidy c ->
  covers current_tidy (copy_script source uid gid (len value)) (fun r => exists c', r = Some c' /\ delivered value uid gid c') c.
Proof.
  intros Hs Hr Hc. pose proof (ready_accepted _ _ Hs Hr) as Hready. destruct Hr as [Hi Hx]. unfold copy_script.
  assert (Hvalue : in_dir source "current" "value" = Some (value_node value)) by (unfold in_dir; rewrite Hx; cbn [follow]; by simplify_map_eq).
  rewrite Hi, Hvalue. apply covers_require; [done|intros _|by rewrite Hready].
  assert (Hv : view_of c = mkView (entry c ".initialized") (entry c "current") (entry c "current.old") (entry c ".next")) by done.
  unfold current_tidy in Hc. revert Hv Hc. generalize (entry c ".initialized") (entry c "current") (entry c "current.old") (entry c ".next").
  intros i x o n Hv Hc. assert (Hok : forall c i o n, view_of c = mkView i x o n -> current_tidy c) by (intros; by eapply current_view).
  eapply covers_do; [exact Hv|by eapply Hok| |by eapply view_remove|].
  { intros c' Hp. destruct (part_remove _ _ _ _ _ _ Hv Hp) as (o' & n' & Hv' & _). by eapply Hok. }
  clear Hv c o n. intros c Hv. eapply covers_do; [exact Hv|by eapply Hok|no_part|by eapply view_mkdir|].
  assert (Hfill : forall k c c' i o n, match k with Untar d _ | Cp _ d _ => d = ".next" | _ => False end ->
    view_of c = mkView i x o n -> partway k c c' -> current_tidy c').
  { intros k c1 c2 i' o' n' Hk Hv1 Hp. destruct (part_fill k _ _ _ _ _ _ Hk Hv1 Hp) as (m & es & Hv'). by eapply Hok. }
  clear Hv c. intros c Hv.
  eapply covers_do; [exact Hv|by eapply Hok|intros c' Hp; refine (Hfill _ _ _ _ _ _ _ Hv Hp); done|eapply view_within; [exact Hv|reflexivity]|]. clear Hv c. intros c Hv.
  eapply covers_do; [exact Hv|by eapply Hok|intros c' Hp; refine (Hfill _ _ _ _ _ _ _ Hv Hp); done|eapply view_within; [exact Hv|reflexivity]|]. clear Hv c. intros c Hv.
  change (File (mkMeta 0 0 (Z.land (mt_mode root_file) 448)) value) with (value_node value) in Hv.
  change (File (mkMeta 0 0 (Z.land (mt_mode root_file) 448)) (privateSourceMarker value)) with (marker_node value) in Hv.
  assert (Hstaged : test_staged (len value) c = true).
  { unfold test_staged. rewrite !(in_next _ _ _ _ _ _ _ Hv). unfold marker_node, value_node. simplify_map_eq. by rewrite marker_accepted. }
  assert (Hmeta : forall name, name = ".initialized" \/ name = "value" -> staged_as name root_file c = true).
  { intros name [-> | ->]; unfold staged_as; rewrite !(in_next _ _ _ _ _ _ _ Hv); unfold marker_node, value_node; by simplify_map_eq. }
  assert (Hsame : same_marker source c = true).
  { unfold same_marker. rewrite Hi, !(in_next _ _ _ _ _ _ _ Hv). unfold marker_node. simplify_map_eq. by rewrite String.eqb_refl. }
  assert (Hcc : current_tidy c) by (by eapply Hok).
  do 8 (apply covers_require; [done|intros _|rewrite ?Hstaged, ?Hready, ?Hsame, ?Hmeta by auto; done]). clear Hstaged Hmeta Hsame Hcc.
  eapply covers_do; [exact Hv|by eapply Hok|no_part|eapply view_within; [exact Hv|unfold on_meta; simplify_map_eq; reflexivity]|]. clear Hv c. intros c Hv.
  eapply covers_do; [exact Hv|by eapply Hok|no_part|eapply view_within; [exact Hv|unfold on_meta; simplify_map_eq; reflexivity]|]. clear Hv c. intros c Hv.
  apply covers_require; [by eapply Hok| |].
  2: { unfold staged_as. rewrite (in_next _ _ _ _ _ _ _ Hv). simplify_map_eq. by rewrite bool_decide_eq_true_2. }
  intros _. apply covers_sync; [|by eapply Hok]. rewrite !insert_insert_eq in Hv. cbn in Hv.
  apply covers_if; [by eapply Hok| |]; unfold there; pose proof Hv as [= _ Ex _ _]; rewrite Ex; intros Hb.
  - destruct x as [x|]; [|done]. eapply covers_do; [exact Hv|by eapply Hok|no_part|by eapply view_retire|]. clear Hv Ex c. intros c Hv.
    split; [by eapply current_view|]. by eapply copy_publishes.
  - destruct x as [[]|]; try done. by eapply copy_publishes.
Qed.

Lemma ready_source secret size c : source_holds secret c -> test_ready size c = true -> exists value, secret = Some value /\ sized value /\ is_ready value c /\ len value = size.
Proof.
  intros Hc Ht. destruct secret as [value|].
  - destruct Hc as [Hs [Hp|Hr]]; [by rewrite (publishing_not_ready _ _ _ Hp) in Ht|]. exists value. split_and!; [done..|].
    destruct Hr as [Hi Hx]. unfold test_ready in Ht. rewrite Hi, Hx in Ht. unfold marker_node, value_node in Ht. simplify_map_eq.
    rewrite !andb_true_iff in Ht. destruct Ht as [_ Ht]. by eapply marker_size.
  - destruct Hc as [Hi _]. unfold test_ready in Ht. by rewrite Hi in Ht.
Qed.

(** Whatever its source is, a copy leaves its destination fit for the next
    one; and what it takes is the source's value. *)
Lemma copy_stops secret source uid gid size c c' : source_holds secret source -> current_tidy c ->
  stops (copy_script source uid gid size) c c' -> current_tidy c'.
Proof.
  intros Hsrc Hc. destruct (test_ready size source) eqn:Ht.
  - destruct (ready_source _ _ _ Hsrc Ht) as (value & _ & Hs & Hr & <-). eapply evolves_stops. by apply copy_covers.
  - eapply evolves_stops with (Ψ := fun _ => True). apply covers_require; [done|by rewrite Ht|done].
Qed.

Lemma copy_run secret source uid gid size c c' : source_holds secret source -> current_tidy c ->
  run (copy_script source uid gid size) c = Some c' -> exists value, secret = Some value /\ len value = size /\ delivered value uid gid c'.
Proof.
  intros Hsrc Hc Hrun. assert (Ht : test_ready size source = true).
  { unfold copy_script in Hrun. cbn [run exec] in Hrun. by destruct (test_ready size source). }
  destruct (ready_source _ _ _ Hsrc Ht) as (value & -> & Hs & Hr & <-). exists value. split_and!; [done..|].
  destruct (covers_sound _ _ _ _ (copy_covers _ _ uid gid _ Hs Hr Hc)) as [_ (c1 & Hc1 & Hd)]. congruence.
Qed.
