(* ===== verification/LocalTheorems.v ===== *)
(** * The local platform's guarantees

    Who mounts what, and what holds of the volumes after any number of runs of
    [Ensure], each stopped anywhere: the inventory knows every volume,
    generated secrets are kept, conflicts stop a run before it writes. *)
From stdpp Require Import base list strings gmap sorting.
From Stdlib Require Import ZArith Lia Ascii.
From S2P Require Import Prelude GoStrings GoUrl GoJson GoJsonPrint GoEncoding GoHttp Sha256 Program LocalPlan LocalPlanProps LocalStore LocalStoreProps.

Local Open Scope Z_scope.
Local Open Scope go_scope.
Local Open Scope string_scope.

(** ** Who mounts what *)

Lemma NoDup_key {A B} (f : A -> B) (l : list A) x y : NoDup (f <$> l) -> x ∈ l -> y ∈ l -> f x = f y -> x = y.
Proof.
  intros Hnd [i Hi]%list_elem_of_lookup [j Hj]%list_elem_of_lookup He.
  assert (i = j) as -> by (eapply (NoDup_lookup (f <$> l)); [done|rewrite list_lookup_fmap, Hi; reflexivity|rewrite list_lookup_fmap, Hj; cbn; by rewrite He]).
  congruence.
Qed.

(** C25: The mounts of a prepared plan: a volume is mounted by its consumers
    only, all of them trusted services, a volume with a private value by its
    one consumer and read-only, and the volume a generated value is kept in by
    nobody. *)
Theorem private_mounts_apart project compiled inputs pp m v : preparePlan project compiled inputs = Ok pp ->
  NoDup (v_Name <$> pp_Volumes pp) -> m ∈ pp_Mounts pp -> v ∈ pp_Volumes pp -> v_Name v = m_Volume m ->
  m_Service m ∈ v_Consumers v /\ trustedGeneratedConsumer (m_Service m) = true /\ v_Role v <> "generated-private-source" /\
  (private_role (v_Role v) = true -> v_Consumers v = [m_Service m] /\ m_ReadOnly m = true).
Proof.
  intros Hpp Hnd Hm Hv Hn. destruct (prepared_inv _ _ _ _ Hpp) as [config Hinv].
  destruct (pv_mounts _ _ _ Hinv m Hm) as (u & Hu & Hname & Hrest). by rewrite <- (NoDup_key v_Name _ u v Hnd Hu Hv) by congruence.
Qed.

(** ** Volumes of a plan *)

Lemma by_name_in vs (m : gmap string Volume) n v :
  fold_left (fun m v => <[v_Name v := v]> m) vs m !! n = Some v -> v ∈ vs /\ v_Name v = n \/ m !! n = Some v.
Proof.
  revert m. induction vs as [|u vs IH]; intros m; [by right|]. cbn [fold_left]. intros H. destruct (IH _ H) as [[? ?]|Hm]; [left; split; [by right|done]|].
  rewrite lookup_insert_Some in Hm. destruct Hm as [[<- <-]|[_ ?]]; [left; split; [by left|done]|by right].
Qed.

Lemma by_name_some vs (m : gmap string Volume) n : is_Some (m !! n) \/ (exists v, v ∈ vs /\ v_Name v = n) ->
  is_Some (fold_left (fun m v => <[v_Name v := v]> m) vs m !! n).
Proof.
  revert m. induction vs as [|u vs IH]; intros m; [by intros [?|(v & ?%not_elem_of_nil & _)]|]. cbn [fold_left].
  intros H. apply IH. destruct (decide (v_Name u = n)) as [<-|Hne]; [left; by rewrite lookup_insert_eq|]. rewrite lookup_insert_ne by done.
  destruct H as [?|(v & [->|Hv]%elem_of_cons & Hn)]; [by left|done|right; by exists v].
Qed.

Lemma volume_of_named vs name role : named vs name role -> volume_of (volumes_by_name vs) name ∈ vs /\ v_Name (volume_of (volumes_by_name vs) name) = name.
Proof.
  intros (v & Hv & Hn & _). unfold volume_of, volumes_by_name. destruct (by_name_some vs ∅ name) as [u Hu]; [right; by exists v|].
  rewrite Hu. cbn. by destruct (by_name_in _ _ _ _ Hu) as [?|?%lookup_empty_Some].
Qed.

(** The volume of a planned name has the role it was planned with. *)
Lemma volume_of_role project vs name role : Forall (planned_volume project) vs -> named vs name role ->
  (forall v v', v ∈ vs -> v' ∈ vs -> v_Name v = v_Name v' -> v_Labels v = v_Labels v') ->
  volume_of (volumes_by_name vs) name ∈ vs /\ v_Name (volume_of (volumes_by_name vs) name) = name /\
  role_of (v_Labels (volume_of (volumes_by_name vs) name)) = role.
Proof.
  intros Hp Hn Hsame. destruct (volume_of_named _ _ _ Hn) as [Hin Hname]. destruct Hn as (v & Hv & Hvn & Hr).
  split_and!; [done|done|]. rewrite (Hsame _ v) by congruence. rewrite Forall_forall in Hp.
  destruct (Hp v Hv) as (suffix & role' & owner & consumers & -> & _). cbn [plan_volume v_Role v_Labels] in *. subst role'. exact (proj2 (volume_labels_get _ _ _ _)).
Qed.

Lemma base64url_length bytes : len (base64url bytes) = (4 * Z.of_nat (length bytes) + 2) / 3.
Proof.
  induction bytes as [|a|a b|a b c l IH] using list_ind3; [done..|]. cbn [base64url List.length].
  unfold len in *. cbn [String.length]. replace (4 * Z.of_nat (S (S (S (List.length l)))) + 2)%Z with (4 * Z.of_nat (List.length l) + 2 + 4 * 3)%Z by lia.
  rewrite Z.div_add by lia. lia.
Qed.

(** A generated value has the size its encoding promises. *)
Lemma generated_sized raw encoding value : len raw = 32 -> generatedBytes raw encoding = Some value ->
  sized value /\ len value = generatedValueSize encoding.
Proof.
  intros Hl. unfold generatedBytes, generatedValueSize, sized. destruct (_ =? _)%string; [intros [= <-]; auto|].
  destruct (_ =? _)%string; [|done]. intros [= <-]. rewrite base64url_length. unfold string_bytes. rewrite length_map.
  unfold len in Hl.
  replace (length (String.list_ascii_of_string raw)) with (String.length raw) by (clear; induction raw; cbn; congruence).
  rewrite Hl. auto.
Qed.

(** The inventory is one of the configuration files. *)
Lemma assign_skip m kvs k : k ∉ kvs.*1 -> assign m kvs !! k = m !! k.
Proof.
  revert m. induction kvs as [|[k' x] kvs IH]; intros m Hk; [done|]. cbn [fmap list_fmap fst] in Hk. rewrite not_elem_of_cons in Hk.
  destruct Hk as [Hne Hk]. unfold assign in *. cbn [fold_left fst snd]. rewrite IH by exact Hk. by apply lookup_insert_ne, not_eq_sym.
Qed.

Lemma producer_names `{ServiceConfigs} seen ps kvs k : producer_files seen ps = Some kvs -> k ∈ kvs.*1 -> exists name, k = "producers/" ++ name.
Proof.
  revert seen kvs. induction ps as [|p ps IH]; intros seen kvs; cbn [producer_files].
  - intros [= <-] Hk. by apply not_elem_of_nil in Hk.
  - destruct (ProducerConfiguration p) as [data|]; [|done]. cbn [mbind option_bind]. destruct (bool_decide _); [done|].
    destruct (producer_files _ ps) as [rest|] eqn:E; [|done]. intros [= <-]. cbn [fmap list_fmap fst].
    intros [->|Hk]%elem_of_cons; [by eexists|by eapply IH].
Qed.

Lemma inventory_assigned `{ServiceConfigs} compiled inputs plan vs values : configuration_values compiled inputs plan vs = Some values ->
  values !! "volume-inventory.json" = Some (canonicalJSON (inventory_json (mkInventory stateVersion (p_Project plan) vs))).
Proof.
  unfold configuration_values. destruct (CompiledJSON compiled) as [a|]; [|done]. destruct (BrokerConfig compiled) as [b|]; [|done].
  destruct (ControllerConfig compiled _) as [c|]; [|done]. destruct (GatewayConfig compiled) as [d|]; [|done]. cbn [mbind option_bind].
  destruct (if portalEnabled compiled then _ else _) as [portal|] eqn:Ep; [|done]. cbn [mbind option_bind].
  destruct (ProducerConfigurations compiled) as [producers|] eqn:Eq; [|done]. cbn [mbind option_bind]. intros [= <-].
  rewrite assign_skip; [apply lookup_insert_eq|].
  rewrite !fmap_app, !elem_of_app. intros [Hk|[Hk|Hk]].
  - destruct (portalEnabled compiled); [|injection Ep as <-; by apply not_elem_of_nil in Hk].
    destruct (portalConfiguration _) as [x|]; [|done]. injection Ep as <-. by apply list_elem_of_singleton in Hk.
  - unfold ProducerConfigurations in Eq. destruct (_ || _); [done|]. by destruct (producer_names _ _ _ _ Eq Hk) as [name ?].
  - rewrite <- list_fmap_compose in Hk. by apply list_elem_of_fmap in Hk as (i & ? & _).
Qed.

Lemma inventory_file `{ServiceConfigs} compiled inputs plan vs files : configurationFiles compiled inputs plan vs = Some files ->
  exists f, f ∈ files /\ sf_Name f = "volume-inventory.json" /\
    sf_Data f = canonicalJSON (inventory_json (mkInventory stateVersion (p_Project plan) vs)).
Proof.
  unfold configurationFiles. destruct (configuration_values _ _ _ _) as [values|] eqn:E; [|done]. cbn [mbind option_bind].
  destruct (existsb _ _); [done|]. intros [= <-]. apply inventory_assigned in E. eexists. split.
  - apply list_elem_of_fmap. exists "volume-inventory.json". split; [reflexivity|]. unfold sort_strings. rewrite merge_sort_Permutation.
    apply list_elem_of_fmap. eexists (_, _). split; [reflexivity|]. by apply elem_of_map_to_list.
  - cbn. by rewrite E.
Qed.

(** ** What holds of the volumes of a host *)

Definition config_name (project : string) : string := VolumeName project GeneratedConfigSuffix.
Definition config_labels (project : string) : labels := volume_labels project "local-platform-state" "generated-config" (config_name project).

(** The inventory [data] is in its place, and names every volume of the
    project but the one it is in. *)
Definition listed (project data : string) (o : volume_map) : Prop :=
  (exists c, o !! config_name project = Some (config_labels project, c) /\ tidy c /\ read_inventory c = Some data /\ published project data) /\
  forall n l c, o !! n = Some (l, c) -> owner_of l = project -> n = config_name project \/ n ∈ inventory_names data.

Definition unowned (project : string) (o : volume_map) : Prop := forall n l c, o !! n = Some (l, c) -> owner_of l <> project.

Record platform_inv (o : volume_map) : Prop := {
  pl_labels : forall n l c, o !! n = Some (l, c) -> proper_labels l;
  pl_sources : forall n l c, o !! n = Some (l, c) -> role_of l = "generated-private-source" -> exists secret, source_holds secret c;
  pl_copies : forall n l c, o !! n = Some (l, c) -> role_of l = "generated-private-input" -> current_tidy c;
  pl_listed : forall project, project <> "" -> unowned project o \/ exists data, listed project data o
}.

Definition secrets_kept (o o' : volume_map) : Prop := forall n l c value, o !! n = Some (l, c) -> role_of l = "generated-private-source" ->
  source_holds (Some value) c -> exists c', o' !! n = Some (l, c') /\ source_holds (Some value) c'.

#[export] Instance secrets_kept_preorder : PreOrder secrets_kept.
Proof.
  split; [intros o n l c value Hn _ Hc; by exists c|]. intros o o1 o2 H1 H2 n l c value Hn Hl Hc.
  destruct (H1 n l c value Hn Hl Hc) as (c1 & Hn1 & Hc1). by apply (H2 n l c1 value).
Qed.

(** A change of a volume's contents that keeps this. *)
Definition tame (n : string) (l : labels) (c c' : contents) : Prop :=
  (role_of l = "generated-private-source" -> forall secret, source_holds secret c -> evolves secret c') /\
  (forall project data, n = config_name project -> l = config_labels project -> tidy c -> read_inventory c = Some data -> published project data ->
    tidy c' /\ exists data', read_inventory c' = Some data' /\ published project data' /\ inventory_names data ⊆ inventory_names data') /\
  (role_of l = "generated-private-input" -> current_tidy c -> current_tidy c').

Lemma config_role project : role_of (config_labels project) = "generated-config".
Proof. exact (proj2 (volume_labels_get _ _ _ _)). Qed.

Lemma tame_role role n l c c' : role_of l = role -> role <> "generated-config" ->
  (role = "generated-private-source" -> forall secret, source_holds secret c -> evolves secret c') ->
  (role = "generated-private-input" -> current_tidy c -> current_tidy c') -> tame n l c c'.
Proof. intros <- Hr Hs Hc. split_and!; [exact Hs| |exact Hc]. intros project data _ ->. destruct (Hr (config_role project)). Qed.

Lemma tame_entries n l c c' : ct_entries c' = ct_entries c -> tame n l c c'.
Proof.
  intros He. split_and!; [intros _ secret Hs; by eapply evolves_same, source_entries| |intros _; unfold current_tidy, entry; by rewrite He].
  intros project data _ _ Ht Hr Hp. unfold tidy, read_inventory, not_link, there, entry in *. rewrite He. split; [done|]. by exists data.
Qed.

Lemma update_inv o n l c c' : platform_inv o -> o !! n = Some (l, c) -> tame n l c c' ->
  platform_inv (<[n := (l, c')]> o) /\ secrets_kept o (<[n := (l, c')]> o).
Proof.
  intros [H1 H2 H4 H3] Hn (Hsrc & Hcfg & Hcopy).
  assert (Hold : forall m l1 c1, <[n := (l, c')]> o !! m = Some (l1, c1) -> exists c0, o !! m = Some (l1, c0)).
  { intros m l1 c1. rewrite lookup_insert_Some. intros [[<- [= <- <-]]|[_ ?]]; by eexists. }
  split; [split|].
  - intros m l1 c1 Hm. destruct (Hold _ _ _ Hm) as [c0 Hm0]. by eapply H1.
  - intros m l1 c1. rewrite lookup_insert_Some. intros [[<- [= <- <-]]|[_ Hm]] Hr; [|by eapply H2].
    destruct (H2 _ _ _ Hn Hr) as [s Hs]. destruct (Hsrc Hr s Hs) as (s' & ? & _). by exists s'.
  - intros m l1 c1. rewrite lookup_insert_Some. intros [[<- [= <- <-]]|[_ Hm]] Hr; [|by eapply H4]. apply Hcopy; [done|]. by eapply H4.
  - intros project Hp. destruct (H3 project Hp) as [Hun|(data & (c0 & Hc & Ht & Hr & Hpub) & Hall)].
    + left. intros m l1 c1 Hm. destruct (Hold _ _ _ Hm) as [? Hm0]. by eapply Hun.
    + right. destruct (decide (n = config_name project)) as [->|Hne].
      * rewrite Hn in Hc. injection Hc as -> ->. destruct (Hcfg project data eq_refl eq_refl Ht Hr Hpub) as (Ht' & data' & Hr' & Hp' & Hsub).
        exists data'. split; [exists c'; rewrite lookup_insert_eq; by split_and!|]. intros m l1 c1 Hm Ho. destruct (Hold _ _ _ Hm) as [? Hm0].
        destruct (Hall _ _ _ Hm0 Ho) as [?|?]; [by left|right; by apply Hsub].
      * exists data. split; [exists c0; rewrite lookup_insert_ne by done; by split_and!|]. intros m l1 c1 Hm Ho.
        destruct (Hold _ _ _ Hm) as [? Hm0]. by eapply Hall.
  - intros m l1 c1 value Hm Hr Hs. destruct (decide (n = m)) as [->|Hne]; [|exists c1; by rewrite lookup_insert_ne].
    rewrite Hn in Hm. injection Hm as -> ->. destruct (Hsrc Hr _ Hs) as (s' & Hs' & Hk). rewrite (Hk value eq_refl) in Hs'.
    exists c'. by rewrite lookup_insert_eq.
Qed.

Lemma tidy_new : tidy new_volume /\ read_inventory new_volume = Some "".
Proof. by split. Qed.

(** New volumes of one project: its first, which is to hold the inventory, or
    some the inventory names. *)
Lemma create_inv project vs o o' : platform_inv o -> project <> "" -> Forall (planned_volume project) vs -> created_from vs o o' ->
  (forall v, v ∈ vs -> v_Name v = config_name project /\ v_Labels v = config_labels project) \/
  (exists data, listed project data o /\ forall v, v ∈ vs -> v_Name v ∈ inventory_names data) ->
  platform_inv o' /\ secrets_kept o o'.
Proof.
  intros [H1 H2 H4 H3] Hproject Hvs [Hsub Hnew] Hcase. rewrite Forall_forall in Hvs.
  assert (Hfresh : forall n l c, o' !! n = Some (l, c) -> o !! n = Some (l, c) \/
    o !! n = None /\ c = new_volume /\ proper_labels l /\ owner_of l = project /\ exists v, v ∈ vs /\ v_Name v = n /\ l = v_Labels v).
  { intros n l c Hn. destruct (Hnew _ _ Hn) as [?|(Ho & v & Hv & Hval & Hname & [= -> ->])]; [by left|right].
    destruct (Hvs v Hv) as (suffix & role & owner & consumers & Hp & _). split_and!; [done|done|by eapply plan_volume_valid| |by exists v].
    rewrite Hp. exact (proj1 (volume_labels_get _ _ _ _)). }
  assert (Hmono : forall p data, p <> project -> listed p data o -> listed p data o').
  { intros p data Hp [(c & Hc & Hrest) Hall]. split; [exists c; split; [by eapply lookup_weaken|done]|]. intros n l c1 Hn Ho.
    destruct (Hfresh _ _ _ Hn) as [?|(_ & _ & _ & Hown & _)]; [by eapply Hall|congruence]. }
  split; [split|].
  - intros n l c Hn. destruct (Hfresh _ _ _ Hn) as [?|?]; [by eapply H1|tauto].
  - intros n l c Hn Hr. destruct (Hfresh _ _ _ Hn) as [?|(_ & -> & _)]; [by eapply H2|]. by exists None.
  - intros n l c Hn Hr. destruct (Hfresh _ _ _ Hn) as [?|(_ & -> & _)]; [by eapply H4|done].
  - intros p Hp. destruct (decide (p = project)) as [->|Hne].
    2: { destruct (H3 p Hp) as [Hun|[data Hl]]; [left|right; exists data; by apply Hmono]. intros n l c Hn Ho.
         destruct (Hfresh _ _ _ Hn) as [Hn'|(_ & _ & _ & Hown & _)]; [by eapply Hun|congruence]. }
    destruct Hcase as [Hfirst|(data & [(c & Hc & Hrest) Hall] & Hin)].
    + destruct (H3 project Hp) as [Hun|(data & (c & Hc & Hrest) & Hall)].
      * assert (Hone : forall n l c, o' !! n = Some (l, c) -> owner_of l = project -> n = config_name project /\ l = config_labels project /\ c = new_volume).
        { intros n l c Hn Ho. destruct (Hfresh _ _ _ Hn) as [Hn'|(_ & -> & _ & _ & v & Hv & <- & ->)]; [by destruct (Hun _ _ _ Hn')|].
          destruct (Hfirst v Hv) as [-> ->]. done. }
        destruct (o' !! config_name project) as [[l c]|] eqn:E.
        -- destruct (decide (owner_of l = project)) as [Ho|Ho].
           ++ destruct (Hone _ _ _ E Ho) as (_ & -> & ->). right. exists "". split; [|intros n l1 c1 Hn Ho1; left; by eapply Hone].
              exists new_volume. split; [done|]. destruct tidy_new. split_and!; [done|done|by left].
           ++ left. intros n l1 c1 Hn Ho1. destruct (Hone _ _ _ Hn Ho1) as (-> & -> & ->). rewrite E in Hn. injection Hn as -> ->. done.
        -- left. intros n l1 c1 Hn Ho1. destruct (Hone _ _ _ Hn Ho1) as (-> & _). congruence.
      * right. exists data. split; [exists c; split; [by eapply lookup_weaken|done]|]. intros n l1 c1 Hn Ho.
        destruct (Hfresh _ _ _ Hn) as [?|(Hnone & _ & _ & _ & v & Hv & <- & _)]; [by eapply Hall|]. destruct (Hfirst v Hv) as [Hname _].
        rewrite Hname in Hnone. congruence.
    + right. exists data. split; [exists c; split; [by eapply lookup_weaken|done]|]. intros n l1 c1 Hn Ho.
      destruct (Hfresh _ _ _ Hn) as [?|(_ & _ & _ & _ & v & Hv & <- & _)]; [by eapply Hall|right; by apply Hin].
  - intros n l c value Hn _ Hs. exists c. split; [by eapply lookup_weaken|done].
Qed.

(** ** One run of [Ensure] *)

Lemma stored_keeps {A} (I : volume_map -> Prop) (Q : volume_map -> result string Plan -> Prop) (P : volume_map -> A -> Prop)
    o (m : prog store_answer (option A)) message :
  keeps store_step I (fun o' r => match r with Some a => P o' a | None => Q o' (Err message) end) o m ->
  keeps store_step I (answers Q P) o (stored m message).
Proof. intros H. apply keeps_ebind, keeps_bind. eapply keeps_mono; [|exact H]. by intros o' [a|]. Qed.

(** [Ensure] in two phases: until the volumes are checked it only reads. *)
Definition ensure_volumes_phase (project : string) (inputs : Inputs) (pp : preparedPlan) (st : gmap string PrivateSourceState) : managing (result string Plan) :=
  let volumes := volumes_by_name (pp_Volumes pp) in
  let! _ := stored (perform (EnsureVolumes (pp_Volumes pp))) "trusted state volume ownership conflict or storage failure" in
  let! inspected := loop (inspect_remaining volumes) st (pp_generated pp) in
  let! states := loop (finalize_source volumes) inspected (pp_generated pp) in
  let! _ := loop (ensure_directory volumes) tt (pp_directories pp) in
  let! _ := loop (write_static volumes inputs) tt (pp_static pp) in
  let! _ := loop (generate volumes states) tt (pp_generated pp) in
  go (Ok (prepared_Plan project pp)).

Definition writing_phase (project : string) (inputs : Inputs) (pp : preparedPlan) (configuration : list StateFile) (st : gmap string PrivateSourceState)
    : managing (result string Plan) :=
  let configVolume := volume_of (volumes_by_name (pp_Volumes pp)) (pp_configVolume pp) in
  let! _ := stored (perform (EnsureVolumes [configVolume])) "trusted state inventory volume creation failed" in
  let! _ := stored (perform (ReplaceFiles configVolume configuration)) "generated configuration storage failed" in
  ensure_volumes_phase project inputs pp st.

(** What the reading phase has found when it comes to its end. *)
Record checked `{ServiceConfigs} (project : string) (compiled : Compiled) (inputs : Inputs) (o : volume_map)
    (pp : preparedPlan) (configuration : list StateFile) : Prop := {
  ck_prepared : preparePlan project compiled inputs = Ok pp;
  ck_inventory : exists data inventory, store_step o (ReadVolumeInventory (volume_of (volumes_by_name (pp_Volumes pp)) (pp_configVolume pp))) (Some data) o /\
    mergeVolumeInventory project data (pp_Volumes pp) = Ok inventory /\
    configurationFiles compiled inputs (prepared_Plan project pp) inventory = Some configuration;
  ck_volumes : exists existing : gset string, store_step o (ValidateVolumes (pp_Volumes pp)) (Some existing) o /\
    forall i, i ∈ pp_generated pp -> gp_sourceVolume i ∈ existing -> exists c,
      held o (volume_of (volumes_by_name (pp_Volumes pp)) (gp_sourceVolume i)) c /\
      inspect (generatedValueSize (gn_encoding (gp_input i))) c <> SourceCorrupt
}.

Lemma reading_phase `{ServiceConfigs} project compiled inputs (I : volume_map -> Prop) (Q : volume_map -> result string Plan -> Prop) o :
  I o -> (forall e, Q o (Err e)) ->
  (forall pp configuration st, checked project compiled inputs o pp configuration ->
    keeps store_step I (answers Q Q) o (writing_phase project inputs pp configuration st)) ->
  keeps store_step I Q o (Ensure project compiled inputs).
Proof.
  intros HI HQ Hw. unfold Ensure. apply keeps_finish.
  assert (Hcomputed : forall A (P : volume_map -> A -> Prop) (r : option A) message, (forall a, r = Some a -> P o a) ->
    keeps store_step I (answers Q P) o (computed r message)).
  { intros A P r message HP. destruct r as [a|]; [by apply HP|apply HQ]. }
  apply keeps_ebind. unfold planned. destruct (preparePlan project compiled inputs) as [pp|e] eqn:Hpp; [|apply HQ]. cbn [keeps go answers].
  apply keeps_ebind, Hcomputed. intros _ _. apply keeps_ebind, stored_keeps. intros r o' [-> Hread]. split; [done|]. destruct r as [data|]; [|apply HQ]. cbn [keeps].
  apply keeps_ebind, Hcomputed. intros inventory Hm. apply keeps_ebind, Hcomputed. intros configuration Hcfg.
  apply keeps_ebind, stored_keeps. intros r o' [-> Hval]. split; [done|]. destruct r as [existing|]; [|apply HQ]. cbn [keeps].
  apply keeps_ebind. eapply keeps_mono; [|apply (keeps_loop store_step I Q (fun left o' _ => o' = o /\ forall i, i ∈ pp_generated pp -> i ∈ left \/
    (gp_sourceVolume i ∈ existing -> exists c, held o (volume_of (volumes_by_name (pp_Volumes pp)) (gp_sourceVolume i)) c /\
      inspect (generatedValueSize (gn_encoding (gp_input i))) c <> SourceCorrupt)))].
  - intros o' [r|st]; [done|]. intros [-> Hall]. apply (Hw pp configuration st). split; [done| |].
    + exists data, inventory. destruct (mergeVolumeInventory _ _ _); [injection Hm as ->|done]. by split_and!.
    + exists existing. split; [done|]. intros i Hi. destruct (Hall i Hi) as [Hn|?]; [by apply not_elem_of_nil in Hn|done].
  - intros i left o' st [-> Hall]. unfold inspect_existing.
    assert (Hnext : (gp_sourceVolume i ∈ existing -> exists c, held o (volume_of (volumes_by_name (pp_Volumes pp)) (gp_sourceVolume i)) c /\
      inspect (generatedValueSize (gn_encoding (gp_input i))) c <> SourceCorrupt) -> forall j, j ∈ pp_generated pp -> j ∈ left \/
      (gp_sourceVolume j ∈ existing -> exists c, held o (volume_of (volumes_by_name (pp_Volumes pp)) (gp_sourceVolume j)) c /\
        inspect (generatedValueSize (gn_encoding (gp_input j))) c <> SourceCorrupt)).
    { intros Hi j Hj. destruct (Hall j Hj) as [[->|?]%elem_of_cons|?]; auto. }
    destruct (bool_decide _) eqn:Hb; [|split; [done|]; apply Hnext; intros Hin; by apply bool_decide_eq_false in Hb].
    unfold inspect_source. apply keeps_ebind, stored_keeps. intros r o' [-> Hs]. split; [done|]. destruct r as [state|]; [|apply HQ]. cbn [keeps].
    destruct (decide (state = SourceCorrupt)) as [|Hne]; [apply HQ|]. split; [done|]. apply Hnext. intros _.
    destruct (Hs state eq_refl) as (c & Hc & He). exists c. split; [done|]. congruence.
  - split; [done|]. intros i Hi. by left.
Qed.

Lemma initialize_source_keeps (I : volume_map -> Prop) (Q : volume_map -> result string Plan -> Prop) (P : volume_map -> unit -> Prop) volumes st i o :
  I o -> (forall e, Q o (Err e)) -> P o tt ->
  (forall raw value r o', len raw = 32 -> generatedBytes raw (gn_encoding (gp_input i)) = Some value ->
    store_step o (InitializePrivateSource (volume_of volumes (gp_sourceVolume i)) (generatedValueSize (gn_encoding (gp_input i))) (marker_files value)) r o' ->
    I o' /\ (forall e, Q o' (Err e)) /\ P o' tt) ->
  keeps store_step I (answers Q P) o (initialize_source volumes st i).
Proof.
  intros Ho HQ HP Hs. unfold initialize_source. destruct (decide _); [|done]. apply keeps_ebind, stored_keeps. intros r o' [-> Hr]. split; [done|].
  destruct r as [raw|]; [|apply HQ]. specialize (Hr raw eq_refl). cbn [keeps].
  destruct (generatedBytes raw (gn_encoding (gp_input i))) as [value|] eqn:Hv; [|apply HQ].
  apply stored_keeps. intros r o1 H. destruct (Hs raw value r o1 Hr Hv H) as (H1 & H2 & H3). split; [done|]. destruct r as [[]|]; [exact H3|apply H2].
Qed.

Section Managing.
Context {configs : ServiceConfigs}.
Variables (project : string) (o0 : volume_map).
Hypothesis Hproject : project <> "".

Definition good (o : volume_map) : Prop := platform_inv o /\ secrets_kept o0 o.

(** The only answers before the end are errors. *)
Definition failed (o : volume_map) (r : result string Plan) : Prop := good o /\ exists e, r = Err e.
Abbreviation gkeeps o m := (keeps store_step good (answers failed (fun o' _ => good o')) o m).

Lemma failed_err o e : good o -> failed o (Err e).
Proof. split; [done|by exists e]. Qed.
Lemma stop_keeps {A} (P : volume_map -> A -> Prop) o e : good o -> keeps store_step good (answers failed P) o (stop (Err e)).
Proof. apply failed_err. Qed.
#[local] Hint Resolve failed_err stop_keeps : core.


Lemma good_step o o' : good o -> platform_inv o' /\ secrets_kept o o' -> good o'.
Proof. intros [_ H1] [H2 H3]. split; [done|by transitivity o]. Qed.

Lemma good_stored {A} o (m : prog store_answer (option A)) message :
  keeps store_step good (fun o' _ => good o') o m -> gkeeps o (stored m message).
Proof. intros H. apply stored_keeps. eapply keeps_mono; [|exact H]. intros o' [a|]; auto. Qed.

Lemma good_bind {A B} (P : volume_map -> B -> Prop) o (m : managing A) (k : A -> managing B) : gkeeps o m ->
  (forall a o', good o' -> keeps store_step good (answers failed P) o' (k a)) -> keeps store_step good (answers failed P) o (ebind m k).
Proof. intros Hm Hk. apply keeps_ebind. eapply keeps_mono; [|exact Hm]. intros o' [r|a] Ho; [done|]. by apply Hk. Qed.

Lemma good_loop {A B} (f : B -> A -> managing B) acc xs o : good o ->
  (forall x acc o, x ∈ xs -> good o -> gkeeps o (f acc x)) -> gkeeps o (loop f acc xs).
Proof.
  revert acc o. induction xs as [|x xs IH]; intros acc o Ho Hf; [done|]. cbn [loop]. apply good_bind; [apply Hf; [by left|done]|].
  intros acc' o' Ho'. apply IH; [done|]. intros. apply Hf; [by right|done].
Qed.

(** A script over a volume of the plan. *)
Lemma good_written s v r o o' : good o -> written s v r o o' ->
  (forall c c', stops s c c' -> tame (v_Name v) (v_Labels v) c c') -> good o'.
Proof.
  intros Ho Hw Ht. destruct Hw as [[_ ->]|(_ & l & c & c' & Hn & Hl & -> & Hr)]; [done|]. destruct Ho as [Hi Hk].
  apply equalLabels_exact in Hl as ->; [|by eapply pl_labels]. apply (good_step o); [by split|]. apply (update_inv _ _ _ c); [done|done|].
  apply Ht. destruct r; [by apply run_stops|done].
Qed.

Section Loops.
Variables (vs : list Volume) (inputs : Inputs).
Abbreviation volumes := (volumes_by_name vs).
Hypothesis Hplanned : Forall (planned_volume project) vs.
Hypothesis Hsame : forall v v', v ∈ vs -> v' ∈ vs -> v_Name v = v_Name v' -> v_Labels v = v_Labels v'.

Lemma of_role name role : named vs name role -> role_of (v_Labels (volume_of volumes name)) = role.
Proof. intros Hn. by destruct (volume_of_role project vs name role Hplanned Hn Hsame) as (_ & _ & ?). Qed.

Definition well_named (i : generatedInputPlan) : Prop := named vs (gp_sourceVolume i) "generated-private-source" /\
  forall cc, cc ∈ gp_consumer i -> named vs (cc_volume cc) "generated-private-input".

Lemma inspect_good st i o : good o -> gkeeps o (inspect_source volumes st i).
Proof.
  intros Ho. apply good_bind; [apply good_stored; by intros r o' [-> _]|]. intros state o' Ho'. destruct (decide _); auto.
Qed.

Lemma finalize_good st i o : well_named i -> good o -> gkeeps o (finalize_source volumes st i).
Proof.
  intros [Hn _] Ho. unfold finalize_source. destruct (decide _); [|done]. apply good_bind; [|done]. apply good_stored. intros r o' Hs.
  enough (good o') by (by split). eapply good_written; [exact Ho|exact Hs|]. intros c c' Hc.
  eapply tame_role; [by apply of_role|done|intros _ secret Hsec; by eapply finalize_stops|done].
Qed.

Lemma directory_good u d o : good o -> gkeeps o (ensure_directory volumes u d).
Proof.
  intros Ho. apply good_stored. intros r o' Hs. enough (good o') by (by split). eapply good_written; [exact Ho|exact Hs|]. intros c c' Hc.
  apply tame_entries. by eapply directory_stops.
Qed.

Lemma static_good u i o : named vs (st_volume i) "static-private-input" -> good o -> gkeeps o (write_static volumes inputs u i).
Proof.
  intros Hn Ho. unfold write_static. destruct (private inputs !! _); [|auto]. apply good_stored. intros r o' [Hs _].
  enough (good o') by (by split). eapply good_written; [exact Ho|exact Hs|]. intros c c' Hc.
  eapply tame_role; [by apply of_role|done..].
Qed.

Lemma copy_step i consumer r o o' : named vs (gp_sourceVolume i) "generated-private-source" ->
  named vs (cc_volume consumer) "generated-private-input" -> good o ->
  store_step o (CopyPrivateFile (volume_of volumes (gp_sourceVolume i)) (volume_of volumes (cc_volume consumer)) (cc_uid consumer) (cc_gid consumer)
    (generatedValueSize (gn_encoding (gp_input i)))) r o' -> good o'.
Proof.
  intros Hsn Hcn Ho Hs.
  destruct Hs as [[_ ->]|(c & (_ & l & Hl & He) & Hs)]; [done|]. destruct (volume_of_role _ _ _ _ Hplanned Hsn Hsame) as (Hs1 & Hs2 & Hs3).
  destruct (volume_of_role _ _ _ _ Hplanned Hcn Hsame) as (Hc1 & Hc2 & Hc3). pose proof Ho as [Hinv _].
  apply equalLabels_exact in He as ->; [|by eapply pl_labels]. destruct (pl_sources _ Hinv _ _ _ Hl Hs3) as [secret Hsecret].
  destruct (decide _) as [Hd|_].
  - pose proof (Hsame _ _ Hs1 Hc1 Hd) as Hr. rewrite Hr, Hc3 in Hs3. discriminate Hs3.
  - eapply (good_written _ _ r); [exact Ho|by right|]. intros c1 c2 Hst. eapply tame_role; [exact Hc3|done|done|].
    intros _ Ht. by eapply copy_stops.
Qed.

Lemma initialize_step i raw value r o o' : named vs (gp_sourceVolume i) "generated-private-source" -> good o ->
  len raw = 32 -> generatedBytes raw (gn_encoding (gp_input i)) = Some value ->
  store_step o (InitializePrivateSource (volume_of volumes (gp_sourceVolume i)) (generatedValueSize (gn_encoding (gp_input i))) (marker_files value)) r o' ->
  good o'.
Proof.
  intros Hn Ho Hr Hv Hs. destruct (generated_sized _ _ _ Hr Hv) as [Hsz Hl]. eapply good_written; [exact Ho|exact Hs|]. intros c c' Hc.
  rewrite <- Hl in Hc. eapply tame_role; [by apply of_role|done|intros _ secret Hsec; by eapply initialize_stops|done].
Qed.

Lemma generate_good st u i o : well_named i -> good o -> gkeeps o (generate volumes st u i).
Proof.
  intros [Hn Hcs] Ho. unfold generate. apply good_bind.
  2: { intros _ o' Ho'. apply good_loop; [done|]. intros x acc o1 Hx Ho1. apply good_stored. intros r o2 Hs.
       enough (good o2) by (by split). by eapply copy_step; [|apply Hcs|..]. }
  apply initialize_source_keeps; [auto..|]. intros raw value r o' Hr Hv Hs. enough (good o') by (split_and!; auto). by eapply initialize_step.
Qed.
End Loops.

Section Prepared.
Variables (compiled : Compiled) (inputs : Inputs) (pp : preparedPlan).
Hypothesis Hpp : preparePlan project compiled inputs = Ok pp.
Abbreviation volumes := (volumes_by_name (pp_Volumes pp)).
Abbreviation configVolume := (volume_of volumes (pp_configVolume pp)).

Lemma planned_volumes : Forall (planned_volume project) (pp_Volumes pp).
Proof. destruct (prepared_inv _ _ _ _ Hpp) as [config Hinv]. rewrite Forall_forall. apply (pv_volumes _ _ _ Hinv). Qed.

Lemma config_planned : (forall v v', v ∈ pp_Volumes pp -> v' ∈ pp_Volumes pp -> v_Name v = v_Name v' -> v_Labels v = v_Labels v') ->
  configVolume ∈ pp_Volumes pp /\ v_Name configVolume = config_name project /\ v_Labels configVolume = config_labels project.
Proof.
  intros Hsame. destruct (prepared_inv _ _ _ _ Hpp) as [config Hinv]. destruct (pv_config _ _ _ Hinv config eq_refl) as (Hin & Hn & consumers & Hc).
  destruct (volume_of_named (pp_Volumes pp) (pp_configVolume pp) (v_Role config)) as [H1 H2]; [by exists config|].
  rewrite Hn in H1, H2 |- *. rewrite (Hsame _ config) by done. split_and!; [done|by rewrite H2, Hc|by rewrite Hc].
Qed.

(** What [mergeVolumeInventory] makes of the inventory it is given. *)
Record merged_state (data : string) (inventory : list Volume) : Prop := {
  ms_recorded : Forall (recorded project) inventory;
  ms_names : inventory_names data ⊆ v_Name <$> inventory;
  ms_current : forall v, v ∈ pp_Volumes pp -> v_Name v ∈ (v_Name <$> inventory);
  ms_same : forall v v', v ∈ pp_Volumes pp -> v' ∈ pp_Volumes pp -> v_Name v = v_Name v' -> v_Labels v = v_Labels v'
}.

Abbreviation written_inventory inventory := (canonicalJSON (inventory_json (mkInventory stateVersion project inventory))).

Lemma inventory_written data inventory : merged_state data inventory ->
  published project (written_inventory inventory) /\ inventory_names (written_inventory inventory) = v_Name <$> inventory.
Proof.
  intros [Hr _ _ _]. split; [right; by exists inventory|]. unfold inventory_names.
  by rewrite inventory_read by (done || eapply prepared_project, Hpp).
Qed.

(** What is read of the inventory is what is there. *)
Definition remembers (data : string) (o : volume_map) : Prop :=
  forall l c, o !! config_name project = Some (l, c) -> read_inventory c = Some data.

Lemma config_listed o l c : platform_inv o -> o !! config_name project = Some (l, c) -> owner_of l = project ->
  exists data, listed project data o /\ l = config_labels project /\ tidy c /\ read_inventory c = Some data /\ published project data.
Proof.
  intros Hi Hn Ho. destruct (pl_listed _ Hi project Hproject) as [Hun|[data Hl]]; [by destruct (Hun _ _ _ Hn)|].
  exists data. split; [done|]. destruct Hl as [(c' & Hc & Ht & Hr & Hp) _]. rewrite Hn in Hc. injection Hc as -> ->. done.
Qed.

Lemma inventory_remembered o data : platform_inv o -> store_step o (ReadVolumeInventory configVolume) (Some data) o ->
  published project data /\ remembers data o.
Proof.
  intros Hi [_ Hs]. destruct (prepared_inv _ _ _ _ Hpp) as [config Hinv]. destruct (pv_config _ _ _ Hinv config eq_refl) as (Hin & Hn & consumers & Hc).
  destruct (volume_of_named (pp_Volumes pp) (pp_configVolume pp) (v_Role config)) as [H1 H2]; [by exists config|].
  assert (Hname : v_Name configVolume = config_name project) by (rewrite H2, Hn, Hc; done).
  destruct (pv_volumes _ _ _ Hinv _ H1) as (suffix & role & owner & cs & Hv & _).
  destruct (Hs data eq_refl) as [[Hnone ->]|(c & (_ & l & Hl & He) & Hread)]; rewrite Hname in *.
  - split; [by left|]. intros l c Hl. congruence.
  - apply equalLabels_exact in He as ->; [|by eapply pl_labels]. rewrite Hv in Hl. cbn [plan_volume v_Labels] in Hl.
    destruct (config_listed _ _ _ Hi Hl (proj1 (volume_labels_get _ _ _ _))) as (d & _ & _ & _ & Hd & Hp). rewrite Hread in Hd. injection Hd as <-.
    split; [done|]. intros l c' Hl'. congruence.
Qed.

Lemma created_remembers data vs o o' : remembers data o -> platform_inv o -> created_from vs o o' -> (o !! config_name project = None -> data = "") -> remembers data o'.
Proof.
  intros Hr Hi [_ Hnew] Hd l c Hn. destruct (Hnew _ _ Hn) as [?|(Hnone & v & _ & _ & _ & [= _ ->])]; [by eapply Hr|]. by rewrite (Hd Hnone).
Qed.

(** The inventory is on its place before the volumes it names are made. *)
Lemma replace_good data inventory files o r o' : merged_state data inventory -> good o -> remembers data o ->
  configurationFiles compiled inputs (prepared_Plan project pp) inventory = Some files ->
  store_step o (ReplaceFiles configVolume files) r o' -> good o' /\ (r = Some tt -> listed project (written_inventory inventory) o').
Proof.
  intros Hm Ho Hrem Hfiles [Hs Ha]. destruct (config_planned (ms_same _ _ Hm)) as (_ & Hname & Hlabels).
  destruct (inventory_written _ _ Hm) as [Hpub Hnames]. destruct (inventory_file _ _ _ _ _ Hfiles) as (f & Hf & Hfn & Hfd).
  change (sf_Data f = written_inventory inventory) in Hfd.
  destruct Hs as [[-> ->]|(_ & l & c & c' & Hn & Hl & Ho' & Hr)]; [by split|]. pose proof Ho as [Hi Hk].
  apply equalLabels_exact in Hl as ->; [|by eapply pl_labels]. rewrite Hname, Hlabels in *.
  destruct (config_listed _ _ _ Hi Hn (proj1 (volume_labels_get _ _ _ _))) as (d & Hlist & _ & Ht & Hd & Hp).
  pose proof (Hrem _ _ Hn) as Hread. rewrite Hd in Hread. injection Hread as ->.
  assert (Hsub : inventory_names data ⊆ inventory_names (written_inventory inventory)) by (rewrite Hnames; apply (ms_names _ _ Hm)).
  assert (Htame : archivable ∅ files = true -> stops (replace_script files) c c' -> tame (config_name project) (config_labels project) c c').
  { intros Hfs Hst. destruct (covers_sound _ _ _ _ (replace_covers files f _ Hfs Hf Hfn c Ht Hd)) as [Hall _].
    destruct (Hall c' Hst) as [Ht' Hr']. rewrite Hfd in Hr'. unfold tame. rewrite config_role. split_and!; [intros H'; discriminate H'| |intros H'; discriminate H'].
    intros p d _ Hl _ Hd' Hp'. split; [done|]. rewrite Hd in Hd'. injection Hd' as <-.
    apply (f_equal owner_of) in Hl. unfold config_labels in Hl. rewrite !(proj1 (volume_labels_get _ _ _ _)) in Hl. subst p.
    destruct Hr' as [Hr'|Hr']; eexists; split_and!; [exact Hr'|done|done|exact Hr'|done|done]. }
  destruct Ha as [[-> ->]|Ha]; [by split|].
  assert (Hst : stops (replace_script files) c c') by (destruct r; [by apply run_stops|done]).
  split; [rewrite Ho'; apply (good_step o); [done|]; by apply (update_inv _ _ _ c); [| |apply Htame]|].
  intros ->. destruct (covers_sound _ _ _ _ (replace_covers files f _ Ha Hf Hfn c Ht Hd)) as [_ Hfin].
  destruct (Hfin c' Hr) as [Ht' Hr']. rewrite Hfd in Hr'. rewrite Ho'. split; [exists c'; by rewrite lookup_insert_eq|].
  intros n l x Hx Hown. rewrite lookup_insert_Some in Hx. destruct Hx as [[<- _]|[_ Hx]]; [by left|].
  destruct (proj2 Hlist n l x Hx Hown) as [?|?]; [by left|right; by apply Hsub].
Qed.

Lemma merged_inventory data inventory : published project data -> mergeVolumeInventory project data (pp_Volumes pp) = Ok inventory ->
  merged_state data inventory.
Proof.
  intros Hp Hm. destruct (prepared_project _ _ _ _ Hpp) as [Hascii _].
  destruct (merged_ok _ _ _ _ Hascii Hp planned_volumes Hm) as (H1 & H2 & H3 & H4). split; [done|exact H2|by apply H3|exact H4].
Qed.

End Prepared.

End Managing.

(** ** What a run delivers *)

Section Delivery.
Context {configs : ServiceConfigs}.
Variables (project : string) (o0 : volume_map).
Hypothesis Hproject : project <> "".
Variables (vs : list Volume) (inputs : Inputs).
Abbreviation volumes := (volumes_by_name vs).
Hypothesis Hplanned : Forall (planned_volume project) vs.
Hypothesis Hsame : forall v v', v ∈ vs -> v' ∈ vs -> v_Name v = v_Name v' -> v_Labels v = v_Labels v'.

(** The generated value is in the consumer's volume, with the consumer as its
    owner, and its source keeps it. *)
Definition supplied (o : volume_map) (d : generatedInputPlan * consumerCopy) : Prop :=
  exists value,
    len value = generatedValueSize (gn_encoding (gp_input (fst d))) /\
    (exists c, o !! gp_sourceVolume (fst d) = Some (v_Labels (volume_of volumes (gp_sourceVolume (fst d))), c) /\ source_holds (Some value) c) /\
    (exists c, o !! cc_volume (snd d) = Some (v_Labels (volume_of volumes (cc_volume (snd d))), c) /\
      delivered value (cc_uid (snd d)) (cc_gid (snd d)) c).

Definition well_placed (d : generatedInputPlan * consumerCopy) : Prop :=
  named vs (gp_sourceVolume (fst d)) "generated-private-source" /\ named vs (cc_volume (snd d)) "generated-private-input".

(** What is written elsewhere leaves it there. *)
Lemma supplied_kept o o' d : well_placed d -> supplied o d -> secrets_kept o o' -> o' !! cc_volume (snd d) = o !! cc_volume (snd d) -> supplied o' d.
Proof.
  intros [Hs _] (value & Hl & (c & Hc & Hh) & Hd) Hk Hsame'. exists value. split; [done|]. rewrite Hsame'. split; [|done].
  destruct (Hk _ _ _ value Hc) as (c' & ? & ?); [eapply of_role; done|done|by exists c'].
Qed.

Lemma written_elsewhere s v r o o' n : written s v r o o' -> n <> v_Name v -> o' !! n = o !! n.
Proof. intros [[_ ->]|(_ & l & c & c' & _ & _ & -> & _)] Hn; [done|]. by apply lookup_insert_ne, not_eq_sym. Qed.

Abbreviation dkeeps Q o m := (keeps store_step (good o0) (answers (failed o0) Q) o m).
#[local] Hint Resolve failed_err stop_keeps : core.

Lemma step_good o o' : good o0 o -> good o o' -> good o0 o' /\ secrets_kept o o'.
Proof. intros Ho [H1 H2]. split; [by apply (good_step _ o)|done]. Qed.

Lemma good_self o : good o0 o -> good o o.
Proof. by intros [H _]. Qed.

Lemma copy_supplies d o u : well_placed d -> good o0 o ->
  dkeeps (fun o' _ => good o0 o' /\ secrets_kept o o' /\ supplied o' d /\ forall n, n <> cc_volume (snd d) -> o' !! n = o !! n) o
    (copy_value volumes (fst d) u (snd d)).
Proof.
  destruct d as [i cc]. intros [Hsn Hcn] Ho. cbn [fst snd] in *. apply stored_keeps. intros r o' Hs.
  destruct (step_good o o' Ho) as [Ho' Hk]; [by eapply (copy_step project o vs); [..|apply good_self|exact Hs]|]. split; [done|].
  destruct r as [[]|]; [|by apply failed_err]. cbn [keeps]. split; [done|]. split; [done|].
  destruct (volume_of_role _ _ _ _ Hplanned Hsn Hsame) as (Hs1 & Hs2 & Hs3). destruct (volume_of_role _ _ _ _ Hplanned Hcn Hsame) as (Hc1 & Hc2 & Hc3).
  destruct Hs as [[Hn _]|(c & (_ & l & Hl & He) & Hs)]; [done|]. pose proof Ho as [Hi _].
  assert (Hne : gp_sourceVolume i <> cc_volume cc).
  { intros Hd. pose proof (Hsame _ _ Hs1 Hc1 ltac:(congruence)) as Hr. rewrite Hr, Hc3 in Hs3. discriminate Hs3. }
  apply equalLabels_exact in He as ->; [|by eapply pl_labels]. rewrite Hs2, Hc2 in *. rewrite decide_False in Hs by done.
  destruct Hs as (_ & l & c1 & c2 & Hc & He & -> & Hrun). apply equalLabels_exact in He as ->; [|by eapply pl_labels].
  destruct (pl_sources _ Hi _ _ _ Hl Hs3) as [secret Hsecret]. rewrite Hc2 in *.
  destruct (copy_run _ _ _ _ _ _ _ Hsecret (pl_copies _ Hi _ _ _ Hc Hc3) Hrun) as (value & -> & Hlen & Hd).
  split; [|intros n Hn; by apply lookup_insert_ne, not_eq_sym]. exists value. cbn [fst snd]. split; [done|]. split.
  - exists c. by rewrite lookup_insert_ne.
  - exists c2. by rewrite lookup_insert_eq.
Qed.

Lemma initialize_elsewhere st i o : named vs (gp_sourceVolume i) "generated-private-source" -> good o0 o ->
  dkeeps (fun o' _ => good o0 o' /\ secrets_kept o o' /\ forall n, n <> gp_sourceVolume i -> o' !! n = o !! n) o
    (initialize_source volumes st i).
Proof.
  intros Hn Ho. apply initialize_source_keeps; [done|auto|done|]. intros raw value r o1 Hr Hv Hs.
  destruct (step_good o o1 Ho) as [Ho1 Hk]; [by eapply (initialize_step project o vs); [..|apply good_self|exact Hr|exact Hv|exact Hs]|].
  split_and!; [done|auto|done|done|]. intros n Hne. eapply written_elsewhere; [exact Hs|].
  by destruct (volume_of_role _ _ _ _ Hplanned Hn Hsame) as (_ & -> & _).
Qed.

Definition deliveries (gens : list generatedInputPlan) : list (generatedInputPlan * consumerCopy) := gens ≫= fun i => pair i <$> gp_consumer i.

Abbreviation destinations ds := ((fun d : generatedInputPlan * consumerCopy => cc_volume (snd d)) <$> ds).

Lemma supplied_all o o' ds : Forall well_placed ds -> Forall (supplied o) ds -> secrets_kept o o' ->
  (forall d, d ∈ ds -> o' !! cc_volume (snd d) = o !! cc_volume (snd d)) -> Forall (supplied o') ds.
Proof.
  rewrite !Forall_forall. intros Hw Hs Hk Hd d Hin. apply (supplied_kept o); [by apply Hw|by apply Hs|done|by apply Hd].
Qed.

Lemma sources_apart name name' : named vs name "generated-private-source" -> named vs name' "generated-private-input" -> name' <> name.
Proof.
  intros Hs Hc ->. destruct (volume_of_role _ _ _ _ Hplanned Hs Hsame) as (_ & _ & H1).
  destruct (volume_of_role _ _ _ _ Hplanned Hc Hsame) as (_ & _ & H2). rewrite H1 in H2. discriminate H2.
Qed.

Lemma generate_supplies ds st u i o : named vs (gp_sourceVolume i) "generated-private-source" ->
  Forall well_placed (ds ++ deliveries [i]) -> NoDup (destinations (ds ++ deliveries [i])%list) -> good o0 o -> Forall (supplied o) ds ->
  dkeeps (fun o' _ => good o0 o' /\ Forall (supplied o') (ds ++ deliveries [i])) o (generate volumes st u i).
Proof.
  intros Hn Hw Hnd Ho Hds. unfold deliveries in *. cbn [mbind list_bind] in *. rewrite app_nil_r in *. apply Forall_app in Hw as [Hw1 Hw2].
  unfold generate. apply keeps_ebind. eapply keeps_mono; [|by apply initialize_elsewhere]. intros o1 [r|[]]; [done|]. intros (Ho1 & Hk & Helse).
  assert (Hds1 : Forall (supplied o1) ds).
  { apply (supplied_all o); [done..|]. intros d Hd. apply Helse. rewrite Forall_forall in Hw1. apply sources_apart; [done|apply Hw1, Hd]. }
  eapply keeps_mono; [|apply (keeps_loop store_step (good o0) (failed o0) (fun left o' _ => good o0 o' /\ exists before, before ++ left = gp_consumer i /\
    Forall (supplied o') (ds ++ (pair i <$> before)))%list)].
  - intros o' [r|[]]; [done|]. intros (Ho' & before & He & Hall). rewrite app_nil_r in He. by subst before.
  - intros cc left o2 [] (Ho2 & before & He & Hall). rewrite <- He, fmap_app in Hw2, Hnd. apply Forall_app in Hw2 as [Hw2 [Hcc _]%Forall_cons].
    eapply keeps_mono; [|apply (copy_supplies (i, cc) o2 tt Hcc Ho2)]. intros o3 [r|[]]; [done|]. intros (Ho3 & Hk3 & Hcopy & Helse3).
    split; [done|]. exists (before ++ [cc])%list. rewrite <- app_assoc. split; [done|]. rewrite fmap_app, app_assoc. apply Forall_app. split; [|by apply Forall_singleton].
    apply (supplied_all o2); [by apply Forall_app|done|done|]. intros d Hd. apply Helse3. intros Heq.
    rewrite app_assoc, fmap_app in Hnd. apply NoDup_app in Hnd as (_ & Hnd & _). apply (Hnd (cc_volume (snd d))).
    + apply list_elem_of_fmap. by exists d.
    + rewrite Heq. by left.
  - split; [done|]. exists []. split; [done|]. by rewrite app_nil_r.
Qed.

Lemma loop_supplies st gens o : Forall (fun i => named vs (gp_sourceVolume i) "generated-private-source") gens ->
  Forall well_placed (deliveries gens) -> NoDup (destinations (deliveries gens)) -> good o0 o ->
  dkeeps (fun o' _ => good o0 o' /\ Forall (supplied o') (deliveries gens)) o (loop (generate volumes st) tt gens).
Proof.
  intros Hn Hw Hnd Ho. unfold deliveries in *.
  eapply keeps_mono; [|apply (keeps_loop store_step (good o0) (failed o0) (fun left o' _ => good o0 o' /\ exists before, before ++ left = gens /\
    Forall (supplied o') (deliveries before))%list)].
  - intros o' [r|[]]; [done|]. intros (Ho' & before & He & Hall). rewrite app_nil_r in He. by subst before.
  - intros i left o1 [] (Ho1 & before & He & Hall). rewrite <- He in Hn, Hw, Hnd.
    replace (before ++ i :: left)%list with ((before ++ [i]) ++ left)%list in Hn, Hw, Hnd by by rewrite <- app_assoc.
    rewrite bind_app in Hw, Hnd. rewrite fmap_app in Hnd. apply Forall_app in Hw as [Hw _]. apply NoDup_app in Hnd as (Hnd & _). rewrite bind_app in Hw, Hnd.
    rewrite !Forall_app, Forall_singleton in Hn. destruct Hn as [[_ Hn] _].
    eapply keeps_mono; [|by apply (generate_supplies (deliveries before) st tt i o1)]. intros o2 [r|[]]; [done|]. intros [Ho2 Hall2].
    split; [done|]. exists (before ++ [i])%list. rewrite <- app_assoc. split; [done|]. unfold deliveries. by rewrite bind_app.
  - split; [done|]. by exists [].
Qed.
End Delivery.

Section Whole.
Context {configs : ServiceConfigs}.
Variables (project : string) (o0 : volume_map).
Hypothesis Hproject : project <> "".
#[local] Hint Resolve failed_err stop_keeps : core.

(** A run that answers a plan has supplied every consumer, if no two copies
    have one volume. *)
Definition outcome (pp : preparedPlan) (o : volume_map) (r : result string Plan) : Prop :=
  good o0 o /\ r = Ok (prepared_Plan project pp) /\
  (NoDup ((fun d => cc_volume (snd d)) <$> deliveries (pp_generated pp)) -> Forall (supplied (pp_Volumes pp) o) (deliveries (pp_generated pp))).

(** The volumes once the inventory names them. *)
Lemma volumes_good compiled inputs pp data inventory st o : preparePlan project compiled inputs = Ok pp -> merged_state project pp data inventory -> good o0 o ->
  listed project (canonicalJSON (inventory_json (mkInventory stateVersion project inventory))) o ->
  keeps store_step (good o0) (answers (failed o0) (outcome pp)) o (ensure_volumes_phase project inputs pp st).
Proof.
  intros Hpp Hm Ho Hl. destruct (prepared_inv _ _ _ _ Hpp) as [config Hinv]. pose proof (planned_volumes _ _ _ _ Hpp) as Hpl. pose proof (ms_same _ _ _ _ Hm) as Hsame.
  assert (Hwell : forall i, i ∈ pp_generated pp -> well_named (pp_Volumes pp) i) by apply (pv_generated _ _ _ Hinv).
  unfold ensure_volumes_phase. apply good_bind.
  { apply good_stored. intros r o' [Hc _]. enough (good o0 o') by (by split). apply (good_step _ o); [done|].
    eapply create_inv; [apply Ho|done|exact Hpl|exact Hc|]. right. eexists. split; [exact Hl|].
    intros v Hv. rewrite (proj2 (inventory_written _ _ _ _ Hpp _ _ Hm)). by apply (ms_current _ _ _ _ Hm). }
  intros _ o1 Ho1. apply good_bind.
  { apply good_loop; [done|]. intros i acc o2 _ Ho2. unfold inspect_remaining. destruct (bool_decide _); [done|by apply inspect_good]. }
  intros st1 o2 Ho2. apply good_bind; [apply good_loop; [done|]; intros; eapply finalize_good; eauto|].
  intros st2 o3 Ho3. apply good_bind; [apply good_loop; [done|]; intros; by eapply directory_good|].
  intros _ o4 Ho4. apply good_bind; [apply good_loop; [done|]; intros; eapply static_good; [done|done|by apply (pv_static _ _ _ Hinv)|done]|].
  intros _ o5 Ho5. apply keeps_ebind. eapply (keeps_mono _ _ (answers (failed o0) (fun o' _ => good o0 o' /\
    (NoDup ((fun d => cc_volume (snd d)) <$> deliveries (pp_generated pp)) -> Forall (supplied (pp_Volumes pp) o') (deliveries (pp_generated pp)))))).
  { intros o6 [r|[]]; [done|]. intros [Ho6 Hd]. by split_and!. }
  destruct (decide (NoDup ((fun d => cc_volume (snd d)) <$> deliveries (pp_generated pp)))) as [Hnd|Hnd].
  - eapply keeps_mono; [|eapply (loop_supplies project o0); [exact Hpl|exact Hsame| | |exact Hnd|exact Ho5]].
    + intros o6 [r|[]]; [done|]. intros [Ho6 Hd]. by split.
    + rewrite Forall_forall. intros i Hi. by destruct (Hwell i Hi).
    + rewrite Forall_forall. intros [i cc] Hd. unfold deliveries in Hd. apply list_elem_of_bind in Hd as (j & Hd & Hj).
      apply list_elem_of_fmap in Hd as (x & [= -> ->] & Hx). destruct (Hwell j Hj) as [? Hcs]. split; [done|by apply Hcs].
  - eapply keeps_mono; [|eapply (good_loop o0); [exact Ho5|intros; eapply generate_good; eauto]]. intros o6 [r|[]]; [done|]. by split.
Qed.

Lemma Ensure_outcome compiled inputs o : good o0 o ->
  keeps store_step (good o0) (fun o' r => failed o0 o' r \/ exists pp, preparePlan project compiled inputs = Ok pp /\ outcome pp o' r) o (Ensure project compiled inputs).
Proof.
  intros Ho. pose proof Ho as [Hi _]. apply reading_phase; [done|by left; auto|]. intros pp configuration st [Hpp (data & inventory & Hread & Hm & Hc) _].
  destruct (inventory_remembered _ Hproject _ _ _ Hpp _ _ Hi Hread) as [Hpub Hrem]. pose proof (merged_inventory _ _ _ _ Hpp _ _ Hpub Hm) as Hms.
  destruct (config_planned _ _ _ _ Hpp (ms_same _ _ _ _ Hms)) as (Hin & Hname & Hlabels).
  assert (Hdata : o !! config_name project = None -> data = "").
  { intros Hnone. destruct Hread as [_ Hread]. destruct (Hread data eq_refl) as [[_ ?]|(c & (_ & l & Hl & _) & _)]; [done|]. rewrite Hname in Hl. congruence. }
  apply (keeps_mono _ _ (answers (failed o0) (outcome pp))); [intros o' [r|r] Hr; [by left|by right; exists pp]|].
  unfold writing_phase. apply keeps_ebind, stored_keeps. intros r o1 [Hcr _].
  assert (Ho1 : good o0 o1).
  { apply (good_step _ o); [done|]. eapply create_inv; [done|done| |exact Hcr|left; intros v ->%list_elem_of_singleton; by split].
    apply Forall_singleton. pose proof (planned_volumes _ _ _ _ Hpp) as Hpl. rewrite Forall_forall in Hpl. by apply Hpl. }
  pose proof (created_remembers _ _ _ _ _ Hrem Hi Hcr Hdata) as Hrem1. split; [done|]. destruct r as [created|]; [|by apply failed_err]. cbn [keeps].
  apply keeps_ebind, stored_keeps. intros r o2 Hrep. destruct (replace_good _ _ Hproject _ _ _ Hpp _ _ _ _ _ _ Hms Ho1 Hrem1 Hc Hrep) as [Ho2 Hlist].
  split; [done|]. destruct r as [[]|]; [|by apply failed_err]. cbn [keeps]. eapply volumes_good; [done|done|done|by apply Hlist].
Qed.
End Whole.

(** ** Over Docker *)

Definition DockerEnsure `{ServiceConfigs} (pinned_reference : string -> bool) (HelperImage project : string) (compiled : Compiled) (inputs : Inputs) :
  prog docker_answer (result string Plan) := handle (DockerStore pinned_reference HelperImage) (Ensure project compiled inputs).

(** Any method of the store may fail and do nothing. *)
Lemma store_idle o c : exists r, store_step o c r o.
Proof.
  destruct c; exists None; cbn; try (by split); try (by left).
  - split; [apply created_refl|done].
  - split; [by left|by left].
Qed.

Lemma ensure_runs `{ServiceConfigs} pinned image project compiled inputs w w' r :
  runs docker_step w (DockerEnsure pinned image project compiled inputs) w' r ->
  runs store_step (labelled w) (Ensure project compiled inputs) (labelled w') r.
Proof. intros Hr. eapply handle_runs; [apply docker_store_implements|apply store_idle|exact Hr]. Qed.

(** Ensure of any projects, manifests and inputs, one run after another, each
    of them to its end or interrupted anywhere. *)
Inductive ensured (w : world) : world -> Prop :=
| ensured_none : ensured w w
| ensured_run (configs : ServiceConfigs) pinned image project compiled inputs w1 w2 r :
    ensured w w1 -> runs docker_step w1 (DockerEnsure pinned image project compiled inputs) w2 r -> ensured w w2.

Lemma ensure_good `{ServiceConfigs} pinned image project compiled inputs w w' r : platform_inv (labelled w) ->
  runs docker_step w (DockerEnsure pinned image project compiled inputs) w' r ->
  good (labelled w) (labelled w') /\
  forall plan, r = Some (Ok plan) -> exists pp, preparePlan project compiled inputs = Ok pp /\ outcome project (labelled w) pp (labelled w') (Ok plan).
Proof.
  intros Hi Hr%ensure_runs. assert (Hg : good (labelled w) (labelled w)) by done. destruct (decide (project = "")) as [->|Hp].
  - assert (Hk : keeps store_step (good (labelled w)) (failed (labelled w)) (labelled w) (Ensure "" compiled inputs)).
    { apply reading_phase; [done|intros e; by apply failed_err|]. intros pp configuration st [Hpp _ _]. by destruct (prepared_project _ _ _ _ Hpp). }
    destruct (keeps_runs _ _ _ _ _ _ _ Hg Hk Hr) as [H1 H2]. split; [done|]. intros plan ->. by destruct (H2 _ eq_refl) as [_ [e ?]].
  - destruct (keeps_runs _ _ _ _ _ _ _ Hg (Ensure_outcome project (labelled w) Hp compiled inputs _ Hg) Hr) as [H1 H2]. split; [done|].
    intros plan ->. by destruct (H2 _ eq_refl) as [[_ [e ?]]|?].
Qed.

Lemma ensured_good w w' : platform_inv (labelled w) -> ensured w w' -> good (labelled w) (labelled w').
Proof.
  intros Hi. induction 1 as [|configs pinned image project compiled inputs w1 w2 r _ IH Hr]; [done|].
  destruct (ensure_good _ _ _ _ _ _ _ _ (proj1 IH) Hr) as [[H1 H2] _]. destruct IH as [_ H0]. split; [done|by transitivity (labelled w1)].
Qed.

Lemma fresh_inv : platform_inv ∅.
Proof.
  split; try (intros n l c Hn; by rewrite lookup_empty in Hn). intros project _. left. intros n l c Hn. by rewrite lookup_empty in Hn.
Qed.

Lemma owned_labelled w n l c : w_volumes w !! n = Some (l, c) -> (exists k x, l !! k = Some x) -> labelled w !! n = Some (l, c).
Proof. intros Hn (k & x & Hk). apply labelled_lookup. split; [done|]. intros ->. by rewrite lookup_empty in Hk. Qed.

Lemma label_there l key x : label l key = x -> x <> "" -> exists k y, l !! k = Some y.
Proof. unfold label. destruct (l !! key) as [y|] eqn:E; [by eexists _, _|]. by intros <-. Qed.

(** C21: However many runs of Ensure have been interrupted, and wherever,
    the inventory on the project's configuration volume can be read and names
    every volume the project owns, so that none of them can be forgotten. *)
Theorem inventory_complete w0 w project n l c : labelled w0 = ∅ -> ensured w0 w ->
  project <> "" -> w_volumes w !! n = Some (l, c) -> owner_of l = project ->
  exists configuration data, w_volumes w !! config_name project = Some (config_labels project, configuration) /\
    read_inventory configuration = Some data /\ (n = config_name project \/ n ∈ inventory_names data).
Proof.
  intros H0 He Hp Hn Ho. destruct (ensured_good w0 w) as [Hi _]; [rewrite H0; apply fresh_inv|done|].
  assert (Hl : labelled w !! n = Some (l, c)) by (apply owned_labelled; [done|by eapply label_there]).
  destruct (pl_listed _ Hi project Hp) as [Hun|(data & (x & Hx & _ & Hr & _) & Hall)]; [by destruct (Hun _ _ _ Hl)|].
  exists x, data. apply labelled_lookup in Hx as [Hx _]. split_and!; [done|done|by eapply Hall].
Qed.

(** C20: The volume of a generated private value holds no value or one whole
    value, and the value it holds survives every later run of Ensure, of the
    same project or another, wherever that run is interrupted. *)
Theorem generated_secrets_survive w0 w w' n l c : labelled w0 = ∅ -> ensured w0 w -> ensured w w' ->
  w_volumes w !! n = Some (l, c) -> role_of l = "generated-private-source" ->
  exists secret, source_holds secret c /\
    forall value, secret = Some value -> exists c', w_volumes w' !! n = Some (l, c') /\ source_holds (Some value) c'.
Proof.
  intros H0 He He' Hn Hr. destruct (ensured_good w0 w) as [Hi _]; [rewrite H0; apply fresh_inv|done|].
  destruct (ensured_good w w' Hi He') as [_ Hk].
  assert (Hl : labelled w !! n = Some (l, c)) by (apply owned_labelled; [done|by eapply label_there]).
  destruct (pl_sources _ Hi _ _ _ Hl Hr) as [secret Hs]. exists secret. split; [done|]. intros value ->.
  destruct (Hk _ _ _ _ Hl Hr Hs) as (c' & Hc' & ?). exists c'. by apply labelled_lookup in Hc' as [Hc' _].
Qed.

(** The labels of a volume are not the plan's.  One thing goes unnoticed: as
    many labels as planned, one of them empty and under a key the plan does not
    have ([foreign_label_accepted]). *)
Definition other_labels (l planned : labels) : Prop :=
  l <> planned /\ (size l = size planned -> forall k, l !! k = Some "" -> is_Some (planned !! k)).

Lemma other_labels_unequal l planned : other_labels l planned -> equalLabels l planned = false.
Proof.
  intros [Hne Hempty]. apply not_true_iff_false. intros He. pose proof (equalLabels_size _ _ He) as Hs. apply Hne.
  apply map_subseteq_size_eq; [|by rewrite Hs]. apply map_subseteq_spec. intros k x Hx.
  pose proof (equalLabels_get _ _ _ _ He Hx) as Hr. destruct (planned !! k) as [y|] eqn:E; cbn in Hr; [by subst y|]. subst x.
  specialize (Hempty Hs k Hx). rewrite E in Hempty. by destruct Hempty.
Qed.

(** The file is the marker of a value, up to a collision of SHA-256. *)
Definition marks (n : option node) (value : string) : Prop :=
  exists marker, n = Some (File root_file marker) /\ sha256_hex marker = sha256_hex (privateSourceMarker value).

(** A private source with nothing published, or with one root-owned value of
    the right size and its marker: beside it, outside, or both. *)
Definition intact (expected : Z) (c : contents) : Prop :=
  is_unpublished c
  \/ exists value es, entry c "current" = Some (Dir root_dir es) /\ es !! "value" = Some (File root_file value) /\ len value = expected
     /\ (marks (es !! ".initialized") value /\ (entry c ".initialized" = None \/ marks (entry c ".initialized") value)
         \/ es !! ".initialized" = None /\ marks (entry c ".initialized") value).

Lemma accepted_marks marker value expected : test_private_source marker value expected = true ->
  len value = expected /\ marks (Some (File root_file marker)) value.
Proof.
  intros H. split; [by eapply marker_size|]. unfold test_private_source in H. apply andb_true_iff in H as [_ H].
  destruct (read_words marker) as [[[[? ?] ?] ?]|]; [|done]. apply andb_true_iff in H as [_ H]. apply String.eqb_eq in H. by exists marker.
Qed.

Lemma damaged_corrupt expected c : ~ intact expected c -> inspect expected c = SourceCorrupt.
Proof.
  intros Hn. unfold inspect. destruct (_ && _) eqn:E; [|destruct (test_ready expected c) eqn:Er; [|destruct (test_publishing expected c) eqn:Ep; [|done]]];
    destruct Hn.
  - left. unfold absent, there, not_link in E. rewrite !andb_true_iff, !negb_true_iff in E. destruct E as [[[E1 E2] E3] E4].
    split; [by destruct (entry c ".initialized") as [[]|]|by destruct (entry c "current") as [[]|]].
  - right. unfold test_ready in Er. destruct (entry c ".initialized") as [[m marker| | |]|] eqn:Ei; try done.
    destruct (entry c "current") as [[|d es| |]|] eqn:Ec; try done. destruct (es !! ".initialized") eqn:Ej; [done|].
    destruct (es !! "value") as [[vm value| | |]|] eqn:Ev; try done. rewrite !andb_true_iff, !bool_decide_eq_true in Er.
    destruct Er as [[[[_ ->] ->] ->] [Hl Hm]%accepted_marks]. exists value, es. split_and!; auto.
  - right. unfold test_publishing in Ep. destruct (entry c "current") as [[|d es| |]|] eqn:Ec; try done.
    destruct (es !! ".initialized") as [[jm journal| | |]|] eqn:Ej; try done. destruct (es !! "value") as [[vm value| | |]|] eqn:Ev; try done.
    rewrite !andb_true_iff, !bool_decide_eq_true in Ep. destruct Ep as [[[[[_ ->] ->] ->] [Hl Hm]%accepted_marks] Ho].
    exists value, es. split_and!; auto. left. split; [by rewrite Ej|]. destruct (entry c ".initialized") as [[m marker| | |]|]; try done; [|by left].
    right. apply andb_true_iff in Ho as [->%bool_decide_eq_true [_ Hm']%accepted_marks]. done.
Qed.

(** A volume of the plan is there with other labels, or a private source is
    there and damaged. *)
Definition conflicting (pp : preparedPlan) (o : volume_map) : Prop :=
  (exists v l c, v ∈ pp_Volumes pp /\ o !! v_Name v = Some (l, c) /\ other_labels l (v_Labels v)) \/
  (exists i l c, i ∈ pp_generated pp /\ o !! gp_sourceVolume i = Some (l, c) /\
    ~ intact (generatedValueSize (gn_encoding (gp_input i))) c).

(** C23: When a volume the plan needs has other labels than the plan's, or a
    private source is damaged, Ensure changes no managed volume and answers no
    plan.  The one difference of labels that is not noticed is an empty label in
    the place of one of the plan's. *)
Theorem conflict_stops_ensure `{ServiceConfigs} pinned image project compiled inputs pp w w' r : preparePlan project compiled inputs = Ok pp ->
  conflicting pp (labelled w) -> runs docker_step w (DockerEnsure pinned image project compiled inputs) w' r ->
  labelled w' = labelled w /\ forall plan, r <> Some (Ok plan).
Proof.
  intros Hpp Hc Hr%ensure_runs.
  assert (Hk : keeps store_step (fun o => o = labelled w) (fun o r => exists e, r = Err e) (labelled w) (Ensure project compiled inputs)).
  { apply reading_phase; [done|by intros e; exists e|]. intros pp' configuration st [Hpp' _ (existing & [_ Hv] & Hall)]. exfalso.
    rewrite Hpp in Hpp'. injection Hpp' as <-. specialize (Hv existing eq_refl). destruct Hc as [(v & l & c & Hin & Hl & He)|(i & l & c & Hi & Hl & He)].
    - apply other_labels_unequal in He. destruct (Hv v Hin) as [_ Hcase]. destruct (decide _); [|congruence].
      destruct Hcase as (c' & _ & l' & Hl' & He'). congruence.
    - apply damaged_corrupt in He. destruct (prepared_inv _ _ _ _ Hpp) as [config Hinv]. destruct (pv_generated _ _ _ Hinv i Hi) as [Hn _].
      destruct (volume_of_named _ _ _ Hn) as [Hin Hname]. destruct (Hv _ Hin) as [_ Hcase]. rewrite Hname in Hcase.
      destruct (decide _) as [Hex|]; [|congruence]. destruct (Hall i Hi Hex) as (c' & (_ & l' & Hl' & _) & Hne). rewrite Hname in Hl'. congruence. }
  destruct (keeps_runs _ _ _ _ _ _ _ eq_refl Hk Hr) as [H1 H2]. split; [done|]. intros plan ->. by destruct (H2 _ eq_refl) as [e ?].
Qed.

(** C22: When Ensure answers a plan, the volume of every consumer of a
    generated value has the value at its place, readable by that consumer
    alone, and it is the value its source keeps; the copies are assumed to
    have volumes of their own, which their names say up to a collision of
    SHA-256 prefixes. *)
Theorem ensure_supplies `{ServiceConfigs} pinned image project compiled inputs pp plan w0 w w' :
  labelled w0 = ∅ -> ensured w0 w -> preparePlan project compiled inputs = Ok pp ->
  NoDup ((fun d => cc_volume (snd d)) <$> deliveries (pp_generated pp)) ->
  runs docker_step w (DockerEnsure pinned image project compiled inputs) w' (Some (Ok plan)) ->
  plan = prepared_Plan project pp /\ Forall (supplied (pp_Volumes pp) (w_volumes w')) (deliveries (pp_generated pp)).
Proof.
  intros H0 He Hpp Hnd Hr. destruct (ensured_good w0 w) as [Hi _]; [rewrite H0; apply fresh_inv|done|].
  destruct (ensure_good _ _ _ _ _ _ _ _ Hi Hr) as [_ Hout]. destruct (Hout plan eq_refl) as (pp' & Hpp' & _ & [= ->] & Hs).
  rewrite Hpp in Hpp'. injection Hpp' as <-. split; [done|]. eapply Forall_impl; [exact (Hs Hnd)|].
  intros d (value & Hl & (c & Hc & Hc') & (c1 & Hd & Hd')). apply labelled_lookup in Hc as [Hc _]. apply labelled_lookup in Hd as [Hd _].
  exists value. split; [done|]. split; [by exists c|by exists c1].
Qed.

(** C24: A private source is never beyond recovery: in whatever state an
    interrupted run has left it, it is found empty, publishing or ready, and
    the script for that state runs to its end and leaves it ready, with the
    value it had if it had one. *)
Theorem private_source_recovers secret value c : sized value -> source_holds secret c ->
  (forall old, secret = Some old -> len old = len value) ->
  match inspect (len value) c with
  | SourceEmpty => secret = None /\ exists c', run (initialize_script (marker_files value) (len value)) c = Some c' /\ is_ready value c'
  | SourcePublishing => exists old c', secret = Some old /\ run (finalize_script (len value)) c = Some c' /\ is_ready old c'
  | SourceReady => exists old, secret = Some old /\ is_ready old c
  | SourceCorrupt => False
  end.
Proof.
  intros Hs Hc Hlen. destruct secret as [old|].
  - rewrite <- (Hlen old eq_refl). destruct Hc as [Ho [Hp|Hr]].
    + rewrite (inspect_publishing _ _ Ho Hp). destruct (covers_sound _ _ _ _ (finalize_covers old c Ho Hp)) as [_ (c' & ? & ?)]. by exists old, c'.
    + rewrite (inspect_ready _ _ Ho Hr). by exists old.
  - rewrite (inspect_unpublished _ _ Hc). split; [done|]. destruct (covers_sound _ _ _ _ (initialize_covers value c Hs Hc)) as [_ (c' & ? & ?)]. by exists c'.
Qed.

(** ** A concrete host

    A Docker that does what it is asked, for [n] commands. *)

Definition answer_if {A} (b : bool) (a : A) : option A := if b then Some a else None.

Definition ask_volumes (vols : volume_map) (name : string) : option string :=
  let out := match vols !! name with Some _ => name | None => "" end in
  answer_if (forallb (fun line => bool_decide (is_Some (vols !! line))) (Fields out)
    && match vols !! name with Some _ => bool_decide (name ∈ Fields out) | None => true end) out.

Definition ask_labels (vols : volume_map) (name : string) : option string :=
  match vols !! name with
  | Some (l, _) => let out := print_json (H := true) (labels_json l) in answer_if (bool_decide (unmarshal_labels (TrimSpace out) = Some l)) out
  | None => None
  end.

Definition run_body (names : list string) (b : body) (vols : volume_map) : option string * volume_map :=
  let writing name s :=
    match vols !! name with
    | Some (l, c) => match run s c with Some c' => (Some "", <[name := (l, c')]> vols) | None => (None, vols) end
    | None => (None, vols)
    end in
  match names, b with
  | [name], Reading f => (match vols !! name with Some (_, c) => f c | None => None end, vols)
  | [name], Writing s => writing name s
  | [source; name], Copying s =>
      match vols !! source with
      | Some (_, c) => if decide (source = name) then (None, vols) else writing name (s c)
      | None => (None, vols)
      end
  | _, _ => (None, vols)
  end.

Definition thirty_two : string := "0123456789abcdef0123456789abcdef".

Definition docker_do (w : world) (c : docker_call) : docker_answer c * world :=
  let vols := w_volumes w in
  match c with
  | VolumeLs name => (ask_volumes vols name, w)
  | VolumeInspect name => (ask_labels vols name, w)
  | VolumeCreate name l => (Some name, mkWorld (match vols !! name with Some _ => vols | None => <[name := (l, new_volume)]> vols end) (w_containers w))
  | ImageInspect | ImagePull => (Some "", w)
  | ContainerName => (Some ("nvt-state-" ++ Itoa (Z.of_nat (size (w_containers w)))), w)
  | ContainerCreate container names b =>
      match w_containers w !! container with
      | Some _ => (None, w)
      | None => (Some "", mkWorld vols (<[container := (names, b)]> (w_containers w)))
      end
  | ContainerStart container =>
      match w_containers w !! container with
      | Some (names, b) => let '(out, vols') := run_body names b vols in (out, mkWorld vols' (w_containers w))
      | None => (None, w)
      end
  | ContainerRemove container => (Some "", mkWorld vols (delete container (w_containers w)))
  | RandomRead => (Some thirty_two, w)
  end.

Lemma stops_here s c : stops s c c.
Proof. destruct s; by left. Qed.

Lemma writing_step s name vols : 
  let '(out, vols') := match vols !! name with
    | Some (l, c) => match run s c with Some c' => (Some "", <[name := (l, c')]> vols) | None => (None, vols) end
    | None => (None, vols)
    end in script_step s (succeeded out) name vols vols'.
Proof.
  unfold script_step. destruct (vols !! name) as [[l c]|] eqn:E; [|done]. destruct (run s c) as [c'|] eqn:Er; [by exists c'|].
  exists c. split; [by rewrite insert_id|apply stops_here].
Qed.

Lemma run_body_step names b vols : let '(out, vols') := run_body names b vols in body_step names b out vols vols'.
Proof.
  unfold run_body, body_step. destruct names as [|n1 [|n2 [|]]]; [by destruct b|..|by destruct b].
  - destruct b as [f|s|s]; [|apply writing_step|done]. split; [done|]. intros out. destruct (vols !! n1) as [[l c]|]; [|done]. by exists l, c.
  - destruct b as [f|s|s]; [done|done|]. destruct (vols !! n1) as [[l1 c1]|] eqn:E1.
    + destruct (decide (n1 = n2)) as [<-|Hne]; [rewrite E1; exists c1; by rewrite insert_id|apply writing_step].
    + destruct (decide (n1 = n2)) as [<-|Hne]; [by rewrite E1|done].
Qed.

Lemma docker_do_step w c : docker_step w c (fst (docker_do w c)) (snd (docker_do w c)).
Proof.
  destruct c as [name|name|name l| | | |container names b|container|container|]; cbn [docker_do fst snd docker_step]; try done.
  - split; [done|]. unfold ask_volumes, answer_if. set (out := match w_volumes w !! name with Some _ => name | None => "" end).
    destruct (_ && _) eqn:Hb; [|done]. intros ? [= <-]. apply andb_true_iff in Hb as [Hall Hin]. rewrite forallb_forall in Hall. split.
    + intros line Hl. apply (bool_decide_eq_true_1 _), Hall. by apply list_elem_of_In.
    + intros [x Hx]. rewrite Hx in Hin. by apply bool_decide_eq_true_1 in Hin.
  - split; [done|]. unfold ask_labels. destruct (w_volumes w !! name) as [[l c]|]; [|done]. unfold answer_if.
    destruct (bool_decide _) eqn:Hb; [|done]. intros ? [= <-]. apply bool_decide_eq_true_1 in Hb. by exists l, c.
  - split; [done|]. by left.
  - assert (Hm : mounted names (w_volumes w) (w_volumes w)) by (split; [done|by left]).
    destruct (w_containers w !! container) eqn:E; (split; [exact Hm|]); [by left|by right].
  - destruct (w_containers w !! container) as [[names b]|]; [|done]. pose proof (run_body_step names b (w_volumes w)) as H.
    destruct (run_body names b (w_volumes w)) as [out vols']. done.
  - split; [done|]. by right.
  - split; [done|]. by intros ? [= <-].
Qed.

Fixpoint perform_all {A} (n : nat) (w : world) (p : prog docker_answer A) {struct p} : world * option A :=
  match p, n with
  | Ret a, _ => (w, Some a)
  | Call _ _, O => (w, None)
  | Call c k, S n' => let '(r, w') := docker_do w c in perform_all n' w' (k r)
  end.

Lemma perform_all_runs {A} n w (p : prog docker_answer A) : runs docker_step w p (fst (perform_all n w p)) (snd (perform_all n w p)).
Proof.
  revert n w. induction p as [a|c k IH]; intros n w; cbn [perform_all].
  - by right.
  - destruct n as [|n]; [by left|]. pose proof (docker_do_step w c) as Hs. destruct (docker_do w c) as [r w'] eqn:E. cbn [fst snd] in Hs.
    right. exists r, w'. split; [exact Hs|apply IH].
Qed.

Lemma run_ensured `{ServiceConfigs} pinned image project compiled inputs n w0 w : ensured w0 w ->
  ensured w0 (fst (perform_all n w (DockerEnsure pinned image project compiled inputs))).
Proof. intros Hw. eapply ensured_run; [exact Hw|]. apply perform_all_runs. Qed.

#[local] Instance demo_configs : ServiceConfigs := {
  CompiledJSON _ := Some "{}"; BrokerConfig _ := Some "{}"; ControllerConfig _ _ := Some "{}"; GatewayConfig _ := Some "{}";
  ProducerConfiguration _ := Some "{}"
}.

Definition demo : Compiled := mkCompiled APIVersion [] [] [] [] JNull.
Definition demo_image : string := "sha256:" ++ "0123456789abcdef0123456789abcdef0123456789abcdef0123456789abcdef".
Abbreviation demo_Ensure := (DockerEnsure (fun _ => false) demo_image "demo" demo (mkInputs [] ∅)).
Abbreviation demo_run n w := (fst (perform_all n w demo_Ensure)).
Definition fresh : world := mkWorld ∅ ∅.

Definition demo_plan : preparedPlan :=
  match preparePlan "demo" demo (mkInputs [] ∅) with Ok pp => pp | Err _ => mkPrepared [] [] "" [] [] [] end.

Lemma demo_prepared : preparePlan "demo" demo (mkInputs [] ∅) = Ok demo_plan.
Proof.
  unfold demo_plan. destruct (preparePlan "demo" demo (mkInputs [] ∅)) as [pp|e] eqn:E; [reflexivity|]. exfalso.
  apply (f_equal (fun r => match r with Ok _ => true | Err _ => false end)) in E. vm_compute in E. discriminate E.
Qed.

Definition volume_at (w : world) (n : string) : labels * contents := default (∅, new_volume) (w_volumes w !! n).
Definition demo_broker : Volume := plan_volume "demo" "broker-data" "broker-database-audit" "broker" ["broker"].

Lemma demo_ensured n w0 w : ensured w0 w -> ensured w0 (demo_run n w).
Proof.
  intros Hw. exact (run_ensured (fun _ => false) demo_image "demo" demo (mkInputs [] ∅) n w0 w Hw).
Qed.

(** The first run stopped with a source and a helper left; the volume of the
    broker's database not there yet, and there. *)
Abbreviation interrupted := (demo_run 110 fresh).

Lemma demo_owned : w_volumes (demo_run 40 fresh) !! "demo-broker-data" = Some (v_Labels demo_broker, new_volume).
Proof. vm_compute. reflexivity. Qed.

Lemma volume_at_there w n : bool_decide (is_Some (w_volumes w !! n)) = true -> w_volumes w !! n = Some (fst (volume_at w n), snd (volume_at w n)).
Proof. unfold volume_at. intros [[l c] H]%bool_decide_eq_true_1. by rewrite H. Qed.

Lemma demo_secret : bool_decide (is_Some (w_volumes interrupted !! "demo-generated-ae37ad67543a3382742c745f"))
  && (role_of (fst (volume_at interrupted "demo-generated-ae37ad67543a3382742c745f")) =? "generated-private-source")%string = true.
Proof. vm_compute. reflexivity. Qed.

Lemma inventory_complete_witness : exists configuration data,
  w_volumes (demo_run 40 fresh) !! config_name "demo" = Some (config_labels "demo", configuration) /\
  read_inventory configuration = Some data /\ ("demo-broker-data" = config_name "demo" \/ "demo-broker-data" ∈ inventory_names data).
Proof.
  apply (inventory_complete fresh (demo_run 40 fresh) "demo" "demo-broker-data" (v_Labels demo_broker) new_volume).
  - reflexivity.
  - apply demo_ensured, ensured_none.
  - discriminate.
  - apply demo_owned.
  - reflexivity.
Defined.

Lemma generated_secrets_survive_witness : exists secret,
  source_holds secret (snd (volume_at interrupted "demo-generated-ae37ad67543a3382742c745f")) /\
  forall value, secret = Some value -> exists c',
    w_volumes (demo_run 60 (demo_run 30 interrupted)) !! "demo-generated-ae37ad67543a3382742c745f" =
      Some (fst (volume_at interrupted "demo-generated-ae37ad67543a3382742c745f"), c') /\ source_holds (Some value) c'.
Proof.
  apply (generated_secrets_survive fresh interrupted (demo_run 60 (demo_run 30 interrupted)) "demo-generated-ae37ad67543a3382742c745f"
    (fst (volume_at interrupted "demo-generated-ae37ad67543a3382742c745f")) (snd (volume_at interrupted "demo-generated-ae37ad67543a3382742c745f"))).
  - reflexivity.
  - apply demo_ensured, ensured_none.
  - apply demo_ensured, demo_ensured, ensured_none.
  - apply volume_at_there. exact (proj1 (andb_prop _ _ demo_secret)).
  - apply String.eqb_eq. exact (proj2 (andb_prop _ _ demo_secret)).
Defined.

Definition taken : world := mkWorld {["demo-broker-data" := ({["owner" := "somebody"]}, new_volume)]} ∅.

Lemma conflict_stops_ensure_witness : labelled (demo_run 5000 taken) = labelled taken /\
  forall plan, snd (perform_all 5000 taken demo_Ensure) <> Some (Ok plan).
Proof.
  apply (conflict_stops_ensure (fun _ => false) demo_image "demo" demo (mkInputs [] ∅) demo_plan).
  - apply demo_prepared.
  - left. exists demo_broker, {["owner" := "somebody"]}, new_volume.
    split; [apply (bool_decide_unpack _); vm_compute; exact I|]. split; [reflexivity|]. split.
    + intros H. apply (f_equal size) in H. vm_compute in H. discriminate H.
    + intros H. vm_compute in H. discriminate H.
  - exact (perform_all_runs 5000 taken demo_Ensure).
Defined.

Lemma demo_done : snd (perform_all 5000 interrupted demo_Ensure) = Some (Ok (prepared_Plan "demo" demo_plan)).
Proof. vm_compute. reflexivity. Qed.

Lemma ensure_supplies_witness : prepared_Plan "demo" demo_plan = prepared_Plan "demo" demo_plan /\
  Forall (supplied (pp_Volumes demo_plan) (w_volumes (demo_run 5000 interrupted))) (deliveries (pp_generated demo_plan)) /\
  length (deliveries (pp_generated demo_plan)) = 4%nat.
Proof.
  destruct (ensure_supplies (fun _ => false) demo_image "demo" demo (mkInputs [] ∅) demo_plan (prepared_Plan "demo" demo_plan) fresh interrupted
    (demo_run 5000 interrupted)) as [H1 H2].
  - reflexivity.
  - apply demo_ensured, ensured_none.
  - apply demo_prepared.
  - apply (bool_decide_unpack _). vm_compute. exact I.
  - rewrite <- demo_done. exact (perform_all_runs 5000 interrupted demo_Ensure).
  - split; [exact H1|]. split; [exact H2|]. vm_compute. reflexivity.
Defined.

Definition half_published : contents := mkContents root_dir {["current" := Dir root_dir (published_dir thirty_two)]}.

Lemma private_source_recovers_witness : exists old c', Some thirty_two = Some old /\
  run (finalize_script (len thirty_two)) half_published = Some c' /\ is_ready old c'.
Proof.
  assert (Hs : sized thirty_two) by (left; reflexivity).
  assert (Hc : source_holds (Some thirty_two) half_published) by (split; [exact Hs|]; left; split; [reflexivity|left; reflexivity]).
  assert (Hlen : forall old, Some thirty_two = Some old -> len old = len thirty_two) by (intros old Ho; injection Ho as <-; reflexivity).
  pose proof (private_source_recovers (Some thirty_two) thirty_two half_published Hs Hc Hlen) as H.
  rewrite (inspect_publishing thirty_two half_published Hs) in H by (split; [reflexivity|left; reflexivity]). exact H.
Defined.

Lemma private_mounts_apart_witness : "broker" ∈ v_Consumers demo_broker /\ trustedGeneratedConsumer "broker" = true /\
  v_Role demo_broker <> "generated-private-source" /\ (private_role (v_Role demo_broker) = true -> v_Consumers demo_broker = ["broker"] /\ false = true).
Proof.
  apply (private_mounts_apart "demo" demo (mkInputs [] ∅) demo_plan (mkMount "broker" "demo-broker-data" "" "/var/lib/nvt/broker" false) demo_broker).
  - apply demo_prepared.
  - apply (bool_decide_unpack _). vm_compute. exact I.
  - apply (bool_decide_unpack _). vm_compute. exact I.
  - apply (bool_decide_unpack _). vm_compute. exact I.
  - reflexivity.
Defined.

(** The check of labels looks at the volume's own keys: one it has beyond the
    project's is not missed if its value is empty. *)
Example foreign_label_accepted : exists l : labels, l <> v_Labels demo_broker /\ owner_of l = "" /\ equalLabels l (v_Labels demo_broker) = true.
Proof.
  exists (<["somebody" := ""]> (delete ownerLabel (v_Labels demo_broker))). split; [|split; reflexivity].
  intros H. apply (f_equal (fun l => owner_of l)) in H. vm_compute in H. discriminate H.
Qed.
